(* ===== verification/_CoqProject ===== *)
-Q . S2P
Prelude.v
Errors.v
Wire.v
TournamentTypes.v
CoreEnums.v
DomainEnums.v
FormatPlan.v
Entities.v
BracketModel.v
Elimination.v
EliminationFacts.v
SingleEliminationProps.v
DoubleEliminationProps.v
Rounds.v
RoundRobinProps.v
SwissProps.v
GroupsProps.v
VetoModel.v
Rows.v
ResultModel.v
SagaModel.v
TournamentModel.v
ScheduleModel.v
PugModel.v
LeagueModel.v
Store.v
TournamentStore.v
StoreFacts.v
Samples.v
Reviews.v
SagaStore.v
ClaimStore.v
DisputeStore.v
VetoStore.v
Veto.v
VetoFacts.v
VetoSystem.v
VetoProps.v
Standings.v
StandingsProps.v
Helpers.v
HelpersProps.v
Progression.v
Completion.v
SagaFacts.v
ProgressionProps.v
CompletionProps.v
SagaRun.v
SagaWrites.v
SagaConverge.v
SagaProps.v
ReviewProps.v
Lifecycle.v
LifecycleProps.v
Actor.v
RegistrationFacts.v
Registrations.v
Tournaments.v
StartFacts.v
StartProps.v
RegistrationProps.v
SeedingProps.v
StartElim.v
Results.v
Scheduling.v
Availability.v
Disputes.v
Redrive.v
ClaimFacts.v
DisputeFacts.v
ResultSystem.v
ResultProps.v
AvailabilityProps.v
SchedulingProps.v
Pug.v
PugProps.v
Eligibility.v
LeagueStore.v
LeagueTeams.v
RosterProps.v
