(* ===== verification/Prelude.v ===== *)
(** The Gaming Portal core: root of the development.

    The portal runs tournaments. Its workspace (src/crates/) has a core crate of
    types, a domain crate of entities, repository traits and services, a database
    crate that implements the traits in SQL, and the HTTP interface, process
    wiring, game plugins and storage around them. This library models the core
    and the services that decide tournaments, over the SQL they run.

    * How the program is represented

    A service method is a Rocq function of the same name. Pure code returns
    [result] (Prelude), with [let?] for the [?] operator; code over the database
    is a program of type [M A] (Store): a function from the tables [Db.t] to an
    outcome and the tables after it, with [let*]. A program that fails keeps what
    it wrote before, as service code outside a transaction does; statements the
    source wraps in a SQL transaction use [transaction], which takes the writes
    back on failure. Machine integers are [Z] with their wrap-around or range
    written out ([as_u32], [in_i32]); floating-point scores are binary64 of
    SpecFloat. Tables are [gmap]s by identifier, or lists where order counts.
    Module [X] with [X.t] is the struct or enum [X] of the source, field for field.

    * The parts

    - Errors, Wire: the error type of every service (portal-core/src/errors.rs),
      the string functions of Rust the code calls, and the interface every status
      enum discharges ([WireLaws]: a complete list of variants and a printer with
      its parser).
    - TournamentTypes, CoreEnums, DomainEnums, FormatPlan: the enums of
      portal-core/src/types and portal-domain/src/entities with their transition
      tables, and the match formats of a stage.
    - Entities, BracketModel, Rows, ResultModel, VetoModel, SagaModel,
      TournamentModel, ScheduleModel, PugModel: the structs of portal-domain/src/entities and of the repository traits.
    - Elimination (Modules of single_elimination.rs and double_elimination.rs) and
      Rounds (round_robin.rs, swiss.rs, groups.rs), of
      services/tournament/bracket_generator/: pure generators; EliminationFacts
      carries the proofs, the files named …Props the properties.
    - Store, ClaimStore, DisputeStore, VetoStore: the tables and the SQL of
      portal-db/src/adapters, one definition per statement; StoreFacts the frame
      and inversion lemmas; Samples the concrete states of the witnesses.
    - TournamentStore, Registrations, Tournaments (adapters/tournament/
      {tournament,registration,invitation,map_pool}.rs and services/tournament/
      {registration,checkin,seeding,service}.rs): a tournament from its creation
      to its start. RegistrationFacts counts places and says when a table of
      registrations is in order; RegistrationProps, AdmissionProps and
      SeedingProps hold the properties. StartFacts runs the statements of
      a set-up, StartProps joins them for single elimination and, with
      StartElim, holds the properties of a start.
    - Helpers, Progression (services/tournament/{helpers,progression}.rs):
      wiring and seating, advancing winners, dropping losers, readiness,
      completion, the change of stage, reverting and reapplying a result.
      Properties: ProgressionProps, CompletionProps, HelpersProps.
    - Standings (adapters/tournament/standings.rs and standings.rs of the
      services): the derivation of the table from the results, the ranking.
    - Lifecycle (match_lifecycle.rs, forfeit.rs): guarded, logged
      changes of a match's status, check-in, forfeits, withdrawal.
      Properties: LifecycleProps.
    - Veto (veto.rs): the pick and ban of maps. VetoFacts states the invariant of
      sessions and their action log, VetoSystem the service as a transition
      system in which processes may die between two writes, VetoProps the
      properties of its reachable states.
    - Actor, Results, Disputes (registration_actor.rs, result.rs, dispute.rs):
      who speaks for an entry, claims of a result, their confirmation by the
      opponent or the clock, disputes and their resolutions. ClaimFacts and
      DisputeFacts read each operation off as an error that wrote nothing or the
      rows it wrote; ResultSystem is both services, the clock and the rest of the
      program as one transition system; ResultProps and DisputeProps the
      properties.
    - SagaModel, SagaStore, Completion
      (services/tournament/{saga,match_completion}.rs, adapters/saga.rs,
      adapters/tournament/match_completion_tx.rs): what follows a confirmed
      result, step by step, each step recorded on the row of its execution. A
      step is a program of type [X A] (SagaStore): it has an execution in hand beside
      the tables. SagaFacts reads the steps off, SagaRun joins them
      into a run, SagaWrites and SagaConverge see a run as a list of writes that
      can be repeated; SagaProps and SagaSafety hold the properties.
      Module CompletionTx is the same completion as one transaction. Serde's encoding of the input is [CompletionSerde]; [SagaLaws]
      is what a completion asks of the services behind its traits.
    - Reviews (result_review.rs, adapters/result_review.rs,
      portal-api/src/adapters/review_creator.rs): reviews of results the demos
      contradict; ReviewProps.
    - Redrive (portal-api/src/background/mod.rs, handlers/result_reviews.rs): who
      runs completions besides the confirm handler: the sweep of overdue claims,
      the re-drive of failed executions, the resumption after a review;
      RedriveProps.

    - Scheduling, Availability (scheduling.rs, availability.rs,
      adapters/tournament/schedule_proposal.rs, adapters/availability.rs): the
      proposals by which the sides of a match agree on its time, the hours each
      side declares free, and the times suggested where these overlap;
      SchedulingProps, AvailabilityProps.
    - Pug (services/pug.rs, adapters/pug.rs): pick-up games, from the lobby to the
      plan of its lock: who sits where, the draft, the shuffle, and the wheel that
      draws a map; PugProps.
    - Eligibility (entities/eligibility.rs, services/eligibility.rs,
      services/eligibility_service.rs): the rules of leagues and tournaments on
      players and rosters, with their properties. Its service asks the two
      repositories it is generic in, the class [PlayerRecords].

    A start hands the seeded entrants to a generator; its matches with textual
    sources go to Helpers, which wires and seats them; Scheduling gives a match
    its time and Lifecycle moves it to play; Veto picks its maps; a claim that is
    confirmed or a dispute that is resolved writes the result on the match;
    Progression reads it off, moves the players on and has Standings recompute.

    * What the theorems show

    - Generators: everyone is placed once, everyone meets everyone once, byes and
      seeds stand where they should, sources and links agree, rematches are
      avoided when the greedy order can.
    - Tournaments: registrations stay unique and within the maximum whatever the
      order of the calls; who is admitted, and why not; seeds number everyone;
      a start builds the bracket once, and a single elimination can then be
      played: every entrant seated or through on a bye, every match wired, those
      with two entrants ready.
    - Progression: winners land in the slot wired to their match, a revert takes
      back exactly that, evicts nobody else and converges; completion, readiness
      and the single change of stage.
    - Standings: zero-sum, idempotent, ranked.
    - Lifecycle: the table of statuses ends, and every move of a match follows it
      and is logged.
    - Veto: an invariant of all reachable states (the pool is partitioned, the
      log follows the format, turns are the format's), completion by the clock
      alone, an interrupted action finished by its retry.
    - Results and disputes: at most one pending claim and one open dispute per
      match and nothing settled ever changes; exactly which claims, confirmations
      and disputes go through and what they write; the two ways of accepting a
      claim agree; the sweep leaves nothing overdue.
    - Completion: an execution does what the services of Progression and
      Standings do, in order, and records it; re-running an interrupted one ends
      where the uninterrupted one would; the transactional version agrees; one
      live execution per match; a contradicted result waits for its review, and
      is then applied once; the background pass heals a failed completion.
    - Scheduling: at most one proposal pending per match, settled once and by the
      other side; the free slots of a date and the suggested times are exactly
      the instants the declared hours leave free, merged and clipped.
    - Pick-up games: a lobby never outgrows its size and does not change once it
      is locked, whatever the order of the calls; the draft goes to the smaller
      team, a lobby locks exactly when its teams are ready, and a roll of the
      wheel lands on a map as often as it was nominated.
    - Eligibility: the evaluation is exact, averages included; composing the rules
      of a league and a tournament admits whom both admit; rules that are called
      contradictory refuse everyone, and a roster over the total stays over it.
    - Where the code does something else than it means to, a lemma shows it.

    * Bounds and fuel

    [chain_deciders_loop] runs with one step more than the format has actions:
    each step advances the session's cursor, so the loop ends before the fuel.
    [list_pages] has one turn more than there are rows, and every turn but the
    last consumes a page ([list_all_by_tournament_complete]).
    [suggest_dates] has one turn for each day of the interval it is given.
    The Swiss and elimination loops recurse on lists and on counts computed from
    the number of entries, as their sources loop. Everything else is structural.

    * Taken as given

    JSON values (serde_json), the text of identifiers, instants and database
    errors, and chance are parameters ([Platform], [Chance.t]); their laws are
    named hypotheses where a theorem needs them. Identifiers are drawn fresh from
    [Db.next_uuid]. Transactions are serial. The database does not fail except by
    the constraints written out; foreign keys are modelled only where a statement
    depends on one. Sums of scores in SQL (int4) do not overflow; LIMIT and OFFSET
    are non-negative.

    * Not modelled

    Evidence, demos and lineups, the other duties of the background pass, awards
    and leagues: uploads, parsing of files and storage of records, with little
    logic of their own. The flow that turns a locked lobby into a match
    (portal-api/src/pug_flow.rs), a chain of calls on a dozen repositories. The
    HTTP interface, permissions, accounts, game servers, plugins, caches and
    storage are input and output around this core. The listings of the
    repositories that no modelled service calls are left out. *)

From stdpp Require Export base list strings gmap pretty numbers sorting.
From Stdlib Require Export Lia.

Declare Scope portal_scope.
Delimit Scope portal_scope with portal.
#[global] Open Scope portal_scope.

(** ** Results: [Result<T, E>] of the source *)

Inductive result (A E : Type) : Type :=
| Ok (a : A)
| Err (e : E).
Arguments Ok {A E} a.
Arguments Err {A E} e.

(** The [?] operator. *)
Definition result_bind {A B E} (r : result A E) (k : A → result B E) : result B E :=
  match r with Ok a => k a | Err e => Err e end.

Definition result_map_err {A E F} (f : E → F) (r : result A E) : result A F :=
  match r with Ok a => Ok a | Err e => Err (f e) end.

(** [Option::ok_or_else]. *)
Definition ok_or {A E} (o : option A) (e : E) : result A E :=
  match o with Some a => Ok a | None => Err e end.

Notation "'let?' x ':=' c 'in' k" := (result_bind c (λ x, k))
  (at level 10, x pattern, c at level 200, k at level 200) : portal_scope.
Notation "'guard?' b 'else' e 'in' k" := (if (b : bool) then k else Err e)
  (at level 10, b at level 100, e at level 100, k at level 200) : portal_scope.

Definition is_ok {A E} (r : result A E) : bool :=
  match r with Ok _ => true | Err _ => false end.

Lemma result_bind_ok {A B E} (r : result A E) (k : A → result B E) b :
  result_bind r k = Ok b ↔ ∃ a, r = Ok a ∧ k a = Ok b.
Proof. destruct r; simpl; naive_solver. Qed.

Lemma result_bind_err {A B E} (r : result A E) (k : A → result B E) e :
  result_bind r k = Err e ↔ r = Err e ∨ ∃ a, r = Ok a ∧ k a = Err e.
Proof. destruct r; simpl; naive_solver. Qed.

Lemma ok_or_ok {A E} (o : option A) (e : E) a : ok_or o e = Ok a ↔ o = Some a.
Proof. destruct o; simpl; naive_solver. Qed.

(** A fallible [for] loop: the first error leaves the loop. *)
Fixpoint try_fold {A S E} (f : S → A → result S E) (s : S) (l : list A) : result S E :=
  match l with
  | [] => Ok s
  | x :: l => let? s := f s x in try_fold f s l
  end.

Lemma try_fold_app {A S E} (f : S → A → result S E) s l1 l2 :
  try_fold f s (l1 ++ l2) = let? s := try_fold f s l1 in try_fold f s l2.
Proof. revert s. induction l1 as [|x l1 IH]; intros s; simpl; [done|]. destruct (f s x); simpl; auto. Qed.

Lemma try_fold_ext {A S E} (f g : S → A → result S E) s l :
  (∀ s x, f s x = g s x) → try_fold f s l = try_fold g s l.
Proof.
  intros Hfg. revert s. induction l as [|x l IH]; intros s; simpl; [done|].
  rewrite Hfg. destruct (g s x); simpl; auto.
Qed.

(** An invariant of the state holds after a fallible loop that succeeds. *)
Lemma try_fold_inv {A S E} (P : S → Prop) (f : S → A → result S E) s l s' :
  (∀ s x s', x ∈ l → P s → f s x = Ok s' → P s') → P s → try_fold f s l = Ok s' → P s'.
Proof.
  revert s. induction l as [|x l IH]; simpl; intros s Hf Hs.
  { by intros [= <-]. }
  intros (s1 & H1 & H2)%result_bind_ok.
  eapply (IH s1); [|eapply Hf; [apply elem_of_cons|..]; eauto|done].
  intros ? y ? Hy. apply Hf, elem_of_cons. by right.
Qed.

(** A loop whose steps all succeed is a plain fold. *)
Lemma try_fold_ok {A S E} (f : S → A → result S E) (g : S → A → S) s l :
  (∀ s x, x ∈ l → f s x = Ok (g s x)) → try_fold f s l = Ok (fold_left g l s).
Proof.
  revert s. induction l as [|x l IH]; simpl; intros s Hf; [done|].
  rewrite Hf by (apply elem_of_cons; by left). simpl. apply IH.
  intros s' y Hy. apply Hf, elem_of_cons. by right.
Qed.

(** ** Faults

    A computation ends normally, with a [DomainError], or in a panic (an index
    out of range). The errors are those the modelled code builds; identifiers
    are kept, message texts are kept where the code computes them. *)

(** Identifiers are newtypes over a 128-bit UUID. *)
Abbreviation Uuid := N (only parsing).
Abbreviation TournamentId := N (only parsing).
Abbreviation TournamentStageId := N (only parsing).
Abbreviation TournamentBracketId := N (only parsing).
Abbreviation TournamentMatchId := N (only parsing).
Abbreviation TournamentRegistrationId := N (only parsing).
Abbreviation LeagueTeamSeasonId := N (only parsing).
Abbreviation PlayerId := N (only parsing).
Abbreviation UserId := N (only parsing).
Abbreviation TournamentMatchGameId := N (only parsing).
Abbreviation VetoSessionId := N (only parsing).
Abbreviation VetoActionId := N (only parsing).
Abbreviation ResultClaimId := N (only parsing).
Abbreviation EvidenceId := N (only parsing).
Abbreviation DemoMatchLinkId := N (only parsing).
Abbreviation DisputeId := N (only parsing).
Abbreviation DisputeMessageId := N (only parsing).
Abbreviation SagaId := N (only parsing).
Abbreviation ResultReviewId := N (only parsing).
Abbreviation GameId := N (only parsing).
Abbreviation LeagueId := N (only parsing).
Abbreviation LeagueSeasonId := N (only parsing).
Abbreviation TournamentInvitationId := N (only parsing).
Abbreviation TournamentMapPoolId := N (only parsing).

(** [chrono::DateTime<Utc>], an instant in nanoseconds, and [chrono::Duration]s. *)
Abbreviation DateTime := Z (only parsing).
Definition seconds (n : Z) : Z := n * 1000000000.
Definition minutes (n : Z) : Z := seconds (n * 60).

(** [index l i] is [l[i]]: a panic out of range. *)
Inductive fault (E : Type) : Type :=
| Error (e : E)
| Panic.
Arguments Error {E} e.
Arguments Panic {E}.

Definition throw {A E} (e : E) : result A (fault E) := Err (Error e).

Definition index {A E} (l : list A) (i : Z) : result A (fault E) :=
  if bool_decide (0 ≤ i)%Z then ok_or (l !! Z.to_nat i) Panic else Err Panic.

Lemma index_ok {A E} (l : list A) i x :
  (0 ≤ i)%Z → l !! Z.to_nat i = Some x → index (E := E) l i = Ok x.
Proof. intros Hi Hl. unfold index. by rewrite bool_decide_true, Hl. Qed.

(** ** Record update: [r <| field := v |>] *)

Class Eta (R : Type) := eta : R → R.
Class Setter {R E : Type} (p : R → E) := setter : E → R → R.
Arguments setter {R E} p {_} v r /.

Ltac solve_setter :=
  match goal with
  | |- @Setter ?R ?E ?p =>
      let e := eval hnf in (@eta R _) in
      match eval pattern p in e with
      | ?F _ => let b := eval cbv beta in (λ (v : E) (r : R), F (λ _, v) r) in exact b
      end
  end.
#[global] Hint Extern 1 (Setter _) => solve_setter : typeclass_instances.

Notation "r <| p := v |>" := (setter p v r)
  (at level 1, left associativity, p at level 11, v at level 99) : portal_scope.

(** ** Machine integers

    [usize] and [u64] values are [Z] with the operations the code applies to
    them; [i32] arithmetic wraps, as in the release profile (no
    overflow-checks in Cargo.toml), and [as i32] truncates. *)

Definition i32_min : Z := - 2 ^ 31.
Definition i32_max : Z := 2 ^ 31 - 1.
Definition as_i32 (z : Z) : Z := (z + 2 ^ 31) `mod` 2 ^ 32 - 2 ^ 31.
Definition i32_add (a b : Z) : Z := as_i32 (a + b).
Definition i32_sub (a b : Z) : Z := as_i32 (a - b).
Definition i32_mul (a b : Z) : Z := as_i32 (a * b).
Definition in_i32 (z : Z) : Prop := (i32_min ≤ z ≤ i32_max)%Z.

Definition u32_max : Z := 2 ^ 32 - 1.
Definition as_u32 (z : Z) : Z := z `mod` 2 ^ 32.

Lemma as_i32_id z : in_i32 z → as_i32 z = z.
Proof. unfold in_i32, as_i32, i32_min, i32_max. intros ?. rewrite Z.mod_small; lia. Qed.

Lemma as_i32_range z : in_i32 (as_i32 z).
Proof.
  unfold in_i32, as_i32, i32_min, i32_max.
  pose proof (Z.mod_pos_bound (z + 2 ^ 31) (2 ^ 32)). lia.
Qed.

Lemma i32_add_id a b : in_i32 (a + b) → i32_add a b = (a + b)%Z.
Proof. apply as_i32_id. Qed.

Lemma as_u32_range z : (0 ≤ as_u32 z ≤ u32_max)%Z.
Proof. unfold as_u32, u32_max. pose proof (Z.mod_pos_bound z (2 ^ 32)). lia. Qed.

(** ** Ranges and loops *)

(** [lo..hi] over integers, as the list of the values the loop visits. *)
Definition range (lo hi : Z) : list Z := seqZ lo (hi - lo).
(** [lo..=hi]. *)
Definition range_incl (lo hi : Z) : list Z := seqZ lo (hi - lo + 1).

Lemma elem_of_range lo hi i : i ∈ range lo hi ↔ (lo ≤ i < hi)%Z.
Proof. unfold range. rewrite elem_of_seqZ. lia. Qed.
Lemma elem_of_range_incl lo hi i : i ∈ range_incl lo hi ↔ (lo ≤ i ≤ hi)%Z.
Proof. unfold range_incl. rewrite elem_of_seqZ. lia. Qed.
Lemma length_range lo hi : length (range lo hi) = Z.to_nat (hi - lo).
Proof. unfold range. by rewrite length_seqZ. Qed.
Lemma length_range_incl lo hi : length (range_incl lo hi) = Z.to_nat (hi - lo + 1).
Proof. unfold range_incl. by rewrite length_seqZ. Qed.

(** ** Push loops

    A Rust loop that pushes one element per item and bumps an [i32] counter:
    [for x in l { out.push(f(n, x)); n += 1; }]. *)
Definition push_numbered {A B} (f : Z → A → B) (st : list B * Z) (l : list A) : list B * Z :=
  fold_left (λ '(out, n) x, (out ++ [f n x], i32_add n 1)) l st.

Lemma push_numbered_app {A B} (f : Z → A → B) st l1 l2 :
  push_numbered f st (l1 ++ l2) = push_numbered f (push_numbered f st l1) l2.
Proof. apply fold_left_app. Qed.

(** Without overflow of the counter the loop is an indexed map. *)
Lemma push_numbered_imap {A B} (f : Z → A → B) out n l :
  in_i32 n → in_i32 (n + Z.of_nat (length l)) →
  push_numbered f (out, n) l =
  (out ++ imap (λ i x, f (n + Z.of_nat i)%Z x) l, (n + Z.of_nat (length l))%Z).
Proof.
  unfold push_numbered, in_i32, i32_min, i32_max.
  revert out n. induction l as [|x l IH]; intros out n Hn Hl; simpl.
  { rewrite app_nil_r. f_equal. lia. }
  simpl in Hl. rewrite i32_add_id by (unfold in_i32, i32_min, i32_max; lia).
  rewrite IH by lia. rewrite <- app_assoc. simpl. rewrite Z.add_0_r. f_equal; [|lia].
  do 2 f_equal. apply imap_ext. intros i y _. simpl. f_equal. lia.
Qed.

(** The output of a push loop keeps what was there, whatever the counter. *)
Lemma push_numbered_length {A B} (f : Z → A → B) st l :
  length (push_numbered f st l).1 = length st.1 + length l.
Proof.
  unfold push_numbered. revert st. induction l as [|x l IH]; intros [out n]; simpl; [lia|].
  rewrite IH. simpl. rewrite length_app. simpl. lia.
Qed.

(** A push loop whose body can fail. *)
Definition try_push_numbered {A B E} (f : Z → A → result B E) (st : list B * Z) (l : list A)
    : result (list B * Z) E :=
  try_fold (λ '(out, n) x, let? b := f n x in Ok (out ++ [b], i32_add n 1)) st l.

Lemma try_push_numbered_ok {A B E} (f : Z → A → result B E) (g : Z → A → B) st l :
  (∀ n x, x ∈ l → f n x = Ok (g n x)) →
  try_push_numbered f st l = Ok (push_numbered g st l).
Proof.
  intros Hf. unfold try_push_numbered, push_numbered. apply try_fold_ok.
  intros [out n] x Hx. by rewrite Hf.
Qed.

Lemma StronglySorted_mono {A} (R S : A → A → Prop) l :
  (∀ x y, R x y → S x y) → StronglySorted R l → StronglySorted S l.
Proof. induction 2; constructor; [done|]. eapply Forall_impl; eauto. Qed.

(** ** Stable sorting: [slice::sort_by], with [leb x y] for "[x] is not after [y]" *)
Section stable_sort.
Context {A : Type} (leb : A → A → bool).

Fixpoint insert_by (x : A) (l : list A) : list A :=
  match l with
  | [] => [x]
  | y :: l' => if leb x y then x :: l else y :: insert_by x l'
  end.

Definition stable_sort (l : list A) : list A := foldr insert_by [] l.

Lemma insert_by_perm x l : insert_by x l ≡ₚ x :: l.
Proof.
  induction l as [|y l IH]; simpl; [done|]. destruct (leb x y); [done|].
  rewrite IH. constructor.
Qed.

Lemma stable_sort_perm l : stable_sort l ≡ₚ l.
Proof. induction l as [|x l IH]; simpl; [done|]. rewrite insert_by_perm. by f_equiv. Qed.

Lemma stable_sort_length l : length (stable_sort l) = length l.
Proof. by rewrite stable_sort_perm. Qed.

Section order.
Hypothesis leb_total : ∀ x y, leb x y = true ∨ leb y x = true.
Hypothesis leb_trans : ∀ x y z, leb x y = true → leb y z = true → leb x z = true.

Lemma insert_by_sorted x l :
  StronglySorted (λ a b, leb a b = true) l →
  StronglySorted (λ a b, leb a b = true) (insert_by x l).
Proof.
  induction 1 as [|y l Hl IH Hy]; simpl; [by repeat constructor|].
  destruct (leb x y) eqn:Hxy.
  - constructor; [by constructor|]. constructor; [done|].
    eapply Forall_impl; [exact Hy|]. simpl. eauto.
  - constructor; [done|]. rewrite insert_by_perm. constructor; [|done].
    by destruct (leb_total x y) as [?|?]; [congruence|].
Qed.

Lemma stable_sort_sorted l : StronglySorted (λ a b, leb a b = true) (stable_sort l).
Proof. induction l; simpl; [constructor|]. by apply insert_by_sorted. Qed.

(** Stability: elements the order does not tell apart keep their order. *)
Lemma insert_by_filter (P : A → Prop) `{!∀ x, Decision (P x)} x l :
  (∀ y, P x → P y → leb x y = true) →
  filter P (insert_by x l) = filter P (x :: l).
Proof.
  intros HP. induction l as [|y l IH]; simpl; [done|].
  destruct (leb x y) eqn:Hxy; [done|].
  rewrite !filter_cons. rewrite filter_cons in IH. rewrite IH.
  repeat case_decide; try done. by rewrite HP in Hxy.
Qed.

Lemma stable_sort_stable (P : A → Prop) `{!∀ x, Decision (P x)} l :
  (∀ x y, P x → P y → leb x y = true) → filter P (stable_sort l) = filter P l.
Proof.
  intros HP. induction l as [|x l IH]; simpl; [done|].
  rewrite insert_by_filter by auto. rewrite !filter_cons, IH. done.
Qed.
End order.
End stable_sort.

(** ** Indexed lists *)

(** [l[i] = v]: a panic out of range. *)
Definition set_index {A E} (l : list A) (i : Z) (v : A) : result (list A) (fault E) :=
  if bool_decide (0 ≤ i < Z.of_nat (length l))%Z then Ok (<[Z.to_nat i := v]> l) else Err Panic.

(** [iter().enumerate()]. *)
Definition enumerate {A} (l : list A) : list (Z * A) := imap (λ i x, (Z.of_nat i, x)) l.

(** [slice::chunks(2)]: the last chunk is shorter when the length is odd. *)
Fixpoint chunks2 {A} (l : list A) : list (list A) :=
  match l with
  | x :: y :: l => [x; y] :: chunks2 l
  | [x] => [[x]]
  | [] => []
  end.

Lemma chunks2_pairs {A B} (f g : A → B) (l : list A) :
  chunks2 (l ≫= λ x, [f x; g x]) = (λ x, [f x; g x]) <$> l.
Proof. induction l as [|x l IH]; [done|]. csimpl. f_equal. exact IH. Qed.

(** A loop that extends two outputs. *)
Lemma fold_left_app_pair {A B C} (f : A → list B * list C) l st :
  fold_left (λ '(bs, cs) x, (bs ++ (f x).1, cs ++ (f x).2)) l st =
  (st.1 ++ (l ≫= λ x, (f x).1), st.2 ++ (l ≫= λ x, (f x).2)).
Proof.
  revert st. induction l as [|x l IH]; intros [bs cs]; simpl.
  { by rewrite !app_nil_r. }
  rewrite IH. simpl. by rewrite !(assoc_L (++)).
Qed.

(** A loop whose steps succeed on every state of an invariant. *)
Lemma try_fold_ok_inv {A S E} (I : S → Prop) (f : S → A → result S E) (g : S → A → S) s l :
  (∀ s x, x ∈ l → I s → f s x = Ok (g s x) ∧ I (g s x)) → I s →
  try_fold f s l = Ok (fold_left g l s).
Proof.
  revert s. induction l as [|x l IH]; simpl; intros s Hf Hs; [done|].
  destruct (Hf s x) as [-> Hg]; [apply elem_of_cons; by left|done|]. simpl.
  apply IH; [|done]. intros s' y Hy. apply Hf, elem_of_cons. by right.
Qed.

Lemma bind_pair_length {A B} (f g : A → B) (l : list A) :
  length (l ≫= λ x, [f x; g x]) = 2 * length l.
Proof. induction l as [|x l IH]; csimpl; lia. Qed.

(** Filling positions [2i] and [2i+1] of an array lists the pairs in order. *)
Lemma fill_pairs {A} (d : A) (f g : nat → A) m r :
  fold_left (λ res i, <[2 * i + 1 := g i]> (<[2 * i := f i]> res)) (seq 0 m)
    (replicate (2 * m + r) d) =
  (seq 0 m ≫= λ i, [f i; g i]) ++ replicate r d.
Proof.
  revert r. induction m as [|m IH]; intros r; [done|].
  rewrite seq_S, fold_left_app, bind_app. cbn [fold_left].
  replace (2 * S m + r) with (2 * m + (2 + r)) by lia. rewrite IH.
  assert (length (seq 0 m ≫= λ i, [f i; g i]) = 2 * m) as Hlen.
  { rewrite bind_pair_length, length_seq. lia. }
  rewrite Nat.add_0_l, !insert_app_r_alt by lia. rewrite Hlen, Nat.sub_diag.
  replace (2 * m + 1 - 2 * m) with 1 by lia. by rewrite <- (assoc_L (++)).
Qed.

Lemma bind_pair_perm {A B} (f g : A → B) (l : list A) :
  (l ≫= λ x, [f x; g x]) ≡ₚ (f <$> l) ++ (g <$> l).
Proof.
  induction l as [|x l IH]; csimpl; [done|]. rewrite IH.
  constructor. by rewrite Permutation_middle.
Qed.

(** Nested push loops push over the flattened list of their indices. *)
Lemma nested_push {R A B E} (f : R → Z → A → result B E) (g : R → Z → A → B)
    (ls : R → list A) st rs :
  (∀ r n x, r ∈ rs → x ∈ ls r → f r n x = Ok (g r n x)) →
  try_fold (λ st r, try_push_numbered (f r) st (ls r)) st rs =
  Ok (push_numbered (λ n '(r, x), g r n x) st (rs ≫= λ r, pair r <$> ls r)).
Proof.
  revert st. induction rs as [|r rs IH]; intros st Hf; [done|].
  cbn [try_fold]. rewrite (try_push_numbered_ok _ (g r)) by
    (intros n x Hx; apply Hf; [apply elem_of_cons; by left|done]).
  cbn [result_bind]. rewrite IH by
    (intros r' n x Hr Hx; apply Hf; [apply elem_of_cons; by right|done]).
  f_equal. csimpl. rewrite push_numbered_app. f_equal.
  unfold push_numbered. generalize st. induction (ls r) as [|x l IHl]; intros [out n]; [done|].
  csimpl. apply IHl.
Qed.

Lemma filter_all {A} (P : A → Prop) `{!∀ x, Decision (P x)} (l : list A) :
  (∀ x, x ∈ l → P x) → filter P l = l.
Proof.
  induction l as [|x l IH]; intros HP; [done|].
  rewrite filter_cons_True by (apply HP, elem_of_cons; by left).
  rewrite IH; [done|]. intros y Hy. apply HP, elem_of_cons. by right.
Qed.

Lemma omap_lookup_seqZ {A} (l : list A) (M : Z) :
  (0 ≤ M)%Z → omap (λ s, l !! Z.to_nat s) (seqZ 0 M) = take (Z.to_nat M) l.
Proof.
  intros HM. rewrite <- (Z2Nat.id M) by done. generalize (Z.to_nat M). clear. intros n.
  rewrite Nat2Z.id. induction n as [|n IH]; [by rewrite take_0|].
  rewrite Nat2Z.inj_succ, <- Z.add_1_r, seqZ_app, omap_app, IH by lia.
  rewrite Z.add_0_l, (seqZ_cons (Z.of_nat n)), seqZ_nil by lia. csimpl.
  rewrite Nat2Z.id. destruct (l !! n) as [x|] eqn:Hn.
  - by rewrite (take_S_r _ _ _ Hn).
  - apply lookup_ge_None in Hn. rewrite app_nil_r, !take_ge by lia. done.
Qed.

Lemma filter_none {A} (P : A → Prop) `{!∀ x, Decision (P x)} (l : list A) :
  (∀ x, x ∈ l → ¬ P x) → filter P l = [].
Proof.
  induction l as [|x l IH]; intros HP; [done|].
  rewrite filter_cons_False by (apply HP, elem_of_cons; by left).
  apply IH. intros y Hy. apply HP, elem_of_cons. by right.
Qed.

Lemma bind_ext_in {A B} (f g : A → list B) (l : list A) :
  (∀ x, x ∈ l → f x = g x) → l ≫= f = l ≫= g.
Proof.
  induction l as [|x l IH]; intros Hf; [done|].
  rewrite !bind_cons, Hf by (apply elem_of_cons; by left). f_equal.
  apply IH. intros y Hy. apply Hf, elem_of_cons. by right.
Qed.

Lemma bind_perm_in {A B} (f g : A → list B) (l : list A) :
  (∀ x, x ∈ l → f x ≡ₚ g x) → l ≫= f ≡ₚ l ≫= g.
Proof.
  induction l as [|x l IH]; intros Hf; [done|].
  rewrite !bind_cons, Hf by (apply elem_of_cons; by left). f_equiv.
  apply IH. intros y Hy. apply Hf, elem_of_cons. by right.
Qed.

Lemma bind_bind {A B C} (f : A → list B) (g : B → list C) (l : list A) :
  (l ≫= f) ≫= g = l ≫= λ x, f x ≫= g.
Proof. induction l as [|x l IH]; [done|]. rewrite !bind_cons, bind_app. by rewrite IH. Qed.

Lemma bind_fmap {A B C} (f : A → B) (g : B → list C) (l : list A) :
  (f <$> l) ≫= g = l ≫= λ x, g (f x).
Proof. induction l as [|x l IH]; [done|]. rewrite fmap_cons, !bind_cons. by rewrite IH. Qed.

Lemma fmap_bind {A B C} (f : A → list B) (g : B → C) (l : list A) :
  g <$> (l ≫= f) = l ≫= λ x, g <$> f x.
Proof. induction l as [|x l IH]; [done|]. rewrite !bind_cons, fmap_app. by rewrite IH. Qed.

Lemma omap_bind {A B C} (f : B → option C) (h : A → list B) (l : list A) :
  omap f (l ≫= h) = l ≫= λ x, omap f (h x).
Proof. induction l as [|x l IH]; [done|]. rewrite !bind_cons, omap_app. by rewrite IH. Qed.

Lemma bind_singleton {A B} (f : A → B) (l : list A) : l ≫= (λ x, [f x]) = f <$> l.
Proof. induction l as [|x l IH]; [done|]. by rewrite bind_cons, IH. Qed.

Lemma bind_nil {A B} (l : list A) : l ≫= (λ _, []) = ([] : list B).
Proof. induction l as [|x l IH]; [done|]. by rewrite bind_cons, IH. Qed.

(** Binding over the output of a numbered push loop forgets the numbers. *)
Lemma bind_imap {A B C} (f : nat → A → B) (g : B → list C) (h : A → list C) (l : list A) :
  (∀ n x, g (f n x) = h x) → imap f l ≫= g = l ≫= h.
Proof.
  revert f. induction l as [|x l IH]; intros f Hf; [done|].
  rewrite imap_cons, !bind_cons, Hf. f_equal. apply IH. intros n y. apply Hf.
Qed.

(** A loop over consecutive integers whose states have a closed form. *)
Lemma try_fold_seqZ_states {T E} (f : T → Z → result T E) (st : Z → T) a n :
  (∀ r, (a ≤ r < a + Z.of_nat n)%Z → f (st r) r = Ok (st (r + 1)%Z)) →
  try_fold f (st a) (seqZ a (Z.of_nat n)) = Ok (st (a + Z.of_nat n)%Z).
Proof.
  induction n as [|n IH]; intros Hf; [simpl; by rewrite Z.add_0_r|].
  replace (Z.of_nat (S n)) with (Z.of_nat n + 1)%Z by lia.
  rewrite seqZ_app, try_fold_app, IH by (lia || intros r Hr; apply Hf; lia).
  cbn [result_bind]. rewrite seqZ_cons, seqZ_nil by lia. cbn [try_fold].
  rewrite Hf by lia. cbn [result_bind]. do 2 f_equal. lia.
Qed.

(** A loop over consecutive integers keeps an invariant and does not fail. *)
Lemma try_fold_seqZ_inv {T E} (I : Z → T → Prop) (f : T → Z → result T E) s a n :
  (∀ r s, (a ≤ r < a + Z.of_nat n)%Z → I r s → ∃ s', f s r = Ok s' ∧ I (r + 1)%Z s') →
  I a s → ∃ s', try_fold f s (seqZ a (Z.of_nat n)) = Ok s' ∧ I (a + Z.of_nat n)%Z s'.
Proof.
  intros Hf Ha. induction n as [|n IH]; [exists s; split; [done|by rewrite Z.add_0_r]|].
  destruct IH as (s1 & Hs1 & HI); [intros r s1 Hr; apply Hf; lia|].
  destruct (Hf (a + Z.of_nat n)%Z s1) as (s2 & Hs2 & HI2); [lia|done|]. exists s2.
  replace (Z.of_nat (S n)) with (Z.of_nat n + 1)%Z by lia.
  rewrite seqZ_app, try_fold_app, Hs1 by lia. cbn [result_bind].
  change (seqZ (a + Z.of_nat n) 1) with [(a + Z.of_nat n)%Z]. cbn [try_fold].
  rewrite Hs2. split; [done|]. by rewrite Z.add_assoc.
Qed.

Lemma bind_app_perm {A B} (f g : A → list B) (l : list A) :
  (l ≫= λ x, f x ++ g x) ≡ₚ (l ≫= f) ++ (l ≫= g).
Proof.
  induction l as [|x l IH]; [done|]. rewrite !bind_cons, IH. solve_Permutation.
Qed.

(** Splitting a list into the classes of [h] and putting them together again. *)
Lemma bind_indicator {A B} `{EqDecision A} (l : list A) (c : A) (y : B) :
  NoDup l → c ∈ l → (l ≫= λ a, if decide (c = a) then [y] else []) = [y].
Proof.
  intros Hnd. induction Hnd as [|a l Ha Hnd IH]; intros Hc; [by apply elem_of_nil in Hc|].
  rewrite bind_cons. destruct (decide (c = a)) as [->|Hne].
  - assert (∀ l' : list A, a ∉ l' → (l' ≫= λ a', if decide (a = a') then [y] else []) = []) as ->; [|done|done].
    intros l'. induction l' as [|b l' IHl]; intros Hl'; [done|].
    apply not_elem_of_cons in Hl' as [Hab Hl']. by rewrite bind_cons, decide_False, IHl.
  - rewrite IH; [done|]. by apply elem_of_cons in Hc as [->|].
Qed.

Lemma classes_perm {A K} `{EqDecision K} (h : A → K) (ks : list K) (l : list A) :
  NoDup ks → (∀ x, x ∈ l → h x ∈ ks) →
  (ks ≫= λ k, filter (λ x, h x = k) l) ≡ₚ l.
Proof.
  intros Hnd. induction l as [|x l IH]; intros Hl.
  { transitivity (ks ≫= λ _, ([] : list A)); [done|]. by rewrite bind_nil. }
  assert (∀ k, filter (λ x, h x = k) (x :: l) =
    (if decide (h x = k) then [x] else []) ++ filter (λ x, h x = k) l) as Hf.
  { intros k. rewrite filter_cons. by destruct (decide (h x = k)). }
  rewrite (bind_ext_in _ _ ks (λ k _, Hf k)), bind_app_perm, IH
    by (intros y ?; apply Hl, elem_of_cons; by right).
  rewrite bind_indicator; [done|done|]. apply Hl, elem_of_cons. by left.
Qed.

Lemma join_fmap {A B} (f : A → list B) (l : list A) : mjoin (f <$> l) = l ≫= f.
Proof. induction l as [|x l IH]; [done|]. rewrite fmap_cons, bind_cons, <- IH. done. Qed.

(** [filter_map] with a function that never misses. *)
Lemma omap_lookup_total {A B} (f : A → option B) (l : list A) (j : nat) :
  (∀ x, x ∈ l → is_Some (f x)) → omap f l !! j = l !! j ≫= f.
Proof.
  revert j. induction l as [|x l IH]; intros j Hl; [done|].
  destruct (Hl x) as [y Hy]; [apply elem_of_cons; by left|]. cbn [omap list_omap]. rewrite Hy.
  destruct j as [|j]; [simpl; by rewrite Hy|]. apply IH. intros z ?. apply Hl, elem_of_cons. by right.
Qed.

Lemma omap_length_total {A B} (f : A → option B) (l : list A) :
  (∀ x, x ∈ l → is_Some (f x)) → length (omap f l) = length l.
Proof.
  induction l as [|x l IH]; intros Hl; [done|].
  destruct (Hl x) as [y Hy]; [apply elem_of_cons; by left|]. cbn [omap list_omap]. rewrite Hy.
  cbn [length]. f_equal. apply IH. intros z ?. apply Hl, elem_of_cons. by right.
Qed.

(** Lookup in a concatenation of blocks of the same length. *)
Lemma bind_blocks_lookup {A} (f : Z → list A) (k n j : nat) :
  (0 < k)%nat → (∀ i, (0 ≤ i < Z.of_nat n)%Z → length (f i) = k) → (j < n * k)%nat →
  (seqZ 0 (Z.of_nat n) ≫= f) !! j = f (Z.of_nat (j / k)) !! (j mod k)%nat.
Proof.
  intros Hk Hf. revert j. induction n as [|n IH]; intros j Hj; [lia|].
  assert (length (seqZ 0 (Z.of_nat n) ≫= f) = n * k) as Hlen.
  { clear IH Hj. induction n as [|n IHn]; [done|].
    replace (Z.of_nat (S n)) with (Z.of_nat n + 1)%Z by lia.
    rewrite seqZ_app, bind_app, length_app, IHn by (lia || intros i Hi; apply Hf; lia).
    change (seqZ (0 + Z.of_nat n) 1) with [(0 + Z.of_nat n)%Z].
    rewrite bind_cons, app_nil_r, Hf by lia. lia. }
  replace (Z.of_nat (S n)) with (Z.of_nat n + 1)%Z by lia.
  rewrite seqZ_app, bind_app by lia.
  change (seqZ (0 + Z.of_nat n) 1) with [(0 + Z.of_nat n)%Z]. rewrite bind_cons, app_nil_r.
  destruct (decide (j < n * k)) as [Hlt|Hge].
  - rewrite lookup_app_l by lia. apply IH; [intros i Hi; apply Hf; lia|done].
  - rewrite lookup_app_r, Hlen by lia.
    assert (j / k = n) as -> by (symmetry; apply (Nat.div_unique _ _ _ (j - n * k)); lia).
    assert (j mod k = j - n * k) as -> by (symmetry; apply (Nat.mod_unique _ _ n); lia). done.
Qed.

Lemma insert_by_fmap {A B} (leb : B → B → bool) (leb' : A → A → bool) (g : A → B) x l :
  (∀ x y, leb (g x) (g y) = leb' x y) → insert_by leb (g x) (g <$> l) = g <$> insert_by leb' x l.
Proof.
  intros Hg. induction l as [|y l IH]; [done|]. cbn. rewrite Hg. destruct (leb' x y); [done|].
  cbn. f_equal. exact IH.
Qed.

(** Sorting commutes with a map that the order does not see. *)
Lemma stable_sort_fmap {A B} (leb : B → B → bool) (leb' : A → A → bool) (g : A → B) l :
  (∀ x y, leb (g x) (g y) = leb' x y) → stable_sort leb (g <$> l) = g <$> stable_sort leb' l.
Proof.
  intros Hg. induction l as [|x l IH]; [done|].
  rewrite fmap_cons. unfold stable_sort in *. cbn [foldr]. rewrite IH. by apply insert_by_fmap.
Qed.

(** Sorting by a key that numbers the list gives that list. *)
Lemma numbered_sorted {A} (f : A → Z) (l : list A) (n : Z) :
  f <$> l = seqZ n (Z.of_nat (length l)) → StronglySorted (λ a b, bool_decide (f a ≤ f b)%Z = true) l.
Proof.
  revert n. induction l as [|x l IH]; intros n Hl; [constructor|].
  rewrite fmap_cons in Hl. cbn [length] in Hl. rewrite seqZ_cons in Hl by lia.
  injection Hl as Hx Hl.
  replace (Z.pred (Z.of_nat (S (length l)))) with (Z.of_nat (length l)) in Hl by lia.
  constructor; [by apply (IH (Z.succ n))|].
  apply Forall_forall. intros y Hy. apply bool_decide_eq_true.
  assert (f y ∈ f <$> l) as Hfy by by apply list_elem_of_fmap_2.
  rewrite Hl in Hfy. apply elem_of_seqZ in Hfy. lia.
Qed.

Lemma stable_sort_numbered {A} (f : A → Z) (l l' : list A) (n : Z) :
  f <$> l = seqZ n (Z.of_nat (length l)) → l' ≡ₚ l →
  stable_sort (λ a b, bool_decide (f a ≤ f b)%Z) l' = l.
Proof.
  intros Hl Hp. apply (StronglySorted_unique_strong (λ a b, bool_decide (f a ≤ f b)%Z = true)).
  - intros x y Hx Hy Ha%bool_decide_eq_true Hb%bool_decide_eq_true.
    rewrite stable_sort_perm, Hp in Hx.
    apply list_elem_of_lookup in Hx as [i Hi], Hy as [j Hj].
    assert (NoDup (f <$> l)) as Hnd by (rewrite Hl; apply NoDup_seqZ).
    enough (i = j) by congruence.
    eapply NoDup_lookup; [exact Hnd| |]; rewrite list_lookup_fmap, ?Hi, ?Hj; cbn; [done|].
    f_equal. lia.
  - apply stable_sort_sorted; intros *; rewrite !bool_decide_eq_true; lia.
  - by apply (numbered_sorted _ _ n).
  - by rewrite stable_sort_perm.
Qed.
