(* ===== verification/Errors.v ===== *)
(** Error types of crates/portal-core/src/errors.rs: field errors, their
    collection, and the domain error every service returns. *)
From stdpp Require Import base list strings pretty.
From S2P Require Import Prelude.

Module FieldError.
Record t := mk { field : string; message : string; code : string }.
#[global] Instance eq_dec : EqDecision t.
Proof. solve_decision. Defined.
Definition required (field : string) : t :=
  {| message := field +:+ " is required"; field := field; code := "required" |}.
Definition length (field : string) (min max : N) : t :=
  {| message := field +:+ " must be between " +:+ pretty min +:+ " and " +:+ pretty max
                +:+ " characters";
     field := field; code := "length" |}.
Definition format (field expected : string) : t :=
  {| message := field +:+ " must be " +:+ expected; field := field; code := "format" |}.
End FieldError.

Module ValidationError.
Record t := mk { errors : list FieldError.t }.
#[global] Instance eq_dec : EqDecision t.
Proof. solve_decision. Defined.
Definition new : t := {| errors := [] |}.
Definition of_field (error : FieldError.t) : t := {| errors := [error] |}.
(** [add] and the chaining [with]. *)
Definition add (self : t) (error : FieldError.t) : t :=
  {| errors := errors self ++ [error] |}.
Definition has_errors (self : t) : bool := negb (bool_decide (errors self = [])).
Definition into_result {T} (self : t) (value : T) : result T t :=
  if has_errors self then Err self else Ok value.
Definition fmt (self : t) : string :=
  match errors self with
  | [] => "validation error (no details)"
  | [e] => FieldError.message e
  | es => pretty (length es) +:+ " validation errors"
  end.
End ValidationError.

Module DomainError.
Inductive t :=
| UserNotFound (_ : N)
| PlayerNotFound (_ : N)
| TeamNotFound (_ : string)
| GameNotFound (_ : N)
| GameNotFoundBySlug (_ : string)
| MatchNotFound (_ : N)
| TournamentNotFound (_ : N)
| LeagueNotFound (_ : N)
| GameServerNotFound (_ : N)
| ServerBookingNotFound (_ : N)
| LobbyNotFound (_ : N)
| LeagueSeasonNotFound (_ : N)
| LeagueTeamNotFound (_ : N)
| LeagueTeamInvitationNotFound (_ : N)
| BanNotFound (_ : N)
| TournamentStageNotFound (_ : N)
| TournamentBracketNotFound (_ : N)
| TournamentMatchNotFound (_ : N)
| TournamentRegistrationNotFound (_ : N)
| TournamentInvitationNotFound (_ : N)
| DisputeNotFound (_ : N)
| ForfeitRecordNotFound (_ : N)
| EvidenceNotFound (_ : N)
| ResultClaimNotFound (_ : N)
| VetoSessionNotFound (_ : N)
| DemoNotFound (_ : N)
| DemoMatchLinkNotFound (_ : N)
| DemoNotLinkedToMatch (_ : string) (_ : string)
| ResultReviewNotFound (_ : N)
| LookupFailed (resource : string) (query : string)
| InvalidReviewState (_ : string) (_ : string)
| ReviewAlreadyAcknowledged (_ : Z)
| TournamentNotOpen
| TournamentRegistrationClosed
| TournamentAlreadyStarted
| TournamentFull
| TournamentInviteOnly
| EligibilityViolation (_ : string)
| AlreadyRegisteredForTournament
| NotRegisteredForTournament
| TournamentRegistrationPending
| NotCheckedIn
| MatchNotReady
| MatchAlreadyCompleted
| InvalidMatchResult (_ : string)
| BracketGenerationFailed (_ : string)
| InsufficientParticipants
| InvalidTournamentTransition (from : string) (to : string)
| NotAuthorized (_ : string)
| Forbidden (_ : string)
| InvalidToken
| TokenExpired
| RefreshTokenExpired
| RefreshTokenRevoked
| InvalidCredentials
| WrongAuthProvider (_ : string)
| AlreadyTeamMember
| NotTeamMember
| CannotRemoveFounder
| CannotDemoteFounder
| TeamMustHaveCaptain
| InvitationExpired
| InvitationInvalid
| InvitationAlreadyExists
| TeamFull
| AlreadyInQueue
| NotInQueue
| MatchAlreadyStarted
| MatchAlreadyEnded
| LobbyFull
| AlreadyInLobby
| NotInLobby
| InvalidLobbyTransition (from : string) (to : string)
| RegistrationClosed
| LeagueSeasonNotOpen
| AlreadyRegistered
| RequirementsNotMet (_ : string)
| NotLeagueMember
| LeagueInviteOnly
| RatingCalculationFailed (_ : string)
| SagaFailed (_ : string)
| SagaStepFailed (step : string) (reason : string)
| SagaPaused (_ : string)
| ResultRejectedByReview (_ : string)
| Conflict (_ : string)
| InvalidState (_ : string)
| Validation (_ : ValidationError.t)
| Internal (_ : string).
#[global] Instance eq_dec : EqDecision t.
Proof. solve_decision. Defined.
Definition is_not_found (self : t) : bool :=
  match self with
  | UserNotFound _
  | PlayerNotFound _
  | TeamNotFound _
  | GameNotFound _
  | GameNotFoundBySlug _
  | MatchNotFound _
  | TournamentNotFound _
  | TournamentStageNotFound _
  | TournamentBracketNotFound _
  | TournamentMatchNotFound _
  | TournamentRegistrationNotFound _
  | TournamentInvitationNotFound _
  | DisputeNotFound _
  | ForfeitRecordNotFound _
  | EvidenceNotFound _
  | ResultClaimNotFound _
  | VetoSessionNotFound _
  | LeagueNotFound _
  | LobbyNotFound _
  | LeagueSeasonNotFound _
  | LeagueTeamNotFound _
  | LeagueTeamInvitationNotFound _
  | BanNotFound _
  | DemoNotFound _
  | DemoMatchLinkNotFound _
  | ResultReviewNotFound _
  | LookupFailed _ _ => true
  | _ => false
  end.
Definition is_auth_error (self : t) : bool :=
  match self with NotAuthorized _ | Forbidden _ => true | _ => false end.
End DomainError.

(** What a service call that may panic returns. *)
Abbreviation outcome A := (result A (fault DomainError.t)).

(** Lifts a call that cannot panic into one that may. *)
Definition no_panic {A} (r : result A DomainError.t) : outcome A := result_map_err Error r.
