(* ===== verification/Wire.v ===== *)
(** Strings and wire names: the string operations of the Rust standard library
    the source uses ([str::to_lowercase], [str::split] on a character,
    [str::strip_prefix], [str::contains], [str::trim_start_matches],
    [str::parse::<i32>] and decimal [format!]), and the [Display] / [FromStr] pair every
    status enum of portal-core carries. One class states what an enum promises
    (a complete list of variants and a printer/parser pair), the enum files
    discharge it, and the facts the rest of the code relies on are proved here
    once. *)
From stdpp Require Import base strings pretty list.
From Stdlib Require Import Ascii.
From S2P Require Import Prelude.

(** ** Lower-casing

    Strings are UTF-8 byte strings. [to_lowercase] maps A-Z to a-z and the only
    non-ASCII scalar whose lower case is ASCII, KELVIN SIGN (U+212A, bytes
    E2 84 AA), to k. Every other non-ASCII scalar has a non-ASCII lower case and
    is left as it is: the code only compares the result with ASCII literals,
    which tells none of those apart. *)
Definition ascii_lower (c : ascii) : ascii :=
  let n := nat_of_ascii c in
  if (65 <=? n) && (n <=? 90) then ascii_of_nat (n + 32) else c.

Fixpoint to_lowercase (s : string) : string :=
  match s with
  | "" => ""
  | String c r =>
      match r with
      | String c2 (String c3 r') =>
          if bool_decide (c = "226"%char ∧ c2 = "132"%char ∧ c3 = "170"%char)
          then String "k" (to_lowercase r')
          else String (ascii_lower c) (to_lowercase r)
      | _ => String (ascii_lower c) (to_lowercase r)
      end
  end.

(** [s.contains(pat)]. *)
Fixpoint str_contains (s pat : string) : bool :=
  String.prefix pat s || match s with "" => false | String _ s => str_contains s pat end.

(** ** Characters of a string *)
Fixpoint str_forall (P : ascii → bool) (s : string) : bool :=
  match s with "" => true | String c s => P c && str_forall P s end.

Lemma str_forall_app P s1 s2 :
  str_forall P (s1 +:+ s2) = str_forall P s1 && str_forall P s2.
Proof.
  induction s1 as [|c s1 IH]; [done|].
  change (str_forall P (String c (s1 +:+ s2)) = str_forall P (String c s1) && str_forall P s2).
  simpl. rewrite IH. by destruct (P c).
Qed.

Lemma str_forall_impl (P Q : ascii → bool) s :
  (∀ c, P c = true → Q c = true) → str_forall P s = true → str_forall Q s = true.
Proof.
  intros HPQ. induction s as [|c s IH]; simpl; [done|].
  intros [Hc Hs]%andb_true_iff. by rewrite HPQ, IH.
Qed.

Definition is_digit (c : ascii) : bool :=
  let n := nat_of_ascii c in (48 <=? n) && (n <=? 57).

(** ** [str::split(c)]: always at least one piece. *)
Fixpoint split_on (c : ascii) (s : string) : list string :=
  match s with
  | "" => [""]
  | String d s =>
      if bool_decide (d = c) then "" :: split_on c s
      else match split_on c s with
           | [] => [String d ""]
           | p :: ps => String d p :: ps
           end
  end.

(** [str::strip_prefix]. *)
Fixpoint strip_prefix (p s : string) : option string :=
  match p, s with
  | "", _ => Some s
  | String c p, String d s => if bool_decide (c = d) then strip_prefix p s else None
  | _, _ => None
  end.

(** [str::trim_start_matches(c)]. *)
Fixpoint trim_start_matches (c : ascii) (s : string) : string :=
  match s with
  | String d s' => if bool_decide (d = c) then trim_start_matches c s' else s
  | "" => ""
  end.

(** ** [str::parse::<i32>]: an optional sign, at least one digit, only digits,
    and a value in range. The error carries no information the code uses. *)
Fixpoint digits_val (acc : Z) (s : string) : option Z :=
  match s with
  | "" => Some acc
  | String c s =>
      if is_digit c then digits_val (acc * 10 + Z.of_nat (nat_of_ascii c - 48)) s
      else None
  end.

Definition parse_digits (s : string) : option Z :=
  match s with "" => None | _ => digits_val 0 s end.

Definition check_i32 (z : Z) : option Z :=
  if bool_decide (i32_min ≤ z ≤ i32_max)%Z then Some z else None.

Definition parse_i32 (s : string) : option Z :=
  match s with
  | String "-" r => v ← parse_digits r; check_i32 (- v)
  | String "+" r => v ← parse_digits r; check_i32 v
  | _ => v ← parse_digits s; check_i32 v
  end.

(** ** Lemmas *)

Lemma str_app_cons c s1 s2 : String c s1 +:+ s2 = String c (s1 +:+ s2).
Proof. done. Qed.
Lemma str_app_nil s : "" +:+ s = s.
Proof. done. Qed.
Lemma str_app_nil_r s : s +:+ "" = s.
Proof. induction s as [|c s IH]; [done|]. by rewrite str_app_cons, IH. Qed.
Lemma str_app_assoc s1 s2 s3 : (s1 +:+ s2) +:+ s3 = s1 +:+ s2 +:+ s3.
Proof. induction s1 as [|c s IH]; [done|]. by rewrite !str_app_cons, IH. Qed.

Lemma strip_prefix_app p s : strip_prefix p (p +:+ s) = Some s.
Proof.
  induction p as [|c p IH]; [done|]. rewrite str_app_cons. simpl.
  by rewrite bool_decide_true.
Qed.

Definition char_free (c : ascii) (s : string) : bool :=
  str_forall (λ d, negb (bool_decide (d = c))) s.

Lemma split_on_free c s : char_free c s = true → split_on c s = [s].
Proof.
  unfold char_free. induction s as [|d s IH]; simpl; [done|].
  intros [Hd Hs]%andb_true_iff. case_bool_decide; [done|]. by rewrite IH.
Qed.

Lemma split_on_app c s1 s2 :
  char_free c s1 = true → split_on c (s1 +:+ String c s2) = s1 :: split_on c s2.
Proof.
  unfold char_free. induction s1 as [|d s1 IH].
  - intros _. rewrite str_app_nil. simpl. by rewrite bool_decide_true.
  - rewrite str_app_cons. simpl. intros [Hd Hs]%andb_true_iff.
    case_bool_decide; [done|]. by rewrite IH.
Qed.

Lemma trim_start_matches_free c s :
  char_free c s = true → trim_start_matches c s = s.
Proof.
  unfold char_free. destruct s as [|d s]; simpl; [done|].
  intros [Hd _]%andb_true_iff. by case_bool_decide.
Qed.

(** *** Decimal printing and parsing *)

Lemma pretty_N_char_digit n : is_digit (pretty_N_char n) = true.
Proof. unfold pretty_N_char. by repeat case_match. Qed.

Lemma pretty_N_char_val n :
  (n < 10)%N → Z.of_nat (nat_of_ascii (pretty_N_char n) - 48) = Z.of_N n.
Proof.
  intros Hn.
  assert (n = 0 ∨ n = 1 ∨ n = 2 ∨ n = 3 ∨ n = 4 ∨ n = 5 ∨ n = 6 ∨ n = 7 ∨ n = 8 ∨ n = 9)%N
    as Hc by lia.
  by destruct_or!; subst.
Qed.

Lemma pretty_N_go_digits x s :
  str_forall is_digit s = true → str_forall is_digit (pretty_N_go x s) = true.
Proof.
  revert s. induction (N.lt_wf_0 x) as [x _ IH]; intros s Hs.
  destruct (decide (x = 0%N)) as [->|]; [done|].
  rewrite pretty_N_go_step by lia. apply IH; [apply N.div_lt; lia|].
  simpl. by rewrite pretty_N_char_digit.
Qed.

Lemma digits_val_pretty_go x s :
  digits_val 0 (pretty_N_go x s) = digits_val (Z.of_N x) s.
Proof.
  revert s. induction (N.lt_wf_0 x) as [x _ IH]; intros s.
  destruct (decide (x = 0%N)) as [->|]; [done|].
  rewrite pretty_N_go_step by lia. rewrite IH by (apply N.div_lt; lia).
  cbn [digits_val]. rewrite pretty_N_char_digit.
  rewrite pretty_N_char_val by (apply N.mod_lt; lia). f_equal.
  rewrite (N.div_mod x 10) at 3 by lia. lia.
Qed.

Lemma pretty_N_nonempty (x : N) : pretty x ≠ "".
Proof.
  unfold pretty, pretty_N. case_decide; [done|].
  intros Hp. pose proof (digits_val_pretty_go x "") as Hd. rewrite Hp in Hd.
  simpl in Hd. injection Hd. lia.
Qed.

Lemma pretty_N_digits (x : N) : str_forall is_digit (pretty x) = true.
Proof. unfold pretty, pretty_N. case_decide; [done|]. by apply pretty_N_go_digits. Qed.

Lemma parse_digits_pretty_N (x : N) : parse_digits (pretty x) = Some (Z.of_N x).
Proof.
  unfold parse_digits. pose proof (pretty_N_nonempty x).
  destruct (pretty x) eqn:Hp; [done|]. rewrite <- Hp.
  unfold pretty, pretty_N in *. case_decide; [by subst|]. by rewrite digits_val_pretty_go.
Qed.

Lemma pretty_Z_nonneg (z : Z) : (0 ≤ z)%Z → pretty z = pretty (Z.to_N z).
Proof. destruct z; [done|done|lia]. Qed.

Lemma pretty_Z_digits (z : Z) : (0 ≤ z)%Z → str_forall is_digit (pretty z) = true.
Proof. intros Hz. rewrite pretty_Z_nonneg by done. apply pretty_N_digits. Qed.

Lemma digits_char_free c s :
  is_digit c = false → str_forall is_digit s = true → char_free c s = true.
Proof.
  intros Hc. apply str_forall_impl. intros d Hd. case_bool_decide; [|done]. by subst; rewrite Hc in Hd.
Qed.

Lemma parse_i32_digits s :
  str_forall is_digit s = true → parse_i32 s = (v ← parse_digits s; check_i32 v).
Proof.
  destruct s as [|c s]; [done|]. cbn [str_forall]. intros [Hc _]%andb_true_iff.
  unfold parse_i32. destruct c as [[] [] [] [] [] [] [] []]; done.
Qed.

(** Printing then parsing an [i32] gives it back. *)
Lemma parse_i32_pretty (z : Z) : in_i32 z → parse_i32 (pretty z) = Some z.
Proof.
  unfold in_i32. intros Hz.
  assert (check_i32 z = Some z) as Hck by (unfold check_i32; by rewrite bool_decide_true).
  destruct (decide (0 ≤ z)%Z) as [Hp|Hp].
  - rewrite parse_i32_digits by by apply pretty_Z_digits.
    rewrite pretty_Z_nonneg, parse_digits_pretty_N by done. simpl. by rewrite Z2N.id.
  - destruct z as [|p|p]; [lia|lia|].
    change (pretty (Z.neg p)) with (String "-" (pretty (N.pos p))).
    cbn [parse_i32]. rewrite parse_digits_pretty_N. simpl. done.
Qed.

#[export] Instance str_app_inj s : Inj (=) (=) (String.append s).
Proof.
  induction s as [|c s IH]; intros s1 s2; [done|].
  rewrite !str_app_cons. intros [= Heq]. by apply IH.
Qed.

(** [match s.to_lowercase().as_str() { lit => Ok(v), ..., _ => Err(..) }]. *)
Definition match_lowercase {A} (what : string) (arms : list (string * A)) (s : string)
    : result A string :=
  match list_find (λ arm, arm.1 = to_lowercase s) arms with
  | Some (_, (_, a)) => Ok a
  | None => Err ("invalid " +:+ what +:+ ": " +:+ s)
  end.

Class WireEnum (A : Type) := {
  wire_variants : list A;
  wire_fmt : A → string;
  wire_from_str : string → result A string;
}.

Class WireLaws (A : Type) `{WireEnum A} := {
  wire_complete : ∀ a : A, a ∈ wire_variants;
  (** A printed value parses back. *)
  wire_from_fmt : ∀ a : A, wire_from_str (wire_fmt a) = Ok a;
  (** What parses is, up to case, the printed form of the value it parses to. *)
  wire_sound : ∀ s (a : A), wire_from_str s = Ok a → to_lowercase s = wire_fmt a;
  (** Every printed form is its own lower case, so parsing ignores case. *)
  wire_lower : ∀ s (a : A), to_lowercase s = wire_fmt a → wire_from_str s = Ok a;
}.

Section wire_facts.
Context `{WireLaws A}.

#[global] Instance wire_fmt_inj : Inj (=) (=) (wire_fmt (A := A)).
Proof.
  intros a b Hab. pose proof (wire_from_fmt a) as Ha. rewrite Hab, wire_from_fmt in Ha.
  congruence.
Qed.

Lemma wire_from_str_iff s (a : A) : wire_from_str s = Ok a ↔ to_lowercase s = wire_fmt a.
Proof. split; [apply wire_sound|apply wire_lower]. Qed.

Lemma wire_case_insensitive s1 s2 (a : A) :
  to_lowercase s1 = to_lowercase s2 → wire_from_str s1 = Ok a → wire_from_str s2 = Ok a.
Proof. rewrite !wire_from_str_iff. congruence. Qed.
End wire_facts.

(** The laws for a parser written as one [match] over lower-cased literals. *)
Lemma match_lowercase_ok {A} what (arms : list (string * A)) s a :
  match_lowercase what arms s = Ok a →
  ∃ lit, (lit, a) ∈ arms ∧ to_lowercase s = lit.
Proof.
  unfold match_lowercase. destruct (list_find _ arms) as [[i [lit b]]|] eqn:Hf; [|done].
  intros [= <-]. apply list_find_Some in Hf as (Hl & Heq & _). exists lit.
  split; [by apply list_elem_of_lookup_2 in Hl|done].
Qed.

Lemma match_lowercase_find {A} what (arms : list (string * A)) s1 s2 :
  to_lowercase s1 = to_lowercase s2 →
  is_ok (match_lowercase what arms s1) = true →
  match_lowercase what arms s2 = match_lowercase what arms s1.
Proof.
  intros Hl. unfold match_lowercase. rewrite Hl.
  by destruct (list_find _ arms) as [[? [??]]|].
Qed.

Lemma match_lowercase_lit {A} what (arms : list (string * A)) s lit a :
  to_lowercase s = lit → to_lowercase lit = lit →
  match_lowercase what arms lit = Ok a → match_lowercase what arms s = Ok a.
Proof.
  intros Hs Hlit Hok. rewrite <- Hok. apply match_lowercase_find; [congruence|].
  by rewrite Hok.
Qed.

(** Discharges [WireLaws] for an enum whose parser is [match_lowercase]. *)
Ltac solve_wire_laws :=
  split;
  [ intros []; simpl; set_solver
  | intros []; vm_compute; reflexivity
  | intros s a Hs; apply match_lowercase_ok in Hs as (lit & Hin & ->);
    simpl in Hin; repeat (rewrite elem_of_cons in Hin; destruct Hin as [[= -> ->]|Hin];
      [reflexivity|]); by apply elem_of_nil in Hin
  | intros s a Hs; eapply match_lowercase_lit;
    [exact Hs | destruct a; vm_compute; reflexivity | destruct a; vm_compute; reflexivity] ].
