(* ===== verification/TournamentTypes.v ===== *)
(** Enums of crates/portal-core/src/types/tournament.rs: one Module per enum
    with its variants, its [Display] and [FromStr], and its predicates, in the
    order of the source. [MatchParticipantSource] (a data-carrying enum without
    a parser) closes the file. *)
From stdpp Require Import base list strings pretty.
From S2P Require Import Prelude Wire.

Module TournamentFormat.
Inductive t :=
| SingleElimination
| DoubleElimination
| RoundRobin
| Swiss
| GroupsAndPlayoffs.
#[global] Instance eq_dec : EqDecision t.
Proof. solve_decision. Defined.
Definition default : t := SingleElimination.
Definition fmt (self : t) : string :=
  match self with
  | SingleElimination => "single_elimination"
  | DoubleElimination => "double_elimination"
  | RoundRobin => "round_robin"
  | Swiss => "swiss"
  | GroupsAndPlayoffs => "groups_and_playoffs"
  end.
Definition from_str (s : string) : result t string :=
  match_lowercase "tournament format"
    [("single_elimination", SingleElimination);
     ("double_elimination", DoubleElimination);
     ("round_robin", RoundRobin);
     ("swiss", Swiss);
     ("groups_and_playoffs", GroupsAndPlayoffs)] s.
#[global] Instance wire : WireEnum t :=
  {| wire_variants := [SingleElimination; DoubleElimination; RoundRobin; Swiss; GroupsAndPlayoffs]; wire_fmt := fmt; wire_from_str := from_str |}.
#[global] Instance wire_laws : WireLaws t.
Proof. solve_wire_laws. Qed.
Definition has_losers_bracket (self : t) : bool :=
  match self with DoubleElimination => true | _ => false end.
Definition uses_standings (self : t) : bool :=
  match self with RoundRobin | Swiss | GroupsAndPlayoffs => true | _ => false end.
Definition supports_byes (self : t) : bool :=
  match self with SingleElimination | DoubleElimination => true | _ => false end.
End TournamentFormat.

Module TournamentParticipantType.
Inductive t :=
| Team
| Individual
| AdHoc.
#[global] Instance eq_dec : EqDecision t.
Proof. solve_decision. Defined.
Definition default : t := Team.
Definition fmt (self : t) : string :=
  match self with
  | Team => "team"
  | Individual => "individual"
  | AdHoc => "adhoc"
  end.
Definition from_str (s : string) : result t string :=
  match_lowercase "participant type"
    [("team", Team);
     ("individual", Individual);
     ("adhoc", AdHoc)] s.
#[global] Instance wire : WireEnum t :=
  {| wire_variants := [Team; Individual; AdHoc]; wire_fmt := fmt; wire_from_str := from_str |}.
#[global] Instance wire_laws : WireLaws t.
Proof. solve_wire_laws. Qed.
Definition requires_team_size (self : t) : bool :=
  match self with Team | AdHoc => true | _ => false end.
End TournamentParticipantType.

Module TournamentKind.
Inductive t :=
| Standard
| Pug.
#[global] Instance eq_dec : EqDecision t.
Proof. solve_decision. Defined.
Definition default : t := Standard.
Definition fmt (self : t) : string :=
  match self with
  | Standard => "standard"
  | Pug => "pug"
  end.
Definition from_str (s : string) : result t string :=
  match_lowercase "tournament kind"
    [("standard", Standard);
     ("pug", Pug)] s.
#[global] Instance wire : WireEnum t :=
  {| wire_variants := [Standard; Pug]; wire_fmt := fmt; wire_from_str := from_str |}.
#[global] Instance wire_laws : WireLaws t.
Proof. solve_wire_laws. Qed.
End TournamentKind.

Module RegistrationType.
Inductive t :=
| Open
| InviteOnly
| Qualification
| Approval.
#[global] Instance eq_dec : EqDecision t.
Proof. solve_decision. Defined.
Definition default : t := Open.
Definition fmt (self : t) : string :=
  match self with
  | Open => "open"
  | InviteOnly => "invite_only"
  | Qualification => "qualification"
  | Approval => "approval"
  end.
Definition from_str (s : string) : result t string :=
  match_lowercase "registration type"
    [("open", Open);
     ("invite_only", InviteOnly);
     ("qualification", Qualification);
     ("approval", Approval)] s.
#[global] Instance wire : WireEnum t :=
  {| wire_variants := [Open; InviteOnly; Qualification; Approval]; wire_fmt := fmt; wire_from_str := from_str |}.
#[global] Instance wire_laws : WireLaws t.
Proof. solve_wire_laws. Qed.
Definition requires_approval (self : t) : bool :=
  match self with InviteOnly | Qualification | Approval => true | _ => false end.
Definition requires_invitation (self : t) : bool :=
  match self with InviteOnly => true | _ => false end.
End RegistrationType.

Module TournamentInvitationStatus.
Inductive t :=
| Pending
| Accepted
| Revoked.
#[global] Instance eq_dec : EqDecision t.
Proof. solve_decision. Defined.
Definition default : t := Pending.
Definition fmt (self : t) : string :=
  match self with
  | Pending => "pending"
  | Accepted => "accepted"
  | Revoked => "revoked"
  end.
Definition from_str (s : string) : result t string :=
  match_lowercase "tournament invitation status"
    [("pending", Pending);
     ("accepted", Accepted);
     ("revoked", Revoked)] s.
#[global] Instance wire : WireEnum t :=
  {| wire_variants := [Pending; Accepted; Revoked]; wire_fmt := fmt; wire_from_str := from_str |}.
#[global] Instance wire_laws : WireLaws t.
Proof. solve_wire_laws. Qed.
Definition permits_registration (self : t) : bool :=
  match self with Pending | Accepted => true | _ => false end.
End TournamentInvitationStatus.

Module SchedulingMode.
Inductive t :=
| Live
| SelfScheduled
| Hybrid.
#[global] Instance eq_dec : EqDecision t.
Proof. solve_decision. Defined.
Definition default : t := Live.
Definition fmt (self : t) : string :=
  match self with
  | Live => "live"
  | SelfScheduled => "self_scheduled"
  | Hybrid => "hybrid"
  end.
Definition from_str (s : string) : result t string :=
  match_lowercase "scheduling mode"
    [("live", Live);
     ("self_scheduled", SelfScheduled);
     ("hybrid", Hybrid)] s.
#[global] Instance wire : WireEnum t :=
  {| wire_variants := [Live; SelfScheduled; Hybrid]; wire_fmt := fmt; wire_from_str := from_str |}.
#[global] Instance wire_laws : WireLaws t.
Proof. solve_wire_laws. Qed.
End SchedulingMode.

Module TournamentMatchStatus.
Inductive t :=
| Pending
| Ready
| Scheduled
| CheckingIn
| PickBan
| InProgress
| AwaitingResult
| Completed
| Cancelled
| Forfeit
| Disputed.
#[global] Instance eq_dec : EqDecision t.
Proof. solve_decision. Defined.
Definition default : t := Pending.
Definition fmt (self : t) : string :=
  match self with
  | Pending => "pending"
  | Ready => "ready"
  | Scheduled => "scheduled"
  | CheckingIn => "checking_in"
  | PickBan => "pick_ban"
  | InProgress => "in_progress"
  | AwaitingResult => "awaiting_result"
  | Completed => "completed"
  | Cancelled => "cancelled"
  | Forfeit => "forfeit"
  | Disputed => "disputed"
  end.
Definition from_str (s : string) : result t string :=
  match_lowercase "tournament match status"
    [("pending", Pending);
     ("ready", Ready);
     ("scheduled", Scheduled);
     ("checking_in", CheckingIn);
     ("pick_ban", PickBan);
     ("in_progress", InProgress);
     ("awaiting_result", AwaitingResult);
     ("completed", Completed);
     ("cancelled", Cancelled);
     ("forfeit", Forfeit);
     ("disputed", Disputed)] s.
#[global] Instance wire : WireEnum t :=
  {| wire_variants := [Pending; Ready; Scheduled; CheckingIn; PickBan; InProgress; AwaitingResult; Completed; Cancelled; Forfeit; Disputed]; wire_fmt := fmt; wire_from_str := from_str |}.
#[global] Instance wire_laws : WireLaws t.
Proof. solve_wire_laws. Qed.
Definition is_terminal (self : t) : bool :=
  match self with Completed | Cancelled | Forfeit => true | _ => false end.
Definition can_start (self : t) : bool :=
  match self with Ready | Scheduled | CheckingIn => true | _ => false end.
Definition is_active (self : t) : bool :=
  match self with CheckingIn | PickBan | InProgress | AwaitingResult => true | _ => false end.
Definition can_submit_result (self : t) : bool :=
  match self with InProgress | AwaitingResult => true | _ => false end.
Definition can_schedule (self : t) : bool :=
  match self with Ready => true | _ => false end.
Definition can_forfeit (self : t) : bool :=
  match self with Scheduled | CheckingIn | PickBan | InProgress | AwaitingResult => true | _ => false end.
Definition can_cancel (self : t) : bool :=
  match self with Pending | Ready | Scheduled | CheckingIn | PickBan => true | _ => false end.
Definition can_dispute (self : t) : bool :=
  match self with AwaitingResult => true | _ => false end.
Definition allowed_transitions (self : t) : list t :=
  match self with
  | Pending => [Ready; Cancelled]
  | Ready => [Scheduled; Cancelled]
  | Scheduled => [CheckingIn; PickBan; InProgress; Forfeit; Cancelled]
  | CheckingIn => [PickBan; InProgress; Forfeit; Cancelled]
  | PickBan => [InProgress; Forfeit; Cancelled]
  | InProgress => [AwaitingResult; Forfeit]
  | AwaitingResult => [Completed; Disputed; Forfeit]
  | Disputed => [Completed]
  | Completed | Forfeit | Cancelled => []
  end.
Definition valid_transitions (self : t) : list t := allowed_transitions self.
Definition can_transition_to (self target : t) : bool :=
  bool_decide (target ∈ allowed_transitions self).
End TournamentMatchStatus.

Module TournamentRegistrationStatus.
Inductive t :=
| Pending
| Approved
| CheckedIn
| Active
| Eliminated
| Disqualified
| Withdrawn
| NoShow.
#[global] Instance eq_dec : EqDecision t.
Proof. solve_decision. Defined.
Definition default : t := Pending.
Definition fmt (self : t) : string :=
  match self with
  | Pending => "pending"
  | Approved => "approved"
  | CheckedIn => "checked_in"
  | Active => "active"
  | Eliminated => "eliminated"
  | Disqualified => "disqualified"
  | Withdrawn => "withdrawn"
  | NoShow => "no_show"
  end.
Definition from_str (s : string) : result t string :=
  match_lowercase "registration status"
    [("pending", Pending);
     ("approved", Approved);
     ("checked_in", CheckedIn);
     ("active", Active);
     ("eliminated", Eliminated);
     ("disqualified", Disqualified);
     ("withdrawn", Withdrawn);
     ("no_show", NoShow)] s.
#[global] Instance wire : WireEnum t :=
  {| wire_variants := [Pending; Approved; CheckedIn; Active; Eliminated; Disqualified; Withdrawn; NoShow]; wire_fmt := fmt; wire_from_str := from_str |}.
#[global] Instance wire_laws : WireLaws t.
Proof. solve_wire_laws. Qed.
Definition is_terminal (self : t) : bool :=
  match self with Eliminated | Disqualified | Withdrawn | NoShow => true | _ => false end.
Definition can_compete (self : t) : bool :=
  match self with CheckedIn | Active => true | _ => false end.
Definition can_check_in (self : t) : bool :=
  match self with Approved => true | _ => false end.
Definition can_withdraw (self : t) : bool :=
  match self with Pending | Approved | CheckedIn | Active => true | _ => false end.
End TournamentRegistrationStatus.

Module WithdrawalPolicy.
Inductive t :=
| Forfeit
| Reseeding
| WaitlistPromotion
| AdminDecision.
#[global] Instance eq_dec : EqDecision t.
Proof. solve_decision. Defined.
Definition default : t := Forfeit.
Definition fmt (self : t) : string :=
  match self with
  | Forfeit => "forfeit"
  | Reseeding => "reseeding"
  | WaitlistPromotion => "waitlist_promotion"
  | AdminDecision => "admin_decision"
  end.
Definition from_str (s : string) : result t string :=
  match_lowercase "withdrawal policy"
    [("forfeit", Forfeit);
     ("reseeding", Reseeding);
     ("waitlist_promotion", WaitlistPromotion);
     ("admin_decision", AdminDecision)] s.
#[global] Instance wire : WireEnum t :=
  {| wire_variants := [Forfeit; Reseeding; WaitlistPromotion; AdminDecision]; wire_fmt := fmt; wire_from_str := from_str |}.
#[global] Instance wire_laws : WireLaws t.
Proof. solve_wire_laws. Qed.
End WithdrawalPolicy.

Module StageFormat.
Inductive t :=
| SingleElimination
| DoubleElimination
| RoundRobin
| Swiss
| GroupStage.
#[global] Instance eq_dec : EqDecision t.
Proof. solve_decision. Defined.
Definition default : t := SingleElimination.
Definition fmt (self : t) : string :=
  match self with
  | SingleElimination => "single_elimination"
  | DoubleElimination => "double_elimination"
  | RoundRobin => "round_robin"
  | Swiss => "swiss"
  | GroupStage => "group_stage"
  end.
Definition from_str (s : string) : result t string :=
  match_lowercase "stage format"
    [("single_elimination", SingleElimination);
     ("double_elimination", DoubleElimination);
     ("round_robin", RoundRobin);
     ("swiss", Swiss);
     ("group_stage", GroupStage)] s.
#[global] Instance wire : WireEnum t :=
  {| wire_variants := [SingleElimination; DoubleElimination; RoundRobin; Swiss; GroupStage]; wire_fmt := fmt; wire_from_str := from_str |}.
#[global] Instance wire_laws : WireLaws t.
Proof. solve_wire_laws. Qed.
End StageFormat.

Module BracketType.
Inductive t :=
| Winners
| Losers
| SingleElim
| RoundRobin
| Swiss
| GrandFinal.
#[global] Instance eq_dec : EqDecision t.
Proof. solve_decision. Defined.
Definition default : t := SingleElim.
Definition fmt (self : t) : string :=
  match self with
  | Winners => "winners"
  | Losers => "losers"
  | SingleElim => "single_elim"
  | RoundRobin => "round_robin"
  | Swiss => "swiss"
  | GrandFinal => "grand_final"
  end.
Definition from_str (s : string) : result t string :=
  match_lowercase "bracket type"
    [("winners", Winners);
     ("losers", Losers);
     ("single_elim", SingleElim);
     ("round_robin", RoundRobin);
     ("swiss", Swiss);
     ("grand_final", GrandFinal)] s.
#[global] Instance wire : WireEnum t :=
  {| wire_variants := [Winners; Losers; SingleElim; RoundRobin; Swiss; GrandFinal]; wire_fmt := fmt; wire_from_str := from_str |}.
#[global] Instance wire_laws : WireLaws t.
Proof. solve_wire_laws. Qed.
End BracketType.

Module StageStatus.
Inductive t :=
| Pending
| Active
| Completed
| Cancelled.
#[global] Instance eq_dec : EqDecision t.
Proof. solve_decision. Defined.
Definition default : t := Pending.
Definition fmt (self : t) : string :=
  match self with
  | Pending => "pending"
  | Active => "active"
  | Completed => "completed"
  | Cancelled => "cancelled"
  end.
Definition from_str (s : string) : result t string :=
  match_lowercase "stage status"
    [("pending", Pending);
     ("active", Active);
     ("completed", Completed);
     ("cancelled", Cancelled)] s.
#[global] Instance wire : WireEnum t :=
  {| wire_variants := [Pending; Active; Completed; Cancelled]; wire_fmt := fmt; wire_from_str := from_str |}.
#[global] Instance wire_laws : WireLaws t.
Proof. solve_wire_laws. Qed.
Definition is_terminal (self : t) : bool :=
  match self with Completed | Cancelled => true | _ => false end.
End StageStatus.

Module BracketStatus.
Inductive t :=
| Pending
| Active
| Completed
| Cancelled.
#[global] Instance eq_dec : EqDecision t.
Proof. solve_decision. Defined.
Definition default : t := Pending.
Definition fmt (self : t) : string :=
  match self with
  | Pending => "pending"
  | Active => "active"
  | Completed => "completed"
  | Cancelled => "cancelled"
  end.
Definition from_str (s : string) : result t string :=
  match_lowercase "bracket status"
    [("pending", Pending);
     ("active", Active);
     ("completed", Completed);
     ("cancelled", Cancelled)] s.
#[global] Instance wire : WireEnum t :=
  {| wire_variants := [Pending; Active; Completed; Cancelled]; wire_fmt := fmt; wire_from_str := from_str |}.
#[global] Instance wire_laws : WireLaws t.
Proof. solve_wire_laws. Qed.
Definition is_terminal (self : t) : bool :=
  match self with Completed | Cancelled => true | _ => false end.
End BracketStatus.

Module AdvancementRule.
Inductive t :=
| TopN
| TopNPerGroup
| Manual.
#[global] Instance eq_dec : EqDecision t.
Proof. solve_decision. Defined.
Definition default : t := TopN.
Definition fmt (self : t) : string :=
  match self with
  | TopN => "top_n"
  | TopNPerGroup => "top_n_per_group"
  | Manual => "manual"
  end.
Definition from_str (s : string) : result t string :=
  match_lowercase "advancement rule"
    [("top_n", TopN);
     ("top_n_per_group", TopNPerGroup);
     ("manual", Manual)] s.
#[global] Instance wire : WireEnum t :=
  {| wire_variants := [TopN; TopNPerGroup; Manual]; wire_fmt := fmt; wire_from_str := from_str |}.
#[global] Instance wire_laws : WireLaws t.
Proof. solve_wire_laws. Qed.
End AdvancementRule.

Module MatchFormat.
Inductive t :=
| Bo1
| Bo3
| Bo5
| Bo7.
#[global] Instance eq_dec : EqDecision t.
Proof. solve_decision. Defined.
Definition default : t := Bo1.
Definition fmt (self : t) : string :=
  match self with
  | Bo1 => "bo1"
  | Bo3 => "bo3"
  | Bo5 => "bo5"
  | Bo7 => "bo7"
  end.
Definition from_str (s : string) : result t string :=
  match_lowercase "match format"
    [("bo1", Bo1);
     ("bo3", Bo3);
     ("bo5", Bo5);
     ("bo7", Bo7)] s.
#[global] Instance wire : WireEnum t :=
  {| wire_variants := [Bo1; Bo3; Bo5; Bo7]; wire_fmt := fmt; wire_from_str := from_str |}.
#[global] Instance wire_laws : WireLaws t.
Proof. solve_wire_laws. Qed.
Definition game_count (self : t) : Z :=
  match self with Bo1 => 1 | Bo3 => 3 | Bo5 => 5 | Bo7 => 7 end.
Definition wins_required (self : t) : Z := Z.quot (game_count self) 2 + 1.
End MatchFormat.

Module SeedingAlgorithm.
Inductive t :=
| Random
| Rating
| SeasonRank
| Manual.
#[global] Instance eq_dec : EqDecision t.
Proof. solve_decision. Defined.
Definition default : t := Random.
Definition fmt (self : t) : string :=
  match self with
  | Random => "random"
  | Rating => "rating"
  | SeasonRank => "season_rank"
  | Manual => "manual"
  end.
Definition from_str (s : string) : result t string :=
  match_lowercase "seeding algorithm"
    [("random", Random);
     ("rating", Rating);
     ("season_rank", SeasonRank);
     ("manual", Manual)] s.
#[global] Instance wire : WireEnum t :=
  {| wire_variants := [Random; Rating; SeasonRank; Manual]; wire_fmt := fmt; wire_from_str := from_str |}.
#[global] Instance wire_laws : WireLaws t.
Proof. solve_wire_laws. Qed.
End SeedingAlgorithm.

Module ProposalStatus.
Inductive t :=
| Pending
| Accepted
| Rejected
| CounterProposed
| Expired
| Cancelled.
#[global] Instance eq_dec : EqDecision t.
Proof. solve_decision. Defined.
Definition default : t := Pending.
Definition fmt (self : t) : string :=
  match self with
  | Pending => "pending"
  | Accepted => "accepted"
  | Rejected => "rejected"
  | CounterProposed => "counter_proposed"
  | Expired => "expired"
  | Cancelled => "cancelled"
  end.
Definition from_str (s : string) : result t string :=
  match_lowercase "proposal status"
    [("pending", Pending);
     ("accepted", Accepted);
     ("rejected", Rejected);
     ("counter_proposed", CounterProposed);
     ("expired", Expired);
     ("cancelled", Cancelled)] s.
#[global] Instance wire : WireEnum t :=
  {| wire_variants := [Pending; Accepted; Rejected; CounterProposed; Expired; Cancelled]; wire_fmt := fmt; wire_from_str := from_str |}.
#[global] Instance wire_laws : WireLaws t.
Proof. solve_wire_laws. Qed.
Definition is_terminal (self : t) : bool :=
  match self with Accepted | Rejected | Expired | Cancelled => true | _ => false end.
Definition can_respond (self : t) : bool :=
  match self with Pending => true | _ => false end.
Definition as_str (self : t) : string :=
  match self with
  | Pending => "pending"
  | Accepted => "accepted"
  | Rejected => "rejected"
  | CounterProposed => "counter_proposed"
  | Expired => "expired"
  | Cancelled => "cancelled"
  end.
Definition can_transition_to (self target : t) : bool :=
  match self, target with
  | Pending, (Accepted | Rejected | CounterProposed | Expired | Cancelled) => true
  | _, _ => false
  end.
End ProposalStatus.

Module ExceptionType.
Inductive t :=
| Blocked
| Override.
#[global] Instance eq_dec : EqDecision t.
Proof. solve_decision. Defined.
Definition default : t := Blocked.
Definition fmt (self : t) : string :=
  match self with
  | Blocked => "blocked"
  | Override => "override"
  end.
Definition from_str (s : string) : result t string :=
  match_lowercase "exception type"
    [("blocked", Blocked);
     ("override", Override)] s.
#[global] Instance wire : WireEnum t :=
  {| wire_variants := [Blocked; Override]; wire_fmt := fmt; wire_from_str := from_str |}.
#[global] Instance wire_laws : WireLaws t.
Proof. solve_wire_laws. Qed.
End ExceptionType.


(** Where a match participant comes from; positions are bracket positions. *)
Module MatchParticipantSource.
Inductive t :=
| Seed (n : Z)
| WinnerOf (pos : string)
| LoserOf (pos : string)
| Bye.
#[global] Instance eq_dec : EqDecision t.
Proof. solve_decision. Defined.
Definition fmt (self : t) : string :=
  match self with
  | Seed n => "seed_" +:+ pretty n
  | WinnerOf pos => "winner_of_" +:+ pos
  | LoserOf pos => "loser_of_" +:+ pos
  | Bye => "bye"
  end.
End MatchParticipantSource.
