(* ===== verification/CoreEnums.v ===== *)
(** Status enums of crates/portal-core/src/types/{status,pug,league_team,demo,
    lineup,veto,evidence}.rs: variants, [Display], [FromStr], predicates and
    transition tables. *)
From stdpp Require Import base list strings.
From S2P Require Import Prelude Wire.

Module EntityStatus.
Inductive t :=
| Active
| Inactive
| Deleted.
#[global] Instance eq_dec : EqDecision t.
Proof. solve_decision. Defined.
Definition default : t := Active.
Definition fmt (self : t) : string :=
  match self with
  | Active => "active"
  | Inactive => "inactive"
  | Deleted => "deleted"
  end.
Definition from_str (s : string) : result t string :=
  match_lowercase "entity status"
    [("active", Active);
     ("inactive", Inactive);
     ("deleted", Deleted)] s.
#[global] Instance wire : WireEnum t :=
  {| wire_variants := [Active; Inactive; Deleted]; wire_fmt := fmt; wire_from_str := from_str |}.
#[global] Instance wire_laws : WireLaws t.
Proof. solve_wire_laws. Qed.
End EntityStatus.

Module MatchStatus.
Inductive t :=
| Pending
| Ready
| InProgress
| Completed
| Cancelled
| Forfeited
| Disputed.
#[global] Instance eq_dec : EqDecision t.
Proof. solve_decision. Defined.
Definition default : t := Pending.
Definition fmt (self : t) : string :=
  match self with
  | Pending => "pending"
  | Ready => "ready"
  | InProgress => "in_progress"
  | Completed => "completed"
  | Cancelled => "cancelled"
  | Forfeited => "forfeited"
  | Disputed => "disputed"
  end.
Definition from_str (s : string) : result t string :=
  match_lowercase "match status"
    [("pending", Pending);
     ("ready", Ready);
     ("in_progress", InProgress);
     ("completed", Completed);
     ("cancelled", Cancelled);
     ("forfeited", Forfeited);
     ("disputed", Disputed)] s.
#[global] Instance wire : WireEnum t :=
  {| wire_variants := [Pending; Ready; InProgress; Completed; Cancelled; Forfeited; Disputed]; wire_fmt := fmt; wire_from_str := from_str |}.
#[global] Instance wire_laws : WireLaws t.
Proof. solve_wire_laws. Qed.
Definition is_terminal (self : t) : bool :=
  match self with Completed | Cancelled | Forfeited => true | _ => false end.
Definition can_cancel (self : t) : bool :=
  match self with Pending | Ready => true | _ => false end.
Definition can_start (self : t) : bool :=
  match self with Ready => true | _ => false end.
End MatchStatus.

Module TournamentStatus.
Inductive t :=
| Draft
| Published
| Registration
| Scheduled
| InProgress
| Completed
| Finalized
| Cancelled.
#[global] Instance eq_dec : EqDecision t.
Proof. solve_decision. Defined.
Definition default : t := Draft.
Definition fmt (self : t) : string :=
  match self with
  | Draft => "draft"
  | Published => "published"
  | Registration => "registration"
  | Scheduled => "scheduled"
  | InProgress => "in_progress"
  | Completed => "completed"
  | Finalized => "finalized"
  | Cancelled => "cancelled"
  end.
Definition from_str (s : string) : result t string :=
  match_lowercase "tournament status"
    [("draft", Draft);
     ("published", Published);
     ("registration", Registration);
     ("scheduled", Scheduled);
     ("in_progress", InProgress);
     ("completed", Completed);
     ("finalized", Finalized);
     ("cancelled", Cancelled)] s.
#[global] Instance wire : WireEnum t :=
  {| wire_variants := [Draft; Published; Registration; Scheduled; InProgress; Completed; Finalized; Cancelled]; wire_fmt := fmt; wire_from_str := from_str |}.
#[global] Instance wire_laws : WireLaws t.
Proof. solve_wire_laws. Qed.
Definition is_registration_open (self : t) : bool :=
  match self with Registration => true | _ => false end.
Definition is_active (self : t) : bool :=
  match self with Draft | Published | Registration | Scheduled | InProgress => true | _ => false end.
Definition is_terminal (self : t) : bool :=
  match self with Finalized | Cancelled => true | _ => false end.
Definition valid_transitions (self : t) : list t :=
  match self with
  | Draft => [Published; Cancelled]
  | Published => [Registration; Cancelled]
  | Registration => [Scheduled; InProgress; Cancelled]
  | Scheduled => [Registration; InProgress; Cancelled]
  | InProgress => [Completed; Cancelled]
  | Completed => [Finalized]
  | Finalized => []
  | Cancelled => []
  end.
Definition can_transition_to (self target : t) : bool :=
  bool_decide (target ∈ valid_transitions self).
End TournamentStatus.


Module PugStatus.
Inductive t :=
| Gathering
| MapSelection
| AwaitingServer
| Live
| Completed
| Cancelled
| Expired.
#[global] Instance eq_dec : EqDecision t.
Proof. solve_decision. Defined.
Definition default : t := Gathering.
Definition fmt (self : t) : string :=
  match self with
  | Gathering => "gathering"
  | MapSelection => "map_selection"
  | AwaitingServer => "awaiting_server"
  | Live => "live"
  | Completed => "completed"
  | Cancelled => "cancelled"
  | Expired => "expired"
  end.
Definition from_str (s : string) : result t string :=
  match_lowercase "pug status"
    [("gathering", Gathering);
     ("map_selection", MapSelection);
     ("awaiting_server", AwaitingServer);
     ("live", Live);
     ("completed", Completed);
     ("cancelled", Cancelled);
     ("expired", Expired)] s.
#[global] Instance wire : WireEnum t :=
  {| wire_variants := [Gathering; MapSelection; AwaitingServer; Live; Completed; Cancelled; Expired]; wire_fmt := fmt; wire_from_str := from_str |}.
#[global] Instance wire_laws : WireLaws t.
Proof. solve_wire_laws. Qed.
Definition is_terminal (self : t) : bool :=
  match self with Completed | Cancelled | Expired => true | _ => false end.
Definition is_open (self : t) : bool :=
  match self with Gathering => true | _ => false end.
End PugStatus.

Module PugMapSelectionMode.
Inductive t :=
| Veto
| Wheel.
#[global] Instance eq_dec : EqDecision t.
Proof. solve_decision. Defined.
Definition default : t := Veto.
Definition fmt (self : t) : string :=
  match self with
  | Veto => "veto"
  | Wheel => "wheel"
  end.
Definition from_str (s : string) : result t string :=
  match_lowercase "pug map selection mode"
    [("veto", Veto);
     ("wheel", Wheel)] s.
#[global] Instance wire : WireEnum t :=
  {| wire_variants := [Veto; Wheel]; wire_fmt := fmt; wire_from_str := from_str |}.
#[global] Instance wire_laws : WireLaws t.
Proof. solve_wire_laws. Qed.
End PugMapSelectionMode.


Module SeasonStatus.
Inductive t :=
| Draft
| Registration
| Active
| Playoffs
| Completed
| Cancelled.
#[global] Instance eq_dec : EqDecision t.
Proof. solve_decision. Defined.
Definition default : t := Draft.
Definition fmt (self : t) : string :=
  match self with
  | Draft => "draft"
  | Registration => "registration"
  | Active => "active"
  | Playoffs => "playoffs"
  | Completed => "completed"
  | Cancelled => "cancelled"
  end.
Definition from_str (s : string) : result t string :=
  match_lowercase "season status"
    [("draft", Draft);
     ("registration", Registration);
     ("active", Active);
     ("playoffs", Playoffs);
     ("completed", Completed);
     ("cancelled", Cancelled)] s.
#[global] Instance wire : WireEnum t :=
  {| wire_variants := [Draft; Registration; Active; Playoffs; Completed; Cancelled]; wire_fmt := fmt; wire_from_str := from_str |}.
#[global] Instance wire_laws : WireLaws t.
Proof. solve_wire_laws. Qed.
Definition is_registration_open (self : t) : bool :=
  match self with Registration => true | _ => false end.
Definition is_active (self : t) : bool :=
  match self with Active | Playoffs => true | _ => false end.
Definition is_terminal (self : t) : bool :=
  match self with Completed | Cancelled => true | _ => false end.
Definition allowed_transitions (self : t) : list t :=
  match self with
  | Draft => [Registration; Cancelled]
  | Registration => [Active; Cancelled]
  | Active => [Playoffs; Completed; Cancelled]
  | Playoffs => [Completed; Cancelled]
  | Completed | Cancelled => []
  end.
End SeasonStatus.

Module RosterLockStatus.
Inductive t :=
| Open
| SoftLock
| HardLock.
#[global] Instance eq_dec : EqDecision t.
Proof. solve_decision. Defined.
Definition default : t := Open.
Definition fmt (self : t) : string :=
  match self with
  | Open => "open"
  | SoftLock => "soft_lock"
  | HardLock => "hard_lock"
  end.
Definition from_str (s : string) : result t string :=
  match_lowercase "roster lock status"
    [("open", Open);
     ("soft_lock", SoftLock);
     ("hard_lock", HardLock)] s.
#[global] Instance wire : WireEnum t :=
  {| wire_variants := [Open; SoftLock; HardLock]; wire_fmt := fmt; wire_from_str := from_str |}.
#[global] Instance wire_laws : WireLaws t.
Proof. solve_wire_laws. Qed.
Definition allows_primary_changes (self : t) : bool :=
  match self with Open => true | _ => false end.
Definition allows_substitute_changes (self : t) : bool :=
  match self with Open | SoftLock => true | _ => false end.
Definition allows_any_changes (self : t) : bool :=
  negb (match self with HardLock => true | _ => false end).
End RosterLockStatus.

Module LeagueTeamStatus.
Inductive t :=
| Active
| Inactive
| Disbanded.
#[global] Instance eq_dec : EqDecision t.
Proof. solve_decision. Defined.
Definition default : t := Active.
Definition fmt (self : t) : string :=
  match self with
  | Active => "active"
  | Inactive => "inactive"
  | Disbanded => "disbanded"
  end.
Definition from_str (s : string) : result t string :=
  match_lowercase "league team status"
    [("active", Active);
     ("inactive", Inactive);
     ("disbanded", Disbanded)] s.
#[global] Instance wire : WireEnum t :=
  {| wire_variants := [Active; Inactive; Disbanded]; wire_fmt := fmt; wire_from_str := from_str |}.
#[global] Instance wire_laws : WireLaws t.
Proof. solve_wire_laws. Qed.
Definition can_participate (self : t) : bool :=
  match self with Active => true | _ => false end.
Definition is_terminal (self : t) : bool :=
  match self with Disbanded => true | _ => false end.
End LeagueTeamStatus.

Module LeagueTeamSeasonStatus.
Inductive t :=
| Forming
| Pending
| Registered
| Active
| Eliminated
| Disqualified
| Withdrawn.
#[global] Instance eq_dec : EqDecision t.
Proof. solve_decision. Defined.
Definition default : t := Forming.
Definition fmt (self : t) : string :=
  match self with
  | Forming => "forming"
  | Pending => "pending"
  | Registered => "registered"
  | Active => "active"
  | Eliminated => "eliminated"
  | Disqualified => "disqualified"
  | Withdrawn => "withdrawn"
  end.
Definition from_str (s : string) : result t string :=
  match_lowercase "league team season status"
    [("forming", Forming);
     ("pending", Pending);
     ("registered", Registered);
     ("active", Active);
     ("eliminated", Eliminated);
     ("disqualified", Disqualified);
     ("withdrawn", Withdrawn)] s.
#[global] Instance wire : WireEnum t :=
  {| wire_variants := [Forming; Pending; Registered; Active; Eliminated; Disqualified; Withdrawn]; wire_fmt := fmt; wire_from_str := from_str |}.
#[global] Instance wire_laws : WireLaws t.
Proof. solve_wire_laws. Qed.
Definition can_compete (self : t) : bool :=
  match self with Registered | Active => true | _ => false end.
Definition can_modify_roster (self : t) : bool :=
  match self with Forming | Pending | Registered | Active => true | _ => false end.
Definition is_terminal (self : t) : bool :=
  match self with Eliminated | Disqualified | Withdrawn => true | _ => false end.
End LeagueTeamSeasonStatus.

Module LeagueTeamRole.
Inductive t :=
| Captain
| Player
| Substitute.
#[global] Instance eq_dec : EqDecision t.
Proof. solve_decision. Defined.
Definition default : t := Player.
Definition fmt (self : t) : string :=
  match self with
  | Captain => "captain"
  | Player => "player"
  | Substitute => "substitute"
  end.
Definition from_str (s : string) : result t string :=
  match_lowercase "league team role"
    [("captain", Captain);
     ("player", Player);
     ("substitute", Substitute)] s.
#[global] Instance wire : WireEnum t :=
  {| wire_variants := [Captain; Player; Substitute]; wire_fmt := fmt; wire_from_str := from_str |}.
#[global] Instance wire_laws : WireLaws t.
Proof. solve_wire_laws. Qed.
Definition is_primary (self : t) : bool :=
  match self with Captain | Player => true | _ => false end.
Definition can_manage_roster (self : t) : bool :=
  match self with Captain => true | _ => false end.
End LeagueTeamRole.

Module LeagueTeamMemberStatus.
Inductive t :=
| Active
| Inactive
| Left
| Removed.
#[global] Instance eq_dec : EqDecision t.
Proof. solve_decision. Defined.
Definition default : t := Active.
Definition fmt (self : t) : string :=
  match self with
  | Active => "active"
  | Inactive => "inactive"
  | Left => "left"
  | Removed => "removed"
  end.
Definition from_str (s : string) : result t string :=
  match_lowercase "league team member status"
    [("active", Active);
     ("inactive", Inactive);
     ("left", Left);
     ("removed", Removed)] s.
#[global] Instance wire : WireEnum t :=
  {| wire_variants := [Active; Inactive; Left; Removed]; wire_fmt := fmt; wire_from_str := from_str |}.
#[global] Instance wire_laws : WireLaws t.
Proof. solve_wire_laws. Qed.
Definition is_active (self : t) : bool :=
  match self with Active => true | _ => false end.
Definition can_rejoin (self : t) : bool :=
  match self with Inactive | Left => true | _ => false end.
End LeagueTeamMemberStatus.

Module LeagueTeamInvitationType.
Inductive t :=
| Invite
| Request.
#[global] Instance eq_dec : EqDecision t.
Proof. solve_decision. Defined.
Definition default : t := Invite.
Definition fmt (self : t) : string :=
  match self with
  | Invite => "invite"
  | Request => "request"
  end.
Definition from_str (s : string) : result t string :=
  match_lowercase "league team invitation type"
    [("invite", Invite);
     ("request", Request)] s.
#[global] Instance wire : WireEnum t :=
  {| wire_variants := [Invite; Request]; wire_fmt := fmt; wire_from_str := from_str |}.
#[global] Instance wire_laws : WireLaws t.
Proof. solve_wire_laws. Qed.
End LeagueTeamInvitationType.

Module LeagueTeamInvitationStatus.
Inductive t :=
| Pending
| Accepted
| Declined
| Expired
| Cancelled.
#[global] Instance eq_dec : EqDecision t.
Proof. solve_decision. Defined.
Definition default : t := Pending.
Definition fmt (self : t) : string :=
  match self with
  | Pending => "pending"
  | Accepted => "accepted"
  | Declined => "declined"
  | Expired => "expired"
  | Cancelled => "cancelled"
  end.
Definition from_str (s : string) : result t string :=
  match_lowercase "league team invitation status"
    [("pending", Pending);
     ("accepted", Accepted);
     ("declined", Declined);
     ("expired", Expired);
     ("cancelled", Cancelled)] s.
#[global] Instance wire : WireEnum t :=
  {| wire_variants := [Pending; Accepted; Declined; Expired; Cancelled]; wire_fmt := fmt; wire_from_str := from_str |}.
#[global] Instance wire_laws : WireLaws t.
Proof. solve_wire_laws. Qed.
Definition is_actionable (self : t) : bool :=
  match self with Pending => true | _ => false end.
Definition is_terminal (self : t) : bool :=
  negb (match self with Pending => true | _ => false end).
End LeagueTeamInvitationStatus.


Module DemoCategory.
Inductive t :=
| Uncategorized
| Pug
| League
| Scrim
| Ignored.
#[global] Instance eq_dec : EqDecision t.
Proof. solve_decision. Defined.
Definition default : t := Uncategorized.
Definition fmt (self : t) : string :=
  match self with
  | Uncategorized => "uncategorized"
  | Pug => "pug"
  | League => "league"
  | Scrim => "scrim"
  | Ignored => "ignored"
  end.
Definition from_str (s : string) : result t string :=
  match_lowercase "demo category"
    [("uncategorized", Uncategorized);
     ("pug", Pug);
     ("league", League);
     ("scrim", Scrim);
     ("ignored", Ignored)] s.
#[global] Instance wire : WireEnum t :=
  {| wire_variants := [Uncategorized; Pug; League; Scrim; Ignored]; wire_fmt := fmt; wire_from_str := from_str |}.
#[global] Instance wire_laws : WireLaws t.
Proof. solve_wire_laws. Qed.
Definition is_competitive (self : t) : bool :=
  match self with League => true | _ => false end.
Definition is_visible (self : t) : bool :=
  negb (match self with Ignored => true | _ => false end).
End DemoCategory.

Module DemoStatus.
Inductive t :=
| Pending
| Processing
| Ready
| Failed
| Archived.
#[global] Instance eq_dec : EqDecision t.
Proof. solve_decision. Defined.
Definition default : t := Pending.
Definition fmt (self : t) : string :=
  match self with
  | Pending => "pending"
  | Processing => "processing"
  | Ready => "ready"
  | Failed => "failed"
  | Archived => "archived"
  end.
Definition from_str (s : string) : result t string :=
  match_lowercase "demo status"
    [("pending", Pending);
     ("processing", Processing);
     ("ready", Ready);
     ("failed", Failed);
     ("archived", Archived)] s.
#[global] Instance wire : WireEnum t :=
  {| wire_variants := [Pending; Processing; Ready; Failed; Archived]; wire_fmt := fmt; wire_from_str := from_str |}.
#[global] Instance wire_laws : WireLaws t.
Proof. solve_wire_laws. Qed.
Definition has_stats (self : t) : bool :=
  match self with Ready => true | _ => false end.
Definition needs_processing (self : t) : bool :=
  match self with Pending => true | _ => false end.
Definition is_terminal (self : t) : bool :=
  match self with Ready | Failed | Archived => true | _ => false end.
End DemoStatus.

Module DemoLinkType.
Inductive t :=
| Manual
| AutoMatched
| Evidence.
#[global] Instance eq_dec : EqDecision t.
Proof. solve_decision. Defined.
Definition default : t := Manual.
Definition fmt (self : t) : string :=
  match self with
  | Manual => "manual"
  | AutoMatched => "auto_matched"
  | Evidence => "evidence"
  end.
Definition from_str (s : string) : result t string :=
  match_lowercase "demo link type"
    [("manual", Manual);
     ("auto_matched", AutoMatched);
     ("evidence", Evidence)] s.
#[global] Instance wire : WireEnum t :=
  {| wire_variants := [Manual; AutoMatched; Evidence]; wire_fmt := fmt; wire_from_str := from_str |}.
#[global] Instance wire_laws : WireLaws t.
Proof. solve_wire_laws. Qed.
End DemoLinkType.


Module LineupStatus.
Inductive t :=
| Draft
| Submitted
| Locked.
#[global] Instance eq_dec : EqDecision t.
Proof. solve_decision. Defined.
Definition default : t := Draft.
Definition fmt (self : t) : string :=
  match self with
  | Draft => "draft"
  | Submitted => "submitted"
  | Locked => "locked"
  end.
Definition from_str (s : string) : result t string :=
  match_lowercase "lineup status"
    [("draft", Draft);
     ("submitted", Submitted);
     ("locked", Locked)] s.
#[global] Instance wire : WireEnum t :=
  {| wire_variants := [Draft; Submitted; Locked]; wire_fmt := fmt; wire_from_str := from_str |}.
#[global] Instance wire_laws : WireLaws t.
Proof. solve_wire_laws. Qed.
Definition is_editable (self : t) : bool :=
  negb (match self with Locked => true | _ => false end).
End LineupStatus.

Module LineupSource.
Inductive t :=
| Declared
| Demo
| Evidence
| Admin.
#[global] Instance eq_dec : EqDecision t.
Proof. solve_decision. Defined.
Definition default : t := Declared.
Definition fmt (self : t) : string :=
  match self with
  | Declared => "declared"
  | Demo => "demo"
  | Evidence => "evidence"
  | Admin => "admin"
  end.
Definition from_str (s : string) : result t string :=
  match_lowercase "lineup source"
    [("declared", Declared);
     ("demo", Demo);
     ("evidence", Evidence);
     ("admin", Admin)] s.
#[global] Instance wire : WireEnum t :=
  {| wire_variants := [Declared; Demo; Evidence; Admin]; wire_fmt := fmt; wire_from_str := from_str |}.
#[global] Instance wire_laws : WireLaws t.
Proof. solve_wire_laws. Qed.
Definition is_authoritative (self : t) : bool :=
  negb (match self with Declared => true | _ => false end).
End LineupSource.

Module ParticipationStatus.
Inductive t :=
| Confirmed
| NoShow
| LeftEarly
| Substituted
| Removed.
#[global] Instance eq_dec : EqDecision t.
Proof. solve_decision. Defined.
Definition default : t := Confirmed.
Definition fmt (self : t) : string :=
  match self with
  | Confirmed => "confirmed"
  | NoShow => "no_show"
  | LeftEarly => "left_early"
  | Substituted => "substituted"
  | Removed => "removed"
  end.
Definition from_str (s : string) : result t string :=
  match_lowercase "participation status"
    [("confirmed", Confirmed);
     ("no_show", NoShow);
     ("left_early", LeftEarly);
     ("substituted", Substituted);
     ("removed", Removed)] s.
#[global] Instance wire : WireEnum t :=
  {| wire_variants := [Confirmed; NoShow; LeftEarly; Substituted; Removed]; wire_fmt := fmt; wire_from_str := from_str |}.
#[global] Instance wire_laws : WireLaws t.
Proof. solve_wire_laws. Qed.
End ParticipationStatus.


Module VetoActionType.
Inductive t :=
| Ban
| Pick
| Decider
| Random.
#[global] Instance eq_dec : EqDecision t.
Proof. solve_decision. Defined.
Definition default : t := Ban.
Definition fmt (self : t) : string :=
  match self with
  | Ban => "ban"
  | Pick => "pick"
  | Decider => "decider"
  | Random => "random"
  end.
Definition from_str (s : string) : result t string :=
  match_lowercase "veto action type"
    [("ban", Ban);
     ("pick", Pick);
     ("decider", Decider);
     ("random", Random)] s.
#[global] Instance wire : WireEnum t :=
  {| wire_variants := [Ban; Pick; Decider; Random]; wire_fmt := fmt; wire_from_str := from_str |}.
#[global] Instance wire_laws : WireLaws t.
Proof. solve_wire_laws. Qed.
End VetoActionType.

Module SideSelectionMode.
Inductive t :=
| PickerChoice
| CoinFlip
| Knife.
#[global] Instance eq_dec : EqDecision t.
Proof. solve_decision. Defined.
Definition default : t := Knife.
Definition fmt (self : t) : string :=
  match self with
  | PickerChoice => "picker_choice"
  | CoinFlip => "coin_flip"
  | Knife => "knife"
  end.
Definition from_str (s : string) : result t string :=
  match_lowercase "side selection mode"
    [("picker_choice", PickerChoice);
     ("coin_flip", CoinFlip);
     ("knife", Knife)] s.
#[global] Instance wire : WireEnum t :=
  {| wire_variants := [PickerChoice; CoinFlip; Knife]; wire_fmt := fmt; wire_from_str := from_str |}.
#[global] Instance wire_laws : WireLaws t.
Proof. solve_wire_laws. Qed.
End SideSelectionMode.


Module EvidenceType.
Inductive t :=
| Demo
| Screenshot
| Video
| Link
| ServerLog.
#[global] Instance eq_dec : EqDecision t.
Proof. solve_decision. Defined.
Definition fmt (self : t) : string :=
  match self with
  | Demo => "demo"
  | Screenshot => "screenshot"
  | Video => "video"
  | Link => "link"
  | ServerLog => "server_log"
  end.
Definition from_str (s : string) : result t string :=
  match_lowercase "evidence type"
    [("demo", Demo);
     ("screenshot", Screenshot);
     ("video", Video);
     ("link", Link);
     ("server_log", ServerLog)] s.
#[global] Instance wire : WireEnum t :=
  {| wire_variants := [Demo; Screenshot; Video; Link; ServerLog]; wire_fmt := fmt; wire_from_str := from_str |}.
#[global] Instance wire_laws : WireLaws t.
Proof. solve_wire_laws. Qed.
End EvidenceType.

