(* ===== verification/DomainEnums.v ===== *)
(** Status enums of crates/portal-domain/src/entities/{dispute,forfeit,
    result_claim,veto,saga}.rs. *)
From stdpp Require Import base list strings.
From S2P Require Import Prelude Wire.

Module DisputeReason.
Inductive t :=
| WrongScore
| WrongWinner
| Cheating
| RuleViolation
| TechnicalIssue
| PlayerMisconduct
| Other.
#[global] Instance eq_dec : EqDecision t.
Proof. solve_decision. Defined.
Definition fmt (self : t) : string :=
  match self with
  | WrongScore => "wrong_score"
  | WrongWinner => "wrong_winner"
  | Cheating => "cheating"
  | RuleViolation => "rule_violation"
  | TechnicalIssue => "technical_issue"
  | PlayerMisconduct => "player_misconduct"
  | Other => "other"
  end.
Definition from_str (s : string) : result t string :=
  match_lowercase "dispute reason"
    [("wrong_score", WrongScore);
     ("wrong_winner", WrongWinner);
     ("cheating", Cheating);
     ("rule_violation", RuleViolation);
     ("technical_issue", TechnicalIssue);
     ("player_misconduct", PlayerMisconduct);
     ("other", Other)] s.
#[global] Instance wire : WireEnum t :=
  {| wire_variants := [WrongScore; WrongWinner; Cheating; RuleViolation; TechnicalIssue; PlayerMisconduct; Other]; wire_fmt := fmt; wire_from_str := from_str |}.
#[global] Instance wire_laws : WireLaws t.
Proof. solve_wire_laws. Qed.
End DisputeReason.

Module DisputeStatus.
Inductive t :=
| Pending
| UnderReview
| Resolved
| Cancelled.
#[global] Instance eq_dec : EqDecision t.
Proof. solve_decision. Defined.
Definition default : t := Pending.
Definition fmt (self : t) : string :=
  match self with
  | Pending => "pending"
  | UnderReview => "under_review"
  | Resolved => "resolved"
  | Cancelled => "cancelled"
  end.
Definition from_str (s : string) : result t string :=
  match_lowercase "dispute status"
    [("pending", Pending);
     ("under_review", UnderReview);
     ("resolved", Resolved);
     ("cancelled", Cancelled)] s.
#[global] Instance wire : WireEnum t :=
  {| wire_variants := [Pending; UnderReview; Resolved; Cancelled]; wire_fmt := fmt; wire_from_str := from_str |}.
#[global] Instance wire_laws : WireLaws t.
Proof. solve_wire_laws. Qed.
Definition can_transition_to (self target : t) : bool :=
  match self, target with
  | Pending, (UnderReview | Resolved | Cancelled) => true
  | UnderReview, (Resolved | Pending) => true
  | _, _ => false
  end.
End DisputeStatus.

Module DisputePriority.
Inductive t :=
| Low
| Normal
| High
| Urgent.
#[global] Instance eq_dec : EqDecision t.
Proof. solve_decision. Defined.
Definition default : t := Normal.
Definition fmt (self : t) : string :=
  match self with
  | Low => "low"
  | Normal => "normal"
  | High => "high"
  | Urgent => "urgent"
  end.
Definition from_str (s : string) : result t string :=
  match_lowercase "dispute priority"
    [("low", Low);
     ("normal", Normal);
     ("high", High);
     ("urgent", Urgent)] s.
#[global] Instance wire : WireEnum t :=
  {| wire_variants := [Low; Normal; High; Urgent]; wire_fmt := fmt; wire_from_str := from_str |}.
#[global] Instance wire_laws : WireLaws t.
Proof. solve_wire_laws. Qed.
End DisputePriority.

Module ResolutionType.
Inductive t :=
| Upheld
| Overturned
| Rematch
| Adjusted
| DoubleDq.
#[global] Instance eq_dec : EqDecision t.
Proof. solve_decision. Defined.
Definition fmt (self : t) : string :=
  match self with
  | Upheld => "upheld"
  | Overturned => "overturned"
  | Rematch => "rematch"
  | Adjusted => "adjusted"
  | DoubleDq => "double_dq"
  end.
Definition from_str (s : string) : result t string :=
  match_lowercase "resolution type"
    [("upheld", Upheld);
     ("overturned", Overturned);
     ("rematch", Rematch);
     ("adjusted", Adjusted);
     ("double_dq", DoubleDq)] s.
#[global] Instance wire : WireEnum t :=
  {| wire_variants := [Upheld; Overturned; Rematch; Adjusted; DoubleDq]; wire_fmt := fmt; wire_from_str := from_str |}.
#[global] Instance wire_laws : WireLaws t.
Proof. solve_wire_laws. Qed.
Definition changes_result (self : t) : bool :=
  match self with Overturned | Adjusted | DoubleDq => true | _ => false end.
Definition requires_rematch (self : t) : bool :=
  match self with Rematch => true | _ => false end.
End ResolutionType.

Module AuthorType.
Inductive t :=
| Participant
| Admin
| System.
#[global] Instance eq_dec : EqDecision t.
Proof. solve_decision. Defined.
Definition fmt (self : t) : string :=
  match self with
  | Participant => "participant"
  | Admin => "admin"
  | System => "system"
  end.
Definition from_str (s : string) : result t string :=
  match_lowercase "author type"
    [("participant", Participant);
     ("admin", Admin);
     ("system", System)] s.
#[global] Instance wire : WireEnum t :=
  {| wire_variants := [Participant; Admin; System]; wire_fmt := fmt; wire_from_str := from_str |}.
#[global] Instance wire_laws : WireLaws t.
Proof. solve_wire_laws. Qed.
End AuthorType.


Module ForfeitType.
Inductive t :=
| NoShow
| Withdrawal
| Disqualification
| TechnicalDefault.
#[global] Instance eq_dec : EqDecision t.
Proof. solve_decision. Defined.
Definition fmt (self : t) : string :=
  match self with
  | NoShow => "no_show"
  | Withdrawal => "withdrawal"
  | Disqualification => "disqualification"
  | TechnicalDefault => "technical_default"
  end.
Definition from_str (s : string) : result t string :=
  match_lowercase "forfeit type"
    [("no_show", NoShow);
     ("withdrawal", Withdrawal);
     ("disqualification", Disqualification);
     ("technical_default", TechnicalDefault)] s.
#[global] Instance wire : WireEnum t :=
  {| wire_variants := [NoShow; Withdrawal; Disqualification; TechnicalDefault]; wire_fmt := fmt; wire_from_str := from_str |}.
#[global] Instance wire_laws : WireLaws t.
Proof. solve_wire_laws. Qed.
Definition eliminates_from_tournament (self : t) : bool :=
  match self with Withdrawal | Disqualification => true | _ => false end.
End ForfeitType.


Module ClaimStatus.
Inductive t :=
| Pending
| Confirmed
| Disputed
| Superseded
| Cancelled.
#[global] Instance eq_dec : EqDecision t.
Proof. solve_decision. Defined.
Definition default : t := Pending.
Definition fmt (self : t) : string :=
  match self with
  | Pending => "pending"
  | Confirmed => "confirmed"
  | Disputed => "disputed"
  | Superseded => "superseded"
  | Cancelled => "cancelled"
  end.
Definition from_str (s : string) : result t string :=
  match_lowercase "claim status"
    [("pending", Pending);
     ("confirmed", Confirmed);
     ("disputed", Disputed);
     ("superseded", Superseded);
     ("cancelled", Cancelled)] s.
#[global] Instance wire : WireEnum t :=
  {| wire_variants := [Pending; Confirmed; Disputed; Superseded; Cancelled]; wire_fmt := fmt; wire_from_str := from_str |}.
#[global] Instance wire_laws : WireLaws t.
Proof. solve_wire_laws. Qed.
Definition can_transition_to (self target : t) : bool :=
  match self, target with
  | Pending, (Confirmed | Disputed | Superseded | Cancelled) => true
  | _, _ => false
  end.
End ClaimStatus.


Module VetoStatus.
Inductive t :=
| Pending
| CoinFlip
| InProgress
| Completed
| Cancelled.
#[global] Instance eq_dec : EqDecision t.
Proof. solve_decision. Defined.
Definition default : t := Pending.
Definition fmt (self : t) : string :=
  match self with
  | Pending => "pending"
  | CoinFlip => "coin_flip"
  | InProgress => "in_progress"
  | Completed => "completed"
  | Cancelled => "cancelled"
  end.
Definition from_str (s : string) : result t string :=
  match_lowercase "veto status"
    [("pending", Pending);
     ("coin_flip", CoinFlip);
     ("in_progress", InProgress);
     ("completed", Completed);
     ("cancelled", Cancelled)] s.
#[global] Instance wire : WireEnum t :=
  {| wire_variants := [Pending; CoinFlip; InProgress; Completed; Cancelled]; wire_fmt := fmt; wire_from_str := from_str |}.
#[global] Instance wire_laws : WireLaws t.
Proof. solve_wire_laws. Qed.
Definition can_start (self : t) : bool :=
  match self with Pending => true | _ => false end.
Definition can_act (self : t) : bool :=
  match self with InProgress => true | _ => false end.
Definition can_coin_flip (self : t) : bool :=
  match self with CoinFlip => true | _ => false end.
End VetoStatus.


Module SagaStatus.
Inductive t :=
| Pending
| Running
| Paused
| Completed
| Failed
| Compensating
| Compensated.
#[global] Instance eq_dec : EqDecision t.
Proof. solve_decision. Defined.
Definition default : t := Pending.
Definition fmt (self : t) : string :=
  match self with
  | Pending => "pending"
  | Running => "running"
  | Paused => "paused"
  | Completed => "completed"
  | Failed => "failed"
  | Compensating => "compensating"
  | Compensated => "compensated"
  end.
Definition from_str (s : string) : result t string :=
  match_lowercase "saga status"
    [("pending", Pending);
     ("running", Running);
     ("paused", Paused);
     ("completed", Completed);
     ("failed", Failed);
     ("compensating", Compensating);
     ("compensated", Compensated)] s.
#[global] Instance wire : WireEnum t :=
  {| wire_variants := [Pending; Running; Paused; Completed; Failed; Compensating; Compensated]; wire_fmt := fmt; wire_from_str := from_str |}.
#[global] Instance wire_laws : WireLaws t.
Proof. solve_wire_laws. Qed.
End SagaStatus.

Module StepStatus.
Inductive t :=
| Pending
| Running
| Completed
| Failed
| Skipped
| Compensated.
#[global] Instance eq_dec : EqDecision t.
Proof. solve_decision. Defined.
Definition default : t := Pending.
Definition fmt (self : t) : string :=
  match self with
  | Pending => "pending"
  | Running => "running"
  | Completed => "completed"
  | Failed => "failed"
  | Skipped => "skipped"
  | Compensated => "compensated"
  end.
Definition from_str (s : string) : result t string :=
  match_lowercase "step status"
    [("pending", Pending);
     ("running", Running);
     ("completed", Completed);
     ("failed", Failed);
     ("skipped", Skipped);
     ("compensated", Compensated)] s.
#[global] Instance wire : WireEnum t :=
  {| wire_variants := [Pending; Running; Completed; Failed; Skipped; Compensated]; wire_fmt := fmt; wire_from_str := from_str |}.
#[global] Instance wire_laws : WireLaws t.
Proof. solve_wire_laws. Qed.
End StepStatus.

