(* ===== verification/FormatPlan.v ===== *)
(** [MatchFormatPlan] of crates/portal-core/src/types/tournament.rs: per-round
    match formats and their parsing from a stage's [format_settings] JSON.
    JSON values are those of serde_json, a third-party crate: the class
    [JsonValue] names the accessors the code calls, [JsonLaws] their documented
    behaviour on the values the code builds. *)
From stdpp Require Import base list strings gmap.
From S2P Require Import Prelude Wire TournamentTypes.

(** ** serde_json values, as an interface *)

Class JsonValue (V : Type) := {
  json_null : V → bool;                            (** [Value::is_null] *)
  json_str : V → option string;                    (** [Value::as_str] *)
  json_u64 : V → option Z;                         (** [Value::as_u64] *)
  json_object : V → option (list (string * V));    (** [Value::as_object], in iteration order *)
  json_of_string : string → V;                     (** [Value::String] *)
  json_of_object : list (string * V) → V;          (** [Value::Object] of distinct keys *)
}.

Class JsonLaws (V : Type) `{JsonValue V} := {
  json_str_of_string : ∀ s, json_str (json_of_string s) = Some s;
  json_null_of_string : ∀ s, json_null (json_of_string s) = false;
  json_object_of_object : ∀ kvs, NoDup kvs.*1 → ∃ kvs',
    kvs ≡ₚ kvs' ∧ json_object (json_of_object kvs) = Some kvs';
}.

(** [Map::get]. *)
Definition obj_get {V} (obj : list (string * V)) (key : string) : option V :=
  snd ∘ snd <$> list_find (λ kv, kv.1 = key) obj.

Lemma obj_get_cons {V} (obj : list (string * V)) k v key :
  obj_get ((k, v) :: obj) key = if decide (k = key) then Some v else obj_get obj key.
Proof.
  unfold obj_get. simpl. case_decide; simpl; [done|].
  by destruct (list_find _ obj) as [[? []]|].
Qed.

Lemma obj_get_Some {V} (obj : list (string * V)) key v :
  NoDup obj.*1 → obj_get obj key = Some v ↔ (key, v) ∈ obj.
Proof.
  induction obj as [|[k w] obj IH]; csimpl.
  { intros _. unfold obj_get. simpl. set_solver. }
  intros [Hk Hnd]%NoDup_cons. rewrite obj_get_cons, elem_of_cons. case_decide as Hkk.
  - subst k. split; [naive_solver|]. intros [[=]|Hin]; [by subst|].
    destruct Hk. apply list_elem_of_fmap. by exists (key, v).
  - rewrite IH by done. naive_solver.
Qed.

(** Lookup does not depend on the iteration order of the map. *)
Lemma obj_get_perm {V} (o1 o2 : list (string * V)) key :
  NoDup o1.*1 → o1 ≡ₚ o2 → obj_get o1 key = obj_get o2 key.
Proof.
  intros Hnd Hp. assert (NoDup o2.*1) as Hnd2 by by rewrite <- Hp.
  destruct (obj_get o2 key) as [v|] eqn:H2.
  - apply obj_get_Some; [done|]. rewrite Hp. by apply obj_get_Some.
  - destruct (obj_get o1 key) as [v|] eqn:H1; [|done].
    apply obj_get_Some in H1; [|done]. rewrite Hp in H1.
    apply obj_get_Some in H1; [|done]. congruence.
Qed.

(** ** The plan *)

Record MatchFormatPlan := {
  plan_default : MatchFormat.t;
  round_formats : gmap Z MatchFormat.t;
  final_format : option MatchFormat.t;
  grand_final_format : option MatchFormat.t;
}.

Definition uniform (default : MatchFormat.t) : MatchFormatPlan :=
  {| plan_default := default; round_formats := ∅;
     final_format := None; grand_final_format := None |}.

Definition is_uniform (self : MatchFormatPlan) : bool :=
  bool_decide (round_formats self = ∅)
  && bool_decide (final_format self = None)
  && bool_decide (grand_final_format self = None).

Definition format_for (self : MatchFormatPlan) (round total_rounds : Z) : MatchFormat.t :=
  match
    (if bool_decide (total_rounds > 0 ∧ round = total_rounds)%Z then final_format self else None)
  with
  | Some f => f
  | None => default (plan_default self) (round_formats self !! round)
  end.

Definition grand_final (self : MatchFormatPlan) : MatchFormat.t :=
  default (plan_default self)
    (match grand_final_format self with Some f => Some f | None => final_format self end).

Section from_settings.
Context `{JsonValue V}.

(** One entry of [round_formats]. *)
Definition add_round_format (plan : MatchFormatPlan) (kv : string * V)
  : result MatchFormatPlan string :=
let '(key, value) := kv in
let? round := ok_or (parse_i32 key)
                ("round_formats key is not a round number: " +:+ key) in
guard? negb (bool_decide (round < 1)%Z)
  else "round_formats round must be >= 1, got " +:+ pretty round in
let? str := ok_or (json_str value) ("round_formats[" +:+ key +:+ "] must be a string") in
let? format := result_map_err (λ e, "round_formats[" +:+ key +:+ "]: " +:+ e)
                 (MatchFormat.from_str str) in
Ok {| plan_default := plan_default plan;
      round_formats := <[round := format]> (round_formats plan);
      final_format := final_format plan;
      grand_final_format := grand_final_format plan |}.

(** The body of the loop over [final_format] and [grand_final_format]; the
  result is the new content of the slot ([None]: left as it is). *)
Definition read_format_slot (obj : list (string * V)) (key : string)
  : result (option MatchFormat.t) string :=
match obj_get obj key with
| None => Ok None
| Some value =>
    if json_null value then Ok None else
    let? str := ok_or (json_str value) (key +:+ " must be a string") in
    let? format := result_map_err (λ e, key +:+ ": " +:+ e) (MatchFormat.from_str str) in
    Ok (Some format)
end.

Definition from_settings (default : MatchFormat.t) (settings : option V)
  : result MatchFormatPlan string :=
let plan := uniform default in
match settings ≫= json_object with
| None => Ok plan
| Some obj =>
    let? plan :=
      match obj_get obj "round_formats" with
      | None => Ok plan
      | Some rounds =>
          let? rounds := ok_or (json_object rounds) "round_formats must be an object" in
          try_fold add_round_format plan rounds
      end in
    let? ff := read_format_slot obj "final_format" in
    let? gf := read_format_slot obj "grand_final_format" in
    Ok {| plan_default := plan_default plan;
          round_formats := round_formats plan;
          final_format := ff; grand_final_format := gf |}
end.

End from_settings.

(** ** Properties *)

Lemma format_for_uniform f r n : format_for (uniform f) r n = f.
Proof. unfold format_for. simpl. by case_bool_decide; rewrite lookup_empty. Qed.

Lemma format_for_no_final plan r :
  format_for plan r 0 = default (plan_default plan) (round_formats plan !! r).
Proof. unfold format_for. rewrite bool_decide_false by lia. done. Qed.

Lemma is_uniform_format_for plan r n :
  is_uniform plan = true → format_for plan r n = plan_default plan.
Proof.
  unfold is_uniform. intros [[Hr Hf]%andb_true_iff Hg]%andb_true_iff.
  apply bool_decide_eq_true in Hr, Hf, Hg. unfold format_for. rewrite Hf, Hr, lookup_empty.
  by case_bool_decide.
Qed.

Section from_settings_facts.
Context `{JsonValue V}.

(** Every round a parsed plan overrides is a positive [i32]. *)
Definition rounds_positive (plan : MatchFormatPlan) : Prop :=
  map_Forall (λ r _, 1 ≤ r)%Z (round_formats plan).

Lemma add_round_format_positive plan kv plan' :
  rounds_positive plan → add_round_format plan kv = Ok plan' → rounds_positive plan'.
Proof.
  destruct kv as [key value]. unfold add_round_format, rounds_positive. intros Hp Hok.
  apply result_bind_ok in Hok as (round & _ & Hok).
  case_bool_decide as Hr; [done|]. simpl in Hok.
  apply result_bind_ok in Hok as (str & _ & Hok).
  apply result_bind_ok in Hok as (f & _ & [= <-]). simpl.
  apply map_Forall_insert_2; [lia|done].
Qed.

Lemma from_settings_default default settings plan :
  from_settings default settings = Ok plan → plan_default plan = default.
Proof.
  unfold from_settings. destruct (settings ≫= json_object) as [obj|]; [|by intros [= <-]].
  intros (p & Hp & Hok)%result_bind_ok.
  assert (plan_default p = default) as Hd.
  { destruct (obj_get obj "round_formats") as [rounds|]; [|by injection Hp as <-].
    apply result_bind_ok in Hp as (rs & _ & Hp).
    apply (try_fold_inv (λ p, plan_default p = default)) in Hp; [done| |done].
    intros p0 [k v] p1 _ Hd Hadd. unfold add_round_format in Hadd.
    apply result_bind_ok in Hadd as (? & _ & Hadd). case_bool_decide; [done|].
    apply result_bind_ok in Hadd as (? & _ & Hadd).
    by apply result_bind_ok in Hadd as (? & _ & [= <-]). }
  apply result_bind_ok in Hok as (ff & _ & Hok).
  by apply result_bind_ok in Hok as (gf & _ & [= <-]).
Qed.
End from_settings_facts.

(** A concrete value type, to instantiate the interface in the witnesses. *)
Module SampleJson.
Inductive t := Null | Bool (b : bool) | Str (s : string) | Num (z : Z) | Arr (vs : list t) | Obj (kvs : list (string * t)).

#[global] Instance json : JsonValue t := {|
  json_null v := match v with Null => true | _ => false end;
  json_str v := match v with Str s => Some s | _ => None end;
  json_u64 v := match v with Num z => if bool_decide (0 ≤ z < 2 ^ 64)%Z then Some z else None | _ => None end;
  json_object v := match v with Obj kvs => Some kvs | _ => None end;
  json_of_string := Str;
  json_of_object := Obj |}.

#[global] Instance laws : JsonLaws t.
Proof. split; [done|done|]. intros kvs _. by exists kvs. Qed.
End SampleJson.

(** What [from_settings] reads back of a slot it finds in the object. *)
Lemma read_format_slot_string `{JsonLaws V} (obj : list (string * V)) key f :
  obj_get obj key = Some (json_of_string (MatchFormat.fmt f)) →
  read_format_slot obj key = Ok (Some f).
Proof.
  intros Hget. unfold read_format_slot. rewrite Hget, json_null_of_string, json_str_of_string.
  cbn [ok_or result_bind]. by destruct f.
Qed.

Lemma read_format_slot_absent `{JsonValue V} (obj : list (string * V)) key :
  obj_get obj key = None → read_format_slot obj key = Ok None.
Proof. intros Hget. unfold read_format_slot. by rewrite Hget. Qed.

(** A plan read from a stage's settings keeps the given default, overrides
  only rounds numbered from 1 up, and decides the format of a match by the
  documented precedence: the final slot in the last round, then the round's own
  entry, then the default. *)
Theorem from_settings_plan `{JsonValue V} dflt (settings : option V) plan :
  from_settings dflt settings = Ok plan →
  plan_default plan = dflt ∧ rounds_positive plan ∧
  (∀ r n f, final_format plan = Some f → (0 < n)%Z → format_for plan n n = f ∧
     ((r ≠ n)%Z → format_for plan r n = default dflt (round_formats plan !! r))) ∧
  ∀ r n, final_format plan = None ∨ (n ≤ 0)%Z →
    format_for plan r n = default dflt (round_formats plan !! r).
Proof.
  intros Hok. pose proof (from_settings_default _ _ _ Hok) as Hd. split; [done|]. split.
  { revert Hok. unfold from_settings. destruct (settings ≫= json_object) as [obj|].
    2: { intros [= <-]. apply map_Forall_empty. }
    intros (p & Hp & Hok)%result_bind_ok.
    assert (rounds_positive p) as Hpos.
    { destruct (obj_get obj "round_formats") as [rounds|];
        [|injection Hp as <-; apply map_Forall_empty].
      apply result_bind_ok in Hp as (rs & _ & Hp).
      apply (try_fold_inv rounds_positive) in Hp; [done| |apply map_Forall_empty].
      intros p0 kv p1 _ Hp0 Hp1. by eapply add_round_format_positive. }
    apply result_bind_ok in Hok as (ff & _ & Hok).
    by apply result_bind_ok in Hok as (gf & _ & [= <-]). }
  rewrite <- Hd. split.
  - intros r n f Hf Hn. unfold format_for. split.
    + by rewrite bool_decide_true, Hf by lia.
    + intros Hr. by rewrite bool_decide_false by lia.
  - intros r n Hn. unfold format_for. case_bool_decide; [|done].
    destruct Hn as [->|?]; [done|lia].
Qed.

Example from_settings_plan_witness :
  ∃ plan, from_settings MatchFormat.Bo1
    (Some (SampleJson.Obj [("round_formats", SampleJson.Obj [("2", SampleJson.Str "bo3")]);
                           ("final_format", SampleJson.Str "bo5")])) = Ok plan ∧
    plan_default plan = MatchFormat.Bo1.
Proof.
  eexists. split; [vm_compute; reflexivity|].
  eapply (from_settings_plan MatchFormat.Bo1
    (Some (SampleJson.Obj [("round_formats", SampleJson.Obj [("2", SampleJson.Str "bo3")]);
                           ("final_format", SampleJson.Str "bo5")]))).
  vm_compute. reflexivity.
Defined.
