(* ===== verification/Entities.v ===== *)
(** Entities of crates/portal-domain/src/entities/tournament.rs and the
    creation data of crates/portal-domain/src/repositories/tournament.rs, field
    for field, with the predicates of [TournamentMatch] and
    [TournamentRegistration]. *)
From stdpp Require Import base list strings.
From S2P Require Import Prelude Wire TournamentTypes.

(** [ParticipantSlot] of the match repository. *)
Module ParticipantSlot.
Inductive t := One | Two.
#[global] Instance eq_dec : EqDecision t.
Proof. solve_decision. Defined.
End ParticipantSlot.

Module SeededParticipant.
Record t := mk {
  registration_id : TournamentRegistrationId;
  seed : Z;
  participant_name : string;
  participant_logo_url : option string;
}.
#[global] Instance eta_t : Eta t := λ r,
  mk (r.(registration_id)) (r.(seed)) (r.(participant_name)) (r.(participant_logo_url)).
#[global] Instance eq_dec : EqDecision t.
Proof. solve_decision. Defined.
End SeededParticipant.

Module CreateTournamentMatch.
Record t := mk {
  bracket_id : TournamentBracketId;
  stage_id : TournamentStageId;
  tournament_id : TournamentId;
  round : Z;
  match_number : Z;
  bracket_position : string;
  participant1_registration_id : option TournamentRegistrationId;
  participant2_registration_id : option TournamentRegistrationId;
  participant1_name : option string;
  participant1_logo_url : option string;
  participant1_seed : option Z;
  participant2_name : option string;
  participant2_logo_url : option string;
  participant2_seed : option Z;
  participant1_source : option MatchParticipantSource.t;
  participant2_source : option MatchParticipantSource.t;
  match_format : MatchFormat.t;
  maps_required : Z;
  winner_progresses_to : option TournamentMatchId;
  loser_progresses_to : option TournamentMatchId;
}.
#[global] Instance eta_t : Eta t := λ r,
  mk (r.(bracket_id)) (r.(stage_id)) (r.(tournament_id)) (r.(round)) (r.(match_number))
    (r.(bracket_position)) (r.(participant1_registration_id))
    (r.(participant2_registration_id)) (r.(participant1_name)) (r.(participant1_logo_url))
    (r.(participant1_seed)) (r.(participant2_name)) (r.(participant2_logo_url))
    (r.(participant2_seed)) (r.(participant1_source)) (r.(participant2_source))
    (r.(match_format)) (r.(maps_required)) (r.(winner_progresses_to))
    (r.(loser_progresses_to)).
End CreateTournamentMatch.

Module TournamentRegistration.
Record t := mk {
  id : TournamentRegistrationId;
  tournament_id : TournamentId;
  team_season_id : option LeagueTeamSeasonId;
  player_id : option PlayerId;
  adhoc_team_id : option Uuid;
  participant_name : string;
  participant_logo_url : option string;
  registered_by : UserId;
  registered_at : DateTime;
  checked_in : bool;
  checked_in_at : option DateTime;
  checked_in_by : option UserId;
  seed : option Z;
  seed_rating : option Z;
  status : TournamentRegistrationStatus.t;
  admin_notes : option string;
  created_at : DateTime;
  updated_at : DateTime;
  withdrawn_at : option DateTime;
}.
#[global] Instance eta_t : Eta t := λ r,
  mk (r.(id)) (r.(tournament_id)) (r.(team_season_id)) (r.(player_id)) (r.(adhoc_team_id))
    (r.(participant_name)) (r.(participant_logo_url)) (r.(registered_by))
    (r.(registered_at)) (r.(checked_in)) (r.(checked_in_at)) (r.(checked_in_by)) (r.(seed))
    (r.(seed_rating)) (r.(status)) (r.(admin_notes)) (r.(created_at)) (r.(updated_at))
    (r.(withdrawn_at)).
Definition is_pending (self : t) : bool :=
  match status self with TournamentRegistrationStatus.Pending => true | _ => false end.
Definition can_compete (self : t) : bool := TournamentRegistrationStatus.can_compete (status self).
Definition can_check_in (self : t) : bool := TournamentRegistrationStatus.can_check_in (status self).
Definition is_checked_in (self : t) : bool := checked_in self.
Definition is_terminal (self : t) : bool := TournamentRegistrationStatus.is_terminal (status self).
Definition can_withdraw (self : t) : bool := TournamentRegistrationStatus.can_withdraw (status self).
Definition is_team (self : t) : bool := bool_decide (is_Some (team_season_id self)).
Definition is_individual (self : t) : bool := bool_decide (is_Some (player_id self)).
End TournamentRegistration.

Module TournamentMatch.
Record t := mk {
  id : TournamentMatchId;
  bracket_id : TournamentBracketId;
  stage_id : TournamentStageId;
  tournament_id : TournamentId;
  round : Z;
  match_number : Z;
  bracket_position : string;
  participant1_registration_id : option TournamentRegistrationId;
  participant2_registration_id : option TournamentRegistrationId;
  participant1_name : option string;
  participant1_logo_url : option string;
  participant1_seed : option Z;
  participant2_name : option string;
  participant2_logo_url : option string;
  participant2_seed : option Z;
  participant1_source : option MatchParticipantSource.t;
  participant2_source : option MatchParticipantSource.t;
  match_format : MatchFormat.t;
  maps_required : Z;
  scheduled_at : option DateTime;
  schedule_deadline : option DateTime;
  started_at : option DateTime;
  completed_at : option DateTime;
  participant1_score : Z;
  participant2_score : Z;
  winner_registration_id : option TournamentRegistrationId;
  loser_registration_id : option TournamentRegistrationId;
  winner_progresses_to : option TournamentMatchId;
  loser_progresses_to : option TournamentMatchId;
  status : TournamentMatchStatus.t;
  disputed : bool;
  dispute_reason : option string;
  dispute_resolved_by : option UserId;
  dispute_resolution : option string;
  dispute_resolved_at : option DateTime;
  stream_url : option string;
  vod_url : option string;
  check_in_opens_at : option DateTime;
  check_in_deadline : option DateTime;
  participant1_checked_in_at : option DateTime;
  participant2_checked_in_at : option DateTime;
  participant1_checked_in_by : option UserId;
  participant2_checked_in_by : option UserId;
  veto_required : bool;
  check_in_required : bool;
  created_at : DateTime;
  updated_at : DateTime;
}.
#[global] Instance eta_t : Eta t := λ r,
  mk (r.(id)) (r.(bracket_id)) (r.(stage_id)) (r.(tournament_id)) (r.(round))
    (r.(match_number)) (r.(bracket_position)) (r.(participant1_registration_id))
    (r.(participant2_registration_id)) (r.(participant1_name)) (r.(participant1_logo_url))
    (r.(participant1_seed)) (r.(participant2_name)) (r.(participant2_logo_url))
    (r.(participant2_seed)) (r.(participant1_source)) (r.(participant2_source))
    (r.(match_format)) (r.(maps_required)) (r.(scheduled_at)) (r.(schedule_deadline))
    (r.(started_at)) (r.(completed_at)) (r.(participant1_score)) (r.(participant2_score))
    (r.(winner_registration_id)) (r.(loser_registration_id)) (r.(winner_progresses_to))
    (r.(loser_progresses_to)) (r.(status)) (r.(disputed)) (r.(dispute_reason))
    (r.(dispute_resolved_by)) (r.(dispute_resolution)) (r.(dispute_resolved_at))
    (r.(stream_url)) (r.(vod_url)) (r.(check_in_opens_at)) (r.(check_in_deadline))
    (r.(participant1_checked_in_at)) (r.(participant2_checked_in_at))
    (r.(participant1_checked_in_by)) (r.(participant2_checked_in_by)) (r.(veto_required))
    (r.(check_in_required)) (r.(created_at)) (r.(updated_at)).
#[local] Abbreviation some o := (bool_decide (is_Some o)).
Definition both_checked_in (self : t) : bool :=
  some (participant1_checked_in_at self) && some (participant2_checked_in_at self).
Definition is_pending (self : t) : bool :=
  match status self with TournamentMatchStatus.Pending => true | _ => false end.
Definition is_ready (self : t) : bool :=
  match status self with TournamentMatchStatus.Ready => true | _ => false end.
Definition can_start (self : t) : bool := TournamentMatchStatus.can_start (status self).
Definition is_in_progress (self : t) : bool :=
  match status self with TournamentMatchStatus.InProgress => true | _ => false end.
Definition is_complete (self : t) : bool :=
  match status self with TournamentMatchStatus.Completed => true | _ => false end.
Definition is_terminal (self : t) : bool := TournamentMatchStatus.is_terminal (status self).
Definition can_submit_result (self : t) : bool :=
  TournamentMatchStatus.can_submit_result (status self).
Definition has_both_participants (self : t) : bool :=
  some (participant1_registration_id self) && some (participant2_registration_id self).
Definition has_winner (self : t) : bool := some (winner_registration_id self).
Definition is_bye (self : t) : bool :=
  (some (participant1_registration_id self) && negb (some (participant2_registration_id self)))
  || (negb (some (participant1_registration_id self)) && some (participant2_registration_id self)).
Definition wins_required (self : t) : Z := MatchFormat.wins_required (match_format self).
Definition check_winner (self : t) : option TournamentRegistrationId :=
  let wins_needed := wins_required self in
  if bool_decide (wins_needed ≤ participant1_score self)%Z then participant1_registration_id self
  else if bool_decide (wins_needed ≤ participant2_score self)%Z then participant2_registration_id self
  else None.
End TournamentMatch.

