(* ===== verification/BracketModel.v ===== *)
(** Data shared by the bracket generators
    (crates/portal-domain/src/services/tournament/bracket_generator/mod.rs):
    the generated bracket, its assignments and byes, the seeding preparation,
    and the textual bracket positions. *)
From Stdlib Require Import Ascii.
From stdpp Require Import base list strings pretty.
From S2P Require Import Prelude Errors Wire TournamentTypes FormatPlan Entities.

Module InitialAssignment.
Record t := mk {
  bracket_position : string;
  participant : SeededParticipant.t;
  slot : Z;
}.
End InitialAssignment.

Module ByeInfo.
Record t := mk {
  participant : SeededParticipant.t;
  advances_to_position : string;
  slot : Z;
}.
End ByeInfo.

Module GeneratedBracket.
Record t := mk {
  total_rounds : Z;
  matches : list CreateTournamentMatch.t;
  initial_assignments : list InitialAssignment.t;
  byes : list ByeInfo.t;
}.
End GeneratedBracket.

(** [format!("{prefix}{round}M{m}")]. *)
Definition position (prefix : string) (round m : Z) : string :=
  prefix +:+ pretty round +:+ "M" +:+ pretty m.

(** The [CreateTournamentMatch] every generator pushes: no participants, no
    links, both sources and the format. *)
Definition new_match (tournament_id : TournamentId) (stage_id : TournamentStageId)
    (bracket_id : TournamentBracketId) (round match_number : Z) (bracket_position : string)
    (sources : option MatchParticipantSource.t * option MatchParticipantSource.t)
    (match_format : MatchFormat.t) : CreateTournamentMatch.t := {|
  CreateTournamentMatch.bracket_id := bracket_id;
  CreateTournamentMatch.stage_id := stage_id;
  CreateTournamentMatch.tournament_id := tournament_id;
  CreateTournamentMatch.round := round;
  CreateTournamentMatch.match_number := match_number;
  CreateTournamentMatch.bracket_position := bracket_position;
  CreateTournamentMatch.participant1_registration_id := None;
  CreateTournamentMatch.participant2_registration_id := None;
  CreateTournamentMatch.participant1_name := None;
  CreateTournamentMatch.participant1_logo_url := None;
  CreateTournamentMatch.participant1_seed := None;
  CreateTournamentMatch.participant2_name := None;
  CreateTournamentMatch.participant2_logo_url := None;
  CreateTournamentMatch.participant2_seed := None;
  CreateTournamentMatch.participant1_source := sources.1;
  CreateTournamentMatch.participant2_source := sources.2;
  CreateTournamentMatch.match_format := match_format;
  CreateTournamentMatch.maps_required := MatchFormat.game_count match_format;
  CreateTournamentMatch.winner_progresses_to := None;
  CreateTournamentMatch.loser_progresses_to := None;
|}.

(** ** [BracketGenerator::prepare_participants] *)

Definition seeded_of_registration (idx : nat) (reg : TournamentRegistration.t)
    : SeededParticipant.t := {|
  SeededParticipant.registration_id := TournamentRegistration.id reg;
  SeededParticipant.seed :=
    default (as_i32 (Z.of_nat idx + 1)) (TournamentRegistration.seed reg);
  SeededParticipant.participant_name := TournamentRegistration.participant_name reg;
  SeededParticipant.participant_logo_url := TournamentRegistration.participant_logo_url reg;
|}.

Definition seed_leb (p q : SeededParticipant.t) : bool :=
  bool_decide (SeededParticipant.seed p ≤ SeededParticipant.seed q)%Z.

(** [for (idx, p) in ps.iter_mut().enumerate() { p.seed = (idx + 1) as i32 }]. *)
Definition renumber_seeds (ps : list SeededParticipant.t) : list SeededParticipant.t :=
  imap (λ idx p, p <| SeededParticipant.seed := as_i32 (Z.of_nat idx + 1) |>) ps.

Definition prepare_participants (registrations : list TournamentRegistration.t)
    : list SeededParticipant.t :=
  renumber_seeds (stable_sort seed_leb (imap seeded_of_registration registrations)).

(** ** Positions *)

Lemma position_inj prefix r m r' m' :
  (0 ≤ r)%Z → (0 ≤ r')%Z →
  position prefix r m = position prefix r' m' → r = r' ∧ m = m'.
Proof.
  unfold position. intros Hr Hr' Heq%(inj _).
  change (pretty r +:+ String "M"%char (pretty m) = pretty r' +:+ String "M"%char (pretty m'))
    in Heq.
  assert (split_on "M"%char (pretty r +:+ String "M"%char (pretty m)) =
          split_on "M"%char (pretty r' +:+ String "M"%char (pretty m'))) as Hs by by rewrite Heq.
  rewrite !split_on_app in Hs by by apply digits_char_free, pretty_Z_digits.
  injection Hs as Hp _. apply (inj pretty) in Hp as ->. split; [done|].
  apply (inj _) in Heq. by injection Heq as ->%(inj pretty).
Qed.

Lemma imap_fst_renumber ps :
  SeededParticipant.registration_id <$> renumber_seeds ps =
  SeededParticipant.registration_id <$> ps.
Proof. unfold renumber_seeds. rewrite fmap_imap. apply imap_const. Qed.

Lemma renumber_seeds_seed ps i p :
  (Z.of_nat (length ps) ≤ i32_max)%Z →
  renumber_seeds ps !! i = Some p → SeededParticipant.seed p = (Z.of_nat i + 1)%Z.
Proof.
  unfold renumber_seeds. intros Hlen Hi. rewrite list_lookup_imap in Hi.
  destruct (ps !! i) as [q|] eqn:Hq; [|done]. injection Hi as <-. simpl.
  apply lookup_lt_Some in Hq. unfold i32_max in Hlen.
  apply as_i32_id. unfold in_i32, i32_min, i32_max. lia.
Qed.

Lemma seed_leb_total p q : seed_leb p q = true ∨ seed_leb q p = true.
Proof. unfold seed_leb. rewrite !bool_decide_eq_true. lia. Qed.
Lemma seed_leb_trans p q r : seed_leb p q = true → seed_leb q r = true → seed_leb p r = true.
Proof. unfold seed_leb. rewrite !bool_decide_eq_true. lia. Qed.

Lemma seed_leb_sorted l :
  StronglySorted (λ p q, seed_leb p q = true) l →
  StronglySorted (λ p q, SeededParticipant.seed p ≤ SeededParticipant.seed q)%Z l.
Proof.
  induction 1 as [|p l Hl IH Hp]; [constructor|]. constructor; [done|].
  eapply Forall_impl; [exact Hp|]. intros q. unfold seed_leb. by rewrite bool_decide_eq_true.
Qed.

(** ** What the preparation promises *)

(** [prepare_participants] keeps every registration, in the order of its
  seed (registration order where seeds are missing or equal), and renumbers the
  seeds consecutively from 1. *)
Theorem prepare_participants_spec (regs : list TournamentRegistration.t) :
  (Z.of_nat (length regs) ≤ i32_max)%Z →
  let seeded := imap seeded_of_registration regs in
  SeededParticipant.registration_id <$> prepare_participants regs ≡ₚ TournamentRegistration.id <$> regs ∧
  SeededParticipant.seed <$> prepare_participants regs = seqZ 1 (Z.of_nat (length regs)) ∧
  ∃ ranked, SeededParticipant.registration_id <$> prepare_participants regs =
      SeededParticipant.registration_id <$> ranked ∧ ranked ≡ₚ seeded ∧
    StronglySorted (λ p q, SeededParticipant.seed p ≤ SeededParticipant.seed q)%Z ranked ∧
    ∀ s, filter (λ p, SeededParticipant.seed p = s) ranked =
         filter (λ p, SeededParticipant.seed p = s) seeded.
Proof.
  intros Hlen seeded. unfold prepare_participants. fold seeded.
  rewrite imap_fst_renumber.
  assert (length (stable_sort seed_leb seeded) = length regs) as Hl
    by (rewrite stable_sort_length; apply length_imap).
  split; [|split].
  - rewrite stable_sort_perm. unfold seeded. rewrite fmap_imap. apply reflexive_eq, imap_const.
  - apply list_eq. intros i. rewrite list_lookup_fmap.
    destruct (renumber_seeds (stable_sort seed_leb seeded) !! i) as [p|] eqn:Hp.
    + pose proof (lookup_lt_Some _ _ _ Hp) as Hi. unfold renumber_seeds in Hi.
      rewrite length_imap, Hl in Hi. apply renumber_seeds_seed in Hp; [|by rewrite Hl].
      symmetry. simpl. apply lookup_seqZ. lia.
    + apply lookup_ge_None in Hp. unfold renumber_seeds in Hp. rewrite length_imap, Hl in Hp.
      symmetry. apply lookup_seqZ_ge. lia.
  - exists (stable_sort seed_leb seeded). split; [done|]. split; [apply stable_sort_perm|]. split.
    + apply seed_leb_sorted, (stable_sort_sorted _ seed_leb_total seed_leb_trans).
    + intros s. apply stable_sort_stable. intros p q Hp Hq. unfold seed_leb.
      rewrite bool_decide_eq_true. lia.
Qed.

Definition sample_registration (id : N) (seed : option Z) : TournamentRegistration.t :=
  TournamentRegistration.mk id 1%N None None None "Team" None 1%N 0%Z true None None seed None
    TournamentRegistrationStatus.Approved None 0%Z 0%Z None.

Example prepare_participants_spec_witness :
  SeededParticipant.seed <$>
    prepare_participants [sample_registration 7 (Some 9%Z); sample_registration 8 None] = [1; 2]%Z.
Proof.
  apply (prepare_participants_spec [sample_registration 7 (Some 9%Z); sample_registration 8 None]).
  vm_compute. discriminate.
Defined.
