(* ===== verification/Elimination.v ===== *)
(** Elimination brackets
    (crates/portal-domain/src/services/tournament/bracket_generator/
    {single_elimination,double_elimination}.rs): seeding order, match tree,
    first-round assignments and byes. The winners bracket of a double elimination
    is built by the same loops with another position prefix, so they are
    parameterised by it; then the losers bracket, the cross-bracket links and the
    grand final. *)
From Stdlib Require Import Ascii.
From stdpp Require Import base list strings pretty.
From S2P Require Import Prelude Errors Wire TournamentTypes FormatPlan Entities BracketModel.
#[local] Open Scope Z_scope.

(** ** Sizes and seeding *)

(** The [while power < n] loop; 64 doublings exceed every [usize]. *)
Fixpoint next_power_loop (fuel : nat) (n power : Z) : Z :=
  match fuel with
  | O => power
  | S fuel => if bool_decide (power < n) then next_power_loop fuel n (power * 2) else power
  end.

Definition next_power_of_two (n : Z) : Z :=
  if bool_decide (n ≤ 1) then 2 else next_power_loop 64 n 1.

(** Recursion on [num_matches / 2]; at most 64 levels for a [usize]. *)
Fixpoint standard_bracket_order_fuel (fuel : nat) (num_matches : Z) : list Z :=
  if bool_decide (num_matches = 1) then [0]
  else match fuel with
       | O => []
       | S fuel =>
           standard_bracket_order_fuel fuel (num_matches / 2)
           ≫= λ seed, [seed; (num_matches - 1 - seed)]
       end.

Definition standard_bracket_order (num_matches : Z) : list Z :=
  standard_bracket_order_fuel 64 num_matches.

Definition get_standard_seeding_pair (match_idx total_matches : Z) : outcome (Z * Z) :=
  let bracket_size := (total_matches * 2) in
  let order := standard_bracket_order total_matches in
  let? high_seed := index order match_idx in
  let low_seed := (bracket_size - 1 - high_seed) in
  Ok (high_seed, low_seed).

Definition generate_seeding_order (bracket_size : Z) : outcome (list Z) :=
  if bool_decide (bracket_size = 2) then Ok [0; 1]
  else
    let half := (bracket_size / 2) in
    try_fold
      (λ result i,
        let pos1 := (i * 2) in
        let pos2 := (i * 2 + 1) in
        let? (seed1, seed2) := get_standard_seeding_pair i half in
        let? result := set_index result pos1 seed1 in
        set_index result pos2 seed2)
      (replicate (Z.to_nat bracket_size) 0) (range 0 half).

(** ** Matches *)

Section elimination.
Context (prefix : string) (tournament_id : TournamentId) (stage_id : TournamentStageId)
  (bracket_id : TournamentBracketId).

(** Participant sources of match [match_idx] (0-based) of a round. *)
Definition elim_sources (seeding_order : list Z) (round match_idx : Z)
    : outcome (option MatchParticipantSource.t * option MatchParticipantSource.t) :=
  if bool_decide (round = 1) then
    let? seed_idx1 := index seeding_order (match_idx * 2) in
    let? seed_idx2 := index seeding_order (match_idx * 2 + 1) in
    Ok (Some (MatchParticipantSource.Seed (i32_add (as_i32 seed_idx1) 1)),
        Some (MatchParticipantSource.Seed (i32_add (as_i32 seed_idx2) 1)))
  else
    let prev_round := (round - 1) in
    let prev_match1 := (match_idx * 2 + 1) in
    let prev_match2 := (match_idx * 2 + 2) in
    Ok (Some (MatchParticipantSource.WinnerOf (position prefix prev_round prev_match1)),
        Some (MatchParticipantSource.WinnerOf (position prefix prev_round prev_match2))).

(** The nested loops over rounds and matches; [final_round] is the
    [total_rounds] argument of [format_for]. *)
Definition elim_matches (bracket_size total_rounds : Z) (seeding_order : list Z)
    (format_plan : MatchFormatPlan) (final_round : Z)
    : outcome (list CreateTournamentMatch.t * Z) :=
  try_fold
    (λ st round,
      let matches_in_round := (bracket_size / Z.shiftl 1 round) in
      let match_format := format_for format_plan round final_round in
      try_push_numbered
        (λ match_number match_idx,
          let bracket_position := position prefix round (match_idx + 1) in
          let? sources := elim_sources seeding_order round match_idx in
          Ok (new_match tournament_id stage_id bracket_id round match_number
                bracket_position sources match_format))
        st (range 0 matches_in_round))
    ([], 1) (range_incl 1 total_rounds).

(** What the first-round match [match_idx] contributes: two assignments, one
    bye, or nothing. *)
Definition first_round_entry (participants : list SeededParticipant.t) (match_idx : Z)
    (seed_idx1 seed_idx2 : Z) : list InitialAssignment.t * list ByeInfo.t :=
  let bracket_position := position prefix 1 (match_idx + 1) in
  let bye p := {|
    ByeInfo.participant := p;
    ByeInfo.advances_to_position := position prefix 2 (match_idx / 2 + 1);
    ByeInfo.slot := if bool_decide (match_idx `mod` 2 = 0) then 1 else 2 |} in
  match participants !! Z.to_nat seed_idx1, participants !! Z.to_nat seed_idx2 with
  | Some p1, Some p2 =>
      ([InitialAssignment.mk bracket_position p1 1; InitialAssignment.mk bracket_position p2 2], [])
  | Some p, None => ([], [bye p])
  | None, Some p => ([], [bye p])
  | None, None => ([], [])
  end.

Definition elim_assignments (participants : list SeededParticipant.t) (seeding_order : list Z)
    : outcome (list InitialAssignment.t * list ByeInfo.t) :=
  try_fold
    (λ '(initial_assignments, byes) '(match_idx, seeding_pair),
      let? seed_idx1 := index seeding_pair 0 in
      let? seed_idx2 := index seeding_pair 1 in
      let entry := first_round_entry participants match_idx seed_idx1 seed_idx2 in
      Ok (initial_assignments ++ entry.1, byes ++ entry.2))
    ([], []) (enumerate (chunks2 seeding_order)).
End elimination.

Definition single_elimination (tournament_id : TournamentId) (stage_id : TournamentStageId)
    (bracket_id : TournamentBracketId) (participants : list SeededParticipant.t)
    (format_plan : MatchFormatPlan) : outcome GeneratedBracket.t :=
  let participant_count := Z.of_nat (length participants) in
  if bool_decide (participant_count < 2) then throw DomainError.InsufficientParticipants
  else
    let bracket_size := next_power_of_two participant_count in
    (* [f64::log2] of a power of two is exact. *)
    let total_rounds := as_i32 (Z.log2 bracket_size) in
    let? seeding_order := generate_seeding_order bracket_size in
    let? (matches, _) := elim_matches "R" tournament_id stage_id bracket_id
                           bracket_size total_rounds seeding_order format_plan total_rounds in
    let? (initial_assignments, byes) := elim_assignments "R" participants seeding_order in
    Ok {| GeneratedBracket.total_rounds := total_rounds;
          GeneratedBracket.matches := matches;
          GeneratedBracket.initial_assignments := initial_assignments;
          GeneratedBracket.byes := byes |}.

Module CrossLinkType.
Inductive t := LoserDropsTo | WinnerAdvancesTo.
#[global] Instance eq_dec : EqDecision t.
Proof. solve_decision. Defined.
End CrossLinkType.

Module CrossBracketLink.
Record t := mk {
  source_bracket_position : string;
  target_bracket_position : string;
  link_type : CrossLinkType.t;
}.
End CrossBracketLink.

Module GeneratedDoubleElimination.
Record t := mk {
  winners_bracket : GeneratedBracket.t;
  losers_bracket : GeneratedBracket.t;
  grand_final : GeneratedBracket.t;
  cross_bracket_links : list CrossBracketLink.t;
}.
End GeneratedDoubleElimination.

(** ** The losers bracket *)

Definition lb_matches_in_round (lb_round wb_rounds : Z) : Z :=
  let bracket_size := Z.shiftl 1 wb_rounds in
  let wr1_matches := bracket_size / 2 in
  if bool_decide (lb_round = 1) then wr1_matches / 2
  else
    let pair_index := Z.quot (lb_round - 1) 2 in
    let base := wr1_matches / 2 in
    Z.shiftr base pair_index.

Definition lb_participant_sources (lb_round match_idx wb_rounds : Z)
    : option MatchParticipantSource.t * option MatchParticipantSource.t :=
  if bool_decide (lb_round = 1) then
    let wr1_matches := Z.shiftl 1 wb_rounds / 2 in
    let p1_wr1_idx := match_idx in
    let p2_wr1_idx := wr1_matches - 1 - match_idx in
    (Some (MatchParticipantSource.LoserOf (position "WR" 1 (p1_wr1_idx + 1))),
     Some (MatchParticipantSource.LoserOf (position "WR" 1 (p2_wr1_idx + 1))))
  else if bool_decide (Z.rem lb_round 2 = 0) then
    let prev_lb_round := lb_round - 1 in
    let wb_source_round := Z.quot lb_round 2 + 1 in
    let wb_matches_in_round := Z.shiftl 1 wb_rounds / Z.shiftl 1 wb_source_round in
    let wb_match_idx :=
      if bool_decide (wb_matches_in_round = lb_matches_in_round lb_round wb_rounds)
      then wb_matches_in_round - 1 - match_idx else match_idx in
    (Some (MatchParticipantSource.WinnerOf (position "LR" prev_lb_round (match_idx + 1))),
     Some (MatchParticipantSource.LoserOf (position "WR" wb_source_round (wb_match_idx + 1))))
  else
    let prev_lb_round := lb_round - 1 in
    let p1_match := match_idx * 2 + 1 in
    let p2_match := match_idx * 2 + 2 in
    (Some (MatchParticipantSource.WinnerOf (position "LR" prev_lb_round p1_match)),
     Some (MatchParticipantSource.WinnerOf (position "LR" prev_lb_round p2_match))).

(** (WR1 index, LR1 index, slot) of every first-round loser. *)
Definition cross_seed_wr1_to_lr1 (wr1_match_count lr1_match_count : Z) : list (Z * Z * Z) :=
  range 0 lr1_match_count ≫= λ lr1_idx,
    let wr1_top := lr1_idx in
    let wr1_bottom := wr1_match_count - 1 - lr1_idx in
    [(wr1_top, lr1_idx, 1); (wr1_bottom, lr1_idx, 2)].

Section double_elimination.
Context (tournament_id : TournamentId) (stage_id : TournamentStageId)
  (wb_bracket_id lb_bracket_id gf_bracket_id : TournamentBracketId).

Definition lb_matches (wb_rounds lb_rounds : Z) (format_plan : MatchFormatPlan)
    : list CreateTournamentMatch.t * Z :=
  fold_left
    (λ st lb_round,
      let matches_in_round := lb_matches_in_round lb_round wb_rounds in
      let match_format := format_for format_plan lb_round 0 in
      push_numbered
        (λ lb_match_number match_idx,
          let bracket_position := position "LR" lb_round (match_idx + 1) in
          new_match tournament_id stage_id lb_bracket_id lb_round lb_match_number
            bracket_position (lb_participant_sources lb_round match_idx wb_rounds) match_format)
        st (range 0 matches_in_round))
    (range_incl 1 lb_rounds) ([], 1).

(** Losers of the first winners round, cross-seeded into LR1. *)
Definition wr1_links (bracket_size wb_rounds : Z) : list CrossBracketLink.t :=
  let wr1_match_count := bracket_size / 2 in
  let lr1_match_count := lb_matches_in_round 1 wb_rounds in
  (λ '(wr1_match_idx, lr1_match_idx, _),
    CrossBracketLink.mk (position "WR" 1 (wr1_match_idx + 1))
      (position "LR" 1 (lr1_match_idx + 1)) CrossLinkType.LoserDropsTo)
  <$> cross_seed_wr1_to_lr1 wr1_match_count lr1_match_count.

(** Losers of the later winners rounds, dropping into the even LB rounds. *)
Definition dropper_links (bracket_size wb_rounds : Z) : list CrossBracketLink.t :=
  range_incl 2 wb_rounds ≫= λ wb_round,
    let lb_dropper_round := 2 * (wb_round - 1) in
    let wb_matches_in_round := bracket_size / Z.shiftl 1 wb_round in
    let lb_matches_in_dropper := lb_matches_in_round lb_dropper_round wb_rounds in
    (λ match_idx,
      let lb_match_idx :=
        if bool_decide (lb_matches_in_dropper = wb_matches_in_round)
        then wb_matches_in_round - 1 - match_idx else match_idx in
      CrossBracketLink.mk (position "WR" wb_round (match_idx + 1))
        (position "LR" lb_dropper_round (lb_match_idx + 1)) CrossLinkType.LoserDropsTo)
    <$> range 0 wb_matches_in_round.

Definition gf_match (wb_rounds lb_rounds : Z) (format_plan : MatchFormatPlan)
    : CreateTournamentMatch.t :=
  let gf_format := FormatPlan.grand_final format_plan in
  new_match tournament_id stage_id gf_bracket_id 1 1 "GFM1"
    (Some (MatchParticipantSource.WinnerOf (position "WR" wb_rounds 1)),
     Some (MatchParticipantSource.WinnerOf (position "LR" lb_rounds 1)))
    gf_format.

Definition grand_final_links (wb_rounds lb_rounds : Z) : list CrossBracketLink.t :=
  [CrossBracketLink.mk (position "WR" wb_rounds 1) "GFM1" CrossLinkType.WinnerAdvancesTo;
   CrossBracketLink.mk (position "LR" lb_rounds 1) "GFM1" CrossLinkType.WinnerAdvancesTo].

Definition double_elimination (participants : list SeededParticipant.t)
    (format_plan : MatchFormatPlan) : outcome GeneratedDoubleElimination.t :=
  let participant_count := Z.of_nat (length participants) in
  if bool_decide (participant_count < 2) then throw DomainError.InsufficientParticipants
  else
    let bracket_size := next_power_of_two participant_count in
    let wb_rounds := as_i32 (Z.log2 bracket_size) in
    let? seeding_order := generate_seeding_order bracket_size in
    (* [total_rounds] 0: no final override inside the winners bracket. *)
    let? (wb_matches, _) := elim_matches "WR" tournament_id stage_id wb_bracket_id
                              bracket_size wb_rounds seeding_order format_plan 0 in
    let? (initial_assignments, byes) := elim_assignments "WR" participants seeding_order in
    let lb_rounds := i32_mul 2 (i32_sub wb_rounds 1) in
    let lb_matches := (lb_matches wb_rounds lb_rounds format_plan).1 in
    let cross_bracket_links :=
      wr1_links bracket_size wb_rounds ++ dropper_links bracket_size wb_rounds
      ++ grand_final_links wb_rounds lb_rounds in
    Ok {| GeneratedDoubleElimination.winners_bracket := {|
            GeneratedBracket.total_rounds := wb_rounds;
            GeneratedBracket.matches := wb_matches;
            GeneratedBracket.initial_assignments := initial_assignments;
            GeneratedBracket.byes := byes |};
          GeneratedDoubleElimination.losers_bracket := {|
            GeneratedBracket.total_rounds := lb_rounds;
            GeneratedBracket.matches := lb_matches;
            GeneratedBracket.initial_assignments := [];
            GeneratedBracket.byes := [] |};
          GeneratedDoubleElimination.grand_final := {|
            GeneratedBracket.total_rounds := 1;
            GeneratedBracket.matches := [gf_match wb_rounds lb_rounds format_plan];
            GeneratedBracket.initial_assignments := [];
            GeneratedBracket.byes := [] |};
          GeneratedDoubleElimination.cross_bracket_links := cross_bracket_links |}.
End double_elimination.
