(* ===== verification/EliminationFacts.v ===== *)
(** Facts about seeding and elimination: the code's order is the recursive one, a
    permutation of the seeds, pairing mirrored seeds, and self-similar from round
    to round; the closed form of the loops single elimination and the winners
    bracket share, and the shape of the tree. *)
From stdpp Require Import base list strings pretty.
From S2P Require Import Prelude Errors Wire TournamentTypes FormatPlan Entities BracketModel.
From S2P Require Import Elimination.
#[local] Open Scope Z_scope.

(** The reference order of [2^k] seeds. *)
Fixpoint seeding (k : nat) : list Z :=
  match k with
  | O => [0]
  | S k' => seeding k' ≫= λ s, [s; 2 ^ Z.of_nat k - 1 - s]
  end.

Lemma pow2_S k : 2 ^ Z.of_nat (S k) = 2 * 2 ^ Z.of_nat k.
Proof. rewrite Nat2Z.inj_succ, Z.pow_succ_r; lia. Qed.
Lemma pow2_pos k : 1 ≤ 2 ^ Z.of_nat k.
Proof. pose proof (Z.pow_pos_nonneg 2 (Z.of_nat k)). lia. Qed.

Lemma standard_bracket_order_fuel_seeding fuel k :
  (k ≤ fuel)%nat → standard_bracket_order_fuel fuel (2 ^ Z.of_nat k) = seeding k.
Proof.
  revert fuel. induction k as [|k IH]; intros fuel Hk; [by destruct fuel|].
  destruct fuel as [|fuel]; [lia|]. cbn [standard_bracket_order_fuel].
  pose proof (pow2_pos k). rewrite bool_decide_false by (rewrite pow2_S; lia).
  assert (2 ^ Z.of_nat (S k) / 2 = 2 ^ Z.of_nat k) as ->.
  { rewrite pow2_S, Z.mul_comm. by apply Z.div_mul. }
  by rewrite IH by lia.
Qed.

Lemma standard_bracket_order_seeding k :
  (k ≤ 64)%nat → standard_bracket_order (2 ^ Z.of_nat k) = seeding k.
Proof. apply standard_bracket_order_fuel_seeding. Qed.

Lemma seeding_length k : Z.of_nat (length (seeding k)) = 2 ^ Z.of_nat k.
Proof.
  induction k as [|k IH]; [done|]. cbn [seeding]. rewrite bind_pair_length, pow2_S. lia.
Qed.

Lemma mirror_perm m :
  0 ≤ m → (λ s, 2 * m - 1 - s) <$> seqZ 0 m ≡ₚ seqZ m m.
Proof.
  intros Hm. apply NoDup_Permutation.
  - apply NoDup_fmap_2; [intros x y; lia|apply NoDup_seqZ].
  - apply NoDup_seqZ.
  - intros x. rewrite list_elem_of_fmap, elem_of_seqZ. split.
    + intros (y & -> & Hy). rewrite elem_of_seqZ in Hy. lia.
    + intros Hx. exists (2 * m - 1 - x). rewrite elem_of_seqZ. lia.
Qed.

Lemma seeding_perm k : seeding k ≡ₚ seqZ 0 (2 ^ Z.of_nat k).
Proof.
  induction k as [|k IH]; [done|]. cbn [seeding].
  rewrite (bind_pair_perm (λ s, s)), list_fmap_id, IH, pow2_S. pose proof (pow2_pos k).
  rewrite mirror_perm by lia. replace (2 * 2 ^ Z.of_nat k) with (2 ^ Z.of_nat k + 2 ^ Z.of_nat k) by lia.
  by rewrite seqZ_app, Z.add_0_l by lia.
Qed.

Lemma elem_of_seeding k s : s ∈ seeding k ↔ 0 ≤ s < 2 ^ Z.of_nat k.
Proof. rewrite seeding_perm, elem_of_seqZ. lia. Qed.

Lemma seeding_NoDup k : NoDup (seeding k).
Proof. rewrite seeding_perm. apply NoDup_seqZ. Qed.

(** [next_power_of_two] is the least power of two not below [n]. *)
Lemma next_power_loop_spec fuel j n :
  2 ^ Z.of_nat j < 2 * n → n ≤ 2 ^ Z.of_nat (j + fuel) →
  ∃ k, next_power_loop fuel n (2 ^ Z.of_nat j) = 2 ^ Z.of_nat k
       ∧ (j ≤ k ≤ j + fuel)%nat ∧ n ≤ 2 ^ Z.of_nat k < 2 * n.
Proof.
  revert j. induction fuel as [|fuel IH]; intros j Hlt Hle; simpl.
  { exists j. replace (j + 0)%nat with j in Hle by lia. repeat split; lia. }
  case_bool_decide as Hc; [|exists j; repeat split; lia].
  replace (2 ^ Z.of_nat j * 2) with (2 ^ Z.of_nat (S j)) by (rewrite pow2_S; lia).
  destruct (IH (S j)) as (k & -> & Hk & Hn).
  - rewrite pow2_S. lia.
  - by replace (S j + fuel)%nat with (j + S fuel)%nat by lia.
  - exists k. repeat split; lia.
Qed.

Lemma next_power_of_two_spec n :
  2 ≤ n ≤ 2 ^ 63 →
  ∃ k, (k ≤ 62)%nat ∧ next_power_of_two n = 2 ^ Z.of_nat (S k)
       ∧ 2 ^ Z.of_nat k < n ≤ 2 ^ Z.of_nat (S k).
Proof.
  intros Hn. unfold next_power_of_two. rewrite bool_decide_false by lia.
  destruct (next_power_loop_spec 64 0 n) as (k & Hk & Hjk & Hb); [simpl; lia|simpl; lia|].
  change (2 ^ Z.of_nat 0) with 1 in Hk.
  destruct k as [|k]; [simpl in Hb; lia|]. exists k.
  assert (k ≤ 62)%nat.
  { destruct (decide (k ≤ 62)%nat); [done|].
    assert (2 ^ 64 ≤ 2 ^ Z.of_nat (S k)) by (apply Z.pow_le_mono_r; lia). lia. }
  rewrite pow2_S in *. repeat split; [done|done|lia|lia].
Qed.

(** The code's seeding order is the recursive one; in particular no index of
    its loops is out of range. *)
Lemma get_standard_seeding_pair_ok k i s :
  (k ≤ 63)%nat → seeding k !! i = Some s →
  get_standard_seeding_pair (Z.of_nat i) (2 ^ Z.of_nat k) =
  Ok (s, 2 ^ Z.of_nat (S k) - 1 - s).
Proof.
  intros Hk Hi. unfold get_standard_seeding_pair.
  rewrite standard_bracket_order_seeding by lia.
  rewrite (index_ok _ _ s) by (rewrite ?Nat2Z.id; done || lia). simpl.
  rewrite pow2_S. by rewrite Z.mul_comm.
Qed.

Lemma seqZ_of_seq (n : nat) : seqZ 0 (Z.of_nat n) = Z.of_nat <$> seq 0 n.
Proof.
  induction n as [|n IH]; [done|]. rewrite Nat2Z.inj_succ, <- Z.add_1_r, seqZ_app by lia.
  by rewrite IH, seq_S, fmap_app.
Qed.

Lemma bind_seq_lookup {A B} (l : list A) (d : A) (h : A → list B) :
  seq 0 (length l) ≫= (λ i, h (default d (l !! i))) = l ≫= h.
Proof.
  induction l as [|x l IH] using rev_ind; [done|].
  rewrite length_app, Nat.add_1_r, seq_S, !bind_app. f_equal.
  - rewrite <- IH.
    assert (∀ l' : list nat, (∀ i, i ∈ l' → (i < length l)%nat) →
      l' ≫= (λ i, h (default d ((l ++ [x]) !! i))) = l' ≫= (λ i, h (default d (l !! i)))) as Hx.
    { intros l'. induction l' as [|i l' IH']; intros Hl; [done|]. csimpl.
      rewrite lookup_app_l by (apply Hl; set_solver). f_equal. apply IH'. set_solver. }
    apply Hx. intros i Hi%elem_of_seq. lia.
  - csimpl. rewrite lookup_app_r by lia. by rewrite Nat.sub_diag.
Qed.

Lemma try_fold_fmap {A B S E} (h : A → B) (f : S → B → result S E) s l :
  try_fold f s (h <$> l) = try_fold (λ s x, f s (h x)) s l.
Proof. revert s. induction l as [|x l IH]; intros s; [done|]. csimpl. destruct (f s (h x)); simpl; auto. Qed.

Lemma generate_seeding_order_ok k :
  (k ≤ 62)%nat → generate_seeding_order (2 ^ Z.of_nat (S k)) = Ok (seeding (S k)).
Proof.
  intros Hk. unfold generate_seeding_order. case_bool_decide as H2.
  { destruct k as [|k]; [done|]. pose proof (pow2_pos k). rewrite !pow2_S in H2. lia. }
  assert (2 ^ Z.of_nat (S k) / 2 = 2 ^ Z.of_nat k) as ->.
  { rewrite pow2_S, Z.mul_comm. by apply Z.div_mul. }
  pose proof (seeding_length k) as Hlen. unfold range. rewrite Z.sub_0_r, <- Hlen, seqZ_of_seq.
  rewrite try_fold_fmap.
  set (m := length (seeding k)) in *.
  set (f := λ i : nat, default 0 (seeding k !! i)).
  set (g := λ i : nat, 2 ^ Z.of_nat (S k) - 1 - f i).
  rewrite (try_fold_ok_inv (λ l, length l = (2 * m)%nat) _
             (λ res i, <[(2 * i + 1)%nat := g i]> (<[(2 * i)%nat := f i]> res))).
  - f_equal. replace (Z.to_nat (2 ^ Z.of_nat (S k))) with (2 * m + 0)%nat by (rewrite pow2_S; lia).
    rewrite fill_pairs, app_nil_r. cbn [seeding].
    apply (bind_seq_lookup (seeding k) 0 (λ s, [s; 2 ^ Z.of_nat (S k) - 1 - s])).
  - intros res i Hi Hres. apply elem_of_seq in Hi. split; [|by rewrite !length_insert].
    destruct (lookup_lt_is_Some_2 (seeding k) i) as [s Hs]; [lia|].
    rewrite Hlen, (get_standard_seeding_pair_ok _ _ s) by (done || lia). cbn [result_bind].
    unfold set_index. rewrite bool_decide_true by lia. cbn [result_bind].
    rewrite bool_decide_true by (rewrite length_insert; lia).
    unfold g, f. rewrite Hs. cbn [default]. do 3 f_equal; [lia|]. f_equal. lia.
  - rewrite length_replicate, pow2_S. lia.
Qed.

(** Round structure: if the better seed of every first-round pair advances,
    the second round is seeded exactly like a bracket of half the size. *)
Lemma seeding_favourites k :
  (λ pair, foldr Z.min (2 ^ Z.of_nat (S k)) pair) <$> chunks2 (seeding (S k)) = seeding k.
Proof.
  cbn [seeding]. rewrite (chunks2_pairs (λ s, s) (λ s, 2 ^ Z.of_nat (S k) - 1 - s)).
  rewrite <- list_fmap_compose. rewrite <- (list_fmap_id (seeding k)) at 2.
  apply list_fmap_ext. intros i s Hs. simpl.
  apply list_elem_of_lookup_2, elem_of_seeding in Hs. rewrite pow2_S. lia.
Qed.

(** ** The slots of a tree of [K] rounds: (round, 0-based index) *)
Definition elim_slots (K : nat) : list (Z * Z) :=
  seqZ 1 (Z.of_nat K) ≫= λ r, pair r <$> seqZ 0 (2 ^ (Z.of_nat K - r)).

Lemma elem_of_elim_slots K r i :
  (r, i) ∈ elim_slots K ↔ 1 ≤ r ≤ Z.of_nat K ∧ 0 ≤ i < 2 ^ (Z.of_nat K - r).
Proof.
  unfold elim_slots. rewrite list_elem_of_bind. split.
  - intros (r' & (j & [= -> ->] & Hj)%list_elem_of_fmap & Hr).
    rewrite elem_of_seqZ in *. lia.
  - intros [Hr Hi]. exists r. rewrite list_elem_of_fmap, elem_of_seqZ. split; [|lia].
    exists i. rewrite elem_of_seqZ. split; [done|lia].
Qed.

Lemma elim_slots_S K :
  elim_slots (S K) =
  (pair 1 <$> seqZ 0 (2 ^ Z.of_nat K)) ++ ((λ '(r, i), (r + 1, i)) <$> elim_slots K).
Proof.
  unfold elim_slots. rewrite seqZ_cons by lia. csimpl.
  replace (Z.of_nat (S K) - 1) with (Z.of_nat K) by lia. f_equal.
  replace (Z.pred (Z.of_nat (S K))) with (Z.of_nat K) by lia.
  change (Z.succ 1) with (1 + 1). rewrite <- (fmap_add_seqZ 1 1).
  induction (seqZ 1 (Z.of_nat K)) as [|r l IH]; [done|]. csimpl. rewrite fmap_app. f_equal; [|done].
  rewrite <- list_fmap_compose. replace (Z.of_nat (S K) - (1 + r)) with (Z.of_nat K - r) by lia.
  apply list_fmap_ext. intros ? j _. simpl. f_equal. lia.
Qed.

Lemma elim_slots_length K : Z.of_nat (length (elim_slots K)) = 2 ^ Z.of_nat K - 1.
Proof.
  induction K as [|K IH]; [done|]. rewrite elim_slots_S, length_app, !length_fmap, length_seqZ.
  pose proof (pow2_pos K). rewrite pow2_S. lia.
Qed.

Lemma elim_slots_NoDup K : NoDup (elim_slots K).
Proof.
  unfold elim_slots. apply NoDup_bind.
  - intros r1 r2 [r i] _ _ (j & [= -> ->] & _)%list_elem_of_fmap (j' & [= -> ->] & _)%list_elem_of_fmap.
    done.
  - intros r _. apply NoDup_fmap_2; [by intros ?? [=]|apply NoDup_seqZ].
  - apply NoDup_seqZ.
Qed.

(** Every slot but the final is one of the two feeders of a slot of the next
    round, in order. *)
Definition feeders (slot : Z * Z) : list (Z * Z) :=
  [(slot.1 - 1, 2 * slot.2); (slot.1 - 1, 2 * slot.2 + 1)].

Lemma seqZ_pairs n :
  0 ≤ n → seqZ 0 n ≫= (λ i, [2 * i; 2 * i + 1]) = seqZ 0 (2 * n).
Proof.
  intros Hn. rewrite <- (Z2Nat.id n) by done. generalize (Z.to_nat n). clear. intros n.
  induction n as [|n IH]; [done|]. rewrite Nat2Z.inj_succ, <- Z.add_1_r.
  rewrite seqZ_app, bind_app, IH by lia.
  replace (2 * (Z.of_nat n + 1)) with (2 * Z.of_nat n + 2) by lia.
  rewrite (seqZ_app 0 (2 * Z.of_nat n)) by lia. f_equal. rewrite Z.add_0_l. csimpl.
  by rewrite !seqZ_cons, seqZ_nil by lia.
Qed.

(** The slots below the final, and the feeders of the slots above round 1. *)
Definition elim_slots_below (K : nat) : list (Z * Z) :=
  seqZ 1 (Z.of_nat K) ≫= λ r, pair r <$> seqZ 0 (2 ^ (Z.of_nat (S K) - r)).

Lemma elim_slots_last K :
  elim_slots (S K) = elim_slots_below K ++ [(Z.of_nat (S K), 0)].
Proof.
  unfold elim_slots. rewrite Nat2Z.inj_succ at 1. rewrite <- Z.add_1_r, seqZ_app, bind_app by lia.
  f_equal. rewrite seqZ_cons, seqZ_nil by lia. csimpl.
  replace (Z.of_nat (S K) - (1 + Z.of_nat K)) with 0 by lia.
  change (2 ^ 0) with 1. rewrite seqZ_cons, seqZ_nil by lia. csimpl. do 2 f_equal. lia.
Qed.

Lemma elim_feeders K :
  ((λ '(r, i), (r + 1, i)) <$> elim_slots K) ≫= feeders = elim_slots_below K.
Proof.
  unfold elim_slots, elim_slots_below.
  assert (∀ r, r ∈ seqZ 1 (Z.of_nat K) → r ≤ Z.of_nat K) as Hr
    by (intros r; rewrite elem_of_seqZ; lia).
  revert Hr. induction (seqZ 1 (Z.of_nat K)) as [|r l IH]; intros Hr; [done|]. csimpl.
  rewrite fmap_app, bind_app, IH by (intros r' Hr'; apply Hr; apply elem_of_cons; by right).
  f_equal. specialize (Hr r (proj2 (elem_of_cons _ _ _) (or_introl eq_refl))).
  replace (Z.of_nat (S K) - r) with (Z.succ (Z.of_nat K - r)) by lia.
  rewrite Z.pow_succ_r by lia. rewrite <- seqZ_pairs by (apply Z.pow_nonneg; lia).
  generalize (seqZ 0 (2 ^ (Z.of_nat K - r))). clear.
  intros l. induction l as [|i l IH]; [done|]. csimpl. rewrite IH.
  by replace (r + 1 - 1) with r by lia.
Qed.

Lemma filter_elim_slots_below K :
  filter (λ slot, slot.1 < Z.of_nat (S K)) (elim_slots (S K)) = elim_slots_below K.
Proof.
  rewrite elim_slots_last, filter_app. rewrite (filter_cons_False _ (Z.of_nat (S K), 0)) by (simpl; lia).
  rewrite filter_nil, app_nil_r. 
  apply filter_all. intros [r i] Hin. unfold elim_slots_below in Hin.
  apply list_elem_of_bind in Hin as (r' & (j & [= -> ->] & _)%list_elem_of_fmap & Hr).
  rewrite elem_of_seqZ in Hr. simpl. lia.
Qed.

Section closed_form.
Context (prefix : string) (tid : TournamentId) (sid : TournamentStageId)
  (bid : TournamentBracketId).

(** The sources of a slot, given the seeding order. *)
Definition slot_sources (order : list Z) (slot : Z * Z)
    : option MatchParticipantSource.t * option MatchParticipantSource.t :=
  let '(r, i) := slot in
  if bool_decide (r = 1) then
    (Some (MatchParticipantSource.Seed (order !!! Z.to_nat (2 * i) + 1)),
     Some (MatchParticipantSource.Seed (order !!! Z.to_nat (2 * i + 1) + 1)))
  else
    (Some (MatchParticipantSource.WinnerOf (position prefix (r - 1) (2 * i + 1))),
     Some (MatchParticipantSource.WinnerOf (position prefix (r - 1) (2 * i + 2)))).

Definition slot_match (order : list Z) (plan : MatchFormatPlan) (final : Z)
    (n : Z) (slot : Z * Z) : CreateTournamentMatch.t :=
  new_match tid sid bid slot.1 n (position prefix slot.1 (slot.2 + 1))
    (slot_sources order slot) (format_for plan slot.1 final).

Lemma elim_sources_ok K order r i :
  (K ≤ 30)%nat → order ≡ₚ seqZ 0 (2 ^ Z.of_nat K) → (r, i) ∈ elim_slots K →
  elim_sources prefix order r i = Ok (slot_sources order (r, i)).
Proof.
  intros HK Ho [Hr Hi]%elem_of_elim_slots. unfold elim_sources, slot_sources.
  case_bool_decide as H1; [|by rewrite (Z.mul_comm i 2)]. subst r.
  assert (Z.of_nat (length order) = 2 ^ Z.of_nat K) as Hlen.
  { rewrite Ho, length_seqZ. pose proof (pow2_pos K). lia. }
  assert (2 ^ Z.of_nat K = 2 * 2 ^ (Z.of_nat K - 1)) as HK2.
  { rewrite <- Z.pow_succ_r by lia. f_equal. lia. }
  assert (2 ^ Z.of_nat K ≤ 2 ^ 30) by (apply Z.pow_le_mono_r; lia).
  assert (∀ j, 0 ≤ j < 2 ^ Z.of_nat K →
    index (E := DomainError.t) order j = Ok (order !!! Z.to_nat j)
    ∧ i32_add (as_i32 (order !!! Z.to_nat j)) 1 = order !!! Z.to_nat j + 1) as Hix.
  { intros j Hj. destruct (lookup_lt_is_Some_2 order (Z.to_nat j)) as [s Hs]; [lia|].
    rewrite (index_ok _ _ s), (list_lookup_total_correct _ _ _ Hs) by (done || lia).
    apply list_elem_of_lookup_2 in Hs. rewrite Ho, elem_of_seqZ in Hs. split; [done|].
    rewrite (as_i32_id s), i32_add_id; unfold in_i32, i32_min, i32_max; lia. }
  destruct (Hix (i * 2)) as [-> H1]; [lia|]. destruct (Hix (i * 2 + 1)) as [-> H2]; [lia|].
  cbn [result_bind]. rewrite H1, H2. by rewrite (Z.mul_comm i 2).
Qed.

Lemma elim_matches_ok K order plan final :
  (K ≤ 30)%nat → order ≡ₚ seqZ 0 (2 ^ Z.of_nat K) →
  elim_matches prefix tid sid bid (2 ^ Z.of_nat K) (Z.of_nat K) order plan final =
  Ok (imap (λ n slot, slot_match order plan final (Z.of_nat n + 1) slot) (elim_slots K),
      2 ^ Z.of_nat K).
Proof.
  intros HK Ho. unfold elim_matches, range_incl.
  replace (Z.of_nat K - 1 + 1) with (Z.of_nat K) by lia.
  rewrite (nested_push _ (λ r n i, slot_match order plan final n (r, i))
             (λ r, range 0 (2 ^ Z.of_nat K / Z.shiftl 1 r))).
  - assert (∀ r, r ∈ seqZ 1 (Z.of_nat K) →
      range 0 (2 ^ Z.of_nat K / Z.shiftl 1 r) = seqZ 0 (2 ^ (Z.of_nat K - r))) as Hr.
    { intros r Hr%elem_of_seqZ. unfold range. f_equal. rewrite Z.sub_0_r.
      rewrite Z.shiftl_mul_pow2, Z.mul_1_l, <- Z.pow_sub_r by lia. done. }
    assert ((seqZ 1 (Z.of_nat K) ≫= λ r, pair r <$> range 0 (2 ^ Z.of_nat K / Z.shiftl 1 r))
            = elim_slots K) as ->.
    { unfold elim_slots. revert Hr. induction (seqZ 1 (Z.of_nat K)) as [|r l IH]; [done|].
      intros Hr. csimpl. rewrite Hr, IH; [done| |].
      - intros r' Hr'. apply Hr, elem_of_cons. by right.
      - apply elem_of_cons. by left. }
    pose proof (elim_slots_length K) as Hlen.
    assert (2 ^ Z.of_nat K ≤ 2 ^ 30) by (apply Z.pow_le_mono_r; lia).
    rewrite push_numbered_imap by (rewrite ?Hlen; unfold in_i32, i32_min, i32_max; lia).
    f_equal. f_equal; [|lia]. simpl. apply imap_ext. intros n [r i] _. simpl. f_equal. lia.
  - intros r n i Hr%elem_of_seqZ Hi. unfold range in Hi. rewrite elem_of_seqZ in Hi.
    rewrite Z.shiftl_mul_pow2, Z.mul_1_l, <- Z.pow_sub_r in Hi by lia.
    rewrite (elim_sources_ok K) by (done || (apply elem_of_elim_slots; lia)). done.
Qed.
End closed_form.

(** ** First-round assignments and byes *)
Section assignments.
Context (prefix : string) (parts : list SeededParticipant.t) (k : nat).

(** The pairs of the first round: (match index, better seed). *)
Definition first_round : list (Z * Z) := enumerate (seeding k).

Definition entry (p : Z * Z) : list InitialAssignment.t * list ByeInfo.t :=
  first_round_entry prefix parts p.1 p.2 (2 ^ Z.of_nat (S k) - 1 - p.2).

Lemma elim_assignments_ok :
  elim_assignments prefix parts (seeding (S k)) =
  Ok (first_round ≫= λ p, (entry p).1, first_round ≫= λ p, (entry p).2).
Proof.
  unfold elim_assignments. cbn [seeding].
  rewrite (chunks2_pairs (λ s, s) (λ s, 2 ^ Z.of_nat (S k) - 1 - s)).
  assert (∀ l : list Z,
    enumerate ((λ s, [s; 2 ^ Z.of_nat (S k) - 1 - s]) <$> l) =
    (λ '(i, s), (i, [s; 2 ^ Z.of_nat (S k) - 1 - s])) <$> enumerate l) as ->.
  { intros l. unfold enumerate. by rewrite imap_fmap, fmap_imap. }
  rewrite try_fold_fmap.
  rewrite (try_fold_ok _ (λ '(ia, byes) p, (ia ++ (entry p).1, byes ++ (entry p).2)))
    by by intros [ia byes] [i s] _.
  by rewrite fold_left_app_pair.
Qed.

Lemma elem_of_first_round i s :
  (i, s) ∈ first_round → 0 ≤ i < 2 ^ Z.of_nat k ∧ 0 ≤ s < 2 ^ Z.of_nat k.
Proof.
  unfold first_round, enumerate.
  intros (j & s' & [= -> ->] & Hj)%elem_of_lookup_imap_1.
  pose proof (lookup_lt_Some _ _ _ Hj). pose proof (seeding_length k).
  apply list_elem_of_lookup_2, elem_of_seeding in Hj. lia.
Qed.

Lemma first_round_functional i s s' :
  (i, s) ∈ first_round → (i, s') ∈ first_round → s = s'.
Proof.
  unfold first_round, enumerate.
  intros (j & t & [= -> ->] & Hj)%elem_of_lookup_imap_1
    (j' & t' & [= Hjj ->] & Hj')%elem_of_lookup_imap_1.
  apply Nat2Z.inj in Hjj as ->. congruence.
Qed.

Lemma first_round_seeds : first_round.*2 = seeding k.
Proof.
  unfold first_round, enumerate. rewrite fmap_imap.
  rewrite <- (list_fmap_id (seeding k)) at 2. apply imap_const.
Qed.

(** The participants an entry places are those of its two seeds. *)
Lemma entry_participants p :
  (InitialAssignment.participant <$> (entry p).1) ++ (ByeInfo.participant <$> (entry p).2) =
  omap (λ s, parts !! Z.to_nat s) [p.2; 2 ^ Z.of_nat (S k) - 1 - p.2].
Proof. unfold entry, first_round_entry. csimpl. by repeat case_match. Qed.

Lemma placed_participants :
  Z.of_nat (length parts) ≤ 2 ^ Z.of_nat (S k) →
  (InitialAssignment.participant <$> (first_round ≫= λ p, (entry p).1)) ++
  (ByeInfo.participant <$> (first_round ≫= λ p, (entry p).2)) ≡ₚ parts.
Proof.
  intros Hlen.
  assert (∀ l : list (Z * Z),
    (InitialAssignment.participant <$> (l ≫= λ p, (entry p).1)) ++
    (ByeInfo.participant <$> (l ≫= λ p, (entry p).2)) ≡ₚ
    omap (λ s, parts !! Z.to_nat s) (l.*2 ≫= λ s, [s; 2 ^ Z.of_nat (S k) - 1 - s])) as ->.
  { intros l. induction l as [|p l IH]; [done|]. rewrite !bind_cons, !fmap_app, fmap_cons, bind_cons.
    rewrite omap_app, <- entry_participants, <- IH. solve_Permutation. }
  rewrite first_round_seeds. change (seeding k ≫= _) with (seeding (S k)).
  rewrite seeding_perm, omap_lookup_seqZ by lia. rewrite take_ge by lia. done.
Qed.

(** Byes go to the seeds the missing opponents would have met. *)
Lemma bye_participants :
  2 ^ Z.of_nat k < Z.of_nat (length parts) ≤ 2 ^ Z.of_nat (S k) →
  ByeInfo.participant <$> (first_round ≫= λ p, (entry p).2) ≡ₚ
  take (Z.to_nat (2 ^ Z.of_nat (S k)) - length parts) parts.
Proof.
  intros Hlen. set (n := Z.of_nat (length parts)) in *. set (N := 2 ^ Z.of_nat (S k)) in *.
  pose proof (pow2_S k) as HN. fold N in HN.
  assert (∀ l : list (Z * Z), (∀ p, p ∈ l → 0 ≤ p.2 < 2 ^ Z.of_nat k) →
    ByeInfo.participant <$> (l ≫= λ p, (entry p).2) =
    omap (λ s, parts !! Z.to_nat s) (filter (λ s, s < N - n) l.*2)) as Hbye.
  { intros l. induction l as [|p l IH]; intros Hl; [done|]. csimpl. rewrite fmap_app.
    rewrite IH by (intros q Hq; apply Hl, elem_of_cons; by right).
    specialize (Hl p (proj2 (elem_of_cons _ _ _) (or_introl eq_refl))).
    rewrite filter_cons. unfold entry at 1, first_round_entry. fold N.
    destruct (lookup_lt_is_Some_2 parts (Z.to_nat p.2)) as [q Hq]; [lia|]. rewrite Hq.
    case_decide as Hs.
    - rewrite (lookup_ge_None_2 parts (Z.to_nat (N - 1 - p.2))) by lia. csimpl. by rewrite Hq.
    - destruct (lookup_lt_is_Some_2 parts (Z.to_nat (N - 1 - p.2))) as [q' ->]; [lia|]. done. }
  rewrite Hbye by (intros [i s] ?%elem_of_first_round; simpl; lia).
  rewrite first_round_seeds, seeding_perm.
  replace (2 ^ Z.of_nat k) with ((N - n) + (2 ^ Z.of_nat k - (N - n))) by lia.
  rewrite seqZ_app, filter_app by lia.
  rewrite filter_all by (intros s; rewrite elem_of_seqZ; lia).
  rewrite (filter_none (λ s, s < N - n)), app_nil_r by (intros s; rewrite elem_of_seqZ; lia).
  rewrite omap_lookup_seqZ by lia. by replace (Z.to_nat (N - n)) with (Z.to_nat N - length parts)%nat by lia.
Qed.

(** The match of a bye gets no participant. *)
Lemma bye_unassigned i s bye a :
  (i, s) ∈ first_round → bye ∈ (entry (i, s)).2 →
  a ∈ (first_round ≫= λ p, (entry p).1) →
  InitialAssignment.bracket_position a ≠ position prefix 1 (i + 1).
Proof.
  intros Hfr Hbye ([i' s'] & Ha & Hfr')%list_elem_of_bind Heq.
  pose proof (elem_of_first_round _ _ Hfr) as [Hi Hs].
  pose proof (elem_of_first_round _ _ Hfr') as [Hi' Hs'].
  assert (InitialAssignment.bracket_position a = position prefix 1 (i' + 1)) as Hpos.
  { unfold entry, first_round_entry in Ha. cbn -[position] in Ha.
    repeat case_match; set_solver. }
  rewrite Hpos in Heq. apply position_inj in Heq as [_ Heq]; [|lia..].
  assert (i' = i) as -> by lia. rewrite (first_round_functional i s' s Hfr' Hfr) in Ha.
  unfold entry, first_round_entry in Ha, Hbye. cbn -[position] in Ha, Hbye.
  repeat case_match; set_solver.
Qed.
End assignments.
