(* ===== verification/SingleEliminationProps.v ===== *)
(** What [BracketGenerator::single_elimination] promises: everyone is placed
    once, byes go to the top seeds, the match tree is complete and its sources
    are consistent, and favourites meet as late as possible. *)
From stdpp Require Import base list strings pretty.
From S2P Require Import Prelude Errors Wire TournamentTypes FormatPlan Entities.
From S2P Require Import BracketModel Elimination EliminationFacts.
#[local] Open Scope Z_scope.

(** The position a source waits for, and the seed it names. *)
Definition winner_of (s : option MatchParticipantSource.t) : option string :=
  match s with Some (MatchParticipantSource.WinnerOf p) => Some p | _ => None end.
Definition seed_of (s : option MatchParticipantSource.t) : option Z :=
  match s with Some (MatchParticipantSource.Seed n) => Some n | _ => None end.

Definition sources (ms : list CreateTournamentMatch.t)
    : list (option MatchParticipantSource.t) :=
  ms ≫= λ m, [CreateTournamentMatch.participant1_source m;
              CreateTournamentMatch.participant2_source m].

Definition source_at (m : CreateTournamentMatch.t) (slot : Z)
    : option MatchParticipantSource.t :=
  if bool_decide (slot = 1) then CreateTournamentMatch.participant1_source m
  else CreateTournamentMatch.participant2_source m.

Section closed.
Context (tid : TournamentId) (sid : TournamentStageId) (bid : TournamentBracketId)
  (parts : list SeededParticipant.t) (plan : MatchFormatPlan).

Definition se_bracket (k : nat) : GeneratedBracket.t := {|
  GeneratedBracket.total_rounds := Z.of_nat (S k);
  GeneratedBracket.matches :=
    imap (λ n slot, slot_match "R" tid sid bid (seeding (S k)) plan (Z.of_nat (S k))
                      (Z.of_nat n + 1) slot) (elim_slots (S k));
  GeneratedBracket.initial_assignments := first_round k ≫= λ p, (entry "R" parts k p).1;
  GeneratedBracket.byes := first_round k ≫= λ p, (entry "R" parts k p).2 |}.

Lemma single_elimination_ok :
  2 ≤ Z.of_nat (length parts) ≤ 2 ^ 30 →
  ∃ k, (k ≤ 29)%nat ∧ 2 ^ Z.of_nat k < Z.of_nat (length parts) ≤ 2 ^ Z.of_nat (S k)
    ∧ single_elimination tid sid bid parts plan = Ok (se_bracket k).
Proof.
  intros Hn. destruct (next_power_of_two_spec (Z.of_nat (length parts))) as (k & _ & Hp & Hb);
    [lia|].
  assert (k ≤ 29)%nat as Hk.
  { destruct (decide (k ≤ 29)%nat); [done|].
    assert (2 ^ 30 ≤ 2 ^ Z.of_nat k) by (apply Z.pow_le_mono_r; lia). lia. }
  exists k. split; [done|]. split; [done|]. unfold single_elimination.
  rewrite bool_decide_false by lia. rewrite Hp.
  assert (as_i32 (Z.log2 (2 ^ Z.of_nat (S k))) = Z.of_nat (S k)) as ->.
  { rewrite Z.log2_pow2 by lia. apply as_i32_id. unfold in_i32, i32_min, i32_max. lia. }
  rewrite generate_seeding_order_ok by lia. cbn [result_bind].
  rewrite elim_matches_ok by (lia || apply seeding_perm). cbn [result_bind].
  rewrite elim_assignments_ok. done.
Qed.

(** Fields of the generated matches, over the slots. *)
Lemma se_positions k :
  CreateTournamentMatch.bracket_position <$> GeneratedBracket.matches (se_bracket k) =
  (λ slot, position "R" slot.1 (slot.2 + 1)) <$> elim_slots (S k).
Proof. simpl. rewrite fmap_imap. apply imap_const. Qed.

Lemma se_numbers k :
  CreateTournamentMatch.match_number <$> GeneratedBracket.matches (se_bracket k) =
  seqZ 1 (2 ^ Z.of_nat (S k) - 1).
Proof.
  simpl. rewrite fmap_imap. rewrite <- elim_slots_length.
  replace 1 with (0 + 1) at 1 by done. rewrite <- (fmap_add_seqZ 1 0), seqZ_of_seq.
  rewrite <- list_fmap_compose. apply list_eq. intros i.
  rewrite list_lookup_imap, list_lookup_fmap.
  destruct (elim_slots (S k) !! i) as [slot|] eqn:Hi; simpl.
  - apply lookup_lt_Some in Hi. rewrite lookup_seq_lt by done. simpl. f_equal. lia.
  - apply lookup_ge_None in Hi. by rewrite lookup_seq_ge.
Qed.

Lemma elem_of_se_matches k m :
  m ∈ GeneratedBracket.matches (se_bracket k) →
  ∃ n r i, (r, i) ∈ elim_slots (S k)
    ∧ m = slot_match "R" tid sid bid (seeding (S k)) plan (Z.of_nat (S k)) n (r, i).
Proof.
  simpl. intros (j & [r i] & -> & Hj)%elem_of_lookup_imap_1.
  apply list_elem_of_lookup_2 in Hj. eauto.
Qed.

Lemma se_match_at k r i :
  (r, i) ∈ elim_slots (S k) → ∃ n,
  slot_match "R" tid sid bid (seeding (S k)) plan (Z.of_nat (S k)) n (r, i)
    ∈ GeneratedBracket.matches (se_bracket k).
Proof.
  intros [j Hj]%list_elem_of_lookup_1. exists (Z.of_nat j + 1). simpl.
  apply elem_of_lookup_imap. by exists j, (r, i).
Qed.
End closed.

(** The bracket size determines its exponent. *)
Lemma pow2_bracket_inj j k n :
  2 ^ Z.of_nat j < n ≤ 2 ^ Z.of_nat (S j) → 2 ^ Z.of_nat k < n ≤ 2 ^ Z.of_nat (S k) → j = k.
Proof.
  intros Hj Hk. destruct (Nat.lt_trichotomy j k) as [Hlt|[->|Hlt]]; [|done|].
  - assert (2 ^ Z.of_nat (S j) ≤ 2 ^ Z.of_nat k) by (apply Z.pow_le_mono_r; lia). lia.
  - assert (2 ^ Z.of_nat (S k) ≤ 2 ^ Z.of_nat j) by (apply Z.pow_le_mono_r; lia). lia.
Qed.

(** Where a bye leads: the next-round slot fed by the bye's own match. *)
Lemma bye_target tid sid bid parts plan k i s bye :
  2 ^ Z.of_nat k < Z.of_nat (length parts) →
  (i, s) ∈ first_round k → bye ∈ (entry "R" parts k (i, s)).2 →
  let b := se_bracket tid sid bid parts plan k in
  ∃ m1 m2, m1 ∈ GeneratedBracket.matches b ∧ m2 ∈ GeneratedBracket.matches b ∧
    CreateTournamentMatch.round m1 = 1 ∧ CreateTournamentMatch.round m2 = 2 ∧
    CreateTournamentMatch.bracket_position m2 = ByeInfo.advances_to_position bye ∧
    winner_of (source_at m2 (ByeInfo.slot bye)) =
      Some (CreateTournamentMatch.bracket_position m1) ∧
    ∀ a, a ∈ GeneratedBracket.initial_assignments b →
      InitialAssignment.bracket_position a ≠ CreateTournamentMatch.bracket_position m1.
Proof.
  intros Hlen Hfr Hbye b. pose proof (elem_of_first_round _ _ _ Hfr) as [Hi Hs].
  destruct (lookup_lt_is_Some_2 parts (Z.to_nat s)) as [q Hq]; [lia|].
  pose proof Hbye as Hbye'. unfold entry, first_round_entry in Hbye. simpl in Hbye. rewrite Hq in Hbye.
  destruct (parts !! Z.to_nat (_ - 1 - s)) as [q'|] eqn:Hq'; [by apply elem_of_nil in Hbye|].
  apply list_elem_of_singleton in Hbye as Hb. subst bye.
  (* A bye needs at least two rounds. *)
  destruct k as [|k].
  { assert (s = 0) as -> by (simpl in Hs; lia). change (2 ^ Z.of_nat 1 - 1 - 0) with 1 in Hq'.
    apply lookup_ge_None in Hq'. simpl in Hlen, Hq'. lia. }
  pose proof (pow2_S k) as HS. pose proof (Z.div_mod i 2 ltac:(lia)) as Hdm.
  pose proof (Z.mod_pos_bound i 2 ltac:(lia)) as Hm.
  assert (2 ^ (Z.of_nat (S (S k)) - 1) = 2 ^ Z.of_nat (S k)) as E1 by (f_equal; lia).
  assert (2 ^ (Z.of_nat (S (S k)) - 2) = 2 ^ Z.of_nat k) as E2 by (f_equal; lia).
  destruct (se_match_at tid sid bid parts plan (S k) 1 i) as [n1 H1];
    [apply elem_of_elim_slots; rewrite ?E1, ?E2; lia|].
  destruct (se_match_at tid sid bid parts plan (S k) 2 (i / 2)) as [n2 H2];
    [apply elem_of_elim_slots; rewrite ?E1, ?E2; lia|].
  eexists _, _. split; [exact H1|]. split; [exact H2|]. split; [done|]. split; [done|].
  split; [done|]. split.
  - unfold source_at. cbn -[position]. destruct (decide (i `mod` 2 = 0)) as [Hpar|Hpar].
    + rewrite (bool_decide_true (i `mod` 2 = 0)) by done. cbn -[position].
      by replace (2 * (i / 2) + 1) with (i + 1) by lia.
    + rewrite (bool_decide_false (i `mod` 2 = 0)) by done. cbn -[position].
      by replace (2 * (i / 2) + 2) with (i + 1) by lia.
  - intros a. by eapply bye_unassigned.
Qed.

Section theorems.
Context (tid : TournamentId) (sid : TournamentStageId) (bid : TournamentBracketId).

(** C13. Every participant of a single-elimination bracket is placed exactly
  once: the first-round assignments and the byes together list each of them
  once, and nobody else. *)
Theorem single_elimination_places_everyone parts plan :
  2 ≤ Z.of_nat (length parts) ≤ 2 ^ 30 →
  ∃ b, single_elimination tid sid bid parts plan = Ok b ∧
    (InitialAssignment.participant <$> GeneratedBracket.initial_assignments b) ++
    (ByeInfo.participant <$> GeneratedBracket.byes b) ≡ₚ parts.
Proof.
  intros Hn. destruct (single_elimination_ok tid sid bid parts plan Hn) as (k & Hk & Hb & ->).
  exists (se_bracket tid sid bid parts plan k). split; [done|].
  apply placed_participants. lia.
Qed.

(** Byes of a single-elimination bracket go to the top seeds, as many as
  the bracket has free places, and each bye seats its participant in the slot
  of a second-round match whose source is the winner of a first-round match
  nobody else was assigned to. *)
Theorem single_elimination_byes parts plan :
  2 ≤ Z.of_nat (length parts) ≤ 2 ^ 30 →
  ∃ b, single_elimination tid sid bid parts plan = Ok b ∧
    ByeInfo.participant <$> GeneratedBracket.byes b ≡ₚ
      take (Z.to_nat (next_power_of_two (Z.of_nat (length parts))) - length parts) parts ∧
    ∀ bye, bye ∈ GeneratedBracket.byes b →
      ∃ m1 m2, m1 ∈ GeneratedBracket.matches b ∧ m2 ∈ GeneratedBracket.matches b ∧
        CreateTournamentMatch.round m1 = 1 ∧ CreateTournamentMatch.round m2 = 2 ∧
        CreateTournamentMatch.bracket_position m2 = ByeInfo.advances_to_position bye ∧
        winner_of (source_at m2 (ByeInfo.slot bye)) =
          Some (CreateTournamentMatch.bracket_position m1) ∧
        ∀ a, a ∈ GeneratedBracket.initial_assignments b →
          InitialAssignment.bracket_position a ≠ CreateTournamentMatch.bracket_position m1.
Proof.
  intros Hn. destruct (single_elimination_ok tid sid bid parts plan Hn) as (k & Hk & Hb & ->).
  exists (se_bracket tid sid bid parts plan k). split; [done|]. split.
  { destruct (next_power_of_two_spec (Z.of_nat (length parts))) as (k' & _ & -> & Hb'); [lia|].
    rewrite (pow2_bracket_inj k' k _ Hb' Hb).
    apply bye_participants. lia. }
  intros bye Hbye. apply list_elem_of_bind in Hbye as ([i s] & Hbye & Hfr).
  eapply bye_target; [lia|done|done].
Qed.
End theorems.

(** ** The shape of the tree *)

Section shape.
Context (tid : TournamentId) (sid : TournamentStageId) (bid : TournamentBracketId)
  (parts : list SeededParticipant.t) (plan : MatchFormatPlan).

(** The sources of the generated matches, over the slots. *)
Lemma se_sources k :
  sources (GeneratedBracket.matches (se_bracket tid sid bid parts plan k)) =
  elim_slots (S k) ≫= λ slot,
    [(slot_sources "R" (seeding (S k)) slot).1; (slot_sources "R" (seeding (S k)) slot).2].
Proof.
  unfold sources, se_bracket, GeneratedBracket.matches. by apply bind_imap.
Qed.

(** The winners waited for, round by round, are the matches below the final. *)
Lemma se_winner_sources k :
  omap winner_of (sources (GeneratedBracket.matches (se_bracket tid sid bid parts plan k))) =
  (λ slot, position "R" slot.1 (slot.2 + 1)) <$> elim_slots_below k.
Proof.
  rewrite se_sources, omap_bind, elim_slots_S, bind_app, <- elim_feeders.
  assert (∀ l : list Z, (pair 1 <$> l) ≫= (λ slot,
    omap winner_of [(slot_sources "R" (seeding (S k)) slot).1;
                    (slot_sources "R" (seeding (S k)) slot).2]) = []) as ->
    by (intros l; induction l as [|x l IH]; [done|]; rewrite fmap_cons, bind_cons, IH; done).
  rewrite app_nil_l.
  assert (∀ p, p ∈ elim_slots k → 1 ≤ p.1) as Hp
    by (intros [r i] ?%elem_of_elim_slots; simpl; lia).
  revert Hp. induction (elim_slots k) as [|[r i] l IH]; intros Hp; [done|].
  rewrite !fmap_cons, !bind_cons, fmap_app, IH by (intros p ?; apply Hp, elem_of_cons; by right).
  f_equal. specialize (Hp (r, i) (proj2 (elem_of_cons _ _ _) (or_introl eq_refl))).
  simpl in Hp. cbn -[position]. rewrite bool_decide_false by lia. cbn -[position].
  by replace (2 * i + 1 + 1) with (2 * i + 2) by lia.
Qed.

Lemma se_seed_sources k :
  omap seed_of (sources (GeneratedBracket.matches (se_bracket tid sid bid parts plan k))) ≡ₚ
  seqZ 1 (2 ^ Z.of_nat (S k)).
Proof.
  rewrite se_sources, omap_bind, elim_slots_S, bind_app.
  assert (∀ l : list (Z * Z), (∀ p, p ∈ l → 1 ≤ p.1) →
    ((λ '(r, i), (r + 1, i)) <$> l) ≫= (λ slot,
    omap seed_of [(slot_sources "R" (seeding (S k)) slot).1;
                    (slot_sources "R" (seeding (S k)) slot).2]) = []) as ->.
  { intros l. induction l as [|[r i] l IH]; intros Hp; [done|].
    rewrite fmap_cons, bind_cons, IH by (intros p ?; apply Hp, elem_of_cons; by right).
    specialize (Hp (r, i) (proj2 (elem_of_cons _ _ _) (or_introl eq_refl))). simpl in Hp.
    cbn -[position]. by rewrite bool_decide_false by lia. }
  2: { intros [r i] ?%elem_of_elim_slots. simpl. lia. }
  rewrite app_nil_r.
  assert (∀ l : list Z, (pair 1 <$> l) ≫= (λ slot,
    omap seed_of [(slot_sources "R" (seeding (S k)) slot).1;
                  (slot_sources "R" (seeding (S k)) slot).2]) =
    (λ j, seeding (S k) !!! Z.to_nat j + 1) <$> (l ≫= λ i, [2 * i; 2 * i + 1])) as ->.
  { intros l. induction l as [|x l IH]; [done|]. rewrite fmap_cons, !bind_cons, fmap_app, IH. done. }
  rewrite seqZ_pairs by (pose proof (pow2_pos k); lia). rewrite <- pow2_S.
  rewrite <- (seeding_length (S k)), seqZ_of_seq, <- list_fmap_compose.
  assert ((λ j : nat, seeding (S k) !!! Z.to_nat (Z.of_nat j) + 1) <$> seq 0 (length (seeding (S k)))
          = Z.add 1 <$> seeding (S k)) as Hs.
  { apply list_eq. intros i. rewrite !list_lookup_fmap.
    destruct (seeding (S k) !! i) as [s|] eqn:Hi.
    - pose proof (lookup_lt_Some _ _ _ Hi). rewrite lookup_seq_lt by done. simpl.
      rewrite Nat2Z.id, (list_lookup_total_correct _ _ _ Hi). f_equal. lia.
    - apply lookup_ge_None in Hi. by rewrite lookup_seq_ge. }
  unfold compose. rewrite Hs, seeding_length. rewrite (seeding_perm (S k)).
  by rewrite fmap_add_seqZ.
Qed.

Lemma se_round_filter k :
  CreateTournamentMatch.bracket_position <$>
    filter (λ m, CreateTournamentMatch.round m < Z.of_nat (S k))
      (GeneratedBracket.matches (se_bracket tid sid bid parts plan k)) =
  (λ slot, position "R" slot.1 (slot.2 + 1)) <$> elim_slots_below k.
Proof.
  rewrite <- filter_elim_slots_below. unfold se_bracket, GeneratedBracket.matches.
  assert (∀ l (h : nat → Z),
    CreateTournamentMatch.bracket_position <$>
      filter (λ m, CreateTournamentMatch.round m < Z.of_nat (S k))
        (imap (λ n slot, slot_match "R" tid sid bid (seeding (S k)) plan (Z.of_nat (S k)) (h n) slot) l) =
    (λ slot, position "R" slot.1 (slot.2 + 1)) <$> filter (λ slot, slot.1 < Z.of_nat (S k)) l) as Hl.
  { intros l. induction l as [|slot l IH]; intros h; [done|].
    rewrite imap_cons, !filter_cons. cbn -[position filter slot_sources].
    case_decide; [rewrite !fmap_cons; f_equal|]; apply (IH (h ∘ S)). }
  apply (Hl _ (λ n, Z.of_nat n + 1)).
Qed.

Lemma se_positions_NoDup k :
  NoDup (CreateTournamentMatch.bracket_position <$>
           GeneratedBracket.matches (se_bracket tid sid bid parts plan k)).
Proof.
  rewrite se_positions. apply NoDup_fmap_2_strong; [|apply elim_slots_NoDup].
  intros [r i] [r' i'] Hr%elem_of_elim_slots Hr'%elem_of_elim_slots Heq.
  apply position_inj in Heq as [? ?]; simpl in *; [f_equal; lia|lia|lia].
Qed.
End shape.

(** C8. The match tree of a single-elimination bracket is complete: one match
    less than the bracket size, numbered consecutively from 1, at distinct
    positions; first-round sources name every seed once, and the winner sources
    of the later rounds name, in order and exactly once, every match below the
    final. *)
Theorem single_elimination_tree tid sid bid parts plan :
  2 ≤ Z.of_nat (length parts) ≤ 2 ^ 30 →
  ∃ b, single_elimination tid sid bid parts plan = Ok b ∧
    let size := next_power_of_two (Z.of_nat (length parts)) in
    let ms := GeneratedBracket.matches b in
    size = 2 ^ GeneratedBracket.total_rounds b ∧
    Z.of_nat (length ms) = size - 1 ∧
    CreateTournamentMatch.match_number <$> ms = seqZ 1 (size - 1) ∧
    NoDup (CreateTournamentMatch.bracket_position <$> ms) ∧
    omap seed_of (sources ms) ≡ₚ seqZ 1 size ∧
    omap winner_of (sources ms) =
      CreateTournamentMatch.bracket_position <$>
        filter (λ m, CreateTournamentMatch.round m < GeneratedBracket.total_rounds b) ms.
Proof.
  intros Hn. destruct (single_elimination_ok tid sid bid parts plan Hn) as (k & Hk & Hb & ->).
  exists (se_bracket tid sid bid parts plan k). split; [done|]. cbv zeta.
  destruct (next_power_of_two_spec (Z.of_nat (length parts))) as (k' & _ & -> & Hb'); [lia|].
  rewrite (pow2_bracket_inj k' k _ Hb' Hb). split; [done|].
  split; [unfold se_bracket; simpl; rewrite length_imap; apply elim_slots_length|].
  split; [apply se_numbers|]. split; [apply se_positions_NoDup|].
  split; [apply se_seed_sources|]. rewrite se_winner_sources. symmetry. apply se_round_filter.
Qed.

(** The seeding order of a bracket of [2^(k+1)] places lists every seed
    once, pairs seeds that add up to the last one, and if the better seed of
    each pair wins, leaves the seeding order of the bracket of half the size:
    favourites meet as late as possible, 1 and 2 only in the final. *)
Theorem generate_seeding_order_spec k :
  (1 ≤ k ≤ 62)%nat →
  ∃ order half_order,
    generate_seeding_order (2 ^ Z.of_nat (S k)) = Ok order ∧
    generate_seeding_order (2 ^ Z.of_nat k) = Ok half_order ∧
    order ≡ₚ seqZ 0 (2 ^ Z.of_nat (S k)) ∧
    Forall (λ pair, foldr Z.add 0 pair = 2 ^ Z.of_nat (S k) - 1) (chunks2 order) ∧
    (λ pair, foldr Z.min (2 ^ Z.of_nat (S k)) pair) <$> chunks2 order = half_order.
Proof.
  intros Hk. exists (seeding (S k)), (seeding k).
  split; [apply generate_seeding_order_ok; lia|].
  split; [destruct k as [|k]; [lia|]; apply generate_seeding_order_ok; lia|].
  split; [apply seeding_perm|]. split; [|apply seeding_favourites].
  cbn [seeding]. rewrite (chunks2_pairs (λ s, s) (λ s, 2 ^ Z.of_nat (S k) - 1 - s)).
  apply Forall_fmap, Forall_true. intros s. simpl. lia.
Qed.

(** [single_elimination] fails exactly when there are fewer than two
    participants, with [InsufficientParticipants]; it never panics. *)
Theorem single_elimination_error tid sid bid parts plan :
  Z.of_nat (length parts) ≤ 2 ^ 30 →
  ∀ e, single_elimination tid sid bid parts plan = Err e ↔
       Z.of_nat (length parts) < 2 ∧ e = Error DomainError.InsufficientParticipants.
Proof.
  intros Hn e. destruct (decide (Z.of_nat (length parts) < 2)) as [Hlt|Hge].
  - unfold single_elimination. rewrite bool_decide_true by done. unfold throw. naive_solver.
  - destruct (single_elimination_ok tid sid bid parts plan) as (k & _ & _ & ->); [lia|].
    split; [done|]. intros [? _]. lia.
Qed.

(** ** Witnesses: five participants in a bracket of eight *)

Definition sample_participant (n : nat) : SeededParticipant.t :=
  SeededParticipant.mk (N.of_nat n) (Z.of_nat n) ("Team " +:+ pretty n) None.
Definition five : list SeededParticipant.t := sample_participant <$> [1; 2; 3; 4; 5]%nat.

Example single_elimination_places_everyone_witness :
  ∃ b, single_elimination 1 2 3 five (uniform MatchFormat.Bo1) = Ok b ∧
    (InitialAssignment.participant <$> GeneratedBracket.initial_assignments b) ++
    (ByeInfo.participant <$> GeneratedBracket.byes b) ≡ₚ five.
Proof. apply single_elimination_places_everyone. simpl. lia. Defined.

Example single_elimination_byes_witness :
  ∃ b, single_elimination 1 2 3 five (uniform MatchFormat.Bo1) = Ok b ∧
    ByeInfo.participant <$> GeneratedBracket.byes b ≡ₚ take 3 five.
Proof.
  destruct (single_elimination_byes 1 2 3 five (uniform MatchFormat.Bo1)) as (b & Hb & Ht & _);
    [simpl; lia|].
  exists b. split; [exact Hb|exact Ht].
Defined.

Example single_elimination_tree_witness :
  ∃ b, single_elimination 1 2 3 five (uniform MatchFormat.Bo1) = Ok b ∧
    CreateTournamentMatch.match_number <$> GeneratedBracket.matches b = [1; 2; 3; 4; 5; 6; 7].
Proof.
  destruct (single_elimination_tree 1 2 3 five (uniform MatchFormat.Bo1))
    as (b & Hb & _ & _ & Hm & _); [simpl; lia|].
  exists b. split; [exact Hb|exact Hm].
Defined.

Example generate_seeding_order_spec_witness :
  ∃ order, generate_seeding_order 8 = Ok order ∧ order ≡ₚ [0; 1; 2; 3; 4; 5; 6; 7].
Proof.
  destruct (generate_seeding_order_spec 2) as (order & _ & Ho & _ & Hp & _); [lia|].
  exists order. split; [exact Ho|exact Hp].
Defined.

Example single_elimination_error_witness :
  single_elimination 1 2 3 (take 1 five) (uniform MatchFormat.Bo1)
  = Err (Error DomainError.InsufficientParticipants).
Proof. apply (single_elimination_error 1 2 3 (take 1 five)); [simpl; lia|split; [simpl; lia|done]]. Defined.
