(* ===== verification/DoubleEliminationProps.v ===== *)
(** What the double-elimination generator promises: match counts, agreement of
    the cross-bracket links with the sources of the losers bracket, and the
    inputs on which the generated structure cannot be played out. *)
From stdpp Require Import base list strings pretty.
From S2P Require Import Prelude Errors Wire TournamentTypes FormatPlan Entities.
From S2P Require Import BracketModel Elimination EliminationFacts.
From S2P Require Import SingleEliminationProps.
#[local] Open Scope Z_scope.

(** ** Views of a generated structure *)

Definition loser_of (s : option MatchParticipantSource.t) : option string :=
  match s with Some (MatchParticipantSource.LoserOf p) => Some p | _ => None end.

(** (position of the lost match, position of the match its loser plays). *)
Definition loser_feeds (ms : list CreateTournamentMatch.t) : list (string * string) :=
  ms ≫= λ m,
    (λ p, (p, CreateTournamentMatch.bracket_position m)) <$>
      omap loser_of [CreateTournamentMatch.participant1_source m;
                     CreateTournamentMatch.participant2_source m].

Definition drop_links (ls : list CrossBracketLink.t) : list (string * string) :=
  omap (λ l, match CrossBracketLink.link_type l with
             | CrossLinkType.LoserDropsTo =>
                 Some (CrossBracketLink.source_bracket_position l,
                       CrossBracketLink.target_bracket_position l)
             | CrossLinkType.WinnerAdvancesTo => None
             end) ls.

(** ** The losers bracket over its slots *)

Section losers.
(** [wb_rounds = k + 1]: a bracket of [2^(k+1)] places. *)
Context (k : nat).

Lemma lb_matches_in_round_1 :
  (1 ≤ k)%nat → lb_matches_in_round 1 (Z.of_nat (S k)) = 2 ^ (Z.of_nat k - 1).
Proof.
  intros Hk. unfold lb_matches_in_round. rewrite bool_decide_true by done.
  rewrite Z.shiftl_mul_pow2, Z.mul_1_l by lia.
  replace (Z.of_nat (S k)) with (Z.of_nat k - 1 + 1 + 1) by lia.
  rewrite !Z.pow_add_r, Z.div_mul, Z.div_mul by lia. done.
Qed.

(** Rounds come in pairs of equal size. *)
Lemma lb_matches_in_round_pair j r :
  (1 ≤ k)%nat → 0 ≤ j < Z.of_nat k → r = 2 * j + 1 ∨ r = 2 * j + 2 →
  lb_matches_in_round r (Z.of_nat (S k)) = 2 ^ (Z.of_nat k - 1 - j).
Proof.
  intros Hk Hj Hr. destruct (decide (r = 1)) as [->|Hr1].
  { rewrite lb_matches_in_round_1 by done. f_equal. lia. }
  unfold lb_matches_in_round. rewrite bool_decide_false by done.
  assert (Z.quot (r - 1) 2 = j) as ->.
  { destruct Hr as [->| ->].
    - replace (2 * j + 1 - 1) with (j * 2) by lia. by apply Z.quot_mul.
    - rewrite Z.quot_div_nonneg by lia. symmetry. apply (Z.div_unique _ _ j 1); lia. }
  rewrite Z.shiftl_mul_pow2, Z.mul_1_l by lia.
  replace (Z.of_nat (S k)) with (Z.of_nat k - 1 + 1 + 1) by lia.
  rewrite !(Z.pow_add_r 2 _ 1), Z.div_mul, Z.div_mul by lia.
  rewrite Z.shiftr_div_pow2, <- Z.pow_sub_r by lia. done.
Qed.

Definition lb_slots : list (Z * Z) :=
  seqZ 1 (2 * Z.of_nat k) ≫= λ r, pair r <$> seqZ 0 (lb_matches_in_round r (Z.of_nat (S k))).

Lemma seqZ_1_pairs n :
  0 ≤ n → seqZ 1 (2 * n) = seqZ 0 n ≫= λ j, [2 * j + 1; 2 * j + 2].
Proof.
  intros Hn. rewrite <- (fmap_add_seqZ 1 0), <- seqZ_pairs, fmap_bind by lia.
  apply bind_ext_in. intros j _. csimpl. f_equal; [lia|]. f_equal. lia.
Qed.

Lemma lb_slots_pairs :
  (1 ≤ k)%nat →
  lb_slots = seqZ 0 (Z.of_nat k) ≫= λ j,
    (pair (2 * j + 1) <$> seqZ 0 (2 ^ (Z.of_nat k - 1 - j))) ++
    (pair (2 * j + 2) <$> seqZ 0 (2 ^ (Z.of_nat k - 1 - j))).
Proof.
  intros Hk. unfold lb_slots. rewrite seqZ_1_pairs, bind_bind by lia.
  apply bind_ext_in. intros j Hj%elem_of_seqZ. rewrite !bind_cons, app_nil_r.
  rewrite (lb_matches_in_round_pair j (2 * j + 1)), (lb_matches_in_round_pair j (2 * j + 2)) by lia.
  done.
Qed.

(** Sum of a geometric progression, as the length of a bind. *)
Lemma lb_slots_length : Z.of_nat (length lb_slots) = 2 ^ Z.of_nat (S k) - 2.
Proof.
  destruct (decide (k = 0%nat)) as [Hk0|Hk0].
  { unfold lb_slots. rewrite Hk0. reflexivity. }
  rewrite lb_slots_pairs by lia.
  assert (∀ n : nat, (n ≤ k)%nat →
    Z.of_nat (length (seqZ 0 (Z.of_nat n) ≫= λ j,
      (pair (2 * j + 1) <$> seqZ 0 (2 ^ (Z.of_nat k - 1 - j))) ++
      (pair (2 * j + 2) <$> seqZ 0 (2 ^ (Z.of_nat k - 1 - j)))))
    = 2 * (2 ^ Z.of_nat k - 2 ^ (Z.of_nat k - Z.of_nat n))) as Hsum.
  { intros n. induction n as [|n IH]; intros Hn.
    { rewrite Z.sub_0_r. simpl. lia. }
    rewrite Nat2Z.inj_succ, <- Z.add_1_r, seqZ_app, bind_app, length_app by lia.
    rewrite Nat2Z.inj_add, IH by lia. rewrite Z.add_0_l, seqZ_cons, seqZ_nil by lia.
    rewrite bind_cons, app_nil_r, length_app, !length_fmap, length_seqZ.
    replace (Z.of_nat k - (Z.of_nat n + 1)) with (Z.of_nat k - 1 - Z.of_nat n) by lia.
    replace (2 ^ (Z.of_nat k - Z.of_nat n)) with (2 * 2 ^ (Z.of_nat k - 1 - Z.of_nat n)).
    2: { rewrite <- Z.pow_succ_r by lia. f_equal. lia. }
    pose proof (Z.pow_pos_nonneg 2 (Z.of_nat k - 1 - Z.of_nat n)). lia. }
  rewrite Hsum, Z.sub_diag, pow2_S by lia. lia.
Qed.

Lemma elem_of_lb_slots r i : (r, i) ∈ lb_slots → 1 ≤ r ≤ 2 * Z.of_nat k ∧ 0 ≤ i.
Proof.
  unfold lb_slots. intros (r' & (j & [= -> ->] & Hj)%list_elem_of_fmap & Hr)%list_elem_of_bind.
  rewrite elem_of_seqZ in *. lia.
Qed.

Lemma lb_slots_NoDup : NoDup (lb_slots).
Proof.
  unfold lb_slots. apply NoDup_bind.
  - intros r1 r2 [r i] _ _ (j & [= -> ->] & _)%list_elem_of_fmap (j' & [= -> ->] & _)%list_elem_of_fmap.
    done.
  - intros r _. apply NoDup_fmap_2; [by intros ?? [=]|apply NoDup_seqZ].
  - apply NoDup_seqZ.
Qed.

Context (tid : TournamentId) (sid : TournamentStageId) (lbid : TournamentBracketId)
  (plan : MatchFormatPlan).

Definition lb_slot_match (n : Z) (slot : Z * Z) : CreateTournamentMatch.t :=
  new_match tid sid lbid slot.1 n (position "LR" slot.1 (slot.2 + 1))
    (lb_participant_sources slot.1 slot.2 (Z.of_nat (S k))) (format_for plan slot.1 0).

Lemma lb_matches_ok :
  (k ≤ 29)%nat →
  lb_matches tid sid lbid (Z.of_nat (S k)) (2 * Z.of_nat k) plan =
  (imap (λ n slot, lb_slot_match (Z.of_nat n + 1) slot) lb_slots, 2 ^ Z.of_nat (S k) - 1).
Proof.
  intros Hk. unfold lb_matches.
  pose proof (nested_push (E := unit)
    (λ r n i, Ok (lb_slot_match n (r, i))) (λ r n i, lb_slot_match n (r, i))
    (λ r, range 0 (lb_matches_in_round r (Z.of_nat (S k)))) ([], 1)
    (range_incl 1 (2 * Z.of_nat k)) ltac:(done)) as Hn.
  assert (∀ rs st, try_fold (E := unit) (λ st r, try_push_numbered
      (λ n i, Ok (lb_slot_match n (r, i))) st (range 0 (lb_matches_in_round r (Z.of_nat (S k))))) st rs
    = Ok (fold_left (λ st r, push_numbered (λ n i, lb_slot_match n (r, i)) st
        (range 0 (lb_matches_in_round r (Z.of_nat (S k))))) rs st)) as Hf.
  { intros rs st. apply try_fold_ok. intros st' r _. by apply try_push_numbered_ok. }
  rewrite Hf in Hn. injection Hn as Hn.
  change (fold_left _ _ _) with (fold_left (λ st r, push_numbered (λ n i, lb_slot_match n (r, i)) st
        (range 0 (lb_matches_in_round r (Z.of_nat (S k))))) (range_incl 1 (2 * Z.of_nat k)) ([], 1)).
  rewrite Hn. unfold range_incl, range. replace (2 * Z.of_nat k - 1 + 1) with (2 * Z.of_nat k) by lia.
  assert ((seqZ 1 (2 * Z.of_nat k) ≫= λ r, pair r <$>
    seqZ 0 (lb_matches_in_round r (Z.of_nat (S k)) - 0)) = lb_slots) as ->.
  { unfold lb_slots. apply bind_ext_in. intros r _. by rewrite Z.sub_0_r. }
  pose proof lb_slots_length as Hlen.
  assert (2 ^ Z.of_nat (S k) ≤ 2 ^ 30) by (apply Z.pow_le_mono_r; lia).
  pose proof (pow2_pos (S k)).
  rewrite push_numbered_imap by (rewrite ?Hlen; unfold in_i32, i32_min, i32_max; lia).
  simpl. f_equal; [|lia]. apply imap_ext. intros n [r i] _. simpl. f_equal. lia.
Qed.
End losers.

(** ** Which loser goes where *)

Lemma mirror_range_perm n : 0 ≤ n → (λ i, n - 1 - i) <$> seqZ 0 n ≡ₚ seqZ 0 n.
Proof.
  intros Hn. apply NoDup_Permutation.
  - apply NoDup_fmap_2; [intros x y; lia|apply NoDup_seqZ].
  - apply NoDup_seqZ.
  - intros x. rewrite list_elem_of_fmap, elem_of_seqZ. split.
    + intros (y & -> & Hy). rewrite elem_of_seqZ in Hy. lia.
    + intros Hx. exists (n - 1 - x). rewrite elem_of_seqZ. lia.
Qed.

Section drops.
Context (k : nat) (Hk : (1 ≤ k)%nat).
#[local] Abbreviation wb_rounds := (Z.of_nat (S k)).

(** The two first-round losers of each LR1 match. *)
Definition first_drops : list (string * string) :=
  seqZ 0 (2 ^ (Z.of_nat k - 1)) ≫= λ i,
    [(position "WR" 1 (i + 1), position "LR" 1 (i + 1));
     (position "WR" 1 (2 ^ Z.of_nat k - 1 - i + 1), position "LR" 1 (i + 1))].

(** Winners round [j + 2] drops into losers round [2 j + 2], mirrored. *)
Definition round_size (j : Z) : Z := 2 ^ (Z.of_nat k - 1 - j).
Definition round_feeds (j : Z) : list (string * string) :=
  (λ i, (position "WR" (j + 2) (round_size j - 1 - i + 1), position "LR" (2 * j + 2) (i + 1)))
  <$> seqZ 0 (round_size j).
Definition round_drops (j : Z) : list (string * string) :=
  (λ i, (position "WR" (j + 2) (i + 1), position "LR" (2 * j + 2) (round_size j - 1 - i + 1)))
  <$> seqZ 0 (round_size j).

Lemma round_feeds_perm j : round_feeds j ≡ₚ round_drops j.
Proof.
  unfold round_feeds. rewrite <- (mirror_range_perm (round_size j)) by (apply Z.pow_nonneg; lia).
  rewrite <- list_fmap_compose. unfold round_drops. apply reflexive_eq, list_fmap_ext.
  intros ? i _. simpl. f_equal; f_equal; lia.
Qed.

Lemma wb_first_size : Z.shiftl 1 wb_rounds / 2 = 2 ^ Z.of_nat k.
Proof.
  rewrite Z.shiftl_mul_pow2, Z.mul_1_l, pow2_S, Z.mul_comm by lia. by apply Z.div_mul.
Qed.

Lemma wb_round_size j :
  0 ≤ j < Z.of_nat k → 2 ^ wb_rounds / Z.shiftl 1 (j + 2) = round_size j.
Proof.
  intros Hj. rewrite Z.shiftl_mul_pow2, Z.mul_1_l, <- Z.pow_sub_r by lia.
  unfold round_size. f_equal. lia.
Qed.

Lemma lb_sources_first i :
  lb_participant_sources 1 i wb_rounds =
  (Some (MatchParticipantSource.LoserOf (position "WR" 1 (i + 1))),
   Some (MatchParticipantSource.LoserOf (position "WR" 1 (2 ^ Z.of_nat k - 1 - i + 1)))).
Proof. unfold lb_participant_sources. rewrite bool_decide_true by done. by rewrite wb_first_size. Qed.

Lemma lb_sources_even j i :
  0 ≤ j < Z.of_nat k →
  lb_participant_sources (2 * j + 2) i wb_rounds =
  (Some (MatchParticipantSource.WinnerOf (position "LR" (2 * j + 1) (i + 1))),
   Some (MatchParticipantSource.LoserOf (position "WR" (j + 2) (round_size j - 1 - i + 1)))).
Proof.
  intros Hj. unfold lb_participant_sources.
  rewrite bool_decide_false by lia.
  replace (2 * j + 2) with ((j + 1) * 2) by lia.
  rewrite Z.rem_mul, Z.quot_mul, bool_decide_true by done.
  replace (j + 1 + 1) with (j + 2) by lia.
  rewrite (lb_matches_in_round_pair k j) by lia.
  replace (Z.shiftl 1 wb_rounds) with (2 ^ wb_rounds) by (rewrite Z.shiftl_mul_pow2; lia).
  rewrite wb_round_size, bool_decide_true by done. do 4 f_equal. lia.
Qed.

Lemma lb_sources_odd j i :
  1 ≤ j →
  lb_participant_sources (2 * j + 1) i wb_rounds =
  (Some (MatchParticipantSource.WinnerOf (position "LR" (2 * j) (2 * i + 1))),
   Some (MatchParticipantSource.WinnerOf (position "LR" (2 * j) (2 * i + 2)))).
Proof.
  intros Hj. unfold lb_participant_sources. rewrite bool_decide_false by lia.
  rewrite Z.rem_mod_nonneg by lia. replace (2 * j + 1) with (1 + j * 2) by lia.
  rewrite Z.mod_add, bool_decide_false by done.
  replace (1 + j * 2 - 1) with (2 * j) by lia. by rewrite (Z.mul_comm i 2).
Qed.

(** What one slot of the losers bracket waits for from the winners bracket. *)
Definition slot_feeds (slot : Z * Z) : list (string * string) :=
  (λ p, (p, position "LR" slot.1 (slot.2 + 1))) <$>
    omap loser_of [(lb_participant_sources slot.1 slot.2 wb_rounds).1;
                   (lb_participant_sources slot.1 slot.2 wb_rounds).2].

Lemma slot_feeds_first n :
  (pair 1 <$> seqZ 0 n) ≫= slot_feeds =
  seqZ 0 n ≫= λ i,
    [(position "WR" 1 (i + 1), position "LR" 1 (i + 1));
     (position "WR" 1 (2 ^ Z.of_nat k - 1 - i + 1), position "LR" 1 (i + 1))].
Proof.
  rewrite bind_fmap. apply bind_ext_in. intros i _. unfold slot_feeds. cbn [fst snd].
  by rewrite lb_sources_first.
Qed.

Lemma slot_feeds_even j n :
  0 ≤ j < Z.of_nat k →
  (pair (2 * j + 2) <$> seqZ 0 n) ≫= slot_feeds =
  (λ i, (position "WR" (j + 2) (round_size j - 1 - i + 1), position "LR" (2 * j + 2) (i + 1)))
  <$> seqZ 0 n.
Proof.
  intros Hj. rewrite bind_fmap, <- bind_singleton. apply bind_ext_in. intros i _.
  unfold slot_feeds. cbn [fst snd]. by rewrite lb_sources_even.
Qed.

Lemma slot_feeds_odd j n : 1 ≤ j → (pair (2 * j + 1) <$> seqZ 0 n) ≫= slot_feeds = [].
Proof.
  intros Hj. rewrite bind_fmap, <- (bind_nil (seqZ 0 n)). apply bind_ext_in. intros i _.
  unfold slot_feeds. cbn [fst snd]. by rewrite lb_sources_odd.
Qed.

Lemma lb_slots_feeds :
  lb_slots k ≫= slot_feeds = first_drops ++ (seqZ 0 (Z.of_nat k) ≫= round_feeds).
Proof.
  rewrite lb_slots_pairs, bind_bind by done.
  rewrite (seqZ_cons 0 (Z.of_nat k)) by lia. rewrite !bind_cons, bind_app, (assoc_L (++)).
  f_equal; [f_equal|].
  - replace (Z.of_nat k - 1 - 0) with (Z.of_nat k - 1) by lia. apply (slot_feeds_first _).
  - apply slot_feeds_even. lia.
  - apply bind_ext_in. intros j Hj%elem_of_seqZ. rewrite bind_app.
    rewrite slot_feeds_odd, slot_feeds_even by lia. done.
Qed.

(** The links, computed. *)
Lemma wr1_links_drops :
  drop_links (wr1_links (2 ^ wb_rounds) wb_rounds) = first_drops.
Proof.
  unfold wr1_links. rewrite lb_matches_in_round_1 by done.
  replace (2 ^ wb_rounds / 2) with (2 ^ Z.of_nat k)
    by (rewrite pow2_S, Z.mul_comm; symmetry; by apply Z.div_mul).
  unfold cross_seed_wr1_to_lr1, first_drops, drop_links, range. rewrite Z.sub_0_r.
  rewrite fmap_bind, omap_bind. done.
Qed.

Lemma dropper_links_drops :
  drop_links (dropper_links (2 ^ wb_rounds) wb_rounds) = seqZ 0 (Z.of_nat k) ≫= round_drops.
Proof.
  unfold dropper_links, drop_links, range_incl.
  replace (wb_rounds - 2 + 1) with (Z.of_nat k) by lia.
  rewrite omap_bind, <- (fmap_add_seqZ 2 0), bind_fmap.
  apply bind_ext_in. intros j Hj%elem_of_seqZ. replace (2 + j) with (j + 2) by lia.
  rewrite wb_round_size by lia. replace (2 * (j + 2 - 1)) with (2 * j + 2) by lia.
  rewrite (lb_matches_in_round_pair k j) by lia.
  fold (round_size j). rewrite bool_decide_true by done.
  unfold range. rewrite Z.sub_0_r. unfold round_drops.
  generalize (seqZ 0 (round_size j)). intros l. induction l as [|i l IH]; [done|].
  csimpl. by rewrite IH.
Qed.

Lemma drop_links_app l1 l2 : drop_links (l1 ++ l2) = drop_links l1 ++ drop_links l2.
Proof. apply omap_app. Qed.

(** Every winners-bracket match drops its loser once. *)
Lemma first_drops_sources :
  first_drops.*1 ≡ₚ (λ i, position "WR" 1 (i + 1)) <$> seqZ 0 (2 ^ Z.of_nat k).
Proof.
  unfold first_drops. rewrite fmap_bind.
  set (m := 2 ^ (Z.of_nat k - 1)).
  assert (2 ^ Z.of_nat k = 2 * m) as Hm.
  { unfold m. rewrite <- Z.pow_succ_r by lia. f_equal. lia. }
  assert (0 ≤ m) by (apply Z.pow_nonneg; lia).
  replace (2 ^ Z.of_nat k) with (m + m) by lia. rewrite seqZ_app, fmap_app, Z.add_0_l by lia.
  rewrite <- (mirror_perm m) by lia. rewrite <- list_fmap_compose.
  rewrite <- (bind_pair_perm (λ i, position "WR" 1 (i + 1))
               (λ i, position "WR" 1 (2 * m - 1 - i + 1)) (seqZ 0 m)).
  apply bind_perm_in. intros i _. simpl. do 3 f_equiv. f_equal. lia.
Qed.

Lemma elim_slots_wr_bind {A} (f : Z → list A) :
  seqZ 2 (Z.of_nat k) ≫= f = seqZ 0 (Z.of_nat k) ≫= λ j, f (j + 2).
Proof.
  rewrite <- (fmap_add_seqZ 2 0), bind_fmap. apply bind_ext_in. intros j _. f_equal. lia.
Qed.

Lemma all_drops_sources :
  (first_drops ++ (seqZ 0 (Z.of_nat k) ≫= round_drops)).*1 ≡ₚ
  (λ slot, position "WR" slot.1 (slot.2 + 1)) <$> elim_slots (S k).
Proof.
  unfold elim_slots. rewrite fmap_app, first_drops_sources, (seqZ_cons 1) by lia.
  rewrite bind_cons, fmap_app. f_equiv.
  - replace (wb_rounds - 1) with (Z.of_nat k) by lia. by rewrite <- list_fmap_compose.
  - replace (Z.pred wb_rounds) with (Z.of_nat k) by lia. change (Z.succ 1) with 2.
    rewrite elim_slots_wr_bind, !fmap_bind. apply bind_perm_in. intros j Hj.
    unfold round_drops. rewrite <- !list_fmap_compose. unfold round_size.
    replace (wb_rounds - (j + 2)) with (Z.of_nat k - 1 - j) by lia. done.
Qed.
End drops.

(** ** Who waits for whom inside the losers bracket *)

(** Shifting the pieces of a concatenation by one. *)
Lemma bind_telescope {A} (a b c : Z → list A) n :
  a 0 = [] → (∀ j, 0 ≤ j < Z.of_nat n → a (j + 1) = c j) →
  (seqZ 0 (Z.of_nat (S n)) ≫= λ j, a j ++ b j) ++ c (Z.of_nat n) =
  seqZ 0 (Z.of_nat (S n)) ≫= λ j, b j ++ c j.
Proof.
  intros Ha Hac. induction n as [|n IH].
  { change (seqZ 0 (Z.of_nat 1)) with [0]. change (Z.of_nat 0) with 0. rewrite !bind_cons, Ha, !app_nil_r. done. }
  assert (seqZ 0 (Z.of_nat (S (S n))) = seqZ 0 (Z.of_nat (S n)) ++ [Z.of_nat (S n)]) as ->.
  { replace (Z.of_nat (S (S n))) with (Z.of_nat (S n) + 1) by lia. by rewrite seqZ_app by lia. }
  rewrite !bind_app.
  rewrite <- IH by (intros j Hj; apply Hac; lia). rewrite !bind_cons.
  replace (Z.of_nat (S n)) with (Z.of_nat n + 1) at 2 by lia.
  rewrite Hac by lia. by rewrite !app_nil_r, !(assoc_L (++)).
Qed.

Section losers_tree.
Context (k : nat) (Hk : (1 ≤ k)%nat).
#[local] Abbreviation wb_rounds := (Z.of_nat (S k)).

Definition slot_waits (slot : Z * Z) : list string :=
  omap winner_of [(lb_participant_sources slot.1 slot.2 wb_rounds).1;
                  (lb_participant_sources slot.1 slot.2 wb_rounds).2].

Definition lb_positions (r n : Z) : list string :=
  (λ i, position "LR" r (i + 1)) <$> seqZ 0 n.

Lemma slot_waits_first n : (pair 1 <$> seqZ 0 n) ≫= slot_waits = [].
Proof.
  rewrite bind_fmap, <- (bind_nil (seqZ 0 n)). apply bind_ext_in. intros i _.
  unfold slot_waits. cbn [fst snd]. by rewrite lb_sources_first.
Qed.

Lemma slot_waits_odd j n :
  1 ≤ j → 0 ≤ n →
  (pair (2 * j + 1) <$> seqZ 0 n) ≫= slot_waits = lb_positions (2 * j) (2 * n).
Proof.
  intros Hj Hn. unfold lb_positions. rewrite bind_fmap, <- seqZ_pairs, fmap_bind by done.
  apply bind_ext_in. intros i _. unfold slot_waits. cbn [fst snd].
  rewrite lb_sources_odd by lia. csimpl.
  by replace (2 * i + 1 + 1) with (2 * i + 2) by lia.
Qed.

Lemma slot_waits_even j n :
  0 ≤ j < Z.of_nat k →
  (pair (2 * j + 2) <$> seqZ 0 n) ≫= slot_waits = lb_positions (2 * j + 1) n.
Proof.
  intros Hj. unfold lb_positions. rewrite bind_fmap, <- bind_singleton. apply bind_ext_in.
  intros i _. unfold slot_waits. cbn [fst snd]. by rewrite lb_sources_even.
Qed.

Lemma lb_slots_positions :
  (λ slot, position "LR" slot.1 (slot.2 + 1)) <$> lb_slots k =
  seqZ 0 (Z.of_nat k) ≫= λ j,
    lb_positions (2 * j + 1) (round_size k j) ++ lb_positions (2 * j + 2) (round_size k j).
Proof.
  rewrite lb_slots_pairs, fmap_bind by done. apply bind_ext_in. intros j _.
  by rewrite fmap_app, <- !list_fmap_compose.
Qed.

Lemma lb_slots_waits :
  (lb_slots k ≫= slot_waits) ++ [position "LR" (2 * Z.of_nat k) 1] =
  (λ slot, position "LR" slot.1 (slot.2 + 1)) <$> lb_slots k.
Proof.
  rewrite lb_slots_positions, lb_slots_pairs, bind_bind by done.
  set (k' := (k - 1)%nat). assert (Z.of_nat (S k') = Z.of_nat k) as Ek by lia.
  set (a j := if bool_decide (j = 0) then [] else lb_positions (2 * j) (2 * round_size k j)).
  assert (seqZ 0 (Z.of_nat k) ≫= (λ j,
      ((pair (2 * j + 1) <$> seqZ 0 (2 ^ (Z.of_nat k - 1 - j))) ++
       (pair (2 * j + 2) <$> seqZ 0 (2 ^ (Z.of_nat k - 1 - j)))) ≫= slot_waits)
    = seqZ 0 (Z.of_nat k) ≫= λ j, a j ++ lb_positions (2 * j + 1) (round_size k j)) as ->.
  { apply bind_ext_in. intros j Hj%elem_of_seqZ. rewrite bind_app.
    rewrite slot_waits_even by lia. f_equal. unfold a. case_bool_decide as H0.
    - subst j. apply slot_waits_first.
    - apply slot_waits_odd; [lia|]. apply Z.pow_nonneg. lia. }
  assert ([position "LR" (2 * Z.of_nat k) 1] =
    lb_positions (2 * Z.of_nat k' + 2) (round_size k (Z.of_nat k'))) as ->.
  { unfold lb_positions, round_size. replace (Z.of_nat k - 1 - Z.of_nat k') with 0 by lia.
    simpl. do 2 f_equal. lia. }
  pose proof (bind_telescope a (λ j, lb_positions (2 * j + 1) (round_size k j))
           (λ j, lb_positions (2 * j + 2) (round_size k j)) k') as Ht.
  rewrite Ek in Ht. apply Ht; [done|]. intros j Hj. unfold a. rewrite bool_decide_false by lia.
  replace (2 * (j + 1)) with (2 * j + 2) by lia. f_equal.
  unfold round_size. rewrite <- Z.pow_succ_r by lia. f_equal. lia.
Qed.

End losers_tree.

(** ** The generated structure in closed form *)

Section closed.
Context (tid : TournamentId) (sid : TournamentStageId)
  (wbid lbid gfid : TournamentBracketId)
  (parts : list SeededParticipant.t) (plan : MatchFormatPlan).

Definition de_winners (k : nat) : GeneratedBracket.t := {|
  GeneratedBracket.total_rounds := Z.of_nat (S k);
  GeneratedBracket.matches :=
    imap (λ n slot, slot_match "WR" tid sid wbid (seeding (S k)) plan 0
                      (Z.of_nat n + 1) slot) (elim_slots (S k));
  GeneratedBracket.initial_assignments := first_round k ≫= λ p, (entry "WR" parts k p).1;
  GeneratedBracket.byes := first_round k ≫= λ p, (entry "WR" parts k p).2 |}.

Definition de_losers (k : nat) : GeneratedBracket.t := {|
  GeneratedBracket.total_rounds := 2 * Z.of_nat k;
  GeneratedBracket.matches :=
    imap (λ n slot, lb_slot_match k tid sid lbid plan (Z.of_nat n + 1) slot) (lb_slots k);
  GeneratedBracket.initial_assignments := [];
  GeneratedBracket.byes := [] |}.

Definition de_final (k : nat) : GeneratedBracket.t := {|
  GeneratedBracket.total_rounds := 1;
  GeneratedBracket.matches := [gf_match tid sid gfid (Z.of_nat (S k)) (2 * Z.of_nat k) plan];
  GeneratedBracket.initial_assignments := [];
  GeneratedBracket.byes := [] |}.

Definition de_structure (k : nat) : GeneratedDoubleElimination.t := {|
  GeneratedDoubleElimination.winners_bracket := de_winners k;
  GeneratedDoubleElimination.losers_bracket := de_losers k;
  GeneratedDoubleElimination.grand_final := de_final k;
  GeneratedDoubleElimination.cross_bracket_links :=
    wr1_links (2 ^ Z.of_nat (S k)) (Z.of_nat (S k))
    ++ dropper_links (2 ^ Z.of_nat (S k)) (Z.of_nat (S k))
    ++ grand_final_links (Z.of_nat (S k)) (2 * Z.of_nat k) |}.

Lemma double_elimination_ok :
  2 ≤ Z.of_nat (length parts) ≤ 2 ^ 30 →
  ∃ k, (k ≤ 29)%nat ∧ 2 ^ Z.of_nat k < Z.of_nat (length parts) ≤ 2 ^ Z.of_nat (S k)
    ∧ double_elimination tid sid wbid lbid gfid parts plan = Ok (de_structure k).
Proof.
  intros Hn. destruct (next_power_of_two_spec (Z.of_nat (length parts))) as (k & _ & Hp & Hb);
    [lia|].
  assert (k ≤ 29)%nat as Hk.
  { destruct (decide (k ≤ 29)%nat); [done|].
    assert (2 ^ 30 ≤ 2 ^ Z.of_nat k) by (apply Z.pow_le_mono_r; lia). lia. }
  exists k. split; [done|]. split; [done|]. unfold double_elimination.
  rewrite bool_decide_false by lia. rewrite Hp.
  assert (as_i32 (Z.log2 (2 ^ Z.of_nat (S k))) = Z.of_nat (S k)) as ->.
  { rewrite Z.log2_pow2 by lia. apply as_i32_id. unfold in_i32, i32_min, i32_max. lia. }
  rewrite generate_seeding_order_ok by lia. cbn [result_bind].
  rewrite elim_matches_ok by (lia || apply seeding_perm). cbn [result_bind].
  rewrite elim_assignments_ok. cbn [result_bind].
  assert (i32_mul 2 (i32_sub (Z.of_nat (S k)) 1) = 2 * Z.of_nat k) as ->.
  { unfold i32_mul, i32_sub. rewrite !as_i32_id; unfold in_i32, i32_min, i32_max;
      rewrite ?as_i32_id; unfold in_i32, i32_min, i32_max; lia. }
  rewrite lb_matches_ok by lia. done.
Qed.

Lemma de_winners_positions k :
  CreateTournamentMatch.bracket_position <$> GeneratedBracket.matches (de_winners k) =
  (λ slot, position "WR" slot.1 (slot.2 + 1)) <$> elim_slots (S k).
Proof. simpl. rewrite fmap_imap. apply imap_const. Qed.

Lemma de_losers_positions k :
  CreateTournamentMatch.bracket_position <$> GeneratedBracket.matches (de_losers k) =
  (λ slot, position "LR" slot.1 (slot.2 + 1)) <$> lb_slots k.
Proof. simpl. rewrite fmap_imap. apply imap_const. Qed.

Lemma de_losers_feeds k :
  loser_feeds (GeneratedBracket.matches (de_losers k)) = lb_slots k ≫= slot_feeds k.
Proof. unfold loser_feeds. simpl. by apply bind_imap. Qed.

Lemma de_losers_waits k :
  omap winner_of (sources (GeneratedBracket.matches (de_losers k))) = lb_slots k ≫= slot_waits k.
Proof. unfold sources. rewrite omap_bind. simpl. by apply bind_imap. Qed.

Lemma de_links_drops k :
  (1 ≤ k)%nat →
  drop_links (GeneratedDoubleElimination.cross_bracket_links (de_structure k)) =
  first_drops k ++ (seqZ 0 (Z.of_nat k) ≫= round_drops k).
Proof.
  intros Hk. simpl. rewrite !drop_links_app, wr1_links_drops, dropper_links_drops by done.
  by rewrite app_nil_r.
Qed.

Lemma pow2_bracket_ge3 k : 3 ≤ Z.of_nat (length parts) ≤ 2 ^ Z.of_nat (S k) → (1 ≤ k)%nat.
Proof. destruct k as [|k]; [|lia]. change (2 ^ Z.of_nat 1) with 2. lia. Qed.
End closed.

Lemma imap_numbers {A} (l : list A) (f : nat → A → CreateTournamentMatch.t) :
  (∀ n x, CreateTournamentMatch.match_number (f n x) = Z.of_nat n + 1) →
  CreateTournamentMatch.match_number <$> imap f l = seqZ 1 (Z.of_nat (length l)).
Proof.
  intros Hf. rewrite fmap_imap. apply list_eq. intros i. rewrite list_lookup_imap.
  destruct (l !! i) as [x|] eqn:Hi; simpl.
  - apply lookup_lt_Some in Hi. symmetry. apply lookup_seqZ. rewrite Hf. lia.
  - apply lookup_ge_None in Hi. symmetry. apply lookup_seqZ_ge. lia.
Qed.

(** Everything that is played, in creation order. *)
Definition all_matches (g : GeneratedDoubleElimination.t) : list CreateTournamentMatch.t :=
  GeneratedBracket.matches (GeneratedDoubleElimination.winners_bracket g)
  ++ GeneratedBracket.matches (GeneratedDoubleElimination.losers_bracket g)
  ++ GeneratedBracket.matches (GeneratedDoubleElimination.grand_final g).

Section double_elimination_theorems.
Context (tid : TournamentId) (sid : TournamentStageId)
  (wbid lbid gfid : TournamentBracketId).

(** C18. With three or more participants, every match of the winners bracket
  drops its loser exactly once: the loser links have the winners-bracket
  positions as sources, each once, and they agree with the loser sources of the
  losers bracket, so a link and the match it leads to never disagree. *)
Theorem double_elimination_drops parts plan :
  3 ≤ Z.of_nat (length parts) ≤ 2 ^ 30 →
  ∃ g, double_elimination tid sid wbid lbid gfid parts plan = Ok g ∧
    let links := drop_links (GeneratedDoubleElimination.cross_bracket_links g) in
    loser_feeds (GeneratedBracket.matches (GeneratedDoubleElimination.losers_bracket g)) ≡ₚ links ∧
    links.*1 ≡ₚ CreateTournamentMatch.bracket_position <$>
      GeneratedBracket.matches (GeneratedDoubleElimination.winners_bracket g).
Proof.
  intros Hn. destruct (double_elimination_ok tid sid wbid lbid gfid parts plan)
    as (k & _ & Hb & ->); [lia|].
  pose proof (pow2_bracket_ge3 parts k ltac:(lia)) as Hk.
  eexists. split; [done|]. cbv zeta. rewrite de_links_drops by done. split.
  - change (GeneratedDoubleElimination.losers_bracket _) with (de_losers tid sid lbid plan k).
    rewrite de_losers_feeds, lb_slots_feeds by done. apply Permutation_app; [done|]. apply bind_perm_in.
    intros j _. by apply round_feeds_perm.
  - change (GeneratedDoubleElimination.winners_bracket _) with (de_winners tid sid wbid parts plan k).
    rewrite de_winners_positions. by apply all_drops_sources.
Qed.

(** The losers bracket is one elimination chain: the winners it waits for
  are, in order and exactly once, all its matches but the last, and the grand
  final waits for the last match of the winners bracket and the last match of
  the losers bracket. *)
Theorem double_elimination_losers_tree parts plan :
  3 ≤ Z.of_nat (length parts) ≤ 2 ^ 30 →
  ∃ g wb_last lb_last gf, double_elimination tid sid wbid lbid gfid parts plan = Ok g ∧
    let lb := GeneratedBracket.matches (GeneratedDoubleElimination.losers_bracket g) in
    let wb := GeneratedBracket.matches (GeneratedDoubleElimination.winners_bracket g) in
    GeneratedBracket.matches (GeneratedDoubleElimination.grand_final g) = [gf] ∧
    CreateTournamentMatch.bracket_position <$> lb =
      omap winner_of (sources lb) ++ [lb_last] ∧
    last (CreateTournamentMatch.bracket_position <$> wb) = Some wb_last ∧
    CreateTournamentMatch.participant1_source gf = Some (MatchParticipantSource.WinnerOf wb_last) ∧
    CreateTournamentMatch.participant2_source gf = Some (MatchParticipantSource.WinnerOf lb_last).
Proof.
  intros Hn. destruct (double_elimination_ok tid sid wbid lbid gfid parts plan)
    as (k & _ & Hb & ->); [lia|].
  pose proof (pow2_bracket_ge3 parts k ltac:(lia)) as Hk.
  eexists _, _, _, _. split; [done|]. cbv zeta. split; [reflexivity|].
  change (GeneratedDoubleElimination.losers_bracket _) with (de_losers tid sid lbid plan k).
  change (GeneratedDoubleElimination.winners_bracket _) with (de_winners tid sid wbid parts plan k).
  rewrite de_losers_positions, de_losers_waits, de_winners_positions.
  split; [symmetry; by apply lb_slots_waits|].
  split; [|split; reflexivity].
  rewrite elim_slots_last, fmap_app, fmap_cons, fmap_nil. by rewrite last_snoc.
Qed.

(** A double elimination over a bracket of [size >= 4] places has
  [size - 1] winners-bracket, [size - 2] losers-bracket and one grand-final
  match, each bracket numbered consecutively from 1, and no two matches share a
  position; its first round is that of the single elimination: every
  participant is placed once. *)
Theorem double_elimination_counts parts plan :
  3 ≤ Z.of_nat (length parts) ≤ 2 ^ 30 →
  ∃ g, double_elimination tid sid wbid lbid gfid parts plan = Ok g ∧
    let size := next_power_of_two (Z.of_nat (length parts)) in
    let wb := GeneratedDoubleElimination.winners_bracket g in
    let lb := GeneratedDoubleElimination.losers_bracket g in
    CreateTournamentMatch.match_number <$> GeneratedBracket.matches wb = seqZ 1 (size - 1) ∧
    CreateTournamentMatch.match_number <$> GeneratedBracket.matches lb = seqZ 1 (size - 2) ∧
    NoDup (CreateTournamentMatch.bracket_position <$> all_matches g) ∧
    (InitialAssignment.participant <$> GeneratedBracket.initial_assignments wb) ++
    (ByeInfo.participant <$> GeneratedBracket.byes wb) ≡ₚ parts.
Proof.
  intros Hn. destruct (double_elimination_ok tid sid wbid lbid gfid parts plan)
    as (k & _ & Hb & ->); [lia|].
  pose proof (pow2_bracket_ge3 parts k ltac:(lia)) as Hk.
  eexists. split; [done|]. cbv zeta.
  destruct (next_power_of_two_spec (Z.of_nat (length parts))) as (k' & _ & -> & Hb'); [lia|].
  rewrite (pow2_bracket_inj k' k _ Hb' Hb). split; [|split; [|split]].
  - cbn [GeneratedDoubleElimination.winners_bracket de_structure GeneratedBracket.matches de_winners].
    by rewrite imap_numbers, elim_slots_length.
  - cbn [GeneratedDoubleElimination.losers_bracket de_structure GeneratedBracket.matches de_losers].
    by rewrite imap_numbers, lb_slots_length.
  - unfold all_matches, de_structure; cbn [GeneratedDoubleElimination.winners_bracket
      GeneratedDoubleElimination.losers_bracket GeneratedDoubleElimination.grand_final].
    rewrite !fmap_app, de_winners_positions, de_losers_positions.
    rewrite !NoDup_app. repeat split.
    + apply NoDup_fmap_2_strong; [|apply elim_slots_NoDup].
      intros [r i] [r' i'] Hr%elem_of_elim_slots Hr'%elem_of_elim_slots Heq.
      apply position_inj in Heq as [? ?]; simpl in *; [f_equal; lia|lia|lia].
    + intros ? (s & -> & _)%list_elem_of_fmap [(s' & [=] & _)%list_elem_of_fmap|Hf]%elem_of_app.
      by apply list_elem_of_singleton in Hf.
    + apply NoDup_fmap_2_strong; [|apply lb_slots_NoDup].
      intros [r i] [r' i'] Hr%elem_of_lb_slots Hr'%elem_of_lb_slots Heq.
      apply position_inj in Heq as [? ?]; simpl in *; [f_equal; lia|lia|lia].
    + intros ? (s & -> & _)%list_elem_of_fmap Hf. by apply list_elem_of_singleton in Hf.
    + apply NoDup_singleton.
  - apply placed_participants. lia.
Qed.
End double_elimination_theorems.

(** ** Inputs on which the structure cannot be played out *)

Section unplayable.
Context (tid : TournamentId) (sid : TournamentStageId)
  (wbid lbid gfid : TournamentBracketId).

(** With exactly two participants the losers bracket is empty, no link
  carries the loser of the only match, and the grand final waits for the winner
  of a position, LR0M1, that no match has. *)
Theorem double_elimination_two_participants parts plan :
  length parts = 2%nat →
  ∃ g gf, double_elimination tid sid wbid lbid gfid parts plan = Ok g ∧
    GeneratedBracket.matches (GeneratedDoubleElimination.losers_bracket g) = [] ∧
    drop_links (GeneratedDoubleElimination.cross_bracket_links g) = [] ∧
    GeneratedBracket.matches (GeneratedDoubleElimination.grand_final g) = [gf] ∧
    CreateTournamentMatch.participant2_source gf =
      Some (MatchParticipantSource.WinnerOf "LR0M1") ∧
    "LR0M1" ∉ CreateTournamentMatch.bracket_position <$> all_matches g.
Proof.
  intros Hn. destruct (double_elimination_ok tid sid wbid lbid gfid parts plan)
    as (k & _ & Hb & ->); [rewrite Hn; lia|].
  assert (k = 0%nat) as ->.
  { rewrite Hn in Hb. destruct k as [|k]; [done|]. pose proof (pow2_pos k).
    rewrite !pow2_S in Hb. lia. }
  eexists _, _. do 3 (split; [reflexivity|]). split; [reflexivity|]. split; [reflexivity|].
  unfold all_matches. apply not_elem_of_cons. split; [done|].
  apply not_elem_of_cons. split; [done|]. apply not_elem_of_nil.
Qed.

(** When the participants do not fill the bracket, some losers-bracket
  match waits for the loser of a first-round match that has no participants at
  all: the match of a bye. *)
Theorem double_elimination_bye_losers parts plan :
  3 ≤ Z.of_nat (length parts) ≤ 2 ^ 30 →
  Z.of_nat (length parts) ≠ next_power_of_two (Z.of_nat (length parts)) →
  ∃ g m p, double_elimination tid sid wbid lbid gfid parts plan = Ok g ∧
    let wb := GeneratedDoubleElimination.winners_bracket g in
    m ∈ GeneratedBracket.matches wb ∧
    CreateTournamentMatch.bracket_position m = p ∧
    p ∈ (loser_feeds (GeneratedBracket.matches (GeneratedDoubleElimination.losers_bracket g))).*1 ∧
    ∀ a, a ∈ GeneratedBracket.initial_assignments wb → InitialAssignment.bracket_position a ≠ p.
Proof.
  intros Hn Hsize. destruct (double_elimination_ok tid sid wbid lbid gfid parts plan)
    as (k & _ & Hb & ->); [lia|].
  pose proof (pow2_bracket_ge3 parts k ltac:(lia)) as Hk.
  destruct (next_power_of_two_spec (Z.of_nat (length parts))) as (k' & _ & Hp & Hb'); [lia|].
  rewrite Hp, (pow2_bracket_inj k' k _ Hb' Hb) in Hsize.
  (* There is a bye. *)
  assert (∃ i s bye, (i, s) ∈ first_round k ∧ bye ∈ (entry "WR" parts k (i, s)).2)
    as (i & s & bye & Hfr & Hbye).
  { pose proof (bye_participants "WR" parts k Hb) as Hbyes.
    destruct parts as [|q parts'] eqn:Eq; [simpl in Hn; lia|]. rewrite <- Eq in *.
    assert (q ∈ ByeInfo.participant <$> (first_round k ≫= λ p, (entry "WR" parts k p).2)) as Hq.
    { rewrite Hbyes, Eq. destruct (Z.to_nat (2 ^ Z.of_nat (S k)) - length (q :: parts'))%nat eqn:E.
      - rewrite <- Eq in E. lia.
      - apply elem_of_cons. by left. }
    apply list_elem_of_fmap in Hq as (bye & _ & ([i s] & ? & ?)%list_elem_of_bind). eauto. }
  pose proof (elem_of_first_round _ _ _ Hfr) as [Hi _].
  assert ((1, i) ∈ elim_slots (S k)) as Hslot.
  { apply elem_of_elim_slots. replace (Z.of_nat (S k) - 1) with (Z.of_nat k) by lia. lia. }
  apply list_elem_of_lookup_1 in Hslot as [j Hj].
  eexists _, (slot_match "WR" tid sid wbid (seeding (S k)) plan 0 (Z.of_nat j + 1) (1, i)), _.
  split; [reflexivity|]. cbv zeta. split; [|split; [reflexivity|split]].
  - apply elem_of_lookup_imap. eexists j, (1, i). split; [reflexivity|exact Hj].
  - change (GeneratedDoubleElimination.losers_bracket _) with (de_losers tid sid lbid plan k).
    rewrite de_losers_feeds, lb_slots_feeds by done.
    rewrite fmap_app, elem_of_app. left. rewrite first_drops_sources by done.
    apply list_elem_of_fmap. exists i. split; [done|]. apply elem_of_seqZ. lia.
  - intros a Ha. by eapply bye_unassigned.
Qed.
End unplayable.

(** ** Witnesses *)

Example double_elimination_drops_witness :
  ∃ g, double_elimination 1 2 3 4 5 five (uniform MatchFormat.Bo1) = Ok g ∧
    (drop_links (GeneratedDoubleElimination.cross_bracket_links g)).*1 ≡ₚ
    ["WR1M1"; "WR1M2"; "WR1M3"; "WR1M4"; "WR2M1"; "WR2M2"; "WR3M1"].
Proof.
  destruct (double_elimination_drops 1 2 3 4 5 five (uniform MatchFormat.Bo1))
    as (g & Hg & _ & Hp); [simpl; lia|].
  exists g. split; [exact Hg|]. rewrite Hp. vm_compute in Hg. injection Hg as <-. reflexivity.
Defined.

Example double_elimination_losers_tree_witness :
  ∃ g lb_last, double_elimination 1 2 3 4 5 five (uniform MatchFormat.Bo1) = Ok g ∧
    CreateTournamentMatch.bracket_position <$>
      GeneratedBracket.matches (GeneratedDoubleElimination.losers_bracket g) =
    omap winner_of (sources (GeneratedBracket.matches
      (GeneratedDoubleElimination.losers_bracket g))) ++ [lb_last].
Proof.
  destruct (double_elimination_losers_tree 1 2 3 4 5 five (uniform MatchFormat.Bo1))
    as (g & wb_last & lb_last & gf & Hg & _ & Ht & _); [simpl; lia|].
  exists g, lb_last. split; [exact Hg|exact Ht].
Defined.

Example double_elimination_counts_witness :
  ∃ g, double_elimination 1 2 3 4 5 five (uniform MatchFormat.Bo1) = Ok g ∧
    CreateTournamentMatch.match_number <$>
      GeneratedBracket.matches (GeneratedDoubleElimination.losers_bracket g) = [1; 2; 3; 4; 5; 6].
Proof.
  destruct (double_elimination_counts 1 2 3 4 5 five (uniform MatchFormat.Bo1))
    as (g & Hg & _ & Hm & _); [simpl; lia|].
  exists g. split; [exact Hg|exact Hm].
Defined.

Example double_elimination_two_participants_witness :
  ∃ g, double_elimination 1 2 3 4 5 (take 2 five) (uniform MatchFormat.Bo1) = Ok g ∧
    "LR0M1" ∉ CreateTournamentMatch.bracket_position <$> all_matches g.
Proof.
  destruct (double_elimination_two_participants 1 2 3 4 5 (take 2 five) (uniform MatchFormat.Bo1))
    as (g & gf & Hg & _ & _ & _ & _ & Hp); [reflexivity|].
  exists g. split; [exact Hg|exact Hp].
Defined.

Example double_elimination_bye_losers_witness :
  ∃ g m, double_elimination 1 2 3 4 5 five (uniform MatchFormat.Bo1) = Ok g ∧
    m ∈ GeneratedBracket.matches (GeneratedDoubleElimination.winners_bracket g).
Proof.
  destruct (double_elimination_bye_losers 1 2 3 4 5 five (uniform MatchFormat.Bo1))
    as (g & m & p & Hg & Hm & _); [simpl; lia|vm_compute; discriminate|].
  exists g, m. split; [exact Hg|exact Hm].
Defined.
