(* ===== verification/Rounds.v ===== *)
(** Brackets without elimination
    (crates/portal-domain/src/services/tournament/bracket_generator/):
    [round_robin] (round_robin.rs), the circle method, with a bye sentinel for an
    odd number of participants; [swiss_first_round] and [swiss_next_round]
    (swiss.rs), seeded first round, standings-based later rounds with bye
    handling and greedy rematch avoidance; groups and playoffs (groups.rs): the
    configuration read from a stage's settings, the snake draft into groups, the
    cross-seeded playoff field and the group labels. *)
From stdpp Require Import base list strings pretty gmap.
From S2P Require Import Prelude Errors Wire TournamentTypes FormatPlan Entities BracketModel.
From Stdlib Require Import Floats.SpecFloat Ascii.
#[local] Open Scope Z_scope.

(** The outputs and counters of the loops. *)
Module RoundState.
Record t := mk {
  matches : list CreateTournamentMatch.t;
  initial_assignments : list InitialAssignment.t;
  match_number : Z;
  round_match : Z;
}.
End RoundState.

Section round_robin.
Context (tournament_id : TournamentId) (stage_id : TournamentStageId)
  (bracket_id : TournamentBracketId).

(** The two assignments pushed for a pairing. *)
Definition pair_assignments (bracket_position : string) (p1 p2 : SeededParticipant.t)
    : list InitialAssignment.t :=
  [InitialAssignment.mk bracket_position p1 1; InitialAssignment.mk bracket_position p2 2].

(** One pass of [for i in 0..half]. *)
Definition pairing_step (participants : list SeededParticipant.t) (circle : list Z)
    (circle_size : Z) (is_odd : bool) (round : Z) (match_format : MatchFormat.t)
    (st : RoundState.t) (i : Z) : outcome RoundState.t :=
  let n := Z.of_nat (length participants) in
  let? idx_a := index circle i in
  let? idx_b := index circle (circle_size - 1 - i) in
  (* Skip if either is the BYE sentinel *)
  if is_odd && (bool_decide (idx_a = n) || bool_decide (idx_b = n)) then Ok st
  else
    let bracket_position := position "RR" round (RoundState.round_match st) in
    let? p1 := index participants idx_a in
    let? p2 := index participants idx_b in
    Ok {| RoundState.matches := RoundState.matches st ++
            [new_match tournament_id stage_id bracket_id round (RoundState.match_number st)
               bracket_position
               (Some (MatchParticipantSource.Seed (SeededParticipant.seed p1)),
                Some (MatchParticipantSource.Seed (SeededParticipant.seed p2))) match_format];
          RoundState.initial_assignments := RoundState.initial_assignments st ++
            pair_assignments bracket_position p1 p2;
          RoundState.match_number := i32_add (RoundState.match_number st) 1;
          RoundState.round_match := i32_add (RoundState.round_match st) 1 |}.

(** Fix [circle[0]], rotate the rest clockwise, in place. *)
Definition rotate (circle : list Z) (circle_size : Z) : outcome (list Z) :=
  let? last := index circle (circle_size - 1) in
  let? circle :=
    try_fold (λ circle i, let? prev := index circle (i - 1) in set_index circle i prev)
      circle (reverse (range 2 circle_size)) in
  set_index circle 1 last.

Definition round_step (participants : list SeededParticipant.t) (circle_size : Z) (is_odd : bool)
    (format_plan : MatchFormatPlan) (st : list Z * RoundState.t) (round : Z)
    : outcome (list Z * RoundState.t) :=
  let '(circle, out) := st in
  let half := circle_size / 2 in
  (* Round robin has no final; only per-round overrides apply. *)
  let match_format := format_for format_plan round 0 in
  let? out := try_fold (pairing_step participants circle circle_size is_odd round match_format)
                {| RoundState.matches := RoundState.matches out;
                   RoundState.initial_assignments := RoundState.initial_assignments out;
                   RoundState.match_number := RoundState.match_number out;
                   RoundState.round_match := 1 |}
                (range 0 half) in
  let? circle := rotate circle circle_size in
  Ok (circle, out).

Definition round_robin (participants : list SeededParticipant.t) (format_plan : MatchFormatPlan)
    : outcome GeneratedBracket.t :=
  let n := Z.of_nat (length participants) in
  if bool_decide (n < 2) then throw DomainError.InsufficientParticipants
  else
    let is_odd := negb (bool_decide (n `mod` 2 = 0)) in
    let circle_size := if is_odd then n + 1 else n in
    let total_rounds := as_i32 (circle_size - 1) in
    let? (_, out) :=
      try_fold (round_step participants circle_size is_odd format_plan)
        (range 0 circle_size,
         {| RoundState.matches := []; RoundState.initial_assignments := [];
            RoundState.match_number := 1; RoundState.round_match := 1 |})
        (range_incl 1 total_rounds) in
    Ok {| GeneratedBracket.total_rounds := total_rounds;
          GeneratedBracket.matches := RoundState.matches out;
          GeneratedBracket.initial_assignments := RoundState.initial_assignments out;
          GeneratedBracket.byes := [] |}.
End round_robin.

Module SwissParticipantStanding.
Record t := mk {
  registration_id : TournamentRegistrationId;
  participant_name : string;
  participant_logo_url : option string;
  seed : Z;
  points : Z;
  (** [f64], as an IEEE 754 value *)
  buchholz_score : spec_float;
  had_bye : bool;
}.
End SwissParticipantStanding.

(** [Ordering::then_with]. *)
Definition then_with (c d : comparison) : comparison :=
  match c with Eq => d | _ => c end.

(** The ranking: points and Buchholz descending, then seed ascending. *)
Definition swiss_cmp (a b : SwissParticipantStanding.t) : comparison :=
  then_with
    (SwissParticipantStanding.points b ?= SwissParticipantStanding.points a)
    (then_with
       (default Eq (SFcompare (SwissParticipantStanding.buchholz_score b)
                              (SwissParticipantStanding.buchholz_score a)))
       (SwissParticipantStanding.seed a ?= SwissParticipantStanding.seed b)).

Definition swiss_leb (a b : SwissParticipantStanding.t) : bool :=
  match swiss_cmp a b with Gt => false | _ => true end.

Section swiss.
Context (tournament_id : TournamentId) (stage_id : TournamentStageId)
  (bracket_id : TournamentBracketId).

(** The match and the assignments pushed for a pairing of a round. *)
Definition push_swiss (round : Z) (match_format : MatchFormat.t)
    (st : list CreateTournamentMatch.t * list InitialAssignment.t * Z)
    (p1 p2 : SeededParticipant.t)
    : list CreateTournamentMatch.t * list InitialAssignment.t * Z :=
  let '(matches, initial_assignments, match_number) := st in
  let bracket_position := position "SW" round match_number in
  (matches ++
     [new_match tournament_id stage_id bracket_id round match_number bracket_position
        (Some (MatchParticipantSource.Seed (SeededParticipant.seed p1)),
         Some (MatchParticipantSource.Seed (SeededParticipant.seed p2))) match_format],
   initial_assignments ++ pair_assignments bracket_position p1 p2,
   i32_add match_number 1).

Definition swiss_initial_round (participants : list SeededParticipant.t)
    (format_plan : MatchFormatPlan)
    : outcome (GeneratedBracket.t * option TournamentRegistrationId) :=
  let match_format := format_for format_plan 1 0 in
  let n := Z.of_nat (length participants) in
  if bool_decide (n < 2) then throw DomainError.InsufficientParticipants
  else
    let is_odd := negb (bool_decide (n `mod` 2 = 0)) in
    let? bye_participant :=
      (if is_odd then
        let? p := index participants (n - 1) in Ok (Some (SeededParticipant.registration_id p))
      else Ok None) in
    let half := n / 2 in
    let? (matches, initial_assignments, _) :=
      try_fold
        (λ st i,
          let? p1 := index participants i in
          let? p2 := index participants (i + half) in
          Ok (push_swiss 1 match_format st p1 p2))
        ([], [], 1) (range 0 half) in
    Ok ({| GeneratedBracket.total_rounds := 1;
           GeneratedBracket.matches := matches;
           GeneratedBracket.initial_assignments := initial_assignments;
           GeneratedBracket.byes := [] |}, bye_participant).

(** ** The next round *)

(** The scan from the last rank upwards for somebody without a bye. *)
Fixpoint find_bye (sorted : list SwissParticipantStanding.t) (order : list Z) : outcome (option Z) :=
  match order with
  | [] => Ok None
  | i :: order =>
      let? s := index sorted i in
      if SwissParticipantStanding.had_bye s then find_bye sorted order else Ok (Some i)
  end.

(** [Vec::remove]. *)
Definition remove_index {A} (l : list A) (i : Z) : list A := delete (Z.to_nat i) l.

Definition take_bye (sorted : list SwissParticipantStanding.t)
    : outcome (option TournamentRegistrationId * list SwissParticipantStanding.t) :=
  let len := Z.of_nat (length sorted) in
  if bool_decide (len `mod` 2 = 0) then Ok (None, sorted)
  else
    let? found := find_bye sorted (reverse (range 0 len)) in
    (* If everyone has had a bye, give it to the lowest-ranked *)
    let i := default (len - 1) found in
    let? s := index sorted i in
    Ok (Some (SwissParticipantStanding.registration_id s), remove_index sorted i).

(** [pairing_set]: both orders of every completed pairing. *)
Definition pairing_set
    (completed_pairings : list (TournamentRegistrationId * TournamentRegistrationId))
    : gset (N * N) :=
  foldr (λ '(a, b) acc, {[(a, b)]} ∪ ({[(b, a)]} ∪ acc)) ∅ completed_pairings.

Definition is_rematch (met : gset (N * N)) (p q : SwissParticipantStanding.t) : bool :=
  bool_decide ((SwissParticipantStanding.registration_id p,
                SwissParticipantStanding.registration_id q) ∈ met).

(** The inner loop over [j], left at the first fresh unpaired opponent. *)
Fixpoint pair_with (met : gset (N * N)) (sorted : list SwissParticipantStanding.t) (i : Z)
    (js : list Z) (paired : list bool) (pairings : list (Z * Z))
    : outcome (list bool * list (Z * Z)) :=
  match js with
  | [] => Ok (paired, pairings)
  | j :: js =>
      let? paired_j := index paired j in
      if (paired_j : bool) then pair_with met sorted i js paired pairings
      else
        let? si := index sorted i in
        let? sj := index sorted j in
        if is_rematch met si sj then pair_with met sorted i js paired pairings
        else
          let? paired := set_index paired i true in
          let? paired := set_index paired j true in
          Ok (paired, pairings ++ [(i, j)])
  end.

Definition greedy_step (met : gset (N * N)) (sorted : list SwissParticipantStanding.t)
    (st : list bool * list (Z * Z)) (i : Z) : outcome (list bool * list (Z * Z)) :=
  let '(paired, pairings) := st in
  let? paired_i := index paired i in
  if (paired_i : bool) then Ok (paired, pairings)
  else pair_with met sorted i (range (i + 1) (Z.of_nat (length sorted))) paired pairings.

(** Leftovers are paired in rank order; an odd one is dropped. *)
Definition pair_leftovers (unpaired : list Z) : list (Z * Z) :=
  omap (λ chunk, match chunk with [a; b] => Some (a, b) | _ => None end) (chunks2 unpaired).

Definition swiss_pairings (met : gset (N * N)) (sorted : list SwissParticipantStanding.t)
    : outcome (list (Z * Z)) :=
  let len := Z.of_nat (length sorted) in
  let? (paired, pairings) :=
    try_fold (greedy_step met sorted) (replicate (length sorted) false, []) (range 0 len) in
  let unpaired := filter (λ i, default true (paired !! Z.to_nat i) = false) (range 0 len) in
  Ok (pairings ++ pair_leftovers unpaired).

Definition seeded_of_standing (s : SwissParticipantStanding.t) : SeededParticipant.t := {|
  SeededParticipant.registration_id := SwissParticipantStanding.registration_id s;
  SeededParticipant.seed := SwissParticipantStanding.seed s;
  SeededParticipant.participant_name := SwissParticipantStanding.participant_name s;
  SeededParticipant.participant_logo_url := SwissParticipantStanding.participant_logo_url s |}.

Definition swiss_next_round (round_number : Z) (standings : list SwissParticipantStanding.t)
    (completed_pairings : list (TournamentRegistrationId * TournamentRegistrationId))
    (format_plan : MatchFormatPlan)
    : outcome (GeneratedBracket.t * option TournamentRegistrationId) :=
  let match_format := format_for format_plan round_number 0 in
  if bool_decide (Z.of_nat (length standings) < 2) then throw DomainError.InsufficientParticipants
  else
    let sorted := stable_sort swiss_leb standings in
    let met := pairing_set completed_pairings in
    let? (bye_participant, sorted) := take_bye sorted in
    let? pairings := swiss_pairings met sorted in
    let? (matches, initial_assignments, _) :=
      try_fold
        (λ st '(i, j),
          let? p1 := index sorted i in
          let? p2 := index sorted j in
          Ok (push_swiss round_number match_format st (seeded_of_standing p1) (seeded_of_standing p2)))
        ([], [], 1) pairings in
    Ok ({| GeneratedBracket.total_rounds := round_number;
           GeneratedBracket.matches := matches;
           GeneratedBracket.initial_assignments := initial_assignments;
           GeneratedBracket.byes := [] |}, bye_participant).
End swiss.

Module GroupStageFormat.
Inductive t := RoundRobin | Swiss.
#[global] Instance eq_dec : EqDecision t.
Proof. solve_decision. Defined.
End GroupStageFormat.

Module PlayoffFormat.
Inductive t := SingleElimination | DoubleElimination.
#[global] Instance eq_dec : EqDecision t.
Proof. solve_decision. Defined.
End PlayoffFormat.

Module GroupsConfig.
Record t := mk {
  group_count : Z;
  advance_per_group : Z;
  group_format : GroupStageFormat.t;
  playoff_format : PlayoffFormat.t;
  group_match_format : option MatchFormat.t;
  playoff_match_format : option MatchFormat.t;
  playoff_final_format : option MatchFormat.t;
  playoff_grand_final_format : option MatchFormat.t;
}.

Section json.
Context `{JsonValue V}.

(** [Value::get] with a string key: [None] unless an object. *)
Definition get (settings : V) (key : string) : option V :=
  json_object settings ≫= λ obj, obj_get obj key.

Definition parse_format (settings : V) (key : string) : outcome (option MatchFormat.t) :=
  match get settings key with
  | None => Ok None
  | Some v =>
      if json_null v then Ok None
      else
        let? s := ok_or (json_str v) (Error (DomainError.InvalidState (key +:+ " must be a string"))) in
        let? f := result_map_err (λ e, Error (DomainError.InvalidState (key +:+ ": " +:+ e)))
                    (MatchFormat.from_str s) in
        Ok (Some f)
  end.

Definition from_format_settings (settings : V) (participant_count : Z) : outcome t :=
  let group_count :=
    default ((participant_count / 4) `max` 2) (get settings "group_count" ≫= json_u64) in
  let advance_per_group := default 2 (get settings "advance_per_group" ≫= json_u64) in
  let group_format :=
    match get settings "group_format" ≫= json_str with
    | Some "swiss" => GroupStageFormat.Swiss
    | _ => GroupStageFormat.RoundRobin
    end%string in
  let playoff_format :=
    match get settings "playoff_format" ≫= json_str with
    | Some "double_elimination" => PlayoffFormat.DoubleElimination
    | _ => PlayoffFormat.SingleElimination
    end%string in
  if bool_decide (group_count < 2) then
    throw (DomainError.InvalidState "Groups + Playoffs requires at least 2 groups")
  else if bool_decide (advance_per_group = 0) then
    throw (DomainError.InvalidState "advance_per_group must be at least 1")
  else
    (* usize multiplication wraps in the release profile *)
    let total_advancing := (group_count * advance_per_group) `mod` 2 ^ 64 in
    if bool_decide (total_advancing < 2) then
      throw (DomainError.InvalidState "Total advancing participants must be at least 2")
    else
      let? group_match_format := parse_format settings "group_match_format" in
      let? playoff_match_format := parse_format settings "playoff_match_format" in
      let? playoff_final_format := parse_format settings "playoff_final_format" in
      let? playoff_grand_final_format := parse_format settings "playoff_grand_final_format" in
      Ok {| group_count := group_count; advance_per_group := advance_per_group;
            group_format := group_format; playoff_format := playoff_format;
            group_match_format := group_match_format;
            playoff_match_format := playoff_match_format;
            playoff_final_format := playoff_final_format;
            playoff_grand_final_format := playoff_grand_final_format |}.

Definition playoff_stage_settings (self : t) : V :=
  json_of_object
    (option_list ((λ f, ("final_format", json_of_string (MatchFormat.fmt f)))
                  <$> playoff_final_format self)
     ++ option_list ((λ f, ("grand_final_format", json_of_string (MatchFormat.fmt f)))
                  <$> playoff_grand_final_format self)).
End json.

Definition group_format_plan (self : t) (tournament_default : MatchFormat.t) : MatchFormatPlan :=
  uniform (default tournament_default (group_match_format self)).

Definition playoff_format_plan (self : t) (tournament_default : MatchFormat.t) : MatchFormatPlan :=
  {| plan_default := default tournament_default (playoff_match_format self);
     round_formats := ∅;
     final_format := playoff_final_format self;
     FormatPlan.grand_final_format := playoff_grand_final_format self |}.
End GroupsConfig.

(** ** Snake draft *)

(** The group of the participant at index [i]. *)
Definition group_idx (group_count i : Z) : Z :=
  let row := i / group_count in
  let col := i `mod` group_count in
  if bool_decide (row `mod` 2 = 0) then col else group_count - 1 - col.

(** [groups[group_idx].push(participant)]. *)
Definition push_into {A} (groups : list (list A)) (g : Z) (x : A) : outcome (list (list A)) :=
  let? group := index groups g in set_index groups g (group ++ [x]).

Definition distribute_into_groups (participants : list SeededParticipant.t) (group_count : Z)
    : outcome (list (list SeededParticipant.t)) :=
  let n := Z.of_nat (length participants) in
  if bool_decide (n < 2) then throw DomainError.InsufficientParticipants
  else if bool_decide (group_count < 2) then
    throw (DomainError.InvalidState "Need at least 2 groups")
  else if bool_decide (group_count > n) then
    throw (DomainError.InvalidState ("Cannot create " +:+ pretty group_count +:+ " groups from "
             +:+ pretty n +:+ " participants"))
  else
    try_fold (λ groups '(i, participant), push_into groups (group_idx group_count i) participant)
      (replicate (Z.to_nat group_count) []) (enumerate participants).

(** ** Playoff seeding *)

Definition cross_seed_for_playoffs (group_standings : list (list SeededParticipant.t))
    (advance_per_group : Z) : list SeededParticipant.t :=
  renumber_seeds
    (range 0 advance_per_group ≫= λ position,
      omap (λ group : list SeededParticipant.t, group !! Z.to_nat position) group_standings).

(** ** Labels *)

(** [(b'A' + d as u8) as char], for [d < 26]. *)
Definition letter (d : Z) : ascii := ascii_of_N (Z.to_N (65 + d)).

(** The recursion divides by 26; 14 letters exceed every [usize]. *)
Fixpoint group_label_fuel (fuel : nat) (index : Z) : string :=
  if bool_decide (index < 26) then String (letter index) ""
  else match fuel with
       | O => ""
       | S fuel => group_label_fuel fuel (index / 26 - 1) +:+ String (letter (index `mod` 26)) ""
       end.

Definition group_label (index : Z) : string := group_label_fuel 14 index.
