(* ===== verification/RoundRobinProps.v ===== *)
(** What the circle method promises: everyone meets everyone exactly once, and
    nobody plays twice in a round. *)
From stdpp Require Import base list strings pretty.
From S2P Require Import Prelude Errors Wire TournamentTypes FormatPlan Entities.
From S2P Require Import BracketModel EliminationFacts SingleEliminationProps DoubleEliminationProps.
From S2P Require Import Rounds.
#[local] Open Scope Z_scope.

(** ** Rotation *)

(** The in-place shift moves every element of [2..c] up by one. *)
Lemma shift_lookup n (l : list Z) :
  (2 + n ≤ length l)%nat →
  ∃ l', try_fold (E := fault DomainError.t)
      (λ circle i, let? prev := index circle (i - 1) in set_index circle i prev)
      l (reverse (seqZ 2 (Z.of_nat n))) = Ok l' ∧ length l' = length l ∧
    ∀ k, l' !! k = if bool_decide (2 ≤ k < 2 + n)%nat then l !! (k - 1)%nat else l !! k.
Proof.
  revert l. induction n as [|n IH]; intros l Hl.
  { exists l. split; [done|]. split; [done|]. intros k. by rewrite bool_decide_false by lia. }
  replace (Z.of_nat (S n)) with (Z.of_nat n + 1) by lia.
  rewrite seqZ_app, reverse_app, try_fold_app by lia.
  rewrite (seqZ_cons (2 + Z.of_nat n)), seqZ_nil, reverse_singleton by lia. cbn [try_fold].
  destruct (lookup_lt_is_Some_2 l (S n)) as [x Hx]; [lia|].
  rewrite (index_ok _ _ x) by (lia || rewrite <- Hx; f_equal; lia). cbn [result_bind].
  unfold set_index at 1. rewrite bool_decide_true by lia. cbn [result_bind].
  destruct (IH (<[Z.to_nat (2 + Z.of_nat n) := x]> l)) as (l' & Hl' & Hlen & Hk);
    [rewrite length_insert; lia|].
  exists l'. split; [exact Hl'|]. rewrite length_insert in Hlen. split; [done|].
  intros k. rewrite Hk. replace (Z.to_nat (2 + Z.of_nat n)) with (S (S n)) by lia.
  destruct (decide (k = S (S n))) as [->|Hne].
  - rewrite bool_decide_false by lia. rewrite bool_decide_true by lia.
    rewrite list_lookup_insert_eq by lia. by rewrite <- Hx.
  - case_bool_decide as H1.
    + rewrite bool_decide_true by lia. apply list_lookup_insert_ne. lia.
    + rewrite bool_decide_false by lia. by apply list_lookup_insert_ne.
Qed.

Section circle.
(** [c] places on the circle, [c - 1] of them rotating. *)
Context (c : Z) (Hc : 2 ≤ c).
#[local] Abbreviation m := (c - 1).

(** Who sits where in round [r] (0-based). *)
Definition seat (r i : Z) : Z := if bool_decide (i = 0) then 0 else 1 + (i - 1 - r) `mod` m.
Definition circle_at (r : Z) : list Z := seat r <$> seqZ 0 c.

Lemma circle_at_lookup r i : 0 ≤ i < c → circle_at r !! Z.to_nat i = Some (seat r i).
Proof.
  intros Hi. unfold circle_at. rewrite list_lookup_fmap.
  rewrite (proj2 (lookup_seqZ 0 c (Z.to_nat i) i)); [done|lia].
Qed.

Lemma circle_at_length r : length (circle_at r) = Z.to_nat c.
Proof. unfold circle_at. by rewrite length_fmap, length_seqZ. Qed.

Lemma circle_at_0 : circle_at 0 = range 0 c.
Proof.
  unfold circle_at, range. rewrite Z.sub_0_r. rewrite <- (list_fmap_id (seqZ 0 c)) at 2.
  apply list_fmap_ext. intros k i Hi%list_elem_of_lookup_2. rewrite elem_of_seqZ in Hi.
  unfold seat. case_bool_decide; [done|]. simpl. rewrite Z.mod_small by lia. lia.
Qed.

Lemma seat_range r i : 0 ≤ i < c → 0 ≤ seat r i < c.
Proof.
  intros Hi. unfold seat. case_bool_decide; [lia|].
  pose proof (Z.mod_pos_bound (i - 1 - r) m ltac:(lia)). lia.
Qed.

Lemma rotate_circle r : rotate (circle_at r) c = Ok (circle_at (r + 1)).
Proof.
  unfold rotate.
  rewrite (index_ok _ _ (seat r (c - 1))) by (lia || apply circle_at_lookup; lia).
  cbn [result_bind]. unfold range. replace (c - 2) with (Z.of_nat (Z.to_nat (c - 2))) by lia.
  destruct (shift_lookup (Z.to_nat (c - 2)) (circle_at r)) as (l' & -> & Hlen & Hk);
    [rewrite circle_at_length; lia|].
  cbn [result_bind]. rewrite circle_at_length in Hlen.
  unfold set_index. rewrite bool_decide_true by lia. f_equal.
  apply list_eq. intros k. destruct (decide (k < Z.to_nat c)%nat) as [Hlt|Hge].
  2: { rewrite !lookup_ge_None_2; [done|rewrite circle_at_length; lia|rewrite length_insert; lia]. }
  replace k with (Z.to_nat (Z.of_nat k)) at 2 by lia. rewrite circle_at_lookup by lia.
  destruct (decide (k = 1%nat)) as [->|Hne].
  { rewrite list_lookup_insert_eq by lia. f_equal. unfold seat.
    destruct (decide (c - 1 = 0)) as [E|E]; [lia|]. rewrite !bool_decide_false by lia.
    replace (c - 1 - 1 - r) with (Z.of_nat 1 - 1 - (r + 1) + 1 * m) by lia. by rewrite Z.mod_add by lia. }
  rewrite list_lookup_insert_ne by lia. rewrite Hk.
  case_bool_decide as Hb.
  - replace (k - 1)%nat with (Z.to_nat (Z.of_nat k - 1)) by lia.
    rewrite circle_at_lookup by lia. f_equal. unfold seat. rewrite !bool_decide_false by lia.
    do 2 f_equal. lia.
  - assert (k = 0%nat) as -> by lia. change 0%nat with (Z.to_nat 0).
    by rewrite circle_at_lookup by lia.
Qed.

Lemma seat_cases r i :
  0 ≤ i < c → 0 ≤ r < m →
  seat r i = if bool_decide (i = 0) then 0 else if bool_decide (r < i) then i - r else i - r + m.
Proof.
  intros Hi Hr. unfold seat. repeat case_bool_decide; try lia.
  - rewrite Z.mod_small; lia.
  - replace (i - 1 - r) with (i - 1 - r + m + (-1) * m) by lia.
    rewrite Z.mod_add, Z.mod_small; lia.
Qed.

(** The pairings of round [r], as seats. *)
Definition pairing (r i : Z) : Z * Z := (seat r i, seat r (c - 1 - i)).
Definition round_pairings (r : Z) : list (Z * Z) := pairing r <$> seqZ 0 (c / 2).
Definition all_pairings : list (Z * Z) := seqZ 0 m ≫= round_pairings.
End circle.

(** An unordered pair, smaller index first. *)
Definition unordered (p : Z * Z) : Z * Z := (Z.min p.1 p.2, Z.max p.1 p.2).

(** All pairs [i < j < n]. *)
Definition all_pairs (n : Z) : list (Z * Z) := seqZ 0 n ≫= λ j, (λ i, (i, j)) <$> seqZ 0 j.

Lemma elem_of_all_pairs n i j : (i, j) ∈ all_pairs n ↔ 0 ≤ i < j ∧ j < n.
Proof.
  unfold all_pairs. rewrite list_elem_of_bind. split.
  - intros (j' & (i' & [= -> ->] & Hi)%list_elem_of_fmap & Hj). rewrite elem_of_seqZ in *. lia.
  - intros H. exists j. rewrite list_elem_of_fmap, elem_of_seqZ. split; [|lia].
    exists i. rewrite elem_of_seqZ. split; [done|lia].
Qed.

Lemma all_pairs_NoDup n : NoDup (all_pairs n).
Proof.
  unfold all_pairs. apply NoDup_bind; [|intros j _; apply NoDup_fmap_2; [by intros ?? [=]|apply NoDup_seqZ]|apply NoDup_seqZ].
  intros j1 j2 [i j] _ _ (? & [= -> ->] & _)%list_elem_of_fmap (? & [= -> ->] & _)%list_elem_of_fmap.
  done.
Qed.

Lemma all_pairs_S n : 0 ≤ n → all_pairs (n + 1) = all_pairs n ++ ((λ i, (i, n)) <$> seqZ 0 n).
Proof.
  intros Hn. unfold all_pairs. rewrite seqZ_app, bind_app, Z.add_0_l by lia.
  change (seqZ n 1) with [n]. by rewrite bind_cons, app_nil_r.
Qed.

Lemma all_pairs_length n : 2 * Z.of_nat (length (all_pairs (Z.of_nat n))) = Z.of_nat n * (Z.of_nat n - 1).
Proof.
  induction n as [|n IH]; [done|]. replace (Z.of_nat (S n)) with (Z.of_nat n + 1) by lia.
  rewrite all_pairs_S, length_app, length_fmap, length_seqZ by lia. nia.
Qed.

(** The bye sentinel removed, all pairs of [n + 1] seats are all pairs of [n]. *)
Lemma all_pairs_without_last n :
  0 ≤ n → filter (λ p, p.2 < n) (all_pairs (n + 1)) = all_pairs n.
Proof.
  intros Hn. rewrite all_pairs_S, filter_app by done.
  rewrite filter_all by (intros [i j] ?%elem_of_all_pairs; simpl; lia).
  rewrite filter_none, app_nil_r; [done|].
  intros p (i & -> & _)%list_elem_of_fmap. simpl. lia.
Qed.

Section even_circle.
Context (h : Z) (Hh : 1 ≤ h).
#[local] Abbreviation c := (2 * h).

Lemma pairing_inj r i r' i' :
  0 ≤ r < c - 1 → 0 ≤ r' < c - 1 → 0 ≤ i < h → 0 ≤ i' < h →
  unordered (pairing c r i) = unordered (pairing c r' i') → r = r' ∧ i = i'.
Proof.
  intros Hr Hr' Hi Hi'. unfold unordered, pairing. cbn [fst snd].
  rewrite !seat_cases by lia. rewrite pair_equal_spec. repeat case_bool_decide; lia.
Qed.

Lemma pairing_range r i :
  0 ≤ r < c - 1 → 0 ≤ i < h → unordered (pairing c r i) ∈ all_pairs c.
Proof.
  intros Hr Hi. unfold unordered, pairing. cbn [fst snd]. apply elem_of_all_pairs.
  rewrite !seat_cases by lia. repeat case_bool_decide; lia.
Qed.

Lemma all_pairings_slots :
  all_pairings c = (λ p, pairing c p.1 p.2) <$> (seqZ 0 (c - 1) ≫= λ r, pair r <$> seqZ 0 h).
Proof.
  unfold all_pairings, round_pairings. rewrite Z.mul_comm, Z.div_mul, fmap_bind by lia.
  apply bind_ext_in. intros r _. by rewrite <- list_fmap_compose.
Qed.

Lemma elem_of_grid (a b : Z) p :
  p ∈ (seqZ 0 a ≫= λ r, pair r <$> seqZ 0 b) ↔ 0 ≤ p.1 < a ∧ 0 ≤ p.2 < b.
Proof.
  rewrite list_elem_of_bind. split.
  - intros (r & (i & -> & Hi)%list_elem_of_fmap & Hr). rewrite elem_of_seqZ in *. simpl. lia.
  - intros H. destruct p as [r i]. exists r. rewrite list_elem_of_fmap, elem_of_seqZ.
    split; [exists i; rewrite elem_of_seqZ; simpl in *; split; [done|lia]|simpl in *; lia].
Qed.

(** Over all rounds every unordered pair of seats meets exactly once. *)
Lemma all_pairings_perm : unordered <$> all_pairings c ≡ₚ all_pairs c.
Proof.
  rewrite all_pairings_slots, <- list_fmap_compose.
  set (grid := seqZ 0 (c - 1) ≫= λ r, pair r <$> seqZ 0 h).
  assert (NoDup grid) as Hg.
  { apply NoDup_bind; [|intros r _; apply NoDup_fmap_2; [by intros ?? [=]|apply NoDup_seqZ]|apply NoDup_seqZ].
    intros r1 r2 [r i] _ _ (? & [= -> ->] & _)%list_elem_of_fmap (? & [= -> ->] & _)%list_elem_of_fmap.
    done. }
  apply submseteq_length_Permutation.
  - apply NoDup_submseteq.
    + apply NoDup_fmap_2_strong; [|done].
      intros [r i] [r' i'] Hp%elem_of_grid Hp'%elem_of_grid Heq. simpl in *.
      apply pairing_inj in Heq as [-> ->]; [done|lia..].
    + intros ? (p & -> & Hp%elem_of_grid)%list_elem_of_fmap. apply pairing_range; lia.
  - rewrite length_fmap. apply Nat2Z.inj_le.
    pose proof (all_pairs_length (Z.to_nat c)) as Hl. rewrite Z2Nat.id in Hl by lia.
    assert (∀ (l : list Z), Z.of_nat (length (l ≫= λ r, pair r <$> seqZ 0 h))
      = Z.of_nat (length l) * h) as Hgl.
    { intros l. induction l as [|x l IH]; [done|].
      rewrite bind_cons, length_app, length_fmap, length_seqZ. simpl length. nia. }
    unfold grid. rewrite Hgl, length_seqZ. nia.
Qed.

(** Within a round nobody is paired twice. *)
Lemma round_pairings_NoDup r :
  0 ≤ r < c - 1 → NoDup (round_pairings c r ≫= λ p, [p.1; p.2]).
Proof.
  intros Hr. unfold round_pairings. rewrite Z.mul_comm, Z.div_mul, (Z.mul_comm h) by lia.
  rewrite bind_fmap, bind_pair_perm. apply NoDup_app. split; [|split].
  - apply NoDup_fmap_2_strong; [|apply NoDup_seqZ]. intros i i'.
    rewrite !elem_of_seqZ. intros Hi Hi'. unfold pairing. cbn [fst].
    rewrite !seat_cases by lia. repeat case_bool_decide; lia.
  - intros x (i & -> & Hi)%list_elem_of_fmap (i' & Heq & Hi')%list_elem_of_fmap.
    rewrite !elem_of_seqZ in *. unfold pairing in Heq. cbn [fst snd] in Heq.
    rewrite !seat_cases in Heq by lia. repeat case_bool_decide; lia.
  - apply NoDup_fmap_2_strong; [|apply NoDup_seqZ]. intros i i'.
    rewrite !elem_of_seqZ. intros Hi Hi'. unfold pairing. cbn [snd].
    rewrite !seat_cases by lia. repeat case_bool_decide; lia.
Qed.
End even_circle.

(** ** The loops in closed form *)

Section loops.
Context (tid : TournamentId) (sid : TournamentStageId) (bid : TournamentBracketId)
  (parts : list SeededParticipant.t) (plan : MatchFormatPlan).
#[local] Abbreviation n := (Z.of_nat (length parts)).

Definition circle_size : Z := if negb (bool_decide (n `mod` 2 = 0)) then n + 1 else n.

(** (round, number within the round, seats) of a played match. *)
#[local] Abbreviation rr_entry := (Z * Z * (Z * Z))%type (only parsing).

Definition kept (r : Z) : list (Z * Z) :=
  filter (λ p, p.1 < n ∧ p.2 < n) (round_pairings circle_size r).
Definition number_round (r : Z) (ps : list (Z * Z)) : list rr_entry :=
  imap (λ k p, (r, Z.of_nat k + 1, p)) ps.
(** What has been played before round [r] (1-based). *)
Definition entries (r : Z) : list rr_entry := seqZ 1 (r - 1) ≫= λ r, number_round r (kept (r - 1)).

Definition player (i : Z) : SeededParticipant.t :=
  default (SeededParticipant.mk 0 0 "" None) (parts !! Z.to_nat i).
Definition entry_position (e : rr_entry) : string := position "RR" e.1.1 e.1.2.
Definition entry_match (number : nat) (e : rr_entry) : CreateTournamentMatch.t :=
  new_match tid sid bid e.1.1 (Z.of_nat number + 1) (entry_position e)
    (Some (MatchParticipantSource.Seed (SeededParticipant.seed (player e.2.1))),
     Some (MatchParticipantSource.Seed (SeededParticipant.seed (player e.2.2))))
    (format_for plan e.1.1 0).
Definition entry_assignments (e : rr_entry) : list InitialAssignment.t :=
  pair_assignments (entry_position e) (player e.2.1) (player e.2.2).

Definition out_of (es : list rr_entry) (round_match : Z) : RoundState.t := {|
  RoundState.matches := imap entry_match es;
  RoundState.initial_assignments := es ≫= entry_assignments;
  RoundState.match_number := Z.of_nat (length es) + 1;
  RoundState.round_match := round_match |}.

Lemma number_round_snoc r ps p :
  number_round r (ps ++ [p]) = number_round r ps ++ [(r, Z.of_nat (length ps) + 1, p)].
Proof. unfold number_round. rewrite imap_app. simpl. by rewrite Nat.add_0_r. Qed.

Lemma out_of_snoc es r k p :
  Z.of_nat (length es) + 1 < i32_max → 0 ≤ k < i32_max →
  out_of (es ++ [(r, k, p)]) (k + 1) =
  {| RoundState.matches := RoundState.matches (out_of es k) ++
       [new_match tid sid bid r (Z.of_nat (length es) + 1) (position "RR" r k)
          (Some (MatchParticipantSource.Seed (SeededParticipant.seed (player p.1))),
           Some (MatchParticipantSource.Seed (SeededParticipant.seed (player p.2))))
          (format_for plan r 0)];
     RoundState.initial_assignments := RoundState.initial_assignments (out_of es k) ++
       pair_assignments (position "RR" r k) (player p.1) (player p.2);
     RoundState.match_number := i32_add (RoundState.match_number (out_of es k)) 1;
     RoundState.round_match := i32_add k 1 |}.
Proof.
  intros Hes Hk. unfold out_of, RoundState.matches, RoundState.initial_assignments,
    RoundState.match_number.
  rewrite imap_app, bind_app, bind_cons, length_app, app_nil_r.
  rewrite !i32_add_id by (unfold in_i32, i32_min, i32_max in *; lia).
  f_equal; [|simpl length; lia]. f_equal. simpl. unfold entry_match. by rewrite Nat.add_0_r.
Qed.

Lemma index_player i :
  0 ≤ i < n → index (E := DomainError.t) parts i = Ok (player i).
Proof.
  intros Hi. destruct (lookup_lt_is_Some_2 parts (Z.to_nat i)) as [p Hp]; [lia|].
  unfold player. rewrite Hp. by apply index_ok; [lia|].
Qed.

Lemma circle_size_even : 2 ≤ n → ∃ h, 1 ≤ h ∧ circle_size = 2 * h ∧ n ≤ circle_size ≤ n + 1.
Proof.
  intros Hn. unfold circle_size. pose proof (Z.div_mod n 2 ltac:(lia)) as Hd.
  pose proof (Z.mod_pos_bound n 2 ltac:(lia)).
  case_bool_decide; simpl.
  - exists (n / 2). lia.
  - exists (n / 2 + 1). lia.
Qed.

Lemma pairing_step_ok r es ps i :
  2 ≤ n → 0 ≤ i < circle_size / 2 → 0 ≤ r - 1 →
  Z.of_nat (length es + length ps) + 1 < i32_max →
  let st ps := out_of (es ++ number_round r ps) (Z.of_nat (length ps) + 1) in
  pairing_step tid sid bid parts (circle_at circle_size (r - 1)) circle_size
    (negb (bool_decide (n `mod` 2 = 0))) r (format_for plan r 0) (st ps) i =
  Ok (st (ps ++ filter (λ p, p.1 < n ∧ p.2 < n) [pairing circle_size (r - 1) i])).
Proof.
  intros Hn Hi Hr Hlen st. destruct (circle_size_even Hn) as (h & Hh & Hc & Hcn).
  assert (circle_size / 2 = h) as Hhalf by (rewrite Hc, Z.mul_comm; by apply Z.div_mul).
  unfold pairing_step.
  rewrite (index_ok _ _ (seat circle_size (r - 1) i)) by (lia || apply circle_at_lookup; lia).
  cbn [result_bind].
  rewrite (index_ok _ _ (seat circle_size (r - 1) (circle_size - 1 - i)))
    by (lia || apply circle_at_lookup; lia).
  cbn [result_bind].
  pose proof (seat_range circle_size ltac:(lia) (r - 1) i ltac:(lia)) as Ha.
  pose proof (seat_range circle_size ltac:(lia) (r - 1) (circle_size - 1 - i) ltac:(lia)) as Hb.
  change (pairing circle_size (r - 1) i) with
    (seat circle_size (r - 1) i, seat circle_size (r - 1) (circle_size - 1 - i)).
  set (a := seat circle_size (r - 1) i) in *.
  set (b := seat circle_size (r - 1) (circle_size - 1 - i)) in *.
  assert (negb (bool_decide (n `mod` 2 = 0)) && (bool_decide (a = n) || bool_decide (b = n))
    = negb (bool_decide (a < n ∧ b < n))) as ->.
  { revert Ha Hb. unfold circle_size. case_bool_decide; simpl; intros Ha Hb;
      repeat case_bool_decide; simpl; (done || lia). }
  rewrite filter_cons, filter_nil. cbn [fst snd]. case_bool_decide as Hkeep; simpl negb; cbn iota.
  - rewrite decide_True by done. rewrite !index_player by lia. cbn [result_bind].
    unfold st.
    replace (Z.of_nat (length (ps ++ [(a, b)])) + 1) with (Z.of_nat (length ps) + 1 + 1)
      by (rewrite length_app; simpl; lia).
    rewrite number_round_snoc, (assoc_L (++)), out_of_snoc; [done| |lia].
    rewrite length_app. unfold number_round. rewrite length_imap. lia.
  - rewrite decide_False by done. by rewrite app_nil_r.
Qed.

Lemma entries_snoc r : 1 ≤ r → entries (r + 1) = entries r ++ number_round r (kept (r - 1)).
Proof.
  intros Hr. unfold entries. replace (r + 1 - 1) with (r - 1 + 1) by lia.
  rewrite seqZ_app, bind_app by lia. replace (1 + (r - 1)) with r by lia.
  change (seqZ r 1) with [r]. by rewrite bind_cons, app_nil_r.
Qed.

Lemma kept_prefix_length r i :
  0 ≤ i → Z.of_nat (length (filter (λ p, p.1 < n ∧ p.2 < n) (pairing circle_size r <$> seqZ 0 i))) ≤ i.
Proof.
  intros Hi. etrans; [apply inj_le, length_filter|]. rewrite length_fmap, length_seqZ. lia.
Qed.

Lemma entries_length (k : nat) :
  2 ≤ n → Z.of_nat (length (entries (1 + Z.of_nat k))) ≤ Z.of_nat k * (circle_size / 2).
Proof.
  intros Hn. destruct (circle_size_even Hn) as (h & Hh & Hc & _).
  induction k as [|k IH]; [done|].
  replace (1 + Z.of_nat (S k)) with (1 + Z.of_nat k + 1) by lia.
  rewrite entries_snoc, length_app by lia. unfold number_round. rewrite length_imap.
  pose proof (kept_prefix_length (1 + Z.of_nat k - 1) (circle_size / 2)
    ltac:(apply Z.div_pos; lia)) as Hl.
  fold (round_pairings circle_size (1 + Z.of_nat k - 1)) in Hl.
  fold (kept (1 + Z.of_nat k - 1)) in Hl. lia.
Qed.

(** The bound below which the i32 match numbers do not wrap. *)
Lemma match_number_bound r i :
  2 ≤ n ≤ 65536 → 1 ≤ r < circle_size → 0 ≤ i < circle_size / 2 →
  Z.of_nat (length (entries r)) + i + 1 < i32_max.
Proof.
  intros Hn Hr Hi. destruct (circle_size_even (proj1 Hn)) as (h & Hh & Hc & Hcn).
  assert (circle_size / 2 = h) as Hhalf by (rewrite Hc, Z.mul_comm; by apply Z.div_mul).
  pose proof (entries_length (Z.to_nat (r - 1)) (proj1 Hn)) as Hl.
  replace (1 + Z.of_nat (Z.to_nat (r - 1))) with r in Hl by lia.
  rewrite Hhalf in *. assert (h ≤ 32768) by lia. unfold i32_max. nia.
Qed.

Definition round_match_before (r : Z) : Z :=
  if bool_decide (r = 1) then 1 else Z.of_nat (length (kept (r - 2))) + 1.

Lemma round_step_ok r :
  2 ≤ n ≤ 65536 → 1 ≤ r < circle_size →
  round_step tid sid bid parts circle_size (negb (bool_decide (n `mod` 2 = 0))) plan
    (circle_at circle_size (r - 1), out_of (entries r) (round_match_before r)) r =
  Ok (circle_at circle_size (r + 1 - 1), out_of (entries (r + 1)) (round_match_before (r + 1))).
Proof.
  intros Hn Hr. destruct (circle_size_even (proj1 Hn)) as (h & Hh & Hc & Hcn).
  assert (circle_size / 2 = h) as Hhalf by (rewrite Hc, Z.mul_comm; by apply Z.div_mul).
  unfold round_step. cbn [out_of RoundState.matches RoundState.initial_assignments
    RoundState.match_number].
  set (st i := let ps := filter (λ p, p.1 < n ∧ p.2 < n) (pairing circle_size (r - 1) <$> seqZ 0 i) in
    out_of (entries r ++ number_round r ps) (Z.of_nat (length ps) + 1)).
  change (RoundState.mk _ _ _ 1) with (out_of (entries r) 1).
  replace (out_of (entries r) 1) with (st 0)
    by (unfold st; simpl; unfold number_round; simpl; by rewrite app_nil_r).
  unfold range. rewrite Z.sub_0_r, Hhalf. replace h with (Z.of_nat (Z.to_nat h)) by lia.
  rewrite (try_fold_seqZ_states _ st).
  - cbn [result_bind]. rewrite rotate_circle by lia. cbn [result_bind].
    replace (r - 1 + 1) with (r + 1 - 1) by lia. do 2 f_equal.
    unfold st. rewrite Z2Nat.id, Z.add_0_l by lia. cbv zeta.
    assert (filter (λ p, p.1 < n ∧ p.2 < n) (pairing circle_size (r - 1) <$> seqZ 0 h)
            = kept (r - 1)) as -> by (unfold kept, round_pairings; by rewrite Hhalf).
    rewrite entries_snoc by lia. unfold round_match_before.
    rewrite bool_decide_false by lia. by replace (r + 1 - 2) with (r - 1) by lia.
  - intros i Hi. unfold st. cbv zeta. rewrite pairing_step_ok; [|lia|lia|lia|].
    + rewrite seqZ_app, fmap_app, filter_app by lia. done.
    + pose proof (kept_prefix_length (r - 1) i ltac:(lia)).
      pose proof (match_number_bound r i Hn Hr ltac:(lia)). lia.
Qed.

Lemma round_robin_ok :
  2 ≤ n ≤ 65536 →
  round_robin tid sid bid parts plan = Ok {|
    GeneratedBracket.total_rounds := circle_size - 1;
    GeneratedBracket.matches := imap entry_match (entries circle_size);
    GeneratedBracket.initial_assignments := entries circle_size ≫= entry_assignments;
    GeneratedBracket.byes := [] |}.
Proof.
  intros Hn. destruct (circle_size_even (proj1 Hn)) as (h & Hh & Hc & Hcn).
  unfold round_robin. rewrite bool_decide_false by lia. fold circle_size.
  rewrite as_i32_id by (unfold in_i32, i32_min, i32_max; lia).
  change (range 0 circle_size, _) with (range 0 circle_size, out_of (entries 1) 1).
  rewrite <- circle_at_0 by lia.
  set (st r := (circle_at circle_size (r - 1), out_of (entries r) (round_match_before r))).
  change (circle_at circle_size 0, out_of (entries 1) 1) with (st 1).
  unfold range_incl. replace (circle_size - 1 - 1 + 1) with (Z.of_nat (Z.to_nat (circle_size - 1))) by lia.
  rewrite (try_fold_seqZ_states _ st).
  - cbn [result_bind]. unfold st. cbn [RoundState.matches RoundState.initial_assignments out_of].
    by replace (1 + Z.of_nat (Z.to_nat (circle_size - 1))) with circle_size by lia.
  - intros r Hr. apply round_step_ok; lia.
Qed.

Lemma number_round_pairs r ps : (number_round r ps).*2 = ps.
Proof.
  unfold number_round. rewrite fmap_imap. rewrite <- (list_fmap_id ps) at 2. apply imap_const.
Qed.

(** Dropping the sentinel commutes with forgetting the order of a pair. *)
Lemma unordered_filter (l : list (Z * Z)) :
  unordered <$> filter (λ p, p.1 < n ∧ p.2 < n) l = filter (λ p, p.2 < n) (unordered <$> l).
Proof.
  induction l as [|p l IH]; [done|].
  rewrite fmap_cons, !filter_cons, <- IH.
  assert ((unordered p).2 = Z.max p.1 p.2) as -> by done.
  repeat case_decide; try lia; done.
Qed.

Lemma entries_pairs :
  2 ≤ n → unordered <$> (entries circle_size).*2 ≡ₚ all_pairs n.
Proof.
  intros Hn. destruct (circle_size_even Hn) as (h & Hh & Hc & Hcn).
  assert ((entries circle_size).*2 = filter (λ p, p.1 < n ∧ p.2 < n) (all_pairings circle_size)) as ->.
  { unfold entries, all_pairings. rewrite <- (fmap_add_seqZ 1 0), bind_fmap, fmap_bind.
    generalize (seqZ 0 (circle_size - 1)). intros l. induction l as [|r l IH]; [done|].
    rewrite !bind_cons, filter_app, IH, number_round_pairs. by replace (1 + r - 1) with r by lia. }
  rewrite unordered_filter, Hc, all_pairings_perm by lia. rewrite <- Hc.
  destruct (decide (circle_size = n)) as [->|Hne].
  - rewrite filter_all; [done|]. intros [i j] Hp%elem_of_all_pairs. simpl. lia.
  - replace circle_size with (n + 1) by lia. by rewrite all_pairs_without_last by lia.
Qed.

Lemma elem_of_entries e :
  e ∈ entries circle_size →
  ∃ r ps k p, 1 ≤ r < circle_size ∧ ps = kept (r - 1) ∧ ps !! k = Some p ∧ e = (r, Z.of_nat k + 1, p).
Proof.
  unfold entries. intros (r & (k & p & -> & Hk)%elem_of_lookup_imap_1 & Hr)%list_elem_of_bind.
  rewrite elem_of_seqZ in Hr. exists r, (kept (r - 1)), k, p. split; [lia|]. done.
Qed.

Lemma entries_positions_NoDup : NoDup (entry_position <$> entries circle_size).
Proof.
  unfold entries. rewrite fmap_bind. apply NoDup_bind.
  - intros r r' e Hr%elem_of_seqZ Hr'%elem_of_seqZ.
    unfold number_round. rewrite !fmap_imap.
    intros (k & p & -> & _)%elem_of_lookup_imap_1 (k' & p' & Heq & _)%elem_of_lookup_imap_1.
    unfold compose, entry_position in Heq. cbn [fst snd] in Heq.
    apply position_inj in Heq as [? _]; lia.
  - intros r Hr%elem_of_seqZ. unfold number_round. rewrite fmap_imap.
    apply NoDup_alt. intros k k' x Hk Hk'. rewrite list_lookup_imap in Hk, Hk'.
    apply fmap_Some in Hk as (p & _ & ->). apply fmap_Some in Hk' as (p' & _ & Heq).
    unfold compose, entry_position in Heq. cbn [fst snd] in Heq.
    apply position_inj in Heq as [_ ?]; lia.
  - apply NoDup_seqZ.
Qed.

(** The entries of one round. *)
Lemma entries_of_round r :
  1 ≤ r < circle_size →
  filter (λ e, e.1.1 = r) (entries circle_size) = number_round r (kept (r - 1)).
Proof.
  intros Hr. unfold entries.
  replace (circle_size - 1) with ((r - 1) + (1 + (circle_size - 1 - r))) by lia.
  rewrite seqZ_app, (seqZ_app (1 + (r - 1)) 1), !bind_app, !filter_app by lia.
  replace (1 + (r - 1)) with r by lia. change (seqZ r 1) with [r].
  assert (∀ (lo len : Z), ¬ (lo ≤ r < lo + len) →
    filter (λ e, e.1.1 = r) (seqZ lo len ≫= λ r, number_round r (kept (r - 1))) = []) as Hnone.
  { intros lo len Hlo. apply filter_none.
    intros e (r' & (k & p & -> & _)%elem_of_lookup_imap_1 & Hr')%list_elem_of_bind.
    rewrite elem_of_seqZ in Hr'. cbn [fst]. lia. }
  rewrite !Hnone, app_nil_r, app_nil_l by lia. rewrite bind_cons, app_nil_r.
  apply filter_all. by intros e (k & p & -> & _)%elem_of_lookup_imap_1.
Qed.

Definition rr_bracket : GeneratedBracket.t := {|
  GeneratedBracket.total_rounds := circle_size - 1;
  GeneratedBracket.matches := imap entry_match (entries circle_size);
  GeneratedBracket.initial_assignments := entries circle_size ≫= entry_assignments;
  GeneratedBracket.byes := [] |}.
End loops.

(** ** Statements over the generated bracket *)

(** Who is assigned to a match, in slot order of the assignments. *)
Definition assigned (b : GeneratedBracket.t) (m : CreateTournamentMatch.t)
    : list SeededParticipant.t :=
  InitialAssignment.participant <$>
    filter (λ a, InitialAssignment.bracket_position a = CreateTournamentMatch.bracket_position m)
      (GeneratedBracket.initial_assignments b).

(** Assignments at distinct positions are looked up one by one. *)
Lemma filter_assignments (es : list (Z * Z * (Z * Z))) parts e :
  NoDup (entry_position <$> es) → e ∈ es →
  filter (λ a, InitialAssignment.bracket_position a = entry_position e)
    (es ≫= entry_assignments parts) = entry_assignments parts e.
Proof.
  induction es as [|e' es IH]; intros Hnd He; [by apply elem_of_nil in He|].
  rewrite fmap_cons in Hnd. apply NoDup_cons in Hnd as [Hnin Hnd].
  rewrite bind_cons, filter_app. apply elem_of_cons in He as [->|He].
  - rewrite (filter_none _ (es ≫= _)), app_nil_r.
    + apply filter_all. intros a Ha. unfold entry_assignments, pair_assignments in Ha.
      repeat (apply elem_of_cons in Ha as [->|Ha]; [done|]). by apply elem_of_nil in Ha.
    + intros a (e & Ha & He)%list_elem_of_bind Heq. apply Hnin. apply list_elem_of_fmap.
      exists e. split; [|done]. rewrite <- Heq.
      unfold entry_assignments, pair_assignments in Ha.
      repeat (apply elem_of_cons in Ha as [->|Ha]; [done|]). by apply elem_of_nil in Ha.
  - rewrite filter_none; [by apply IH|]. intros a Ha Heq. apply Hnin. apply list_elem_of_fmap.
    exists e. split; [|done]. rewrite <- Heq. unfold entry_assignments, pair_assignments in Ha.
    repeat (apply elem_of_cons in Ha as [->|Ha]; [done|]). by apply elem_of_nil in Ha.
Qed.

Section statements.
Context (tid : TournamentId) (sid : TournamentStageId) (bid : TournamentBracketId)
  (parts : list SeededParticipant.t) (plan : MatchFormatPlan).
#[local] Abbreviation n := (Z.of_nat (length parts)).
#[local] Abbreviation es := (entries parts (circle_size parts)).
#[local] Abbreviation bracket := (rr_bracket tid sid bid parts plan).

Lemma assigned_entry k e :
  2 ≤ n → e ∈ es →
  assigned bracket (entry_match tid sid bid parts plan k e) = [player parts e.2.1; player parts e.2.2].
Proof.
  intros Hn He. unfold assigned, rr_bracket, GeneratedBracket.initial_assignments.
  change (CreateTournamentMatch.bracket_position _) with (entry_position e).
  rewrite filter_assignments; [done|by apply entries_positions_NoDup|done].
Qed.

Lemma assigned_matches :
  2 ≤ n →
  assigned bracket <$> GeneratedBracket.matches bracket =
  (λ p, [player parts p.1; player parts p.2]) <$> es.*2.
Proof.
  intros Hn. unfold rr_bracket at 2. cbn [GeneratedBracket.matches].
  apply list_eq. intros i. rewrite !list_lookup_fmap, list_lookup_imap.
  destruct (es !! i) as [e|] eqn:He; [|done]. cbn [fmap option_fmap option_map].
  f_equal. apply assigned_entry; [done|]. by eapply list_elem_of_lookup_2.
Qed.

Lemma matches_of_round r :
  2 ≤ n →
  filter (λ m, CreateTournamentMatch.round m = r) (GeneratedBracket.matches bracket)
    ≫= assigned bracket =
  filter (λ e, e.1.1 = r) es ≫= λ e, [player parts e.2.1; player parts e.2.2].
Proof.
  intros Hn. unfold rr_bracket at 2. cbn [GeneratedBracket.matches].
  assert (∀ (l : list (Z * Z * (Z * Z))) (h : nat → nat), (∀ e, e ∈ l → e ∈ es) →
    filter (λ m, CreateTournamentMatch.round m = r)
      (imap (λ k e, entry_match tid sid bid parts plan (h k) e) l) ≫= assigned bracket =
    filter (λ e, e.1.1 = r) l ≫= λ e, [player parts e.2.1; player parts e.2.2]) as Hl.
  { intros l. induction l as [|e l IH]; intros h Hin; [done|].
    rewrite imap_cons, !filter_cons. cbn [entry_match new_match CreateTournamentMatch.round].
    assert (∀ e', e' ∈ l → e' ∈ es) as Hin' by (intros e' ?; apply Hin, elem_of_cons; by right).
    case_decide; [rewrite !bind_cons; f_equal|]; [| |].
    - apply assigned_entry; [done|]. apply Hin, elem_of_cons. by left.
    - apply (IH (h ∘ S) Hin').
    - apply (IH (h ∘ S) Hin'). }
  apply (Hl es (λ k, k)). done.
Qed.

Lemma NoDup_bind_filter {A B} (P : A → Prop) `{!∀ x, Decision (P x)} (f : A → list B) l :
  NoDup (l ≫= f) → NoDup (filter P l ≫= f).
Proof.
  induction l as [|x l IH]; [done|]. rewrite bind_cons, NoDup_app. intros (Hx & Hd & Hl).
  rewrite filter_cons. case_decide; [|by apply IH].
  rewrite bind_cons. apply NoDup_app. split; [done|]. split; [|by apply IH].
  intros y Hy (z & Hz & Hin)%list_elem_of_bind. apply (Hd y Hy), list_elem_of_bind.
  exists z. split; [done|]. by apply list_elem_of_filter in Hin as [_ ?].
Qed.

Lemma player_inj i j :
  NoDup parts → 0 ≤ i < n → 0 ≤ j < n → player parts i = player parts j → i = j.
Proof.
  intros Hnd Hi Hj. unfold player.
  destruct (lookup_lt_is_Some_2 parts (Z.to_nat i)) as [p Hp]; [lia|].
  destruct (lookup_lt_is_Some_2 parts (Z.to_nat j)) as [q Hq]; [lia|].
  rewrite Hp, Hq. simpl. intros <-.
  pose proof (NoDup_lookup _ _ _ _ Hnd Hp Hq). lia.
Qed.

Lemma round_players_NoDup r :
  2 ≤ n → NoDup parts →
  NoDup (filter (λ e, e.1.1 = r) es ≫= λ e, [player parts e.2.1; player parts e.2.2]).
Proof.
  intros Hn Hnd. destruct (circle_size_even parts Hn) as (h & Hh & Hc & Hcn).
  destruct (decide (1 ≤ r < circle_size parts)) as [Hr|Hr].
  2: { rewrite filter_none; [apply NoDup_nil_2|].
       intros e (r' & _ & k & p & ? & _ & _ & ->)%elem_of_entries. cbn [fst]. lia. }
  rewrite entries_of_round by done.
  replace (number_round r (kept parts (r - 1)) ≫= λ e, [player parts e.2.1; player parts e.2.2])
    with (player parts <$> (kept parts (r - 1) ≫= λ p, [p.1; p.2])).
  2: { rewrite <- (number_round_pairs r (kept parts (r - 1))) at 1.
       by rewrite bind_fmap, fmap_bind. }
  apply NoDup_fmap_2_strong.
  - intros i j (p & Hi & Hp)%list_elem_of_bind (q & Hj & Hq)%list_elem_of_bind.
    unfold kept in Hp, Hq.
    apply list_elem_of_filter in Hp as [Hp (k & -> & Hk)%list_elem_of_fmap].
    apply list_elem_of_filter in Hq as [Hq (k' & -> & Hk')%list_elem_of_fmap].
    rewrite elem_of_seqZ in Hk, Hk'. unfold pairing in *. cbn [fst snd] in *.
    rewrite Hc, Z.mul_comm, Z.div_mul in Hk, Hk' by lia. rewrite Hc in *.
    pose proof (seat_range (2 * h) ltac:(lia) (r - 1) k ltac:(lia)).
    pose proof (seat_range (2 * h) ltac:(lia) (r - 1) k' ltac:(lia)).
    pose proof (seat_range (2 * h) ltac:(lia) (r - 1) (2 * h - 1 - k) ltac:(lia)).
    pose proof (seat_range (2 * h) ltac:(lia) (r - 1) (2 * h - 1 - k') ltac:(lia)).
    apply player_inj; [done| |].
    + repeat apply elem_of_cons in Hi as [->|Hi]; [lia|lia|]. by apply elem_of_nil in Hi.
    + repeat apply elem_of_cons in Hj as [->|Hj]; [lia|lia|]. by apply elem_of_nil in Hj.
  - unfold kept. apply NoDup_bind_filter. rewrite Hc. apply round_pairings_NoDup; lia.
Qed.

(** C7. In a round robin of up to 65536 participants everyone meets everyone
  else exactly once: the matches, in order, are between the participants of a
  list of index pairs that, taken without order, is every pair once. *)
Theorem round_robin_everyone_meets :
  2 ≤ n ≤ 65536 →
  ∃ b pairs, round_robin tid sid bid parts plan = Ok b ∧
    assigned b <$> GeneratedBracket.matches b =
      (λ p, omap (λ i, parts !! Z.to_nat i) [p.1; p.2]) <$> pairs ∧
    unordered <$> pairs ≡ₚ all_pairs n.
Proof.
  intros Hn. exists bracket, es.*2. rewrite round_robin_ok by done. split; [done|].
  rewrite assigned_matches, entries_pairs by lia. split; [|done].
  apply list_fmap_ext. intros k p Hp%list_elem_of_lookup_2.
  assert (unordered p ∈ all_pairs n) as Hin.
  { rewrite <- (entries_pairs parts) by lia. by apply list_elem_of_fmap_2. }
  destruct p as [i j]. apply elem_of_all_pairs in Hin. cbn [fst snd] in *.
  destruct (lookup_lt_is_Some_2 parts (Z.to_nat i)) as [p Hp1]; [lia|].
  destruct (lookup_lt_is_Some_2 parts (Z.to_nat j)) as [q Hq1]; [lia|].
  cbn. rewrite Hp1. cbn. rewrite Hq1. unfold player. by rewrite Hp1, Hq1.
Qed.

(** A round robin has [n (n - 1) / 2] matches at distinct positions,
  numbered consecutively from 1 in spite of the per-round skips, in [n - 1]
  rounds ([n] when [n] is odd), and within a round nobody plays twice. *)
Theorem round_robin_rounds :
  2 ≤ n ≤ 65536 → NoDup parts →
  ∃ b, round_robin tid sid bid parts plan = Ok b ∧
    let ms := GeneratedBracket.matches b in
    GeneratedBracket.total_rounds b = n - 1 + n `mod` 2 ∧
    2 * Z.of_nat (length ms) = n * (n - 1) ∧
    CreateTournamentMatch.match_number <$> ms = seqZ 1 (Z.of_nat (length ms)) ∧
    NoDup (CreateTournamentMatch.bracket_position <$> ms) ∧
    ∀ r, NoDup (filter (λ m, CreateTournamentMatch.round m = r) ms ≫= assigned b).
Proof.
  intros Hn Hnd. exists bracket. rewrite round_robin_ok by done. split; [done|]. cbv zeta.
  split; [|split; [|split; [|split]]].
  - unfold rr_bracket, circle_size. cbn [GeneratedBracket.total_rounds].
    pose proof (Z.mod_pos_bound n 2 ltac:(lia)). case_bool_decide; simpl; lia.
  - unfold rr_bracket. cbn [GeneratedBracket.matches]. rewrite length_imap.
    rewrite <- (length_fmap snd), <- (length_fmap unordered), entries_pairs by lia.
    apply all_pairs_length.
  - unfold rr_bracket. cbn [GeneratedBracket.matches]. rewrite length_imap.
    by apply imap_numbers.
  - unfold rr_bracket. cbn [GeneratedBracket.matches]. rewrite fmap_imap.
    replace (imap _ _) with (entry_position <$> es) by (symmetry; apply imap_const).
    apply entries_positions_NoDup; lia.
  - intros r. rewrite matches_of_round by lia. apply round_players_NoDup; [lia|done].
Qed.
End statements.

(** ** Witnesses: five teams *)

Example round_robin_everyone_meets_witness :
  ∃ b pairs, round_robin 1 2 3 five (uniform MatchFormat.Bo1) = Ok b ∧
    unordered <$> pairs ≡ₚ all_pairs 5 ∧ length (GeneratedBracket.matches b) = 10%nat.
Proof.
  destruct (round_robin_everyone_meets 1 2 3 five (uniform MatchFormat.Bo1))
    as (b & pairs & Hb & _ & Hp); [simpl; lia|].
  exists b, pairs. split; [exact Hb|]. split; [exact Hp|].
  vm_compute in Hb. injection Hb as <-. reflexivity.
Defined.

Example round_robin_rounds_witness :
  ∃ b, round_robin 1 2 3 five (uniform MatchFormat.Bo1) = Ok b ∧
    GeneratedBracket.total_rounds b = 5.
Proof.
  destruct (round_robin_rounds 1 2 3 five (uniform MatchFormat.Bo1)) as (b & Hb & Hr & _);
    [simpl; lia|by apply (bool_decide_unpack _)|].
  exists b. split; [exact Hb|exact Hr].
Defined.
