(* ===== verification/SwissProps.v ===== *)
(** What the Swiss rounds promise: everyone plays once or has the bye, the bye
    goes to the lowest rank still without one, and a rematch happens only among
    participants who have all met each other. *)
From Stdlib Require Import Floats.SpecFloat.
From stdpp Require Import base list strings pretty gmap.
From S2P Require Import Prelude Errors Wire TournamentTypes FormatPlan Entities.
From S2P Require Import BracketModel EliminationFacts SingleEliminationProps DoubleEliminationProps.
From S2P Require Import Rounds.
#[local] Open Scope Z_scope.

(** ** The pushed matches *)

Section pushed.
Context (tid : TournamentId) (sid : TournamentStageId) (bid : TournamentBracketId)
  (round : Z) (fmt : MatchFormat.t).

Definition swiss_out (ps : list (SeededParticipant.t * SeededParticipant.t))
    : list CreateTournamentMatch.t * list InitialAssignment.t * Z :=
  (imap (λ k pq,
     new_match tid sid bid round (Z.of_nat k + 1) (position "SW" round (Z.of_nat k + 1))
       (Some (MatchParticipantSource.Seed (SeededParticipant.seed pq.1)),
        Some (MatchParticipantSource.Seed (SeededParticipant.seed pq.2))) fmt) ps,
   mjoin (imap (λ k pq, pair_assignments (position "SW" round (Z.of_nat k + 1)) pq.1 pq.2) ps),
   Z.of_nat (length ps) + 1).

Lemma swiss_out_snoc ps p q :
  Z.of_nat (length ps) + 1 < i32_max →
  push_swiss tid sid bid round fmt (swiss_out ps) p q = swiss_out (ps ++ [(p, q)]).
Proof.
  intros Hlen. unfold push_swiss, swiss_out. rewrite !imap_app, length_app.
  rewrite i32_add_id by (unfold in_i32, i32_min, i32_max in *; lia).
  f_equal; [|simpl length; lia]. f_equal.
  - simpl. by rewrite Nat.add_0_r.
  - rewrite join_app. simpl. by rewrite Nat.add_0_r.
Qed.

(** A loop that pushes one pairing per item. *)
Lemma push_swiss_loop {A} (f : A → result (SeededParticipant.t * SeededParticipant.t) (fault DomainError.t))
    (g : A → SeededParticipant.t * SeededParticipant.t) (l : list A) :
  (∀ x, x ∈ l → f x = Ok (g x)) → Z.of_nat (length l) < i32_max →
  try_fold (λ st x, let? (p, q) := f x in Ok (push_swiss tid sid bid round fmt st p q))
    ([], [], 1) l = Ok (swiss_out (g <$> l)).
Proof.
  intros Hf. change ([], [], 1) with (swiss_out []).
  induction l as [|x l IH] using rev_ind; intros Hlen; [done|].
  rewrite length_app in Hlen. simpl in Hlen.
  rewrite try_fold_app, IH by (try lia; intros y Hy; apply Hf, elem_of_app; by left).
  cbn [result_bind try_fold]. rewrite Hf by (apply elem_of_app; right; by apply list_elem_of_singleton).
  cbn [result_bind]. rewrite fmap_app. destruct (g x) as [p q] eqn:Hg.
  rewrite swiss_out_snoc by (rewrite length_fmap; lia). simpl. by rewrite Hg.
Qed.

Lemma swiss_out_participants ps :
  InitialAssignment.participant <$> (swiss_out ps).1.2 = ps ≫= λ pq, [pq.1; pq.2].
Proof.
  unfold swiss_out. cbn [fst snd].
  assert (∀ h : nat → string, InitialAssignment.participant <$>
    mjoin (imap (λ k pq, pair_assignments (h k) pq.1 pq.2) ps) = ps ≫= λ pq, [pq.1; pq.2]) as Hh.
  { induction ps as [|pq ps IH]; intros h; [done|].
    rewrite imap_cons, bind_cons. cbn [mjoin list_join]. rewrite fmap_app. f_equal.
    apply (IH (h ∘ S)). }
  apply (Hh (λ k, position "SW" round (Z.of_nat k + 1))).
Qed.

Lemma swiss_out_numbers ps :
  CreateTournamentMatch.match_number <$> (swiss_out ps).1.1 = seqZ 1 (Z.of_nat (length ps)).
Proof. unfold swiss_out. cbn [fst snd]. by apply imap_numbers. Qed.
End pushed.

(** ** Greedy pairing *)

Definition flat (ps : list (Z * Z)) : list Z := ps ≫= λ p, [p.1; p.2].

Section greedy.
Context (met : gset (N * N)) (sorted : list SwissParticipantStanding.t).
#[local] Abbreviation len := (Z.of_nat (length sorted)).

Definition standing (i : Z) : SwissParticipantStanding.t :=
  default (SwissParticipantStanding.mk 0 "" None 0 0 (S754_zero false) false)
    (sorted !! Z.to_nat i).
Definition rematch (i j : Z) : bool := is_rematch met (standing i) (standing j).
Definition is_paired (paired : list bool) (i : Z) : bool := default true (paired !! Z.to_nat i).

Lemma index_standing i : 0 ≤ i < len → index (E := DomainError.t) sorted i = Ok (standing i).
Proof.
  intros Hi. destruct (lookup_lt_is_Some_2 sorted (Z.to_nat i)) as [s Hs]; [lia|].
  unfold standing. rewrite Hs. by apply index_ok; [lia|].
Qed.

Lemma index_paired (paired : list bool) i :
  length paired = length sorted → 0 ≤ i < len →
  index (E := DomainError.t) paired i = Ok (is_paired paired i).
Proof.
  intros Hl Hi. destruct (lookup_lt_is_Some_2 paired (Z.to_nat i)) as [s Hs]; [lia|].
  unfold is_paired. rewrite Hs. by apply index_ok; [lia|].
Qed.

(** The inner loop: the first fresh unpaired opponent, if there is one. *)
Lemma pair_with_ok i js paired pairings :
  length paired = length sorted → 0 ≤ i < len → (∀ j, j ∈ js → i < j < len) →
  (pair_with met sorted i js paired pairings = Ok (paired, pairings) ∧
   ∀ j, j ∈ js → is_paired paired j = false → rematch i j = true) ∨
  ∃ j, j ∈ js ∧ is_paired paired j = false ∧ rematch i j = false ∧
    pair_with met sorted i js paired pairings =
    Ok (<[Z.to_nat j := true]> (<[Z.to_nat i := true]> paired), pairings ++ [(i, j)]).
Proof.
  intros Hl Hi. induction js as [|j js IH]; intros Hjs.
  { left. split; [done|]. by intros j ?%elem_of_nil. }
  assert (i < j < len) as Hj by (apply Hjs, elem_of_cons; by left).
  destruct IH as [[Hr Hall]|(j' & Hj' & Hp' & Hm' & Hr)];
    [intros j' ?; apply Hjs, elem_of_cons; by right| |];
    cbn [pair_with]; rewrite index_paired by lia; cbn [result_bind];
    destruct (is_paired paired j) eqn:Hp.
  - left. split; [done|]. intros j' [->|?]%elem_of_cons ?; [congruence|by apply Hall].
  - rewrite !index_standing by lia. cbn [result_bind]. fold (rematch i j).
    destruct (rematch i j) eqn:Hm.
    + left. split; [done|]. intros j' [->|?]%elem_of_cons ?; [done|by apply Hall].
    + right. exists j. split; [apply elem_of_cons; by left|]. split; [done|]. split; [done|].
      unfold set_index. rewrite bool_decide_true by lia. cbn [result_bind].
      by rewrite bool_decide_true by (rewrite length_insert; lia).
  - right. exists j'. split; [apply elem_of_cons; by right|]. done.
  - rewrite !index_standing by lia. cbn [result_bind]. fold (rematch i j).
    destruct (rematch i j) eqn:Hm.
    + right. exists j'. split; [apply elem_of_cons; by right|]. done.
    + right. exists j. split; [apply elem_of_cons; by left|]. split; [done|]. split; [done|].
      unfold set_index. rewrite bool_decide_true by lia. cbn [result_bind].
      by rewrite bool_decide_true by (rewrite length_insert; lia).
Qed.

(** The state of the greedy pass after the ranks below [i]. *)
Record greedy_inv (i : Z) (st : list bool * list (Z * Z)) : Prop := {
  gi_length : length st.1 = length sorted;
  gi_nodup : NoDup (flat st.2);
  gi_paired : ∀ k, k ∈ flat st.2 ↔ 0 ≤ k < len ∧ is_paired st.1 k = true;
  gi_fresh : Forall (λ p, rematch p.1 p.2 = false) st.2;
  gi_met : ∀ a b, 0 ≤ a < b → a < i → b < len →
    is_paired st.1 a = false → is_paired st.1 b = false → rematch a b = true;
}.

Lemma is_paired_insert (paired : list bool) i k :
  length paired = length sorted → 0 ≤ i < len → 0 ≤ k →
  is_paired (<[Z.to_nat i := true]> paired) k = (bool_decide (i = k) || is_paired paired k).
Proof.
  intros Hl Hi Hk. unfold is_paired. case_bool_decide as He.
  - subst k. by rewrite list_lookup_insert_eq by lia.
  - by rewrite list_lookup_insert_ne by lia.
Qed.

Lemma flat_snoc ps i j : flat (ps ++ [(i, j)]) = flat ps ++ [i; j].
Proof. unfold flat. by rewrite bind_app. Qed.

Lemma greedy_step_inv i st :
  0 ≤ i < len → greedy_inv i st →
  ∃ st', greedy_step met sorted st i = Ok st' ∧ greedy_inv (i + 1) st'.
Proof.
  intros Hi. destruct st as [paired pairings]. intros [Hl Hnd Hp Hf Hm]. cbn [fst snd] in *.
  unfold greedy_step. rewrite index_paired by lia. cbn [result_bind].
  destruct (is_paired paired i) eqn:Hpi.
  { eexists. split; [done|]. split; cbn [fst snd]; try done.
    intros a b Hab Ha Hb Hpa Hpb. apply (Hm a b); try done.
    destruct (decide (a = i)) as [->|?]; [congruence|lia]. }
  destruct (pair_with_ok i (range (i + 1) len) paired pairings) as
    [[-> Hall]|(j & Hj & Hpj & Hmj & ->)];
    [done|done|intros j; rewrite elem_of_range; lia| |].
  { eexists. split; [done|]. split; cbn [fst snd]; try done.
    intros a b Hab Ha Hb Hpa Hpb. destruct (decide (a = i)) as [->|?]; [|apply Hm; try done; lia].
    apply Hall; [apply elem_of_range; lia|done]. }
  apply elem_of_range in Hj. eexists. split; [done|].
  assert (∀ k, 0 ≤ k → is_paired (<[Z.to_nat j:=true]> (<[Z.to_nat i:=true]> paired)) k =
    (bool_decide (j = k) || (bool_decide (i = k) || is_paired paired k))) as Hins.
  { intros k Hk. by rewrite !is_paired_insert by (rewrite ?length_insert; lia). }
  split; cbn [fst snd].
  - by rewrite !length_insert.
  - rewrite flat_snoc. apply NoDup_app. split; [done|]. split.
    + intros k Hk%Hp [->|[->|[]%elem_of_nil]%elem_of_cons]%elem_of_cons; destruct Hk; congruence.
    + apply NoDup_cons. split; [|apply NoDup_singleton]. rewrite list_elem_of_singleton. lia.
  - intros k. rewrite flat_snoc, elem_of_app, Hp, !elem_of_cons, elem_of_nil.
    destruct (decide (0 ≤ k)) as [Hk|Hk]; [|naive_solver lia].
    rewrite Hins by done. repeat case_bool_decide; simpl; subst; naive_solver lia.
  - apply Forall_app. split; [done|]. by constructor.
  - intros a b Hab Ha Hb. rewrite !Hins by lia. intros Hpa Hpb.
    repeat case_bool_decide; simpl in *; try done. apply Hm; (done || lia).
Qed.

Lemma pair_leftovers_flat (l : list Z) : Nat.Even (length l) → flat (pair_leftovers l) = l.
Proof.
  intros [k Hk]. revert l Hk. induction k as [|k IH]; intros l Hk.
  { by destruct l. }
  destruct l as [|a [|b l]]; [done|simpl in Hk; lia|].
  unfold pair_leftovers, flat. cbn [chunks2 omap list_omap]. rewrite bind_cons.
  cbn [fst snd app]. do 2 f_equal. apply IH. simpl in Hk. lia.
Qed.

Lemma flat_length ps : length (flat ps) = (2 * length ps)%nat.
Proof. apply bind_pair_length. Qed.

(** The pairings: fresh ones, then forced ones among participants who have all
    met each other; together they cover an even field. *)
Lemma swiss_pairings_ok :
  Nat.Even (length sorted) →
  ∃ fresh forced, swiss_pairings met sorted = Ok (fresh ++ forced) ∧
    flat (fresh ++ forced) ≡ₚ range 0 len ∧
    Forall (λ p, rematch p.1 p.2 = false) fresh ∧
    ∀ a b, a ∈ flat forced → b ∈ flat forced → a < b → rematch a b = true.
Proof.
  intros Heven. unfold swiss_pairings, range. rewrite Z.sub_0_r.
  destruct (try_fold_seqZ_inv greedy_inv (greedy_step met sorted)
    (replicate (length sorted) false, []) 0 (length sorted)) as ([paired pairings] & -> & Hinv).
  { intros r st Hr. apply greedy_step_inv. lia. }
  { split; cbn [fst snd].
    - by rewrite length_replicate.
    - apply NoDup_nil_2.
    - intros k. split; [by intros ?%elem_of_nil|]. intros [Hk Hp]. unfold is_paired in Hp.
      rewrite lookup_replicate_2 in Hp by lia. done.
    - constructor.
    - lia. }
  cbn [result_bind]. destruct Hinv as [Hl Hnd Hp Hf Hm]. cbn [fst snd] in *.
  rewrite Z.add_0_l in Hm.
  set (unpaired := filter (λ i, default true (paired !! Z.to_nat i) = false) (seqZ 0 len)).
  assert (flat pairings ++ unpaired ≡ₚ seqZ 0 len) as Hperm.
  { apply NoDup_Permutation.
    - apply NoDup_app. split; [done|]. split.
      + intros k [Hk Hpk]%Hp [Huk _]%list_elem_of_filter. unfold is_paired in Hpk. congruence.
      + apply NoDup_filter, NoDup_seqZ.
    - apply NoDup_seqZ.
    - intros k. unfold unpaired. rewrite elem_of_app, Hp, list_elem_of_filter, elem_of_seqZ.
      unfold is_paired. destruct (default true (paired !! Z.to_nat k)); naive_solver lia. }
  assert (Nat.Even (length unpaired)) as Hev.
  { pose proof (Permutation_length Hperm) as Hlen.
    rewrite length_app, flat_length, length_seqZ, Nat2Z.id in Hlen.
    destruct Heven as [c Hc]. exists (c - length pairings)%nat. lia. }
  exists pairings, (pair_leftovers unpaired). split; [done|].
  assert (flat (pairings ++ pair_leftovers unpaired) = flat pairings ++ unpaired) as ->.
  { unfold flat. rewrite bind_app. f_equal. by apply pair_leftovers_flat. }
  split; [done|]. split; [done|]. rewrite pair_leftovers_flat by done.
  intros a b [Ha Ha']%list_elem_of_filter [Hb Hb']%list_elem_of_filter Hab.
  rewrite elem_of_seqZ in Ha', Hb'. apply Hm; (lia || done).
Qed.
End greedy.

(** ** Byes *)

Lemma find_bye_ok (sorted : list SwissParticipantStanding.t) k :
  (k ≤ length sorted)%nat →
  (find_bye sorted (reverse (seqZ 0 (Z.of_nat k))) = Ok None ∧
   Forall (λ s, SwissParticipantStanding.had_bye s = true) (take k sorted)) ∨
  ∃ i s, find_bye sorted (reverse (seqZ 0 (Z.of_nat k))) = Ok (Some (Z.of_nat i)) ∧
    (i < k)%nat ∧ sorted !! i = Some s ∧ SwissParticipantStanding.had_bye s = false ∧
    Forall (λ s, SwissParticipantStanding.had_bye s = true) (drop (S i) (take k sorted)).
Proof.
  induction k as [|k IH]; intros Hk.
  { left. by rewrite take_0. }
  replace (Z.of_nat (S k)) with (Z.of_nat k + 1) by lia.
  rewrite seqZ_app, reverse_app by lia. change (seqZ (0 + Z.of_nat k) 1) with [Z.of_nat k].
  rewrite reverse_singleton. cbn [app find_bye].
  destruct (lookup_lt_is_Some_2 sorted k) as [s Hs]; [lia|].
  rewrite (index_ok _ _ s) by (lia || by rewrite Nat2Z.id). cbn [result_bind].
  rewrite (take_S_r _ _ _ Hs).
  assert (length (take k sorted) = k) as Hlen by (rewrite length_take; lia).
  destruct (SwissParticipantStanding.had_bye s) eqn:Hb.
  - destruct IH as [[-> Hall]|(i & s' & -> & Hi & Hs' & Hb' & Hall)]; [lia| |].
    + left. split; [done|]. apply Forall_app. split; [done|]. by constructor.
    + right. exists i, s'. split; [done|]. split; [lia|]. split; [done|]. split; [done|].
      rewrite drop_app_le by lia. apply Forall_app. split; [done|]. by constructor.
  - right. exists k, s. split; [done|]. split; [lia|]. split; [done|]. split; [done|].
    rewrite drop_ge; [constructor|]. rewrite length_app. simpl. lia.
Qed.

(** The bye of an odd field: removed from the ranking it was taken from. *)
Lemma take_bye_odd (sorted : list SwissParticipantStanding.t) :
  Z.of_nat (length sorted) `mod` 2 ≠ 0 →
  ∃ before s after, sorted = before ++ s :: after ∧
    take_bye sorted = Ok (Some (SwissParticipantStanding.registration_id s), before ++ after) ∧
    ((SwissParticipantStanding.had_bye s = false ∧
      Forall (λ s, SwissParticipantStanding.had_bye s = true) after) ∨
     (after = [] ∧ Forall (λ s, SwissParticipantStanding.had_bye s = true) sorted)).
Proof.
  intros Hodd. unfold take_bye. rewrite bool_decide_false by done.
  unfold range. rewrite Z.sub_0_r.
  destruct (find_bye_ok sorted (length sorted)) as
    [[-> Hall]|(i & s & -> & Hi & Hs & Hb & Hall)]; [done| |]; cbn [result_bind].
  - destruct sorted as [|s0 l0] eqn:El using rev_ind; [done|]. clear IHl0.
    rewrite length_app in *. cbn [length] in *.
    rewrite take_ge in Hall by (rewrite length_app; simpl; lia).
    exists l0, s0, []. split; [done|]. simpl default.
    rewrite (index_ok _ _ s0) by (lia || (apply list_lookup_middle; lia)). cbn [result_bind].
    split; [|right; done]. do 2 f_equal. unfold remove_index.
    replace (Z.to_nat (Z.of_nat (length l0 + 1) - 1)) with (length l0) by lia.
    by rewrite delete_middle.
  - exists (take i sorted), s, (drop (S i) sorted).
    split; [symmetry; by apply take_drop_middle|]. simpl default.
    rewrite (index_ok _ _ s) by (lia || by rewrite Nat2Z.id). cbn [result_bind].
    rewrite take_ge in Hall by lia. split; [|left; done]. do 2 f_equal.
    unfold remove_index. rewrite Nat2Z.id. apply delete_take_drop.
Qed.

Lemma elem_of_pairing_set completed a b :
  (a, b) ∈ pairing_set completed ↔ (a, b) ∈ completed ∨ (b, a) ∈ completed.
Proof.
  induction completed as [|[x y] l IH]; [set_solver|].
  cbn [pairing_set foldr]. fold (pairing_set l). set_unfold. naive_solver.
Qed.

(** ** The rounds *)

(** The registrations assigned in a round, in the order of the matches. *)
Definition round_registrations (b : GeneratedBracket.t) : list TournamentRegistrationId :=
  SeededParticipant.registration_id ∘ InitialAssignment.participant <$>
    GeneratedBracket.initial_assignments b.

Section rounds.
Context (tid : TournamentId) (sid : TournamentStageId) (bid : TournamentBracketId)
  (plan : MatchFormatPlan).

Definition seeded_pair (sorted : list SwissParticipantStanding.t) (p : Z * Z)
    : SeededParticipant.t * SeededParticipant.t :=
  (seeded_of_standing (standing sorted p.1), seeded_of_standing (standing sorted p.2)).

Definition swiss_bracket (round : Z) (ps : list (SeededParticipant.t * SeededParticipant.t))
    : GeneratedBracket.t := {|
  GeneratedBracket.total_rounds := round;
  GeneratedBracket.matches := (swiss_out tid sid bid round (format_for plan round 0) ps).1.1;
  GeneratedBracket.initial_assignments :=
    (swiss_out tid sid bid round (format_for plan round 0) ps).1.2;
  GeneratedBracket.byes := [] |}.

Lemma swiss_bracket_registrations round ps :
  round_registrations (swiss_bracket round ps) =
  ps ≫= λ pq, [SeededParticipant.registration_id pq.1; SeededParticipant.registration_id pq.2].
Proof.
  unfold round_registrations. rewrite list_fmap_compose. cbn [swiss_bracket
    GeneratedBracket.initial_assignments]. by rewrite swiss_out_participants, fmap_bind.
Qed.

(** Taking the bye leaves an even field and loses nobody. *)
Lemma take_bye_ok (standings : list SwissParticipantStanding.t) :
  2 ≤ Z.of_nat (length standings) →
  ∃ bye rest, take_bye (stable_sort swiss_leb standings) = Ok (bye, rest) ∧
    Nat.Even (length rest) ∧ (length rest ≤ length standings)%nat ∧
    option_list bye ++ (SwissParticipantStanding.registration_id <$> rest) ≡ₚ
      SwissParticipantStanding.registration_id <$> standings ∧
    (bye = None ↔ Z.of_nat (length standings) `mod` 2 = 0).
Proof.
  intros Hn. pose proof (stable_sort_length swiss_leb standings) as Hlen.
  pose proof (stable_sort_perm swiss_leb standings) as Hperm.
  destruct (decide (Z.of_nat (length standings) `mod` 2 = 0)) as [Hev|Hodd].
  - exists None, (stable_sort swiss_leb standings). unfold take_bye.
    rewrite Hlen, bool_decide_true by done. split; [done|]. split.
    + exists (Z.to_nat (Z.of_nat (length standings) / 2)).
      pose proof (Z.div_mod (Z.of_nat (length standings)) 2 ltac:(lia)). lia.
    + split; [lia|]. split; [simpl; by rewrite Hperm|]. done.
  - destruct (take_bye_odd (stable_sort swiss_leb standings)) as
      (before & s & after & Hs & Hb & _); [by rewrite Hlen|].
    rewrite Hb. eexists _, _. split; [done|].
    rewrite Hs in Hlen, Hperm. rewrite length_app in Hlen. cbn [length] in Hlen.
    rewrite length_app. split; [|split; [lia|split]].
    + exists (Z.to_nat (Z.of_nat (length standings) / 2)).
      pose proof (Z.div_mod (Z.of_nat (length standings)) 2 ltac:(lia)).
      pose proof (Z.mod_pos_bound (Z.of_nat (length standings)) 2 ltac:(lia)). lia.
    + rewrite <- Hperm, !fmap_app, fmap_cons. simpl. by rewrite Permutation_middle.
    + split; [done|]. intros ?; contradiction.
Qed.

Lemma swiss_next_round_ok round standings completed :
  2 ≤ Z.of_nat (length standings) ≤ i32_max →
  ∃ bye rest fresh forced,
    swiss_next_round tid sid bid round standings completed plan =
      Ok (swiss_bracket round (seeded_pair rest <$> fresh ++ forced), bye) ∧
    take_bye (stable_sort swiss_leb standings) = Ok (bye, rest) ∧
    (option_list bye ++ (SwissParticipantStanding.registration_id <$> rest) ≡ₚ
      SwissParticipantStanding.registration_id <$> standings) ∧
    (bye = None ↔ Z.of_nat (length standings) `mod` 2 = 0) ∧
    flat (fresh ++ forced) ≡ₚ range 0 (Z.of_nat (length rest)) ∧
    Forall (λ p, rematch (pairing_set completed) rest p.1 p.2 = false) fresh ∧
    ∀ a b, a ∈ flat forced → b ∈ flat forced → a < b →
      rematch (pairing_set completed) rest a b = true.
Proof.
  intros Hn. destruct (take_bye_ok standings) as (bye & rest & Hbye & Hev & Hle & Hperm & Hiff);
    [lia|].
  destruct (swiss_pairings_ok (pairing_set completed) rest Hev)
    as (fresh & forced & Hpairs & Hflat & Hfresh & Hforced).
  exists bye, rest, fresh, forced. split; [|by split_and!].
  unfold swiss_next_round. rewrite bool_decide_false by lia.
  rewrite Hbye. cbn [result_bind]. rewrite Hpairs. cbn [result_bind].
  pose proof (Permutation_length Hflat) as Hlen. rewrite flat_length, length_range in Hlen.
  pose proof (push_swiss_loop tid sid bid round (format_for plan round 0)
    (λ '(i, j), let? p1 := index rest i in let? p2 := index rest j in
      Ok (seeded_of_standing p1, seeded_of_standing p2))
    (seeded_pair rest) (fresh ++ forced)) as Hloop.
  match type of Hloop with _ → _ → try_fold ?f _ _ = _ => erewrite (try_fold_ext _ f) end.
  2: { intros st [i j]. destruct (index rest i) as [p1|e]; [|done].
       cbn [result_bind]. by destruct (index rest j) as [p2|e]. }
  rewrite Hloop; [done| |lia].
  intros [i j] Hij.
  assert (i ∈ flat (fresh ++ forced) ∧ j ∈ flat (fresh ++ forced)) as [Hi Hj].
  { split; apply list_elem_of_bind; exists (i, j); (split; [|done]); set_solver. }
  rewrite Hflat, elem_of_range in Hi, Hj. rewrite !index_standing by lia. done.
Qed.

(** The registrations of a round, from the ranking. *)
Lemma round_registrations_flat round rest ps :
  round_registrations (swiss_bracket round (seeded_pair rest <$> ps)) =
  (λ i, SwissParticipantStanding.registration_id (standing rest i)) <$> flat ps.
Proof. rewrite swiss_bracket_registrations, bind_fmap. unfold flat. by rewrite fmap_bind. Qed.

Lemma standings_range rest :
  (λ i, SwissParticipantStanding.registration_id (standing rest i)) <$>
    range 0 (Z.of_nat (length rest)) = SwissParticipantStanding.registration_id <$> rest.
Proof.
  unfold range. rewrite Z.sub_0_r, seqZ_of_seq, <- list_fmap_compose. apply list_eq. intros i.
  rewrite !list_lookup_fmap. destruct (rest !! i) as [s|] eqn:Hs.
  - pose proof (lookup_lt_Some _ _ _ Hs). rewrite lookup_seq_lt by done. simpl.
    unfold standing. by rewrite Nat2Z.id, Hs.
  - apply lookup_ge_None in Hs. by rewrite lookup_seq_ge.
Qed.

(** C28. A Swiss round is a full round: the assigned registrations together with
  the bye are all the registrations of the standings, each once; the matches are
  numbered consecutively from 1, and there is a bye exactly when the field is
  odd. *)
Theorem swiss_next_round_covers round standings completed :
  2 ≤ Z.of_nat (length standings) ≤ i32_max →
  ∃ b bye, swiss_next_round tid sid bid round standings completed plan = Ok (b, bye) ∧
    option_list bye ++ round_registrations b ≡ₚ
      SwissParticipantStanding.registration_id <$> standings ∧
    (bye = None ↔ Z.of_nat (length standings) `mod` 2 = 0) ∧
    CreateTournamentMatch.match_number <$> GeneratedBracket.matches b =
      seqZ 1 (Z.of_nat (length standings) / 2).
Proof.
  intros Hn. destruct (swiss_next_round_ok round standings completed Hn)
    as (bye & rest & fresh & forced & -> & _ & Hperm & Hiff & Hflat & _).
  eexists _, _. split; [done|]. split; [|split; [done|]].
  - by rewrite round_registrations_flat, Hflat, standings_range.
  - cbn [swiss_bracket GeneratedBracket.matches]. rewrite swiss_out_numbers, length_fmap. f_equal.
    pose proof (Permutation_length Hflat) as Hl. rewrite flat_length, length_range in Hl.
    pose proof (Permutation_length Hperm) as Hl'. rewrite length_app, !length_fmap in Hl'.
    pose proof (Z.div_mod (Z.of_nat (length standings)) 2 ltac:(lia)).
    pose proof (Z.mod_pos_bound (Z.of_nat (length standings)) 2 ltac:(lia)).
    destruct bye as [id|]; simpl in Hl'.
    + destruct (decide (Z.of_nat (length standings) `mod` 2 = 0)) as [E|E]; [|lia].
      apply Hiff in E. done.
    + assert (Z.of_nat (length standings) `mod` 2 = 0) by by apply Hiff. lia.
Qed.

(** Rematches are a last resort: a Swiss round is made of pairings of
  registrations that have not met, followed by pairings within a leftover group
  whose members have all met each other already. *)
Theorem swiss_next_round_rematches round standings completed :
  2 ≤ Z.of_nat (length standings) ≤ i32_max →
  ∃ b bye fresh forced,
    swiss_next_round tid sid bid round standings completed plan = Ok (b, bye) ∧
    round_registrations b = ((fresh ++ forced) ≫= λ p, [p.1; p.2]) ∧
    Forall (λ p, (p.1, p.2) ∉ completed ∧ (p.2, p.1) ∉ completed) fresh ∧
    ∀ x y, x ∈ (forced ≫= λ p, [p.1; p.2]) → y ∈ (forced ≫= λ p, [p.1; p.2]) → x ≠ y →
      (x, y) ∈ completed ∨ (y, x) ∈ completed.
Proof.
  intros Hn. destruct (swiss_next_round_ok round standings completed Hn)
    as (bye & rest & fresh & forced & -> & _ & _ & _ & _ & Hfresh & Hforced).
  set (ids p := (SwissParticipantStanding.registration_id (standing rest p.1),
                 SwissParticipantStanding.registration_id (standing rest p.2))).
  assert (∀ ps, (ids <$> ps) ≫= (λ p, [p.1; p.2]) =
    (λ i, SwissParticipantStanding.registration_id (standing rest i)) <$> flat ps) as Hids.
  { intros ps. unfold flat. by rewrite bind_fmap, fmap_bind. }
  eexists _, _, (ids <$> fresh), (ids <$> forced). split; [done|].
  rewrite <- fmap_app, !Hids. split; [apply round_registrations_flat|]. split.
  - apply Forall_fmap. eapply Forall_impl; [exact Hfresh|]. intros [i j] Hr.
    unfold rematch, is_rematch in Hr. apply bool_decide_eq_false in Hr.
    rewrite elem_of_pairing_set in Hr. cbn. tauto.
  - intros x y (i & -> & Hi)%list_elem_of_fmap (j & -> & Hj)%list_elem_of_fmap Hne.
    destruct (Z.lt_trichotomy i j) as [Hlt|[->|Hlt]]; [|done|].
    + pose proof (Hforced i j Hi Hj Hlt) as Hr. unfold rematch, is_rematch in Hr.
      by apply bool_decide_eq_true, elem_of_pairing_set in Hr.
    + pose proof (Hforced j i Hj Hi Hlt) as Hr. unfold rematch, is_rematch in Hr.
      apply bool_decide_eq_true, elem_of_pairing_set in Hr. tauto.
Qed.

(** In an odd field the bye goes to the lowest-ranked participant who has
  not had one; only if everybody has, to the last of the ranking. *)
Theorem swiss_next_round_bye round standings completed :
  2 ≤ Z.of_nat (length standings) ≤ i32_max →
  Z.of_nat (length standings) `mod` 2 = 1 →
  ∃ b before s after,
    swiss_next_round tid sid bid round standings completed plan =
      Ok (b, Some (SwissParticipantStanding.registration_id s)) ∧
    stable_sort swiss_leb standings = before ++ s :: after ∧
    Forall (λ s, SwissParticipantStanding.had_bye s = true) after ∧
    (SwissParticipantStanding.had_bye s = true →
      after = [] ∧ Forall (λ s, SwissParticipantStanding.had_bye s = true) standings).
Proof.
  intros Hn Hodd. destruct (swiss_next_round_ok round standings completed Hn)
    as (bye & rest & fresh & forced & -> & Hbye & _).
  destruct (take_bye_odd (stable_sort swiss_leb standings)) as
    (before & s & after & Hs & Hb & Hc); [rewrite stable_sort_length; lia|].
  rewrite Hbye in Hb. injection Hb as -> ->.
  eexists _, before, s, after. split; [done|]. split; [done|].
  destruct Hc as [[Hf Ha]|[-> Ha]].
  - split; [done|]. rewrite Hf. done.
  - split; [constructor|]. intros _. split; [done|]. by rewrite <- (stable_sort_perm swiss_leb).
Qed.

(** The first Swiss round pairs the top half against the bottom half in
  order, and the lowest seed of an odd field has the bye. *)
Theorem swiss_initial_round_halves parts :
  2 ≤ Z.of_nat (length parts) ≤ i32_max →
  let half := (length parts / 2)%nat in
  ∃ b bye, swiss_initial_round tid sid bid parts plan = Ok (b, bye) ∧
    InitialAssignment.participant <$> GeneratedBracket.initial_assignments b =
      (zip (take half parts) (take half (drop half parts)) ≫= λ pq, [pq.1; pq.2]) ∧
    bye = SeededParticipant.registration_id <$> (if Nat.odd (length parts) then last parts else None) ∧
    CreateTournamentMatch.match_number <$> GeneratedBracket.matches b = seqZ 1 (Z.of_nat half).
Proof.
  intros Hn half. pose proof (Z.div_mod (Z.of_nat (length parts)) 2 ltac:(lia)) as Hdm.
  pose proof (Z.mod_pos_bound (Z.of_nat (length parts)) 2 ltac:(lia)) as Hmod.
  assert (Z.of_nat (length parts) / 2 = Z.of_nat half) as Hhalf
    by (unfold half; by rewrite Nat2Z.inj_div).
  unfold swiss_initial_round. rewrite bool_decide_false by lia.
  set (p0 := SeededParticipant.mk 0 0 "" None).
  set (at_ i := default p0 (parts !! Z.to_nat i)).
  assert (∀ i, 0 ≤ i < Z.of_nat (length parts) → index (E := DomainError.t) parts i = Ok (at_ i)) as Hat.
  { intros i Hi. destruct (lookup_lt_is_Some_2 parts (Z.to_nat i)) as [p Hp]; [lia|].
    unfold at_. rewrite Hp. by apply index_ok; [lia|]. }
  assert ((if negb (bool_decide (Z.of_nat (length parts) `mod` 2 = 0))
    then let? p := index parts (Z.of_nat (length parts) - 1) in Ok (Some (SeededParticipant.registration_id p))
    else Ok None) = Ok (E := fault DomainError.t) (SeededParticipant.registration_id <$>
      (if Nat.odd (length parts) then last parts else None))) as ->.
  { assert (Nat.odd (length parts) = negb (bool_decide (Z.of_nat (length parts) `mod` 2 = 0))) as ->.
    { pose proof (Nat.div2_odd (length parts)) as Hd. rewrite Nat.div2_div in Hd. fold half in Hd.
      destruct (Nat.odd (length parts)); simpl in Hd; case_bool_decide; simpl; (done || lia). }
    case_bool_decide; [done|]. cbn [negb]. rewrite Hat by lia. cbn [result_bind].
    rewrite last_lookup. unfold at_.
    replace (Z.to_nat (Z.of_nat (length parts) - 1)) with (Nat.pred (length parts)) by lia.
    destruct (lookup_lt_is_Some_2 parts (Nat.pred (length parts))) as [p Hp]; [lia|].
    by rewrite Hp. }
  cbn [result_bind]. rewrite Hhalf.
  pose proof (push_swiss_loop tid sid bid 1 (format_for plan 1 0)
    (λ i, let? p1 := index parts i in let? p2 := index parts (i + Z.of_nat half) in Ok (p1, p2))
    (λ i, (at_ i, at_ (i + Z.of_nat half))) (range 0 (Z.of_nat half))) as Hloop.
  match type of Hloop with _ → _ → try_fold ?f _ _ = _ => erewrite (try_fold_ext _ f) end.
  2: { intros st i. destruct (index parts i) as [p1|e]; [|done].
       cbn [result_bind]. by destruct (index parts (i + Z.of_nat half)). }
  rewrite Hloop by (rewrite ?length_range; try lia; intros i;
    rewrite elem_of_range; intros Hi; rewrite !Hat by lia; done).
  cbn [result_bind]. eexists (swiss_bracket 1 _), _. split; [reflexivity|].
  unfold swiss_bracket. cbn [GeneratedBracket.initial_assignments GeneratedBracket.matches].
  rewrite swiss_out_participants, swiss_out_numbers, length_fmap, length_range.
  split; [|split; [done|f_equal; lia]]. f_equal.
  unfold range. rewrite Z.sub_0_r, seqZ_of_seq, <- list_fmap_compose. apply list_eq. intros i.
  rewrite list_lookup_fmap. destruct (decide (i < half)%nat) as [Hi|Hi].
  - rewrite lookup_seq_lt by done. simpl.
    destruct (lookup_lt_is_Some_2 parts i) as [p Hp]; [lia|].
    destruct (lookup_lt_is_Some_2 parts (half + i)) as [q Hq]; [lia|].
    symmetry. apply lookup_zip_with_Some. exists p, q.
    unfold at_. replace (Z.to_nat (Z.of_nat i + Z.of_nat half)) with (half + i)%nat by lia.
    rewrite Nat2Z.id, Hp, Hq, !lookup_take_lt, lookup_drop by lia. done.
  - rewrite lookup_seq_ge by lia. symmetry. apply lookup_ge_None.
    rewrite length_zip_with, length_take. lia.
Qed.
End rounds.

(** ** Witnesses: five teams after one round *)

Definition sample_standing (id : N) (points : Z) (had_bye : bool) : SwissParticipantStanding.t :=
  SwissParticipantStanding.mk id "Team" None (Z.of_N id) points (S754_zero false) had_bye.
Definition sample_standings : list SwissParticipantStanding.t :=
  [sample_standing 1 3 false; sample_standing 2 3 false; sample_standing 3 0 false;
   sample_standing 4 0 false; sample_standing 5 3 true].
Definition sample_completed : list (N * N) := [(1, 3); (2, 4)]%N.

Example swiss_next_round_covers_witness :
  ∃ b bye, swiss_next_round 1 2 3 2 sample_standings sample_completed (uniform MatchFormat.Bo3)
    = Ok (b, bye) ∧
    option_list bye ++ round_registrations b ≡ₚ [1; 2; 3; 4; 5]%N.
Proof.
  destruct (swiss_next_round_covers 1 2 3 (uniform MatchFormat.Bo3) 2 sample_standings
    sample_completed) as (b & bye & Hb & Hp & _); [vm_compute; split; discriminate|].
  exists b, bye. split; [exact Hb|exact Hp].
Defined.

Example swiss_next_round_rematches_witness :
  ∃ b bye fresh forced,
    swiss_next_round 1 2 3 2 sample_standings sample_completed (uniform MatchFormat.Bo3)
    = Ok (b, bye) ∧ round_registrations b = ((fresh ++ forced) ≫= λ p, [p.1; p.2]).
Proof.
  destruct (swiss_next_round_rematches 1 2 3 (uniform MatchFormat.Bo3) 2 sample_standings
    sample_completed) as (b & bye & fresh & forced & Hb & Hr & _);
    [vm_compute; split; discriminate|].
  exists b, bye, fresh, forced. split; [exact Hb|exact Hr].
Defined.

Example swiss_next_round_bye_witness :
  ∃ b s, swiss_next_round 1 2 3 2 sample_standings sample_completed (uniform MatchFormat.Bo3)
    = Ok (b, Some (SwissParticipantStanding.registration_id s)).
Proof.
  destruct (swiss_next_round_bye 1 2 3 (uniform MatchFormat.Bo3) 2 sample_standings
    sample_completed) as (b & before & s & after & Hb & _);
    [vm_compute; split; discriminate|reflexivity|].
  exists b, s. exact Hb.
Defined.

Example swiss_initial_round_halves_witness :
  ∃ b, swiss_initial_round 1 2 3 five (uniform MatchFormat.Bo3) = Ok (b, Some 5%N) ∧
    SeededParticipant.registration_id ∘ InitialAssignment.participant <$>
      GeneratedBracket.initial_assignments b = [1; 3; 2; 4]%N.
Proof.
  destruct (swiss_initial_round_halves 1 2 3 (uniform MatchFormat.Bo3) five)
    as (b & bye & Hb & Hp & -> & _); [vm_compute; split; discriminate|].
  exists b. split; [exact Hb|]. by rewrite list_fmap_compose, Hp.
Defined.

(** Avoiding rematches greedily is not optimal: there are four teams and
  two completed pairings for which a round without any rematch exists, and the
  generated round contains one. *)
Theorem swiss_greedy_not_optimal :
  let standings := [sample_standing 1 3 false; sample_standing 2 3 false;
                    sample_standing 3 0 false; sample_standing 4 0 false] in
  let completed := [(1, 4); (3, 4)]%N in
  ∃ b, swiss_next_round 1 2 3 3 standings completed (uniform MatchFormat.Bo1) = Ok (b, None) ∧
    round_registrations b = [1; 2; 3; 4]%N ∧
    ((3, 4) ∈ completed)%N ∧
    Forall (λ p, p ∉ completed ∧ (p.2, p.1) ∉ completed) [(1, 3); (2, 4)]%N.
Proof.
  eexists. split; [vm_compute; reflexivity|]. split; [vm_compute; reflexivity|].
  split; [set_solver|]. repeat constructor; set_unfold; naive_solver.
Qed.
