(* ===== verification/GroupsProps.v ===== *)
(** What the group stage promises: a balanced snake draft, a playoff field that
    keeps group mates apart in the first round (with an even number of groups),
    settings that survive their round trip, and distinct group labels. *)
From Stdlib Require Import Ascii.
From stdpp Require Import base list strings pretty gmap.
From S2P Require Import Prelude Errors Wire TournamentTypes FormatPlan Entities.
From S2P Require Import BracketModel Elimination EliminationFacts.
From S2P Require Import SingleEliminationProps Rounds.
#[local] Open Scope Z_scope.

(** ** Labels *)

Fixpoint label_value_from (acc : Z) (s : string) : Z :=
  match s with
  | EmptyString => acc
  | String c s => label_value_from (26 * (acc + 1) + (Z.of_N (N_of_ascii c) - 65)) s
  end.
(** The index a label stands for. *)
Definition label_value (s : string) : Z := label_value_from (-1) s.

Lemma label_value_snoc acc s c :
  label_value_from acc (s +:+ String c "") =
  26 * (label_value_from acc s + 1) + (Z.of_N (N_of_ascii c) - 65).
Proof. revert acc. induction s as [|a s IH]; intros acc; [done|]. apply IH. Qed.

Lemma letter_value d : 0 ≤ d < 26 → Z.of_N (N_of_ascii (letter d)) - 65 = d.
Proof. intros Hd. unfold letter. rewrite N_ascii_embedding by lia. lia. Qed.

Fixpoint label_bound (fuel : nat) : Z :=
  match fuel with O => 26 | S fuel => 26 * (label_bound fuel + 1) end.

Lemma group_label_fuel_value fuel i :
  0 ≤ i < label_bound fuel → label_value (group_label_fuel fuel i) = i.
Proof.
  revert i. induction fuel as [|fuel IH]; intros i Hi; cbn [group_label_fuel label_bound] in *.
  { rewrite bool_decide_true by lia. unfold label_value. simpl. rewrite letter_value; lia. }
  case_bool_decide as Hlt.
  { unfold label_value. simpl. rewrite letter_value; lia. }
  pose proof (Z.div_mod i 26 ltac:(lia)). pose proof (Z.mod_pos_bound i 26 ltac:(lia)).
  unfold label_value. rewrite label_value_snoc. fold (label_value (group_label_fuel fuel (i / 26 - 1))).
  rewrite IH, letter_value by lia. lia.
Qed.

(** Every group index of a [usize] has a label it can be read back from, so
  no two groups share a label. *)
Theorem group_label_roundtrip i :
  0 ≤ i < 2 ^ 64 → label_value (group_label i) = i.
Proof.
  intros Hi. apply group_label_fuel_value.
  assert (2 ^ 64 ≤ label_bound 14) by (vm_compute; discriminate). lia.
Qed.

(** ** Snake draft *)

Lemma group_idx_range k i : 1 ≤ k → 0 ≤ i → 0 ≤ group_idx k i < k.
Proof.
  intros Hk Hi. unfold group_idx. pose proof (Z.mod_pos_bound i k ltac:(lia)).
  case_bool_decide; lia.
Qed.

(** Indices below [n] drafted into group [g]. *)
Definition drafted (k n g : Z) : list Z := filter (λ i, group_idx k i = g) (seqZ 0 n).

(** How many of them: the full rows, and the started one if it reached [g]. *)
Definition draft_size (k n g : Z) : Z :=
  n / k + (if bool_decide ((n / k) `mod` 2 = 0)
           then (if bool_decide (g < n `mod` k) then 1 else 0)
           else (if bool_decide (k - 1 - g < n `mod` k) then 1 else 0)).

Lemma drafted_S k n g : 0 ≤ n →
  drafted k (n + 1) g = drafted k n g ++ (if decide (group_idx k n = g) then [n] else []).
Proof.
  intros Hn. unfold drafted. by rewrite seqZ_app, filter_app by lia.
Qed.

Lemma div_mod_succ k n :
  1 ≤ k → 0 ≤ n →
  (n `mod` k + 1 < k ∧ (n + 1) / k = n / k ∧ (n + 1) `mod` k = n `mod` k + 1) ∨
  (n `mod` k + 1 = k ∧ (n + 1) / k = n / k + 1 ∧ (n + 1) `mod` k = 0).
Proof.
  intros Hk Hn. pose proof (Z.div_mod n k ltac:(lia)). pose proof (Z.mod_pos_bound n k ltac:(lia)).
  destruct (decide (n `mod` k + 1 < k)) as [Hlt|Hge].
  - left. split; [done|]. split.
    + symmetry. apply (Z.div_unique _ _ _ (n `mod` k + 1)); lia.
    + symmetry. apply (Z.mod_unique _ _ (n / k)); lia.
  - right. split; [lia|]. split.
    + symmetry. apply (Z.div_unique _ _ _ 0); lia.
    + symmetry. apply (Z.mod_unique _ _ (n / k + 1)); lia.
Qed.

(** The index drafted into group [g] in row [r]. *)
Definition row_index (k g r : Z) : Z := r * k + (if bool_decide (r `mod` 2 = 0) then g else k - 1 - g).

Lemma group_idx_row_index k g r : 1 ≤ k → 0 ≤ g < k → 0 ≤ r → group_idx k (row_index k g r) = g.
Proof.
  intros Hk Hg Hr. unfold group_idx, row_index.
  set (c := if bool_decide (r `mod` 2 = 0) then g else k - 1 - g).
  assert (0 ≤ c < k) by (unfold c; case_bool_decide; lia).
  assert ((r * k + c) / k = r) as -> by (symmetry; apply (Z.div_unique _ _ _ c); lia).
  assert ((r * k + c) `mod` k = c) as -> by (symmetry; apply (Z.mod_unique _ _ r); lia).
  unfold c. case_bool_decide; lia.
Qed.

Lemma draft_size_S k n g :
  1 ≤ k → 0 ≤ g < k → 0 ≤ n →
  draft_size k (n + 1) g = draft_size k n g + (if bool_decide (group_idx k n = g) then 1 else 0) ∧
  (group_idx k n = g → row_index k g (draft_size k n g) = n).
Proof.
  intros Hk Hg Hn.
  pose proof (Z.mod_pos_bound n k ltac:(lia)) as Hm.
  pose proof (Z.mod_pos_bound (n / k) 2 ltac:(lia)) as Hp.
  pose proof (Z.div_mod n k ltac:(lia)) as Hnk.
  pose proof (Z.div_mod (n / k) 2 ltac:(lia)) as Hd.
  pose proof (Z.div_mod (n / k + 1) 2 ltac:(lia)) as Hd'.
  pose proof (Z.mod_pos_bound (n / k + 1) 2 ltac:(lia)) as Hp'.
  split.
  - unfold draft_size, group_idx.
    destruct (div_mod_succ k n Hk ltac:(lia)) as [(Hlt & -> & ->)|(Heq & -> & ->)];
      repeat (case_bool_decide || case_decide); simpl; lia.
  - intros Hgi. assert (draft_size k n g = n / k) as ->.
    { revert Hgi. unfold draft_size, group_idx. repeat case_bool_decide; lia. }
    revert Hgi. unfold row_index, group_idx. case_bool_decide; lia.
Qed.

Lemma drafted_rows k (n : nat) g :
  1 ≤ k → 0 ≤ g < k →
  0 ≤ draft_size k (Z.of_nat n) g ∧
  drafted k (Z.of_nat n) g = row_index k g <$> seqZ 0 (draft_size k (Z.of_nat n) g).
Proof.
  intros Hk Hg. induction n as [|n [IH0 IH]].
  { assert (draft_size k 0 g = 0) as Hz.
    { unfold draft_size. rewrite Z.div_0_l, Z.mod_0_l by lia.
      by rewrite (bool_decide_true (0 `mod` 2 = 0)), (bool_decide_false (g < 0)) by (done || lia). }
    change (Z.of_nat 0) with 0. by rewrite Hz. }
  replace (Z.of_nat (S n)) with (Z.of_nat n + 1) by lia.
  destruct (draft_size_S k (Z.of_nat n) g Hk Hg ltac:(lia)) as [Hs Hrow].
  rewrite drafted_S, Hs, IH by lia. case_bool_decide as Hgi; case_decide; try done.
  - split; [lia|]. rewrite seqZ_app, fmap_app by lia. f_equal.
    change (seqZ (0 + ?x) 1) with [0 + x]. cbn [fmap list_fmap]. by rewrite Z.add_0_l, Hrow.
  - split; [lia|]. by rewrite Z.add_0_r, app_nil_r.
Qed.

Lemma draft_size_bounds k n g :
  1 ≤ k → 0 ≤ n → n / k ≤ draft_size k n g ≤ n / k + 1.
Proof. intros Hk Hn. unfold draft_size. repeat case_bool_decide; lia. Qed.

Definition at_indices (parts : list SeededParticipant.t) (idxs : list Z) : list SeededParticipant.t :=
  omap (λ i, parts !! Z.to_nat i) idxs.

(** The groups, drafted in closed form. *)
Definition snake (parts : list SeededParticipant.t) (k : Z) : list (list SeededParticipant.t) :=
  (λ g, at_indices parts (drafted k (Z.of_nat (length parts)) g)) <$> seqZ 0 k.

Lemma push_into_seqZ (f : Z → list SeededParticipant.t) k g x :
  0 ≤ g < k →
  push_into (f <$> seqZ 0 k) g x =
  Ok ((λ g', f g' ++ (if decide (g = g') then [x] else [])) <$> seqZ 0 k).
Proof.
  intros Hg. unfold push_into.
  rewrite (index_ok _ _ (f g)) by (lia || rewrite list_lookup_fmap,
    (proj2 (lookup_seqZ 0 k (Z.to_nat g) g)); (done || lia)).
  cbn [result_bind]. unfold set_index.
  rewrite bool_decide_true by (rewrite length_fmap, length_seqZ; lia). f_equal.
  apply list_eq. intros i. destruct (decide (i = Z.to_nat g)) as [->|Hne].
  - rewrite list_lookup_insert_eq by (rewrite length_fmap, length_seqZ; lia).
    rewrite list_lookup_fmap, (proj2 (lookup_seqZ 0 k (Z.to_nat g) g)) by lia.
    simpl. by rewrite decide_True.
  - rewrite list_lookup_insert_ne, !list_lookup_fmap by lia.
    destruct (seqZ 0 k !! i) as [g'|] eqn:Hi; [|done]. apply lookup_seqZ in Hi. simpl.
    rewrite decide_False by lia. by rewrite app_nil_r.
Qed.

Lemma at_indices_snoc parts p idxs :
  (∀ i, i ∈ idxs → 0 ≤ i < Z.of_nat (length parts)) →
  at_indices (parts ++ [p]) idxs = at_indices parts idxs.
Proof.
  intros Hi. unfold at_indices. induction idxs as [|i idxs IH]; [done|].
  cbn. assert (0 ≤ i < Z.of_nat (length parts)) by (apply Hi, elem_of_cons; by left).
  rewrite lookup_app_l by lia. rewrite IH; [done|]. intros j ?. apply Hi, elem_of_cons. by right.
Qed.

Lemma at_indices_total (parts : list SeededParticipant.t) (idxs : list Z) :
  (∀ i, i ∈ idxs → 0 ≤ i < Z.of_nat (length parts)) →
  ∀ i, i ∈ idxs → is_Some (parts !! Z.to_nat i).
Proof. intros Hi i Hin. apply lookup_lt_is_Some_2. specialize (Hi i Hin). lia. Qed.

Lemma snake_ok parts k :
  1 ≤ k →
  try_fold (λ groups '(i, participant), push_into groups (group_idx k i) participant)
    (replicate (Z.to_nat k) []) (enumerate parts) = Ok (snake parts k).
Proof.
  intros Hk. induction parts as [|p parts IH] using rev_ind.
  { simpl. f_equal. unfold snake. rewrite <- (Z2Nat.id k) at 2 by lia.
    rewrite seqZ_of_seq, <- list_fmap_compose. apply list_eq. intros i.
    rewrite list_lookup_fmap. destruct (decide (i < Z.to_nat k)%nat) as [Hi|Hi].
    - by rewrite lookup_replicate_2, lookup_seq_lt by lia.
    - rewrite lookup_seq_ge by lia. apply lookup_ge_None. rewrite length_replicate. lia. }
  unfold enumerate. rewrite imap_app, try_fold_app. fold (enumerate parts). rewrite IH.
  change (imap _ [p]) with [(Z.of_nat (length parts + 0), p)].
  cbn [result_bind try_fold]. rewrite Nat.add_0_r. unfold snake at 1.
  rewrite push_into_seqZ by (apply group_idx_range; lia). cbn [result_bind]. f_equal.
  unfold snake. rewrite length_app. simpl length.
  replace (Z.of_nat (length parts + 1)) with (Z.of_nat (length parts) + 1) by lia.
  apply list_fmap_ext. intros _ g _. rewrite drafted_S by lia. unfold at_indices at 2.
  rewrite omap_app. fold (at_indices (parts ++ [p]) (drafted k (Z.of_nat (length parts)) g)).
  rewrite at_indices_snoc.
  2: { intros i [_ Hi]%list_elem_of_filter. rewrite elem_of_seqZ in Hi. lia. }
  f_equal. destruct (decide _); [|done]. cbn.
  by rewrite Nat2Z.id, list_lookup_middle by done.
Qed.

(** The snake draft puts every participant into exactly one of the groups,
  in rows that run forwards and backwards in turn; group sizes differ by at most
  one. *)
Theorem distribute_into_groups_snake parts k :
  2 ≤ k ≤ Z.of_nat (length parts) →
  ∃ groups, distribute_into_groups parts k = Ok groups ∧
    Z.of_nat (length groups) = k ∧ mjoin groups ≡ₚ parts ∧
    ∀ g group, groups !! Z.to_nat g = Some group → 0 ≤ g →
      Z.of_nat (length parts) / k ≤ Z.of_nat (length group) ≤ Z.of_nat (length parts) / k + 1 ∧
      ∀ r, 0 ≤ r → group !! Z.to_nat r =
        parts !! Z.to_nat (r * k + (if Z.even r then g else k - 1 - g)).
Proof.
  intros Hk. exists (snake parts k). unfold distribute_into_groups.
  rewrite !bool_decide_false by lia. split; [apply snake_ok; lia|].
  set (n := Z.of_nat (length parts)) in *.
  split; [unfold snake; rewrite length_fmap, length_seqZ; lia|]. split.
  { unfold snake. fold n.
    rewrite join_fmap.
    transitivity (omap (λ i, parts !! Z.to_nat i)
      (seqZ 0 k ≫= λ g, filter (λ i, group_idx k i = g) (seqZ 0 n))).
    { rewrite omap_bind. done. }
    rewrite classes_perm; [|apply NoDup_seqZ|].
    - rewrite omap_lookup_seqZ by lia. by rewrite take_ge by lia.
    - intros i Hi%elem_of_seqZ. apply elem_of_seqZ.
      pose proof (group_idx_range k i ltac:(lia) ltac:(lia)). lia. }
  intros g group Hg Hg0. unfold snake in Hg. rewrite list_lookup_fmap in Hg.
  destruct (seqZ 0 k !! Z.to_nat g) as [g'|] eqn:Hg'; [|done]. apply lookup_seqZ in Hg'.
  injection Hg as <-. replace g' with g by lia. fold n.
  destruct (drafted_rows k (length parts) g ltac:(lia) ltac:(lia)) as [Hs0 Hrows].
  fold n in Hs0, Hrows. rewrite Hrows.
  set (sz := draft_size k n g) in *.
  (* the drafted indices are in range *)
  assert (∀ r, 0 ≤ r < sz → 0 ≤ row_index k g r < n) as Hin.
  { intros r Hr. assert (row_index k g r ∈ drafted k n g) as Hd.
    { rewrite Hrows. apply list_elem_of_fmap_2, elem_of_seqZ. lia. }
    apply list_elem_of_filter in Hd as [_ Hd]. rewrite elem_of_seqZ in Hd. lia. }
  assert (∀ i, i ∈ row_index k g <$> seqZ 0 sz → 0 ≤ i < n) as Hin'.
  { intros i (r & -> & Hr%elem_of_seqZ)%list_elem_of_fmap. apply Hin. lia. }
  split.
  { assert (length (at_indices parts (row_index k g <$> seqZ 0 sz)) = Z.to_nat sz) as ->.
    { unfold at_indices. rewrite omap_length_total by by apply at_indices_total. by rewrite length_fmap, length_seqZ. }
    pose proof (draft_size_bounds k n g ltac:(lia) ltac:(lia)). lia. }
  intros r Hr. unfold at_indices. rewrite omap_lookup_total by by apply at_indices_total. rewrite list_lookup_fmap.
  assert (r * k + (if Z.even r then g else k - 1 - g) = row_index k g r) as ->.
  { unfold row_index. f_equal. rewrite Zeven_mod.
    case_bool_decide as E; [by rewrite (proj2 (Z.eqb_eq _ _) E)|by rewrite (proj2 (Z.eqb_neq _ _) E)]. }
  destruct (decide (r < sz)) as [Hlt|Hge].
  - by rewrite (proj2 (lookup_seqZ 0 sz (Z.to_nat r) r)) by lia.
  - rewrite lookup_seqZ_ge by lia. simpl. symmetry. apply lookup_ge_None.
    destruct (decide (row_index k g r < n)) as [Hrn|]; [|lia]. exfalso.
    assert (row_index k g r ∈ drafted k n g) as Hd.
    { apply list_elem_of_filter. split; [apply group_idx_row_index; lia|].
      apply elem_of_seqZ. unfold row_index in *. case_bool_decide; nia. }
    rewrite Hrows in Hd. apply list_elem_of_fmap in Hd as (r' & Heq & Hr'%elem_of_seqZ).
    assert (r = r'); [|lia]. unfold row_index in Heq.
    repeat case_bool_decide; nia.
Qed.

(** ** The playoff field *)

Lemma renumber_seeds_lookup ps i p :
  renumber_seeds ps !! i = Some p →
  ∃ q, ps !! i = Some q ∧ SeededParticipant.registration_id p = SeededParticipant.registration_id q.
Proof.
  unfold renumber_seeds. rewrite list_lookup_imap. intros (q & -> & ->)%fmap_Some. by exists q.
Qed.

(** Distinct members: nobody is in two groups. *)
Lemma join_member_unique {A B} (f : A → B) (gs : list (list A)) (m1 m2 : nat) g1 g2 x :
  NoDup (f <$> mjoin gs) → gs !! m1 = Some g1 → gs !! m2 = Some g2 →
  x ∈ f <$> g1 → x ∈ f <$> g2 → m1 = m2.
Proof.
  assert (∀ (l : list (list A)) m g, l !! m = Some g → x ∈ f <$> g → x ∈ f <$> mjoin l) as Hsub.
  { intros l m g Hg (y & -> & Hy)%list_elem_of_fmap. apply list_elem_of_fmap_2, list_elem_of_join.
    exists g. split; [done|]. by eapply list_elem_of_lookup_2. }
  revert m1 m2. induction gs as [|g gs IH]; intros m1 m2; [done|].
  cbn [mjoin list_join]. rewrite fmap_app, NoDup_app. intros (_ & Hd & Hnd) H1 H2 Hx1 Hx2.
  destruct m1 as [|m1], m2 as [|m2]; cbn in H1, H2; simplify_eq.
  - done.
  - destruct (Hd x Hx1). by eapply Hsub.
  - destruct (Hd x Hx2). by eapply Hsub.
  - f_equal. by apply IH.
Qed.

Section playoffs.
Context (groups : list (list SeededParticipant.t)) (adv : Z).
#[local] Abbreviation k := (length groups).
Hypothesis Hadv : 1 ≤ adv.
Hypothesis Hfull : ∀ group, group ∈ groups → adv ≤ Z.of_nat (length group).

Lemma cross_seed_lookup (j : nat) :
  (j < Z.to_nat adv * k)%nat →
  ∃ group p q, groups !! (j mod k)%nat = Some group ∧ group !! (j / k)%nat = Some q ∧
    cross_seed_for_playoffs groups adv !! j = Some p ∧
    SeededParticipant.registration_id p = SeededParticipant.registration_id q.
Proof.
  intros Hj. assert (0 < k)%nat as Hk by lia.
  assert (j / k < Z.to_nat adv)%nat as Hdiv by (apply Nat.Div0.div_lt_upper_bound; lia).
  assert (j mod k < k)%nat as Hmod by (apply Nat.mod_upper_bound; lia).
  assert (∀ i : Z, 0 ≤ i < Z.of_nat (Z.to_nat adv) → ∀ group, group ∈ groups →
    is_Some (group !! Z.to_nat i)) as Hsome.
  { intros i Hi group Hg. apply lookup_lt_is_Some_2. specialize (Hfull group Hg). lia. }
  destruct (lookup_lt_is_Some_2 groups (j mod k)) as [group Hgroup]; [done|].
  destruct (Hsome (Z.of_nat (j / k)) ltac:(lia) group) as [q Hq];
    [by eapply list_elem_of_lookup_2|].
  unfold cross_seed_for_playoffs, range. rewrite Z.sub_0_r, <- (Z2Nat.id adv) by lia.
  set (field := seqZ 0 (Z.of_nat (Z.to_nat adv)) ≫= _).
  assert (field !! j = Some q) as Hf.
  { unfold field. rewrite (bind_blocks_lookup _ k) by
      (try lia; intros i Hi; apply omap_length_total; by apply Hsome).
    rewrite omap_lookup_total by (apply Hsome; lia). rewrite Hgroup. exact Hq. }
  exists group. unfold renumber_seeds. rewrite list_lookup_imap, Hf.
  eexists _, q. rewrite Nat2Z.id in Hq. split; [exact Hgroup|]. split; [exact Hq|].
  split; reflexivity.
Qed.

Lemma cross_seed_length : Z.of_nat (length (cross_seed_for_playoffs groups adv)) = adv * Z.of_nat k.
Proof.
  unfold cross_seed_for_playoffs, renumber_seeds, range. rewrite length_imap, Z.sub_0_r.
  assert (∀ n : nat, (n ≤ Z.to_nat adv)%nat → Z.of_nat (length (seqZ 0 (Z.of_nat n) ≫= λ position,
    omap (λ group : list SeededParticipant.t, group !! Z.to_nat position) groups))
    = Z.of_nat n * Z.of_nat k) as Hn.
  2: { specialize (Hn (Z.to_nat adv) ltac:(lia)). by rewrite Z2Nat.id in Hn by lia. }
  intros n Hn. induction n as [|n IH]; [done|].
  replace (Z.of_nat (S n)) with (Z.of_nat n + 1) by lia.
  rewrite seqZ_app, bind_app, length_app, Nat2Z.inj_add, IH by lia.
  change (seqZ (0 + Z.of_nat n) 1) with [0 + Z.of_nat n]. rewrite bind_cons, app_nil_r.
  rewrite omap_length_total; [lia|]. intros group Hg. apply lookup_lt_is_Some_2.
  specialize (Hfull group Hg). lia.
Qed.

Lemma cross_seed_group (j m : nat) p group :
  NoDup (SeededParticipant.registration_id <$> mjoin groups) →
  cross_seed_for_playoffs groups adv !! j = Some p → groups !! m = Some group →
  SeededParticipant.registration_id p ∈ SeededParticipant.registration_id <$> group →
  (j mod k)%nat = m.
Proof.
  intros Hnd Hp Hgroup Hin. pose proof (lookup_lt_Some _ _ _ Hp) as Hj.
  pose proof cross_seed_length as Hlen.
  destruct (cross_seed_lookup j ltac:(nia)) as (group' & p' & q & Hg' & Hq & Hp' & Hid).
  assert (p' = p) as -> by congruence. rewrite Hid in Hin.
  eapply (join_member_unique SeededParticipant.registration_id); [exact Hnd|exact Hg'|exact Hgroup| |exact Hin].
  apply list_elem_of_fmap_2. by eapply list_elem_of_lookup_2.
Qed.
End playoffs.

(** What a first-round match of single elimination is made of. *)
Lemma first_round_assignment k parts i s a :
  (i, s) ∈ first_round k → a ∈ (entry "R" parts k (i, s)).1 →
  InitialAssignment.bracket_position a = position "R" 1 (i + 1) ∧
  (parts !! Z.to_nat s = Some (InitialAssignment.participant a) ∨
   parts !! Z.to_nat (2 ^ Z.of_nat (S k) - 1 - s) = Some (InitialAssignment.participant a)).
Proof.
  intros _ Ha. unfold entry, first_round_entry in Ha. cbn [fst snd] in Ha.
  destruct (parts !! Z.to_nat s) as [p|] eqn:Hp;
    destruct (parts !! Z.to_nat (2 ^ Z.of_nat (S k) - 1 - s)) as [q|] eqn:Hq; cbn [fst] in Ha;
    repeat (apply elem_of_cons in Ha as [->|Ha]); try (by apply elem_of_nil in Ha);
    (split; [done|]); [by left|by right].
Qed.

(** With an even number of groups that all fill their advancing places, the
  cross-seeded single-elimination playoff never pairs two members of the same
  group in its first round. *)
Theorem cross_seed_keeps_groups_apart tid sid bid plan groups adv :
  Z.even (Z.of_nat (length groups)) = true → 1 ≤ adv →
  2 ≤ adv * Z.of_nat (length groups) ≤ 2 ^ 30 →
  (∀ group, group ∈ groups → adv ≤ Z.of_nat (length group)) →
  NoDup (SeededParticipant.registration_id <$> mjoin groups) →
  ∃ b, single_elimination tid sid bid (cross_seed_for_playoffs groups adv) plan = Ok b ∧
    ∀ a1 a2 group, a1 ∈ GeneratedBracket.initial_assignments b →
      a2 ∈ GeneratedBracket.initial_assignments b →
      InitialAssignment.bracket_position a1 = InitialAssignment.bracket_position a2 →
      InitialAssignment.participant a1 ≠ InitialAssignment.participant a2 →
      group ∈ groups →
      SeededParticipant.registration_id (InitialAssignment.participant a1) ∈
        SeededParticipant.registration_id <$> group →
      SeededParticipant.registration_id (InitialAssignment.participant a2) ∉
        SeededParticipant.registration_id <$> group.
Proof.
  intros Heven Hadv Hsize Hfull Hnd.
  pose proof (cross_seed_length groups adv Hadv Hfull) as Hlen.
  destruct (single_elimination_ok tid sid bid (cross_seed_for_playoffs groups adv) plan)
    as (k & _ & _ & ->); [lia|].
  eexists. split; [done|]. cbn [se_bracket GeneratedBracket.initial_assignments].
  intros a1 a2 group ([i1 s1] & H1 & Hf1)%list_elem_of_bind ([i2 s2] & H2 & Hf2)%list_elem_of_bind
    Hpos Hne Hgroup Hin1 Hin2.
  pose proof (elem_of_first_round _ _ _ Hf1) as [Hi1 Hs1].
  pose proof (elem_of_first_round _ _ _ Hf2) as [Hi2 Hs2].
  destruct (first_round_assignment k _ i1 s1 a1 Hf1 H1) as [Hp1 Hl1].
  destruct (first_round_assignment k _ i2 s2 a2 Hf2 H2) as [Hp2 Hl2].
  rewrite Hp1, Hp2 in Hpos. apply position_inj in Hpos as [_ Hpos]; [|lia..].
  assert (i2 = i1) as -> by lia. rewrite (first_round_functional _ _ _ _ Hf2 Hf1) in *.
  pose proof (pow2_S k) as HS. pose proof (pow2_pos k).
  assert (length groups ≠ 0%nat) as Hk0 by (intros E; rewrite E in Hsize; lia).
  apply list_elem_of_lookup_1 in Hgroup as [m Hm].
  (* indices of the two sides add up to an odd number *)
  assert (∀ j1 j2 p1 p2, 0 ≤ j1 → 0 ≤ j2 → j1 + j2 = 2 ^ Z.of_nat (S k) - 1 →
    cross_seed_for_playoffs groups adv !! Z.to_nat j1 = Some p1 →
    cross_seed_for_playoffs groups adv !! Z.to_nat j2 = Some p2 →
    SeededParticipant.registration_id p1 ∈ SeededParticipant.registration_id <$> group →
    SeededParticipant.registration_id p2 ∈ SeededParticipant.registration_id <$> group → False)
    as Hpar.
  { intros j1 j2 p1 p2 Hj1 Hj2 Hsum Hq1 Hq2 Hg1 Hg2.
    pose proof (cross_seed_group groups adv Hadv Hfull _ _ _ _ Hnd Hq1 Hm Hg1) as Hm1.
    pose proof (cross_seed_group groups adv Hadv Hfull _ _ _ _ Hnd Hq2 Hm Hg2) as Hm2.
    pose proof (Nat.div_mod (Z.to_nat j1) (length groups) Hk0) as Hd1.
    pose proof (Nat.div_mod (Z.to_nat j2) (length groups) Hk0) as Hd2.
    apply Z.even_spec in Heven as [h Hh].
    assert (length groups = 2 * Z.to_nat h)%nat as Hgl by lia.
    rewrite Hm1, Hgl in Hd1. rewrite Hm2, Hgl in Hd2. rewrite <- Nat.mul_assoc in Hd1, Hd2. lia. }
  destruct Hl1 as [Hl1|Hl1], Hl2 as [Hl2|Hl2].
  - apply Hne. congruence.
  - eapply (Hpar s1 (2 ^ Z.of_nat (S k) - 1 - s1)); [lia|lia|lia|done..].
  - eapply (Hpar (2 ^ Z.of_nat (S k) - 1 - s1) s1); [lia|lia|lia|done..].
  - apply Hne. congruence.
Qed.

(** With three groups of two the promise of the source comment fails: the
  runner-up and the winner of the third group meet in the first round. *)
Theorem cross_seed_three_groups :
  let groups := [[sample_participant 1; sample_participant 4];
                 [sample_participant 2; sample_participant 5];
                 [sample_participant 3; sample_participant 6]] in
  ∃ b a1 a2, single_elimination 1 2 3 (cross_seed_for_playoffs groups 2) (uniform MatchFormat.Bo1) = Ok b ∧
    a1 ∈ GeneratedBracket.initial_assignments b ∧ a2 ∈ GeneratedBracket.initial_assignments b ∧
    InitialAssignment.bracket_position a1 = InitialAssignment.bracket_position a2 ∧
    SeededParticipant.registration_id (InitialAssignment.participant a1) = 3%N ∧
    SeededParticipant.registration_id (InitialAssignment.participant a2) = 6%N.
Proof.
  eexists _, _, _. split; [vm_compute; reflexivity|].
  split; [do 2 apply list_elem_of_further; apply list_elem_of_here|].
  split; [do 3 apply list_elem_of_further; apply list_elem_of_here|].
  split; [reflexivity|split; reflexivity].
Qed.

(** ** Settings *)

(** The playoff settings persisted for a configuration are read back, with
  the playoff default, as exactly the plan the configuration itself gives:
  regeneration from the stage row and generation from the configuration agree. *)
Theorem playoff_settings_roundtrip `{JsonLaws V} (cfg : GroupsConfig.t) tournament_default :
  from_settings (default tournament_default (GroupsConfig.playoff_match_format cfg))
    (Some (GroupsConfig.playoff_stage_settings (V := V) cfg)) =
  Ok (GroupsConfig.playoff_format_plan cfg tournament_default).
Proof.
  unfold from_settings, GroupsConfig.playoff_stage_settings, GroupsConfig.playoff_format_plan.
  set (kvs := option_list _ ++ option_list _).
  assert (NoDup kvs.*1) as Hnd.
  { unfold kvs. destruct (GroupsConfig.playoff_final_format cfg), (GroupsConfig.playoff_grand_final_format cfg);
      simpl; repeat constructor; set_solver. }
  destruct (json_object_of_object kvs Hnd) as (kvs' & Hperm & Hobj).
  cbn [mbind option_bind]. rewrite Hobj.
  assert (∀ key, obj_get kvs' key = obj_get kvs key) as Hget
    by (intros key; symmetry; by apply obj_get_perm).
  assert (obj_get kvs' "round_formats" = None) as ->.
  { rewrite Hget. unfold kvs.
    by destruct (GroupsConfig.playoff_final_format cfg), (GroupsConfig.playoff_grand_final_format cfg). }
  cbn [result_bind].
  assert (read_format_slot kvs' "final_format" = Ok (GroupsConfig.playoff_final_format cfg)) as ->.
  { destruct (GroupsConfig.playoff_final_format cfg) as [f|] eqn:Hf.
    - apply read_format_slot_string. rewrite Hget. unfold kvs. done.
    - apply read_format_slot_absent. rewrite Hget. unfold kvs.
      by destruct (GroupsConfig.playoff_grand_final_format cfg). }
  assert (read_format_slot kvs' "grand_final_format" = Ok (GroupsConfig.playoff_grand_final_format cfg)) as ->.
  { destruct (GroupsConfig.playoff_grand_final_format cfg) as [f|] eqn:Hf.
    - apply read_format_slot_string. rewrite Hget. unfold kvs.
      by destruct (GroupsConfig.playoff_final_format cfg).
    - apply read_format_slot_absent. rewrite Hget. unfold kvs.
      by destruct (GroupsConfig.playoff_final_format cfg). }
  reflexivity.
Qed.

(** A groups configuration that is accepted has at least two groups, at least
  one advancing place per group and at least two advancing participants; settings
  without any of the keys give the documented defaults. *)
Theorem groups_config_valid `{JsonValue V} (settings : V) participant_count cfg :
  (∀ v z, json_u64 v = Some z → 0 ≤ z < 2 ^ 64) →
  GroupsConfig.from_format_settings settings participant_count = Ok cfg →
  2 ≤ GroupsConfig.group_count cfg ∧ 1 ≤ GroupsConfig.advance_per_group cfg ∧
  2 ≤ (GroupsConfig.group_count cfg * GroupsConfig.advance_per_group cfg) `mod` 2 ^ 64 ∧
  (json_object settings = None →
    cfg = GroupsConfig.mk ((participant_count / 4) `max` 2) 2 GroupStageFormat.RoundRobin
            PlayoffFormat.SingleElimination None None None None).
Proof.
  intros Hu64. unfold GroupsConfig.from_format_settings.
  set (gc := default _ (GroupsConfig.get settings "group_count" ≫= json_u64)).
  set (adv := default 2 _).
  assert (0 ≤ adv) as Hadv.
  { unfold adv. destruct (GroupsConfig.get settings "advance_per_group" ≫= json_u64) as [z|] eqn:Hz;
      [|done]. apply bind_Some in Hz as (v & _ & Hz%Hu64). simpl. lia. }
  repeat (case_bool_decide; [done|]).
  intros (f1 & Hf1 & (f2 & Hf2 & (f3 & Hf3 & (f4 & Hf4 & [= <-])%result_bind_ok)%result_bind_ok)%result_bind_ok)%result_bind_ok.
  cbn. split; [lia|]. split; [lia|]. split; [lia|]. intros Hnone.
  unfold GroupsConfig.parse_format, GroupsConfig.get in Hf1, Hf2, Hf3, Hf4.
  rewrite Hnone in Hf1, Hf2, Hf3, Hf4. cbn in Hf1, Hf2, Hf3, Hf4. simplify_eq.
  unfold gc, adv, GroupsConfig.get. by rewrite Hnone.
Qed.

(** ** Witnesses *)

Example group_label_roundtrip_witness : label_value (group_label 701) = 701.
Proof. apply group_label_roundtrip. lia. Defined.

Example distribute_into_groups_snake_witness :
  ∃ groups, distribute_into_groups five 2 = Ok groups ∧ mjoin groups ≡ₚ five.
Proof.
  destruct (distribute_into_groups_snake five 2) as (groups & Hg & _ & Hp & _); [simpl; lia|].
  exists groups. split; [exact Hg|exact Hp].
Defined.

Definition two_groups : list (list SeededParticipant.t) :=
  [[sample_participant 1; sample_participant 4]; [sample_participant 2; sample_participant 3]].

Example cross_seed_keeps_groups_apart_witness :
  ∃ b, single_elimination 1 2 3 (cross_seed_for_playoffs two_groups 2) (uniform MatchFormat.Bo1) = Ok b.
Proof.
  destruct (cross_seed_keeps_groups_apart 1 2 3 (uniform MatchFormat.Bo1) two_groups 2)
    as (b & Hb & _); [reflexivity|lia|simpl; lia| | |exists b; exact Hb].
  - apply Forall_forall. repeat constructor; simpl; lia.
  - apply (bool_decide_unpack _). vm_compute. exact I.
Defined.

Definition sample_groups_config : GroupsConfig.t :=
  GroupsConfig.mk 4 2 GroupStageFormat.Swiss PlayoffFormat.DoubleElimination
    None (Some MatchFormat.Bo3) (Some MatchFormat.Bo5) None.

Example playoff_settings_roundtrip_witness :
  from_settings MatchFormat.Bo3
    (Some (GroupsConfig.playoff_stage_settings (V := SampleJson.t) sample_groups_config)) =
  Ok (GroupsConfig.playoff_format_plan sample_groups_config MatchFormat.Bo1).
Proof. apply (playoff_settings_roundtrip (V := SampleJson.t) sample_groups_config MatchFormat.Bo1). Defined.

Example groups_config_valid_witness :
  ∃ cfg, GroupsConfig.from_format_settings SampleJson.Null 16 = Ok cfg ∧
    2 ≤ GroupsConfig.group_count cfg.
Proof.
  eexists. split; [vm_compute; reflexivity|].
  eapply (groups_config_valid SampleJson.Null 16).
  - intros v z. destruct v; simpl; try done. case_bool_decide; [|done]. intros [= <-]. lia.
  - vm_compute. reflexivity.
Defined.
