(* ===== verification/VetoModel.v ===== *)
(** Map vetoes: formats (crates/portal-core/src/types/veto.rs), sessions and
    actions (crates/portal-domain/src/entities/veto.rs). *)
From stdpp Require Import base list strings pretty.
From S2P Require Import Prelude Wire CoreEnums DomainEnums.
#[local] Open Scope Z_scope.

(** ** Formats *)

(** [team]: 0 for an automatic action, 1 for the team with the first action, 2
    for the other. *)
Module VetoFormatActionConfig.
Record t := mk { team : Z; action_type : VetoActionType.t }.
#[global] Instance eq_dec : EqDecision t.
Proof. solve_decision. Defined.
End VetoFormatActionConfig.

Module VetoFormatConfig.
Record t := mk {
  id : string;
  display_name : string;
  description : string;
  sequence : list VetoFormatActionConfig.t;
  min_map_pool : Z;
}.

#[local] Abbreviation ban team := (VetoFormatActionConfig.mk team VetoActionType.Ban).
#[local] Abbreviation pick team := (VetoFormatActionConfig.mk team VetoActionType.Pick).
#[local] Abbreviation decider := (VetoFormatActionConfig.mk 0 VetoActionType.Decider).

Definition bo1 : t :=
  mk "bo1_standard" "Best of 1" "6 bans alternating, 1 decider"
    [ban 1; ban 2; ban 1; ban 2; ban 1; ban 2; decider] 7.
Definition bo3 : t :=
  mk "bo3_standard" "Best of 3" "Ban-Ban-Pick-Pick-Ban-Ban-Decider"
    [ban 1; ban 2; pick 1; pick 2; ban 1; ban 2; decider] 7.
Definition bo5 : t :=
  mk "bo5_standard" "Best of 5" "Ban-Ban-Pick-Pick-Pick-Pick-Decider"
    [ban 1; ban 2; pick 1; pick 2; pick 1; pick 2; decider] 7.
Definition bo7 : t :=
  mk "bo7_standard" "Best of 7" "Six alternating picks, decider — every map is in play"
    (((λ i, pick (if bool_decide (i `mod` 2 = 0) then 1 else 2)) <$> range 0 6) ++ [decider]) 7.

(** [map_count] weighted random picks, no bans. *)
Definition wheel (map_count : Z) : t :=
  mk ("wheel_bo" +:+ pretty map_count)
    ("Wheel — Best of " +:+ pretty map_count)
    (pretty map_count +:+ " map" +:+ (if bool_decide (map_count = 1) then "" else "s") +:+
     " chosen by spinning the wheel")
    ((λ _, VetoFormatActionConfig.mk 0 VetoActionType.Random) <$> range 0 map_count) map_count.
Definition wheel_bo1 : t := wheel 1.
Definition wheel_bo3 : t := wheel 3.
Definition wheel_bo5 : t := wheel 5.

Definition builtin (format_id : string) : option t :=
  if bool_decide (format_id = "bo1_veto") || bool_decide (format_id = "bo1_standard") then Some bo1
  else if bool_decide (format_id = "bo3_veto") || bool_decide (format_id = "bo3_standard") then Some bo3
  else if bool_decide (format_id = "bo5_veto") || bool_decide (format_id = "bo5_standard") then Some bo5
  else if bool_decide (format_id = "bo7_veto") || bool_decide (format_id = "bo7_standard") then Some bo7
  else if bool_decide (format_id = "wheel_bo1") then Some wheel_bo1
  else if bool_decide (format_id = "wheel_bo3") then Some wheel_bo3
  else if bool_decide (format_id = "wheel_bo5") then Some wheel_bo5
  else None.

Definition has_team_actions (self : t) : bool :=
  existsb (λ a, negb (bool_decide (VetoFormatActionConfig.team a = 0))) (sequence self).
(** [sequence.get(index)] of a [usize]. *)
Definition get_action (self : t) (index : Z) : option VetoFormatActionConfig.t :=
  sequence self !! Z.to_nat index.
Definition action_count (self : t) : Z := Z.of_nat (length (sequence self)).
Definition is_complete_at (self : t) (action_number : Z) : bool :=
  bool_decide (action_number > Z.of_nat (length (sequence self))).
Definition count_of (self : t) (action_type : VetoActionType.t) : Z :=
  Z.of_nat (length (filter (λ a, VetoFormatActionConfig.action_type a = action_type) (sequence self))).
Definition pick_count (self : t) : Z := count_of self VetoActionType.Pick.
Definition decider_count (self : t) : Z := count_of self VetoActionType.Decider.
Definition random_count (self : t) : Z := count_of self VetoActionType.Random.
Definition maps_selected (self : t) : Z := pick_count self + decider_count self + random_count self.
End VetoFormatConfig.

(** ** Sessions *)

Module VetoSession.
Record t := mk {
  id : VetoSessionId;
  match_id : TournamentMatchId;
  veto_format_id : string;
  map_pool : list string;
  coin_flip_winner_registration_id : option TournamentRegistrationId;
  first_action_registration_id : option TournamentRegistrationId;
  current_action_number : Z;  (** a [u32] *)
  current_team_turn : option TournamentRegistrationId;
  remaining_maps : list string;
  selected_maps : list string;
  status : VetoStatus.t;
  action_deadline : option DateTime;
  timeout_seconds : Z;  (** a [u32] *)
  side_selection_mode : SideSelectionMode.t;
  started_at : option DateTime;
  completed_at : option DateTime;
  created_at : DateTime;
  updated_at : DateTime;
}.
#[global] Instance eta_t : Eta t := λ r,
  mk (r.(id)) (r.(match_id)) (r.(veto_format_id)) (r.(map_pool))
    (r.(coin_flip_winner_registration_id)) (r.(first_action_registration_id))
    (r.(current_action_number)) (r.(current_team_turn)) (r.(remaining_maps)) (r.(selected_maps))
    (r.(status)) (r.(action_deadline)) (r.(timeout_seconds)) (r.(side_selection_mode))
    (r.(started_at)) (r.(completed_at)) (r.(created_at)) (r.(updated_at)).

Definition is_pending (self : t) : bool := bool_decide (status self = VetoStatus.Pending).
Definition is_coin_flip (self : t) : bool := bool_decide (status self = VetoStatus.CoinFlip).
Definition is_in_progress (self : t) : bool := bool_decide (status self = VetoStatus.InProgress).
Definition is_complete (self : t) : bool := bool_decide (status self = VetoStatus.Completed).
Definition is_cancelled (self : t) : bool := bool_decide (status self = VetoStatus.Cancelled).
Definition is_terminal (self : t) : bool :=
  match status self with VetoStatus.Completed | VetoStatus.Cancelled => true | _ => false end.
Definition is_timed_out (now : DateTime) (self : t) : bool :=
  match action_deadline self with Some deadline => bool_decide (now > deadline) | None => false end.
Definition is_map_available (self : t) (map_id : string) : bool :=
  bool_decide (map_id ∈ remaining_maps self).
Definition selected_count (self : t) : Z := Z.of_nat (length (selected_maps self)).
Definition remaining_count (self : t) : Z := Z.of_nat (length (remaining_maps self)).
End VetoSession.

(** ** Actions *)

Module VetoAction.
Record t := mk {
  id : VetoActionId;
  session_id : VetoSessionId;
  action_number : Z;  (** a [u32] *)
  action_type : VetoActionType.t;
  map_id : string;
  performed_by_registration_id : option TournamentRegistrationId;
  performed_by_user_id : option UserId;
  side_selection : option string;
  side_selected_by_registration_id : option TournamentRegistrationId;
  side_selected_at : option DateTime;
  was_auto_action : bool;
  auto_action_reason : option string;
  performed_at : DateTime;
}.
#[global] Instance eta_t : Eta t := λ r,
  mk (r.(id)) (r.(session_id)) (r.(action_number)) (r.(action_type)) (r.(map_id))
    (r.(performed_by_registration_id)) (r.(performed_by_user_id)) (r.(side_selection))
    (r.(side_selected_by_registration_id)) (r.(side_selected_at)) (r.(was_auto_action))
    (r.(auto_action_reason)) (r.(performed_at)).

Definition is_ban (self : t) : bool := bool_decide (action_type self = VetoActionType.Ban).
Definition is_pick (self : t) : bool := bool_decide (action_type self = VetoActionType.Pick).
Definition is_decider (self : t) : bool := bool_decide (action_type self = VetoActionType.Decider).
Definition is_random (self : t) : bool := bool_decide (action_type self = VetoActionType.Random).
Definition needs_side_selection (self : t) : bool :=
  is_pick self && bool_decide (side_selection self = None).
Definition has_side_selection (self : t) : bool := bool_decide (is_Some (side_selection self)).
End VetoAction.

Module VetoActionResult.
Record t := mk {
  session : VetoSession.t;
  action : VetoAction.t;
  veto_complete : bool;
  next_team : option TournamentRegistrationId;
  next_action_type : option VetoActionType.t;
}.
End VetoActionResult.

Module MapVetoStatus.
Inductive t := Available | Banned | Picked | Decider.
#[global] Instance eq_dec : EqDecision t.
Proof. solve_decision. Defined.
Definition fmt (self : t) : string :=
  match self with
  | Available => "available" | Banned => "banned" | Picked => "picked" | Decider => "decider"
  end.
End MapVetoStatus.

Module MapStatus.
Record t := mk {
  map_id : string;
  map_name : string;
  image_url : option string;
  status : MapVetoStatus.t;
  banned_by : option TournamentRegistrationId;
  picked_by : option TournamentRegistrationId;
  game_number : option Z;
}.
End MapStatus.

Module VetoSessionState.
Record t := mk {
  session : VetoSession.t;
  actions : list VetoAction.t;
  format : VetoFormatConfig.t;
  current_action : option VetoFormatActionConfig.t;
  maps_with_status : list MapStatus.t;
}.
End VetoSessionState.

(** ** What a service call draws at random

    [rand]'s [choose] over a list, the game plugin's random side (if it has
    one), and the fallback coin. *)
Module Chance.
Record t := mk {
  choose : list string → option string;
  random_side : option string;
  heads : bool;
}.
(** [IndexedRandom::choose]: an element, unless there is none. *)
Record fair (self : t) : Prop := {
  choose_elem l x : choose self l = Some x → x ∈ l;
  choose_some l : l ≠ [] → is_Some (choose self l);
}.
Definition side (self : t) : string :=
  default (if heads self then "ct" else "t") (random_side self).
End Chance.
