(* ===== verification/Rows.v ===== *)
(** The rows of the tables the services share, as crates/portal-domain/src/entities
    declares them, over what the program takes from third-party code: JSON
    values and the texts of identifiers, instants and database errors. *)
From Stdlib Require Import Floats.SpecFloat.
From stdpp Require Import base list strings gmap.
From S2P Require Import Prelude Errors Wire TournamentTypes Entities CoreEnums DomainEnums FormatPlan.

(** What the tables take from third-party code: JSONB values, error messages. *)
Class Platform := {
  Json : Type;
  #[global] platform_json :: JsonValue Json;
  json_true : Json;                                (** [Value::Bool(true)] *)
  json_of_int : Z → Json;                          (** [Value::Number] of an integer *)
  json_null_value : Json;                          (** [Value::Null] *)
  json_array : list Json → Json;                   (** [Value::Array] *)
  json_bool : Json → option bool;                  (** [Value::as_bool] *)
  json_i64 : Json → option Z;                      (** [Value::as_i64] *)
  uuid_string : Uuid → string;                     (** [Uuid]'s [Display] *)
  datetime_string : DateTime → string;             (** [DateTime<Utc>]'s [Display] *)
  datetime_debug : DateTime → string;              (** its [Debug] *)
  date_max : Z;                                    (** [NaiveDate::MAX], in days since 1970 *)
  constraint_violation : string → string;  (** sqlx's message for a violated constraint *)
  error_string : DomainError.t → string;   (** the [Display] thiserror derives for [DomainError] *)
}.

Module HeadToHeadRecord.
Record t := mk { wins : Z; losses : Z; draws : Z }.
#[global] Instance eta_t : Eta t := λ r, mk (r.(wins)) (r.(losses)) (r.(draws)).
Definition default : t := mk 0 0 0.
End HeadToHeadRecord.

Module HeadToHead.
Record t := mk { records : gmap TournamentRegistrationId HeadToHeadRecord.t }.
Definition new : t := mk ∅.
Definition get (self : t) (opponent : TournamentRegistrationId) : option HeadToHeadRecord.t :=
  records self !! opponent.
Definition entry (self : t) (opponent : TournamentRegistrationId) : HeadToHeadRecord.t :=
  default HeadToHeadRecord.default (get self opponent).
Definition record_win (self : t) (opponent : TournamentRegistrationId) : t :=
  let e := entry self opponent in
  mk (<[opponent := e <| HeadToHeadRecord.wins := i32_add (HeadToHeadRecord.wins e) 1 |>]> (records self)).
Definition record_loss (self : t) (opponent : TournamentRegistrationId) : t :=
  let e := entry self opponent in
  mk (<[opponent := e <| HeadToHeadRecord.losses := i32_add (HeadToHeadRecord.losses e) 1 |>]> (records self)).
Definition record_draw (self : t) (opponent : TournamentRegistrationId) : t :=
  let e := entry self opponent in
  mk (<[opponent := e <| HeadToHeadRecord.draws := i32_add (HeadToHeadRecord.draws e) 1 |>]> (records self)).
End HeadToHead.

Module TournamentBracket.
Record t := mk {
  id : TournamentBracketId;
  stage_id : TournamentStageId;
  tournament_id : TournamentId;
  name : string;
  bracket_type : BracketType.t;
  total_rounds : Z;
  current_round : Z;
  group_number : option Z;
  status : BracketStatus.t;
  created_at : DateTime;
  updated_at : DateTime;
}.
#[global] Instance eta_t : Eta t := λ r,
  mk (r.(id)) (r.(stage_id)) (r.(tournament_id)) (r.(name)) (r.(bracket_type))
    (r.(total_rounds)) (r.(current_round)) (r.(group_number)) (r.(status))
    (r.(created_at)) (r.(updated_at)).
End TournamentBracket.

Module TournamentStanding.
Record t := mk {
  id : Uuid;
  bracket_id : TournamentBracketId;
  registration_id : TournamentRegistrationId;
  participant_name : option string;
  position : Z;
  matches_played : Z;
  matches_won : Z;
  matches_lost : Z;
  matches_drawn : Z;
  game_wins : Z;
  game_losses : Z;
  game_differential : Z;
  buchholz_score : option spec_float;
  opponent_match_wins : option spec_float;
  head_to_head : HeadToHead.t;
  tiebreaker_score : spec_float;
  is_tied : bool;
  points : Z;
  updated_at : DateTime;
}.
#[global] Instance eta_t : Eta t := λ r,
  mk (r.(id)) (r.(bracket_id)) (r.(registration_id)) (r.(participant_name)) (r.(position))
    (r.(matches_played)) (r.(matches_won)) (r.(matches_lost)) (r.(matches_drawn))
    (r.(game_wins)) (r.(game_losses)) (r.(game_differential)) (r.(buchholz_score))
    (r.(opponent_match_wins)) (r.(head_to_head)) (r.(tiebreaker_score)) (r.(is_tied))
    (r.(points)) (r.(updated_at)).
End TournamentStanding.

Module CreateTournamentBracket.
Record t := mk {
  stage_id : TournamentStageId;
  tournament_id : TournamentId;
  name : string;
  bracket_type : BracketType.t;
  total_rounds : Z;
  group_number : option Z;
}.
End CreateTournamentBracket.

Module UpdateTournamentBracket.
Record t := mk {
  name : option string;
  total_rounds : option Z;
  current_round : option Z;
}.
End UpdateTournamentBracket.

(** A row of [tournament_bracket_byes]. *)
Module BracketBye.
Record t := mk {
  bracket_id : TournamentBracketId;
  registration_id : TournamentRegistrationId;
  round : Z;
  points : Z;
}.
End BracketBye.

Module TournamentStage.
Record t `{Platform} := mk {
  id : TournamentStageId;
  tournament_id : TournamentId;
  name : string;
  stage_order : Z;
  format : StageFormat.t;
  format_settings : Json;
  advancement_count : option Z;
  advancement_rule : AdvancementRule.t;
  match_format : option MatchFormat.t;
  map_veto_format : option string;
  status : StageStatus.t;
  starts_at : option DateTime;
  ends_at : option DateTime;
  created_at : DateTime;
  updated_at : DateTime;
}.
#[global] Instance eta_t `{Platform} : Eta t := λ r,
  mk _ (r.(id)) (r.(tournament_id)) (r.(name)) (r.(stage_order)) (r.(format))
    (r.(format_settings)) (r.(advancement_count)) (r.(advancement_rule)) (r.(match_format))
    (r.(map_veto_format)) (r.(status)) (r.(starts_at)) (r.(ends_at)) (r.(created_at))
    (r.(updated_at)).
Section methods.
Context `{Platform}.
Definition is_pending (self : t) : bool :=
  match status self with StageStatus.Pending => true | _ => false end.
Definition is_active (self : t) : bool :=
  match status self with StageStatus.Active => true | _ => false end.
Definition is_complete (self : t) : bool :=
  match status self with StageStatus.Completed => true | _ => false end.
Definition is_terminal (self : t) : bool := StageStatus.is_terminal (status self).
Definition effective_match_format (self : t) (tournament_default : MatchFormat.t) : MatchFormat.t :=
  default tournament_default (match_format self).
End methods.
End TournamentStage.

(** A row of [match_status_log]. *)
Module MatchStatusLog.
Record t `{Platform} := mk {
  id : Uuid;
  match_id : TournamentMatchId;
  from_status : TournamentMatchStatus.t;
  to_status : TournamentMatchStatus.t;
  transition_reason : option string;
  triggered_by_user_id : option UserId;
  triggered_by_system : bool;
  metadata : Json;
  transitioned_at : DateTime;
}.
Definition is_user_triggered `{Platform} (self : t) : bool :=
  bool_decide (is_Some (triggered_by_user_id self)) && negb (triggered_by_system self).
Definition is_system_triggered `{Platform} (self : t) : bool :=
  triggered_by_system self && bool_decide (triggered_by_user_id self = None).
Definition is_admin_override `{Platform} (self : t) : bool :=
  bool_decide (is_Some (triggered_by_user_id self)) && triggered_by_system self.
End MatchStatusLog.

(** A row of [forfeit_records]. *)
Module ForfeitRecord.
Record t := mk {
  id : Uuid;
  match_id : TournamentMatchId;
  forfeiting_registration_id : TournamentRegistrationId;
  forfeit_type : ForfeitType.t;
  reason : option string;
  triggered_by_user_id : option UserId;
  triggered_by_system : bool;
  forfeited_at : DateTime;
}.
End ForfeitRecord.
