(* ===== verification/ResultModel.v ===== *)
(** Result claims (crates/portal-domain/src/entities/result_claim.rs), disputes
    with their messages (entities/dispute.rs), the audit rows of corrected
    scores (entities/audit.rs), and the rows of other components they read. *)
From Stdlib Require Import Floats.SpecFloat.
From stdpp Require Import base list strings pretty.
From S2P Require Import Prelude Wire CoreEnums DomainEnums Rows.
#[local] Open Scope Z_scope.

(** ** Claims *)

Module GameResultInput.
Record t := mk {
  game_number : Z;
  map_id : string;
  participant1_score : Z;
  participant2_score : Z;
  duration_seconds : option Z;
  evidence_ids : list EvidenceId;
  demo_link_id : option DemoMatchLinkId;
}.
End GameResultInput.

Module GameResult.
Record t := mk {
  game_number : Z;
  map_id : string;
  participant1_score : Z;
  participant2_score : Z;
  winner_registration_id : TournamentRegistrationId;
  started_at : option DateTime;
  completed_at : option DateTime;
  duration_seconds : option Z;
  evidence_ids : list EvidenceId;
  demo_link_id : option DemoMatchLinkId;
}.
Definition participant1_won (self : t) : bool :=
  bool_decide (participant1_score self > participant2_score self).
Definition participant2_won (self : t) : bool :=
  bool_decide (participant2_score self > participant1_score self).
Definition winning_score (self : t) : Z :=
  if bool_decide (participant1_score self > participant2_score self)
  then participant1_score self else participant2_score self.
Definition losing_score (self : t) : Z :=
  if bool_decide (participant1_score self < participant2_score self)
  then participant1_score self else participant2_score self.
End GameResult.

Module ResultClaim.
Record t := mk {
  id : ResultClaimId;
  match_id : TournamentMatchId;
  submitted_by_registration_id : option TournamentRegistrationId;
  submitted_by_user_id : option UserId;
  source : string;
  claimed_winner_registration_id : TournamentRegistrationId;
  claimed_participant1_score : Z;
  claimed_participant2_score : Z;
  game_results : list GameResult.t;
  status : ClaimStatus.t;
  confirmed_at : option DateTime;
  confirmed_by_registration_id : option TournamentRegistrationId;
  confirmed_by_user_id : option UserId;
  auto_confirm_at : option DateTime;
  was_auto_confirmed : bool;
  evidence_ids : list EvidenceId;
  demo_link_ids : list DemoMatchLinkId;
  submitter_notes : option string;
  created_at : DateTime;
  updated_at : DateTime;
}.
#[global] Instance eta_t : Eta t := λ r,
  mk (r.(id)) (r.(match_id)) (r.(submitted_by_registration_id)) (r.(submitted_by_user_id))
    (r.(source)) (r.(claimed_winner_registration_id)) (r.(claimed_participant1_score))
    (r.(claimed_participant2_score)) (r.(game_results)) (r.(status)) (r.(confirmed_at))
    (r.(confirmed_by_registration_id)) (r.(confirmed_by_user_id)) (r.(auto_confirm_at))
    (r.(was_auto_confirmed)) (r.(evidence_ids)) (r.(demo_link_ids)) (r.(submitter_notes))
    (r.(created_at)) (r.(updated_at)).

Definition is_pending (self : t) : bool :=
  match status self with ClaimStatus.Pending => true | _ => false end.
Definition is_confirmed (self : t) : bool :=
  match status self with ClaimStatus.Confirmed => true | _ => false end.
Definition is_disputed (self : t) : bool :=
  match status self with ClaimStatus.Disputed => true | _ => false end.
Definition is_terminal (self : t) : bool :=
  match status self with ClaimStatus.Pending => false | _ => true end.
Definition is_auto_confirm_due (now : DateTime) (self : t) : bool :=
  is_pending self &&
  match auto_confirm_at self with Some at_ => bool_decide (at_ ≤ now) | None => false end.
Definition can_be_confirmed_by (self : t) (registration_id : TournamentRegistrationId) : bool :=
  is_pending self && negb (bool_decide (submitted_by_registration_id self = Some registration_id)).
Definition scores (self : t) : Z * Z :=
  (claimed_participant1_score self, claimed_participant2_score self).
Definition game_count (self : t) : Z := Z.of_nat (length (game_results self)).
End ResultClaim.

Module ResultValidationError.
Inductive t :=
| InvalidWinner
| ScoreWinnerMismatch
| InsufficientGames (required provided : Z)
| GameScoresMismatch
| NonSequentialGameNumber (_ : Z)
| NegativeScore
| TiedGame
| UnknownMap (_ : string)
| MapNotInVeto (_ : string)
| PluginValidation (_ : string).
Definition fmt (self : t) : string :=
  match self with
  | InvalidWinner => "Winner must be a match participant"
  | ScoreWinnerMismatch => "Scores don't match the claimed winner"
  | InsufficientGames required provided =>
      "Insufficient games: expected at least " +:+ pretty required +:+ ", got " +:+ pretty provided
  | GameScoresMismatch => "Game scores don't sum to series score"
  | NonSequentialGameNumber n => "Game number " +:+ pretty n +:+ " is not sequential"
  | NegativeScore => "Scores must be non-negative"
  | TiedGame => "Game cannot end in a tie"
  | UnknownMap m => "Map '" +:+ m +:+ "' is not part of this match's map pool"
  | MapNotInVeto m => "Map '" +:+ m +:+ "' was not selected during this match's map veto"
  | PluginValidation e => "Plugin validation failed: " +:+ e
  end.
End ResultValidationError.

(** ** Disputes *)

Module DisputeResolution.
Record t := mk {
  resolution_type : ResolutionType.t;
  notes : string;
  new_winner_registration_id : option TournamentRegistrationId;
  new_participant1_score : option Z;
  new_participant2_score : option Z;
}.
End DisputeResolution.

Module Dispute.
Record t := mk {
  id : DisputeId;
  match_id : TournamentMatchId;
  result_claim_id : option ResultClaimId;
  disputed_by_registration_id : TournamentRegistrationId;
  disputed_by_user_id : UserId;
  reason : DisputeReason.t;
  description : string;
  evidence_ids : list EvidenceId;
  original_winner_registration_id : option TournamentRegistrationId;
  original_participant1_score : option Z;
  original_participant2_score : option Z;
  status : DisputeStatus.t;
  priority : DisputePriority.t;
  assigned_to_user_id : option UserId;
  resolved_at : option DateTime;
  resolved_by_user_id : option UserId;
  resolution : option DisputeResolution.t;
  created_at : DateTime;
  updated_at : DateTime;
}.
#[global] Instance eta_t : Eta t := λ r,
  mk (r.(id)) (r.(match_id)) (r.(result_claim_id)) (r.(disputed_by_registration_id))
    (r.(disputed_by_user_id)) (r.(reason)) (r.(description)) (r.(evidence_ids))
    (r.(original_winner_registration_id)) (r.(original_participant1_score))
    (r.(original_participant2_score)) (r.(status)) (r.(priority)) (r.(assigned_to_user_id))
    (r.(resolved_at)) (r.(resolved_by_user_id)) (r.(resolution)) (r.(created_at)) (r.(updated_at)).

Definition is_pending (self : t) : bool :=
  match status self with DisputeStatus.Pending => true | _ => false end.
Definition is_under_review (self : t) : bool :=
  match status self with DisputeStatus.UnderReview => true | _ => false end.
Definition is_resolved (self : t) : bool :=
  match status self with DisputeStatus.Resolved => true | _ => false end.
Definition is_terminal (self : t) : bool :=
  match status self with DisputeStatus.Resolved | DisputeStatus.Cancelled => true | _ => false end.
Definition can_assign (self : t) : bool :=
  match status self with DisputeStatus.Pending => true | _ => false end.
Definition can_resolve (self : t) : bool :=
  match status self with DisputeStatus.Pending | DisputeStatus.UnderReview => true | _ => false end.
End Dispute.

Module DisputeMessage.
Record t := mk {
  id : DisputeMessageId;
  dispute_id : DisputeId;
  author_user_id : UserId;
  author_type : AuthorType.t;
  message : string;
  evidence_ids : list EvidenceId;
  is_internal : bool;
  created_at : DateTime;
}.
Definition is_public (self : t) : bool := negb (is_internal self).
Definition is_system_message (self : t) : bool :=
  match author_type self with AuthorType.System => true | _ => false end.
End DisputeMessage.

(** ** The change log *)

Module ChangeType.
Inductive t := Create | Update | Delete | Revert.
#[global] Instance eq_dec : EqDecision t.
Proof. solve_decision. Defined.
Definition fmt (self : t) : string :=
  match self with
  | Create => "create"
  | Update => "update"
  | Delete => "delete"
  | Revert => "revert"
  end.
(** The prefix of the message is not the other enums' ["invalid .."]. *)
Definition from_str (s : string) : result t string :=
  result_map_err (λ _, "Unknown change type: " +:+ s)
    (match_lowercase "change type"
       [("create", Create); ("update", Update); ("delete", Delete); ("revert", Revert)] s).
End ChangeType.

Module EntityChange.
Record t `{Platform} := mk {
  id : Uuid;
  entity_type : string;
  entity_id : Uuid;
  change_type : ChangeType.t;
  field_name : option string;
  old_value : option Json;
  new_value : option Json;
  changed_by : PlayerId;
  reverted_at : option DateTime;
  reverted_by : option PlayerId;
  revert_reason : option string;
  request_id : option string;
  ip_address : option string;
  user_agent : option string;
  created_at : DateTime;
}.
End EntityChange.

(** ** Rows of other components the claims read *)

(** A row of [demo_match_links] (entities/demo.rs). *)
Module DemoMatchLink.
Record t `{Platform} := mk {
  id : DemoMatchLinkId;
  demo_id : Uuid;
  match_id : TournamentMatchId;
  game_number : option Z;
  link_type : DemoLinkType.t;
  confidence_score : option spec_float;
  validated : bool;
  validated_at : option DateTime;
  validation_result : option Json;
  linked_by_user_id : option UserId;
  linked_at : DateTime;
  created_at : DateTime;
}.
End DemoMatchLink.

(** A row of [tournament_adhoc_team_members] (entities/pug.rs). *)
Module AdhocTeamMember.
Record t := mk {
  adhoc_team_id : Uuid;
  player_id : PlayerId;
  is_captain : bool;
}.
End AdhocTeamMember.
