(* ===== verification/SagaModel.v ===== *)
(** Match completion: its executions (crates/portal-domain/src/entities/saga.rs),
    the reviews of results that demos contradict (entities/result_review.rs,
    entities/demo_validation.rs), the log of bracket progressions
    (repositories/evidence.rs), and what goes into a completion and comes out
    of it (services/tournament/match_completion.rs, saga.rs). *)
From Stdlib Require Import Floats.SpecFloat.
From stdpp Require Import base list strings.
From S2P Require Import Prelude Wire DomainEnums Rows.
#[local] Open Scope Z_scope.

(** ** Demo validation *)

(** [f32]: binary32, round to nearest even. *)
Definition f32_mul : spec_float → spec_float → spec_float := SFmul 24 128.
Definition f32_sub : spec_float → spec_float → spec_float := SFsub 24 128.
Definition f32_zero : spec_float := S754_zero false.
Definition f32_one : spec_float := S754_finite false 8388608 (-23).

Module TeamSide.
Inductive t := Team1 | Team2.
#[global] Instance eq_dec : EqDecision t.
Proof. solve_decision. Defined.
Definition fmt (self : t) : string := match self with Team1 => "team1" | Team2 => "team2" end.
End TeamSide.

Module UnrecognizedPlayer.
Record t := mk {
  steam_id : string;
  player_name : string;
  team_side : TeamSide.t;
  registration_side : Z;
}.
End UnrecognizedPlayer.

Module DemoValidationResult.
Record t := mk {
  is_valid : bool;
  confidence : spec_float;
  extracted_score : option (Z * Z);
  claimed_score : Z * Z;
  map_match : bool;
  warnings : list string;
  errors : list string;
}.
#[global] Instance eta_t : Eta t := λ r,
  mk (r.(is_valid)) (r.(confidence)) (r.(extracted_score)) (r.(claimed_score)) (r.(map_match))
    (r.(warnings)) (r.(errors)).
Definition default : t := mk false f32_zero None (0, 0) false [] [].
Definition valid (extracted_score claimed_score : Z * Z) : t :=
  mk true f32_one (Some extracted_score) claimed_score true [] [].
Definition invalid (error : string) (claimed_score : Z * Z) : t :=
  mk false f32_zero None claimed_score false [] [error].
Definition has_roster_mismatch (self : t) : bool :=
  existsb (λ w, let lower := to_lowercase w in
    str_contains lower "player" || str_contains lower "roster" || str_contains lower "unrecognized")
    (warnings self).
Definition has_score_mismatch (self : t) : bool :=
  existsb (λ e, str_contains e "Score mismatch") (errors self).
Definition has_winner_mismatch (self : t) : bool :=
  existsb (λ e, str_contains e "Winner mismatch") (errors self).
Definition has_map_mismatch (self : t) : bool :=
  existsb (λ e, str_contains e "Map mismatch") (errors self).
Definition add_warning (self : t) (warning : string) (confidence_penalty : spec_float) : t :=
  self <| warnings := warnings self ++ [warning] |>
       <| confidence := f32_mul (confidence self) (f32_sub f32_one confidence_penalty) |>.
Definition add_error (self : t) (error : string) : t :=
  self <| errors := errors self ++ [error] |> <| is_valid := false |> <| confidence := f32_zero |>.
End DemoValidationResult.

Module DemoValidationOutcome.
Record t := mk {
  link_id : DemoMatchLinkId;
  validation : DemoValidationResult.t;
  unrecognized_players : list UnrecognizedPlayer.t;
}.
End DemoValidationOutcome.

(** ** Reviews *)

Module ResultReviewStatus.
Inductive t :=
| PendingAcknowledgment
| PendingAdminReview
| Acknowledged
| Approved
| Rejected.
#[global] Instance eq_dec : EqDecision t.
Proof. solve_decision. Defined.
Definition default : t := PendingAcknowledgment.
Definition is_terminal (self : t) : bool :=
  match self with Approved | Rejected => true | _ => false end.
Definition is_pending (self : t) : bool :=
  match self with PendingAcknowledgment | PendingAdminReview => true | _ => false end.
Definition as_str (self : t) : string :=
  match self with
  | PendingAcknowledgment => "pending_acknowledgment"
  | PendingAdminReview => "pending_admin_review"
  | Acknowledged => "acknowledged"
  | Approved => "approved"
  | Rejected => "rejected"
  end.
Definition fmt (self : t) : string := as_str self.
Definition from_str (s : string) : result t string :=
  match_lowercase "result review status"
    [("pending_acknowledgment", PendingAcknowledgment);
     ("pending_admin_review", PendingAdminReview);
     ("acknowledged", Acknowledged);
     ("approved", Approved);
     ("rejected", Rejected)] s.
#[global] Instance wire : WireEnum t :=
  {| wire_variants := [PendingAcknowledgment; PendingAdminReview; Acknowledged; Approved; Rejected];
     wire_fmt := fmt; wire_from_str := from_str |}.
#[global] Instance wire_laws : WireLaws t.
Proof. solve_wire_laws. Qed.
End ResultReviewStatus.

Module ResultReview.
Record t := mk {
  id : ResultReviewId;
  result_claim_id : ResultClaimId;
  match_id : TournamentMatchId;
  roster_mismatch : bool;
  score_mismatch : bool;
  winner_mismatch : bool;
  progression_stalled : bool;
  demo_link_id : option DemoMatchLinkId;
  validation_result : option DemoValidationResult.t;
  unrecognized_players : list UnrecognizedPlayer.t;
  status : ResultReviewStatus.t;
  captain1_registration_id : TournamentRegistrationId;
  captain1_acknowledged : bool;
  captain1_acknowledged_at : option DateTime;
  captain1_acknowledged_by_user_id : option UserId;
  captain2_registration_id : TournamentRegistrationId;
  captain2_acknowledged : bool;
  captain2_acknowledged_at : option DateTime;
  captain2_acknowledged_by_user_id : option UserId;
  reviewed_by_user_id : option UserId;
  reviewed_at : option DateTime;
  admin_notes : option string;
  created_at : DateTime;
  updated_at : DateTime;
}.
#[global] Instance eta_t : Eta t := λ r,
  mk (r.(id)) (r.(result_claim_id)) (r.(match_id)) (r.(roster_mismatch))
    (r.(score_mismatch)) (r.(winner_mismatch)) (r.(progression_stalled)) (r.(demo_link_id))
    (r.(validation_result)) (r.(unrecognized_players)) (r.(status))
    (r.(captain1_registration_id)) (r.(captain1_acknowledged))
    (r.(captain1_acknowledged_at)) (r.(captain1_acknowledged_by_user_id))
    (r.(captain2_registration_id)) (r.(captain2_acknowledged))
    (r.(captain2_acknowledged_at)) (r.(captain2_acknowledged_by_user_id))
    (r.(reviewed_by_user_id)) (r.(reviewed_at)) (r.(admin_notes)) (r.(created_at))
    (r.(updated_at)).
(** The constructors draw their identifier and read the clock: [id] and [now]. *)
Definition for_roster_mismatch (id : ResultReviewId) (now : DateTime)
    (result_claim_id : ResultClaimId) (match_id : TournamentMatchId)
    (demo_link_id : option DemoMatchLinkId) (validation_result : DemoValidationResult.t)
    (unrecognized_players : list UnrecognizedPlayer.t)
    (captain1_registration_id captain2_registration_id : TournamentRegistrationId) : t :=
  mk id result_claim_id match_id true false false false demo_link_id (Some validation_result)
    unrecognized_players ResultReviewStatus.PendingAcknowledgment
    captain1_registration_id false None None captain2_registration_id false None None
    None None None now now.
Definition for_score_mismatch (id : ResultReviewId) (now : DateTime)
    (result_claim_id : ResultClaimId) (match_id : TournamentMatchId)
    (demo_link_id : option DemoMatchLinkId) (validation_result : DemoValidationResult.t)
    (score_mismatch winner_mismatch : bool) (unrecognized_players : list UnrecognizedPlayer.t)
    (captain1_registration_id captain2_registration_id : TournamentRegistrationId) : t :=
  mk id result_claim_id match_id (match unrecognized_players with [] => false | _ => true end)
    score_mismatch winner_mismatch false demo_link_id (Some validation_result)
    unrecognized_players ResultReviewStatus.PendingAdminReview
    captain1_registration_id false None None captain2_registration_id false None None
    None None None now now.
Definition for_progression_stall (id : ResultReviewId) (now : DateTime)
    (result_claim_id : ResultClaimId) (match_id : TournamentMatchId)
    (captain1_registration_id captain2_registration_id : TournamentRegistrationId) : t :=
  mk id result_claim_id match_id false false false true None None []
    ResultReviewStatus.PendingAdminReview
    captain1_registration_id false None None captain2_registration_id false None None
    None None None now now.
Definition both_captains_acknowledged (self : t) : bool :=
  captain1_acknowledged self && captain2_acknowledged self.
Definition is_roster_only (self : t) : bool :=
  roster_mismatch self && negb (score_mismatch self) && negb (winner_mismatch self).
Definition requires_admin (self : t) : bool :=
  score_mismatch self || winner_mismatch self || progression_stalled self.
Definition has_any_mismatch (self : t) : bool :=
  roster_mismatch self || score_mismatch self || winner_mismatch self.
Definition get_captain_side (self : t) (registration_id : TournamentRegistrationId) : option Z :=
  if bool_decide (registration_id = captain1_registration_id self) then Some 1
  else if bool_decide (registration_id = captain2_registration_id self) then Some 2
  else None.
Definition is_captain_acknowledged (self : t) (captain_side : Z) : bool :=
  if bool_decide (captain_side = 1) then captain1_acknowledged self
  else if bool_decide (captain_side = 2) then captain2_acknowledged self
  else false.
End ResultReview.

(** ** Executions *)

Module StepRecord.
Record t `{Platform} := mk {
  step : Z;
  name : string;
  status : StepStatus.t;
  started_at : DateTime;
  completed_at : option DateTime;
  output : option Json;
  error : option string;
  retry_count : Z;
}.
End StepRecord.

Module SagaContext.
Record t := mk {
  tournament_id : option TournamentId;
  match_id : option TournamentMatchId;
  correlation_id : option string;
}.
Definition default : t := mk None None None.
Definition with_tournament (tournament_id : TournamentId) : t := mk (Some tournament_id) None None.
Definition with_match (match_id : TournamentMatchId) (tournament_id : TournamentId) : t :=
  mk (Some tournament_id) (Some match_id) None.
Definition with_correlation (self : t) (correlation_id : string) : t :=
  mk (tournament_id self) (match_id self) (Some correlation_id).
End SagaContext.

Module SagaExecution.
Record t `{Platform} := mk {
  id : SagaId;
  saga_type : string;
  saga_version : Z;
  tournament_id : option TournamentId;
  match_id : option TournamentMatchId;
  correlation_id : option string;
  input_data : Json;
  current_step : Z;
  status : SagaStatus.t;
  step_history : list StepRecord.t;
  last_error : option string;
  retry_count : Z;
  max_retries : Z;
  started_at : option DateTime;
  completed_at : option DateTime;
  created_at : DateTime;
  updated_at : DateTime;
}.
#[global] Instance eta_t `{Platform} : Eta t := λ r,
  mk _ (r.(id)) (r.(saga_type)) (r.(saga_version)) (r.(tournament_id)) (r.(match_id))
    (r.(correlation_id)) (r.(input_data)) (r.(current_step)) (r.(status)) (r.(step_history))
    (r.(last_error)) (r.(retry_count)) (r.(max_retries)) (r.(started_at)) (r.(completed_at))
    (r.(created_at)) (r.(updated_at)).
Section execution.
Context `{Platform}.
(** The constructor draws its identifier; every method reads the clock. *)
Definition new (id : SagaId) (now : DateTime) (saga_type : string) (saga_version : Z)
    (input_data : Json) (context : SagaContext.t) : t :=
  mk _ id saga_type saga_version (SagaContext.tournament_id context) (SagaContext.match_id context)
    (SagaContext.correlation_id context) input_data 0 SagaStatus.Pending [] None 0 3 None None now now.
Definition is_pending (self : t) : bool :=
  match status self with SagaStatus.Pending => true | _ => false end.
Definition is_running (self : t) : bool :=
  match status self with SagaStatus.Running => true | _ => false end.
Definition is_completed (self : t) : bool :=
  match status self with SagaStatus.Completed => true | _ => false end.
Definition is_failed (self : t) : bool :=
  match status self with SagaStatus.Failed => true | _ => false end.
Definition is_paused (self : t) : bool :=
  match status self with SagaStatus.Paused => true | _ => false end.
Definition is_terminal (self : t) : bool :=
  match status self with
  | SagaStatus.Completed | SagaStatus.Failed | SagaStatus.Compensated => true
  | _ => false
  end.
Definition can_retry (self : t) : bool := bool_decide (retry_count self < max_retries self).
Definition start (now : DateTime) (self : t) : t :=
  self <| status := SagaStatus.Running |> <| started_at := Some now |> <| updated_at := now |>.
Definition complete_step (now : DateTime) (step_name : string) (output : option Json) (self : t) : t :=
  self <| step_history := step_history self ++
            [StepRecord.mk _ (current_step self) step_name StepStatus.Completed now (Some now) output
               None 0] |>
       <| current_step := i32_add (current_step self) 1 |>
       <| retry_count := 0 |>
       <| updated_at := now |>.
Definition fail_step (now : DateTime) (step_name error : string) (self : t) : t :=
  self <| step_history := step_history self ++
            [StepRecord.mk _ (current_step self) step_name StepStatus.Failed now None None
               (Some error) (retry_count self)] |>
       <| last_error := Some error |>
       <| retry_count := i32_add (retry_count self) 1 |>
       <| updated_at := now |>.
Definition complete (now : DateTime) (self : t) : t :=
  self <| status := SagaStatus.Completed |> <| completed_at := Some now |> <| updated_at := now |>.
Definition fail (now : DateTime) (error : string) (self : t) : t :=
  self <| status := SagaStatus.Failed |> <| last_error := Some error |>
       <| completed_at := Some now |> <| updated_at := now |>.
Definition pause (now : DateTime) (reason : string) (self : t) : t :=
  self <| status := SagaStatus.Paused |> <| last_error := Some reason |> <| updated_at := now |>.
Definition start_compensation (now : DateTime) (self : t) : t :=
  self <| status := SagaStatus.Compensating |> <| updated_at := now |>.
Definition complete_compensation (now : DateTime) (self : t) : t :=
  self <| status := SagaStatus.Compensated |> <| completed_at := Some now |> <| updated_at := now |>.
End execution.
End SagaExecution.

Module CreateSagaExecution.
Record t `{Platform} := mk {
  saga_type : string;
  saga_version : Z;
  tournament_id : option TournamentId;
  match_id : option TournamentMatchId;
  correlation_id : option string;
  input_data : Json;
  max_retries : Z;
}.
End CreateSagaExecution.

(** ** The progression log *)

Module ProgressionType.
Inductive t := WinnerAdvance | LoserDrop | LoserEliminate | ByeAdvance.
#[global] Instance eq_dec : EqDecision t.
Proof. solve_decision. Defined.
Definition fmt (self : t) : string :=
  match self with
  | WinnerAdvance => "winner_advance"
  | LoserDrop => "loser_drop"
  | LoserEliminate => "loser_eliminate"
  | ByeAdvance => "bye_advance"
  end.
Definition from_str (s : string) : result t string :=
  match_lowercase "progression type"
    [("winner_advance", WinnerAdvance); ("loser_drop", LoserDrop);
     ("loser_eliminate", LoserEliminate); ("bye_advance", ByeAdvance)] s.
#[global] Instance wire : WireEnum t :=
  {| wire_variants := [WinnerAdvance; LoserDrop; LoserEliminate; ByeAdvance];
     wire_fmt := fmt; wire_from_str := from_str |}.
#[global] Instance wire_laws : WireLaws t.
Proof. solve_wire_laws. Qed.
End ProgressionType.

Module ProgressionLog.
Record t := mk {
  id : Uuid;
  source_match_id : TournamentMatchId;
  target_match_id : option TournamentMatchId;
  registration_id : TournamentRegistrationId;
  progression_type : ProgressionType.t;
  target_position : option Z;
  saga_id : option SagaId;
  progressed_at : DateTime;
}.
End ProgressionLog.

Module CreateProgressionLog.
Record t := mk {
  source_match_id : TournamentMatchId;
  target_match_id : option TournamentMatchId;
  registration_id : TournamentRegistrationId;
  progression_type : ProgressionType.t;
  target_position : option Z;
  saga_id : option SagaId;
}.
End CreateProgressionLog.

(** ** A completion *)

Module MatchCompletionInput.
Record t := mk {
  match_id : TournamentMatchId;
  winner_registration_id : TournamentRegistrationId;
  loser_registration_id : TournamentRegistrationId;
  winner_score : Z;
  loser_score : Z;
  is_forfeit : bool;
  saga_id : option SagaId;
  result_claim_id : option ResultClaimId;
}.
#[global] Instance eta_t : Eta t := λ r,
  mk (r.(match_id)) (r.(winner_registration_id)) (r.(loser_registration_id))
    (r.(winner_score)) (r.(loser_score)) (r.(is_forfeit)) (r.(saga_id))
    (r.(result_claim_id)).
End MatchCompletionInput.

Module MatchCompletionOutput.
Record t := mk {
  match_id : TournamentMatchId;
  winner_next_match_id : option TournamentMatchId;
  loser_next_match_id : option TournamentMatchId;
  standings_updated : bool;
  stage_advanced : bool;
  review_pending : bool;
  review_id : option ResultReviewId;
  summary : string;
}.
#[global] Instance eta_t : Eta t := λ r,
  mk (r.(match_id)) (r.(winner_next_match_id)) (r.(loser_next_match_id)) (r.(standings_updated))
    (r.(stage_advanced)) (r.(review_pending)) (r.(review_id)) (r.(summary)).
End MatchCompletionOutput.

Module SagaDefinition.
Record t := mk {
  saga_type : string;
  version : Z;
  max_retries : Z;
}.
Definition new (saga_type : string) (version : Z) : t := mk saga_type version 3.
Definition with_max_retries (self : t) (max_retries : Z) : t :=
  mk (saga_type self) (version self) max_retries.
End SagaDefinition.

Module SagaResult.
Record t `{Platform} (T : Type) := mk {
  execution : SagaExecution.t;
  output : option T;
  success : bool;
}.
Arguments mk {_} {T}.
Arguments execution {_ T}.
Arguments output {_ T}.
Arguments success {_ T}.
Definition succeeded `{Platform} {T} (execution : SagaExecution.t) (output : T) : t T :=
  mk execution (Some output) true.
Definition failure `{Platform} {T} (execution : SagaExecution.t) : t T := mk execution None false.
Definition paused `{Platform} {T} (execution : SagaExecution.t) : t T := mk execution None false.
Definition is_paused `{Platform} {T} (self : t T) : bool := SagaExecution.is_paused (execution self).
End SagaResult.
