(* ===== verification/TournamentModel.v ===== *)
(** A tournament and what belongs to it before its matches: registrations to
    create or change, invitations, map pools, stages and standings to create
    (crates/portal-domain/src/entities/tournament.rs and
    repositories/tournament.rs), field for field; what the registration,
    check-in and seeding services report
    (services/tournament/{registration,checkin,seeding}.rs); and the merge of
    settings (services/settings_merge.rs). *)
From stdpp Require Import base list strings.
From S2P Require Import Prelude Wire TournamentTypes CoreEnums FormatPlan Rows.
#[local] Open Scope Z_scope.

(** ** Settings *)

Section merge.
Context `{JsonValue V}.

(** [Map::insert] and [Map::remove] on the entries of an object. *)
Definition obj_insert (key : string) (value : V) (obj : list (string * V)) : list (string * V) :=
  match list_find (λ kv, kv.1 = key) obj with
  | Some (i, _) => <[i := (key, value)]> obj
  | None => obj ++ [(key, value)]
  end.
Definition obj_remove (key : string) (obj : list (string * V)) : list (string * V) :=
  filter (λ kv, kv.1 ≠ key) obj.

Definition merge_entry (merged : list (string * V)) (kv : string * V) : list (string * V) :=
  let '(key, value) := kv in
  if json_null value then obj_remove key merged else obj_insert key value merged.

Definition shallow_merge (stored incoming : V) : V :=
  match json_object stored, json_object incoming with
  | Some stored_obj, Some incoming_obj => json_of_object (fold_left merge_entry incoming_obj stored_obj)
  | _, _ => incoming
  end.
End merge.

(** ** The tournament *)

Module Tournament.
Record t `{Platform} := mk {
  id : TournamentId;
  game_id : GameId;
  league_id : option LeagueId;
  season_id : option LeagueSeasonId;
  name : string;
  slug : string;
  description : option string;
  logo_url : option string;
  banner_url : option string;
  format : TournamentFormat.t;
  format_settings : Json;
  participant_type : TournamentParticipantType.t;
  kind : TournamentKind.t;
  team_size : option Z;
  min_participants : Z;
  max_participants : Z;
  registration_type : RegistrationType.t;
  registration_start : option DateTime;
  registration_end : option DateTime;
  check_in_start : option DateTime;
  check_in_end : option DateTime;
  check_in_required : bool;
  scheduling_mode : SchedulingMode.t;
  starts_at : option DateTime;
  ends_at : option DateTime;
  timezone_hint : option string;
  default_match_format : MatchFormat.t;
  default_map_veto_format : option string;
  prize_pool : option Json;
  rules_url : option string;
  settings : Json;
  withdrawal_policy : WithdrawalPolicy.t;
  status : TournamentStatus.t;
  archived_at : option DateTime;
  archived_by : option UserId;
  created_by : UserId;
  organization_id : option Uuid;
  created_at : DateTime;
  updated_at : DateTime;
  published_at : option DateTime;
  started_at : option DateTime;
  completed_at : option DateTime;
}.
#[global] Instance eta_t `{Platform} : Eta t := λ r,
  mk _ (r.(id)) (r.(game_id)) (r.(league_id)) (r.(season_id)) (r.(name)) (r.(slug))
    (r.(description)) (r.(logo_url)) (r.(banner_url)) (r.(format)) (r.(format_settings))
    (r.(participant_type)) (r.(kind)) (r.(team_size)) (r.(min_participants))
    (r.(max_participants)) (r.(registration_type)) (r.(registration_start))
    (r.(registration_end)) (r.(check_in_start)) (r.(check_in_end)) (r.(check_in_required))
    (r.(scheduling_mode)) (r.(starts_at)) (r.(ends_at)) (r.(timezone_hint))
    (r.(default_match_format)) (r.(default_map_veto_format)) (r.(prize_pool))
    (r.(rules_url)) (r.(settings)) (r.(withdrawal_policy)) (r.(status)) (r.(archived_at))
    (r.(archived_by)) (r.(created_by)) (r.(organization_id)) (r.(created_at))
    (r.(updated_at)) (r.(published_at)) (r.(started_at)) (r.(completed_at)).
Section methods.
Context `{Platform}.
(** Both windows are open at their bounds; [now] is [Utc::now()]. *)
Definition is_registration_open (now : DateTime) (self : t) : bool :=
  if bool_decide (is_Some (archived_at self))
     || negb (TournamentStatus.is_registration_open (status self)) then false
  else if from_option (λ start, bool_decide (now < start)) false (registration_start self) then false
  else if from_option (λ end_, bool_decide (end_ < now)) false (registration_end self) then false
  else true.
Definition is_check_in_open (now : DateTime) (self : t) : bool :=
  if negb (check_in_required self) then false
  else match check_in_start self, check_in_end self with
       | Some start, Some end_ => bool_decide (start ≤ now) && bool_decide (now ≤ end_)
       | _, _ => false
       end.
Definition is_draft (self : t) : bool :=
  match status self with TournamentStatus.Draft => true | _ => false end.
Definition is_active (self : t) : bool := TournamentStatus.is_active (status self).
Definition is_terminal (self : t) : bool := TournamentStatus.is_terminal (status self).
Definition has_started (self : t) : bool := bool_decide (is_Some (started_at self)).
Definition is_team_based (self : t) : bool :=
  match participant_type self with
  | TournamentParticipantType.Team | TournamentParticipantType.AdHoc => true
  | _ => false
  end.
Definition is_individual (self : t) : bool :=
  match participant_type self with TournamentParticipantType.Individual => true | _ => false end.
Definition is_league_tournament (self : t) : bool := bool_decide (is_Some (league_id self)).
End methods.
End Tournament.

Module CreateTournamentCommand.
Record t `{Platform} := mk {
  game_id : GameId;
  league_id : option LeagueId;
  season_id : option LeagueSeasonId;
  name : string;
  slug : string;
  description : option string;
  format : TournamentFormat.t;
  format_settings : option Json;
  participant_type : TournamentParticipantType.t;
  team_size : option Z;
  min_participants : Z;
  max_participants : Z;
  registration_type : RegistrationType.t;
  registration_start : option DateTime;
  registration_end : option DateTime;
  check_in_required : bool;
  check_in_start : option DateTime;
  check_in_end : option DateTime;
  scheduling_mode : SchedulingMode.t;
  starts_at : option DateTime;
  default_match_format : MatchFormat.t;
  default_map_veto_format : option string;
  withdrawal_policy : WithdrawalPolicy.t;
  rules_url : option string;
  settings : option Json;
  map_pool : list string;
}.
End CreateTournamentCommand.

Module UpdateTournamentCommand.
Record t `{Platform} := mk {
  name : option string;
  slug : option string;
  description : option string;
  logo_url : option string;
  banner_url : option string;
  format_settings : option Json;
  min_participants : option Z;
  max_participants : option Z;
  registration_start : option DateTime;
  registration_end : option DateTime;
  check_in_required : option bool;
  check_in_start : option DateTime;
  check_in_end : option DateTime;
  starts_at : option DateTime;
  ends_at : option DateTime;
  timezone_hint : option string;
  default_match_format : option MatchFormat.t;
  default_map_veto_format : option string;
  prize_pool : option Json;
  rules_url : option string;
  settings : option Json;
  withdrawal_policy : option WithdrawalPolicy.t;
}.
(** [Default]: every field left as it is. *)
Definition default `{Platform} : t := mk _ None None None None None None None None None None None None None None None None None None None None None None.
End UpdateTournamentCommand.

Module CreateTournament.
Record t `{Platform} := mk {
  game_id : GameId;
  league_id : option LeagueId;
  season_id : option LeagueSeasonId;
  name : string;
  slug : string;
  description : option string;
  format : TournamentFormat.t;
  format_settings : Json;
  participant_type : TournamentParticipantType.t;
  kind : TournamentKind.t;
  team_size : option Z;
  min_participants : Z;
  max_participants : Z;
  registration_type : RegistrationType.t;
  registration_start : option DateTime;
  registration_end : option DateTime;
  check_in_required : bool;
  check_in_start : option DateTime;
  check_in_end : option DateTime;
  scheduling_mode : SchedulingMode.t;
  starts_at : option DateTime;
  default_match_format : MatchFormat.t;
  default_map_veto_format : option string;
  withdrawal_policy : WithdrawalPolicy.t;
  rules_url : option string;
  settings : Json;
  created_by : UserId;
}.
End CreateTournament.

Module UpdateTournament.
Record t `{Platform} := mk {
  name : option string;
  slug : option string;
  description : option string;
  format_settings : option Json;
  min_participants : option Z;
  max_participants : option Z;
  registration_start : option DateTime;
  registration_end : option DateTime;
  check_in_required : option bool;
  check_in_start : option DateTime;
  check_in_end : option DateTime;
  starts_at : option DateTime;
  ends_at : option DateTime;
  timezone_hint : option string;
  default_match_format : option MatchFormat.t;
  default_map_veto_format : option string;
  prize_pool : option Json;
  rules_url : option string;
  settings : option Json;
  withdrawal_policy : option WithdrawalPolicy.t;
}.
(** [Default]: every field left as it is. *)
Definition default `{Platform} : t := mk _ None None None None None None None None None None None None None None None None None None None None.
End UpdateTournament.

(** ** Stages, standings, map pools *)

Module CreateTournamentStageCommand.
Record t `{Platform} := mk {
  tournament_id : TournamentId;
  name : string;
  stage_order : Z;
  format : StageFormat.t;
  format_settings : option Json;
  advancement_count : option Z;
  advancement_rule : AdvancementRule.t;
  match_format : option MatchFormat.t;
  map_veto_format : option string;
  starts_at : option DateTime;
  ends_at : option DateTime;
}.
End CreateTournamentStageCommand.

Module CreateTournamentStage.
Record t `{Platform} := mk {
  tournament_id : TournamentId;
  name : string;
  stage_order : Z;
  format : StageFormat.t;
  format_settings : Json;
  advancement_count : option Z;
  advancement_rule : AdvancementRule.t;
  match_format : option MatchFormat.t;
  map_veto_format : option string;
  starts_at : option DateTime;
  ends_at : option DateTime;
}.
End CreateTournamentStage.

Module UpdateTournamentStage.
Record t `{Platform} := mk {
  name : option string;
  format_settings : option Json;
  advancement_count : option Z;
  advancement_rule : option AdvancementRule.t;
  match_format : option MatchFormat.t;
  map_veto_format : option string;
  starts_at : option DateTime;
  ends_at : option DateTime;
}.
(** [Default]: every field left as it is. *)
Definition default `{Platform} : t := mk _ None None None None None None None None.
End UpdateTournamentStage.

Module CreateTournamentStanding.
Record t := mk {
  bracket_id : TournamentBracketId;
  registration_id : TournamentRegistrationId;
  position : Z;
}.
End CreateTournamentStanding.

Module TournamentMapPool.
Record t := mk {
  id : TournamentMapPoolId;
  tournament_id : TournamentId;
  stage_id : option TournamentStageId;
  maps : list string;
  veto_format_id : option string;
  created_at : DateTime;
  updated_at : DateTime;
}.
#[global] Instance eta_t : Eta t := λ r,
  mk (r.(id)) (r.(tournament_id)) (r.(stage_id)) (r.(maps)) (r.(veto_format_id))
    (r.(created_at)) (r.(updated_at)).
End TournamentMapPool.

Module UpsertTournamentMapPool.
Record t := mk {
  tournament_id : TournamentId;
  stage_id : option TournamentStageId;
  maps : list string;
  veto_format_id : option string;
}.
End UpsertTournamentMapPool.

(** ** Registrations and invitations *)

Module TournamentInvitation.
Record t := mk {
  id : TournamentInvitationId;
  tournament_id : TournamentId;
  user_id : option UserId;
  team_season_id : option LeagueTeamSeasonId;
  status : TournamentInvitationStatus.t;
  message : option string;
  invited_by : UserId;
  accepted_at : option DateTime;
  revoked_at : option DateTime;
  created_at : DateTime;
}.
#[global] Instance eta_t : Eta t := λ r,
  mk (r.(id)) (r.(tournament_id)) (r.(user_id)) (r.(team_season_id)) (r.(status))
    (r.(message)) (r.(invited_by)) (r.(accepted_at)) (r.(revoked_at)) (r.(created_at)).
Definition permits_registration (self : t) : bool :=
  TournamentInvitationStatus.permits_registration (status self).
End TournamentInvitation.

Module CreateTournamentInvitation.
Record t := mk {
  tournament_id : TournamentId;
  user_id : option UserId;
  team_season_id : option LeagueTeamSeasonId;
  message : option string;
  invited_by : UserId;
}.
End CreateTournamentInvitation.

Module CreateTournamentRegistration.
Record t := mk {
  tournament_id : TournamentId;
  team_season_id : option LeagueTeamSeasonId;
  player_id : option PlayerId;
  adhoc_team_id : option Uuid;
  participant_name : string;
  participant_logo_url : option string;
  registered_by : UserId;
  seed_rating : option Z;
  status : TournamentRegistrationStatus.t;
}.
End CreateTournamentRegistration.

Module UpdateTournamentRegistration.
Record t := mk {
  participant_name : option string;
  participant_logo_url : option string;
  seed : option Z;
  seed_rating : option Z;
  admin_notes : option string;
}.
#[global] Instance eta_t : Eta t := λ r,
  mk (r.(participant_name)) (r.(participant_logo_url)) (r.(seed)) (r.(seed_rating))
    (r.(admin_notes)).
Definition default : t := mk None None None None None.
End UpdateTournamentRegistration.

Module RegistrationCounts.
Record t := mk {
  total : Z;
  participating : Z;
  pending : Z;
  approved : Z;
  checked_in : Z;
  active : Z;
  eliminated : Z;
  disqualified : Z;
  withdrawn : Z;
  no_show : Z;
}.
End RegistrationCounts.

Module CheckInStatus.
Record t := mk {
  tournament_id : TournamentId;
  check_in_required : bool;
  check_in_open : bool;
  checked_in_count : Z;
  total_eligible : Z;
}.
End CheckInStatus.

(** A registration with the seed it was given. *)
Module Seeded.
Record t := mk {
  registration_id : TournamentRegistrationId;
  participant_name : string;
  seed : Z;
  seed_rating : option Z;
}.
End Seeded.
