(* ===== verification/ScheduleModel.v ===== *)
(** Agreeing on the time of a match: proposals
    (crates/portal-domain/src/entities/schedule_proposal.rs) and availability
    (entities/availability.rs), field for field. A [NaiveDate] is the number of
    days since 1 January 1970, a [NaiveTime] the nanoseconds since midnight. *)
From stdpp Require Import base list strings.
From S2P Require Import Prelude Errors Wire TournamentTypes Rows.
#[local] Open Scope Z_scope.

Abbreviation ScheduleProposalId := N (only parsing).
Abbreviation AvailabilityWindowId := N (only parsing).
Abbreviation AvailabilityExceptionId := N (only parsing).
Abbreviation SuggestedTimeId := N (only parsing).
Abbreviation NaiveDate := Z (only parsing).
Abbreviation NaiveTime := Z (only parsing).

(** [date.and_time(time).and_utc()]. *)
Definition day : Z := minutes (24 * 60).
Definition and_time_utc (date : NaiveDate) (time : NaiveTime) : DateTime := date * day + time.

(** [date.weekday().num_days_from_sunday()]: 1 January 1970 was a Thursday. *)
Definition num_days_from_sunday (date : NaiveDate) : Z := (date + 4) `mod` 7.

(** [Utc::now().date_naive()]. *)
Definition date_naive (now : DateTime) : NaiveDate := now / day.

(** [Duration::num_minutes]: whole minutes, towards zero. *)
Definition num_minutes (d : Z) : Z := Z.quot d (minutes 1).

(** [date += Duration::days(1)]: the last date has no next. *)
Definition next_date `{Platform} (date : NaiveDate) : outcome NaiveDate :=
  if bool_decide (date < date_max) then Ok (date + 1) else Err Panic.

(** ** Proposals *)

Module ScheduleProposal.
Record t := mk {
  id : ScheduleProposalId;
  match_id : TournamentMatchId;
  proposed_by_registration_id : TournamentRegistrationId;
  proposed_by_user_id : UserId;
  proposed_times : list DateTime;
  selected_time : option DateTime;
  responded_at : option DateTime;
  responded_by_user_id : option UserId;
  counter_proposal_id : option ScheduleProposalId;
  status : ProposalStatus.t;
  expires_at : DateTime;
  notes : option string;
  rejection_reason : option string;
  created_at : DateTime;
  updated_at : DateTime;
}.
#[global] Instance eta_t : Eta t := λ r,
  mk (r.(id)) (r.(match_id)) (r.(proposed_by_registration_id)) (r.(proposed_by_user_id)) (r.(proposed_times))
    (r.(selected_time)) (r.(responded_at)) (r.(responded_by_user_id)) (r.(counter_proposal_id)) (r.(status))
    (r.(expires_at)) (r.(notes)) (r.(rejection_reason)) (r.(created_at)) (r.(updated_at)).
Definition can_respond (now : DateTime) (self : t) : bool :=
  bool_decide (status self = ProposalStatus.Pending) && bool_decide (now < expires_at self).
Definition is_expired (now : DateTime) (self : t) : bool :=
  bool_decide (status self = ProposalStatus.Pending) && bool_decide (expires_at self ≤ now).
Definition contains_time (self : t) (time : DateTime) : bool :=
  existsb (λ t, bool_decide (t = time)) (proposed_times self).
End ScheduleProposal.

Module CreateScheduleProposalCommand.
Record t := mk {
  match_id : TournamentMatchId;
  proposed_by_registration_id : TournamentRegistrationId;
  proposed_by_user_id : UserId;
  proposed_times : list DateTime;
  expires_at : DateTime;
  notes : option string;
}.
End CreateScheduleProposalCommand.

Module CancelProposalCommand.
Record t := mk {
  proposal_id : ScheduleProposalId;
  cancelled_by_user_id : UserId;
  match_id : TournamentMatchId;
}.
End CancelProposalCommand.

(** ** Availability *)

Module AvailabilityWindow.
Record t := mk {
  id : AvailabilityWindowId;
  player_id : option PlayerId;
  registration_id : option TournamentRegistrationId;
  day_of_week : Z;
  start_time : NaiveTime;
  end_time : NaiveTime;
  timezone : option string;
  is_preferred : bool;
  notes : option string;
  created_at : DateTime;
  updated_at : DateTime;
}.
#[global] Instance eta_t : Eta t := λ r,
  mk (r.(id)) (r.(player_id)) (r.(registration_id)) (r.(day_of_week)) (r.(start_time)) (r.(end_time))
    (r.(timezone)) (r.(is_preferred)) (r.(notes)) (r.(created_at)) (r.(updated_at)).
End AvailabilityWindow.

Module CreateAvailabilityWindow.
Record t := mk {
  player_id : option PlayerId;
  registration_id : option TournamentRegistrationId;
  day_of_week : Z;
  start_time : NaiveTime;
  end_time : NaiveTime;
  timezone : option string;
  is_preferred : bool;
  notes : option string;
}.
End CreateAvailabilityWindow.

Module UpdateAvailabilityWindow.
Record t := mk {
  day_of_week : option Z;
  start_time : option NaiveTime;
  end_time : option NaiveTime;
  timezone : option (option string);
  is_preferred : option bool;
  notes : option (option string);
}.
Definition default : t := mk None None None None None None.
End UpdateAvailabilityWindow.

Module OverrideType.
Inductive t :=
| Blocked
| Available.
#[global] Instance eq_dec : EqDecision t.
Proof. solve_decision. Defined.
Definition fmt (self : t) : string :=
  match self with
  | Blocked => "blocked"
  | Available => "available"
  end.
Definition from_str (s : string) : result t string :=
  result_map_err (λ _, "Invalid override type: " +:+ s)
    (match_lowercase "override type" [("blocked", Blocked); ("available", Available)] s).
End OverrideType.

Module AvailabilityOverride.
Record t := mk {
  id : AvailabilityExceptionId;
  player_id : option PlayerId;
  registration_id : option TournamentRegistrationId;
  override_date : NaiveDate;
  start_time : option NaiveTime;
  end_time : option NaiveTime;
  override_type : OverrideType.t;
  reason : option string;
  created_at : DateTime;
  updated_at : DateTime;
}.
End AvailabilityOverride.

Module CreateAvailabilityOverride.
Record t := mk {
  player_id : option PlayerId;
  registration_id : option TournamentRegistrationId;
  override_date : NaiveDate;
  start_time : option NaiveTime;
  end_time : option NaiveTime;
  override_type : OverrideType.t;
  reason : option string;
}.
End CreateAvailabilityOverride.

Module SuggestionStatus.
Inductive t :=
| Suggested
| Accepted
| Rejected
| Expired.
#[global] Instance eq_dec : EqDecision t.
Proof. solve_decision. Defined.
Definition fmt (self : t) : string :=
  match self with
  | Suggested => "suggested"
  | Accepted => "accepted"
  | Rejected => "rejected"
  | Expired => "expired"
  end.
Definition from_str (s : string) : result t string :=
  result_map_err (λ _, "Invalid suggestion status: " +:+ s)
    (match_lowercase "suggestion status"
       [("suggested", Suggested); ("accepted", Accepted); ("rejected", Rejected); ("expired", Expired)] s).
End SuggestionStatus.

Module SuggestedTime.
Record t := mk {
  id : SuggestedTimeId;
  match_id : TournamentMatchId;
  suggested_start : DateTime;
  suggested_end : DateTime;
  confidence_score : Z;
  is_mutual_overlap : bool;
  is_auto_generated : bool;
  status : SuggestionStatus.t;
  created_at : DateTime;
  updated_at : DateTime;
}.
#[global] Instance eta_t : Eta t := λ r,
  mk (r.(id)) (r.(match_id)) (r.(suggested_start)) (r.(suggested_end)) (r.(confidence_score))
    (r.(is_mutual_overlap)) (r.(is_auto_generated)) (r.(status)) (r.(created_at)) (r.(updated_at)).
End SuggestedTime.

Module CreateSuggestedTime.
Record t := mk {
  match_id : TournamentMatchId;
  suggested_start : DateTime;
  suggested_end : DateTime;
  confidence_score : Z;
  is_mutual_overlap : bool;
  is_auto_generated : bool;
}.
End CreateSuggestedTime.

Module TimeSlot.
Record t := mk { start : NaiveTime; end_ : NaiveTime; is_preferred : bool }.
#[global] Instance eq_dec : EqDecision t.
Proof. solve_decision. Defined.
Definition overlaps (self other : t) : bool :=
  bool_decide (start self < end_ other) && bool_decide (start other < end_ self).
Definition intersect (self other : t) : option t :=
  if negb (overlaps self other) then None
  else Some (mk (start self `max` start other) (end_ self `min` end_ other)
               (is_preferred self && is_preferred other)).
End TimeSlot.

Module DateAvailability.
Record t := mk {
  date : NaiveDate;
  available_slots : list TimeSlot.t;
  is_blocked : bool;
  notes : list string;
}.
End DateAvailability.
