(* ===== verification/PugModel.v ===== *)
(** Pick-up games (crates/portal-domain/src/entities/pug.rs and
    repositories/pug.rs), field for field, and the columns their tables keep
    (migrations/0091_pugs.sql). *)
From stdpp Require Import base list strings.
From S2P Require Import Prelude Errors Wire TournamentTypes CoreEnums Rows.
#[local] Open Scope Z_scope.

Abbreviation PugId := N (only parsing).
Abbreviation PugWheelSpinId := N (only parsing).

Module Pug.
Record t := mk {
  id : PugId;
  game_id : GameId;
  created_by_user_id : UserId;
  join_code : string;
  status : PugStatus.t;
  match_format : MatchFormat.t;
  map_selection_mode : PugMapSelectionMode.t;
  side_selection_mode : SideSelectionMode.t;
  team_size : Z;
  region : option string;
  map_pool : option (list string);
  listed : bool;
  tournament_id : option TournamentId;
  match_id : option TournamentMatchId;
  winner_team : option Z;
  team1_score : option Z;
  team2_score : option Z;
  completed_at : option DateTime;
  expires_at : DateTime;
  created_at : DateTime;
  updated_at : DateTime;
}.
#[global] Instance eta_t : Eta t := λ r,
  mk (r.(id)) (r.(game_id)) (r.(created_by_user_id)) (r.(join_code)) (r.(status)) (r.(match_format))
    (r.(map_selection_mode)) (r.(side_selection_mode)) (r.(team_size)) (r.(region)) (r.(map_pool)) (r.(listed))
    (r.(tournament_id)) (r.(match_id)) (r.(winner_team)) (r.(team1_score)) (r.(team2_score)) (r.(completed_at))
    (r.(expires_at)) (r.(created_at)) (r.(updated_at)).
Definition is_open (self : t) : bool := PugStatus.is_open (status self).
Definition is_materialized (self : t) : bool := bool_decide (is_Some (match_id self)).
End Pug.

Module PugPlayer.
Record t := mk {
  pug_id : PugId;
  player_id : PlayerId;
  user_id : option UserId;
  display_name : string;
  avatar_url : option string;
  has_steam_id : bool;
  team : option Z;
  is_captain : bool;
  joined_at : DateTime;
}.
End PugPlayer.

Module PugWheelEntry.
Record t := mk {
  pug_id : PugId;
  player_id : PlayerId;
  player_name : string;
  map_id : string;
  created_at : DateTime;
}.
End PugWheelEntry.

Module PugWheelSpin.
Record t `{Platform} := mk {
  id : PugWheelSpinId;
  pug_id : PugId;
  game_number : Z;
  entries : Json;
  winner_map_id : string;
  spin_seed : Z;
  spun_by_player_id : option PlayerId;
  spun_at : DateTime;
}.
End PugWheelSpin.

Module CreatePug.
Record t := mk {
  game_id : GameId;
  created_by_user_id : UserId;
  creator_player_id : PlayerId;
  join_code : string;
  match_format : MatchFormat.t;
  map_selection_mode : PugMapSelectionMode.t;
  side_selection_mode : SideSelectionMode.t;
  team_size : Z;
  region : option string;
  map_pool : option (list string);
  listed : bool;
  expires_at : DateTime;
}.
End CreatePug.

Module CreateWheelSpin.
Record t `{Platform} := mk {
  pug_id : PugId;
  game_number : Z;
  entries : Json;
  winner_map_id : string;
  spin_seed : Z;
  spun_by_player_id : option PlayerId;
}.
End CreateWheelSpin.

(** The columns of [pug_players] and [pug_wheel_entries] besides their key, the
    lobby and the player. *)
Module PugMember.
Record t := mk { team : option Z; is_captain : bool; joined_at : DateTime }.
#[global] Instance eta_t : Eta t := λ r, mk (r.(team)) (r.(is_captain)) (r.(joined_at)).
End PugMember.

Module PugNomination.
Record t := mk { map_id : string; created_at : DateTime }.
End PugNomination.

(** The columns of [players] the queries join. *)
Module PlayerColumns.
Record t := mk {
  user_id : option UserId;
  display_name : string;
  avatar_url : option string;
  steam_id : option string;
}.
End PlayerColumns.
