(* ===== verification/LeagueModel.v ===== *)
(** Leagues: their seasons, the teams with their rosters per season, and who is
    invited to them (crates/portal-domain/src/entities/league_team.rs and
    repositories/league_team.rs), field for field; the changes a roster lock
    rules on (services/league_team/roster_lock.rs); and the columns of other
    tables the queries read. *)
From stdpp Require Import base list strings.
From S2P Require Import Prelude Wire CoreEnums Rows.
#[local] Open Scope Z_scope.

Abbreviation LeagueTeamId := N (only parsing).
Abbreviation LeagueTeamMemberId := N (only parsing).
Abbreviation LeagueTeamInvitationId := N (only parsing).

(** ** Seasons *)

Module LeagueSeason.
Record t `{Platform} := mk {
  id : LeagueSeasonId;
  league_id : LeagueId;
  name : string;
  slug : string;
  description : option string;
  registration_start : option DateTime;
  registration_end : option DateTime;
  season_start : option DateTime;
  season_end : option DateTime;
  team_size_min : option Z;
  team_size_max : option Z;
  max_substitutes : option Z;
  max_teams : option Z;
  roster_lock_status : RosterLockStatus.t;
  roster_locked_at : option DateTime;
  roster_locked_by : option UserId;
  status : SeasonStatus.t;
  archived_at : option DateTime;
  archived_by : option UserId;
  settings : Json;
  created_by : UserId;
  created_at : DateTime;
  updated_at : DateTime;
}.
#[global] Instance eta_t `{Platform} : Eta t := λ r,
  mk _ (r.(id)) (r.(league_id)) (r.(name)) (r.(slug)) (r.(description))
    (r.(registration_start)) (r.(registration_end)) (r.(season_start)) (r.(season_end))
    (r.(team_size_min)) (r.(team_size_max)) (r.(max_substitutes)) (r.(max_teams))
    (r.(roster_lock_status)) (r.(roster_locked_at)) (r.(roster_locked_by)) (r.(status))
    (r.(archived_at)) (r.(archived_by)) (r.(settings)) (r.(created_by)) (r.(created_at))
    (r.(updated_at)).
Section methods.
Context `{Platform}.
(** The window is open at its bounds; [now] is [Utc::now()]. *)
Definition is_registration_open (now : DateTime) (self : t) : bool :=
  if negb (SeasonStatus.is_registration_open (status self)) then false
  else if from_option (λ start, bool_decide (now < start)) false (registration_start self) then false
  else if from_option (λ end_, bool_decide (end_ < now)) false (registration_end self) then false
  else true.
Definition allows_roster_changes (self : t) : bool :=
  negb (SeasonStatus.is_terminal (status self)) && RosterLockStatus.allows_any_changes (roster_lock_status self).
Definition allows_primary_roster_changes (self : t) : bool :=
  negb (SeasonStatus.is_terminal (status self)) && RosterLockStatus.allows_primary_changes (roster_lock_status self).
Definition allows_substitute_changes (self : t) : bool :=
  negb (SeasonStatus.is_terminal (status self)) && RosterLockStatus.allows_substitute_changes (roster_lock_status self).
Definition is_active (self : t) : bool := SeasonStatus.is_active (status self).
Definition is_terminal (self : t) : bool := SeasonStatus.is_terminal (status self).
Definition can_register_team (now : DateTime) (self : t) : bool :=
  bool_decide (archived_at self = None) && is_registration_open now self.
End methods.
End LeagueSeason.

Module CreateLeagueSeasonCommand.
Record t := mk {
  league_id : LeagueId;
  name : string;
  slug : string;
  description : option string;
  registration_start : option DateTime;
  registration_end : option DateTime;
  season_start : option DateTime;
  season_end : option DateTime;
  team_size_min : option Z;
  team_size_max : option Z;
  max_substitutes : option Z;
  max_teams : option Z;
}.
End CreateLeagueSeasonCommand.

Module UpdateLeagueSeasonCommand.
Record t `{Platform} := mk {
  name : option string;
  slug : option string;
  description : option string;
  registration_start : option DateTime;
  registration_end : option DateTime;
  season_start : option DateTime;
  season_end : option DateTime;
  team_size_min : option Z;
  team_size_max : option Z;
  max_substitutes : option Z;
  max_teams : option Z;
  status : option SeasonStatus.t;
  roster_lock_status : option RosterLockStatus.t;
  settings : option Json;
}.
End UpdateLeagueSeasonCommand.

Module CreateLeagueSeason.
Record t := mk {
  league_id : LeagueId;
  name : string;
  slug : string;
  description : option string;
  registration_start : option DateTime;
  registration_end : option DateTime;
  season_start : option DateTime;
  season_end : option DateTime;
  team_size_min : option Z;
  team_size_max : option Z;
  max_substitutes : option Z;
  max_teams : option Z;
  created_by : UserId;
}.
End CreateLeagueSeason.

Module UpdateLeagueSeason.
Record t `{Platform} := mk {
  name : option string;
  slug : option string;
  description : option string;
  registration_start : option DateTime;
  registration_end : option DateTime;
  season_start : option DateTime;
  season_end : option DateTime;
  team_size_min : option Z;
  team_size_max : option Z;
  max_substitutes : option Z;
  max_teams : option Z;
  status : option SeasonStatus.t;
  settings : option Json;
  roster_lock_status : option RosterLockStatus.t;
  roster_locked_by : option UserId;
}.
End UpdateLeagueSeason.

(** What the queries read of [leagues] (migrations/0020, 0025 and 0096). *)
Module LeagueColumns.
Record t := mk {
  current_season_id : option LeagueSeasonId;
  archived_at : option DateTime;
}.
#[global] Instance eta_t : Eta t := λ r, mk (r.(current_season_id)) (r.(archived_at)).
End LeagueColumns.

(** ** Teams *)

Module LeagueTeam.
Record t := mk {
  id : LeagueTeamId;
  league_id : LeagueId;
  name : string;
  tag : string;
  description : option string;
  logo_url : option string;
  banner_url : option string;
  primary_color : option string;
  secondary_color : option string;
  owner_player_id : PlayerId;
  status : LeagueTeamStatus.t;
  archived_at : option DateTime;
  archived_by : option UserId;
  created_at : DateTime;
  updated_at : DateTime;
  disbanded_at : option DateTime;
}.
#[global] Instance eta_t : Eta t := λ r,
  mk (r.(id)) (r.(league_id)) (r.(name)) (r.(tag)) (r.(description)) (r.(logo_url))
    (r.(banner_url)) (r.(primary_color)) (r.(secondary_color)) (r.(owner_player_id))
    (r.(status)) (r.(archived_at)) (r.(archived_by)) (r.(created_at)) (r.(updated_at))
    (r.(disbanded_at)).
Definition is_active (self : t) : bool :=
  match status self with LeagueTeamStatus.Active => true | _ => false end.
Definition can_participate (self : t) : bool := is_active self.
Definition is_owner (self : t) (player_id : PlayerId) : bool := bool_decide (owner_player_id self = player_id).
Definition is_disbanded (self : t) : bool :=
  match status self with LeagueTeamStatus.Disbanded => true | _ => false end.
End LeagueTeam.

Module CreateLeagueTeamCommand.
Record t := mk {
  league_id : LeagueId;
  season_id : LeagueSeasonId;
  name : string;
  tag : string;
  description : option string;
  logo_url : option string;
  primary_color : option string;
  secondary_color : option string;
}.
End CreateLeagueTeamCommand.

Module UpdateLeagueTeamCommand.
Record t := mk {
  name : option string;
  tag : option string;
  description : option string;
  logo_url : option string;
  banner_url : option string;
  primary_color : option string;
  secondary_color : option string;
}.
End UpdateLeagueTeamCommand.

Module CreateLeagueTeam.
Record t := mk {
  league_id : LeagueId;
  name : string;
  tag : string;
  description : option string;
  logo_url : option string;
  primary_color : option string;
  secondary_color : option string;
  owner_player_id : PlayerId;
}.
End CreateLeagueTeam.

Module UpdateLeagueTeam.
Record t := mk {
  name : option string;
  tag : option string;
  description : option string;
  logo_url : option string;
  banner_url : option string;
  primary_color : option string;
  secondary_color : option string;
}.
End UpdateLeagueTeam.

Module TeamImage.
Inductive t := Logo | Banner.
End TeamImage.

(** A team in a season. *)
Module LeagueTeamSeason.
Record t := mk {
  id : LeagueTeamSeasonId;
  team_id : LeagueTeamId;
  season_id : LeagueSeasonId;
  status : LeagueTeamSeasonStatus.t;
  registered_at : option DateTime;
  registration_notes : option string;
  matches_played : Z;
  matches_won : Z;
  matches_lost : Z;
  matches_drawn : Z;
  seed : option Z;
  rating : option Z;
  created_at : DateTime;
  updated_at : DateTime;
}.
#[global] Instance eta_t : Eta t := λ r,
  mk (r.(id)) (r.(team_id)) (r.(season_id)) (r.(status)) (r.(registered_at))
    (r.(registration_notes)) (r.(matches_played)) (r.(matches_won)) (r.(matches_lost))
    (r.(matches_drawn)) (r.(seed)) (r.(rating)) (r.(created_at)) (r.(updated_at)).
Definition can_compete (self : t) : bool := LeagueTeamSeasonStatus.can_compete (status self).
Definition can_modify_roster (self : t) : bool := LeagueTeamSeasonStatus.can_modify_roster (status self).
Definition is_terminal (self : t) : bool := LeagueTeamSeasonStatus.is_terminal (status self).
End LeagueTeamSeason.

Module CreateLeagueTeamSeason.
Record t := mk {
  team_id : LeagueTeamId;
  season_id : LeagueSeasonId;
}.
End CreateLeagueTeamSeason.

Module UpdateLeagueTeamSeason.
Record t := mk {
  status : option LeagueTeamSeasonStatus.t;
  registration_notes : option string;
  seed : option Z;
  rating : option Z;
}.
End UpdateLeagueTeamSeason.

Module WithdrawnEntry.
Record t := mk {
  tournament_id : TournamentId;
  tournament_name : string;
}.
End WithdrawnEntry.

Module MovedTeam.
Record t := mk {
  team : LeagueTeam.t;
  team_season : LeagueTeamSeason.t;
  withdrawn_from : list WithdrawnEntry.t;
}.
End MovedTeam.

(** A row of [user_roles] that grants [team_captain] in a team's scope
    (migrations/0011_create_user_roles.sql). *)
Module CaptainGrant.
Record t := mk {
  user_id : UserId;
  team_id : LeagueTeamId;
  granted_at : DateTime;
  revoked_at : option DateTime;
}.
#[global] Instance eta_t : Eta t := λ r,
  mk (r.(user_id)) (r.(team_id)) (r.(granted_at)) (r.(revoked_at)).
End CaptainGrant.

(** ** Rosters *)

Module LeagueTeamMember.
Record t := mk {
  id : LeagueTeamMemberId;
  team_season_id : LeagueTeamSeasonId;
  player_id : PlayerId;
  season_id : LeagueSeasonId;
  role : LeagueTeamRole.t;
  position : option string;
  jersey_number : option Z;
  status : LeagueTeamMemberStatus.t;
  joined_at : DateTime;
  left_at : option DateTime;
  added_by : option UserId;
}.
#[global] Instance eta_t : Eta t := λ r,
  mk (r.(id)) (r.(team_season_id)) (r.(player_id)) (r.(season_id)) (r.(role))
    (r.(position)) (r.(jersey_number)) (r.(status)) (r.(joined_at)) (r.(left_at))
    (r.(added_by)).
Definition is_active (self : t) : bool :=
  LeagueTeamMemberStatus.is_active (status self) && bool_decide (left_at self = None).
Definition is_primary (self : t) : bool := LeagueTeamRole.is_primary (role self).
Definition is_captain (self : t) : bool :=
  match role self with LeagueTeamRole.Captain => true | _ => false end.
Definition is_substitute (self : t) : bool :=
  match role self with LeagueTeamRole.Substitute => true | _ => false end.
Definition can_manage_roster (self : t) : bool := is_active self && LeagueTeamRole.can_manage_roster (role self).
End LeagueTeamMember.

Module AddLeagueTeamMember.
Record t := mk {
  team_season_id : LeagueTeamSeasonId;
  player_id : PlayerId;
  role : LeagueTeamRole.t;
  position : option string;
  jersey_number : option Z;
  added_by : option UserId;
}.
End AddLeagueTeamMember.

Module LeagueTeamInvitation.
Record t := mk {
  id : LeagueTeamInvitationId;
  team_season_id : LeagueTeamSeasonId;
  player_id : PlayerId;
  invitation_type : LeagueTeamInvitationType.t;
  role : LeagueTeamRole.t;
  message : option string;
  invited_by : option UserId;
  status : LeagueTeamInvitationStatus.t;
  responded_at : option DateTime;
  response_message : option string;
  expires_at : DateTime;
  created_at : DateTime;
}.
#[global] Instance eta_t : Eta t := λ r,
  mk (r.(id)) (r.(team_season_id)) (r.(player_id)) (r.(invitation_type)) (r.(role))
    (r.(message)) (r.(invited_by)) (r.(status)) (r.(responded_at)) (r.(response_message))
    (r.(expires_at)) (r.(created_at)).
Definition is_pending (self : t) : bool := LeagueTeamInvitationStatus.is_actionable (status self).
Definition is_expired (now : DateTime) (self : t) : bool := bool_decide (expires_at self < now).
Definition is_actionable (now : DateTime) (self : t) : bool := is_pending self && negb (is_expired now self).
Definition is_invite (self : t) : bool :=
  match invitation_type self with LeagueTeamInvitationType.Invite => true | _ => false end.
Definition is_request (self : t) : bool :=
  match invitation_type self with LeagueTeamInvitationType.Request => true | _ => false end.
End LeagueTeamInvitation.

Module CreateLeagueTeamInvitation.
Record t := mk {
  team_season_id : LeagueTeamSeasonId;
  player_id : PlayerId;
  invitation_type : LeagueTeamInvitationType.t;
  role : LeagueTeamRole.t;
  message : option string;
  invited_by : option UserId;
}.
End CreateLeagueTeamInvitation.

(** What a roster lock is asked about. *)
Module RosterChange.
Inductive t :=
| Membership (_ : LeagueTeamRole.t)
| Role
| Founding.
Definition label (self : t) : string :=
  match self with
  | Membership LeagueTeamRole.Captain => "membership:captain"
  | Membership LeagueTeamRole.Player => "membership:player"
  | Membership LeagueTeamRole.Substitute => "membership:substitute"
  | Role => "role_change"
  | Founding => "founding_captain"
  end.
End RosterChange.

Module RosterLockOverride.
Record t := mk {
  overridden_by : PlayerId;
  reason : string;
  request_id : option string;
}.
End RosterLockOverride.

(** ** Single players in a season *)

Module LeagueSeasonParticipantStatus.
Inductive t :=
| Registered
| Active
| Eliminated
| Disqualified
| Withdrawn.
#[global] Instance eq_dec : EqDecision t.
Proof. solve_decision. Defined.
Definition fmt (self : t) : string :=
  match self with
  | Registered => "registered"
  | Active => "active"
  | Eliminated => "eliminated"
  | Disqualified => "disqualified"
  | Withdrawn => "withdrawn"
  end.
Definition from_str (s : string) : result t string :=
  match_lowercase "participant status"
    [("registered", Registered);
     ("active", Active);
     ("eliminated", Eliminated);
     ("disqualified", Disqualified);
     ("withdrawn", Withdrawn)] s.
#[global] Instance wire : WireEnum t :=
  {| wire_variants := [Registered; Active; Eliminated; Disqualified; Withdrawn]; wire_fmt := fmt; wire_from_str := from_str |}.
#[global] Instance wire_laws : WireLaws t.
Proof. solve_wire_laws. Qed.
End LeagueSeasonParticipantStatus.

Module LeagueSeasonParticipant.
Record t := mk {
  id : Uuid;
  season_id : LeagueSeasonId;
  player_id : PlayerId;
  status : LeagueSeasonParticipantStatus.t;
  seed : option Z;
  rating : option Z;
  matches_played : Z;
  matches_won : Z;
  matches_lost : Z;
  matches_drawn : Z;
  registered_at : DateTime;
  withdrawn_at : option DateTime;
}.
#[global] Instance eta_t : Eta t := λ r,
  mk (r.(id)) (r.(season_id)) (r.(player_id)) (r.(status)) (r.(seed)) (r.(rating))
    (r.(matches_played)) (r.(matches_won)) (r.(matches_lost)) (r.(matches_drawn))
    (r.(registered_at)) (r.(withdrawn_at)).
Definition is_active (self : t) : bool :=
  match status self with
  | LeagueSeasonParticipantStatus.Registered | LeagueSeasonParticipantStatus.Active => true
  | _ => false
  end.
End LeagueSeasonParticipant.

Module RegisterLeagueSeasonParticipant.
Record t := mk {
  season_id : LeagueSeasonId;
  player_id : PlayerId;
}.
End RegisterLeagueSeasonParticipant.
