(* ===== verification/Store.v ===== *)
(** The persistent state the tournament services share: the tables of
    crates/portal-db/src/adapters/tournament (matches, brackets, registrations,
    standings, byes), each repository method a program over them. A program
    keeps what it wrote when it fails later, as a service call does; what the
    source wraps in a SQL transaction is under [transaction].
    Database failures other than a missing row are not modelled. *)
From stdpp Require Import base list strings gmap.
From S2P Require Import Prelude Errors Wire TournamentTypes Entities CoreEnums DomainEnums FormatPlan.
From S2P Require Import VetoModel Rows ResultModel SagaModel TournamentModel ScheduleModel PugModel LeagueModel.

Module Db.
Record t `{Platform} := mk {
  now : DateTime;  (** what [Utc::now()] returns during the call *)
  next_uuid : Uuid;  (** what [Uuid::now_v7()] returns next: version 7 identifiers grow *)
  matches : gmap TournamentMatchId TournamentMatch.t;
  brackets : gmap TournamentBracketId TournamentBracket.t;
  stages : gmap TournamentStageId TournamentStage.t;
  registrations : gmap TournamentRegistrationId TournamentRegistration.t;
  standings : list TournamentStanding.t;
  byes : list BracketBye.t;
  status_log : list MatchStatusLog.t;
  forfeit_records : list ForfeitRecord.t;
  veto_sessions : gmap VetoSessionId VetoSession.t;
  veto_actions : list VetoAction.t;  (** in insertion order *)
  result_claims : gmap ResultClaimId ResultClaim.t;
  disputes : gmap DisputeId Dispute.t;
  dispute_messages : list DisputeMessage.t;  (** in insertion order *)
  entity_changes : list EntityChange.t;  (** in insertion order *)
  demo_match_links : gmap DemoMatchLinkId DemoMatchLink.t;
  league_team_members : list LeagueTeamMember.t;
  adhoc_team_members : list AdhocTeamMember.t;
  saga_executions : gmap SagaId SagaExecution.t;
  progression_log : list ProgressionLog.t;  (** in insertion order *)
  result_reviews : gmap ResultReviewId ResultReview.t;
  tournaments : gmap TournamentId Tournament.t;
  invitations : gmap TournamentInvitationId TournamentInvitation.t;
  map_pools : gmap TournamentMapPoolId TournamentMapPool.t;
  league_seasons : gmap LeagueSeasonId LeagueSeason.t;
  schedule_proposals : gmap ScheduleProposalId ScheduleProposal.t;
  availability_windows : gmap AvailabilityWindowId AvailabilityWindow.t;
  availability_overrides : gmap AvailabilityExceptionId AvailabilityOverride.t;
  suggested_times : gmap SuggestedTimeId SuggestedTime.t;
  players : gmap PlayerId PlayerColumns.t;
  pugs : gmap PugId Pug.t;
  pug_players : gmap (PugId * PlayerId) PugMember.t;
  pug_wheel_entries : gmap (PugId * PlayerId) PugNomination.t;
  pug_wheel_spins : list PugWheelSpin.t;
  leagues : gmap LeagueId LeagueColumns.t;
  league_members : gset (LeagueId * UserId);
  league_teams : gmap LeagueTeamId LeagueTeam.t;
  league_team_seasons : gmap LeagueTeamSeasonId LeagueTeamSeason.t;
  league_team_invitations : gmap LeagueTeamInvitationId LeagueTeamInvitation.t;
  captain_grants : list CaptainGrant.t;
  league_season_participants : gmap Uuid LeagueSeasonParticipant.t;
}.
#[global] Instance eta_t `{Platform} : Eta t := λ r,
  mk _ (r.(now)) (r.(next_uuid)) (r.(matches)) (r.(brackets)) (r.(stages)) (r.(registrations))
    (r.(standings)) (r.(byes)) (r.(status_log)) (r.(forfeit_records)) (r.(veto_sessions))
    (r.(veto_actions)) (r.(result_claims)) (r.(disputes)) (r.(dispute_messages))
    (r.(entity_changes)) (r.(demo_match_links)) (r.(league_team_members))
    (r.(adhoc_team_members)) (r.(saga_executions)) (r.(progression_log)) (r.(result_reviews))
    (r.(tournaments)) (r.(invitations)) (r.(map_pools)) (r.(league_seasons))
    (r.(schedule_proposals)) (r.(availability_windows)) (r.(availability_overrides)) (r.(suggested_times))
    (r.(players)) (r.(pugs)) (r.(pug_players)) (r.(pug_wheel_entries)) (r.(pug_wheel_spins))
    (r.(leagues)) (r.(league_members)) (r.(league_teams)) (r.(league_team_seasons))
    (r.(league_team_invitations)) (r.(captain_grants)) (r.(league_season_participants)).
End Db.

Section store.
Context `{Platform}.

(** ** Programs over the state *)

Definition M (A : Type) : Type := Db.t → outcome A * Db.t.

Definition mret {A} (a : A) : M A := λ db, (Ok a, db).
Definition mthrow {A} (e : DomainError.t) : M A := λ db, (throw e, db).
Definition mlift {A} (r : outcome A) : M A := λ db, (r, db).
Definition mread {A} (f : Db.t → A) : M A := λ db, (Ok (f db), db).
(** A read that can fail. *)
Definition mquery {A} (f : Db.t → outcome A) : M A := λ db, (f db, db).
Definition mwrite (f : Db.t → Db.t) : M unit := λ db, (Ok tt, f db).
Definition mbind {A B} (c : M A) (k : A → M B) : M B := λ db,
  match c db with
  | (Ok a, db) => k a db
  | (Err e, db) => (Err e, db)
  end.
End store.

Notation "'let*' x ':=' c 'in' k" := (mbind c (λ x, k))
  (at level 10, x pattern, c at level 200, k at level 200) : portal_scope.

Section store.
Context `{Platform}.

(** [for x in l { body(x).await? }]. *)
Fixpoint mfor {A} (l : list A) (body : A → M unit) : M unit :=
  match l with
  | [] => mret tt
  | x :: l => let* _ := body x in mfor l body
  end.

(** [let mut tx = pool.begin()..; .. tx.commit()]: an error rolls everything back. *)
Definition transaction {A} (c : M A) : M A := λ db,
  match c db with
  | (Ok a, db') => (Ok a, db')
  | (Err e, _) => (Err e, db)
  end.

(** [match c.await { Ok(..) => .., Err(..) => .. }]: an error is a value, a
    panic is not. *)
Definition mtry {A} (c : M A) : M (result A DomainError.t) := λ db,
  match c db with
  | (Ok a, db') => (Ok (Ok a), db')
  | (Err (Error e), db') => (Ok (Err e), db')
  | (Err Panic, db') => (Err Panic, db')
  end.

(** The message sqlx gives for a statement that returned no row. *)
Definition row_not_found : string :=
  "no rows returned by a query that expected to return at least one row".

(** [Uuid::now_v7()]. *)
Definition fresh_uuid : M Uuid := λ db,
  (Ok (Db.next_uuid db), db <| Db.next_uuid := N.succ (Db.next_uuid db) |>).

(** ** The match repository (match_.rs) *)

(** The row an [INSERT] makes: the columns it does not name take their defaults. *)
Definition inserted_match (id : TournamentMatchId) (now : DateTime) (cmd : CreateTournamentMatch.t)
    : TournamentMatch.t := {|
  TournamentMatch.id := id;
  TournamentMatch.bracket_id := CreateTournamentMatch.bracket_id cmd;
  TournamentMatch.stage_id := CreateTournamentMatch.stage_id cmd;
  TournamentMatch.tournament_id := CreateTournamentMatch.tournament_id cmd;
  TournamentMatch.round := CreateTournamentMatch.round cmd;
  TournamentMatch.match_number := CreateTournamentMatch.match_number cmd;
  TournamentMatch.bracket_position := CreateTournamentMatch.bracket_position cmd;
  TournamentMatch.participant1_registration_id := CreateTournamentMatch.participant1_registration_id cmd;
  TournamentMatch.participant2_registration_id := CreateTournamentMatch.participant2_registration_id cmd;
  TournamentMatch.participant1_name := CreateTournamentMatch.participant1_name cmd;
  TournamentMatch.participant1_logo_url := CreateTournamentMatch.participant1_logo_url cmd;
  TournamentMatch.participant1_seed := CreateTournamentMatch.participant1_seed cmd;
  TournamentMatch.participant2_name := CreateTournamentMatch.participant2_name cmd;
  TournamentMatch.participant2_logo_url := CreateTournamentMatch.participant2_logo_url cmd;
  TournamentMatch.participant2_seed := CreateTournamentMatch.participant2_seed cmd;
  TournamentMatch.participant1_source := CreateTournamentMatch.participant1_source cmd;
  TournamentMatch.participant2_source := CreateTournamentMatch.participant2_source cmd;
  TournamentMatch.match_format := CreateTournamentMatch.match_format cmd;
  TournamentMatch.maps_required := CreateTournamentMatch.maps_required cmd;
  TournamentMatch.scheduled_at := None;
  TournamentMatch.schedule_deadline := None;
  TournamentMatch.started_at := None;
  TournamentMatch.completed_at := None;
  TournamentMatch.participant1_score := 0;
  TournamentMatch.participant2_score := 0;
  TournamentMatch.winner_registration_id := None;
  TournamentMatch.loser_registration_id := None;
  TournamentMatch.winner_progresses_to := CreateTournamentMatch.winner_progresses_to cmd;
  TournamentMatch.loser_progresses_to := CreateTournamentMatch.loser_progresses_to cmd;
  TournamentMatch.status := TournamentMatchStatus.Pending;
  TournamentMatch.disputed := false;
  TournamentMatch.dispute_reason := None;
  TournamentMatch.dispute_resolved_by := None;
  TournamentMatch.dispute_resolution := None;
  TournamentMatch.dispute_resolved_at := None;
  TournamentMatch.stream_url := None;
  TournamentMatch.vod_url := None;
  TournamentMatch.check_in_opens_at := None;
  TournamentMatch.check_in_deadline := None;
  TournamentMatch.participant1_checked_in_at := None;
  TournamentMatch.participant2_checked_in_at := None;
  TournamentMatch.participant1_checked_in_by := None;
  TournamentMatch.participant2_checked_in_by := None;
  TournamentMatch.veto_required := false;
  TournamentMatch.check_in_required := false;
  TournamentMatch.created_at := now;
  TournamentMatch.updated_at := now |}.

(** [tournament_matches_unique_position]: one row per bracket and position. *)
Definition position_taken (db : Db.t) (cmd : CreateTournamentMatch.t) : bool :=
  existsb (λ m, bool_decide
      (TournamentMatch.bracket_id m = CreateTournamentMatch.bracket_id cmd ∧
       TournamentMatch.bracket_position m = CreateTournamentMatch.bracket_position cmd))
    (map_to_list (Db.matches db)).*2.

Definition insert_match (cmd : CreateTournamentMatch.t) : M TournamentMatch.t := λ db,
  if position_taken db cmd then
    (throw (DomainError.Internal (constraint_violation "tournament_matches_unique_position")), db)
  else
    let m := inserted_match (Db.next_uuid db) (Db.now db) cmd in
    (Ok m, db <| Db.next_uuid := N.succ (Db.next_uuid db) |>
              <| Db.matches := <[TournamentMatch.id m := m]> (Db.matches db) |>).

(** The inserts of one transaction, in order; an error undoes them all. *)
Fixpoint insert_matches (cmds : list CreateTournamentMatch.t) : M (list TournamentMatch.t) :=
  match cmds with
  | [] => mret []
  | cmd :: cmds =>
      let* m := insert_match cmd in
      let* ms := insert_matches cmds in
      mret (m :: ms)
  end.

Definition bulk_create (matches : list CreateTournamentMatch.t) : M (list TournamentMatch.t) := λ db,
  match insert_matches matches db with
  | (Ok ms, db') => (Ok ms, db')
  | (Err e, _) => (Err e, db)
  end.

(** [UPDATE tournament_matches SET .. WHERE id = $1 RETURNING *] with
    [fetch_one]: an error when there is no such row. *)
Definition update_match (id : TournamentMatchId)
    (set : DateTime → TournamentMatch.t → TournamentMatch.t) : M TournamentMatch.t := λ db,
  match Db.matches db !! id with
  | None => (throw (DomainError.Internal row_not_found), db)
  | Some m =>
      let m := set (Db.now db) m in
      (Ok m, db <| Db.matches := <[id := m]> (Db.matches db) |>)
  end.

(** The same statement with [execute]: a missing row is not an error. *)
Definition exec_match (id : TournamentMatchId)
    (set : DateTime → TournamentMatch.t → TournamentMatch.t) : M unit :=
  mwrite (λ db, db <| Db.matches := alter (set (Db.now db)) id (Db.matches db) |>).

Definition find_match_by_id (id : TournamentMatchId) : M (option TournamentMatch.t) :=
  mread (λ db, Db.matches db !! id).

Definition update_status (id : TournamentMatchId) (status : TournamentMatchStatus.t)
    : M TournamentMatch.t :=
  update_match id (λ now m,
    m <| TournamentMatch.status := status |> <| TournamentMatch.updated_at := now |>).

Definition set_participant (slot : ParticipantSlot.t)
    (registration_id : option TournamentRegistrationId) (name logo_url : option string)
    (seed : option Z) (m : TournamentMatch.t) : TournamentMatch.t :=
  match slot with
  | ParticipantSlot.One =>
      m <| TournamentMatch.participant1_registration_id := registration_id |>
        <| TournamentMatch.participant1_name := name |>
        <| TournamentMatch.participant1_logo_url := logo_url |>
        <| TournamentMatch.participant1_seed := seed |>
  | ParticipantSlot.Two =>
      m <| TournamentMatch.participant2_registration_id := registration_id |>
        <| TournamentMatch.participant2_name := name |>
        <| TournamentMatch.participant2_logo_url := logo_url |>
        <| TournamentMatch.participant2_seed := seed |>
  end.

Definition assign_participant (id : TournamentMatchId) (slot : ParticipantSlot.t)
    (registration_id : TournamentRegistrationId) (name : string) (logo_url : option string)
    (seed : option Z) : M TournamentMatch.t :=
  update_match id (λ now m,
    set_participant slot (Some registration_id) (Some name) logo_url seed m
      <| TournamentMatch.updated_at := now |>).

(** [fetch_optional] here: a missing row is [TournamentMatchNotFound]. *)
Definition clear_participant (id : TournamentMatchId) (slot : ParticipantSlot.t)
    : M TournamentMatch.t := λ db,
  match Db.matches db !! id with
  | None => (throw (DomainError.TournamentMatchNotFound id), db)
  | Some _ =>
      update_match id (λ now m,
        set_participant slot None None None None m <| TournamentMatch.updated_at := now |>) db
  end.

Definition submit_result (id : TournamentMatchId) (participant1_score participant2_score : Z)
    (winner_id loser_id : TournamentRegistrationId) : M TournamentMatch.t :=
  update_match id (λ now m,
    m <| TournamentMatch.participant1_score := participant1_score |>
      <| TournamentMatch.participant2_score := participant2_score |>
      <| TournamentMatch.winner_registration_id := Some winner_id |>
      <| TournamentMatch.loser_registration_id := Some loser_id |>
      <| TournamentMatch.completed_at := Some now |>
      <| TournamentMatch.status := TournamentMatchStatus.Completed |>
      <| TournamentMatch.updated_at := now |>).

(** Scores and status are kept. *)
Definition clear_result (id : TournamentMatchId) : M TournamentMatch.t :=
  update_match id (λ now m,
    m <| TournamentMatch.winner_registration_id := None |>
      <| TournamentMatch.loser_registration_id := None |>
      <| TournamentMatch.completed_at := None |>
      <| TournamentMatch.updated_at := now |>).

Definition start_match (id : TournamentMatchId) : M TournamentMatch.t :=
  update_match id (λ now m,
    m <| TournamentMatch.started_at := Some now |>
      <| TournamentMatch.status := TournamentMatchStatus.InProgress |>
      <| TournamentMatch.updated_at := now |>).

Definition complete_match (id : TournamentMatchId) : M TournamentMatch.t :=
  update_match id (λ now m,
    m <| TournamentMatch.completed_at := Some now |>
      <| TournamentMatch.status := TournamentMatchStatus.Completed |>
      <| TournamentMatch.updated_at := now |>).

Definition forfeit_match (id : TournamentMatchId) (winner_id loser_id : TournamentRegistrationId)
    : M TournamentMatch.t :=
  update_match id (λ now m,
    m <| TournamentMatch.winner_registration_id := Some winner_id |>
      <| TournamentMatch.loser_registration_id := Some loser_id |>
      <| TournamentMatch.completed_at := Some now |>
      <| TournamentMatch.status := TournamentMatchStatus.Forfeit |>
      <| TournamentMatch.updated_at := now |>).

Definition file_dispute (id : TournamentMatchId) (reason : string) : M TournamentMatch.t :=
  update_match id (λ now m,
    m <| TournamentMatch.disputed := true |>
      <| TournamentMatch.dispute_reason := Some reason |>
      <| TournamentMatch.status := TournamentMatchStatus.Disputed |>
      <| TournamentMatch.updated_at := now |>).

Definition schedule_match (id : TournamentMatchId) (scheduled_at : DateTime) : M TournamentMatch.t :=
  update_match id (λ now m,
    m <| TournamentMatch.scheduled_at := Some scheduled_at |>
      <| TournamentMatch.updated_at := now |>).

Definition check_in_participant (id : TournamentMatchId) (slot : ParticipantSlot.t)
    (checked_in_by : UserId) : M TournamentMatch.t :=
  update_match id (λ now m,
    match slot with
    | ParticipantSlot.One =>
        m <| TournamentMatch.participant1_checked_in_at := Some now |>
          <| TournamentMatch.participant1_checked_in_by := Some checked_in_by |>
          <| TournamentMatch.updated_at := now |>
    | ParticipantSlot.Two =>
        m <| TournamentMatch.participant2_checked_in_at := Some now |>
          <| TournamentMatch.participant2_checked_in_by := Some checked_in_by |>
          <| TournamentMatch.updated_at := now |>
    end).

Definition set_veto_required (id : TournamentMatchId) (veto_required : bool) : M TournamentMatch.t :=
  update_match id (λ now m,
    m <| TournamentMatch.veto_required := veto_required |>
      <| TournamentMatch.updated_at := now |>).

Definition set_check_in_deadline (id : TournamentMatchId) (deadline : DateTime) : M TournamentMatch.t :=
  update_match id (λ now m,
    m <| TournamentMatch.check_in_deadline := Some deadline |>
      <| TournamentMatch.updated_at := now |>).

(** [execute], without [RETURNING]: a missing row is not an error. *)
Definition set_progression_links (id : TournamentMatchId)
    (winner_progresses_to loser_progresses_to : option TournamentMatchId) : M unit :=
  mwrite (λ db, db <| Db.matches := alter (λ m,
    m <| TournamentMatch.winner_progresses_to := winner_progresses_to |>
      <| TournamentMatch.loser_progresses_to := loser_progresses_to |>) id (Db.matches db) |>).

(** One statement over the whole set; rows beyond Pending are skipped. *)
Definition mark_pending_as_ready_bulk (ids : list TournamentMatchId) : M unit :=
  mwrite (λ db, db <| Db.matches := map_imap (λ id m, Some
    (if bool_decide (id ∈ ids ∧ TournamentMatch.status m = TournamentMatchStatus.Pending) then
      m <| TournamentMatch.status := TournamentMatchStatus.Ready |>
        <| TournamentMatch.updated_at := Db.now db |>
    else m)) (Db.matches db) |>).

(** [ORDER BY round ASC, match_number ASC]. *)
Definition match_order_leb (m1 m2 : TournamentMatch.t) : bool :=
  bool_decide (TournamentMatch.round m1 < TournamentMatch.round m2 ∨
    (TournamentMatch.round m1 = TournamentMatch.round m2 ∧
     TournamentMatch.match_number m1 ≤ TournamentMatch.match_number m2))%Z.

Definition matches_of_bracket (bracket_id : TournamentBracketId) (db : Db.t)
    : list TournamentMatch.t :=
  stable_sort match_order_leb
    (filter (λ m, TournamentMatch.bracket_id m = bracket_id) (map_to_list (Db.matches db)).*2).

Definition list_matches_by_bracket (bracket_id : TournamentBracketId) : M (list TournamentMatch.t) :=
  mread (matches_of_bracket bracket_id).

(** ** Brackets and registrations *)

Definition find_bracket_by_id (id : TournamentBracketId) : M (option TournamentBracket.t) :=
  mread (λ db, Db.brackets db !! id).

Definition create_bracket (cmd : CreateTournamentBracket.t) : M TournamentBracket.t := λ db,
  let b := {|
    TournamentBracket.id := Db.next_uuid db;
    TournamentBracket.stage_id := CreateTournamentBracket.stage_id cmd;
    TournamentBracket.tournament_id := CreateTournamentBracket.tournament_id cmd;
    TournamentBracket.name := CreateTournamentBracket.name cmd;
    TournamentBracket.bracket_type := CreateTournamentBracket.bracket_type cmd;
    TournamentBracket.total_rounds := CreateTournamentBracket.total_rounds cmd;
    TournamentBracket.current_round := 1;
    TournamentBracket.group_number := CreateTournamentBracket.group_number cmd;
    TournamentBracket.status := BracketStatus.Pending;
    TournamentBracket.created_at := Db.now db;
    TournamentBracket.updated_at := Db.now db |} in
  (Ok b, db <| Db.next_uuid := N.succ (Db.next_uuid db) |>
            <| Db.brackets := <[TournamentBracket.id b := b]> (Db.brackets db) |>).

Definition update_bracket (id : TournamentBracketId) (update : UpdateTournamentBracket.t)
    : M TournamentBracket.t := λ db,
  match Db.brackets db !! id with
  | None => (throw (DomainError.Internal row_not_found), db)
  | Some b =>
      let b :=
        b <| TournamentBracket.name :=
               default (TournamentBracket.name b) (UpdateTournamentBracket.name update) |>
          <| TournamentBracket.total_rounds :=
               default (TournamentBracket.total_rounds b) (UpdateTournamentBracket.total_rounds update) |>
          <| TournamentBracket.current_round :=
               default (TournamentBracket.current_round b) (UpdateTournamentBracket.current_round update) |>
          <| TournamentBracket.updated_at := Db.now db |> in
      (Ok b, db <| Db.brackets := <[id := b]> (Db.brackets db) |>)
  end.

(** [ORDER BY group_number ASC NULLS FIRST, name ASC], names by code point. *)
Definition bracket_leb (a b : TournamentBracket.t) : bool :=
  let name_leb := String.leb (TournamentBracket.name a) (TournamentBracket.name b) in
  match TournamentBracket.group_number a, TournamentBracket.group_number b with
  | None, None => name_leb
  | None, Some _ => true
  | Some _, None => false
  | Some x, Some y => bool_decide (x < y)%Z || (bool_decide (x = y) && name_leb)
  end.

Definition brackets_of_stage (stage_id : TournamentStageId) (db : Db.t) : list TournamentBracket.t :=
  stable_sort bracket_leb
    (filter (λ b, TournamentBracket.stage_id b = stage_id) (map_to_list (Db.brackets db)).*2).

Definition list_brackets_by_stage (stage_id : TournamentStageId) : M (list TournamentBracket.t) :=
  mread (brackets_of_stage stage_id).

(** ** Stages *)

Definition find_stage_by_id (id : TournamentStageId) : M (option TournamentStage.t) :=
  mread (λ db, Db.stages db !! id).

(** [ORDER BY stage_order ASC]. *)
Definition stage_leb (a b : TournamentStage.t) : bool :=
  bool_decide (TournamentStage.stage_order a ≤ TournamentStage.stage_order b)%Z.

Definition stages_of_tournament (tournament_id : TournamentId) (db : Db.t)
    : list TournamentStage.t :=
  stable_sort stage_leb
    (filter (λ s, TournamentStage.tournament_id s = tournament_id) (map_to_list (Db.stages db)).*2).

Definition list_stages_by_tournament (tournament_id : TournamentId) : M (list TournamentStage.t) :=
  mread (stages_of_tournament tournament_id).

(** [WHERE stage_order > $2 .. LIMIT 1]. *)
Definition find_next_stage (tournament_id : TournamentId) (current_order : Z)
    : M (option TournamentStage.t) :=
  mread (λ db, head (filter (λ s, (current_order < TournamentStage.stage_order s)%Z)
                       (stages_of_tournament tournament_id db))).

Definition set_stage_status (id : TournamentStageId) (status : StageStatus.t)
    : M TournamentStage.t := λ db,
  match Db.stages db !! id with
  | None => (throw (DomainError.Internal row_not_found), db)
  | Some s =>
      let s := s <| TournamentStage.status := status |>
                 <| TournamentStage.updated_at := Db.now db |> in
      (Ok s, db <| Db.stages := <[id := s]> (Db.stages db) |>)
  end.

(** Both updates or neither. *)
Definition transition_stages (from_stage_id : TournamentStageId) (from_status : StageStatus.t)
    (to_stage_id : TournamentStageId) (to_status : StageStatus.t)
    : M (TournamentStage.t * TournamentStage.t) := λ db,
  match
    (let* from := set_stage_status from_stage_id from_status in
     let* to := set_stage_status to_stage_id to_status in
     mret (from, to)) db
  with
  | (Ok r, db') => (Ok r, db')
  | (Err e, _) => (Err e, db)
  end.

Definition find_registration_by_id (id : TournamentRegistrationId)
    : M (option TournamentRegistration.t) :=
  mread (λ db, Db.registrations db !! id).

Definition update_registration_status (id : TournamentRegistrationId)
    (status : TournamentRegistrationStatus.t) : M TournamentRegistration.t := λ db,
  match Db.registrations db !! id with
  | None => (throw (DomainError.Internal row_not_found), db)
  | Some r =>
      let r := r <| TournamentRegistration.status := status |>
                 <| TournamentRegistration.updated_at := Db.now db |> in
      (Ok r, db <| Db.registrations := <[id := r]> (Db.registrations db) |>)
  end.

(** [WHERE participant1_registration_id = $1 OR participant2_registration_id = $1]. *)
Definition matches_of_participant (registration_id : TournamentRegistrationId) (db : Db.t)
    : list TournamentMatch.t :=
  stable_sort match_order_leb
    (filter (λ m, TournamentMatch.participant1_registration_id m = Some registration_id ∨
                  TournamentMatch.participant2_registration_id m = Some registration_id)
       (map_to_list (Db.matches db)).*2).

(** ** Status log and forfeit records *)

Definition create_status_log (match_id : TournamentMatchId)
    (from_status to_status : TournamentMatchStatus.t) (transition_reason : option string)
    (triggered_by_user_id : option UserId) (triggered_by_system : bool) (metadata : Json)
    : M MatchStatusLog.t := λ db,
  let log := MatchStatusLog.mk _ (Db.next_uuid db) match_id from_status to_status transition_reason
    triggered_by_user_id triggered_by_system metadata (Db.now db) in
  (Ok log, db <| Db.next_uuid := N.succ (Db.next_uuid db) |>
              <| Db.status_log := Db.status_log db ++ [log] |>).

(** [ORDER BY transitioned_at ASC]: rows are kept in insertion order. *)
Definition status_log_of (match_id : TournamentMatchId) (db : Db.t) : list MatchStatusLog.t :=
  filter (λ l, MatchStatusLog.match_id l = match_id) (Db.status_log db).

(** [ON CONFLICT (match_id, forfeiting_registration_id) DO NOTHING], then the
    row that is there. *)
Definition create_forfeit_record (match_id : TournamentMatchId)
    (forfeiting_registration_id : TournamentRegistrationId) (forfeit_type : ForfeitType.t)
    (reason : option string) (triggered_by_user_id : option UserId) (triggered_by_system : bool)
    : M ForfeitRecord.t := λ db,
  match list_find (λ r, ForfeitRecord.match_id r = match_id ∧
                        ForfeitRecord.forfeiting_registration_id r = forfeiting_registration_id)
          (Db.forfeit_records db) with
  | Some (_, r) => (Ok r, db)
  | None =>
      let r := ForfeitRecord.mk (Db.next_uuid db) match_id forfeiting_registration_id forfeit_type
        reason triggered_by_user_id triggered_by_system (Db.now db) in
      (Ok r, db <| Db.next_uuid := N.succ (Db.next_uuid db) |>
                <| Db.forfeit_records := Db.forfeit_records db ++ [r] |>)
  end.

(** [ORDER BY forfeited_at DESC LIMIT 1]. *)
Definition find_forfeit_by_match (match_id : TournamentMatchId) : M (option ForfeitRecord.t) :=
  mread (λ db, last (filter (λ r, ForfeitRecord.match_id r = match_id) (Db.forfeit_records db))).
End store.
