(* ===== verification/TournamentStore.v ===== *)
(** The tables of tournaments, registrations, invitations and map pools, and the
    creation of stages and standings, with the statements of
    crates/portal-db/src/adapters/tournament/{tournament,registration,invitation,
    map_pool,stage,bracket,standings}.rs over them. Constraints are those of
    migrations/0030_create_tournaments.sql and 0078_tournament_invitations.sql. *)
From stdpp Require Import base list strings gmap.
From S2P Require Import Prelude Errors Wire TournamentTypes CoreEnums Entities FormatPlan Rows.
From S2P Require Import TournamentModel LeagueModel Store.
#[local] Open Scope Z_scope.

Section rows.
Context `{Platform}.

(** The rows of a table that satisfy a condition. *)
Definition rows_where {A} (P : A → bool) (table : gmap N A) : list A :=
  filter (λ r, P r = true) (map_to_list table).*2.

(** [Err] of a statement whose constraint refuses the row. *)
Definition violates {A} (name : string) : M A :=
  mthrow (DomainError.Internal (constraint_violation name)).
End rows.

Module TournamentRepository.
Section repository.
Context `{Platform}.

Definition find_by_id (id : TournamentId) : M (option Tournament.t) :=
  mread (λ db, Db.tournaments db !! id).

Definition with_slug (slug : string) (db : Db.t) : list Tournament.t :=
  rows_where (λ t, bool_decide (Tournament.slug t = slug)) (Db.tournaments db).

Definition find_by_slug (slug : string) : M (option Tournament.t) :=
  mread (λ db, head (with_slug slug db)).

Definition slug_exists (slug : string) : M bool :=
  mread (λ db, bool_decide (0 < Z.of_nat (length (with_slug slug db)))).

(** [tournaments_check_dates] and [tournaments_check_participants], checked in
    this order, then [tournaments_slug_unique]. *)
Definition violated (db : Db.t) (t : Tournament.t) : option string :=
  let before_or_null (strict : bool) a b := match a, b with
    | Some a, Some b => if strict then bool_decide (a < b) else bool_decide (a ≤ b)
    | _, _ => true
    end in
  if negb (before_or_null true (Tournament.registration_start t) (Tournament.registration_end t)
           && before_or_null false (Tournament.registration_end t) (Tournament.starts_at t))
  then Some "tournaments_check_dates"
  else if negb (bool_decide (2 ≤ Tournament.min_participants t ∧
                             Tournament.min_participants t ≤ Tournament.max_participants t))
  then Some "tournaments_check_participants"
  else if existsb (λ t', bool_decide (Tournament.id t' ≠ Tournament.id t)) (with_slug (Tournament.slug t) db)
  then Some "tournaments_slug_unique"
  else None.

(** The row of the [INSERT]: the columns it does not name take their defaults. *)
Definition inserted (id : TournamentId) (now : DateTime) (cmd : CreateTournament.t) : Tournament.t := {|
  Tournament.id := id;
  Tournament.game_id := CreateTournament.game_id cmd;
  Tournament.league_id := CreateTournament.league_id cmd;
  Tournament.season_id := CreateTournament.season_id cmd;
  Tournament.name := CreateTournament.name cmd;
  Tournament.slug := CreateTournament.slug cmd;
  Tournament.description := CreateTournament.description cmd;
  Tournament.logo_url := None;
  Tournament.banner_url := None;
  Tournament.format := CreateTournament.format cmd;
  Tournament.format_settings := CreateTournament.format_settings cmd;
  Tournament.participant_type := CreateTournament.participant_type cmd;
  Tournament.kind := CreateTournament.kind cmd;
  Tournament.team_size := CreateTournament.team_size cmd;
  Tournament.min_participants := CreateTournament.min_participants cmd;
  Tournament.max_participants := CreateTournament.max_participants cmd;
  Tournament.registration_type := CreateTournament.registration_type cmd;
  Tournament.registration_start := CreateTournament.registration_start cmd;
  Tournament.registration_end := CreateTournament.registration_end cmd;
  Tournament.check_in_start := CreateTournament.check_in_start cmd;
  Tournament.check_in_end := CreateTournament.check_in_end cmd;
  Tournament.check_in_required := CreateTournament.check_in_required cmd;
  Tournament.scheduling_mode := CreateTournament.scheduling_mode cmd;
  Tournament.starts_at := CreateTournament.starts_at cmd;
  Tournament.ends_at := None;
  Tournament.timezone_hint := None;
  Tournament.default_match_format := CreateTournament.default_match_format cmd;
  Tournament.default_map_veto_format := CreateTournament.default_map_veto_format cmd;
  Tournament.prize_pool := None;
  Tournament.rules_url := CreateTournament.rules_url cmd;
  Tournament.settings := CreateTournament.settings cmd;
  Tournament.withdrawal_policy := CreateTournament.withdrawal_policy cmd;
  Tournament.status := TournamentStatus.Draft;
  Tournament.archived_at := None;
  Tournament.archived_by := None;
  Tournament.created_by := CreateTournament.created_by cmd;
  Tournament.organization_id := None;
  Tournament.created_at := now;
  Tournament.updated_at := now;
  Tournament.published_at := None;
  Tournament.started_at := None;
  Tournament.completed_at := None |}.

Definition create (cmd : CreateTournament.t) : M Tournament.t := λ db,
  let t := inserted (Db.next_uuid db) (Db.now db) cmd in
  match violated db t with
  | Some name => violates name db
  | None => (Ok t, db <| Db.next_uuid := N.succ (Db.next_uuid db) |>
                      <| Db.tournaments := <[Tournament.id t := t]> (Db.tournaments db) |>)
  end.

(** [UPDATE tournaments SET .. WHERE id = $1 [AND ..] RETURNING *]: [None] when no
    row is updated. *)
Definition try_update (id : TournamentId) (where_ : Tournament.t → bool)
    (set : DateTime → Tournament.t → Tournament.t) : M (option Tournament.t) := λ db,
  match Db.tournaments db !! id with
  | None => (Ok None, db)
  | Some t =>
      if where_ t then
        let t := (set (Db.now db) t) <| Tournament.updated_at := Db.now db |> in
        match violated db t with
        | Some name => violates name db
        | None => (Ok (Some t), db <| Db.tournaments := <[id := t]> (Db.tournaments db) |>)
        end
      else (Ok None, db)
  end.

(** The same with [fetch_one]. *)
Definition update_row (id : TournamentId) (set : DateTime → Tournament.t → Tournament.t)
    : M Tournament.t :=
  let* row := try_update id (λ _, true) set in
  mlift (ok_or row (Error (DomainError.Internal row_not_found))).

(** [COALESCE($n, column)]: a column is kept unless the update names it; an
    optional column cannot be cleared. *)
Definition or_keep {A} (new old : option A) : option A := match new with Some _ => new | None => old end.

Definition apply_update (u : UpdateTournament.t) (t : Tournament.t) : Tournament.t :=
  t <| Tournament.name := default (Tournament.name t) (UpdateTournament.name u) |>
    <| Tournament.slug := default (Tournament.slug t) (UpdateTournament.slug u) |>
    <| Tournament.description := or_keep (UpdateTournament.description u) (Tournament.description t) |>
    <| Tournament.format_settings := default (Tournament.format_settings t) (UpdateTournament.format_settings u) |>
    <| Tournament.min_participants := default (Tournament.min_participants t) (UpdateTournament.min_participants u) |>
    <| Tournament.max_participants := default (Tournament.max_participants t) (UpdateTournament.max_participants u) |>
    <| Tournament.registration_start := or_keep (UpdateTournament.registration_start u) (Tournament.registration_start t) |>
    <| Tournament.registration_end := or_keep (UpdateTournament.registration_end u) (Tournament.registration_end t) |>
    <| Tournament.check_in_required := default (Tournament.check_in_required t) (UpdateTournament.check_in_required u) |>
    <| Tournament.check_in_start := or_keep (UpdateTournament.check_in_start u) (Tournament.check_in_start t) |>
    <| Tournament.check_in_end := or_keep (UpdateTournament.check_in_end u) (Tournament.check_in_end t) |>
    <| Tournament.starts_at := or_keep (UpdateTournament.starts_at u) (Tournament.starts_at t) |>
    <| Tournament.ends_at := or_keep (UpdateTournament.ends_at u) (Tournament.ends_at t) |>
    <| Tournament.timezone_hint := or_keep (UpdateTournament.timezone_hint u) (Tournament.timezone_hint t) |>
    <| Tournament.default_match_format := default (Tournament.default_match_format t) (UpdateTournament.default_match_format u) |>
    <| Tournament.default_map_veto_format := or_keep (UpdateTournament.default_map_veto_format u) (Tournament.default_map_veto_format t) |>
    <| Tournament.prize_pool := or_keep (UpdateTournament.prize_pool u) (Tournament.prize_pool t) |>
    <| Tournament.rules_url := or_keep (UpdateTournament.rules_url u) (Tournament.rules_url t) |>
    <| Tournament.settings := default (Tournament.settings t) (UpdateTournament.settings u) |>
    <| Tournament.withdrawal_policy := default (Tournament.withdrawal_policy t) (UpdateTournament.withdrawal_policy u) |>.

Definition update (id : TournamentId) (u : UpdateTournament.t) : M Tournament.t :=
  update_row id (λ _, apply_update u).

Definition update_status (id : TournamentId) (status : TournamentStatus.t) : M Tournament.t :=
  update_row id (λ _ t, t <| Tournament.status := status |>).

Definition update_logo (id : TournamentId) (logo_url : option string) : M Tournament.t :=
  update_row id (λ _ t, t <| Tournament.logo_url := logo_url |>).

Definition update_banner (id : TournamentId) (banner_url : option string) : M Tournament.t :=
  update_row id (λ _ t, t <| Tournament.banner_url := banner_url |>).

Definition set_started (now : DateTime) (t : Tournament.t) : Tournament.t :=
  t <| Tournament.started_at := Some now |>
    <| Tournament.starts_at := or_keep (Tournament.starts_at t) (Some now) |>
    <| Tournament.status := TournamentStatus.InProgress |>.

(** [AND status IN ('scheduled', 'registration')]: compare and set. *)
Definition may_start (t : Tournament.t) : bool :=
  match Tournament.status t with
  | TournamentStatus.Scheduled | TournamentStatus.Registration => true
  | _ => false
  end.

Definition try_claim_start (id : TournamentId) : M (option Tournament.t) :=
  try_update id may_start set_started.

Definition mark_started (id : TournamentId) : M Tournament.t := update_row id set_started.

Definition mark_completed (id : TournamentId) : M Tournament.t :=
  update_row id (λ now t, t <| Tournament.completed_at := Some now |>
                            <| Tournament.status := TournamentStatus.Completed |>).

Definition mark_published (id : TournamentId) : M Tournament.t :=
  update_row id (λ now t, t <| Tournament.published_at := Some now |>
                            <| Tournament.status := TournamentStatus.Published |>).

(** [status NOT IN ('withdrawn', 'disqualified')]. *)
Definition holds_slot (r : TournamentRegistration.t) : bool :=
  match TournamentRegistration.status r with
  | TournamentRegistrationStatus.Withdrawn | TournamentRegistrationStatus.Disqualified => false
  | _ => true
  end.

Definition slots_taken (id : TournamentId) (db : Db.t) : Z :=
  Z.of_nat (length (rows_where (λ r, bool_decide (TournamentRegistration.tournament_id r = id)
                                     && holds_slot r) (Db.registrations db))).

Definition count_registrations (id : TournamentId) : M Z := mread (slots_taken id).

(** [ON DELETE CASCADE]: what a draft can have. *)
Definition delete (id : TournamentId) : M unit :=
  mwrite (λ db,
    match Db.tournaments db !! id with
    | Some t =>
        if Tournament.is_draft t then
          db <| Db.tournaments := base.delete id (Db.tournaments db) |>
             <| Db.stages := filter (λ kv, TournamentStage.tournament_id kv.2 ≠ id) (Db.stages db) |>
             <| Db.registrations :=
                  filter (λ kv, TournamentRegistration.tournament_id kv.2 ≠ id) (Db.registrations db) |>
             <| Db.invitations :=
                  filter (λ kv, TournamentInvitation.tournament_id kv.2 ≠ id) (Db.invitations db) |>
             <| Db.map_pools :=
                  filter (λ kv, TournamentMapPool.tournament_id kv.2 ≠ id) (Db.map_pools db) |>
        else db
    | None => db
    end).

Definition season_of_league (league_id : LeagueId) (season_id : LeagueSeasonId) (db : Db.t) : bool :=
  from_option (λ s, bool_decide (LeagueSeason.league_id s = league_id)) false
    (Db.league_seasons db !! season_id).

Definition set_league_and_season (id : TournamentId) (league_id : option LeagueId)
    (season_id : option LeagueSeasonId) : M Tournament.t :=
  let* belongs := match league_id, season_id with
    | Some league, Some season => mread (season_of_league league season)
    | _, _ => mret true
    end in
  if negb belongs then mthrow (DomainError.InvalidState "target season belongs to a different league")
  else
    let* row := try_update id (λ _, true) (λ _ t,
      t <| Tournament.league_id := league_id |> <| Tournament.season_id := season_id |>) in
    mlift (ok_or row (Error (DomainError.TournamentNotFound id))).

Definition set_archived (id : TournamentId) (archived_by : option UserId) : M Tournament.t :=
  let* row := try_update id (λ _, true) (λ now t,
    t <| Tournament.archived_at := (match archived_by with None => None | Some _ => Some now end) |>
      <| Tournament.archived_by := archived_by |>) in
  mlift (ok_or row (Error (DomainError.TournamentNotFound id))).
End repository.
End TournamentRepository.

Module TournamentRegistrationRepository.
Section repository.
Context `{Platform}.

Definition find_by_id (id : TournamentRegistrationId) : M (option TournamentRegistration.t) :=
  find_registration_by_id id.

(** The registrations of a tournament, of one status if one is given. *)
Definition registrations_of (tournament_id : TournamentId)
    (status_filter : option TournamentRegistrationStatus.t) (db : Db.t)
    : list TournamentRegistration.t :=
  rows_where (λ r, bool_decide (TournamentRegistration.tournament_id r = tournament_id)
    && match status_filter with
       | None => true
       | Some s => bool_decide (TournamentRegistration.status r = s)
       end) (Db.registrations db).

Definition find_by_team_season (tournament_id : TournamentId) (team_season_id : LeagueTeamSeasonId)
    : M (option TournamentRegistration.t) :=
  mread (λ db, head (filter (λ r, TournamentRegistration.team_season_id r = Some team_season_id)
    (registrations_of tournament_id None db))).

Definition find_by_player (tournament_id : TournamentId) (player_id : PlayerId)
    : M (option TournamentRegistration.t) :=
  mread (λ db, head (filter (λ r, TournamentRegistration.player_id r = Some player_id)
    (registrations_of tournament_id None db))).

Definition inserted (id : TournamentRegistrationId) (now : DateTime)
    (cmd : CreateTournamentRegistration.t) : TournamentRegistration.t := {|
  TournamentRegistration.id := id;
  TournamentRegistration.tournament_id := CreateTournamentRegistration.tournament_id cmd;
  TournamentRegistration.team_season_id := CreateTournamentRegistration.team_season_id cmd;
  TournamentRegistration.player_id := CreateTournamentRegistration.player_id cmd;
  TournamentRegistration.adhoc_team_id := CreateTournamentRegistration.adhoc_team_id cmd;
  TournamentRegistration.participant_name := CreateTournamentRegistration.participant_name cmd;
  TournamentRegistration.participant_logo_url := CreateTournamentRegistration.participant_logo_url cmd;
  TournamentRegistration.registered_by := CreateTournamentRegistration.registered_by cmd;
  TournamentRegistration.registered_at := now;
  TournamentRegistration.checked_in := false;
  TournamentRegistration.checked_in_at := None;
  TournamentRegistration.checked_in_by := None;
  TournamentRegistration.seed := None;
  TournamentRegistration.seed_rating := CreateTournamentRegistration.seed_rating cmd;
  TournamentRegistration.status := CreateTournamentRegistration.status cmd;
  TournamentRegistration.admin_notes := None;
  TournamentRegistration.created_at := now;
  TournamentRegistration.updated_at := now;
  TournamentRegistration.withdrawn_at := None |}.

(** [tournament_registrations_one_participant]: exactly one of the three. *)
Definition one_participant (r : TournamentRegistration.t) : bool :=
  match TournamentRegistration.team_season_id r, TournamentRegistration.player_id r,
        TournamentRegistration.adhoc_team_id r with
  | Some _, None, None | None, Some _, None | None, None, Some _ => true
  | _, _, _ => false
  end.

(** The unique keys: a null never equals another. *)
Definition same_key {A} `{EqDecision A} (a b : option A) : bool :=
  match a, b with Some x, Some y => bool_decide (x = y) | _, _ => false end.

Definition clashes (r : TournamentRegistration.t) (r' : TournamentRegistration.t) : option string :=
  if negb (bool_decide (TournamentRegistration.tournament_id r = TournamentRegistration.tournament_id r'))
  then None
  else if same_key (TournamentRegistration.team_season_id r) (TournamentRegistration.team_season_id r')
  then Some "tournament_registrations_unique_team"
  else if same_key (TournamentRegistration.player_id r) (TournamentRegistration.player_id r')
  then Some "tournament_registrations_unique_player"
  else if same_key (TournamentRegistration.adhoc_team_id r) (TournamentRegistration.adhoc_team_id r')
  then Some "tournament_registrations_unique_adhoc"
  else None.

Definition violated (db : Db.t) (r : TournamentRegistration.t) : option string :=
  if negb (one_participant r) then Some "tournament_registrations_one_participant"
  else head (omap (clashes r) (map_to_list (Db.registrations db)).*2).

(** [INSERT .. RETURNING *]. *)
Definition insert (cmd : CreateTournamentRegistration.t) : M TournamentRegistration.t := λ db,
  let r := inserted (Db.next_uuid db) (Db.now db) cmd in
  match violated db r with
  | Some name => violates name db
  | None => (Ok r, db <| Db.next_uuid := N.succ (Db.next_uuid db) |>
                      <| Db.registrations := <[TournamentRegistration.id r := r]> (Db.registrations db) |>)
  end.

Definition create (cmd : CreateTournamentRegistration.t) : M TournamentRegistration.t := insert cmd.

Definition max_participants (id : TournamentId) : M (option Z) :=
  mread (λ db, Tournament.max_participants <$> Db.tournaments db !! id).

Definition delete (id : TournamentRegistrationId) : M unit :=
  mwrite (λ db, db <| Db.registrations := base.delete id (Db.registrations db) |>).

Definition create_with_capacity_check (cmd : CreateTournamentRegistration.t)
    (replace_terminal : option TournamentRegistrationId) : M TournamentRegistration.t :=
  transaction
    (let* max := max_participants (CreateTournamentRegistration.tournament_id cmd) in
     let* max := mlift (ok_or max
       (Error (DomainError.TournamentNotFound (CreateTournamentRegistration.tournament_id cmd)))) in
     let* _ := match replace_terminal with Some old_id => delete old_id | None => mret tt end in
     let* count := TournamentRepository.count_registrations (CreateTournamentRegistration.tournament_id cmd) in
     if bool_decide (max ≤ count) then mthrow DomainError.TournamentFull
     else insert cmd).

(** [UPDATE tournament_registrations SET .. WHERE id = $1 RETURNING *]. *)
Definition update_row (id : TournamentRegistrationId)
    (set : DateTime → TournamentRegistration.t → TournamentRegistration.t)
    : M TournamentRegistration.t := λ db,
  match Db.registrations db !! id with
  | None => (throw (DomainError.Internal row_not_found), db)
  | Some r =>
      let r := (set (Db.now db) r) <| TournamentRegistration.updated_at := Db.now db |> in
      (Ok r, db <| Db.registrations := <[id := r]> (Db.registrations db) |>)
  end.

Definition update_status (id : TournamentRegistrationId) (status : TournamentRegistrationStatus.t)
    : M TournamentRegistration.t :=
  update_row id (λ _ r, r <| TournamentRegistration.status := status |>).

(** The slots of the tournament that other rows take. *)
Definition slots_of_others (id : TournamentRegistrationId) (tournament_id : TournamentId) (db : Db.t) : Z :=
  Z.of_nat (length (rows_where (λ r, bool_decide (TournamentRegistration.tournament_id r = tournament_id)
      && bool_decide (TournamentRegistration.id r ≠ id) && TournamentRepository.holds_slot r)
    (Db.registrations db))).

Definition update_status_with_capacity_check (id : TournamentRegistrationId)
    (status : TournamentRegistrationStatus.t) : M TournamentRegistration.t :=
  transaction
    (let* joined := mread (λ db, r ← Db.registrations db !! id;
                                 Db.tournaments db !! TournamentRegistration.tournament_id r) in
     let* tournament := mlift (ok_or joined (Error (DomainError.TournamentRegistrationNotFound id))) in
     let* count := mread (slots_of_others id (Tournament.id tournament)) in
     if bool_decide (Tournament.max_participants tournament ≤ count) then mthrow DomainError.TournamentFull
     else update_status id status).

Definition apply_update (u : UpdateTournamentRegistration.t) (r : TournamentRegistration.t)
    : TournamentRegistration.t :=
  r <| TournamentRegistration.participant_name :=
         default (TournamentRegistration.participant_name r) (UpdateTournamentRegistration.participant_name u) |>
    <| TournamentRegistration.participant_logo_url := TournamentRepository.or_keep
         (UpdateTournamentRegistration.participant_logo_url u) (TournamentRegistration.participant_logo_url r) |>
    <| TournamentRegistration.seed := TournamentRepository.or_keep
         (UpdateTournamentRegistration.seed u) (TournamentRegistration.seed r) |>
    <| TournamentRegistration.seed_rating := TournamentRepository.or_keep
         (UpdateTournamentRegistration.seed_rating u) (TournamentRegistration.seed_rating r) |>
    <| TournamentRegistration.admin_notes := TournamentRepository.or_keep
         (UpdateTournamentRegistration.admin_notes u) (TournamentRegistration.admin_notes r) |>.

Definition update (id : TournamentRegistrationId) (u : UpdateTournamentRegistration.t)
    : M TournamentRegistration.t := update_row id (λ _, apply_update u).

Definition set_checked_in (by_ : UserId) (now : DateTime) (r : TournamentRegistration.t)
    : TournamentRegistration.t :=
  r <| TournamentRegistration.checked_in := true |>
    <| TournamentRegistration.checked_in_at := Some now |>
    <| TournamentRegistration.checked_in_by := Some by_ |>
    <| TournamentRegistration.status := TournamentRegistrationStatus.CheckedIn |>.

(** [WHERE id = $1 AND status = 'approved'], [fetch_optional]. *)
Definition check_in (id : TournamentRegistrationId) (checked_in_by : UserId)
    : M TournamentRegistration.t := λ db,
  match Db.registrations db !! id with
  | Some r =>
      if bool_decide (TournamentRegistration.status r = TournamentRegistrationStatus.Approved)
      then update_row id (set_checked_in checked_in_by) db
      else (throw (DomainError.InvalidState "only an approved registration can check in"), db)
  | None => (throw (DomainError.InvalidState "only an approved registration can check in"), db)
  end.

Definition update_seed (id : TournamentRegistrationId) (seed : Z) : M TournamentRegistration.t :=
  update_row id (λ _ r, r <| TournamentRegistration.seed := Some seed |>).

Definition withdraw (id : TournamentRegistrationId) : M TournamentRegistration.t :=
  update_row id (λ now r, r <| TournamentRegistration.status := TournamentRegistrationStatus.Withdrawn |>
                            <| TournamentRegistration.withdrawn_at := Some now |>).

(** [seed ASC NULLS LAST], then the given order. *)
Definition by_seed (tie : TournamentRegistration.t → TournamentRegistration.t → bool)
    (a b : TournamentRegistration.t) : bool :=
  match TournamentRegistration.seed a, TournamentRegistration.seed b with
  | Some x, Some y => bool_decide (x < y) || (bool_decide (x = y) && tie a b)
  | Some _, None => true
  | None, Some _ => false
  | None, None => tie a b
  end.

(** [registered_at ASC]. *)
Definition registered_earlier (a b : TournamentRegistration.t) : bool :=
  bool_decide (TournamentRegistration.registered_at a ≤ TournamentRegistration.registered_at b).

(** [seed_rating DESC NULLS LAST, registered_at ASC]. *)
Definition rated_higher (a b : TournamentRegistration.t) : bool :=
  match TournamentRegistration.seed_rating a, TournamentRegistration.seed_rating b with
  | Some x, Some y => bool_decide (y < x) || (bool_decide (x = y) && registered_earlier a b)
  | Some _, None => true
  | None, Some _ => false
  | None, None => registered_earlier a b
  end.

(** What the listing of a tournament shows, in its order. *)
Definition listed (tournament_id : TournamentId)
    (status_filter : option TournamentRegistrationStatus.t) (db : Db.t)
    : list TournamentRegistration.t :=
  stable_sort (by_seed registered_earlier) (registrations_of tournament_id status_filter db).

Definition list_by_tournament (tournament_id : TournamentId)
    (status_filter : option TournamentRegistrationStatus.t) (limit offset : Z)
    : M (list TournamentRegistration.t * Z) :=
  mread (λ db, let rows := listed tournament_id status_filter db in
    (take (Z.to_nat limit) (drop (Z.to_nat offset) rows), Z.of_nat (length rows))).

Definition PAGE : Z := 500.

(** The loop of [list_all_by_tournament]; a page comes back short before the
    fuel, one more than the rows there are, is spent. *)
Fixpoint list_pages (fuel : nat) (tournament_id : TournamentId)
    (status_filter : option TournamentRegistrationStatus.t) (all : list TournamentRegistration.t)
    (offset : Z) : M (list TournamentRegistration.t) :=
  match fuel with
  | O => mret all
  | S fuel =>
      let* (page, _) := list_by_tournament tournament_id status_filter PAGE offset in
      let fetched := Z.of_nat (length page) in
      let all := all ++ page in
      if bool_decide (fetched < PAGE) then mret all
      else list_pages fuel tournament_id status_filter all (offset + PAGE)
  end.

Definition list_all_by_tournament (tournament_id : TournamentId)
    (status_filter : option TournamentRegistrationStatus.t) : M (list TournamentRegistration.t) := λ db,
  list_pages (S (size (Db.registrations db))) tournament_id status_filter [] 0 db.

Definition list_checked_in (tournament_id : TournamentId) : M (list TournamentRegistration.t) :=
  mread (λ db, stable_sort (by_seed registered_earlier)
    (filter (λ r, TournamentRegistration.checked_in r = true ∧
                  TournamentRegistration.status r ∈
                    [TournamentRegistrationStatus.CheckedIn; TournamentRegistrationStatus.Active])
       (registrations_of tournament_id None db))).

Definition list_seeded (tournament_id : TournamentId) : M (list TournamentRegistration.t) :=
  mread (λ db, stable_sort (by_seed rated_higher)
    (filter (λ r, TournamentRegistration.status r ∈
                    [TournamentRegistrationStatus.CheckedIn; TournamentRegistrationStatus.Approved;
                     TournamentRegistrationStatus.Active])
       (registrations_of tournament_id None db))).

Definition count_by_status (tournament_id : TournamentId) (status : TournamentRegistrationStatus.t)
    : M Z := mread (λ db, Z.of_nat (length (registrations_of tournament_id (Some status) db))).

(** [GROUP BY status]: the statuses that occur, each with its count. *)
Definition count_all_by_status (tournament_id : TournamentId)
    : M (list (TournamentRegistrationStatus.t * Z)) :=
  mread (λ db, filter (λ sn, 0 < sn.2)
    ((λ s, (s, Z.of_nat (length (registrations_of tournament_id (Some s) db)))) <$>
       (wire_variants : list TournamentRegistrationStatus.t))).

(** A missing row is no error: [execute]. *)
Definition bulk_update_seeds (seeds : list (TournamentRegistrationId * Z)) : M unit :=
  mfor seeds (λ '(id, seed), mwrite (λ db, db <| Db.registrations :=
    alter (λ r, r <| TournamentRegistration.seed := Some seed |>
                  <| TournamentRegistration.updated_at := Db.now db |>) id (Db.registrations db) |>)).

Definition clear_seeds (tournament_id : TournamentId) : M unit :=
  mwrite (λ db, db <| Db.registrations :=
    (λ r, if bool_decide (TournamentRegistration.tournament_id r = tournament_id)
          then r <| TournamentRegistration.seed := None |>
                 <| TournamentRegistration.seed_rating := None |>
                 <| TournamentRegistration.updated_at := Db.now db |>
          else r) <$> Db.registrations db |>).
End repository.
End TournamentRegistrationRepository.

Module TournamentInvitationRepository.
Section repository.
Context `{Platform}.

Definition find_by_id (id : TournamentInvitationId) : M (option TournamentInvitation.t) :=
  mread (λ db, Db.invitations db !! id).

(** [status <> 'revoked']. *)
Definition is_live (i : TournamentInvitation.t) : bool :=
  negb (bool_decide (TournamentInvitation.status i = TournamentInvitationStatus.Revoked)).

Definition live_of (tournament_id : TournamentId) (P : TournamentInvitation.t → bool) (db : Db.t)
    : list TournamentInvitation.t :=
  rows_where (λ i, bool_decide (TournamentInvitation.tournament_id i = tournament_id) && P i && is_live i)
    (Db.invitations db).

Definition find_for_user (tournament_id : TournamentId) (user_id : UserId)
    : M (option TournamentInvitation.t) :=
  mread (λ db, head (live_of tournament_id
    (λ i, bool_decide (TournamentInvitation.user_id i = Some user_id)) db)).

Definition find_for_team_season (tournament_id : TournamentId) (team_season_id : LeagueTeamSeasonId)
    : M (option TournamentInvitation.t) :=
  mread (λ db, head (live_of tournament_id
    (λ i, bool_decide (TournamentInvitation.team_season_id i = Some team_season_id)) db)).

(** [ORDER BY created_at DESC, id DESC]. *)
Definition newer (a b : TournamentInvitation.t) : bool :=
  bool_decide (TournamentInvitation.created_at b < TournamentInvitation.created_at a ∨
    (TournamentInvitation.created_at a = TournamentInvitation.created_at b ∧
     (TournamentInvitation.id b <= TournamentInvitation.id a)%N)).

Definition list_by_tournament (tournament_id : TournamentId) : M (list TournamentInvitation.t) :=
  mread (λ db, stable_sort newer (rows_where
    (λ i, bool_decide (TournamentInvitation.tournament_id i = tournament_id)) (Db.invitations db))).

Definition inserted (id : TournamentInvitationId) (now : DateTime) (cmd : CreateTournamentInvitation.t)
    : TournamentInvitation.t := {|
  TournamentInvitation.id := id;
  TournamentInvitation.tournament_id := CreateTournamentInvitation.tournament_id cmd;
  TournamentInvitation.user_id := CreateTournamentInvitation.user_id cmd;
  TournamentInvitation.team_season_id := CreateTournamentInvitation.team_season_id cmd;
  TournamentInvitation.status := TournamentInvitationStatus.Pending;
  TournamentInvitation.message := CreateTournamentInvitation.message cmd;
  TournamentInvitation.invited_by := CreateTournamentInvitation.invited_by cmd;
  TournamentInvitation.accepted_at := None;
  TournamentInvitation.revoked_at := None;
  TournamentInvitation.created_at := now |}.

(** [num_nonnulls(user_id, team_season_id) = 1]. *)
Definition one_target (i : TournamentInvitation.t) : bool :=
  match TournamentInvitation.user_id i, TournamentInvitation.team_season_id i with
  | Some _, None | None, Some _ => true
  | _, _ => false
  end.

(** The partial unique indexes: one live invitation per target. *)
Definition duplicates (i i' : TournamentInvitation.t) : bool :=
  bool_decide (TournamentInvitation.tournament_id i' = TournamentInvitation.tournament_id i)
  && is_live i'
  && (TournamentRegistrationRepository.same_key (TournamentInvitation.user_id i) (TournamentInvitation.user_id i')
      || TournamentRegistrationRepository.same_key (TournamentInvitation.team_season_id i)
           (TournamentInvitation.team_season_id i')).

Definition create (cmd : CreateTournamentInvitation.t) : M TournamentInvitation.t := λ db,
  let i := inserted (Db.next_uuid db) (Db.now db) cmd in
  if negb (one_target i) then violates "tournament_invitations_check_target" db
  else match rows_where (duplicates i) (Db.invitations db) with
  | _ :: _ => (throw (DomainError.Conflict "Target already has an invitation"), db)
  | [] => (Ok i, db <| Db.next_uuid := N.succ (Db.next_uuid db) |>
                    <| Db.invitations := <[TournamentInvitation.id i := i]> (Db.invitations db) |>)
  end.

Definition unique_index (i : TournamentInvitation.t) : string :=
  match TournamentInvitation.user_id i with
  | Some _ => "idx_tournament_invitations_user_unique"
  | None => "idx_tournament_invitations_team_unique"
  end.

(** [UPDATE .. WHERE id = $1 RETURNING *], [fetch_optional]. *)
Definition update_row (id : TournamentInvitationId)
    (set : DateTime → TournamentInvitation.t → TournamentInvitation.t)
    : M TournamentInvitation.t := λ db,
  match Db.invitations db !! id with
  | None => (throw (DomainError.TournamentInvitationNotFound id), db)
  | Some i =>
      let i := set (Db.now db) i in
      if is_live i && existsb (λ i', bool_decide (TournamentInvitation.id i' ≠ id))
                        (rows_where (duplicates i) (Db.invitations db))
      then violates (unique_index i) db
      else (Ok i, db <| Db.invitations := <[id := i]> (Db.invitations db) |>)
  end.

Definition mark_accepted (id : TournamentInvitationId) : M TournamentInvitation.t :=
  update_row id (λ now i,
    i <| TournamentInvitation.status := TournamentInvitationStatus.Accepted |>
      <| TournamentInvitation.accepted_at :=
           TournamentRepository.or_keep (TournamentInvitation.accepted_at i) (Some now) |>).

Definition revoke (id : TournamentInvitationId) : M TournamentInvitation.t :=
  update_row id (λ now i,
    i <| TournamentInvitation.status := TournamentInvitationStatus.Revoked |>
      <| TournamentInvitation.revoked_at := Some now |>).
End repository.
End TournamentInvitationRepository.

Module TournamentMapPoolRepository.
Section repository.
Context `{Platform}.

Definition find_by_id (id : TournamentMapPoolId) : M (option TournamentMapPool.t) :=
  mread (λ db, Db.map_pools db !! id).

Definition find_by_tournament (tournament_id : TournamentId) : M (option TournamentMapPool.t) :=
  mread (λ db, head (rows_where (λ p, bool_decide (TournamentMapPool.tournament_id p = tournament_id ∧
    TournamentMapPool.stage_id p = None)) (Db.map_pools db))).

Definition find_by_stage (stage_id : TournamentStageId) : M (option TournamentMapPool.t) :=
  mread (λ db, head (rows_where (λ p, bool_decide (TournamentMapPool.stage_id p = Some stage_id))
    (Db.map_pools db))).

Definition get_effective (tournament_id : TournamentId) (stage_id : option TournamentStageId)
    : M (option TournamentMapPool.t) :=
  let* own := match stage_id with Some stage_id => find_by_stage stage_id | None => mret None end in
  match own with
  | Some pool => mret (Some pool)
  | None => find_by_tournament tournament_id
  end.

Definition upsert (cmd : UpsertTournamentMapPool.t) : M TournamentMapPool.t :=
  let* existing := match UpsertTournamentMapPool.stage_id cmd with
    | Some stage_id => find_by_stage stage_id
    | None => find_by_tournament (UpsertTournamentMapPool.tournament_id cmd)
    end in
  λ db,
    let '(next, pool) := match existing with
      | Some p =>
          (Db.next_uuid db,
           p <| TournamentMapPool.maps := UpsertTournamentMapPool.maps cmd |>
             <| TournamentMapPool.veto_format_id := UpsertTournamentMapPool.veto_format_id cmd |>
             <| TournamentMapPool.updated_at := Db.now db |>)
      | None =>
          (N.succ (Db.next_uuid db),
           TournamentMapPool.mk (Db.next_uuid db) (UpsertTournamentMapPool.tournament_id cmd)
             (UpsertTournamentMapPool.stage_id cmd) (UpsertTournamentMapPool.maps cmd)
             (UpsertTournamentMapPool.veto_format_id cmd) (Db.now db) (Db.now db))
      end in
    (Ok pool, db <| Db.next_uuid := next |>
                 <| Db.map_pools := <[TournamentMapPool.id pool := pool]> (Db.map_pools db) |>).

Definition delete (id : TournamentMapPoolId) : M unit :=
  mwrite (λ db, db <| Db.map_pools := base.delete id (Db.map_pools db) |>).
End repository.
End TournamentMapPoolRepository.

(** ** Stages, brackets, standings *)

Section stages.
Context `{Platform}.

Definition inserted_stage (id : TournamentStageId) (now : DateTime) (cmd : CreateTournamentStage.t)
    : TournamentStage.t := {|
  TournamentStage.id := id;
  TournamentStage.tournament_id := CreateTournamentStage.tournament_id cmd;
  TournamentStage.name := CreateTournamentStage.name cmd;
  TournamentStage.stage_order := CreateTournamentStage.stage_order cmd;
  TournamentStage.format := CreateTournamentStage.format cmd;
  TournamentStage.format_settings := CreateTournamentStage.format_settings cmd;
  TournamentStage.advancement_count := CreateTournamentStage.advancement_count cmd;
  TournamentStage.advancement_rule := CreateTournamentStage.advancement_rule cmd;
  TournamentStage.match_format := CreateTournamentStage.match_format cmd;
  TournamentStage.map_veto_format := CreateTournamentStage.map_veto_format cmd;
  TournamentStage.status := StageStatus.Pending;
  TournamentStage.starts_at := CreateTournamentStage.starts_at cmd;
  TournamentStage.ends_at := CreateTournamentStage.ends_at cmd;
  TournamentStage.created_at := now;
  TournamentStage.updated_at := now |}.

(** [tournament_stages_unique_order]. *)
Definition order_taken (cmd : CreateTournamentStage.t) (db : Db.t) : bool :=
  existsb (λ s, bool_decide (TournamentStage.tournament_id s = CreateTournamentStage.tournament_id cmd ∧
                             TournamentStage.stage_order s = CreateTournamentStage.stage_order cmd))
    (map_to_list (Db.stages db)).*2.

Definition create_stage (cmd : CreateTournamentStage.t) : M TournamentStage.t := λ db,
  if order_taken cmd db then violates "tournament_stages_unique_order" db
  else
    let s := inserted_stage (Db.next_uuid db) (Db.now db) cmd in
    (Ok s, db <| Db.next_uuid := N.succ (Db.next_uuid db) |>
              <| Db.stages := <[TournamentStage.id s := s]> (Db.stages db) |>).

Definition update_stage (id : TournamentStageId) (u : UpdateTournamentStage.t)
    : M TournamentStage.t := λ db,
  match Db.stages db !! id with
  | None => (throw (DomainError.Internal row_not_found), db)
  | Some s =>
      let s :=
        s <| TournamentStage.name := default (TournamentStage.name s) (UpdateTournamentStage.name u) |>
          <| TournamentStage.format_settings :=
               default (TournamentStage.format_settings s) (UpdateTournamentStage.format_settings u) |>
          <| TournamentStage.advancement_count := TournamentRepository.or_keep
               (UpdateTournamentStage.advancement_count u) (TournamentStage.advancement_count s) |>
          <| TournamentStage.advancement_rule :=
               default (TournamentStage.advancement_rule s) (UpdateTournamentStage.advancement_rule u) |>
          <| TournamentStage.match_format := TournamentRepository.or_keep
               (UpdateTournamentStage.match_format u) (TournamentStage.match_format s) |>
          <| TournamentStage.map_veto_format := TournamentRepository.or_keep
               (UpdateTournamentStage.map_veto_format u) (TournamentStage.map_veto_format s) |>
          <| TournamentStage.starts_at := TournamentRepository.or_keep
               (UpdateTournamentStage.starts_at u) (TournamentStage.starts_at s) |>
          <| TournamentStage.ends_at := TournamentRepository.or_keep
               (UpdateTournamentStage.ends_at u) (TournamentStage.ends_at s) |>
          <| TournamentStage.updated_at := Db.now db |> in
      (Ok s, db <| Db.stages := <[id := s]> (Db.stages db) |>)
  end.

Definition brackets_of_tournament (tournament_id : TournamentId) (db : Db.t) : list TournamentBracket.t :=
  stable_sort bracket_leb
    (filter (λ b, TournamentBracket.tournament_id b = tournament_id) (map_to_list (Db.brackets db)).*2).

Definition list_brackets_by_tournament (tournament_id : TournamentId) : M (list TournamentBracket.t) :=
  mread (brackets_of_tournament tournament_id).

Definition list_matches_by_tournament (tournament_id : TournamentId) : M (list TournamentMatch.t) :=
  mread (λ db, stable_sort match_order_leb
    (filter (λ m, TournamentMatch.tournament_id m = tournament_id) (map_to_list (Db.matches db)).*2)).

(** A new row: the statistics take the defaults of their columns. *)
Definition inserted_standing (id : Uuid) (now : DateTime) (cmd : CreateTournamentStanding.t)
    : TournamentStanding.t := {|
  TournamentStanding.id := id;
  TournamentStanding.bracket_id := CreateTournamentStanding.bracket_id cmd;
  TournamentStanding.registration_id := CreateTournamentStanding.registration_id cmd;
  TournamentStanding.participant_name := None;
  TournamentStanding.position := CreateTournamentStanding.position cmd;
  TournamentStanding.matches_played := 0;
  TournamentStanding.matches_won := 0;
  TournamentStanding.matches_lost := 0;
  TournamentStanding.matches_drawn := 0;
  TournamentStanding.game_wins := 0;
  TournamentStanding.game_losses := 0;
  TournamentStanding.game_differential := 0;
  TournamentStanding.buchholz_score := None;
  TournamentStanding.opponent_match_wins := None;
  TournamentStanding.head_to_head := HeadToHead.new;
  TournamentStanding.tiebreaker_score := Floats.SpecFloat.S754_zero false;
  TournamentStanding.is_tied := false;
  TournamentStanding.points := 0;
  TournamentStanding.updated_at := now |}.

(** [tournament_standings_unique]. *)
Definition standing_taken (cmd : CreateTournamentStanding.t) (standings : list TournamentStanding.t) : bool :=
  existsb (λ s, bool_decide (TournamentStanding.bracket_id s = CreateTournamentStanding.bracket_id cmd ∧
    TournamentStanding.registration_id s = CreateTournamentStanding.registration_id cmd)) standings.

Definition create_standing (cmd : CreateTournamentStanding.t) : M TournamentStanding.t := λ db,
  if standing_taken cmd (Db.standings db) then violates "tournament_standings_unique" db
  else
    let s := inserted_standing (Db.next_uuid db) (Db.now db) cmd in
    (Ok s, db <| Db.next_uuid := N.succ (Db.next_uuid db) |>
              <| Db.standings := Db.standings db ++ [s] |>).

Fixpoint insert_standings (cmds : list CreateTournamentStanding.t) : M (list TournamentStanding.t) :=
  match cmds with
  | [] => mret []
  | cmd :: cmds =>
      let* s := create_standing cmd in
      let* ss := insert_standings cmds in
      mret (s :: ss)
  end.

(** One statement: all rows or none. *)
Definition bulk_create_standings (cmds : list CreateTournamentStanding.t)
    : M (list TournamentStanding.t) := transaction (insert_standings cmds).
End stages.
