(* ===== verification/StoreFacts.v ===== *)
(** Reasoning about programs over the tables: inversion of sequencing, frame
    relations closed under it, and what each repository method leaves alone. *)
From stdpp Require Import base list strings gmap.
From S2P Require Import Prelude Errors Wire TournamentTypes Entities FormatPlan Rows Store.

Section facts.
Context `{Platform}.

(** ** Sequencing *)

Lemma mbind_inv {A B} (c : M A) (k : A → M B) db r db' :
  mbind c k db = (r, db') →
  (∃ a db1, c db = (Ok a, db1) ∧ k a db1 = (r, db')) ∨
  (∃ e, c db = (Err e, db') ∧ r = Err e).
Proof. unfold mbind. destruct (c db) as [[a|e] db1]; naive_solver. Qed.

Lemma mbind_ok {A B} (c : M A) (k : A → M B) db b db' :
  mbind c k db = (Ok b, db') ↔ ∃ a db1, c db = (Ok a, db1) ∧ k a db1 = (Ok b, db').
Proof. unfold mbind. destruct (c db) as [[a|e] db1]; naive_solver. Qed.

Lemma mbind_step {A B} (c : M A) (k : A → M B) db a db1 :
  c db = (Ok a, db1) → mbind c k db = k a db1.
Proof. unfold mbind. by intros ->. Qed.

Lemma mbind_stop {A B} (c : M A) (k : A → M B) db e db1 :
  c db = (Err e, db1) → mbind c k db = (Err e, db1).
Proof. unfold mbind. by intros ->. Qed.

Lemma run_outcome {A} (c : M A) db r : (c db).1 = r → c db = (r, (c db).2).
Proof. intros <-. apply surjective_pairing. Qed.

(** ** Transactions *)

Lemma transaction_ok {A} (c : M A) db a db' :
  transaction c db = (Ok a, db') ↔ c db = (Ok a, db').
Proof. unfold transaction. destruct (c db) as [[a'|e] db1]; naive_solver. Qed.

Lemma transaction_step {A} (c : M A) db a db' :
  c db = (Ok a, db') → transaction c db = (Ok a, db').
Proof. apply transaction_ok. Qed.

(** Nothing is kept of a transaction that fails. *)
Lemma transaction_err {A} (c : M A) db e db' :
  transaction c db = (Err e, db') → db' = db ∧ ∃ db1, c db = (Err e, db1).
Proof. unfold transaction. destruct (c db) as [[a|e'] db1]; naive_solver. Qed.

Lemma transaction_abort {A} (c : M A) db e db1 :
  c db = (Err e, db1) → transaction c db = (Err e, db).
Proof. unfold transaction. by intros ->. Qed.

(** ** Frames *)

(** Whatever the outcome, the program relates its states by [R]. *)
Definition preserves {A} (R : Db.t → Db.t → Prop) (c : M A) : Prop := ∀ db, R db (c db).2.

(** A program that reads and is then refused has written nothing. *)
Lemma read_refused {A B} (c : M A) (k : A → M B) db :
  preserves eq c → (∀ a, c db = (Ok a, db) → ∃ e, k a db = (Err e, db)) → ∃ e, mbind c k db = (Err e, db).
Proof.
  intros Hc Hk. unfold mbind. specialize (Hc db).
  destruct (c db) as [[a|e] db1]; cbn in Hc; subst db1; [by apply Hk|by eexists].
Qed.

Section frames.
Context (R : Db.t → Db.t → Prop) `{!PreOrder R}.

Lemma preserves_ret {A} (a : A) : preserves R (mret a).
Proof. intros db. reflexivity. Qed.
Lemma preserves_throw {A} e : preserves R (mthrow e : M A).
Proof. intros db. reflexivity. Qed.
Lemma preserves_lift {A} (r : outcome A) : preserves R (mlift r).
Proof. intros db. reflexivity. Qed.
Lemma preserves_read {A} (f : Db.t → A) : preserves R (mread f).
Proof. intros db. reflexivity. Qed.
Lemma preserves_query {A} (f : Db.t → outcome A) : preserves R (mquery f).
Proof. intros db. reflexivity. Qed.

Lemma preserves_bind {A B} (c : M A) (k : A → M B) :
  preserves R c → (∀ a, preserves R (k a)) → preserves R (mbind c k).
Proof.
  intros Hc Hk db. unfold mbind. specialize (Hc db). destruct (c db) as [[a|e] db1]; [|done].
  etransitivity; [exact Hc|apply Hk].
Qed.

(** The same from one state: what is read is known, what follows is framed. *)
Lemma frame_read_at {A B} (c : M A) (k : A → M B) db :
  preserves eq c → (∀ a, c db = (Ok a, db) → R db (k a db).2) → R db (mbind c k db).2.
Proof.
  intros Hc Hk. unfold mbind. specialize (Hc db). destruct (c db) as [[a|e] db1]; cbn in Hc; subst db1;
    [by apply Hk|reflexivity].
Qed.

Lemma frame_then_at {A B} (c : M A) (k : A → M B) db :
  R db (c db).2 → (∀ a, preserves R (k a)) → R db (mbind c k db).2.
Proof.
  intros Hc Hk. unfold mbind. destruct (c db) as [[a|e] db1]; [|exact Hc]. etransitivity; [exact Hc|apply Hk].
Qed.

Lemma preserves_for {A} (l : list A) (body : A → M unit) :
  (∀ x, preserves R (body x)) → preserves R (mfor l body).
Proof.
  intros Hb. induction l as [|x l IH]; [apply preserves_ret|]. by apply preserves_bind.
Qed.

Lemma preserves_transaction {A} (c : M A) : preserves R c → preserves R (transaction c).
Proof.
  intros Hc db. unfold transaction. specialize (Hc db). destruct (c db) as [[a|e] db1]; [done|].
  simpl. reflexivity.
Qed.

Lemma preserves_try {A} (c : M A) : preserves R c → preserves R (mtry c).
Proof. intros Hc db. unfold mtry. specialize (Hc db). by destruct (c db) as [[a|[e|]] db1]. Qed.

Lemma preserves_insert_matches cmds :
  (∀ cmd, preserves R (insert_match cmd)) → preserves R (insert_matches cmds).
Proof.
  intros Hi. induction cmds as [|cmd cmds IH]; [apply preserves_ret|].
  apply preserves_bind; [done|]. intros m. apply preserves_bind; [done|]. intros ms. apply preserves_ret.
Qed.

Lemma preserves_bulk_create cmds :
  (∀ cmd, preserves R (insert_match cmd)) → preserves R (bulk_create cmds).
Proof.
  intros Hi db. unfold bulk_create. pose proof (preserves_insert_matches cmds Hi db) as Hr.
  destruct (insert_matches cmds db) as [[ms|e] db']; [exact Hr|]. simpl. reflexivity.
Qed.
End frames.

(** Everything but the match table stays. *)
Record only_matches (db db' : Db.t) : Prop := {
  om_now : Db.now db' = Db.now db;
  om_next : Db.next_uuid db' = Db.next_uuid db;
  om_brackets : Db.brackets db' = Db.brackets db;
  om_stages : Db.stages db' = Db.stages db;
  om_registrations : Db.registrations db' = Db.registrations db;
  om_standings : Db.standings db' = Db.standings db;
  om_byes : Db.byes db' = Db.byes db;
  om_status_log : Db.status_log db' = Db.status_log db;
  om_forfeit_records : Db.forfeit_records db' = Db.forfeit_records db;
  om_veto_sessions : Db.veto_sessions db' = Db.veto_sessions db;
  om_veto_actions : Db.veto_actions db' = Db.veto_actions db;
  om_result_claims : Db.result_claims db' = Db.result_claims db;
  om_disputes : Db.disputes db' = Db.disputes db;
  om_dispute_messages : Db.dispute_messages db' = Db.dispute_messages db;
  om_entity_changes : Db.entity_changes db' = Db.entity_changes db;
  om_demo_match_links : Db.demo_match_links db' = Db.demo_match_links db;
  om_league_team_members : Db.league_team_members db' = Db.league_team_members db;
  om_adhoc_team_members : Db.adhoc_team_members db' = Db.adhoc_team_members db;
  om_saga_executions : Db.saga_executions db' = Db.saga_executions db;
  om_progression_log : Db.progression_log db' = Db.progression_log db;
  om_result_reviews : Db.result_reviews db' = Db.result_reviews db;
  om_tournaments : Db.tournaments db' = Db.tournaments db;
  om_invitations : Db.invitations db' = Db.invitations db;
  om_map_pools : Db.map_pools db' = Db.map_pools db;
  om_league_seasons : Db.league_seasons db' = Db.league_seasons db;
  om_schedule_proposals : Db.schedule_proposals db' = Db.schedule_proposals db;
  om_availability_windows : Db.availability_windows db' = Db.availability_windows db;
  om_availability_overrides : Db.availability_overrides db' = Db.availability_overrides db;
  om_suggested_times : Db.suggested_times db' = Db.suggested_times db;
  om_players : Db.players db' = Db.players db;
  om_pugs : Db.pugs db' = Db.pugs db;
  om_pug_players : Db.pug_players db' = Db.pug_players db;
  om_pug_wheel_entries : Db.pug_wheel_entries db' = Db.pug_wheel_entries db;
  om_pug_wheel_spins : Db.pug_wheel_spins db' = Db.pug_wheel_spins db;
  om_leagues : Db.leagues db' = Db.leagues db;
  om_league_members : Db.league_members db' = Db.league_members db;
  om_league_teams : Db.league_teams db' = Db.league_teams db;
  om_league_team_seasons : Db.league_team_seasons db' = Db.league_team_seasons db;
  om_league_team_invitations : Db.league_team_invitations db' = Db.league_team_invitations db;
  om_captain_grants : Db.captain_grants db' = Db.captain_grants db;
  om_league_season_participants : Db.league_season_participants db' = Db.league_season_participants db;
}.
#[global] Instance only_matches_preorder : PreOrder only_matches.
Proof.
  split; [by split|]. intros x y z [] []. split; congruence.
Qed.

Lemma update_match_only id set : preserves only_matches (update_match id set).
Proof. intros db. unfold update_match. destruct (_ !! _); by split. Qed.

Lemma exec_match_only id set : preserves only_matches (exec_match id set).
Proof. intros db. by split. Qed.

Lemma set_progression_links_only id w l : preserves only_matches (set_progression_links id w l).
Proof. intros db. by split. Qed.

Lemma mark_pending_only ids : preserves only_matches (mark_pending_as_ready_bulk ids).
Proof. intros db. by split. Qed.

Lemma clear_participant_only id slot : preserves only_matches (clear_participant id slot).
Proof.
  intros db. unfold clear_participant. destruct (_ !! _); [|by split]. apply update_match_only.
Qed.

(** ** Single updates *)

Lemma update_match_found id set db m :
  Db.matches db !! id = Some m →
  update_match id set db =
  (Ok (set (Db.now db) m), db <| Db.matches := <[id := set (Db.now db) m]> (Db.matches db) |>).
Proof. unfold update_match. by intros ->. Qed.

Lemma clear_participant_found id slot db m :
  Db.matches db !! id = Some m →
  let m' := set_participant slot None None None None m <| TournamentMatch.updated_at := Db.now db |> in
  clear_participant id slot db = (Ok m', db <| Db.matches := <[id := m']> (Db.matches db) |>).
Proof. intros Hm m'. unfold clear_participant. rewrite Hm.
  unfold update_match. by rewrite Hm.
Qed.
End facts.

Create HintDb frames.
#[export] Hint Resolve preserves_ret preserves_throw preserves_lift preserves_read preserves_query preserves_bind
  preserves_for preserves_transaction preserves_try : frames.
#[export] Hint Resolve update_match_only exec_match_only set_progression_links_only mark_pending_only
  clear_participant_only : frames.

(** Follow the program: binds, loops and case analyses, then the hints. *)
Ltac frame_step :=
  first
    [ progress intros
    | solve [eauto 3 with frames typeclass_instances nocore]
    | apply preserves_bind
    | apply preserves_for
    | match goal with
      | |- preserves _ (match ?x with _ => _ end) => destruct x
      | |- preserves _ (if ?x then _ else _) => destruct x
      end ].
Ltac frame := repeat frame_step.

(** Open the sequencing in a hypothesis [c db = (Ok _, _)]. *)
Ltac mopen Hc :=
  let a := fresh "a" in let db1 := fresh "db" in let H1 := fresh "Hrun" in
  apply mbind_ok in Hc as (a & db1 & H1 & Hc).
