(* ===== verification/Samples.v ===== *)
(** Concrete states for the witnesses: registrations, matches, tournaments and
    tables over a platform whose JSON values are those of [SampleJson]. *)
From stdpp Require Import base list strings gmap pretty.
From S2P Require Import Prelude Errors Wire TournamentTypes CoreEnums FormatPlan Entities.
From S2P Require Import BracketModel Rows TournamentModel Store TournamentStore.
#[local] Open Scope Z_scope.

Definition sample_platform : Platform := {|
  Json := SampleJson.t;
  platform_json := SampleJson.json;
  json_true := SampleJson.Bool true;
  json_of_int := SampleJson.Num;
  json_null_value := SampleJson.Null;
  json_array := SampleJson.Arr;
  json_bool v := match v with SampleJson.Bool b => Some b | _ => None end;
  json_i64 v := match v with SampleJson.Num n => Some n | _ => None end;
  uuid_string _ := "uuid";
  datetime_string _ := "time";
  datetime_debug _ := "time";
  date_max := 95026236;
  constraint_violation name := "constraint " +:+ name;
  error_string _ := "error" |}.
#[local] Existing Instance sample_platform.

Definition sample_row (id bracket : N) (round number : Z) (pos : string)
    (sources : option MatchParticipantSource.t * option MatchParticipantSource.t)
    (participants : option N * option N) : TournamentMatch.t :=
  (inserted_match id 0 (new_match 1 1 bracket round number pos sources MatchFormat.Bo1))
    <| TournamentMatch.participant1_registration_id := participants.1 |>
    <| TournamentMatch.participant2_registration_id := participants.2 |>.

(** The row with a recorded result. *)
Definition with_result (winner loser : N) (score1 score2 : Z) (m : TournamentMatch.t)
    : TournamentMatch.t :=
  m <| TournamentMatch.winner_registration_id := Some winner |>
    <| TournamentMatch.loser_registration_id := Some loser |>
    <| TournamentMatch.participant1_score := score1 |>
    <| TournamentMatch.participant2_score := score2 |>
    <| TournamentMatch.status := TournamentMatchStatus.Completed |>.

Definition sample_bracket (id stage : N) (bracket_type : BracketType.t) : TournamentBracket.t := {|
  TournamentBracket.id := id;
  TournamentBracket.stage_id := stage;
  TournamentBracket.tournament_id := 1;
  TournamentBracket.name := "Main Bracket";
  TournamentBracket.bracket_type := bracket_type;
  TournamentBracket.total_rounds := 1;
  TournamentBracket.current_round := 1;
  TournamentBracket.group_number := None;
  TournamentBracket.status := BracketStatus.Pending;
  TournamentBracket.created_at := 0;
  TournamentBracket.updated_at := 0 |}.

Definition sample_stage (id : N) (order : Z) (format : StageFormat.t) : TournamentStage.t := {|
  TournamentStage.id := id;
  TournamentStage.tournament_id := 1;
  TournamentStage.name := "Stage";
  TournamentStage.stage_order := order;
  TournamentStage.format := format;
  TournamentStage.format_settings := SampleJson.Null : Json;
  TournamentStage.advancement_count := Some 2;
  TournamentStage.advancement_rule := AdvancementRule.TopN;
  TournamentStage.match_format := None;
  TournamentStage.map_veto_format := None;
  TournamentStage.status := StageStatus.Pending;
  TournamentStage.starts_at := None;
  TournamentStage.ends_at := None;
  TournamentStage.created_at := 0;
  TournamentStage.updated_at := 0 |}.

Definition sample_standing (id bracket registration : N) : TournamentStanding.t := {|
  TournamentStanding.id := id;
  TournamentStanding.bracket_id := bracket;
  TournamentStanding.registration_id := registration;
  TournamentStanding.participant_name := None;
  TournamentStanding.position := 0;
  TournamentStanding.matches_played := 0;
  TournamentStanding.matches_won := 0;
  TournamentStanding.matches_lost := 0;
  TournamentStanding.matches_drawn := 0;
  TournamentStanding.game_wins := 0;
  TournamentStanding.game_losses := 0;
  TournamentStanding.game_differential := 0;
  TournamentStanding.buchholz_score := None;
  TournamentStanding.opponent_match_wins := None;
  TournamentStanding.head_to_head := HeadToHead.new;
  TournamentStanding.tiebreaker_score := SpecFloat.S754_zero false;
  TournamentStanding.is_tied := false;
  TournamentStanding.points := 0;
  TournamentStanding.updated_at := 0 |}.

Definition sample_entrant (id : N) : SeededParticipant.t := {|
  SeededParticipant.registration_id := id;
  SeededParticipant.seed := Z.of_N id;
  SeededParticipant.participant_name := pretty id;
  SeededParticipant.participant_logo_url := None |}.

Definition sample_db (matches : list TournamentMatch.t) (brackets : list TournamentBracket.t)
    (standings : list TournamentStanding.t) : Db.t := {|
  Db.now := 100;
  Db.next_uuid := 1000;
  Db.matches := list_to_map ((λ m, (TournamentMatch.id m, m)) <$> matches);
  Db.brackets := list_to_map ((λ b, (TournamentBracket.id b, b)) <$> brackets);
  Db.stages := list_to_map ((λ s, (TournamentStage.id s, s)) <$>
    [sample_stage 1 1 StageFormat.GroupStage; sample_stage 2 2 StageFormat.SingleElimination]);
  Db.registrations := list_to_map ((λ r, (TournamentRegistration.id r, r)) <$>
    ((λ id, sample_registration id (Some (Z.of_N id))) <$> [1; 2; 3; 4]%N));
  Db.standings := standings;
  Db.byes := [];
  Db.status_log := [];
  Db.forfeit_records := [];
  Db.veto_sessions := ∅;
  Db.veto_actions := [];
  Db.result_claims := ∅;
  Db.disputes := ∅;
  Db.dispute_messages := [];
  Db.entity_changes := [];
  Db.demo_match_links := ∅;
  Db.league_team_members := [];
  Db.adhoc_team_members := [];
  Db.saga_executions := ∅;
  Db.progression_log := [];
  Db.result_reviews := ∅;
  Db.tournaments := ∅;
  Db.invitations := ∅;
  Db.map_pools := ∅;
  Db.league_seasons := ∅;
  Db.schedule_proposals := ∅;
  Db.availability_windows := ∅;
  Db.availability_overrides := ∅;
  Db.suggested_times := ∅;
  Db.players := ∅;
  Db.pugs := ∅;
  Db.pug_players := ∅;
  Db.pug_wheel_entries := ∅;
  Db.pug_wheel_spins := [];
  Db.leagues := ∅;
  Db.league_members := ∅;
  Db.league_teams := ∅;
  Db.league_team_seasons := ∅;
  Db.league_team_invitations := ∅;
  Db.captain_grants := [];
  Db.league_season_participants := ∅ |}.

#[local] Existing Instance sample_platform.

(** Tournament 7: not yet started, registration open. *)
Definition sample_tournament (format : TournamentFormat.t) : Tournament.t := {|
  Tournament.id := 7;
  Tournament.game_id := 1;
  Tournament.league_id := None;
  Tournament.season_id := None;
  Tournament.name := "Cup";
  Tournament.slug := "cup";
  Tournament.description := None;
  Tournament.logo_url := None;
  Tournament.banner_url := None;
  Tournament.format := format;
  Tournament.format_settings := json_of_object [] : Json;
  Tournament.participant_type := TournamentParticipantType.Individual;
  Tournament.kind := TournamentKind.Standard;
  Tournament.team_size := None;
  Tournament.min_participants := 2;
  Tournament.max_participants := 4;
  Tournament.registration_type := RegistrationType.Open;
  Tournament.registration_start := None;
  Tournament.registration_end := None;
  Tournament.check_in_start := None;
  Tournament.check_in_end := None;
  Tournament.check_in_required := false;
  Tournament.scheduling_mode := SchedulingMode.default;
  Tournament.starts_at := None;
  Tournament.ends_at := None;
  Tournament.timezone_hint := None;
  Tournament.default_match_format := MatchFormat.Bo3;
  Tournament.default_map_veto_format := None;
  Tournament.prize_pool := None;
  Tournament.rules_url := None;
  Tournament.settings := json_of_object [] : Json;
  Tournament.withdrawal_policy := WithdrawalPolicy.default;
  Tournament.status := TournamentStatus.Registration;
  Tournament.archived_at := None;
  Tournament.archived_by := None;
  Tournament.created_by := 1;
  Tournament.organization_id := None;
  Tournament.created_at := 0;
  Tournament.updated_at := 0;
  Tournament.published_at := None;
  Tournament.started_at := None;
  Tournament.completed_at := None |}.

(** Player [n] of tournament 7, in some status. *)
Definition sample_entry (status : TournamentRegistrationStatus.t) (n : N) : TournamentRegistration.t :=
  (sample_registration (20 + n) (Some (Z.of_N n)))
    <| TournamentRegistration.tournament_id := 7%N |>
    <| TournamentRegistration.team_season_id := None |>
    <| TournamentRegistration.player_id := Some n |>
    <| TournamentRegistration.status := status |>.

Definition tournament_db (t : Tournament.t) (entries : list TournamentRegistration.t) : Db.t :=
  (sample_db [] [] [])
    <| Db.tournaments := {[Tournament.id t := t]} |>
    <| Db.registrations := list_to_map ((λ r, (TournamentRegistration.id r, r)) <$> entries) |>.
