(* ===== verification/Reviews.v ===== *)
(** The table of result reviews, with the statements of
    crates/portal-db/src/adapters/result_review.rs over it (constraints are those
    of migrations/0042_result_reviews.sql), and [ResultReviewService]
    (crates/portal-domain/src/services/tournament/result_review.rs): reviews of
    results that the demos contradict, acknowledged by the captains or decided
    by an administrator; and the adapter through which a completion creates
    them (crates/portal-api/src/adapters/review_creator.rs). *)
From stdpp Require Import base list strings gmap pretty.
From S2P Require Import Prelude Errors Wire TournamentTypes DomainEnums Rows SagaModel Store.
#[local] Open Scope Z_scope.

Module ResultReviewRepository.
Section repository.
Context `{Platform}.

(** The [INSERT] leaves the administrator's columns and the timestamps to
    their defaults. *)
Definition inserted (now : DateTime) (review : ResultReview.t) : ResultReview.t :=
  review <| ResultReview.reviewed_by_user_id := None |>
         <| ResultReview.reviewed_at := None |>
         <| ResultReview.admin_notes := None |>
         <| ResultReview.created_at := now |>
         <| ResultReview.updated_at := now |>.

Definition insert (review : ResultReview.t) : M unit :=
  mwrite (λ db, db <| Db.result_reviews :=
    <[ResultReview.id review := inserted (Db.now db) review]> (Db.result_reviews db) |>).

Definition reviews_where (P : ResultReview.t → bool) (db : Db.t) : list ResultReview.t :=
  filter (λ r, P r = true) (map_to_list (Db.result_reviews db)).*2.

Definition find_by_id (id : ResultReviewId) : M (option ResultReview.t) :=
  mread (λ db, Db.result_reviews db !! id).

(** No order: of several reviews of a claim, any. *)
Definition find_by_claim_id (claim_id : ResultClaimId) : M (option ResultReview.t) :=
  mread (λ db, head (reviews_where
    (λ r, bool_decide (ResultReview.result_claim_id r = claim_id)) db)).

(** [ORDER BY created_at DESC]. *)
Definition newer (r1 r2 : ResultReview.t) : bool :=
  bool_decide (ResultReview.created_at r2 ≤ ResultReview.created_at r1).

Definition review_of_match (match_id : TournamentMatchId) (db : Db.t) : option ResultReview.t :=
  head (stable_sort newer (reviews_where
    (λ r, bool_decide (ResultReview.match_id r = match_id)) db)).

Definition find_by_match_id (match_id : TournamentMatchId) : M (option ResultReview.t) :=
  mread (review_of_match match_id).

(** [ORDER BY created_at ASC, id ASC], or both descending. *)
Definition queue_order (oldest_first : bool) (r1 r2 : ResultReview.t) : bool :=
  let '(a, b) := if oldest_first then (r1, r2) else (r2, r1) in
  bool_decide (ResultReview.created_at a < ResultReview.created_at b ∨
    (ResultReview.created_at a = ResultReview.created_at b ∧
     (ResultReview.id a <= ResultReview.id b)%N)).

Definition pending_admin_reviews (db : Db.t) : list ResultReview.t :=
  reviews_where (λ r, bool_decide (ResultReview.status r = ResultReviewStatus.PendingAdminReview)) db.

Definition find_pending_admin_reviews (limit offset : Z) (oldest_first : bool)
    : M (list ResultReview.t) :=
  mread (λ db, take (Z.to_nat limit) (drop (Z.to_nat offset)
    (stable_sort (queue_order oldest_first) (pending_admin_reviews db)))).

Definition count_pending_admin_reviews : M Z :=
  mread (λ db, Z.of_nat (length (pending_admin_reviews db))).

(** [UPDATE result_reviews SET .. WHERE id = $1] with [execute]. *)
Definition update_row (id : ResultReviewId) (set : DateTime → ResultReview.t → ResultReview.t) : M unit :=
  mwrite (λ db, db <| Db.result_reviews := alter (set (Db.now db)) id (Db.result_reviews db) |>).

Definition set_acknowledged (captain_side : Z) (acknowledged_by_user_id : UserId) (now : DateTime)
    (r : ResultReview.t) : ResultReview.t :=
  if bool_decide (captain_side = 1) then
    r <| ResultReview.captain1_acknowledged := true |>
      <| ResultReview.captain1_acknowledged_at := Some now |>
      <| ResultReview.captain1_acknowledged_by_user_id := Some acknowledged_by_user_id |>
      <| ResultReview.updated_at := now |>
  else
    r <| ResultReview.captain2_acknowledged := true |>
      <| ResultReview.captain2_acknowledged_at := Some now |>
      <| ResultReview.captain2_acknowledged_by_user_id := Some acknowledged_by_user_id |>
      <| ResultReview.updated_at := now |>.

Definition update_captain_acknowledgment (id : ResultReviewId) (captain_side : Z)
    (acknowledged_by_user_id : UserId) : M unit :=
  if bool_decide (captain_side = 1 ∨ captain_side = 2)
  then update_row id (set_acknowledged captain_side acknowledged_by_user_id)
  else mthrow (DomainError.Internal ("Invalid captain side: " +:+ pretty captain_side)).

Definition set_review_status (status : ResultReviewStatus.t) (now : DateTime) (r : ResultReview.t)
    : ResultReview.t :=
  r <| ResultReview.status := status |> <| ResultReview.updated_at := now |>.

Definition update_status (id : ResultReviewId) (status : ResultReviewStatus.t) : M unit :=
  update_row id (set_review_status status).

Definition set_resolved (status : ResultReviewStatus.t) (reviewed_by_user_id : UserId)
    (admin_notes : option string) (now : DateTime) (r : ResultReview.t) : ResultReview.t :=
  r <| ResultReview.status := status |>
    <| ResultReview.reviewed_by_user_id := Some reviewed_by_user_id |>
    <| ResultReview.reviewed_at := Some now |>
    <| ResultReview.admin_notes := admin_notes |>
    <| ResultReview.updated_at := now |>.

Definition resolve (id : ResultReviewId) (status : ResultReviewStatus.t) (reviewed_by_user_id : UserId)
    (admin_notes : option string) : M unit :=
  update_row id (set_resolved status reviewed_by_user_id admin_notes).
End repository.
End ResultReviewRepository.

Module ResultReviewService.
Section service.
Context `{Platform}.

Definition create_from_validation (result_claim_id : ResultClaimId) (match_id : TournamentMatchId)
    (demo_link_id : option DemoMatchLinkId) (validation_result : DemoValidationResult.t)
    (score_mismatch winner_mismatch : bool) (unrecognized_players : list UnrecognizedPlayer.t)
    (captain1_registration_id captain2_registration_id : TournamentRegistrationId)
    : M (option ResultReview.t) :=
  let has_roster_mismatch := match unrecognized_players with [] => false | _ => true end in
  if negb has_roster_mismatch && negb score_mismatch && negb winner_mismatch then mret None
  else
    let* now := mread Db.now in
    let* id := fresh_uuid in
    let review :=
      if score_mismatch || winner_mismatch then
        ResultReview.for_score_mismatch id now result_claim_id match_id demo_link_id
          validation_result score_mismatch winner_mismatch unrecognized_players
          captain1_registration_id captain2_registration_id
      else
        ResultReview.for_roster_mismatch id now result_claim_id match_id demo_link_id
          validation_result unrecognized_players captain1_registration_id captain2_registration_id in
    let* _ := ResultReviewRepository.insert review in
    mret (Some review).

Definition create_for_progression_stall (result_claim_id : ResultClaimId)
    (match_id : TournamentMatchId)
    (captain1_registration_id captain2_registration_id : TournamentRegistrationId)
    : M (option ResultReview.t) :=
  let* existing := ResultReviewRepository.find_by_match_id match_id in
  match existing with
  | Some _ => mret None
  | None =>
      let* now := mread Db.now in
      let* id := fresh_uuid in
      let review := ResultReview.for_progression_stall id now result_claim_id match_id
                      captain1_registration_id captain2_registration_id in
      let* _ := ResultReviewRepository.insert review in
      mret (Some review)
  end.

Definition get_review (review_id : ResultReviewId) : M ResultReview.t :=
  let* review := ResultReviewRepository.find_by_id review_id in
  mlift (ok_or review (Error (DomainError.ResultReviewNotFound review_id))).

Definition invalid_state {A} (review : ResultReview.t) (reason : string) : M A :=
  mthrow (DomainError.InvalidReviewState (ResultReviewStatus.fmt (ResultReview.status review)) reason).

Definition acknowledge (review_id : ResultReviewId) (registration_id : TournamentRegistrationId)
    (user_id : UserId) : M ResultReview.t :=
  let* review := get_review review_id in
  if negb (bool_decide (ResultReview.status review = ResultReviewStatus.PendingAcknowledgment))
  then invalid_state review "review is not pending acknowledgment"
  else
    let* captain_side := mlift (ok_or (ResultReview.get_captain_side review registration_id)
      (Error (DomainError.NotAuthorized ("Registration " +:+ uuid_string registration_id
                +:+ " is not a captain for this review")))) in
    if ResultReview.is_captain_acknowledged review captain_side
    then mthrow (DomainError.ReviewAlreadyAcknowledged captain_side)
    else
      let* _ := ResultReviewRepository.update_captain_acknowledgment review_id captain_side user_id in
      let other_acknowledged :=
        if bool_decide (captain_side = 1) then ResultReview.captain2_acknowledged review
        else if bool_decide (captain_side = 2) then ResultReview.captain1_acknowledged review
        else false in
      let* _ :=
        (if other_acknowledged
         then ResultReviewRepository.update_status review_id ResultReviewStatus.Acknowledged
         else mret tt) in
      get_review review_id.

Definition decide_review (status : ResultReviewStatus.t) (review_id : ResultReviewId)
    (admin_user_id : UserId) (admin_notes : option string) : M ResultReview.t :=
  let* review := get_review review_id in
  if ResultReviewStatus.is_terminal (ResultReview.status review)
  then invalid_state review "review has already been resolved"
  else
    let* _ := ResultReviewRepository.resolve review_id status admin_user_id admin_notes in
    get_review review_id.

Definition approve : ResultReviewId → UserId → option string → M ResultReview.t :=
  decide_review ResultReviewStatus.Approved.

Definition reject : ResultReviewId → UserId → option string → M ResultReview.t :=
  decide_review ResultReviewStatus.Rejected.

Definition get_for_match (match_id : TournamentMatchId) : M (option ResultReview.t) :=
  ResultReviewRepository.find_by_match_id match_id.

Definition get_by_id (review_id : ResultReviewId) : M (option ResultReview.t) :=
  ResultReviewRepository.find_by_id review_id.

Definition list_pending_reviews (limit offset : Z) (oldest_first : bool)
    : M (list ResultReview.t * Z) :=
  let* reviews := ResultReviewRepository.find_pending_admin_reviews limit offset oldest_first in
  let* total := ResultReviewRepository.count_pending_admin_reviews in
  mret (reviews, total).
End service.
End ResultReviewService.

(** The trait a completion sees of the service. *)
Module ReviewCreator.
Record t `{Platform} := mk {
  create_if_needed : ResultClaimId → TournamentMatchId → list DemoValidationOutcome.t →
    TournamentRegistrationId → TournamentRegistrationId → M (option ResultReview.t);
  get_for_match : TournamentMatchId → M (option ResultReview.t);
}.
End ReviewCreator.

Module ReviewCreatorAdapter.
Section adapter.
Context `{Platform}.

(** The first outcome is the one the review shows; mismatches and unknown
    players are gathered from all of them. *)
Definition create_if_needed (result_claim_id : ResultClaimId) (match_id : TournamentMatchId)
    (outcomes : list DemoValidationOutcome.t)
    (captain1_reg_id captain2_reg_id : TournamentRegistrationId) : M (option ResultReview.t) :=
  match outcomes with
  | [] => mret None
  | first :: _ =>
      ResultReviewService.create_from_validation result_claim_id match_id
        (Some (DemoValidationOutcome.link_id first)) (DemoValidationOutcome.validation first)
        (existsb (λ o, DemoValidationResult.has_score_mismatch (DemoValidationOutcome.validation o)) outcomes)
        (existsb (λ o, DemoValidationResult.has_winner_mismatch (DemoValidationOutcome.validation o)) outcomes)
        (outcomes ≫= DemoValidationOutcome.unrecognized_players) captain1_reg_id captain2_reg_id
  end.

Definition review_creator : ReviewCreator.t :=
  ReviewCreator.mk _ create_if_needed ResultReviewService.get_for_match.
End adapter.
End ReviewCreatorAdapter.
