(* ===== verification/SagaStore.v ===== *)
(** The table of saga executions and the progression log, with the statements
    of crates/portal-db/src/adapters/saga.rs over them (the unique index is that
    of migrations/0068_saga_execution_dedupe.sql; a trigger stamps [updated_at]
    at every update), and [SagaCoordinator]
    (crates/portal-domain/src/services/tournament/saga.rs): the record every
    completion keeps of its own progress. *)
From stdpp Require Import base list strings gmap.
From S2P Require Import Prelude Errors Wire TournamentTypes DomainEnums Rows SagaModel Store.
#[local] Open Scope Z_scope.

Module SagaExecutionRepository.
Section repository.
Context `{Platform}.

Definition STALE_LIVE_SAGA_MINUTES : Z := 10.

(** [status IN ('pending', 'running')]. *)
Definition is_live (e : SagaExecution.t) : bool :=
  SagaExecution.is_pending e || SagaExecution.is_running e.

Definition executions (db : Db.t) : list SagaExecution.t := (map_to_list (Db.saga_executions db)).*2.

Definition live_index : string := "uq_saga_executions_live_per_match".

(** [uq_saga_executions_live_per_match]: a live row other than [id] with the
    same match and type. *)
Definition live_conflict (id : option SagaId) (match_id : option TournamentMatchId)
    (saga_type : string) (db : Db.t) : bool :=
  match match_id with
  | None => false
  | Some _ => existsb (λ e, is_live e && bool_decide
      (Some (SagaExecution.id e) ≠ id ∧ SagaExecution.match_id e = match_id ∧
       SagaExecution.saga_type e = saga_type)) (executions db)
  end.

(** The row of the [INSERT]: running from the start. *)
Definition inserted (id : SagaId) (now : DateTime) (saga : CreateSagaExecution.t) : SagaExecution.t := {|
  SagaExecution.id := id;
  SagaExecution.saga_type := CreateSagaExecution.saga_type saga;
  SagaExecution.saga_version := CreateSagaExecution.saga_version saga;
  SagaExecution.tournament_id := CreateSagaExecution.tournament_id saga;
  SagaExecution.match_id := CreateSagaExecution.match_id saga;
  SagaExecution.correlation_id := CreateSagaExecution.correlation_id saga;
  SagaExecution.input_data := CreateSagaExecution.input_data saga;
  SagaExecution.current_step := 0;
  SagaExecution.status := SagaStatus.Running;
  SagaExecution.step_history := [];
  SagaExecution.last_error := None;
  SagaExecution.retry_count := 0;
  SagaExecution.max_retries := CreateSagaExecution.max_retries saga;
  SagaExecution.started_at := Some now;
  SagaExecution.completed_at := None;
  SagaExecution.created_at := now;
  SagaExecution.updated_at := now |}.

(** [None] is the live-saga conflict ([is_live_saga_conflict]). *)
Definition insert_running (saga : CreateSagaExecution.t) : M (option SagaExecution.t) := λ db,
  if live_conflict None (CreateSagaExecution.match_id saga) (CreateSagaExecution.saga_type saga) db
  then (Ok None, db)
  else
    let e := inserted (Db.next_uuid db) (Db.now db) saga in
    (Ok (Some e), db <| Db.next_uuid := N.succ (Db.next_uuid db) |>
                     <| Db.saga_executions := <[SagaExecution.id e := e]> (Db.saga_executions db) |>).

Definition retired (now : DateTime) (e : SagaExecution.t) : SagaExecution.t :=
  e <| SagaExecution.status := SagaStatus.Failed |>
    <| SagaExecution.retry_count := SagaExecution.max_retries e |>
    <| SagaExecution.completed_at := Some now |>
    <| SagaExecution.last_error := Some (default
         "retired: stale live saga superseded by a new completion" (SagaExecution.last_error e)) |>
    <| SagaExecution.updated_at := now |>.

(** The rows [retire_stale_live_saga] updates. *)
Definition is_stale (match_id : TournamentMatchId) (saga_type : string) (now : DateTime)
    (e : SagaExecution.t) : bool :=
  is_live e && bool_decide
    (SagaExecution.match_id e = Some match_id ∧ SagaExecution.saga_type e = saga_type ∧
     SagaExecution.created_at e < now - minutes STALE_LIVE_SAGA_MINUTES).

Definition retire_stale_live_saga (saga : CreateSagaExecution.t) : M bool :=
  match CreateSagaExecution.match_id saga with
  | None => mret false
  | Some match_id => λ db,
      let stale := is_stale match_id (CreateSagaExecution.saga_type saga) (Db.now db) in
      (Ok (existsb stale (executions db)),
       db <| Db.saga_executions :=
         (λ e, if stale e then retired (Db.now db) e else e) <$> Db.saga_executions db |>)
  end.

Definition already_in_progress {A} : M A :=
  mthrow (DomainError.Conflict "A completion is already in progress for this match").

Definition create (saga : CreateSagaExecution.t) : M SagaExecution.t :=
  let* row := insert_running saga in
  match row with
  | Some e => mret e
  | None =>
      let* was_retired := retire_stale_live_saga saga in
      if was_retired then
        let* row := insert_running saga in
        match row with
        | Some e => mret e
        | None => already_in_progress
        end
      else already_in_progress
  end.

(** [UPDATE saga_executions SET .. WHERE id = $1 RETURNING *]. *)
Definition update_row (id : SagaId) (what : string) (set : DateTime → SagaExecution.t → SagaExecution.t)
    : M SagaExecution.t := λ db,
  match Db.saga_executions db !! id with
  | None => (throw (DomainError.Internal (what +:+ row_not_found)), db)
  | Some e =>
      let e := (set (Db.now db) e) <| SagaExecution.updated_at := Db.now db |> in
      if is_live e && live_conflict (Some id) (SagaExecution.match_id e) (SagaExecution.saga_type e) db
      then (throw (DomainError.Internal (what +:+ constraint_violation live_index)), db)
      else (Ok e, db <| Db.saga_executions := <[id := e]> (Db.saga_executions db) |>)
  end.

(** The columns an update writes. *)
Definition set_progress (saga : SagaExecution.t) (e : SagaExecution.t) : SagaExecution.t :=
  e <| SagaExecution.current_step := SagaExecution.current_step saga |>
    <| SagaExecution.status := SagaExecution.status saga |>
    <| SagaExecution.step_history := SagaExecution.step_history saga |>
    <| SagaExecution.last_error := SagaExecution.last_error saga |>
    <| SagaExecution.retry_count := SagaExecution.retry_count saga |>
    <| SagaExecution.started_at := SagaExecution.started_at saga |>
    <| SagaExecution.completed_at := SagaExecution.completed_at saga |>.

Definition update (saga : SagaExecution.t) : M SagaExecution.t :=
  update_row (SagaExecution.id saga) "Failed to update saga: " (λ _, set_progress saga).

Definition update_status (id : SagaId) (status : SagaStatus.t) : M SagaExecution.t :=
  update_row id "Failed to update saga status: " (λ _ e, e <| SagaExecution.status := status |>).

Definition find_by_id (id : SagaId) : M (option SagaExecution.t) :=
  mread (λ db, Db.saga_executions db !! id).

Definition executions_where (P : SagaExecution.t → bool) (db : Db.t) : list SagaExecution.t :=
  filter (λ e, P e = true) (executions db).

(** [started_at IS NOT NULL AND started_at < $n]. *)
Definition started_before (time : DateTime) (e : SagaExecution.t) : bool :=
  match SagaExecution.started_at e with Some at_ => bool_decide (at_ < time) | None => false end.

(** Running or pending since before [time]. *)
Definition is_stuck (time : DateTime) (e : SagaExecution.t) : bool :=
  (SagaExecution.is_running e && started_before time e)
  || (SagaExecution.is_pending e && bool_decide (SagaExecution.created_at e < time)).

Definition find_stuck (running_since_before : DateTime) : M (list SagaExecution.t) :=
  mread (executions_where (is_stuck running_since_before)).

Definition is_retryable (saga_type : string) (stuck_since : DateTime) (e : SagaExecution.t) : bool :=
  bool_decide (SagaExecution.saga_type e = saga_type) && SagaExecution.can_retry e
  && (SagaExecution.is_failed e || is_stuck stuck_since e).

(** [ORDER BY updated_at ASC]. *)
Definition updated_earlier (e1 e2 : SagaExecution.t) : bool :=
  bool_decide (SagaExecution.updated_at e1 ≤ SagaExecution.updated_at e2).

Definition find_retryable (saga_type : string) (stuck_since : DateTime) (limit : Z)
    : M (list SagaExecution.t) :=
  mread (λ db, take (Z.to_nat limit)
    (stable_sort updated_earlier (executions_where (is_retryable saga_type stuck_since) db))).

(** [ORDER BY created_at ASC] and [DESC]. *)
Definition created_earlier (e1 e2 : SagaExecution.t) : bool :=
  bool_decide (SagaExecution.created_at e1 ≤ SagaExecution.created_at e2).
Definition created_later (e1 e2 : SagaExecution.t) : bool :=
  bool_decide (SagaExecution.created_at e2 ≤ SagaExecution.created_at e1).

Definition find_by_status (status : SagaStatus.t) : M (list SagaExecution.t) :=
  mread (λ db, stable_sort created_earlier
    (executions_where (λ e, bool_decide (SagaExecution.status e = status)) db)).

Definition find_pending : M (list SagaExecution.t) := find_by_status SagaStatus.Pending.

Definition find_by_match (match_id : TournamentMatchId) : M (list SagaExecution.t) :=
  mread (λ db, stable_sort created_later
    (executions_where (λ e, bool_decide (SagaExecution.match_id e = Some match_id)) db)).

Definition find_by_tournament (tournament_id : TournamentId) : M (list SagaExecution.t) :=
  mread (λ db, stable_sort created_later
    (executions_where (λ e, bool_decide (SagaExecution.tournament_id e = Some tournament_id)) db)).
End repository.
End SagaExecutionRepository.

Module ProgressionLogRepository.
Section repository.
Context `{Platform}.

Definition progression_type_to_str (pt : ProgressionType.t) : string := ProgressionType.fmt pt.

(** Unlike [ProgressionType.from_str], case matters. *)
Definition parse_progression_type (s : string) : outcome ProgressionType.t :=
  match list_find (λ pt, progression_type_to_str pt = s)
    [ProgressionType.WinnerAdvance; ProgressionType.LoserDrop; ProgressionType.LoserEliminate;
     ProgressionType.ByeAdvance] with
  | Some (_, pt) => Ok pt
  | None => throw (DomainError.Internal ("Unknown progression type: " +:+ s))
  end.

Definition inserted (id : Uuid) (now : DateTime) (log : CreateProgressionLog.t) : ProgressionLog.t :=
  ProgressionLog.mk id (CreateProgressionLog.source_match_id log)
    (CreateProgressionLog.target_match_id log) (CreateProgressionLog.registration_id log)
    (CreateProgressionLog.progression_type log) (CreateProgressionLog.target_position log)
    (CreateProgressionLog.saga_id log) now.

Definition log (log : CreateProgressionLog.t) : M ProgressionLog.t := λ db,
  let row := inserted (Db.next_uuid db) (Db.now db) log in
  (Ok row, db <| Db.next_uuid := N.succ (Db.next_uuid db) |>
              <| Db.progression_log := Db.progression_log db ++ [row] |>).

(** [ORDER BY progressed_at ASC]: rows are kept in insertion order. *)
Definition logs_where (P : ProgressionLog.t → bool) : M (list ProgressionLog.t) :=
  mread (λ db, filter (λ l, P l = true) (Db.progression_log db)).

Definition find_by_source_match (source_match_id : TournamentMatchId) : M (list ProgressionLog.t) :=
  logs_where (λ l, bool_decide (ProgressionLog.source_match_id l = source_match_id)).

Definition find_by_target_match (target_match_id : TournamentMatchId) : M (list ProgressionLog.t) :=
  logs_where (λ l, bool_decide (ProgressionLog.target_match_id l = Some target_match_id)).

Definition find_by_saga (saga_id : SagaId) : M (list ProgressionLog.t) :=
  logs_where (λ l, bool_decide (ProgressionLog.saga_id l = Some saga_id)).

Definition delete_by_source_match (source_match_id : TournamentMatchId) : M unit :=
  mwrite (λ db, db <| Db.progression_log :=
    filter (λ l, ProgressionLog.source_match_id l ≠ source_match_id) (Db.progression_log db) |>).
End repository.
End ProgressionLogRepository.

(** ** Programs with an execution in hand

    [&mut SagaExecution] is passed along beside the tables: a program that fails
    leaves both as they then are. *)
Section execution.
Context `{Platform}.

Definition X (A : Type) : Type := SagaExecution.t → Db.t → (outcome A * SagaExecution.t) * Db.t.

Definition xret {A} (a : A) : X A := λ e db, ((Ok a, e), db).
Definition xthrow {A} (err : DomainError.t) : X A := λ e db, ((throw err, e), db).
Definition xlift {A} (c : M A) : X A := λ e db, let '(r, db) := c db in ((r, e), db).
Definition xread {A} (f : SagaExecution.t → A) : X A := λ e db, ((Ok (f e), e), db).
Definition xbind {A B} (c : X A) (k : A → X B) : X B := λ e db,
  match c e db with
  | ((Ok a, e), db) => k a e db
  | ((Err err, e), db) => ((Err err, e), db)
  end.
(** [let _ = c.await;]. *)
Definition xignore {A} (c : X A) : X unit := λ e db,
  match c e db with
  | ((Err Panic, e), db) => ((Err Panic, e), db)
  | ((_, e), db) => ((Ok tt, e), db)
  end.

(** Run on an execution; what is made of the outcome sees the execution as it
    was left. *)
Definition with_execution {A B} (execution : SagaExecution.t) (c : X A)
    (k : result A DomainError.t → SagaExecution.t → M B) : M B := λ db,
  match c execution db with
  | ((Ok a, e), db) => k (Ok a) e db
  | ((Err (Error err), e), db) => k (Err err) e db
  | ((Err Panic, _), db) => (Err Panic, db)
  end.

(** [c(&mut execution).await?], going on with the execution. *)
Definition saved (execution : SagaExecution.t) (c : X unit) : M SagaExecution.t := λ db,
  match c execution db with
  | ((Ok _, e), db) => (Ok e, db)
  | ((Err err, _), db) => (Err err, db)
  end.
End execution.

Notation "'let&' x ':=' c 'in' k" := (xbind c (λ x, k))
  (at level 10, x pattern, c at level 200, k at level 200) : portal_scope.

Module SagaCoordinator.
Section coordinator.
Context `{Platform}.

(** Change the execution, then write its row. *)
Definition save (change : DateTime → SagaExecution.t → SagaExecution.t) : X unit := λ e db,
  let e := change (Db.now db) e in
  let '(r, db) := SagaExecutionRepository.update e db in
  ((result_bind r (λ _, Ok tt), e), db).

(** The execution the constructor builds only hands its context on. *)
Definition start_saga (definition : SagaDefinition.t) (context : SagaContext.t) (input_data : Json)
    : M SagaExecution.t :=
  let* id := fresh_uuid in
  let* now := mread Db.now in
  let execution := SagaExecution.new id now (SagaDefinition.saga_type definition)
    (SagaDefinition.version definition) input_data context in
  SagaExecutionRepository.create {|
    CreateSagaExecution.saga_type := SagaDefinition.saga_type definition;
    CreateSagaExecution.saga_version := SagaDefinition.version definition;
    CreateSagaExecution.tournament_id := SagaExecution.tournament_id execution;
    CreateSagaExecution.match_id := SagaExecution.match_id execution;
    CreateSagaExecution.correlation_id := SagaExecution.correlation_id execution;
    CreateSagaExecution.input_data := input_data;
    CreateSagaExecution.max_retries := SagaDefinition.max_retries definition |}.

Definition get_saga (saga_id : SagaId) : M (option SagaExecution.t) :=
  SagaExecutionRepository.find_by_id saga_id.

Definition update_status (saga_id : SagaId) (status : SagaStatus.t) : M SagaExecution.t :=
  SagaExecutionRepository.update_status saga_id status.

Definition complete_step (step_name : string) (output : option Json) : X unit :=
  save (λ now, SagaExecution.complete_step now step_name output).

Definition fail_step (step_name error : string) : X unit :=
  save (λ now, SagaExecution.fail_step now step_name error).

Definition complete_saga : X unit := save SagaExecution.complete.

Definition fail_saga (error : string) : X unit := save (λ now, SagaExecution.fail now error).

Definition pause_saga (reason : string) : X unit := save (λ now, SagaExecution.pause now reason).

Definition find_pending : M (list SagaExecution.t) := SagaExecutionRepository.find_pending.

Definition find_stuck (running_since_before : DateTime) : M (list SagaExecution.t) :=
  SagaExecutionRepository.find_stuck running_since_before.

Definition find_retryable (saga_type : string) (stuck_since : DateTime) (limit : Z)
    : M (list SagaExecution.t) :=
  SagaExecutionRepository.find_retryable saga_type stuck_since limit.

(** What [record_retry] makes of the execution in memory. *)
Definition retried (now : DateTime) (exhaust : bool) (execution : SagaExecution.t) : SagaExecution.t :=
  (if exhaust then
     let execution := execution <| SagaExecution.retry_count := SagaExecution.max_retries execution |> in
     if SagaExecution.is_terminal execution then execution
     else execution <| SagaExecution.status := SagaStatus.Failed |>
                    <| SagaExecution.completed_at :=
                         Some (default now (SagaExecution.completed_at execution)) |>
   else execution <| SagaExecution.retry_count := i32_add (SagaExecution.retry_count execution) 1 |>)
    <| SagaExecution.updated_at := now |>.

Definition record_retry (exhaust : bool) : X unit := save (λ now, retried now exhaust).
End coordinator.
End SagaCoordinator.
