(* ===== verification/ClaimStore.v ===== *)
(** The claim table and the statements of
    crates/portal-db/src/adapters/tournament/result_claim.rs over it, with the
    audited score write of adapters/tournament/match_.rs. The defaults are those
    of migrations/0035_result_claims.sql; identifiers are drawn fresh. *)
From stdpp Require Import base list strings gmap.
From S2P Require Import Prelude Errors Wire TournamentTypes Entities CoreEnums DomainEnums Rows.
From S2P Require Import ResultModel Store.
#[local] Open Scope Z_scope.

Module CreateResultClaim.
Record t := mk {
  match_id : TournamentMatchId;
  submitted_by_registration_id : option TournamentRegistrationId;
  submitted_by_user_id : option UserId;
  source : string;
  claimed_winner_registration_id : TournamentRegistrationId;
  participant1_score : Z;
  participant2_score : Z;
  game_results : list GameResult.t;
  auto_confirm_at : DateTime;
  evidence_ids : list EvidenceId;
  demo_link_ids : list DemoMatchLinkId;
  notes : option string;
}.
End CreateResultClaim.

(** A field that is [None] is left alone. *)
Module UpdateResultClaim.
Record t := mk {
  status : option ClaimStatus.t;
  confirmed_at : option DateTime;
  confirmed_by_registration_id : option TournamentRegistrationId;
  confirmed_by_user_id : option UserId;
  was_auto_confirmed : option bool;
}.
End UpdateResultClaim.

(** A row of the change log before it is inserted (repositories/audit.rs). *)
Module CreateEntityChange.
Record t `{Platform} := mk {
  entity_type : string;
  entity_id : Uuid;
  change_type : ChangeType.t;
  field_name : option string;
  old_value : option Json;
  new_value : option Json;
  changed_by : PlayerId;
  request_id : option string;
  ip_address : option string;
  user_agent : option string;
}.
End CreateEntityChange.

(** Columns a claim has after [UPDATE .. SET status = $2, updated_at = NOW()]. *)
Definition set_claim_status (status : ClaimStatus.t) (now : DateTime) (c : ResultClaim.t)
    : ResultClaim.t :=
  c <| ResultClaim.status := status |> <| ResultClaim.updated_at := now |>.

(** The [SET] list of a confirmation. *)
Definition set_confirmed (confirmed_by_registration_id : TournamentRegistrationId)
    (confirmed_by_user_id : option UserId) (was_auto : bool) (now : DateTime) (c : ResultClaim.t)
    : ResultClaim.t :=
  c <| ResultClaim.status := ClaimStatus.Confirmed |>
    <| ResultClaim.confirmed_at := Some now |>
    <| ResultClaim.confirmed_by_registration_id := Some confirmed_by_registration_id |>
    <| ResultClaim.confirmed_by_user_id := confirmed_by_user_id |>
    <| ResultClaim.was_auto_confirmed := was_auto |>
    <| ResultClaim.updated_at := now |>.

(** The [SET] list that records a result on a match. *)
Definition set_result (participant1_score participant2_score : Z)
    (winner_id loser_id : TournamentRegistrationId) (now : DateTime) (m : TournamentMatch.t)
    : TournamentMatch.t :=
  m <| TournamentMatch.participant1_score := participant1_score |>
    <| TournamentMatch.participant2_score := participant2_score |>
    <| TournamentMatch.winner_registration_id := Some winner_id |>
    <| TournamentMatch.loser_registration_id := Some loser_id |>
    <| TournamentMatch.completed_at := Some now |>
    <| TournamentMatch.status := TournamentMatchStatus.Completed |>
    <| TournamentMatch.updated_at := now |>.

Module ResultClaimRepository.
Section repository.
Context `{Platform}.

Definition find_by_id (id : ResultClaimId) : M (option ResultClaim.t) :=
  mread (λ db, Db.result_claims db !! id).

(** [ORDER BY created_at DESC]. *)
Definition newer (c1 c2 : ResultClaim.t) : bool :=
  bool_decide (ResultClaim.created_at c2 ≤ ResultClaim.created_at c1).

Definition claims_where (P : ResultClaim.t → bool) (db : Db.t) : list ResultClaim.t :=
  filter (λ c, P c = true) (map_to_list (Db.result_claims db)).*2.

Definition list_by_match (match_id : TournamentMatchId) : M (list ResultClaim.t) :=
  mread (λ db, stable_sort newer
    (claims_where (λ c, bool_decide (ResultClaim.match_id c = match_id)) db)).

(** [ORDER BY (status = 'pending') DESC, created_at DESC]. *)
Definition pending_first (c1 c2 : ResultClaim.t) : bool :=
  match ResultClaim.is_pending c1, ResultClaim.is_pending c2 with
  | true, false => true
  | false, true => false
  | _, _ => newer c1 c2
  end.

Definition current_claim (match_id : TournamentMatchId) (db : Db.t) : option ResultClaim.t :=
  head (stable_sort pending_first (claims_where (λ c,
    bool_decide (ResultClaim.match_id c = match_id) &&
    (ResultClaim.is_pending c || ResultClaim.is_confirmed c)) db)).

Definition find_current_by_match (match_id : TournamentMatchId) : M (option ResultClaim.t) :=
  mread (current_claim match_id).

Definition inserted (id : ResultClaimId) (now : DateTime) (claim : CreateResultClaim.t)
    : ResultClaim.t := {|
  ResultClaim.id := id;
  ResultClaim.match_id := CreateResultClaim.match_id claim;
  ResultClaim.submitted_by_registration_id := CreateResultClaim.submitted_by_registration_id claim;
  ResultClaim.submitted_by_user_id := CreateResultClaim.submitted_by_user_id claim;
  ResultClaim.source := CreateResultClaim.source claim;
  ResultClaim.claimed_winner_registration_id := CreateResultClaim.claimed_winner_registration_id claim;
  ResultClaim.claimed_participant1_score := CreateResultClaim.participant1_score claim;
  ResultClaim.claimed_participant2_score := CreateResultClaim.participant2_score claim;
  ResultClaim.game_results := CreateResultClaim.game_results claim;
  ResultClaim.status := ClaimStatus.Pending;
  ResultClaim.confirmed_at := None;
  ResultClaim.confirmed_by_registration_id := None;
  ResultClaim.confirmed_by_user_id := None;
  ResultClaim.auto_confirm_at := Some (CreateResultClaim.auto_confirm_at claim);
  ResultClaim.was_auto_confirmed := false;
  ResultClaim.evidence_ids := CreateResultClaim.evidence_ids claim;
  ResultClaim.demo_link_ids := CreateResultClaim.demo_link_ids claim;
  ResultClaim.submitter_notes := CreateResultClaim.notes claim;
  ResultClaim.created_at := now;
  ResultClaim.updated_at := now |}.

Definition create (claim : CreateResultClaim.t) : M ResultClaim.t := λ db,
  let c := inserted (Db.next_uuid db) (Db.now db) claim in
  (Ok c, db <| Db.next_uuid := N.succ (Db.next_uuid db) |>
            <| Db.result_claims := <[ResultClaim.id c := c]> (Db.result_claims db) |>).

(** The [SET] clauses built from the fields that are present. *)
Definition apply_update (u : UpdateResultClaim.t) (now : DateTime) (c : ResultClaim.t)
    : ResultClaim.t :=
  let keep {A} (new old : option A) := match new with Some x => Some x | None => old end in
  c <| ResultClaim.updated_at := now |>
    <| ResultClaim.status := default (ResultClaim.status c) (UpdateResultClaim.status u) |>
    <| ResultClaim.confirmed_at :=
         keep (UpdateResultClaim.confirmed_at u) (ResultClaim.confirmed_at c) |>
    <| ResultClaim.confirmed_by_registration_id :=
         keep (UpdateResultClaim.confirmed_by_registration_id u)
           (ResultClaim.confirmed_by_registration_id c) |>
    <| ResultClaim.confirmed_by_user_id :=
         keep (UpdateResultClaim.confirmed_by_user_id u) (ResultClaim.confirmed_by_user_id c) |>
    <| ResultClaim.was_auto_confirmed :=
         default (ResultClaim.was_auto_confirmed c) (UpdateResultClaim.was_auto_confirmed u) |>.

Definition update (id : ResultClaimId) (u : UpdateResultClaim.t) : M ResultClaim.t := λ db,
  match Db.result_claims db !! id with
  | None => (throw (DomainError.Internal ("Failed to update result claim: " +:+ row_not_found)), db)
  | Some c =>
      let c := apply_update u (Db.now db) c in
      (Ok c, db <| Db.result_claims := <[id := c]> (Db.result_claims db) |>)
  end.

Definition already_resolved : DomainError.t :=
  DomainError.Conflict "Result claim has already been resolved".

(** [UPDATE result_claims SET .. WHERE id = $1 AND status = 'pending' RETURNING *]. *)
Definition update_pending (id : ResultClaimId)
    (set : DateTime → ResultClaim.t → ResultClaim.t) : M ResultClaim.t := λ db,
  match Db.result_claims db !! id with
  | Some c =>
      if ResultClaim.is_pending c then
        let c := set (Db.now db) c in
        (Ok c, db <| Db.result_claims := <[id := c]> (Db.result_claims db) |>)
      else (throw already_resolved, db)
  | None => (throw already_resolved, db)
  end.

Definition update_status (id : ResultClaimId) (status : ClaimStatus.t) : M ResultClaim.t :=
  update_pending id (set_claim_status status).

Definition confirm (id : ResultClaimId) (confirmed_by_registration_id : TournamentRegistrationId)
    (confirmed_by_user_id : UserId) (was_auto : bool) : M ResultClaim.t :=
  update_pending id (set_confirmed confirmed_by_registration_id (Some confirmed_by_user_id) was_auto).

Definition confirm_and_apply_to_match (id : ResultClaimId)
    (confirmed_by_registration_id : TournamentRegistrationId)
    (confirmed_by_user_id : option UserId) (was_auto : bool) (match_id : TournamentMatchId)
    (winner_registration_id loser_registration_id : TournamentRegistrationId)
    (participant1_score participant2_score : Z) : M ResultClaim.t :=
  transaction (
    let* claim_row := update_pending id
      (set_confirmed confirmed_by_registration_id confirmed_by_user_id was_auto) in
    let* _ := exec_match match_id
      (set_result participant1_score participant2_score winner_registration_id
         loser_registration_id) in
    mret claim_row).

(** [UPDATE result_claims SET status = 'superseded' WHERE .. AND status = 'pending']. *)
Definition supersede_where (P : ResultClaim.t → bool) : M unit :=
  mwrite (λ db, db <| Db.result_claims :=
    (λ c, if P c && ResultClaim.is_pending c
          then set_claim_status ClaimStatus.Superseded (Db.now db) c else c)
    <$> Db.result_claims db |>).

Definition create_and_supersede_pending (claim : CreateResultClaim.t) : M ResultClaim.t :=
  transaction (
    let* _ := supersede_where (λ c,
      bool_decide (ResultClaim.match_id c = CreateResultClaim.match_id claim)) in
    create claim).

Definition supersede_pending_claims (match_id : TournamentMatchId)
    (except_claim_id : ResultClaimId) : M unit :=
  supersede_where (λ c, bool_decide (ResultClaim.match_id c = match_id) &&
                        negb (bool_decide (ResultClaim.id c = except_claim_id))).

(** [ORDER BY auto_confirm_at ASC]. *)
Definition due_earlier (c1 c2 : ResultClaim.t) : bool :=
  match ResultClaim.auto_confirm_at c1, ResultClaim.auto_confirm_at c2 with
  | Some t1, Some t2 => bool_decide (t1 ≤ t2)
  | _, _ => true
  end.

Definition ready_for_auto_confirm (db : Db.t) : list ResultClaim.t :=
  stable_sort due_earlier (claims_where (ResultClaim.is_auto_confirm_due (Db.now db)) db).

Definition find_ready_for_auto_confirm : M (list ResultClaim.t) := mread ready_for_auto_confirm.
End repository.
End ResultClaimRepository.

(** ** The audited score write (match_.rs) *)
Section audited.
Context `{Platform}.

Definition submit_result_in_tx (id : TournamentMatchId) (participant1_score participant2_score : Z)
    (winner_id loser_id : TournamentRegistrationId) : M TournamentMatch.t :=
  update_match id (set_result participant1_score participant2_score winner_id loser_id).

Definition inserted_change (id : Uuid) (now : DateTime) (audit : CreateEntityChange.t)
    : EntityChange.t := {|
  EntityChange.id := id;
  EntityChange.entity_type := CreateEntityChange.entity_type audit;
  EntityChange.entity_id := CreateEntityChange.entity_id audit;
  EntityChange.change_type := CreateEntityChange.change_type audit;
  EntityChange.field_name := CreateEntityChange.field_name audit;
  EntityChange.old_value := CreateEntityChange.old_value audit;
  EntityChange.new_value := CreateEntityChange.new_value audit;
  EntityChange.changed_by := CreateEntityChange.changed_by audit;
  EntityChange.reverted_at := None;
  EntityChange.reverted_by := None;
  EntityChange.revert_reason := None;
  EntityChange.request_id := CreateEntityChange.request_id audit;
  EntityChange.ip_address := CreateEntityChange.ip_address audit;
  EntityChange.user_agent := CreateEntityChange.user_agent audit;
  EntityChange.created_at := now |}.

Definition insert_change (audit : CreateEntityChange.t) : M unit := mwrite (λ db,
  db <| Db.next_uuid := N.succ (Db.next_uuid db) |>
     <| Db.entity_changes :=
          Db.entity_changes db ++ [inserted_change (Db.next_uuid db) (Db.now db) audit] |>).

Definition override_result_audited (id : TournamentMatchId)
    (participant1_score participant2_score : Z) (winner_id loser_id : TournamentRegistrationId)
    (audit : CreateEntityChange.t) : M TournamentMatch.t :=
  transaction (
    let* match_ := submit_result_in_tx id participant1_score participant2_score winner_id loser_id in
    let* _ := insert_change audit in
    mret match_).
End audited.
