(* ===== verification/DisputeStore.v ===== *)
(** The dispute tables and the statements of
    crates/portal-db/src/adapters/dispute.rs over them. Defaults and foreign keys
    are those of migrations/0039_disputes.sql. *)
From stdpp Require Import base list strings gmap.
From S2P Require Import Prelude Errors Wire TournamentTypes Entities CoreEnums DomainEnums Rows.
From S2P Require Import ResultModel Store ClaimStore.
#[local] Open Scope Z_scope.

Module CreateDispute.
Record t := mk {
  match_id : TournamentMatchId;
  result_claim_id : option ResultClaimId;
  disputed_by_registration_id : TournamentRegistrationId;
  disputed_by_user_id : UserId;
  reason : DisputeReason.t;
  description : string;
  evidence_ids : list EvidenceId;
  original_winner_registration_id : option TournamentRegistrationId;
  original_participant1_score : option Z;
  original_participant2_score : option Z;
  priority : DisputePriority.t;
}.
End CreateDispute.

(** A field that is [None] is left alone. *)
Module UpdateDispute.
Record t := mk {
  status : option DisputeStatus.t;
  priority : option DisputePriority.t;
  resolution : option DisputeResolution.t;
  resolved_by_user_id : option UserId;
  assigned_to_user_id : option UserId;
}.
#[global] Instance eta_t : Eta t := λ r,
  mk (r.(status)) (r.(priority)) (r.(resolution)) (r.(resolved_by_user_id)) (r.(assigned_to_user_id)).
Definition default : t := mk None None None None None.
End UpdateDispute.

Module CreateDisputeMessage.
Record t := mk {
  dispute_id : DisputeId;
  author_user_id : UserId;
  author_type : AuthorType.t;
  message : string;
  evidence_ids : list EvidenceId;
  is_internal : bool;
}.
#[global] Instance eta_t : Eta t := λ r,
  mk (r.(dispute_id)) (r.(author_user_id)) (r.(author_type)) (r.(message)) (r.(evidence_ids))
    (r.(is_internal)).
End CreateDisputeMessage.

(** ** Threads *)
Module DisputeMessageRepository.
Section repository.
Context `{Platform}.

Definition inserted (id : DisputeMessageId) (now : DateTime) (data : CreateDisputeMessage.t)
    : DisputeMessage.t := {|
  DisputeMessage.id := id;
  DisputeMessage.dispute_id := CreateDisputeMessage.dispute_id data;
  DisputeMessage.author_user_id := CreateDisputeMessage.author_user_id data;
  DisputeMessage.author_type := CreateDisputeMessage.author_type data;
  DisputeMessage.message := CreateDisputeMessage.message data;
  DisputeMessage.evidence_ids := CreateDisputeMessage.evidence_ids data;
  DisputeMessage.is_internal := CreateDisputeMessage.is_internal data;
  DisputeMessage.created_at := now |}.

Definition create (data : CreateDisputeMessage.t) : M DisputeMessage.t := λ db,
  let m := inserted (Db.next_uuid db) (Db.now db) data in
  (Ok m, db <| Db.next_uuid := N.succ (Db.next_uuid db) |>
            <| Db.dispute_messages := Db.dispute_messages db ++ [m] |>).

Definition find_by_id (id : DisputeMessageId) : M (option DisputeMessage.t) :=
  mread (λ db, head (filter (λ m, DisputeMessage.id m = id) (Db.dispute_messages db))).

(** [ORDER BY created_at ASC]: rows are kept in insertion order. *)
Definition thread (dispute_id : DisputeId) (include_internal : bool) (db : Db.t)
    : list DisputeMessage.t :=
  filter (λ m, DisputeMessage.dispute_id m = dispute_id ∧
               (include_internal || DisputeMessage.is_public m) = true) (Db.dispute_messages db).

Definition find_by_dispute (dispute_id : DisputeId) (include_internal : bool)
    : M (list DisputeMessage.t) := mread (thread dispute_id include_internal).

Definition count_by_dispute (dispute_id : DisputeId) : M Z :=
  mread (λ db, Z.of_nat (length (thread dispute_id true db))).
End repository.
End DisputeMessageRepository.

(** The [SET] list of a resolution. *)
Definition set_resolved (resolved_by : UserId) (resolution : DisputeResolution.t) (now : DateTime)
    (d : Dispute.t) : Dispute.t :=
  d <| Dispute.status := DisputeStatus.Resolved |>
    <| Dispute.resolved_at := Some now |>
    <| Dispute.resolved_by_user_id := Some resolved_by |>
    <| Dispute.resolution := Some resolution |>
    <| Dispute.updated_at := now |>.

Definition set_cancelled (now : DateTime) (d : Dispute.t) : Dispute.t :=
  d <| Dispute.status := DisputeStatus.Cancelled |> <| Dispute.updated_at := now |>.

(** [status = $2, updated_at = NOW()] on a match, with or without its result. *)
Definition set_match_status (status : TournamentMatchStatus.t) (now : DateTime) (m : TournamentMatch.t)
    : TournamentMatch.t :=
  m <| TournamentMatch.status := status |> <| TournamentMatch.updated_at := now |>.

Definition set_match_cleared (status : TournamentMatchStatus.t) (now : DateTime) (m : TournamentMatch.t)
    : TournamentMatch.t :=
  m <| TournamentMatch.status := status |>
    <| TournamentMatch.winner_registration_id := None |>
    <| TournamentMatch.loser_registration_id := None |>
    <| TournamentMatch.participant1_score := 0 |>
    <| TournamentMatch.participant2_score := 0 |>
    <| TournamentMatch.completed_at := None |>
    <| TournamentMatch.updated_at := now |>.

Definition set_disputed (reason : string) (now : DateTime) (m : TournamentMatch.t) : TournamentMatch.t :=
  m <| TournamentMatch.status := TournamentMatchStatus.Disputed |>
    <| TournamentMatch.disputed := true |>
    <| TournamentMatch.dispute_reason := Some reason |>
    <| TournamentMatch.updated_at := now |>.

Module DisputeRepository.
Section repository.
Context `{Platform}.

Definition inserted (id : DisputeId) (now : DateTime) (data : CreateDispute.t) : Dispute.t := {|
  Dispute.id := id;
  Dispute.match_id := CreateDispute.match_id data;
  Dispute.result_claim_id := CreateDispute.result_claim_id data;
  Dispute.disputed_by_registration_id := CreateDispute.disputed_by_registration_id data;
  Dispute.disputed_by_user_id := CreateDispute.disputed_by_user_id data;
  Dispute.reason := CreateDispute.reason data;
  Dispute.description := CreateDispute.description data;
  Dispute.evidence_ids := CreateDispute.evidence_ids data;
  Dispute.original_winner_registration_id := CreateDispute.original_winner_registration_id data;
  Dispute.original_participant1_score := CreateDispute.original_participant1_score data;
  Dispute.original_participant2_score := CreateDispute.original_participant2_score data;
  Dispute.status := DisputeStatus.Pending;
  Dispute.priority := CreateDispute.priority data;
  Dispute.assigned_to_user_id := None;
  Dispute.resolved_at := None;
  Dispute.resolved_by_user_id := None;
  Dispute.resolution := None;
  Dispute.created_at := now;
  Dispute.updated_at := now |}.

(** The claim a row names must exist; the match has been read by the caller. *)
Definition create (data : CreateDispute.t) : M Dispute.t := λ db,
  let missing_claim :=
    match CreateDispute.result_claim_id data with
    | Some claim_id => bool_decide (Db.result_claims db !! claim_id = None)
    | None => false
    end in
  if missing_claim then
    (throw (DomainError.Internal (constraint_violation "disputes_result_claim_id_fkey")), db)
  else
    let d := inserted (Db.next_uuid db) (Db.now db) data in
    (Ok d, db <| Db.next_uuid := N.succ (Db.next_uuid db) |>
              <| Db.disputes := <[Dispute.id d := d]> (Db.disputes db) |>).

Definition find_by_id (id : DisputeId) : M (option Dispute.t) := mread (λ db, Db.disputes db !! id).

Definition disputes_where (P : Dispute.t → bool) (db : Db.t) : list Dispute.t :=
  filter (λ d, P d = true) (map_to_list (Db.disputes db)).*2.

(** [ORDER BY created_at DESC]. *)
Definition newer (d1 d2 : Dispute.t) : bool :=
  bool_decide (Dispute.created_at d2 ≤ Dispute.created_at d1).

Definition find_by_match (match_id : TournamentMatchId) : M (list Dispute.t) :=
  mread (λ db, stable_sort newer
    (disputes_where (λ d, bool_decide (Dispute.match_id d = match_id)) db)).

(** [status IN ('pending', 'under_review')]. *)
Definition open_dispute (match_id : TournamentMatchId) (d : Dispute.t) : bool :=
  bool_decide (Dispute.match_id d = match_id) && Dispute.can_resolve d.

Definition find_pending_by_match (match_id : TournamentMatchId) : M (option Dispute.t) :=
  mread (λ db, head (stable_sort newer (disputes_where (open_dispute match_id) db))).

Definition exists_pending_for_match (match_id : TournamentMatchId) : M bool :=
  mread (λ db, negb (bool_decide (disputes_where (open_dispute match_id) db = []))).

(** The [priority] column is text: [ORDER BY priority DESC] compares its characters. *)
Definition priority_after (d1 d2 : Dispute.t) : bool :=
  String.ltb (DisputePriority.fmt (Dispute.priority d2)) (DisputePriority.fmt (Dispute.priority d1)).

(** [ORDER BY d.priority DESC, d.created_at ASC]. *)
Definition queue_order (d1 d2 : Dispute.t) : bool :=
  priority_after d1 d2 ||
  (bool_decide (Dispute.priority d1 = Dispute.priority d2) &&
   bool_decide (Dispute.created_at d1 ≤ Dispute.created_at d2)).

(** [ORDER BY d.priority DESC, d.created_at DESC]. *)
Definition list_order (d1 d2 : Dispute.t) : bool :=
  priority_after d1 d2 ||
  (bool_decide (Dispute.priority d1 = Dispute.priority d2) &&
   bool_decide (Dispute.created_at d2 ≤ Dispute.created_at d1)).

(** A filter that is not given lets every row through. *)
Definition given {A} (o : option A) (P : A → bool) : bool :=
  match o with Some a => P a | None => true end.

(** [JOIN tournament_matches m ON d.match_id = m.id WHERE m.tournament_id = $1]. *)
Definition of_tournament (db : Db.t) (d : Dispute.t) (tournament_id : TournamentId) : bool :=
  match Db.matches db !! Dispute.match_id d with
  | Some m => bool_decide (TournamentMatch.tournament_id m = tournament_id)
  | None => false
  end.

Definition joined (db : Db.t) (d : Dispute.t) : bool :=
  bool_decide (is_Some (Db.matches db !! Dispute.match_id d)).

(** [LIMIT $l OFFSET $o], both non-negative. *)
Definition page {A} (limit offset : Z) (l : list A) : list A :=
  take (Z.to_nat limit) (drop (Z.to_nat offset) l).

Definition pending_queue (tournament_id : option TournamentId)
    (priority : option DisputePriority.t) (db : Db.t) : list Dispute.t :=
  stable_sort queue_order (disputes_where (λ d,
    Dispute.can_resolve d && joined db d && given tournament_id (of_tournament db d) &&
    given priority (λ p, bool_decide (Dispute.priority d = p))) db).

Definition find_pending (tournament_id : option TournamentId)
    (priority : option DisputePriority.t) (limit offset : Z) : M (list Dispute.t * Z) :=
  mread (λ db,
    let all := pending_queue tournament_id priority db in
    (page limit offset all, Z.of_nat (length all))).

Definition list_filtered (statuses : option (list DisputeStatus.t))
    (tournament_id : option TournamentId) (match_id : option TournamentMatchId)
    (priority : option DisputePriority.t) (limit offset : Z) : M (list Dispute.t * Z) :=
  mread (λ db,
    let all := stable_sort list_order (disputes_where (λ d,
      joined db d &&
      given statuses (λ ss, bool_decide (Dispute.status d ∈ ss)) &&
      given tournament_id (of_tournament db d) &&
      given match_id (λ id, bool_decide (Dispute.match_id d = id)) &&
      given priority (λ p, bool_decide (Dispute.priority d = p))) db) in
    (page limit offset all, Z.of_nat (length all))).

(** The [SET] clauses built from the fields that are present. *)
Definition apply_update (u : UpdateDispute.t) (now : DateTime) (d : Dispute.t) : Dispute.t :=
  let first {A} (new old : option A) := match new with Some x => Some x | None => old end in
  d <| Dispute.updated_at := now |>
    <| Dispute.status := default (Dispute.status d) (UpdateDispute.status u) |>
    <| Dispute.priority := default (Dispute.priority d) (UpdateDispute.priority u) |>
    <| Dispute.resolved_by_user_id :=
         first (UpdateDispute.resolved_by_user_id u) (Dispute.resolved_by_user_id d) |>
    <| Dispute.assigned_to_user_id :=
         first (UpdateDispute.assigned_to_user_id u) (Dispute.assigned_to_user_id d) |>
    <| Dispute.resolution := first (UpdateDispute.resolution u) (Dispute.resolution d) |>
    <| Dispute.resolved_at :=
         match UpdateDispute.resolution u with Some _ => Some now | None => Dispute.resolved_at d end |>.

Definition update (id : DisputeId) (data : UpdateDispute.t) : M Dispute.t := λ db,
  match Db.disputes db !! id with
  | None => (throw (DomainError.Internal row_not_found), db)
  | Some d =>
      let d := apply_update data (Db.now db) d in
      (Ok d, db <| Db.disputes := <[id := d]> (Db.disputes db) |>)
  end.

(** [UPDATE disputes SET .. WHERE id = $1 RETURNING *] with [fetch_optional]. *)
Definition update_row (id : DisputeId) (set : DateTime → Dispute.t → Dispute.t) : M Dispute.t := λ db,
  match Db.disputes db !! id with
  | None => (throw (DomainError.DisputeNotFound id), db)
  | Some d =>
      let d := set (Db.now db) d in
      (Ok d, db <| Db.disputes := <[id := d]> (Db.disputes db) |>)
  end.

Definition resolve (id : DisputeId) (resolved_by : UserId) (resolution : DisputeResolution.t)
    : M Dispute.t := update_row id (set_resolved resolved_by resolution).

Definition cancel (id : DisputeId) : M Dispute.t := update_row id set_cancelled.

(** The message's own [dispute_id] is not used: the statement binds the dispute's. *)
Definition append_message (dispute_id : DisputeId) (message : CreateDisputeMessage.t) : M unit :=
  let* _ := DisputeMessageRepository.create
    (message <| CreateDisputeMessage.dispute_id := dispute_id |>) in
  mret tt.

Definition resolve_with_status_change (dispute_id : DisputeId) (resolved_by : UserId)
    (resolution : DisputeResolution.t) (match_id : TournamentMatchId)
    (new_match_status : TournamentMatchStatus.t) (clear_match_result : bool)
    (resolution_message : CreateDisputeMessage.t) : M Dispute.t :=
  transaction (
    let* dispute_row := update_row dispute_id (set_resolved resolved_by resolution) in
    let* _ := exec_match match_id
      (if clear_match_result then set_match_cleared new_match_status
       else set_match_status new_match_status) in
    let* _ := append_message dispute_id resolution_message in
    mret dispute_row).

Definition cancel_with_match_restore (dispute_id : DisputeId) (match_id : TournamentMatchId)
    (cancellation_message : CreateDisputeMessage.t) : M Dispute.t :=
  transaction (
    let* dispute_row := update_row dispute_id set_cancelled in
    let* _ := exec_match match_id (set_match_status TournamentMatchStatus.Completed) in
    let* _ := append_message dispute_id cancellation_message in
    mret dispute_row).

(** [UPDATE result_claims SET status = 'disputed' WHERE id = $1 AND status = 'pending']. *)
Definition retire_claim (claim_id : ResultClaimId) : M unit :=
  mwrite (λ db, db <| Db.result_claims := alter (λ c,
    if ResultClaim.is_pending c then set_claim_status ClaimStatus.Disputed (Db.now db) c else c)
    claim_id (Db.result_claims db) |>).

Definition raise_atomic (data : CreateDispute.t) (initial_message : CreateDisputeMessage.t)
    : M Dispute.t :=
  transaction (
    let* dispute := create data in
    let* _ := exec_match (CreateDispute.match_id data) (set_disputed (CreateDispute.description data)) in
    let* _ :=
      (match CreateDispute.result_claim_id data with
       | Some claim_id => retire_claim claim_id
       | None => mret tt
       end) in
    let* _ := append_message (Dispute.id dispute) initial_message in
    mret dispute).

Definition resolve_with_overturn (dispute_id : DisputeId) (resolved_by : UserId)
    (resolution : DisputeResolution.t) (match_id : TournamentMatchId)
    (new_winner_registration_id new_loser_registration_id : TournamentRegistrationId)
    (new_participant1_score new_participant2_score : Z)
    (resolution_message : CreateDisputeMessage.t) : M Dispute.t :=
  transaction (
    let* dispute_row := update_row dispute_id (set_resolved resolved_by resolution) in
    let* _ := submit_result_in_tx match_id new_participant1_score new_participant2_score
      new_winner_registration_id new_loser_registration_id in
    let* _ := append_message dispute_id resolution_message in
    mret dispute_row).
End repository.
End DisputeRepository.
