(* ===== verification/VetoStore.v ===== *)
(** The veto tables and the statements of
    crates/portal-db/src/adapters/tournament/veto.rs over them. Identifiers and
    unique constraints are those of migrations/0034_veto_sessions.sql. *)
From stdpp Require Import base list strings gmap.
From S2P Require Import Prelude Errors Wire Entities CoreEnums DomainEnums VetoModel Rows Store.
#[local] Open Scope Z_scope.

Module CreateVetoSession.
Record t := mk {
  match_id : TournamentMatchId;
  veto_format_id : string;
  map_pool : list string;
  timeout_seconds : Z;
  side_selection_mode : SideSelectionMode.t;
}.
End CreateVetoSession.

(** A field that is [None] is left alone. *)
Module UpdateVetoSession.
Record t := mk {
  first_action_registration_id : option TournamentRegistrationId;
  coin_flip_winner_registration_id : option TournamentRegistrationId;
  current_action_number : option Z;
  current_team_turn : option (option TournamentRegistrationId);
  remaining_maps : option (list string);
  selected_maps : option (list string);
  status : option VetoStatus.t;
  action_deadline : option (option DateTime);
  started_at : option DateTime;
  completed_at : option DateTime;
}.
#[global] Instance eta_t : Eta t := λ r,
  mk (r.(first_action_registration_id)) (r.(coin_flip_winner_registration_id))
    (r.(current_action_number)) (r.(current_team_turn)) (r.(remaining_maps)) (r.(selected_maps))
    (r.(status)) (r.(action_deadline)) (r.(started_at)) (r.(completed_at)).
Definition default : t := mk None None None None None None None None None None.
End UpdateVetoSession.

Module CreateVetoAction.
Record t := mk {
  session_id : VetoSessionId;
  action_number : Z;
  action_type : VetoActionType.t;
  map_id : string;
  performed_by_registration_id : option TournamentRegistrationId;
  performed_by_user_id : option UserId;
  was_auto_action : bool;
  auto_action_reason : option string;
}.
End CreateVetoAction.

Section veto_store.
Context `{Platform}.

(** ** Sessions *)

Definition session_of_match (match_id : TournamentMatchId) (db : Db.t) : option VetoSession.t :=
  head (filter (λ s, VetoSession.match_id s = match_id) (map_to_list (Db.veto_sessions db)).*2).

Definition find_veto_session (id : VetoSessionId) : M (option VetoSession.t) :=
  mread (λ db, Db.veto_sessions db !! id).
Definition find_veto_session_by_match (match_id : TournamentMatchId) : M (option VetoSession.t) :=
  mread (session_of_match match_id).

(** The columns the statement does not name take their defaults. *)
Definition inserted_veto_session (id : VetoSessionId) (now : DateTime) (cmd : CreateVetoSession.t)
    : VetoSession.t := {|
  VetoSession.id := id;
  VetoSession.match_id := CreateVetoSession.match_id cmd;
  VetoSession.veto_format_id := CreateVetoSession.veto_format_id cmd;
  VetoSession.map_pool := CreateVetoSession.map_pool cmd;
  VetoSession.coin_flip_winner_registration_id := None;
  VetoSession.first_action_registration_id := None;
  VetoSession.current_action_number := 0;
  VetoSession.current_team_turn := None;
  VetoSession.remaining_maps := CreateVetoSession.map_pool cmd;
  VetoSession.selected_maps := [];
  VetoSession.status := VetoStatus.Pending;
  VetoSession.action_deadline := None;
  VetoSession.timeout_seconds := CreateVetoSession.timeout_seconds cmd;
  VetoSession.side_selection_mode := CreateVetoSession.side_selection_mode cmd;
  VetoSession.started_at := None;
  VetoSession.completed_at := None;
  VetoSession.created_at := now;
  VetoSession.updated_at := now |}.

Definition create_veto_session (cmd : CreateVetoSession.t) : M VetoSession.t := λ db,
  match session_of_match (CreateVetoSession.match_id cmd) db with
  | Some _ =>
      (throw (DomainError.Internal ("Failed to create veto session: " +:+
                constraint_violation "veto_sessions_unique_match")), db)
  | None =>
      let s := inserted_veto_session (Db.next_uuid db) (Db.now db) cmd in
      (Ok s, db <| Db.next_uuid := N.succ (Db.next_uuid db) |>
                <| Db.veto_sessions := <[VetoSession.id s := s]> (Db.veto_sessions db) |>)
  end.

(** [UPDATE veto_sessions SET .. WHERE id = $1 RETURNING *]. *)
Definition write_veto_session (context : string) (id : VetoSessionId)
    (set : DateTime → VetoSession.t → VetoSession.t) : M VetoSession.t := λ db,
  match Db.veto_sessions db !! id with
  | None => (throw (DomainError.Internal (context +:+ row_not_found)), db)
  | Some s =>
      let s := set (Db.now db) s in
      (Ok s, db <| Db.veto_sessions := <[id := s]> (Db.veto_sessions db) |>)
  end.

(** The [SET] clauses built from the fields that are present. *)
Definition apply_veto_update (u : UpdateVetoSession.t) (now : DateTime) (s : VetoSession.t)
    : VetoSession.t :=
  let keep {A} (new : option A) (old : A) := default old new in
  let first {A} (new old : option A) := match new with Some x => Some x | None => old end in
  s <| VetoSession.updated_at := now |>
    <| VetoSession.first_action_registration_id :=
         first (UpdateVetoSession.first_action_registration_id u)
           (VetoSession.first_action_registration_id s) |>
    <| VetoSession.coin_flip_winner_registration_id :=
         first (UpdateVetoSession.coin_flip_winner_registration_id u)
           (VetoSession.coin_flip_winner_registration_id s) |>
    <| VetoSession.current_action_number :=
         keep (UpdateVetoSession.current_action_number u) (VetoSession.current_action_number s) |>
    <| VetoSession.current_team_turn :=
         keep (UpdateVetoSession.current_team_turn u) (VetoSession.current_team_turn s) |>
    <| VetoSession.remaining_maps :=
         keep (UpdateVetoSession.remaining_maps u) (VetoSession.remaining_maps s) |>
    <| VetoSession.selected_maps :=
         keep (UpdateVetoSession.selected_maps u) (VetoSession.selected_maps s) |>
    <| VetoSession.status := keep (UpdateVetoSession.status u) (VetoSession.status s) |>
    <| VetoSession.action_deadline :=
         keep (UpdateVetoSession.action_deadline u) (VetoSession.action_deadline s) |>
    <| VetoSession.started_at := first (UpdateVetoSession.started_at u) (VetoSession.started_at s) |>
    <| VetoSession.completed_at :=
         first (UpdateVetoSession.completed_at u) (VetoSession.completed_at s) |>.

Definition update_veto_session (id : VetoSessionId) (update : UpdateVetoSession.t) : M VetoSession.t :=
  write_veto_session "Failed to update veto session: " id (apply_veto_update update).

Definition update_veto_status (id : VetoSessionId) (status : VetoStatus.t) : M VetoSession.t :=
  write_veto_session "Failed to update veto session status: " id (λ now s,
    s <| VetoSession.status := status |> <| VetoSession.updated_at := now |>).

(** [WHERE status = 'in_progress' AND action_deadline < NOW() ORDER BY
    action_deadline ASC]; rows without a deadline do not compare. *)
Definition timed_out_sessions (db : Db.t) : list VetoSession.t :=
  stable_sort (λ a b, bool_decide
      (default 0 (VetoSession.action_deadline a) ≤ default 0 (VetoSession.action_deadline b)))
    (filter (λ s, VetoSession.status s = VetoStatus.InProgress ∧
                  VetoSession.is_timed_out (Db.now db) s = true)
       (map_to_list (Db.veto_sessions db)).*2).

(** [WHERE status = $1 ORDER BY created_at ASC]. *)
Definition sessions_by_status (status : VetoStatus.t) (db : Db.t) : list VetoSession.t :=
  stable_sort (λ a b, bool_decide (VetoSession.created_at a ≤ VetoSession.created_at b))
    (filter (λ s, VetoSession.status s = status) (map_to_list (Db.veto_sessions db)).*2).

(** ** Actions *)

Definition action_at (session_id : VetoSessionId) (action_number : Z) (db : Db.t)
    : option VetoAction.t :=
  snd <$> list_find (λ a, VetoAction.session_id a = session_id ∧
                          VetoAction.action_number a = action_number) (Db.veto_actions db).

Definition find_veto_action (session_id : VetoSessionId) (action_number : Z)
    : M (option VetoAction.t) := mread (action_at session_id action_number).

(** [WHERE session_id = $1 ORDER BY action_number ASC]. *)
Definition actions_of_session (session_id : VetoSessionId) (db : Db.t) : list VetoAction.t :=
  stable_sort (λ a b, bool_decide (VetoAction.action_number a ≤ VetoAction.action_number b))
    (filter (λ a, VetoAction.session_id a = session_id) (Db.veto_actions db)).

Definition inserted_veto_action (id : VetoActionId) (now : DateTime) (cmd : CreateVetoAction.t)
    : VetoAction.t := {|
  VetoAction.id := id;
  VetoAction.session_id := CreateVetoAction.session_id cmd;
  VetoAction.action_number := CreateVetoAction.action_number cmd;
  VetoAction.action_type := CreateVetoAction.action_type cmd;
  VetoAction.map_id := CreateVetoAction.map_id cmd;
  VetoAction.performed_by_registration_id := CreateVetoAction.performed_by_registration_id cmd;
  VetoAction.performed_by_user_id := CreateVetoAction.performed_by_user_id cmd;
  VetoAction.side_selection := None;
  VetoAction.side_selected_by_registration_id := None;
  VetoAction.side_selected_at := None;
  VetoAction.was_auto_action := CreateVetoAction.was_auto_action cmd;
  VetoAction.auto_action_reason := CreateVetoAction.auto_action_reason cmd;
  VetoAction.performed_at := now |}.

(** [ON CONFLICT ON CONSTRAINT veto_actions_unique DO NOTHING], then the row
    that is there. The column is an [INTEGER] checked to be positive. *)
Definition create_veto_action (cmd : CreateVetoAction.t) : M VetoAction.t := λ db,
  if bool_decide (as_i32 (CreateVetoAction.action_number cmd) < 1) then
    (throw (DomainError.Internal ("Failed to create veto action: " +:+
              constraint_violation "veto_actions_check_number")), db)
  else
    match action_at (CreateVetoAction.session_id cmd) (CreateVetoAction.action_number cmd) db with
    | Some a => (Ok a, db)
    | None =>
        let a := inserted_veto_action (Db.next_uuid db) (Db.now db) cmd in
        (Ok a, db <| Db.next_uuid := N.succ (Db.next_uuid db) |>
                  <| Db.veto_actions := Db.veto_actions db ++ [a] |>)
    end.

Definition set_side (side : string) (selected_by : TournamentRegistrationId) (now : DateTime)
    (a : VetoAction.t) : VetoAction.t :=
  a <| VetoAction.side_selection := Some side |>
    <| VetoAction.side_selected_by_registration_id := Some selected_by |>
    <| VetoAction.side_selected_at := Some now |>.

Definition update_side_selection (id : VetoActionId) (side : string)
    (selected_by : TournamentRegistrationId) : M VetoAction.t := λ db,
  match list_find (λ a, VetoAction.id a = id) (Db.veto_actions db) with
  | None => (throw (DomainError.Internal ("Failed to update side selection: " +:+ row_not_found)), db)
  | Some (i, a) =>
      let a := set_side side selected_by (Db.now db) a in
      (Ok a, db <| Db.veto_actions := <[i := a]> (Db.veto_actions db) |>)
  end.
End veto_store.
