(* ===== verification/Veto.v ===== *)
(** [VetoService] (crates/portal-domain/src/services/tournament/veto.rs): the
    map pick/ban of a match, its deadlines and its automatic actions. *)
From stdpp Require Import base list strings gmap pretty.
From S2P Require Import Prelude Errors Wire Entities CoreEnums DomainEnums VetoModel Rows Store VetoStore.
#[local] Open Scope Z_scope.

(** The injected collaborators and the default timeout. The format provider
    is a game plugin's. *)
Module VetoService.
Record t := mk {
  format_provider : option (string → option VetoFormatConfig.t);
  default_timeout_seconds : Z;
}.
Definition new : t := mk None 30.
Definition with_timeout (self : t) (timeout_seconds : Z) : t :=
  mk (format_provider self) timeout_seconds.
Definition with_format_provider (self : t) (provider : string → option VetoFormatConfig.t) : t :=
  mk (Some provider) (default_timeout_seconds self).
End VetoService.

(** [(number as usize).saturating_sub(1)] and [number as usize - 1]. *)
Definition action_index (number : Z) : Z := Z.max 0 (number - 1).
Definition usize_pred (number : Z) : Z := (number - 1) `mod` 2 ^ 64.

Section veto.
Context `{Platform}.
Context (svc : VetoService.t).

Definition get_veto_session (id : VetoSessionId) : M VetoSession.t :=
  let* s := find_veto_session id in
  match s with Some s => mret s | None => mthrow (DomainError.VetoSessionNotFound id) end.

Definition provided_format (format_id : string) : option VetoFormatConfig.t :=
  match VetoService.format_provider svc with
  | Some provider => provider format_id
  | None => None
  end.

Definition get_format (format_id : string) : outcome VetoFormatConfig.t :=
  match provided_format format_id with
  | Some format => Ok format
  | None =>
      ok_or (VetoFormatConfig.builtin format_id)
        (Error (DomainError.InvalidMatchResult ("Unknown veto format: " +:+ format_id)))
  end.

Definition invalid_state {A} (message : string) : M A := mthrow (DomainError.InvalidState message).
Definition some_or {A} (o : option A) (message : string) : M A :=
  match o with Some a => mret a | None => invalid_state message end.

Definition get_veto_match (id : TournamentMatchId) : M TournamentMatch.t :=
  let* m := find_match_by_id id in
  match m with Some m => mret m | None => mthrow (DomainError.TournamentMatchNotFound id) end.

(** ** Creation and the coin flip *)

Definition create_session (match_id : TournamentMatchId) (veto_format : VetoFormatConfig.t)
    (map_pool : list string) (timeout_seconds : option Z)
    (side_selection_mode : SideSelectionMode.t) : M VetoSession.t :=
  let* match_ := get_veto_match match_id in
  if negb (TournamentMatch.has_both_participants match_) then
    invalid_state "Match must have both participants to start veto"
  else if bool_decide (Z.of_nat (length map_pool) < VetoFormatConfig.min_map_pool veto_format) then
    mthrow (DomainError.InvalidMatchResult
      ("Map pool must have at least " +:+ pretty (VetoFormatConfig.min_map_pool veto_format) +:+
       " maps for " +:+ VetoFormatConfig.id veto_format +:+ " format"))
  else
    let* existing := find_veto_session_by_match match_id in
    match existing with
    | Some _ => mthrow (DomainError.Conflict "Veto session already exists for this match")
    | None =>
        let* session := create_veto_session
          (CreateVetoSession.mk match_id (VetoFormatConfig.id veto_format) map_pool
             (default (VetoService.default_timeout_seconds svc) timeout_seconds)
             side_selection_mode) in
        let* _ := set_veto_required match_id true in
        mret session
    end.

Definition start_session (session_id : VetoSessionId) : M VetoSession.t :=
  let* session := get_veto_session session_id in
  match VetoSession.status session with
  | VetoStatus.CoinFlip | VetoStatus.InProgress => mret session
  | _ =>
      if negb (VetoStatus.can_start (VetoSession.status session)) then
        invalid_state ("Cannot start veto session in " +:+
          VetoStatus.fmt (VetoSession.status session) +:+ " status")
      else
        let* format := mlift (get_format (VetoSession.veto_format_id session)) in
        let* now := mread Db.now in
        if negb (VetoFormatConfig.has_team_actions format) then
          update_veto_session session_id
            (UpdateVetoSession.default
               <| UpdateVetoSession.current_action_number := Some 1 |>
               <| UpdateVetoSession.current_team_turn := Some None |>
               <| UpdateVetoSession.status := Some VetoStatus.InProgress |>
               <| UpdateVetoSession.action_deadline := Some None |>
               <| UpdateVetoSession.started_at := Some now |>)
        else
          update_veto_session session_id
            (UpdateVetoSession.default
               <| UpdateVetoSession.status := Some VetoStatus.CoinFlip |>
               <| UpdateVetoSession.started_at := Some now |>)
  end.

Definition record_coin_flip (session_id : VetoSessionId) (winner : TournamentRegistrationId)
    (winner_goes_first : bool) : M VetoSession.t :=
  let* session := get_veto_session session_id in
  if negb (VetoStatus.can_coin_flip (VetoSession.status session)) then
    invalid_state ("Cannot record coin flip in " +:+
      VetoStatus.fmt (VetoSession.status session) +:+ " status")
  else if bool_decide (is_Some (VetoSession.coin_flip_winner_registration_id session)) then
    mret session
  else
    let* match_ := get_veto_match (VetoSession.match_id session) in
    let p1 := TournamentMatch.participant1_registration_id match_ in
    let p2 := TournamentMatch.participant2_registration_id match_ in
    if negb (bool_decide (p1 = Some winner) || bool_decide (p2 = Some winner)) then
      mthrow (DomainError.NotAuthorized "Coin flip winner must be a match participant")
    else
      let other_team := if bool_decide (p1 = Some winner) then p2 else p1 in
      let* first_action :=
        if winner_goes_first then mret winner else some_or other_team "Other participant not set" in
      let* now := mread Db.now in
      let deadline := now + seconds (VetoSession.timeout_seconds session) in
      update_veto_session session_id
        (UpdateVetoSession.default
           <| UpdateVetoSession.coin_flip_winner_registration_id := Some winner |>
           <| UpdateVetoSession.first_action_registration_id := Some first_action |>
           <| UpdateVetoSession.current_action_number := Some 1 |>
           <| UpdateVetoSession.current_team_turn := Some (Some first_action) |>
           <| UpdateVetoSession.status := Some VetoStatus.InProgress |>
           <| UpdateVetoSession.action_deadline := Some (Some deadline) |>
           <| UpdateVetoSession.started_at := Some now |>).

(** ** Recording an action *)

Definition determine_next_team (session : VetoSession.t)
    (next_action : option VetoFormatActionConfig.t) : M (option TournamentRegistrationId) :=
  let* next_action := some_or next_action "No next action" in
  if bool_decide (VetoFormatActionConfig.team next_action = 0) then
    mret (VetoSession.first_action_registration_id session)
  else
    let* match_ := get_veto_match (VetoSession.match_id session) in
    let* team1 := some_or (TournamentMatch.participant1_registration_id match_) "Participant 1 not set" in
    let* team2 := some_or (TournamentMatch.participant2_registration_id match_) "Participant 2 not set" in
    let* first_action :=
      some_or (VetoSession.first_action_registration_id session) "First action team not set" in
    let second_action := if bool_decide (first_action = team1) then team2 else team1 in
    if bool_decide (VetoFormatActionConfig.team next_action = 1) then mret (Some first_action)
    else if bool_decide (VetoFormatActionConfig.team next_action = 2) then mret (Some second_action)
    else mthrow (DomainError.InvalidMatchResult "Invalid team number in format").

Definition is_random_type (action_type : VetoActionType.t) : bool :=
  match action_type with VetoActionType.Random => true | _ => false end.
Definition is_decider_type (action_type : VetoActionType.t) : bool :=
  match action_type with VetoActionType.Decider => true | _ => false end.
(** The types whose map is played. *)
Definition selects (action_type : VetoActionType.t) : bool :=
  match action_type with
  | VetoActionType.Pick | VetoActionType.Decider | VetoActionType.Random => true
  | VetoActionType.Ban => false
  end.
(** The types that get a random side in coin-flip mode. *)
Definition side_flipped (action_type : VetoActionType.t) : bool :=
  match action_type with VetoActionType.Pick | VetoActionType.Random => true | _ => false end.

(** Whom a random side is attributed to: the performer, else the team with the
    first action, else participant 1. *)
Definition side_selector (session : VetoSession.t) (performed_by : option TournamentRegistrationId)
    : M (option TournamentRegistrationId) :=
  match performed_by, VetoSession.first_action_registration_id session with
  | Some reg, _ => mret (Some reg)
  | None, Some reg => mret (Some reg)
  | None, None =>
      let* m := find_match_by_id (VetoSession.match_id session) in
      mret (m ≫= TournamentMatch.participant1_registration_id)
  end.

Definition assign_random_side (chance : Chance.t) (session : VetoSession.t)
    (action_type : VetoActionType.t) (performed_by : option TournamentRegistrationId)
    (action : VetoAction.t) : M VetoAction.t :=
  if bool_decide (VetoSession.side_selection_mode session = SideSelectionMode.CoinFlip) &&
     side_flipped action_type && negb (VetoAction.has_side_selection action) then
    let* selector := side_selector session performed_by in
    match selector with
    | Some selector => update_side_selection (VetoAction.id action) (Chance.side chance) selector
    | None => mret action
    end
  else mret action.

(** The status, turn and deadline that follow the action at the cursor. *)
Definition next_phase (session : VetoSession.t) (format : VetoFormatConfig.t)
    (next_action_number : Z) : M (option TournamentRegistrationId * VetoStatus.t * option DateTime) :=
  if VetoFormatConfig.is_complete_at format next_action_number then
    mret (None, VetoStatus.Completed, None)
  else
    let next_format_action := VetoFormatConfig.get_action format (usize_pred next_action_number) in
    let next_is_random := match next_format_action with
      | Some a => is_random_type (VetoFormatActionConfig.action_type a) | None => false end in
    let* next_team := determine_next_team session next_format_action in
    let* now := mread Db.now in
    mret (next_team, VetoStatus.InProgress,
          if next_is_random then None
          else Some (now + seconds (VetoSession.timeout_seconds session))).

(** The update of the session by the recorded map. *)
Definition advance_session (session : VetoSession.t) (format : VetoFormatConfig.t)
    (action_type : VetoActionType.t) (map_id : string) (action : VetoAction.t)
    : M VetoActionResult.t :=
  let remaining := filter (λ m, m ≠ map_id) (VetoSession.remaining_maps session) in
  let selected :=
    if selects action_type && negb (bool_decide (map_id ∈ VetoSession.selected_maps session))
    then VetoSession.selected_maps session ++ [map_id]
    else VetoSession.selected_maps session in
  let next_action_number := as_u32 (VetoSession.current_action_number session + 1) in
  let veto_complete := VetoFormatConfig.is_complete_at format next_action_number in
  let* (next_team, next_status, deadline) := next_phase session format next_action_number in
  let* now := mread Db.now in
  let* updated_session := update_veto_session (VetoSession.id session)
    (UpdateVetoSession.mk None None (Some next_action_number) (Some next_team) (Some remaining)
       (Some selected) (Some next_status) (Some deadline) None
       (if veto_complete then Some now else None)) in
  mret (VetoActionResult.mk updated_session action veto_complete next_team
    (if veto_complete then None
     else VetoFormatActionConfig.action_type <$>
            VetoFormatConfig.get_action format (usize_pred next_action_number))).

(** The recorded map is the one that counts: the row may have been there. *)
Definition record_action_internal (chance : Chance.t) (session : VetoSession.t)
    (format : VetoFormatConfig.t) (format_action : VetoFormatActionConfig.t) (map_id : string)
    (performed_by : option TournamentRegistrationId) (performed_by_user : option UserId)
    (was_auto : bool) (auto_reason : option string) : M VetoActionResult.t :=
  let action_type := VetoFormatActionConfig.action_type format_action in
  let* action := create_veto_action
    (CreateVetoAction.mk (VetoSession.id session) (VetoSession.current_action_number session)
       action_type map_id performed_by performed_by_user was_auto auto_reason) in
  let map_id := VetoAction.map_id action in
  let* action := assign_random_side chance session action_type performed_by action in
  advance_session session format action_type map_id action.

(** The loop of [chain_deciders]. A pass either leaves the loop or advances
    the session's cursor, so as many passes as the format has actions suffice;
    without fuel the result is handed back as it is. *)
Definition decider_pending (result : VetoActionResult.t) : bool :=
  negb (VetoActionResult.veto_complete result) &&
  match VetoActionResult.next_action_type result with
  | Some next_type => is_decider_type next_type
  | None => false
  end.

Definition decider_step (chance : Chance.t) (session_id : VetoSessionId)
    (format : VetoFormatConfig.t) : M VetoActionResult.t :=
  let* updated_session := get_veto_session session_id in
  let next_index := action_index (VetoSession.current_action_number updated_session) in
  let* next_format_action := some_or (VetoFormatConfig.get_action format next_index)
    "Decider action index out of bounds" in
  let* decider_map := some_or (head (VetoSession.remaining_maps updated_session))
    "No maps remaining for decider" in
  record_action_internal chance updated_session format next_format_action decider_map
    None None true (Some "decider_auto").

Fixpoint chain_deciders_loop (fuel : nat) (chance : Chance.t) (session_id : VetoSessionId)
    (format : VetoFormatConfig.t) (result : VetoActionResult.t) : M VetoActionResult.t :=
  match fuel with
  | O => mret result
  | S fuel =>
      if decider_pending result then
        let* result := decider_step chance session_id format in
        chain_deciders_loop fuel chance session_id format result
      else mret result
  end.

Definition chain_deciders (chance : Chance.t) (session_id : VetoSessionId)
    (format : VetoFormatConfig.t) (result : VetoActionResult.t) : M VetoActionResult.t :=
  chain_deciders_loop (S (length (VetoFormatConfig.sequence format))) chance session_id format result.

(** ** The actions of players, the wheel and the clock *)

Definition status_refused {A} (what : string) (session : VetoSession.t) : M A :=
  invalid_state (what +:+ VetoStatus.fmt (VetoSession.status session) +:+ " status").
Definition map_unavailable {A} (map_id : string) : M A :=
  mthrow (DomainError.InvalidMatchResult ("Map '" +:+ map_id +:+ "' is not available for selection")).

Definition current_format_action (session : VetoSession.t) (format : VetoFormatConfig.t)
    : M VetoFormatActionConfig.t :=
  some_or (VetoFormatConfig.get_action format
             (action_index (VetoSession.current_action_number session)))
    "Action index out of bounds".

Definition perform_action (chance : Chance.t) (session_id : VetoSessionId) (map_id : string)
    (acting_for_registration : TournamentRegistrationId) (performed_by_user : UserId)
    : M VetoActionResult.t :=
  let* session := get_veto_session session_id in
  if negb (VetoStatus.can_act (VetoSession.status session)) then
    status_refused "Cannot perform action in " session
  else if negb (VetoSession.is_map_available session map_id) then map_unavailable map_id
  else
    let* current_team := some_or (VetoSession.current_team_turn session) "No team turn set" in
    if negb (bool_decide (current_team = acting_for_registration)) then
      mthrow (DomainError.NotAuthorized "It is not your team's turn")
    else
      let* format := mlift (get_format (VetoSession.veto_format_id session)) in
      let* format_action := current_format_action session format in
      let* result := record_action_internal chance session format format_action map_id
        (Some current_team) (Some performed_by_user) false None in
      chain_deciders chance session_id format result.

(** [expected_action_number] is the slot the caller saw. *)
Definition perform_wheel_action (chance : Chance.t) (session_id : VetoSessionId) (map_id : string)
    (expected_action_number : Z) : M VetoActionResult.t :=
  let* session := get_veto_session session_id in
  if negb (VetoStatus.can_act (VetoSession.status session)) then
    status_refused "Cannot spin the wheel in " session
  else if negb (bool_decide (VetoSession.current_action_number session = expected_action_number)) then
    mthrow (DomainError.Conflict "The wheel was already spun for this map")
  else if negb (VetoSession.is_map_available session map_id) then map_unavailable map_id
  else
    let* format := mlift (get_format (VetoSession.veto_format_id session)) in
    let* format_action := current_format_action session format in
    if negb (is_random_type (VetoFormatActionConfig.action_type format_action)) then
      invalid_state "The current veto action is not a wheel spin"
    else
      record_action_internal chance session format format_action map_id None None true
        (Some "wheel_spin").

Definition cancel_session_for_match (match_id : TournamentMatchId) : M (option VetoSession.t) :=
  let* session := find_veto_session_by_match match_id in
  match session with
  | None => mret None
  | Some session =>
      if VetoSession.is_terminal session then mret (Some session)
      else
        let* session := update_veto_status (VetoSession.id session) VetoStatus.Cancelled in
        mret (Some session)
  end.

Definition process_timeout (chance : Chance.t) (session_id : VetoSessionId) : M VetoActionResult.t :=
  let* session := get_veto_session session_id in
  let* now := mread Db.now in
  if negb (VetoSession.is_timed_out now session) then invalid_state "Session is not timed out"
  else
    let* map_id := some_or (Chance.choose chance (VetoSession.remaining_maps session))
      "No maps remaining" in
    let* format := mlift (get_format (VetoSession.veto_format_id session)) in
    let* format_action := current_format_action session format in
    let* result := record_action_internal chance session format format_action map_id
      (VetoSession.current_team_turn session) None true (Some "timeout") in
    chain_deciders chance session_id format result.

(** ** Sides *)

Definition select_side (session_id : VetoSessionId) (action_number : Z) (side : string)
    (acting_for_registration : TournamentRegistrationId) (selected_by_user : UserId)
    : M VetoAction.t :=
  let* session := get_veto_session session_id in
  let* action := find_veto_action session_id action_number in
  match action with
  | None => mthrow (DomainError.InvalidMatchResult "Action not found")
  | Some action =>
      if negb (VetoAction.is_pick action) then
        invalid_state "Side selection only applies to picks"
      else if VetoAction.has_side_selection action then
        invalid_state "Side already selected for this action"
      else
        match VetoSession.side_selection_mode session with
        | SideSelectionMode.Knife =>
            invalid_state "Side selection is not available in knife mode"
        | SideSelectionMode.CoinFlip =>
            invalid_state "Side selection is automatic in coin flip mode"
        | SideSelectionMode.PickerChoice =>
            if VetoAction.is_decider action then
              invalid_state "Side selection is not available for decider maps"
            else
              let* picker := some_or (VetoAction.performed_by_registration_id action)
                "Action has no performer" in
              if bool_decide (acting_for_registration = picker) then
                mthrow (DomainError.NotAuthorized "The opponent of the picker selects the side")
              else update_side_selection (VetoAction.id action) side acting_for_registration
        end
  end.

(** ** What clients see *)

(** [selected_maps.iter().position(..).map(|i| i as u32 + 1)]. *)
Definition game_number_of (session : VetoSession.t) (map_id : string) : option Z :=
  (λ '(i, _), Z.of_nat i + 1) <$> list_find (λ m, m = map_id) (VetoSession.selected_maps session).

Definition status_of_map (session : VetoSession.t) (actions : list VetoAction.t) (map_id : string)
    : MapVetoStatus.t * option TournamentRegistrationId * option TournamentRegistrationId * option Z :=
  let unmarked :=
    if bool_decide (map_id ∈ VetoSession.remaining_maps session)
    then (MapVetoStatus.Available, None, None, None)
    else (MapVetoStatus.Banned, None, None, None) in
  match snd <$> list_find (λ a, VetoAction.map_id a = map_id) actions with
  | Some a =>
      match VetoAction.action_type a with
      | VetoActionType.Ban =>
          (MapVetoStatus.Banned, VetoAction.performed_by_registration_id a, None, None)
      | VetoActionType.Pick =>
          (MapVetoStatus.Picked, None, VetoAction.performed_by_registration_id a,
           game_number_of session map_id)
      | VetoActionType.Decider => (MapVetoStatus.Decider, None, None, game_number_of session map_id)
      | VetoActionType.Random => (MapVetoStatus.Picked, None, None, game_number_of session map_id)
      end
  | None => unmarked
  end.

Definition build_map_status (session : VetoSession.t) (actions : list VetoAction.t)
    : list MapStatus.t :=
  (λ map_id,
     let '(status, banned_by, picked_by, game_number) := status_of_map session actions map_id in
     MapStatus.mk map_id map_id None status banned_by picked_by game_number)
  <$> VetoSession.map_pool session.

Definition get_session_state (match_id : TournamentMatchId) : M VetoSessionState.t :=
  let* session := find_veto_session_by_match match_id in
  match session with
  | None => mthrow (DomainError.LookupFailed "veto session" ("match " +:+ uuid_string match_id))
  | Some session =>
      let* actions := mread (actions_of_session (VetoSession.id session)) in
      let* format := mlift (get_format (VetoSession.veto_format_id session)) in
      let current_action :=
        if VetoSession.is_in_progress session then
          VetoFormatConfig.get_action format
            (action_index (VetoSession.current_action_number session))
        else None in
      mret (VetoSessionState.mk session actions format current_action
              (build_map_status session actions))
  end.

Definition find_timed_out_sessions : M (list VetoSession.t) := mread timed_out_sessions.
Definition find_sessions_by_status (status : VetoStatus.t) : M (list VetoSession.t) :=
  mread (sessions_by_status status).
Definition resolve_format (format_id : string) : outcome VetoFormatConfig.t := get_format format_id.
End veto.
