(* ===== verification/VetoFacts.v ===== *)
(** The action log of a veto session and the invariant every statement of the
    veto service keeps. *)
From stdpp Require Import base list strings gmap.
From S2P Require Import Prelude Errors Wire Entities CoreEnums DomainEnums VetoModel Rows Store StoreFacts VetoStore Veto.
#[local] Open Scope Z_scope.

Section log.
Context `{Platform}.

(** ** The log of a session

    The rows of [veto_actions] that belong to it, without their sides. *)
Definition erase (a : VetoAction.t) : VetoAction.t :=
  a <| VetoAction.side_selection := None |>
    <| VetoAction.side_selected_by_registration_id := None |>
    <| VetoAction.side_selected_at := None |>.
Definition rows_of (sid : VetoSessionId) (l : list VetoAction.t) : list VetoAction.t :=
  filter (λ a, VetoAction.session_id a = sid) l.
Definition log (sid : VetoSessionId) (db : Db.t) : list VetoAction.t :=
  erase <$> rows_of sid (Db.veto_actions db).

Lemma log_actions sid (db db' : Db.t) :
  erase <$> Db.veto_actions db' = erase <$> Db.veto_actions db → log sid db' = log sid db.
Proof.
  assert (∀ l, erase <$> rows_of sid l = rows_of sid (erase <$> l)) as Hc.
  { induction l as [|a l IH]; [done|]. unfold rows_of in *. rewrite fmap_cons, !filter_cons, <- IH.
    change (VetoAction.session_id (erase a)) with (VetoAction.session_id a). by case_decide. }
  intros He. unfold log. by rewrite !Hc, He.
Qed.

Lemma action_at_some sid n db a :
  action_at sid n db = Some a →
  a ∈ Db.veto_actions db ∧ VetoAction.session_id a = sid ∧ VetoAction.action_number a = n.
Proof.
  unfold action_at. intros ((i & a') & Hf & [= <-])%fmap_Some. simpl in *.
  apply list_find_Some in Hf as (Hl & [? ?] & _). eauto using list_elem_of_lookup_2.
Qed.

Lemma action_at_none sid n db a :
  action_at sid n db = None → a ∈ log sid db → VetoAction.action_number a ≠ n.
Proof.
  unfold action_at, log, rows_of. rewrite fmap_None. intros Hf Ha.
  apply list_find_None in Hf. rewrite Forall_forall in Hf.
  apply list_elem_of_fmap in Ha as (b & -> & [Hb1 Hb2]%list_elem_of_filter).
  intros Hn. apply (Hf b Hb2). by split.
Qed.

Lemma action_at_log sid n db a :
  action_at sid n db = Some a → erase a ∈ log sid db ∧ VetoAction.action_number (erase a) = n.
Proof.
  intros (Ha & Hs & Hn)%action_at_some. split; [|done].
  apply list_elem_of_fmap_2. by apply list_elem_of_filter.
Qed.

(** ** What the statements on actions do *)

(** Neither sessions, matches, log nor clock. *)
Record veto_quiet (db db' : Db.t) : Prop := {
  vq_sessions : Db.veto_sessions db' = Db.veto_sessions db;
  vq_matches : Db.matches db' = Db.matches db;
  vq_actions : erase <$> Db.veto_actions db' = erase <$> Db.veto_actions db;
  vq_now : Db.now db' = Db.now db;
  vq_next : Db.next_uuid db' = Db.next_uuid db;
}.
#[global] Instance veto_quiet_preorder : PreOrder veto_quiet.
Proof. split; [by split|]. intros x y z [] []. split; congruence. Qed.

Lemma create_veto_action_cases cmd db r db1 :
  create_veto_action cmd db = (r, db1) →
  let sid := CreateVetoAction.session_id cmd in
  let n := CreateVetoAction.action_number cmd in
  let a := inserted_veto_action (Db.next_uuid db) (Db.now db) cmd in
  (as_i32 n < 1 ∧ is_ok r = false ∧ db1 = db) ∨
  (∃ b, action_at sid n db = Some b ∧ r = Ok b ∧ db1 = db) ∨
  (action_at sid n db = None ∧ r = Ok a ∧
   db1 = db <| Db.next_uuid := N.succ (Db.next_uuid db) |>
            <| Db.veto_actions := Db.veto_actions db ++ [a] |>).
Proof.
  intros Hc sid n a. subst sid n. unfold create_veto_action in Hc.
  case_bool_decide; [injection Hc as <- <-; by left|].
  destruct (action_at _ _ _) as [b|] eqn:Hb; injection Hc as <- <-; eauto 10.
Qed.

(** Writing the row again finds it, whatever else the second command says. *)
Lemma create_veto_action_again cmd cmd' db x db1 :
  CreateVetoAction.session_id cmd' = CreateVetoAction.session_id cmd →
  CreateVetoAction.action_number cmd' = CreateVetoAction.action_number cmd →
  create_veto_action cmd db = (Ok x, db1) → create_veto_action cmd' db1 = (Ok x, db1).
Proof.
  unfold create_veto_action. intros -> ->. case_bool_decide; [done|].
  destruct (action_at _ _ db) as [b|] eqn:Hno; [intros [= <- <-]; by rewrite Hno|].
  intros [= <- <-]. unfold action_at in *. rewrite fmap_None in Hno. cbn [Db.veto_actions setter].
  rewrite list_find_app_r by done. cbn [list_find]. by rewrite decide_True.
Qed.

Lemma log_insert sid db a db1 :
  Db.veto_actions db1 = Db.veto_actions db ++ [a] →
  log sid db1 = log sid db ++ (if decide (VetoAction.session_id a = sid) then [erase a] else []).
Proof.
  intros Hl. unfold log, rows_of. rewrite Hl, filter_app, fmap_app, filter_cons.
  by case_decide.
Qed.

Lemma update_side_quiet id side reg : preserves veto_quiet (update_side_selection id side reg).
Proof.
  intros db. unfold update_side_selection.
  destruct (list_find _ _) as [[i a]|] eqn:Hf; [|by split]. simpl. split; try done. simpl.
  apply list_find_Some in Hf as (Hi & _). rewrite list_fmap_insert.
  apply list_insert_id. by rewrite list_lookup_fmap, Hi.
Qed.

Lemma assign_side_quiet chance s ty pb a : preserves veto_quiet (assign_random_side chance s ty pb a).
Proof.
  unfold assign_random_side, side_selector. frame. apply update_side_quiet.
Qed.

End log.
#[export] Hint Resolve update_side_quiet assign_side_quiet : frames.

(** ** The invariant *)

Section invariant.
Context `{Platform} (svc : VetoService.t).

(** The action types of the session's format. *)
Definition types_of (s : VetoSession.t) : list VetoActionType.t :=
  match get_format svc (VetoSession.veto_format_id s) with
  | Ok f => VetoFormatActionConfig.action_type <$> VetoFormatConfig.sequence f
  | Err _ => []
  end.
Definition slots (s : VetoSession.t) : Z := Z.of_nat (length (types_of s)).

(** The actions the cursor has passed: a further row is one whose session
    update is still owed. *)
Definition done_actions (s : VetoSession.t) (l : list VetoAction.t) : list VetoAction.t :=
  take (Z.to_nat (VetoSession.current_action_number s - 1)) l.

Record session_wf (s : VetoSession.t) (l : list VetoAction.t) : Prop := {
  sw_numbers : VetoAction.action_number <$> l = seqZ 1 (Z.of_nat (length l));
  sw_types : VetoAction.action_type <$> l = take (length l) (types_of s);
  sw_nodup : NoDup (VetoAction.map_id <$> l);
  sw_pool : VetoAction.map_id <$> l ⊆ VetoSession.map_pool s;
  sw_length : Z.max 0 (VetoSession.current_action_number s - 1) ≤ Z.of_nat (length l)
              ≤ VetoSession.current_action_number s;
  sw_remaining : VetoSession.remaining_maps s =
    filter (λ m, m ∉ VetoAction.map_id <$> done_actions s l) (VetoSession.map_pool s);
  sw_selected : VetoSession.selected_maps s =
    VetoAction.map_id <$> filter (λ a, selects (VetoAction.action_type a) = true) (done_actions s l);
  sw_status : match VetoSession.status s with
    | VetoStatus.Pending => VetoSession.current_action_number s = 0
    | VetoStatus.CoinFlip => VetoSession.current_action_number s = 0 ∧ 0 < slots s
    | VetoStatus.InProgress => 1 ≤ VetoSession.current_action_number s ≤ slots s
    | VetoStatus.Completed => VetoSession.current_action_number s = slots s + 1
    | VetoStatus.Cancelled => VetoSession.current_action_number s ≤ slots s
    end;
  sw_deadline : is_Some (VetoSession.action_deadline s) →
    VetoSession.status s ≠ VetoStatus.Completed ∧
    1 ≤ VetoSession.current_action_number s ≤ slots s;
}.

Record veto_wf (db : Db.t) : Prop := {
  vw_id sid s : Db.veto_sessions db !! sid = Some s → VetoSession.id s = sid;
  vw_fresh sid s : Db.veto_sessions db !! sid = Some s → (sid < Db.next_uuid db)%N;
  vw_unique sid1 sid2 s1 s2 :
    Db.veto_sessions db !! sid1 = Some s1 → Db.veto_sessions db !! sid2 = Some s2 →
    VetoSession.match_id s1 = VetoSession.match_id s2 → sid1 = sid2;
  vw_session sid s : Db.veto_sessions db !! sid = Some s → session_wf s (log sid db);
  vw_orphan sid : Db.veto_sessions db !! sid = None → log sid db = [];
}.

(** Formats have actions, and fewer than an [i32] counts. *)
Definition formats_ok : Prop := ∀ format_id f, get_format svc format_id = Ok f →
  0 < Z.of_nat (length (VetoFormatConfig.sequence f)) < i32_max.

Lemma types_of_ok s f :
  get_format svc (VetoSession.veto_format_id s) = Ok f →
  types_of s = VetoFormatActionConfig.action_type <$> VetoFormatConfig.sequence f ∧
  slots s = Z.of_nat (length (VetoFormatConfig.sequence f)).
Proof. intros Hf. unfold slots, types_of. rewrite Hf. by rewrite length_fmap. Qed.

(** Programs that touch neither sessions, log nor clock keep the invariant. *)
Lemma veto_wf_quiet db db' : veto_quiet db db' → veto_wf db → veto_wf db'.
Proof.
  intros [Hs _ Ha _ Hn] []. split; intros *; rewrite ?Hs, ?Hn, ?(log_actions _ _ _ Ha); eauto.
Qed.

(** ** Recording *)

Record acting (s : VetoSession.t) (f : VetoFormatConfig.t) (fa : VetoFormatActionConfig.t)
    (map_id : string) (db : Db.t) : Prop := {
  ac_stored : Db.veto_sessions db !! VetoSession.id s = Some s;
  ac_format : get_format svc (VetoSession.veto_format_id s) = Ok f;
  ac_action : VetoFormatConfig.get_action f (action_index (VetoSession.current_action_number s)) = Some fa;
  ac_cursor : 1 ≤ VetoSession.current_action_number s;
  ac_map : map_id ∈ VetoSession.remaining_maps s;
}.

Lemma acting_bound s f fa m db : acting s f fa m db →
  VetoSession.current_action_number s ≤ slots s ∧
  types_of s !! Z.to_nat (VetoSession.current_action_number s - 1) =
    Some (VetoFormatActionConfig.action_type fa).
Proof.
  intros [_ Hf Ha Hn _]. destruct (types_of_ok _ _ Hf) as [Ht Hs].
  unfold VetoFormatConfig.get_action, action_index in Ha.
  replace (Z.max 0 (VetoSession.current_action_number s - 1))
    with (VetoSession.current_action_number s - 1) in Ha by lia.
  pose proof (lookup_lt_Some _ _ _ Ha). split; [rewrite Hs; lia|].
  by rewrite Ht, list_lookup_fmap, Ha.
Qed.

(** An owed row names a map that is still there. *)
Lemma owed_row s l x :
  session_wf s l → 1 ≤ VetoSession.current_action_number s →
  l !! Z.to_nat (VetoSession.current_action_number s - 1) = Some x →
  l = done_actions s l ++ [x] ∧ Z.of_nat (length l) = VetoSession.current_action_number s ∧
  VetoAction.map_id x ∈ VetoSession.remaining_maps s ∧
  types_of s !! Z.to_nat (VetoSession.current_action_number s - 1) = Some (VetoAction.action_type x).
Proof.
  intros [] Hn Hx. pose proof (lookup_lt_Some _ _ _ Hx) as Hlt.
  assert (length l = S (Z.to_nat (VetoSession.current_action_number s - 1))) as Hl by lia.
  assert (l = done_actions s l ++ [x]) as Hdone.
  { unfold done_actions. rewrite <- (take_S_r _ _ _ Hx). rewrite <- Hl. by rewrite firstn_all. }
  split; [done|]. split; [lia|]. split.
  - rewrite sw_remaining0. apply list_elem_of_filter. split.
    + rewrite Hdone in sw_nodup0. rewrite fmap_app, NoDup_app in sw_nodup0.
      destruct sw_nodup0 as (_ & Hd & _). intros Hin. by apply (Hd _ Hin), list_elem_of_singleton.
    + apply sw_pool0. apply list_elem_of_fmap_2. by eapply list_elem_of_lookup_2.
  - assert ((VetoAction.action_type <$> l) !! Z.to_nat (VetoSession.current_action_number s - 1) =
        Some (VetoAction.action_type x)) as Hty by by rewrite list_lookup_fmap, Hx.
    rewrite sw_types0, lookup_take in Hty. by case_decide.
Qed.

Lemma session_wf_append s l x :
  session_wf s l → 1 ≤ VetoSession.current_action_number s →
  Z.of_nat (length l) = VetoSession.current_action_number s - 1 →
  VetoAction.action_number x = VetoSession.current_action_number s →
  VetoAction.map_id x ∈ VetoSession.remaining_maps s →
  types_of s !! Z.to_nat (VetoSession.current_action_number s - 1) = Some (VetoAction.action_type x) →
  session_wf s (l ++ [x]).
Proof.
  intros [] Hn Hl Hx Hm Hty.
  assert (done_actions s (l ++ [x]) = l) as Hd1.
  { unfold done_actions. rewrite take_app_le by lia. by rewrite take_ge by lia. }
  assert (done_actions s l = l) as Hd2 by (unfold done_actions; by rewrite take_ge by lia).
  rewrite Hd2 in *.
  rewrite sw_remaining0 in Hm. apply list_elem_of_filter in Hm as [Hm1 Hm2].
  split; rewrite ?Hd1, ?length_app, ?fmap_app; cbn [length]; try done; try lia.
  - rewrite sw_numbers0. replace (Z.of_nat (length l + 1)) with (Z.of_nat (length l) + 1) by lia.
    rewrite seqZ_app, (seqZ_cons _ 1), (seqZ_nil _ (Z.pred 1)) by lia. f_equal.
    rewrite list_fmap_singleton. f_equal. lia.
  - rewrite sw_types0. rewrite Nat.add_1_r. symmetry. apply take_S_r.
    by replace (length l) with (Z.to_nat (VetoSession.current_action_number s - 1)) by lia.
  - rewrite NoDup_app. split; [done|]. split; [|apply NoDup_singleton].
    intros y Hy Hy2. apply list_elem_of_singleton in Hy2 as ->. done.
  - intros y. rewrite elem_of_app. intros [Hy|Hy]; [by apply sw_pool0|].
    by apply list_elem_of_singleton in Hy as ->.
Qed.

(** The session after the row at its cursor. *)
Record advanced (s s' : VetoSession.t) (x : VetoAction.t) : Prop := {
  ad_id : VetoSession.id s' = VetoSession.id s;
  ad_match : VetoSession.match_id s' = VetoSession.match_id s;
  ad_format : VetoSession.veto_format_id s' = VetoSession.veto_format_id s;
  ad_pool : VetoSession.map_pool s' = VetoSession.map_pool s;
  ad_first : VetoSession.first_action_registration_id s' = VetoSession.first_action_registration_id s;
  ad_timeout : VetoSession.timeout_seconds s' = VetoSession.timeout_seconds s;
  ad_number : VetoSession.current_action_number s' = VetoSession.current_action_number s + 1;
  ad_remaining : VetoSession.remaining_maps s' =
    filter (λ m, m ≠ VetoAction.map_id x) (VetoSession.remaining_maps s);
  ad_selected : VetoSession.selected_maps s' =
    VetoSession.selected_maps s ++ if selects (VetoAction.action_type x) then [VetoAction.map_id x] else [];
  ad_status : VetoSession.status s' =
    if bool_decide (slots s ≤ VetoSession.current_action_number s)
    then VetoStatus.Completed else VetoStatus.InProgress;
  ad_deadline : is_Some (VetoSession.action_deadline s') →
    VetoSession.current_action_number s < slots s;
}.

Lemma advanced_wf s s' l x :
  session_wf s l → 1 ≤ VetoSession.current_action_number s →
  l !! Z.to_nat (VetoSession.current_action_number s - 1) = Some x →
  VetoSession.current_action_number s ≤ slots s →
  advanced s s' x → session_wf s' l.
Proof.
  intros Hwf Hn Hx Hle [].
  destruct (owed_row _ _ _ Hwf Hn Hx) as (Hl & Hlen & Hm & Hty). destruct Hwf.
  assert (types_of s' = types_of s) as Ht by (unfold types_of; by rewrite ad_format0).
  assert (slots s' = slots s) as Hs by (unfold slots; by rewrite Ht).
  assert (done_actions s' l = l) as Hd.
  { unfold done_actions. rewrite take_ge; [done|]. rewrite ad_number0. lia. }
  split; rewrite ?Hd, ?Ht, ?Hs, ?ad_pool0, ?ad_number0; try done; try lia.
  - rewrite ad_remaining0, sw_remaining0, list_filter_filter. apply list_filter_iff.
    intros m. rewrite Hl at 2. rewrite fmap_app, elem_of_app. cbn. rewrite list_elem_of_singleton.
    naive_solver.
  - rewrite ad_selected0, sw_selected0. rewrite Hl at 2. rewrite filter_app, fmap_app. f_equal.
    rewrite filter_cons. destruct (selects _); [by rewrite decide_True|by rewrite decide_False].
  - rewrite ad_status0. case_bool_decide; lia.
  - intros Hdl%ad_deadline0. rewrite ad_status0. case_bool_decide; [lia|]. split; [done|lia].
Qed.

(** The row at the cursor: the one that was owed, or one for the given map. *)
Definition row_of (s : VetoSession.t) (db : Db.t) (m : string)
    (pb : option TournamentRegistrationId) (x : VetoAction.t) : Prop :=
  match log (VetoSession.id s) db !! Z.to_nat (VetoSession.current_action_number s - 1) with
  | Some y => x = y
  | None => VetoAction.map_id x = m ∧ VetoAction.performed_by_registration_id x = pb
  end.

(** The row at the cursor is written, or was there already. *)
Lemma record_create s f fa m pb pu auto reason db r db1 :
  formats_ok → veto_wf db → acting s f fa m db →
  create_veto_action (CreateVetoAction.mk (VetoSession.id s) (VetoSession.current_action_number s)
    (VetoFormatActionConfig.action_type fa) m pb pu auto reason) db = (r, db1) →
  ∃ x, r = Ok x ∧ veto_wf db1 ∧
    Db.veto_sessions db1 = Db.veto_sessions db ∧ Db.matches db1 = Db.matches db ∧
    Db.now db1 = Db.now db ∧ (Db.next_uuid db ≤ Db.next_uuid db1)%N ∧
    log (VetoSession.id s) db1 !! Z.to_nat (VetoSession.current_action_number s - 1) = Some (erase x) ∧
    VetoAction.action_type x = VetoFormatActionConfig.action_type fa ∧
    row_of s db m pb (erase x) ∧ (∀ sid, log sid db `prefix_of` log sid db1).
Proof.
  intros Hfo Hwf Hac Hc. destruct (acting_bound _ _ _ _ _ Hac) as [Hle Hty].
  destruct Hac as [Hs Hf Ha Hn Hm].
  destruct (types_of_ok _ _ Hf) as [_ Hslots]. pose proof (Hfo _ _ Hf) as Hlen.
  pose proof (vw_session _ Hwf _ _ Hs) as Hsw.
  destruct (create_veto_action_cases _ _ _ _ Hc) as [(Hneg & _)|[(b & Hb & -> & ->)|(Hno & -> & ->)]];
    cbn [CreateVetoAction.action_number CreateVetoAction.session_id] in *.
  - exfalso. rewrite as_i32_id in Hneg; [lia|].
    unfold in_i32, i32_min. unfold i32_max in *. lia.
  - exists b. destruct (action_at_log _ _ _ _ Hb) as [[i Hi]%list_elem_of_lookup Hnum].
    assert ((VetoAction.action_number <$> log (VetoSession.id s) db) !! i =
        Some (VetoSession.current_action_number s)) as Hin by by rewrite list_lookup_fmap, Hi, <- Hnum.
    rewrite (sw_numbers _ _ Hsw) in Hin. apply lookup_seqZ in Hin as [Hin _].
    assert (Z.to_nat (VetoSession.current_action_number s - 1) = i) as Hi' by lia.
    destruct (owed_row _ _ (erase b) Hsw Hn) as (_ & _ & _ & Hty'); [by rewrite Hi'|].
    unfold row_of. rewrite Hi', Hi. repeat (split; [done || lia|]). split; [|by split].
    rewrite Hty in Hty'. by injection Hty'.
  - set (x := inserted_veto_action _ _ _). set (db1 := db <| Db.next_uuid := _ |> <| Db.veto_actions := _ |>).
    assert (∀ sid, log sid db1 = log sid db ++ if decide (VetoSession.id s = sid) then [erase x] else [])
      as Hlog by (intros sid; by rewrite (log_insert sid db x db1)).
    assert (Z.of_nat (length (log (VetoSession.id s) db)) = VetoSession.current_action_number s - 1) as Hll.
    { destruct (sw_length _ _ Hsw) as [Hl1 Hl2].
      destruct (decide (Z.of_nat (length (log (VetoSession.id s) db)) =
        VetoSession.current_action_number s)) as [He|]; [exfalso|lia].
      destruct (lookup_lt_is_Some_2 (log (VetoSession.id s) db)
        (Z.to_nat (VetoSession.current_action_number s - 1))) as [y Hy]; [lia|].
      apply (action_at_none _ _ _ y Hno); [by eapply list_elem_of_lookup_2|].
      assert ((VetoAction.action_number <$> log (VetoSession.id s) db) !!
        Z.to_nat (VetoSession.current_action_number s - 1) = Some (VetoAction.action_number y)) as Hyn
        by by rewrite list_lookup_fmap, Hy.
      rewrite (sw_numbers _ _ Hsw) in Hyn. apply lookup_seqZ in Hyn as [-> _]. lia. }
    exists x. split; [done|]. split; [|repeat (split; [done || (cbn; lia)|])].
    + assert (session_wf s (log (VetoSession.id s) db ++ [erase x])) as Hsw'
        by by apply session_wf_append.
      destruct Hwf. split; cbn [Db.veto_sessions Db.next_uuid db1].
      * exact vw_id0.
      * intros sid s' Hs'. specialize (vw_fresh0 _ _ Hs'). cbn. lia.
      * exact vw_unique0.
      * intros sid s' Hs'. rewrite Hlog. case_decide as Hid; [|rewrite app_nil_r; by apply vw_session0].
        subst sid. change (Db.veto_sessions db !! VetoSession.id s = Some s') in Hs'. by simplify_eq.
      * intros sid Hs'. rewrite Hlog. change (Db.veto_sessions db !! sid = None) in Hs'.
        case_decide as Hid; [congruence|]. by rewrite app_nil_r, vw_orphan0.
    + rewrite Hlog, decide_True by done. split; [apply list_lookup_middle; lia|]. split; [done|].
      unfold row_of. rewrite lookup_ge_None_2 by lia. split; [done|].
      intros sid. rewrite Hlog. by eexists.
Qed.

Lemma determine_state s na : preserves eq (determine_next_team s na).
Proof. unfold determine_next_team, some_or, invalid_state, get_veto_match, find_match_by_id. frame. Qed.

(** Replacing a session by its advanced form. *)
Lemma veto_wf_replace db db' s s' :
  veto_wf db → Db.veto_sessions db !! VetoSession.id s = Some s →
  Db.veto_sessions db' = <[VetoSession.id s := s']> (Db.veto_sessions db) →
  Db.veto_actions db' = Db.veto_actions db → (Db.next_uuid db ≤ Db.next_uuid db')%N →
  VetoSession.id s' = VetoSession.id s → VetoSession.match_id s' = VetoSession.match_id s →
  session_wf s' (log (VetoSession.id s) db) → veto_wf db'.
Proof.
  intros [] Hs Hs' Ha Hn Hid Hmid Hsw.
  assert (∀ sid, log sid db' = log sid db) as Hlog by (intros sid; unfold log; by rewrite Ha).
  assert (∀ sid y, Db.veto_sessions db' !! sid = Some y →
    ∃ y0, Db.veto_sessions db !! sid = Some y0 ∧ VetoSession.match_id y = VetoSession.match_id y0) as Hold.
  { intros sid y. rewrite Hs', lookup_insert_Some. intros [[<- <-]|[_ Hy]]; eauto. }
  split.
  - intros sid y. rewrite Hs', lookup_insert_Some. intros [[<- <-]|[_ Hy]]; eauto.
  - intros sid y Hy. destruct (Hold _ _ Hy) as (y0 & Hy0 & _). specialize (vw_fresh0 _ _ Hy0). lia.
  - intros sid1 sid2 y1 y2 Hy1 Hy2 Hm.
    destruct (Hold _ _ Hy1) as (z1 & Hz1 & Hm1), (Hold _ _ Hy2) as (z2 & Hz2 & Hm2).
    apply (vw_unique0 _ _ _ _ Hz1 Hz2). congruence.
  - intros sid y. rewrite Hs', Hlog, lookup_insert_Some. intros [[<- <-]|[_ Hy]]; eauto.
  - intros sid. rewrite Hs', Hlog, lookup_insert_None. intros [Hy _]. eauto.
Qed.

(** Whose turn follows, from the match the session is about. *)
Definition next_turn (s : VetoSession.t) (f : VetoFormatConfig.t) (db : Db.t)
    : outcome (option TournamentRegistrationId) :=
  if bool_decide (slots s ≤ VetoSession.current_action_number s) then Ok None
  else (determine_next_team s
          (VetoFormatConfig.get_action f (VetoSession.current_action_number s)) db).1.

Lemma determine_matches s na db db' :
  Db.matches db' = Db.matches db → (determine_next_team s na db').1 = (determine_next_team s na db).1.
Proof.
  intros Hm. unfold determine_next_team, some_or, mbind.
  destruct na as [na|]; [|done]. cbn. case_bool_decide; [done|].
  unfold get_veto_match, find_match_by_id, mbind, mread. rewrite Hm.
  destruct (Db.matches db !! _) as [m|]; [|done]. cbn.
  destruct (TournamentMatch.participant1_registration_id m); [|done].
  destruct (TournamentMatch.participant2_registration_id m); [|done]. cbn.
  destruct (VetoSession.first_action_registration_id s); [|done]. cbn.
  case_bool_decide; [done|]. by case_bool_decide.
Qed.

(** The deadline of the action after the one at the cursor. *)
Definition next_deadline (s : VetoSession.t) (now : DateTime) : option DateTime :=
  match types_of s !! Z.to_nat (VetoSession.current_action_number s) with
  | None | Some VetoActionType.Random => None
  | Some _ => Some (now + seconds (VetoSession.timeout_seconds s))
  end.

(** What a recorded action leaves behind. *)
Record recorded (s : VetoSession.t) (db db' : Db.t) (turn : option TournamentRegistrationId)
    (x : VetoAction.t) (res : VetoActionResult.t) : Prop := {
  re_wf : veto_wf db';
  re_row_log : log (VetoSession.id s) db' !! Z.to_nat (VetoSession.current_action_number s - 1) = Some x;
  re_advanced : advanced s (VetoActionResult.session res) x;
  re_sessions : Db.veto_sessions db' =
    <[VetoSession.id s := VetoActionResult.session res]> (Db.veto_sessions db);
  re_complete : VetoActionResult.veto_complete res =
    bool_decide (slots s ≤ VetoSession.current_action_number s);
  re_next_type : VetoActionResult.next_action_type res =
    types_of s !! Z.to_nat (VetoSession.current_action_number s);
  re_next_team : VetoActionResult.next_team res = turn;
  re_turn : VetoSession.current_team_turn (VetoActionResult.session res) = turn;
  re_deadline : VetoSession.action_deadline (VetoActionResult.session res) =
    next_deadline s (Db.now db);
}.

Record veto_frame (db db' : Db.t) : Prop := {
  vf_matches : Db.matches db' = Db.matches db;
  vf_now : Db.now db' = Db.now db;
  vf_next : (Db.next_uuid db ≤ Db.next_uuid db')%N;
  vf_log sid : log sid db `prefix_of` log sid db';
}.
#[global] Instance veto_frame_preorder : PreOrder veto_frame.
Proof. split; [by split|]. intros x y z [] []. split; [congruence|congruence|lia|]. intros sid.
  transitivity (log sid y); auto.
Qed.

(** Finding the row to update never fails: it is the one just recorded. *)
Lemma assign_side_ok chance s ty pb x db :
  (∃ y, y ∈ Db.veto_actions db ∧ VetoAction.id y = VetoAction.id x) →
  ∃ y, (assign_random_side chance s ty pb x db).1 = Ok y.
Proof.
  intros (y & Hy & Hid). unfold assign_random_side. destruct (_ && _); [|by eexists].
  unfold side_selector, mbind.
  assert (∀ side reg, ∃ z, (update_side_selection (VetoAction.id x) side reg db).1 = Ok z) as Hu.
  { intros side reg. unfold update_side_selection.
    destruct (list_find (λ a, VetoAction.id a = VetoAction.id x) (Db.veto_actions db))
      as [[i z]|] eqn:Hf; [by eexists|].
    apply list_find_None in Hf. rewrite Forall_forall in Hf. by destruct (Hf _ Hy). }
  destruct pb as [reg|]; [apply Hu|]. destruct (VetoSession.first_action_registration_id s) as [reg|]; [apply Hu|].
  cbn. destruct (_ ≫= _); [apply Hu|by eexists].
Qed.

Lemma create_veto_action_stored cmd db a db1 :
  create_veto_action cmd db = (Ok a, db1) → a ∈ Db.veto_actions db1.
Proof.
  intros Hc. destruct (create_veto_action_cases _ _ _ _ Hc) as [(_ & ? & _)|[(b & Hb & [= ->] & ->)|(_ & [= ->] & ->)]].
  - done.
  - by apply action_at_some in Hb as [? _].
  - cbn. apply elem_of_app. right. by apply list_elem_of_singleton.
Qed.


Lemma update_veto_session_found id u db s :
  Db.veto_sessions db !! id = Some s →
  update_veto_session id u db =
  (Ok (apply_veto_update u (Db.now db) s),
   db <| Db.veto_sessions := <[id := apply_veto_update u (Db.now db) s]> (Db.veto_sessions db) |>).
Proof. intros Hs. unfold update_veto_session, write_veto_session. by rewrite Hs. Qed.

Lemma next_number_eq s f :
  formats_ok → get_format svc (VetoSession.veto_format_id s) = Ok f →
  1 ≤ VetoSession.current_action_number s ≤ slots s →
  let n := VetoSession.current_action_number s in
  as_u32 (n + 1) = n + 1 ∧ usize_pred (n + 1) = n ∧
  VetoFormatConfig.is_complete_at f (n + 1) = bool_decide (slots s ≤ n) ∧
  VetoFormatActionConfig.action_type <$> VetoFormatConfig.get_action f n = types_of s !! Z.to_nat n.
Proof.
  intros Hfo Hf Hn n. subst n. destruct (types_of_ok _ _ Hf) as [Htypes Hslots].
  pose proof (Hfo _ _ Hf) as Hlen. unfold i32_max in *.
  repeat split.
  - unfold as_u32. apply Z.mod_small. lia.
  - unfold usize_pred. rewrite Z.mod_small; lia.
  - unfold VetoFormatConfig.is_complete_at. apply bool_decide_ext. lia.
  - unfold VetoFormatConfig.get_action. by rewrite Htypes, list_lookup_fmap.
Qed.

Lemma next_phase_eq s f db :
  formats_ok → get_format svc (VetoSession.veto_format_id s) = Ok f →
  1 ≤ VetoSession.current_action_number s ≤ slots s →
  next_phase s f (VetoSession.current_action_number s + 1) db =
  (let? turn := next_turn s f db in
   Ok (turn, if bool_decide (slots s ≤ VetoSession.current_action_number s)
             then VetoStatus.Completed else VetoStatus.InProgress,
       next_deadline s (Db.now db)), db).
Proof.
  intros Hfo Hf Hn. destruct (next_number_eq _ _ Hfo Hf Hn) as (_ & Hus & Hc & Ht).
  unfold next_phase, next_turn, next_deadline. rewrite Hc, Hus, <- Ht.
  case_bool_decide as Hcase.
  - cbn. destruct (types_of_ok _ _ Hf) as [_ Hs].
    replace (VetoFormatConfig.get_action f (VetoSession.current_action_number s))
      with (None : option VetoFormatActionConfig.t); [done|].
    symmetry. apply lookup_ge_None_2. lia.
  - pose proof (determine_state s (VetoFormatConfig.get_action f (VetoSession.current_action_number s)) db)
      as Hd.
    unfold mbind at 1. destruct (determine_next_team _ _ db) as [[turn|e] db1]; cbn in Hd; subst db1; [|done].
    cbn. do 4 f_equal.
    destruct (VetoFormatConfig.get_action f _) as [a|] eqn:Ha; cbn.
    + by destruct (VetoFormatActionConfig.action_type a).
    + apply lookup_ge_None in Ha. destruct (types_of_ok _ _ Hf) as [_ Hs]. lia.
Qed.

(** The update succeeds when the next turn is known. *)
Lemma advance_spec s f db1 x y r db' :
  formats_ok → veto_wf db1 → get_format svc (VetoSession.veto_format_id s) = Ok f →
  Db.veto_sessions db1 !! VetoSession.id s = Some s →
  1 ≤ VetoSession.current_action_number s ≤ slots s →
  log (VetoSession.id s) db1 !! Z.to_nat (VetoSession.current_action_number s - 1) = Some x →
  advance_session s f (VetoAction.action_type x) (VetoAction.map_id x) y db1 = (r, db') →
  veto_frame db1 db' ∧
  match next_turn s f db1 with
  | Err e => r = Err e ∧ db' = db1
  | Ok turn => ∃ res, r = Ok res ∧ recorded s db1 db' turn x res ∧ VetoActionResult.action res = y
  end.
Proof.
  intros Hfo Hwf Hf Hs Hn Hx Hr.
  destruct (next_number_eq _ _ Hfo Hf Hn) as (Hu32 & Hus & Hc & Ht).
  pose proof (vw_session _ Hwf _ _ Hs) as Hsw.
  destruct (owed_row _ _ _ Hsw (proj1 Hn) Hx) as (Hl & Hll & Hm & Hty).
  unfold advance_session in Hr. rewrite Hu32, Hus, Hc, Ht in Hr.
  pose proof (next_phase_eq _ _ db1 Hfo Hf Hn) as Hph.
  destruct (next_turn s f db1) as [turn|e]; cbn [result_bind] in Hph.
  2:{ rewrite (mbind_stop _ _ _ _ _ Hph) in Hr. injection Hr as <- <-. done. }
  rewrite (mbind_step _ _ _ _ _ Hph) in Hr. cbv beta iota zeta in Hr.
  unfold mbind at 1, mread in Hr.
  rewrite (mbind_step _ _ _ _ _ (update_veto_session_found _ _ _ _ Hs)) in Hr.
  injection Hr as <- <-.
  set (s' := apply_veto_update _ _ s).
  assert (VetoAction.map_id x ∉ VetoSession.selected_maps s) as Hnsel.
  { rewrite (sw_selected _ _ Hsw). pose proof (sw_nodup _ _ Hsw) as Hnd. rewrite Hl, fmap_app, NoDup_app in Hnd.
    destruct Hnd as (_ & Hnd & _). intros (b & Hb1 & Hb2)%list_elem_of_fmap.
    apply list_elem_of_filter in Hb2 as [_ Hb2].
    apply (Hnd (VetoAction.map_id b)); [by apply list_elem_of_fmap_2|].
    rewrite <- Hb1. by apply list_elem_of_singleton. }
  assert (advanced s s' x) as Had.
  { split; try reflexivity.
    - cbn. rewrite (bool_decide_false (_ ∈ _)) by done. destruct (selects _); [done|by rewrite app_nil_r].
    - cbn. unfold next_deadline. intros Hd. destruct (types_of s !! _) eqn:Hlk; [|by destruct Hd].
      apply lookup_lt_Some in Hlk. unfold slots. lia. }
  split; [split; cbn; done || lia|]. eexists. split; [done|]. split; [|done].
  assert (log (VetoSession.id s) (db1 <| Db.veto_sessions := <[VetoSession.id s := s']> (Db.veto_sessions db1) |>)
    = log (VetoSession.id s) db1) as Hlog by done.
  split; try done.
  - eapply (veto_wf_replace db1); try done; cbn; try lia.
    eapply advanced_wf; try done; lia.
  - cbn. case_bool_decide as Hcase; [|done]. symmetry. apply lookup_ge_None_2. unfold slots in Hcase. lia.
Qed.

Lemma record_spec chance s f fa m pb pu auto reason db r db' :
  formats_ok → veto_wf db → acting s f fa m db →
  record_action_internal chance s f fa m pb pu auto reason db = (r, db') →
  veto_frame db db' ∧
  match next_turn s f db with
  | Err e => r = Err e ∧ veto_wf db' ∧ Db.veto_sessions db' = Db.veto_sessions db
  | Ok turn => ∃ x res, r = Ok res ∧ recorded s db db' turn x res ∧ row_of s db m pb x
  end.
Proof.
  intros Hfo Hwf Hac Hr. destruct (acting_bound _ _ _ _ _ Hac) as [Hle Hty].
  unfold record_action_internal in Hr.
  match type of Hr with mbind (create_veto_action ?cmd) _ _ = _ =>
    destruct (create_veto_action cmd db) as [r1 db1] eqn:Hc end.
  destruct (record_create _ _ _ _ _ _ _ _ _ _ _ Hfo Hwf Hac Hc)
    as (x & -> & Hwf1 & Hs1 & Hm1 & Hn1 & Hu1 & Hlog1 & Hxty & Hrow & Hpre).
  rewrite (mbind_step _ _ _ _ _ Hc) in Hr. cbv beta zeta in Hr.
  destruct Hac as [Hs Hf Ha Hn Hm].
  destruct (assign_side_ok chance s (VetoFormatActionConfig.action_type fa) pb x db1) as [y Hy].
  { exists x. split; [|done]. by eapply create_veto_action_stored. }
  pose proof (assign_side_quiet chance s (VetoFormatActionConfig.action_type fa) pb x db1) as Hq.
  apply run_outcome in Hy. set (db2 := (assign_random_side _ _ _ _ _ db1).2) in *.
  rewrite (mbind_step _ _ _ _ _ Hy) in Hr. cbv beta zeta in Hr.
  pose proof (veto_wf_quiet _ _ Hq Hwf1) as Hwf2.
  destruct Hq as [Hqs Hqm Hqa Hqn Hqu].
  rewrite <- Hxty in Hr.
  destruct (advance_spec s f db2 (erase x) y r db' Hfo Hwf2 Hf) as [Hfr Hnext];
    [by rewrite Hqs, Hs1|lia|by rewrite (log_actions _ db1)|exact Hr|].
  assert (next_turn s f db2 = next_turn s f db) as Hnt.
  { unfold next_turn. case_bool_decide; [done|]. apply determine_matches. congruence. }
  rewrite Hnt in Hnext.
  split.
  { destruct Hfr. split; [congruence..|lia|]. intros sid. rewrite (Hpre sid).
    by rewrite <- (log_actions _ db1 db2). }
  destruct (next_turn s f db) as [turn|e].
  - destruct Hnext as (res & -> & [] & _). exists (erase x), res. split; [done|]. split; [|done].
    split; try done; congruence.
  - destruct Hnext as (-> & ->). split; [done|]. split; [done|congruence].
Qed.

(** ** Turns

    Team 1 is the one with the first action, team 2 its opponent; automatic
    actions park the turn on team 1. *)
Definition due_team (m : TournamentMatch.t) (s : VetoSession.t) (team : Z)
    : option TournamentRegistrationId :=
  if bool_decide (team = 2) then
    if bool_decide (VetoSession.first_action_registration_id s =
                    TournamentMatch.participant1_registration_id m)
    then TournamentMatch.participant2_registration_id m
    else TournamentMatch.participant1_registration_id m
  else VetoSession.first_action_registration_id s.

Definition turn_ok (db : Db.t) (s : VetoSession.t) : Prop :=
  VetoSession.status s = VetoStatus.InProgress →
  ∀ f fa m, get_format svc (VetoSession.veto_format_id s) = Ok f →
  VetoFormatConfig.get_action f (VetoSession.current_action_number s - 1) = Some fa →
  Db.matches db !! VetoSession.match_id s = Some m →
  VetoSession.current_team_turn s = due_team m s (VetoFormatActionConfig.team fa).

Lemma determine_due s fa db turn m :
  (determine_next_team s (Some fa) db).1 = Ok turn →
  Db.matches db !! VetoSession.match_id s = Some m →
  turn = due_team m s (VetoFormatActionConfig.team fa).
Proof.
  unfold determine_next_team, due_team, mbind, some_or, get_veto_match, find_match_by_id, mread.
  cbn. case_bool_decide as H0; [rewrite bool_decide_false by (rewrite H0; lia); by intros [= <-]|].
  intros Hd Hm. unfold mbind in Hd. rewrite Hm in Hd. cbn in Hd.
  destruct (TournamentMatch.participant1_registration_id m) as [t1|]; [|done].
  destruct (TournamentMatch.participant2_registration_id m) as [t2|]; [|done]. cbn in Hd.
  destruct (VetoSession.first_action_registration_id s) as [t|]; [|done]. cbn in Hd.
  case_bool_decide as H1; [rewrite bool_decide_false by (rewrite H1; lia); by injection Hd|].
  case_bool_decide as H2; [|done]. injection Hd as <-.
  by repeat case_bool_decide; simplify_eq.
Qed.

Lemma recorded_turn_ok s f db db' turn x res :
  formats_ok → get_format svc (VetoSession.veto_format_id s) = Ok f →
  1 ≤ VetoSession.current_action_number s →
  next_turn s f db = Ok turn → recorded s db db' turn x res →
  turn_ok db (VetoActionResult.session res).
Proof.
  intros Hfo Hf Hn Hnt [_ _ Had _ _ _ _ Ht _] Hst f' fa m Hf' Hfa Hm.
  rewrite (ad_format _ _ _ Had), Hf in Hf'. injection Hf' as <-.
  rewrite (ad_match _ _ _ Had) in Hm. rewrite (ad_number _ _ _ Had) in Hfa.
  rewrite (ad_status _ _ _ Had) in Hst. unfold next_turn in Hnt.
  rewrite Z.add_simpl_r in Hfa. rewrite Hfa in Hnt.
  case_bool_decide; [done|].
  rewrite Ht, (determine_due _ _ _ _ _ Hnt Hm). unfold due_team. by rewrite (ad_first _ _ _ Had).
Qed.

(** A session an action has left: complete, or in progress with the right
    turn and, unless a wheel is to be spun, a deadline. *)
Definition settled (db : Db.t) (s : VetoSession.t) : Prop :=
  turn_ok db s ∧
  (VetoSession.status s = VetoStatus.Completed ∨
   VetoSession.status s = VetoStatus.InProgress ∧
   (VetoSession.action_deadline s = None →
    types_of s !! Z.to_nat (VetoSession.current_action_number s - 1) = Some VetoActionType.Random)).

Lemma turn_ok_matches db db' s : Db.matches db' = Db.matches db → turn_ok db s → turn_ok db' s.
Proof. unfold turn_ok. by intros ->. Qed.

Lemma settled_matches db db' s : Db.matches db' = Db.matches db → settled db s → settled db' s.
Proof. unfold settled, turn_ok. by intros ->. Qed.

Lemma recorded_settled s f db db' turn x res :
  formats_ok → get_format svc (VetoSession.veto_format_id s) = Ok f →
  1 ≤ VetoSession.current_action_number s →
  next_turn s f db = Ok turn → recorded s db db' turn x res →
  settled db (VetoActionResult.session res).
Proof.
  intros Hfo Hf Hn Hnt Hrec. split; [by eapply recorded_turn_ok|].
  destruct Hrec as [_ _ Had _ _ _ _ _ Hd]. rewrite (ad_status _ _ _ Had), (ad_number _ _ _ Had), Hd.
  case_bool_decide as Hc; [by left|]. right. split; [done|].
  unfold next_deadline, types_of. rewrite (ad_format _ _ _ Had), Z.add_simpl_r. fold (types_of s).
  destruct (types_of s !! Z.to_nat (VetoSession.current_action_number s)) as [[]|] eqn:Hty; try done.
  apply lookup_ge_None in Hty. unfold slots in Hc. lia.
Qed.

(** ** Deciders *)

(** A result describes the session it left. *)
Record result_ok (sid : VetoSessionId) (f : VetoFormatConfig.t) (res : VetoActionResult.t)
    (db : Db.t) : Prop := {
  ro_stored : Db.veto_sessions db !! sid = Some (VetoActionResult.session res);
  ro_format : get_format svc (VetoSession.veto_format_id (VetoActionResult.session res)) = Ok f;
  ro_cursor : 1 ≤ VetoSession.current_action_number (VetoActionResult.session res);
  ro_complete : VetoActionResult.veto_complete res =
    bool_decide (slots (VetoActionResult.session res) <
                 VetoSession.current_action_number (VetoActionResult.session res));
  ro_next : VetoActionResult.next_action_type res =
    types_of (VetoActionResult.session res) !!
      Z.to_nat (VetoSession.current_action_number (VetoActionResult.session res) - 1);
}.

Lemma types_of_advanced s s' x : advanced s s' x → types_of s' = types_of s ∧ slots s' = slots s.
Proof. intros []. unfold slots, types_of. by rewrite ad_format0. Qed.

Lemma recorded_result_ok s f db db' turn x res :
  get_format svc (VetoSession.veto_format_id s) = Ok f →
  1 ≤ VetoSession.current_action_number s →
  recorded s db db' turn x res → result_ok (VetoSession.id s) f res db'.
Proof.
  intros Hf Hn []. destruct (types_of_advanced _ _ _ re_advanced0) as [Ht Hs].
  pose proof (ad_number _ _ _ re_advanced0) as Hnum. split.
  - by rewrite re_sessions0, lookup_insert_eq.
  - by rewrite (ad_format _ _ _ re_advanced0).
  - lia.
  - rewrite re_complete0, Hs, Hnum. apply bool_decide_ext. lia.
  - rewrite re_next_type0, Ht, Hnum. f_equal. lia.
Qed.

(** Steps of the service seen from outside: the action rows and sessions of
    other matches do not matter to a session. *)
Record chained (s s' : VetoSession.t) : Prop := {
  ch_id : VetoSession.id s' = VetoSession.id s;
  ch_match : VetoSession.match_id s' = VetoSession.match_id s;
  ch_format : VetoSession.veto_format_id s' = VetoSession.veto_format_id s;
  ch_pool : VetoSession.map_pool s' = VetoSession.map_pool s;
  ch_first : VetoSession.first_action_registration_id s' = VetoSession.first_action_registration_id s;
  ch_timeout : VetoSession.timeout_seconds s' = VetoSession.timeout_seconds s;
  ch_number : VetoSession.current_action_number s ≤ VetoSession.current_action_number s';
}.
#[global] Instance chained_preorder : PreOrder chained.
Proof. split; [by split|]. intros x y z [] []. split; [congruence..|lia]. Qed.
Lemma advanced_chained s s' x : advanced s s' x → chained s s'.
Proof. intros []. split; [done..|lia]. Qed.

Lemma get_veto_session_run sid db :
  get_veto_session sid db =
  (match Db.veto_sessions db !! sid with
   | Some s => Ok s | None => throw (DomainError.VetoSessionNotFound sid) end, db).
Proof. unfold get_veto_session, find_veto_session, mbind, mread. by destruct (_ !! _). Qed.

Lemma decider_pending_spec res sid f db :
  result_ok sid f res db → decider_pending res = true →
  VetoSession.current_action_number (VetoActionResult.session res) ≤
    slots (VetoActionResult.session res) ∧
  ∃ fa, VetoFormatConfig.get_action f
    (action_index (VetoSession.current_action_number (VetoActionResult.session res))) = Some fa ∧
    VetoFormatActionConfig.action_type fa = VetoActionType.Decider.
Proof.
  intros [] [Hc%negb_true_iff Hd]%andb_true_iff. rewrite ro_complete0, bool_decide_eq_false in Hc.
  split; [lia|]. destruct (types_of_ok _ _ ro_format0) as [Ht _]. rewrite ro_next0, Ht, list_lookup_fmap in Hd.
  unfold VetoFormatConfig.get_action, action_index. rewrite Z.max_r by lia.
  destruct (VetoFormatConfig.sequence f !! _) as [fa|]; [|done]. cbn in Hd.
  exists fa. split; [done|]. by destruct (VetoFormatActionConfig.action_type fa).
Qed.

(** One pass of the loop, and what it leaves when it fails. *)
Lemma decider_step_spec chance sid f res db r db' :
  formats_ok → veto_wf db → result_ok sid f res db → decider_pending res = true →
  decider_step chance sid f db = (r, db') →
  veto_wf db' ∧ veto_frame db db' ∧
  match r with
  | Ok res' => result_ok sid f res' db' ∧
      chained (VetoActionResult.session res) (VetoActionResult.session res') ∧
      VetoSession.current_action_number (VetoActionResult.session res') =
        VetoSession.current_action_number (VetoActionResult.session res) + 1 ∧
      settled db' (VetoActionResult.session res') ∧
      Db.veto_sessions db' = <[sid := VetoActionResult.session res']> (Db.veto_sessions db)
  | Err _ => Db.veto_sessions db' = Db.veto_sessions db
  end.
Proof.
  intros Hfo Hwf Hro Hd Hr. destruct (decider_pending_spec _ _ _ _ Hro Hd) as (Hle & fa & Hfa & _).
  destruct Hro as [Hs Hf Hn _ _]. pose proof (vw_id _ Hwf _ _ Hs) as Hid.
  set (s := VetoActionResult.session res) in *. clearbody s.
  unfold decider_step in Hr. unfold mbind at 1 in Hr. rewrite get_veto_session_run, Hs in Hr.
  cbv beta zeta iota in Hr. rewrite Hfa in Hr. unfold mbind at 1, some_or, mret in Hr.
  destruct (head (VetoSession.remaining_maps s)) as [m|] eqn:Hh.
  2:{ injection Hr as <- <-. done. }
  unfold mbind at 1 in Hr.
  assert (acting s f fa m db) as Hac.
  { split; rewrite ?Hid; try done. apply head_Some_elem_of, Hh. }
  destruct (record_spec _ _ _ _ _ _ _ _ _ _ _ _ Hfo Hwf Hac Hr) as [Hfr Hnext].
  destruct (next_turn s f db) eqn:Hnt.
  - destruct Hnext as (x & res' & -> & Hrec & _).
    pose proof (recorded_settled _ _ _ _ _ _ _ Hfo Hf Hn Hnt Hrec) as Hturn.
    split; [by destruct Hrec|]. split; [done|].
    pose proof (recorded_result_ok _ _ _ _ _ _ _ Hf Hn Hrec) as Hro. rewrite Hid in Hro.
    destruct Hrec. split; [done|]. split; [by eapply advanced_chained|].
    split; [by apply (ad_number _ _ _ re_advanced0)|].
    split; [|by rewrite <- Hid]. eapply settled_matches; [apply Hfr|done].
  - destruct Hnext as (-> & ? & ?). done.
Qed.

Lemma chain_loop_spec fuel chance sid f res db r db' :
  formats_ok → veto_wf db → result_ok sid f res db →
  chain_deciders_loop fuel chance sid f res db = (r, db') →
  veto_wf db' ∧ veto_frame db db' ∧
  (∀ other, other ≠ sid → Db.veto_sessions db' !! other = Db.veto_sessions db !! other) ∧
  (∃ s', Db.veto_sessions db' !! sid = Some s' ∧ chained (VetoActionResult.session res) s' ∧
    (settled db (VetoActionResult.session res) → settled db' s')) ∧
  ∀ res', r = Ok res' → result_ok sid f res' db' ∧
    chained (VetoActionResult.session res) (VetoActionResult.session res') ∧
    (slots (VetoActionResult.session res) -
     VetoSession.current_action_number (VetoActionResult.session res) < Z.of_nat fuel →
     decider_pending res' = false).
Proof.
  intros Hfo. revert res db. induction fuel as [|fuel IH]; intros res db Hwf Hro Hr.
  { injection Hr as <- <-. split; [done|]. split; [done|]. split; [done|].
    split; [eexists; split; [apply Hro|]; by split|].
    intros ? [= <-]. split; [done|]. split; [done|]. intros Hlt.
    destruct (decider_pending res) eqn:Hd; [|done].
    destruct (decider_pending_spec _ _ _ _ Hro Hd). lia. }
  cbn in Hr. destruct (decider_pending res) eqn:Hd.
  2:{ injection Hr as <- <-. split; [done|]. split; [done|]. split; [done|].
      split; [eexists; split; [apply Hro|]; by split|]. by intros ? [= <-]. }
  destruct (mbind_inv _ _ _ _ _ Hr) as [(res1 & db1 & Hstep & Hrest)|(e & Hstep & ->)];
    destruct (decider_step_spec _ _ _ _ _ _ _ Hfo Hwf Hro Hd Hstep) as (Hwf1 & Hfr1 & H1).
  - destruct H1 as (Hro1 & Hch1 & Hnum & Ht1 & Hs1).
    destruct (IH _ _ Hwf1 Hro1 Hrest) as (Hwf2 & Hfr2 & Ho2 & (s' & Hs' & Hch' & Ht') & Hres).
    split; [done|]. split; [by etransitivity|]. split.
    { intros other Hne. rewrite Ho2 by done. by rewrite Hs1, lookup_insert_ne. }
    split; [exists s'; split; [done|]; split; [by etransitivity|auto]|].
    intros res' Hr'. destruct (Hres _ Hr') as (? & ? & Hlt). split; [done|].
    split; [by etransitivity|]. intros Hf. apply Hlt.
    replace (slots (VetoActionResult.session res1)) with (slots (VetoActionResult.session res)); [lia|].
    unfold slots, types_of. by rewrite (ch_format _ _ Hch1).
  - split; [done|]. split; [done|]. rewrite H1. split; [done|].
    split; [eexists; split; [apply Hro|]; split; [done|apply settled_matches, Hfr1]|]. done.
Qed.
End invariant.
