(* ===== verification/VetoSystem.v ===== *)
(** The veto service as a transition system, crashes and the rest of the
    program included, and the preservation of its invariant by every step. *)
From stdpp Require Import base list strings gmap relations.
From S2P Require Import Prelude Errors Wire TournamentTypes Entities CoreEnums DomainEnums VetoModel.
From S2P Require Import Rows Store StoreFacts Samples VetoStore Veto VetoFacts.
#[local] Open Scope Z_scope.

Section veto.
Context `{Platform} (svc : VetoService.t).

(** ** Every operation keeps the invariant *)

Lemma session_of_match_some mid db s :
  session_of_match mid db = Some s →
  VetoSession.match_id s = mid ∧ ∃ sid, Db.veto_sessions db !! sid = Some s.
Proof.
  unfold session_of_match. intros [Hm Hs]%head_Some_elem_of%list_elem_of_filter. split; [done|].
  apply list_elem_of_fmap in Hs as ([sid s'] & -> & Hs). exists sid. by apply elem_of_map_to_list.
Qed.

Lemma session_of_match_none mid db sid s :
  session_of_match mid db = None → Db.veto_sessions db !! sid = Some s → VetoSession.match_id s ≠ mid.
Proof.
  unfold session_of_match. intros Hn Hs Hm. apply head_None in Hn.
  enough (s ∈ ([] : list VetoSession.t)) as Hin by by apply elem_of_nil in Hin.
  rewrite <- Hn. apply list_elem_of_filter. split; [done|].
  apply list_elem_of_fmap. exists (sid, s). split; [done|]. by apply elem_of_map_to_list.
Qed.

Lemma create_veto_session_wf cmd db :
  veto_wf svc db → veto_wf svc (create_veto_session cmd db).2.
Proof.
  intros Hwf. unfold create_veto_session.
  destruct (session_of_match _ db) eqn:Hno; [done|]. cbn.
  assert (Db.veto_sessions db !! Db.next_uuid db = None) as Hfree.
  { destruct (Db.veto_sessions db !! Db.next_uuid db) eqn:Hs; [|done].
    pose proof (vw_fresh _ _ Hwf _ _ Hs). lia. }
  set (s := inserted_veto_session _ _ _).
  assert (∀ sid, log sid (db <| Db.next_uuid := N.succ (Db.next_uuid db) |>
    <| Db.veto_sessions := <[Db.next_uuid db := s]> (Db.veto_sessions db) |>) = log sid db) as Hlog by done.
  destruct Hwf as [Hid Hfresh Hunique Hsess Horphan].
  split; cbn [Db.veto_sessions Db.next_uuid setter].
  - intros sid y [[<- <-]|[_ Hy]]%lookup_insert_Some; eauto.
  - intros sid y [[<- <-]|[_ Hy]]%lookup_insert_Some; [cbn; lia|].
    specialize (Hfresh _ _ Hy). cbn. lia.
  - intros sid1 sid2 y1 y2 [[<- <-]|[Hn1 Hy1]]%lookup_insert_Some
      [[<- <-]|[Hn2 Hy2]]%lookup_insert_Some Hm; try done.
    + destruct (session_of_match_none _ _ _ _ Hno Hy2). done.
    + destruct (session_of_match_none _ _ _ _ Hno Hy1). done.
    + by eapply Hunique.
  - intros sid y [[<- <-]|[_ Hy]]%lookup_insert_Some; rewrite Hlog; [|eauto].
    rewrite Horphan by done. split; cbn; try done; try lia.
    + constructor.
    + apply list_subseteq_nil.
    + symmetry. apply filter_all. intros m _. apply not_elem_of_nil.
  - intros sid [Hy _]%lookup_insert_None. rewrite Hlog. eauto.
Qed.

(** An update that leaves the cursor at or before the first action. *)
Lemma restart_wf db sid s u :
  veto_wf svc db → Db.veto_sessions db !! sid = Some s →
  VetoSession.current_action_number s = 0 → VetoSession.action_deadline s = None →
  let s' := apply_veto_update u (Db.now db) s in
  UpdateVetoSession.remaining_maps u = None → UpdateVetoSession.selected_maps u = None →
  UpdateVetoSession.completed_at u = None →
  (VetoSession.status s' = VetoStatus.CoinFlip ∧ VetoSession.current_action_number s' = 0 ∧
   VetoSession.action_deadline s' = None ∨
   VetoSession.status s' = VetoStatus.InProgress ∧ VetoSession.current_action_number s' = 1) →
  0 < slots svc s →
  veto_wf svc (update_veto_session sid u db).2.
Proof.
  intros Hwf Hs Hn Hd s' Hr Hsel Hco Hs' Hsl.
  pose proof (vw_id _ _ Hwf _ _ Hs) as Hid. subst sid.
  rewrite (update_veto_session_found _ _ _ _ Hs). fold s'.
  pose proof (vw_session _ _ Hwf _ _ Hs) as Hsw.
  assert (types_of svc s' = types_of svc s ∧ slots svc s' = slots svc s) as [Ht Hsl'] by done.
  assert (log (VetoSession.id s) db = []) as Hlog.
  { destruct (sw_length _ _ _ Hsw) as [_ Hl]. apply nil_length_inv. lia. }
  eapply (veto_wf_replace _ db _ s s'); try done. rewrite Hlog in *.
  assert (VetoSession.remaining_maps s' = VetoSession.remaining_maps s) as Hrem by (cbn; by rewrite Hr).
  assert (VetoSession.selected_maps s' = VetoSession.selected_maps s) as Hse by (cbn; by rewrite Hsel).
  assert (∀ y, done_actions y [] = []) as Hda by (intros y; apply take_nil).
  destruct Hsw. rewrite Hda in *.
  split; rewrite ?Hda, ?Hrem, ?Hse, ?Ht, ?Hsl'; try done.
  - destruct Hs' as [(_ & Hs' & _)|(_ & Hs')]; rewrite Hs'; cbn; lia.
  - destruct Hs' as [(-> & Hs' & _)|(-> & Hs')]; rewrite ?Hs'; lia.
  - intros Hds. destruct Hs' as [(_ & _ & Hs')|(-> & Hs')]; [rewrite Hs' in Hds; by destruct Hds|].
    split; [done|]. rewrite Hs'. lia.
Qed.

(** ** The service as a transition system *)

Inductive veto_call :=
| CreateSession (match_id : TournamentMatchId) (veto_format : VetoFormatConfig.t)
    (map_pool : list string) (timeout_seconds : option Z) (mode : SideSelectionMode.t)
| StartSession (session_id : VetoSessionId)
| RecordCoinFlip (session_id : VetoSessionId) (winner : TournamentRegistrationId)
    (winner_goes_first : bool)
| PerformAction (chance : Chance.t) (session_id : VetoSessionId) (map_id : string)
    (acting_for : TournamentRegistrationId) (user : UserId)
| PerformWheelAction (chance : Chance.t) (session_id : VetoSessionId) (map_id : string) (expected : Z)
| CancelSession (match_id : TournamentMatchId)
| ProcessTimeout (chance : Chance.t) (session_id : VetoSessionId)
| SelectSide (session_id : VetoSessionId) (action_number : Z) (side : string)
    (acting_for : TournamentRegistrationId) (user : UserId).

Definition run_call (c : veto_call) (db : Db.t) : Db.t :=
  match c with
  | CreateSession match_id f pool timeout mode => (create_session svc match_id f pool timeout mode db).2
  | StartSession sid => (start_session svc sid db).2
  | RecordCoinFlip sid winner first => (record_coin_flip sid winner first db).2
  | PerformAction chance sid map_id acting user =>
      (perform_action svc chance sid map_id acting user db).2
  | PerformWheelAction chance sid map_id n => (perform_wheel_action svc chance sid map_id n db).2
  | CancelSession match_id => (cancel_session_for_match match_id db).2
  | ProcessTimeout chance sid => (process_timeout svc chance sid db).2
  | SelectSide sid n side acting user => (select_side sid n side acting user db).2
  end.

Definition fair_call (c : veto_call) : Prop :=
  match c with ProcessTimeout chance _ => Chance.fair chance | _ => True end.

(** A call by whichever outcome; a process that dies between the row of an
    action and the update of its session; anything else the program does, as
    time passes, that leaves the veto tables alone. *)
Inductive veto_step : Db.t → Db.t → Prop :=
| step_call c db : fair_call c → veto_step db (run_call c db)
| step_crash s f fa map_id by_team by_user auto reason db :
    acting svc s f fa map_id db →
    veto_step db (create_veto_action (CreateVetoAction.mk (VetoSession.id s)
      (VetoSession.current_action_number s) (VetoFormatActionConfig.action_type fa)
      map_id by_team by_user auto reason) db).2
| step_environment db db' :
    Db.veto_sessions db' = Db.veto_sessions db →
    erase <$> Db.veto_actions db' = erase <$> Db.veto_actions db →
    (Db.next_uuid db ≤ Db.next_uuid db')%N → veto_step db db'.

Lemma veto_wf_same db db' :
  Db.veto_sessions db' = Db.veto_sessions db →
  erase <$> Db.veto_actions db' = erase <$> Db.veto_actions db →
  (Db.next_uuid db ≤ Db.next_uuid db')%N → veto_wf svc db → veto_wf svc db'.
Proof.
  intros Hs Ha Hn [Hid Hfresh Hunique Hsess Horphan].
  split; intros *; rewrite ?Hs, ?(log_actions _ _ _ Ha); eauto.
  intros Hy. specialize (Hfresh _ _ Hy). lia.
Qed.

Lemma create_session_wf match_id f pool timeout mode db :
  veto_wf svc db → veto_wf svc (create_session svc match_id f pool timeout mode db).2.
Proof.
  intros Hwf. unfold create_session, get_veto_match, find_match_by_id, find_veto_session_by_match.
  unfold mbind at 1 2, mread. destruct (Db.matches db !! match_id) as [m|]; [|done]. cbn [fst snd mret].
  destruct (negb _); [done|]. case_bool_decide; [done|].
  unfold mbind at 1. destruct (session_of_match match_id db); [done|].
  unfold mbind at 1.
  pose proof (create_veto_session_wf (CreateVetoSession.mk match_id (VetoFormatConfig.id f) pool
    (default (VetoService.default_timeout_seconds svc) timeout) mode) db Hwf) as Hwf1.
  destruct (create_veto_session _ db) as [[s|e] db1]; [|done].
  pose proof (update_match_only match_id (λ now m,
    m <| TournamentMatch.veto_required := true |> <| TournamentMatch.updated_at := now |>) db1) as Ho.
  unfold mbind, set_veto_required. destruct (update_match _ _ db1) as [[y|e] db2]; cbn in Ho |- *;
    destruct Ho; (eapply (veto_wf_same db1); [done|by f_equal|lia|done]).
Qed.

Lemma start_session_wf sid db :
  formats_ok svc → veto_wf svc db → veto_wf svc (start_session svc sid db).2.
Proof.
  intros Hfo Hwf. unfold start_session, mbind at 1. rewrite get_veto_session_run.
  destruct (Db.veto_sessions db !! sid) as [s|] eqn:Hs; [|done].
  pose proof (vw_session _ _ Hwf _ _ Hs) as Hsw.
  destruct (VetoSession.status s) eqn:Hst; try done. cbn [VetoStatus.can_start negb].
  unfold mbind at 1, mlift. destruct (get_format svc (VetoSession.veto_format_id s)) as [f|] eqn:Hf; [|done].
  unfold mbind at 1, mread. pose proof (sw_status _ _ _ Hsw) as Hn. rewrite Hst in Hn.
  assert (VetoSession.action_deadline s = None) as Hd.
  { destruct (VetoSession.action_deadline s) eqn:Hd; [|done].
    destruct (sw_deadline _ _ _ Hsw) as [_ ?]; [by rewrite Hd|lia]. }
  destruct (types_of_ok _ _ _ Hf) as [_ Hsl]. pose proof (Hfo _ _ Hf) as Hlen.
  destruct (negb _); eapply restart_wf; try done; try (rewrite Hsl; lia); [right|left]; done.
Qed.

Lemma record_coin_flip_wf sid winner first db :
  veto_wf svc db → veto_wf svc (record_coin_flip sid winner first db).2.
Proof.
  intros Hwf. unfold record_coin_flip, mbind at 1. rewrite get_veto_session_run.
  destruct (Db.veto_sessions db !! sid) as [s|] eqn:Hs; [|done].
  pose proof (vw_session _ _ Hwf _ _ Hs) as Hsw. pose proof (sw_status _ _ _ Hsw) as Hn.
  destruct (VetoSession.status s) eqn:Hst; try done. cbn [VetoStatus.can_coin_flip negb].
  case_bool_decide; [done|]. unfold get_veto_match, find_match_by_id, mbind at 1 2, mread.
  destruct (Db.matches db !! _) as [m|]; [|done]. cbn [mret].
  destruct (negb _); [done|]. unfold mbind at 1.
  assert (VetoSession.action_deadline s = None) as Hd.
  { destruct (VetoSession.action_deadline s) eqn:Hd; [|done].
    destruct (sw_deadline _ _ _ Hsw) as [_ ?]; [by rewrite Hd|lia]. }
  match goal with |- context [match ?c db with _ => _ end] =>
    assert ((c db).2 = db) as Hc by (destruct first; [done|]; unfold some_or; by destruct (if bool_decide _ then _ else _));
    destruct (c db) as [[fa|e] db1]; cbn in Hc; subst db1 end; [|done].
  unfold mbind at 1. eapply restart_wf; try done; [by destruct Hn| |by destruct Hn]. by right.
Qed.

Lemma cancel_session_wf match_id db :
  veto_wf svc db → veto_wf svc (cancel_session_for_match match_id db).2.
Proof.
  intros Hwf. unfold cancel_session_for_match, find_veto_session_by_match, mbind at 1, mread.
  destruct (session_of_match match_id db) as [s|] eqn:Hs; [|done].
  destruct (session_of_match_some _ _ _ Hs) as (_ & sid & Hsid).
  pose proof (vw_id _ _ Hwf _ _ Hsid). subst sid.
  destruct (VetoSession.is_terminal s) eqn:Ht; [done|].
  unfold mbind, update_veto_status, write_veto_session. rewrite Hsid. cbn [mret snd fst].
  pose proof (vw_session _ _ Hwf _ _ Hsid) as Hsw.
  set (s' := s <| VetoSession.status := _ |> <| VetoSession.updated_at := _ |>).
  eapply (veto_wf_replace _ db _ s s'); try done.
  destruct Hsw as [H1 H2 H3 H4 H5 H6 H7 Hst Hdl].
  assert (slots svc s' = slots svc s ∧ 0 ≤ slots svc s) as [Hsl ?] by (split; [done|unfold slots; lia]).
  split; try done; rewrite Hsl; cbn.
  - unfold VetoSession.is_terminal in Ht. destruct (VetoSession.status s); try done; lia.
  - intros [_ Hd]%Hdl. done.
Qed.

Lemma select_side_quiet sid n side acting user : preserves veto_quiet (select_side sid n side acting user).
Proof. unfold select_side, get_veto_session, find_veto_session, find_veto_action, some_or, invalid_state. frame. Qed.

(** ** Acting: an action recorded, then the deciders that follow *)

Lemma act_spec chance s f fa m pb pu auto reason db r db' :
  formats_ok svc → veto_wf svc db → acting svc s f fa m db →
  (let* result := record_action_internal chance s f fa m pb pu auto reason in
   chain_deciders chance (VetoSession.id s) f result) db = (r, db') →
  veto_wf svc db' ∧ veto_frame db db' ∧
  (∀ other, other ≠ VetoSession.id s → Db.veto_sessions db' !! other = Db.veto_sessions db !! other) ∧
  match next_turn svc s f db with
  | Err e => r = Err e ∧ Db.veto_sessions db' = Db.veto_sessions db
  | Ok _ =>
      (∃ s' x, Db.veto_sessions db' !! VetoSession.id s = Some s' ∧ chained s s' ∧
        VetoSession.current_action_number s < VetoSession.current_action_number s' ∧
        settled svc db' s' ∧ row_of s db m pb x ∧
        log (VetoSession.id s) db' !! Z.to_nat (VetoSession.current_action_number s - 1) = Some x) ∧
      ∀ res, r = Ok res → result_ok svc (VetoSession.id s) f res db' ∧
        chained s (VetoActionResult.session res) ∧ decider_pending res = false
  end.
Proof.
  intros Hfo Hwf Hac Hr. destruct (acting_bound _ _ _ _ _ _ Hac) as [Hle _].
  pose proof (ac_format _ _ _ _ _ _ Hac) as Hf. pose proof (ac_cursor _ _ _ _ _ _ Hac) as Hn.
  destruct (mbind_inv _ _ _ _ _ Hr) as [(res1 & db1 & Hrec & Hch)|(e & Hrec & ->)];
    destruct (record_spec _ _ _ _ _ _ _ _ _ _ _ _ _ Hfo Hwf Hac Hrec) as [Hfr Hnext];
    destruct (next_turn svc s f db) as [turn|e'] eqn:Hnt.
  - destruct Hnext as (x & ? & [= <-] & Hrd & Hrow).
    pose proof (recorded_settled _ _ _ _ _ _ _ _ Hfo Hf Hn Hnt Hrd) as Hturn.
    pose proof (recorded_result_ok _ _ _ _ _ _ _ _ Hf Hn Hrd) as Hro.
    destruct Hrd as [Hwf1 Hlogx Had Hs1 _ _ _ _ _].
    pose proof (advanced_chained _ _ _ _ Had) as Hc1. pose proof (ad_number _ _ _ _ Had) as Hnum.
    destruct (chain_loop_spec _ _ _ _ _ _ _ _ _ Hfo Hwf1 Hro Hch)
      as (Hwf2 & Hfr2 & Ho2 & (s' & Hs' & Hc2 & Ht2) & Hres).
    split; [done|]. split; [by etransitivity|]. split.
    { intros other Hne. rewrite Ho2 by done. by rewrite Hs1, lookup_insert_ne. }
    split.
    { exists s', x. split; [done|]. split; [by etransitivity|]. pose proof (ch_number _ _ Hc2).
      split; [lia|]. split; [apply Ht2; eapply settled_matches; [apply Hfr|done]|]. split; [done|].
      eapply prefix_lookup_Some; [done|apply Hfr2]. }
    intros res Hr'. destruct (Hres _ Hr') as (? & ? & Hlt). split; [done|].
    split; [by etransitivity|]. apply Hlt.
    destruct (types_of_advanced _ _ _ _ Had) as [_ ->]. destruct (types_of_ok _ _ _ Hf) as [_ ->]. lia.
  - destruct Hnext as (? & _). done.
  - by destruct Hnext as (? & ? & ? & _).
  - destruct Hnext as (-> & Hwf1 & Hs1). split; [done|]. split; [done|]. rewrite Hs1. done.
Qed.

(** What a call that gets as far as recording has checked. *)
Lemma perform_action_inv chance sid m team user db r db' :
  veto_wf svc db → perform_action svc chance sid m team user db = (r, db') →
  (db' = db ∧ is_ok r = false) ∨
  ∃ s f fa, VetoSession.id s = sid ∧ acting svc s f fa m db ∧
    VetoSession.status s = VetoStatus.InProgress ∧
    VetoSession.current_team_turn s = Some team ∧
    (let* result := record_action_internal chance s f fa m (Some team) (Some user) false None in
     chain_deciders chance (VetoSession.id s) f result) db = (r, db').
Proof.
  intros Hwf Hr. unfold perform_action, mbind at 1 in Hr. rewrite get_veto_session_run in Hr.
  destruct (Db.veto_sessions db !! sid) as [s|] eqn:Hs; [|injection Hr as <- <-; by left].
  pose proof (vw_id _ _ Hwf _ _ Hs) as Hid. pose proof (sw_status _ _ _ (vw_session _ _ Hwf _ _ Hs)) as Hst.
  destruct (VetoStatus.can_act (VetoSession.status s)) eqn:Hact; [|injection Hr as <- <-; by left].
  destruct (VetoSession.is_map_available s m) eqn:Hm; [|injection Hr as <- <-; by left]. cbn [negb] in Hr.
  apply bool_decide_eq_true in Hm.
  destruct (VetoSession.current_team_turn s) as [t|] eqn:Ht; [|injection Hr as <- <-; by left].
  unfold mbind at 1, some_or at 1, mret at 1 in Hr.
  case_bool_decide as Hteam; [|injection Hr as <- <-; by left]. subst t. cbn [negb] in Hr.
  unfold mbind at 1, mlift in Hr.
  destruct (get_format svc (VetoSession.veto_format_id s)) as [f|] eqn:Hf; [|injection Hr as <- <-; by left].
  unfold mbind at 1, current_format_action, some_or in Hr.
  destruct (VetoFormatConfig.get_action f _) as [fa|] eqn:Hfa; [|injection Hr as <- <-; by left].
  right. exists s, f, fa. destruct (VetoSession.status s) eqn:Hs2; try done.
  split; [done|]. rewrite Hid. split; [|done]. split; rewrite ?Hid; try done; lia.
Qed.

Lemma process_timeout_inv chance sid db r db' :
  Chance.fair chance → veto_wf svc db → process_timeout svc chance sid db = (r, db') →
  (db' = db ∧ is_ok r = false) ∨
  ∃ s f fa m, VetoSession.id s = sid ∧ acting svc s f fa m db ∧
    VetoSession.is_timed_out (Db.now db) s = true ∧
    (let* result := record_action_internal chance s f fa m (VetoSession.current_team_turn s) None true
                      (Some "timeout") in
     chain_deciders chance (VetoSession.id s) f result) db = (r, db').
Proof.
  intros Hfair Hwf Hr. unfold process_timeout, mbind at 1 in Hr. rewrite get_veto_session_run in Hr.
  destruct (Db.veto_sessions db !! sid) as [s|] eqn:Hs; [|injection Hr as <- <-; by left].
  pose proof (vw_id _ _ Hwf _ _ Hs) as Hid.
  unfold mbind at 1, mread in Hr.
  destruct (VetoSession.is_timed_out (Db.now db) s) eqn:Hto; [|injection Hr as <- <-; by left].
  cbn [negb] in Hr. unfold mbind at 1, some_or at 1 in Hr.
  destruct (Chance.choose chance _) as [m|] eqn:Hm; [|injection Hr as <- <-; by left].
  unfold mret at 1, mbind at 1, mlift in Hr.
  destruct (get_format svc (VetoSession.veto_format_id s)) as [f|] eqn:Hf; [|injection Hr as <- <-; by left].
  unfold mbind at 1, current_format_action, some_or in Hr.
  destruct (VetoFormatConfig.get_action f _) as [fa|] eqn:Hfa; [|injection Hr as <- <-; by left].
  right. exists s, f, fa, m. split; [done|]. rewrite Hid. split; [|done].
  apply (Chance.choose_elem _ Hfair) in Hm.
  destruct (sw_deadline _ _ _ (vw_session _ _ Hwf _ _ Hs)) as [_ ?].
  { unfold VetoSession.is_timed_out in Hto. by destruct (VetoSession.action_deadline s). }
  split; rewrite ?Hid; try done; lia.
Qed.

Lemma perform_wheel_action_inv chance sid m n db r db' :
  veto_wf svc db → perform_wheel_action svc chance sid m n db = (r, db') →
  (db' = db ∧ is_ok r = false) ∨
  ∃ s f fa, VetoSession.id s = sid ∧ acting svc s f fa m db ∧
    VetoSession.current_action_number s = n ∧
    VetoFormatActionConfig.action_type fa = VetoActionType.Random ∧
    record_action_internal chance s f fa m None None true (Some "wheel_spin") db = (r, db').
Proof.
  intros Hwf Hr. unfold perform_wheel_action, mbind at 1 in Hr. rewrite get_veto_session_run in Hr.
  destruct (Db.veto_sessions db !! sid) as [s|] eqn:Hs; [|injection Hr as <- <-; by left].
  pose proof (vw_id _ _ Hwf _ _ Hs) as Hid. pose proof (sw_status _ _ _ (vw_session _ _ Hwf _ _ Hs)) as Hst.
  destruct (VetoStatus.can_act (VetoSession.status s)) eqn:Hact; [|injection Hr as <- <-; by left].
  cbn [negb] in Hr. case_bool_decide; [|injection Hr as <- <-; by left]. cbn [negb] in Hr.
  destruct (VetoSession.is_map_available s m) eqn:Hm; [|injection Hr as <- <-; by left]. cbn [negb] in Hr.
  apply bool_decide_eq_true in Hm. unfold mbind at 1, mlift in Hr.
  destruct (get_format svc (VetoSession.veto_format_id s)) as [f|] eqn:Hf; [|injection Hr as <- <-; by left].
  unfold mbind at 1, current_format_action, some_or in Hr.
  destruct (VetoFormatConfig.get_action f _) as [fa|] eqn:Hfa; [|injection Hr as <- <-; by left].
  cbn [mret] in Hr.
  destruct (VetoFormatActionConfig.action_type fa) eqn:Hty; try (injection Hr as <- <-; by left).
  right. exists s, f, fa. destruct (VetoSession.status s) eqn:Hs2; try done.
  split; [done|]. split; [|done]. split; rewrite ?Hid; try done; lia.
Qed.

Lemma run_call_wf c db : formats_ok svc → fair_call c → veto_wf svc db → veto_wf svc (run_call c db).
Proof.
  intros Hfo Hfair Hwf. destruct c; cbn [run_call].
  - by apply create_session_wf.
  - by apply start_session_wf.
  - by apply record_coin_flip_wf.
  - destruct (perform_action svc chance session_id map_id acting_for user db) as [r db'] eqn:Hr.
    destruct (perform_action_inv _ _ _ _ _ _ _ _ Hwf Hr) as [[-> _]|(s & f & fa & _ & Hac & _ & _ & Ha)];
      [done|]. by apply (act_spec _ _ _ _ _ _ _ _ _ _ _ _ Hfo Hwf Hac Ha).
  - destruct (perform_wheel_action svc chance session_id map_id expected db) as [r db'] eqn:Hr.
    destruct (perform_wheel_action_inv _ _ _ _ _ _ _ Hwf Hr) as [[-> _]|(s & f & fa & _ & Hac & _ & _ & Ha)];
      [done|]. destruct (record_spec _ _ _ _ _ _ _ _ _ _ _ _ _ Hfo Hwf Hac Ha) as [_ Hnext].
    destruct (next_turn svc s f db); [by destruct Hnext as (x & res & _ & [] & _)|by destruct Hnext as (_ & ? & _)].
  - by apply cancel_session_wf.
  - destruct (process_timeout svc chance session_id db) as [r db'] eqn:Hr.
    destruct (process_timeout_inv _ _ _ _ _ Hfair Hwf Hr) as [[-> _]|(s & f & fa & m & _ & Hac & _ & Ha)];
      [done|]. by apply (act_spec _ _ _ _ _ _ _ _ _ _ _ _ Hfo Hwf Hac Ha).
  - eapply veto_wf_quiet; [apply select_side_quiet|done].
Qed.

Definition no_vetoes (db : Db.t) : Prop := Db.veto_sessions db = ∅ ∧ Db.veto_actions db = [].

Lemma veto_step_wf db db' : formats_ok svc → veto_step db db' → veto_wf svc db → veto_wf svc db'.
Proof.
  intros Hfo [c db0 Hc|s f fa m bt bu auto reason db0 Hac|db0 db0' ? ? ?] Hwf.
  - by apply run_call_wf.
  - destruct (create_veto_action _ db0) as [r db1] eqn:Hr.
    by destruct (record_create _ _ _ _ _ _ _ _ _ _ _ _ Hfo Hwf Hac Hr) as (x & _ & ? & _).
  - by eapply veto_wf_same.
Qed.

Lemma no_vetoes_wf db : no_vetoes db → veto_wf svc db.
Proof.
  intros [Hs Ha]. split; intros *; rewrite ?Hs; try by rewrite lookup_empty.
  unfold log. by rewrite Ha.
Qed.

Lemma reachable_wf db0 db : formats_ok svc → no_vetoes db0 → rtc veto_step db0 db → veto_wf svc db.
Proof.
  intros Hfo H0 Hr. apply no_vetoes_wf in H0. induction Hr; [done|]. eauto using veto_step_wf.
Qed.
End veto.
