(* ===== verification/VetoProps.v ===== *)
(** What the veto service guarantees: the pool is partitioned at every step,
    turns follow the format, a started veto completes, an interrupted action
    is finished by its retry. *)
From stdpp Require Import base list strings gmap relations.
From S2P Require Import Prelude Errors Wire TournamentTypes Entities CoreEnums DomainEnums VetoModel.
From S2P Require Import Rows Store StoreFacts Samples VetoStore Veto VetoFacts VetoSystem.
#[local] Open Scope Z_scope.

(** ** Samples for the witnesses *)

Definition sample_pool : list string := ["ancient"; "anubis"; "dust2"; "inferno"; "mirage"; "nuke"; "train"].

Lemma builtin_formats_ok : formats_ok VetoService.new.
Proof.
  intros format_id f. unfold get_format, provided_format. cbn [VetoService.format_provider VetoService.new].
  unfold VetoFormatConfig.builtin. cbn [ok_or].
  repeat (case_bool_decide; cbn [orb]; [by intros [= <-]|]). done.
Qed.

Lemma builtin_opens format_id f :
  get_format VetoService.new format_id = Ok f →
  match VetoFormatConfig.sequence f with a :: _ => bool_decide (VetoFormatActionConfig.team a ≠ 2) | [] => true end = true.
Proof.
  unfold get_format, provided_format. cbn [VetoService.format_provider VetoService.new].
  unfold VetoFormatConfig.builtin. cbn [ok_or].
  repeat (case_bool_decide; cbn [orb]; [by intros [= <-]|]). done.
Qed.

Section veto.
Context `{Platform} (svc : VetoService.t).

(** ** The pool *)

Lemma actions_of_session_log db sid s :
  session_wf svc s (log sid db) → erase <$> actions_of_session sid db = log sid db ∧
  actions_of_session sid db = rows_of sid (Db.veto_actions db).
Proof.
  intros Hwf. pose proof (sw_numbers _ _ _ Hwf) as Hn. unfold log in *.
  assert (actions_of_session sid db = rows_of sid (Db.veto_actions db)) as ->; [|done].
  apply (stable_sort_numbered _ _ _ 1); [|done].
  rewrite length_fmap, <- list_fmap_compose in Hn. exact Hn.
Qed.

Definition used_maps (db : Db.t) (s : VetoSession.t) : list VetoAction.t :=
  take (Z.to_nat (VetoSession.current_action_number s - 1)) (actions_of_session (VetoSession.id s) db).

Lemma veto_pool_facts db0 db sid s :
  formats_ok svc → no_vetoes db0 → rtc (veto_step svc) db0 db →
  Db.veto_sessions db !! sid = Some s →
  let actions := actions_of_session sid db in
  VetoSession.id s = sid ∧
  VetoAction.action_number <$> actions = seqZ 1 (Z.of_nat (length actions)) ∧
  VetoSession.current_action_number s - 1 ≤ Z.of_nat (length actions)
    ≤ VetoSession.current_action_number s ∧
  VetoAction.action_type <$> actions = take (length actions) (types_of svc s) ∧
  NoDup (VetoAction.map_id <$> actions) ∧
  VetoAction.map_id <$> actions ⊆ VetoSession.map_pool s ∧
  VetoSession.remaining_maps s =
    filter (λ m, m ∉ VetoAction.map_id <$> used_maps db s) (VetoSession.map_pool s) ∧
  VetoSession.selected_maps s =
    VetoAction.map_id <$> filter (λ a, selects (VetoAction.action_type a) = true) (used_maps db s).
Proof.
  intros Hfo H0 Hr Hs actions. pose proof (reachable_wf _ _ _ Hfo H0 Hr) as Hwf.
  pose proof (vw_id _ _ Hwf _ _ Hs) as Hid. pose proof (vw_session _ _ Hwf _ _ Hs) as Hsw.
  destruct (actions_of_session_log _ _ _ Hsw) as [Hlog _]. fold actions in Hlog.
  destruct Hsw as [H1 H2 H3 H4 H5 H6 H7 _ _]. unfold done_actions in *. unfold used_maps. rewrite Hid.
  fold actions. rewrite <- Hlog in *.
  assert (∀ (B : Type) (g : VetoAction.t → B), g <$> (erase <$> actions) = (g ∘ erase) <$> actions) as Hg
    by (intros B g; by rewrite list_fmap_compose).
  rewrite length_fmap in H1, H2, H5. rewrite Hg in H1, H2, H3, H4. rewrite <- fmap_take in H6, H7.
  split; [done|]. split; [exact H1|]. split; [clearbody actions; clear -H5; lia|]. split; [exact H2|]. split; [exact H3|].
  split; [exact H4|]. split; [rewrite H6, <- list_fmap_compose; done|]. rewrite H7.
  clear. induction (take _ actions) as [|a l IH]; [done|].
  rewrite fmap_cons, !filter_cons. change (VetoAction.action_type (erase a)) with (VetoAction.action_type a).
  case_decide; [|done]. rewrite !fmap_cons. by f_equal.
Qed.

(** C12. In every state the veto service can reach from one without sessions, by any
    calls, lost processes included: the rows of a session are numbered 1, 2, …
    without gap, follow the types of the format, name distinct maps, and are at
    most one ahead of the session (an action whose process died); the pool is
    the disjoint union of the remaining maps and the maps the counted rows used;
    the selected maps are exactly the picks, deciders and random maps in order. *)
Theorem veto_partition db0 db sid s :
  formats_ok svc → no_vetoes db0 → rtc (veto_step svc) db0 db →
  Db.veto_sessions db !! sid = Some s →
  let actions := actions_of_session sid db in
  VetoSession.current_action_number s - 1 ≤ Z.of_nat (length actions)
    ≤ VetoSession.current_action_number s ∧
  VetoAction.action_number <$> actions = seqZ 1 (Z.of_nat (length actions)) ∧
  VetoAction.action_type <$> actions = take (length actions) (types_of svc s) ∧
  NoDup (VetoAction.map_id <$> actions) ∧
  (∀ m, m ∈ VetoSession.map_pool s ↔
    m ∈ VetoSession.remaining_maps s ∨ m ∈ VetoAction.map_id <$> used_maps db s) ∧
  (∀ m, m ∈ VetoSession.remaining_maps s → m ∉ VetoAction.map_id <$> used_maps db s) ∧
  VetoSession.selected_maps s =
    VetoAction.map_id <$> filter (λ a, selects (VetoAction.action_type a) = true) (used_maps db s).
Proof.
  intros Hfo H0 Hr Hs actions.
  destruct (veto_pool_facts _ _ _ _ Hfo H0 Hr Hs) as (Hid & Hnum & Hlen & Hty & Hnd & Hsub & Hrem & Hsel).
  fold actions in Hnum, Hlen, Hty, Hnd, Hsub. repeat (split; [done|]). rewrite Hrem.
  split; [|split; [|done]].
  - intros m. rewrite list_elem_of_filter. split.
    + intros Hm. destruct (decide (m ∈ VetoAction.map_id <$> used_maps db s)); auto.
    + intros [[_ ?]|Hm]; [done|]. apply Hsub. unfold used_maps in Hm. rewrite Hid in Hm.
      rewrite fmap_take in Hm. by eapply subseteq_take.
  - by intros m [? _]%list_elem_of_filter.
Qed.

(** ** Completion *)

Lemma selects_count (f : VetoFormatConfig.t) :
  Z.of_nat (length (filter (λ t, selects t = true)
    (VetoFormatActionConfig.action_type <$> VetoFormatConfig.sequence f))) =
  VetoFormatConfig.maps_selected f.
Proof.
  unfold VetoFormatConfig.maps_selected, VetoFormatConfig.pick_count, VetoFormatConfig.decider_count,
    VetoFormatConfig.random_count, VetoFormatConfig.count_of.
  induction (VetoFormatConfig.sequence f) as [|a l IH]; [done|].
  rewrite fmap_cons, !filter_cons. destruct (VetoFormatActionConfig.action_type a);
    repeat (case_decide; try done); cbn [length]; lia.
Qed.

(** A completed veto selected, in distinct maps of its pool, as many maps as its
    format plays, none of them still remaining, and has no deadline left. *)
Theorem veto_completed_maps db0 db sid s f :
  formats_ok svc → no_vetoes db0 → rtc (veto_step svc) db0 db →
  Db.veto_sessions db !! sid = Some s → VetoSession.status s = VetoStatus.Completed →
  get_format svc (VetoSession.veto_format_id s) = Ok f →
  NoDup (VetoSession.selected_maps s) ∧
  VetoSession.selected_maps s ⊆ VetoSession.map_pool s ∧
  VetoSession.selected_count s = VetoFormatConfig.maps_selected f ∧
  (∀ m, m ∈ VetoSession.selected_maps s → m ∉ VetoSession.remaining_maps s) ∧
  VetoSession.action_deadline s = None.
Proof.
  intros Hfo H0 Hr Hs Hst Hf. pose proof (reachable_wf _ _ _ Hfo H0 Hr) as Hwf.
  pose proof (vw_session _ _ Hwf _ _ Hs) as Hsw. destruct (types_of_ok _ _ _ Hf) as [Ht Hsl].
  destruct Hsw as [_ H2 H3 H4 H5 H6 H7 H8 H9]. rewrite Hst in *.
  assert (length (log sid db) = length (types_of svc s)) as Hlen.
  { assert (length (log sid db) ≤ length (types_of svc s))%nat as Hle.
    { rewrite <- (length_fmap VetoAction.action_type (log sid db)), H2, length_take. lia. }
    unfold slots in *. lia. }
  assert (done_actions s (log sid db) = log sid db) as Hd.
  { unfold done_actions. apply take_ge. unfold slots in *. lia. }
  rewrite Hd in *. rewrite Hlen, take_ge in H2 by done.
  assert (VetoAction.map_id <$> filter (λ a, selects (VetoAction.action_type a) = true) (log sid db)
    `sublist_of` VetoAction.map_id <$> log sid db) as Hsub.
  { clear. induction (log sid db) as [|a l IH]; [constructor|]. rewrite filter_cons.
    case_decide; rewrite ?fmap_cons; by constructor. }
  split; [rewrite H7; eapply sublist_NoDup; [done|exact Hsub]|].
  split; [intros m; rewrite H7; intros Hm; apply H4; by eapply sublist_subseteq|].
  split.
  { rewrite <- selects_count, <- Ht, <- H2. unfold VetoSession.selected_count. rewrite H7, length_fmap.
    f_equal. clear. induction (log sid db) as [|a l IH]; [done|].
    rewrite fmap_cons, !filter_cons. case_decide; cbn [length]; by rewrite IH. }
  split.
  - intros m. rewrite H7, H6. intros Hm [Hno _]%list_elem_of_filter. by eapply Hno, sublist_subseteq.
  - destruct (VetoSession.action_deadline s); [|done]. by destruct H9.
Qed.

(** One action of a team. Success means the session was in progress, it was that
    team's turn and the map remained: the row of the action is written, the map
    leaves the remaining ones, the cursor moves on past every decider that
    follows, and no other session changes. Any call outside these conditions
    leaves the database as it was. *)
Theorem perform_action_spec chance sid m team user db r db' :
  formats_ok svc → veto_wf svc db → perform_action svc chance sid m team user db = (r, db') →
  match r with
  | Ok res => ∃ s x s', Db.veto_sessions db !! sid = Some s ∧
      VetoSession.status s = VetoStatus.InProgress ∧ VetoSession.current_team_turn s = Some team ∧
      m ∈ VetoSession.remaining_maps s ∧ row_of s db m (Some team) x ∧
      s' = VetoActionResult.session res ∧ Db.veto_sessions db' !! sid = Some s' ∧
      VetoAction.map_id x ∉ VetoSession.remaining_maps s' ∧
      VetoSession.current_action_number s < VetoSession.current_action_number s' ∧
      decider_pending res = false ∧
      (∀ other, other ≠ sid → Db.veto_sessions db' !! other = Db.veto_sessions db !! other)
  | Err _ => (∀ s, Db.veto_sessions db !! sid = Some s →
      ¬ (VetoSession.status s = VetoStatus.InProgress ∧ VetoSession.current_team_turn s = Some team ∧
         m ∈ VetoSession.remaining_maps s)) → db' = db
  end.
Proof.
  intros Hfo Hwf Hr.
  destruct (perform_action_inv _ _ _ _ _ _ _ _ _ Hwf Hr)
    as [[-> Hbad]|(s & f & fa & Hid & Hac & Hst & Ht & Ha)]; [by destruct r|].
  destruct (act_spec _ _ _ _ _ _ _ _ _ _ _ _ _ Hfo Hwf Hac Ha) as (Hwf' & Hfr & Ho & Hnext).
  pose proof (ac_stored _ _ _ _ _ _ Hac) as Hs. pose proof (ac_map _ _ _ _ _ _ Hac) as Hm.
  pose proof (ac_cursor _ _ _ _ _ _ Hac) as Hn. rewrite Hid in *.
  destruct r as [res|e]; [|intros Hno; by destruct (Hno _ Hs)].
  destruct (next_turn svc s f db); [|by destruct Hnext].
  destruct Hnext as ((s' & x & Hs' & Hch & Hlt & _ & Hrow & Hlog) & Hres).
  destruct (Hres _ eq_refl) as ([Hst' _ _ _ _] & _ & Hd). rewrite Hs' in Hst'. injection Hst' as Heq.
  exists s, x, s'. repeat (split; [done|]). split; [|done].
  rewrite (sw_remaining _ _ _ (vw_session _ _ Hwf' _ _ Hs')). intros [Hno _]%list_elem_of_filter.
  apply Hno. apply list_elem_of_fmap_2. unfold done_actions.
  eapply (list_elem_of_lookup_2 _ (Z.to_nat (VetoSession.current_action_number s - 1))).
  rewrite lookup_take_lt; [done|lia].
Qed.

(** ** Turns *)

(** No format opens with the second team. *)
Definition opens_with_first : Prop := ∀ format_id f fa, get_format svc format_id = Ok f →
  head (VetoFormatConfig.sequence f) = Some fa → VetoFormatActionConfig.team fa ≠ 2.

(** The matches vetoes are about keep their participants. *)
Definition participants_fixed (db db' : Db.t) : Prop := ∀ sid s m',
  Db.veto_sessions db' !! sid = Some s → Db.matches db' !! VetoSession.match_id s = Some m' →
  ∃ m, Db.matches db !! VetoSession.match_id s = Some m ∧
    TournamentMatch.participant1_registration_id m' = TournamentMatch.participant1_registration_id m ∧
    TournamentMatch.participant2_registration_id m' = TournamentMatch.participant2_registration_id m.

Definition turn_wf (db : Db.t) : Prop := ∀ sid s, Db.veto_sessions db !! sid = Some s →
  turn_ok svc db s ∧
  (VetoSession.current_action_number s = 0 → VetoSession.first_action_registration_id s = None).

(** Sessions that stay keep their turn. *)
Lemma turn_ok_fixed db db' sid s :
  participants_fixed db db' → Db.veto_sessions db' !! sid = Some s → turn_ok svc db s → turn_ok svc db' s.
Proof.
  intros Hp Hs Ht Hst f fa m' Hf Hfa Hm'. destruct (Hp _ _ _ Hs Hm') as (m & Hm & H1 & H2).
  rewrite (Ht Hst f fa m Hf Hfa Hm). unfold due_team. by rewrite H1, H2.
Qed.

Lemma turn_wf_replace db db' sid :
  participants_fixed db db' → turn_wf db →
  (∀ other, other ≠ sid → Db.veto_sessions db' !! other = Db.veto_sessions db !! other) →
  (∀ s, Db.veto_sessions db' !! sid = Some s → Db.veto_sessions db !! sid = Some s ∨
    turn_ok svc db' s ∧
    (VetoSession.current_action_number s = 0 → VetoSession.first_action_registration_id s = None)) →
  turn_wf db'.
Proof.
  intros Hp Ht Ho Hs sid' s Hs'. destruct (decide (sid' = sid)) as [->|Hne].
  - destruct (Hs _ Hs') as [Hold|?]; [|done]. destruct (Ht _ _ Hold). split; [by eapply turn_ok_fixed|done].
  - pose proof Hs' as Hold. rewrite Ho in Hold by done. destruct (Ht _ _ Hold).
    split; [by eapply turn_ok_fixed|done].
Qed.

Lemma turn_wf_same db db' :
  participants_fixed db db' → Db.veto_sessions db' = Db.veto_sessions db → turn_wf db → turn_wf db'.
Proof. intros Hp Hs Ht. apply (turn_wf_replace db db' 0%N); [done..| |]; rewrite Hs; auto. Qed.

Lemma turn_ok_idle db s : VetoSession.status s ≠ VetoStatus.InProgress → turn_ok svc db s.
Proof. intros ? ?. done. Qed.

Lemma act_turns chance s f fa m pb pu auto reason db r db' :
  formats_ok svc → veto_wf svc db → acting svc s f fa m db →
  (let* result := record_action_internal chance s f fa m pb pu auto reason in
   chain_deciders chance (VetoSession.id s) f result) db = (r, db') →
  participants_fixed db db' → turn_wf db → turn_wf db'.
Proof.
  intros Hfo Hwf Hac Ha Hp Ht.
  destruct (act_spec _ _ _ _ _ _ _ _ _ _ _ _ _ Hfo Hwf Hac Ha) as (_ & Hfr & Ho & Hnext).
  destruct (next_turn svc s f db); [|by destruct Hnext as [_ Hs]; apply (turn_wf_same db)].
  destruct Hnext as ((s' & x & Hs' & _ & Hlt & [Htok _] & _) & _).
  apply (turn_wf_replace db db' (VetoSession.id s)); try done.
  intros y Hy. right. rewrite Hs' in Hy. injection Hy as <-. split; [done|].
  pose proof (ac_cursor _ _ _ _ _ _ Hac). lia.
Qed.

Lemma create_session_sessions match_id f pool timeout mode db :
  ∃ sid, (∀ other, other ≠ sid →
      Db.veto_sessions (create_session svc match_id f pool timeout mode db).2 !! other =
      Db.veto_sessions db !! other) ∧
    ∀ s, Db.veto_sessions (create_session svc match_id f pool timeout mode db).2 !! sid = Some s →
      Db.veto_sessions db !! sid = Some s ∨
      VetoSession.status s = VetoStatus.Pending ∧ VetoSession.first_action_registration_id s = None.
Proof.
  exists (Db.next_uuid db).
  destruct (create_session svc match_id f pool timeout mode db) as [r db'] eqn:Hr. cbn [snd].
  unfold create_session, get_veto_match, find_match_by_id, find_veto_session_by_match in Hr.
  unfold mbind at 1 2, mread in Hr.
  destruct (Db.matches db !! match_id) as [m|]; [|injection Hr as <- <-; auto]. cbn [mret] in Hr.
  destruct (negb _); [injection Hr as <- <-; auto|]. case_bool_decide; [injection Hr as <- <-; auto|].
  unfold mbind at 1 in Hr.
  destruct (session_of_match match_id db) eqn:Hno; [injection Hr as <- <-; auto|].
  unfold mbind at 1, create_veto_session in Hr. cbn [CreateVetoSession.match_id] in Hr. rewrite Hno in Hr.
  set (s := inserted_veto_session _ _ _) in Hr.
  set (db1 := db <| Db.next_uuid := _ |> <| Db.veto_sessions := _ |>) in Hr.
  assert (Db.veto_sessions db' = <[Db.next_uuid db := s]> (Db.veto_sessions db)) as Hdb'.
  { destruct (update_match_only match_id (λ now m,
      m <| TournamentMatch.veto_required := true |> <| TournamentMatch.updated_at := now |>) db1).
    unfold mbind, set_veto_required in Hr.
    destruct (update_match _ _ db1) as [[y|e] db2]; injection Hr as <- <-; done. }
  rewrite Hdb'. split; [intros other Hne; by rewrite lookup_insert_ne|].
  intros s1. rewrite lookup_insert_eq. intros [= <-]. by right.
Qed.

Lemma start_session_turns sid db :
  formats_ok svc → veto_wf svc db → turn_wf db →
  participants_fixed db (start_session svc sid db).2 → turn_wf (start_session svc sid db).2.
Proof.
  intros Hfo Hwf Ht. destruct (start_session svc sid db) as [r db'] eqn:Hr. cbn [snd]. intros Hp.
  unfold start_session, mbind at 1 in Hr. rewrite get_veto_session_run in Hr.
  destruct (Db.veto_sessions db !! sid) as [s|] eqn:Hs; [|by injection Hr as <- <-].
  pose proof (sw_status _ _ _ (vw_session _ _ Hwf _ _ Hs)) as Hn.
  destruct (VetoSession.status s) eqn:Hst; try by injection Hr as <- <-.
  cbn [VetoStatus.can_start negb] in Hr. unfold mbind at 1, mlift in Hr.
  destruct (get_format svc (VetoSession.veto_format_id s)) as [f|] eqn:Hf; [|by injection Hr as <- <-].
  unfold mbind at 1, mread in Hr.
  destruct (Ht _ _ Hs) as [_ Hfirst]. specialize (Hfirst Hn).
  destruct (VetoFormatConfig.has_team_actions f) eqn:Hteam; cbn [negb] in Hr;
    rewrite (update_veto_session_found _ _ _ _ Hs) in Hr; injection Hr as <- <-;
    (eapply (turn_wf_replace db _ sid); [done|done| |]; cbn [Db.veto_sessions setter];
     [intros other Hne; by rewrite lookup_insert_ne|]);
    intros s1; rewrite lookup_insert_eq; intros [= <-]; right.
  - split; [by apply turn_ok_idle|done].
  - split; [|done]. intros _ f' fa m Hf' Hfa Hm.
    change (get_format svc (VetoSession.veto_format_id s) = Ok f') in Hf'. rewrite Hf in Hf'.
    injection Hf' as <-. change (VetoFormatConfig.sequence f !! 0%nat = Some fa) in Hfa.
    assert (VetoFormatActionConfig.team fa = 0) as H0.
    { unfold VetoFormatConfig.has_team_actions in Hteam. rewrite <- not_true_iff_false, existsb_exists in Hteam.
      destruct (decide (VetoFormatActionConfig.team fa = 0)) as [|Hne]; [done|]. exfalso. apply Hteam.
      exists fa. split; [|by rewrite bool_decide_false].
      apply list_elem_of_In. by eapply list_elem_of_lookup_2. }
    unfold due_team. rewrite bool_decide_false by lia. cbn. by rewrite Hfirst.
Qed.

Lemma record_coin_flip_turns sid winner first db :
  opens_with_first → turn_wf db →
  participants_fixed db (record_coin_flip sid winner first db).2 →
  turn_wf (record_coin_flip sid winner first db).2.
Proof.
  intros Hfirst Ht. destruct (record_coin_flip sid winner first db) as [r db'] eqn:Hr. cbn [snd]. intros Hp.
  unfold record_coin_flip, mbind at 1 in Hr. rewrite get_veto_session_run in Hr.
  destruct (Db.veto_sessions db !! sid) as [s|] eqn:Hs; [|by injection Hr as <- <-].
  destruct (negb _); [by injection Hr as <- <-|]. case_bool_decide; [by injection Hr as <- <-|].
  unfold get_veto_match, find_match_by_id, mread in Hr. unfold mbind at 1 2 in Hr.
  destruct (Db.matches db !! _) as [m|]; [|by injection Hr as <- <-]. cbn [mret] in Hr.
  destruct (negb _); [by injection Hr as <- <-|]. unfold mbind at 1 in Hr.
  match type of Hr with context [match ?c db with _ => _ end] =>
    assert ((c db).2 = db) as Hc by (destruct first; [done|]; unfold some_or; by destruct (if bool_decide _ then _ else _));
    destruct (c db) as [[fa|e] db1]; cbn in Hc; subst db1 end; [|by injection Hr as <- <-].
  unfold mbind in Hr. rewrite (update_veto_session_found _ _ _ _ Hs) in Hr. injection Hr as <- <-.
  eapply (turn_wf_replace db _ sid); [done|done| |]; cbn [Db.veto_sessions setter];
    [intros other Hne; by rewrite lookup_insert_ne|].
  intros s1. rewrite lookup_insert_eq. intros [= <-]. right. split; [|done].
  intros _ f act m' Hf Hact _. change (get_format svc (VetoSession.veto_format_id s) = Ok f) in Hf.
  change (VetoFormatConfig.sequence f !! 0%nat = Some act) in Hact.
  rewrite <- head_lookup in Hact. pose proof (Hfirst _ _ _ Hf Hact).
  unfold due_team. by rewrite bool_decide_false.
Qed.

Lemma run_call_turns c db :
  formats_ok svc → opens_with_first → fair_call c → veto_wf svc db → turn_wf db →
  participants_fixed db (run_call svc c db) → turn_wf (run_call svc c db).
Proof.
  intros Hfo Hof Hfair Hwf Ht. destruct c; cbn [run_call]; intros Hp.
  - destruct (create_session_sessions match_id veto_format map_pool timeout_seconds mode db)
      as (sid & Ho & Hs). apply (turn_wf_replace db _ sid); try done.
    intros s Hs'. destruct (Hs _ Hs') as [?|[Hst ?]]; [by left|]. right. split; [|done].
    apply turn_ok_idle. by rewrite Hst.
  - by apply start_session_turns.
  - by apply record_coin_flip_turns.
  - destruct (perform_action svc chance session_id map_id acting_for user db) as [r db'] eqn:Hr.
    destruct (perform_action_inv _ _ _ _ _ _ _ _ _ Hwf Hr) as [[-> _]|(s & f & fa & _ & Hac & _ & _ & Ha)];
      [done|]. by apply (act_turns _ _ _ _ _ _ _ _ _ _ _ _ Hfo Hwf Hac Ha).
  - destruct (perform_wheel_action svc chance session_id map_id expected db) as [r db'] eqn:Hr.
    destruct (perform_wheel_action_inv _ _ _ _ _ _ _ _ Hwf Hr) as [[-> _]|(s & f & fa & _ & Hac & _ & _ & Ha)];
      [done|]. destruct (record_spec _ _ _ _ _ _ _ _ _ _ _ _ _ Hfo Hwf Hac Ha) as [Hfr Hnext].
    destruct (next_turn svc s f db) eqn:Hnt; [|destruct Hnext as (_ & _ & Hs); by apply (turn_wf_same db)].
    destruct Hnext as (x & res & _ & Hrec & _). pose proof (ac_cursor _ _ _ _ _ _ Hac) as Hn.
    pose proof (recorded_turn_ok _ _ _ _ _ _ _ _ Hfo (ac_format _ _ _ _ _ _ Hac) Hn Hnt Hrec) as Htok.
    destruct Hrec as [_ _ Had Hs _ _ _ _ _].
    apply (turn_wf_replace db db' (VetoSession.id s)); try done; rewrite Hs.
    + intros other Hne. by rewrite lookup_insert_ne.
    + intros y. rewrite lookup_insert_eq. intros [= <-]. right.
      split; [eapply turn_ok_matches; [apply Hfr|done]|]. rewrite (ad_number _ _ _ _ Had). lia.
  - destruct (cancel_session_for_match match_id db) as [r db'] eqn:Hr. cbn [snd] in *.
    unfold cancel_session_for_match, find_veto_session_by_match, mread, mbind at 1 in Hr.
    destruct (session_of_match match_id db) as [s|] eqn:Hs; [|by injection Hr as <- <-].
    destruct (session_of_match_some _ _ _ Hs) as (_ & sid & Hsid).
    pose proof (vw_id _ _ Hwf _ _ Hsid). subst sid.
    destruct (VetoSession.is_terminal s); [by injection Hr as <- <-|].
    unfold mbind, update_veto_status, write_veto_session in Hr. rewrite Hsid in Hr. injection Hr as <- <-.
    eapply (turn_wf_replace db _ (VetoSession.id s)); [done|done| |]; cbn [Db.veto_sessions setter];
      [intros other Hne; by rewrite lookup_insert_ne|].
    intros s1. rewrite lookup_insert_eq. intros [= <-]. right. split; [by apply turn_ok_idle|].
    exact (proj2 (Ht _ _ Hsid)).
  - destruct (process_timeout svc chance session_id db) as [r db'] eqn:Hr.
    destruct (process_timeout_inv _ _ _ _ _ _ Hfair Hwf Hr) as [[-> _]|(s & f & fa & m & _ & Hac & _ & Ha)];
      [done|]. by apply (act_turns _ _ _ _ _ _ _ _ _ _ _ _ Hfo Hwf Hac Ha).
  - pose proof (select_side_quiet session_id action_number side acting_for user db) as [Hs _ _ _ _].
    by apply (turn_wf_same db).
Qed.

Lemma veto_step_turns db db' :
  formats_ok svc → opens_with_first → veto_step svc db db' → participants_fixed db db' →
  veto_wf svc db → turn_wf db → turn_wf db'.
Proof.
  intros Hfo Hof [c db0 Hc|s f fa m bt bu auto reason db0 Hac|db0 db0' Hs ? ?] Hp Hwf Ht.
  - by apply run_call_turns.
  - destruct (create_veto_action _ db0) as [r db1] eqn:Hr.
    destruct (record_create _ _ _ _ _ _ _ _ _ _ _ _ Hfo Hwf Hac Hr) as (x & _ & _ & Hs & _).
    by apply (turn_wf_same db0).
  - by apply (turn_wf_same db0).
Qed.

(** While the participants of the match stay, the team whose turn is stored is
    always the one the format names for the next action, counted from the team
    that won the choice to begin. *)
Theorem veto_turns db0 db sid s f fa m :
  formats_ok svc → opens_with_first → no_vetoes db0 →
  rtc (λ a b, veto_step svc a b ∧ participants_fixed a b) db0 db →
  Db.veto_sessions db !! sid = Some s → VetoSession.status s = VetoStatus.InProgress →
  get_format svc (VetoSession.veto_format_id s) = Ok f →
  VetoFormatConfig.get_action f (VetoSession.current_action_number s - 1) = Some fa →
  Db.matches db !! VetoSession.match_id s = Some m →
  VetoSession.current_team_turn s = due_team m s (VetoFormatActionConfig.team fa).
Proof.
  intros Hfo Hof H0 Hr. assert (veto_wf svc db ∧ turn_wf db) as [_ Ht].
  { assert (veto_wf svc db0 ∧ turn_wf db0) as Hinit.
    { split; [by apply no_vetoes_wf|]. intros sid' s'. destruct H0 as [-> _]. by rewrite lookup_empty. }
    clear H0. induction Hr as [|a b c [Hstep Hp] _ IH]; [done|]. apply IH. destruct Hinit.
    split; [by eapply veto_step_wf|by eapply veto_step_turns]. }
  intros Hs Hst Hf Hfa Hm. destruct (Ht _ _ Hs) as [Htok _]. by apply (Htok Hst f).
Qed.

(** ** An interrupted action *)

(** A process that dies after writing the row of an action, before the session is
    updated, loses nothing: whoever acts next in the same turn, whatever map
    they name, gets the outcome of the interrupted action. *)
Theorem interrupted_action_resumed chance s f fa m m' team user user' db :
  formats_ok svc → veto_wf svc db → acting svc s f fa m db →
  VetoSession.status s = VetoStatus.InProgress → VetoSession.current_team_turn s = Some team →
  m' ∈ VetoSession.remaining_maps s →
  let cmd := CreateVetoAction.mk (VetoSession.id s) (VetoSession.current_action_number s)
    (VetoFormatActionConfig.action_type fa) m (Some team) (Some user) false None in
  perform_action svc chance (VetoSession.id s) m' team user' (create_veto_action cmd db).2 =
  perform_action svc chance (VetoSession.id s) m team user db.
Proof.
  intros Hfo Hwf Hac Hst Ht Hm' cmd.
  destruct (create_veto_action cmd db) as [r db1] eqn:Hc. cbn [snd].
  destruct (record_create _ _ _ _ _ _ _ _ _ _ _ _ Hfo Hwf Hac Hc) as (x & -> & _ & Hs1 & _).
  destruct Hac as [Hs Hf Hfa Hn Hm].
  assert (∀ db2 m2 user2, Db.veto_sessions db2 = Db.veto_sessions db → m2 ∈ VetoSession.remaining_maps s →
    perform_action svc chance (VetoSession.id s) m2 team user2 db2 =
    (let* result := record_action_internal chance s f fa m2 (Some team) (Some user2) false None in
     chain_deciders chance (VetoSession.id s) f result) db2) as Hrun.
  { intros db2 m2 user2 Hs2 Hm2. unfold perform_action, mbind at 1. rewrite get_veto_session_run, Hs2, Hs, Hst.
    cbn [VetoStatus.can_act negb]. unfold VetoSession.is_map_available.
    rewrite bool_decide_true by done. cbn [negb]. rewrite Ht.
    unfold mbind at 1, some_or at 1, mret at 1. rewrite bool_decide_true by done. cbn [negb].
    unfold mbind at 1, mlift. rewrite Hf. unfold mbind at 1, current_format_action, some_or.
    by rewrite Hfa. }
  rewrite !Hrun by done.
  assert (record_action_internal chance s f fa m' (Some team) (Some user') false None db1 =
    record_action_internal chance s f fa m (Some team) (Some user) false None db) as He.
  { unfold record_action_internal.
    by rewrite (mbind_step _ _ _ _ _ (create_veto_action_again cmd (CreateVetoAction.mk _ _ _ m' (Some team) (Some user') false None)
      _ _ _ eq_refl eq_refl Hc)), (mbind_step _ _ _ _ _ Hc). }
  unfold mbind. by rewrite He.
Qed.

(** ** A started veto ends *)

(** Nobody acts: the clock passes the deadline and the timeout is processed. *)
Definition past_deadline (sid : VetoSessionId) (db : Db.t) : Db.t :=
  db <| Db.now := match Db.veto_sessions db !! sid ≫= VetoSession.action_deadline with
    | Some deadline => Z.max (Db.now db) (deadline + 1)
    | None => Db.now db
    end |>.
Definition expire (sid : VetoSessionId) (db : Db.t) (chance : Chance.t) : Db.t :=
  (process_timeout svc chance sid (past_deadline sid db)).2.
Definition expire_all (sid : VetoSessionId) (chances : list Chance.t) (db : Db.t) : Db.t :=
  fold_left (expire sid) chances db.

(** Every action belongs to a team or to nobody, and runs against the clock. *)
Definition timed_format (f : VetoFormatConfig.t) : Prop :=
  Forall (λ a, (VetoFormatActionConfig.team a = 0 ∨ VetoFormatActionConfig.team a = 1 ∨
                VetoFormatActionConfig.team a = 2) ∧
               VetoFormatActionConfig.action_type a ≠ VetoActionType.Random)
    (VetoFormatConfig.sequence f).

Lemma fresh_element (pool l : list string) :
  (length l < length (remove_dups pool))%nat → ∃ m, m ∈ pool ∧ m ∉ l.
Proof.
  intros Hlt.
  destruct (decide (Exists (λ m, m ∉ l) pool)) as [(m & Hm & Hno)%Exists_exists|Hall]; [eauto|].
  exfalso. apply not_Exists_Forall in Hall; [|apply _]. rewrite Forall_forall in Hall.
  assert (remove_dups pool ⊆+ l) as Hsub%submseteq_length; [|lia].
  apply NoDup_submseteq; [apply NoDup_remove_dups|]. intros m Hm%elem_of_remove_dups%Hall.
  by destruct (decide (m ∈ l)).
Qed.

(** A session waiting for its deadline, in a match that can be decided. *)
Record waiting (sid : VetoSessionId) (f : VetoFormatConfig.t) (s : VetoSession.t) (db : Db.t) : Prop := {
  wa_stored : Db.veto_sessions db !! sid = Some s;
  wa_format : get_format svc (VetoSession.veto_format_id s) = Ok f;
  wa_match : ∃ m, Db.matches db !! VetoSession.match_id s = Some m ∧
    TournamentMatch.has_both_participants m = true;
  wa_first : is_Some (VetoSession.first_action_registration_id s);
  wa_pool : (length (VetoFormatConfig.sequence f) ≤
             length (remove_dups (VetoSession.map_pool s)))%nat;
  wa_deadline : is_Some (VetoSession.action_deadline s);
}.

Lemma next_turn_known f s db m :
  timed_format f → get_format svc (VetoSession.veto_format_id s) = Ok f →
  0 ≤ VetoSession.current_action_number s →
  Db.matches db !! VetoSession.match_id s = Some m → TournamentMatch.has_both_participants m = true →
  is_Some (VetoSession.first_action_registration_id s) →
  is_Some (match next_turn svc s f db with Ok t => Some t | Err _ => None end).
Proof.
  intros Hf Hfmt Hn Hm Hboth [first Hfirst]. unfold next_turn.
  destruct (types_of_ok _ _ _ Hfmt) as [_ Hsl]. case_bool_decide as Hle; [eexists; reflexivity|].
  destruct (VetoFormatConfig.get_action f (VetoSession.current_action_number s)) as [fa|] eqn:Hfa;
    [|apply lookup_ge_None in Hfa; lia].
  unfold timed_format in Hf. rewrite Forall_forall in Hf.
  destruct (Hf fa) as [Hteam _]; [by eapply list_elem_of_lookup_2|].
  unfold determine_next_team, get_veto_match, find_match_by_id, mread, some_or, mbind.
  cbn. case_bool_decide; [eexists; reflexivity|]. unfold mbind. rewrite Hm. cbn.
  unfold TournamentMatch.has_both_participants in Hboth. apply andb_true_iff in Hboth as [H1 H2].
  destruct (TournamentMatch.participant1_registration_id m); [|done].
  destruct (TournamentMatch.participant2_registration_id m); [|done]. cbn. rewrite Hfirst. cbn.
  repeat case_bool_decide; try (eexists; reflexivity); lia.
Qed.

Lemma expire_waiting chance sid f s db :
  formats_ok svc → Chance.fair chance → timed_format f → veto_wf svc db → waiting sid f s db →
  veto_wf svc (expire sid db chance) ∧
  ∃ s', VetoSession.current_action_number s < VetoSession.current_action_number s' ∧ chained s s' ∧
    VetoSession.is_cancelled s' = false ∧
    (waiting sid f s' (expire sid db chance) ∨
     Db.veto_sessions (expire sid db chance) !! sid = Some s' ∧
     VetoSession.status s' = VetoStatus.Completed).
Proof.
  intros Hfo Hfair Htf Hwf [Hs Hf (m & Hm & Hboth) Hfirst Hpool [dl Hdl]].
  unfold expire, past_deadline. rewrite Hs. change (Some s ≫= VetoSession.action_deadline)
    with (VetoSession.action_deadline s). rewrite Hdl.
  set (db1 := db <| Db.now := _ |>).
  assert (veto_wf svc db1) as Hwf1 by (by apply (veto_wf_same svc db); [..|cbn; lia|]).
  pose proof (vw_session _ _ Hwf _ _ Hs) as Hsw. pose proof (vw_id _ _ Hwf _ _ Hs) as Hid.
  destruct (sw_deadline _ _ _ Hsw) as [_ Hn]; [by rewrite Hdl|].
  destruct (types_of_ok _ _ _ Hf) as [_ Hsl].
  destruct (fresh_element (VetoSession.map_pool s) (VetoAction.map_id <$> done_actions s (log sid db)))
    as (m0 & Hm0 & Hm0').
  { rewrite length_fmap. unfold done_actions. rewrite length_take. lia. }
  destruct (Chance.choose_some _ Hfair (VetoSession.remaining_maps s)) as [m1 Hm1].
  { intros He. assert (m0 ∈ VetoSession.remaining_maps s) as Hin.
    { rewrite (sw_remaining _ _ _ Hsw). by apply list_elem_of_filter. }
    rewrite He in Hin. by apply elem_of_nil in Hin. }
  destruct (VetoFormatConfig.get_action f (action_index (VetoSession.current_action_number s)))
    as [fa|] eqn:Hfa.
  2:{ apply lookup_ge_None in Hfa. unfold action_index in Hfa. lia. }
  assert (acting svc s f fa m1 db1) as Hac.
  { split; rewrite ?Hid; try done; [lia|]. by apply (Chance.choose_elem _ Hfair). }
  assert (process_timeout svc chance sid db1 =
    (let* result := record_action_internal chance s f fa m1 (VetoSession.current_team_turn s) None true
                      (Some "timeout") in
     chain_deciders chance (VetoSession.id s) f result) db1) as ->.
  { unfold process_timeout, mbind at 1. rewrite get_veto_session_run.
    change (Db.veto_sessions db1) with (Db.veto_sessions db). rewrite Hs.
    unfold mbind at 1, mread. unfold VetoSession.is_timed_out. rewrite Hdl.
    rewrite bool_decide_true by (cbn; lia). cbn [negb].
    unfold mbind at 1, some_or at 1. rewrite Hm1. unfold mret at 1. unfold mbind at 1, mlift. rewrite Hf.
    unfold mbind at 1, current_format_action, some_or. rewrite Hfa. by rewrite Hid. }
  match goal with |- context [?p.2] => destruct p as [r db'] eqn:Ha end. cbn [snd].
  destruct (act_spec _ _ _ _ _ _ _ _ _ _ _ _ _ Hfo Hwf1 Hac Ha) as (Hwf' & Hfr & _ & Hnext).
  split; [done|].
  destruct (next_turn_known f s db1 m Htf Hf) as [turn Hnt]; [lia|done..|].
  destruct (next_turn svc s f db1) as [t|]; [|done].
  destruct Hnext as ((s' & x & Hs' & Hch & Hlt & [_ Hset] & _) & _). rewrite Hid in Hs'.
  exists s'. split; [done|]. split; [done|]. unfold VetoSession.is_cancelled.
  destruct Hset as [Hc|[Hip Hd]]; [rewrite Hc; split; [done|]; by right|].
  split; [by rewrite Hip|]. left.
  pose proof (sw_status _ _ _ (vw_session _ _ Hwf' _ _ Hs')) as Hn'. rewrite Hip in Hn'.
  assert (get_format svc (VetoSession.veto_format_id s') = Ok f) as Hf' by by rewrite (ch_format _ _ Hch).
  split; try done.
  - exists m. rewrite (ch_match _ _ Hch), (vf_matches _ _ Hfr). done.
  - by rewrite (ch_first _ _ Hch).
  - by rewrite (ch_pool _ _ Hch).
  - destruct (VetoSession.action_deadline s') eqn:Hd'; [done|]. exfalso. specialize (Hd eq_refl).
    destruct (types_of_ok _ _ _ Hf') as [Ht' _]. rewrite Ht', list_lookup_fmap in Hd.
    apply fmap_Some in Hd as (a & Ha' & Hty). unfold timed_format in Htf. rewrite Forall_forall in Htf.
    apply list_elem_of_lookup_2 in Ha'. by destruct (Htf _ Ha').
Qed.

Lemma expire_completed sid chances db s :
  veto_wf svc db → Db.veto_sessions db !! sid = Some s → VetoSession.status s = VetoStatus.Completed →
  Db.veto_sessions (expire_all sid chances db) !! sid = Some s.
Proof.
  intros Hwf Hs Hst. assert (VetoSession.action_deadline s = None) as Hd.
  { destruct (VetoSession.action_deadline s) eqn:Hd; [|done].
    destruct (sw_deadline _ _ _ (vw_session _ _ Hwf _ _ Hs)); [by rewrite Hd|done]. }
  clear Hwf. revert db Hs. induction chances as [|c chances IH]; intros db Hs; [done|]. cbn.
  apply IH. unfold expire, past_deadline. rewrite Hs. change (Some s ≫= VetoSession.action_deadline)
    with (VetoSession.action_deadline s). rewrite Hd.
  unfold process_timeout, mbind at 1. rewrite get_veto_session_run. cbn [Db.veto_sessions setter].
  rewrite Hs. unfold mbind, mread, VetoSession.is_timed_out. by rewrite Hd.
Qed.


(** A cancelled session keeps its deadline, and the timeout does not look at the
    status: the session comes back to life. *)
Lemma cancelled_session_revived chance sid f s db :
  formats_ok svc → Chance.fair chance → timed_format f → veto_wf svc db → waiting sid f s db →
  VetoSession.is_terminal s = false →
  let cancelled := (cancel_session_for_match (VetoSession.match_id s) db).2 in
  (∃ s1, Db.veto_sessions cancelled !! sid = Some s1 ∧ VetoSession.status s1 = VetoStatus.Cancelled) ∧
  ∃ s2, Db.veto_sessions (expire sid cancelled chance) !! sid = Some s2 ∧
    VetoSession.is_cancelled s2 = false.
Proof.
  intros Hfo Hfair Htf Hwf Hw Hnt cancelled. pose proof (wa_stored _ _ _ _ Hw) as Hs.
  pose proof (vw_id _ _ Hwf _ _ Hs) as Hid.
  assert (session_of_match (VetoSession.match_id s) db = Some s) as Hfind.
  { destruct (session_of_match (VetoSession.match_id s) db) as [y|] eqn:Hy.
    - destruct (session_of_match_some _ _ _ Hy) as (Hmy & sid' & Hsid').
      assert (sid' = sid) as -> by (by eapply (vw_unique _ _ Hwf)). congruence.
    - by destruct (session_of_match_none _ _ _ _ Hy Hs). }
  set (s1 := s <| VetoSession.status := VetoStatus.Cancelled |> <| VetoSession.updated_at := Db.now db |>).
  assert (cancelled = db <| Db.veto_sessions := <[sid := s1]> (Db.veto_sessions db) |>) as Hc.
  { unfold cancelled, cancel_session_for_match, find_veto_session_by_match, mbind at 1, mread.
    rewrite Hfind, Hnt. unfold mbind, update_veto_status, write_veto_session. by rewrite Hid, Hs. }
  assert (Db.veto_sessions cancelled !! sid = Some s1) as Hs1.
  { rewrite Hc. cbn [Db.veto_sessions setter]. by rewrite lookup_insert_eq. }
  split; [by exists s1|].
  assert (veto_wf svc cancelled) as Hwfc by by apply cancel_session_wf.
  assert (waiting sid f s1 cancelled) as Hw1 by (destruct Hw; split; [exact Hs1|rewrite ?Hc; done..]).
  destruct (expire_waiting _ _ _ _ _ Hfo Hfair Htf Hwfc Hw1) as (_ & s2 & _ & _ & Hal & [Hw2|[Hs2 _]]);
    exists s2; split; try done. apply Hw2.
Qed.

(** ** What clients see *)

Lemma find_by_map (l : list VetoAction.t) m :
  match snd <$> list_find (λ a, VetoAction.map_id a = m) l with
  | Some a => a ∈ l ∧ VetoAction.map_id a = m
  | None => m ∉ VetoAction.map_id <$> l
  end.
Proof.
  destruct (list_find _ l) as [[i a]|] eqn:Hf; cbn.
  - apply list_find_Some in Hf as (Hi & Hm & _). eauto using list_elem_of_lookup_2.
  - apply list_find_None in Hf. rewrite Forall_forall in Hf.
    intros (a & -> & Ha)%list_elem_of_fmap. by apply (Hf _ Ha).
Qed.

Lemma game_number_spec s m g :
  NoDup (VetoSession.selected_maps s) →
  game_number_of s m = Some g ↔ 1 ≤ g ∧ VetoSession.selected_maps s !! Z.to_nat (g - 1) = Some m.
Proof.
  intros Hnd. unfold game_number_of. split.
  - intros ((i & m') & Hf & ->)%fmap_Some. apply list_find_Some in Hf as (Hi & <- & _).
    split; [lia|]. by replace (Z.to_nat (Z.of_nat i + 1 - 1)) with i by lia.
  - intros [Hg Hl].
    destruct (list_find_elem_of (λ x, x = m) (VetoSession.selected_maps s) m) as [[i m'] Hf];
      [by eapply list_elem_of_lookup_2|done|].
    rewrite Hf. cbn. apply list_find_Some in Hf as (Hi & -> & _).
    rewrite (NoDup_lookup _ _ _ _ Hnd Hi Hl). f_equal. lia.
Qed.

Lemma same_map (l : list VetoAction.t) a b :
  NoDup (VetoAction.map_id <$> l) → a ∈ l → b ∈ l → VetoAction.map_id a = VetoAction.map_id b → a = b.
Proof.
  intros Hnd [i Hi]%list_elem_of_lookup [j Hj]%list_elem_of_lookup Hm.
  enough (i = j) by congruence.
  eapply NoDup_lookup; [exact Hnd|by rewrite list_lookup_fmap, Hi|by rewrite list_lookup_fmap, Hj, Hm].
Qed.

(** The board shown to clients lists the pool in order, marks a map available
    exactly when it remains, and numbers the games by the selected maps. *)
Theorem map_board_spec db0 db sid s :
  formats_ok svc → no_vetoes db0 → rtc (veto_step svc) db0 db →
  Db.veto_sessions db !! sid = Some s →
  let actions := actions_of_session sid db in
  let board := build_map_status s actions in
  actions = used_maps db s →
  MapStatus.map_id <$> board = VetoSession.map_pool s ∧
  ∀ e, e ∈ board →
    (MapStatus.status e = MapVetoStatus.Available ↔ MapStatus.map_id e ∈ VetoSession.remaining_maps s) ∧
    ∀ g, MapStatus.game_number e = Some g ↔
      1 ≤ g ∧ VetoSession.selected_maps s !! Z.to_nat (g - 1) = Some (MapStatus.map_id e).
Proof.
  intros Hfo H0 Hr Hs actions board Hdone.
  destruct (veto_pool_facts _ _ _ _ Hfo H0 Hr Hs) as (_ & _ & _ & _ & Hnd & _ & Hrem & Hsel).
  fold actions in Hnd. rewrite <- Hdone in Hrem, Hsel.
  assert (NoDup (VetoSession.selected_maps s)) as Hnds.
  { rewrite Hsel. eapply sublist_NoDup; [exact Hnd|]. apply fmap_sublist, sublist_filter. }
  split.
  { unfold board, build_map_status. rewrite <- list_fmap_compose.
    rewrite <- (list_fmap_id (VetoSession.map_pool s)) at 2. apply list_fmap_ext. intros i m _. cbn.
    by destruct (status_of_map s actions m) as [[[? ?] ?] ?]. }
  intros e (m & -> & Hm)%list_elem_of_fmap. unfold status_of_map.
  pose proof (find_by_map actions m) as Hf.
  destruct (snd <$> list_find _ actions) as [a|].
  - destruct Hf as [Ha Hma].
    assert (m ∉ VetoSession.remaining_maps s) as Hno.
    { rewrite Hrem. intros [Hno _]%list_elem_of_filter. apply Hno. rewrite <- Hma. by apply list_elem_of_fmap_2. }
    destruct (VetoAction.action_type a) eqn:Hty; cbn; (split; [by split|]); intros g;
      try apply game_number_spec; try done.
    split; [done|]. intros [_ Hl%list_elem_of_lookup_2]. exfalso.
    rewrite Hsel in Hl. apply list_elem_of_fmap in Hl as (b & Hb1 & [Hb2 Hb3]%list_elem_of_filter).
    assert (a = b) as <- by (apply (same_map actions); [done..|congruence]). by rewrite Hty in Hb2.
  - assert (m ∈ VetoSession.remaining_maps s) as Hin by (rewrite Hrem; by apply list_elem_of_filter).
    rewrite bool_decide_true by done. cbn. split; [done|]. intros g. split; [done|].
    intros [_ Hl%list_elem_of_lookup_2]. exfalso. apply Hf.
    rewrite Hsel in Hl. apply list_elem_of_fmap in Hl as (b & -> & [_ Hb]%list_elem_of_filter).
    by apply list_elem_of_fmap_2.
Qed.
End veto.

(** ** Witnesses: a Bo3 veto between registrations 1 and 2 *)

#[local] Existing Instance sample_platform.
Definition veto_db0 : Db.t :=
  sample_db [sample_row 1 1 1 1 "R1M1" (None, None) (Some 1%N, Some 2%N)] [] [].
Definition sample_chance : Chance.t := Chance.mk head None true.
Definition opening : list veto_call :=
  [CreateSession 1 VetoFormatConfig.bo3 sample_pool None SideSelectionMode.Knife;
   StartSession 1000; RecordCoinFlip 1000 1 true].
Definition sample_act (m : string) (team : N) : veto_call := PerformAction sample_chance 1000 m team 7.
Definition whole_veto : list veto_call :=
  opening ++ [sample_act "ancient" 1; sample_act "anubis" 2; sample_act "dust2" 1;
              sample_act "inferno" 2; sample_act "mirage" 1; sample_act "nuke" 2].
Definition run_calls (cs : list veto_call) (db : Db.t) : Db.t :=
  fold_left (λ db c, run_call VetoService.new c db) cs db.

Lemma sample_chance_fair : Chance.fair sample_chance.
Proof. split; [intros l x; apply head_Some_elem_of|]. intros [|x l] ?; [done|by eexists]. Qed.

Lemma builtin_opens_with_first : opens_with_first VetoService.new.
Proof.
  intros format_id f fa Hf Hh. pose proof (builtin_opens _ _ Hf) as Ho.
  destruct (VetoFormatConfig.sequence f) as [|a l]; [done|]. injection Hh as ->.
  by apply bool_decide_eq_true in Ho.
Qed.

Lemma run_calls_reachable cs db :
  Forall fair_call cs → rtc (veto_step VetoService.new) db (run_calls cs db).
Proof.
  intros Hcs. revert db. induction Hcs as [|c cs Hc _ IH]; intros db; [done|].
  eapply rtc_l; [by apply (step_call _ c)|apply IH].
Qed.

Definition participants (m : TournamentMatch.t) :=
  (TournamentMatch.participant1_registration_id m, TournamentMatch.participant2_registration_id m).

Fixpoint keeps_participants (cs : list veto_call) (db : Db.t) : Prop :=
  match cs with
  | [] => True
  | c :: cs =>
      let db' := run_call VetoService.new c db in
      participants <$> Db.matches db' = participants <$> Db.matches db ∧ keeps_participants cs db'
  end.

Lemma run_calls_fixed cs db :
  Forall fair_call cs → keeps_participants cs db →
  rtc (λ a b, veto_step VetoService.new a b ∧ participants_fixed a b) db (run_calls cs db).
Proof.
  intros Hcs. revert db. induction Hcs as [|c cs Hc _ IH]; intros db Hk; [done|].
  destruct Hk as [Hm Hk]. eapply rtc_l; [|by apply IH]. split; [by apply (step_call _ c)|].
  intros sid s m' _ Hm'.
  assert ((participants <$> Db.matches (run_call VetoService.new c db)) !! VetoSession.match_id s =
    Some (participants m')) as Hp by by rewrite lookup_fmap, Hm'.
  rewrite Hm, lookup_fmap in Hp. apply fmap_Some in Hp as (m & -> & Hp). exists m. split; [done|].
  by injection Hp.
Qed.

Example veto_partition_witness :
  ∃ s, Db.veto_sessions (run_calls (take 6 whole_veto) veto_db0) !! 1000%N = Some s ∧
    NoDup (VetoAction.map_id <$> actions_of_session 1000 (run_calls (take 6 whole_veto) veto_db0)).
Proof.
  eexists. split; [vm_compute; reflexivity|].
  eapply (veto_partition VetoService.new veto_db0 _ 1000);
    [apply builtin_formats_ok|by split|apply run_calls_reachable; by repeat constructor|vm_compute; reflexivity].
Defined.

Example veto_completed_maps_witness :
  ∃ s, Db.veto_sessions (run_calls whole_veto veto_db0) !! 1000%N = Some s ∧
    VetoSession.selected_count s = VetoFormatConfig.maps_selected VetoFormatConfig.bo3.
Proof.
  eexists. split; [vm_compute; reflexivity|].
  eapply (veto_completed_maps VetoService.new veto_db0 (run_calls whole_veto veto_db0) 1000);
    [apply builtin_formats_ok|by split|apply run_calls_reachable; by repeat constructor
    |vm_compute; reflexivity|reflexivity|reflexivity].
Defined.

Example veto_turns_witness :
  ∃ s, Db.veto_sessions (run_calls (take 4 whole_veto) veto_db0) !! 1000%N = Some s ∧
    VetoSession.current_team_turn s = Some 2%N.
Proof.
  eexists. split; [vm_compute; reflexivity|].
  etransitivity; [eapply (veto_turns VetoService.new veto_db0 (run_calls (take 4 whole_veto) veto_db0) 1000)|].
  - apply builtin_formats_ok.
  - apply builtin_opens_with_first.
  - by split.
  - apply run_calls_fixed; [by repeat constructor|].
    do 4 (refine (conj _ _); [vm_compute; reflexivity|]). exact I.
  - vm_compute; reflexivity.
  - reflexivity.
  - reflexivity.
  - reflexivity.
  - vm_compute; reflexivity.
  - reflexivity.
Defined.

Lemma opened_wf cs : Forall fair_call cs → veto_wf VetoService.new (run_calls cs veto_db0).
Proof.
  intros Hcs. eapply (reachable_wf _ veto_db0); [apply builtin_formats_ok|by split|by apply run_calls_reachable].
Qed.

Example perform_action_spec_witness :
  ∃ res db', perform_action VetoService.new sample_chance 1000 "ancient" 1 7
      (run_calls opening veto_db0) = (Ok res, db') ∧ decider_pending res = false.
Proof.
  assert (veto_wf VetoService.new (run_calls opening veto_db0)) as Hwf
    by (apply opened_wf; by repeat constructor).
  destruct (perform_action VetoService.new sample_chance 1000 "ancient" 1 7 (run_calls opening veto_db0))
    as [r db'] eqn:Hr.
  pose proof (perform_action_spec VetoService.new sample_chance 1000 "ancient" 1 7
    (run_calls opening veto_db0) r db' builtin_formats_ok Hwf Hr) as Hspec.
  destruct r as [res|e].
  - exists res, db'. split; [done|]. by destruct Hspec as (? & ? & ? & _ & _ & _ & _ & _ & _ & _ & _ & _ & ? & _).
  - exfalso. apply (f_equal (λ p, is_ok p.1)) in Hr. by vm_compute in Hr.
Defined.

Example interrupted_action_resumed_witness :
  ∃ s cmd, Db.veto_sessions (run_calls opening veto_db0) !! 1000%N = Some s ∧
    perform_action VetoService.new sample_chance 1000 "nuke" 1 8
      (create_veto_action cmd (run_calls opening veto_db0)).2 =
    perform_action VetoService.new sample_chance 1000 "ancient" 1 7 (run_calls opening veto_db0).
Proof.
  pose (s := ltac:(let v := eval vm_compute in (Db.veto_sessions (run_calls opening veto_db0) !! 1000%N) in
                   match v with Some ?s => exact s end)).
  exists s. eexists. split; [vm_compute; reflexivity|].
  change 1000%N with (VetoSession.id s) at 1 2.
  eapply (interrupted_action_resumed VetoService.new sample_chance s VetoFormatConfig.bo3
    (VetoFormatActionConfig.mk 1 VetoActionType.Ban) "ancient" "nuke" 1 7 8).
  - apply builtin_formats_ok.
  - apply opened_wf. by repeat constructor.
  - split; [vm_compute; reflexivity|reflexivity|reflexivity|done|].
    by apply list_elem_of_In; left.
  - reflexivity.
  - reflexivity.
  - apply (bool_decide_eq_true _). reflexivity.
Defined.


Example map_board_spec_witness :
  ∃ s, Db.veto_sessions (run_calls (take 6 whole_veto) veto_db0) !! 1000%N = Some s ∧
    MapStatus.map_id <$> build_map_status s
      (actions_of_session 1000 (run_calls (take 6 whole_veto) veto_db0)) = sample_pool.
Proof.
  eexists. split; [vm_compute; reflexivity|].
  eapply (map_board_spec VetoService.new veto_db0 (run_calls (take 6 whole_veto) veto_db0) 1000);
    [apply builtin_formats_ok|by split|apply run_calls_reachable; by repeat constructor
    |vm_compute; reflexivity|vm_compute; reflexivity].
Defined.
