(* ===== verification/Standings.v ===== *)
(** Standings: the derivation from the recorded results
    (crates/portal-db/src/adapters/tournament/standings.rs, an SQL statement
    modelled clause by clause) and the service over it
    (crates/portal-domain/src/services/tournament/standings.rs). *)
From Stdlib Require Import Floats.SpecFloat.
From stdpp Require Import base list strings gmap.
From S2P Require Import Prelude Errors Wire TournamentTypes Entities FormatPlan Rows Store.
#[local] Open Scope Z_scope.

Definition WIN_POINTS : Z := 3.

(** ** [DERIVE_STANDINGS_SQL] *)

(** A row of the [contributions] and [aggregated] tables, without its key. *)
Module Contribution.
Record t := mk {
  played : Z; won : Z; lost : Z; game_wins : Z; game_losses : Z; points : Z;
}.
#[global] Instance eq_dec : EqDecision t.
Proof. solve_decision. Defined.
Definition zero : t := mk 0 0 0 0 0 0.
Definition add (a b : t) : t :=
  mk (played a + played b) (won a + won b) (lost a + lost b)
    (game_wins a + game_wins b) (game_losses a + game_losses b) (points a + points b).
End Contribution.

(** What [StandingsService] accumulates for a registration. *)
Module StandingStats.
Record t := mk {
  matches_played : Z;
  matches_won : Z;
  matches_lost : Z;
  matches_drawn : Z;
  game_wins : Z;
  game_losses : Z;
  points : Z;
  head_to_head : HeadToHead.t;
  buchholz_score : option spec_float;
  opponent_match_wins : option spec_float;
}.
#[global] Instance eta_t : Eta t := λ r,
  mk (r.(matches_played)) (r.(matches_won)) (r.(matches_lost)) (r.(matches_drawn))
    (r.(game_wins)) (r.(game_losses)) (r.(points)) (r.(head_to_head)) (r.(buchholz_score))
    (r.(opponent_match_wins)).
Definition default : t := mk 0 0 0 0 0 0 0 HeadToHead.new None None.
End StandingStats.

Section standings.
Context `{Platform}.

(** The [WHERE] clause: a completed row of the bracket with both outcomes. *)
Definition counted (bracket_id : TournamentBracketId) (m : TournamentMatch.t)
    : option (TournamentRegistrationId * TournamentRegistrationId) :=
  if bool_decide (TournamentMatch.bracket_id m = bracket_id ∧
                  TournamentMatch.status m = TournamentMatchStatus.Completed) then
    match TournamentMatch.winner_registration_id m, TournamentMatch.loser_registration_id m with
    | Some winner, Some loser => Some (winner, loser)
    | _, _ => None
    end
  else None.

(** [CASE WHEN participant1 = winner]: the winner's score, then the loser's. *)
Definition outcome_scores (m : TournamentMatch.t) : Z * Z :=
  if bool_decide (TournamentMatch.participant1_registration_id m =
                  TournamentMatch.winner_registration_id m)
  then (TournamentMatch.participant1_score m, TournamentMatch.participant2_score m)
  else (TournamentMatch.participant2_score m, TournamentMatch.participant1_score m).

Definition match_contributions (bracket_id : TournamentBracketId) (m : TournamentMatch.t)
    : list (TournamentRegistrationId * Contribution.t) :=
  match counted bracket_id m with
  | None => []
  | Some (winner, loser) =>
      let '(ws, ls) := outcome_scores m in
      [(winner, Contribution.mk 1 1 0 ws ls WIN_POINTS);
       (loser, Contribution.mk 1 0 1 ls ws 0)]
  end.

Definition bye_contributions (bracket_id : TournamentBracketId) (b : BracketBye.t)
    : list (TournamentRegistrationId * Contribution.t) :=
  if bool_decide (BracketBye.bracket_id b = bracket_id) then
    [(BracketBye.registration_id b, Contribution.mk 1 1 0 0 0 (BracketBye.points b))]
  else [].

Definition contributions (bracket_id : TournamentBracketId) (db : Db.t)
    : list (TournamentRegistrationId * Contribution.t) :=
  ((map_to_list (Db.matches db)).*2 ≫= match_contributions bracket_id)
  ++ (Db.byes db ≫= bye_contributions bracket_id).

(** [SUM(..) GROUP BY registration_id], [COALESCE]d to 0. *)
Definition total (cs : list (TournamentRegistrationId * Contribution.t))
    (registration_id : TournamentRegistrationId) : Contribution.t :=
  foldr Contribution.add Contribution.zero
    (omap (λ c, if bool_decide (c.1 = registration_id) then Some c.2 else None) cs).

Definition derive_row (now : DateTime) (c : Contribution.t) (s : TournamentStanding.t)
    : TournamentStanding.t :=
  s <| TournamentStanding.matches_played := Contribution.played c |>
    <| TournamentStanding.matches_won := Contribution.won c |>
    <| TournamentStanding.matches_lost := Contribution.lost c |>
    <| TournamentStanding.matches_drawn := 0 |>
    <| TournamentStanding.game_wins := Contribution.game_wins c |>
    <| TournamentStanding.game_losses := Contribution.game_losses c |>
    <| TournamentStanding.game_differential := Contribution.game_wins c - Contribution.game_losses c |>
    <| TournamentStanding.points := Contribution.points c |>
    <| TournamentStanding.updated_at := now |>.

Definition of_bracket (bracket_id : TournamentBracketId) (s : TournamentStanding.t) : Prop :=
  TournamentStanding.bracket_id s = bracket_id.
#[global] Instance of_bracket_dec b s : Decision (of_bracket b s).
Proof. unfold of_bracket. apply _. Defined.

(** [UPDATE .. WHERE bracket_id = $1], the other rows untouched. *)
Definition update_standings (bracket_id : TournamentBracketId)
    (f : TournamentStanding.t → TournamentStanding.t) (db : Db.t) : Db.t :=
  db <| Db.standings :=
    (λ s, if decide (of_bracket bracket_id s) then f s else s) <$> Db.standings db |>.

Definition recompute_bracket_in_tx (bracket_id : TournamentBracketId) (db : Db.t) : Db.t :=
  update_standings bracket_id
    (λ s, derive_row (Db.now db) (total (contributions bracket_id db) (TournamentStanding.registration_id s)) s)
    db.

(** ** Positions *)

(** [ORDER BY points DESC, game_differential DESC, matches_won DESC]; rows that
    tie keep their order here, SQL leaves it open. *)
Definition standing_key (s : TournamentStanding.t) : Z * Z * Z :=
  (TournamentStanding.points s, TournamentStanding.game_differential s, TournamentStanding.matches_won s).
Definition key_leb (a b : Z * Z * Z) : bool :=
  let '(pa, da, wa) := a in let '(pb, db, wb) := b in
  bool_decide (pb < pa ∨ (pa = pb ∧ (db < da ∨ (da = db ∧ wb ≤ wa)))).
Definition standing_leb (a b : TournamentStanding.t) : bool := key_leb (standing_key a) (standing_key b).

Definition ranked (bracket_id : TournamentBracketId) (db : Db.t) : list TournamentStanding.t :=
  stable_sort standing_leb (filter (of_bracket bracket_id) (Db.standings db)).

(** [ROW_NUMBER()] of a standings row. *)
Definition row_number (bracket_id : TournamentBracketId) (db : Db.t) (id : Uuid) : Z :=
  match list_find (λ s, TournamentStanding.id s = id) (ranked bracket_id db) with
  | Some (i, _) => Z.of_nat i + 1
  | None => 0
  end.

Definition recalculate_positions_in_tx (bracket_id : TournamentBracketId) (db : Db.t) : Db.t :=
  update_standings bracket_id
    (λ s, s <| TournamentStanding.position := row_number bracket_id db (TournamentStanding.id s) |>
            <| TournamentStanding.updated_at := Db.now db |>)
    db.

Definition position_leb (a b : TournamentStanding.t) : bool :=
  bool_decide (TournamentStanding.position a ≤ TournamentStanding.position b).

(** The join supplies the participant's name and drops rows without one. *)
Definition standings_of_bracket (bracket_id : TournamentBracketId) (db : Db.t)
    : list TournamentStanding.t :=
  stable_sort position_leb
    (omap (λ s, (λ r, s <| TournamentStanding.participant_name :=
                         Some (TournamentRegistration.participant_name r) |>)
                <$> Db.registrations db !! TournamentStanding.registration_id s)
       (filter (of_bracket bracket_id) (Db.standings db))).

(** BEGIN, derive, re-rank, COMMIT. *)
Definition recompute_bracket (bracket_id : TournamentBracketId) : M (list TournamentStanding.t) :=
  let* _ := mwrite (recompute_bracket_in_tx bracket_id) in
  let* _ := mwrite (recalculate_positions_in_tx bracket_id) in
  mread (standings_of_bracket bracket_id).

Definition recalculate_positions (bracket_id : TournamentBracketId) : M (list TournamentStanding.t) :=
  let* _ := mwrite (recalculate_positions_in_tx bracket_id) in
  mread (standings_of_bracket bracket_id).

(** [ON CONFLICT (bracket_id, registration_id, round) DO NOTHING]. *)
Definition record_bye (bracket_id : TournamentBracketId) (registration_id : TournamentRegistrationId)
    (round : Z) : M unit :=
  mwrite (λ db,
    if existsb (λ b, bool_decide (BracketBye.bracket_id b = bracket_id ∧
                 BracketBye.registration_id b = registration_id ∧ BracketBye.round b = round))
         (Db.byes db)
    then db
    else db <| Db.byes := Db.byes db ++ [BracketBye.mk bracket_id registration_id round WIN_POINTS] |>).

(** ** [StandingsService] *)

#[local] Abbreviation Stats := (gmap TournamentRegistrationId StandingStats.t) (only parsing).

Definition stats_win (loser_id : TournamentRegistrationId) (winner_score loser_score : Z)
    (s : StandingStats.t) : StandingStats.t :=
  s <| StandingStats.matches_played := i32_add (StandingStats.matches_played s) 1 |>
    <| StandingStats.matches_won := i32_add (StandingStats.matches_won s) 1 |>
    <| StandingStats.game_wins := i32_add (StandingStats.game_wins s) winner_score |>
    <| StandingStats.game_losses := i32_add (StandingStats.game_losses s) loser_score |>
    <| StandingStats.points := i32_add (StandingStats.points s) 3 |>
    <| StandingStats.head_to_head := HeadToHead.record_win (StandingStats.head_to_head s) loser_id |>.

Definition stats_loss (winner_id : TournamentRegistrationId) (winner_score loser_score : Z)
    (s : StandingStats.t) : StandingStats.t :=
  s <| StandingStats.matches_played := i32_add (StandingStats.matches_played s) 1 |>
    <| StandingStats.matches_lost := i32_add (StandingStats.matches_lost s) 1 |>
    <| StandingStats.game_wins := i32_add (StandingStats.game_wins s) loser_score |>
    <| StandingStats.game_losses := i32_add (StandingStats.game_losses s) winner_score |>
    <| StandingStats.head_to_head := HeadToHead.record_loss (StandingStats.head_to_head s) winner_id |>.

(** The loop body over the bracket's matches. *)
Definition replay_match (stats : Stats) (m : TournamentMatch.t) : Stats :=
  if negb (TournamentMatch.is_complete m) then stats
  else
    match TournamentMatch.winner_registration_id m, TournamentMatch.loser_registration_id m with
    | Some winner_id, Some loser_id =>
        let winner_score := TournamentMatch.participant1_score m `max` TournamentMatch.participant2_score m in
        let loser_score := TournamentMatch.participant1_score m `min` TournamentMatch.participant2_score m in
        alter (stats_loss winner_id winner_score loser_score) loser_id
          (alter (stats_win loser_id winner_score loser_score) winner_id stats)
    | _, _ => stats
    end.

Definition f64_of_i32 (n : Z) : spec_float := binary_normalize 53 1024 n 0 false.
Definition f64_add : spec_float → spec_float → spec_float := SFadd 53 1024.

(** Sum of the points of the recorded opponents. *)
Definition buchholz_of (stats : Stats) (s : StandingStats.t) : spec_float :=
  fold_left f64_add
    (f64_of_i32 ∘ StandingStats.points <$>
      omap (λ opp, stats !! opp) (map_to_list (HeadToHead.records (StandingStats.head_to_head s))).*1)
    (S754_zero true).

Definition opponent_wins_of (stats : Stats) (s : StandingStats.t) : spec_float :=
  let '(total_opp_wins, total_opp_matches) :=
    fold_left (λ '(wins, matches) o,
        (i32_add wins (StandingStats.matches_won o), i32_add matches (StandingStats.matches_played o)))
      (omap (λ opp, stats !! opp) (map_to_list (HeadToHead.records (StandingStats.head_to_head s))).*1)
      (0, 0) in
  if bool_decide (total_opp_matches > 0)
  then SFdiv 53 1024 (f64_of_i32 total_opp_wins) (f64_of_i32 total_opp_matches)
  else S754_zero false.

Definition replay (standings : list TournamentStanding.t) (matches : list TournamentMatch.t) : Stats :=
  let stats := fold_left replay_match matches
    (list_to_map ((λ s, (TournamentStanding.registration_id s, StandingStats.default)) <$> standings)) in
  let stats := (λ s, s <| StandingStats.buchholz_score := Some (buchholz_of stats s) |>) <$> stats in
  (λ s, s <| StandingStats.opponent_match_wins := Some (opponent_wins_of stats s) |>) <$> stats.

(** The statistics are computed and then dropped: only the positions are
    written. *)
Definition recalculate_standings (bracket_id : TournamentBracketId) : M (list TournamentStanding.t) :=
  let* matches := list_matches_by_bracket bracket_id in
  let* standings := mread (standings_of_bracket bracket_id) in
  let _stats := replay standings matches in
  recalculate_positions bracket_id.

Definition calculate_buchholz (bracket_id : TournamentBracketId)
    (registration_id : TournamentRegistrationId) : M spec_float :=
  let* matches := list_matches_by_bracket bracket_id in
  let* standings := mread (standings_of_bracket bracket_id) in
  mret (fold_left
    (λ buchholz m,
      if negb (TournamentMatch.is_complete m) then buchholz
      else
        let opponent_id :=
          if bool_decide (TournamentMatch.participant1_registration_id m = Some registration_id)
          then TournamentMatch.participant2_registration_id m
          else if bool_decide (TournamentMatch.participant2_registration_id m = Some registration_id)
          then TournamentMatch.participant1_registration_id m
          else None in
        match opponent_id ≫= λ opp,
          snd <$> list_find (λ s, TournamentStanding.registration_id s = opp) standings with
        | Some opp_standing => f64_add buchholz (f64_of_i32 (TournamentStanding.points opp_standing))
        | None => buchholz
        end)
    matches (S754_zero false)).
End standings.
