(* ===== verification/StandingsProps.v ===== *)
(** What the derived standings promise: a zero-sum table, idempotent
    recomputation, positions that follow the ranking; and what the service's
    recalculation does not do. *)
From Stdlib Require Import Floats.SpecFloat.
From stdpp Require Import base list strings gmap.
From S2P Require Import Prelude Errors Wire TournamentTypes Entities FormatPlan Rows Store Samples Standings.
#[local] Open Scope Z_scope.

Definition sum (l : list Z) : Z := foldr Z.add 0 l.

Lemma sum_app l1 l2 : sum (l1 ++ l2) = sum l1 + sum l2.
Proof. unfold sum. induction l1 as [|x l1 IH]; simpl; lia. Qed.

#[global] Instance sum_proper : Proper ((≡ₚ) ==> (=)) sum.
Proof. intros l1 l2 Hl. unfold sum. induction Hl; simpl; lia. Qed.

(** ** Totals *)

(** The additive columns. *)
Class Additive (f : Contribution.t → Z) := {
  additive_zero : f Contribution.zero = 0;
  additive_add a b : f (Contribution.add a b) = f a + f b;
}.
#[global] Instance additive_played : Additive Contribution.played.
Proof. by split. Qed.
#[global] Instance additive_won : Additive Contribution.won.
Proof. by split. Qed.
#[global] Instance additive_lost : Additive Contribution.lost.
Proof. by split. Qed.
#[global] Instance additive_game_wins : Additive Contribution.game_wins.
Proof. by split. Qed.
#[global] Instance additive_game_losses : Additive Contribution.game_losses.
Proof. by split. Qed.
#[global] Instance additive_points : Additive Contribution.points.
Proof. by split. Qed.

Section totals.
Context `{Platform}.
Context (f : Contribution.t → Z) `{!Additive f}.

Lemma total_sum cs r :
  f (total cs r) = sum (omap (λ c, if bool_decide (c.1 = r) then Some (f c.2) else None) cs).
Proof.
  unfold total. induction cs as [|[k c] cs IH]; [apply additive_zero|].
  cbn. case_bool_decide; cbn; [|done]. rewrite additive_add. unfold sum in *. simpl. by rewrite IH.
Qed.

(** Grouping loses nothing: over all keys the totals add up to the column. *)
Lemma total_groups cs (ids : list TournamentRegistrationId) :
  NoDup ids → (∀ c, c ∈ cs → c.1 ∈ ids) →
  sum ((λ r, f (total cs r)) <$> ids) = sum ((λ c, f c.2) <$> cs).
Proof.
  intros Hnd. induction cs as [|[k c] cs IH]; intros Hin.
  { clear -Additive0. cbn. induction ids as [|i ids IHi]; [done|].
    rewrite fmap_cons. unfold sum in *. cbn [foldr]. rewrite IHi, additive_zero. lia. }
  assert (k ∈ ids) as Hk by (apply (Hin (k, c)), elem_of_cons; by left).
  rewrite fmap_cons. change (sum (?x :: ?l)) with (x + sum l).
  rewrite <- IH by (intros c' ?; apply Hin, elem_of_cons; by right).
  assert (∀ l : list N, NoDup l →
    sum ((λ r, f (total ((k, c) :: cs) r)) <$> l) =
    (if bool_decide (k ∈ l) then f c else 0) + sum ((λ r, f (total cs r)) <$> l)) as Hl.
  { intros l. induction 1 as [|r l Hr Hl IHl]; [by rewrite bool_decide_false by set_solver|].
    rewrite !fmap_cons. change (sum (?x :: ?l)) with (x + sum l). rewrite IHl.
    assert (f (total ((k, c) :: cs) r) = (if bool_decide (k = r) then f c else 0) + f (total cs r)) as ->.
    { rewrite !total_sum. cbn [omap list_omap fst snd]. by destruct (bool_decide (k = r)). }
    assert (bool_decide (k ∈ r :: l) = bool_decide (k = r) || bool_decide (k ∈ l)) as ->.
    { rewrite <- bool_decide_or. apply bool_decide_ext. apply elem_of_cons. }
    destruct (decide (k = r)) as [->|Hkr].
    - rewrite (bool_decide_false (r ∈ l)), bool_decide_true by done. simpl. lia.
    - rewrite (bool_decide_false (k = r)) by done. simpl. lia. }
  rewrite Hl, bool_decide_true by done. done.
Qed.
End totals.

Section standings_props.
Context `{Platform}.

(** The contributing registrations all have a row, and one row only. *)
Definition complete_table (bracket_id : TournamentBracketId) (db : Db.t) : Prop :=
  let ids := TournamentStanding.registration_id <$> filter (of_bracket bracket_id) (Db.standings db) in
  NoDup ids ∧ ∀ c, c ∈ contributions bracket_id db → c.1 ∈ ids.

Definition bracket_rows (bracket_id : TournamentBracketId) (db : Db.t) : list TournamentStanding.t :=
  filter (of_bracket bracket_id) (Db.standings db).

(** Rows of the bracket after an update of them. *)
Lemma bracket_rows_update bracket_id f db :
  (∀ s, of_bracket bracket_id s → of_bracket bracket_id (f s)) →
  bracket_rows bracket_id (update_standings bracket_id f db) = f <$> bracket_rows bracket_id db.
Proof.
  intros Hf. unfold bracket_rows, update_standings. cbn [Db.standings setter].
  simpl. induction (Db.standings db) as [|s l IH]; [done|].
  rewrite fmap_cons, !filter_cons. destruct (decide (of_bracket bracket_id s)) as [Hs|Hs].
  - rewrite decide_True by auto. rewrite IH. done.
  - rewrite decide_False by done. exact IH.
Qed.

(** A column of a contribution table. *)
Definition col (f : Contribution.t → Z) (cs : list (TournamentRegistrationId * Contribution.t)) : Z :=
  sum ((λ c, f c.2) <$> cs).

Lemma col_app f l1 l2 : col f (l1 ++ l2) = col f l1 + col f l2.
Proof. unfold col. by rewrite fmap_app, sum_app. Qed.

(** A linear relation between columns holds of the table if it holds piecewise. *)
Lemma col_bind_ext {A} f g (h : A → list (TournamentRegistrationId * Contribution.t)) (l : list A) :
  (∀ x, col f (h x) = col g (h x)) → col f (l ≫= h) = col g (l ≫= h).
Proof.
  intros Hfg. induction l as [|x l IH]; [done|]. by rewrite bind_cons, !col_app, Hfg, IH.
Qed.

Lemma match_columns bracket_id m :
  let cs := match_contributions bracket_id m in
  col Contribution.won cs = col Contribution.lost cs ∧
  col Contribution.game_wins cs = col Contribution.game_losses cs ∧
  col Contribution.points cs = col (λ c, WIN_POINTS * Contribution.lost c) cs.
Proof.
  unfold match_contributions. destruct (counted bracket_id m) as [[w l]|]; [|done].
  destruct (outcome_scores m) as [ws ls]. unfold col, sum. simpl. unfold WIN_POINTS. lia.
Qed.

Definition bracket_byes (bracket_id : TournamentBracketId) (db : Db.t) : list BracketBye.t :=
  filter (λ b, BracketBye.bracket_id b = bracket_id) (Db.byes db).

Lemma bye_columns bracket_id db :
  let cs := Db.byes db ≫= bye_contributions bracket_id in
  col Contribution.won cs = Z.of_nat (length (bracket_byes bracket_id db)) ∧
  col Contribution.lost cs = 0 ∧ col Contribution.game_wins cs = 0 ∧
  col Contribution.game_losses cs = 0 ∧ col (λ c, WIN_POINTS * Contribution.lost c) cs = 0 ∧
  col Contribution.points cs = sum (BracketBye.points <$> bracket_byes bracket_id db).
Proof.
  unfold bracket_byes. induction (Db.byes db) as [|b l IH]; [done|].
  rewrite bind_cons, !col_app, filter_cons. unfold bye_contributions at 1 3 5 7 9 11.
  case_bool_decide as Hb; case_decide; try done; cbn zeta in IH.
  destruct IH as (-> & -> & -> & -> & -> & ->).
  unfold col, sum, WIN_POINTS. cbn [length]. rewrite !fmap_cons, !fmap_nil.
  cbn [foldr snd Contribution.won Contribution.lost Contribution.game_wins
    Contribution.game_losses Contribution.points]. lia.
Qed.

Lemma contributions_columns bracket_id db :
  let cs := contributions bracket_id db in
  col Contribution.won cs =
    col Contribution.lost cs + Z.of_nat (length (bracket_byes bracket_id db)) ∧
  col Contribution.game_wins cs = col Contribution.game_losses cs ∧
  col Contribution.points cs =
    WIN_POINTS * col Contribution.lost cs + sum (BracketBye.points <$> bracket_byes bracket_id db).
Proof.
  unfold contributions. cbv zeta. rewrite !col_app.
  destruct (bye_columns bracket_id db) as (-> & -> & -> & -> & _ & ->).
  rewrite (col_bind_ext Contribution.won Contribution.lost) by apply match_columns.
  rewrite (col_bind_ext Contribution.game_wins Contribution.game_losses) by apply match_columns.
  rewrite (col_bind_ext Contribution.points (λ c, WIN_POINTS * Contribution.lost c)) by apply match_columns.
  split; [lia|]. split; [lia|].
  assert (∀ cs, col (λ c, WIN_POINTS * Contribution.lost c) cs = WIN_POINTS * col Contribution.lost cs) as ->.
  { intros cs. unfold col, sum. induction cs as [|c cs IH]; [done|].
    rewrite !fmap_cons. cbn [foldr]. rewrite IH. lia. }
  lia.
Qed.

(** The rows of a recomputed bracket are the totals of their registrations. *)
Lemma recomputed_column bracket_id db (col_of : TournamentStanding.t → Z) f `{!Additive f} :
  (∀ now c s, col_of (derive_row now c s) = f c) → complete_table bracket_id db →
  sum (col_of <$> bracket_rows bracket_id (recompute_bracket_in_tx bracket_id db)) =
  col f (contributions bracket_id db).
Proof.
  intros Hcol [Hnd Hin]. unfold recompute_bracket_in_tx.
  rewrite bracket_rows_update by done. rewrite <- list_fmap_compose.
  unfold col. rewrite <- (total_groups f _ _ Hnd Hin). f_equal.
  rewrite <- list_fmap_compose. apply list_fmap_ext. intros ? s _.
  exact (Hcol (Db.now db) (total (contributions bracket_id db) (TournamentStanding.registration_id s)) s).
Qed.

Lemma total_balanced cs r :
  (∀ c, c ∈ cs → Contribution.played c.2 = Contribution.won c.2 + Contribution.lost c.2) →
  Contribution.played (total cs r) = Contribution.won (total cs r) + Contribution.lost (total cs r).
Proof.
  unfold total. induction cs as [|c cs IH]; intros Hc; [done|].
  cbn. case_bool_decide; cbn.
  - rewrite IH by (intros c' ?; apply Hc, elem_of_cons; by right).
    rewrite (Hc c) by (apply elem_of_cons; by left). lia.
  - apply IH. intros c' ?. apply Hc, elem_of_cons. by right.
Qed.

Lemma contributions_balanced bracket_id db c :
  c ∈ contributions bracket_id db →
  Contribution.played c.2 = Contribution.won c.2 + Contribution.lost c.2.
Proof.
  unfold contributions. rewrite elem_of_app, !list_elem_of_bind.
  intros [(m & Hm & _)|(b & Hb & _)].
  - unfold match_contributions in Hm. destruct (counted bracket_id m) as [[w l]|]; [|by apply elem_of_nil in Hm].
    destruct (outcome_scores m).
    repeat (apply elem_of_cons in Hm as [->|Hm]; [done|]). by apply elem_of_nil in Hm.
  - unfold bye_contributions in Hb. case_bool_decide; [|by apply elem_of_nil in Hb].
    by apply list_elem_of_singleton in Hb as ->.
Qed.


(** ** Recomputing again *)

Definition recompute_all (bracket_id : TournamentBracketId) (db : Db.t) : Db.t :=
  recalculate_positions_in_tx bracket_id (recompute_bracket_in_tx bracket_id db).

Lemma update_standings_id bracket_id f db :
  (∀ s, s ∈ Db.standings db → of_bracket bracket_id s → f s = s) →
  update_standings bracket_id f db = db.
Proof.
  intros Hf. unfold update_standings. destruct db as [n u ms bs sts rs ss ys lg fr]. cbn.
  f_equal. cbn in Hf. rewrite <- (list_fmap_id ss) at 2. apply list_fmap_ext.
  intros i s Hs%list_elem_of_lookup_2. case_decide; [by apply Hf|done].
Qed.

Lemma elem_of_update bracket_id f db s :
  (∀ s, of_bracket bracket_id s → of_bracket bracket_id (f s)) →
  s ∈ Db.standings (update_standings bracket_id f db) → of_bracket bracket_id s →
  ∃ s0, s0 ∈ Db.standings db ∧ of_bracket bracket_id s0 ∧ s = f s0.
Proof.
  intros Hf (s0 & -> & Hs0)%list_elem_of_fmap Hb. exists s0.
  case_decide as Hd; [done|]. by destruct Hd.
Qed.

(** A pure update of the positions does not disturb the ranking. *)
Lemma ranked_positions bracket_id db :
  ranked bracket_id (recalculate_positions_in_tx bracket_id db) =
  (λ s, s <| TournamentStanding.position := row_number bracket_id db (TournamentStanding.id s) |>
          <| TournamentStanding.updated_at := Db.now db |>) <$> ranked bracket_id db.
Proof.
  unfold ranked, recalculate_positions_in_tx.
  pose proof (bracket_rows_update bracket_id
    (λ s, s <| TournamentStanding.position := row_number bracket_id db (TournamentStanding.id s) |>
            <| TournamentStanding.updated_at := Db.now db |>) db) as Hrows.
  unfold bracket_rows in Hrows. rewrite Hrows by done.
  apply stable_sort_fmap. done.
Qed.

Lemma row_number_positions bracket_id db id :
  row_number bracket_id (recalculate_positions_in_tx bracket_id db) id = row_number bracket_id db id.
Proof.
  unfold row_number. rewrite ranked_positions, list_find_fmap.
  rewrite (list_find_ext _ (λ s, TournamentStanding.id s = id)) by done.
  by destruct (list_find _ _) as [[i s]|].
Qed.

Lemma update_standings_contributions b bracket_id f db :
  contributions b (update_standings bracket_id f db) = contributions b db.
Proof. by destruct db. Qed.

Lemma update_standings_now bracket_id f db : Db.now (update_standings bracket_id f db) = Db.now db.
Proof. by destruct db. Qed.

Lemma recompute_all_again bracket_id db :
  recompute_all bracket_id (recompute_all bracket_id db) = recompute_all bracket_id db.
Proof.
  unfold recompute_all at 1.
  assert (recompute_bracket_in_tx bracket_id (recompute_all bracket_id db)
          = recompute_all bracket_id db) as ->.
  { apply update_standings_id. intros s Hs Hb.
    apply elem_of_update in Hs as (s1 & Hs1 & Hb1 & ->); [|done..].
    apply elem_of_update in Hs1 as (s0 & _ & _ & ->); [|done..].
    unfold recompute_all, recalculate_positions_in_tx, recompute_bracket_in_tx.
    rewrite !update_standings_contributions, !update_standings_now.
    destruct s0. unfold derive_row. cbn. reflexivity. }
  apply update_standings_id. intros s Hs Hb.
  apply elem_of_update in Hs as (s1 & Hs1 & Hb1 & ->); [|done..].
  unfold recompute_all. rewrite row_number_positions. unfold recalculate_positions_in_tx at 1.
  rewrite update_standings_now. destruct s1. cbn. reflexivity.
Qed.

(** The derivation reads results and byes only, never the table it writes:
  running it again is no change, so a repeated or replayed completion cannot
  count a match twice. *)
Theorem recompute_bracket_idempotent bracket_id db :
  let '(rows, db') := recompute_bracket bracket_id db in
  recompute_bracket bracket_id db' = (rows, db').
Proof.
  change (recompute_bracket bracket_id db) with
    (Ok (standings_of_bracket bracket_id (recompute_all bracket_id db)) : outcome _,
     recompute_all bracket_id db).
  cbv beta iota zeta.
  change (recompute_bracket bracket_id (recompute_all bracket_id db)) with
    (Ok (standings_of_bracket bracket_id (recompute_all bracket_id (recompute_all bracket_id db)))
       : outcome _, recompute_all bracket_id (recompute_all bracket_id db)).
  by rewrite recompute_all_again.
Qed.

(** ** Positions follow the ranking *)

Lemma key_leb_total a b : key_leb a b = true ∨ key_leb b a = true.
Proof.
  destruct a as [[pa da] wa], b as [[pb db] wb]. unfold key_leb. rewrite !bool_decide_eq_true. lia.
Qed.

Lemma key_leb_trans a b c : key_leb a b = true → key_leb b c = true → key_leb a c = true.
Proof.
  destruct a as [[pa da] wa], b as [[pb db] wb], c as [[pc dc] wc]. unfold key_leb.
  rewrite !bool_decide_eq_true. lia.
Qed.

Lemma ranked_perm bracket_id db : ranked bracket_id db ≡ₚ bracket_rows bracket_id db.
Proof. apply stable_sort_perm. Qed.

Lemma ranked_sorted bracket_id db :
  StronglySorted (λ a b, standing_leb a b = true) (ranked bracket_id db).
Proof.
  apply stable_sort_sorted; unfold standing_leb;
    [intros; apply key_leb_total | intros ???; apply key_leb_trans].
Qed.

(** The row numbers of the ranked rows count from one. *)
Lemma row_numbers bracket_id db :
  NoDup (TournamentStanding.id <$> bracket_rows bracket_id db) →
  (λ s, row_number bracket_id db (TournamentStanding.id s)) <$> ranked bracket_id db =
  seqZ 1 (Z.of_nat (length (bracket_rows bracket_id db))).
Proof.
  rewrite <- ranked_perm. intros Hnd. apply list_eq. intros i.
  rewrite list_lookup_fmap. destruct (ranked bracket_id db !! i) as [s|] eqn:Hs; simpl.
  - symmetry. apply lookup_seqZ. apply lookup_lt_Some in Hs as Hi.
    unfold row_number. destruct (list_find _ _) as [[j s']|] eqn:Hf.
    + apply list_find_Some in Hf as (Hj & Hid & _). split; [|lia].
      enough (i = j) by lia. eapply NoDup_lookup; [exact Hnd| |];
        rewrite list_lookup_fmap, ?Hs, ?Hj; cbn; by f_equal.
    + apply list_find_None in Hf. rewrite Forall_lookup in Hf. by destruct (Hf _ _ Hs).
  - symmetry. apply lookup_seqZ_ge. apply lookup_ge_None in Hs. lia.
Qed.

Lemma recompute_all_ids bracket_id db :
  TournamentStanding.id <$> bracket_rows bracket_id (recompute_all bracket_id db) =
  TournamentStanding.id <$> bracket_rows bracket_id db.
Proof.
  unfold recompute_all, recalculate_positions_in_tx, recompute_bracket_in_tx.
  rewrite !bracket_rows_update by done. rewrite <- !list_fmap_compose. by apply list_fmap_ext.
Qed.

Lemma recompute_all_positions bracket_id db :
  NoDup (TournamentStanding.id <$> bracket_rows bracket_id db) →
  TournamentStanding.position <$> ranked bracket_id (recompute_all bracket_id db) =
  seqZ 1 (Z.of_nat (length (bracket_rows bracket_id db))).
Proof.
  intros Hnd. unfold recompute_all. rewrite ranked_positions, <- list_fmap_compose.
  rewrite <- (length_fmap TournamentStanding.id (bracket_rows bracket_id db)).
  rewrite <- (recompute_all_ids bracket_id db), length_fmap in *.
  assert (length (bracket_rows bracket_id (recompute_all bracket_id db)) =
          length (bracket_rows bracket_id (recompute_bracket_in_tx bracket_id db))) as ->.
  { unfold recompute_all, recalculate_positions_in_tx.
    rewrite bracket_rows_update by done. by rewrite length_fmap. }
  apply row_numbers. unfold recompute_all, recalculate_positions_in_tx in Hnd.
  rewrite bracket_rows_update in Hnd by done. by rewrite <- list_fmap_compose in Hnd.
Qed.

(** Sorting by position gives the ranking back. *)
Lemma sorted_by_position bracket_id db :
  NoDup (TournamentStanding.id <$> bracket_rows bracket_id db) →
  let db' := recompute_all bracket_id db in
  stable_sort position_leb (bracket_rows bracket_id db') = ranked bracket_id db'.
Proof.
  intros Hnd db'. apply (stable_sort_numbered TournamentStanding.position _ _ 1).
  - unfold db'. rewrite recompute_all_positions by done. f_equal.
    by rewrite (ranked_perm bracket_id), <- !(length_fmap TournamentStanding.id), recompute_all_ids.
  - by rewrite ranked_perm.
Qed.

Definition named (db : Db.t) (s : TournamentStanding.t) : TournamentStanding.t :=
  match Db.registrations db !! TournamentStanding.registration_id s with
  | Some r => s <| TournamentStanding.participant_name := Some (TournamentRegistration.participant_name r) |>
  | None => s
  end.

Lemma standings_of_bracket_named bracket_id db :
  (∀ s, s ∈ bracket_rows bracket_id db →
     is_Some (Db.registrations db !! TournamentStanding.registration_id s)) →
  standings_of_bracket bracket_id db =
  named db <$> stable_sort position_leb (bracket_rows bracket_id db).
Proof.
  intros Hreg. unfold standings_of_bracket.
  rewrite <- (stable_sort_fmap position_leb) by
    (intros a b; unfold named; by destruct (_ !! _), (Db.registrations db !! _)).
  f_equal. fold (bracket_rows bracket_id db). revert Hreg.
  induction (bracket_rows bracket_id db) as [|s l IH]; intros Hreg; [done|].
  rewrite fmap_cons. cbn [omap list_omap]. unfold named at 1.
  destruct (Hreg s) as [r Hr]; [apply elem_of_cons; by left|]. rewrite Hr. cbn.
  f_equal. apply IH. intros ? ?. apply Hreg, elem_of_cons. by right.
Qed.

Lemma named_key db s : standing_key (named db s) = standing_key s.
Proof. unfold named. by destruct (_ !! _). Qed.

Lemma named_position db s : TournamentStanding.position (named db s) = TournamentStanding.position s.
Proof. unfold named. by destruct (_ !! _). Qed.

Lemma named_id db s : TournamentStanding.id (named db s) = TournamentStanding.id s.
Proof. unfold named. by destruct (_ !! _). Qed.

Lemma recompute_all_registered bracket_id db :
  (∀ s, s ∈ bracket_rows bracket_id db →
     is_Some (Db.registrations db !! TournamentStanding.registration_id s)) →
  ∀ s, s ∈ bracket_rows bracket_id (recompute_all bracket_id db) →
     is_Some (Db.registrations (recompute_all bracket_id db) !! TournamentStanding.registration_id s).
Proof.
  intros Hreg s. unfold recompute_all at 1, recalculate_positions_in_tx, recompute_bracket_in_tx.
  rewrite !bracket_rows_update by done. rewrite <- list_fmap_compose.
  intros (s0 & -> & Hs)%list_elem_of_fmap. exact (Hreg s0 Hs).
Qed.

(** The table a recomputation returns lists every row of the bracket once,
  best first: by points, then game differential, then matches won, each
  descending, with positions 1, 2, .. in that order. *)
Theorem recompute_bracket_ranks bracket_id db :
  NoDup (TournamentStanding.id <$> bracket_rows bracket_id db) →
  (∀ s, s ∈ bracket_rows bracket_id db →
     is_Some (Db.registrations db !! TournamentStanding.registration_id s)) →
  ∃ rows, (recompute_bracket bracket_id db).1 = Ok rows ∧
    TournamentStanding.id <$> rows ≡ₚ TournamentStanding.id <$> bracket_rows bracket_id db ∧
    StronglySorted (λ a b, standing_leb a b = true) rows ∧
    TournamentStanding.position <$> rows = seqZ 1 (Z.of_nat (length rows)).
Proof.
  intros Hnd Hreg. set (db' := recompute_all bracket_id db).
  exists (standings_of_bracket bracket_id db'). split; [reflexivity|].
  assert (standings_of_bracket bracket_id db' = named db' <$> ranked bracket_id db') as ->.
  { rewrite standings_of_bracket_named by by apply recompute_all_registered.
    f_equal. by apply sorted_by_position. }
  rewrite length_fmap, <- !list_fmap_compose. repeat split.
  - rewrite <- (recompute_all_ids bracket_id db), <- ranked_perm. fold db'.
    apply Permutation_refl', list_fmap_ext. intros i s _. apply named_id.
  - eapply StronglySorted_fmap; [|apply ranked_sorted].
    intros a b. unfold standing_leb. by rewrite !named_key.
  - transitivity (TournamentStanding.position <$> ranked bracket_id db').
    { apply list_fmap_ext. intros i s _. apply named_position. }
    unfold db'. rewrite recompute_all_positions by done. f_equal. f_equal.
    by rewrite ranked_perm, <- !(length_fmap TournamentStanding.id), recompute_all_ids.
Qed.

(** ** The service *)

(** The columns [recalculate_standings] is there to bring up to date. *)
Definition statistics (s : TournamentStanding.t) :=
  (TournamentStanding.matches_played s, TournamentStanding.matches_won s,
   TournamentStanding.matches_lost s, TournamentStanding.game_wins s,
   TournamentStanding.game_losses s, TournamentStanding.points s,
   TournamentStanding.buchholz_score s, TournamentStanding.opponent_match_wins s).

(** The service's recalculation replays the matches into statistics and
  leaves them: whatever the matches say, every row keeps the statistics it had
  and only positions are rewritten. *)
Theorem recalculate_standings_keeps_statistics bracket_id db :
  let db' := (recalculate_standings bracket_id db).2 in
  statistics <$> Db.standings db' = statistics <$> Db.standings db ∧
  Db.matches db' = Db.matches db.
Proof.
  change ((recalculate_standings bracket_id db).2) with (recalculate_positions_in_tx bracket_id db).
  split; [|done]. unfold recalculate_positions_in_tx, update_standings. destruct db as [n u ms bs sts rs ss ys lg fr].
  cbn [Db.standings]. cbn. rewrite <- list_fmap_compose. apply list_fmap_ext. intros i s _.
  cbn. by case_decide.
Qed.
End standings_props.

(** ** Witnesses *)

#[local] Existing Instance sample_platform.

(** A round robin of three with one match played, 2-1 for registration 1. *)
Definition sample_table : Db.t :=
  sample_db [with_result 1 2 2 1 (sample_row 10 5 1 1 "R1M1" (None, None) (Some 1%N, Some 2%N))]
    [sample_bracket 5 1 BracketType.RoundRobin]
    [sample_standing 20 5 1; sample_standing 21 5 2; sample_standing 22 5 3].


Example recompute_bracket_ranks_witness :
  ∃ rows, (recompute_bracket 5 sample_table).1 = Ok rows ∧
    TournamentStanding.position <$> rows = [1; 2; 3].
Proof.
  destruct (recompute_bracket_ranks 5 sample_table) as (rows & Hrun & Hids & _ & Hpos).
  - apply (bool_decide_unpack _). vm_compute. exact I.
  - apply Forall_forall. apply (bool_decide_unpack _). vm_compute. exact I.
  - exists rows. split; [exact Hrun|]. apply Permutation_length in Hids.
    rewrite !length_fmap in Hids. rewrite Hpos, Hids. vm_compute. reflexivity.
Defined.
