(* ===== verification/Helpers.v ===== *)
(** The set-up steps shared by the start of a tournament and by stage
    advancement (crates/portal-domain/src/services/tournament/helpers.rs):
    seating the generated assignments and byes, wiring the progression links,
    and deriving an outcome from scores. *)
From Stdlib Require Import Ascii.
From stdpp Require Import base list strings gmap.
From S2P Require Import Prelude Errors Wire TournamentTypes Entities BracketModel FormatPlan Rows Store.
#[local] Open Scope Z_scope.

Abbreviation PositionMap := (gmap string TournamentMatchId) (only parsing).

(** [HashMap::extend] and [collect]: a later entry replaces an earlier one. *)
Definition build_position_map (matches : list TournamentMatch.t) : PositionMap :=
  fold_left (λ acc m, <[TournamentMatch.bracket_position m := TournamentMatch.id m]> acc) matches ∅.

Definition extend_position_map (m more : PositionMap) : PositionMap := more ∪ m.

Definition slot_of (slot : Z) : ParticipantSlot.t :=
  if bool_decide (slot = 1) then ParticipantSlot.One else ParticipantSlot.Two.

(** "WR2M3" with prefix "WR" is (2, 3); (0, 0) when there are not two parts. *)
Definition parse_round_match (position prefix : string) : Z * Z :=
  let stripped := default "" (strip_prefix prefix position) in
  match split_on "M"%char stripped with
  | [r; m] => (default 0 (parse_i32 r), default 0 (parse_i32 m))
  | _ => (0, 0)
  end.

(** Round and match of "R2M3", when both are numbers other than zero. *)
Definition se_round_match (pos : string) : option (Z * Z) :=
  match split_on "M"%char pos with
  | [r; m] =>
      let round := default 0 (parse_i32 (trim_start_matches "R"%char r)) in
      let match_in_round := default 0 (parse_i32 m) in
      if bool_decide (round = 0) || bool_decide (match_in_round = 0) then None
      else Some (round, match_in_round)
  | _ => None
  end.

(** Where the winner of a single-elimination match goes. *)
Definition se_next_position (pos : string) : option string :=
  '(round, match_in_round) ← se_round_match pos;
  let next_round := i32_add round 1 in
  let next_match_in_round := Z.quot (i32_add match_in_round 1) 2 in
  Some (position "R" next_round next_match_in_round).

(** A winners-bracket match's next one in its own bracket. *)
Definition wb_next_position (pos : string) : option string :=
  let '(round, match_in_round) := parse_round_match pos "WR" in
  if bool_decide (round = 0) then None
  else Some (position "WR" (i32_add round 1) (Z.quot (i32_add match_in_round 1) 2)).

(** A losers-bracket match's next one: after an odd round the match of the same
    number, which a dropper joins; after an even round the field halves. *)
Definition lb_next_position (pos : string) : option string :=
  let '(lb_round, match_in_round) := parse_round_match pos "LR" in
  if bool_decide (lb_round = 0) then None
  else Some
    (if bool_decide (Z.rem lb_round 2 = 1 ∧ lb_round > 1) then position "LR" (i32_add lb_round 1) match_in_round
     else if bool_decide (lb_round = 1) then position "LR" 2 match_in_round
     else position "LR" (i32_add lb_round 1) (Z.quot (i32_add match_in_round 1) 2)).

(** [derive_result_outcome]: (winner, loser), a tie rejected. *)
Definition derive_result_outcome (match_ : TournamentMatch.t)
    (participant1_score participant2_score : Z)
    : outcome (TournamentRegistrationId * TournamentRegistrationId) :=
  match TournamentMatch.participant1_registration_id match_,
        TournamentMatch.participant2_registration_id match_ with
  | Some p1, Some p2 =>
      match participant1_score ?= participant2_score with
      | Gt => Ok (p1, p2)
      | Lt => Ok (p2, p1)
      | Eq => throw (DomainError.InvalidState
          ("Cannot determine a winner from a tied score (" +:+ pretty participant1_score +:+ "-" +:+
           pretty participant2_score +:+ ")"))
      end
  | _, _ => throw (DomainError.InvalidState "Match does not have two participants")
  end.

Section helpers.
Context `{Platform}.

Definition assign_seeded (match_id : TournamentMatchId) (slot : Z) (p : SeededParticipant.t) : M unit :=
  let* _ := assign_participant match_id (slot_of slot) (SeededParticipant.registration_id p)
              (SeededParticipant.participant_name p) (SeededParticipant.participant_logo_url p)
              (Some (SeededParticipant.seed p)) in
  mret tt.

Definition apply_initial_assignments (assignments : list InitialAssignment.t)
    (position_to_match : PositionMap) : M unit :=
  mfor assignments (λ a,
    match position_to_match !! InitialAssignment.bracket_position a with
    | Some match_id => assign_seeded match_id (InitialAssignment.slot a) (InitialAssignment.participant a)
    | None => mret tt
    end).

Definition apply_byes (byes : list ByeInfo.t) (position_to_match : PositionMap) : M unit :=
  mfor byes (λ bye,
    match position_to_match !! ByeInfo.advances_to_position bye with
    | Some match_id => assign_seeded match_id (ByeInfo.slot bye) (ByeInfo.participant bye)
    | None => mret tt
    end).

Definition set_se_progression_links (matches : list TournamentMatch.t)
    (position_to_match : PositionMap) : M unit :=
  mfor matches (λ match_,
    match se_next_position (TournamentMatch.bracket_position match_) with
    | None => mret tt
    | Some next_pos =>
        match position_to_match !! next_pos with
        | Some next_match_id =>
            set_progression_links (TournamentMatch.id match_) (Some next_match_id) None
        | None => mret tt
        end
    end).
End helpers.
