(* ===== verification/HelpersProps.v ===== *)
(** The progression links the services compute from position names follow the
    participant sources the generators wrote into the matches. *)
From Stdlib Require Import Ascii.
From stdpp Require Import base list strings gmap pretty.
From S2P Require Import Prelude Errors Wire TournamentTypes Entities BracketModel.
From S2P Require Import FormatPlan Elimination EliminationFacts.
From S2P Require Import SingleEliminationProps DoubleEliminationProps Rows Store.
From S2P Require Import Helpers.
#[local] Open Scope Z_scope.

(** ** Reading positions back *)

Lemma position_split prefix r m :
  0 ≤ r → 0 ≤ m → char_free "M" prefix = true →
  split_on "M" (position prefix r m) = [prefix +:+ pretty r; pretty m].
Proof.
  intros Hr Hm Hp. unfold position.
  change (pretty r +:+ "M" +:+ pretty m) with (pretty r +:+ String "M" (pretty m)).
  rewrite <- str_app_assoc, split_on_app.
  - f_equal. apply split_on_free, digits_char_free, pretty_Z_digits; done.
  - unfold char_free. rewrite str_forall_app. apply andb_true_iff. split; [done|].
    apply digits_char_free, pretty_Z_digits; done.
Qed.

Lemma parse_round_match_position prefix r m :
  0 ≤ r → 0 ≤ m → in_i32 r → in_i32 m → parse_round_match (position prefix r m) prefix = (r, m).
Proof.
  intros Hr Hm Hir Him. unfold parse_round_match.
  assert (default "" (strip_prefix prefix (position prefix r m)) = position "" r m) as ->.
  { unfold position. by rewrite strip_prefix_app. }
  rewrite position_split by done.
  rewrite str_app_nil, !parse_i32_pretty by done. done.
Qed.

Lemma se_round_match_position r m :
  0 < r → 0 < m → in_i32 r → in_i32 m → se_round_match (position "R" r m) = Some (r, m).
Proof.
  intros Hr Hm Hir Him. unfold se_round_match. rewrite position_split by (lia || done).
  assert (trim_start_matches "R" ("R" +:+ pretty r) = pretty r) as ->.
  { change ("R" +:+ pretty r) with (String "R" (pretty r)). cbn [trim_start_matches].
    rewrite bool_decide_true by done. apply trim_start_matches_free, digits_char_free, pretty_Z_digits; [done|lia]. }
  rewrite !parse_i32_pretty by done.
  change (default 0 (Some r)) with r. change (default 0 (Some m)) with m. cbv zeta. by rewrite !bool_decide_false by lia.
Qed.

Lemma elim_slot_i32 K r i : (K ≤ 30)%nat → (r, i) ∈ elim_slots K → in_i32 r ∧ in_i32 (i + 1) ∧ in_i32 (i + 1 + 1).
Proof.
  intros HK [Hr Hi]%elem_of_elim_slots.
  assert (2 ^ (Z.of_nat K - r) ≤ 2 ^ 29) by (apply Z.pow_le_mono_r; lia).
  unfold in_i32, i32_min, i32_max. lia.
Qed.

Lemma half_succ i : 0 ≤ i → Z.quot (i + 1 + 1) 2 = i / 2 + 1.
Proof.
  intros Hi. rewrite Z.quot_div_nonneg by lia.
  replace (i + 1 + 1) with (1 * 2 + i) by lia. rewrite Z.div_add_l by lia. lia.
Qed.

Lemma se_next_position_slot K r i :
  (K ≤ 30)%nat → (r, i) ∈ elim_slots K →
  se_next_position (position "R" r (i + 1)) = Some (position "R" (r + 1) (i / 2 + 1)).
Proof.
  intros HK Hin. destruct (elim_slot_i32 K r i HK Hin) as (? & ? & ?).
  apply elem_of_elim_slots in Hin as [Hr Hi]. unfold se_next_position.
  rewrite se_round_match_position by (done || lia). cbn.
  rewrite !i32_add_id by (done || unfold in_i32, i32_min, i32_max; lia). by rewrite half_succ by lia.
Qed.

Lemma wb_next_position_slot K r i :
  (K ≤ 30)%nat → (r, i) ∈ elim_slots K →
  wb_next_position (position "WR" r (i + 1)) = Some (position "WR" (r + 1) (i / 2 + 1)).
Proof.
  intros HK Hin. destruct (elim_slot_i32 K r i HK Hin) as (? & ? & ?).
  apply elem_of_elim_slots in Hin as [Hr Hi]. unfold wb_next_position.
  rewrite parse_round_match_position by (done || lia). rewrite bool_decide_false by lia.
  rewrite !i32_add_id by (done || unfold in_i32, i32_min, i32_max; lia). by rewrite half_succ by lia.
Qed.

(** ** The elimination tree *)

(** [t] waits for the winner of the match at [pos]. *)
Definition waits_for (pos : string) (t : CreateTournamentMatch.t) : Prop :=
  CreateTournamentMatch.participant1_source t = Some (MatchParticipantSource.WinnerOf pos) ∨
  CreateTournamentMatch.participant2_source t = Some (MatchParticipantSource.WinnerOf pos).

Lemma elim_next_slot K r i :
  (r, i) ∈ elim_slots K → r < Z.of_nat K → (r + 1, i / 2) ∈ elim_slots K.
Proof.
  rewrite !elem_of_elim_slots. intros [Hr Hi] Hlt. split; [lia|].
  replace (Z.of_nat K - r) with (Z.succ (Z.of_nat K - (r + 1))) in Hi by lia.
  rewrite Z.pow_succ_r in Hi by lia. split; [apply Z.div_pos; lia|]. apply Z.div_lt_upper_bound; lia.
Qed.

Lemma slot_match_waits prefix tid sid bid order plan final n r i :
  1 ≤ r → 0 ≤ i →
  waits_for (position prefix r (i + 1))
    (slot_match prefix tid sid bid order plan final n (r + 1, i / 2)).
Proof.
  intros Hr Hi. unfold waits_for, slot_match, slot_sources. cbn [fst snd].
  rewrite bool_decide_false by lia. cbn. replace (r + 1 - 1) with r by lia.
  pose proof (Z.div_mod i 2 ltac:(lia)). pose proof (Z.mod_pos_bound i 2 ltac:(lia)).
  destruct (decide (i mod 2 = 0)); [left|right]; do 3 f_equal; lia.
Qed.

(** In a single elimination the link computed from a match's position
  ("R{r}M{m} goes to R{r+1}M{(m+1)/2}") leads to the match whose sources name
  this one; the final's link leads nowhere. *)
Theorem se_links_follow_sources tid sid bid parts plan :
  2 ≤ Z.of_nat (length parts) ≤ 2 ^ 30 →
  ∃ b, single_elimination tid sid bid parts plan = Ok b ∧
    ∀ m, m ∈ GeneratedBracket.matches b →
      let pos := CreateTournamentMatch.bracket_position m in
      ∃ next, se_next_position pos = Some next ∧
        (CreateTournamentMatch.round m < GeneratedBracket.total_rounds b →
           ∃ t, t ∈ GeneratedBracket.matches b ∧
             CreateTournamentMatch.bracket_position t = next ∧ waits_for pos t) ∧
        (CreateTournamentMatch.round m = GeneratedBracket.total_rounds b →
           next ∉ CreateTournamentMatch.bracket_position <$> GeneratedBracket.matches b).
Proof.
  intros Hn. destruct (single_elimination_ok tid sid bid parts plan Hn) as (k & Hk & Hb & ->).
  exists (se_bracket tid sid bid parts plan k). split; [done|].
  intros m (n & r & i & Hin & ->)%elem_of_se_matches. cbn zeta.
  exists (position "R" (r + 1) (i / 2 + 1)).
  split; [apply (se_next_position_slot (S k)); [lia|done]|].
  pose proof Hin as [Hr Hi]%elem_of_elim_slots. split.
  - intros Hlt. destruct (se_match_at tid sid bid parts plan k (r + 1) (i / 2)) as [n' Hm].
    { apply elim_next_slot; done. }
    eexists. split; [exact Hm|]. split; [done|]. apply slot_match_waits; lia.
  - intros Hlast. rewrite se_positions. intros ([r' i'] & Heq & Hin')%list_elem_of_fmap.
    apply elem_of_elim_slots in Hin' as [Hr' _]. cbn in Heq, Hlast.
    apply position_inj in Heq as [Heq _]; lia.
Qed.

Example se_links_follow_sources_witness :
  2 ≤ Z.of_nat (length (sample_participant <$> [1; 2; 3]%nat)) ≤ 2 ^ 30 ∧
  ∃ b, single_elimination 1 1 1 (sample_participant <$> [1; 2; 3]%nat) (uniform MatchFormat.Bo1) = Ok b.
Proof.
  assert (2 ≤ Z.of_nat (length (sample_participant <$> [1; 2; 3]%nat)) ≤ 2 ^ 30) as Hn by (cbn; lia).
  split; [exact Hn|].
  destruct (se_links_follow_sources 1 1 1 _ (uniform MatchFormat.Bo1) Hn) as (b & Hb & _). by exists b.
Defined.

(** ** The losers bracket *)

Section losers.
Context (k : nat) (Hk : (1 ≤ k ≤ 29)%nat).

Lemma lb_slot_round r i :
  (r, i) ∈ lb_slots k → ∃ j, 0 ≤ j < Z.of_nat k ∧ (r = 2 * j + 1 ∨ r = 2 * j + 2) ∧
    0 ≤ i < 2 ^ (Z.of_nat k - 1 - j).
Proof.
  rewrite lb_slots_pairs by lia. intros (j & Hin & Hj%elem_of_seqZ)%list_elem_of_bind.
  exists j. split; [lia|]. apply elem_of_app in Hin as [Hin|Hin];
    apply list_elem_of_fmap in Hin as (i' & [= -> ->] & Hi%elem_of_seqZ); split; lia.
Qed.

Lemma lb_slot_at j r i :
  0 ≤ j < Z.of_nat k → r = 2 * j + 1 ∨ r = 2 * j + 2 → 0 ≤ i < 2 ^ (Z.of_nat k - 1 - j) →
  (r, i) ∈ lb_slots k.
Proof.
  intros Hj Hr Hi. rewrite lb_slots_pairs by lia. apply list_elem_of_bind. exists j.
  rewrite elem_of_seqZ. split; [|lia]. apply elem_of_app.
  destruct Hr as [-> | ->]; [left|right]; apply list_elem_of_fmap; exists i;
    rewrite elem_of_seqZ; (split; [done|lia]).
Qed.

Definition lb_next_slot (slot : Z * Z) : Z * Z :=
  (slot.1 + 1, if bool_decide (Z.rem slot.1 2 = 1) then slot.2 else slot.2 / 2).

Lemma lb_next_slot_in r i :
  (r, i) ∈ lb_slots k → r < 2 * Z.of_nat k → lb_next_slot (r, i) ∈ lb_slots k.
Proof.
  intros (j & Hj & Hr & Hi)%lb_slot_round Hlt. unfold lb_next_slot. cbn [fst snd].
  destruct Hr as [-> | ->].
  - assert (Z.rem (2 * j + 1) 2 = 1) as ->.
    { rewrite Z.rem_mod_nonneg by lia. symmetry. apply (Z.mod_unique _ _ j); lia. }
    rewrite bool_decide_true by done. apply (lb_slot_at j); lia.
  - assert (Z.rem (2 * j + 2) 2 = 0) as ->.
    { rewrite Z.rem_mod_nonneg by lia. symmetry. apply (Z.mod_unique _ _ (j + 1)); lia. }
    rewrite bool_decide_false by done. apply (lb_slot_at (j + 1)); [lia|left; lia|].
    replace (Z.of_nat k - 1 - j) with (Z.succ (Z.of_nat k - 1 - (j + 1))) in Hi by lia.
    rewrite Z.pow_succ_r in Hi by lia.
    split; [apply Z.div_pos; lia|]. apply Z.div_lt_upper_bound; lia.
Qed.

Lemma lb_slot_i32 r i : (r, i) ∈ lb_slots k → 1 ≤ r ∧ 0 ≤ i ∧ in_i32 (r + 1) ∧ in_i32 (i + 1 + 1) ∧ in_i32 r ∧ in_i32 (i + 1).
Proof.
  intros (j & Hj & Hr & Hi)%lb_slot_round.
  assert (2 ^ (Z.of_nat k - 1 - j) ≤ 2 ^ 29) by (apply Z.pow_le_mono_r; lia).
  unfold in_i32, i32_min, i32_max. lia.
Qed.

Lemma rem_parity r : 1 ≤ r → Z.rem r 2 = 1 ∨ Z.rem r 2 = 0.
Proof. intros Hr. rewrite Z.rem_mod_nonneg by lia. pose proof (Z.mod_pos_bound r 2). lia. Qed.

Lemma lb_next_position_slot r i :
  (r, i) ∈ lb_slots k →
  lb_next_position (position "LR" r (i + 1)) =
  Some (position "LR" (lb_next_slot (r, i)).1 ((lb_next_slot (r, i)).2 + 1)).
Proof.
  intros Hin. destruct (lb_slot_i32 r i Hin) as (Hr & Hi & ? & ? & ? & ?).
  unfold lb_next_position, lb_next_slot. cbn [fst snd].
  rewrite parse_round_match_position by (done || lia). rewrite (bool_decide_false (r = 0)) by lia.
  rewrite !i32_add_id by done. destruct (rem_parity r Hr) as [He|He]; rewrite He.
  - rewrite (bool_decide_true (1 = 1)) by done. destruct (decide (r = 1)) as [->|Hr1].
    + rewrite bool_decide_false by lia. by rewrite bool_decide_true by done.
    + by rewrite bool_decide_true by lia.
  - rewrite (bool_decide_false (0 = 1)), bool_decide_false by lia.
    destruct (decide (r = 1)) as [->|Hr1].
    + discriminate He.
    + rewrite bool_decide_false by done. by rewrite half_succ by lia.
Qed.

Lemma lb_slot_match_waits tid sid lbid plan n r i :
  (r, i) ∈ lb_slots k →
  waits_for (position "LR" r (i + 1)) (lb_slot_match k tid sid lbid plan n (lb_next_slot (r, i))).
Proof.
  intros Hin. destruct (lb_slot_i32 r i Hin) as (Hr & Hi & _).
  unfold waits_for, lb_slot_match, lb_participant_sources, lb_next_slot. cbn [fst snd].
  rewrite (bool_decide_false (r + 1 = 1)) by lia. replace (r + 1 - 1) with r by lia.
  destruct (rem_parity r Hr) as [He|He]; rewrite He.
  - rewrite (bool_decide_true (1 = 1)) by done. left. rewrite bool_decide_true; [done|].
    rewrite Z.rem_mod_nonneg in * by lia. rewrite Zplus_mod, He. done.
  - rewrite (bool_decide_false (0 = 1)) by done. rewrite bool_decide_false.
    + cbn. pose proof (Z.div_mod i 2 ltac:(lia)). pose proof (Z.mod_pos_bound i 2 ltac:(lia)).
      destruct (decide (i mod 2 = 0)); [left|right]; do 3 f_equal; lia.
    + rewrite Z.rem_mod_nonneg in * by lia. rewrite Zplus_mod, He. done.
Qed.
End losers.

(** In a double elimination of three entrants or more, the links computed
  from positions agree with the sources in both brackets: below its last round,
  a winners match goes to the winners match waiting for its winner, a losers
  match to the losers match waiting for its winner; and the grand final waits
  for the last match of each, to which the cross-bracket links lead. *)
Theorem de_links_follow_sources tid sid wbid lbid gfid parts plan :
  3 ≤ Z.of_nat (length parts) ≤ 2 ^ 30 →
  ∃ g, double_elimination tid sid wbid lbid gfid parts plan = Ok g ∧
    let wb := GeneratedDoubleElimination.winners_bracket g in
    let lb := GeneratedDoubleElimination.losers_bracket g in
    let agrees next b := ∀ m, m ∈ GeneratedBracket.matches b →
      CreateTournamentMatch.round m < GeneratedBracket.total_rounds b →
      let pos := CreateTournamentMatch.bracket_position m in
      ∃ t, t ∈ GeneratedBracket.matches b ∧
        next pos = Some (CreateTournamentMatch.bracket_position t) ∧ waits_for pos t in
    agrees wb_next_position wb ∧ agrees lb_next_position lb ∧
    ∃ gf, GeneratedBracket.matches (GeneratedDoubleElimination.grand_final g) = [gf] ∧
      ∀ pos, pos = position "WR" (GeneratedBracket.total_rounds wb) 1 ∨
             pos = position "LR" (GeneratedBracket.total_rounds lb) 1 →
        waits_for pos gf ∧
        CrossBracketLink.mk pos (CreateTournamentMatch.bracket_position gf) CrossLinkType.WinnerAdvancesTo
          ∈ GeneratedDoubleElimination.cross_bracket_links g.
Proof.
  intros Hn. destruct (double_elimination_ok tid sid wbid lbid gfid parts plan) as (k & Hk & Hb & ->); [lia|].
  pose proof (pow2_bracket_ge3 parts k ltac:(lia)) as Hk1.
  exists (de_structure tid sid wbid lbid gfid parts plan k). split; [done|]. cbv zeta.
  split; [|split].
  - intros m Hm Hlt. cbn in Hm. apply elem_of_lookup_imap_1 in Hm as (j & [r i] & -> & Hj).
    apply list_elem_of_lookup_2 in Hj as Hin. cbn in Hlt.
    pose proof Hin as [Hr Hi]%elem_of_elim_slots.
    pose proof (elim_next_slot (S k) r i Hin ltac:(lia)) as [j' Hj']%list_elem_of_lookup_1.
    exists (slot_match "WR" tid sid wbid (seeding (S k)) plan 0 (Z.of_nat j' + 1) (r + 1, i / 2)).
    split; [apply elem_of_lookup_imap; eauto|]. cbn.
    split; [apply (wb_next_position_slot (S k)); [lia|done]|]. apply slot_match_waits; lia.
  - intros m Hm Hlt. cbn in Hm. apply elem_of_lookup_imap_1 in Hm as (j & [r i] & -> & Hj).
    apply list_elem_of_lookup_2 in Hj as Hin. cbn in Hlt.
    pose proof (lb_next_slot_in k ltac:(lia) r i Hin ltac:(lia)) as [j' Hj']%list_elem_of_lookup_1.
    exists (lb_slot_match k tid sid lbid plan (Z.of_nat j' + 1) (lb_next_slot (r, i))).
    split; [apply elem_of_lookup_imap; eauto|]. cbn [CreateTournamentMatch.bracket_position lb_slot_match new_match fst snd].
    split; [apply (lb_next_position_slot k); [lia|done]|]. apply lb_slot_match_waits; [lia|done].
  - eexists. split; [reflexivity|]. intros pos Hpos. split.
    + destruct Hpos as [-> | ->]; [left|right]; reflexivity.
    + cbn. rewrite !elem_of_app. right. right. unfold grand_final_links.
      destruct Hpos as [-> | ->]; set_solver.
Qed.

Example de_links_follow_sources_witness :
  3 ≤ Z.of_nat (length (sample_participant <$> [1; 2; 3]%nat)) ≤ 2 ^ 30 ∧
  ∃ g, double_elimination 1 1 1 2 3 (sample_participant <$> [1; 2; 3]%nat) (uniform MatchFormat.Bo1) = Ok g.
Proof.
  assert (3 ≤ Z.of_nat (length (sample_participant <$> [1; 2; 3]%nat)) ≤ 2 ^ 30) as Hn by (cbn; lia).
  split; [exact Hn|].
  destruct (de_links_follow_sources 1 1 1 2 3 _ (uniform MatchFormat.Bo1) Hn) as (g & Hg & _). by exists g.
Defined.
