(* ===== verification/Progression.v ===== *)
(** [ProgressionService]
    (crates/portal-domain/src/services/tournament/progression.rs): advancing
    winners, routing losers, finding ready matches, detecting completion,
    seeding the playoffs, reverting and reapplying a result. *)
From stdpp Require Import base list strings gmap.
From S2P Require Import Prelude Errors Wire TournamentTypes Entities BracketModel.
From S2P Require Import FormatPlan Elimination Rounds Rows Store Standings.
From S2P Require Import Helpers.
#[local] Open Scope Z_scope.

(** What reverting a result has to undo, per bracket family. *)
Module RevertEffect.
Inductive t := ClearRecordedResult | WithdrawFromDownstream.
#[global] Instance eq_dec : EqDecision t.
Proof. solve_decision. Defined.
End RevertEffect.

Definition revert_effect (bracket_type : BracketType.t) : RevertEffect.t :=
  match bracket_type with
  | BracketType.RoundRobin | BracketType.Swiss => RevertEffect.ClearRecordedResult
  | BracketType.SingleElim | BracketType.Winners | BracketType.Losers | BracketType.GrandFinal =>
      RevertEffect.WithdrawFromDownstream
  end.

Module ProgressionRole.
Inductive t := Winner | Loser.
#[global] Instance eq_dec : EqDecision t.
Proof. solve_decision. Defined.
Definition fills_from (self : t) (source : MatchParticipantSource.t) (position : string) : bool :=
  match self, source with
  | Winner, MatchParticipantSource.WinnerOf pos => bool_decide (pos = position)
  | Loser, MatchParticipantSource.LoserOf pos => bool_decide (pos = position)
  | _, _ => false
  end.
Definition label (self : t) : string :=
  match self with Winner => "winner" | Loser => "loser" end.
End ProgressionRole.

Definition target_is_still_untouched (status : TournamentMatchStatus.t) : bool :=
  match status with
  | TournamentMatchStatus.Pending | TournamentMatchStatus.Ready | TournamentMatchStatus.Scheduled => true
  | _ => false
  end.

Module Advancement.
Record t := mk { target_match_id : TournamentMatchId; target_position : Z }.
End Advancement.

Module LoserResult.
Inductive t :=
| Eliminated
| DropsTo (target_match_id : TournamentMatchId) (target_position : Z)
| NotApplicable.
End LoserResult.

Module ProgressionResult.
Record t := mk {
  match_id : TournamentMatchId;
  winner_advancement : option Advancement.t;
  loser_result : LoserResult.t;
  updated_standings : list TournamentStanding.t;
  newly_ready_matches : list TournamentMatchId;
  bracket_complete : bool;
  tournament_complete : bool;
  stage_advanced : bool;
}.
End ProgressionResult.

(** Standings formats derive a table from results and route nobody. *)
Definition is_standings_bracket (bracket_type : BracketType.t) : bool :=
  match bracket_type with BracketType.RoundRobin | BracketType.Swiss => true | _ => false end.

(** [determine_target_position]: the slot wired to the source match, else the
    first empty one. *)
Definition determine_target_position (source_match target_match : TournamentMatch.t)
    (is_winner : bool) : outcome Z :=
  let source_position := TournamentMatch.bracket_position source_match in
  let matches_source source :=
    match source with
    | MatchParticipantSource.WinnerOf pos => is_winner && bool_decide (pos = source_position)
    | MatchParticipantSource.LoserOf pos => negb is_winner && bool_decide (pos = source_position)
    | _ => false
    end in
  if from_option matches_source false (TournamentMatch.participant1_source target_match) then Ok 1
  else if from_option matches_source false (TournamentMatch.participant2_source target_match) then Ok 2
  else
    match TournamentMatch.participant1_registration_id target_match,
          TournamentMatch.participant2_registration_id target_match with
    | None, _ => Ok 1
    | _, None => Ok 2
    | _, _ => throw (DomainError.InvalidState "Target match already has both participants")
    end.

Section progression.
Context `{Platform}.

Definition get_match (id : TournamentMatchId) : M TournamentMatch.t :=
  let* m := find_match_by_id id in
  mlift (ok_or m (Error (DomainError.TournamentMatchNotFound id))).

Definition get_bracket (id : TournamentBracketId) : M TournamentBracket.t :=
  let* b := find_bracket_by_id id in
  mlift (ok_or b (Error (DomainError.Internal ("Bracket " +:+ uuid_string id +:+ " not found")))).

Definition get_registration (id : TournamentRegistrationId) : M TournamentRegistration.t :=
  let* r := find_registration_by_id id in
  mlift (ok_or r (Error (DomainError.Internal ("Registration " +:+ uuid_string id +:+ " not found")))).

(** ** Advancing *)

(** Seat a registration in its slot of the target match. *)
Definition seat_in_target (source_match : TournamentMatch.t) (target_match_id : TournamentMatchId)
    (is_winner : bool) (registration_id : TournamentRegistrationId) : M Z :=
  let* target_match := get_match target_match_id in
  let* target_position := mlift (determine_target_position source_match target_match is_winner) in
  let* registration := get_registration registration_id in
  let* _ := assign_participant target_match_id (slot_of target_position) registration_id
              (TournamentRegistration.participant_name registration)
              (TournamentRegistration.participant_logo_url registration)
              (TournamentRegistration.seed registration) in
  mret target_position.

Definition advance_winner (source_match : TournamentMatch.t)
    (winner_registration_id : TournamentRegistrationId) : M (option Advancement.t) :=
  match TournamentMatch.winner_progresses_to source_match with
  | None => mret None
  | Some target_match_id =>
      let* target_position := seat_in_target source_match target_match_id true winner_registration_id in
      mret (Some (Advancement.mk target_match_id target_position))
  end.

Definition route_loser (source_match : TournamentMatch.t) (bracket : TournamentBracket.t)
    (loser_registration_id : TournamentRegistrationId) : M LoserResult.t :=
  if is_standings_bracket (TournamentBracket.bracket_type bracket) then mret LoserResult.NotApplicable
  else
    match TournamentMatch.loser_progresses_to source_match with
    | None => mret LoserResult.Eliminated
    | Some target_match_id =>
        let* target_position := seat_in_target source_match target_match_id false loser_registration_id in
        mret (LoserResult.DropsTo target_match_id target_position)
    end.

Definition record_outcome (match_ : TournamentMatch.t)
    (winner_id loser_id : TournamentRegistrationId) : M unit :=
  if bool_decide (TournamentMatch.winner_registration_id match_ = Some winner_id ∧
                  TournamentMatch.loser_registration_id match_ = Some loser_id)
  then mret tt
  else
    let* _ := submit_result (TournamentMatch.id match_) (TournamentMatch.participant1_score match_)
                (TournamentMatch.participant2_score match_) winner_id loser_id in
    mret tt.

(** Pending with both slots filled. *)
Definition is_newly_ready (m : TournamentMatch.t) : bool :=
  TournamentMatch.is_pending m && TournamentMatch.has_both_participants m.

Definition find_newly_ready_matches (bracket_id : TournamentBracketId) : M (list TournamentMatchId) :=
  let* matches := list_matches_by_bracket bracket_id in
  let ready := TournamentMatch.id <$> filter (λ m, is_newly_ready m = true) matches in
  let* _ := (match ready with [] => mret tt | _ => mark_pending_as_ready_bulk ready end) in
  mret ready.

(** ** Completion *)

Definition is_done (m : TournamentMatch.t) : bool :=
  match TournamentMatch.status m with
  | TournamentMatchStatus.Completed | TournamentMatchStatus.Cancelled => true
  | _ => false
  end.

Definition check_bracket_completion (bracket_id : TournamentBracketId) : M bool :=
  let* matches := list_matches_by_bracket bracket_id in
  mret (forallb is_done matches).

(** The loops that leave at the first unfinished bracket. *)
Fixpoint all_brackets_complete (brackets : list TournamentBracket.t) : M bool :=
  match brackets with
  | [] => mret true
  | bracket :: brackets =>
      let* complete := check_bracket_completion (TournamentBracket.id bracket) in
      if complete then all_brackets_complete brackets else mret false
  end.

Definition check_stage_completion (stage_id : TournamentStageId) : M bool :=
  let* brackets := list_brackets_by_stage stage_id in
  all_brackets_complete brackets.

Fixpoint all_stages_complete (stages : list TournamentStage.t) : M bool :=
  match stages with
  | [] => mret true
  | stage :: stages =>
      let* complete := check_stage_completion (TournamentStage.id stage) in
      if complete then all_stages_complete stages else mret false
  end.

Definition check_tournament_completion (tournament_id : TournamentId) : M bool :=
  let* stages := list_stages_by_tournament tournament_id in
  all_stages_complete stages.

(** ** Seeding the playoffs *)

(** [position_to_match.get(pos)] for a computed position, if there is one. *)
Definition link_target (position_to_match : PositionMap) (next_pos : option string)
    : option TournamentMatchId :=
  next_pos ≫= λ pos, position_to_match !! pos.

Definition generate_se_playoff (tournament_id : TournamentId) (stage_id : TournamentStageId)
    (participants : list SeededParticipant.t) (format_plan : MatchFormatPlan) : M unit :=
  let* bracket := create_bracket (CreateTournamentBracket.mk stage_id tournament_id "Playoffs"
                    BracketType.SingleElim 0 None) in
  let bracket_id := TournamentBracket.id bracket in
  let* generated := mlift (single_elimination tournament_id stage_id bracket_id participants format_plan) in
  let* _ := update_bracket bracket_id
              (UpdateTournamentBracket.mk None (Some (GeneratedBracket.total_rounds generated)) (Some 1)) in
  let* matches := bulk_create (GeneratedBracket.matches generated) in
  let position_to_match := build_position_map matches in
  let* _ := apply_initial_assignments (GeneratedBracket.initial_assignments generated) position_to_match in
  let* _ := apply_byes (GeneratedBracket.byes generated) position_to_match in
  let* _ := set_se_progression_links matches position_to_match in
  let* _ := find_newly_ready_matches bracket_id in
  mret tt.

Abbreviation LinkMap := (gmap TournamentMatchId (option TournamentMatchId * option TournamentMatchId))
  (only parsing).

(** [progression.entry(id).or_insert((None, None))] and an assignment to it. *)
Definition set_winner_link (id target : TournamentMatchId) (progression : LinkMap) : LinkMap :=
  <[id := (Some target, snd (default (None, None) (progression !! id)))]> progression.
Definition set_loser_link (id target : TournamentMatchId) (progression : LinkMap) : LinkMap :=
  <[id := (fst (default (None, None) (progression !! id)), Some target)]> progression.

(** The winner links inside one bracket. *)
Definition intra_bracket_links (next : string → option string) (position_to_match : PositionMap)
    (matches : list TournamentMatch.t) (progression : LinkMap) : LinkMap :=
  fold_left (λ progression match_,
    match link_target position_to_match (next (TournamentMatch.bracket_position match_)) with
    | Some next_id => set_winner_link (TournamentMatch.id match_) next_id progression
    | None => progression
    end) matches progression.

Definition cross_bracket_progression (position_to_match : PositionMap)
    (links : list CrossBracketLink.t) (progression : LinkMap) : LinkMap :=
  fold_left (λ progression link,
    match position_to_match !! CrossBracketLink.source_bracket_position link,
          position_to_match !! CrossBracketLink.target_bracket_position link with
    | Some src, Some tgt =>
        match CrossBracketLink.link_type link with
        | CrossLinkType.LoserDropsTo => set_loser_link src tgt progression
        | CrossLinkType.WinnerAdvancesTo => set_winner_link src tgt progression
        end
    | _, _ => progression
    end) links progression.

Definition generate_de_playoff (tournament_id : TournamentId) (stage_id : TournamentStageId)
    (participants : list SeededParticipant.t) (format_plan : MatchFormatPlan) : M unit :=
  let create name bracket_type :=
    create_bracket (CreateTournamentBracket.mk stage_id tournament_id name bracket_type 0 None) in
  let* wb := create "Winners Bracket" BracketType.Winners in
  let* lb := create "Losers Bracket" BracketType.Losers in
  let* gf := create "Grand Final" BracketType.GrandFinal in
  let* generated := mlift (double_elimination tournament_id stage_id (TournamentBracket.id wb)
                      (TournamentBracket.id lb) (TournamentBracket.id gf) participants format_plan) in
  let winners := GeneratedDoubleElimination.winners_bracket generated in
  let losers := GeneratedDoubleElimination.losers_bracket generated in
  let set_rounds id rounds :=
    let* _ := update_bracket id (UpdateTournamentBracket.mk None (Some rounds) (Some 1)) in mret tt in
  let* _ := set_rounds (TournamentBracket.id wb) (GeneratedBracket.total_rounds winners) in
  let* _ := (if bool_decide (GeneratedBracket.total_rounds losers > 0)
             then set_rounds (TournamentBracket.id lb) (GeneratedBracket.total_rounds losers)
             else mret tt) in
  let* _ := set_rounds (TournamentBracket.id gf) 1 in
  let* wb_matches := bulk_create (GeneratedBracket.matches winners) in
  let* lb_matches := (match GeneratedBracket.matches losers with
                      | [] => mret []
                      | ms => bulk_create ms
                      end) in
  let* gf_matches := bulk_create (GeneratedBracket.matches
                       (GeneratedDoubleElimination.grand_final generated)) in
  let position_to_match :=
    extend_position_map (extend_position_map (build_position_map wb_matches)
      (build_position_map lb_matches)) (build_position_map gf_matches) in
  let* _ := apply_initial_assignments (GeneratedBracket.initial_assignments winners) position_to_match in
  let* _ := apply_byes (GeneratedBracket.byes winners) position_to_match in
  let progression :=
    cross_bracket_progression position_to_match
      (GeneratedDoubleElimination.cross_bracket_links generated)
      (intra_bracket_links lb_next_position position_to_match lb_matches
        (intra_bracket_links wb_next_position position_to_match wb_matches ∅)) in
  let* _ := mfor (map_to_list progression)
              (λ '(match_id, (winner_to, loser_to)), set_progression_links match_id winner_to loser_to) in
  let* _ := find_newly_ready_matches (TournamentBracket.id wb) in
  mret tt.

(** A loop that pushes what each element gives. *)
Fixpoint mmap {A B} (f : A → M B) (l : list A) : M (list B) :=
  match l with
  | [] => mret []
  | x :: l =>
      let* y := f x in
      let* ys := mmap f l in
      mret (y :: ys)
  end.

Definition seeded_of_standing (standing : TournamentStanding.t) : M SeededParticipant.t :=
  let* reg := get_registration (TournamentStanding.registration_id standing) in
  mret {|
    SeededParticipant.registration_id := TournamentRegistration.id reg;
    SeededParticipant.seed := TournamentStanding.position standing;
    SeededParticipant.participant_name := TournamentRegistration.participant_name reg;
    SeededParticipant.participant_logo_url := TournamentRegistration.participant_logo_url reg |}.

(** [sort_by_key(|b| b.group_number.unwrap_or(0))]. *)
Definition group_number_leb (a b : TournamentBracket.t) : bool :=
  bool_decide (default 0 (TournamentBracket.group_number a) ≤ default 0 (TournamentBracket.group_number b)).

Definition advance_to_next_stage (tournament_id : TournamentId) (completed_stage : TournamentStage.t)
    : M TournamentStageId :=
  let* next_stage := find_next_stage tournament_id (TournamentStage.stage_order completed_stage) in
  let* next_stage := mlift (ok_or next_stage
    (Error (DomainError.InvalidState "No next stage found for advancement"))) in
  let* brackets := list_brackets_by_stage (TournamentStage.id completed_stage) in
  let group_brackets := stable_sort group_number_leb brackets in
  (* i32 to usize: a negative count wraps *)
  let advance_per_group := default 2 (TournamentStage.advancement_count completed_stage) `mod` 2 ^ 64 in
  let* group_standings := mmap (λ bracket,
    let* standings := mread (standings_of_bracket (TournamentBracket.id bracket)) in
    mmap seeded_of_standing standings) group_brackets in
  let playoff_participants := cross_seed_for_playoffs group_standings advance_per_group in
  if bool_decide (Z.of_nat (length playoff_participants) < 2) then
    mthrow (DomainError.InvalidState "Not enough participants advanced to playoffs")
  else
    let* format_plan := mlift (result_map_err
      (λ e, Error (DomainError.InvalidState ("invalid stage format settings: " +:+ e)))
      (from_settings (default MatchFormat.Bo3 (TournamentStage.match_format next_stage))
        (Some (TournamentStage.format_settings next_stage)))) in
    let* _ :=
      (match TournamentStage.format next_stage with
       | StageFormat.SingleElimination =>
           generate_se_playoff tournament_id (TournamentStage.id next_stage) playoff_participants format_plan
       | StageFormat.DoubleElimination =>
           generate_de_playoff tournament_id (TournamentStage.id next_stage) playoff_participants format_plan
       | format => mthrow (DomainError.InvalidState
           ("Unsupported playoff format: " +:+ StageFormat.fmt format))
       end) in
    let* _ := transition_stages (TournamentStage.id completed_stage) StageStatus.Completed
                (TournamentStage.id next_stage) StageStatus.Active in
    mret (TournamentStage.id next_stage).

Definition advance_stage_if_complete (bracket_id : TournamentBracketId)
    : M (option TournamentStageId) :=
  let* complete := check_bracket_completion bracket_id in
  if negb complete then mret None
  else
    let* bracket := get_bracket bracket_id in
    let* stage := find_stage_by_id (TournamentBracket.stage_id bracket) in
    let* stage := mlift (ok_or stage (Error (DomainError.Internal
      ("Stage " +:+ uuid_string (TournamentBracket.stage_id bracket) +:+ " not found")))) in
    if negb (bool_decide (TournamentStage.format stage = StageFormat.GroupStage))
       || bool_decide (TournamentStage.status stage = StageStatus.Completed) then mret None
    else
      let* next := find_next_stage (TournamentBracket.tournament_id bracket)
                     (TournamentStage.stage_order stage) in
      match next with
      | None => mret None
      | Some _ =>
          let* stage_complete := check_stage_completion (TournamentStage.id stage) in
          if negb stage_complete then mret None
          else
            let* next_stage_id := advance_to_next_stage (TournamentBracket.tournament_id bracket) stage in
            mret (Some next_stage_id)
      end.

(** ** A completed match *)

Definition process_match_completion (match_id : TournamentMatchId)
    (winner_registration_id loser_registration_id : TournamentRegistrationId)
    : M ProgressionResult.t :=
  let* match_ := get_match match_id in
  let* bracket := get_bracket (TournamentMatch.bracket_id match_) in
  let* _ := record_outcome match_ winner_registration_id loser_registration_id in
  let* winner_advancement := advance_winner match_ winner_registration_id in
  let* loser_result := route_loser match_ bracket loser_registration_id in
  let* updated_standings :=
    (if is_standings_bracket (TournamentBracket.bracket_type bracket)
     then recompute_bracket (TournamentBracket.id bracket) else mret []) in
  let* newly_ready_matches := find_newly_ready_matches (TournamentMatch.bracket_id match_) in
  let* bracket_complete := check_bracket_completion (TournamentMatch.bracket_id match_) in
  let* advanced := advance_stage_if_complete (TournamentMatch.bracket_id match_) in
  let* tournament_complete :=
    (if bracket_complete then check_tournament_completion (TournamentMatch.tournament_id match_)
     else mret false) in
  mret {|
    ProgressionResult.match_id := match_id;
    ProgressionResult.winner_advancement := winner_advancement;
    ProgressionResult.loser_result := loser_result;
    ProgressionResult.updated_standings := updated_standings;
    ProgressionResult.newly_ready_matches := newly_ready_matches;
    ProgressionResult.bracket_complete := bracket_complete;
    ProgressionResult.tournament_complete := tournament_complete;
    ProgressionResult.stage_advanced := bool_decide (is_Some advanced) |}.

(** ** Reverting *)

(** [[p1, p2].into_iter().flatten()]. *)
Definition participants_of (m : TournamentMatch.t) : list TournamentRegistrationId :=
  option_list (TournamentMatch.participant1_registration_id m)
  ++ option_list (TournamentMatch.participant2_registration_id m).

(** (slot, source, occupant) of both sides of a match. *)
Definition slots_of (m : TournamentMatch.t)
    : list (ParticipantSlot.t * option MatchParticipantSource.t * option TournamentRegistrationId) :=
  [(ParticipantSlot.One, TournamentMatch.participant1_source m,
    TournamentMatch.participant1_registration_id m);
   (ParticipantSlot.Two, TournamentMatch.participant2_source m,
    TournamentMatch.participant2_registration_id m)].

(** The slot wired to the source match; failing that, the slot one of its
    participants sits in. *)
Definition resolve_slot (source_match target : TournamentMatch.t) (role : ProgressionRole.t)
    : option (ParticipantSlot.t * option TournamentRegistrationId) :=
  let candidates := participants_of source_match in
  let wired '(_, source, _) :=
    from_option (λ s, ProgressionRole.fills_from role s (TournamentMatch.bracket_position source_match))
      false source in
  let held '(_, _, occupant) :=
    from_option (λ id, bool_decide (id ∈ candidates)) false occupant in
  let found :=
    match list_find (λ s, wired s = true) (slots_of target) with
    | Some r => Some r
    | None => list_find (λ s, held s = true) (slots_of target)
    end in
  (λ '(_, (slot, _, occupant)), (slot, occupant)) <$> found.

(** What keeps a revert out of the target, if anything does. *)
Definition revert_blocker (target : TournamentMatch.t) : M (option string) :=
  if TournamentMatch.has_winner target then mret (Some "has a recorded result")
  else if negb (target_is_still_untouched (TournamentMatch.status target)) then
    mret (Some ("is " +:+ TournamentMatchStatus.fmt (TournamentMatch.status target)))
  else
    match TournamentMatch.winner_progresses_to target with
    | None => mret None
    | Some deeper_id =>
        let* deeper := get_match deeper_id in
        let target_participants :=
          [TournamentMatch.participant1_registration_id target;
           TournamentMatch.participant2_registration_id target] in
        let advanced := existsb (λ id, bool_decide (Some id ∈ target_participants))
                          (participants_of deeper) in
        mret (if advanced then
                Some ("has already advanced a participant into "
                      +:+ TournamentMatch.bracket_position deeper)
              else None)
    end.

Definition ensure_target_has_not_moved_on (source_match target : TournamentMatch.t) : M unit :=
  let* blocker := revert_blocker target in
  match blocker with
  | Some what => mthrow (DomainError.Conflict
      ("Cannot revert " +:+ TournamentMatch.bracket_position source_match
       +:+ ": the next-round match " +:+ TournamentMatch.bracket_position target +:+ " " +:+ what
       +:+ ". Revert " +:+ TournamentMatch.bracket_position target
       +:+ " first, then retry — rolling back into a round that has already been played would silently discard that result."))
  | None => mret tt
  end.

Definition withdraw_from_target (source_match : TournamentMatch.t)
    (target_match_id : option TournamentMatchId) (role : ProgressionRole.t) : M bool :=
  match target_match_id with
  | None => mret false
  | Some target_match_id =>
      let candidates := participants_of source_match in
      if bool_decide (candidates = []) then mret false
      else
        let* target := get_match target_match_id in
        match resolve_slot source_match target role with
        | None => mret false
        | Some (_, None) => mret false
        | Some (slot, Some occupant) =>
            if negb (bool_decide (occupant ∈ candidates)) then
              mthrow (DomainError.Conflict
                ("Cannot revert " +:+ TournamentMatch.bracket_position source_match
                 +:+ ": the " +:+ ProgressionRole.label role +:+ " slot of "
                 +:+ TournamentMatch.bracket_position target +:+ " is held by registration "
                 +:+ uuid_string occupant +:+ ", who did not play in "
                 +:+ TournamentMatch.bracket_position source_match
                 +:+ ". The bracket is inconsistent — refusing to evict a participant this match did not put there."))
            else
              let* _ := ensure_target_has_not_moved_on source_match target in
              let* _ := clear_participant target_match_id slot in
              let* _ :=
                (if target_is_still_untouched (TournamentMatch.status target)
                    && negb (TournamentMatch.is_pending target)
                 then let* _ := update_status target_match_id TournamentMatchStatus.Pending in mret tt
                 else mret tt) in
              mret true
        end
  end.

Definition revert_progression (match_id : TournamentMatchId) : M unit :=
  let* match_ := get_match match_id in
  let* bracket := get_bracket (TournamentMatch.bracket_id match_) in
  match revert_effect (TournamentBracket.bracket_type bracket) with
  | RevertEffect.ClearRecordedResult =>
      let* _ :=
        (if bool_decide (is_Some (TournamentMatch.winner_registration_id match_))
            || bool_decide (is_Some (TournamentMatch.loser_registration_id match_))
         then let* _ := clear_result match_id in mret tt else mret tt) in
      let* _ := recompute_bracket (TournamentBracket.id bracket) in
      mret tt
  | RevertEffect.WithdrawFromDownstream =>
      let* _ := withdraw_from_target match_ (TournamentMatch.winner_progresses_to match_)
                  ProgressionRole.Winner in
      let* _ := withdraw_from_target match_ (TournamentMatch.loser_progresses_to match_)
                  ProgressionRole.Loser in
      mret tt
  end.

Definition reapply_progression (match_id : TournamentMatchId)
    (new_winner_registration_id : TournamentRegistrationId) : M ProgressionResult.t :=
  let* match_ := get_match match_id in
  let new_loser :=
    if bool_decide (TournamentMatch.participant1_registration_id match_ = Some new_winner_registration_id)
    then TournamentMatch.participant2_registration_id match_
    else TournamentMatch.participant1_registration_id match_ in
  let* new_loser_registration_id :=
    mlift (ok_or new_loser (Error (DomainError.InvalidState "Cannot determine loser"))) in
  let* _ := revert_progression match_id in
  process_match_completion match_id new_winner_registration_id new_loser_registration_id.
End progression.
