(* ===== verification/Completion.v ===== *)
(** [MatchCompletionSaga]
    (crates/portal-domain/src/services/tournament/match_completion.rs): what
    follows a confirmed result, step by step, each step recorded on the
    execution's row: validation, demos, the result itself, the winner's and the
    loser's next match, readiness, standings, the next stage, statistics.
    The traits of the file are records of operations; the services behind them
    are arguments. The step's JSON outputs are written as the source builds
    them; serde's encoding of the input is a parameter.

    [CompletionTx] is [complete_match_in_transaction]
    (crates/portal-db/src/adapters/tournament/match_completion_tx.rs): the same
    as statements of one transaction, without the record, the demos, the
    marking of ready matches and the change of stage. *)
From stdpp Require Import base list strings gmap.
From S2P Require Import Prelude Errors Wire TournamentTypes DomainEnums FormatPlan Entities Rows.
From S2P Require Import SagaModel Store SagaStore Reviews ClaimStore Standings Helpers.
From S2P Require Import Progression.
#[local] Open Scope Z_scope.

(** [serde_json::to_value] and [from_value] at [MatchCompletionInput]. *)
Class CompletionSerde `{Platform} := {
  input_to_value : MatchCompletionInput.t → result Json string;
  input_from_value : Json → result MatchCompletionInput.t string;
}.

(** What serde documents of derived implementations: they are inverse. *)
Class CompletionSerdeLaws `{CompletionSerde} := {
  input_roundtrip : ∀ input, ∃ v, input_to_value input = Ok v ∧ input_from_value v = Ok input;
}.

Module MatchDemoValidator.
Record t `{Platform} := mk {
  validate_match_demos : TournamentMatchId → ResultClaimId → M (list DemoValidationOutcome.t);
}.
End MatchDemoValidator.

Module MatchStatsUpdater.
Record t `{Platform} := mk {
  update_player_stats : TournamentMatchId → TournamentRegistrationId → TournamentRegistrationId →
    bool → M unit;
}.
End MatchStatsUpdater.

Module StageAdvancer.
Record t `{Platform} := mk {
  advance_if_stage_complete : TournamentBracketId → M (option TournamentStageId);
}.
(** The implementation for [ProgressionService]. *)
Definition progression `{Platform} : t := mk _ advance_stage_if_complete.
End StageAdvancer.

(** [{:?}] of a slot and of a bracket type. *)
Definition slot_debug (slot : ParticipantSlot.t) : string :=
  match slot with ParticipantSlot.One => "One" | ParticipantSlot.Two => "Two" end.
Definition bracket_type_debug (bracket_type : BracketType.t) : string :=
  match bracket_type with
  | BracketType.SingleElim => "SingleElim"
  | BracketType.Winners => "Winners"
  | BracketType.Losers => "Losers"
  | BracketType.GrandFinal => "GrandFinal"
  | BracketType.RoundRobin => "RoundRobin"
  | BracketType.Swiss => "Swiss"
  end.

Definition position_of_slot (slot : ParticipantSlot.t) : Z :=
  match slot with ParticipantSlot.One => 1 | ParticipantSlot.Two => 2 end.

(** A side that waits for either outcome of the match at [position]. *)
Definition fed_by (source : option MatchParticipantSource.t) (position : string) : bool :=
  match source with
  | Some (MatchParticipantSource.WinnerOf pos | MatchParticipantSource.LoserOf pos) =>
      bool_decide (pos = position)
  | _ => false
  end.

(** The slot of [target_match] that [source_match] feeds; failing that, the
    first free one, and the second when none is. *)
Definition target_slot (source_match target_match : TournamentMatch.t) : ParticipantSlot.t :=
  if fed_by (TournamentMatch.participant1_source target_match)
       (TournamentMatch.bracket_position source_match) then ParticipantSlot.One
  else if fed_by (TournamentMatch.participant2_source target_match)
            (TournamentMatch.bracket_position source_match) then ParticipantSlot.Two
  else match TournamentMatch.participant1_registration_id target_match with
       | None => ParticipantSlot.One
       | Some _ => ParticipantSlot.Two
       end.

Module MatchCompletionSaga.
Section saga.
Context `{CompletionSerde}.

Record t := mk {
  demo_validator : MatchDemoValidator.t;
  review_creator : ReviewCreator.t;
  stats_updater : MatchStatsUpdater.t;
  stage_advancer : StageAdvancer.t;
}.
Definition new := mk.

Definition action (name : string) : option Json := Some (json_of_object [("action", json_of_string name)]).
Definition id_json (id : Uuid) : Json := json_of_string (uuid_string id).

Definition get_saga_match (match_id : TournamentMatchId) : M TournamentMatch.t := get_match match_id.

Definition get_tournament_id (match_id : TournamentMatchId) : M TournamentId :=
  let* match_ := get_saga_match match_id in
  mret (TournamentMatch.tournament_id match_).

Definition definition : SagaDefinition.t :=
  SagaDefinition.with_max_retries (SagaDefinition.new "match_completion" 2) 3.

Definition determine_target_slot (source_match : TournamentMatch.t)
    (target_match_id : TournamentMatchId) (is_winner : bool) : M ParticipantSlot.t :=
  let* target_match := get_saga_match target_match_id in
  mret (target_slot source_match target_match).

(** The step is recorded as failed, then the error returned. *)
Definition fail_validation {A} (step_name err : string) : X A :=
  let& _ := SagaCoordinator.fail_step step_name err in
  xthrow (DomainError.InvalidState err).

Definition step_validate_match (input : MatchCompletionInput.t) : X TournamentMatch.t :=
  let step := "validate_match" in
  let& match_ := xlift (get_saga_match (MatchCompletionInput.match_id input)) in
  if negb (bool_decide (TournamentMatch.status match_ = TournamentMatchStatus.Completed))
     && negb (TournamentMatchStatus.can_transition_to (TournamentMatch.status match_)
                TournamentMatchStatus.Completed)
  then fail_validation step ("Match in " +:+ TournamentMatchStatus.fmt (TournamentMatch.status match_)
                             +:+ " status cannot be completed")
  else
    let plays id :=
      bool_decide (TournamentMatch.participant1_registration_id match_ = Some id) ||
      bool_decide (TournamentMatch.participant2_registration_id match_ = Some id) in
    if negb (plays (MatchCompletionInput.winner_registration_id input))
       || negb (plays (MatchCompletionInput.loser_registration_id input))
    then fail_validation step "Winner or loser is not a participant in this match"
    else if bool_decide (MatchCompletionInput.winner_registration_id input =
                         MatchCompletionInput.loser_registration_id input)
    then fail_validation step "Winner and loser cannot be the same"
    else
      let& _ := SagaCoordinator.complete_step step None in
      xret match_.

Definition step_validate_demos (self : t) (input : MatchCompletionInput.t)
    (match_ : TournamentMatch.t) : X (option ResultReview.t) :=
  let done_ output := SagaCoordinator.complete_step "validate_demos" output in
  if MatchCompletionInput.is_forfeit input then
    let& _ := done_ (action "skipped_forfeit") in xret None
  else
    match MatchCompletionInput.result_claim_id input with
    | None => let& _ := done_ (action "no_claim_id") in xret None
    | Some claim_id =>
        let& outcomes := xlift (MatchDemoValidator.validate_match_demos (demo_validator self)
                           (MatchCompletionInput.match_id input) claim_id) in
        match outcomes with
        | [] => let& _ := done_ (action "all_valid") in xret None
        | _ :: _ =>
            let& captain1 := xlift (mlift (ok_or (TournamentMatch.participant1_registration_id match_)
              (Error (DomainError.InvalidState "Match participant 1 not set")))) in
            let& captain2 := xlift (mlift (ok_or (TournamentMatch.participant2_registration_id match_)
              (Error (DomainError.InvalidState "Match participant 2 not set")))) in
            let& review := xlift (ReviewCreator.create_if_needed (review_creator self) claim_id
                             (MatchCompletionInput.match_id input) outcomes captain1 captain2) in
            let& _ := done_ (match review with
              | Some review => Some (json_of_object
                  [("action", json_of_string "review_created");
                   ("review_id", id_json (ResultReview.id review));
                   ("status", json_of_string (ResultReviewStatus.fmt (ResultReview.status review)))])
              | None => action "no_review_needed"
              end) in
            xret review
        end
    end.

Definition step_get_bracket (match_ : TournamentMatch.t) : X TournamentBracket.t :=
  let& bracket := xlift (find_bracket_by_id (TournamentMatch.bracket_id match_)) in
  let& bracket := xlift (mlift (ok_or bracket
    (Error (DomainError.TournamentBracketNotFound (TournamentMatch.bracket_id match_))))) in
  let& _ := SagaCoordinator.complete_step "get_bracket" None in
  xret bracket.

(** The scores in the order of the match's sides. *)
Definition side_scores (match_ : TournamentMatch.t) (input : MatchCompletionInput.t) : Z * Z :=
  if bool_decide (TournamentMatch.participant1_registration_id match_ =
                  Some (MatchCompletionInput.winner_registration_id input))
  then (MatchCompletionInput.winner_score input, MatchCompletionInput.loser_score input)
  else (MatchCompletionInput.loser_score input, MatchCompletionInput.winner_score input).

Definition step_complete_match (input : MatchCompletionInput.t) : X unit :=
  let winner := MatchCompletionInput.winner_registration_id input in
  let& match_ := xlift (get_saga_match (MatchCompletionInput.match_id input)) in
  if bool_decide (TournamentMatch.status match_ = TournamentMatchStatus.Completed) then
    SagaCoordinator.complete_step "complete_match" (Some (json_of_object
      [("action", json_of_string "already_completed"); ("winner_id", id_json winner)]))
  else
    let '(p1_score, p2_score) := side_scores match_ input in
    let& _ := xlift (submit_result (MatchCompletionInput.match_id input) p1_score p2_score winner
                (MatchCompletionInput.loser_registration_id input)) in
    SagaCoordinator.complete_step "complete_match" (Some (json_of_object
      [("winner_id", id_json winner);
       ("score", json_of_string (pretty p1_score +:+ "-" +:+ pretty p2_score))])).

(** What steps 5 and 6 share: look the registration up, find its slot, seat it
    and log it. *)
Definition seat_and_log (match_ : TournamentMatch.t) (input : MatchCompletionInput.t)
    (target_id : TournamentMatchId) (registration_id : TournamentRegistrationId) (is_winner : bool)
    (progression_type : ProgressionType.t) : X ParticipantSlot.t :=
  let& registration := xlift (find_registration_by_id registration_id) in
  let& registration := xlift (mlift (ok_or registration
    (Error (DomainError.TournamentRegistrationNotFound registration_id)))) in
  let& slot := xlift (determine_target_slot match_ target_id is_winner) in
  let& _ := xlift (assign_participant target_id slot registration_id
              (TournamentRegistration.participant_name registration)
              (TournamentRegistration.participant_logo_url registration)
              (TournamentRegistration.seed registration)) in
  let& execution_id := xread SagaExecution.id in
  let& _ := xlift (ProgressionLogRepository.log {|
    CreateProgressionLog.source_match_id := MatchCompletionInput.match_id input;
    CreateProgressionLog.target_match_id := Some target_id;
    CreateProgressionLog.registration_id := registration_id;
    CreateProgressionLog.progression_type := progression_type;
    CreateProgressionLog.target_position := Some (position_of_slot slot);
    CreateProgressionLog.saga_id := Some execution_id |}) in
  xret slot.

Definition step_advance_winner (match_ : TournamentMatch.t) (input : MatchCompletionInput.t)
    : X (option TournamentMatchId) :=
  match TournamentMatch.winner_progresses_to match_ with
  | None =>
      let& _ := SagaCoordinator.complete_step "advance_winner" (action "no_progression_needed") in
      xret None
  | Some next_match_id =>
      let& slot := seat_and_log match_ input next_match_id
                     (MatchCompletionInput.winner_registration_id input) true
                     ProgressionType.WinnerAdvance in
      let& _ := SagaCoordinator.complete_step "advance_winner" (Some (json_of_object
        [("next_match_id", id_json next_match_id); ("slot", json_of_string (slot_debug slot))])) in
      xret (Some next_match_id)
  end.

Definition step_route_loser (match_ : TournamentMatch.t) (input : MatchCompletionInput.t)
    (bracket : TournamentBracket.t) : X (option TournamentMatchId) :=
  match TournamentMatch.loser_progresses_to match_ with
  | None =>
      if is_standings_bracket (TournamentBracket.bracket_type bracket) then
        let& _ := SagaCoordinator.complete_step "route_loser" (action "not_applicable") in
        xret None
      else
        let& execution_id := xread SagaExecution.id in
        let& _ := xlift (ProgressionLogRepository.log {|
          CreateProgressionLog.source_match_id := MatchCompletionInput.match_id input;
          CreateProgressionLog.target_match_id := None;
          CreateProgressionLog.registration_id := MatchCompletionInput.loser_registration_id input;
          CreateProgressionLog.progression_type := ProgressionType.LoserEliminate;
          CreateProgressionLog.target_position := None;
          CreateProgressionLog.saga_id := Some execution_id |}) in
        let& _ := SagaCoordinator.complete_step "route_loser" (action "eliminated") in
        xret None
  | Some loser_match_id =>
      let& slot := seat_and_log match_ input loser_match_id
                     (MatchCompletionInput.loser_registration_id input) false
                     ProgressionType.LoserDrop in
      let& _ := SagaCoordinator.complete_step "route_loser" (Some (json_of_object
        [("target_match_id", id_json loser_match_id); ("slot", json_of_string (slot_debug slot))])) in
      xret (Some loser_match_id)
  end.

(** One target of the readiness loop: marked if it is there, pending and full. *)
Definition mark_if_ready (target_id : TournamentMatchId) : M bool :=
  let* target := find_match_by_id target_id in
  match target with
  | Some target =>
      if bool_decide (TournamentMatch.status target = TournamentMatchStatus.Pending)
         && TournamentMatch.has_both_participants target
      then
        let* _ := update_status target_id TournamentMatchStatus.Ready in
        mret true
      else mret false
  | None => mret false
  end.

Fixpoint mark_ready_loop (targets : list TournamentMatchId) : M (list TournamentMatchId) :=
  match targets with
  | [] => mret []
  | target_id :: targets =>
      let* marked := mark_if_ready target_id in
      let* newly_ready := mark_ready_loop targets in
      mret (if marked then target_id :: newly_ready else newly_ready)
  end.

Definition step_mark_ready_matches (winner_next_match_id loser_next_match_id : option TournamentMatchId)
    : X unit :=
  let& newly_ready := xlift (mark_ready_loop
    (option_list winner_next_match_id ++ option_list loser_next_match_id)) in
  SagaCoordinator.complete_step "mark_ready_matches" (Some (json_of_object
    [("newly_ready", json_array (id_json <$> newly_ready))])).

Definition step_update_standings (match_ : TournamentMatch.t) (bracket : TournamentBracket.t)
    : X bool :=
  if negb (is_standings_bracket (TournamentBracket.bracket_type bracket)) then
    let& _ := SagaCoordinator.complete_step "update_standings" (action "not_applicable") in
    xret false
  else
    let& _ := xlift (recompute_bracket (TournamentMatch.bracket_id match_)) in
    let& _ := SagaCoordinator.complete_step "update_standings" (Some (json_of_object
      [("bracket_type", json_of_string (bracket_type_debug (TournamentBracket.bracket_type bracket)));
       ("standings_updated", json_true)])) in
    xret true.

Definition step_advance_stage (self : t) (match_ : TournamentMatch.t) : X bool :=
  let& opened := xlift (StageAdvancer.advance_if_stage_complete (stage_advancer self)
                   (TournamentMatch.bracket_id match_)) in
  let& _ := SagaCoordinator.complete_step "advance_stage" (match opened with
    | Some stage_id => Some (json_of_object
        [("action", json_of_string "next_stage_seeded"); ("stage_id", id_json stage_id)])
    | None => action "not_applicable"
    end) in
  xret (bool_decide (is_Some opened)).

(** Best effort: nothing that goes wrong here reaches the caller. *)
Definition step_update_player_stats (self : t) (input : MatchCompletionInput.t) : X unit :=
  if MatchCompletionInput.is_forfeit input then
    xignore (SagaCoordinator.complete_step "update_player_stats" (action "skipped_forfeit"))
  else
    let& updated := xlift (mtry (MatchStatsUpdater.update_player_stats (stats_updater self)
      (MatchCompletionInput.match_id input) (MatchCompletionInput.winner_registration_id input)
      (MatchCompletionInput.loser_registration_id input) (MatchCompletionInput.is_forfeit input))) in
    xignore (SagaCoordinator.complete_step "update_player_stats" (match updated with
      | Ok _ => action "stats_updated"
      | Err err => Some (json_of_object
          [("action", json_of_string "failed_non_critical"); ("error", json_of_string (error_string err))])
      end)).

Definition build_summary (output : MatchCompletionOutput.t) (bracket : TournamentBracket.t) : string :=
  String.concat ", "
    (["Match completed"]
     ++ [match MatchCompletionOutput.winner_next_match_id output with
         | Some _ => "winner advanced to next match"
         | None => "winner crowned as champion"
         end]
     ++ match MatchCompletionOutput.loser_next_match_id output with
        | Some _ => ["loser dropped to losers bracket"]
        | None =>
            match TournamentBracket.bracket_type bracket with
            | BracketType.SingleElim | BracketType.Winners | BracketType.Losers => ["loser eliminated"]
            | _ => []
            end
        end
     ++ (if MatchCompletionOutput.standings_updated output then ["standings updated"] else [])
     ++ (if MatchCompletionOutput.stage_advanced output then ["next stage seeded"] else [])).

(** Steps 3 to 8. *)
Definition run_progression_steps_inner (self : t) (input : MatchCompletionInput.t)
    (match_ : TournamentMatch.t) : X MatchCompletionOutput.t :=
  let& bracket := step_get_bracket match_ in
  let& _ := step_complete_match input in
  let& winner_next_match_id := step_advance_winner match_ input in
  let& loser_next_match_id := step_route_loser match_ input bracket in
  let& _ := step_mark_ready_matches winner_next_match_id loser_next_match_id in
  let& standings_updated := step_update_standings match_ bracket in
  let& stage_advanced := step_advance_stage self match_ in
  let& _ := step_update_player_stats self input in
  let output := MatchCompletionOutput.mk (MatchCompletionInput.match_id input) winner_next_match_id
    loser_next_match_id standings_updated stage_advanced false None "" in
  xret (output <| MatchCompletionOutput.summary := build_summary output bracket |>).

Definition run_progression_steps (self : t) (input : MatchCompletionInput.t)
    : X MatchCompletionOutput.t :=
  let& match_ := xlift (get_saga_match (MatchCompletionInput.match_id input)) in
  run_progression_steps_inner self input match_.

(** What a review says of going on: pending pauses, rejected refuses. *)
Definition review_verdict (review : option ResultReview.t) : result unit DomainError.t :=
  match review with
  | None => Ok tt
  | Some review =>
      if ResultReviewStatus.is_pending (ResultReview.status review) then
        Err (DomainError.SagaPaused
          ("Awaiting review " +:+ uuid_string (ResultReview.id review) +:+ " resolution"))
      else if bool_decide (ResultReview.status review = ResultReviewStatus.Rejected) then
        Err (DomainError.ResultRejectedByReview (uuid_string (ResultReview.id review)))
      else Ok tt
  end.

Definition run_steps (self : t) (input : MatchCompletionInput.t) : X MatchCompletionOutput.t :=
  let& match_ := step_validate_match input in
  let& review := step_validate_demos self input match_ in
  let& _ := xlift (mlift (no_panic (review_verdict review))) in
  run_progression_steps_inner self input match_.

(** The record both entry points begin with. *)
Definition begin_execution (input : MatchCompletionInput.t) : M SagaExecution.t :=
  let* tournament_id := get_tournament_id (MatchCompletionInput.match_id input) in
  let* input_json := mlift (result_map_err
    (λ e, Error (DomainError.Internal ("Failed to serialize input: " +:+ e))) (input_to_value input)) in
  SagaCoordinator.start_saga definition
    (SagaContext.with_match (MatchCompletionInput.match_id input) tournament_id) input_json.

(** The arms for success and failure. *)
Definition completed (execution : SagaExecution.t) (output : MatchCompletionOutput.t)
    : M (SagaResult.t MatchCompletionOutput.t) :=
  let* execution := saved execution SagaCoordinator.complete_saga in
  mret (SagaResult.succeeded execution output).
Definition failed (execution : SagaExecution.t) (err : DomainError.t)
    : M (SagaResult.t MatchCompletionOutput.t) :=
  let* _ := saved execution (SagaCoordinator.fail_saga (error_string err)) in
  mthrow err.

Definition execute_completion (self : t) (input : MatchCompletionInput.t)
    : M (SagaResult.t MatchCompletionOutput.t) :=
  let* execution := begin_execution input in
  with_execution execution (run_steps self input) (λ result execution,
    match result with
    | Ok output => completed execution output
    | Err (DomainError.SagaPaused msg) =>
        let* execution := saved execution (SagaCoordinator.pause_saga msg) in
        mret (SagaResult.paused execution)
    | Err err => failed execution err
    end).

(** A [match_completion] that ran to its end. *)
Definition is_done_completion (e : SagaExecution.t) : bool :=
  bool_decide (SagaExecution.saga_type e = "match_completion") && SagaExecution.is_completed e.

Definition continue_after_review (self : t) (match_id : TournamentMatchId)
    (input : MatchCompletionInput.t) : M (SagaResult.t MatchCompletionOutput.t) :=
  let* review := ReviewCreator.get_for_match (review_creator self) match_id in
  let* _ := mlift (no_panic (match review_verdict review with
    | Err (DomainError.SagaPaused _) => Err (DomainError.InvalidState "Review is still pending")
    | verdict => verdict
    end)) in
  let* prior_sagas := SagaExecutionRepository.find_by_match match_id in
  match list_find (λ e, is_done_completion e = true) prior_sagas with
  | Some (_, done_) =>
      mret (SagaResult.succeeded done_
        (MatchCompletionOutput.mk match_id None None false false false
           (ResultReview.id <$> review) "Match completion already applied; resume skipped"))
  | None =>
      let* execution := begin_execution input in
      with_execution execution (run_progression_steps self input) (λ result execution,
        match result with
        | Ok output => completed execution output
        | Err err => failed execution err
        end)
  end.
End saga.
End MatchCompletionSaga.

Module MatchCompletionTxInput.
Record t := mk {
  match_id : TournamentMatchId;
  winner_registration_id : TournamentRegistrationId;
  loser_registration_id : TournamentRegistrationId;
  winner_score : Z;
  loser_score : Z;
}.
End MatchCompletionTxInput.

Module MatchCompletionTxOutput.
Record t := mk {
  match_id : TournamentMatchId;
  winner_next_match_id : option TournamentMatchId;
  loser_next_match_id : option TournamentMatchId;
  standings_updated : bool;
}.
End MatchCompletionTxOutput.

Module CompletionTx.
Section tx.
Context `{Platform}.

Definition validate_match (input : MatchCompletionTxInput.t) : M TournamentMatch.t :=
  let* match_ := get_match (MatchCompletionTxInput.match_id input) in
  let can_complete := match TournamentMatch.status match_ with
    | TournamentMatchStatus.InProgress | TournamentMatchStatus.AwaitingResult => true
    | _ => false
    end in
  if negb can_complete then
    mthrow (DomainError.InvalidState ("Match in "
      +:+ TournamentMatchStatus.fmt (TournamentMatch.status match_) +:+ " status cannot be completed"))
  else
    let plays id :=
      bool_decide (TournamentMatch.participant1_registration_id match_ = Some id) ||
      bool_decide (TournamentMatch.participant2_registration_id match_ = Some id) in
    if negb (plays (MatchCompletionTxInput.winner_registration_id input))
       || negb (plays (MatchCompletionTxInput.loser_registration_id input))
    then mthrow (DomainError.InvalidState "Winner or loser is not a participant in this match")
    else if bool_decide (MatchCompletionTxInput.winner_registration_id input =
                         MatchCompletionTxInput.loser_registration_id input)
    then mthrow (DomainError.InvalidState "Winner and loser cannot be the same")
    else mret match_.

Definition get_bracket (bracket_id : TournamentBracketId) : M TournamentBracket.t :=
  let* bracket := find_bracket_by_id bracket_id in
  mlift (ok_or bracket (Error (DomainError.TournamentBracketNotFound bracket_id))).

Definition complete_match (match_ : TournamentMatch.t) (input : MatchCompletionTxInput.t) : M unit :=
  let '(p1_score, p2_score) :=
    if bool_decide (TournamentMatch.participant1_registration_id match_ =
                    Some (MatchCompletionTxInput.winner_registration_id input))
    then (MatchCompletionTxInput.winner_score input, MatchCompletionTxInput.loser_score input)
    else (MatchCompletionTxInput.loser_score input, MatchCompletionTxInput.winner_score input) in
  let* _ := submit_result_in_tx (MatchCompletionTxInput.match_id input) p1_score p2_score
              (MatchCompletionTxInput.winner_registration_id input)
              (MatchCompletionTxInput.loser_registration_id input) in
  mret tt.

Definition determine_target_slot (source_match : TournamentMatch.t)
    (target_match_id : TournamentMatchId) (is_winner : bool) : M ParticipantSlot.t :=
  let* target_match := get_match target_match_id in
  mret (target_slot source_match target_match).

(** The body [advance_winner] and [route_loser] share. *)
Definition seat (match_ : TournamentMatch.t) (target_id : TournamentMatchId)
    (registration_id : TournamentRegistrationId) (is_winner : bool) : M ParticipantSlot.t :=
  let* registration := find_registration_by_id registration_id in
  let* registration := mlift (ok_or registration
    (Error (DomainError.TournamentRegistrationNotFound registration_id))) in
  let* slot := determine_target_slot match_ target_id is_winner in
  let* _ := assign_participant target_id slot registration_id
              (TournamentRegistration.participant_name registration)
              (TournamentRegistration.participant_logo_url registration)
              (TournamentRegistration.seed registration) in
  mret slot.

Definition advance_winner (match_ : TournamentMatch.t) (input : MatchCompletionTxInput.t)
    : M (option TournamentMatchId) :=
  match TournamentMatch.winner_progresses_to match_ with
  | None => mret None
  | Some next_match_id =>
      let* _ := seat match_ next_match_id (MatchCompletionTxInput.winner_registration_id input) true in
      mret (Some next_match_id)
  end.

Definition route_loser (match_ : TournamentMatch.t) (input : MatchCompletionTxInput.t)
    : M (option TournamentMatchId) :=
  match TournamentMatch.loser_progresses_to match_ with
  | None => mret None
  | Some loser_match_id =>
      let* _ := seat match_ loser_match_id (MatchCompletionTxInput.loser_registration_id input) false in
      mret (Some loser_match_id)
  end.

Definition update_standings (match_ : TournamentMatch.t) (bracket : TournamentBracket.t) : M bool :=
  if negb (is_standings_bracket (TournamentBracket.bracket_type bracket)) then mret false
  else
    let* _ := mwrite (recompute_bracket_in_tx (TournamentMatch.bracket_id match_)) in
    let* _ := mwrite (recalculate_positions_in_tx (TournamentMatch.bracket_id match_)) in
    mret true.

(** The function runs in its caller's transaction. *)
Definition complete_match_in_transaction (input : MatchCompletionTxInput.t)
    : M MatchCompletionTxOutput.t :=
  let* match_ := validate_match input in
  let* bracket := get_bracket (TournamentMatch.bracket_id match_) in
  let* _ := complete_match match_ input in
  let* winner_next_match_id := advance_winner match_ input in
  let* loser_next_match_id := route_loser match_ input in
  let* standings_updated := update_standings match_ bracket in
  mret (MatchCompletionTxOutput.mk (MatchCompletionTxInput.match_id input) winner_next_match_id
          loser_next_match_id standings_updated).
End tx.
End CompletionTx.
