(* ===== verification/SagaFacts.v ===== *)
(** The bookkeeping of a completion — its execution row, the progression log,
    reviews, drawn identifiers — against its effect on the bracket: which
    programs do not see the books, which only keep them, and which do a given
    piece of work on the bracket and keep the books of it. Step by step, a
    completion does the work of the transactional one and keeps its books. *)
From stdpp Require Import base list strings gmap.
From S2P Require Import Prelude Errors Wire TournamentTypes DomainEnums FormatPlan Entities Rows.
From S2P Require Import SagaModel Store StoreFacts SagaStore Reviews ClaimStore Standings.
From S2P Require Import Helpers Progression Completion.
#[local] Open Scope Z_scope.

(** ** The books *)

Module Books.
Record t `{Platform} := mk {
  next_uuid : Uuid;
  sagas : gmap SagaId SagaExecution.t;
  progressions : list ProgressionLog.t;
  reviews : gmap ResultReviewId ResultReview.t;
}.
End Books.

Abbreviation saga_rows := Db.saga_executions.

Section books.
Context `{Platform}.

Definition with_books (b : Books.t) (db : Db.t) : Db.t :=
  db <| Db.next_uuid := Books.next_uuid b |>
     <| Db.saga_executions := Books.sagas b |>
     <| Db.progression_log := Books.progressions b |>
     <| Db.result_reviews := Books.reviews b |>.

Definition books_of (db : Db.t) : Books.t :=
  Books.mk _ (Db.next_uuid db) (Db.saga_executions db) (Db.progression_log db) (Db.result_reviews db).

Lemma with_books_twice b1 b2 db : with_books b1 (with_books b2 db) = with_books b1 db.
Proof. done. Qed.
Lemma with_books_own db : with_books (books_of db) db = db.
Proof. by destruct db. Qed.
Lemma books_of_with b db : books_of (with_books b db) = b.
Proof. by destruct b. Qed.

(** States that differ in their books only. *)
Definition same_bracket (db1 db2 : Db.t) : Prop := ∃ b, db2 = with_books b db1.

#[global] Instance same_bracket_equivalence : Equivalence same_bracket.
Proof.
  split.
  - intros db. exists (books_of db). by rewrite with_books_own.
  - intros db1 db2 [b ->]. exists (books_of db1). by rewrite with_books_twice, with_books_own.
  - intros db1 db2 db3 [b1 ->] [b2 ->]. exists b2. by rewrite with_books_twice.
Qed.

Lemma same_bracket_books b db : same_bracket db (with_books b db).
Proof. by exists b. Qed.

(** A program that neither reads nor writes the books. *)
Class Blind {A} (w : M A) : Prop :=
  blind : ∀ b db, w (with_books b db) = ((w db).1, with_books b (w db).2).

Lemma blind_books {A} (w : M A) `{!Blind w} db : books_of (w db).2 = books_of db.
Proof.
  pose proof (blind (books_of db) db) as Hb. rewrite with_books_own in Hb.
  rewrite Hb at 1. cbn [snd]. apply books_of_with.
Qed.

#[global] Instance blind_proper {A} (w : M A) `{!Blind w} :
  Proper (same_bracket ==> same_bracket) (λ db, (w db).2).
Proof. intros db1 db2 [b ->]. rewrite blind. apply same_bracket_books. Qed.

Lemma blind_outcome {A} (w : M A) `{!Blind w} db1 db2 :
  same_bracket db1 db2 → (w db1).1 = (w db2).1.
Proof. intros [b ->]. by rewrite blind. Qed.

#[global] Instance blind_ret {A} (a : A) : Blind (mret a).
Proof. done. Qed.
#[global] Instance blind_throw {A} e : Blind (mthrow e : M A).
Proof. done. Qed.
#[global] Instance blind_lift {A} (r : outcome A) : Blind (mlift r).
Proof. done. Qed.
#[global] Instance blind_bind {A B} (c : M A) (k : A → M B) :
  Blind c → (∀ a, Blind (k a)) → Blind (mbind c k).
Proof.
  intros Hc Hk b db. unfold mbind. rewrite (blind b db).
  destruct (c db) as [[a|e] db1]; cbn [fst snd]; [|done]. apply Hk.
Qed.
#[global] Instance blind_update_match id set : Blind (update_match id set).
Proof. intros b db. unfold update_match. cbn [Db.matches with_books setter]. by destruct (_ !! _). Qed.
#[global] Instance blind_find_match id : Blind (find_match_by_id id).
Proof. done. Qed.
#[global] Instance blind_find_bracket id : Blind (find_bracket_by_id id).
Proof. done. Qed.
#[global] Instance blind_find_registration id : Blind (find_registration_by_id id).
Proof. done. Qed.
#[global] Instance blind_get_match id : Blind (get_match id).
Proof. unfold get_match. apply _. Qed.
#[global] Instance blind_recompute_in_tx b : Blind (mwrite (recompute_bracket_in_tx b)).
Proof. done. Qed.
#[global] Instance blind_positions_in_tx b : Blind (mwrite (recalculate_positions_in_tx b)).
Proof. done. Qed.
#[global] Instance blind_recompute b : Blind (recompute_bracket b).
Proof. unfold recompute_bracket. apply blind_bind; [apply _|]. intros []. apply blind_bind; [apply _|]. done. Qed.

(** ** The execution's row *)

Lemma live_conflict_spec id mid ty db :
  SagaExecutionRepository.live_conflict id (Some mid) ty db = true ↔
  ∃ k r, saga_rows db !! k = Some r ∧ SagaExecutionRepository.is_live r = true ∧
    Some (SagaExecution.id r) ≠ id ∧ SagaExecution.match_id r = Some mid ∧
    SagaExecution.saga_type r = ty.
Proof.
  unfold SagaExecutionRepository.live_conflict, SagaExecutionRepository.executions.
  rewrite existsb_exists. split.
  - intros (r & Hin & Hr). apply list_elem_of_In, list_elem_of_fmap in Hin as ([k r'] & -> & Hk).
    apply elem_of_map_to_list in Hk. apply andb_true_iff in Hr as [? (?&?&?)%bool_decide_eq_true].
    by exists k, r'.
  - intros (k & r & Hk & Hl & ? & ? & ?). exists r. split.
    + apply list_elem_of_In. apply list_elem_of_fmap. exists (k, r). split; [done|].
      by apply elem_of_map_to_list.
    + rewrite Hl. by apply bool_decide_eq_true.
Qed.

Lemma no_live_conflict id mid ty db :
  SagaExecutionRepository.live_conflict id (Some mid) ty db = false ↔
  ∀ k r, saga_rows db !! k = Some r → SagaExecutionRepository.is_live r = true →
    SagaExecution.match_id r = Some mid → SagaExecution.saga_type r = ty →
    Some (SagaExecution.id r) = id.
Proof.
  rewrite <- not_true_iff_false, live_conflict_spec. split.
  - intros Hno k r Hk Hl Hm Ht. destruct (decide (Some (SagaExecution.id r) = id)); [done|].
    destruct Hno. by exists k, r.
  - intros Hall (k & r & Hk & Hl & Hne & Hm & Ht). by apply Hne, (Hall k r).
Qed.

(** [e] is the row's execution, and no other of its kind is live. *)
Record owns (e : SagaExecution.t) (db : Db.t) : Prop := {
  ow_row : ∃ r, saga_rows db !! SagaExecution.id e = Some r ∧
    SagaExecution.id r = SagaExecution.id e ∧ SagaExecution.match_id r = SagaExecution.match_id e ∧
    SagaExecution.saga_type r = SagaExecution.saga_type e ∧
    SagaExecution.input_data r = SagaExecution.input_data e ∧
    SagaExecution.max_retries r = SagaExecution.max_retries e ∧
    SagaExecution.created_at r = SagaExecution.created_at e;
  ow_alone : SagaExecutionRepository.live_conflict (Some (SagaExecution.id e))
    (SagaExecution.match_id e) (SagaExecution.saga_type e) db = false;
}.

Lemma owns_rows e db1 db2 : saga_rows db2 = saga_rows db1 → owns e db1 → owns e db2.
Proof.
  intros Heq [(r & Hr) Ha]. split; [exists r; by rewrite Heq|].
  unfold SagaExecutionRepository.live_conflict, SagaExecutionRepository.executions in *. by rewrite Heq.
Qed.

(** What names the execution. *)
Definition same_execution (e e' : SagaExecution.t) : Prop :=
  SagaExecution.id e' = SagaExecution.id e ∧ SagaExecution.match_id e' = SagaExecution.match_id e ∧
  SagaExecution.saga_type e' = SagaExecution.saga_type e ∧
  SagaExecution.input_data e' = SagaExecution.input_data e ∧
  SagaExecution.max_retries e' = SagaExecution.max_retries e ∧
  SagaExecution.created_at e' = SagaExecution.created_at e.
#[global] Instance same_execution_preorder : PreOrder same_execution.
Proof. split; [done|]. unfold same_execution. intros x y z (?&?&?&?&?&?) (?&?&?&?&?&?). repeat split; congruence. Qed.

(** The books after the row of [e] is written. *)
Definition row_after (e : SagaExecution.t) (db : Db.t) : SagaExecution.t :=
  from_option (λ r, (SagaExecutionRepository.set_progress e r)
    <| SagaExecution.updated_at := Db.now db |>) e (saga_rows db !! SagaExecution.id e).
Definition write_row (e : SagaExecution.t) (db : Db.t) : Db.t :=
  db <| Db.saga_executions := <[SagaExecution.id e := row_after e db]> (saga_rows db) |>.

Lemma write_row_bracket e db : same_bracket db (write_row e db).
Proof. exists (books_of (write_row e db)). by destruct db. Qed.

Lemma update_row_found id what set db r r' :
  saga_rows db !! id = Some r → r' = (set (Db.now db) r) <| SagaExecution.updated_at := Db.now db |> →
  SagaExecutionRepository.live_conflict (Some id) (SagaExecution.match_id r')
    (SagaExecution.saga_type r') db = false →
  SagaExecutionRepository.update_row id what set db =
    (Ok r', db <| Db.saga_executions := <[id := r']> (saga_rows db) |>).
Proof.
  intros Hr Heq Hc. unfold SagaExecutionRepository.update_row. rewrite Hr, <- Heq, Hc.
  by rewrite andb_false_r.
Qed.

(** The row of an execution that is owned takes every change to it. *)
Lemma update_owned e e' db :
  owns e db → same_execution e e' →
  SagaExecutionRepository.update e' db = (Ok (row_after e' db), write_row e' db) ∧
  owns e' (write_row e' db).
Proof.
  intros [(r & Hr & Hid & Hm & Ht & Hi & Hx & Hc) Ha] (Hid' & Hm' & Ht' & Hi' & Hx' & Hc').
  assert (saga_rows db !! SagaExecution.id e' = Some r) as Hr' by by rewrite Hid'.
  set (r' := (SagaExecutionRepository.set_progress e' r) <| SagaExecution.updated_at := Db.now db |>).
  assert (row_after e' db = r') as Hrow by (unfold row_after; by rewrite Hr').
  assert (SagaExecution.id r' = SagaExecution.id r ∧ SagaExecution.match_id r' = SagaExecution.match_id r ∧
    SagaExecution.saga_type r' = SagaExecution.saga_type r ∧
    SagaExecution.input_data r' = SagaExecution.input_data r ∧
    SagaExecution.max_retries r' = SagaExecution.max_retries r ∧
    SagaExecution.created_at r' = SagaExecution.created_at r) as (Gi & Gm & Gt & Gd & Gx & Gc) by done.
  split.
  - rewrite Hrow. unfold write_row. rewrite Hrow.
    apply (update_row_found _ _ _ _ r); [done|done|]. by rewrite Gm, Gt, Hm, Ht, Hid', Ha.
  - unfold write_row. rewrite Hrow. clearbody r'. split.
    + exists r'. cbn [Db.saga_executions setter]. rewrite lookup_insert_eq. split; [done|].
      by rewrite Gi, Gm, Gt, Gd, Gx, Gc, Hid, Hm, Ht, Hi, Hx, Hc.
    + rewrite Hid', Hm', Ht'. destruct (SagaExecution.match_id e) as [mid|]; [|done].
      rewrite no_live_conflict in Ha |- *. cbn [Db.saga_executions setter].
      intros k x Hk Hl. apply lookup_insert_Some in Hk as [[Hk <-]|[_ Hk]].
      * intros _ _. by rewrite Gi, Hid.
      * by apply (Ha k x).
Qed.

Lemma save_owned change e db :
  owns e db → same_execution e (change (Db.now db) e) →
  SagaCoordinator.save change e db =
    ((Ok tt, change (Db.now db) e), write_row (change (Db.now db) e) db) ∧
  owns (change (Db.now db) e) (write_row (change (Db.now db) e) db).
Proof.
  intros Ho Hs. unfold SagaCoordinator.save. generalize dependent (change (Db.now db) e). intros e' Hs.
  destruct (update_owned e e' db Ho Hs) as [-> ?]. done.
Qed.

(** What bookkeeping leaves of the books. *)
Record booked (e e' : SagaExecution.t) (db db' : Db.t) : Prop := {
  bk_owns : owns e' db';
  bk_same : same_execution e e';
  bk_others : ∀ k, k ≠ SagaExecution.id e → saga_rows db' !! k = saga_rows db !! k;
  bk_next : (Db.next_uuid db <= Db.next_uuid db')%N;
}.

Lemma booked_trans e1 e2 e3 db1 db2 db3 :
  booked e1 e2 db1 db2 → booked e2 e3 db2 db3 → booked e1 e3 db1 db3.
Proof.
  intros [_ Hs1 Ho1 Hn1] [Ho Hs2 Ho2 Hn2]. split; [done|by etransitivity| |lia].
  intros k Hk. rewrite Ho2, Ho1; [done..|]. destruct Hs1 as [-> _]. done.
Qed.

Lemma booked_same e db db' : owns e db → books_of db' = books_of db → booked e e db db'.
Proof.
  intros Ho [=]. split; [by eapply owns_rows|done|congruence|lia].
Qed.

(** ** Programs that only keep the books *)

Definition keeps_books {A} (c : X A) (names : list string) : Prop := ∀ e db, owns e db →
  ∃ a e' b, c e db = ((Ok a, e'), with_books b db) ∧ booked e e' db (with_books b db) ∧
    StepRecord.name <$> SagaExecution.step_history e' =
      (StepRecord.name <$> SagaExecution.step_history e) ++ names.

(** Programs that do the work of [w] and keep the books of it: the step
    records named [names] when it succeeds. *)
Definition books_work {A} (c : X A) (w : M A) (names : list string) : Prop := ∀ e db, owns e db →
  ∃ e' b, c e db = (((w db).1, e'), with_books b (w db).2) ∧
    booked e e' db (with_books b (w db).2) ∧
    (is_ok (w db).1 = true → StepRecord.name <$> SagaExecution.step_history e' =
      (StepRecord.name <$> SagaExecution.step_history e) ++ names).

Lemma keeps_save change names :
  (∀ now e, same_execution e (change now e) ∧
     StepRecord.name <$> SagaExecution.step_history (change now e) =
       (StepRecord.name <$> SagaExecution.step_history e) ++ names) →
  keeps_books (SagaCoordinator.save change) names.
Proof.
  intros Hch e db Ho. destruct (Hch (Db.now db) e) as [Hs Hn].
  destruct (save_owned _ _ _ Ho Hs) as [Hrun Ho'].
  generalize dependent (change (Db.now db) e). intros e' Hs Hn Hrun Ho'.
  destruct (write_row_bracket e' db) as [b Hb].
  exists tt, e', b. rewrite <- Hb. split; [done|]. split; [|done].
  split; [done|done| |cbn; lia]. intros k Hk. destruct Hs as [Hid _].
  unfold write_row. cbn [Db.saga_executions setter]. rewrite lookup_insert_ne by congruence. done.
Qed.

Lemma keeps_complete_step step output : keeps_books (SagaCoordinator.complete_step step output) [step].
Proof.
  apply keeps_save. intros now e. split; [done|]. cbn. by rewrite fmap_app.
Qed.

Lemma keeps_log l : keeps_books (xlift (ProgressionLogRepository.log l)) [].
Proof.
  intros e db Ho. eexists _, e, (books_of (ProgressionLogRepository.log l db).2).
  split; [reflexivity|]. split; [|by rewrite app_nil_r].
  split; [by eapply owns_rows; [|exact Ho]|done|done|cbn; lia].
Qed.

Lemma keeps_read {A} (f : SagaExecution.t → A) : keeps_books (xread f) [].
Proof.
  intros e db Ho. exists (f e), e, (books_of db). rewrite with_books_own, app_nil_r.
  split; [done|]. split; [by apply booked_same|done].
Qed.

Lemma books_ret {A} (a : A) : books_work (xret a) (mret a) [].
Proof.
  intros e db Ho. exists e, (books_of db). cbn [mret fst snd]. rewrite with_books_own, app_nil_r.
  split; [done|]. split; [by apply booked_same|done].
Qed.

Lemma books_lift {A} (w : M A) `{!Blind w} : books_work (xlift w) w [].
Proof.
  intros e db Ho. exists e, (books_of (w db).2). rewrite with_books_own, app_nil_r. unfold xlift.
  split; [by destruct (w db)|]. split; [|done]. apply booked_same; [done|]. by apply blind_books.
Qed.

(** Bookkeeping in front of work. *)
Lemma books_after {A B} (c : X A) (k : A → X B) w n1 n2 `{!Blind w} :
  keeps_books c n1 → (∀ a, books_work (k a) w n2) → books_work (xbind c k) w (n1 ++ n2).
Proof.
  intros Hc Hk e db Ho. destruct (Hc _ _ Ho) as (a & e1 & b & Hrun & Hb1 & Hn1).
  destruct (Hk a _ _ (bk_owns _ _ _ _ Hb1)) as (e2 & b2 & Hrun2 & Hb2 & Hn2).
  exists e2, b2. unfold xbind. rewrite Hrun, Hrun2. rewrite (blind b db) in *. cbn [fst snd] in *.
  rewrite with_books_twice in *.
  split; [done|]. split; [by eapply booked_trans|].
  intros Hok. by rewrite (Hn2 Hok), Hn1, app_assoc.
Qed.

Lemma books_bind {A B} (c : X A) (k : A → X B) w1 (w2 : A → M B) n1 n2 `{!∀ a, Blind (w2 a)} :
  books_work c w1 n1 → (∀ a, books_work (k a) (w2 a) n2) →
  books_work (xbind c k) (mbind w1 w2) (n1 ++ n2).
Proof.
  intros Hc Hk e db Ho. destruct (Hc _ _ Ho) as (e1 & b & Hrun & Hb1 & Hn1).
  unfold xbind, mbind. rewrite Hrun. destruct (w1 db) as [[a|err] db1]; cbn [fst snd] in *.
  - destruct (Hk a _ _ (bk_owns _ _ _ _ Hb1)) as (e2 & b2 & Hrun2 & Hb2 & Hn2). exists e2, b2.
    rewrite Hrun2. rewrite (blind b db1) in *. cbn [fst snd] in *. rewrite with_books_twice in *.
    split; [done|]. split; [by eapply booked_trans|].
    intros Hok. rewrite (Hn2 Hok), (Hn1 eq_refl). by rewrite app_assoc.
  - by exists e1, b.
Qed.

(** The work first, its step record last. *)
Lemma books_then {A} (c : X unit) (a : A) n :
  keeps_books c n → books_work (xbind c (λ _, xret a)) (mret a) n.
Proof.
  intros Hc. rewrite <- (app_nil_r n). apply (books_after c _ _ n [] Hc). intros _. apply books_ret.
Qed.

Lemma books_unit (c : X unit) n : keeps_books c n → books_work c (mret tt) n.
Proof.
  intros Hc e db Ho. destruct (Hc _ _ Ho) as ([] & e1 & b & Hrun & Hb1 & Hn1). by exists e1, b.
Qed.

Lemma books_work_ext {A} (c : X A) w w' n :
  (∀ db, w db = w' db) → books_work c w n → books_work c w' n.
Proof. intros Hw Hc e db Ho. destruct (Hc _ _ Ho) as (e' & b & Hr). rewrite <- Hw. by exists e', b. Qed.
End books.

(** The rules, applied along a step's program. *)
Ltac keep_books :=
  repeat first
    [ apply books_ret
    | apply books_then; keep_books
    | apply books_lift; apply _
    | apply keeps_complete_step | apply keeps_log | apply keeps_read ].

(** Instances of [Blind] along a program's branches. *)
#[export] Hint Extern 0 (Blind ((λ _, _) _)) => cbv beta : typeclass_instances.
#[export] Hint Extern 5 (Blind (match ?x with _ => _ end)) => destruct x : typeclass_instances.

Section steps.
Context `{CompletionSerde}.

Definition tx_input (input : MatchCompletionInput.t) : MatchCompletionTxInput.t :=
  MatchCompletionTxInput.mk (MatchCompletionInput.match_id input)
    (MatchCompletionInput.winner_registration_id input)
    (MatchCompletionInput.loser_registration_id input)
    (MatchCompletionInput.winner_score input) (MatchCompletionInput.loser_score input).

(** ** The work of each step *)

(** The result is written unless the match has one. *)
Definition record_result (input : MatchCompletionInput.t) : M unit :=
  let* match_ := get_match (MatchCompletionInput.match_id input) in
  if bool_decide (TournamentMatch.status match_ = TournamentMatchStatus.Completed) then mret tt
  else CompletionTx.complete_match match_ (tx_input input).

Definition mark_ready (winner_next loser_next : option TournamentMatchId) : M unit :=
  let* _ := MatchCompletionSaga.mark_ready_loop (option_list winner_next ++ option_list loser_next) in
  mret tt.

(** Where the players go, and whether the standings were recomputed. *)
Definition bracket_work (input : MatchCompletionInput.t) (match_ : TournamentMatch.t)
    (bracket : TournamentBracket.t) : M (option TournamentMatchId * option TournamentMatchId * bool) :=
  let* _ := record_result input in
  let* winner_next := CompletionTx.advance_winner match_ (tx_input input) in
  let* loser_next := CompletionTx.route_loser match_ (tx_input input) in
  let* _ := mark_ready winner_next loser_next in
  let* standings_updated := CompletionTx.update_standings match_ bracket in
  mret (winner_next, loser_next, standings_updated).

#[global] Instance blind_complete_match m i : Blind (CompletionTx.complete_match m i).
Proof. unfold CompletionTx.complete_match, submit_result_in_tx. apply _. Qed.
#[global] Instance blind_record_result i : Blind (record_result i).
Proof. unfold record_result. apply _. Qed.
#[global] Instance blind_seat m t r w : Blind (CompletionTx.seat m t r w).
Proof. unfold CompletionTx.seat, CompletionTx.determine_target_slot, assign_participant. apply _. Qed.
#[global] Instance blind_advance m i : Blind (CompletionTx.advance_winner m i).
Proof. unfold CompletionTx.advance_winner. destruct (TournamentMatch.winner_progresses_to m); apply _. Qed.
#[global] Instance blind_route m i : Blind (CompletionTx.route_loser m i).
Proof. unfold CompletionTx.route_loser. destruct (TournamentMatch.loser_progresses_to m); apply _. Qed.
#[global] Instance blind_mark_if_ready t : Blind (MatchCompletionSaga.mark_if_ready t).
Proof.
  unfold MatchCompletionSaga.mark_if_ready, update_status. apply _.
Qed.
#[global] Instance blind_mark_ready_loop ts : Blind (MatchCompletionSaga.mark_ready_loop ts).
Proof. induction ts as [|t ts IH]; cbn; apply _. Qed.
#[global] Instance blind_mark_ready w l : Blind (mark_ready w l).
Proof. unfold mark_ready. apply _. Qed.
#[global] Instance blind_update_standings m b : Blind (CompletionTx.update_standings m b).
Proof. unfold CompletionTx.update_standings. destruct (negb _); apply _. Qed.
#[global] Instance blind_bracket_work i m b : Blind (bracket_work i m b).
Proof. unfold bracket_work. apply _. Qed.

(** ** The steps *)

Lemma books_complete_match input :
  books_work (MatchCompletionSaga.step_complete_match input) (record_result input) ["complete_match"].
Proof.
  unfold MatchCompletionSaga.step_complete_match, record_result, MatchCompletionSaga.get_saga_match.
  apply (books_bind _ _ _ _ [] ["complete_match"]); [keep_books|].
  intros m. destruct (bool_decide _); [apply books_unit; keep_books|].
  unfold CompletionTx.complete_match, MatchCompletionSaga.side_scores.
  change (MatchCompletionTxInput.winner_registration_id (tx_input input))
    with (MatchCompletionInput.winner_registration_id input).
  destruct (if bool_decide _ then (MatchCompletionInput.winner_score input, _) else _) as [s1 s2] eqn:Hs.
  cbn [tx_input MatchCompletionTxInput.winner_score MatchCompletionTxInput.loser_score]. rewrite Hs.
  apply (books_bind _ _ _ _ [] ["complete_match"]); [apply books_lift; apply _|].
  intros _. apply books_unit. keep_books.
Qed.

Lemma books_seat match_ input target registration is_winner kind :
  books_work (MatchCompletionSaga.seat_and_log match_ input target registration is_winner kind)
    (CompletionTx.seat match_ target registration is_winner) [].
Proof.
  unfold MatchCompletionSaga.seat_and_log, CompletionTx.seat.
  apply (books_bind _ _ _ _ [] []); [keep_books|].
  intros r. apply (books_bind _ _ _ _ [] []); [keep_books|].
  intros reg. apply (books_bind _ _ _ _ [] []).
  { unfold MatchCompletionSaga.determine_target_slot, CompletionTx.determine_target_slot,
      MatchCompletionSaga.get_saga_match. keep_books. }
  intros slot. apply (books_bind _ _ _ _ [] []); [unfold assign_participant; keep_books|].
  intros _. apply (books_after _ _ _ [] []); [keep_books|]. intros id.
  apply (books_after _ _ _ [] []); [keep_books|]. intros _. keep_books.
Qed.

Lemma books_advance_winner match_ input :
  books_work (MatchCompletionSaga.step_advance_winner match_ input)
    (CompletionTx.advance_winner match_ (tx_input input)) ["advance_winner"].
Proof.
  unfold MatchCompletionSaga.step_advance_winner, CompletionTx.advance_winner.
  destruct (TournamentMatch.winner_progresses_to match_) as [t|]; [|keep_books].
  apply (books_bind _ _ _ _ [] ["advance_winner"]); [apply books_seat|].
  intros slot. keep_books.
Qed.

Lemma books_route_loser match_ input bracket :
  books_work (MatchCompletionSaga.step_route_loser match_ input bracket)
    (CompletionTx.route_loser match_ (tx_input input)) ["route_loser"].
Proof.
  unfold MatchCompletionSaga.step_route_loser, CompletionTx.route_loser.
  destruct (TournamentMatch.loser_progresses_to match_) as [t|].
  - apply (books_bind _ _ _ _ [] ["route_loser"]); [apply books_seat|]. intros slot. keep_books.
  - destruct (is_standings_bracket _); [keep_books|].
    apply (books_after _ _ _ [] ["route_loser"]); [keep_books|]. intros id.
    apply (books_after _ _ _ [] ["route_loser"]); [keep_books|]. intros _. keep_books.
Qed.

Lemma books_mark_ready w l :
  books_work (MatchCompletionSaga.step_mark_ready_matches w l) (mark_ready w l) ["mark_ready_matches"].
Proof.
  unfold MatchCompletionSaga.step_mark_ready_matches, mark_ready.
  apply (books_bind _ _ _ _ [] ["mark_ready_matches"]); [keep_books|].
  intros ready. apply books_unit. keep_books.
Qed.

Lemma books_update_standings match_ bracket :
  books_work (MatchCompletionSaga.step_update_standings match_ bracket)
    (CompletionTx.update_standings match_ bracket) ["update_standings"].
Proof.
  unfold MatchCompletionSaga.step_update_standings, CompletionTx.update_standings.
  destruct (negb _); [keep_books|].
  apply (books_work_ext _ (let* _ := recompute_bracket (TournamentMatch.bracket_id match_) in mret true));
    [done|].
  apply (books_bind _ _ _ _ [] ["update_standings"]); [keep_books|]. intros _. keep_books.
Qed.

(** ** The steps on the bracket, together *)

Definition progression_names : list string :=
  ["complete_match"; "advance_winner"; "route_loser"; "mark_ready_matches"; "update_standings"].

Definition bracket_steps (input : MatchCompletionInput.t) (match_ : TournamentMatch.t)
    (bracket : TournamentBracket.t) : X (option TournamentMatchId * option TournamentMatchId * bool) :=
  let& _ := MatchCompletionSaga.step_complete_match input in
  let& winner_next := MatchCompletionSaga.step_advance_winner match_ input in
  let& loser_next := MatchCompletionSaga.step_route_loser match_ input bracket in
  let& _ := MatchCompletionSaga.step_mark_ready_matches winner_next loser_next in
  let& standings_updated := MatchCompletionSaga.step_update_standings match_ bracket in
  xret (winner_next, loser_next, standings_updated).

Lemma books_bracket_steps input match_ bracket :
  books_work (bracket_steps input match_ bracket) (bracket_work input match_ bracket) progression_names.
Proof.
  unfold bracket_steps, bracket_work.
  apply (books_bind _ _ _ _ ["complete_match"] (drop 1 progression_names)); [apply books_complete_match|].
  intros _. apply (books_bind _ _ _ _ ["advance_winner"] (drop 2 progression_names));
    [apply books_advance_winner|].
  intros w. apply (books_bind _ _ _ _ ["route_loser"] (drop 3 progression_names));
    [apply books_route_loser|].
  intros l. apply (books_bind _ _ _ _ ["mark_ready_matches"] (drop 4 progression_names));
    [apply books_mark_ready|].
  intros _. apply (books_bind _ _ _ _ ["update_standings"] []); [apply books_update_standings|].
  intros s. apply books_ret.
Qed.

(** What is left after the bracket: the next stage and the statistics. *)
Definition last_steps (self : MatchCompletionSaga.t) (input : MatchCompletionInput.t)
    (match_ : TournamentMatch.t) (bracket : TournamentBracket.t)
    (work : option TournamentMatchId * option TournamentMatchId * bool) : X MatchCompletionOutput.t :=
  let '(winner_next, loser_next, standings_updated) := work in
  let& stage_advanced := MatchCompletionSaga.step_advance_stage self match_ in
  let& _ := MatchCompletionSaga.step_update_player_stats self input in
  let output := MatchCompletionOutput.mk (MatchCompletionInput.match_id input) winner_next
    loser_next standings_updated stage_advanced false None "" in
  xret (output <| MatchCompletionOutput.summary := MatchCompletionSaga.build_summary output bracket |>).

Lemma inner_steps self input match_ e db :
  MatchCompletionSaga.run_progression_steps_inner self input match_ e db =
  xbind (MatchCompletionSaga.step_get_bracket match_) (λ bracket,
    xbind (bracket_steps input match_ bracket) (last_steps self input match_ bracket)) e db.
Proof.
  unfold MatchCompletionSaga.run_progression_steps_inner, bracket_steps, last_steps, xret, xbind.
  destruct (MatchCompletionSaga.step_get_bracket _ _ _) as [[[b|err] e1] db1]; [|done].
  destruct (MatchCompletionSaga.step_complete_match _ _ _) as [[[[]|err] e2] db2]; [|done].
  destruct (MatchCompletionSaga.step_advance_winner _ _ _ _) as [[[w|err] e3] db3]; [|done].
  destruct (MatchCompletionSaga.step_route_loser _ _ _ _ _) as [[[l|err] e4] db4]; [|done].
  destruct (MatchCompletionSaga.step_mark_ready_matches _ _ _ _) as [[[[]|err] e5] db5]; [|done].
  by destruct (MatchCompletionSaga.step_update_standings _ _ _ _) as [[[s|err] e6] db6].
Qed.
End steps.
