(* ===== verification/ProgressionProps.v ===== *)
(** What progression promises: winners land in the slot wired to their match,
    a revert takes back exactly that and converges, nobody else is evicted. *)
From stdpp Require Import base list strings gmap.
From S2P Require Import Prelude Errors Wire TournamentTypes Entities BracketModel FormatPlan.
From S2P Require Import Elimination Rounds Rows Store StoreFacts Samples.
From S2P Require Import Standings StandingsProps Helpers Progression.
#[local] Open Scope Z_scope.

(** ** Slots *)

Definition source_of (slot : ParticipantSlot.t) (m : TournamentMatch.t)
    : option MatchParticipantSource.t :=
  match slot with
  | ParticipantSlot.One => TournamentMatch.participant1_source m
  | ParticipantSlot.Two => TournamentMatch.participant2_source m
  end.

Definition occupant (slot : ParticipantSlot.t) (m : TournamentMatch.t)
    : option TournamentRegistrationId :=
  match slot with
  | ParticipantSlot.One => TournamentMatch.participant1_registration_id m
  | ParticipantSlot.Two => TournamentMatch.participant2_registration_id m
  end.

Definition slot_number (slot : ParticipantSlot.t) : Z :=
  match slot with ParticipantSlot.One => 1 | ParticipantSlot.Two => 2 end.

Lemma slot_of_number slot : slot_of (slot_number slot) = slot.
Proof. by destruct slot. Qed.

Definition fed_by (role : ProgressionRole.t) (src : TournamentMatch.t)
    (source : option MatchParticipantSource.t) : bool :=
  from_option (λ s, ProgressionRole.fills_from role s (TournamentMatch.bracket_position src)) false source.

(** [slot] is the first slot of [target] wired to [src] in this role. *)
Definition wired (role : ProgressionRole.t) (src target : TournamentMatch.t)
    (slot : ParticipantSlot.t) : Prop :=
  fed_by role src (source_of slot target) = true ∧
  (slot = ParticipantSlot.Two → fed_by role src (source_of ParticipantSlot.One target) = false).

Definition is_winner (role : ProgressionRole.t) : bool :=
  match role with ProgressionRole.Winner => true | ProgressionRole.Loser => false end.

Lemma determine_wired role src target slot :
  wired role src target slot →
  determine_target_position src target (is_winner role) = Ok (slot_number slot).
Proof.
  assert (∀ o, from_option (λ source, match source with
      | MatchParticipantSource.WinnerOf pos =>
          is_winner role && bool_decide (pos = TournamentMatch.bracket_position src)
      | MatchParticipantSource.LoserOf pos =>
          negb (is_winner role) && bool_decide (pos = TournamentMatch.bracket_position src)
      | _ => false end) false o = fed_by role src o) as Hfed.
  { intros [[]|]; destruct role; reflexivity. }
  intros [Hw Hfirst]. unfold determine_target_position. rewrite !Hfed.
  destruct slot; simpl in *.
  - by rewrite Hw.
  - by rewrite Hfirst, Hw.
Qed.

Lemma resolve_wired role src target slot :
  wired role src target slot → resolve_slot src target role = Some (slot, occupant slot target).
Proof.
  intros [Hw Hfirst]. unfold resolve_slot, slots_of. simpl.
  unfold fed_by in *. destruct slot; simpl in *.
  - by rewrite decide_True.
  - rewrite decide_False by (rewrite Hfirst by done; done). by rewrite decide_True.
Qed.

(** Whatever way a slot was found, it is one of the target's. *)
Lemma resolve_occupant role src target slot o :
  resolve_slot src target role = Some (slot, o) → o = occupant slot target.
Proof.
  unfold resolve_slot. intros ([i [[s src'] o']] & Hf & [= -> ->])%fmap_Some.
  assert ((s, src', o') ∈ slots_of target) as Hin.
  { destruct (list_find _ _) as [[j x]|] eqn:Hx; simplify_eq.
    - apply list_find_Some in Hx as [Hl _]. by eapply list_elem_of_lookup_2.
    - apply list_find_Some in Hf as [Hl _]. by eapply list_elem_of_lookup_2. }
  unfold slots_of in Hin. set_solver.
Qed.

Section progression_props.
Context `{Platform}.

Lemma get_match_found id m db : Db.matches db !! id = Some m → get_match id db = (Ok m, db).
Proof. intros Hm. unfold get_match, find_match_by_id, mread, mlift, mbind. by rewrite Hm. Qed.

Lemma get_match_missing id db :
  Db.matches db !! id = None →
  get_match id db = (throw (DomainError.TournamentMatchNotFound id), db).
Proof. intros Hm. unfold get_match, find_match_by_id, mread, mlift, mbind. by rewrite Hm. Qed.

Lemma get_bracket_found id b db : Db.brackets db !! id = Some b → get_bracket id db = (Ok b, db).
Proof. intros Hb. unfold get_bracket, find_bracket_by_id, mread, mlift, mbind. by rewrite Hb. Qed.

(** ** Seating *)

(** The target after [w] took its slot. *)
Definition seated (slot : ParticipantSlot.t) (w : TournamentRegistrationId)
    (reg : TournamentRegistration.t) (now : DateTime) (target : TournamentMatch.t) : TournamentMatch.t :=
  set_participant slot (Some w) (Some (TournamentRegistration.participant_name reg))
    (TournamentRegistration.participant_logo_url reg) (TournamentRegistration.seed reg) target
  <| TournamentMatch.updated_at := now |>.

Lemma seat_in_target_wired role src t target slot w reg db :
  Db.matches db !! t = Some target → Db.registrations db !! w = Some reg →
  wired role src target slot →
  seat_in_target src t (is_winner role) w db =
  (Ok (slot_number slot),
   db <| Db.matches := <[t := seated slot w reg (Db.now db) target]> (Db.matches db) |>).
Proof.
  intros Ht Hr Hw. unfold seat_in_target, get_match, find_match_by_id, get_registration,
    find_registration_by_id, mread, mlift, mbind, assign_participant, update_match, mret.
  rewrite Ht. simpl. rewrite (determine_wired role) with (slot := slot) by done. simpl.
  rewrite Hr. simpl. by rewrite slot_of_number.
Qed.

(** A winner is seated in the slot of the next match that declares this
  match as its source, with the name, logo and seed of the registration, and
  nothing else in the database changes; without a next match nothing happens. *)
Theorem advance_winner_seats src w db :
  (TournamentMatch.winner_progresses_to src = None → advance_winner src w db = (Ok None, db)) ∧
  ∀ t target slot reg,
    TournamentMatch.winner_progresses_to src = Some t →
    Db.matches db !! t = Some target → Db.registrations db !! w = Some reg →
    wired ProgressionRole.Winner src target slot →
    advance_winner src w db =
      (Ok (Some (Advancement.mk t (slot_number slot))),
       db <| Db.matches := <[t := seated slot w reg (Db.now db) target]> (Db.matches db) |>).
Proof.
  unfold advance_winner. split; [by intros ->|]. intros t target slot reg -> Ht Hr Hw.
  unfold mbind at 1. by rewrite (seat_in_target_wired ProgressionRole.Winner) with (target := target) (slot := slot) (reg := reg).
Qed.

(** ** Withdrawing *)

(** The target after its slot was taken back. *)
Definition cleared (slot : ParticipantSlot.t) (now : DateTime) (target : TournamentMatch.t)
    : TournamentMatch.t :=
  set_participant slot None None None None target
  <| TournamentMatch.updated_at := now |> <| TournamentMatch.status := TournamentMatchStatus.Pending |>.

(** A row a revert may touch: untouched by play, the slot held by one of the
    source's own participants. *)
Definition withdrawable (src target : TournamentMatch.t) (slot : ParticipantSlot.t) : Prop :=
  TournamentMatch.winner_registration_id target = None ∧
  target_is_still_untouched (TournamentMatch.status target) = true ∧
  ∃ o, occupant slot target = Some o ∧ o ∈ participants_of src.

Lemma ensure_ok src target db u db' :
  ensure_target_has_not_moved_on src target db = (Ok u, db') →
  db' = db ∧ TournamentMatch.winner_registration_id target = None ∧
  target_is_still_untouched (TournamentMatch.status target) = true.
Proof.
  unfold ensure_target_has_not_moved_on, revert_blocker, TournamentMatch.has_winner.
  destruct (TournamentMatch.winner_registration_id target); simpl; [done|].
  destruct (target_is_still_untouched _); simpl; [|done].
  destruct (TournamentMatch.winner_progresses_to target) as [d|]; [|unfold mbind, mret; naive_solver].
  unfold mbind, get_match, find_match_by_id, mread, mlift, mret, ok_or, mthrow, throw. simpl.
  destruct (Db.matches db !! d); [|done]. simpl. destruct (existsb _ _); naive_solver.
Qed.

Lemma ensure_preserves R `{!PreOrder R} src target :
  preserves R (ensure_target_has_not_moved_on src target).
Proof. unfold ensure_target_has_not_moved_on, revert_blocker, get_match, find_match_by_id. frame. Qed.

Lemma clear_and_reset t slot target db :
  Db.matches db !! t = Some target → target_is_still_untouched (TournamentMatch.status target) = true →
  (let* _ := clear_participant t slot in
   let* _ := (if target_is_still_untouched (TournamentMatch.status target)
                 && negb (TournamentMatch.is_pending target)
              then let* _ := update_status t TournamentMatchStatus.Pending in mret tt
              else mret tt) in
   mret true) db =
  (Ok true, db <| Db.matches := <[t := cleared slot (Db.now db) target]> (Db.matches db) |>).
Proof.
  intros Ht Hun. rewrite Hun. unfold mbind. rewrite (clear_participant_found _ _ _ target) by done.
  cbn [andb]. destruct (negb (TournamentMatch.is_pending target)) eqn:Hp.
  - unfold update_status, update_match, mret. cbn. rewrite lookup_insert_eq. cbn.
    rewrite insert_insert_eq. destruct slot; reflexivity.
  - unfold mret. cbn. do 3 f_equal. unfold cleared.
    assert (TournamentMatch.status target = TournamentMatchStatus.Pending) as Hs.
    { unfold TournamentMatch.is_pending in Hp. by destruct (TournamentMatch.status target). }
    destruct target, slot; simpl in *; subst; reflexivity.
Qed.

Inductive withdrawal (src : TournamentMatch.t) (target_id : option TournamentMatchId)
    (role : ProgressionRole.t) (db : Db.t) : outcome bool → Db.t → Prop :=
| Withdrawal_none (r : outcome bool) :
    (∀ b, r = Ok b → b = false) → withdrawal src target_id role db r db
| Withdrawal_done (t : TournamentMatchId) (target : TournamentMatch.t) (slot : ParticipantSlot.t) :
    target_id = Some t → Db.matches db !! t = Some target →
    resolve_slot src target role = Some (slot, occupant slot target) →
    withdrawable src target slot →
    withdrawal src target_id role db (Ok true)
      (db <| Db.matches := <[t := cleared slot (Db.now db) target]> (Db.matches db) |>).

(** Every run of a withdrawal is one of these. *)
Lemma withdraw_from_target_runs src target_id role db :
  withdrawal src target_id role db
    (withdraw_from_target src target_id role db).1 (withdraw_from_target src target_id role db).2.
Proof.
  unfold withdraw_from_target. destruct target_id as [t|]; [|by constructor; intros ? [= <-]].
  case_bool_decide as Hc; [by constructor; intros ? [= <-]|].
  destruct (Db.matches db !! t) as [target|] eqn:Ht.
  2: { rewrite (mbind_stop _ _ _ _ _ (get_match_missing _ _ Ht)). by constructor. }
  rewrite (mbind_step _ _ _ _ _ (get_match_found _ _ _ Ht)).
  destruct (resolve_slot src target role) as [[slot [o|]]|] eqn:Hr;
    [|by constructor; intros ? [= <-]..].
  destruct (bool_decide (o ∈ participants_of src)) eqn:Ho; simpl; [|by constructor].
  pose proof (ensure_preserves eq src target db) as Hdb.
  destruct (ensure_target_has_not_moved_on src target db) as [[u|e] db1] eqn:He;
    simpl in Hdb; subst db1; [|rewrite (mbind_stop _ _ _ _ _ He); by constructor].
  rewrite (mbind_step _ _ _ _ _ He).
  apply ensure_ok in He as (_ & Hwin & Hun). rewrite (clear_and_reset t slot target) by done.
  pose proof (resolve_occupant _ _ _ _ _ Hr) as Hocc. simpl.
  apply (Withdrawal_done src (Some t) role db t target slot); [done..|by rewrite <- Hocc|].
  split; [done|]. split; [done|]. exists o. split; [done|]. by apply bool_decide_eq_true in Ho.
Qed.

(** ** A revert evicts only whom the match sent *)

(** What a revert may do to a row: nothing, or empty slots of an untouched
    match that participants of the source hold. *)
Definition withdrawn (src m m' : TournamentMatch.t) : Prop :=
  m' = m ∨
  (TournamentMatch.winner_registration_id m = None ∧
   target_is_still_untouched (TournamentMatch.status m) = true ∧
   TournamentMatch.winner_registration_id m' = None ∧
   TournamentMatch.status m' = TournamentMatchStatus.Pending ∧
   ∀ slot, occupant slot m' = occupant slot m ∨
     occupant slot m' = None ∧ ∃ o, occupant slot m = Some o ∧ o ∈ participants_of src).

Lemma withdrawn_trans src m1 m2 m3 : withdrawn src m1 m2 → withdrawn src m2 m3 → withdrawn src m1 m3.
Proof.
  intros [->|(W1 & U1 & W1' & S1 & O1)]; [done|].
  intros [->|(W2 & U2 & W2' & S2 & O2)]; [by right|]. right. repeat split; try done.
  intros slot. destruct (O1 slot) as [E1|(E1 & Hx)], (O2 slot) as [E2|(E2 & Hy)].
  - left. congruence.
  - right. split; [done|]. by rewrite <- E1.
  - right. split; [congruence|done].
  - by right.
Qed.

Lemma cleared_withdrawn src now m slot : withdrawable src m slot → withdrawn src m (cleared slot now m).
Proof.
  intros (Hw & Hu & o & Ho & Hin). right. repeat split; try done; try by destruct slot.
  intros s. destruct (decide (s = slot)) as [->|Hs].
  - right. split; [by destruct slot|by exists o].
  - left. by destruct s, slot.
Qed.

Definition revert_frame (src : TournamentMatch.t) (db db' : Db.t) : Prop :=
  only_matches db db' ∧
  ∀ id, option_Forall2 (withdrawn src) (Db.matches db !! id) (Db.matches db' !! id) ∧
    (Some id ≠ TournamentMatch.winner_progresses_to src →
     Some id ≠ TournamentMatch.loser_progresses_to src → Db.matches db' !! id = Db.matches db !! id).

#[global] Instance revert_frame_preorder src : PreOrder (revert_frame src).
Proof.
  split.
  - intros db. split; [reflexivity|]. intros id. split; [|done].
    destruct (Db.matches db !! id); constructor. by left.
  - intros db1 db2 db3 [F1 H1] [F2 H2]. split; [by etransitivity|]. intros id.
    destruct (H1 id) as [R1 E1], (H2 id) as [R2 E2]. split.
    + destruct R1 as [m1 m2 R1|]; inversion R2; constructor. by eapply withdrawn_trans.
    + intros Hw Hl. rewrite E2, E1; done.
Qed.

Lemma withdraw_frame src target_id role :
  target_id = TournamentMatch.winner_progresses_to src ∨
  target_id = TournamentMatch.loser_progresses_to src →
  preserves (revert_frame src) (withdraw_from_target src target_id role).
Proof.
  intros Hid db. destruct (withdraw_from_target_runs src target_id role db)
    as [r _|t target slot -> Ht _ Hw]; [reflexivity|].
  split; [by split|]. intros id. cbn. destruct (decide (id = t)) as [->|Hne].
  - rewrite Ht, lookup_insert_eq. split; [constructor; by apply cleared_withdrawn|].
    intros Hnw Hnl. by destruct Hid.
  - rewrite lookup_insert_ne by done. split; [|done].
    destruct (Db.matches db !! id); constructor. by left.
Qed.

Lemma revert_progression_frame match_id src bracket db :
  Db.matches db !! match_id = Some src →
  Db.brackets db !! TournamentMatch.bracket_id src = Some bracket →
  revert_effect (TournamentBracket.bracket_type bracket) = RevertEffect.WithdrawFromDownstream →
  revert_frame src db (revert_progression match_id db).2.
Proof.
  intros Hm Hb He. unfold revert_progression.
  rewrite (mbind_step _ _ _ _ _ (get_match_found _ _ _ Hm)).
  rewrite (mbind_step _ _ _ _ _ (get_bracket_found _ _ _ Hb)), He.
  match goal with |- context [(?c db).2] => enough (preserves (revert_frame src) c) as Hf by exact (Hf db) end.
  apply preserves_bind; [apply _|apply withdraw_frame; by left|]. intros b.
  apply preserves_bind; [apply _|apply withdraw_frame; by right|]. intros b'.
  apply preserves_ret, _.
Qed.

(** C9. Reverting a result in an elimination bracket, whatever its outcome,
  touches only the matches this one feeds, and there empties only slots that
  participants of the reverted match hold in matches nobody has played: it
  never evicts anyone else, and changes no other table. *)
Theorem revert_progression_safe match_id src bracket db :
  Db.matches db !! match_id = Some src →
  Db.brackets db !! TournamentMatch.bracket_id src = Some bracket →
  revert_effect (TournamentBracket.bracket_type bracket) = RevertEffect.WithdrawFromDownstream →
  let db' := (revert_progression match_id db).2 in
  only_matches db db' ∧
  ∀ id, option_Forall2 (withdrawn src) (Db.matches db !! id) (Db.matches db' !! id) ∧
    (Some id ≠ TournamentMatch.winner_progresses_to src →
     Some id ≠ TournamentMatch.loser_progresses_to src → Db.matches db' !! id = Db.matches db !! id).
Proof.
  intros Hm Hb He. exact (revert_progression_frame match_id src bracket db Hm Hb He).
Qed.

(** ** Reverting undoes advancing *)

Lemma elem_of_participants r m : r ∈ participants_of m ↔ ∃ slot, occupant slot m = Some r.
Proof.
  unfold participants_of. rewrite elem_of_app. split.
  - intros [Hr|Hr]; [exists ParticipantSlot.One|exists ParticipantSlot.Two]; simpl;
      destruct (_ : option _); simpl in Hr; set_solver.
  - intros [[] Hs]; simpl in Hs; rewrite Hs; [left|right]; by apply list_elem_of_singleton.
Qed.

(** The match the target feeds, if any, holds none of its participants. *)
Definition nobody_went_deeper (target : TournamentMatch.t) (db : Db.t) : Prop :=
  ∀ d, TournamentMatch.winner_progresses_to target = Some d →
    ∃ deeper, Db.matches db !! d = Some deeper ∧
      ∀ r, r ∈ participants_of deeper → r ∉ participants_of target.

Lemma ensure_run src target db :
  TournamentMatch.winner_registration_id target = None →
  target_is_still_untouched (TournamentMatch.status target) = true →
  nobody_went_deeper target db → ensure_target_has_not_moved_on src target db = (Ok tt, db).
Proof.
  intros Hw Hu Hd. unfold ensure_target_has_not_moved_on.
  rewrite (mbind_step _ _ _ None db); [done|].
  unfold revert_blocker, TournamentMatch.has_winner. rewrite Hw, Hu. simpl.
  destruct (TournamentMatch.winner_progresses_to target) as [d|] eqn:Hd'; [|done].
  destruct (Hd d Hd') as (deeper & Hdm & Hfree).
  rewrite (mbind_step _ _ _ _ _ (get_match_found _ _ _ Hdm)).
  replace (existsb _ _) with false; [done|]. symmetry. apply not_true_is_false.
  intros (r & Hr & Hin)%existsb_exists. apply bool_decide_eq_true in Hin.
  apply list_elem_of_In in Hr. apply (Hfree r Hr), elem_of_participants.
  apply elem_of_cons in Hin as [Hin|Hin]; [by exists ParticipantSlot.One|].
  apply list_elem_of_singleton in Hin. by exists ParticipantSlot.Two.
Qed.

(** A withdrawal that goes through. *)
Lemma withdraw_run src t role target slot o db :
  Db.matches db !! t = Some target → wired role src target slot → occupant slot target = Some o →
  o ∈ participants_of src → TournamentMatch.winner_registration_id target = None →
  target_is_still_untouched (TournamentMatch.status target) = true → nobody_went_deeper target db →
  withdraw_from_target src (Some t) role db =
  (Ok true, db <| Db.matches := <[t := cleared slot (Db.now db) target]> (Db.matches db) |>).
Proof.
  intros Ht Hw Ho Hin Hwin Hu Hd. unfold withdraw_from_target.
  rewrite bool_decide_false by (intros Hnil; rewrite Hnil in Hin; by apply elem_of_nil in Hin).
  rewrite (mbind_step _ _ _ _ _ (get_match_found _ _ _ Ht)), (resolve_wired _ _ _ _ Hw), Ho.
  rewrite bool_decide_true by done. cbn [negb].
  rewrite (mbind_step _ _ _ _ _ (ensure_run src target db Hwin Hu Hd)). by apply clear_and_reset.
Qed.

Definition empty_slot (slot : ParticipantSlot.t) (m : TournamentMatch.t) : Prop :=
  set_participant slot None None None None m = m.

(** C14. Reverting undoes advancing: after a participant of the match is seated
  in the wired slot of an unplayed target, and the target perhaps marked ready
  or scheduled meanwhile, the withdrawal gives back the target as it was, with
  only its modification time changed, and leaves the rest of the database. *)
Theorem withdraw_undoes_advance role src t target slot w reg st db :
  Db.matches db !! t = Some target → Db.registrations db !! w = Some reg →
  wired role src target slot → w ∈ participants_of src → empty_slot slot target →
  TournamentMatch.status target = TournamentMatchStatus.Pending →
  TournamentMatch.winner_registration_id target = None →
  nobody_went_deeper (seated slot w reg (Db.now db) target) db →
  TournamentMatch.winner_progresses_to target ≠ Some t →
  target_is_still_untouched st = true →
  let advanced := (let* _ := seat_in_target src t (is_winner role) w in update_status t st) db in
  withdraw_from_target src (Some t) role advanced.2 =
  (Ok true, db <| Db.matches :=
     <[t := target <| TournamentMatch.updated_at := Db.now db |>]> (Db.matches db) |>).
Proof.
  intros Ht Hr Hw Hin He Hst Hwin Hd Hself Hu. cbv zeta.
  set (moved := (seated slot w reg (Db.now db) target) <| TournamentMatch.status := st |>
                  <| TournamentMatch.updated_at := Db.now db |>).
  assert ((let* _ := seat_in_target src t (is_winner role) w in update_status t st) db =
    (Ok moved, db <| Db.matches := <[t := moved]> (Db.matches db) |>)) as ->.
  { rewrite (mbind_step _ _ _ _ _ (seat_in_target_wired role src t target slot w reg db Ht Hr Hw)).
    unfold update_status, update_match. cbn. rewrite lookup_insert_eq. cbn. by rewrite insert_insert_eq. }
  rewrite (withdraw_run src t role moved slot w);
    [|cbn; apply lookup_insert_eq|by destruct slot|by destruct slot|done|by destruct slot|by destruct slot|].
  - cbn. rewrite insert_insert_eq. do 4 f_equal. unfold empty_slot in He.
    destruct slot, target; cbn in *; subst; injection He as -> -> -> ->; reflexivity.
  - intros d Hd'. destruct (Hd d) as (deeper & Hdm & Hfree); [by destruct slot|].
    exists deeper. split.
    + cbn. rewrite lookup_insert_ne; [done|]. intros <-. apply Hself. by destruct slot.
    + intros r Hr'. specialize (Hfree r Hr'). by destruct slot.
Qed.

(** ** Reverting again *)

Definition link (role : ProgressionRole.t) (src : TournamentMatch.t) : option TournamentMatchId :=
  match role with
  | ProgressionRole.Winner => TournamentMatch.winner_progresses_to src
  | ProgressionRole.Loser => TournamentMatch.loser_progresses_to src
  end.

(** Nothing of the match is left in the slot wired to it. *)
Definition settled (role : ProgressionRole.t) (src : TournamentMatch.t) (db : Db.t) : Prop :=
  ∀ t, link role src = Some t → participants_of src = [] ∨
    ∃ target slot, Db.matches db !! t = Some target ∧ wired role src target slot ∧
      occupant slot target = None.

Lemma settled_quiet role src db :
  settled role src db → withdraw_from_target src (link role src) role db = (Ok false, db).
Proof.
  intros Hs. unfold withdraw_from_target. destruct (link role src) as [t|] eqn:Hl; [|done].
  destruct (Hs t Hl) as [->|(target & slot & Ht & Hw & Ho)]; [done|].
  case_bool_decide; [done|]. rewrite (mbind_step _ _ _ _ _ (get_match_found _ _ _ Ht)).
  by rewrite (resolve_wired _ _ _ _ Hw), Ho.
Qed.

(** Every link of the match leads to a match with a slot wired to it. *)
Definition links_wired (src : TournamentMatch.t) (db : Db.t) : Prop :=
  ∀ role t target, link role src = Some t → Db.matches db !! t = Some target →
    ∃ slot, wired role src target slot.

Lemma wired_cleared role src target s slot now :
  wired role src (cleared s now target) slot ↔ wired role src target slot.
Proof. unfold wired. by destruct s, slot. Qed.

Lemma withdraw_settles role src db b db1 :
  links_wired src db → withdraw_from_target src (link role src) role db = (Ok b, db1) →
  settled role src db1.
Proof.
  intros Hlw Hrun t Hl. destruct (decide (participants_of src = [])) as [|Hc]; [by left|]. right.
  rewrite Hl in Hrun. revert Hrun. unfold withdraw_from_target at 1. rewrite bool_decide_false by done.
  destruct (Db.matches db !! t) as [target|] eqn:Ht.
  2: { by rewrite (mbind_stop _ _ _ _ _ (get_match_missing _ _ Ht)). }
  rewrite (mbind_step _ _ _ _ _ (get_match_found _ _ _ Ht)).
  destruct (Hlw role t target Hl Ht) as [slot Hw]. rewrite (resolve_wired _ _ _ _ Hw).
  destruct (occupant slot target) as [o|] eqn:Ho.
  2: { intros [= _ <-]. by exists target, slot. }
  destruct (bool_decide (o ∈ participants_of src)); simpl; [|done].
  intros (u & db2 & He & Hrun)%mbind_ok.
  pose proof (ensure_ok _ _ _ _ _ He) as (-> & _ & Hu).
  rewrite (clear_and_reset t slot target) in Hrun by done. injection Hrun as _ <-.
  exists (cleared slot (Db.now db) target), slot. split; [cbn; apply lookup_insert_eq|].
  split; [by apply wired_cleared|]. by destruct slot.
Qed.

Lemma withdraw_keeps_settled role role' src target_id db :
  settled role src db → settled role src (withdraw_from_target src target_id role' db).2.
Proof.
  intros Hs t Hl. destruct (Hs t Hl) as [Hc|(target & slot & Ht & Hw & Ho)]; [by left|]. right.
  destruct (withdraw_from_target_runs src target_id role' db) as [r _|t' target' s' _ Ht' _ _];
    [by exists target, slot|].
  cbn. destruct (decide (t = t')) as [->|Hne].
  - simplify_eq. exists (cleared s' (Db.now db) target), slot.
    split; [apply lookup_insert_eq|]. split; [by apply wired_cleared|]. by destruct s', slot.
  - rewrite lookup_insert_ne by done. by exists target, slot.
Qed.

Lemma links_wired_withdraw src role target_id db :
  links_wired src db → links_wired src (withdraw_from_target src target_id role db).2.
Proof.
  intros Hlw. destruct (withdraw_from_target_runs src target_id role db) as [r _|t' target' s' _ Ht' _ _];
    [done|].
  intros role' t target Hl. cbn. destruct (decide (t = t')) as [->|Hne].
  - rewrite lookup_insert_eq. intros [= <-]. destruct (Hlw role' t' target' Hl Ht') as [slot Hw].
    exists slot. by apply wired_cleared.
  - rewrite lookup_insert_ne by done. apply Hlw; done.
Qed.

Lemma revert_elimination match_id src bracket db :
  Db.matches db !! match_id = Some src →
  Db.brackets db !! TournamentMatch.bracket_id src = Some bracket →
  revert_effect (TournamentBracket.bracket_type bracket) = RevertEffect.WithdrawFromDownstream →
  revert_progression match_id db =
  (let* _ := withdraw_from_target src (link ProgressionRole.Winner src) ProgressionRole.Winner in
   let* _ := withdraw_from_target src (link ProgressionRole.Loser src) ProgressionRole.Loser in
   mret tt) db.
Proof.
  intros Hm Hb He. unfold revert_progression.
  rewrite (mbind_step _ _ _ _ _ (get_match_found _ _ _ Hm)).
  by rewrite (mbind_step _ _ _ _ _ (get_bracket_found _ _ _ Hb)), He.
Qed.

Lemma revert_frame_row match_id src db db' :
  revert_frame src db db' → Db.matches db !! match_id = Some src →
  (∀ role, link role src ≠ Some match_id) → Db.matches db' !! match_id = Some src.
Proof.
  intros [_ Hf] Hm Hl. destruct (Hf match_id) as [_ Hsame]. rewrite Hsame; [done|..].
  - intros Hx. by apply (Hl ProgressionRole.Winner).
  - intros Hx. by apply (Hl ProgressionRole.Loser).
Qed.

Lemma revert_elimination_again match_id src bracket db db' :
  Db.matches db !! match_id = Some src →
  Db.brackets db !! TournamentMatch.bracket_id src = Some bracket →
  revert_effect (TournamentBracket.bracket_type bracket) = RevertEffect.WithdrawFromDownstream →
  links_wired src db → (∀ role, link role src ≠ Some match_id) →
  revert_progression match_id db = (Ok tt, db') → revert_progression match_id db' = (Ok tt, db').
Proof.
  intros Hm Hb He Hlw Hself Hrun.
  pose proof (revert_progression_frame match_id src bracket db Hm Hb He) as Hframe.
  rewrite Hrun in Hframe. cbn [snd] in Hframe.
  rewrite (revert_elimination match_id src bracket db) in Hrun by done.
  apply mbind_ok in Hrun as (b1 & db1 & H1 & Hrun).
  apply mbind_ok in Hrun as (b2 & db2 & H2 & [= <-]).
  pose proof (withdraw_settles ProgressionRole.Winner src db b1 db1 Hlw H1) as Hs.
  pose proof (links_wired_withdraw src ProgressionRole.Winner (link ProgressionRole.Winner src) db Hlw) as Hlw1.
  rewrite H1 in Hlw1. cbn [snd] in Hlw1.
  pose proof (withdraw_keeps_settled ProgressionRole.Winner ProgressionRole.Loser src
    (link ProgressionRole.Loser src) db1 Hs) as Hs2. rewrite H2 in Hs2.
  pose proof (withdraw_settles ProgressionRole.Loser src db1 b2 db2 Hlw1 H2) as Hl.
  rewrite (revert_elimination match_id src bracket db2).
  - rewrite (mbind_step _ _ _ _ _ (settled_quiet _ _ _ Hs2)).
    by rewrite (mbind_step _ _ _ _ _ (settled_quiet _ _ _ Hl)).
  - by eapply revert_frame_row.
  - destruct Hframe as [Hom _]. by rewrite (om_brackets _ _ Hom).
  - done.
Qed.

(** In a standings bracket: the result is gone, the table is its derivation. *)
Lemma revert_standings_again match_id src bracket db db' :
  Db.matches db !! match_id = Some src →
  Db.brackets db !! TournamentMatch.bracket_id src = Some bracket →
  revert_effect (TournamentBracket.bracket_type bracket) = RevertEffect.ClearRecordedResult →
  revert_progression match_id db = (Ok tt, db') → revert_progression match_id db' = (Ok tt, db').
Proof.
  intros Hm Hb He. unfold revert_progression at 1.
  rewrite (mbind_step _ _ _ _ _ (get_match_found _ _ _ Hm)).
  rewrite (mbind_step _ _ _ _ _ (get_bracket_found _ _ _ Hb)), He.
  intros (u & db1 & Hclear & Hrun)%mbind_ok.
  assert (∃ src1, Db.matches db1 !! match_id = Some src1 ∧
    TournamentMatch.bracket_id src1 = TournamentMatch.bracket_id src ∧
    TournamentMatch.winner_registration_id src1 = None ∧
    TournamentMatch.loser_registration_id src1 = None ∧ Db.brackets db1 = Db.brackets db)
    as (src1 & Hm1 & Hb1 & Hw1 & Hl1 & Hbs).
  { destruct (bool_decide _ || bool_decide _) eqn:Hany.
    - unfold clear_result, mbind in Hclear. rewrite (update_match_found _ _ _ src) in Hclear by done.
      injection Hclear as _ <-. eexists. split; [cbn; apply lookup_insert_eq|]. done.
    - injection Hclear as _ <-. exists src. apply orb_false_iff in Hany as [Hw%bool_decide_eq_false Hl%bool_decide_eq_false].
      by rewrite <- !eq_None_not_Some in *. }
  change (recompute_bracket (TournamentBracket.id bracket)) with
    (λ db, (Ok (standings_of_bracket (TournamentBracket.id bracket) (recompute_all (TournamentBracket.id bracket) db))
       : outcome _, recompute_all (TournamentBracket.id bracket) db)) in Hrun.
  injection Hrun as <-. unfold revert_progression.
  rewrite (mbind_step _ _ _ src1 (recompute_all (TournamentBracket.id bracket) db1)) by by apply get_match_found.
  rewrite (mbind_step _ _ _ bracket (recompute_all (TournamentBracket.id bracket) db1)).
  2: { apply get_bracket_found. rewrite Hb1. change (Db.brackets db1 !! TournamentMatch.bracket_id src = Some bracket). by rewrite Hbs. }
  rewrite He, Hw1, Hl1. simpl.
  change ((Ok tt : outcome unit, recompute_all (TournamentBracket.id bracket) (recompute_all (TournamentBracket.id bracket) db1)) =
    (Ok tt, recompute_all (TournamentBracket.id bracket) db1)). by rewrite recompute_all_again.
Qed.

(** Reverting converges: in every bracket family a revert that succeeded
  can be run again, succeeds again, and changes nothing the second time. *)
Theorem revert_progression_idempotent match_id src bracket db db' :
  Db.matches db !! match_id = Some src →
  Db.brackets db !! TournamentMatch.bracket_id src = Some bracket →
  links_wired src db → (∀ role, link role src ≠ Some match_id) →
  revert_progression match_id db = (Ok tt, db') → revert_progression match_id db' = (Ok tt, db').
Proof.
  intros Hm Hb Hlw Hself. destruct (revert_effect (TournamentBracket.bracket_type bracket)) eqn:He.
  - by eapply revert_standings_again.
  - by eapply revert_elimination_again.
Qed.
End progression_props.

(** ** Witnesses *)

#[local] Existing Instance sample_platform.

Definition feeds (id : N) (m : TournamentMatch.t) : TournamentMatch.t :=
  m <| TournamentMatch.winner_progresses_to := Some id |>.

Definition semi_final : TournamentMatch.t :=
  feeds 12 (sample_row 10 5 1 1 "R1M1" (None, None) (Some 1%N, Some 4%N)).
Definition final : TournamentMatch.t :=
  sample_row 12 5 2 3 "R2M1"
    (Some (MatchParticipantSource.WinnerOf "R1M1"), Some (MatchParticipantSource.WinnerOf "R1M2"))
    (None, None).

(** A single elimination of four, nothing played. *)
Definition sample_cup : Db.t :=
  sample_db
    [semi_final; feeds 12 (sample_row 11 5 1 2 "R1M2" (None, None) (Some 2%N, Some 3%N)); final]
    [sample_bracket 5 2 BracketType.SingleElim] [].

Lemma final_wired : wired ProgressionRole.Winner semi_final final ParticipantSlot.One.
Proof. by split. Qed.

Example advance_winner_seats_witness :
  (advance_winner semi_final 1%N sample_cup).1 = Ok (Some (Advancement.mk 12 1)).
Proof.
  rewrite (proj2 (advance_winner_seats semi_final 1%N sample_cup) 12%N final ParticipantSlot.One
    (sample_registration 1 (Some 1)));
    [vm_compute; reflexivity|vm_compute; reflexivity|vm_compute; reflexivity|vm_compute; reflexivity|apply final_wired].
Defined.

Example withdraw_undoes_advance_witness :
  let advanced := (let* _ := seat_in_target semi_final 12 true 1%N in
                   update_status 12 TournamentMatchStatus.Ready) sample_cup in
  (withdraw_from_target semi_final (Some 12%N) ProgressionRole.Winner advanced.2).1 = Ok true.
Proof.
  cbv zeta. change true with (is_winner ProgressionRole.Winner) at 1.
  rewrite (withdraw_undoes_advance ProgressionRole.Winner semi_final 12 final ParticipantSlot.One 1
    (sample_registration 1 (Some 1)) TournamentMatchStatus.Ready sample_cup);
    [vm_compute; reflexivity|vm_compute; reflexivity|vm_compute; reflexivity|apply final_wired
    |apply (bool_decide_unpack _); vm_compute; exact I|vm_compute; reflexivity|vm_compute; reflexivity
    |vm_compute; reflexivity| |vm_compute; discriminate|vm_compute; reflexivity].
  intros d Hd. vm_compute in Hd. discriminate.
Defined.

(** The cup after the first semi-final. *)
Definition played_cup : Db.t := (process_match_completion 10 1%N 4%N sample_cup).2.
Definition played_semi : TournamentMatch.t :=
  default semi_final (Db.matches played_cup !! 10%N).

Example revert_progression_safe_witness :
  Db.matches played_cup !! 11%N = Db.matches (revert_progression 10 played_cup).2 !! 11%N.
Proof.
  symmetry.
  apply (revert_progression_safe 10 played_semi (sample_bracket 5 2 BracketType.SingleElim) played_cup);
    [vm_compute; reflexivity|vm_compute; reflexivity|reflexivity|discriminate|discriminate].
Defined.

Example revert_progression_idempotent_witness :
  let reverted := (revert_progression 10 played_cup).2 in
  participants_of (default final (Db.matches reverted !! 12%N)) = [] ∧
  revert_progression 10 reverted = (Ok tt, reverted).
Proof.
  split; [vm_compute; reflexivity|].
  apply (revert_progression_idempotent 10 played_semi (sample_bracket 5 2 BracketType.SingleElim) played_cup).
  - vm_compute. reflexivity.
  - vm_compute. reflexivity.
  - intros [] t target Hl Ht; [|discriminate]. injection Hl as <-. exists ParticipantSlot.One.
    vm_compute in Ht. injection Ht as <-. split; [reflexivity|discriminate].
  - intros []; discriminate.
  - apply run_outcome. vm_compute. reflexivity.
Defined.
