(* ===== verification/CompletionProps.v ===== *)
(** Which matches become ready, when brackets, stages and tournaments are
    complete; the transition from the group stage to the playoffs happens once,
    and only the last write of it touches the stage table. *)
From stdpp Require Import base list strings gmap.
From S2P Require Import Prelude Errors Wire TournamentTypes FormatPlan Entities BracketModel.
From S2P Require Import Elimination Rounds Rows Store StoreFacts Standings.
From S2P Require Import Helpers Progression Samples.
#[local] Open Scope Z_scope.

Section completion_props.
Context `{Platform}.

(** ** Ready matches *)

(** Rows are stored under their own identifier. *)
Definition well_keyed (db : Db.t) : Prop :=
  ∀ id m, Db.matches db !! id = Some m → TournamentMatch.id m = id.

Lemma elem_of_matches_of_bracket b m db :
  m ∈ matches_of_bracket b db ↔
  TournamentMatch.bracket_id m = b ∧ ∃ id, Db.matches db !! id = Some m.
Proof.
  unfold matches_of_bracket. rewrite stable_sort_perm, list_elem_of_filter, list_elem_of_fmap.
  split; intros [Hb Hm]; (split; [done|]).
  - destruct Hm as ([id m'] & -> & Hin). exists id. by apply elem_of_map_to_list.
  - destruct Hm as [id Hid]. exists (id, m). split; [done|]. by apply elem_of_map_to_list.
Qed.

(** The row after the sweep of bracket [b]. *)
Definition readied (b : TournamentBracketId) (now : DateTime) (m : TournamentMatch.t)
    : TournamentMatch.t :=
  if bool_decide (TournamentMatch.bracket_id m = b) && is_newly_ready m then
    m <| TournamentMatch.status := TournamentMatchStatus.Ready |>
      <| TournamentMatch.updated_at := now |>
  else m.

(** The sweep readies exactly the bracket's pending matches that have both
  participants, reports exactly their identifiers, and touches no other row. *)
Theorem find_newly_ready_matches_spec b db :
  well_keyed db →
  let '(r, db') := find_newly_ready_matches b db in
  (∃ ids, r = Ok ids ∧ ∀ id, id ∈ ids ↔ ∃ m, Db.matches db !! id = Some m ∧
     TournamentMatch.bracket_id m = b ∧ is_newly_ready m = true) ∧
  Db.matches db' = readied b (Db.now db) <$> Db.matches db ∧ only_matches db db'.
Proof.
  intros Hwk. unfold find_newly_ready_matches, list_matches_by_bracket.
  set (ids := TournamentMatch.id <$> filter (λ m, is_newly_ready m = true) (matches_of_bracket b db)).
  assert (∀ id, id ∈ ids ↔ ∃ m, Db.matches db !! id = Some m ∧
     TournamentMatch.bracket_id m = b ∧ is_newly_ready m = true) as Hids.
  { intros id. unfold ids. rewrite list_elem_of_fmap. split.
    - intros (m & -> & [Hr (Hb & id' & Hm)%elem_of_matches_of_bracket]%list_elem_of_filter).
      exists m. by rewrite (Hwk _ _ Hm).
    - intros (m & Hm & Hb & Hr). exists m. split; [by rewrite (Hwk _ _ Hm)|].
      apply list_elem_of_filter. split; [done|]. apply elem_of_matches_of_bracket. eauto. }
  assert (Db.matches ((match ids with [] => mret tt | _ => mark_pending_as_ready_bulk ids end) db).2 =
    readied b (Db.now db) <$> Db.matches db ∧
    only_matches db ((match ids with [] => mret tt | _ => mark_pending_as_ready_bulk ids end) db).2)
    as [Hmap Hom].
  { assert (only_matches db (mark_pending_as_ready_bulk ids db).2 ∧
      Db.matches (mark_pending_as_ready_bulk ids db).2 = readied b (Db.now db) <$> Db.matches db) as [Ho Hm].
    { split; [apply mark_pending_only|]. apply map_eq. intros id. cbn.
      rewrite map_lookup_imap, lookup_fmap. destruct (Db.matches db !! id) as [m|] eqn:Hm; [|done].
      cbn. f_equal. unfold readied.
      assert (id ∈ ids ∧ TournamentMatch.status m = TournamentMatchStatus.Pending ↔
        bool_decide (TournamentMatch.bracket_id m = b) && is_newly_ready m = true) as Hiff.
      { rewrite Hids, andb_true_iff, bool_decide_eq_true. split; [naive_solver|].
        intros [Hb Hr]. split; [eauto|]. unfold is_newly_ready, TournamentMatch.is_pending in Hr.
        by destruct (TournamentMatch.status m). }
      destruct (bool_decide (TournamentMatch.bracket_id m = b) && is_newly_ready m).
      - by rewrite bool_decide_true by by apply Hiff.
      - by rewrite bool_decide_false by by rewrite Hiff. }
    destruct ids as [|i ids']; [|done]. split; [|reflexivity].
    change (Db.matches db = readied b (Db.now db) <$> Db.matches db).
    rewrite <- (map_fmap_id (Db.matches db)) at 1. apply map_fmap_ext. intros id m Hm'.
    unfold readied. destruct (bool_decide _ && _) eqn:Hr; [|done].
    apply andb_true_iff in Hr as [Hb%bool_decide_eq_true Hr].
    by assert (id ∈ ([] : list TournamentMatchId)) as ?%elem_of_nil by (apply Hids; eauto). }
  change (mbind (mread (matches_of_bracket b)) ?k db) with (k (matches_of_bracket b db) db). cbv beta zeta.
  fold ids. unfold mbind. revert Hmap Hom. destruct ids as [|i ids']; cbn; eauto.
Qed.

(** ** Completion *)

Lemma check_bracket_completion_run b db :
  check_bracket_completion b db = (Ok (forallb is_done (matches_of_bracket b db)), db).
Proof. reflexivity. Qed.

Lemma bracket_done_iff b db :
  forallb is_done (matches_of_bracket b db) = true ↔
  ∀ id m, Db.matches db !! id = Some m → TournamentMatch.bracket_id m = b → is_done m = true.
Proof.
  rewrite forallb_forall. split.
  - intros Hall id m Hm Hb. apply Hall, list_elem_of_In, elem_of_matches_of_bracket. eauto.
  - intros Hall m (Hb & id & Hm)%list_elem_of_In%elem_of_matches_of_bracket. eauto.
Qed.

Definition bracket_done (b : TournamentBracketId) (db : Db.t) : Prop :=
  ∀ id m, Db.matches db !! id = Some m → TournamentMatch.bracket_id m = b → is_done m = true.

Lemma all_brackets_complete_run brackets db :
  ∃ r, all_brackets_complete brackets db = (Ok r, db) ∧
    (r = true ↔ ∀ b, b ∈ brackets → bracket_done (TournamentBracket.id b) db).
Proof.
  induction brackets as [|b brackets (r & IH & Hr)]; [by exists true; split; [|set_solver]|].
  cbn [all_brackets_complete]. rewrite (mbind_step _ _ _ _ _ (check_bracket_completion_run _ _)).
  pose proof (bracket_done_iff (TournamentBracket.id b) db) as Hb.
  destruct (forallb _ _).
  - exists r. split; [done|]. rewrite Hr. setoid_rewrite elem_of_cons. unfold bracket_done. naive_solver.
  - exists false. split; [done|]. split; [done|]. intros Hall.
    apply Hb. apply Hall, elem_of_cons. by left.
Qed.

Lemma elem_of_brackets_of_stage s b db :
  b ∈ brackets_of_stage s db ↔
  TournamentBracket.stage_id b = s ∧ ∃ id, Db.brackets db !! id = Some b.
Proof.
  unfold brackets_of_stage. rewrite stable_sort_perm, list_elem_of_filter, list_elem_of_fmap.
  split; intros [Hb Hm]; (split; [done|]).
  - destruct Hm as ([id b'] & -> & Hin). exists id. by apply elem_of_map_to_list.
  - destruct Hm as [id Hid]. exists (id, b). split; [done|]. by apply elem_of_map_to_list.
Qed.

Lemma elem_of_stages_of_tournament t s db :
  s ∈ stages_of_tournament t db ↔
  TournamentStage.tournament_id s = t ∧ ∃ id, Db.stages db !! id = Some s.
Proof.
  unfold stages_of_tournament. rewrite stable_sort_perm, list_elem_of_filter, list_elem_of_fmap.
  split; intros [Hs Hm]; (split; [done|]).
  - destruct Hm as ([id s'] & -> & Hin). exists id. by apply elem_of_map_to_list.
  - destruct Hm as [id Hid]. exists (id, s). split; [done|]. by apply elem_of_map_to_list.
Qed.

Definition stage_done (s : TournamentStageId) (db : Db.t) : Prop :=
  ∀ id b, Db.brackets db !! id = Some b → TournamentBracket.stage_id b = s →
    bracket_done (TournamentBracket.id b) db.

Lemma check_stage_completion_run s db :
  ∃ r, check_stage_completion s db = (Ok r, db) ∧ (r = true ↔ stage_done s db).
Proof.
  unfold check_stage_completion, list_brackets_by_stage.
  change (mbind (mread (brackets_of_stage s)) ?k db) with (k (brackets_of_stage s db) db).
  destruct (all_brackets_complete_run (brackets_of_stage s db) db) as (r & Hrun & Hr).
  exists r. split; [done|]. rewrite Hr. unfold stage_done.
  setoid_rewrite elem_of_brackets_of_stage. naive_solver.
Qed.

Lemma all_stages_complete_run stages db :
  ∃ r, all_stages_complete stages db = (Ok r, db) ∧
    (r = true ↔ ∀ s, s ∈ stages → stage_done (TournamentStage.id s) db).
Proof.
  induction stages as [|s stages (r & IH & Hr)]; [by exists true; split; [|set_solver]|].
  cbn [all_stages_complete]. destruct (check_stage_completion_run (TournamentStage.id s) db) as (r' & Hrun & Hr').
  rewrite (mbind_step _ _ _ _ _ Hrun). destruct r'.
  - exists r. split; [done|]. rewrite Hr. setoid_rewrite elem_of_cons. naive_solver.
  - exists false. split; [done|]. split; [done|]. intros Hall. apply Hr', Hall, elem_of_cons. by left.
Qed.

(** A tournament counts as complete exactly when every match of every
  bracket of every one of its stages is completed or cancelled; the check never
  fails and writes nothing. A forfeited match is neither, so a single one keeps
  its bracket, its stage and its tournament from ever being complete. *)
Theorem tournament_completion_spec t db :
  (∃ r, check_tournament_completion t db = (Ok r, db) ∧
     (r = true ↔ ∀ sid s, Db.stages db !! sid = Some s → TournamentStage.tournament_id s = t →
        stage_done (TournamentStage.id s) db)) ∧
  ∀ id m, Db.matches db !! id = Some m → TournamentMatch.status m = TournamentMatchStatus.Forfeit →
    check_bracket_completion (TournamentMatch.bracket_id m) db = (Ok false, db).
Proof.
  split.
  - unfold check_tournament_completion, list_stages_by_tournament.
    change (mbind (mread (stages_of_tournament t)) ?k db) with (k (stages_of_tournament t db) db).
    destruct (all_stages_complete_run (stages_of_tournament t db) db) as (r & Hrun & Hr).
    exists r. split; [done|]. rewrite Hr. setoid_rewrite elem_of_stages_of_tournament. naive_solver.
  - intros id m Hm Hs. rewrite check_bracket_completion_run. do 2 f_equal.
    apply not_true_is_false. rewrite bracket_done_iff. intros Hall.
    specialize (Hall id m Hm eq_refl). unfold is_done in Hall. by rewrite Hs in Hall.
Qed.
End completion_props.

(** ** Witnesses *)

#[local] Existing Instance sample_platform.

(** Four entrants, double elimination, as generated. *)
Definition sample_double : Db.t :=
  (generate_de_playoff 1 2 (sample_entrant <$> [1; 2; 3; 4]%N) (uniform MatchFormat.Bo1)
    (sample_db [] [] [])).2.

Example find_newly_ready_matches_spec_witness :
  well_keyed sample_double ∧ only_matches sample_double (find_newly_ready_matches 1000 sample_double).2.
Proof.
  assert (well_keyed sample_double) as Hk.
  { intros id m Hm.
    enough (map_Forall (λ id m, TournamentMatch.id m = id) (Db.matches sample_double)) as Hall by by apply Hall.
    apply (bool_decide_unpack _). vm_compute. exact I. }
  split; [exact Hk|]. pose proof (find_newly_ready_matches_spec 1000 sample_double Hk) as Hspec.
  destruct (find_newly_ready_matches 1000 sample_double) as [r db']. apply Hspec.
Defined.

(** A forfeited match of bracket 5. *)
Definition sample_forfeit : TournamentMatch.t :=
  (with_result 1 2 0 0 (sample_row 10 5 1 1 "R1M1" (None, None) (Some 1%N, Some 2%N)))
    <| TournamentMatch.status := TournamentMatchStatus.Forfeit |>.

Example tournament_completion_spec_witness :
  let db := sample_db [sample_forfeit] [sample_bracket 5 1 BracketType.RoundRobin] [] in
  check_bracket_completion 5 db = (Ok false, db).
Proof.
  cbv zeta. apply (proj2 (tournament_completion_spec 1 _) 10%N sample_forfeit); vm_compute; reflexivity.
Defined.

(** The state of the match at a position. *)
Definition match_at (pos : string) (db : Db.t) : option (list TournamentRegistrationId * TournamentMatchStatus.t) :=
  (λ m, (participants_of m, TournamentMatch.status m)) <$>
    find (λ m, bool_decide (TournamentMatch.bracket_position m = pos)) (map_to_list (Db.matches db)).*2.

(** Processing the two first-round results of the winners bracket. *)
Definition first_round_done : Db.t :=
  ((let* _ := process_match_completion 1003 1%N 4%N in process_match_completion 1004 2%N 3%N)
    sample_double).2.

(** Processing a result looks for ready matches in the result's own bracket
  only: in a double elimination of four, both first-round losers have dropped
  into the losers bracket's first match and it is still pending, while the
  winners' next match is ready. *)
Theorem losers_bracket_match_not_readied :
  match_at "WR2M1" first_round_done = Some ([1; 2]%N, TournamentMatchStatus.Ready) ∧
  match_at "LR1M1" first_round_done = Some ([4; 3]%N, TournamentMatchStatus.Pending).
Proof. split; vm_compute; reflexivity. Qed.

(** The losers' match played first: 4 beat 3, the winners' next one still open. *)
Definition losers_match_played : Db.t := (process_match_completion 1006 4%N 3%N first_round_done).2.

(** Reverting is not atomic: with the losers' match already played, the
  revert of WR1M1 is refused with a conflict, yet its winner has already been
  taken out of the winners' next match. *)
Theorem refused_revert_leaves_winner_withdrawn :
  let '(r, db') := revert_progression 1003 losers_match_played in
  (∃ msg, r = throw (DomainError.Conflict msg)) ∧
  match_at "WR2M1" losers_match_played = Some ([1; 2]%N, TournamentMatchStatus.Ready) ∧
  match_at "WR2M1" db' = Some ([2]%N, TournamentMatchStatus.Pending).
Proof.
  pose proof (eq_refl (revert_progression 1003 losers_match_played)) as Hrun.
  destruct (revert_progression 1003 losers_match_played) as [r db'] eqn:Hr. clear Hrun.
  assert (r = (revert_progression 1003 losers_match_played).1) as -> by by rewrite Hr.
  assert (db' = (revert_progression 1003 losers_match_played).2) as -> by by rewrite Hr.
  split; [eexists; vm_compute; reflexivity|]. split; vm_compute; reflexivity.
Qed.

Section stage_props.
Context `{Platform}.

(** Identifiers not yet handed out are not in use. *)
Definition fresh (db : Db.t) : Prop :=
  ∀ id, (Db.next_uuid db ≤ id)%N → Db.brackets db !! id = None ∧ Db.matches db !! id = None.

(** What generation may do: add brackets and matches, fill existing rows; no
    row disappears or changes its place in the tournament. *)
Record grows (db db' : Db.t) : Prop := {
  grows_stages : Db.stages db' = Db.stages db;
  grows_registrations : Db.registrations db' = Db.registrations db;
  grows_standings : Db.standings db' = Db.standings db;
  grows_fresh : fresh db → fresh db' ∧ (Db.next_uuid db ≤ Db.next_uuid db')%N;
  grows_brackets id b : fresh db → Db.brackets db !! id = Some b →
    ∃ b', Db.brackets db' !! id = Some b' ∧
      TournamentBracket.id b' = TournamentBracket.id b ∧
      TournamentBracket.stage_id b' = TournamentBracket.stage_id b ∧
      TournamentBracket.tournament_id b' = TournamentBracket.tournament_id b;
}.

#[global] Instance grows_preorder : PreOrder grows.
Proof.
  split.
  - intros db. split; try done. intros id b _ Hb. by exists b.
  - intros x y z [S1 R1 T1 F1 B1] [S2 R2 T2 F2 B2]. split; try congruence.
    + intros Hf. destruct (F1 Hf) as [Hf1 Hle1], (F2 Hf1) as [Hf2 Hle2]. split; [done|lia].
    + intros id b Hf Hb. destruct (F1 Hf) as [Hf1 _].
      destruct (B1 id b Hf Hb) as (b1 & Hb1 & ? & ? & ?).
      destruct (B2 id b1 Hf1 Hb1) as (b2 & Hb2 & ? & ? & ?).
      exists b2. repeat split; congruence.
Qed.

(** A change of the match table that adds no row below the next identifier. *)
Lemma only_matches_grows db db' :
  only_matches db db' → (∀ id, Db.matches db !! id = None → Db.matches db' !! id = None) → grows db db'.
Proof.
  intros [? Hn Hb ? ? ? ?] Hnone. split; try done.
  - intros Hf. rewrite Hn. split; [|done]. intros id Hid. rewrite Hn in Hid. rewrite Hb.
    destruct (Hf id Hid). auto.
  - intros id b _ Hb'. exists b. by rewrite Hb.
Qed.

Lemma update_match_grows id set : preserves grows (update_match id set).
Proof.
  intros db. apply only_matches_grows; [apply update_match_only|]. intros id' Hid.
  unfold update_match. destruct (Db.matches db !! id) eqn:Hm; [|done]. cbn.
  rewrite lookup_insert_ne; [done|]. congruence.
Qed.

Lemma set_progression_links_grows id w l : preserves grows (set_progression_links id w l).
Proof.
  intros db. apply only_matches_grows; [apply set_progression_links_only|]. intros id' Hid. cbn.
  destruct (decide (id = id')) as [->|].
  - by rewrite lookup_alter_eq, Hid.
  - by rewrite lookup_alter_ne.
Qed.

Lemma mark_pending_grows ids : preserves grows (mark_pending_as_ready_bulk ids).
Proof.
  intros db. apply only_matches_grows; [apply mark_pending_only|]. intros id' Hid. cbn.
  by rewrite map_lookup_imap, Hid.
Qed.

Lemma insert_match_grows cmd : preserves grows (insert_match cmd).
Proof.
  intros db. unfold insert_match. destruct (position_taken db cmd); [reflexivity|].
  split; try done.
  - intros Hf. cbn. split; [|lia]. intros id. cbn. intros Hid.
    destruct (Hf id) as [Hb Hm]; [lia|]. split; [done|]. rewrite lookup_insert_ne by lia. done.
  - intros id b _ Hb. by exists b.
Qed.

Lemma create_bracket_grows cmd : preserves grows (create_bracket cmd).
Proof.
  intros db. split; try done.
  - intros Hf. cbn. split; [|lia]. intros id. cbn. intros Hid.
    destruct (Hf id) as [Hb Hm]; [lia|]. split; [|done]. rewrite lookup_insert_ne by lia. done.
  - intros id b Hf Hb. exists b. cbn. rewrite lookup_insert_ne; [done|].
    intros <-. destruct (Hf (Db.next_uuid db)) as [Hn _]; [lia|]. congruence.
Qed.

Lemma update_bracket_grows id update : preserves grows (update_bracket id update).
Proof.
  intros db. unfold update_bracket. destruct (Db.brackets db !! id) as [b|] eqn:Hb; [|reflexivity].
  split; try done.
  - intros Hf. cbn. split; [|lia]. intros id'. cbn. intros Hid.
    destruct (Hf id' Hid) as [Hn Hm]. split; [|done]. rewrite lookup_insert_ne; [done|]. congruence.
  - intros id' b' _ Hb'. cbn. destruct (decide (id = id')) as [->|].
    + rewrite lookup_insert_eq. simplify_eq. eexists. split; [done|]. by destruct b.
    + rewrite lookup_insert_ne by done. by exists b'.
Qed.

Lemma bulk_create_grows cmds : preserves grows (bulk_create cmds).
Proof. apply preserves_bulk_create; [apply _|apply insert_match_grows]. Qed.
End stage_props.

#[export] Hint Resolve update_match_grows set_progression_links_grows mark_pending_grows
  create_bracket_grows update_bracket_grows bulk_create_grows : frames.

Section stage_transition.
Context `{Platform}.

Lemma assign_seeded_grows id slot p : preserves grows (assign_seeded id slot p).
Proof. unfold assign_seeded, assign_participant. frame. Qed.

Lemma find_newly_ready_grows b : preserves grows (find_newly_ready_matches b).
Proof. unfold find_newly_ready_matches, list_matches_by_bracket. frame. Qed.

#[local] Hint Resolve assign_seeded_grows find_newly_ready_grows : frames.

Lemma generate_se_playoff_grows t s ps plan : preserves grows (generate_se_playoff t s ps plan).
Proof.
  unfold generate_se_playoff, apply_initial_assignments, apply_byes, set_se_progression_links. frame.
Qed.

Lemma generate_de_playoff_grows t s ps plan : preserves grows (generate_de_playoff t s ps plan).
Proof.
  unfold generate_de_playoff, apply_initial_assignments, apply_byes. frame.
Qed.

Lemma mmap_reads {A B} (f : A → M B) l :
  (∀ x, preserves eq (f x)) → preserves eq (mmap f l).
Proof. intros Hf. induction l as [|x l IH]; cbn; frame. Qed.

Lemma seeded_of_standing_reads s : preserves eq (seeded_of_standing s).
Proof. unfold seeded_of_standing, get_registration, find_registration_by_id. frame. Qed.

(** Both rows change or none does. *)
Lemma transition_stages_err from fs to ts db e db' :
  transition_stages from fs to ts db = (Err e, db') → db' = db.
Proof. unfold transition_stages. destruct (mbind _ _ db) as [[r|e'] db1]; [done|]. by intros [= _ <-]. Qed.

Lemma transition_stages_ok from fs to ts db r db' :
  from ≠ to → transition_stages from fs to ts db = (Ok r, db') →
  Db.brackets db' = Db.brackets db ∧
  ∃ a a', Db.stages db !! from = Some a ∧ Db.stages db' !! from = Some a' ∧
    TournamentStage.status a' = fs ∧ TournamentStage.format a' = TournamentStage.format a.
Proof.
  intros Hne. unfold transition_stages, set_stage_status, mbind, mret.
  destruct (Db.stages db !! from) as [a|] eqn:Ha; [|done]. cbn.
  rewrite lookup_insert_ne by done. destruct (Db.stages db !! to) as [b|] eqn:Hb; [|done]. cbn.
  intros [= _ <-]. split; [done|]. exists a. eexists. split; [done|].
  split; [cbn; by rewrite lookup_insert_ne, lookup_insert_eq|]. by destruct a.
Qed.

(** The transition's own run: what comes before the status flip only grows. *)
Lemma advance_to_next_stage_runs t st db :
  let '(r, db') := advance_to_next_stage t st db in
  (is_ok r = false ∧ Db.stages db' = Db.stages db) ∨
  ∃ next db1, head (filter (λ s, TournamentStage.stage_order st < TournamentStage.stage_order s)
                      (stages_of_tournament t db)) = Some next ∧
    r = Ok (TournamentStage.id next) ∧ grows db db1 ∧
    ∃ rows, transition_stages (TournamentStage.id st) StageStatus.Completed
              (TournamentStage.id next) StageStatus.Active db1 = (Ok rows, db').
Proof.
  unfold advance_to_next_stage, find_next_stage.
  change (mbind (mread ?f) ?k db) with (k (f db) db). cbv beta.
  destruct (head _) as [next|] eqn:Hnext; [|by left]. unfold ok_or.
  change (mbind (mlift (Ok next)) ?k db) with (k next db). cbv beta.
  unfold list_brackets_by_stage. change (mbind (mread ?f) ?k db) with (k (f db) db). cbv beta zeta.
  match goal with |- context [mbind (mmap ?f ?l) _ db] =>
    pose proof (mmap_reads f l) as Hreads end.
  specialize (Hreads ltac:(intros b; frame; apply mmap_reads; intros s; apply seeded_of_standing_reads)).
  specialize (Hreads db). unfold mbind at 1.
  destruct (mmap _ _ db) as [[gs|e] db0]; cbn in Hreads; subst db0; [|by left].
  case_bool_decide; [by left|]. unfold mbind at 1.
  destruct (result_map_err _ _) as [plan|e]; [|by left]. cbn [mlift].
  match goal with |- context [mbind ?gen _ db] => assert (preserves grows gen) as Hg end.
  { destruct (TournamentStage.format next); frame;
      apply generate_se_playoff_grows || apply generate_de_playoff_grows. }
  specialize (Hg db). unfold mbind at 1. destruct (match TournamentStage.format next with _ => _ end db)
    as [[u|e] db1]; cbn in Hg; [|left; split; [done|by rewrite (grows_stages _ _ Hg)]].
  unfold mbind. destruct (transition_stages _ _ _ _ db1) as [[rows|e] db2] eqn:Htr.
  - right. exists next, db1. split; [done|]. split; [done|]. split; [done|]. by exists rows.
  - left. split; [done|].
    apply transition_stages_err in Htr as ->. apply (grows_stages _ _ Hg).
Qed.

Definition stages_keyed (db : Db.t) : Prop :=
  ∀ id s, Db.stages db !! id = Some s → TournamentStage.id s = id.

(** The stage of a bracket, closed: nothing more happens. *)
Lemma advance_stage_closed b bracket stage db :
  Db.brackets db !! b = Some bracket →
  Db.stages db !! TournamentBracket.stage_id bracket = Some stage →
  TournamentStage.status stage = StageStatus.Completed →
  advance_stage_if_complete b db = (Ok None, db).
Proof.
  intros Hb Hs Hst. unfold advance_stage_if_complete.
  rewrite (mbind_step _ _ _ _ _ (check_bracket_completion_run _ _)).
  destruct (forallb _ _); [|done]. cbn [negb].
  rewrite (mbind_step _ _ _ bracket db).
  2: { unfold get_bracket, find_bracket_by_id, mbind, mread, mlift. by rewrite Hb. }
  unfold find_stage_by_id. change (mbind (mread ?f) ?k db) with (k (f db) db). cbv beta.
  rewrite Hs. cbn [ok_or]. change (mbind (mlift (Ok stage)) ?k db) with (k stage db). cbv beta.
  by rewrite Hst, orb_true_r.
Qed.

(** The playoffs are opened once: when a bracket's completion advances its
  group stage, running the check again finds the stage completed and does
  nothing. When there is nothing to do the database is as before, and a failure
  on the way, whatever it had generated, leaves every stage as it was. *)
Theorem advance_stage_if_complete_once b db :
  fresh db → stages_keyed db →
  let '(r, db') := advance_stage_if_complete b db in
  (r = Ok None → db' = db) ∧
  (is_ok r = false → Db.stages db' = Db.stages db) ∧
  (∀ sid, r = Ok (Some sid) → advance_stage_if_complete b db' = (Ok None, db')).
Proof.
  intros Hf Hk. unfold advance_stage_if_complete at 1.
  rewrite (mbind_step _ _ _ _ _ (check_bracket_completion_run _ _)).
  destruct (forallb _ _); [|done]. cbn [negb]. unfold get_bracket, find_bracket_by_id.
  unfold mbind at 1 2. cbn [mread mlift]. unfold mread, mlift.
  destruct (Db.brackets db !! b) as [bracket|] eqn:Hb; [|done]. cbn [ok_or].
  unfold find_stage_by_id. change (mbind (mread ?f) ?k db) with (k (f db) db). cbv beta.
  destruct (Db.stages db !! TournamentBracket.stage_id bracket) as [stage|] eqn:Hs; [|done].
  cbn [ok_or]. change (mbind (λ db, (Ok stage, db)) ?k db) with (k stage db). cbv beta.
  match goal with |- context [if ?c then mret None else _] => destruct c end; [done|].
  unfold find_next_stage.
  change (mbind (mread ?f) ?k db) with (k (f db) db). cbv beta.
  destruct (head _) eqn:Hhd; [|done].
  destruct (check_stage_completion_run (TournamentStage.id stage) db) as (c & Hc & _).
  rewrite (mbind_step _ _ _ _ _ Hc). destruct c; [|done]. cbn [negb].
  pose proof (advance_to_next_stage_runs (TournamentBracket.tournament_id bracket) stage db) as Hrun.
  unfold mbind. destruct (advance_to_next_stage _ _ db) as [r db'].
  destruct Hrun as [[Hok Hst]|(next & db1 & Hnext & -> & Hg & rows & Htr)].
  { by destruct r. }
  split; [done|]. split; [done|]. intros sid _. cbn.
  apply head_Some_elem_of, list_elem_of_filter in Hnext as [Hord (Ht & nid & Hn)%elem_of_stages_of_tournament].
  assert (TournamentStage.id stage ≠ TournamentStage.id next) as Hne.
  { rewrite (Hk _ _ Hs), (Hk _ _ Hn). intros Heq. rewrite Heq, Hn in Hs. simplify_eq. lia. }
  apply transition_stages_ok in Htr as (Hbs & a & a' & Ha & Ha' & Hst & _); [|done].
  destruct (grows_brackets _ _ Hg b bracket Hf Hb) as (bracket' & Hb' & _ & Hsid & _).
  apply (advance_stage_closed b bracket' a'); [by rewrite Hbs| |done].
  by rewrite Hsid, <- (Hk _ _ Hs).
Qed.
End stage_transition.

(** ** Witnesses *)

#[local] Existing Instance sample_platform.

(** One group, its only match played, the playoffs to be seeded. *)
Definition sample_groups : Db.t :=
  sample_db [with_result 1 2 2 1 (sample_row 10 5 1 1 "R1M1" (None, None) (Some 1%N, Some 2%N))]
    [sample_bracket 5 1 BracketType.RoundRobin] [sample_standing 20 5 1; sample_standing 21 5 2].

Lemma sample_groups_fresh : fresh sample_groups.
Proof.
  assert (map_Forall (λ id _, (id < 1000)%N) (Db.brackets sample_groups)) as Hb
    by (apply (bool_decide_unpack _); vm_compute; exact I).
  assert (map_Forall (λ id _, (id < 1000)%N) (Db.matches sample_groups)) as Hm
    by (apply (bool_decide_unpack _); vm_compute; exact I).
  intros id Hid. change (Db.next_uuid sample_groups) with 1000%N in Hid.
  split; apply eq_None_not_Some; intros [x Hx]; [apply Hb in Hx|apply Hm in Hx]; cbn in Hx; lia.
Qed.

Lemma sample_groups_keyed : stages_keyed sample_groups.
Proof.
  intros id s Hs.
  enough (map_Forall (λ id s, TournamentStage.id s = id) (Db.stages sample_groups)) as Hall by by apply Hall.
  apply (bool_decide_unpack _). vm_compute. exact I.
Qed.

Example advance_stage_if_complete_once_witness :
  (advance_stage_if_complete 5 sample_groups).1 = Ok (Some 2%N) ∧
  (advance_stage_if_complete 5 (advance_stage_if_complete 5 sample_groups).2).1 = Ok None.
Proof.
  assert ((advance_stage_if_complete 5 sample_groups).1 = Ok (Some 2%N)) as Hrun
    by (vm_compute; reflexivity).
  split; [exact Hrun|].
  pose proof (advance_stage_if_complete_once 5 sample_groups sample_groups_fresh sample_groups_keyed) as Hspec.
  destruct (advance_stage_if_complete 5 sample_groups) as [r db']. destruct Hspec as (_ & _ & Honce).
  cbn [fst snd] in *. by rewrite (Honce 2%N Hrun).
Defined.
