(* ===== verification/SagaRun.v ===== *)
(** [execute_completion] as a whole: how it begins, what it does on the bracket,
    how it ends, and what it leaves of its own record. *)
From stdpp Require Import base list strings gmap.
From S2P Require Import Prelude Errors Wire TournamentTypes Entities DomainEnums FormatPlan Rows SagaModel.
From S2P Require Import Store StoreFacts ClaimStore SagaStore Standings Helpers Progression ProgressionProps Reviews.
From S2P Require Import Completion SagaFacts.
#[local] Open Scope Z_scope.

(** Executions are left alone. *)
Definition keeps_sagas `{Platform} (db db' : Db.t) : Prop := saga_rows db' = saga_rows db.
#[global] Instance keeps_sagas_preorder `{Platform} : PreOrder keeps_sagas.
Proof. split; [done|]. unfold keeps_sagas. intros x y z. congruence. Qed.

(** What a completion asks of the services behind it. *)
Class SagaLaws `{CompletionSerde} (self : MatchCompletionSaga.t) : Prop := {
  validator_reads match_id claim_id db :
    ∃ r, MatchDemoValidator.validate_match_demos (MatchCompletionSaga.demo_validator self)
           match_id claim_id db = (r, db) ∧ r ≠ Err Panic;
  stats_elsewhere match_id winner loser is_forfeit db :
    ∃ r, MatchStatsUpdater.update_player_stats (MatchCompletionSaga.stats_updater self)
           match_id winner loser is_forfeit db = (r, db) ∧ r ≠ Err Panic;
  stage_keeps bracket_id : preserves keeps_sagas
    (StageAdvancer.advance_if_stage_complete (MatchCompletionSaga.stage_advancer self) bracket_id);
}.

(** Programs whose errors never pause a saga. *)
Class Unpaused `{Platform} {A} (w : M A) : Prop :=
  unpaused : ∀ db msg, (w db).1 ≠ throw (DomainError.SagaPaused msg).
#[global] Hint Mode Unpaused - - ! : typeclass_instances.

Section unpaused.
Context `{CompletionSerde}.

#[global] Instance unpaused_ret {A} (a : A) : Unpaused (mret a).
Proof. done. Qed.
#[global] Instance unpaused_bind {A B} (c : M A) (k : A → M B) :
  Unpaused c → (∀ a, Unpaused (k a)) → Unpaused (mbind c k).
Proof.
  intros Hc Hk db msg. unfold mbind. specialize (Hc db msg).
  destruct (c db) as [[a|e] db1]; cbn [fst] in *; [apply Hk|].
  intros [= ->]. by apply Hc.
Qed.
#[global] Instance unpaused_update_match id set : Unpaused (update_match id set).
Proof. intros db msg. unfold update_match. by destruct (_ !! _). Qed.
#[global] Instance unpaused_read {A} (f : Db.t → A) : Unpaused (mread f).
Proof. done. Qed.
#[global] Instance unpaused_write f : Unpaused (mwrite f).
Proof. done. Qed.
#[global] Instance unpaused_invalid {A} reason : Unpaused (mthrow (DomainError.InvalidState reason) : M A).
Proof. done. Qed.
#[global] Instance unpaused_match {A} (o : option A) id :
  Unpaused (mlift (ok_or o (Error (DomainError.TournamentMatchNotFound id)))).
Proof. by destruct o. Qed.
#[global] Instance unpaused_bracket {A} (o : option A) id :
  Unpaused (mlift (ok_or o (Error (DomainError.TournamentBracketNotFound id)))).
Proof. by destruct o. Qed.
#[global] Instance unpaused_registration {A} (o : option A) id :
  Unpaused (mlift (ok_or o (Error (DomainError.TournamentRegistrationNotFound id)))).
Proof. by destruct o. Qed.
End unpaused.
#[export] Hint Extern 0 (Unpaused ((λ _, _) _)) => cbv beta : typeclass_instances.
#[export] Hint Extern 5 (Unpaused (match ?x with _ => _ end)) => destruct x : typeclass_instances.

Section run.
Context `{CompletionSerdeLaws}.

(** ** The beginning *)

Definition is_completion_of (match_id : TournamentMatchId) (e : SagaExecution.t) : Prop :=
  SagaExecution.match_id e = Some match_id ∧ SagaExecution.saga_type e = "match_completion".

(** No live completion of the match but such as are stale. *)
Definition can_begin (match_id : TournamentMatchId) (db : Db.t) : Prop :=
  ∀ k r, saga_rows db !! k = Some r → SagaExecutionRepository.is_live r = true →
    is_completion_of match_id r →
    SagaExecution.created_at r < Db.now db - minutes SagaExecutionRepository.STALE_LIVE_SAGA_MINUTES.

(** What a beginning leaves of the other executions. *)
Definition superseded (match_id : TournamentMatchId) (now : DateTime) (e : SagaExecution.t) : SagaExecution.t :=
  if SagaExecutionRepository.is_stale match_id "match_completion" now e
  then SagaExecutionRepository.retired now e else e.

Lemma retired_dead now e : SagaExecutionRepository.is_live (SagaExecutionRepository.retired now e) = false.
Proof. done. Qed.

Lemma superseded_id mid now e : SagaExecution.id (superseded mid now e) = SagaExecution.id e.
Proof. unfold superseded. by destruct (SagaExecutionRepository.is_stale _ _ _ _). Qed.

Lemma superseded_conflict mid id db :
  can_begin mid db →
  SagaExecutionRepository.live_conflict id (Some mid) "match_completion"
    (db <| Db.saga_executions := superseded mid (Db.now db) <$> saga_rows db |>) = false.
Proof.
  intros Hc. apply no_live_conflict. cbn [Db.saga_executions setter]. intros k r Hk Hl Hm Ht.
  apply lookup_fmap_Some in Hk as (r0 & <- & Hk). exfalso. unfold superseded in *.
  destruct (SagaExecutionRepository.is_stale _ _ _ r0) eqn:Hs; [done|].
  unfold SagaExecutionRepository.is_stale in Hs. rewrite Hl in Hs. apply bool_decide_eq_false in Hs.
  apply Hs. split; [done|]. split; [done|]. by apply (Hc k r0).
Qed.

(** What a completion begins with. *)
Definition opening (input_json : Json) (input : MatchCompletionInput.t) (tournament_id : TournamentId)
    : CreateSagaExecution.t := {|
  CreateSagaExecution.saga_type := "match_completion";
  CreateSagaExecution.saga_version := 2;
  CreateSagaExecution.tournament_id := Some tournament_id;
  CreateSagaExecution.match_id := Some (MatchCompletionInput.match_id input);
  CreateSagaExecution.correlation_id := None;
  CreateSagaExecution.input_data := input_json;
  CreateSagaExecution.max_retries := 3 |}.
Definition begun (input_json : Json) (input : MatchCompletionInput.t) (tournament_id : TournamentId)
    (id : SagaId) (now : DateTime) : SagaExecution.t :=
  SagaExecutionRepository.inserted id now (opening input_json input tournament_id).

(** The books once the execution has begun. *)
Definition begun_books (e : SagaExecution.t) (match_id : TournamentMatchId) (db : Db.t) (b : Books.t) : Prop :=
  SagaExecution.id e = N.succ (Db.next_uuid db) ∧
  Books.next_uuid b = N.succ (N.succ (Db.next_uuid db)) ∧
  Books.progressions b = Db.progression_log db ∧ Books.reviews b = Db.result_reviews db ∧
  Books.sagas b !! SagaExecution.id e = Some e ∧
  ∀ k, k ≠ SagaExecution.id e → Books.sagas b !! k = superseded match_id (Db.now db) <$> saga_rows db !! k.

Lemma superseded_none mid db :
  SagaExecutionRepository.live_conflict None (Some mid) "match_completion" db = false →
  superseded mid (Db.now db) <$> saga_rows db = saga_rows db.
Proof.
  rewrite no_live_conflict. intros Hno. rewrite <- (map_fmap_id (saga_rows db)) at 2.
  apply map_fmap_ext. intros k r Hk. unfold superseded, SagaExecutionRepository.is_stale.
  destruct (SagaExecutionRepository.is_live r) eqn:Hl; [|done].
  case_bool_decide as Hb; [|done]. destruct Hb as (Hm & Ht & _). discriminate (Hno k r Hk Hl Hm Ht).
Qed.

(** When no row stands in the way, the first insertion goes through; when only
    stale ones do, the second. *)
Lemma create_runs saga mid db :
  CreateSagaExecution.match_id saga = Some mid →
  CreateSagaExecution.saga_type saga = "match_completion" → can_begin mid db →
  let e := SagaExecutionRepository.inserted (Db.next_uuid db) (Db.now db) saga in
  SagaExecutionRepository.create saga db =
    (Ok e, db <| Db.next_uuid := N.succ (Db.next_uuid db) |>
              <| Db.saga_executions := <[Db.next_uuid db := e]>
                   (superseded mid (Db.now db) <$> saga_rows db) |>).
Proof.
  intros Hm Ht Hc. cbv zeta. unfold SagaExecutionRepository.create.
  unfold mbind at 1. unfold SagaExecutionRepository.insert_running at 1. rewrite Hm, Ht.
  destruct (SagaExecutionRepository.live_conflict None (Some mid) "match_completion" db) eqn:Hl.
  2: { rewrite (superseded_none mid db Hl). reflexivity. }
  unfold SagaExecutionRepository.retire_stale_live_saga. rewrite Hm, Ht. unfold mbind at 1.
  assert (existsb (SagaExecutionRepository.is_stale mid "match_completion" (Db.now db))
    (SagaExecutionRepository.executions db) = true) as ->.
  { apply live_conflict_spec in Hl as (k & r & Hk & Hl & _ & Hrm & Hrt). apply existsb_exists.
    exists r. split.
    - apply list_elem_of_In, list_elem_of_fmap. exists (k, r). split; [done|]. by apply elem_of_map_to_list.
    - unfold SagaExecutionRepository.is_stale. rewrite Hl. apply bool_decide_eq_true.
      split; [done|]. split; [done|]. by apply (Hc k r). }
  cbv iota. unfold mbind, SagaExecutionRepository.insert_running. rewrite Hm, Ht.
  change (λ e, if SagaExecutionRepository.is_stale mid "match_completion" (Db.now db) e
               then SagaExecutionRepository.retired (Db.now db) e else e)
    with (superseded mid (Db.now db)).
  by rewrite (superseded_conflict mid None db Hc).
Qed.

Lemma begin_runs input m db :
  Db.matches db !! MatchCompletionInput.match_id input = Some m →
  can_begin (MatchCompletionInput.match_id input) db →
  ∃ v e b, input_from_value v = Ok input ∧
    e = begun v input (TournamentMatch.tournament_id m) (N.succ (Db.next_uuid db)) (Db.now db) ∧
    MatchCompletionSaga.begin_execution input db = (Ok e, with_books b db) ∧
    begun_books e (MatchCompletionInput.match_id input) db b ∧ owns e (with_books b db).
Proof.
  intros Hm Hc. destruct (input_roundtrip input) as (v & Hv & Hv').
  set (db1 := db <| Db.next_uuid := N.succ (Db.next_uuid db) |>).
  pose proof (create_runs (opening v input (TournamentMatch.tournament_id m)) _ db1 eq_refl eq_refl Hc) as Hrun.
  cbv zeta in Hrun. set (id := Db.next_uuid db1) in Hrun. set (now := Db.now db1) in Hrun.
  set (e := SagaExecutionRepository.inserted id now _) in Hrun.
  match type of Hrun with _ = (_, ?x) => set (db2 := x) in Hrun end.
  assert (db2 = with_books (books_of db2) db) as Hdb2 by by destruct db.
  exists v, e, (books_of db2). split; [done|]. split; [reflexivity|]. split; [|split].
  - rewrite <- Hdb2. unfold MatchCompletionSaga.begin_execution, MatchCompletionSaga.get_tournament_id,
      MatchCompletionSaga.get_saga_match.
    unfold mbind at 1 2. rewrite (get_match_found _ _ _ Hm). cbn [mret].
    unfold mbind at 1. rewrite Hv. exact Hrun.
  - repeat split; cbn.
    + by rewrite lookup_insert_eq.
    + intros k Hk. rewrite lookup_insert_ne by done. by rewrite lookup_fmap.
  - rewrite <- Hdb2. split.
    + exists e. split; [apply lookup_insert_eq|done].
    + apply no_live_conflict. intros k r Hk Hl Hrm Hrt.
      unfold db2 in Hk. cbn [Db.saga_executions setter] in Hk.
      apply lookup_insert_Some in Hk as [[_ <-]|[_ Hk]]; [done|]. exfalso.
      pose proof (superseded_conflict (MatchCompletionInput.match_id input) None db1 Hc) as Hno.
      rewrite no_live_conflict in Hno. discriminate (Hno k r Hk Hl Hrm Hrt).
Qed.

(** ** The steps before the bracket *)

(** Why the match cannot be completed so. *)
Definition refusal (input : MatchCompletionInput.t) (match_ : TournamentMatch.t) : option string :=
  let plays id :=
    bool_decide (TournamentMatch.participant1_registration_id match_ = Some id) ||
    bool_decide (TournamentMatch.participant2_registration_id match_ = Some id) in
  if negb (bool_decide (TournamentMatch.status match_ = TournamentMatchStatus.Completed))
     && negb (TournamentMatchStatus.can_transition_to (TournamentMatch.status match_)
                TournamentMatchStatus.Completed)
  then Some ("Match in " +:+ TournamentMatchStatus.fmt (TournamentMatch.status match_)
             +:+ " status cannot be completed")
  else if negb (plays (MatchCompletionInput.winner_registration_id input))
          || negb (plays (MatchCompletionInput.loser_registration_id input))
  then Some "Winner or loser is not a participant in this match"
  else if bool_decide (MatchCompletionInput.winner_registration_id input =
                       MatchCompletionInput.loser_registration_id input)
  then Some "Winner and loser cannot be the same"
  else None.

Definition validated (input : MatchCompletionInput.t) : M TournamentMatch.t :=
  let* match_ := get_match (MatchCompletionInput.match_id input) in
  match refusal input match_ with
  | Some reason => mthrow (DomainError.InvalidState reason)
  | None => mret match_
  end.

(** What a completion does of the bracket before the stage may change. *)
Definition completion_work (input : MatchCompletionInput.t)
    : M (TournamentMatch.t * TournamentBracket.t *
         (option TournamentMatchId * option TournamentMatchId * bool)) :=
  let* match_ := validated input in
  let* bracket := CompletionTx.get_bracket (TournamentMatch.bracket_id match_) in
  let* work := bracket_work input match_ bracket in
  mret (match_, bracket, work).

(** Nothing in the demos stands against the result. *)
Definition demos_clear (self : MatchCompletionSaga.t) (input : MatchCompletionInput.t) : Prop :=
  MatchCompletionInput.is_forfeit input = true ∨
  match MatchCompletionInput.result_claim_id input with
  | None => True
  | Some claim_id => ∀ db, MatchDemoValidator.validate_match_demos (MatchCompletionSaga.demo_validator self)
      (MatchCompletionInput.match_id input) claim_id db = (Ok [], db)
  end.

#[global] Instance blind_validated i : Blind (validated i).
Proof. unfold validated. apply _. Qed.
#[global] Instance blind_get_bracket b : Blind (CompletionTx.get_bracket b).
Proof. unfold CompletionTx.get_bracket. apply _. Qed.
#[global] Instance blind_completion_work i : Blind (completion_work i).
Proof. unfold completion_work. apply _. Qed.

Lemma books_refuse {A} (c : X unit) err n n' :
  keeps_books c n → books_work (xbind c (λ _, xthrow err)) (mthrow err : M A) n'.
Proof.
  intros Hc e db Ho. destruct (Hc _ _ Ho) as ([] & e1 & b & Hrun & Hb1 & _).
  exists e1, b. unfold xbind. rewrite Hrun. done.
Qed.

Lemma keeps_fail_step step err : keeps_books (SagaCoordinator.fail_step step err) [step].
Proof. apply keeps_save. intros now e. split; [done|]. cbn. by rewrite fmap_app. Qed.

Lemma books_validate input :
  books_work (MatchCompletionSaga.step_validate_match input) (validated input) ["validate_match"].
Proof.
  unfold MatchCompletionSaga.step_validate_match, validated, MatchCompletionSaga.get_saga_match.
  apply (books_bind _ _ _ _ [] ["validate_match"]); [keep_books|]. intros m. unfold refusal, MatchCompletionSaga.fail_validation.
  destruct (_ && negb (TournamentMatchStatus.can_transition_to _ _)).
  { eapply books_refuse, keeps_fail_step. }
  destruct (negb _ || negb _). { eapply books_refuse, keeps_fail_step. }
  destruct (bool_decide (_ = MatchCompletionInput.loser_registration_id input)).
  { eapply books_refuse, keeps_fail_step. }
  keep_books.
Qed.

Lemma books_get_bracket match_ :
  books_work (MatchCompletionSaga.step_get_bracket match_)
    (CompletionTx.get_bracket (TournamentMatch.bracket_id match_)) ["get_bracket"].
Proof.
  unfold MatchCompletionSaga.step_get_bracket, CompletionTx.get_bracket.
  apply (books_bind _ _ _ _ [] ["get_bracket"]); [keep_books|]. intros b.
  apply (books_work_ext _ (let* b := mlift (ok_or b (Error (DomainError.TournamentBracketNotFound
    (TournamentMatch.bracket_id match_)))) in mret b)).
  { intros db. by destruct b. }
  apply (books_bind _ _ _ _ [] ["get_bracket"]); [keep_books|]. intros b'. keep_books.
Qed.

Lemma books_demos self input match_ :
  demos_clear self input →
  books_work (MatchCompletionSaga.step_validate_demos self input match_) (mret None) ["validate_demos"].
Proof.
  intros Hc. unfold MatchCompletionSaga.step_validate_demos.
  destruct (MatchCompletionInput.is_forfeit input) eqn:Hf; [keep_books|].
  destruct Hc as [?|Hc]; [congruence|].
  destruct (MatchCompletionInput.result_claim_id input) as [claim|]; [|keep_books].
  intros e db Ho. unfold xbind at 1, xlift. rewrite Hc.
  by apply (books_then _ None _ (keeps_complete_step "validate_demos" (MatchCompletionSaga.action "all_valid"))).
Qed.

(** Everything up to the change of stage. *)
Definition first_steps (self : MatchCompletionSaga.t) (input : MatchCompletionInput.t)
    : X (TournamentMatch.t * TournamentBracket.t *
         (option TournamentMatchId * option TournamentMatchId * bool)) :=
  let& match_ := MatchCompletionSaga.step_validate_match input in
  let& review := MatchCompletionSaga.step_validate_demos self input match_ in
  let& _ := xlift (mlift (no_panic (MatchCompletionSaga.review_verdict review))) in
  let& bracket := MatchCompletionSaga.step_get_bracket match_ in
  let& work := bracket_steps input match_ bracket in
  xret (match_, bracket, work).

Definition first_names : list string :=
  ["validate_match"; "validate_demos"; "get_bracket"] ++ progression_names.

Lemma books_first_steps self input :
  demos_clear self input →
  books_work (first_steps self input) (completion_work input) first_names.
Proof.
  intros Hc. unfold first_steps, completion_work.
  apply (books_bind _ _ _ _ ["validate_match"] (drop 1 first_names)); [apply books_validate|]. intros m.
  apply (books_work_ext _ (let* review := mret None in
    let* _ := mlift (no_panic (MatchCompletionSaga.review_verdict review)) in
    let* bracket := CompletionTx.get_bracket (TournamentMatch.bracket_id m) in
    let* work := bracket_work input m bracket in mret (m, bracket, work))); [done|].
  apply (books_bind _ _ _ _ ["validate_demos"] (drop 2 first_names)); [by apply books_demos|]. intros review.
  apply (books_bind _ _ _ _ [] (drop 2 first_names)); [keep_books|]. intros _.
  apply (books_bind _ _ _ _ ["get_bracket"] progression_names); [apply books_get_bracket|]. intros bracket.
  apply (books_bind _ _ _ _ progression_names []); [apply books_bracket_steps|]. intros work. keep_books.
Qed.

Lemma run_steps_split self input e db :
  MatchCompletionSaga.run_steps self input e db =
  xbind (first_steps self input) (λ '(match_, bracket, work), last_steps self input match_ bracket work) e db.
Proof.
  unfold MatchCompletionSaga.run_steps, first_steps, xret, xbind.
  destruct (MatchCompletionSaga.step_validate_match _ _ _) as [[[m|err] e1] db1]; [|done].
  destruct (MatchCompletionSaga.step_validate_demos _ _ _ _ _) as [[[r|err] e2] db2]; [|done].
  destruct (xlift _ e2 db2) as [[[[]|err] e3] db3]; [|done].
  rewrite inner_steps. unfold xbind.
  destruct (MatchCompletionSaga.step_get_bracket _ _ _) as [[[b|err] e4] db4]; [|done].
  by destruct (bracket_steps _ _ _ _ _) as [[[w|err] e5] db5].
Qed.

(** ** The steps after the bracket *)

Lemma keeps_bind {A B} (c : X A) (k : A → X B) n1 n2 :
  keeps_books c n1 → (∀ a, keeps_books (k a) n2) → keeps_books (xbind c k) (n1 ++ n2).
Proof.
  intros Hc Hk e db Ho. destruct (Hc _ _ Ho) as (a & e1 & b & Hrun & Hb1 & Hn1).
  destruct (Hk a _ _ (bk_owns _ _ _ _ Hb1)) as (a' & e2 & b2 & Hrun2 & Hb2 & Hn2).
  rewrite with_books_twice in *. exists a', e2, b2. unfold xbind. rewrite Hrun, Hrun2.
  split; [done|]. split; [by eapply booked_trans|]. by rewrite Hn2, Hn1, app_assoc.
Qed.

Lemma keeps_ret {A} (a : A) : keeps_books (xret a) [].
Proof.
  intros e db Ho. exists a, e, (books_of db). rewrite with_books_own, app_nil_r.
  split; [done|]. split; [by apply booked_same|done].
Qed.

Lemma keeps_ignore {A} (c : X A) n : keeps_books c n → keeps_books (xignore c) n.
Proof.
  intros Hc e db Ho. destruct (Hc _ _ Ho) as (a & e1 & b & Hrun & Hb1). exists tt, e1, b.
  unfold xignore. by rewrite Hrun.
Qed.

Lemma keeps_stats self input `{!SagaLaws self} :
  keeps_books (MatchCompletionSaga.step_update_player_stats self input) ["update_player_stats"].
Proof.
  unfold MatchCompletionSaga.step_update_player_stats.
  destruct (MatchCompletionInput.is_forfeit input); [apply keeps_ignore, keeps_complete_step|].
  apply (keeps_bind _ _ [] ["update_player_stats"]); [|intros; apply keeps_ignore, keeps_complete_step].
  intros e db Ho. unfold xlift, mtry.
  destruct (stats_elsewhere (MatchCompletionInput.match_id input)
    (MatchCompletionInput.winner_registration_id input) (MatchCompletionInput.loser_registration_id input)
    false db) as (r & -> & Hp).
  destruct r as [a|[err|]]; [| |done];
    (eexists _, e, (books_of db); rewrite with_books_own, app_nil_r;
     split; [reflexivity|]; split; [by apply booked_same|done]).
Qed.

(** What the caller is told of the work. *)
Definition output_of (input : MatchCompletionInput.t) (bracket : TournamentBracket.t)
    (work : option TournamentMatchId * option TournamentMatchId * bool) (stage_advanced : bool)
    : MatchCompletionOutput.t :=
  let '(winner_next, loser_next, standings_updated) := work in
  let output := MatchCompletionOutput.mk (MatchCompletionInput.match_id input) winner_next loser_next
    standings_updated stage_advanced false None "" in
  output <| MatchCompletionOutput.summary := MatchCompletionSaga.build_summary output bracket |>.

Definition last_names : list string := ["advance_stage"; "update_player_stats"].

Lemma last_runs self input match_ bracket work `{!SagaLaws self} e db :
  owns e db →
  match StageAdvancer.advance_if_stage_complete (MatchCompletionSaga.stage_advancer self)
          (TournamentMatch.bracket_id match_) db with
  | (Ok opened, db2) => ∃ e' b,
      last_steps self input match_ bracket work e db =
        ((Ok (output_of input bracket work (bool_decide (is_Some opened))), e'), with_books b db2) ∧
      booked e e' db2 (with_books b db2) ∧
      StepRecord.name <$> SagaExecution.step_history e' =
        (StepRecord.name <$> SagaExecution.step_history e) ++ last_names
  | (Err err, db2) => last_steps self input match_ bracket work e db = ((Err err, e), db2)
  end ∧
  owns e (StageAdvancer.advance_if_stage_complete (MatchCompletionSaga.stage_advancer self)
    (TournamentMatch.bracket_id match_) db).2.
Proof.
  intros Ho. pose proof (stage_keeps (self := self) (TournamentMatch.bracket_id match_) db) as Hk.
  assert (owns e (StageAdvancer.advance_if_stage_complete (MatchCompletionSaga.stage_advancer self)
    (TournamentMatch.bracket_id match_) db).2) as Ho2 by by eapply owns_rows.
  split; [|done]. destruct work as [[w l] s].
  destruct (StageAdvancer.advance_if_stage_complete _ _ db) as [[opened|err] db2] eqn:Hadv; cbn [snd] in Ho2.
  2: { unfold last_steps, MatchCompletionSaga.step_advance_stage, xbind, xlift. by rewrite Hadv. }
  match goal with |- context [last_steps _ _ _ _ _ e db] => idtac end.
  destruct (keeps_bind (SagaCoordinator.complete_step "advance_stage" (match opened with
    | Some stage_id => Some (json_of_object
        [("action", json_of_string "next_stage_seeded"); ("stage_id", MatchCompletionSaga.id_json stage_id)])
    | None => MatchCompletionSaga.action "not_applicable"
    end)) (λ _, MatchCompletionSaga.step_update_player_stats self input) ["advance_stage"]
    ["update_player_stats"] (keeps_complete_step _ _) (λ _, keeps_stats self input) e db2 Ho2)
    as ([] & e' & b & Hrun & Hb & Hn).
  exists e', b. split; [|done]. revert Hrun.
  unfold last_steps, MatchCompletionSaga.step_advance_stage, xbind, xlift. rewrite Hadv.
  destruct (SagaCoordinator.complete_step _ _ e db2) as [[[?|?] e3] db3]; [|done].
  unfold xret. cbn iota. intros ->. reflexivity.
Qed.

(** ** The end *)

(** How an execution's row is left. *)
Record recorded (input : MatchCompletionInput.t) (id : SagaId) (status : SagaStatus.t)
    (names : list string) (error : option string) (db db' : Db.t) : Prop := {
  rc_row : ∃ r, saga_rows db' !! id = Some r ∧ SagaExecution.id r = id ∧
    is_completion_of (MatchCompletionInput.match_id input) r ∧
    input_from_value (SagaExecution.input_data r) = Ok input ∧
    SagaExecution.status r = status ∧ (error = None ∨ SagaExecution.last_error r = error) ∧
    names `prefix_of` (StepRecord.name <$> SagaExecution.step_history r) ∧
    (status = SagaStatus.Completed → StepRecord.name <$> SagaExecution.step_history r = names) ∧
    SagaExecution.max_retries r = 3 ∧ SagaExecution.created_at r = Db.now db;
  rc_others : ∀ k, k ≠ id → saga_rows db' !! k =
    superseded (MatchCompletionInput.match_id input) (Db.now db) <$> saga_rows db !! k;
}.

Lemma row_after_owned e e' db :
  owns e db → same_execution e e' →
  SagaExecution.status (row_after e' db) = SagaExecution.status e' ∧
  SagaExecution.last_error (row_after e' db) = SagaExecution.last_error e' ∧
  SagaExecution.step_history (row_after e' db) = SagaExecution.step_history e' ∧
  same_execution e' (row_after e' db).
Proof.
  intros [(r & Hr & Hid & Hm & Ht & Hi & Hx & Hc) _] (Hid' & Hm' & Ht' & Hi' & Hx' & Hc').
  unfold row_after. rewrite Hid', Hr. cbn [from_option].
  split; [done|]. split; [done|]. split; [done|].
  unfold same_execution. cbn. repeat split; congruence.
Qed.

Lemma write_row_own e db : saga_rows (write_row e db) !! SagaExecution.id e = Some (row_after e db).
Proof. unfold write_row. cbn [Db.saga_executions setter]. apply lookup_insert_eq. Qed.
Lemma write_row_other e db k :
  k ≠ SagaExecution.id e → saga_rows (write_row e db) !! k = saga_rows db !! k.
Proof. intros Hne. unfold write_row. cbn [Db.saga_executions setter]. by apply lookup_insert_ne. Qed.

(** An execution on its way: it has its row, the others are as the beginning
    left them. *)
Record underway (input : MatchCompletionInput.t) (e0 e : SagaExecution.t) (db db' : Db.t) : Prop := {
  uw_owns : owns e db';
  uw_same : same_execution e0 e;
  uw_others : ∀ k, k ≠ SagaExecution.id e0 → saga_rows db' !! k =
    superseded (MatchCompletionInput.match_id input) (Db.now db) <$> saga_rows db !! k;
}.

Lemma underway_booked input e0 e e' db db1 db2 db3 :
  saga_rows db2 = saga_rows db1 → underway input e0 e db db1 → booked e e' db2 db3 →
  underway input e0 e' db db3.
Proof.
  intros Heq [Ho Hs Hk] [Ho' Hs' Hk' _]. split; [done|by etransitivity|].
  intros k Hne. rewrite Hk', Heq; [by apply Hk|]. destruct Hs as [-> _]. done.
Qed.

Lemma underway_rows input e0 e db db1 db2 :
  saga_rows db2 = saga_rows db1 → underway input e0 e db db1 → underway input e0 e db db2.
Proof. intros Heq [Ho Hs Hk]. split; [by eapply owns_rows|done|]. by rewrite Heq. Qed.

(** The last change of an execution, its row written. *)
Lemma saved_underway input v tid id change e db db1 :
  input_from_value v = Ok input → underway input (begun v input tid id (Db.now db)) e db db1 →
  (∀ now e, same_execution e (change now e) ∧
     SagaExecution.step_history (change now e) = SagaExecution.step_history e) →
  let e' := change (Db.now db1) e in
  ∃ db2, saved e (SagaCoordinator.save change) db1 = (Ok e', db2) ∧ same_bracket db1 db2 ∧
    Db.result_reviews db2 = Db.result_reviews db1 ∧
    ∀ names error,
      (error = None ∨ SagaExecution.last_error e' = error) →
      names `prefix_of` (StepRecord.name <$> SagaExecution.step_history e) →
      (SagaExecution.status e' = SagaStatus.Completed →
         StepRecord.name <$> SagaExecution.step_history e = names) →
      recorded input id (SagaExecution.status e') names error db db2.
Proof.
  intros Hv [Ho Hs Hk] Hch e'. destruct (Hch (Db.now db1) e) as [Hs' Hh]. fold e' in Hs', Hh.
  destruct (save_owned change e db1 Ho Hs') as [Hrun Ho']. fold e' in Hrun, Ho'.
  destruct (row_after_owned e e' db1 Ho Hs') as (Hst & Hle & Hhi & Hsr).
  exists (write_row e' db1). split; [unfold saved; by rewrite Hrun|]. split; [apply write_row_bracket|]. split; [done|].
  intros names error Herr Hpre Hall.
  assert (same_execution (begun v input tid id (Db.now db)) (row_after e' db1)) as (Gi & Gm & Gt & Gd & Gx & Gc).
  { etransitivity; [exact Hs|]. by etransitivity. }
  assert (SagaExecution.id e' = id) as Hid.
  { destruct Hs as [Hi _]. destruct Hs' as [Hi' _]. by rewrite Hi', Hi. }
  split.
  - exists (row_after e' db1). rewrite <- Hid at 1. rewrite write_row_own.
    generalize dependent (row_after e' db1). intros r Hst Hle Hhi Hsr Gi Gm Gt Gd Gx Gc.
    rewrite Hst, Hle, Hhi, Hh, Gi, Gd, Gx, Gc. unfold is_completion_of. rewrite Gm, Gt.
    repeat split; done.
  - intros k Hne. rewrite write_row_other by by rewrite Hid. by apply Hk.
Qed.

(** ** The whole *)

#[local] Instance unpaused_get_match id : Unpaused (get_match id).
Proof. unfold get_match, find_match_by_id. apply _. Qed.
#[local] Instance unpaused_seat m t r w : Unpaused (CompletionTx.seat m t r w).
Proof.
  unfold CompletionTx.seat, CompletionTx.determine_target_slot, assign_participant,
    find_registration_by_id. apply _.
Qed.
#[local] Instance unpaused_mark_loop ts : Unpaused (MatchCompletionSaga.mark_ready_loop ts).
Proof.
  induction ts as [|t ts IH]; cbn; [apply _|].
  unfold MatchCompletionSaga.mark_if_ready, update_status, find_match_by_id. apply _.
Qed.

Lemma completion_work_unpaused input : Unpaused (completion_work input).
Proof.
  unfold completion_work, validated, CompletionTx.get_bracket, find_bracket_by_id, bracket_work,
    record_result, CompletionTx.complete_match, submit_result_in_tx, CompletionTx.advance_winner,
    CompletionTx.route_loser, mark_ready, CompletionTx.update_standings.
  apply _.
Qed.

(** What a completion that may begin answers and leaves behind, given the work
    it is to do on the bracket: the stage is advanced in the state that work
    leaves, if it succeeds; the rest is the execution's account. *)
Definition accounts (self : MatchCompletionSaga.t) (input : MatchCompletionInput.t) (db : Db.t)
    (r : outcome (SagaResult.t MatchCompletionOutput.t)) (db' : Db.t) : Prop :=
  let id := N.succ (Db.next_uuid db) in
  let fails err db1 := r = Err err ∧ same_bracket db1 db' ∧
    ∀ e, err = Error e → recorded input id SagaStatus.Failed [] (Some (error_string e)) db db' in
  match completion_work input db with
  | (Err err, db1) => fails err db1
  | (Ok (match_, bracket, work), db1) => ∃ b,
      match StageAdvancer.advance_if_stage_complete (MatchCompletionSaga.stage_advancer self)
              (TournamentMatch.bracket_id match_) (with_books b db1) with
      | (Ok opened, db2) => same_bracket db2 db' ∧
          recorded input id SagaStatus.Completed (first_names ++ last_names) None db db' ∧
          ∃ res, r = Ok res ∧ SagaResult.success res = true ∧
            SagaExecution.is_paused (SagaResult.execution res) = false ∧
            SagaResult.output res = Some (output_of input bracket work (bool_decide (is_Some opened)))
      | (Err err, db2) => (∀ msg, err ≠ Error (DomainError.SagaPaused msg)) → fails err db2
      end
  end.

Lemma completion_runs self input m db `{!SagaLaws self} :
  Db.matches db !! MatchCompletionInput.match_id input = Some m →
  can_begin (MatchCompletionInput.match_id input) db → demos_clear self input →
  let '(r, db') := MatchCompletionSaga.execute_completion self input db in accounts self input db r db'.
Proof.
  intros Hm Hc Hd. unfold accounts. set (id := N.succ (Db.next_uuid db)). destruct (begin_runs input m db Hm Hc) as (v & e0 & b0 & Hv & He0 & Hrun & Hb0 & Ho).
  unfold MatchCompletionSaga.execute_completion. rewrite (mbind_step _ _ _ _ _ Hrun).
  unfold with_execution. rewrite run_steps_split. unfold xbind.
  assert (underway input e0 e0 db (with_books b0 db)) as Hu0.
  { split; [done|done|]. destruct Hb0 as (_ & _ & _ & _ & _ & Hk). exact Hk. }
  destruct (books_first_steps self input Hd e0 _ Ho) as (e1 & b1 & Hrun1 & Hb1 & Hn1).
  rewrite Hrun1. rewrite (blind b0 db) in *. cbn [fst snd] in *. rewrite with_books_twice in *.
  assert (underway input e0 e1 db (with_books b1 (completion_work input db).2)) as Hu1.
  { eapply underway_booked; [|exact Hu0|exact Hb1]. done. }
  assert (∀ err db2, underway input e0 e1 db db2 → (∀ msg, err ≠ DomainError.SagaPaused msg) →
    ∃ db', (match err with
            | DomainError.SagaPaused msg =>
                let* execution := saved e1 (SagaCoordinator.pause_saga msg) in
                mret (SagaResult.paused execution)
            | _ => MatchCompletionSaga.failed e1 err
            end) db2 = (throw err, db') ∧ same_bracket db2 db' ∧
      recorded input id SagaStatus.Failed [] (Some (error_string err)) db db') as Hfail.
  { intros err db2 Hu Hnp. rewrite He0 in Hu.
    destruct (saved_underway input v (TournamentMatch.tournament_id m) id
      (λ now, SagaExecution.fail now (error_string err)) e1 db db2 Hv Hu) as (db' & Hs & Hsb & _ & Hrec); [done|].
    exists db'. split; [|split; [done|]].
    - destruct err; first [by exfalso; eapply Hnp |
        unfold MatchCompletionSaga.failed, SagaCoordinator.fail_saga; by rewrite (mbind_step _ _ _ _ _ Hs)].
    - apply Hrec; [by right|apply prefix_nil|done]. }
  destruct (completion_work input db) as [[[[match_ bracket] work]|err] db1] eqn:Hw; cbn [fst snd] in *.
  - pose proof (last_runs self input match_ bracket work e1 _ (uw_owns _ _ _ _ _ Hu1)) as [Hlast Ho2].
    pose proof (stage_keeps (self := self) (TournamentMatch.bracket_id match_) (with_books b1 db1)) as Hk.
    destruct (StageAdvancer.advance_if_stage_complete _ _ (with_books b1 db1)) as [[opened|err] db2] eqn:Hadv;
      cbn [snd] in Ho2, Hk.
    + destruct Hlast as (e2 & b2 & -> & Hb2 & Hn2).
      assert (underway input e0 e2 db (with_books b2 db2)) as Hu2.
      { eapply underway_booked; [exact Hk|exact Hu1|exact Hb2]. }
      rewrite He0 in Hu2.
      destruct (saved_underway input v (TournamentMatch.tournament_id m) id
        SagaExecution.complete e2 db _ Hv Hu2) as (db' & Hs & Hsb & _ & Hrec); [done|].
      unfold MatchCompletionSaga.completed, SagaCoordinator.complete_saga.
      rewrite (mbind_step _ _ _ _ _ Hs). exists b1. rewrite Hadv.
      assert (StepRecord.name <$> SagaExecution.step_history e2 = first_names ++ last_names) as Hn.
      { rewrite Hn2, (Hn1 eq_refl), He0. done. }
      split; [etransitivity; [apply same_bracket_books|done]|]. split.
      * apply Hrec; [by left|by rewrite Hn|done].
      * eexists. split; [reflexivity|]. by repeat split.
    + rewrite Hlast. pose proof (underway_rows _ _ _ _ _ _ Hk Hu1) as Hu2.
      destruct err as [err|]; [|exists b1; rewrite Hadv; done].
      assert ((∃ msg, err = DomainError.SagaPaused msg) ∨ ∀ msg, err ≠ DomainError.SagaPaused msg)
        as [[msg ->]|Hnp] by (destruct err; eauto).
      { match goal with |- let '(_, _) := ?p in _ => destruct p end. exists b1. rewrite Hadv.
        intros Hnp. by destruct (Hnp msg). }
      destruct (Hfail err _ Hu2 Hnp) as (db' & -> & Hsb & Hrec).
      exists b1. rewrite Hadv. intros _. split; [done|]. split; [done|]. by intros e [= <-].
  - destruct err as [err|]; [|split; [done|]; split; [apply same_bracket_books|done]].
    destruct (Hfail err _ Hu1) as (db' & -> & Hsb & Hrec).
    { intros msg ->. apply (completion_work_unpaused input db msg). by rewrite Hw. }
    split; [done|]. split; [|by intros e [= <-]]. etransitivity; [apply same_bracket_books|done].
Qed.
End run.
