(* ===== verification/SagaWrites.v ===== *)
(** The writes a completion makes on the bracket, one by one, and why running
    them again after any prefix of them comes to the same bracket. *)
From stdpp Require Import base list strings gmap sorting.
From S2P Require Import Prelude Errors Wire TournamentTypes Entities DomainEnums FormatPlan Rows SagaModel.
From S2P Require Import Store StoreFacts ClaimStore SagaStore Standings StandingsProps Helpers Progression.
From S2P Require Import ProgressionProps Reviews Completion SagaFacts SagaRun.
#[local] Open Scope Z_scope.

(** ** Brackets that differ in their timestamps *)

Definition untimed (m : TournamentMatch.t) : TournamentMatch.t :=
  m <| TournamentMatch.completed_at := None |> <| TournamentMatch.updated_at := 0 |>.
Definition untimed_standing (s : TournamentStanding.t) : TournamentStanding.t :=
  s <| TournamentStanding.updated_at := 0 |>.

Section writes.
Context `{Platform}.

(** Equal but for the clock, the stamps of matches and standings, and the books. *)
Record agree (db1 db2 : Db.t) : Prop := {
  ag_matches : untimed <$> Db.matches db1 = untimed <$> Db.matches db2;
  ag_standings : untimed_standing <$> Db.standings db1 = untimed_standing <$> Db.standings db2;
  ag_brackets : Db.brackets db1 = Db.brackets db2;
  ag_stages : Db.stages db1 = Db.stages db2;
  ag_registrations : Db.registrations db1 = Db.registrations db2;
  ag_byes : Db.byes db1 = Db.byes db2;
}.
#[global] Instance agree_equivalence : Equivalence agree.
Proof.
  split; [by split|by intros x y []|]. intros x y z [] []. split; congruence.
Qed.

#[global] Instance same_bracket_agree : subrelation same_bracket agree.
Proof. intros db1 db2 [b ->]. split; reflexivity. Qed.

(** Time passes. *)
Definition later (t : DateTime) (db : Db.t) : Db.t := db <| Db.now := t |>.
Lemma later_agree t db : agree db (later t db).
Proof. by split. Qed.

Lemma agree_row db1 db2 id m :
  agree db1 db2 → Db.matches db1 !! id = Some m →
  ∃ m', Db.matches db2 !! id = Some m' ∧ untimed m = untimed m'.
Proof.
  intros Ha Hm. pose proof (f_equal (.!! id) (ag_matches _ _ Ha)) as Hl.
  rewrite !lookup_fmap, Hm in Hl. destruct (Db.matches db2 !! id) as [m'|]; [|done].
  exists m'. split; [done|]. by apply (inj Some).
Qed.

(** ** Sequences of writes *)

Definition Write : Type := Db.t → Db.t.
Definition run_writes (ws : list Write) (db : Db.t) : Db.t := foldl (λ db w, w db) db ws.

(** The write has nothing left to do. *)
Definition settled (w : Write) (db : Db.t) : Prop := agree (w db) db.

#[global] Instance run_writes_proper ws :
  Forall (Proper (agree ==> agree)) ws → Proper (agree ==> agree) (run_writes ws).
Proof.
  intros Hws. induction Hws as [|w ws Hw _ IH]; intros db1 db2 Ha; cbn; [done|]. by apply IH, Hw.
Qed.

Lemma run_writes_app ws1 ws2 db : run_writes (ws1 ++ ws2) db = run_writes ws2 (run_writes ws1 db).
Proof. apply foldl_app. Qed.

(** A write that once made is settled, whatever the stamps. *)
Definition steady (w : Write) : Prop := Proper (agree ==> agree) w ∧ ∀ db, settled w (w db).
(** What the first has settled stays settled through the second. *)
Definition keeps (w w' : Write) : Prop := ∀ db, settled w db → settled w (w' db).

Definition converging (ws : list Write) : Prop := Forall steady ws ∧ StronglySorted keeps ws.

Lemma converging_app ws1 ws2 :
  converging (ws1 ++ ws2) ↔
  converging ws1 ∧ converging ws2 ∧ ∀ w1 w2, w1 ∈ ws1 → w2 ∈ ws2 → keeps w1 w2.
Proof. unfold converging. rewrite Forall_app, StronglySorted_app. naive_solver. Qed.

Lemma converging_proper ws : converging ws → Forall (Proper (agree ==> agree)) ws.
Proof. intros [Hs _]. eapply Forall_impl; [exact Hs|]. by intros w []. Qed.

Lemma settled_through w ws db :
  (∀ w' db, w' ∈ ws → settled w db → settled w (w' db)) → settled w db → settled w (run_writes ws db).
Proof.
  revert db. induction ws as [|w' ws IH]; intros db Hk Hs; cbn; [done|].
  apply IH; [intros; apply Hk; set_solver|]. apply Hk; [set_solver|done].
Qed.

(** Made all, they are all settled. *)
Lemma converged_settled ws db w : converging ws → w ∈ ws → settled w (run_writes ws db).
Proof.
  intros Hc Hin. apply list_elem_of_split in Hin as (ws1 & ws2 & ->).
  apply converging_app in Hc as (_ & [Hs Hk] & _). rewrite run_writes_app. cbn.
  apply Forall_cons in Hs as [[_ Hs] _]. apply StronglySorted_cons in Hk as [Hk _].
  rewrite Forall_forall in Hk. apply settled_through; [|apply Hs]. intros w' db' Hin. by apply Hk.
Qed.

Lemma settled_again ws db :
  Forall (Proper (agree ==> agree)) ws → (∀ w, w ∈ ws → settled w db) → agree (run_writes ws db) db.
Proof.
  intros Hp. revert db. induction Hp as [|w ws Hw Hp IH]; intros db Hs; cbn; [done|].
  assert (agree (w db) db) as Ha by (apply Hs; set_solver).
  etransitivity; [|exact Ha]. etransitivity; [apply run_writes_proper; [done|exact Ha]|].
  etransitivity; [|symmetry; exact Ha]. apply IH. intros w' Hin. apply Hs. set_solver.
Qed.

(** Interrupted after any number of them and begun again, they come to where
    they would have. *)
Lemma rerun_converges ws k db db1 :
  converging ws → agree (run_writes (take k ws) db) db1 → agree (run_writes ws db1) (run_writes ws db).
Proof.
  intros Hc Ha. pose proof (converging_proper _ Hc) as Hp.
  rewrite <- (take_drop k ws) in Hp, Hc. apply Forall_app in Hp as [Hp1 Hp2].
  rewrite <- (take_drop k ws) at 1 2. rewrite !run_writes_app. apply run_writes_proper; [done|].
  etransitivity; [apply run_writes_proper; [done|symmetry; exact Ha]|].
  apply settled_again; [done|]. intros w. apply converged_settled. by apply converging_app in Hc as [? _].
Qed.
End writes.

(** ** Writes on a match *)

(** The row, but for its stamps, is determined by what it was but for them. *)
Definition stamps_only (g : DateTime → TournamentMatch.t → TournamentMatch.t) : Prop :=
  ∀ n1 n2 m1 m2, untimed m1 = untimed m2 → untimed (g n1 m1) = untimed (g n2 m2).

Lemma untimed_eq m1 m2 :
  untimed m1 = untimed m2 →
  m2 = m1 <| TournamentMatch.completed_at := TournamentMatch.completed_at m2 |>
          <| TournamentMatch.updated_at := TournamentMatch.updated_at m2 |>.
Proof. destruct m1, m2. unfold untimed. cbn. intros [=]. by subst. Qed.

Section rows.
Context `{Platform}.

Definition row_write (id : TournamentMatchId) (g : DateTime → TournamentMatch.t → TournamentMatch.t)
    : Write := λ db, db <| Db.matches := alter (g (Db.now db)) id (Db.matches db) |>.

Lemma row_write_lookup id g db k :
  Db.matches (row_write id g db) !! k =
  if decide (k = id) then g (Db.now db) <$> Db.matches db !! id else Db.matches db !! k.
Proof.
  unfold row_write. cbn [Db.matches setter]. case_decide as Hk; [subst; apply lookup_alter_eq|].
  by apply lookup_alter_ne.
Qed.

Lemma row_write_proper id g : stamps_only g → Proper (agree ==> agree) (row_write id g).
Proof.
  intros Hg db1 db2 Ha. destruct Ha as [Hm Hs Hb Ht Hr Hy]. split; try done.
  apply map_eq. intros k. rewrite !lookup_fmap, !row_write_lookup.
  pose proof (f_equal (.!! k) Hm) as Hk. rewrite !lookup_fmap in Hk. case_decide; [subst|done].
  destruct (Db.matches db1 !! id), (Db.matches db2 !! id); try done.
  cbn in *. f_equal. apply Hg. by apply (inj Some).
Qed.

Lemma settled_row id g db :
  settled (row_write id g) db ↔
  ∀ m, Db.matches db !! id = Some m → untimed (g (Db.now db) m) = untimed m.
Proof.
  split.
  - intros Ha m Hm. pose proof (f_equal (.!! id) (ag_matches _ _ Ha)) as Hk.
    rewrite !lookup_fmap, row_write_lookup, Hm, decide_True in Hk by done. by apply (inj Some).
  - intros Hm. split; try done. apply map_eq. intros k. rewrite !lookup_fmap, row_write_lookup.
    case_decide; [subst|done]. destruct (Db.matches db !! id) as [m|]; [|done].
    cbn. f_equal. by apply Hm.
Qed.

Lemma settled_row_again id g db :
  (∀ n m, untimed (g n (g n m)) = untimed (g n m)) → settled (row_write id g) (row_write id g db).
Proof.
  intros Hg. apply settled_row. intros m Hm. rewrite row_write_lookup, decide_True in Hm by done.
  destruct (Db.matches db !! id); [|done]. injection Hm as <-. apply Hg.
Qed.

Lemma settled_row_other id g w db :
  Db.matches (w db) !! id = Db.matches db !! id → Db.now (w db) = Db.now db →
  settled (row_write id g) db → settled (row_write id g) (w db).
Proof. intros Hm Hn. by rewrite !settled_row, Hm, Hn. Qed.

Lemma settled_row_same id g g' db :
  (∀ n m, untimed (g n m) = untimed m → untimed (g n (g' n m)) = untimed (g' n m)) →
  settled (row_write id g) db → settled (row_write id g) (row_write id g' db).
Proof.
  intros Hg. rewrite !settled_row. intros Hs m Hm. rewrite row_write_lookup, decide_True in Hm by done.
  destruct (Db.matches db !! id) as [m0|]; [|done]. injection Hm as <-. by apply Hg, Hs.
Qed.

(** ** Writes on the standings *)

Lemma total_perm cs1 cs2 r : cs1 ≡ₚ cs2 → total cs1 r = total cs2 r.
Proof.
  intros Hp. unfold total.
  induction Hp as [|[k c] l1 l2 _ IH|[k1 c1] [k2 c2] l|l1 l2 l3 _ IH1 _ IH2]; cbn; [done| | |congruence].
  - case_bool_decide; cbn; by rewrite IH.
  - do 2 case_bool_decide; cbn; try done. unfold Contribution.add. cbn. f_equal; lia.
Qed.

Lemma match_contributions_untimed b m : match_contributions b (untimed m) = match_contributions b m.
Proof. done. Qed.

Lemma rows_untimed (M : gmap TournamentMatchId TournamentMatch.t) :
  (map_to_list (untimed <$> M)).*2 ≡ₚ untimed <$> (map_to_list M).*2.
Proof. rewrite map_to_list_fmap. by rewrite <- !list_fmap_compose. Qed.

Lemma contributions_agree b db1 db2 :
  agree db1 db2 → contributions b db1 ≡ₚ contributions b db2.
Proof.
  intros Ha. unfold contributions. rewrite (ag_byes _ _ Ha).
  apply Permutation_app; [|done].
  assert (∀ M : gmap TournamentMatchId TournamentMatch.t, (map_to_list M).*2 ≫= match_contributions b ≡ₚ
    (map_to_list (untimed <$> M)).*2 ≫= match_contributions b) as Hrows.
  { intros M. rewrite (rows_untimed M), (list_fmap_bind untimed). apply reflexive_eq, list_bind_ext; [|done].
    intros m. symmetry. apply match_contributions_untimed. }
  by rewrite (Hrows (Db.matches db1)), (Hrows (Db.matches db2)), (ag_matches _ _ Ha).
Qed.

(** Row by row, a change of the standings that looks at the stamps only to
    write them. *)
Lemma update_standings_agree b f1 f2 db1 db2 :
  agree db1 db2 →
  (∀ s1 s2, untimed_standing s1 = untimed_standing s2 → untimed_standing (f1 s1) = untimed_standing (f2 s2)) →
  agree (update_standings b f1 db1) (update_standings b f2 db2).
Proof.
  intros Ha Hf. destruct Ha as [Hm Hs Hb Ht Hr Hy]. split; try done. cbn [update_standings Db.standings setter].
  revert Hs. generalize (Db.standings db2). induction (Db.standings db1) as [|s1 l1 IH]; intros [|s2 l2]; try done.
  rewrite !fmap_cons. intros [Hs Hl]%(inj2 cons). f_equal; [|by apply IH].
  assert (TournamentStanding.bracket_id s1 = TournamentStanding.bracket_id s2) as Hbr.
  { by apply (f_equal TournamentStanding.bracket_id) in Hs. }
  unfold of_bracket in *. repeat case_decide; [by apply Hf|congruence|congruence|done].
Qed.

Lemma untimed_standing_eq s1 s2 :
  untimed_standing s1 = untimed_standing s2 →
  s2 = s1 <| TournamentStanding.updated_at := TournamentStanding.updated_at s2 |>.
Proof. destruct s1, s2. unfold untimed_standing. cbn. intros [=]. by subst. Qed.

#[global] Instance derive_proper b : Proper (agree ==> agree) (recompute_bracket_in_tx b).
Proof.
  intros db1 db2 Ha. apply update_standings_agree; [done|]. intros s1 s2 Hs.
  rewrite (untimed_standing_eq _ _ Hs). cbn [TournamentStanding.registration_id setter].
  by rewrite (total_perm _ _ _ (contributions_agree b _ _ Ha)).
Qed.

Lemma ranked_agree b db1 db2 :
  agree db1 db2 → untimed_standing <$> ranked b db1 = untimed_standing <$> ranked b db2.
Proof.
  intros Ha. unfold ranked. rewrite <- !(stable_sort_fmap standing_leb) by done. f_equal.
  assert (∀ l : list TournamentStanding.t, untimed_standing <$> filter (of_bracket b) l = filter (of_bracket b) (untimed_standing <$> l)) as Hl.
  { intros l. induction l as [|s l IH]; [done|]. rewrite fmap_cons, !filter_cons.
    repeat case_decide; try contradiction; [|done]. by rewrite fmap_cons, IH. }
  by rewrite !Hl, (ag_standings _ _ Ha).
Qed.

Lemma row_number_ids b db id :
  row_number b db id = match list_find (λ i, i = id) (TournamentStanding.id <$> ranked b db) with
                       | Some (i, _) => Z.of_nat i + 1
                       | None => 0
                       end.
Proof.
  unfold row_number. rewrite list_find_fmap.
  by destruct (list_find _ _) as [[i s]|].
Qed.

Lemma row_number_agree b db1 db2 id : agree db1 db2 → row_number b db1 id = row_number b db2 id.
Proof.
  intros Ha. rewrite !row_number_ids.
  assert (∀ l : list TournamentStanding.t, TournamentStanding.id <$> l = TournamentStanding.id <$> (untimed_standing <$> l)) as Hid.
  { intros l. by rewrite <- list_fmap_compose. }
  by rewrite !(Hid (ranked _ _)), (ranked_agree b _ _ Ha).
Qed.

#[global] Instance rank_proper b : Proper (agree ==> agree) (recalculate_positions_in_tx b).
Proof.
  intros db1 db2 Ha. apply update_standings_agree; [done|]. intros s1 s2 Hs.
  rewrite (untimed_standing_eq _ _ Hs). cbn [TournamentStanding.id setter].
  by rewrite (row_number_agree b _ _ _ Ha).
Qed.

(** A change of the standings is settled when it changes no row. *)
Lemma settled_update b f db :
  (∀ s, s ∈ Db.standings db → of_bracket b s → untimed_standing (f s) = untimed_standing s) →
  agree (update_standings b f db) db.
Proof.
  intros Hf. split; try done. cbn [update_standings Db.standings setter].
  rewrite <- list_fmap_compose. apply list_fmap_ext. intros i s Hs%list_elem_of_lookup_2. cbn.
  case_decide; [by apply Hf|done].
Qed.

Lemma derive_row_registration n c s :
  TournamentStanding.registration_id (derive_row n c s) = TournamentStanding.registration_id s.
Proof. destruct s. unfold derive_row. cbn. reflexivity. Qed.

Lemma settled_derive_again b db : settled (recompute_bracket_in_tx b) (recompute_bracket_in_tx b db).
Proof.
  apply settled_update. intros s Hs Hb. apply elem_of_update in Hs as (s0 & _ & _ & ->); [|done..].
  unfold recompute_bracket_in_tx. rewrite update_standings_contributions, update_standings_now.
  generalize (contributions b db), (Db.now db). intros cs n. rewrite derive_row_registration.
  generalize (total cs (TournamentStanding.registration_id s0)). intros c.
  destruct s0. unfold untimed_standing, derive_row. cbn. reflexivity.
Qed.

Lemma settled_rank_again b db : settled (recalculate_positions_in_tx b) (recalculate_positions_in_tx b db).
Proof.
  apply settled_update. intros s Hs Hb. apply elem_of_update in Hs as (s0 & _ & _ & ->); [|done..].
  rewrite row_number_positions. unfold recalculate_positions_in_tx. rewrite update_standings_now.
  generalize (row_number b db), (Db.now db). intros rn n.
  destruct s0. unfold untimed_standing. cbn. reflexivity.
Qed.

Lemma settled_derive_rank b db :
  settled (recompute_bracket_in_tx b) db →
  settled (recompute_bracket_in_tx b) (recalculate_positions_in_tx b db).
Proof.
  intros Ha. apply settled_update. intros s Hs Hb.
  apply elem_of_update in Hs as (s0 & Hs0 & Hb0 & ->); [|done..].
  unfold recalculate_positions_in_tx. rewrite update_standings_contributions.
  pose proof (ag_standings _ _ Ha) as Hst. cbn [recompute_bracket_in_tx update_standings Db.standings setter] in Hst.
  apply list_elem_of_lookup in Hs0 as [i Hi]. apply (f_equal (.!! i)) in Hst.
  rewrite !list_lookup_fmap, Hi in Hst. cbn in Hst. rewrite decide_True in Hst by done.
  apply (inj Some) in Hst. destruct s0. unfold untimed_standing, derive_row in *. cbn in *.
  injection Hst as H1 H2 H3 H4 H5 H6 H7 H8. congruence.
Qed.
End rows.
