(* ===== verification/SagaConverge.v ===== *)
(** A completion of a well-wired match is a converging sequence of writes. *)
From stdpp Require Import base list strings gmap.
From S2P Require Import Prelude Errors Wire TournamentTypes Entities DomainEnums FormatPlan Rows SagaModel.
From S2P Require Import Store StoreFacts ClaimStore SagaStore Standings StandingsProps Helpers Progression.
From S2P Require Import ProgressionProps Reviews Completion SagaFacts SagaRun SagaWrites.
#[local] Open Scope Z_scope.

(** ** Rows and what is written to them *)

(** Where a match stands and who plays, without its state and its result. *)
Definition placed (m : TournamentMatch.t) : TournamentMatch.t :=
  untimed (m <| TournamentMatch.participant1_score := 0 |> <| TournamentMatch.participant2_score := 0 |>
             <| TournamentMatch.winner_registration_id := None |>
             <| TournamentMatch.loser_registration_id := None |>
             <| TournamentMatch.status := TournamentMatchStatus.Pending |>).

(** A target that waits for the match at [slot] waits for it there. *)
Definition slot_fed (m row : TournamentMatch.t) (slot : ParticipantSlot.t) : Prop :=
  target_slot m row = slot ∧
  Completion.fed_by (source_of slot row) (TournamentMatch.bracket_position m) = true.

Definition sources (row : TournamentMatch.t) : option MatchParticipantSource.t * option MatchParticipantSource.t :=
  (TournamentMatch.participant1_source row, TournamentMatch.participant2_source row).

Lemma slot_fed_sources m row row' slot :
  sources row' = sources row → slot_fed m row slot → slot_fed m row' slot.
Proof.
  unfold slot_fed, target_slot. destruct slot; cbn [source_of]; intros [= -> ->] [Ht Hf];
    rewrite Hf in Ht |- *; [done|].
  by destruct (Completion.fed_by (TournamentMatch.participant1_source row) _).
Qed.

Section rows.
Context (input : MatchCompletionInput.t).

Definition result_row (now : DateTime) (m : TournamentMatch.t) : TournamentMatch.t :=
  if bool_decide (TournamentMatch.status m = TournamentMatchStatus.Completed) then m
  else
    let '(p1, p2) :=
      if bool_decide (TournamentMatch.participant1_registration_id m =
                      Some (MatchCompletionInput.winner_registration_id input))
      then (MatchCompletionInput.winner_score input, MatchCompletionInput.loser_score input)
      else (MatchCompletionInput.loser_score input, MatchCompletionInput.winner_score input) in
    set_result p1 p2 (MatchCompletionInput.winner_registration_id input)
      (MatchCompletionInput.loser_registration_id input) now m.

Definition seat_row (slot : ParticipantSlot.t) (id : TournamentRegistrationId) (r : TournamentRegistration.t)
    (now : DateTime) (t : TournamentMatch.t) : TournamentMatch.t :=
  set_participant slot (Some id) (Some (TournamentRegistration.participant_name r))
    (TournamentRegistration.participant_logo_url r) (TournamentRegistration.seed r) t
    <| TournamentMatch.updated_at := now |>.

Definition ready_row (now : DateTime) (t : TournamentMatch.t) : TournamentMatch.t :=
  if bool_decide (TournamentMatch.status t = TournamentMatchStatus.Pending)
     && TournamentMatch.has_both_participants t
  then t <| TournamentMatch.status := TournamentMatchStatus.Ready |> <| TournamentMatch.updated_at := now |>
  else t.

Ltac stamps := intros n1 n2 m1 m2 Hm; rewrite (untimed_eq _ _ Hm); clear Hm; destruct m1.

Lemma result_row_stamps : stamps_only result_row.
Proof. stamps. unfold result_row. cbn. case_bool_decide; [reflexivity|]. by case_bool_decide. Qed.
Lemma seat_row_stamps slot id r : stamps_only (seat_row slot id r).
Proof. stamps. by destruct slot. Qed.
Lemma ready_row_stamps : stamps_only ready_row.
Proof. stamps. unfold ready_row. cbn. by destruct (bool_decide _ && _). Qed.

Lemma result_row_again n m : untimed (result_row n (result_row n m)) = untimed (result_row n m).
Proof.
  unfold result_row at 2 3. case_bool_decide as Hd.
  - unfold result_row. by rewrite bool_decide_true.
  - destruct (if bool_decide _ then _ else _) as [p1 p2]. unfold result_row.
    by rewrite bool_decide_true.
Qed.
Lemma seat_row_again slot id r n m :
  untimed (seat_row slot id r n (seat_row slot id r n m)) = untimed (seat_row slot id r n m).
Proof. destruct m. by destruct slot. Qed.
Lemma ready_row_again n m : untimed (ready_row n (ready_row n m)) = untimed (ready_row n m).
Proof.
  unfold ready_row at 2 3. destruct (bool_decide _ && _) eqn:Hr; unfold ready_row; [done|by rewrite Hr].
Qed.

(** Marked ready, the seat stays taken. *)
Lemma seat_row_ready slot id r n m :
  untimed (seat_row slot id r n m) = untimed m →
  untimed (seat_row slot id r n (ready_row n m)) = untimed (ready_row n m).
Proof.
  intros Hs. unfold ready_row. destruct (bool_decide _ && _); [|done].
  apply (f_equal (λ x, x <| TournamentMatch.status := TournamentMatchStatus.Ready |>)) in Hs.
  revert Hs. destruct m, slot; unfold untimed, seat_row; cbn; trivial.
Qed.

Lemma result_row_placed n m : placed (result_row n m) = placed m.
Proof.
  unfold result_row. case_bool_decide; [done|]. destruct (if bool_decide _ then _ else _).
  by destruct m.
Qed.

(** A match that may be completed so still may be once it is. *)
Lemma result_row_refusal n m : refusal input m = None → refusal input (result_row n m) = None.
Proof.
  unfold result_row. case_bool_decide as Hd; [done|]. destruct (if bool_decide _ then _ else _).
  unfold refusal. cbn [set_result TournamentMatch.status TournamentMatch.participant1_registration_id
    TournamentMatch.participant2_registration_id setter].
  destruct (negb _ && _); [done|]. done.
Qed.

Lemma refusal_untimed m m' : untimed m = untimed m' → refusal input m = refusal input m'.
Proof. intros Hm. by rewrite (untimed_eq _ _ Hm). Qed.
Lemma placed_untimed m m' : untimed m = untimed m' → placed m = placed m'.
Proof. intros Hm. rewrite (untimed_eq _ _ Hm). by destruct m. Qed.
Lemma sources_untimed m m' : untimed m = untimed m' → sources m = sources m'.
Proof. intros Hm. by rewrite (untimed_eq _ _ Hm). Qed.
Lemma seat_row_sources slot id r n m : sources (seat_row slot id r n m) = sources m.
Proof. by destruct slot. Qed.
Lemma ready_row_sources n m : sources (ready_row n m) = sources m.
Proof. unfold ready_row. by destruct (bool_decide _ && _). Qed.
End rows.

(** ** The programs are their writes *)

Section programs.
Context `{CompletionSerde}.

Lemma update_match_write id g db m :
  Db.matches db !! id = Some m →
  update_match id g db = (Ok (g (Db.now db) m), row_write id g db).
Proof.
  intros Hm. unfold update_match. rewrite Hm. f_equal. unfold row_write.
  assert (alter (g (Db.now db)) id (Db.matches db) = <[id := g (Db.now db) m]> (Db.matches db)) as ->; [|done].
  apply map_eq. intros k. destruct (decide (id = k)) as [->|Hk].
  - by rewrite lookup_alter_eq, lookup_insert_eq, Hm.
  - by rewrite lookup_alter_ne, lookup_insert_ne.
Qed.

(** Writing what is there is no write. *)
Lemma row_write_same id g db :
  (∀ m, Db.matches db !! id = Some m → g (Db.now db) m = m) → row_write id g db = db.
Proof.
  intros Hm. unfold row_write.
  assert (alter (g (Db.now db)) id (Db.matches db) = Db.matches db) as ->; [|by destruct db].
  apply map_eq. intros k. destruct (decide (id = k)) as [->|Hk]; [|by rewrite lookup_alter_ne].
  rewrite lookup_alter_eq. destruct (Db.matches db !! k) eqn:Hk; [|done]. cbn. by rewrite Hm.
Qed.

Lemma record_result_write input db m :
  Db.matches db !! MatchCompletionInput.match_id input = Some m →
  record_result input db = (Ok tt, row_write (MatchCompletionInput.match_id input) (result_row input) db).
Proof.
  intros Hm. unfold record_result. rewrite (mbind_step _ _ _ _ _ (get_match_found _ _ _ Hm)).
  case_bool_decide as Hst.
  - rewrite row_write_same; [done|]. intros m' Hm'. replace m' with m in * by congruence.
    unfold result_row. by rewrite bool_decide_true.
  - unfold CompletionTx.complete_match, submit_result_in_tx.
    cbn [tx_input MatchCompletionTxInput.winner_registration_id MatchCompletionTxInput.winner_score
      MatchCompletionTxInput.loser_score MatchCompletionTxInput.loser_registration_id
      MatchCompletionTxInput.match_id].
    destruct (if bool_decide _ then _ else _) as [p1 p2] eqn:Hp.
    rewrite (mbind_step _ _ _ _ _ (update_match_write _ _ _ _ Hm)). cbn. f_equal.
    unfold row_write.
    assert (alter (result_row input (Db.now db)) (MatchCompletionInput.match_id input) (Db.matches db) =
      alter (set_result p1 p2 (MatchCompletionInput.winner_registration_id input)
        (MatchCompletionInput.loser_registration_id input) (Db.now db))
        (MatchCompletionInput.match_id input) (Db.matches db)) as ->; [|done].
    apply alter_ext. intros m' Hm'. replace m' with m in * by congruence.
    unfold result_row. rewrite bool_decide_false by done. by rewrite Hp.
Qed.

Lemma seat_write m target registration is_winner db row r slot :
  Db.matches db !! target = Some row → slot_fed m row slot →
  Db.registrations db !! registration = Some r →
  CompletionTx.seat m target registration is_winner db =
    (Ok slot, row_write target (seat_row slot registration r) db).
Proof.
  intros Hrow [Hslot _] Hr. unfold CompletionTx.seat, find_registration_by_id.
  rewrite (mbind_step _ _ _ (Some r) db) by (by unfold mread; rewrite Hr). cbn [ok_or].
  rewrite (mbind_step _ _ _ r db) by done. unfold CompletionTx.determine_target_slot, mbind at 1 2.
  rewrite (get_match_found _ _ _ Hrow). cbn [mret]. rewrite Hslot. unfold assign_participant.
  by rewrite (mbind_step _ _ _ _ _ (update_match_write _ _ _ _ Hrow)).
Qed.

Lemma mark_if_ready_write t db :
  ∃ b, MatchCompletionSaga.mark_if_ready t db = (Ok b, row_write t ready_row db).
Proof.
  unfold MatchCompletionSaga.mark_if_ready, find_match_by_id.
  change (mbind (mread ?f) ?k db) with (k (f db) db). cbv beta.
  destruct (Db.matches db !! t) as [row|] eqn:Hrow.
  - destruct (bool_decide _ && _) eqn:Hb.
    + unfold update_status. rewrite (mbind_step _ _ _ _ _ (update_match_write _ _ _ _ Hrow)).
      exists true. unfold mret. f_equal. unfold row_write.
      rewrite (alter_ext (ready_row (Db.now db)) (λ m, m
        <| TournamentMatch.status := TournamentMatchStatus.Ready |>
        <| TournamentMatch.updated_at := Db.now db |>)); [done|].
      intros m Hm. replace m with row by congruence. unfold ready_row. by rewrite Hb.
    + exists false. rewrite row_write_same; [done|]. intros m Hm. replace m with row by congruence.
      unfold ready_row. by rewrite Hb.
  - exists false. rewrite row_write_same; [done|]. congruence.
Qed.

Definition ready_writes (ts : list TournamentMatchId) : list Write :=
  (λ t, row_write t ready_row) <$> ts.

Lemma mark_ready_write ts db :
  ∃ l, MatchCompletionSaga.mark_ready_loop ts db = (Ok l, run_writes (ready_writes ts) db).
Proof.
  revert db. induction ts as [|t ts IH]; intros db; [by exists []|]. cbn [MatchCompletionSaga.mark_ready_loop].
  destruct (mark_if_ready_write t db) as [b Hb]. rewrite (mbind_step _ _ _ _ _ Hb).
  destruct (IH (row_write t ready_row db)) as [l Hl]. rewrite (mbind_step _ _ _ _ _ Hl).
  by eexists.
Qed.
End programs.

(** ** A well-wired match *)

Lemma elem_of_option_list {A} (o : option A) x : x ∈ option_list o ↔ o = Some x.
Proof. destruct o; cbn; set_solver. Qed.

Section converge.
Context `{CompletionSerde}.
Context (input : MatchCompletionInput.t) (m : TournamentMatch.t) (bracket : TournamentBracket.t).
Context (rw rl : TournamentRegistration.t) (sw sl : ParticipantSlot.t).

Abbreviation mid := (MatchCompletionInput.match_id input).
Abbreviation wnext := (TournamentMatch.winner_progresses_to m).
Abbreviation lnext := (TournamentMatch.loser_progresses_to m).

(** A target other than the match, waiting for it at [slot]. *)
Definition waiting (next : option TournamentMatchId) (slot : ParticipantSlot.t) (db : Db.t) : Prop :=
  ∀ t, next = Some t → t ≠ mid ∧ ∃ row, Db.matches db !! t = Some row ∧ slot_fed m row slot.

(** The match is there and may be completed so; its bracket, the players and
    the targets exist; each target waits for it, and they are two. *)
Record wired (db : Db.t) : Prop := {
  wi_match : ∃ m', Db.matches db !! mid = Some m' ∧ placed m' = placed m ∧ refusal input m' = None;
  wi_bracket : Db.brackets db !! TournamentMatch.bracket_id m = Some bracket;
  wi_winner : Db.registrations db !! MatchCompletionInput.winner_registration_id input = Some rw;
  wi_loser : Db.registrations db !! MatchCompletionInput.loser_registration_id input = Some rl;
  wi_wnext : waiting wnext sw db;
  wi_lnext : waiting lnext sl db;
  wi_apart : ∀ t, wnext = Some t → lnext ≠ Some t;
}.

Definition seat_writes (next : option TournamentMatchId) (slot : ParticipantSlot.t)
    (id : TournamentRegistrationId) (r : TournamentRegistration.t) : list Write :=
  (λ t, row_write t (seat_row slot id r)) <$> option_list next.

Definition standings_writes : list Write :=
  if is_standings_bracket (TournamentBracket.bracket_type bracket)
  then [recompute_bracket_in_tx (TournamentMatch.bracket_id m);
        recalculate_positions_in_tx (TournamentMatch.bracket_id m)]
  else [].

(** The writes of a completion of this match, in order. *)
Definition completion_writes : list Write :=
  [row_write mid (result_row input)]
  ++ seat_writes wnext sw (MatchCompletionInput.winner_registration_id input) rw
  ++ seat_writes lnext sl (MatchCompletionInput.loser_registration_id input) rl
  ++ ready_writes (option_list wnext ++ option_list lnext)
  ++ standings_writes.

(** *** Wiring lasts *)

Lemma waiting_row next slot id g db :
  (∀ n t, sources (g n t) = sources t) → waiting next slot db → waiting next slot (row_write id g db).
Proof.
  intros Hg Hw t Ht. destruct (Hw t Ht) as (Hne & row & Hrow & Hf). split; [done|].
  rewrite row_write_lookup. case_decide; [subst|by exists row]. rewrite Hrow. eexists. split; [done|].
  by eapply slot_fed_sources, Hf.
Qed.

Lemma result_row_sources n t : sources (result_row input n t) = sources t.
Proof.
  unfold result_row. case_bool_decide; [done|]. by destruct (if bool_decide _ then _ else _).
Qed.

Lemma wired_target t g db :
  (∀ n r, sources (g n r) = sources r) → t ≠ mid → wired db → wired (row_write t g db).
Proof.
  intros Hg Hne [(m' & Hm & Hp & Hr) Hb Hw Hl Hwn Hln Ha]. split; try done; [|by apply waiting_row..].
  exists m'. by rewrite row_write_lookup, decide_False.
Qed.

Lemma wired_result db : wired db → wired (row_write mid (result_row input) db).
Proof.
  intros [(m' & Hm & Hp & Hr) Hb Hw Hl Hwn Hln Ha].
  split; try done; [|by apply waiting_row; [apply result_row_sources|]..].
  exists (result_row input (Db.now db) m'). rewrite row_write_lookup, decide_True, Hm by done.
  split; [done|]. by rewrite result_row_placed, (result_row_refusal _ _ _ Hr).
Qed.

Lemma wired_agree db1 db2 : agree db1 db2 → wired db1 → wired db2.
Proof.
  intros Ha [(m' & Hm & Hp & Hr) Hb Hw Hl Hwn Hln Hap].
  assert (∀ next slot, waiting next slot db1 → waiting next slot db2) as Hwt.
  { intros next slot Hwt t Ht. destruct (Hwt t Ht) as (Hne & row & Hrow & Hf). split; [done|].
    destruct (agree_row _ _ _ _ Ha Hrow) as (row' & Hrow' & Hu). exists row'. split; [done|].
    eapply slot_fed_sources; [|exact Hf]. symmetry. by apply sources_untimed. }
  destruct (agree_row _ _ _ _ Ha Hm) as (m2 & Hm2 & Hu).
  split; auto.
  - exists m2. split; [done|]. by rewrite <- (placed_untimed _ _ Hu), <- (refusal_untimed _ _ _ Hu).
  - by rewrite <- (ag_brackets _ _ Ha).
  - by rewrite <- (ag_registrations _ _ Ha).
  - by rewrite <- (ag_registrations _ _ Ha).
Qed.

(** The kinds of write there are. *)
Lemma completion_writes_inv w :
  w ∈ completion_writes →
  w = row_write mid (result_row input) ∨
  (∃ t slot id r, (wnext = Some t ∨ lnext = Some t) ∧ w = row_write t (seat_row slot id r)) ∨
  (∃ t, (wnext = Some t ∨ lnext = Some t) ∧ w = row_write t ready_row) ∨
  w ∈ standings_writes.
Proof.
  unfold completion_writes, seat_writes, ready_writes. rewrite !elem_of_app.
  intros [Hw|[Hw|[Hw|[Hw|Hw]]]].
  - left. by apply list_elem_of_singleton in Hw.
  - apply list_elem_of_fmap in Hw as (t & -> & Ht). apply elem_of_option_list in Ht. right. left.
    by exists t, sw, (MatchCompletionInput.winner_registration_id input), rw; auto.
  - apply list_elem_of_fmap in Hw as (t & -> & Ht). apply elem_of_option_list in Ht. right. left.
    by exists t, sl, (MatchCompletionInput.loser_registration_id input), rl; auto.
  - apply list_elem_of_fmap in Hw as (t & -> & Ht).
    rewrite elem_of_app, !elem_of_option_list in Ht. right. right. left. by exists t.
  - auto.
Qed.

Lemma wired_write w db : w ∈ completion_writes → wired db → wired (w db).
Proof.
  intros Hw Hwd. destruct (completion_writes_inv w Hw) as
    [->|[(t & slot & id & r & Ht & ->)|[(t & Ht & ->)|Hst]]].
  - by apply wired_result.
  - apply wired_target; [intros; apply seat_row_sources| |done].
    destruct Ht as [Ht|Ht]; [by destruct (wi_wnext _ Hwd t Ht)|by destruct (wi_lnext _ Hwd t Ht)].
  - apply wired_target; [intros; apply ready_row_sources| |done].
    destruct Ht as [Ht|Ht]; [by destruct (wi_wnext _ Hwd t Ht)|by destruct (wi_lnext _ Hwd t Ht)].
  - destruct Hwd. unfold standings_writes in Hst.
    destruct (is_standings_bracket _); [|by apply elem_of_nil in Hst].
    apply elem_of_cons in Hst as [->|Hst%list_elem_of_singleton]; [by split|]. rewrite Hst. by split.
Qed.

Lemma wired_writes ws db :
  (∀ w, w ∈ ws → w ∈ completion_writes) → wired db → wired (run_writes ws db).
Proof.
  revert db. induction ws as [|w ws IH]; intros db Hin Hw; cbn; [done|].
  apply IH; [set_solver|]. apply wired_write; [set_solver|done].
Qed.

(** Wherever it was interrupted, and whatever time has passed. *)
Lemma wired_interrupted k db db1 :
  wired db → agree (run_writes (take k completion_writes) db) db1 → wired db1.
Proof.
  intros Hw Ha. eapply wired_agree; [exact Ha|]. apply wired_writes; [|done].
  intros w Hin. apply elem_of_take in Hin as (i & Hi & _). by eapply list_elem_of_lookup_2.
Qed.

(** *** The program *)

Lemma winner_write db :
  wired db → CompletionTx.advance_winner m (tx_input input) db =
    (Ok wnext, run_writes (seat_writes wnext sw (MatchCompletionInput.winner_registration_id input) rw) db).
Proof.
  intros Hw. unfold CompletionTx.advance_winner. destruct wnext as [t|] eqn:Ht; [|done].
  destruct (wi_wnext _ Hw t Ht) as (_ & row & Hrow & Hf).
  by rewrite (mbind_step _ _ _ _ _ (seat_write _ _ _ _ _ _ _ _ Hrow Hf (wi_winner _ Hw))).
Qed.

Lemma loser_write db :
  wired db → CompletionTx.route_loser m (tx_input input) db =
    (Ok lnext, run_writes (seat_writes lnext sl (MatchCompletionInput.loser_registration_id input) rl) db).
Proof.
  intros Hw. unfold CompletionTx.route_loser. destruct lnext as [t|] eqn:Ht; [|done].
  destruct (wi_lnext _ Hw t Ht) as (_ & row & Hrow & Hf).
  by rewrite (mbind_step _ _ _ _ _ (seat_write _ _ _ _ _ _ _ _ Hrow Hf (wi_loser _ Hw))).
Qed.

Lemma standings_write db :
  CompletionTx.update_standings m bracket db =
    (Ok (is_standings_bracket (TournamentBracket.bracket_type bracket)), run_writes standings_writes db).
Proof.
  unfold CompletionTx.update_standings, standings_writes.
  by destruct (is_standings_bracket (TournamentBracket.bracket_type bracket)).
Qed.

Lemma bracket_work_writes db :
  wired db → bracket_work input m bracket db =
    (Ok (wnext, lnext, is_standings_bracket (TournamentBracket.bracket_type bracket)),
     run_writes completion_writes db).
Proof.
  intros Hw. unfold bracket_work, completion_writes. rewrite !run_writes_app.
  destruct (wi_match _ Hw) as (m' & Hm' & _).
  rewrite (mbind_step _ _ _ _ _ (record_result_write _ _ _ Hm')).
  change (run_writes [?w] db) with (w db).
  apply wired_result in Hw. set (db1 := row_write mid (result_row input) db) in *.
  rewrite (mbind_step _ _ _ _ _ (winner_write _ Hw)).
  set (wsw := seat_writes wnext _ _ _).
  assert (wired (run_writes wsw db1)) as Hw2.
  { apply wired_writes; [|done]. intros w Hin. unfold completion_writes. rewrite !elem_of_app. auto. }
  rewrite (mbind_step _ _ _ _ _ (loser_write _ Hw2)). unfold mark_ready.
  destruct (mark_ready_write (option_list wnext ++ option_list lnext)
    (run_writes (seat_writes lnext sl (MatchCompletionInput.loser_registration_id input) rl)
      (run_writes wsw db1))) as [l Hl].
  unfold mbind at 1. rewrite (mbind_step _ _ _ _ _ Hl). cbn [mret].
  by rewrite (mbind_step _ _ _ _ _ (standings_write _)).
Qed.

(** *** Convergence *)

Lemma steady_row id g :
  stamps_only g → (∀ n x, untimed (g n (g n x)) = untimed (g n x)) → steady (row_write id g).
Proof. intros Hg Hi. split; [by apply row_write_proper|]. intros db. by apply settled_row_again. Qed.

Lemma keeps_other_row id g id' g' : id ≠ id' → keeps (row_write id g) (row_write id' g').
Proof. intros Hne db. apply settled_row_other; [|done]. by rewrite row_write_lookup, decide_False. Qed.

Lemma keeps_standings id g w : w ∈ standings_writes → keeps (row_write id g) w.
Proof.
  unfold standings_writes. destruct (is_standings_bracket _); [|by intros ?%elem_of_nil].
  intros Hw db. apply settled_row_other.
  - apply elem_of_cons in Hw as [->|Hw%list_elem_of_singleton]; [done|]. by rewrite Hw.
  - apply elem_of_cons in Hw as [->|Hw%list_elem_of_singleton]; [done|]. by rewrite Hw.
Qed.

Lemma seat_write_inv next slot id r w :
  w ∈ seat_writes next slot id r → ∃ t, next = Some t ∧ w = row_write t (seat_row slot id r).
Proof.
  unfold seat_writes. intros (t & -> & Ht%elem_of_option_list)%list_elem_of_fmap. by exists t.
Qed.

Lemma ready_write_inv w :
  w ∈ ready_writes (option_list wnext ++ option_list lnext) →
  ∃ t, (wnext = Some t ∨ lnext = Some t) ∧ w = row_write t ready_row.
Proof.
  unfold ready_writes. intros (t & -> & Ht)%list_elem_of_fmap.
  rewrite elem_of_app, !elem_of_option_list in Ht. by exists t.
Qed.

Lemma converging_one w : steady w → converging [w].
Proof. intros Hw. split; [by constructor|]. by repeat constructor. Qed.

Lemma converging_seat next slot id r : converging (seat_writes next slot id r).
Proof.
  unfold seat_writes. destruct next as [t|]; [|by split; constructor].
  apply converging_one, steady_row; [apply seat_row_stamps|apply seat_row_again].
Qed.

Lemma converging_standings : converging standings_writes.
Proof.
  unfold standings_writes. destruct (is_standings_bracket _); [|by split; constructor]. split.
  - rewrite !Forall_cons, Forall_nil. split; [split; [apply _|intros; apply settled_derive_again]|].
    split; [split; [apply _|intros; apply settled_rank_again]|done].
  - apply StronglySorted_cons. split; [|by repeat constructor]. apply Forall_singleton.
    intros db. apply settled_derive_rank.
Qed.

Lemma converging_ready ts : NoDup ts → converging (ready_writes ts).
Proof.
  induction 1 as [|t ts Hnin Hnd IH]; [by split; constructor|].
  change (converging ([row_write t ready_row] ++ ready_writes ts)). apply converging_app.
  split; [|split; [done|]].
  - apply converging_one, steady_row; [apply ready_row_stamps|apply ready_row_again].
  - intros w1 w2 ->%list_elem_of_singleton (t' & -> & Ht')%list_elem_of_fmap.
    apply keeps_other_row. set_solver.
Qed.

Lemma keeps_seat_ready t slot id r t' :
  keeps (row_write t (seat_row slot id r)) (row_write t' ready_row).
Proof.
  destruct (decide (t = t')) as [<-|Hne]; [|by apply keeps_other_row].
  intros db. apply settled_row_same. intros n x. apply seat_row_ready.
Qed.

Lemma completion_converging db : wired db → converging completion_writes.
Proof.
  intros [_ _ _ _ Hwn Hln Hap]. unfold completion_writes.
  assert (∀ t, wnext = Some t ∨ lnext = Some t → mid ≠ t) as Hmid.
  { intros t [Ht|Ht]; [by destruct (Hwn t Ht)|by destruct (Hln t Ht)]. }
  rewrite !converging_app. split; [|split; [split; [|split; [split; [|split; [split|]]|]]|]].
  - apply converging_one, steady_row; [apply result_row_stamps|apply result_row_again].
  - apply converging_seat.
  - apply converging_seat.
  - apply converging_ready. destruct wnext as [t|], lnext as [t'|]; cbn.
    + assert (t ≠ t') by (intros ->; by apply (Hap t')). apply NoDup_cons. split; [set_solver|apply NoDup_singleton].
    + apply NoDup_singleton.
    + apply NoDup_singleton.
    + apply NoDup_nil_2.
  - split; [apply converging_standings|]. intros w1 w2 (t & _ & ->)%ready_write_inv. apply keeps_standings.
  - intros w1 w2 (t & Ht & ->)%seat_write_inv [(t' & _ & ->)%ready_write_inv|Hw]%elem_of_app;
      [apply keeps_seat_ready|by apply keeps_standings].
  - intros w1 w2 (t & Ht & ->)%seat_write_inv.
    intros [(t' & Ht' & ->)%seat_write_inv|[(t' & _ & ->)%ready_write_inv|Hw]%elem_of_app]%elem_of_app;
      [|apply keeps_seat_ready|by apply keeps_standings].
    apply keeps_other_row. intros <-. by apply (Hap t).
  - intros w1 w2 ->%list_elem_of_singleton.
    intros [(t' & Ht' & ->)%seat_write_inv|[(t' & Ht' & ->)%seat_write_inv|
      [(t' & Ht' & ->)%ready_write_inv|Hw]%elem_of_app]%elem_of_app]%elem_of_app;
      [apply keeps_other_row, Hmid; auto..|by apply keeps_standings].
Qed.

(** *** The whole work *)

Lemma seat_placed m1 m2 t r w db :
  TournamentMatch.bracket_position m1 = TournamentMatch.bracket_position m2 →
  CompletionTx.seat m1 t r w db = CompletionTx.seat m2 t r w db.
Proof.
  intros Hpos. unfold CompletionTx.seat, CompletionTx.determine_target_slot, target_slot. by rewrite Hpos.
Qed.

Lemma mbind_ext {A B} (c1 c2 : M A) (k1 k2 : A → M B) db :
  c1 db = c2 db → (∀ a db', k1 a db' = k2 a db') → mbind c1 k1 db = mbind c2 k2 db.
Proof. intros Hc Hk. unfold mbind. rewrite Hc. destruct (c2 db) as [[a|e] db']; [apply Hk|done]. Qed.

Lemma bracket_work_placed m' db :
  placed m' = placed m → bracket_work input m' bracket db = bracket_work input m bracket db.
Proof.
  intros Hp.
  pose proof (f_equal TournamentMatch.bracket_position Hp) as Hpos.
  pose proof (f_equal TournamentMatch.winner_progresses_to Hp) as Hw.
  pose proof (f_equal TournamentMatch.loser_progresses_to Hp) as Hl.
  pose proof (f_equal TournamentMatch.bracket_id Hp) as Hb. clear Hp.
  cbn [placed untimed setter TournamentMatch.bracket_position TournamentMatch.winner_progresses_to
    TournamentMatch.loser_progresses_to TournamentMatch.bracket_id] in Hpos, Hw, Hl, Hb.
  unfold bracket_work, CompletionTx.advance_winner, CompletionTx.route_loser, CompletionTx.update_standings.
  rewrite Hw, Hl, Hb. apply mbind_ext; [done|]. intros _ db1. apply mbind_ext.
  { destruct wnext; [|done]. apply mbind_ext; [by apply seat_placed|done]. }
  intros w db2. apply mbind_ext; [|done].
  destruct lnext; [|done]. apply mbind_ext; [by apply seat_placed|done].
Qed.

Lemma completion_work_writes db :
  wired db → ∃ m', TournamentMatch.bracket_id m' = TournamentMatch.bracket_id m ∧
    completion_work input db =
      (Ok (m', bracket, (wnext, lnext, is_standings_bracket (TournamentBracket.bracket_type bracket))),
       run_writes completion_writes db).
Proof.
  intros Hw. destruct (wi_match _ Hw) as (m' & Hm' & Hp & Hr). exists m'.
  assert (TournamentMatch.bracket_id m' = TournamentMatch.bracket_id m) as Hb.
  { apply (f_equal TournamentMatch.bracket_id Hp). }
  split; [done|]. unfold completion_work, validated.
  unfold mbind at 1 2. rewrite (get_match_found _ _ _ Hm'). rewrite Hr. cbn [mret].
  unfold CompletionTx.get_bracket, find_bracket_by_id. unfold mbind at 1 2.
  unfold mread. rewrite Hb, (wi_bracket _ Hw). cbn [ok_or mlift].
  unfold mbind. by rewrite (bracket_work_placed _ _ Hp), (bracket_work_writes _ Hw).
Qed.
End converge.

(** ** The saga of a well-wired match *)

(** The stage of the bracket has nothing to advance to, in any state that
    differs in stamps and books. *)
Definition stage_idle `{CompletionSerde} (self : MatchCompletionSaga.t) (bracket_id : TournamentBracketId)
    (db : Db.t) : Prop :=
  ∀ db', agree db db' →
    StageAdvancer.advance_if_stage_complete (MatchCompletionSaga.stage_advancer self) bracket_id db' = (Ok None, db').

(** Outside group stages it never has. *)
Lemma stage_idle_progression `{CompletionSerde} self bracket_id db bracket stage :
  MatchCompletionSaga.stage_advancer self = StageAdvancer.progression →
  Db.brackets db !! bracket_id = Some bracket →
  Db.stages db !! TournamentBracket.stage_id bracket = Some stage →
  TournamentStage.format stage ≠ StageFormat.GroupStage → stage_idle self bracket_id db.
Proof.
  intros Hadv Hb Hs Hf db' Ha. rewrite Hadv. cbn [StageAdvancer.progression StageAdvancer.advance_if_stage_complete].
  rewrite (ag_brackets _ _ Ha) in Hb. rewrite (ag_stages _ _ Ha) in Hs.
  unfold advance_stage_if_complete, check_bracket_completion, list_matches_by_bracket.
  unfold mbind at 1 2. unfold mread at 1. cbn [mret]. destruct (forallb _ _); [|done]. cbn [negb].
  rewrite (mbind_step _ _ _ _ _ (get_bracket_found _ _ _ Hb)). unfold find_stage_by_id.
  change (mbind (mread ?f) ?k db') with (k (f db') db'). cbv beta. rewrite Hs.
  unfold mbind at 1. cbn [ok_or mlift]. unfold mlift. by rewrite bool_decide_false.
Qed.

(** Nothing has been advanced. *)
Definition plain_output (input : MatchCompletionInput.t) (m : TournamentMatch.t)
    (bracket : TournamentBracket.t) : MatchCompletionOutput.t :=
  output_of input bracket (TournamentMatch.winner_progresses_to m, TournamentMatch.loser_progresses_to m,
    is_standings_bracket (TournamentBracket.bracket_type bracket)) false.

Lemma completion_of_wired `{CompletionSerdeLaws} self `{!SagaLaws self} input m bracket rw rl sw sl db :
  wired input m bracket rw rl sw sl db → can_begin (MatchCompletionInput.match_id input) db →
  demos_clear self input →
  stage_idle self (TournamentMatch.bracket_id m) (run_writes (completion_writes input m bracket rw rl sw sl) db) →
  ∃ res db', MatchCompletionSaga.execute_completion self input db = (Ok res, db') ∧
    same_bracket (run_writes (completion_writes input m bracket rw rl sw sl) db) db' ∧
    SagaResult.success res = true ∧ SagaResult.is_paused res = false ∧
    SagaResult.output res = Some (plain_output input m bracket) ∧
    recorded input (N.succ (Db.next_uuid db)) SagaStatus.Completed (first_names ++ last_names) None db db'.
Proof.
  intros Hw Hc Hd Hi. destruct (wi_match _ _ _ _ _ _ _ _ Hw) as (m0 & Hm0 & _).
  pose proof (completion_runs self input m0 db Hm0 Hc Hd) as Hrun.
  destruct (MatchCompletionSaga.execute_completion self input db) as [r db'].
  unfold accounts in Hrun.
  destruct (completion_work_writes _ _ _ _ _ _ _ _ Hw) as (m' & Hb & Hwork). rewrite Hwork in Hrun.
  destruct Hrun as [b Hrun]. rewrite Hb, Hi in Hrun by by apply same_bracket_agree; exists b.
  destruct Hrun as (Hsb & Hrec & res & -> & Hok & Hp & Hout). exists res, db'. split; [done|].
  split; [|done]. etransitivity; [|exact Hsb]. apply same_bracket_books.
Qed.

(** ** Readiness does not enter the standings *)

Section ready.
Context `{CompletionSerde}.

Lemma ready_row_contributions b n m : match_contributions b (ready_row n m) = match_contributions b m.
Proof.
  unfold ready_row. destruct (bool_decide _ && _) eqn:Hr; [|done].
  apply andb_true_iff in Hr as [Hst%bool_decide_eq_true _].
  unfold match_contributions, counted. cbn [TournamentMatch.bracket_id TournamentMatch.status setter].
  rewrite Hst, !bool_decide_false; [done|by intros [_ ?]..].
Qed.

Lemma contributions_ready b t db : contributions b (row_write t ready_row db) ≡ₚ contributions b db.
Proof.
  unfold contributions. apply Permutation_app; [|done]. unfold row_write. cbn [Db.matches setter].
  destruct (Db.matches db !! t) as [m|] eqn:Hm.
  2: { rewrite alter_id; [done|]. congruence. }
  assert (alter (ready_row (Db.now db)) t (Db.matches db) =
    <[t := ready_row (Db.now db) m]> (delete t (Db.matches db))) as ->.
  { apply map_eq. intros k. destruct (decide (t = k)) as [->|Hk].
    - by rewrite lookup_alter_eq, lookup_insert_eq, Hm.
    - by rewrite lookup_alter_ne, lookup_insert_ne, lookup_delete_ne. }
  rewrite <- (insert_delete_id _ _ _ Hm) at 2.
  rewrite !map_to_list_insert by apply lookup_delete_eq. cbn. by rewrite ready_row_contributions.
Qed.

Lemma update_standings_ext b f1 f2 db :
  (∀ s, f1 s = f2 s) → update_standings b f1 db = update_standings b f2 db.
Proof.
  intros Hf. unfold update_standings. f_equal.
  assert ((λ s, if decide (of_bracket b s) then f1 s else s) <$> Db.standings db =
    (λ s, if decide (of_bracket b s) then f2 s else s) <$> Db.standings db) as ->; [|done].
  apply list_fmap_ext. intros i s _. case_decide; [apply Hf|done].
Qed.

Lemma derive_ready b t db :
  recompute_bracket_in_tx b (row_write t ready_row db) = row_write t ready_row (recompute_bracket_in_tx b db).
Proof.
  unfold recompute_bracket_in_tx.
  rewrite (update_standings_ext b _ (λ s, derive_row (Db.now db)
    (total (contributions b db) (TournamentStanding.registration_id s)) s)); [done|].
  intros s. by rewrite (total_perm _ _ _ (contributions_ready b t db)).
Qed.

Lemma rank_ready b t db :
  recalculate_positions_in_tx b (row_write t ready_row db) = row_write t ready_row (recalculate_positions_in_tx b db).
Proof. reflexivity. Qed.

Lemma standings_ready m bracket ts db :
  CompletionTx.update_standings m bracket (run_writes (ready_writes ts) db) =
  ((CompletionTx.update_standings m bracket db).1,
   run_writes (ready_writes ts) (CompletionTx.update_standings m bracket db).2).
Proof.
  unfold CompletionTx.update_standings. destruct (negb _); [done|]. unfold mbind, mwrite, mret. cbn [fst snd].
  f_equal. revert db. induction ts as [|t ts IH]; intros db; [done|].
  cbn [ready_writes fmap list_fmap run_writes foldl]. fold (ready_writes ts).
  change (foldl (λ db w, w db) ?d ?l) with (run_writes l d). by rewrite IH, derive_ready, rank_ready.
Qed.

(** What the transaction accepts, a completion does. *)
Lemma tx_validated input db m db' :
  CompletionTx.validate_match (tx_input input) db = (Ok m, db') →
  db' = db ∧ Db.matches db !! MatchCompletionInput.match_id input = Some m ∧
  (TournamentMatch.status m = TournamentMatchStatus.AwaitingResult ∧ refusal input m = None ∨
   TournamentMatch.status m = TournamentMatchStatus.InProgress ∧
     refusal input m = Some "Match in in_progress status cannot be completed").
Proof.
  unfold CompletionTx.validate_match. intros (m0 & db0 & Hg & Hv)%mbind_ok.
  cbn [tx_input MatchCompletionTxInput.match_id] in Hg.
  destruct (Db.matches db !! MatchCompletionInput.match_id input) as [m1|] eqn:Hm;
    [|by rewrite (get_match_missing _ _ Hm) in Hg].
  rewrite (get_match_found _ _ _ Hm) in Hg. injection Hg as -> ->.
  destruct (negb (match TournamentMatch.status m0 with _ => _ end)) eqn:Hs; [done|].
  cbn [tx_input MatchCompletionTxInput.winner_registration_id MatchCompletionTxInput.loser_registration_id] in Hv.
  revert Hv. destruct (negb _ || negb _) eqn:Hplays; [done|].
  destruct (bool_decide (MatchCompletionInput.winner_registration_id input =
    MatchCompletionInput.loser_registration_id input)) eqn:Hsame; [done|].
  intros [= -> ->]. split; [done|]. split; [done|].
  unfold refusal. destruct (TournamentMatch.status m); try done; [by right|left].
  split; [done|]. cbn [negb andb bool_decide]. by rewrite Hplays, Hsame.
Qed.

(** What the transaction does, a completion's work does too, and marks the
    targets. *)
Lemma transaction_work input m db out db1 :
  CompletionTx.complete_match_in_transaction (tx_input input) db = (Ok out, db1) →
  Db.matches db !! MatchCompletionInput.match_id input = Some m →
  TournamentMatch.status m ≠ TournamentMatchStatus.InProgress →
  ∃ bracket, completion_work input db =
    (Ok (m, bracket, (MatchCompletionTxOutput.winner_next_match_id out,
                      MatchCompletionTxOutput.loser_next_match_id out,
                      MatchCompletionTxOutput.standings_updated out)),
     run_writes (ready_writes (option_list (MatchCompletionTxOutput.winner_next_match_id out)
                               ++ option_list (MatchCompletionTxOutput.loser_next_match_id out))) db1).
Proof.
  unfold CompletionTx.complete_match_in_transaction.
  intros (m0 & db' & Hv & (bracket & db2 & Hb & ([] & db3 & Hc & (w & db4 & Hw & (l & db5 & Hl & (s & db6 & Hs &
    [= <- <-])%mbind_ok)%mbind_ok)%mbind_ok)%mbind_ok)%mbind_ok)%mbind_ok.
  cbn [MatchCompletionTxOutput.winner_next_match_id MatchCompletionTxOutput.loser_next_match_id
    MatchCompletionTxOutput.standings_updated]. intros Hm Hnp. exists bracket.
  destruct (tx_validated _ _ _ _ Hv) as (-> & Hm' & [[Hst Hr]|[Hst _]]); replace m0 with m in * by congruence;
    [|done].
  unfold completion_work, validated. rewrite (mbind_step _ _ db m db).
  2: { rewrite (mbind_step _ _ _ _ _ (get_match_found _ _ _ Hm)). by rewrite Hr. }
  rewrite (mbind_step _ _ _ _ _ Hb). unfold bracket_work, record_result.
  rewrite (mbind_step _ _ db2 (w, l, s) (run_writes (ready_writes (option_list w ++ option_list l)) db6)); [done|].
  assert (db2 = db) as ->.
  { unfold CompletionTx.get_bracket, find_bracket_by_id in Hb. apply mbind_ok in Hb as (o & d & [= <- <-] & Hb).
    destruct (Db.brackets db !! _); [|done]. by injection Hb. }
  rewrite (mbind_step _ _ db tt db3).
  2: { rewrite (mbind_step _ _ _ _ _ (get_match_found _ _ _ Hm)). by rewrite bool_decide_false by congruence. }
  rewrite (mbind_step _ _ _ _ _ Hw), (mbind_step _ _ _ _ _ Hl). unfold mark_ready.
  destruct (mark_ready_write (option_list w ++ option_list l) db5) as [rs Hrs].
  unfold mbind at 1. rewrite (mbind_step _ _ _ _ _ Hrs). cbn [mret].
  unfold mbind. rewrite standings_ready, Hs. done.
Qed.
End ready.
