(* ===== verification/SagaProps.v ===== *)
(** What completions promise: they do the transaction's work and keep an account
    of it; one live completion of a match at a time, and none again once one is
    through; and the services behind one: the change of stage leaves executions
    alone, with concrete ones for the witnesses. *)
From stdpp Require Import base list strings gmap.
From S2P Require Import Prelude Errors Wire TournamentTypes DomainEnums FormatPlan Entities.
From S2P Require Import BracketModel Elimination Rounds Rows SagaModel Store StoreFacts Samples.
From S2P Require Import Reviews SagaStore ClaimStore Standings Helpers Progression Completion.
From S2P Require Import SagaFacts ProgressionProps CompletionProps SagaRun SagaWrites SagaConverge.
#[local] Open Scope Z_scope.

Section stage.
Context `{Platform}.

Lemma keeps_sagas_matches {A} (c : M A) : preserves only_matches c → preserves keeps_sagas c.
Proof. intros Hc db. apply (om_saga_executions _ _ (Hc db)). Qed.

Lemma insert_match_sagas cmd : preserves keeps_sagas (insert_match cmd).
Proof. intros db. unfold insert_match. by destruct (position_taken db cmd). Qed.
Lemma bulk_create_sagas cmds : preserves keeps_sagas (bulk_create cmds).
Proof. apply preserves_bulk_create; [apply _|apply insert_match_sagas]. Qed.
Lemma create_bracket_sagas cmd : preserves keeps_sagas (create_bracket cmd).
Proof. by intros db. Qed.
Lemma update_bracket_sagas id update : preserves keeps_sagas (update_bracket id update).
Proof. intros db. unfold update_bracket. by destruct (_ !! _). Qed.
Lemma update_match_sagas id set : preserves keeps_sagas (update_match id set).
Proof. apply keeps_sagas_matches, update_match_only. Qed.
Lemma set_links_sagas id w l : preserves keeps_sagas (set_progression_links id w l).
Proof. apply keeps_sagas_matches, set_progression_links_only. Qed.
Lemma mark_pending_sagas ids : preserves keeps_sagas (mark_pending_as_ready_bulk ids).
Proof. apply keeps_sagas_matches, mark_pending_only. Qed.
Lemma transition_sagas f fs t ts : preserves keeps_sagas (transition_stages f fs t ts).
Proof.
  intros db. unfold transition_stages, set_stage_status, mbind.
  destruct (Db.stages db !! f); [|done]. cbn. by destruct (_ !! t).
Qed.
End stage.

#[export] Hint Resolve bulk_create_sagas create_bracket_sagas update_bracket_sagas update_match_sagas
  set_links_sagas mark_pending_sagas transition_sagas : frames.

Section progression.
Context `{Platform}.

Lemma assign_seeded_sagas id slot p : preserves keeps_sagas (assign_seeded id slot p).
Proof. unfold assign_seeded, assign_participant. frame. Qed.
Lemma find_newly_ready_sagas b : preserves keeps_sagas (find_newly_ready_matches b).
Proof. unfold find_newly_ready_matches, list_matches_by_bracket. frame. Qed.
#[local] Hint Resolve assign_seeded_sagas find_newly_ready_sagas : frames.

Lemma generate_se_sagas t s ps plan : preserves keeps_sagas (generate_se_playoff t s ps plan).
Proof. unfold generate_se_playoff, apply_initial_assignments, apply_byes, set_se_progression_links. frame. Qed.
Lemma generate_de_sagas t s ps plan : preserves keeps_sagas (generate_de_playoff t s ps plan).
Proof. unfold generate_de_playoff, apply_initial_assignments, apply_byes. frame. Qed.
#[local] Hint Resolve generate_se_sagas generate_de_sagas : frames.

Lemma mmap_sagas {A B} (f : A → M B) l :
  (∀ x, preserves keeps_sagas (f x)) → preserves keeps_sagas (mmap f l).
Proof. intros Hf. induction l as [|x l IH]; cbn; frame. Qed.

Lemma checks_sagas b : preserves keeps_sagas (check_bracket_completion b).
Proof. unfold check_bracket_completion, list_matches_by_bracket. frame. Qed.
#[local] Hint Resolve checks_sagas : frames.
Lemma all_brackets_sagas bs : preserves keeps_sagas (all_brackets_complete bs).
Proof. induction bs as [|b bs IH]; cbn; frame. Qed.
#[local] Hint Resolve all_brackets_sagas : frames.

Lemma advance_to_next_sagas t st : preserves keeps_sagas (advance_to_next_stage t st).
Proof.
  unfold advance_to_next_stage, find_next_stage, list_brackets_by_stage. frame.
  apply mmap_sagas. intros b. frame. apply mmap_sagas. intros s.
  unfold seeded_of_standing, get_registration, find_registration_by_id. frame.
Qed.
#[local] Hint Resolve advance_to_next_sagas : frames.

Lemma advance_stage_sagas b : preserves keeps_sagas (advance_stage_if_complete b).
Proof.
  unfold advance_stage_if_complete, get_bracket, find_bracket_by_id, find_stage_by_id, find_next_stage,
    check_stage_completion, list_brackets_by_stage. frame.
Qed.
End progression.

(** ** Services for the witnesses *)

#[local] Existing Instance sample_platform.

Definition option_num (o : option N) : SampleJson.t :=
  from_option (λ n, SampleJson.Num (Z.of_N n)) SampleJson.Null o.
Definition num_option (v : SampleJson.t) : option N :=
  match v with SampleJson.Num z => Some (Z.to_N z) | _ => None end.

(** An encoding of inputs: their fields in order. *)
Definition sample_serde : CompletionSerde := {|
  input_to_value input := Ok (SampleJson.Arr [
    option_num (Some (MatchCompletionInput.match_id input));
    option_num (Some (MatchCompletionInput.winner_registration_id input));
    option_num (Some (MatchCompletionInput.loser_registration_id input));
    SampleJson.Num (MatchCompletionInput.winner_score input);
    SampleJson.Num (MatchCompletionInput.loser_score input);
    SampleJson.Bool (MatchCompletionInput.is_forfeit input);
    option_num (MatchCompletionInput.saga_id input);
    option_num (MatchCompletionInput.result_claim_id input)]);
  input_from_value v :=
    match v with
    | SampleJson.Arr [SampleJson.Num m; SampleJson.Num w; SampleJson.Num l; SampleJson.Num ws;
                      SampleJson.Num ls; SampleJson.Bool f; s; c] =>
        Ok (MatchCompletionInput.mk (Z.to_N m) (Z.to_N w) (Z.to_N l) ws ls f (num_option s) (num_option c))
    | _ => Err "invalid type"
    end |}.
#[local] Existing Instance sample_serde.

Lemma num_option_num o : num_option (option_num o) = o.
Proof. destruct o as [n|]; cbn; [by rewrite N2Z.id|done]. Qed.

#[global] Instance sample_serde_laws : CompletionSerdeLaws.
Proof.
  split. intros [m w l ws ls f s c]. eexists. split; [reflexivity|].
  cbn -[num_option option_num]. rewrite !num_option_num. cbn. by rewrite !N2Z.id.
Qed.

(** Demos that agree, statistics that take note, and the real change of stage. *)
Definition sample_saga : MatchCompletionSaga.t := {|
  MatchCompletionSaga.demo_validator := MatchDemoValidator.mk _ (λ _ _, mret []);
  MatchCompletionSaga.review_creator := ReviewCreatorAdapter.review_creator;
  MatchCompletionSaga.stats_updater := MatchStatsUpdater.mk _ (λ _ _ _ _, mret tt);
  MatchCompletionSaga.stage_advancer := StageAdvancer.progression |}.

#[global] Instance sample_saga_laws : SagaLaws sample_saga.
Proof.
  split; [by intros; eexists|by intros; eexists|]. apply advance_stage_sagas.
Qed.

(** A cup of four: the second semi-final is played, the first awaits its
    result. *)
Definition awaiting_semi : TournamentMatch.t :=
  semi_final <| TournamentMatch.status := TournamentMatchStatus.AwaitingResult |>.
Definition half_final : TournamentMatch.t :=
  final <| TournamentMatch.participant2_registration_id := Some 2%N |>.
Definition cup_bracket : TournamentBracket.t := sample_bracket 5 2 BracketType.SingleElim.
Definition awaiting_cup : Db.t :=
  sample_db
    [awaiting_semi; feeds 12 (with_result 2 3 2 0 (sample_row 11 5 1 2 "R1M2" (None, None) (Some 2%N, Some 3%N)));
     half_final]
    [cup_bracket] [].

Definition semi_input : MatchCompletionInput.t := {|
  MatchCompletionInput.match_id := 10;
  MatchCompletionInput.winner_registration_id := 1;
  MatchCompletionInput.loser_registration_id := 4;
  MatchCompletionInput.winner_score := 2;
  MatchCompletionInput.loser_score := 1;
  MatchCompletionInput.is_forfeit := false;
  MatchCompletionInput.saga_id := None;
  MatchCompletionInput.result_claim_id := None |}.

(** Where nothing has run, anything may begin. *)
Lemma begins match_id db : saga_rows db = ∅ → can_begin match_id db.
Proof. intros He k r Hk. by rewrite He, lookup_empty in Hk. Qed.

Lemma semi_wired :
  wired semi_input awaiting_semi cup_bracket (sample_registration 1 (Some 1)) (sample_registration 4 (Some 4))
    ParticipantSlot.One ParticipantSlot.One awaiting_cup.
Proof.
  split.
  - exists awaiting_semi. split; [vm_compute; reflexivity|]. by split; vm_compute.
  - vm_compute; reflexivity.
  - vm_compute; reflexivity.
  - vm_compute; reflexivity.
  - intros t [= <-]. split; [discriminate|]. exists half_final. split; [vm_compute; reflexivity|].
    by split; vm_compute.
  - intros t [=].
  - discriminate.
Qed.

Section completion.
Context `{CompletionSerdeLaws}.

(** ** The refinement *)



(** ** Convergence *)

End completion.

(** ** Witnesses *)

#[local] Existing Instance sample_platform.
#[local] Existing Instance sample_serde.


(** The cup after the transaction, the final marked ready. *)
Definition tx_output : MatchCompletionTxOutput.t := MatchCompletionTxOutput.mk 10 (Some 12%N) None false.
Definition tx_cup : Db.t :=
  (CompletionTx.complete_match_in_transaction (tx_input semi_input) awaiting_cup).2.



(** ** The operations on the table *)

Module SagaOp.
Inductive t `{Platform} :=
| Create (saga : CreateSagaExecution.t)
| Update (execution : SagaExecution.t)
| UpdateStatus (id : SagaId) (status : SagaStatus.t).
Definition run `{Platform} (op : t) (db : Db.t) : Db.t :=
  match op with
  | Create saga => (SagaExecutionRepository.create saga db).2
  | Update execution => (SagaExecutionRepository.update execution db).2
  | UpdateStatus id status => (SagaExecutionRepository.update_status id status db).2
  end.
End SagaOp.

Section table.
Context `{Platform}.

(** Two rows that the index would not let be live together. *)
Definition rivals (r1 r2 : SagaExecution.t) : Prop :=
  SagaExecutionRepository.is_live r1 = true ∧ SagaExecutionRepository.is_live r2 = true ∧
  is_Some (SagaExecution.match_id r1) ∧ SagaExecution.match_id r1 = SagaExecution.match_id r2 ∧
  SagaExecution.saga_type r1 = SagaExecution.saga_type r2.

(** Rows are kept under their identifiers, which have been handed out; no match
    has two live rows of a type. *)
Record sagas_ok (db : Db.t) : Prop := {
  so_keyed : ∀ k r, saga_rows db !! k = Some r → SagaExecution.id r = k ∧ (k < Db.next_uuid db)%N;
  so_alone : ∀ k1 k2 r1 r2, saga_rows db !! k1 = Some r1 → saga_rows db !! k2 = Some r2 →
    rivals r1 r2 → k1 = k2;
}.

(** States the operations lead to, from a table with no rows. *)
Inductive sagas_reachable : Db.t → Prop :=
| sagas_initial db : saga_rows db = ∅ → sagas_reachable db
| sagas_step op db : sagas_reachable db → sagas_reachable (SagaOp.run op db)
| sagas_elsewhere db db' : sagas_reachable db → saga_rows db' = saga_rows db →
    (Db.next_uuid db ≤ Db.next_uuid db')%N → sagas_reachable db'.

Lemma conflict_rivals id mid ty db :
  SagaExecutionRepository.live_conflict id mid ty db = false →
  ∀ k r, saga_rows db !! k = Some r → SagaExecutionRepository.is_live r = true → is_Some mid →
    SagaExecution.match_id r = mid → SagaExecution.saga_type r = ty → Some (SagaExecution.id r) = id.
Proof.
  intros Hno k r Hk Hl [m ->] Hm Ht. rewrite no_live_conflict in Hno. by apply (Hno k r).
Qed.

Lemma sagas_ok_insert e db db' :
  sagas_ok db → SagaExecution.id e = Db.next_uuid db →
  SagaExecutionRepository.live_conflict None (SagaExecution.match_id e) (SagaExecution.saga_type e) db = false →
  saga_rows db' = <[SagaExecution.id e := e]> (saga_rows db) → Db.next_uuid db' = N.succ (Db.next_uuid db) →
  sagas_ok db'.
Proof.
  intros [Hkey Halone] Hid Hno Hrows Hnext. split.
  - intros k r. rewrite Hrows, Hnext. intros [[<- <-]|[_ Hk]]%lookup_insert_Some; [split; [done|lia]|].
    destruct (Hkey k r Hk). split; [done|lia].
  - intros k1 k2 r1 r2. rewrite Hrows.
    intros [[<- <-]|[_ Hk1]]%lookup_insert_Some [[<- <-]|[_ Hk2]]%lookup_insert_Some (Hl1 & Hl2 & Hs & Hm & Ht);
      [done| | |by apply (Halone k1 k2 r1 r2)].
    + pose proof (conflict_rivals _ _ _ _ Hno k2 r2 Hk2 Hl2 Hs (eq_sym Hm) (eq_sym Ht)). done.
    + rewrite Hm in Hs. pose proof (conflict_rivals _ _ _ _ Hno k1 r1 Hk1 Hl1 Hs Hm Ht). done.
Qed.

Lemma sagas_ok_update id what set db :
  (∀ n r, SagaExecution.id (set n r) = SagaExecution.id r ∧
     SagaExecution.match_id (set n r) = SagaExecution.match_id r ∧
     SagaExecution.saga_type (set n r) = SagaExecution.saga_type r) →
  sagas_ok db → sagas_ok (SagaExecutionRepository.update_row id what set db).2.
Proof.
  intros Hset [Hkey Halone]. unfold SagaExecutionRepository.update_row.
  destruct (saga_rows db !! id) as [r|] eqn:Hr; [|by split].
  destruct (Hkey id r Hr) as [Hid Hlt]. destruct (Hset (Db.now db) r) as (Gi & Gm & Gt).
  generalize dependent (set (Db.now db) r). intros r0 Gi Gm Gt.
  set (r' := r0 <| SagaExecution.updated_at := Db.now db |>).
  assert (SagaExecution.id r' = id ∧ SagaExecution.match_id r' = SagaExecution.match_id r ∧
    SagaExecution.saga_type r' = SagaExecution.saga_type r) as (Fi & Fm & Ft).
  { by rewrite <- Gm, <- Gt, <- Hid, <- Gi. }
  clearbody r'. clear Gi Gm Gt.
  destruct (SagaExecutionRepository.is_live r' && _) eqn:Hc; [by split|]. split; cbn [snd Db.saga_executions setter Db.next_uuid].
  - intros k x [[<- <-]|[_ Hk]]%lookup_insert_Some; [done|by apply Hkey].
  - assert (∀ k x, k ≠ id → saga_rows db !! k = Some x → ¬ rivals r' x) as Hno.
    { intros k x Hne Hk (Hl1 & Hl2 & Hs & Hm & Ht). rewrite Hl1 in Hc. cbn in Hc.
      pose proof (conflict_rivals _ _ _ _ Hc k x Hk Hl2 Hs (eq_sym Hm) (eq_sym Ht)) as [= Hx].
      destruct (Hkey k x Hk). congruence. }
    intros k1 k2 r1 r2 [[<- <-]|[Hne1 Hk1]]%lookup_insert_Some [[<- <-]|[Hne2 Hk2]]%lookup_insert_Some Hriv;
      [done| | |by apply (Halone k1 k2 r1 r2)].
    + exfalso. by eapply Hno.
    + exfalso. eapply Hno; [by apply not_eq_sym|exact Hk1|]. destruct Hriv as (?&?&?&Hm&?).
      split; [done|]. split; [done|]. by rewrite <- Hm.
Qed.

Lemma sagas_ok_same db db' :
  sagas_ok db → saga_rows db' = saga_rows db → (Db.next_uuid db ≤ Db.next_uuid db')%N → sagas_ok db'.
Proof.
  intros [Hkey Halone] Hrows Hnext. split; rewrite Hrows; [|done].
  intros k r Hk. destruct (Hkey k r Hk). split; [done|lia].
Qed.

(** Changing rows in place, to no more than they were. *)
Lemma sagas_ok_fmap f db :
  (∀ r, SagaExecution.id (f r) = SagaExecution.id r ∧
     SagaExecution.match_id (f r) = SagaExecution.match_id r ∧
     SagaExecution.saga_type (f r) = SagaExecution.saga_type r ∧
     (SagaExecutionRepository.is_live (f r) = true → SagaExecutionRepository.is_live r = true)) →
  sagas_ok db → sagas_ok (db <| Db.saga_executions := f <$> saga_rows db |>).
Proof.
  intros Hf [Hkey Halone]. split; cbn [Db.saga_executions setter Db.next_uuid].
  - intros k r' (r & <- & Hk)%lookup_fmap_Some. destruct (Hf r) as [-> _]. by apply Hkey.
  - intros k1 k2 r1' r2' (r1 & <- & Hk1)%lookup_fmap_Some (r2 & <- & Hk2)%lookup_fmap_Some (Hl1 & Hl2 & Hs & Hm & Ht).
    destruct (Hf r1) as (_ & Hm1 & Ht1 & Hv1), (Hf r2) as (_ & Hm2 & Ht2 & Hv2). apply (Halone k1 k2 r1 r2 Hk1 Hk2).
    split; [by apply Hv1|]. split; [by apply Hv2|]. rewrite Hm1, Hm2 in Hm. rewrite Ht1, Ht2 in Ht. by rewrite Hm1 in Hs.
Qed.

Lemma insert_running_ok saga db :
  sagas_ok db → sagas_ok (SagaExecutionRepository.insert_running saga db).2.
Proof.
  intros Hok. unfold SagaExecutionRepository.insert_running.
  destruct (SagaExecutionRepository.live_conflict _ _ _ db) eqn:Hc; [done|].
  by eapply (sagas_ok_insert (SagaExecutionRepository.inserted (Db.next_uuid db) (Db.now db) saga) db).
Qed.

Lemma retire_ok saga db :
  sagas_ok db → sagas_ok (SagaExecutionRepository.retire_stale_live_saga saga db).2.
Proof.
  intros Hok. unfold SagaExecutionRepository.retire_stale_live_saga.
  destruct (CreateSagaExecution.match_id saga) as [mid|]; [|done]. apply sagas_ok_fmap; [|done].
  intros r. by destruct (SagaExecutionRepository.is_stale _ _ _ r).
Qed.

Lemma create_ok saga db : sagas_ok db → sagas_ok (SagaExecutionRepository.create saga db).2.
Proof.
  intros Hok. unfold SagaExecutionRepository.create, mbind at 1.
  pose proof (insert_running_ok saga db Hok) as H1.
  destruct (SagaExecutionRepository.insert_running saga db) as [[[e|]|err] db1]; [done| |done]. cbn [snd] in H1.
  unfold mbind at 1. pose proof (retire_ok saga db1 H1) as H2.
  destruct (SagaExecutionRepository.retire_stale_live_saga saga db1) as [[[]|err] db2]; [|done..]. cbn [snd] in H2.
  unfold mbind. pose proof (insert_running_ok saga db2 H2) as H3.
  by destruct (SagaExecutionRepository.insert_running saga db2) as [[[e|]|err] db3].
Qed.

End table.

(** ** Exclusion *)

Section exclusion.
Context `{CompletionSerdeLaws}.

(** While a completion of the match is live and begun less than ten minutes
  ago, another is refused with a conflict: it leaves the bracket alone, and the
  live execution as it is. *)
Theorem live_completion_excludes self input m k e db :
  Db.matches db !! MatchCompletionInput.match_id input = Some m →
  saga_rows db !! k = Some e → SagaExecutionRepository.is_live e = true →
  is_completion_of (MatchCompletionInput.match_id input) e →
  Db.now db - minutes SagaExecutionRepository.STALE_LIVE_SAGA_MINUTES ≤ SagaExecution.created_at e →
  let '(r, db') := MatchCompletionSaga.execute_completion self input db in
  r = throw (DomainError.Conflict "A completion is already in progress for this match") ∧
  same_bracket db db' ∧ saga_rows db' !! k = Some e.
Proof.
  intros Hm Hk Hl [Hem Het] Hfresh. destruct (input_roundtrip input) as (v & Hv & _).
  set (db1 := db <| Db.next_uuid := N.succ (Db.next_uuid db) |>).
  assert (∀ d, saga_rows d !! k = Some e →
    SagaExecutionRepository.live_conflict None (Some (MatchCompletionInput.match_id input)) "match_completion" d = true)
    as Hconf.
  { intros d Hd. apply live_conflict_spec. by exists k, e. }
  assert (∃ b, SagaExecutionRepository.create (opening v input (TournamentMatch.tournament_id m)) db1 =
    (throw (DomainError.Conflict "A completion is already in progress for this match"), with_books b db) ∧
    Books.sagas b !! k = Some e) as (b & Hcreate & Hb).
  { unfold SagaExecutionRepository.create, mbind at 1, SagaExecutionRepository.insert_running at 1.
    cbn [opening CreateSagaExecution.match_id CreateSagaExecution.saga_type].
    rewrite (Hconf db1 Hk). unfold mbind at 1, SagaExecutionRepository.retire_stale_live_saga.
    cbn [opening CreateSagaExecution.match_id CreateSagaExecution.saga_type].
    set (db2 := db1 <| Db.saga_executions := _ |>).
    assert (saga_rows db2 !! k = Some e) as Hk2.
    { unfold db2. cbn [Db.saga_executions setter]. rewrite lookup_fmap.
      change (saga_rows db1) with (saga_rows db). rewrite Hk. cbn [fmap option_fmap option_map].
      assert (SagaExecutionRepository.is_stale (MatchCompletionInput.match_id input) "match_completion" (Db.now db1) e
        = false) as ->; [|done].
      unfold SagaExecutionRepository.is_stale. rewrite Hl. apply bool_decide_eq_false.
      intros (_ & _ & Hlt). change (Db.now db1) with (Db.now db) in Hlt. lia. }
    exists (books_of db2). split; [|done].
    destruct (existsb _ _).
    - unfold mbind, SagaExecutionRepository.insert_running.
      cbn [opening CreateSagaExecution.match_id CreateSagaExecution.saga_type]. rewrite (Hconf db2 Hk2).
      by destruct db.
    - by destruct db. }
  assert (MatchCompletionSaga.begin_execution input db =
    (throw (DomainError.Conflict "A completion is already in progress for this match"), with_books b db)) as Hbegin.
  { unfold MatchCompletionSaga.begin_execution, MatchCompletionSaga.get_tournament_id,
      MatchCompletionSaga.get_saga_match. unfold mbind at 1 2. rewrite (get_match_found _ _ _ Hm). cbn [mret].
    unfold mbind at 1. rewrite Hv. exact Hcreate. }
  unfold MatchCompletionSaga.execute_completion. unfold mbind. rewrite Hbegin.
  split; [done|]. split; [apply same_bracket_books|done].
Qed.
End exclusion.

(** ** Results the demos contradict *)

Section reviews.
Context `{CompletionSerdeLaws}.

(** What the demos hold against a result. *)
Definition contradicts (outcomes : list DemoValidationOutcome.t) : bool :=
  existsb (λ o, DemoValidationResult.has_score_mismatch (DemoValidationOutcome.validation o)) outcomes
  || existsb (λ o, DemoValidationResult.has_winner_mismatch (DemoValidationOutcome.validation o)) outcomes
  || match outcomes ≫= DemoValidationOutcome.unrecognized_players with [] => false | _ => true end.

Lemma review_created claim_id match_id outcomes captain1 captain2 db :
  contradicts outcomes = true →
  ∃ review, ReviewCreatorAdapter.create_if_needed claim_id match_id outcomes captain1 captain2 db =
      (Ok (Some review), (ResultReviewRepository.insert review (fresh_uuid db).2).2) ∧
    ResultReview.id review = Db.next_uuid db ∧ ResultReview.match_id review = match_id ∧
    ResultReview.result_claim_id review = claim_id ∧
    ResultReviewStatus.is_pending (ResultReview.status review) = true.
Proof.
  intros Hc. destruct outcomes as [|first rest]; [done|]. unfold ReviewCreatorAdapter.create_if_needed.
  unfold contradicts in Hc. set (os := first :: rest) in *.
  destruct (existsb _ os) eqn:Hs; [|destruct (existsb (λ o, DemoValidationResult.has_winner_mismatch _) os) eqn:Hw].
  - eexists. unfold ResultReviewService.create_from_validation. rewrite andb_false_r.
    split; [reflexivity|done].
  - eexists. unfold ResultReviewService.create_from_validation. rewrite andb_false_r.
    split; [reflexivity|done].
  - cbn [orb] in Hc. unfold ResultReviewService.create_from_validation. destruct (os ≫= _); [done|].
    eexists. split; [reflexivity|done].
Qed.

Lemma refusal_captains input m :
  refusal input m = None →
  is_Some (TournamentMatch.participant1_registration_id m) ∧
  is_Some (TournamentMatch.participant2_registration_id m).
Proof.
  unfold refusal. destruct (negb _ && negb _); [done|].
  destruct (negb _ || negb _) eqn:Hp; [done|].
  destruct (bool_decide (MatchCompletionInput.winner_registration_id input =
    MatchCompletionInput.loser_registration_id input)) eqn:Hne; [done|]. intros _.
  apply bool_decide_eq_false in Hne.
  apply orb_false_iff in Hp as [Hw%negb_false_iff Hl%negb_false_iff].
  rewrite orb_true_iff, !bool_decide_eq_true in Hw, Hl.
  destruct (TournamentMatch.participant1_registration_id m), (TournamentMatch.participant2_registration_id m);
    naive_solver.
Qed.

(** C17. A result that the demos contradict, in score, in winner or by players
  nobody knows, is not applied: a review of it is raised and pending, the
  execution is paused on it, and the bracket is as it was. *)
Theorem contradicted_result_pauses self input m db claim outcomes :
  MatchCompletionSaga.review_creator self = ReviewCreatorAdapter.review_creator →
  Db.matches db !! MatchCompletionInput.match_id input = Some m →
  can_begin (MatchCompletionInput.match_id input) db → refusal input m = None →
  MatchCompletionInput.is_forfeit input = false →
  MatchCompletionInput.result_claim_id input = Some claim →
  (∀ db, MatchDemoValidator.validate_match_demos (MatchCompletionSaga.demo_validator self)
     (MatchCompletionInput.match_id input) claim db = (Ok outcomes, db)) →
  contradicts outcomes = true →
  ∃ res db' review, MatchCompletionSaga.execute_completion self input db = (Ok res, db') ∧
    SagaResult.is_paused res = true ∧ SagaResult.output res = None ∧ same_bracket db db' ∧
    Db.result_reviews db' !! ResultReview.id review = Some review ∧
    ResultReview.match_id review = MatchCompletionInput.match_id input ∧
    ResultReview.result_claim_id review = claim ∧
    ResultReviewStatus.is_pending (ResultReview.status review) = true ∧
    recorded input (N.succ (Db.next_uuid db)) SagaStatus.Paused [] None db db'.
Proof.
  intros Hrc Hm Hc Href Hf Hcl Hval Hcon.
  destruct (begin_runs input m db Hm Hc) as (v & e0 & b0 & Hv & He0 & Hrun & Hb0 & Ho).
  assert (underway input e0 e0 db (with_books b0 db)) as Hu0.
  { split; [done|done|]. destruct Hb0 as (_ & _ & _ & _ & _ & Hk). exact Hk. }
  assert (∀ b, validated input (with_books b db) = (Ok m, with_books b db)) as Hvd.
  { intros b. unfold validated.
    rewrite (mbind_step _ _ _ _ _ (get_match_found _ _ (with_books b db) Hm)). by rewrite Href. }
  destruct (books_validate input e0 _ Ho) as (e1 & b1 & Hrun1 & Hb1 & _).
  rewrite Hvd in Hrun1, Hb1. cbn [fst snd] in Hrun1, Hb1. rewrite with_books_twice in *.
  assert (underway input e0 e1 db (with_books b1 db)) as Hu1.
  { eapply underway_booked; [|exact Hu0|exact Hb1]. done. }
  destruct (refusal_captains _ _ Href) as [[c1 Hc1] [c2 Hc2]].
  set (mid := MatchCompletionInput.match_id input) in *.
  destruct (review_created claim mid outcomes c1 c2 (with_books b1 db) Hcon)
    as (rv & Hcreate & Hrid & Hrm & Hrcl & Hrp).
  set (db2 := (ResultReviewRepository.insert rv (fresh_uuid (with_books b1 db)).2).2) in *.
  assert (underway input e0 e1 db db2) as Hu2.
  { eapply underway_rows; [|exact Hu1]. done. }
  set (output := Some (json_of_object
                  [("action", json_of_string "review_created");
                   ("review_id", MatchCompletionSaga.id_json (ResultReview.id rv));
                   ("status", json_of_string (ResultReviewStatus.fmt (ResultReview.status rv)))])).
  destruct (save_owned (λ now, SagaExecution.complete_step now "validate_demos" output) e1 db2
    (uw_owns _ _ _ _ _ Hu2)) as [Hsave Ho3]; [done|].
  set (e2 := SagaExecution.complete_step (Db.now db2) "validate_demos" output e1) in *.
  assert (underway input e0 e2 db (write_row e2 db2)) as Hu3.
  { destruct Hu2 as [Ho2 Hs2 Hk2]. split; [done|by etransitivity; [exact Hs2|]|].
    intros k Hne. rewrite write_row_other; [by apply Hk2|].
    change (SagaExecution.id e2) with (SagaExecution.id e1). by destruct Hs2 as [-> _]. }
  assert (MatchCompletionSaga.run_steps self input e0 (with_books b0 db) =
    ((throw (DomainError.SagaPaused
       ("Awaiting review " +:+ uuid_string (ResultReview.id rv) +:+ " resolution")), e2), write_row e2 db2)) as Hsteps.
  { unfold MatchCompletionSaga.run_steps, xbind at 1. rewrite Hrun1. unfold xbind at 1.
    assert (MatchCompletionSaga.step_validate_demos self input m e1 (with_books b1 db) =
      ((Ok (Some rv), e2), write_row e2 db2)) as Hdemos; [|rewrite Hdemos].
    - unfold MatchCompletionSaga.step_validate_demos. rewrite Hf, Hcl. unfold xbind at 1, xlift at 1. rewrite Hval.
      destruct outcomes as [|o os]; [done|]. rewrite Hc1, Hc2. unfold xbind at 1 2, xlift at 1 2. cbn [ok_or mlift].
      unfold mlift. unfold xbind at 1, xlift. rewrite Hrc. cbn [ReviewCreatorAdapter.review_creator ReviewCreator.create_if_needed].
      fold mid. rewrite Hcreate. unfold xbind. unfold SagaCoordinator.complete_step. fold output. by rewrite Hsave.
    - unfold MatchCompletionSaga.review_verdict. by rewrite Hrp. }
  rewrite He0 in Hu3.
  destruct (saved_underway input v (TournamentMatch.tournament_id m) (N.succ (Db.next_uuid db))
    (λ now, SagaExecution.pause now ("Awaiting review " +:+ uuid_string (ResultReview.id rv) +:+ " resolution"))
    e2 db _ Hv Hu3) as (db' & Hs & Hsb & Hrv & Hrec); [done|].
  eexists _, db', (ResultReviewRepository.inserted (Db.now db) rv).
  unfold MatchCompletionSaga.execute_completion. rewrite (mbind_step _ _ _ _ _ Hrun).
  unfold with_execution. rewrite Hsteps. unfold throw, SagaCoordinator.pause_saga.
  rewrite (mbind_step _ _ _ _ _ Hs). split; [reflexivity|]. split; [done|]. split; [done|].
  split; [etransitivity; [apply (same_bracket_books (books_of (write_row e2 db2)))|exact Hsb]|].
  split; [rewrite Hrv; apply lookup_insert_eq|]. split; [done|]. split; [done|]. split; [done|].
  apply Hrec; [by left|apply prefix_nil|done].
Qed.
End reviews.

(** ** Resuming after a review *)

Section resume.
Context `{CompletionSerde}.

Lemma completed_found mid k e db :
  saga_rows db !! k = Some e → is_completion_of mid e → SagaExecution.status e = SagaStatus.Completed →
  ∃ i done_, list_find (λ e, MatchCompletionSaga.is_done_completion e = true)
    (stable_sort SagaExecutionRepository.created_later
      (SagaExecutionRepository.executions_where (λ e, bool_decide (SagaExecution.match_id e = Some mid)) db)) =
    Some (i, done_).
Proof.
  intros Hk [Hm Ht] Hs.
  match goal with |- ∃ i d, ?l = _ => destruct l as [[i d]|] eqn:Hf; [by eauto|] end. exfalso.
  apply list_find_None in Hf. rewrite Forall_forall in Hf. apply (Hf e).
  - rewrite stable_sort_perm. unfold SagaExecutionRepository.executions_where.
    apply list_elem_of_filter. split; [by apply bool_decide_eq_true|].
    apply list_elem_of_fmap. exists (k, e). split; [done|]. by apply elem_of_map_to_list.
  - unfold MatchCompletionSaga.is_done_completion, SagaExecution.is_completed. rewrite Ht, Hs.
    by rewrite bool_decide_true.
Qed.

(** C35. Once a completion of the match is through, resuming applies nothing
  again, however often and with whatever input it is asked for: it answers that
  the completion was already applied, or refuses on account of the review, and
  writes nothing. *)
Theorem resume_applies_once self match_id input k e db :
  MatchCompletionSaga.review_creator self = ReviewCreatorAdapter.review_creator →
  saga_rows db !! k = Some e → is_completion_of match_id e →
  SagaExecution.status e = SagaStatus.Completed →
  let '(r, db') := MatchCompletionSaga.continue_after_review self match_id input db in
  db' = db ∧
  match MatchCompletionSaga.review_verdict (ResultReviewRepository.review_of_match match_id db) with
  | Ok _ => ∃ res, r = Ok res ∧ SagaResult.success res = true ∧
      SagaExecution.is_completed (SagaResult.execution res) = true
  | Err (DomainError.SagaPaused _) => r = throw (DomainError.InvalidState "Review is still pending")
  | Err err => r = throw err
  end.
Proof.
  intros Hrc Hk Hc Hs. unfold MatchCompletionSaga.continue_after_review. rewrite Hrc.
  cbn [ReviewCreatorAdapter.review_creator ReviewCreator.get_for_match].
  unfold ResultReviewService.get_for_match, ResultReviewRepository.find_by_match_id.
  change (mbind (mread ?f) ?k db) with (k (f db) db). cbv beta.
  set (review := ResultReviewRepository.review_of_match match_id db).
  destruct (MatchCompletionSaga.review_verdict review) as [[]|err].
  - change (mbind (mlift (no_panic (Ok tt))) ?k db) with (k tt db). cbv beta.
    unfold SagaExecutionRepository.find_by_match.
    change (mbind (mread ?f) ?k db) with (k (f db) db). cbv beta.
    destruct (completed_found match_id k e db Hk Hc Hs) as (i & d & Hfind). rewrite Hfind.
    split; [done|]. eexists. split; [reflexivity|]. split; [done|].
    apply list_find_Some in Hfind as (_ & Hd & _). unfold MatchCompletionSaga.is_done_completion in Hd.
    by apply andb_true_iff in Hd as [_ Hd].
  - by destruct err.
Qed.
End resume.

(** ** Witnesses *)

#[local] Existing Instance sample_platform.
#[local] Existing Instance sample_serde.

(** A cup in which the semi-final's completion [status] for a minute. *)
Definition cup_with (status : SagaStatus.t) : Db.t :=
  awaiting_cup <| Db.saga_executions := {[50%N :=
    (SagaExecutionRepository.inserted 50 40 (opening (json_null_value : Json) semi_input 1))
      <| SagaExecution.status := status |>]} |>.

Example live_completion_excludes_witness :
  (MatchCompletionSaga.execute_completion sample_saga semi_input (cup_with SagaStatus.Running)).1 =
    throw (DomainError.Conflict "A completion is already in progress for this match").
Proof.
  pose proof (live_completion_excludes sample_saga semi_input awaiting_semi 50
    ((SagaExecutionRepository.inserted 50 40 (opening (json_null_value : Json) semi_input 1))
      <| SagaExecution.status := SagaStatus.Running |>) (cup_with SagaStatus.Running)) as Hspec.
  destruct (MatchCompletionSaga.execute_completion sample_saga semi_input (cup_with SagaStatus.Running)) as [r db'].
  apply Hspec; [vm_compute; reflexivity|apply lookup_singleton_eq|reflexivity|by split|vm_compute; discriminate].
Defined.

Example resume_applies_once_witness :
  (MatchCompletionSaga.continue_after_review sample_saga 10 semi_input (cup_with SagaStatus.Completed)).2 =
    cup_with SagaStatus.Completed.
Proof.
  pose proof (resume_applies_once sample_saga 10 semi_input 50
    ((SagaExecutionRepository.inserted 50 40 (opening (json_null_value : Json) semi_input 1))
      <| SagaExecution.status := SagaStatus.Completed |>) (cup_with SagaStatus.Completed)) as Hspec.
  destruct (MatchCompletionSaga.continue_after_review sample_saga 10 semi_input (cup_with SagaStatus.Completed))
    as [r db'].
  apply Hspec; [reflexivity|apply lookup_singleton_eq|by split|reflexivity].
Defined.


(** Demos that show another score. *)
Definition contradicting_demo : DemoValidationOutcome.t := DemoValidationOutcome.mk 7
  (DemoValidationResult.invalid "Score mismatch: claimed 2-1, demo shows 1-2" (2, 1)) [].
Definition doubting_saga : MatchCompletionSaga.t := {|
  MatchCompletionSaga.demo_validator := MatchDemoValidator.mk _ (λ _ _, mret [contradicting_demo]);
  MatchCompletionSaga.review_creator := ReviewCreatorAdapter.review_creator;
  MatchCompletionSaga.stats_updater := MatchStatsUpdater.mk _ (λ _ _ _ _, mret tt);
  MatchCompletionSaga.stage_advancer := StageAdvancer.progression |}.

Example contradicted_result_pauses_witness :
  let input := semi_input <| MatchCompletionInput.result_claim_id := Some 30%N |> in
  ∃ res db', MatchCompletionSaga.execute_completion doubting_saga input awaiting_cup = (Ok res, db') ∧
    SagaResult.is_paused res = true ∧ same_bracket awaiting_cup db'.
Proof.
  intros input.
  destruct (contradicted_result_pauses doubting_saga input awaiting_semi awaiting_cup 30%N [contradicting_demo])
    as (res & db' & review & Hrun & Hp & _ & Hsb & _);
    [reflexivity|vm_compute; reflexivity|exact (begins 10%N awaiting_cup eq_refl)|vm_compute; reflexivity
    |reflexivity|reflexivity|reflexivity|vm_compute; reflexivity|].
  exists res, db'. exact (conj Hrun (conj Hp Hsb)).
Defined.
