(* ===== verification/ReviewProps.v ===== *)
(** What reviews promise: both captains or one administrator settle them, and a
    decided one stays decided. *)
From stdpp Require Import base list strings gmap.
From S2P Require Import Prelude Errors Wire TournamentTypes Entities DomainEnums FormatPlan Rows SagaModel.
From S2P Require Import Store StoreFacts Samples Reviews.
#[local] Open Scope Z_scope.

Module ReviewOp.
Inductive t :=
| CreateFromValidation (claim : ResultClaimId) (match_id : TournamentMatchId) (link : option DemoMatchLinkId)
    (validation : DemoValidationResult.t) (score winner : bool) (players : list UnrecognizedPlayer.t)
    (captain1 captain2 : TournamentRegistrationId)
| CreateStall (claim : ResultClaimId) (match_id : TournamentMatchId) (captain1 captain2 : TournamentRegistrationId)
| Acknowledge (id : ResultReviewId) (registration : TournamentRegistrationId) (user : UserId)
| Approve (id : ResultReviewId) (admin : UserId) (notes : option string)
| Reject (id : ResultReviewId) (admin : UserId) (notes : option string).
Definition run `{Platform} (op : t) (db : Db.t) : Db.t :=
  match op with
  | CreateFromValidation c m l v s w ps c1 c2 =>
      (ResultReviewService.create_from_validation c m l v s w ps c1 c2 db).2
  | CreateStall c m c1 c2 => (ResultReviewService.create_for_progression_stall c m c1 c2 db).2
  | Acknowledge id r u => (ResultReviewService.acknowledge id r u db).2
  | Approve id a n => (ResultReviewService.approve id a n db).2
  | Reject id a n => (ResultReviewService.reject id a n db).2
  end.
End ReviewOp.

Section reviews.
Context `{Platform}.

Abbreviation reviews := Db.result_reviews.

Definition reviews_fresh (db : Db.t) : Prop :=
  ∀ k r, reviews db !! k = Some r → (k < Db.next_uuid db)%N.

Lemma get_review_found id r db :
  reviews db !! id = Some r → ResultReviewService.get_review id db = (Ok r, db).
Proof.
  intros Hr. unfold ResultReviewService.get_review, ResultReviewRepository.find_by_id.
  change (mbind (mread ?f) ?k db) with (k (f db) db). cbv beta. by rewrite Hr.
Qed.
Lemma get_review_missing id db :
  reviews db !! id = None → ResultReviewService.get_review id db =
    (throw (DomainError.ResultReviewNotFound id), db).
Proof.
  intros Hr. unfold ResultReviewService.get_review, ResultReviewRepository.find_by_id.
  change (mbind (mread ?f) ?k db) with (k (f db) db). cbv beta. by rewrite Hr.
Qed.

(** ** Acknowledgments *)

(** A row after captain [side]'s acknowledgment: the second of the two settles
    it. *)
Definition acknowledged_by (side : Z) (user : UserId) (now : DateTime) (r : ResultReview.t) : ResultReview.t :=
  let other := if bool_decide (side = 1) then ResultReview.captain2_acknowledged r
               else ResultReview.captain1_acknowledged r in
  let r := ResultReviewRepository.set_acknowledged side user now r in
  if other then ResultReviewRepository.set_review_status ResultReviewStatus.Acknowledged now r else r.

Lemma captain_side_cases r registration side :
  ResultReview.get_captain_side r registration = Some side → side = 1 ∨ side = 2.
Proof. unfold ResultReview.get_captain_side. repeat case_bool_decide; naive_solver. Qed.

(** What a captain's acknowledgment does, on every branch: only a review
  pending acknowledgment takes one, only from its captains, from each of them
  once; the row is written for that captain alone, and becomes acknowledged
  exactly with the second. *)
Theorem acknowledge_spec id registration user db :
  ResultReviewService.acknowledge id registration user db =
  match reviews db !! id with
  | None => (throw (DomainError.ResultReviewNotFound id), db)
  | Some r =>
      if bool_decide (ResultReview.status r = ResultReviewStatus.PendingAcknowledgment) then
        match ResultReview.get_captain_side r registration with
        | None => (throw (DomainError.NotAuthorized ("Registration " +:+ uuid_string registration
                      +:+ " is not a captain for this review")), db)
        | Some side =>
            if ResultReview.is_captain_acknowledged r side
            then (throw (DomainError.ReviewAlreadyAcknowledged side), db)
            else
              let r' := acknowledged_by side user (Db.now db) r in
              (Ok r', db <| Db.result_reviews := <[id := r']> (reviews db) |>)
        end
      else (throw (DomainError.InvalidReviewState (ResultReviewStatus.fmt (ResultReview.status r))
                     "review is not pending acknowledgment"), db)
  end.
Proof.
  unfold ResultReviewService.acknowledge. destruct (reviews db !! id) as [r|] eqn:Hr.
  2: { unfold mbind. by rewrite (get_review_missing _ _ Hr). }
  rewrite (mbind_step _ _ _ _ _ (get_review_found _ _ _ Hr)).
  destruct (bool_decide (ResultReview.status r = _)); [|done]. cbn [negb].
  destruct (ResultReview.get_captain_side r registration) as [side|] eqn:Hside; [|done].
  unfold mbind at 1. cbn [ok_or mlift]. unfold mlift.
  destruct (ResultReview.is_captain_acknowledged r side); [done|].
  pose proof (captain_side_cases _ _ _ Hside) as Hcase.
  unfold ResultReviewRepository.update_captain_acknowledgment. rewrite bool_decide_true by done.
  assert (∀ f, alter f id (reviews db) = <[id := f r]> (reviews db)) as Halter.
  { intros f. apply map_eq. intros k. destruct (decide (id = k)) as [->|Hk].
    - by rewrite lookup_alter_eq, lookup_insert_eq, Hr.
    - by rewrite lookup_alter_ne, lookup_insert_ne. }
  unfold acknowledged_by. set (r1 := ResultReviewRepository.set_acknowledged side user (Db.now db) r).
  set (db1 := db <| Db.result_reviews := <[id := r1]> (reviews db) |>).
  assert (ResultReviewRepository.update_row id (ResultReviewRepository.set_acknowledged side user) db = (Ok tt, db1))
    as Hrun.
  { unfold ResultReviewRepository.update_row, mwrite. by rewrite Halter. }
  rewrite (mbind_step _ _ _ _ _ Hrun).
  assert ((if bool_decide (side = 1) then ResultReview.captain2_acknowledged r
           else if bool_decide (side = 2) then ResultReview.captain1_acknowledged r else false) =
    (if bool_decide (side = 1) then ResultReview.captain2_acknowledged r else ResultReview.captain1_acknowledged r))
    as -> by (destruct Hcase as [-> | ->]; done).
  destruct (if bool_decide (side = 1) then _ else _).
  - set (r2 := ResultReviewRepository.set_review_status ResultReviewStatus.Acknowledged (Db.now db) r1).
    set (db2 := db <| Db.result_reviews := <[id := r2]> (reviews db) |>).
    assert (ResultReviewRepository.update_status id ResultReviewStatus.Acknowledged db1 = (Ok tt, db2)) as Hrun2.
    { unfold ResultReviewRepository.update_status, ResultReviewRepository.update_row, mwrite, db1, db2.
      cbn [Db.result_reviews Db.now setter]. by rewrite alter_insert_eq. }
    rewrite (mbind_step _ _ _ _ _ Hrun2). apply get_review_found. unfold db2. apply lookup_insert_eq.
  - change (mbind (mret tt) ?k db1) with (k tt db1). cbv beta. apply get_review_found. unfold db1. apply lookup_insert_eq.
Qed.

(** ** Decisions *)

Lemma decide_spec status id admin notes db :
  ResultReviewService.decide_review status id admin notes db =
  match reviews db !! id with
  | None => (throw (DomainError.ResultReviewNotFound id), db)
  | Some r =>
      if ResultReviewStatus.is_terminal (ResultReview.status r)
      then (throw (DomainError.InvalidReviewState (ResultReviewStatus.fmt (ResultReview.status r))
                     "review has already been resolved"), db)
      else
        let r' := ResultReviewRepository.set_resolved status admin notes (Db.now db) r in
        (Ok r', db <| Db.result_reviews := <[id := r']> (reviews db) |>)
  end.
Proof.
  unfold ResultReviewService.decide_review. destruct (reviews db !! id) as [r|] eqn:Hr.
  2: { unfold mbind. by rewrite (get_review_missing _ _ Hr). }
  rewrite (mbind_step _ _ _ _ _ (get_review_found _ _ _ Hr)).
  destruct (ResultReviewStatus.is_terminal _); [done|].
  set (r' := ResultReviewRepository.set_resolved status admin notes (Db.now db) r).
  set (db1 := db <| Db.result_reviews := <[id := r']> (reviews db) |>).
  assert (ResultReviewRepository.resolve id status admin notes db = (Ok tt, db1)) as Hrun.
  { unfold ResultReviewRepository.resolve, ResultReviewRepository.update_row, mwrite, db1.
    assert (alter (ResultReviewRepository.set_resolved status admin notes (Db.now db)) id (reviews db) =
      <[id := r']> (reviews db)) as ->; [|done].
    apply map_eq. intros k. destruct (decide (id = k)) as [->|Hk].
    - by rewrite lookup_alter_eq, lookup_insert_eq, Hr.
    - by rewrite lookup_alter_ne, lookup_insert_ne. }
  rewrite (mbind_step _ _ _ _ _ Hrun). apply get_review_found. unfold db1. apply lookup_insert_eq.
Qed.

Definition decided (r : ResultReview.t) : Prop :=
  ResultReviewStatus.is_terminal (ResultReview.status r) = true.

(** What one operation may make of a review: nothing once it is decided; an
    administrator decides, the captains acknowledge what is theirs to. *)
Definition review_step (r r' : ResultReview.t) : Prop :=
  ¬ decided r ∧ ResultReview.match_id r' = ResultReview.match_id r ∧
  (decided r' ∨
   ResultReview.status r = ResultReviewStatus.PendingAcknowledgment ∧
   ResultReview.status r' ∈ [ResultReviewStatus.PendingAcknowledgment; ResultReviewStatus.Acknowledged]).

(** The table after an operation: as it was, with a new row, or with one row a
    step further. *)
Inductive table_step (db db' : Db.t) : Prop :=
| table_same : reviews db' = reviews db → table_step db db'
| table_new r : reviews db' = <[Db.next_uuid db := r]> (reviews db) →
    (Db.next_uuid db < Db.next_uuid db')%N → table_step db db'
| table_row id r r' : reviews db !! id = Some r → review_step r r' →
    reviews db' = <[id := r']> (reviews db) → table_step db db'.

Lemma acknowledged_step side user now r :
  ResultReview.status r = ResultReviewStatus.PendingAcknowledgment →
  review_step r (acknowledged_by side user now r).
Proof.
  intros Hs. split; [unfold decided; rewrite Hs; discriminate|].
  unfold acknowledged_by, ResultReviewRepository.set_acknowledged.
  destruct (if bool_decide (side = 1) then ResultReview.captain2_acknowledged r else _);
    destruct (bool_decide (side = 1)); (split; [done|right; split; [done|]]).
  1, 2: apply elem_of_cons; right; by apply list_elem_of_singleton.
  all: apply elem_of_cons; by left.
Qed.

Lemma decide_step status admin notes now r :
  ResultReviewStatus.is_terminal status = true → ResultReviewStatus.is_terminal (ResultReview.status r) = false →
  review_step r (ResultReviewRepository.set_resolved status admin notes now r).
Proof. intros Hs Hr. split; [unfold decided; by rewrite Hr|]. split; [done|by left]. Qed.

Lemma decide_table status id admin notes db :
  ResultReviewStatus.is_terminal status = true →
  table_step db (ResultReviewService.decide_review status id admin notes db).2.
Proof.
  intros Hs. rewrite decide_spec. destruct (reviews db !! id) as [r|] eqn:Hr; [|by apply table_same].
  destruct (ResultReviewStatus.is_terminal (ResultReview.status r)) eqn:Ht; [by apply table_same|].
  eapply table_row; [exact Hr|by eapply decide_step|reflexivity].
Qed.

Lemma op_step op db :
  table_step db (ReviewOp.run op db) ∧ (Db.next_uuid db ≤ Db.next_uuid (ReviewOp.run op db))%N.
Proof.
  destruct op as [c m l v s w ps c1 c2|c m c1 c2|id reg user|id a n|id a n]; cbn [ReviewOp.run].
  - unfold ResultReviewService.create_from_validation.
    destruct (_ && _ && _); [by split; [apply table_same|]|]. split; [|cbn; lia].
    destruct (s || w); (eapply table_new; [reflexivity|cbn; lia]).
  - unfold ResultReviewService.create_for_progression_stall, ResultReviewRepository.find_by_match_id.
    change (mbind (mread ?f) ?k db) with (k (f db) db). cbv beta.
    destruct (ResultReviewRepository.review_of_match m db); [by split; [apply table_same|]|].
    split; [|cbn; lia]. eapply table_new; [reflexivity|cbn; lia].
  - rewrite acknowledge_spec. destruct (reviews db !! id) as [r|] eqn:Hr; [|by split; [apply table_same|]].
    case_bool_decide as Hs; [|by split; [apply table_same|]].
    destruct (ResultReview.get_captain_side r reg) as [side|]; [|by split; [apply table_same|]].
    destruct (ResultReview.is_captain_acknowledged r side); [by split; [apply table_same|]|].
    split; [|done]. eapply table_row; [exact Hr|by apply acknowledged_step|reflexivity].
  - split; [by apply decide_table|]. unfold ResultReviewService.approve, ResultReviewService.reject. rewrite decide_spec. destruct (reviews db !! id) as [r|]; [|done].
    by destruct (ResultReviewStatus.is_terminal _).
  - split; [by apply decide_table|]. unfold ResultReviewService.approve, ResultReviewService.reject. rewrite decide_spec. destruct (reviews db !! id) as [r|]; [|done].
    by destruct (ResultReviewStatus.is_terminal _).
Qed.

Lemma op_fresh op db : reviews_fresh db → reviews_fresh (ReviewOp.run op db).
Proof.
  intros Hf k r Hk. destruct (op_step op db) as [[Hs|r0 Hs Hn|id r1 r2 Hr _ Hs] Hle]; rewrite Hs in Hk.
  - pose proof (Hf k r Hk). lia.
  - apply lookup_insert_Some in Hk as [[<- _]|[_ Hk]]; [done|]. pose proof (Hf k r Hk). lia.
  - apply lookup_insert_Some in Hk as [[<- _]|[_ Hk]]; [pose proof (Hf _ _ Hr)|pose proof (Hf k r Hk)]; lia.
Qed.

Lemma op_row op db id r :
  reviews_fresh db → reviews db !! id = Some r →
  ∃ r', reviews (ReviewOp.run op db) !! id = Some r' ∧ rtc review_step r r'.
Proof.
  intros Hf Hr. destruct (op_step op db) as [[Hs|r0 Hs Hn|id' r1 r2 Hr1 Hst Hs] _]; rewrite Hs.
  - by exists r.
  - exists r. split; [|done]. rewrite lookup_insert_ne; [done|]. pose proof (Hf id r Hr). lia.
  - destruct (decide (id' = id)) as [->|Hne].
    + exists r2. rewrite lookup_insert_eq. split; [done|]. simplify_eq. by apply rtc_once.
    + exists r. by rewrite lookup_insert_ne.
Qed.

(** The operations in turn. *)
Definition run_ops (ops : list ReviewOp.t) (db : Db.t) : Db.t := foldl (λ db op, ReviewOp.run op db) db ops.

Lemma ops_row ops db id r :
  reviews_fresh db → reviews db !! id = Some r →
  ∃ r', reviews (run_ops ops db) !! id = Some r' ∧ rtc review_step r r'.
Proof.
  revert db r. induction ops as [|op ops IH]; intros db r Hf Hr; [by exists r|]. cbn.
  destruct (op_row op db id r Hf Hr) as (r1 & Hr1 & Hs1).
  destruct (IH _ _ (op_fresh op db Hf) Hr1) as (r2 & Hr2 & Hs2). exists r2. split; [done|by etransitivity].
Qed.

Lemma steps_decided r r' : decided r → rtc review_step r r' → r' = r.
Proof. intros Hd Hs. inversion Hs as [|? r1 ? [Hnd _]]; by subst. Qed.

Lemma steps_admin r r' :
  ResultReview.status r = ResultReviewStatus.PendingAdminReview → rtc review_step r r' →
  ResultReview.status r' = ResultReviewStatus.PendingAdminReview ∨ decided r'.
Proof.
  intros Hs Hst. inversion Hst as [|? r1 ? (_ & _ & [Hd|[Hp _]]) Hrest]; subst; [by left| |congruence].
  right. by rewrite (steps_decided _ _ Hd Hrest).
Qed.

(** Through any sequence of the service's operations, on this review and on
  others: a review that has been approved or rejected stays exactly as it is,
  its decision, its administrator and its notes included; and one that waits for
  an administrator is settled by no captain. *)
Theorem decided_reviews_stay ops db id r :
  reviews_fresh db → reviews db !! id = Some r →
  (decided r → reviews (run_ops ops db) !! id = Some r) ∧
  (ResultReview.status r = ResultReviewStatus.PendingAdminReview →
   ∃ r', reviews (run_ops ops db) !! id = Some r' ∧
     (ResultReview.status r' = ResultReviewStatus.PendingAdminReview ∨ decided r')).
Proof.
  intros Hf Hr. destruct (ops_row ops db id r Hf Hr) as (r' & Hr' & Hs). split.
  - intros Hd. by rewrite (steps_decided _ _ Hd Hs) in Hr'.
  - intros Hp. exists r'. split; [done|]. by eapply steps_admin.
Qed.
End reviews.

(** ** Witnesses *)

#[local] Existing Instance sample_platform.

Definition roster_review (status : ResultReviewStatus.t) : ResultReview.t :=
  (ResultReview.for_roster_mismatch 60 90 30 10 (Some 7%N) (DemoValidationResult.valid (2, 1) (2, 1)) [] 1 4)
    <| ResultReview.status := status |>.
Definition reviewed_db (r : ResultReview.t) : Db.t :=
  (sample_db [] [] []) <| Db.result_reviews := {[60%N := r]} |>.

Example decided_reviews_stay_witness :
  let r := roster_review ResultReviewStatus.Approved in
  Db.result_reviews (run_ops [ReviewOp.Reject 60 9 None; ReviewOp.Acknowledge 60 1 5] (reviewed_db r)) !! 60%N
    = Some r.
Proof.
  intros r. refine (proj1 (decided_reviews_stay _ (reviewed_db r) 60%N r _ _) _).
  - intros k x Hk. unfold reviewed_db in Hk. cbn [Db.result_reviews setter] in Hk. apply lookup_singleton_Some in Hk as [<- _]. reflexivity.
  - apply lookup_singleton_eq.
  - reflexivity.
Defined.

(** Both captains have acknowledged, and the second's write of the status was
  lost: no captain can acknowledge again, and the review stays pending for all
  the captains can do. *)
Definition half_settled : ResultReview.t :=
  (roster_review ResultReviewStatus.PendingAcknowledgment)
    <| ResultReview.captain1_acknowledged := true |> <| ResultReview.captain2_acknowledged := true |>.

Theorem lost_acknowledgment_sticks registration user :
  let '(r, db') := ResultReviewService.acknowledge 60 registration user (reviewed_db half_settled) in
  is_ok r = false ∧ db' = reviewed_db half_settled.
Proof.
  rewrite acknowledge_spec.
  assert (Db.result_reviews (reviewed_db half_settled) !! 60%N = Some half_settled) as -> by apply lookup_singleton_eq.
  rewrite bool_decide_true by done.
  destruct (ResultReview.get_captain_side half_settled registration) as [side|] eqn:Hs; [|done].
  assert (ResultReview.is_captain_acknowledged half_settled side = true) as ->; [|done].
  by destruct (captain_side_cases _ _ _ Hs) as [-> | ->].
Qed.
