(* ===== verification/Lifecycle.v ===== *)
(** [MatchLifecycleService]
    (crates/portal-domain/src/services/tournament/match_lifecycle.rs): guarded
    status transitions with their audit log, check-in, start and forfeit; and
    [ForfeitService] (.../forfeit.rs): single and double forfeits, withdrawal and
    disqualification. *)
From stdpp Require Import base list strings gmap.
From S2P Require Import Prelude Errors Wire TournamentTypes DomainEnums FormatPlan Entities Rows.
From S2P Require Import Store Progression.
#[local] Open Scope Z_scope.

(** Who asked for a transition (entities/match_lifecycle.rs). *)
Module TransitionTrigger.
Inductive t :=
| User (user_id : UserId)
| System (job_name : string)
| Admin (user_id : UserId) (override_reason : string).
Definition user_id (self : t) : option UserId :=
  match self with User id | Admin id _ => Some id | System _ => None end.
Definition is_system (self : t) : bool :=
  match self with System _ => true | _ => false end.
Definition to_db_fields `{Platform} (self : t) : option UserId * bool * Json :=
  match self with
  | User id => (Some id, false, json_of_object [])
  | System job => (None, true, json_of_object [("job_name", json_of_string job)])
  | Admin id reason =>
      (Some id, true,
       json_of_object [("admin_override", json_true); ("reason", json_of_string reason)])
  end.
End TransitionTrigger.

Module MatchStatusDetails.
Record t `{Platform} := mk {
  match_id : TournamentMatchId;
  current_status : TournamentMatchStatus.t;
  allowed_transitions : list TournamentMatchStatus.t;
  is_terminal : bool;
  is_active : bool;
  scheduled_at : option DateTime;
  started_at : option DateTime;
  completed_at : option DateTime;
  transition_count : Z;
  latest_transition : option MatchStatusLog.t;
}.
End MatchStatusDetails.

Section lifecycle.
Context `{Platform}.

Definition log_transition (match_id : TournamentMatchId) (from_status to_status : TournamentMatchStatus.t)
    (triggered_by : TransitionTrigger.t) (reason : option string) : M MatchStatusLog.t :=
  let '(user_id, is_system, metadata) := TransitionTrigger.to_db_fields triggered_by in
  create_status_log match_id from_status to_status reason user_id is_system metadata.

Definition status_error (before : string) (status : TournamentMatchStatus.t) (after : string)
    : DomainError.t :=
  DomainError.InvalidState (before +:+ TournamentMatchStatus.fmt status +:+ after).

Definition transition (match_id : TournamentMatchId) (to_status : TournamentMatchStatus.t)
    (triggered_by : TransitionTrigger.t) (reason : option string) : M TournamentMatch.t :=
  let* match_ := get_match match_id in
  if negb (TournamentMatchStatus.can_transition_to (TournamentMatch.status match_) to_status) then
    mthrow (status_error "Cannot transition match from " (TournamentMatch.status match_)
      (" to " +:+ TournamentMatchStatus.fmt to_status))
  else
    let* updated := update_status match_id to_status in
    let* _ := log_transition match_id (TournamentMatch.status match_) to_status triggered_by reason in
    mret updated.

Definition mark_ready (match_id : TournamentMatchId) : M TournamentMatch.t :=
  let* match_ := get_match match_id in
  if negb (TournamentMatch.is_pending match_) then
    mthrow (status_error "Match is already in " (TournamentMatch.status match_)
      " status, cannot mark as ready")
  else if negb (TournamentMatch.has_both_participants match_) then
    mthrow (DomainError.InvalidState "Cannot mark match as ready without both participants")
  else
    transition match_id TournamentMatchStatus.Ready
      (TransitionTrigger.System "participant_assignment") (Some "Both participants assigned").

Definition schedule (match_id : TournamentMatchId) (scheduled_at : DateTime) (scheduled_by : UserId)
    : M TournamentMatch.t :=
  let* match_ := get_match match_id in
  if negb (TournamentMatchStatus.can_schedule (TournamentMatch.status match_)) then
    mthrow (status_error "Match in " (TournamentMatch.status match_) " status cannot be scheduled")
  else
    let* now := mread Db.now in
    if bool_decide (scheduled_at ≤ now) then
      mthrow (DomainError.InvalidState "Scheduled time must be in the future")
    else
      let* _ := schedule_match match_id scheduled_at in
      transition match_id TournamentMatchStatus.Scheduled (TransitionTrigger.User scheduled_by)
        (Some ("Scheduled for " +:+ datetime_string scheduled_at)).

Definition check_in (match_id : TournamentMatchId) (registration_id : TournamentRegistrationId)
    (checked_in_by : UserId) : M TournamentMatch.t :=
  let* match_ := get_match match_id in
  let is_participant1 :=
    bool_decide (TournamentMatch.participant1_registration_id match_ = Some registration_id) in
  let is_participant2 :=
    bool_decide (TournamentMatch.participant2_registration_id match_ = Some registration_id) in
  if negb is_participant1 && negb is_participant2 then
    mthrow (DomainError.NotAuthorized "Registration is not a participant in this match")
  else
    let* _ :=
      (match TournamentMatch.status match_ with
       | TournamentMatchStatus.CheckingIn => mret tt
       | TournamentMatchStatus.Scheduled =>
           let* _ := transition match_id TournamentMatchStatus.CheckingIn
                       (TransitionTrigger.System "match_check_in") (Some "Check-in window opened") in
           mret tt
       | status => mthrow (status_error "Match in " status " status cannot accept check-ins")
       end) in
    let slot := if is_participant1 then ParticipantSlot.One else ParticipantSlot.Two in
    let* current := get_match match_id in
    let already_checked_in :=
      if is_participant1
      then bool_decide (is_Some (TournamentMatch.participant1_checked_in_at current))
      else bool_decide (is_Some (TournamentMatch.participant2_checked_in_at current)) in
    if already_checked_in then mret current
    else
      let* updated := check_in_participant match_id slot checked_in_by in
      if TournamentMatch.both_checked_in updated then
        let next_status :=
          if TournamentMatch.veto_required updated then TournamentMatchStatus.PickBan
          else TournamentMatchStatus.InProgress in
        transition match_id next_status (TransitionTrigger.System "both_checked_in")
          (Some "Both participants checked in")
      else mret updated.

(** [start_match] of the service; the repository's is [Store.start_match]. *)
Definition start (match_id : TournamentMatchId) (started_by : UserId) : M TournamentMatch.t :=
  let* match_ := get_match match_id in
  if negb (TournamentMatch.can_start match_) then
    mthrow (status_error "Match in " (TournamentMatch.status match_) " status cannot be started")
  else
    let* _ := start_match match_id in
    let* _ := log_transition match_id (TournamentMatch.status match_) TournamentMatchStatus.InProgress
                (TransitionTrigger.User started_by) (Some "Match started") in
    get_match match_id.

Definition admin_transition (match_id : TournamentMatchId) (to_status : TournamentMatchStatus.t)
    (admin_id : UserId) (override_reason : string) : M TournamentMatch.t :=
  let* match_ := get_match match_id in
  if negb (TournamentMatchStatus.can_transition_to (TournamentMatch.status match_) to_status) then
    mthrow (status_error "Cannot transition match from " (TournamentMatch.status match_)
      (" to " +:+ TournamentMatchStatus.fmt to_status +:+ " (even with admin override)"))
  else
    transition match_id to_status (TransitionTrigger.Admin admin_id override_reason)
      (Some ("Admin override: " +:+ override_reason)).

(** Winner and loser of a forfeit by [registration_id]. *)
Definition forfeit_outcome (match_ : TournamentMatch.t) (registration_id : TournamentRegistrationId)
    : outcome (TournamentRegistrationId * TournamentRegistrationId) :=
  let opponent o := ok_or o (Error (DomainError.InvalidState "No opponent to award forfeit win")) in
  if bool_decide (TournamentMatch.participant1_registration_id match_ = Some registration_id) then
    let? winner := opponent (TournamentMatch.participant2_registration_id match_) in
    Ok (winner, registration_id)
  else if bool_decide (TournamentMatch.participant2_registration_id match_ = Some registration_id) then
    let? winner := opponent (TournamentMatch.participant1_registration_id match_) in
    Ok (winner, registration_id)
  else throw (DomainError.NotAuthorized "Registration is not a participant in this match").

Definition forfeit (match_id : TournamentMatchId)
    (forfeiting_registration_id : TournamentRegistrationId) (forfeited_by : UserId)
    : M TournamentMatch.t :=
  let* match_ := get_match match_id in
  if negb (TournamentMatchStatus.can_forfeit (TournamentMatch.status match_)) then
    mthrow (status_error "Match in " (TournamentMatch.status match_) " status cannot be forfeited")
  else
    let* (winner_id, loser_id) := mlift (forfeit_outcome match_ forfeiting_registration_id) in
    let* _ := forfeit_match match_id winner_id loser_id in
    let forfeiter := default ("registration " +:+ uuid_string forfeiting_registration_id)
      (if bool_decide (TournamentMatch.participant1_registration_id match_ = Some forfeiting_registration_id)
       then TournamentMatch.participant1_name match_ else TournamentMatch.participant2_name match_) in
    let* _ := log_transition match_id (TournamentMatch.status match_) TournamentMatchStatus.Forfeit
                (TransitionTrigger.User forfeited_by) (Some ("Forfeited by " +:+ forfeiter)) in
    get_match match_id.

Definition get_status_history (match_id : TournamentMatchId) : M (list MatchStatusLog.t) :=
  let* _ := get_match match_id in
  mread (status_log_of match_id).

Definition get_match_status (match_id : TournamentMatchId) : M MatchStatusDetails.t :=
  let* match_ := get_match match_id in
  let* history := mread (status_log_of match_id) in
  mret {|
    MatchStatusDetails.match_id := match_id;
    MatchStatusDetails.current_status := TournamentMatch.status match_;
    MatchStatusDetails.allowed_transitions :=
      TournamentMatchStatus.allowed_transitions (TournamentMatch.status match_);
    MatchStatusDetails.is_terminal := TournamentMatchStatus.is_terminal (TournamentMatch.status match_);
    MatchStatusDetails.is_active := TournamentMatchStatus.is_active (TournamentMatch.status match_);
    MatchStatusDetails.scheduled_at := TournamentMatch.scheduled_at match_;
    MatchStatusDetails.started_at := TournamentMatch.started_at match_;
    MatchStatusDetails.completed_at := TournamentMatch.completed_at match_;
    MatchStatusDetails.transition_count := Z.of_nat (length history);
    MatchStatusDetails.latest_transition := last history |}.
End lifecycle.

(** What triggered a forfeit (entities/forfeit.rs). *)
Module ForfeitTrigger.
Inductive t :=
| System (reason : string)
| User (user_id : UserId)
| Admin (user_id : UserId) (reason : string).
Definition is_system (self : t) : bool := match self with System _ => true | _ => false end.
Definition user_id (self : t) : option UserId :=
  match self with System _ => None | User id | Admin id _ => Some id end.
Definition reason (self : t) : option string :=
  match self with System reason | Admin _ reason => Some reason | User _ => None end.
End ForfeitTrigger.

(** [ForfeitType::default_score]: (winner's, loser's) walkover score. *)
Definition default_score (forfeit_type : ForfeitType.t) (match_format : MatchFormat.t) : Z * Z :=
  (MatchFormat.wins_required match_format, 0).

Module ForfeitResult.
Record t := mk {
  match_id : TournamentMatchId;
  forfeit_record : ForfeitRecord.t;
  winner_registration_id : option TournamentRegistrationId;
  progression_triggered : bool;
}.
End ForfeitResult.

Definition determine_winner (match_ : TournamentMatch.t)
    (forfeiting_registration_id : TournamentRegistrationId) : outcome TournamentRegistrationId :=
  ok_or
    (if bool_decide (TournamentMatch.participant1_registration_id match_ = Some forfeiting_registration_id)
     then TournamentMatch.participant2_registration_id match_
     else TournamentMatch.participant1_registration_id match_)
    (Error (DomainError.InvalidState "No opponent to award win")).

(** Pending, scheduled, ready and checking-in matches. *)
Definition is_pending_for_forfeit (m : TournamentMatch.t) : bool :=
  match TournamentMatch.status m with
  | TournamentMatchStatus.Pending | TournamentMatchStatus.Scheduled
  | TournamentMatchStatus.Ready | TournamentMatchStatus.CheckingIn => true
  | _ => false
  end.

Section forfeits.
Context `{Platform}.

Definition validate_can_forfeit (match_ : TournamentMatch.t)
    (forfeiting_registration_id : TournamentRegistrationId) : outcome unit :=
  if negb (TournamentMatchStatus.can_forfeit (TournamentMatch.status match_)) then
    throw (status_error "Match in " (TournamentMatch.status match_) " status cannot be forfeited")
  else if negb (bool_decide (TournamentMatch.participant1_registration_id match_ = Some forfeiting_registration_id))
       && negb (bool_decide (TournamentMatch.participant2_registration_id match_ = Some forfeiting_registration_id))
  then throw (DomainError.NotAuthorized
    ("Registration " +:+ uuid_string forfeiting_registration_id +:+ " is not a participant in match "
     +:+ uuid_string (TournamentMatch.id match_)))
  else Ok tt.

Definition process_forfeit (match_id : TournamentMatchId)
    (forfeiting_registration_id : TournamentRegistrationId) (forfeit_type : ForfeitType.t)
    (reason : option string) (triggered_by : ForfeitTrigger.t) : M ForfeitResult.t :=
  let* match_ := get_match match_id in
  let* _ := mlift (validate_can_forfeit match_ forfeiting_registration_id) in
  let* winner_registration_id := mlift (determine_winner match_ forfeiting_registration_id) in
  let* forfeit_record := create_forfeit_record match_id forfeiting_registration_id forfeit_type reason
                           (ForfeitTrigger.user_id triggered_by) (ForfeitTrigger.is_system triggered_by) in
  let* _ := forfeit_match match_id winner_registration_id forfeiting_registration_id in
  mret (ForfeitResult.mk match_id forfeit_record (Some winner_registration_id) false).

Definition process_no_show (match_id : TournamentMatchId)
    (no_show_registration_id : TournamentRegistrationId) : M ForfeitResult.t :=
  process_forfeit match_id no_show_registration_id ForfeitType.NoShow
    (Some "Failed to check in for match") (ForfeitTrigger.System "check_in_timeout").

Definition process_double_forfeit (match_id : TournamentMatchId) (reason : option string)
    (triggered_by : ForfeitTrigger.t) : M ForfeitResult.t :=
  let* match_ := get_match match_id in
  let* participant1_id := mlift (ok_or (TournamentMatch.participant1_registration_id match_)
    (Error (DomainError.InvalidState "No participant 1 in match"))) in
  let* participant2_id := mlift (ok_or (TournamentMatch.participant2_registration_id match_)
    (Error (DomainError.InvalidState "No participant 2 in match"))) in
  let* existing :=
    (match TournamentMatch.status match_ with
     | TournamentMatchStatus.Cancelled => find_forfeit_by_match match_id
     | _ => mret None
     end) in
  match existing with
  | Some existing => mret (ForfeitResult.mk match_id existing None false)
  | None =>
      let create registration_id :=
        create_forfeit_record match_id registration_id ForfeitType.Disqualification reason
          (ForfeitTrigger.user_id triggered_by) (ForfeitTrigger.is_system triggered_by) in
      let* forfeit_record := create participant1_id in
      let* _ := create participant2_id in
      let* _ := update_status match_id TournamentMatchStatus.Cancelled in
      mret (ForfeitResult.mk match_id forfeit_record None false)
  end.

Definition find_pending_matches (registration_id : TournamentRegistrationId)
    : M (list TournamentMatch.t) :=
  let* matches := mread (matches_of_participant registration_id) in
  mret (filter (λ m, is_pending_for_forfeit m = true) matches).

(** The loop over the pending matches: a failed forfeit is logged and skipped,
    what it wrote stays. *)
Fixpoint forfeit_each (process : TournamentMatchId → M ForfeitResult.t)
    (matches : list TournamentMatch.t) : M (list ForfeitResult.t) := λ db,
  match matches with
  | [] => (Ok [], db)
  | match_ :: matches =>
      match process (TournamentMatch.id match_) db with
      | (Ok result, db) =>
          (let* results := forfeit_each process matches in mret (result :: results)) db
      | (Err (Error _), db) => forfeit_each process matches db
      | (Err Panic, db) => (Err Panic, db)
      end
  end.

(** The registration, if it is one of the tournament. *)
Definition registration_of_tournament (tournament_id : TournamentId)
    (registration_id : TournamentRegistrationId) : M TournamentRegistration.t :=
  let* registration := find_registration_by_id registration_id in
  let* registration := mlift (ok_or registration
    (Error (DomainError.TournamentRegistrationNotFound registration_id))) in
  if negb (bool_decide (TournamentRegistration.tournament_id registration = tournament_id)) then
    mthrow (DomainError.NotAuthorized "Registration does not belong to this tournament")
  else mret registration.

Definition withdraw_from_tournament (tournament_id : TournamentId)
    (registration_id : TournamentRegistrationId) (reason : option string) (withdrawn_by : UserId)
    : M (list ForfeitResult.t) :=
  let* registration := registration_of_tournament tournament_id registration_id in
  if negb (TournamentRegistrationStatus.can_withdraw (TournamentRegistration.status registration)) then
    mthrow (DomainError.InvalidState ("Cannot withdraw a registration in "
      +:+ TournamentRegistrationStatus.fmt (TournamentRegistration.status registration) +:+ " status"))
  else
    let* _ := update_registration_status registration_id TournamentRegistrationStatus.Withdrawn in
    let* pending_matches := find_pending_matches registration_id in
    forfeit_each (λ match_id, process_forfeit match_id registration_id ForfeitType.Withdrawal reason
                    (ForfeitTrigger.User withdrawn_by)) pending_matches.

Definition disqualify (tournament_id : TournamentId) (registration_id : TournamentRegistrationId)
    (reason : string) (disqualified_by : UserId) : M (list ForfeitResult.t) :=
  let* _ := registration_of_tournament tournament_id registration_id in
  let* _ := update_registration_status registration_id TournamentRegistrationStatus.Disqualified in
  let* pending_matches := find_pending_matches registration_id in
  forfeit_each (λ match_id, process_forfeit match_id registration_id ForfeitType.Disqualification
                  (Some reason) (ForfeitTrigger.Admin disqualified_by reason)) pending_matches.
End forfeits.
