(* ===== verification/LifecycleProps.v ===== *)
(** Match lifecycle and forfeits: the table of statuses ends, the services follow
    it and keep the log; which matches may be forfeited, and what a forfeit
    writes. *)
From Stdlib Require Import Relations Wf_nat.
From stdpp Require Import base list strings gmap relations.
From S2P Require Import Prelude Errors Wire TournamentTypes DomainEnums FormatPlan Entities.
From S2P Require Import BracketModel Rows Store StoreFacts Samples Progression ProgressionProps.
From S2P Require Import CompletionProps Lifecycle.
#[local] Open Scope Z_scope.

#[local] Abbreviation status := TournamentMatch.status.

(** ** The table *)

Definition may_become (s s' : TournamentMatchStatus.t) : Prop :=
  TournamentMatchStatus.can_transition_to s s' = true.

(** Steps left at most. *)
Definition rank (s : TournamentMatchStatus.t) : nat :=
  match s with
  | TournamentMatchStatus.Pending => 8
  | TournamentMatchStatus.Ready => 7
  | TournamentMatchStatus.Scheduled => 6
  | TournamentMatchStatus.CheckingIn => 5
  | TournamentMatchStatus.PickBan => 4
  | TournamentMatchStatus.InProgress => 3
  | TournamentMatchStatus.AwaitingResult => 2
  | TournamentMatchStatus.Disputed => 1
  | _ => 0
  end.

Lemma may_become_rank s s' : may_become s s' → (rank s' < rank s)%nat.
Proof. unfold may_become. destruct s, s'; vm_compute; intros; (discriminate || lia). Qed.

Lemma can_forfeit_may s :
  TournamentMatchStatus.can_forfeit s = true → may_become s TournamentMatchStatus.Forfeit.
Proof. by destruct s. Qed.

(** C38. The match state machine: a status is terminal exactly when nothing may
  follow it; the guards of forfeiting, cancelling, disputing and scheduling hold
  exactly where the table has the transition; every status is reachable from
  pending; and no run of transitions goes on for ever. *)
Theorem match_status_machine :
  (∀ s, TournamentMatchStatus.is_terminal s = true ↔ ∀ s', ¬ may_become s s') ∧
  (∀ s, (TournamentMatchStatus.can_forfeit s = true ↔ may_become s TournamentMatchStatus.Forfeit) ∧
        (TournamentMatchStatus.can_cancel s = true ↔ may_become s TournamentMatchStatus.Cancelled) ∧
        (TournamentMatchStatus.can_dispute s = true ↔ may_become s TournamentMatchStatus.Disputed) ∧
        (TournamentMatchStatus.can_schedule s = true ↔ may_become s TournamentMatchStatus.Scheduled)) ∧
  (∀ s, rtc may_become TournamentMatchStatus.Pending s) ∧
  well_founded (flip may_become).
Proof.
  split; [|split; [|split]].
  - intros s. split.
    + destruct s; try discriminate; intros _ []; vm_compute; discriminate.
    + intros Hno. destruct s; try reflexivity; exfalso;
        (eapply (Hno TournamentMatchStatus.Cancelled); reflexivity) ||
        (eapply (Hno TournamentMatchStatus.Forfeit); reflexivity) ||
        (eapply (Hno TournamentMatchStatus.Completed); reflexivity).
  - intros s. unfold may_become. destruct s; vm_compute; repeat split; congruence.
  - assert (rtc may_become TournamentMatchStatus.Pending TournamentMatchStatus.Scheduled) as Hsch
      by (apply (rtc_l _ _ TournamentMatchStatus.Ready); [reflexivity|by apply rtc_once]).
    assert (rtc may_become TournamentMatchStatus.Pending TournamentMatchStatus.AwaitingResult) as Haw
      by (etransitivity; [exact Hsch|]; apply (rtc_l _ _ TournamentMatchStatus.InProgress); [reflexivity|];
          by apply rtc_once).
    intros s. destruct s;
      solve [done | apply rtc_refl | by apply rtc_once
            | eapply rtc_r; [exact Hsch|reflexivity] | eapply rtc_r; [exact Haw|reflexivity]].
  - apply (well_founded_lt_compat _ rank). intros s' s. apply may_become_rank.
Qed.

(** ** The services follow the table and keep the log *)

(** A run of logged transitions of match [id] along the table. *)
Inductive logged `{Platform} (id : TournamentMatchId)
    : TournamentMatchStatus.t → list MatchStatusLog.t → TournamentMatchStatus.t → Prop :=
| Logged_nil s : logged id s [] s
| Logged_cons s s1 s2 l ls :
    MatchStatusLog.match_id l = id → MatchStatusLog.from_status l = s →
    MatchStatusLog.to_status l = s1 → may_become s s1 → logged id s1 ls s2 →
    logged id s (l :: ls) s2.

Section lifecycle_props.
Context `{Platform}.

Lemma logged_app id s1 s2 s3 l1 l2 :
  logged id s1 l1 s2 → logged id s2 l2 s3 → logged id s1 (l1 ++ l2) s3.
Proof. induction 1; [done|]. intros ?. by eapply Logged_cons; eauto. Qed.

(** The match goes along a logged path, every other match stays. *)
Record audited (id : TournamentMatchId) (db db' : Db.t) : Prop := {
  audited_log : ∃ entries, Db.status_log db' = Db.status_log db ++ entries ∧
    match Db.matches db !! id, Db.matches db' !! id with
    | Some m, Some m' => logged id (status m) entries (status m')
    | None, None => entries = []
    | _, _ => False
    end;
  audited_others id' : id' ≠ id → Db.matches db' !! id' = Db.matches db !! id';
}.

#[global] Instance audited_preorder id : PreOrder (audited id).
Proof.
  split.
  - intros db. split; [|done]. exists []. rewrite app_nil_r. split; [done|].
    destruct (Db.matches db !! id); [constructor|done].
  - intros x y z [(l1 & E1 & P1) O1] [(l2 & E2 & P2) O2]. split.
    + exists (l1 ++ l2). rewrite E2, E1, app_assoc. split; [done|].
      destruct (Db.matches x !! id), (Db.matches y !! id), (Db.matches z !! id); try done.
      * by eapply logged_app.
      * by subst.
    + intros id' Hid. by rewrite O2, O1.
Qed.

(** A write that leaves every status alone. *)
Lemma update_match_audited id set :
  (∀ now m, status (set now m) = status m) → preserves (audited id) (update_match id set).
Proof.
  intros Hset db. unfold update_match. destruct (Db.matches db !! id) as [m|] eqn:Hm; [|reflexivity].
  split.
  - exists []. cbn. rewrite app_nil_r, Hm, lookup_insert_eq, Hset. split; [done|constructor].
  - intros id' Hid. cbn. by rewrite lookup_insert_ne.
Qed.

(** A status write followed by its log entry. *)
Lemma logged_write {A} id set to who why (k : TournamentMatch.t → M A) db m :
  Db.matches db !! id = Some m → (∀ now, status (set now m) = to) → may_become (status m) to →
  (∀ u, preserves (audited id) (k u)) →
  audited id db ((let* u := update_match id set in
                  let* _ := log_transition id (status m) to who why in k u) db).2.
Proof.
  intros Hm Hset Hmay Hk. rewrite (mbind_step _ _ _ _ _ (update_match_found _ _ _ _ Hm)).
  unfold log_transition. destruct (TransitionTrigger.to_db_fields who) as [[u sys] meta].
  etransitivity; [|apply Hk]. split.
  - eexists [_]. split; [reflexivity|]. cbn. rewrite Hm, lookup_insert_eq, Hset.
    by eapply Logged_cons; [..|constructor].
  - intros id' Hid. cbn. by rewrite lookup_insert_ne.
Qed.

Lemma transition_audited id to who why : preserves (audited id) (transition id to who why).
Proof.
  intros db. unfold transition. destruct (Db.matches db !! id) as [m|] eqn:Hm.
  2: { by rewrite (mbind_stop _ _ _ _ _ (get_match_missing _ _ Hm)). }
  rewrite (mbind_step _ _ _ _ _ (get_match_found _ _ _ Hm)).
  destruct (TournamentMatchStatus.can_transition_to (status m) to) eqn:Hmay; [|reflexivity].
  apply logged_write; [done|done|done|]. intros u. apply preserves_ret, _.
Qed.
End lifecycle_props.

#[export] Hint Resolve transition_audited : frames.

Section services.
Context `{Platform}.

Lemma get_match_reads R `{!PreOrder R} id : preserves R (get_match id).
Proof. unfold get_match, find_match_by_id. frame. Qed.
#[local] Hint Resolve get_match_reads : frames.

Lemma schedule_match_audited id at_ : preserves (audited id) (schedule_match id at_).
Proof. by apply update_match_audited. Qed.
Lemma check_in_participant_audited id slot who : preserves (audited id) (check_in_participant id slot who).
Proof. apply update_match_audited. by destruct slot. Qed.
#[local] Hint Resolve schedule_match_audited check_in_participant_audited : frames.

Lemma forfeit_audited id reg who : preserves (audited id) (forfeit id reg who).
Proof.
  intros db. unfold forfeit. destruct (Db.matches db !! id) as [m|] eqn:Hm.
  2: { by rewrite (mbind_stop _ _ _ _ _ (get_match_missing _ _ Hm)). }
  rewrite (mbind_step _ _ _ _ _ (get_match_found _ _ _ Hm)).
  destruct (TournamentMatchStatus.can_forfeit (status m)) eqn:Hf; [|reflexivity].
  cbn [negb]. unfold mlift. destruct (forfeit_outcome m reg) as [[w l]|e]; [|reflexivity].
  change (mbind (λ db, (Ok (w, l), db)) ?k db) with (k (w, l) db). cbv beta iota zeta.
  apply logged_write; [done|done|by apply can_forfeit_may|]. intros _. frame.
Qed.
#[local] Hint Resolve forfeit_audited : frames.

(** The service's entry points that write; [start] is apart, below. *)
Inductive operation :=
| Transition (to : TournamentMatchStatus.t) (who : TransitionTrigger.t) (why : option string)
| MarkReady
| Schedule (at_ : DateTime) (who : UserId)
| CheckIn (registration : TournamentRegistrationId) (who : UserId)
| AdminTransition (to : TournamentMatchStatus.t) (admin : UserId) (why : string)
| ForfeitBy (registration : TournamentRegistrationId) (who : UserId).

Definition run (op : operation) (id : TournamentMatchId) : M TournamentMatch.t :=
  match op with
  | Transition to who why => transition id to who why
  | MarkReady => mark_ready id
  | Schedule at_ who => schedule id at_ who
  | CheckIn registration who => check_in id registration who
  | AdminTransition to admin why => admin_transition id to admin why
  | ForfeitBy registration who => forfeit id registration who
  end.

(** C39. Through the lifecycle service a match moves only along the table and
  every move is in its status log (starting apart, see start_bypasses_table):
  after any other operation, failed or not, the entries added for the match lead step by step from the status it had to the
  one it has, each step allowed, and no other match has changed. *)
Theorem lifecycle_audited op id db :
  let db' := (run op id db).2 in
  (∃ entries, Db.status_log db' = Db.status_log db ++ entries ∧
    match Db.matches db !! id, Db.matches db' !! id with
    | Some m, Some m' => logged id (status m) entries (status m')
    | None, None => entries = []
    | _, _ => False
    end) ∧
  ∀ id', id' ≠ id → Db.matches db' !! id' = Db.matches db !! id'.
Proof.
  cbv zeta. enough (preserves (audited id) (run op id)) as Hp by (destruct (Hp db); done).
  destruct op; cbn [run]; [|unfold mark_ready|unfold schedule|unfold check_in|unfold admin_transition|];
    frame.
Qed.

Lemma log_transition_run id from to who why db :
  ∃ l db', log_transition id from to who why db = (Ok l, db') ∧ Db.matches db' = Db.matches db.
Proof.
  unfold log_transition, create_status_log.
  destruct (TransitionTrigger.to_db_fields who) as [[u sys] meta]. by eexists _, _.
Qed.

(** Starting a match does not go through the table: from ready, from which
  the table allows no way into progress and a transition is refused, it puts the
  match in progress all the same; from picking and banning, where the table
  allows it, it is refused. *)
Theorem start_bypasses_table id m who db :
  Db.matches db !! id = Some m →
  (status m = TournamentMatchStatus.Ready →
     ¬ may_become (status m) TournamentMatchStatus.InProgress ∧
     (∀ t why, is_ok (transition id TournamentMatchStatus.InProgress t why db).1 = false) ∧
     ∃ m', (start id who db).1 = Ok m' ∧ status m' = TournamentMatchStatus.InProgress) ∧
  (status m = TournamentMatchStatus.PickBan →
     may_become (status m) TournamentMatchStatus.InProgress ∧
     is_ok (start id who db).1 = false ∧ (start id who db).2 = db).
Proof.
  intros Hm. split; intros Hs.
  - rewrite Hs. split; [discriminate|]. split.
    + intros t why. unfold transition. rewrite (mbind_step _ _ _ _ _ (get_match_found _ _ _ Hm)).
      by rewrite Hs.
    + unfold start. rewrite (mbind_step _ _ _ _ _ (get_match_found _ _ _ Hm)).
      unfold TournamentMatch.can_start. rewrite Hs. cbn [TournamentMatchStatus.can_start negb].
      unfold start_match. rewrite (mbind_step _ _ _ _ _ (update_match_found _ _ _ _ Hm)).
      match goal with |- context [mbind (log_transition ?i ?f ?t ?w ?y) _ ?d] =>
        destruct (log_transition_run i f t w y d) as (l & db' & Hlog & Hms) end.
      rewrite (mbind_step _ _ _ _ _ Hlog).
      eexists. split; [erewrite get_match_found; [reflexivity|]|].
      * rewrite Hms. cbn. apply lookup_insert_eq.
      * reflexivity.
  - rewrite Hs. split; [reflexivity|]. unfold start.
    rewrite (mbind_step _ _ _ _ _ (get_match_found _ _ _ Hm)).
    unfold TournamentMatch.can_start. by rewrite Hs.
Qed.

(** ** Check-in *)

Definition checked_in (slot : ParticipantSlot.t) (m : TournamentMatch.t) : Prop :=
  match slot with
  | ParticipantSlot.One => is_Some (TournamentMatch.participant1_checked_in_at m)
  | ParticipantSlot.Two => is_Some (TournamentMatch.participant2_checked_in_at m)
  end.

(** The side a registration checks in for. *)
Definition side_of (registration : TournamentRegistrationId) (m : TournamentMatch.t)
    : option ParticipantSlot.t :=
  if bool_decide (TournamentMatch.participant1_registration_id m = Some registration)
  then Some ParticipantSlot.One
  else if bool_decide (TournamentMatch.participant2_registration_id m = Some registration)
  then Some ParticipantSlot.Two
  else None.

Definition accepts_check_in (s : TournamentMatchStatus.t) : bool :=
  match s with TournamentMatchStatus.Scheduled | TournamentMatchStatus.CheckingIn => true | _ => false end.

(** A transition that goes through. *)
Lemma transition_run id to who why m db :
  Db.matches db !! id = Some m → may_become (status m) to →
  let m' := m <| TournamentMatch.status := to |> <| TournamentMatch.updated_at := Db.now db |> in
  (transition id to who why db).1 = Ok m' ∧
  Db.matches (transition id to who why db).2 = <[id := m']> (Db.matches db).
Proof.
  intros Hm Hmay. cbv zeta. unfold transition.
  rewrite (mbind_step _ _ _ _ _ (get_match_found _ _ _ Hm)). unfold may_become in Hmay. rewrite Hmay.
  cbn [negb]. unfold update_status. rewrite (mbind_step _ _ _ _ _ (update_match_found _ _ _ _ Hm)).
  unfold log_transition. destruct (TransitionTrigger.to_db_fields who) as [[u sys] meta]. by split.
Qed.

(** The check-in window after the match has been opened for it. *)
Lemma check_in_window id m db :
  Db.matches db !! id = Some m → accepts_check_in (status m) = true →
  ∃ db1 m1,
    (match status m with
     | TournamentMatchStatus.CheckingIn => mret tt
     | TournamentMatchStatus.Scheduled =>
         let* _ := transition id TournamentMatchStatus.CheckingIn
                     (TransitionTrigger.System "match_check_in") (Some "Check-in window opened") in
         mret tt
     | s => mthrow (status_error "Match in " s " status cannot accept check-ins")
     end) db = (Ok tt, db1) ∧
    Db.matches db1 !! id = Some m1 ∧ status m1 = TournamentMatchStatus.CheckingIn ∧
    TournamentMatch.veto_required m1 = TournamentMatch.veto_required m.
Proof.
  intros Hm Hs. destruct (status m) eqn:Hst; try discriminate.
  - destruct (transition_run id TournamentMatchStatus.CheckingIn
      (TransitionTrigger.System "match_check_in") (Some "Check-in window opened") m db Hm) as [H1 H2].
    { unfold may_become. by rewrite Hst. }
    apply run_outcome in H1. rewrite (mbind_step _ _ _ _ _ H1).
    eexists _, _. split; [reflexivity|]. rewrite H2, lookup_insert_eq. by split.
  - exists db, m. by split.
Qed.

(** Persisting a check-in into an open window. *)
Lemma check_in_persist id slot who m db :
  Db.matches db !! id = Some m → status m = TournamentMatchStatus.CheckingIn →
  let persist :=
    let* updated := check_in_participant id slot who in
    if TournamentMatch.both_checked_in updated then
      transition id (if TournamentMatch.veto_required updated then TournamentMatchStatus.PickBan
                     else TournamentMatchStatus.InProgress)
        (TransitionTrigger.System "both_checked_in") (Some "Both participants checked in")
    else mret updated in
  ∃ m' db', persist db = (Ok m', db') ∧ Db.matches db' !! id = Some m' ∧ checked_in slot m' ∧
    if TournamentMatch.both_checked_in m'
    then status m' = (if TournamentMatch.veto_required m then TournamentMatchStatus.PickBan
                      else TournamentMatchStatus.InProgress)
    else status m' = TournamentMatchStatus.CheckingIn.
Proof.
  intros Hm Hs. cbv zeta. unfold check_in_participant.
  rewrite (mbind_step _ _ _ _ _ (update_match_found _ _ _ _ Hm)). cbv beta.
  match goal with |- context [TournamentMatch.both_checked_in ?u] => set (u1 := u) end.
  assert (status u1 = TournamentMatchStatus.CheckingIn ∧ checked_in slot u1 ∧
    TournamentMatch.veto_required u1 = TournamentMatch.veto_required m) as (Hs1 & Hc1 & Hv1).
  { unfold u1. destruct slot; (split; [exact Hs|split; [by eexists|done]]). }
  set (db1 := db <| Db.matches := <[id := u1]> (Db.matches db) |>).
  assert (Db.matches db1 !! id = Some u1) as Hm1 by (cbn; apply lookup_insert_eq).
  destruct (TournamentMatch.both_checked_in u1) eqn:Hboth.
  - destruct (transition_run id (if TournamentMatch.veto_required u1 then TournamentMatchStatus.PickBan
        else TournamentMatchStatus.InProgress) (TransitionTrigger.System "both_checked_in")
        (Some "Both participants checked in") u1 db1 Hm1) as [H1 H2].
    { unfold may_become. rewrite Hs1. by destruct (TournamentMatch.veto_required u1). }
    apply run_outcome in H1. eexists _, _. split; [exact H1|].
    rewrite H2, lookup_insert_eq. split; [done|]. split; [by destruct slot|].
    rewrite <- Hv1.
    change (TournamentMatch.both_checked_in (u1 <| TournamentMatch.status := ?x |> <| TournamentMatch.updated_at := ?y |>))
      with (TournamentMatch.both_checked_in u1). by rewrite Hboth.
  - eexists _, _. split; [reflexivity|]. split; [done|]. split; [done|]. by rewrite Hboth.
Qed.

(** Check-in: only a participant of the match may check in and only while
  it is scheduled or checking in, anything else is refused with nothing
  written. An accepted check-in is recorded for the participant's side, and the
  match leaves the check-in phase, for picking and banning if it needs a veto
  and for play otherwise, only with both sides checked in. *)
Theorem check_in_spec id registration who m db :
  Db.matches db !! id = Some m →
  match side_of registration m with
  | None => is_ok (check_in id registration who db).1 = false ∧ (check_in id registration who db).2 = db
  | Some slot =>
      if accepts_check_in (status m) then
        ∃ m' db', check_in id registration who db = (Ok m', db') ∧
          Db.matches db' !! id = Some m' ∧ checked_in slot m' ∧
          (status m' = TournamentMatchStatus.CheckingIn ∨
           TournamentMatch.both_checked_in m' = true ∧
           status m' = (if TournamentMatch.veto_required m then TournamentMatchStatus.PickBan
                        else TournamentMatchStatus.InProgress))
      else is_ok (check_in id registration who db).1 = false ∧ (check_in id registration who db).2 = db
  end.
Proof.
  intros Hm. unfold check_in. rewrite (mbind_step _ _ _ _ _ (get_match_found _ _ _ Hm)). unfold side_of.
  set (p1 := bool_decide (TournamentMatch.participant1_registration_id m = Some registration)).
  set (p2 := bool_decide (TournamentMatch.participant2_registration_id m = Some registration)).
  destruct (accepts_check_in (status m)) eqn:Hacc.
  2: { destruct p1, p2; cbn [negb andb]; destruct (status m); try discriminate; by split. }
  destruct (check_in_window id m db Hm Hacc) as (db1 & m1 & Hopen & Hm1 & Hs1 & Hv1).
  destruct p1 eqn:Hp1; [|destruct p2 eqn:Hp2]; cbn [negb andb] in *; [| |by split];
    rewrite (mbind_step _ _ _ _ _ Hopen), (mbind_step _ _ _ _ _ (get_match_found _ _ _ Hm1));
    (case_bool_decide as Ha; [exists m1, db1; by repeat (split; [done|]); left|]);
    rewrite <- Hv1.
  - destruct (check_in_persist id ParticipantSlot.One who m1 db1 Hm1 Hs1) as (m' & db' & Hrun & Hm' & Hc & Hst).
    exists m', db'. split; [exact Hrun|]. split; [done|]. split; [done|].
    destruct (TournamentMatch.both_checked_in m'); [by right|by left].
  - destruct (check_in_persist id ParticipantSlot.Two who m1 db1 Hm1 Hs1) as (m' & db' & Hrun & Hm' & Hc & Hst).
    exists m', db'. split; [exact Hrun|]. split; [done|]. split; [done|].
    destruct (TournamentMatch.both_checked_in m'); [by right|by left].
Qed.
End services.

(** ** Witnesses *)

#[local] Existing Instance sample_platform.

Definition ready_match (s : TournamentMatchStatus.t) : TournamentMatch.t :=
  (sample_row 10 5 1 1 "R1M1" (None, None) (Some 1%N, Some 2%N)) <| TournamentMatch.status := s |>.
Definition one_match (s : TournamentMatchStatus.t) : Db.t :=
  sample_db [ready_match s] [sample_bracket 5 1 BracketType.SingleElim] [].

Example start_bypasses_table_witness :
  ∃ m', (start 10 7%N (one_match TournamentMatchStatus.Ready)).1 = Ok m' ∧
    status m' = TournamentMatchStatus.InProgress.
Proof.
  apply (start_bypasses_table 10 (ready_match TournamentMatchStatus.Ready) 7%N
    (one_match TournamentMatchStatus.Ready)); vm_compute; reflexivity.
Defined.

Example check_in_spec_witness :
  ∃ m' db', check_in 10 1%N 7%N (one_match TournamentMatchStatus.Scheduled) = (Ok m', db') ∧
    checked_in ParticipantSlot.One m'.
Proof.
  destruct (check_in_spec 10 1%N 7%N (ready_match TournamentMatchStatus.Scheduled)
    (one_match TournamentMatchStatus.Scheduled)) as (m' & db' & Hrun & _ & Hc & _);
    [vm_compute; reflexivity|]. by exists m', db'.
Defined.

(** ** Forfeits *)

(** The row of a match forfeited by [loser]. *)
Definition forfeited (now : DateTime) (winner loser : TournamentRegistrationId)
    (m : TournamentMatch.t) : TournamentMatch.t :=
  m <| TournamentMatch.winner_registration_id := Some winner |>
    <| TournamentMatch.loser_registration_id := Some loser |>
    <| TournamentMatch.completed_at := Some now |>
    <| TournamentMatch.status := TournamentMatchStatus.Forfeit |>
    <| TournamentMatch.updated_at := now |>.

Definition participates (registration : TournamentRegistrationId) (m : TournamentMatch.t) : Prop :=
  TournamentMatch.participant1_registration_id m = Some registration ∨
  TournamentMatch.participant2_registration_id m = Some registration.
#[global] Instance participates_dec r m : Decision (participates r m).
Proof. unfold participates. apply _. Defined.

Definition opponent (registration : TournamentRegistrationId) (m : TournamentMatch.t)
    : option TournamentRegistrationId :=
  if bool_decide (TournamentMatch.participant1_registration_id m = Some registration)
  then TournamentMatch.participant2_registration_id m
  else TournamentMatch.participant1_registration_id m.

(** A match that [registration] can forfeit, to [winner]. *)
Definition forfeitable (registration winner : TournamentRegistrationId) (m : TournamentMatch.t) : Prop :=
  TournamentMatchStatus.can_forfeit (status m) = true ∧ participates registration m ∧
  opponent registration m = Some winner.

Section forfeit_props.
Context `{Platform}.

Lemma create_forfeit_record_run id reg ty why u sys db :
  ∃ r db1, create_forfeit_record id reg ty why u sys db = (Ok r, db1) ∧
    Db.matches db1 = Db.matches db ∧ Db.now db1 = Db.now db ∧
    ForfeitRecord.match_id r = id ∧ ForfeitRecord.forfeiting_registration_id r = reg ∧
    r ∈ Db.forfeit_records db1.
Proof.
  unfold create_forfeit_record. destruct (list_find _ _) as [[i r]|] eqn:Hf.
  - apply list_find_Some in Hf as (Hi & [Hid Hreg] & _). exists r, db.
    apply list_elem_of_lookup_2 in Hi. done.
  - eexists _, _. split; [reflexivity|]. repeat (split; [done|]). cbn.
    apply elem_of_app. right. by apply list_elem_of_singleton.
Qed.

Lemma process_forfeit_ok id reg ty why who m w db :
  Db.matches db !! id = Some m → forfeitable reg w m →
  ∃ r db', process_forfeit id reg ty why who db = (Ok (ForfeitResult.mk id r (Some w) false), db') ∧
    Db.matches db' = <[id := forfeited (Db.now db) w reg m]> (Db.matches db) ∧
    ForfeitRecord.match_id r = id ∧ ForfeitRecord.forfeiting_registration_id r = reg ∧
    r ∈ Db.forfeit_records db'.
Proof.
  intros Hm (Hcan & Hpart & Hopp). unfold process_forfeit.
  rewrite (mbind_step _ _ _ _ _ (get_match_found _ _ _ Hm)).
  assert (validate_can_forfeit m reg = Ok tt) as Hv.
  { unfold validate_can_forfeit. rewrite Hcan. cbn [negb].
    destruct Hpart as [Hp|Hp]; rewrite (bool_decide_true (_ = _) Hp); cbn; by rewrite ?andb_false_r. }
  rewrite Hv. change (mbind (mlift (Ok tt)) ?k db) with (k tt db). cbv beta.
  unfold determine_winner. fold (opponent reg m). rewrite Hopp.
  change (mbind (mlift (ok_or (Some w) ?e)) ?k db) with (k w db). cbv beta.
  destruct (create_forfeit_record_run id reg ty why (ForfeitTrigger.user_id who)
    (ForfeitTrigger.is_system who) db) as (r & db1 & Hrun & Hms & Hnow & Hid & Hreg & Hin).
  rewrite (mbind_step _ _ _ _ _ Hrun). unfold forfeit_match.
  rewrite <- Hms in Hm. rewrite (mbind_step _ _ _ _ _ (update_match_found _ _ _ _ Hm)).
  eexists _, _. split; [reflexivity|]. cbn. by rewrite Hms, Hnow.
Qed.

Lemma process_forfeit_err id reg ty why who m db :
  Db.matches db !! id = Some m → (∀ w, ¬ forfeitable reg w m) →
  is_ok (process_forfeit id reg ty why who db).1 = false ∧
  (∃ e, (process_forfeit id reg ty why who db).1 = throw e) ∧
  (process_forfeit id reg ty why who db).2 = db.
Proof.
  intros Hm Hno. unfold process_forfeit.
  rewrite (mbind_step _ _ _ _ _ (get_match_found _ _ _ Hm)).
  unfold validate_can_forfeit.
  destruct (TournamentMatchStatus.can_forfeit (status m)) eqn:Hcan; cbn [negb];
    [|split; [done|]; split; [by eexists|done]].
  destruct (decide (participates reg m)) as [Hp|Hp].
  - assert (negb (bool_decide (TournamentMatch.participant1_registration_id m = Some reg))
      && negb (bool_decide (TournamentMatch.participant2_registration_id m = Some reg)) = false) as ->.
    { destruct Hp as [Hp|Hp]; rewrite (bool_decide_true (_ = _) Hp); cbn; by rewrite ?andb_false_r. }
    change (mbind (mlift (Ok tt)) ?k db) with (k tt db). cbv beta.
    unfold determine_winner. fold (opponent reg m).
    destruct (opponent reg m) as [w|] eqn:Ho; [by destruct (Hno w)|]. split; [done|]. split; [by eexists|done].
  - assert (negb (bool_decide (TournamentMatch.participant1_registration_id m = Some reg))
      && negb (bool_decide (TournamentMatch.participant2_registration_id m = Some reg)) = true) as ->.
    { unfold participates in Hp. rewrite !bool_decide_false by tauto. done. }
    split; [done|]. split; [by eexists|done].
Qed.

(** A forfeit goes through exactly for a participant with an opponent in a
  match whose status allows it: then the match is forfeited to the opponent, a
  forfeit record of the entry exists, whether or not an interrupted attempt had
  already written one, and no other match changes. Otherwise nothing does. *)
Theorem process_forfeit_spec id registration forfeit_type reason who m db :
  Db.matches db !! id = Some m →
  let '(r, db') := process_forfeit id registration forfeit_type reason who db in
  (is_ok r = true ↔ ∃ winner, forfeitable registration winner m) ∧
  (∀ winner, forfeitable registration winner m →
     Db.matches db' = <[id := forfeited (Db.now db) winner registration m]> (Db.matches db) ∧
     ∃ record, record ∈ Db.forfeit_records db' ∧ ForfeitRecord.match_id record = id ∧
       ForfeitRecord.forfeiting_registration_id record = registration) ∧
  (is_ok r = false → db' = db).
Proof.
  intros Hm. destruct (decide (TournamentMatchStatus.can_forfeit (status m) = true ∧
    participates registration m ∧ is_Some (opponent registration m))) as [(Hcan & Hp & [w Hw])|Hno].
  - destruct (process_forfeit_ok id registration forfeit_type reason who m w db Hm (conj Hcan (conj Hp Hw)))
      as (r & db' & -> & Hms & Hid & Hreg & Hin).
    split; [split; [by exists w|done]|]. split; [|done].
    intros w' (_ & _ & Hw'). simplify_eq. split; [done|]. by exists r.
  - assert (∀ w, ¬ forfeitable registration w m) as Hnone.
    { intros w (? & ? & ?). apply Hno. repeat split; [done..|by exists w]. }
    destruct (process_forfeit_err id registration forfeit_type reason who m db Hm Hnone) as (Hok & _ & Hdb).
    destruct (process_forfeit id registration forfeit_type reason who db) as [r db'].
    cbn in Hok, Hdb. subst db'. split; [rewrite Hok; split; [done|]; intros [w Hw]; by destruct (Hnone w)|].
    split; [intros w Hw; by destruct (Hnone w)|done].
Qed.

(** ** Withdrawing from a tournament *)

(** The statuses a withdrawal finds and the forfeit accepts. *)
Definition withdrawal_reaches (s : TournamentMatchStatus.t) : bool :=
  match s with TournamentMatchStatus.Scheduled | TournamentMatchStatus.CheckingIn => true | _ => false end.

(** Rows of [db0] are as they were, or were reached and are forfeited. *)
Definition forfeits_progress (reg : TournamentRegistrationId) (db0 db : Db.t) : Prop :=
  ∀ id m, Db.matches db0 !! id = Some m →
    Db.matches db !! id = Some m ∨
    (withdrawal_reaches (status m) = true ∧ participates reg m ∧
     ∃ m', Db.matches db !! id = Some m' ∧ status m' = TournamentMatchStatus.Forfeit ∧
       TournamentMatch.winner_registration_id m' = opponent reg m).

Section loop.
Context (reg : TournamentRegistrationId) (ty : ForfeitType.t) (why : option string)
  (who : ForfeitTrigger.t) (db0 : Db.t).

(** One round of the loop, on a match found before it. *)
Lemma forfeit_step id m db :
  Db.matches db0 !! id = Some m → is_pending_for_forfeit m = true → forfeits_progress reg db0 db →
  let '(r, db') := process_forfeit id reg ty why who db in
  r ≠ Err Panic ∧ forfeits_progress reg db0 db' ∧
  (withdrawal_reaches (status m) = true → participates reg m → is_Some (opponent reg m) →
     ∃ m', Db.matches db' !! id = Some m' ∧ status m' = TournamentMatchStatus.Forfeit) ∧
  (∀ id' m', Db.matches db !! id' = Some m' → status m' = TournamentMatchStatus.Forfeit →
     Db.matches db' !! id' = Some m').
Proof.
  intros Hm Hpend Hprog.
  assert (∃ cur, Db.matches db !! id = Some cur ∧
    (cur = m ∨ status cur = TournamentMatchStatus.Forfeit)) as (cur & Hcur & Hor).
  { destruct (Hprog id m Hm) as [?|(_ & _ & m' & ? & ? & _)]; eauto. }
  destruct (decide (TournamentMatchStatus.can_forfeit (status cur) = true ∧
    participates reg cur ∧ is_Some (opponent reg cur))) as [(Hcan & Hp & [w Hw])|Hno].
  - assert (cur = m) as -> by (destruct Hor as [?|Hs]; [done|by rewrite Hs in Hcan]).
    destruct (process_forfeit_ok id reg ty why who m w db Hcur (conj Hcan (conj Hp Hw)))
      as (r & db' & -> & Hms & _).
    assert (withdrawal_reaches (status m) = true) as Hreach.
    { unfold is_pending_for_forfeit in Hpend. by destruct (status m). }
    split; [done|]. split; [|split].
    + intros id' m' Hm'. rewrite Hms. destruct (decide (id = id')) as [<-|Hne].
      * simplify_eq. right. split; [done|]. split; [done|].
        rewrite lookup_insert_eq. eexists. split; [done|]. split; [done|]. by rewrite Hw.
      * rewrite lookup_insert_ne by done. by apply Hprog.
    + intros _ _ _. rewrite Hms, lookup_insert_eq. by eexists.
    + intros id' m' Hm' Hs'. rewrite Hms, lookup_insert_ne; [done|]. intros <-. simplify_eq.
      by rewrite Hs' in Hcan.
  - destruct (process_forfeit_err id reg ty why who cur db Hcur) as (Hok & [e He] & Hdb).
    { intros w (? & ? & ?). apply Hno. repeat split; [done..|by exists w]. }
    destruct (process_forfeit id reg ty why who db) as [r db']. cbn in *. subst db'.
    split; [by rewrite He|]. split; [done|]. split; [|done].
    intros Hreach Hp Ho. exists cur. split; [done|]. destruct Hor as [->|]; [|done].
    destruct Hno. split; [by destruct (status m)|done].
Qed.

(** The whole loop. *)
Lemma forfeit_loop l db :
  (∀ m, m ∈ l → Db.matches db0 !! TournamentMatch.id m = Some m ∧ is_pending_for_forfeit m = true) →
  forfeits_progress reg db0 db →
  let '(r, db') := forfeit_each (λ id, process_forfeit id reg ty why who) l db in
  is_ok r = true ∧ forfeits_progress reg db0 db' ∧
  (∀ m, m ∈ l → withdrawal_reaches (status m) = true → participates reg m →
     is_Some (opponent reg m) →
     ∃ m', Db.matches db' !! TournamentMatch.id m = Some m' ∧ status m' = TournamentMatchStatus.Forfeit) ∧
  (∀ id' m', Db.matches db !! id' = Some m' → status m' = TournamentMatchStatus.Forfeit →
     Db.matches db' !! id' = Some m').
Proof.
  revert db. induction l as [|m l IH]; intros db Hl Hprog.
  { cbn. split; [done|]. split; [done|]. split; [set_solver|done]. }
  cbn [forfeit_each]. destruct (Hl m) as [Hm Hpend]; [apply elem_of_cons; by left|].
  pose proof (forfeit_step (TournamentMatch.id m) m db Hm Hpend Hprog) as Hstep.
  destruct (process_forfeit (TournamentMatch.id m) reg ty why who db) as [r db1].
  destruct Hstep as (Hpanic & Hprog1 & Hdone & Hkeep).
  assert (∀ m', m' ∈ l → Db.matches db0 !! TournamentMatch.id m' = Some m' ∧
    is_pending_for_forfeit m' = true) as Hl' by (intros m' ?; apply Hl, elem_of_cons; by right).
  specialize (IH db1 Hl' Hprog1). unfold mbind.
  destruct (forfeit_each _ l db1) as [rs db2] eqn:Hrest. destruct IH as (Hok & Hprog2 & Hall & Hkeep2).
  assert (∀ m0, m0 ∈ m :: l → withdrawal_reaches (status m0) = true → participates reg m0 →
     is_Some (opponent reg m0) →
     ∃ m', Db.matches db2 !! TournamentMatch.id m0 = Some m' ∧ status m' = TournamentMatchStatus.Forfeit) as Hevery.
  { intros m0 [->|Hin]%elem_of_cons; [|by apply Hall]. intros Hr Hp Ho.
    destruct (Hdone Hr Hp Ho) as (m' & Hm' & Hs'). exists m'. split; [by apply Hkeep2|done]. }
  assert (∀ id' m', Db.matches db !! id' = Some m' → status m' = TournamentMatchStatus.Forfeit →
     Db.matches db2 !! id' = Some m') as Hkeep3 by eauto.
  destruct r as [x|[e|]]; [| |done].
  - rewrite ?Hrest. destruct rs as [xs|e]; [|done]. by repeat split.
  - rewrite ?Hrest. by repeat split.
Qed.
End loop.

Lemma elem_of_matches_of_participant reg m db :
  m ∈ matches_of_participant reg db ↔ participates reg m ∧ ∃ id, Db.matches db !! id = Some m.
Proof.
  unfold matches_of_participant. rewrite stable_sort_perm, list_elem_of_filter, list_elem_of_fmap.
  split; intros [Hb Hm]; (split; [done|]).
  - destruct Hm as ([id m'] & -> & Hin). exists id. by apply elem_of_map_to_list.
  - destruct Hm as [id Hid]. exists (id, m). split; [done|]. by apply elem_of_map_to_list.
Qed.

(** Withdrawing an entry forfeits to the opponent exactly its matches that
  are scheduled or checking in; a match of it in any other status, ready and in
  progress included, is left exactly as it was. *)
Theorem withdrawal_reach tournament registration reason who reg db :
  well_keyed db →
  Db.registrations db !! registration = Some reg →
  TournamentRegistration.tournament_id reg = tournament →
  TournamentRegistrationStatus.can_withdraw (TournamentRegistration.status reg) = true →
  let '(r, db') := withdraw_from_tournament tournament registration reason who db in
  is_ok r = true ∧
  ∀ id m, Db.matches db !! id = Some m →
    (withdrawal_reaches (status m) = false → Db.matches db' !! id = Some m) ∧
    (withdrawal_reaches (status m) = true → participates registration m → is_Some (opponent registration m) →
       ∃ m', Db.matches db' !! id = Some m' ∧ status m' = TournamentMatchStatus.Forfeit ∧
         TournamentMatch.winner_registration_id m' = opponent registration m).
Proof.
  intros Hwk Hr Ht Hcan. unfold withdraw_from_tournament.
  assert (registration_of_tournament tournament registration db = (Ok reg, db)) as Hreg.
  { unfold registration_of_tournament, find_registration_by_id, mbind, mread, mlift, mret.
    rewrite Hr. cbn. by rewrite bool_decide_true. }
  rewrite (mbind_step _ _ _ _ _ Hreg), Hcan. cbn [negb]. unfold update_registration_status.
  unfold mbind at 1. rewrite Hr. cbv beta iota zeta.
  set (db1 := db <| Db.registrations := _ |>). unfold find_pending_matches.
  set (l := filter (λ m, is_pending_for_forfeit m = true) (matches_of_participant registration db1)).
  change (mbind (mbind (mread ?f) ?g) ?k db1) with (k l db1). cbv beta.
  pose proof (forfeit_loop registration ForfeitType.Withdrawal reason (ForfeitTrigger.User who) db1 l db1) as Hloop.
  destruct (forfeit_each _ l db1) as [r db'].
  destruct Hloop as (Hok & Hprog & Hall & _).
  - intros m [Hp (_ & id & Hm)%elem_of_matches_of_participant]%list_elem_of_filter.
    split; [|done]. by rewrite (Hwk id m Hm).
  - intros id m Hm. by left.
  - split; [done|]. intros id m Hm. change (Db.matches db1 !! id = Some m) in Hm. split.
    + intros Hno. destruct (Hprog id m Hm) as [?|(Hyes & _)]; [done|congruence].
    + intros Hyes Hp Ho. destruct (Hprog id m Hm) as [Hsame|(_ & _ & Hf)]; [|done]. exfalso.
      destruct (Hall m) as (m' & Hm' & Hs'); [|done..|].
      * apply list_elem_of_filter. split; [unfold is_pending_for_forfeit; by destruct (status m)|].
        apply elem_of_matches_of_participant. eauto.
      * rewrite (Hwk id m Hm) in Hm'. simplify_eq. by rewrite Hs' in Hyes.
Qed.

(** ** Double forfeits *)

(** A double forfeit looks at no status but cancelled: a match with two
  participants in any other status, a completed one included, is cancelled, its
  recorded winner kept. *)
Theorem double_forfeit_cancels_any id reason who m p1 p2 db :
  Db.matches db !! id = Some m →
  TournamentMatch.participant1_registration_id m = Some p1 →
  TournamentMatch.participant2_registration_id m = Some p2 →
  status m ≠ TournamentMatchStatus.Cancelled →
  let '(r, db') := process_double_forfeit id reason who db in
  is_ok r = true ∧
  Db.matches db' !! id = Some (m <| TournamentMatch.status := TournamentMatchStatus.Cancelled |>
                                 <| TournamentMatch.updated_at := Db.now db |>).
Proof.
  intros Hm Hp1 Hp2 Hs. unfold process_double_forfeit.
  rewrite (mbind_step _ _ _ _ _ (get_match_found _ _ _ Hm)), Hp1, Hp2.
  change (mbind (mlift (ok_or (Some p1) ?e)) ?k db) with (k p1 db). cbv beta.
  change (mbind (mlift (ok_or (Some p2) ?e)) ?k db) with (k p2 db). cbv beta.
  assert ((match status m with
     | TournamentMatchStatus.Cancelled => find_forfeit_by_match id
     | _ => mret None end) db = (Ok None, db)) as Hnone by by destruct (status m).
  rewrite (mbind_step _ _ _ _ _ Hnone).
  destruct (create_forfeit_record_run id p1 ForfeitType.Disqualification reason
    (ForfeitTrigger.user_id who) (ForfeitTrigger.is_system who) db) as (r1 & db1 & Hrun1 & Hms1 & Hnow1 & _).
  rewrite (mbind_step _ _ _ _ _ Hrun1).
  destruct (create_forfeit_record_run id p2 ForfeitType.Disqualification reason
    (ForfeitTrigger.user_id who) (ForfeitTrigger.is_system who) db1) as (r2 & db2 & Hrun2 & Hms2 & Hnow2 & _).
  rewrite (mbind_step _ _ _ _ _ Hrun2). unfold update_status.
  rewrite <- Hms1, <- Hms2 in Hm. rewrite (mbind_step _ _ _ _ _ (update_match_found _ _ _ _ Hm)).
  split; [done|]. cbn. rewrite lookup_insert_eq, Hnow2, Hnow1. reflexivity.
Qed.
End forfeit_props.

(** ** Witnesses *)

#[local] Existing Instance sample_platform.

Definition fixture (id : N) (s : TournamentMatchStatus.t) : TournamentMatch.t :=
  (sample_row id 5 1 (Z.of_N id) "" (None, None) (Some 1%N, Some 2%N)) <| TournamentMatch.status := s |>.

(** A scheduled, a ready and a completed match of the same two entrants. *)
Definition fixtures : Db.t :=
  sample_db [fixture 10 TournamentMatchStatus.Scheduled; fixture 11 TournamentMatchStatus.Ready;
             fixture 12 TournamentMatchStatus.Completed] [sample_bracket 5 1 BracketType.RoundRobin] [].

Lemma fixtures_keyed : well_keyed fixtures.
Proof.
  intros id m Hm.
  enough (map_Forall (λ id m, TournamentMatch.id m = id) (Db.matches fixtures)) as Hall by by apply Hall.
  apply (bool_decide_unpack _). vm_compute. exact I.
Qed.

Example process_forfeit_spec_witness :
  is_ok (process_forfeit 10 1%N ForfeitType.NoShow None (ForfeitTrigger.User 7%N) fixtures).1 = true.
Proof.
  pose proof (process_forfeit_spec 10 1%N ForfeitType.NoShow None (ForfeitTrigger.User 7%N)
    (fixture 10 TournamentMatchStatus.Scheduled) fixtures ltac:(vm_compute; reflexivity)) as Hspec.
  destruct (process_forfeit 10 1%N ForfeitType.NoShow None (ForfeitTrigger.User 7%N) fixtures) as [r db'].
  apply Hspec. exists 2%N. split; [reflexivity|]. split; [by left|]. vm_compute. reflexivity.
Defined.

(** The ready match of the withdrawn entry is still there. *)
Example withdrawal_reach_witness :
  Db.matches (withdraw_from_tournament 1 1%N None 7%N fixtures).2 !! 11%N =
  Some (fixture 11 TournamentMatchStatus.Ready).
Proof.
  pose proof (withdrawal_reach 1 1%N None 7%N
    ((sample_registration 1 (Some 1))) fixtures fixtures_keyed) as Hspec.
  destruct (withdraw_from_tournament 1 1%N None 7%N fixtures) as [r db'].
  destruct Hspec as [_ Hrows]; [vm_compute; reflexivity|reflexivity|reflexivity|].
  destruct (Hrows 11%N (fixture 11 TournamentMatchStatus.Ready)) as [Hkeep _]; [vm_compute; reflexivity|].
  by apply Hkeep.
Defined.

Example double_forfeit_cancels_any_witness :
  option_map status (Db.matches (process_double_forfeit 12 None (ForfeitTrigger.User 7%N) fixtures).2 !! 12%N) =
  Some TournamentMatchStatus.Cancelled.
Proof.
  pose proof (double_forfeit_cancels_any 12 None (ForfeitTrigger.User 7%N)
    (fixture 12 TournamentMatchStatus.Completed) 1 2 fixtures) as Hspec.
  destruct (process_double_forfeit 12 None (ForfeitTrigger.User 7%N) fixtures) as [r db'].
  destruct Hspec as [_ Hrow]; [vm_compute; reflexivity|reflexivity|reflexivity|discriminate|].
  cbn [snd]. by rewrite Hrow.
Defined.
