(* ===== verification/Actor.v ===== *)
(** Who speaks for a registration
    (crates/portal-domain/src/services/tournament/registration_actor.rs), over
    the roster lookups of adapters/league_team/member.rs and adapters/pug.rs. *)
From stdpp Require Import base list strings gmap.
From S2P Require Import Prelude Errors Wire TournamentTypes Entities CoreEnums DomainEnums Rows.
From S2P Require Import ResultModel LeagueModel Store StoreFacts.
#[local] Open Scope Z_scope.

Module RegistrationActor.
Record t := mk { user_id : UserId; player_id : PlayerId }.
Definition new (user_id : UserId) (player_id : PlayerId) : t := mk user_id player_id.
End RegistrationActor.

(** [Arc<dyn AdhocTeamRepository>], as far as the rule uses it: a look-up. *)
Module AdhocTeamRepository.
Record t `{Platform} := mk { is_member : Uuid → PlayerId → Db.t → outcome bool }.
End AdhocTeamRepository.

Section actor.
Context `{Platform}.

(** [SELECT COUNT( * ) .. WHERE .. AND left_at IS NULL], compared with 0. *)
Definition team_member (team_season_id : LeagueTeamSeasonId) (player_id : PlayerId) (db : Db.t) : bool :=
  existsb (λ m, bool_decide (LeagueTeamMember.team_season_id m = team_season_id ∧
                             LeagueTeamMember.player_id m = player_id ∧
                             LeagueTeamMember.left_at m = None)) (Db.league_team_members db).

Definition is_member (team_season_id : LeagueTeamSeasonId) (player_id : PlayerId) : M bool :=
  mread (team_member team_season_id player_id).

Definition adhoc_member (id : Uuid) (player_id : PlayerId) (db : Db.t) : bool :=
  existsb (λ m, bool_decide (AdhocTeamMember.adhoc_team_id m = id ∧
                             AdhocTeamMember.player_id m = player_id)) (Db.adhoc_team_members db).

(** [PgAdhocTeamRepository]. *)
Definition pg_adhoc_repo : AdhocTeamRepository.t :=
  AdhocTeamRepository.mk _ (λ id player_id db, Ok (adhoc_member id player_id db)).

Definition speaks_for_registration (adhoc_repo : option AdhocTeamRepository.t)
    (registration : TournamentRegistration.t) (actor : RegistrationActor.t) : M bool :=
  match TournamentRegistration.team_season_id registration with
  | Some team_season_id => is_member team_season_id (RegistrationActor.player_id actor)
  | None =>
      match TournamentRegistration.adhoc_team_id registration with
      | Some adhoc_uuid =>
          match adhoc_repo with
          | None => mret false
          | Some repo =>
              mquery (AdhocTeamRepository.is_member repo adhoc_uuid (RegistrationActor.player_id actor))
          end
      | None =>
          mret (bool_decide (TournamentRegistration.player_id registration =
                               Some (RegistrationActor.player_id actor)) ||
                bool_decide (TournamentRegistration.registered_by registration =
                               RegistrationActor.user_id actor))
      end
  end.

(** The loop over the match's filled slots. *)
Fixpoint find_speaking_for (adhoc_repo : option AdhocTeamRepository.t)
    (reg_ids : list TournamentRegistrationId) (actor : RegistrationActor.t)
    : M TournamentRegistrationId :=
  match reg_ids with
  | [] => mthrow (DomainError.NotAuthorized
            "User is not authorized to act for any participant in this match")
  | reg_id :: reg_ids =>
      let* registration := find_registration_by_id reg_id in
      match registration with
      | None => find_speaking_for adhoc_repo reg_ids actor
      | Some registration =>
          let* speaks := speaks_for_registration adhoc_repo registration actor in
          if speaks then mret reg_id else find_speaking_for adhoc_repo reg_ids actor
      end
  end.

(** The match's filled slots, in order. *)
Definition match_sides (match_ : TournamentMatch.t) : list TournamentRegistrationId :=
  omap id [TournamentMatch.participant1_registration_id match_;
           TournamentMatch.participant2_registration_id match_].

Definition find_actor_registration (adhoc_repo : option AdhocTeamRepository.t)
    (match_ : TournamentMatch.t) (actor : RegistrationActor.t) : M TournamentRegistrationId :=
  find_speaking_for adhoc_repo (match_sides match_) actor.

(** ** What the rule decides *)

(** The rule read off the tables, for the repositories of the application. *)
Definition speaks (registration : TournamentRegistration.t) (actor : RegistrationActor.t) (db : Db.t)
    : bool :=
  match TournamentRegistration.team_season_id registration,
        TournamentRegistration.adhoc_team_id registration with
  | Some team_season_id, _ => team_member team_season_id (RegistrationActor.player_id actor) db
  | None, Some adhoc => adhoc_member adhoc (RegistrationActor.player_id actor) db
  | None, None =>
      bool_decide (TournamentRegistration.player_id registration =
                     Some (RegistrationActor.player_id actor)) ||
      bool_decide (TournamentRegistration.registered_by registration = RegistrationActor.user_id actor)
  end.

Definition speaks_for_id (actor : RegistrationActor.t) (db : Db.t) (id : TournamentRegistrationId)
    : Prop :=
  ∃ r, Db.registrations db !! id = Some r ∧ speaks r actor db = true.
#[global] Instance speaks_for_id_dec actor db id : Decision (speaks_for_id actor db id).
Proof.
  refine (match Db.registrations db !! id as o return Db.registrations db !! id = o → _ with
          | Some r => λ Hr, if decide (speaks r actor db = true) then left _ else right _
          | None => λ Hr, right _ end eq_refl); unfold speaks_for_id; naive_solver.
Defined.

Lemma speaks_for_registration_run r actor db :
  speaks_for_registration (Some pg_adhoc_repo) r actor db = (Ok (speaks r actor db), db).
Proof.
  unfold speaks_for_registration, speaks.
  destruct (TournamentRegistration.team_season_id r); [done|].
  by destruct (TournamentRegistration.adhoc_team_id r).
Qed.

(** The first side, in slot order, the actor speaks for. *)
Lemma find_actor_registration_run match_ actor db :
  find_actor_registration (Some pg_adhoc_repo) match_ actor db =
  (match list_find (speaks_for_id actor db) (match_sides match_) with
   | Some (_, id) => Ok id
   | None => throw (DomainError.NotAuthorized
               "User is not authorized to act for any participant in this match")
   end, db).
Proof.
  unfold find_actor_registration. induction (match_sides match_) as [|reg ids IH]; [done|].
  simpl. unfold mbind at 1, find_registration_by_id, mread.
  destruct (Db.registrations db !! reg) as [r|] eqn:Hr.
  - rewrite (mbind_step _ _ _ _ _ (speaks_for_registration_run r actor db)).
    case_decide as Hs.
    + destruct Hs as (r' & Hr' & Hs). simplify_eq. by rewrite Hs.
    + destruct (speaks r actor db) eqn:Hb; [destruct Hs; by exists r|].
      rewrite IH. by destruct (list_find _ ids) as [[]|].
  - case_decide as Hs; [destruct Hs as (? & ? & _); congruence|].
    rewrite IH. by destruct (list_find _ ids) as [[]|].
Qed.

(** Whatever the ad-hoc repository, the rule reads only and answers with a side. *)
Lemma speaks_for_registration_reads repo r actor db :
  (speaks_for_registration repo r actor db).2 = db.
Proof.
  unfold speaks_for_registration.
  destruct (TournamentRegistration.team_season_id r); [done|].
  destruct (TournamentRegistration.adhoc_team_id r); [|done]. by destruct repo.
Qed.

Lemma find_actor_registration_reads repo match_ actor db r db' :
  find_actor_registration repo match_ actor db = (r, db') →
  db' = db ∧ (∀ id, r = Ok id → id ∈ match_sides match_).
Proof.
  unfold find_actor_registration. revert r db'.
  induction (match_sides match_) as [|reg ids IH]; simpl; intros r db'.
  { intros [= <- <-]. done. }
  unfold mbind at 1, find_registration_by_id, mread.
  destruct (Db.registrations db !! reg) as [row|].
  - unfold mbind. pose proof (speaks_for_registration_reads repo row actor db) as Hrd.
    destruct (speaks_for_registration repo row actor db) as [[[]|e] db1]; simpl in Hrd; subst db1.
    + intros [= <- <-]. split; [done|]. intros id [= <-]. left.
    + intros [-> Hs]%IH. split; [done|]. intros id Hid. right. auto.
    + intros [= <- <-]. done.
  - intros [-> Hs]%IH. split; [done|]. intros id Hid. right. auto.
Qed.

Lemma find_actor_registration_side match_ actor db id db' :
  find_actor_registration (Some pg_adhoc_repo) match_ actor db = (Ok id, db') →
  db' = db ∧ id ∈ match_sides match_ ∧ speaks_for_id actor db id.
Proof.
  rewrite find_actor_registration_run.
  destruct (list_find _ _) as [[i x]|] eqn:Hf; [|done]. intros [= <- <-].
  apply list_find_Some in Hf as (Hx & Hs & _). split; [done|]. split; [|done].
  by eapply list_elem_of_lookup_2.
Qed.

Lemma elem_of_match_sides match_ id :
  id ∈ match_sides match_ ↔
  TournamentMatch.participant1_registration_id match_ = Some id ∨
  TournamentMatch.participant2_registration_id match_ = Some id.
Proof.
  unfold match_sides. rewrite list_elem_of_omap. setoid_rewrite elem_of_cons.
  setoid_rewrite list_elem_of_singleton. simpl. naive_solver.
Qed.
End actor.
