(* ===== verification/RegistrationFacts.v ===== *)
(** Counting and changing registrations: what the capacity count sees of a
    write, and what no statement on registrations can break. *)
From stdpp Require Import base list strings gmap.
From S2P Require Import Prelude Errors Wire TournamentTypes CoreEnums Entities FormatPlan.
From S2P Require Import Rows TournamentModel Store StoreFacts TournamentStore.
#[local] Open Scope Z_scope.

Section facts.
Context `{Platform}.

(** ** Counting rows *)

Lemma rows_where_insert {A} (P : A → bool) (m : gmap N A) k r :
  m !! k = None →
  length (rows_where P (<[k := r]> m)) = ((if P r then 1 else 0) + length (rows_where P m))%nat.
Proof.
  intros Hk. unfold rows_where. rewrite map_to_list_insert by done. rewrite fmap_cons, filter_cons. cbn [snd].
  destruct (P r); [by rewrite decide_True|by rewrite decide_False].
Qed.

Lemma rows_where_delete {A} (P : A → bool) (m : gmap N A) k r :
  m !! k = Some r →
  length (rows_where P m) = ((if P r then 1 else 0) + length (rows_where P (delete k m)))%nat.
Proof.
  intros Hk. rewrite <- (insert_delete_id m k r Hk) at 1. apply rows_where_insert, lookup_delete_eq.
Qed.

Lemma rows_where_delete_le {A} (P : A → bool) (m : gmap N A) k :
  (length (rows_where P (delete k m)) ≤ length (rows_where P m))%nat.
Proof.
  destruct (m !! k) as [r|] eqn:Hk; [rewrite (rows_where_delete P m k r Hk); lia|].
  by rewrite delete_id.
Qed.

(** A row replaced: the count moves by what the condition says of the two. *)
Lemma rows_where_replace {A} (P : A → bool) (m : gmap N A) k r r' :
  m !! k = Some r → (P r' = true → P r = true) →
  (length (rows_where P (<[k := r']> m)) ≤ length (rows_where P m))%nat.
Proof.
  intros Hk HP. rewrite <- (insert_delete_eq m k r').
  rewrite rows_where_insert by apply lookup_delete_eq. rewrite (rows_where_delete P m k r Hk).
  destruct (P r') eqn:E; [by rewrite HP|lia].
Qed.

Lemma elem_of_rows_where {A} (P : A → bool) (m : gmap N A) r :
  r ∈ rows_where P m ↔ P r = true ∧ ∃ k, m !! k = Some r.
Proof.
  unfold rows_where. rewrite list_elem_of_filter, list_elem_of_fmap. split; intros [HP Hr]; (split; [done|]).
  - destruct Hr as ([k r'] & -> & Hk). exists k. by apply elem_of_map_to_list.
  - destruct Hr as [k Hk]. exists (k, r). split; [done|]. by apply elem_of_map_to_list.
Qed.


(** ** Registrations in order *)

(** Who a registration is for. *)
Definition participant_key (r : TournamentRegistration.t) :=
  (TournamentRegistration.tournament_id r, TournamentRegistration.team_season_id r,
   TournamentRegistration.player_id r, TournamentRegistration.adhoc_team_id r).

Definition takes_slot (id : TournamentId) (r : TournamentRegistration.t) : bool :=
  bool_decide (TournamentRegistration.tournament_id r = id) && TournamentRepository.holds_slot r.

(** The table of registrations in order: each row under an identifier handed
    out, for one participant, no two for the same one, and no tournament with
    more places taken than it has. *)
Record registrations_ok (db : Db.t) : Prop := {
  regs_keyed k r : Db.registrations db !! k = Some r → TournamentRegistration.id r = k;
  regs_fresh k : (Db.next_uuid db ≤ k)%N → Db.registrations db !! k = None;
  regs_one k r : Db.registrations db !! k = Some r → TournamentRegistrationRepository.one_participant r = true;
  regs_unique k k' r r' : Db.registrations db !! k = Some r → Db.registrations db !! k' = Some r' → k ≠ k' →
    TournamentRegistrationRepository.clashes r r' = None;
  regs_capacity id t : Db.tournaments db !! id = Some t →
    TournamentRepository.slots_taken id db ≤ Tournament.max_participants t;
  regs_tournaments id t : Db.tournaments db !! id = Some t → Tournament.id t = id;
}.

Lemma slots_taken_eq id db :
  TournamentRepository.slots_taken id db = Z.of_nat (length (rows_where (takes_slot id) (Db.registrations db))).
Proof. reflexivity. Qed.

Lemma clashes_keys r r' s s' :
  participant_key s = participant_key r → participant_key s' = participant_key r' →
  TournamentRegistrationRepository.clashes s s' = TournamentRegistrationRepository.clashes r r'.
Proof.
  unfold participant_key, TournamentRegistrationRepository.clashes. by intros [= -> -> -> ->] [= -> -> -> ->].
Qed.

Lemma one_participant_key r s :
  participant_key s = participant_key r →
  TournamentRegistrationRepository.one_participant s = TournamentRegistrationRepository.one_participant r.
Proof. unfold participant_key, TournamentRegistrationRepository.one_participant. by intros [= _ -> -> ->]. Qed.

(** ** Changing a row *)

(** [r'] may stand where [r] stood: the same participant's row, taking a place
    only if [r] took one. *)
Definition may_replace (r r' : TournamentRegistration.t) : Prop :=
  TournamentRegistration.id r' = TournamentRegistration.id r ∧ participant_key r' = participant_key r ∧
  (TournamentRepository.holds_slot r' = true → TournamentRepository.holds_slot r = true).

Lemma takes_slot_replace id r r' :
  may_replace r r' → takes_slot id r' = true → takes_slot id r = true.
Proof.
  unfold may_replace, participant_key, takes_slot. intros (_ & [= Ht _ _ _] & Hh). rewrite Ht.
  destruct (bool_decide _); [exact Hh|done].
Qed.

Definition with_registrations (rs : gmap N TournamentRegistration.t) (db : Db.t) : Db.t :=
  db <| Db.registrations := rs |>.

Lemma replaced_within db k r r' :
  registrations_ok db → Db.registrations db !! k = Some r →
  TournamentRegistration.id r' = TournamentRegistration.id r → participant_key r' = participant_key r →
  (∀ t, Db.tournaments db !! TournamentRegistration.tournament_id r = Some t →
     Z.of_nat (length (rows_where (takes_slot (TournamentRegistration.tournament_id r))
                         (<[k := r']> (Db.registrations db)))) ≤ Tournament.max_participants t) →
  registrations_ok (with_registrations (<[k := r']> (Db.registrations db)) db).
Proof.
  intros [Hk Hf Ho Hu Hc Htk] Hr Hid Hkey Hroom. split; cbn; [| | | | |exact Htk].
  - intros i s. rewrite lookup_insert_Some. intros [[<- <-]|[_ Hs]]; [rewrite Hid|]; by apply Hk.
  - intros i Hi. rewrite lookup_insert_None. split; [by apply Hf|]. intros <-. rewrite Hf in Hr by done. done.
  - intros i s. rewrite lookup_insert_Some. intros [[<- <-]|[_ Hs]]; [|by apply (Ho i)].
    rewrite (one_participant_key r) by done. by apply (Ho k).
  - intros i j s s'. rewrite !lookup_insert_Some.
    intros [[<- <-]|[Hi Hs]] [[<- <-]|[Hj Hs']] Hne; [done| | |by apply (Hu i j)].
    + rewrite (clashes_keys r s') by done. by apply (Hu k j).
    + rewrite (clashes_keys s r) by done. by apply (Hu i k).
  - intros i t Ht. rewrite slots_taken_eq. cbn.
    destruct (decide (i = TournamentRegistration.tournament_id r)) as [->|Hne]; [by apply Hroom|].
    specialize (Hc i t Ht). rewrite slots_taken_eq in Hc.
    pose proof (rows_where_replace (takes_slot i) (Db.registrations db) k r r' Hr) as Hle.
    assert (takes_slot i r' = false) as Hfalse.
    { unfold takes_slot. injection Hkey as Hti _ _ _. rewrite Hti. by rewrite bool_decide_false. }
    rewrite Hfalse in Hle. specialize (Hle ltac:(done)). lia.
Qed.

Lemma replaced_ok db k r r' :
  registrations_ok db → Db.registrations db !! k = Some r → may_replace r r' →
  registrations_ok (with_registrations (<[k := r']> (Db.registrations db)) db).
Proof.
  intros Hok Hr Hm. apply (replaced_within db k r); [done|done|apply Hm|apply Hm|]. intros t Ht.
  pose proof (regs_capacity db Hok _ t Ht) as Hc. rewrite slots_taken_eq in Hc.
  pose proof (rows_where_replace (takes_slot (TournamentRegistration.tournament_id r)) (Db.registrations db) k r r' Hr
    (takes_slot_replace _ r r' Hm)). lia.
Qed.

Lemma deleted_ok db k :
  registrations_ok db → registrations_ok (with_registrations (delete k (Db.registrations db)) db).
Proof.
  intros [Hk Hf Ho Hu Hc Htk]. split; cbn; [| | | | |exact Htk].
  - intros i s [_ Hs]%lookup_delete_Some. by apply Hk.
  - intros i Hi. apply lookup_delete_None. right. by apply Hf.
  - intros i s [_ Hs]%lookup_delete_Some. by apply (Ho i).
  - intros i j s s' [_ Hs]%lookup_delete_Some [_ Hs']%lookup_delete_Some. by apply (Hu i j).
  - intros i t Ht. rewrite slots_taken_eq. cbn. specialize (Hc i t Ht). rewrite slots_taken_eq in Hc.
    pose proof (rows_where_delete_le (takes_slot i) (Db.registrations db) k). lia.
Qed.

Lemma same_key_sym {A} `{EqDecision A} (a b : option A) :
  TournamentRegistrationRepository.same_key b a = TournamentRegistrationRepository.same_key a b.
Proof. destruct a, b; cbn; try done. by apply bool_decide_ext. Qed.

Lemma clashes_sym r s :
  TournamentRegistrationRepository.clashes r s = None → TournamentRegistrationRepository.clashes s r = None.
Proof.
  unfold TournamentRegistrationRepository.clashes.
  rewrite (bool_decide_ext (TournamentRegistration.tournament_id s = TournamentRegistration.tournament_id r)
    (TournamentRegistration.tournament_id r = TournamentRegistration.tournament_id s)) by done.
  by rewrite (same_key_sym (TournamentRegistration.team_season_id r)),
    (same_key_sym (TournamentRegistration.player_id r)), (same_key_sym (TournamentRegistration.adhoc_team_id r)).
Qed.

Lemma violated_none db r :
  TournamentRegistrationRepository.violated db r = None →
  TournamentRegistrationRepository.one_participant r = true ∧
  ∀ k s, Db.registrations db !! k = Some s → TournamentRegistrationRepository.clashes r s = None.
Proof.
  unfold TournamentRegistrationRepository.violated.
  destruct (TournamentRegistrationRepository.one_participant r); [|done]. cbn. intros Hh. split; [done|].
  intros k s Hs. destruct (TournamentRegistrationRepository.clashes r s) as [name|] eqn:Hc; [|done].
  apply head_None in Hh. exfalso.
  assert (name ∈ omap (TournamentRegistrationRepository.clashes r) (map_to_list (Db.registrations db)).*2) as Hin.
  { apply list_elem_of_omap. exists s. split; [|done].
    apply (list_elem_of_fmap_2 snd _ (k, s)). by apply elem_of_map_to_list. }
  rewrite Hh in Hin. by apply elem_of_nil in Hin.
Qed.

Lemma inserted_ok db r :
  registrations_ok db → TournamentRegistrationRepository.violated db r = None →
  TournamentRegistration.id r = Db.next_uuid db →
  (∀ t, Db.tournaments db !! TournamentRegistration.tournament_id r = Some t →
     TournamentRepository.slots_taken (TournamentRegistration.tournament_id r) db < Tournament.max_participants t) →
  registrations_ok (with_registrations (<[TournamentRegistration.id r := r]> (Db.registrations db))
    (db <| Db.next_uuid := N.succ (Db.next_uuid db) |>)).
Proof.
  intros [Hk Hf Ho Hu Hc Htk] [Hone Hclash]%violated_none Hid Hroom. split; cbn; [| | | | |exact Htk].
  - intros i s. rewrite lookup_insert_Some. intros [[<- <-]|[_ Hs]]; [done|by apply Hk].
  - intros i Hi. rewrite lookup_insert_None. split; [apply Hf; lia|lia].
  - intros i s. rewrite lookup_insert_Some. intros [[<- <-]|[_ Hs]]; [done|by apply (Ho i)].
  - intros i j s s'. rewrite !lookup_insert_Some.
    intros [[<- <-]|[Hi Hs]] [[<- <-]|[Hj Hs']] Hne; [done| | |by apply (Hu i j)].
    + by apply (Hclash j).
    + apply clashes_sym. by apply (Hclash i).
  - intros i t Ht. rewrite slots_taken_eq. cbn. specialize (Hc i t Ht). rewrite slots_taken_eq in Hc.
    rewrite rows_where_insert by (rewrite Hid; apply Hf; lia).
    destruct (takes_slot i r) eqn:Htake; [|lia]. apply andb_true_iff in Htake as [<-%bool_decide_eq_true _].
    specialize (Hroom t Ht). rewrite slots_taken_eq in Hroom. lia.
Qed.

(** ** The statements *)

Definition keeps_registrations (db db' : Db.t) : Prop := registrations_ok db → registrations_ok db'.

#[global] Instance keeps_registrations_preorder : PreOrder keeps_registrations.
Proof. split; [intros db Hok; exact Hok|]. intros x y z Hxy Hyz Hx. by apply Hyz, Hxy. Qed.

(** [UPDATE .. WHERE id = $1] of a row that may be so replaced. *)
Lemma update_row_ok id set db :
  registrations_ok db →
  (∀ r, Db.registrations db !! id = Some r → may_replace r (set (Db.now db) r)) →
  registrations_ok (TournamentRegistrationRepository.update_row id set db).2.
Proof.
  intros Hok Hset. unfold TournamentRegistrationRepository.update_row.
  destruct (Db.registrations db !! id) as [r|] eqn:Hr; [|done].
  apply (replaced_ok db id r); [done|done|]. by apply Hset.
Qed.

Lemma update_row_keeps id set :
  (∀ now r, may_replace r (set now r)) →
  preserves keeps_registrations (TournamentRegistrationRepository.update_row id set).
Proof. intros Hset db Hok. apply update_row_ok; [done|]. intros r _. apply Hset. Qed.

Lemma update_keeps id u : preserves keeps_registrations (TournamentRegistrationRepository.update id u).
Proof. apply update_row_keeps. done. Qed.

Lemma withdraw_keeps id : preserves keeps_registrations (TournamentRegistrationRepository.withdraw id).
Proof. apply update_row_keeps. done. Qed.

(** A status that frees the place, or a row that has one. *)
Lemma update_status_ok id st db :
  registrations_ok db →
  (∀ r, Db.registrations db !! id = Some r → TournamentRepository.holds_slot r = true ∨
     st = TournamentRegistrationStatus.Withdrawn ∨ st = TournamentRegistrationStatus.Disqualified) →
  registrations_ok (TournamentRegistrationRepository.update_status id st db).2.
Proof.
  intros Hok Hst. apply update_row_ok; [done|]. intros r Hr. split; [done|]. split; [done|].
  destruct (Hst r Hr) as [Hh|[-> | ->]]; done.
Qed.

Lemma check_in_keeps id by_ : preserves keeps_registrations (TournamentRegistrationRepository.check_in id by_).
Proof.
  intros db Hok. unfold TournamentRegistrationRepository.check_in.
  destruct (Db.registrations db !! id) as [r|] eqn:Hr; [|done].
  case_bool_decide as Hst; [|done]. apply update_row_ok; [done|]. intros r' Hr'. simplify_eq.
  split; [done|]. split; [done|]. intros _. unfold TournamentRepository.holds_slot. by rewrite Hst.
Qed.

Lemma clear_seeds_keeps id : preserves keeps_registrations (TournamentRegistrationRepository.clear_seeds id).
Proof.
  intros db [Hk Hf Ho Hu Hc Htk]. unfold TournamentRegistrationRepository.clear_seeds, mwrite. cbn [snd].
  match goal with |- context [?g <$> Db.registrations db] => set (f := g) end.
  assert (∀ r, may_replace r (f r)) as Hm by (intros r; unfold f; by case_bool_decide).
  clearbody f. split; cbn; [| | | | |exact Htk].
  - intros i r (s & <- & Hs)%lookup_fmap_Some. rewrite (proj1 (Hm s)). by apply Hk.
  - intros i Hi. by rewrite lookup_fmap, Hf.
  - intros i r (s & <- & Hs)%lookup_fmap_Some. rewrite (one_participant_key s) by apply Hm. by apply (Ho i).
  - intros i j r r' (s & <- & Hs)%lookup_fmap_Some (s' & <- & Hs')%lookup_fmap_Some Hne.
    rewrite (clashes_keys s s') by apply Hm. by apply (Hu i j).
  - intros i t Ht. specialize (Hc i t Ht). rewrite slots_taken_eq in *. cbn.
    etransitivity; [|exact Hc]. apply inj_le. clear -Hm. generalize (Db.registrations db) as m.
    induction m as [|k r m Hk IH] using map_ind; [by rewrite fmap_empty|].
    rewrite fmap_insert, !rows_where_insert by (rewrite ?lookup_fmap, ?Hk; done).
    destruct (takes_slot i (f r)) eqn:E; [|lia]. rewrite (takes_slot_replace i r (f r)) by (done || apply Hm). lia.
Qed.

(** The transaction that registers: the old row goes, the count is below the
    maximum, the new row enters. *)
Lemma create_with_capacity_check_keeps cmd old :
  preserves keeps_registrations (TournamentRegistrationRepository.create_with_capacity_check cmd old).
Proof.
  intros db Hok. destruct (TournamentRegistrationRepository.create_with_capacity_check cmd old db)
    as [[r|e] db'] eqn:Hrun; [|by apply transaction_err in Hrun as [-> _]].
  apply (proj1 (transaction_ok _ _ _ _)) in Hrun. cbn [snd].
  apply mbind_ok in Hrun as (max & db0 & [= <- <-] & Hrun).
  apply mbind_ok in Hrun as (max & db0 & Hmax & Hrun). unfold mlift in Hmax.
  destruct (Db.tournaments db !! _) as [t|] eqn:Ht; [|done]. injection Hmax as <- <-.
  apply mbind_ok in Hrun as ([] & db1 & Hdel & Hrun).
  assert (registrations_ok db1 ∧ Db.tournaments db1 = Db.tournaments db ∧ Db.next_uuid db1 = Db.next_uuid db)
    as (Hok1 & Hts & Hnext).
  { destruct old as [old|]; injection Hdel as <-; [|done]. split; [by apply deleted_ok|done]. }
  apply mbind_ok in Hrun as (n & db2 & [= <- <-] & Hrun).
  case_bool_decide as Hroom; [done|]. unfold TournamentRegistrationRepository.insert in Hrun.
  destruct (TournamentRegistrationRepository.violated _ _) as [name|] eqn:Hv; [done|].
  injection Hrun as _ <-. apply inserted_ok; [done|done|done|].
  cbn. intros t' Ht'. rewrite Hts, Ht in Ht'. injection Ht' as <-. lia.
Qed.

Lemma slots_of_others_eq id tid db :
  registrations_ok db →
  TournamentRegistrationRepository.slots_of_others id tid db =
  Z.of_nat (length (rows_where (takes_slot tid) (delete id (Db.registrations db)))).
Proof.
  intros Hok. unfold TournamentRegistrationRepository.slots_of_others. f_equal.
  pose proof (regs_keyed db Hok) as Hk. revert Hk. generalize (Db.registrations db). clear.
  intros m. induction m as [|k r m Hk IH] using map_ind; intros Hkey; [by rewrite delete_empty|].
  assert (TournamentRegistration.id r = k) as Hr by (apply Hkey, lookup_insert_eq).
  rewrite rows_where_insert by done. rewrite IH.
  2: { intros i s Hs. apply Hkey. rewrite lookup_insert_ne; [done|]. congruence. }
  destruct (decide (k = id)) as [->|Hne].
  - rewrite delete_insert_eq. rewrite (delete_id m id Hk).
    rewrite (bool_decide_false (TournamentRegistration.id r ≠ id)) by naive_solver. by rewrite andb_false_r.
  - rewrite delete_insert_ne by done. rewrite rows_where_insert by by rewrite lookup_delete_ne.
    rewrite (bool_decide_true (TournamentRegistration.id r ≠ id)) by by rewrite Hr. by rewrite andb_true_r.
Qed.

Lemma update_status_with_capacity_check_keeps id st :
  preserves keeps_registrations (TournamentRegistrationRepository.update_status_with_capacity_check id st).
Proof.
  intros db Hok. destruct (TournamentRegistrationRepository.update_status_with_capacity_check id st db)
    as [[r|e] db'] eqn:Hrun; [|by apply transaction_err in Hrun as [-> _]].
  apply (proj1 (transaction_ok _ _ _ _)) in Hrun. cbn [snd].
  apply mbind_ok in Hrun as (joined & db0 & [= <- <-] & Hrun).
  apply mbind_ok in Hrun as (t & db0 & Ht & Hrun). unfold mlift in Ht.
  destruct (Db.registrations db !! id) as [old|] eqn:Hold; [|done]. cbn in Ht.
  destruct (Db.tournaments db !! TournamentRegistration.tournament_id old) as [t'|] eqn:Htr; [|done].
  injection Ht as <- <-. apply mbind_ok in Hrun as (n & db1 & [= <- <-] & Hrun).
  case_bool_decide as Hroom; [done|]. unfold TournamentRegistrationRepository.update_status,
    TournamentRegistrationRepository.update_row in Hrun. rewrite Hold in Hrun. injection Hrun as _ <-.
  apply (replaced_within db id old); [done..|]. intros t Ht. rewrite Htr in Ht. injection Ht as <-.
  rewrite slots_of_others_eq in Hroom by done. rewrite (regs_tournaments db Hok _ _ Htr) in Hroom.
  rewrite <- insert_delete_eq, rows_where_insert by apply lookup_delete_eq.
  destruct (takes_slot _ _); lia.
Qed.
End facts.
