(* ===== verification/Registrations.v ===== *)
(** Registration, check-in and seeding
    (crates/portal-domain/src/services/tournament/{registration,checkin,seeding}.rs):
    how an entry is approved, refused, withdrawn or disqualified, checked in or
    marked absent, and given its seed. *)
From stdpp Require Import base list strings gmap.
From S2P Require Import Prelude Errors Wire TournamentTypes CoreEnums Entities FormatPlan Rows.
From S2P Require Import TournamentModel Store TournamentStore Actor.
#[local] Open Scope Z_scope.

(** Open tournaments approve by themselves. *)
Definition initial_registration_status (registration_type : RegistrationType.t)
    : TournamentRegistrationStatus.t :=
  match registration_type with
  | RegistrationType.Open => TournamentRegistrationStatus.Approved
  | RegistrationType.Approval | RegistrationType.InviteOnly | RegistrationType.Qualification =>
      TournamentRegistrationStatus.Pending
  end.

Section common.
Context `{Platform}.

Definition find_tournament (id : TournamentId) : M Tournament.t :=
  let* t := TournamentRepository.find_by_id id in
  mlift (ok_or t (Error (DomainError.TournamentNotFound id))).

Definition in_status {A} (what : string) (r : TournamentRegistration.t) : M A :=
  mthrow (DomainError.InvalidState ("Cannot " +:+ what +:+ " registration in "
    +:+ TournamentRegistrationStatus.fmt (TournamentRegistration.status r) +:+ " status")).
End common.

Module RegistrationService.
Section service.
Context `{Platform}.

(** [adhoc_repo] of the service. *)
Record t := mk { adhoc_repo : option AdhocTeamRepository.t }.
Definition new : t := mk None.
Definition with_adhoc_repo (repo : AdhocTeamRepository.t) (self : t) : t := mk (Some repo).

Definition speaks_for (self : t) (registration : TournamentRegistration.t)
    (actor : RegistrationActor.t) : M bool :=
  speaks_for_registration (adhoc_repo self) registration actor.

(** The loop over the memberships; what was [found] grows. *)
Fixpoint add_memberships (self : t) (tournament_id : TournamentId) (actor : RegistrationActor.t)
    (found : list TournamentRegistration.t) (memberships : list LeagueTeamSeasonId)
    : M (list TournamentRegistration.t) :=
  match memberships with
  | [] => mret found
  | team_season_id :: memberships =>
      if existsb (λ r, bool_decide (TournamentRegistration.team_season_id r = Some team_season_id)) found
      then add_memberships self tournament_id actor found memberships
      else
        let* registration := TournamentRegistrationRepository.find_by_team_season tournament_id team_season_id in
        match registration with
        | None => add_memberships self tournament_id actor found memberships
        | Some registration =>
            let* speaks := speaks_for self registration actor in
            add_memberships self tournament_id actor
              (if speaks : bool then found ++ [registration] else found) memberships
        end
  end.

(** [list_memberships_for_player], a view over the league's tables, is a
    parameter: the team seasons it lists for a player. *)
Definition list_for_actor (self : t) (list_memberships_for_player : PlayerId → M (list LeagueTeamSeasonId))
    (tournament_id : TournamentId) (actor : RegistrationActor.t) : M (list TournamentRegistration.t) :=
  let* own := TournamentRegistrationRepository.find_by_player tournament_id (RegistrationActor.player_id actor) in
  let* memberships := list_memberships_for_player (RegistrationActor.player_id actor) in
  add_memberships self tournament_id actor (option_list own) memberships.

(** The closure [get] and the sum over the participating statuses. *)
Definition count_of (by_status : list (TournamentRegistrationStatus.t * Z))
    (status : TournamentRegistrationStatus.t) : Z :=
  from_option (λ '(_, (_, n)), n) 0 (list_find (λ sn, sn.1 = status) by_status).

Definition is_participating (status : TournamentRegistrationStatus.t) : bool :=
  match status with
  | TournamentRegistrationStatus.Withdrawn | TournamentRegistrationStatus.Disqualified => false
  | _ => true
  end.

Definition sum_of (l : list (TournamentRegistrationStatus.t * Z)) : Z := foldr Z.add 0 l.*2.

Definition counts (tournament_id : TournamentId) : M RegistrationCounts.t :=
  let* by_status := TournamentRegistrationRepository.count_all_by_status tournament_id in
  mret {|
    RegistrationCounts.total := sum_of by_status;
    RegistrationCounts.participating :=
      sum_of (filter (λ sn, is_participating sn.1 = true) by_status);
    RegistrationCounts.pending := count_of by_status TournamentRegistrationStatus.Pending;
    RegistrationCounts.approved := count_of by_status TournamentRegistrationStatus.Approved;
    RegistrationCounts.checked_in := count_of by_status TournamentRegistrationStatus.CheckedIn;
    RegistrationCounts.active := count_of by_status TournamentRegistrationStatus.Active;
    RegistrationCounts.eliminated := count_of by_status TournamentRegistrationStatus.Eliminated;
    RegistrationCounts.disqualified := count_of by_status TournamentRegistrationStatus.Disqualified;
    RegistrationCounts.withdrawn := count_of by_status TournamentRegistrationStatus.Withdrawn;
    RegistrationCounts.no_show := count_of by_status TournamentRegistrationStatus.NoShow |}.

Definition get_registration (registration_id : TournamentRegistrationId) : M TournamentRegistration.t :=
  let* r := TournamentRegistrationRepository.find_by_id registration_id in
  mlift (ok_or r (Error (DomainError.TournamentRegistrationNotFound registration_id))).

(** Who withdraws is only logged. *)
Definition withdraw (registration_id : TournamentRegistrationId) (withdrawn_by : UserId)
    : M TournamentRegistration.t :=
  let* registration := get_registration registration_id in
  if negb (TournamentRegistrationStatus.can_withdraw (TournamentRegistration.status registration))
  then in_status "withdraw" registration
  else
    let* tournament := find_tournament (TournamentRegistration.tournament_id registration) in
    if bool_decide (Tournament.status tournament = TournamentStatus.InProgress)
       || bool_decide (Tournament.status tournament = TournamentStatus.Completed)
    then mthrow (DomainError.InvalidState "Cannot withdraw after tournament has started")
    else TournamentRegistrationRepository.withdraw registration_id.

Definition approve_registration (registration_id : TournamentRegistrationId) : M TournamentRegistration.t :=
  let* registration := get_registration registration_id in
  if bool_decide (TournamentRegistration.status registration = TournamentRegistrationStatus.Approved)
  then mret registration
  else if negb (bool_decide (TournamentRegistration.status registration = TournamentRegistrationStatus.Pending))
  then in_status "approve" registration
  else
    let* _ := find_tournament (TournamentRegistration.tournament_id registration) in
    TournamentRegistrationRepository.update_status_with_capacity_check registration_id
      TournamentRegistrationStatus.Approved.

(** [UpdateTournamentRegistration { admin_notes: Some(..), ..Default::default() }]. *)
Definition note (text : string) : UpdateTournamentRegistration.t :=
  UpdateTournamentRegistration.default <| UpdateTournamentRegistration.admin_notes := Some text |>.

Definition reject_registration (registration_id : TournamentRegistrationId) (reason : option string)
    : M TournamentRegistration.t :=
  let* registration := get_registration registration_id in
  if negb (bool_decide (TournamentRegistration.status registration = TournamentRegistrationStatus.Pending))
  then in_status "reject" registration
  else
    let* _ := match reason with
      | Some reason =>
          let* _ := TournamentRegistrationRepository.update registration_id (note ("Rejected: " +:+ reason)) in
          mret tt
      | None => mret tt
      end in
    TournamentRegistrationRepository.update_status registration_id TournamentRegistrationStatus.Withdrawn.

Definition disqualify (registration_id : TournamentRegistrationId) (reason : string)
    : M TournamentRegistration.t :=
  let* registration := get_registration registration_id in
  if TournamentRegistrationStatus.is_terminal (TournamentRegistration.status registration)
  then in_status "disqualify" registration
  else
    let* _ := TournamentRegistrationRepository.update registration_id (note ("Disqualified: " +:+ reason)) in
    TournamentRegistrationRepository.update_status registration_id TournamentRegistrationStatus.Disqualified.

Definition list_registrations (tournament_id : TournamentId)
    (status_filter : option TournamentRegistrationStatus.t) (limit offset : Z)
    : M (list TournamentRegistration.t * Z) :=
  TournamentRegistrationRepository.list_by_tournament tournament_id status_filter limit offset.

Definition check_eligibility (tournament_id : TournamentId) : M unit :=
  let* tournament := find_tournament tournament_id in
  let* now := mread Db.now in
  if negb (Tournament.is_registration_open now tournament) then mthrow DomainError.TournamentNotOpen
  else
    let* current_count := TournamentRepository.count_registrations tournament_id in
    if bool_decide (Tournament.max_participants tournament ≤ current_count)
    then mthrow DomainError.TournamentFull
    else mret tt.

Definition initial_status_for_tournament : RegistrationType.t → TournamentRegistrationStatus.t :=
  initial_registration_status.
End service.
End RegistrationService.

Module CheckInService.
Section service.
Context `{Platform}.

Definition already {A} : M A := mthrow (DomainError.Conflict "Already checked in").

Definition check_in (registration_id : TournamentRegistrationId) (checked_in_by : UserId)
    : M TournamentRegistration.t :=
  let* registration := RegistrationService.get_registration registration_id in
  if TournamentRegistration.checked_in registration then already
  else if negb (TournamentRegistrationStatus.can_check_in (TournamentRegistration.status registration))
  then in_status "check in" registration
  else
    let* tournament := find_tournament (TournamentRegistration.tournament_id registration) in
    let* now := mread Db.now in
    if Tournament.check_in_required tournament && negb (Tournament.is_check_in_open now tournament)
    then mthrow (DomainError.InvalidState "Check-in is not currently open")
    else TournamentRegistrationRepository.check_in registration_id checked_in_by.

Definition admin_check_in (registration_id : TournamentRegistrationId) (admin_user_id : UserId)
    : M TournamentRegistration.t :=
  let* registration := RegistrationService.get_registration registration_id in
  if TournamentRegistration.checked_in registration then already
  else if negb (bool_decide (TournamentRegistration.status registration = TournamentRegistrationStatus.Approved))
          && negb (bool_decide (TournamentRegistration.status registration = TournamentRegistrationStatus.Pending))
  then in_status "check in" registration
  else
    let* _ :=
      (if bool_decide (TournamentRegistration.status registration = TournamentRegistrationStatus.Pending)
       then let* _ := TournamentRegistrationRepository.update_status registration_id
                        TournamentRegistrationStatus.Approved in mret tt
       else mret tt) in
    TournamentRegistrationRepository.check_in registration_id admin_user_id.

(** The loop over the approved registrations. *)
Fixpoint mark_no_shows (registrations : list TournamentRegistration.t) : M (list TournamentRegistration.t) :=
  match registrations with
  | [] => mret []
  | registration :: registrations =>
      if TournamentRegistration.checked_in registration then mark_no_shows registrations
      else
        let* updated := TournamentRegistrationRepository.update_status
                          (TournamentRegistration.id registration) TournamentRegistrationStatus.NoShow in
        let* no_shows := mark_no_shows registrations in
        mret (updated :: no_shows)
  end.

Definition process_no_shows (tournament_id : TournamentId) : M (list TournamentRegistration.t) :=
  let* tournament := find_tournament tournament_id in
  if negb (Tournament.check_in_required tournament)
  then mthrow (DomainError.InvalidState "Tournament does not require check-in")
  else
    let* registrations := TournamentRegistrationRepository.list_all_by_tournament tournament_id
                            (Some TournamentRegistrationStatus.Approved) in
    mark_no_shows registrations.

Definition get_check_in_status (tournament_id : TournamentId) : M CheckInStatus.t :=
  let* tournament := find_tournament tournament_id in
  let* now := mread Db.now in
  let* checked_in_count := TournamentRegistrationRepository.count_by_status tournament_id
                             TournamentRegistrationStatus.CheckedIn in
  let* approved_count := TournamentRegistrationRepository.count_by_status tournament_id
                           TournamentRegistrationStatus.Approved in
  mret {|
    CheckInStatus.tournament_id := tournament_id;
    CheckInStatus.check_in_required := Tournament.check_in_required tournament;
    CheckInStatus.check_in_open := Tournament.is_check_in_open now tournament;
    CheckInStatus.checked_in_count := checked_in_count;
    CheckInStatus.total_eligible := checked_in_count + approved_count |}.
End service.
End CheckInService.

Module SeedingService.
Section service.
Context `{Platform}.

(** Exhaustive: everyone who checked in, or else everyone approved. *)
Definition get_eligible_participants (tournament_id : TournamentId) : M (list TournamentRegistration.t) :=
  let* checked_in := TournamentRegistrationRepository.list_all_by_tournament tournament_id
                       (Some TournamentRegistrationStatus.CheckedIn) in
  match checked_in with
  | _ :: _ => mret checked_in
  | [] => TournamentRegistrationRepository.list_all_by_tournament tournament_id
            (Some TournamentRegistrationStatus.Approved)
  end.

Definition seeded (idx : nat) (rating : option Z) (r : TournamentRegistration.t) : Seeded.t :=
  Seeded.mk (TournamentRegistration.id r) (TournamentRegistration.participant_name r)
    (as_i32 (Z.of_nat idx + 1)) rating.

(** [shuffled] is what [SliceRandom::shuffle] makes of the indices [0 .. n). *)
Definition seed_random (shuffled : list nat) (registrations : list TournamentRegistration.t)
    : outcome (list Seeded.t) :=
  let? picked := try_fold (λ acc reg_idx,
    let? r := index registrations (Z.of_nat reg_idx) in Ok (acc ++ [r])) [] shuffled in
  Ok (imap (λ idx, seeded idx None) picked).

Definition rating_of (r : TournamentRegistration.t) : Z :=
  default 1000 (TournamentRegistration.seed_rating r).

Definition rated_no_lower (a b : TournamentRegistration.t) : bool :=
  bool_decide (rating_of b ≤ rating_of a).

(** [sort_by] is stable. *)
Definition seed_by_rating (registrations : list TournamentRegistration.t) : list Seeded.t :=
  imap (λ idx r, seeded idx (Some (rating_of r)) r) (stable_sort rated_no_lower registrations).

(** [UpdateTournamentRegistration { seed: Some(..), seed_rating: .., ..Default::default() }]. *)
Definition seed_update (seed : Z) (seed_rating : option Z) : UpdateTournamentRegistration.t :=
  UpdateTournamentRegistration.default
    <| UpdateTournamentRegistration.seed := Some seed |>
    <| UpdateTournamentRegistration.seed_rating := seed_rating |>.

Definition persist_seeds (participants : list Seeded.t) : M unit :=
  mfor participants (λ p,
    let* _ := TournamentRegistrationRepository.update (Seeded.registration_id p)
                (seed_update (Seeded.seed p) (Seeded.seed_rating p)) in
    mret tt).

Definition auto_seed (shuffle : nat → list nat) (tournament_id : TournamentId)
    (algorithm : SeedingAlgorithm.t) : M (list Seeded.t) :=
  let* _ := find_tournament tournament_id in
  let* eligible := get_eligible_participants tournament_id in
  match eligible with
  | [] => mthrow DomainError.InsufficientParticipants
  | _ :: _ =>
      let* participants := mlift (match algorithm with
        | SeedingAlgorithm.Random => seed_random (shuffle (length eligible)) eligible
        | SeedingAlgorithm.Rating => Ok (seed_by_rating eligible)
        | SeedingAlgorithm.SeasonRank => throw (DomainError.InvalidState
            "Season-rank seeding is not implemented — use rating or random seeding")
        | SeedingAlgorithm.Manual => throw (DomainError.InvalidState "Use manual_seed for manual seeding")
        end) in
      let* _ := persist_seeds participants in
      mret participants
  end.

(** The first equal neighbours of the sorted numbers. *)
Fixpoint first_duplicate (sorted : list Z) : option Z :=
  match sorted with
  | a :: ((b :: _) as rest) => if bool_decide (a = b) then Some a else first_duplicate rest
  | _ => None
  end.

Definition le_leb (a b : Z) : bool := bool_decide (a ≤ b).

(** The loop of [manual_seed]: each entry is checked, then written. *)
Fixpoint seed_each (tournament_id : TournamentId) (seeds : list (TournamentRegistrationId * Z))
    : M (list Seeded.t) :=
  match seeds with
  | [] => mret []
  | (registration_id, seed) :: seeds =>
      let* registration := RegistrationService.get_registration registration_id in
      if negb (bool_decide (TournamentRegistration.tournament_id registration = tournament_id))
      then mthrow (DomainError.InvalidState ("Registration " +:+ uuid_string registration_id
             +:+ " does not belong to tournament " +:+ uuid_string tournament_id))
      else
        let* _ := TournamentRegistrationRepository.update registration_id (seed_update seed None) in
        let* rest := seed_each tournament_id seeds in
        mret (Seeded.mk registration_id (TournamentRegistration.participant_name registration) seed
                (TournamentRegistration.seed_rating registration) :: rest)
  end.

Definition seed_leb (a b : Seeded.t) : bool := bool_decide (Seeded.seed a ≤ Seeded.seed b).

Definition manual_seed (tournament_id : TournamentId) (seeds : list (TournamentRegistrationId * Z))
    : M (list Seeded.t) :=
  let* _ := find_tournament tournament_id in
  let seed_numbers := stable_sort le_leb seeds.*2 in
  match first_duplicate seed_numbers with
  | Some n => mthrow (DomainError.InvalidState ("Duplicate seed number: " +:+ pretty n))
  | None =>
      if from_option (λ s, bool_decide (s < 1)) false (head seed_numbers)
      then mthrow (DomainError.InvalidState "Seeds must be positive")
      else
        let* seeded := seed_each tournament_id seeds in
        mret (stable_sort seed_leb seeded)
  end.

Definition seeded_of_row (r : TournamentRegistration.t) : option Seeded.t :=
  (λ seed, Seeded.mk (TournamentRegistration.id r) (TournamentRegistration.participant_name r) seed
     (TournamentRegistration.seed_rating r)) <$> TournamentRegistration.seed r.

Definition get_current_seeding (tournament_id : TournamentId) : M (list Seeded.t) :=
  let* _ := find_tournament tournament_id in
  let* registrations := TournamentRegistrationRepository.list_seeded tournament_id in
  mret (omap seeded_of_row registrations).

Definition clear_seeding (tournament_id : TournamentId) : M unit :=
  let* _ := find_tournament tournament_id in
  TournamentRegistrationRepository.clear_seeds tournament_id.
End service.
End SeedingService.
