(* ===== verification/Tournaments.v ===== *)
(** [TournamentService] (crates/portal-domain/src/services/tournament/service.rs):
    creating and publishing a tournament, its invitations and registrations,
    and its start: the bracket of its format generated, stored, seated, wired and
    marked ready; later Swiss rounds. *)
From Stdlib Require Import Floats.SpecFloat.
From stdpp Require Import base list strings gmap.
From S2P Require Import Prelude Errors Wire TournamentTypes CoreEnums Entities BracketModel FormatPlan.
From S2P Require Import Elimination Rounds Rows.
From S2P Require Import TournamentModel Store TournamentStore Standings Helpers Progression Registrations.
#[local] Open Scope Z_scope.

(** [i32] to [usize]: a negative number wraps. *)
Definition as_usize (n : Z) : Z := n `mod` 2 ^ 64.

(** [(n as f64).log2().ceil() as i32]: of nothing minus infinity, cast to the
    least [i32]; otherwise exact for every count a table can hold. *)
Definition log2_ceil (n : Z) : Z := if bool_decide (n = 0) then i32_min else Z.log2_up n.

Module TournamentService.
Section service.
Context `{Platform}.

(** ** A tournament's own row *)

Definition get_tournament (id : TournamentId) : M Tournament.t := find_tournament id.

Definition invalid_field {A} (field message code : string) : M A :=
  mthrow (DomainError.Validation (ValidationError.of_field (FieldError.mk field message code))).

Definition invalid_range {A} : M A :=
  invalid_field "min_participants" "min_participants cannot be greater than max_participants" "invalid_range".

Definition slug_conflict {A} (slug : string) : M A :=
  mthrow (DomainError.Conflict ("Tournament with slug '" +:+ slug +:+ "' already exists")).

(** The row [create_tournament] asks for. *)
Definition create_command (cmd : CreateTournamentCommand.t) (created_by : UserId) : CreateTournament.t := {|
  CreateTournament.game_id := CreateTournamentCommand.game_id cmd;
  CreateTournament.league_id := CreateTournamentCommand.league_id cmd;
  CreateTournament.season_id := CreateTournamentCommand.season_id cmd;
  CreateTournament.name := CreateTournamentCommand.name cmd;
  CreateTournament.slug := CreateTournamentCommand.slug cmd;
  CreateTournament.description := CreateTournamentCommand.description cmd;
  CreateTournament.format := CreateTournamentCommand.format cmd;
  CreateTournament.format_settings := default (json_of_object []) (CreateTournamentCommand.format_settings cmd);
  CreateTournament.participant_type := CreateTournamentCommand.participant_type cmd;
  CreateTournament.kind := TournamentKind.Standard;
  CreateTournament.team_size := CreateTournamentCommand.team_size cmd;
  CreateTournament.min_participants := CreateTournamentCommand.min_participants cmd;
  CreateTournament.max_participants := CreateTournamentCommand.max_participants cmd;
  CreateTournament.registration_type := CreateTournamentCommand.registration_type cmd;
  CreateTournament.registration_start := CreateTournamentCommand.registration_start cmd;
  CreateTournament.registration_end := CreateTournamentCommand.registration_end cmd;
  CreateTournament.check_in_required := CreateTournamentCommand.check_in_required cmd;
  CreateTournament.check_in_start := CreateTournamentCommand.check_in_start cmd;
  CreateTournament.check_in_end := CreateTournamentCommand.check_in_end cmd;
  CreateTournament.scheduling_mode := CreateTournamentCommand.scheduling_mode cmd;
  CreateTournament.starts_at := CreateTournamentCommand.starts_at cmd;
  CreateTournament.default_match_format := CreateTournamentCommand.default_match_format cmd;
  CreateTournament.default_map_veto_format := CreateTournamentCommand.default_map_veto_format cmd;
  CreateTournament.withdrawal_policy := CreateTournamentCommand.withdrawal_policy cmd;
  CreateTournament.rules_url := CreateTournamentCommand.rules_url cmd;
  CreateTournament.settings := default (json_of_object []) (CreateTournamentCommand.settings cmd);
  CreateTournament.created_by := created_by |}.

(** A map pool that cannot be written takes the tournament with it. *)
Definition create_tournament (cmd : CreateTournamentCommand.t) (created_by : UserId) : M Tournament.t :=
  if bool_decide (CreateTournamentCommand.max_participants cmd < CreateTournamentCommand.min_participants cmd)
  then invalid_range
  else
    let* taken := TournamentRepository.slug_exists (CreateTournamentCommand.slug cmd) in
    if taken : bool then slug_conflict (CreateTournamentCommand.slug cmd)
    else
      let* tournament := TournamentRepository.create (create_command cmd created_by) in
      let* pool := mtry (TournamentMapPoolRepository.upsert {|
        UpsertTournamentMapPool.tournament_id := Tournament.id tournament;
        UpsertTournamentMapPool.stage_id := None;
        UpsertTournamentMapPool.maps := CreateTournamentCommand.map_pool cmd;
        UpsertTournamentMapPool.veto_format_id := CreateTournamentCommand.default_map_veto_format cmd |}) in
      match pool with
      | Ok _ => mret tournament
      | Err e =>
          let* _ := mtry (TournamentRepository.delete (Tournament.id tournament)) in
          mthrow e
      end.

Definition get_tournament_by_slug (slug : string) : M Tournament.t :=
  let* t := TournamentRepository.find_by_slug slug in
  mlift (ok_or t (Error (DomainError.LookupFailed "tournament" slug))).

Definition update_command (tournament : Tournament.t) (cmd : UpdateTournamentCommand.t)
    : UpdateTournament.t := {|
  UpdateTournament.name := UpdateTournamentCommand.name cmd;
  UpdateTournament.slug := UpdateTournamentCommand.slug cmd;
  UpdateTournament.description := UpdateTournamentCommand.description cmd;
  UpdateTournament.format_settings := UpdateTournamentCommand.format_settings cmd;
  UpdateTournament.min_participants := UpdateTournamentCommand.min_participants cmd;
  UpdateTournament.max_participants := UpdateTournamentCommand.max_participants cmd;
  UpdateTournament.registration_start := UpdateTournamentCommand.registration_start cmd;
  UpdateTournament.registration_end := UpdateTournamentCommand.registration_end cmd;
  UpdateTournament.check_in_required := UpdateTournamentCommand.check_in_required cmd;
  UpdateTournament.check_in_start := UpdateTournamentCommand.check_in_start cmd;
  UpdateTournament.check_in_end := UpdateTournamentCommand.check_in_end cmd;
  UpdateTournament.starts_at := UpdateTournamentCommand.starts_at cmd;
  UpdateTournament.ends_at := UpdateTournamentCommand.ends_at cmd;
  UpdateTournament.timezone_hint := UpdateTournamentCommand.timezone_hint cmd;
  UpdateTournament.default_match_format := UpdateTournamentCommand.default_match_format cmd;
  UpdateTournament.default_map_veto_format := UpdateTournamentCommand.default_map_veto_format cmd;
  UpdateTournament.prize_pool := UpdateTournamentCommand.prize_pool cmd;
  UpdateTournament.rules_url := UpdateTournamentCommand.rules_url cmd;
  UpdateTournament.settings :=
    shallow_merge (Tournament.settings tournament) <$> UpdateTournamentCommand.settings cmd;
  UpdateTournament.withdrawal_policy := UpdateTournamentCommand.withdrawal_policy cmd |}.

Definition update_tournament (id : TournamentId) (cmd : UpdateTournamentCommand.t) : M Tournament.t :=
  let* tournament := get_tournament id in
  if Tournament.has_started tournament then mthrow DomainError.TournamentAlreadyStarted
  else
    let new_min := default (Tournament.min_participants tournament) (UpdateTournamentCommand.min_participants cmd) in
    let new_max := default (Tournament.max_participants tournament) (UpdateTournamentCommand.max_participants cmd) in
    if bool_decide (new_max < new_min) then invalid_range
    else
      let* taken := match UpdateTournamentCommand.slug cmd with
        | Some new_slug =>
            if bool_decide (new_slug = Tournament.slug tournament) then mret false
            else TournamentRepository.slug_exists new_slug
        | None => mret false
        end in
      if taken : bool then slug_conflict (default "" (UpdateTournamentCommand.slug cmd))
      else TournamentRepository.update id (update_command tournament cmd).

Definition publish_tournament (id : TournamentId) : M Tournament.t :=
  let* tournament := get_tournament id in
  if negb (bool_decide (Tournament.status tournament = TournamentStatus.Draft))
  then mthrow (DomainError.InvalidState ("Cannot publish tournament in "
         +:+ TournamentStatus.fmt (Tournament.status tournament) +:+ " status"))
  else TournamentRepository.mark_published id.

(** The body the five changes of status share. *)
Definition change_status (target : TournamentStatus.t) (id : TournamentId) : M Tournament.t :=
  let* tournament := get_tournament id in
  if negb (TournamentStatus.can_transition_to (Tournament.status tournament) target)
  then mthrow (DomainError.InvalidTournamentTransition
         (TournamentStatus.fmt (Tournament.status tournament)) (TournamentStatus.fmt target))
  else TournamentRepository.update_status id target.

Definition open_registration : TournamentId → M Tournament.t := change_status TournamentStatus.Registration.
Definition close_registration : TournamentId → M Tournament.t := change_status TournamentStatus.Scheduled.
Definition reopen_registration : TournamentId → M Tournament.t := change_status TournamentStatus.Registration.
Definition cancel_tournament : TournamentId → M Tournament.t := change_status TournamentStatus.Cancelled.
Definition complete_tournament : TournamentId → M Tournament.t := change_status TournamentStatus.Completed.
Definition finalize_tournament : TournamentId → M Tournament.t := change_status TournamentStatus.Finalized.

Definition move_tournament (id : TournamentId) (league_id : option LeagueId)
    (season_id : option LeagueSeasonId) : M Tournament.t :=
  let* tournament := get_tournament id in
  if bool_decide (is_Some season_id) && bool_decide (league_id = None)
  then mthrow (DomainError.InvalidState "a season cannot be set without its league")
  else if bool_decide (Tournament.league_id tournament = league_id)
          && bool_decide (Tournament.season_id tournament = season_id)
  then mthrow (DomainError.InvalidState "tournament is already there")
  else
    let* registrations := TournamentRepository.count_registrations id in
    if bool_decide (0 < registrations)
    then mthrow (DomainError.InvalidState ("tournament has " +:+ pretty registrations
           +:+ " registration(s) tied to its current league; move refused rather than stranding them"))
    else TournamentRepository.set_league_and_season id league_id season_id.

Definition archive_tournament (id : TournamentId) (archived_by : UserId) : M Tournament.t :=
  TournamentRepository.set_archived id (Some archived_by).
Definition restore_tournament (id : TournamentId) : M Tournament.t := TournamentRepository.set_archived id None.

Definition delete_tournament (id : TournamentId) : M unit :=
  let* tournament := get_tournament id in
  if negb (bool_decide (Tournament.status tournament = TournamentStatus.Draft))
  then mthrow (DomainError.InvalidState "Can only delete tournaments in draft status")
  else TournamentRepository.delete id.

(** ** Stages *)

Definition plan_of_settings (default_format : MatchFormat.t) (settings : option Json) : outcome MatchFormatPlan :=
  result_map_err (λ e, Error (DomainError.InvalidState ("invalid stage format settings: " +:+ e)))
    (from_settings default_format settings).

Definition create_stage (cmd : CreateTournamentStageCommand.t) : M TournamentStage.t :=
  let* tournament := get_tournament (CreateTournamentStageCommand.tournament_id cmd) in
  if Tournament.has_started tournament then mthrow DomainError.TournamentAlreadyStarted
  else
    let* _ := mlift (plan_of_settings
      (default (Tournament.default_match_format tournament) (CreateTournamentStageCommand.match_format cmd))
      (CreateTournamentStageCommand.format_settings cmd)) in
    TournamentStore.create_stage {|
      CreateTournamentStage.tournament_id := CreateTournamentStageCommand.tournament_id cmd;
      CreateTournamentStage.name := CreateTournamentStageCommand.name cmd;
      CreateTournamentStage.stage_order := CreateTournamentStageCommand.stage_order cmd;
      CreateTournamentStage.format := CreateTournamentStageCommand.format cmd;
      CreateTournamentStage.format_settings :=
        default (json_of_object []) (CreateTournamentStageCommand.format_settings cmd);
      CreateTournamentStage.advancement_count := CreateTournamentStageCommand.advancement_count cmd;
      CreateTournamentStage.advancement_rule := CreateTournamentStageCommand.advancement_rule cmd;
      CreateTournamentStage.match_format := CreateTournamentStageCommand.match_format cmd;
      CreateTournamentStage.map_veto_format := CreateTournamentStageCommand.map_veto_format cmd;
      CreateTournamentStage.starts_at := CreateTournamentStageCommand.starts_at cmd;
      CreateTournamentStage.ends_at := CreateTournamentStageCommand.ends_at cmd |}.

Definition update_stage (tournament_id : TournamentId) (stage_id : TournamentStageId)
    (update : UpdateTournamentStage.t) : M TournamentStage.t :=
  let* tournament := get_tournament tournament_id in
  let* stage := find_stage_by_id stage_id in
  let* stage := mlift (ok_or
    (s ← stage; if bool_decide (TournamentStage.tournament_id s = tournament_id) then Some s else None)
    (Error (DomainError.TournamentStageNotFound stage_id))) in
  if negb (bool_decide (TournamentStage.status stage = StageStatus.Pending))
  then mthrow (DomainError.InvalidState ("Cannot edit a stage in "
         +:+ StageStatus.fmt (TournamentStage.status stage) +:+ " status — its matches already exist"))
  else
    let effective_format := default (Tournament.default_match_format tournament)
      (TournamentRepository.or_keep (UpdateTournamentStage.match_format update)
         (TournamentStage.match_format stage)) in
    let effective_settings :=
      default (TournamentStage.format_settings stage) (UpdateTournamentStage.format_settings update) in
    let* _ := mlift (plan_of_settings effective_format (Some effective_settings)) in
    TournamentStore.update_stage stage_id update.

Definition get_stages (tournament_id : TournamentId) : M (list TournamentStage.t) :=
  list_stages_by_tournament tournament_id.
Definition get_stage (stage_id : TournamentStageId) : M (option TournamentStage.t) :=
  find_stage_by_id stage_id.

(** ** Invitations and registrations *)

Definition permitting (invitation : option TournamentInvitation.t) : option TournamentInvitation.t :=
  i ← invitation; if TournamentInvitation.permits_registration i then Some i else None.

(** What a look-up of the invitation has to give before a registration. *)
Definition require_invitation (tournament : Tournament.t) (find : M (option TournamentInvitation.t))
    : M (option TournamentInvitation.t) :=
  if negb (RegistrationType.requires_invitation (Tournament.registration_type tournament)) then mret None
  else
    let* invitation := find in
    let* invitation := mlift (ok_or (permitting invitation) (Error DomainError.TournamentInviteOnly)) in
    mret (Some invitation).

Definition require_team_invitation (tournament : Tournament.t) (team_season_id : LeagueTeamSeasonId)
    : M (option TournamentInvitation.t) :=
  require_invitation tournament
    (TournamentInvitationRepository.find_for_team_season (Tournament.id tournament) team_season_id).

Definition require_user_invitation (tournament : Tournament.t) (user_id : UserId)
    : M (option TournamentInvitation.t) :=
  require_invitation tournament
    (TournamentInvitationRepository.find_for_user (Tournament.id tournament) user_id).

(** Best effort: an error is logged. *)
Definition consume_invitation (invitation : option TournamentInvitation.t) : M unit :=
  match invitation with
  | None => mret tt
  | Some invitation =>
      let* _ := mtry (TournamentInvitationRepository.mark_accepted (TournamentInvitation.id invitation)) in
      mret tt
  end.

(** The registration a new one replaces: a live one stands in the way. *)
Definition replaced (existing : option TournamentRegistration.t)
    : outcome (option TournamentRegistrationId) :=
  match existing with
  | Some existing =>
      if TournamentRegistrationStatus.is_terminal (TournamentRegistration.status existing)
      then Ok (Some (TournamentRegistration.id existing))
      else throw DomainError.AlreadyRegisteredForTournament
  | None => Ok None
  end.

Definition register_team (tournament_id : TournamentId) (team_season_id : LeagueTeamSeasonId)
    (participant_name : string) (participant_logo_url : option string) (registered_by : UserId)
    : M TournamentRegistration.t :=
  let* tournament := get_tournament tournament_id in
  let* now := mread Db.now in
  if negb (Tournament.is_registration_open now tournament) then mthrow DomainError.TournamentNotOpen
  else
    let* invitation := require_team_invitation tournament team_season_id in
    let* existing := TournamentRegistrationRepository.find_by_team_season tournament_id team_season_id in
    let* replace_terminal := mlift (replaced existing) in
    let* registration := TournamentRegistrationRepository.create_with_capacity_check {|
      CreateTournamentRegistration.tournament_id := tournament_id;
      CreateTournamentRegistration.team_season_id := Some team_season_id;
      CreateTournamentRegistration.player_id := None;
      CreateTournamentRegistration.adhoc_team_id := None;
      CreateTournamentRegistration.participant_name := participant_name;
      CreateTournamentRegistration.participant_logo_url := participant_logo_url;
      CreateTournamentRegistration.registered_by := registered_by;
      CreateTournamentRegistration.seed_rating := None;
      CreateTournamentRegistration.status :=
        initial_registration_status (Tournament.registration_type tournament) |} replace_terminal in
    let* _ := consume_invitation invitation in
    mret registration.

Definition register_player (tournament_id : TournamentId) (player_id : PlayerId)
    (participant_name : string) (registered_by : UserId) : M TournamentRegistration.t :=
  let* tournament := get_tournament tournament_id in
  let* now := mread Db.now in
  if negb (Tournament.is_registration_open now tournament) then mthrow DomainError.TournamentNotOpen
  else
    let* invitation := require_user_invitation tournament registered_by in
    let* existing := TournamentRegistrationRepository.find_by_player tournament_id player_id in
    let* replace_terminal := mlift (replaced existing) in
    let* registration := TournamentRegistrationRepository.create_with_capacity_check {|
      CreateTournamentRegistration.tournament_id := tournament_id;
      CreateTournamentRegistration.team_season_id := None;
      CreateTournamentRegistration.player_id := Some player_id;
      CreateTournamentRegistration.adhoc_team_id := None;
      CreateTournamentRegistration.participant_name := participant_name;
      CreateTournamentRegistration.participant_logo_url := None;
      CreateTournamentRegistration.registered_by := registered_by;
      CreateTournamentRegistration.seed_rating := None;
      CreateTournamentRegistration.status :=
        initial_registration_status (Tournament.registration_type tournament) |} replace_terminal in
    let* _ := consume_invitation invitation in
    mret registration.

Definition invite_to_tournament (tournament_id : TournamentId) (user_id : option UserId)
    (team_season_id : option LeagueTeamSeasonId) (message : option string) (invited_by : UserId)
    : M TournamentInvitation.t :=
  let* tournament := get_tournament tournament_id in
  let teams := TournamentParticipantType.requires_team_size (Tournament.participant_type tournament) in
  let exactly_one := match user_id, team_season_id with
    | Some _, None | None, Some _ => true
    | _, _ => false
    end in
  if negb exactly_one then
    invalid_field "user_id" "exactly one of user_id or team_season_id must be provided" "invalid_target"
  else if teams && bool_decide (team_season_id = None) then
    invalid_field "team_season_id" "team tournaments must be invited by team_season_id" "invalid_target"
  else if negb teams && bool_decide (user_id = None) then
    invalid_field "user_id" "individual tournaments must be invited by user_id" "invalid_target"
  else TournamentInvitationRepository.create
         (CreateTournamentInvitation.mk tournament_id user_id team_season_id message invited_by).

Definition list_invitations (tournament_id : TournamentId) : M (list TournamentInvitation.t) :=
  let* _ := get_tournament tournament_id in
  TournamentInvitationRepository.list_by_tournament tournament_id.

Definition revoke_invitation (tournament_id : TournamentId) (invitation_id : TournamentInvitationId)
    : M TournamentInvitation.t :=
  let* invitation := TournamentInvitationRepository.find_by_id invitation_id in
  let* invitation := mlift (ok_or invitation
    (Error (DomainError.TournamentInvitationNotFound invitation_id))) in
  if negb (bool_decide (TournamentInvitation.tournament_id invitation = tournament_id))
  then mthrow (DomainError.TournamentInvitationNotFound invitation_id)
  else TournamentInvitationRepository.revoke invitation_id.

Definition get_registrations (tournament_id : TournamentId)
    (status_filter : option TournamentRegistrationStatus.t) (limit offset : Z)
    : M (list TournamentRegistration.t * Z) :=
  TournamentRegistrationRepository.list_by_tournament tournament_id status_filter limit offset.

(** Unlike [CheckInService.check_in], refused when check-in is not required. *)
Definition check_in (registration_id : TournamentRegistrationId) (checked_in_by : UserId)
    : M TournamentRegistration.t :=
  let* registration := RegistrationService.get_registration registration_id in
  let* tournament := get_tournament (TournamentRegistration.tournament_id registration) in
  let* now := mread Db.now in
  if negb (Tournament.is_check_in_open now tournament)
  then mthrow (DomainError.InvalidState "Check-in is not currently open")
  else if TournamentRegistration.checked_in registration then CheckInService.already
  else if negb (TournamentRegistrationStatus.can_check_in (TournamentRegistration.status registration))
  then in_status "check in" registration
  else TournamentRegistrationRepository.check_in registration_id checked_in_by.

(** ** The start *)

Definition stage_format_plan (tournament : Tournament.t) (stage : TournamentStage.t) : outcome MatchFormatPlan :=
  plan_of_settings (TournamentStage.effective_match_format stage (Tournament.default_match_format tournament))
    (Some (TournamentStage.format_settings stage)).

(** Pending matches with both participants become ready, one by one. *)
Definition mark_ready_matches (bracket_id : TournamentBracketId) : M unit :=
  let* matches := list_matches_by_bracket bracket_id in
  mfor matches (λ m,
    if bool_decide (TournamentMatch.status m = TournamentMatchStatus.Pending)
       && TournamentMatch.has_both_participants m
    then let* _ := update_status (TournamentMatch.id m) TournamentMatchStatus.Ready in mret tt
    else mret tt).

Definition new_bracket (stage_id : TournamentStageId) (id : TournamentId) (name : string)
    (bracket_type : BracketType.t) (group_number : option Z) : M TournamentBracket.t :=
  create_bracket (CreateTournamentBracket.mk stage_id id name bracket_type 0 group_number).

Definition set_rounds (bracket_id : TournamentBracketId) (total_rounds : Z) : M unit :=
  let* _ := update_bracket bracket_id (UpdateTournamentBracket.mk None (Some total_rounds) (Some 1)) in
  mret tt.

(** The matches stored, with the map from position to match. *)
Definition store_matches (matches : list CreateTournamentMatch.t)
    : M (list TournamentMatch.t * PositionMap) :=
  let* matches := bulk_create matches in
  mret (matches, build_position_map matches).

Definition start_single_elimination (id : TournamentId) (tournament : Tournament.t)
    (stage : TournamentStage.t) (seeded_participants : list SeededParticipant.t) : M unit :=
  let* bracket := new_bracket (TournamentStage.id stage) id "Main Bracket" BracketType.SingleElim None in
  let* plan := mlift (stage_format_plan tournament stage) in
  let* generated := mlift (single_elimination id (TournamentStage.id stage) (TournamentBracket.id bracket)
                      seeded_participants plan) in
  let* _ := set_rounds (TournamentBracket.id bracket) (GeneratedBracket.total_rounds generated) in
  let* (matches, position_to_match) := store_matches (GeneratedBracket.matches generated) in
  let* _ := apply_initial_assignments (GeneratedBracket.initial_assignments generated) position_to_match in
  let* _ := apply_byes (GeneratedBracket.byes generated) position_to_match in
  let* _ := set_se_progression_links matches position_to_match in
  mark_ready_matches (TournamentBracket.id bracket).

Definition start_double_elimination (id : TournamentId) (tournament : Tournament.t)
    (stage : TournamentStage.t) (seeded_participants : list SeededParticipant.t) : M unit :=
  let* wb := new_bracket (TournamentStage.id stage) id "Winners Bracket" BracketType.Winners None in
  let* lb := new_bracket (TournamentStage.id stage) id "Losers Bracket" BracketType.Losers None in
  let* gf := new_bracket (TournamentStage.id stage) id "Grand Final" BracketType.GrandFinal None in
  let* plan := mlift (stage_format_plan tournament stage) in
  let* generated := mlift (double_elimination id (TournamentStage.id stage) (TournamentBracket.id wb)
                      (TournamentBracket.id lb) (TournamentBracket.id gf) seeded_participants plan) in
  let winners := GeneratedDoubleElimination.winners_bracket generated in
  let losers := GeneratedDoubleElimination.losers_bracket generated in
  let* _ := set_rounds (TournamentBracket.id wb) (GeneratedBracket.total_rounds winners) in
  let* _ := (if bool_decide (0 < GeneratedBracket.total_rounds losers)
             then set_rounds (TournamentBracket.id lb) (GeneratedBracket.total_rounds losers)
             else mret tt) in
  let* _ := set_rounds (TournamentBracket.id gf) 1 in
  let* (wb_matches, wb_positions) := store_matches (GeneratedBracket.matches winners) in
  let* (lb_matches, lb_positions) := (match GeneratedBracket.matches losers with
                                      | [] => mret ([], ∅)
                                      | ms => store_matches ms
                                      end) in
  let* (gf_matches, gf_positions) := store_matches (GeneratedBracket.matches
                                       (GeneratedDoubleElimination.grand_final generated)) in
  let position_to_match :=
    extend_position_map (extend_position_map wb_positions lb_positions) gf_positions in
  let* _ := apply_initial_assignments (GeneratedBracket.initial_assignments winners) position_to_match in
  let* _ := apply_byes (GeneratedBracket.byes winners) position_to_match in
  let progression :=
    cross_bracket_progression position_to_match
      (GeneratedDoubleElimination.cross_bracket_links generated)
      (intra_bracket_links lb_next_position position_to_match lb_matches
        (intra_bracket_links wb_next_position position_to_match wb_matches ∅)) in
  let* _ := mfor (map_to_list progression)
              (λ '(match_id, (winner_to, loser_to)), set_progression_links match_id winner_to loser_to) in
  mark_ready_matches (TournamentBracket.id wb).

(** The rows of the standings, in the order of the seeds. *)
Definition initial_standings (bracket_id : TournamentBracketId) (participants : list SeededParticipant.t)
    : list CreateTournamentStanding.t :=
  imap (λ i p, CreateTournamentStanding.mk bracket_id (SeededParticipant.registration_id p)
                 (as_i32 (Z.of_nat i + 1))) participants.

(** A bye has no match: it is recorded, then folded into the table. *)
Definition award_bye (bracket_id : TournamentBracketId) (bye : option TournamentRegistrationId) (round : Z)
    : M unit :=
  match bye with
  | None => mret tt
  | Some bye_id =>
      let* _ := record_bye bracket_id bye_id round in
      let* _ := recompute_bracket bracket_id in
      mret tt
  end.

Definition start_round_robin (id : TournamentId) (tournament : Tournament.t)
    (stage : TournamentStage.t) (seeded_participants : list SeededParticipant.t) : M unit :=
  let* bracket := new_bracket (TournamentStage.id stage) id "Round Robin" BracketType.RoundRobin None in
  let* plan := mlift (stage_format_plan tournament stage) in
  let* generated := mlift (round_robin id (TournamentStage.id stage) (TournamentBracket.id bracket)
                      seeded_participants plan) in
  let* _ := set_rounds (TournamentBracket.id bracket) (GeneratedBracket.total_rounds generated) in
  let* (_, position_to_match) := store_matches (GeneratedBracket.matches generated) in
  let* _ := apply_initial_assignments (GeneratedBracket.initial_assignments generated) position_to_match in
  let* _ := bulk_create_standings (initial_standings (TournamentBracket.id bracket) seeded_participants) in
  mark_ready_matches (TournamentBracket.id bracket).

Definition max_swiss_rounds (tournament : Tournament.t) (n : Z) : Z :=
  match GroupsConfig.get (Tournament.format_settings tournament) "max_rounds" ≫= json_i64 with
  | Some v => as_i32 v
  | None => log2_ceil n
  end.

Definition start_swiss (id : TournamentId) (tournament : Tournament.t)
    (stage : TournamentStage.t) (seeded_participants : list SeededParticipant.t) : M unit :=
  let max_rounds := max_swiss_rounds tournament (Z.of_nat (length seeded_participants)) in
  let* bracket := new_bracket (TournamentStage.id stage) id "Swiss" BracketType.Swiss None in
  let* plan := mlift (stage_format_plan tournament stage) in
  let* (generated, bye_participant) := mlift (swiss_initial_round id (TournamentStage.id stage)
                                         (TournamentBracket.id bracket) seeded_participants plan) in
  let* _ := set_rounds (TournamentBracket.id bracket) max_rounds in
  let* (_, position_to_match) := store_matches (GeneratedBracket.matches generated) in
  let* _ := apply_initial_assignments (GeneratedBracket.initial_assignments generated) position_to_match in
  let* _ := bulk_create_standings (initial_standings (TournamentBracket.id bracket) seeded_participants) in
  let* _ := award_bye (TournamentBracket.id bracket) bye_participant 1 in
  mark_ready_matches (TournamentBracket.id bracket).

(** One group: its bracket, its matches, its table. *)
Definition start_group (id : TournamentId) (group_stage_id : TournamentStageId)
    (group_format : GroupStageFormat.t) (group_plan : MatchFormatPlan) (group_idx : nat)
    (group : list SeededParticipant.t) : M unit :=
  let bracket_type := match group_format with
    | GroupStageFormat.RoundRobin => BracketType.RoundRobin
    | GroupStageFormat.Swiss => BracketType.Swiss
    end in
  let* bracket := new_bracket group_stage_id id ("Group " +:+ group_label (Z.of_nat group_idx)) bracket_type
                    (Some (as_i32 (Z.of_nat group_idx + 1))) in
  let* (generated, rounds, bye_to_record) := mlift (match group_format with
    | GroupStageFormat.RoundRobin =>
        let? generated := round_robin id group_stage_id (TournamentBracket.id bracket) group group_plan in
        Ok (generated, GeneratedBracket.total_rounds generated, None)
    | GroupStageFormat.Swiss =>
        let? (generated, bye) := swiss_initial_round id group_stage_id (TournamentBracket.id bracket)
                                   group group_plan in
        Ok (generated, log2_ceil (Z.of_nat (length group)), bye)
    end) in
  let* _ := set_rounds (TournamentBracket.id bracket) rounds in
  let* (_, position_to_match) := store_matches (GeneratedBracket.matches generated) in
  let* _ := apply_initial_assignments (GeneratedBracket.initial_assignments generated) position_to_match in
  let* _ := bulk_create_standings (initial_standings (TournamentBracket.id bracket) group) in
  let* _ := award_bye (TournamentBracket.id bracket) bye_to_record 1 in
  mark_ready_matches (TournamentBracket.id bracket).

Fixpoint start_groups (id : TournamentId) (group_stage_id : TournamentStageId)
    (group_format : GroupStageFormat.t) (group_plan : MatchFormatPlan) (group_idx : nat)
    (groups : list (list SeededParticipant.t)) : M unit :=
  match groups with
  | [] => mret tt
  | group :: groups =>
      let* _ := start_group id group_stage_id group_format group_plan group_idx group in
      start_groups id group_stage_id group_format group_plan (S group_idx) groups
  end.

(** The stage of the groups and, pending, that of the playoffs. *)
Definition group_stage_command (id : TournamentId) (tournament : Tournament.t) (config : GroupsConfig.t)
    : CreateTournamentStage.t := {|
  CreateTournamentStage.tournament_id := id;
  CreateTournamentStage.name := "Group Stage";
  CreateTournamentStage.stage_order := 1;
  CreateTournamentStage.format := StageFormat.GroupStage;
  CreateTournamentStage.format_settings := json_of_object [("group_format", json_of_string
    match GroupsConfig.group_format config with
    | GroupStageFormat.RoundRobin => "round_robin"
    | GroupStageFormat.Swiss => "swiss"
    end)];
  CreateTournamentStage.advancement_count := Some (as_i32 (GroupsConfig.advance_per_group config));
  CreateTournamentStage.advancement_rule := AdvancementRule.TopNPerGroup;
  CreateTournamentStage.match_format :=
    Some (plan_default (GroupsConfig.group_format_plan config (Tournament.default_match_format tournament)));
  CreateTournamentStage.map_veto_format := Tournament.default_map_veto_format tournament;
  CreateTournamentStage.starts_at := Tournament.starts_at tournament;
  CreateTournamentStage.ends_at := None |}.

Definition playoff_stage_command (id : TournamentId) (tournament : Tournament.t) (config : GroupsConfig.t)
    : CreateTournamentStage.t := {|
  CreateTournamentStage.tournament_id := id;
  CreateTournamentStage.name := "Playoffs";
  CreateTournamentStage.stage_order := 2;
  CreateTournamentStage.format := match GroupsConfig.playoff_format config with
    | PlayoffFormat.SingleElimination => StageFormat.SingleElimination
    | PlayoffFormat.DoubleElimination => StageFormat.DoubleElimination
    end;
  CreateTournamentStage.format_settings := GroupsConfig.playoff_stage_settings config;
  CreateTournamentStage.advancement_count := None;
  CreateTournamentStage.advancement_rule := AdvancementRule.TopN;
  CreateTournamentStage.match_format := Some (default (Tournament.default_match_format tournament)
    (GroupsConfig.playoff_match_format config));
  CreateTournamentStage.map_veto_format := Tournament.default_map_veto_format tournament;
  CreateTournamentStage.starts_at := None;
  CreateTournamentStage.ends_at := None |}.

Definition start_groups_and_playoffs (id : TournamentId) (tournament : Tournament.t)
    (seeded_participants : list SeededParticipant.t) : M unit :=
  let n := Z.of_nat (length seeded_participants) in
  let* config := mlift (GroupsConfig.from_format_settings (Tournament.format_settings tournament) n) in
  let min_per_group := n / GroupsConfig.group_count config in
  if bool_decide (min_per_group < 2) then
    mthrow (DomainError.InvalidState ("Not enough participants (" +:+ pretty n +:+ ") for "
      +:+ pretty (GroupsConfig.group_count config) +:+ " groups (need at least 2 per group)"))
  else if bool_decide (min_per_group < GroupsConfig.advance_per_group config) then
    mthrow (DomainError.InvalidState ("advance_per_group ("
      +:+ pretty (GroupsConfig.advance_per_group config) +:+ ") exceeds minimum group size ("
      +:+ pretty min_per_group +:+ ")"))
  else
    let* group_participants :=
      mlift (distribute_into_groups seeded_participants (GroupsConfig.group_count config)) in
    let* group_stage := TournamentStore.create_stage (group_stage_command id tournament config) in
    let* _ := TournamentStore.create_stage (playoff_stage_command id tournament config) in
    let* _ := start_groups id (TournamentStage.id group_stage) (GroupsConfig.group_format config)
                (GroupsConfig.group_format_plan config (Tournament.default_match_format tournament))
                0 group_participants in
    let* _ := set_stage_status (TournamentStage.id group_stage) StageStatus.Active in
    mret tt.

(** The format of the main stage; groups have their own way. *)
Definition main_stage_format (format : TournamentFormat.t) : outcome StageFormat.t :=
  match format with
  | TournamentFormat.SingleElimination => Ok StageFormat.SingleElimination
  | TournamentFormat.DoubleElimination => Ok StageFormat.DoubleElimination
  | TournamentFormat.RoundRobin => Ok StageFormat.RoundRobin
  | TournamentFormat.Swiss => Ok StageFormat.Swiss
  | TournamentFormat.GroupsAndPlayoffs => Err Panic
  end.

Definition main_stage_command (id : TournamentId) (tournament : Tournament.t) (stage_format : StageFormat.t)
    : CreateTournamentStage.t := {|
  CreateTournamentStage.tournament_id := id;
  CreateTournamentStage.name := "Main Bracket";
  CreateTournamentStage.stage_order := 1;
  CreateTournamentStage.format := stage_format;
  CreateTournamentStage.format_settings := Tournament.format_settings tournament;
  CreateTournamentStage.advancement_count := None;
  CreateTournamentStage.advancement_rule := AdvancementRule.TopN;
  CreateTournamentStage.match_format := Some (Tournament.default_match_format tournament);
  CreateTournamentStage.map_veto_format := Tournament.default_map_veto_format tournament;
  CreateTournamentStage.starts_at := Tournament.starts_at tournament;
  CreateTournamentStage.ends_at := None |}.

(** The first stage there is, or a new one. *)
Definition main_stage (id : TournamentId) (tournament : Tournament.t) : M TournamentStage.t :=
  let* stage_format := mlift (main_stage_format (Tournament.format tournament)) in
  let* stages := list_stages_by_tournament id in
  match stages with
  | [] => TournamentStore.create_stage (main_stage_command id tournament stage_format)
  | stage :: _ => mret stage
  end.

Definition build_main_stage (id : TournamentId) (tournament : Tournament.t) (stage : TournamentStage.t)
    (seeded_participants : list SeededParticipant.t) : M unit :=
  match Tournament.format tournament with
  | TournamentFormat.SingleElimination => start_single_elimination id tournament stage seeded_participants
  | TournamentFormat.DoubleElimination => start_double_elimination id tournament stage seeded_participants
  | TournamentFormat.RoundRobin => start_round_robin id tournament stage seeded_participants
  | TournamentFormat.Swiss => start_swiss id tournament stage seeded_participants
  | TournamentFormat.GroupsAndPlayoffs => mlift (Err Panic)
  end.

(** What the winner of the claim builds. *)
Definition build_brackets (id : TournamentId) (tournament : Tournament.t)
    (participants : list TournamentRegistration.t) : M Tournament.t :=
  let seeded_participants := prepare_participants participants in
  if bool_decide (Tournament.format tournament = TournamentFormat.GroupsAndPlayoffs) then
    let* _ := start_groups_and_playoffs id tournament seeded_participants in
    TournamentRepository.mark_started id
  else
    let* stage := main_stage id tournament in
    let* _ := build_main_stage id tournament stage seeded_participants in
    let* _ := set_stage_status (TournamentStage.id stage) StageStatus.Active in
    TournamentRepository.mark_started id.

(** From the claim on: [tournament] and [participants] were read before it. *)
Definition claim_and_build (id : TournamentId) (tournament : Tournament.t)
    (participants : list TournamentRegistration.t) : M Tournament.t :=
  let* claimed := TournamentRepository.try_claim_start id in
  match claimed with
  | None => get_tournament id
  | Some claimed =>
      let* existing_brackets := list_brackets_by_tournament id in
      match existing_brackets with
      | _ :: _ => mret claimed
      | [] => build_brackets id tournament participants
      end
  end.

Definition confirmed_participants (id : TournamentId) (tournament : Tournament.t)
    : M (list TournamentRegistration.t) :=
  if Tournament.check_in_required tournament
  then TournamentRegistrationRepository.list_checked_in id
  else TournamentRegistrationRepository.list_seeded id.

Definition start_tournament (id : TournamentId) : M Tournament.t :=
  let* tournament := get_tournament id in
  if negb (TournamentRepository.may_start tournament)
  then mthrow (DomainError.InvalidState ("Cannot start tournament in "
         +:+ TournamentStatus.fmt (Tournament.status tournament) +:+ " status"))
  else
    let* participants := confirmed_participants id tournament in
    if bool_decide (Z.of_nat (length participants) < as_usize (Tournament.min_participants tournament))
    then mthrow DomainError.InsufficientParticipants
    else claim_and_build id tournament participants.

(** ** Later Swiss rounds *)

(** The pairs the bracket's matches have seen. *)
Definition completed_pairings (matches : list TournamentMatch.t)
    : list (TournamentRegistrationId * TournamentRegistrationId) :=
  omap (λ m, match TournamentMatch.participant1_registration_id m,
                   TournamentMatch.participant2_registration_id m with
             | Some a, Some b => Some (a, b)
             | _, _ => None
             end) matches.

Definition plays_in (registration_id : TournamentRegistrationId) (m : TournamentMatch.t) : bool :=
  bool_decide (TournamentMatch.participant1_registration_id m = Some registration_id) ||
  bool_decide (TournamentMatch.participant2_registration_id m = Some registration_id).

(** The look-up by identifier drops a standing whose registration is not among
    those fetched. *)
Definition swiss_standing (registrations : list TournamentRegistration.t)
    (matches : list TournamentMatch.t) (current_round : Z) (s : TournamentStanding.t)
    : option SwissParticipantStanding.t :=
  let registration_id := TournamentStanding.registration_id s in
  reg ← snd <$> list_find (λ r, TournamentRegistration.id r = registration_id) registrations;
  let matches_in := Z.of_nat (length (filter (λ m, plays_in registration_id m = true) matches)) in
  Some {|
    SwissParticipantStanding.registration_id := registration_id;
    SwissParticipantStanding.participant_name := TournamentRegistration.participant_name reg;
    SwissParticipantStanding.participant_logo_url := TournamentRegistration.participant_logo_url reg;
    SwissParticipantStanding.seed := default (TournamentStanding.position s) (TournamentRegistration.seed reg);
    SwissParticipantStanding.points := TournamentStanding.points s;
    SwissParticipantStanding.buchholz_score := default (S754_zero false) (TournamentStanding.buchholz_score s);
    SwissParticipantStanding.had_bye := bool_decide (matches_in < as_usize current_round) |}.

(** The guards on the tournament, the bracket and its current round. *)
Definition swiss_bracket_of (tournament_id : TournamentId) (tournament : Tournament.t)
    : M TournamentBracket.t :=
  if negb (bool_decide (Tournament.status tournament = TournamentStatus.InProgress))
  then mthrow (DomainError.InvalidState "Tournament must be in InProgress status")
  else if negb (bool_decide (Tournament.format tournament = TournamentFormat.Swiss))
          && negb (bool_decide (Tournament.format tournament = TournamentFormat.GroupsAndPlayoffs))
  then mthrow (DomainError.InvalidState "Tournament is not Swiss format")
  else
    let* brackets := list_brackets_by_tournament tournament_id in
    mlift (ok_or (snd <$> list_find (λ b, TournamentBracket.bracket_type b = BracketType.Swiss) brackets)
      (Error (DomainError.InvalidState "No Swiss bracket found"))).

Definition round_over (bracket : TournamentBracket.t) (all_matches : list TournamentMatch.t) : outcome Z :=
  let current := filter (λ m, TournamentMatch.round m = TournamentBracket.current_round bracket) all_matches in
  if bool_decide (current = []) then
    throw (DomainError.InvalidState "No matches found for current round")
  else if negb (forallb TournamentMatch.is_complete current) then
    throw (DomainError.InvalidState "Not all current-round matches are complete")
  else
    let next_round := i32_add (TournamentBracket.current_round bracket) 1 in
    if bool_decide (TournamentBracket.total_rounds bracket < next_round) then
      throw (DomainError.InvalidState "Maximum number of rounds reached")
    else Ok next_round.

Definition generate_next_swiss_round (tournament_id : TournamentId) : M (list TournamentMatch.t) :=
  let* tournament := get_tournament tournament_id in
  let* bracket := swiss_bracket_of tournament_id tournament in
  let* all_matches := list_matches_by_bracket (TournamentBracket.id bracket) in
  let* next_round := mlift (round_over bracket all_matches) in
  let* standings := mread (standings_of_bracket (TournamentBracket.id bracket)) in
  let* registrations := TournamentRegistrationRepository.list_all_by_tournament tournament_id
                          (Some TournamentRegistrationStatus.Approved) in
  let swiss_standings :=
    omap (swiss_standing registrations all_matches (TournamentBracket.current_round bracket)) standings in
  let* stage := find_stage_by_id (TournamentBracket.stage_id bracket) in
  let* stage := mlift (ok_or stage (Error (DomainError.Internal
    ("Stage " +:+ uuid_string (TournamentBracket.stage_id bracket) +:+ " not found")))) in
  let* format_plan := mlift (stage_format_plan tournament stage) in
  let* (generated, bye_participant) := mlift (swiss_next_round tournament_id
    (TournamentBracket.stage_id bracket) (TournamentBracket.id bracket) next_round swiss_standings
    (completed_pairings all_matches) format_plan) in
  let* (new_matches, position_to_match) := store_matches (GeneratedBracket.matches generated) in
  let* _ := apply_initial_assignments (GeneratedBracket.initial_assignments generated) position_to_match in
  let* _ := match bye_participant with
    | Some bye_id => record_bye (TournamentBracket.id bracket) bye_id next_round
    | None => mret tt
    end in
  let* _ := recompute_bracket (TournamentBracket.id bracket) in
  let* _ := update_bracket (TournamentBracket.id bracket)
              (UpdateTournamentBracket.mk None None (Some next_round)) in
  let* _ := mark_ready_matches (TournamentBracket.id bracket) in
  mret new_matches.

(** ** Views *)

Definition get_bracket (tournament_id : TournamentId) : M (list TournamentBracket.t) :=
  list_brackets_by_tournament tournament_id.
Definition get_bracket_matches (bracket_id : TournamentBracketId) : M (list TournamentMatch.t) :=
  list_matches_by_bracket bracket_id.
Definition get_tournament_matches (tournament_id : TournamentId) : M (list TournamentMatch.t) :=
  list_matches_by_tournament tournament_id.

Definition get_tournament_match (tournament_id : TournamentId) (match_id : TournamentMatchId)
    : M TournamentMatch.t :=
  let* match_ := get_match match_id in
  if negb (bool_decide (TournamentMatch.tournament_id match_ = tournament_id))
  then mthrow (DomainError.TournamentMatchNotFound match_id)
  else mret match_.
End service.
End TournamentService.
