(* ===== verification/StartFacts.v ===== *)
(** What the set-up of a bracket does to the match table: the rows stored in
    bulk, and the loops that seat, wire and ready them, each as a list of writes
    to single rows. *)
From stdpp Require Import base list strings gmap.
From S2P Require Import Prelude Errors Wire TournamentTypes Entities BracketModel FormatPlan.
From S2P Require Import Rows Store StoreFacts TournamentModel TournamentStore.
From S2P Require Import Standings Helpers Progression ProgressionProps CompletionProps Registrations Tournaments.
#[local] Open Scope Z_scope.

(** Run the first step of a sequence. *)
Tactic Notation "mrun" open_constr(L) := etransitivity; [eapply mbind_step, L|]; cbv beta match.

Section start_facts.
Context `{Platform}.

Lemma mlift_run {A} (r : outcome A) a db : r = Ok a → mlift r db = (Ok a, db).
Proof. by intros ->. Qed.

(** ** Writes to single rows *)

Definition writes (us : list (TournamentMatchId * (TournamentMatch.t → TournamentMatch.t)))
    (ms : gmap N TournamentMatch.t) : gmap N TournamentMatch.t :=
  foldl (λ ms u, alter u.2 u.1 ms) ms us.

Definition row_after (us : list (TournamentMatchId * (TournamentMatch.t → TournamentMatch.t)))
    (id : TournamentMatchId) (m : TournamentMatch.t) : TournamentMatch.t :=
  foldl (λ m u, if bool_decide (u.1 = id) then u.2 m else m) m us.

Lemma writes_app us us' ms : writes (us ++ us') ms = writes us' (writes us ms).
Proof. apply foldl_app. Qed.

Lemma row_after_app us us' id m : row_after (us ++ us') id m = row_after us' id (row_after us id m).
Proof. apply foldl_app. Qed.

Lemma lookup_writes us id ms : writes us ms !! id = row_after us id <$> ms !! id.
Proof.
  revert ms. induction us as [|[i f] us IH]; intros ms.
  - cbn. by destruct (ms !! id).
  - change (writes ((i, f) :: us) ms) with (writes us (alter f i ms)). rewrite IH.
    unfold row_after. cbn [foldl fst snd]. destruct (decide (i = id)) as [->|Hne].
    + rewrite lookup_alter_eq, bool_decide_true by done. by destruct (ms !! id).
    + rewrite lookup_alter_ne, bool_decide_false by done. done.
Qed.

(** The writes to one row come from the items keyed to it. *)
Lemma row_after_keyed {A} (l : list A) (key : A → option TournamentMatchId)
    (f : A → TournamentMatch.t → TournamentMatch.t) id m :
  row_after (l ≫= λ a, from_option (λ i, [(i, f a)]) [] (key a)) id m =
  foldl (λ m a, f a m) m (filter (λ a, key a = Some id) l).
Proof.
  revert m. induction l as [|a l IH]; intros m; [done|].
  rewrite bind_cons, row_after_app, IH, filter_cons.
  destruct (key a) as [i|] eqn:Hk; cbn.
  - destruct (decide (i = id)) as [->|Hne].
    + rewrite bool_decide_true, decide_True by done. done.
    + rewrite bool_decide_false, decide_False by (congruence || done). done.
  - by rewrite decide_False.
Qed.

Definition with_matches (ms : gmap N TournamentMatch.t) (db : Db.t) : Db.t :=
  db <| Db.matches := ms |>.

Lemma with_matches_same db : with_matches (Db.matches db) db = db.
Proof. by destruct db. Qed.

Lemma matches_with ms db : Db.matches (with_matches ms db) = ms.
Proof. reflexivity. Qed.
Lemma now_with ms db : Db.now (with_matches ms db) = Db.now db.
Proof. reflexivity. Qed.
Lemma with_matches_again ms ms' db : with_matches ms (with_matches ms' db) = with_matches ms db.
Proof. reflexivity. Qed.

Lemma with_matches_only ms db : only_matches db (with_matches ms db).
Proof. by split. Qed.

(** A loop whose body writes rows. *)
Lemma mfor_writes {A} (now : DateTime) (l : list A) (body : A → M unit)
    (u : A → list (TournamentMatchId * (TournamentMatch.t → TournamentMatch.t))) :
  (∀ x db, x ∈ l → Db.now db = now → (∀ v, v ∈ u x → is_Some (Db.matches db !! v.1)) →
     body x db = (Ok tt, with_matches (writes (u x) (Db.matches db)) db)) →
  ∀ db, Db.now db = now → (∀ x v, x ∈ l → v ∈ u x → is_Some (Db.matches db !! v.1)) →
  mfor l body db = (Ok tt, with_matches (writes (l ≫= u) (Db.matches db)) db).
Proof.
  induction l as [|x l IH]; intros Hbody db Hnow Hin.
  { cbn. by rewrite with_matches_same. }
  cbn [mfor]. rewrite (mbind_step _ _ _ tt (with_matches (writes (u x) (Db.matches db)) db)).
  2: { apply Hbody; [apply elem_of_cons; by left|done|]. intros v. apply Hin, elem_of_cons. by left. }
  rewrite IH; [| |done|].
  - rewrite bind_cons, writes_app. done.
  - intros y db' Hy. apply Hbody, elem_of_cons. by right.
  - intros y v Hy Hv. cbn. rewrite lookup_writes, fmap_is_Some.
    apply (Hin y); [apply elem_of_cons; by right|done].
Qed.

(** ** Rows stored in bulk *)

Fixpoint rows_from (next : Uuid) (now : DateTime) (cmds : list CreateTournamentMatch.t)
    : list TournamentMatch.t :=
  match cmds with
  | [] => []
  | cmd :: cmds => inserted_match next now cmd :: rows_from (N.succ next) now cmds
  end.

Definition table (rows : list TournamentMatch.t) : gmap N TournamentMatch.t :=
  list_to_map ((λ m, (TournamentMatch.id m, m)) <$> rows).

Lemma rows_from_length next now cmds : length (rows_from next now cmds) = length cmds.
Proof. revert next. induction cmds as [|c cs IH]; intros next; [done|]. cbn. by rewrite IH. Qed.

Lemma elem_of_rows_from next now cmds m :
  m ∈ rows_from next now cmds →
  ∃ id cmd, (next ≤ id < next + N.of_nat (length cmds))%N ∧ cmd ∈ cmds ∧ m = inserted_match id now cmd.
Proof.
  revert next. induction cmds as [|c cs IH]; intros next; [by intros ?%elem_of_nil|].
  intros [->|(id & cmd & Hid & Hc & ->)%IH]%elem_of_cons.
  - exists next, c. cbn. split; [lia|]. split; [apply elem_of_cons; by left|done].
  - exists id, cmd. cbn. split; [lia|]. split; [apply elem_of_cons; by right|done].
Qed.

(** What is read off a row and comes from its command. *)
Lemma rows_from_fmap {B} (f : TournamentMatch.t → B) (g : CreateTournamentMatch.t → B) next now cmds :
  (∀ id cmd, f (inserted_match id now cmd) = g cmd) →
  f <$> rows_from next now cmds = g <$> cmds.
Proof.
  intros Hfg. revert next. induction cmds as [|c cs IH]; intros next; [done|].
  cbn [rows_from]. by rewrite !fmap_cons, IH, Hfg.
Qed.

Lemma rows_from_ids next now cmds : NoDup (TournamentMatch.id <$> rows_from next now cmds).
Proof.
  revert next. induction cmds as [|c cs IH]; intros next; [apply NoDup_nil_2|].
  cbn [rows_from]. rewrite fmap_cons. apply NoDup_cons. split; [|apply IH].
  intros (m & Heq & (id & cmd & Hid & _ & ->)%elem_of_rows_from)%list_elem_of_fmap.
  cbn in Heq. lia.
Qed.

Lemma table_lookup rows m :
  NoDup (TournamentMatch.id <$> rows) → m ∈ rows → table rows !! TournamentMatch.id m = Some m.
Proof.
  intros Hnd Hm. apply elem_of_list_to_map_1.
  - by rewrite <- list_fmap_compose.
  - by apply (list_elem_of_fmap_2 (λ m, (TournamentMatch.id m, m))).
Qed.

Lemma table_lookup_inv rows id m : table rows !! id = Some m → m ∈ rows ∧ TournamentMatch.id m = id.
Proof. by intros (m' & [= -> ->] & Hm)%elem_of_list_to_map_2%list_elem_of_fmap. Qed.

Lemma table_lookup_none rows id :
  (∀ m, m ∈ rows → TournamentMatch.id m ≠ id) → table rows !! id = None.
Proof.
  intros Hn. destruct (table rows !! id) as [m|] eqn:Hm; [|done].
  apply table_lookup_inv in Hm as [Hm Hid]. by destruct (Hn m Hm).
Qed.

Lemma position_free db cmd :
  (∀ id m, Db.matches db !! id = Some m → TournamentMatch.bracket_id m = CreateTournamentMatch.bracket_id cmd →
     TournamentMatch.bracket_position m ≠ CreateTournamentMatch.bracket_position cmd) →
  position_taken db cmd = false.
Proof.
  intros Hfree. unfold position_taken. apply not_true_is_false. rewrite existsb_exists.
  intros (m & Hin & [Hb Hp]%bool_decide_eq_true).
  apply list_elem_of_In, list_elem_of_fmap in Hin as ([id m'] & -> & Hm%elem_of_map_to_list).
  by apply (Hfree id m').
Qed.

(** Commands at distinct positions of a bracket that has no match yet. *)
Lemma insert_matches_run b cmds db :
  Forall (λ c, CreateTournamentMatch.bracket_id c = b) cmds →
  NoDup (CreateTournamentMatch.bracket_position <$> cmds) →
  (∀ id m, Db.matches db !! id = Some m → TournamentMatch.bracket_id m = b →
     TournamentMatch.bracket_position m ∉ CreateTournamentMatch.bracket_position <$> cmds) →
  let rows := rows_from (Db.next_uuid db) (Db.now db) cmds in
  insert_matches cmds db = (Ok rows,
    db <| Db.next_uuid := (Db.next_uuid db + N.of_nat (length cmds))%N |>
       <| Db.matches := table rows ∪ Db.matches db |>).
Proof.
  revert db. induction cmds as [|c cs IH]; intros db Hb Hnd Hfree; cbv zeta.
  { cbn. unfold mret. do 2 f_equal. unfold table. cbn. rewrite (left_id_L ∅ (∪)), N.add_0_r. by destruct db. }
  apply Forall_cons in Hb as [Hb Hbs]. rewrite fmap_cons in Hnd. apply NoDup_cons in Hnd as [Hp Hnd].
  cbn [insert_matches]. unfold insert_match at 1, mbind at 1.
  rewrite position_free.
  2: { intros id m Hm Hbm. rewrite Hb in Hbm. specialize (Hfree id m Hm Hbm).
       rewrite fmap_cons in Hfree. by apply not_elem_of_cons in Hfree as [? _]. }
  cbv zeta. unfold mbind at 1. rewrite IH; [|done|done|].
  - unfold mret. f_equal.
    change (Db.next_uuid (_ <| Db.matches := _ |>)) with (N.succ (Db.next_uuid db)).
    replace (Db.next_uuid db + N.of_nat (length (c :: cs)))%N
      with (N.succ (Db.next_uuid db) + N.of_nat (length cs))%N by (cbn [length]; lia).
    set (next := (_ + N.of_nat (length cs))%N). cbn. f_equal. unfold table. cbn.
    rewrite <- insert_union_r, insert_union_l; [done|].
    apply (table_lookup_none _ (Db.next_uuid db)).
    intros m (id & cmd & Hid & _ & ->)%elem_of_rows_from. cbn. lia.
  - intros id m. cbn. rewrite lookup_insert_Some. intros [[<- <-]|[Hne Hm]].
    + intros _. exact Hp.
    + intros Hbm. specialize (Hfree id m Hm Hbm). rewrite fmap_cons in Hfree.
      by apply not_elem_of_cons in Hfree as [_ ?].
Qed.

(** ** The map of positions *)

Lemma build_position_map_lookup rows pos id :
  NoDup (TournamentMatch.bracket_position <$> rows) →
  build_position_map rows !! pos = Some id ↔
  ∃ m, m ∈ rows ∧ TournamentMatch.bracket_position m = pos ∧ TournamentMatch.id m = id.
Proof.
  unfold build_position_map. intros Hnd.
  assert (∀ acc : gmap string N, fold_left (λ acc m, <[TournamentMatch.bracket_position m := TournamentMatch.id m]> acc)
      rows acc !! pos = Some id ↔
    (∃ m, m ∈ rows ∧ TournamentMatch.bracket_position m = pos ∧ TournamentMatch.id m = id) ∨
    ((pos ∉ TournamentMatch.bracket_position <$> rows) ∧ acc !! pos = Some id)) as Hacc.
  { induction rows as [|m rows IH]; intros acc.
    - cbn. set_solver.
    - rewrite fmap_cons in Hnd. apply NoDup_cons in Hnd as [Hm Hnd]. cbn [fold_left].
      rewrite (IH Hnd), fmap_cons, not_elem_of_cons. rewrite lookup_insert_Some. split.
      + intros [(m' & Hm' & ? & ?)|[Hn [[? ?]|[? ?]]]].
        * left. exists m'. split; [apply elem_of_cons; by right|done].
        * left. exists m. split; [apply elem_of_cons; by left|done].
        * right. naive_solver.
      + intros [(m' & [->|Hm']%elem_of_cons & Hpos & Hid)|[[Hne Hn] Hacc]].
        * right. subst. split; [done|]. by left.
        * left. by exists m'.
        * right. split; [done|]. right. naive_solver. }
  rewrite Hacc, lookup_empty. naive_solver.
Qed.

(** ** Seats *)

(** What [assign_participant] writes to the row. *)
Definition seat (now : DateTime) (w : Z * SeededParticipant.t) (m : TournamentMatch.t) : TournamentMatch.t :=
  set_participant (slot_of w.1) (Some (SeededParticipant.registration_id w.2))
    (Some (SeededParticipant.participant_name w.2)) (SeededParticipant.participant_logo_url w.2)
    (Some (SeededParticipant.seed w.2)) m <| TournamentMatch.updated_at := now |>.

(** A position, and who is to sit there. *)
Definition placement : Type := string * (Z * SeededParticipant.t).

Definition assignment_placement (a : InitialAssignment.t) : placement :=
  (InitialAssignment.bracket_position a, (InitialAssignment.slot a, InitialAssignment.participant a)).
Definition bye_placement (b : ByeInfo.t) : placement :=
  (ByeInfo.advances_to_position b, (ByeInfo.slot b, ByeInfo.participant b)).

Definition seatings (now : DateTime) (pm : gmap string N) (ws : list placement)
    : list (TournamentMatchId * (TournamentMatch.t → TournamentMatch.t)) :=
  ws ≫= λ w, from_option (λ i, [(i, seat now w.2)]) [] (pm !! w.1).

Lemma assign_seeded_run id slot p db m :
  Db.matches db !! id = Some m →
  assign_seeded id slot p db =
  (Ok tt, with_matches (alter (seat (Db.now db) (slot, p)) id (Db.matches db)) db).
Proof.
  intros Hm. unfold assign_seeded, assign_participant, mbind.
  rewrite (update_match_found _ _ _ _ Hm). unfold mret. do 3 f_equal.
  unfold with_matches. f_equal. apply map_eq. intros i. destruct (decide (id = i)) as [->|Hne].
  - by rewrite lookup_insert_eq, lookup_alter_eq, Hm.
  - by rewrite lookup_insert_ne, lookup_alter_ne.
Qed.

(** Both seating loops have this shape. *)
Lemma seating_loop {A} (place : A → placement) (l : list A) pm db :
  (∀ pos id, pm !! pos = Some id → is_Some (Db.matches db !! id)) →
  mfor l (λ a, match pm !! (place a).1 with
               | Some id => assign_seeded id (place a).2.1 (place a).2.2
               | None => mret tt
               end) db =
  (Ok tt, with_matches (writes (seatings (Db.now db) pm (place <$> l)) (Db.matches db)) db).
Proof.
  intros Hpm. unfold seatings. rewrite bind_fmap.
  apply (mfor_writes (Db.now db)); [|done|].
  - intros a db' _ Hnow Hin. destruct (pm !! (place a).1) as [id|] eqn:Hid; cbn in *.
    + destruct (Hin (id, seat (Db.now db) (place a).2)) as [m Hm]; [by apply list_elem_of_singleton|].
      rewrite (assign_seeded_run _ _ _ _ m Hm), Hnow. by destruct (place a).2.
    + by rewrite with_matches_same.
  - intros a v _. destruct (pm !! (place a).1) as [id|] eqn:Hid; cbn.
    + intros ->%list_elem_of_singleton. by apply (Hpm (place a).1).
    + by intros ?%elem_of_nil.
Qed.

Lemma apply_initial_assignments_run assignments pm db :
  (∀ pos id, pm !! pos = Some id → is_Some (Db.matches db !! id)) →
  apply_initial_assignments assignments pm db =
  (Ok tt, with_matches (writes (seatings (Db.now db) pm (assignment_placement <$> assignments))
            (Db.matches db)) db).
Proof. intros Hpm. by apply (seating_loop assignment_placement). Qed.

Lemma apply_byes_run byes pm db :
  (∀ pos id, pm !! pos = Some id → is_Some (Db.matches db !! id)) →
  apply_byes byes pm db =
  (Ok tt, with_matches (writes (seatings (Db.now db) pm (bye_placement <$> byes)) (Db.matches db)) db).
Proof. intros Hpm. by apply (seating_loop bye_placement). Qed.

(** The row once those placed at its position have sat down. *)
Definition seated_row (now : DateTime) (ws : list placement) (m : TournamentMatch.t) : TournamentMatch.t :=
  foldl (λ m w, seat now w m) m
    (filter (λ w, w.1 = TournamentMatch.bracket_position m) ws).*2.

Lemma seatings_app now pm ws ws' : seatings now pm (ws ++ ws') = seatings now pm ws ++ seatings now pm ws'.
Proof. apply bind_app. Qed.

Lemma row_after_seatings now pm ws m :
  (∀ pos, pm !! pos = Some (TournamentMatch.id m) ↔ pos = TournamentMatch.bracket_position m) →
  row_after (seatings now pm ws) (TournamentMatch.id m) m = seated_row now ws m.
Proof.
  intros Hpm. unfold seatings. rewrite (row_after_keyed ws (λ w, pm !! w.1) (λ w, seat now w.2)).
  assert (∀ (l : list placement) m, foldl (λ m w, seat now w.2 m) m l =
    foldl (λ m w, seat now w m) m l.*2) as Hl.
  { intros l. induction l as [|w l IH]; intros m'; [done|]. cbn. apply IH. }
  rewrite Hl. unfold seated_row. do 2 f_equal. apply list_filter_iff. intros w. apply Hpm.
Qed.

(** Sitting down changes the side's columns only. *)
Lemma seated_row_field {B} (f : TournamentMatch.t → B) now ws m :
  (∀ w m, f (seat now w m) = f m) → f (seated_row now ws m) = f m.
Proof.
  intros Hf. unfold seated_row. generalize ((filter (λ w, w.1 = TournamentMatch.bracket_position m) ws).*2).
  intros l. revert m. induction l as [|w l IH]; intros m; [done|]. cbn. by rewrite IH, Hf.
Qed.

Definition empty_sides (m : TournamentMatch.t) : Prop := participants_of m = [].

Lemma seat_sides now w m :
  option_list (TournamentMatch.participant1_registration_id (seat now w m)) =
    (if bool_decide (w.1 = 1) then [SeededParticipant.registration_id w.2]
     else option_list (TournamentMatch.participant1_registration_id m)) ∧
  option_list (TournamentMatch.participant2_registration_id (seat now w m)) =
    (if bool_decide (w.1 = 1) then option_list (TournamentMatch.participant2_registration_id m)
     else [SeededParticipant.registration_id w.2]).
Proof. unfold seat, slot_of. by case_bool_decide. Qed.

Lemma seat_participants now w m :
  participants_of (seat now w m) =
  if bool_decide (w.1 = 1)
  then SeededParticipant.registration_id w.2 :: option_list (TournamentMatch.participant2_registration_id m)
  else option_list (TournamentMatch.participant1_registration_id m) ++ [SeededParticipant.registration_id w.2].
Proof. unfold participants_of. destruct (seat_sides now w m) as [-> ->]. by case_bool_decide. Qed.

Lemma seats_participants now (l : list (Z * SeededParticipant.t)) m :
  empty_sides m → NoDup l.*1 → (∀ w, w ∈ l → w.1 = 1 ∨ w.1 = 2) →
  participants_of (foldl (λ m w, seat now w m) m l) ≡ₚ SeededParticipant.registration_id <$> l.*2.
Proof.
  unfold empty_sides. intros He Hnd Hl. pose proof He as [He1 He2]%app_nil.
  destruct l as [|[s1 p1] [|[s2 p2] [|[s3 p3] l]]]; cbn [foldl].
  - by rewrite He.
  - rewrite seat_participants. specialize (Hl (s1, p1) ltac:(set_solver)). cbn in Hl.
    rewrite He1, He2. by destruct Hl as [-> | ->].
  - pose proof (Hl (s1, p1) ltac:(set_solver)) as Hs1. pose proof (Hl (s2, p2) ltac:(set_solver)) as Hs2.
    apply NoDup_cons in Hnd as [Hn _]. cbn in Hn, Hs1, Hs2.
    assert (s1 ≠ s2) as Hne by set_solver. destruct (seat_sides now (s1, p1) m) as [E1 E2].
    rewrite seat_participants, E1, E2, He1, He2.
    destruct Hs1 as [-> | ->], Hs2 as [-> | ->]; [done| | |done]; cbn; [done|apply Permutation_swap].
  - pose proof (Hl (s1, p1) ltac:(set_solver)). pose proof (Hl (s2, p2) ltac:(set_solver)).
    pose proof (Hl (s3, p3) ltac:(set_solver)). cbn in *. exfalso.
    apply NoDup_cons in Hnd as [Hn1 [Hn2 _]%NoDup_cons].
    rewrite !not_elem_of_cons in Hn1. rewrite not_elem_of_cons in Hn2. lia.
Qed.

(** ** Loops over the rows themselves *)

(** Every row of the list is written at most once, by itself. *)
Definition own_writes (rows : list TournamentMatch.t)
    (f : TournamentMatch.t → option (TournamentMatch.t → TournamentMatch.t))
    : list (TournamentMatchId * (TournamentMatch.t → TournamentMatch.t)) :=
  rows ≫= λ m, from_option (λ g, [(TournamentMatch.id m, g)]) [] (f m).

Lemma row_after_other rows f id m' :
  id ∉ TournamentMatch.id <$> rows → row_after (own_writes rows f) id m' = m'.
Proof.
  unfold own_writes. induction rows as [|r rows IH]; intros Hid; [done|].
  rewrite fmap_cons in Hid. apply not_elem_of_cons in Hid as [Hne Hid].
  rewrite bind_cons, row_after_app. rewrite <- (IH Hid) at 2. f_equal.
  destruct (f r); [|done]. unfold row_after. cbn. by rewrite bool_decide_false.
Qed.

Lemma row_after_own rows f m m' :
  NoDup (TournamentMatch.id <$> rows) → m ∈ rows →
  row_after (own_writes rows f) (TournamentMatch.id m) m' = from_option (λ g, g m') m' (f m).
Proof.
  induction rows as [|r rows IH]; [by intros _ ?%elem_of_nil|].
  rewrite fmap_cons. intros [Hr Hnd]%NoDup_cons Hm. unfold own_writes. rewrite bind_cons, row_after_app.
  fold (own_writes rows f). apply elem_of_cons in Hm as [->|Hm].
  - rewrite row_after_other by done. destruct (f r); [|done].
    unfold row_after. cbn. by rewrite bool_decide_true.
  - rewrite <- IH by done. f_equal. destruct (f r) as [g|]; [|done].
    unfold row_after. cbn. rewrite bool_decide_false; [done|]. intros Heq. apply Hr. rewrite Heq.
    by apply list_elem_of_fmap_2.
Qed.

Lemma own_writes_present (rows : list TournamentMatch.t)
    (f : TournamentMatch.t → option (TournamentMatch.t → TournamentMatch.t)) db m v :
  (∀ r, r ∈ rows → is_Some (Db.matches db !! TournamentMatch.id r)) → m ∈ rows →
  v ∈ from_option (λ g, [(TournamentMatch.id m, g)]) [] (f m) → is_Some (Db.matches db !! v.1).
Proof.
  intros Hin Hm. destruct (f m); cbn; [|by intros ?%elem_of_nil].
  intros ->%list_elem_of_singleton. by apply Hin.
Qed.

(** ** Links *)

Definition set_winner_link (next : TournamentMatchId) (m : TournamentMatch.t) : TournamentMatch.t :=
  m <| TournamentMatch.winner_progresses_to := Some next |>
    <| TournamentMatch.loser_progresses_to := None |>.

Definition se_next (pm : gmap string N) (m : TournamentMatch.t) : option TournamentMatchId :=
  se_next_position (TournamentMatch.bracket_position m) ≫= λ pos, pm !! pos.

Lemma set_se_progression_links_run rows pm db :
  (∀ m, m ∈ rows → is_Some (Db.matches db !! TournamentMatch.id m)) →
  set_se_progression_links rows pm db =
  (Ok tt, with_matches (writes (own_writes rows (λ m, set_winner_link <$> se_next pm m))
                          (Db.matches db)) db).
Proof.
  intros Hin. apply (mfor_writes (Db.now db)); [|done|].
  - intros m db' _ _ _. unfold se_next.
    destruct (se_next_position (TournamentMatch.bracket_position m)) as [pos|]; cbn;
      [|by rewrite with_matches_same].
    destruct (pm !! pos) as [next|]; cbn; [done|by rewrite with_matches_same].
  - intros m v Hm. by apply (own_writes_present rows (λ m, set_winner_link <$> se_next pm m)).
Qed.

(** ** Ready matches *)

Lemma matches_of_bracket_ids b db :
  well_keyed db → NoDup (TournamentMatch.id <$> matches_of_bracket b db).
Proof.
  intros Hk. unfold matches_of_bracket. rewrite stable_sort_perm. apply NoDup_fmap_2_strong.
  - intros m m' [_ ([i r] & -> & Hi)%list_elem_of_fmap]%list_elem_of_filter
      [_ ([i' r'] & -> & Hi')%list_elem_of_fmap]%list_elem_of_filter Heq.
    apply elem_of_map_to_list in Hi, Hi'. cbn in *.
    rewrite (Hk _ _ Hi), (Hk _ _ Hi') in Heq. subst i'. congruence.
  - apply NoDup_filter, NoDup_fmap_2_strong; [|apply NoDup_map_to_list].
    intros [i r] [i' r'] Hi%elem_of_map_to_list Hi'%elem_of_map_to_list Heq. cbn in Heq. subst r'.
    by rewrite <- (Hk _ _ Hi), <- (Hk _ _ Hi').
Qed.

Definition set_ready (now : DateTime) (m : TournamentMatch.t) : TournamentMatch.t :=
  m <| TournamentMatch.status := TournamentMatchStatus.Ready |> <| TournamentMatch.updated_at := now |>.

(** One by one or in bulk, the same matches become ready. *)
Lemma mark_ready_matches_run b db :
  well_keyed db →
  TournamentService.mark_ready_matches b db =
  (Ok tt, with_matches (readied b (Db.now db) <$> Db.matches db) db).
Proof.
  intros Hk. unfold TournamentService.mark_ready_matches, list_matches_by_bracket.
  change (mbind (mread ?f) ?k db) with (k (f db) db). cbv beta.
  set (f m := if is_newly_ready m then Some (set_ready (Db.now db)) else None).
  assert (∀ m, m ∈ matches_of_bracket b db → Db.matches db !! TournamentMatch.id m = Some m ∧
    TournamentMatch.bracket_id m = b) as Hin.
  { intros m (Hb & id & Hm)%elem_of_matches_of_bracket. by rewrite (Hk _ _ Hm). }
  rewrite (mfor_writes (Db.now db) _ _ (λ m, from_option (λ g, [(TournamentMatch.id m, g)]) [] (f m)));
    [| |done|].
  - f_equal. f_equal. apply map_eq. intros id. fold (own_writes (matches_of_bracket b db) f).
    rewrite lookup_writes, lookup_fmap. destruct (Db.matches db !! id) as [m|] eqn:Hm; [|done]. cbn. f_equal.
    unfold readied. case_bool_decide as Hb; cbn [andb].
    + rewrite <- (Hk _ _ Hm) at 1. rewrite row_after_own.
      * unfold f. by destruct (is_newly_ready m).
      * by apply matches_of_bracket_ids.
      * apply elem_of_matches_of_bracket. eauto.
    + rewrite row_after_other; [done|]. intros (r & -> & Hr)%list_elem_of_fmap.
      destruct (Hin r Hr) as [Hr' Hb']. congruence.
  - intros m db' Hm Hnow Hsome. unfold f, is_newly_ready in *.
    assert (bool_decide (TournamentMatch.status m = TournamentMatchStatus.Pending)
            = TournamentMatch.is_pending m) as -> by (unfold TournamentMatch.is_pending; by destruct (TournamentMatch.status m)).
    destruct (TournamentMatch.is_pending m && _) eqn:Hr; cbn.
    + destruct (Hsome (TournamentMatch.id m, set_ready (Db.now db))) as [m' Hm']; [by apply list_elem_of_singleton|].
      cbn in Hm'. unfold update_status, mbind. rewrite (update_match_found _ _ _ _ Hm'), Hnow.
      unfold mret, with_matches. do 2 f_equal. apply map_eq. intros i.
      destruct (decide (TournamentMatch.id m = i)) as [<-|Hne].
      * by rewrite lookup_insert_eq, lookup_alter_eq, Hm'.
      * by rewrite lookup_insert_ne, lookup_alter_ne.
    + by rewrite with_matches_same.
  - intros m v Hm. apply (own_writes_present (matches_of_bracket b db) f); [|done].
    intros r Hr. destruct (Hin r Hr) as [-> _]. eauto.
Qed.

(** ** The bracket that stands when the set-up is done *)

(** A stored row once seated, wired and readied. *)
Definition settled_row (b : TournamentBracketId) (now : DateTime) (ws : list placement)
    (links : TournamentMatch.t → option (TournamentMatch.t → TournamentMatch.t))
    (m : TournamentMatch.t) : TournamentMatch.t :=
  let m' := seated_row now ws m in readied b now (from_option (λ g, g m') m' (links m)).

(** What no write of the set-up changes. *)
Definition fixed {B} (f : TournamentMatch.t → B) : Prop :=
  (∀ now w m, f (seat now w m) = f m) ∧ (∀ next m, f (set_winner_link next m) = f m) ∧
  (∀ now m, f (set_ready now m) = f m).

Lemma fixed_places :
  fixed TournamentMatch.id ∧ fixed TournamentMatch.bracket_id ∧ fixed TournamentMatch.bracket_position ∧
  fixed TournamentMatch.round ∧ fixed TournamentMatch.match_number ∧
  fixed TournamentMatch.participant1_source ∧ fixed TournamentMatch.participant2_source.
Proof.
  assert (∀ B (f : TournamentMatch.t → B),
    (∀ s r n l sd m, f (set_participant s r n l sd m) = f m) →
    (∀ now m, f (m <| TournamentMatch.updated_at := now |>) = f m) →
    (∀ next m, f (set_winner_link next m) = f m) → (∀ now m, f (set_ready now m) = f m) → fixed f) as Hf.
  { intros B f Hs Hu ? ?. split; [|done]. intros now w m. unfold seat. by rewrite Hs, Hu. }
  repeat split; apply Hf; intros; try done; by destruct s.
Qed.

Lemma settled_fixed {B} (f : TournamentMatch.t → B) b now ws next_of m :
  fixed f → f (settled_row b now ws (λ m, set_winner_link <$> next_of m) m) = f m.
Proof.
  intros (Hs & Hl & Hr). unfold settled_row, readied.
  assert (f (from_option (λ g, g (seated_row now ws m)) (seated_row now ws m)
    (set_winner_link <$> next_of m)) = f m) as <-.
  { destruct (next_of m); cbn; rewrite ?Hl; apply seated_row_field; intros; apply Hs. }
  destruct (bool_decide _ && _); [|done]. apply Hr.
Qed.

Lemma NoDup_fmap_inj {A B} (f : A → B) (l : list A) x y :
  NoDup (f <$> l) → x ∈ l → y ∈ l → f x = f y → x = y.
Proof.
  intros Hnd [i Hi]%list_elem_of_lookup [j Hj]%list_elem_of_lookup Heq.
  assert (i = j) as ->; [|congruence].
  apply (NoDup_lookup _ i j (f x) Hnd); rewrite list_lookup_fmap; [by rewrite Hi|by rewrite Hj, Heq].
Qed.

(** The stored rows, and where their positions lead. *)
Record stored (b : TournamentBracketId) (rows : list TournamentMatch.t) (pm : gmap string N)
    (old : gmap N TournamentMatch.t) : Prop := {
  stored_ids : NoDup (TournamentMatch.id <$> rows);
  stored_positions : NoDup (TournamentMatch.bracket_position <$> rows);
  stored_bracket m : m ∈ rows → TournamentMatch.bracket_id m = b;
  stored_map m pos : m ∈ rows → pm !! pos = Some (TournamentMatch.id m) ↔ pos = TournamentMatch.bracket_position m;
  stored_known pos id : pm !! pos = Some id → ∃ m, m ∈ rows ∧ TournamentMatch.id m = id;
  stored_elsewhere id m : old !! id = Some m → TournamentMatch.bracket_id m ≠ b;
  stored_keyed id m : old !! id = Some m → TournamentMatch.id m = id;
}.

(** What [bulk_create] stores for a bracket that has no match yet. *)
Lemma stored_rows b next now cmds old :
  Forall (λ c, CreateTournamentMatch.bracket_id c = b) cmds →
  NoDup (CreateTournamentMatch.bracket_position <$> cmds) →
  (∀ id m, old !! id = Some m → TournamentMatch.bracket_id m ≠ b ∧ TournamentMatch.id m = id) →
  let rows := rows_from next now cmds in stored b rows (build_position_map rows) old.
Proof.
  intros Hb Hnd Hold rows.
  assert (NoDup (TournamentMatch.bracket_position <$> rows)) as Hpos.
  { unfold rows. by rewrite (rows_from_fmap _ CreateTournamentMatch.bracket_position). }
  assert (NoDup (TournamentMatch.id <$> rows)) as Hids by apply rows_from_ids.
  split; [done|done| | | |apply Hold|apply Hold].
  - intros m (id & cmd & _ & Hc & ->)%elem_of_rows_from. by apply (proj1 (Forall_forall _ cmds) Hb cmd Hc).
  - intros m pos Hm. rewrite build_position_map_lookup by done. split.
    + intros (m' & Hm' & <- & Hid). by rewrite (NoDup_fmap_inj _ _ _ _ Hids Hm' Hm Hid).
    + intros ->. by exists m.
  - intros pos id (m & Hm & _ & Hid)%build_position_map_lookup; [|done]. by exists m.
Qed.

Lemma stored_lookup b rows pm old m :
  stored b rows pm old → m ∈ rows → (table rows ∪ old) !! TournamentMatch.id m = Some m.
Proof. intros Hs Hm. apply lookup_union_Some_l, table_lookup; [apply Hs|done]. Qed.

Lemma stored_found b rows pm old pos id :
  stored b rows pm old → pm !! pos = Some id → is_Some ((table rows ∪ old) !! id).
Proof.
  intros Hs (m & Hm & <-)%(stored_known _ _ _ _ Hs). rewrite (stored_lookup _ _ _ _ _ Hs Hm). eauto.
Qed.

(** The set-up keeps every row under its identifier. *)
Lemma writes_keyed us (ms : gmap N TournamentMatch.t) :
  (∀ v m, v ∈ us → TournamentMatch.id (v.2 m) = TournamentMatch.id m) →
  (∀ i m, ms !! i = Some m → TournamentMatch.id m = i) →
  ∀ i m, writes us ms !! i = Some m → TournamentMatch.id m = i.
Proof.
  intros Hus Hms i m. rewrite lookup_writes. intros (m' & Hm' & ->)%fmap_Some.
  rewrite <- (Hms _ _ Hm') at 2. clear Hms Hm'. revert m'.
  induction us as [|v us IH]; intros m'; [done|].
  change (row_after (v :: us) i m') with (row_after us i (if bool_decide (v.1 = i) then v.2 m' else m')).
  rewrite IH by (intros v' m'' Hv; apply Hus, elem_of_cons; by right).
  case_bool_decide; [|done]. apply Hus, elem_of_cons. by left.
Qed.

Lemma set_up_keyed b now rows pm old ws next_of :
  stored b rows pm old →
  ∀ i m, writes (own_writes rows (λ m, set_winner_link <$> next_of m))
           (writes (seatings now pm ws) (table rows ∪ old)) !! i = Some m → TournamentMatch.id m = i.
Proof.
  intros Hs. destruct fixed_places as ((Hseat & Hlink & _) & _). apply writes_keyed; [|apply writes_keyed].
  - intros v m (r & Hv & _)%list_elem_of_bind. destruct (next_of r) as [n|]; cbn in Hv.
    + by apply list_elem_of_singleton in Hv as ->.
    + by apply elem_of_nil in Hv.
  - intros v m (w & Hv & _)%list_elem_of_bind. destruct (pm !! w.1) as [n|]; cbn in Hv.
    + apply list_elem_of_singleton in Hv as ->. apply Hseat.
    + by apply elem_of_nil in Hv.
  - intros i m [Hin|[_ Hin]]%lookup_union_Some_raw; [|by apply Hs].
    by apply table_lookup_inv in Hin as [_ ?].
Qed.

Lemma set_up_table b now rows pm old ws next_of :
  stored b rows pm old →
  readied b now <$> writes (own_writes rows (λ m, set_winner_link <$> next_of m))
                      (writes (seatings now pm ws) (table rows ∪ old)) =
  table (settled_row b now ws (λ m, set_winner_link <$> next_of m) <$> rows) ∪ old.
Proof.
  intros Hs. set (links := λ m, set_winner_link <$> next_of m).
  destruct fixed_places as (Hfid & _).
  assert (∀ m, TournamentMatch.id (settled_row b now ws links m) = TournamentMatch.id m) as Hid
    by (intros m; by apply settled_fixed).
  apply map_eq. intros id. rewrite lookup_fmap, !lookup_writes.
  destruct (decide (id ∈ TournamentMatch.id <$> rows)) as [(m & -> & Hm)%list_elem_of_fmap|Hn].
  - rewrite (stored_lookup _ _ _ _ _ Hs Hm). cbn.
    rewrite row_after_seatings by (intros pos; by apply Hs).
    rewrite row_after_own by (done || apply Hs).
    symmetry. apply lookup_union_Some_l. rewrite <- Hid. apply table_lookup.
    + rewrite <- list_fmap_compose. rewrite (list_fmap_ext _ TournamentMatch.id) by (intros; apply Hid).
      apply Hs.
    + by apply (list_elem_of_fmap_2 (settled_row b now ws links)).
  - rewrite !lookup_union_r.
    2: { apply table_lookup_none. intros m (m' & -> & Hm')%list_elem_of_fmap Heq. rewrite Hid in Heq.
         apply Hn. rewrite <- Heq. by apply list_elem_of_fmap_2. }
    2: { apply table_lookup_none. intros m Hm Heq. apply Hn. rewrite <- Heq. by apply list_elem_of_fmap_2. }
    destruct (old !! id) as [m|] eqn:Hm; [|done]. cbn. rewrite row_after_other by done. f_equal.
    assert (row_after (seatings now pm ws) id m = m) as ->.
    { unfold seatings. rewrite (row_after_keyed ws (λ w, pm !! w.1) (λ w, seat now w.2)).
      rewrite filter_none; [done|]. intros w _ (m' & Hm' & Heq)%(stored_known _ _ _ _ Hs).
      apply Hn. rewrite <- Heq. by apply list_elem_of_fmap_2. }
    unfold readied. rewrite bool_decide_false; [done|]. by apply (stored_elsewhere _ _ _ _ Hs id).
Qed.

(** The bracket's matches are then the settled rows. *)
Lemma matches_of_table b rows old db :
  NoDup (TournamentMatch.id <$> rows) → (∀ m, m ∈ rows → TournamentMatch.bracket_id m = b) →
  (∀ id m, old !! id = Some m → TournamentMatch.bracket_id m ≠ b) →
  (∀ id m, old !! id = Some m → TournamentMatch.id m = id) →
  well_keyed (with_matches (table rows ∪ old) db) ∧
  matches_of_bracket b (with_matches (table rows ∪ old) db) ≡ₚ rows.
Proof.
  intros Hnd Hb Hold Hk.
  assert (well_keyed (with_matches (table rows ∪ old) db)) as Hwk.
  { intros id m [Hin|[_ Hin]]%lookup_union_Some_raw; [|by apply Hk]. by apply table_lookup_inv in Hin as [_ ?]. }
  split; [done|]. apply NoDup_Permutation.
  - apply (NoDup_fmap_1 TournamentMatch.id). by apply matches_of_bracket_ids.
  - by apply (NoDup_fmap_1 TournamentMatch.id).
  - intros m. rewrite elem_of_matches_of_bracket. cbn. split.
    + intros [Hbm [id [Hin|[_ Hin]]%lookup_union_Some_raw]].
      * by apply table_lookup_inv in Hin as [? _].
      * by apply Hold in Hin.
    + intros Hm. split; [by apply Hb|]. exists (TournamentMatch.id m).
      apply lookup_union_Some_l. by apply table_lookup.
Qed.

Lemma NoDup_fmap_filter {A B} (f : A → B) (P : A → Prop) `{!∀ x, Decision (P x)} (l : list A) :
  NoDup (f <$> l) → NoDup (f <$> filter P l).
Proof.
  induction l as [|x l IH]; [done|]. rewrite fmap_cons. intros [Hx Hnd]%NoDup_cons.
  rewrite filter_cons. case_decide; [|by apply IH]. rewrite fmap_cons. apply NoDup_cons.
  split; [|by apply IH]. intros (y & Heq & [_ Hy]%list_elem_of_filter)%list_elem_of_fmap.
  apply Hx. rewrite Heq. by apply list_elem_of_fmap_2.
Qed.

(** Everyone placed at one of the positions is seated once, nobody else is. *)
Lemma seated_everyone b now ws next_of rows :
  NoDup (TournamentMatch.bracket_position <$> rows) → (∀ m, m ∈ rows → empty_sides m) →
  NoDup ((λ w, (w.1, w.2.1)) <$> ws) →
  (∀ w, w ∈ ws → (w.2.1 = 1 ∨ w.2.1 = 2) ∧ w.1 ∈ TournamentMatch.bracket_position <$> rows) →
  ((settled_row b now ws (λ m, set_winner_link <$> next_of m) <$> rows) ≫= participants_of)
  ≡ₚ (λ w, SeededParticipant.registration_id w.2.2) <$> ws.
Proof.
  intros Hpos Hempty Hnd Hws.
  assert (∀ m, participants_of (settled_row b now ws (λ m, set_winner_link <$> next_of m) m) =
    participants_of (seated_row now ws m)) as Hseat.
  { intros m. unfold settled_row, readied. destruct (bool_decide _ && _), (next_of m); done. }
  rewrite bind_fmap. rewrite (bind_ext_in _ _ rows (λ m _, Hseat m)).
  etransitivity; [|apply fmap_Permutation, (classes_perm fst (TournamentMatch.bracket_position <$> rows) ws);
    [done|intros w Hw; by apply Hws]].
  rewrite fmap_bind, bind_fmap. apply bind_perm_in. intros m Hm. unfold seated_row.
  etransitivity; [apply seats_participants|].
  - by apply Hempty.
  - rewrite <- list_fmap_compose.
    apply (NoDup_fmap_filter _ (λ w, w.1 = TournamentMatch.bracket_position m)) in Hnd.
    apply (NoDup_fmap_1 (pair (TournamentMatch.bracket_position m))). rewrite <- list_fmap_compose.
    erewrite list_fmap_ext; [exact Hnd|]. intros i [pos w] Hw%list_elem_of_lookup_2. cbn.
    by apply list_elem_of_filter in Hw as [<- _].
  - intros [s q] ([pos w] & -> & [_ Hw]%list_elem_of_filter)%list_elem_of_fmap. by apply (Hws (pos, w)).
  - rewrite <- !list_fmap_compose. reflexivity.
Qed.
End start_facts.
