(* ===== verification/StartProps.v ===== *)
(** A started tournament can be played: the bracket of a single elimination as
    the start leaves it. Once a start has been claimed, no other call builds
    anything, whatever became of the first. *)
From stdpp Require Import base list strings gmap.
From S2P Require Import Prelude Errors Wire TournamentTypes CoreEnums FormatPlan Entities.
From S2P Require Import BracketModel Elimination EliminationFacts SingleEliminationProps.
From S2P Require Import Rounds Rows TournamentModel Store.
From S2P Require Import TournamentStore StoreFacts Standings Helpers HelpersProps Progression.
From S2P Require Import ProgressionProps CompletionProps Registrations Tournaments StartFacts Samples.
#[local] Open Scope Z_scope.

(** ** Where the generator places the participants *)

Section placements.
Context (tid : TournamentId) (sid : TournamentStageId) (bid : TournamentBracketId)
  (parts : list SeededParticipant.t) (plan : MatchFormatPlan) (k : nat).
Context (Hlen : 2 ^ Z.of_nat k < Z.of_nat (length parts) ≤ 2 ^ Z.of_nat (S k)).

Definition se_placements : list placement :=
  (assignment_placement <$> GeneratedBracket.initial_assignments (se_bracket tid sid bid parts plan k)) ++
  (bye_placement <$> GeneratedBracket.byes (se_bracket tid sid bid parts plan k)).

Definition entry_placements (p : Z * Z) : list placement :=
  (assignment_placement <$> (entry "R" parts k p).1) ++ (bye_placement <$> (entry "R" parts k p).2).

Lemma se_placements_entries : se_placements ≡ₚ first_round k ≫= entry_placements.
Proof. unfold se_placements. cbn. rewrite !fmap_bind. symmetry. apply bind_app_perm. Qed.

(** A first-round match takes two seats of its own, or hands one of the next round. *)
Lemma entry_placements_cases i s :
  (i, s) ∈ first_round k →
  (∃ p q, entry_placements (i, s) =
     [(position "R" 1 (i + 1), (1, p)); (position "R" 1 (i + 1), (2, q))]) ∨
  (∃ p, entry_placements (i, s) =
     [(position "R" 2 (i / 2 + 1), (if bool_decide (i `mod` 2 = 0) then 1 else 2, p))] ∧
     ∃ bye, bye ∈ (entry "R" parts k (i, s)).2).
Proof.
  intros [Hi Hs]%elem_of_first_round. unfold entry_placements, entry, first_round_entry. cbn -[position].
  destruct (lookup_lt_is_Some_2 parts (Z.to_nat s)) as [p Hp]; [lia|]. rewrite Hp.
  destruct (parts !! Z.to_nat (2 ^ _ - 1 - s)) as [q|]; [left; by exists p, q|right]. exists p. split; [done|].
  eexists. by apply list_elem_of_singleton.
Qed.

Lemma entry_key i s e :
  (i, s) ∈ first_round k → e ∈ (λ w, (w.1, w.2.1)) <$> entry_placements (i, s) →
  e.1 = position "R" 1 (i + 1) ∨
  e = (position "R" 2 (i / 2 + 1), if bool_decide (i `mod` 2 = 0) then 1 else 2).
Proof.
  intros Hin (w & -> & Hw)%list_elem_of_fmap.
  destruct (entry_placements_cases i s Hin) as [(p & q & E)|(p & E & _)]; rewrite E in Hw; [left|right].
  - apply elem_of_cons in Hw as [->| ->%list_elem_of_singleton]; done.
  - by apply list_elem_of_singleton in Hw as ->.
Qed.

Lemma se_placements_slots : NoDup ((λ w, (w.1, w.2.1)) <$> se_placements).
Proof.
  rewrite se_placements_entries, fmap_bind. apply NoDup_bind.
  - intros [i s] [i' s'] e Hin Hin' He He'.
    pose proof (elem_of_first_round _ _ _ Hin) as [Hi _]. pose proof (elem_of_first_round _ _ _ Hin') as [Hi' _].
    assert (i = i') as ->; [|by rewrite (first_round_functional k i' s s')].
    pose proof (Z.div_mod i 2 ltac:(lia)). pose proof (Z.div_mod i' 2 ltac:(lia)).
    pose proof (Z.mod_pos_bound i 2 ltac:(lia)). pose proof (Z.mod_pos_bound i' 2 ltac:(lia)).
    destruct (entry_key i s e Hin He) as [E|E], (entry_key i' s' e Hin' He') as [E'|E'].
    + rewrite E in E'. apply position_inj in E' as [_ ?]; lia.
    + rewrite E' in E. apply position_inj in E as [? _]; lia.
    + rewrite E in E'. apply position_inj in E' as [? _]; lia.
    + rewrite E in E'. apply pair_equal_spec in E' as [E1 E2]. apply position_inj in E1 as [_ ?]; [|lia..].
      repeat case_bool_decide; lia.
  - intros [i s] Hin. destruct (entry_placements_cases i s Hin) as [(p & q & ->)|(p & -> & _)]; cbn -[position].
    + apply NoDup_cons. split; [|apply NoDup_singleton]. intros [=]%list_elem_of_singleton.
    + apply NoDup_singleton.
  - apply (NoDup_fmap_1 snd). rewrite first_round_seeds. apply seeding_NoDup.
Qed.

Lemma se_placements_at w :
  w ∈ se_placements → (w.2.1 = 1 ∨ w.2.1 = 2) ∧
  w.1 ∈ CreateTournamentMatch.bracket_position <$> GeneratedBracket.matches (se_bracket tid sid bid parts plan k).
Proof.
  rewrite se_placements_entries. intros ([i s] & Hw & Hin)%list_elem_of_bind.
  pose proof (elem_of_first_round _ _ _ Hin) as [Hi _].
  destruct (entry_placements_cases i s Hin) as [(p & q & E)|(p & E & bye & Hbye)]; rewrite E in Hw.
  - assert (position "R" 1 (i + 1) ∈ CreateTournamentMatch.bracket_position <$>
      GeneratedBracket.matches (se_bracket tid sid bid parts plan k)) as Hpos.
    { rewrite se_positions. apply list_elem_of_fmap. exists (1, i). split; [done|].
      apply elem_of_elim_slots. rewrite Nat2Z.inj_succ, <- Z.add_1_r, Z.add_simpl_r. lia. }
    apply elem_of_cons in Hw as [->| ->%list_elem_of_singleton]; cbn -[position]; auto.
  - apply list_elem_of_singleton in Hw as ->. cbn [fst snd].
    split; [destruct (bool_decide _); auto|].
    destruct (bye_target tid sid bid parts plan k i s bye) as (m1 & m2 & _ & Hm2 & _ & _ & Hpos & _);
      [lia|done|done|].
    assert (ByeInfo.advances_to_position bye = position "R" 2 (i / 2 + 1)) as Hadv.
    { assert (bye_placement bye ∈ entry_placements (i, s)) as Hb
        by (apply elem_of_app; right; by apply list_elem_of_fmap_2).
      rewrite E in Hb. apply list_elem_of_singleton in Hb. by injection Hb. }
    rewrite <- Hadv, <- Hpos. by apply list_elem_of_fmap_2.
Qed.

Lemma se_placements_everyone :
  (λ w, SeededParticipant.registration_id w.2.2) <$> se_placements ≡ₚ
  SeededParticipant.registration_id <$> parts.
Proof.
  etransitivity; [|apply fmap_Permutation, (placed_participants "R" parts k); lia].
  unfold se_placements. rewrite !fmap_app, <- !list_fmap_compose. done.
Qed.
End placements.

Section start_props.
Context `{Platform}.

(** Identifiers are handed out once, rows refer to brackets there are. *)
Record sound_tables (db : Db.t) : Prop := {
  sound_keyed : well_keyed db;
  sound_fresh id : (Db.next_uuid db ≤ id)%N → Db.matches db !! id = None ∧ Db.brackets db !! id = None;
  sound_matches id m : Db.matches db !! id = Some m → (TournamentMatch.bracket_id m < Db.next_uuid db)%N;
}.

Lemma bulk_create_run b cmds db :
  Forall (λ c, CreateTournamentMatch.bracket_id c = b) cmds →
  NoDup (CreateTournamentMatch.bracket_position <$> cmds) →
  (∀ id m, Db.matches db !! id = Some m → TournamentMatch.bracket_id m ≠ b) →
  let rows := rows_from (Db.next_uuid db) (Db.now db) cmds in
  TournamentService.store_matches cmds db = (Ok (rows, build_position_map rows),
    with_matches (table rows ∪ Db.matches db)
      (db <| Db.next_uuid := (Db.next_uuid db + N.of_nat (length cmds))%N |>)).
Proof.
  intros Hb Hnd Hfree rows. unfold TournamentService.store_matches, bulk_create, mbind.
  rewrite (insert_matches_run b) by (done || by intros id m Hm Hbm; destruct (Hfree id m Hm)). done.
Qed.

(** The bracket's row once its rounds are set. *)
Definition opened_bracket (b : TournamentBracketId) (sid : TournamentStageId) (tid : TournamentId)
    (name : string) (bracket_type : BracketType.t) (group : option Z) (rounds : Z) (now : DateTime)
    : TournamentBracket.t := {|
  TournamentBracket.id := b;
  TournamentBracket.stage_id := sid;
  TournamentBracket.tournament_id := tid;
  TournamentBracket.name := name;
  TournamentBracket.bracket_type := bracket_type;
  TournamentBracket.total_rounds := rounds;
  TournamentBracket.current_round := 1;
  TournamentBracket.group_number := group;
  TournamentBracket.status := BracketStatus.Pending;
  TournamentBracket.created_at := now;
  TournamentBracket.updated_at := now |}.

(** The tables with a bracket added, and with identifiers used up. *)
Definition opened (bk : TournamentBracket.t) (db : Db.t) : Db.t :=
  db <| Db.next_uuid := N.succ (Db.next_uuid db) |>
     <| Db.brackets := <[TournamentBracket.id bk := bk]> (Db.brackets db) |>.
Definition used (n : nat) (db : Db.t) : Db.t :=
  db <| Db.next_uuid := (Db.next_uuid db + N.of_nat n)%N |>.

Lemma new_bracket_run sid tid name bt group db :
  TournamentService.new_bracket sid tid name bt group db =
  let bk := opened_bracket (Db.next_uuid db) sid tid name bt group 0 (Db.now db) in (Ok bk, opened bk db).
Proof. reflexivity. Qed.

Lemma set_rounds_run sid tid name bt group rounds db :
  let b := Db.next_uuid db in
  TournamentService.set_rounds b rounds (opened (opened_bracket b sid tid name bt group 0 (Db.now db)) db) =
  (Ok tt, opened (opened_bracket b sid tid name bt group rounds (Db.now db)) db).
Proof.
  intros b. unfold TournamentService.set_rounds, mbind, update_bracket. cbn.
  rewrite lookup_insert_eq. cbn. unfold mret, opened. cbn. by rewrite insert_insert_eq.
Qed.

Lemma store_matches_run b cmds db :
  Forall (λ c, CreateTournamentMatch.bracket_id c = b) cmds →
  NoDup (CreateTournamentMatch.bracket_position <$> cmds) →
  (∀ id m, Db.matches db !! id = Some m → TournamentMatch.bracket_id m ≠ b) →
  let rows := rows_from (Db.next_uuid db) (Db.now db) cmds in
  TournamentService.store_matches cmds db = (Ok (rows, build_position_map rows),
    with_matches (table rows ∪ Db.matches db) (used (length cmds) db)).
Proof.
  intros Hb Hnd Hfree rows. unfold TournamentService.store_matches, bulk_create, mbind.
  rewrite (insert_matches_run b) by (done || by intros id m Hm Hbm; destruct (Hfree id m Hm)). done.
Qed.

Lemma se_bracket_commands tid sid bid parts plan k :
  Forall (λ c, CreateTournamentMatch.bracket_id c = bid)
    (GeneratedBracket.matches (se_bracket tid sid bid parts plan k)).
Proof. apply Forall_forall. by intros c (n & r & i & _ & ->)%elem_of_se_matches. Qed.

Lemma start_single_elimination_run id t stage ps plan k db :
  sound_tables db → TournamentService.stage_format_plan t stage = Ok plan →
  2 ^ Z.of_nat k < Z.of_nat (length ps) ≤ 2 ^ Z.of_nat (S k) → Z.of_nat (length ps) ≤ 2 ^ 30 →
  let b := Db.next_uuid db in
  let sid := TournamentStage.id stage in
  let g := se_bracket id sid b ps plan k in
  let rows := rows_from (N.succ b) (Db.now db) (GeneratedBracket.matches g) in
  let next_of := se_next (build_position_map rows) in
  stored b rows (build_position_map rows) (Db.matches db) ∧
  TournamentService.start_single_elimination id t stage ps db = (Ok tt,
    with_matches (table (settled_row b (Db.now db) (se_placements id sid b ps plan k)
                           (λ m, set_winner_link <$> next_of m) <$> rows) ∪ Db.matches db)
      (used (length rows)
        (opened (opened_bracket b sid id "Main Bracket" BracketType.SingleElim None (Z.of_nat (S k)) (Db.now db)) db))).
Proof.
  intros [Hk _ Hm] Hplan Hlen Hmax b sid g rows next_of.
  assert (∀ i m, Db.matches db !! i = Some m → TournamentMatch.bracket_id m ≠ b) as Hb.
  { intros i m Hi. specialize (Hm i m Hi). unfold b. lia. }
  assert (stored b rows (build_position_map rows) (Db.matches db)) as Hs.
  { apply stored_rows; [apply se_bracket_commands|apply se_positions_NoDup|].
    intros i m Hi. split; [by apply (Hb i)|by apply Hk]. }
  split; [done|]. unfold TournamentService.start_single_elimination.
  mrun new_bracket_run. mrun (mlift_run _ plan); [done|].
  destruct (single_elimination_ok id sid b ps plan ltac:(lia)) as (k' & _ & Hlen' & Hg).
  rewrite (pow2_bracket_inj k' k _ Hlen' Hlen) in Hg. fold g in Hg. mrun (mlift_run _ g); [done|].
  mrun set_rounds_run.
  mrun (store_matches_run b _ _ (se_bracket_commands _ _ _ _ _ _) (se_positions_NoDup _ _ _ _ _ _)); [exact Hb|].
  change (rows_from (Db.next_uuid (opened _ db)) _ (GeneratedBracket.matches _)) with rows.
  set (pm := build_position_map rows) in *. set (M1 := table rows ∪ Db.matches db).
  set (bk := opened_bracket b sid id "Main Bracket" BracketType.SingleElim None (Z.of_nat (S k)) (Db.now db)).
  match goal with |- mbind _ _ ?d = _ =>
    change d with (with_matches M1 (used (length (GeneratedBracket.matches g)) (opened bk db))) end.
  assert (∀ us pos i, pm !! pos = Some i → is_Some (writes us M1 !! i)) as Hpm.
  { intros us pos i Hi. rewrite lookup_writes, fmap_is_Some. by apply (stored_found _ _ _ _ _ _ Hs Hi). }
  mrun apply_initial_assignments_run; [by apply (Hpm [])|].
  mrun apply_byes_run; [by apply Hpm|].
  mrun set_se_progression_links_run.
  { intros m Hm'. rewrite !matches_with, !lookup_writes, !fmap_is_Some.
    unfold M1. rewrite (stored_lookup _ _ _ _ _ Hs Hm'). eauto. }
  rewrite !matches_with, !now_with, !with_matches_again.
  rewrite <- (writes_app (seatings _ _ (assignment_placement <$> _))), <- seatings_app.
  etransitivity; [apply mark_ready_matches_run|].
  - intros i m. apply (set_up_keyed b _ rows pm _ _ _ Hs).
  - rewrite matches_with, now_with, with_matches_again. do 2 f_equal.
    + apply set_up_table, Hs.
    + unfold rows. by rewrite rows_from_length.
Qed.

(** ** The bracket that stands *)

(** An elimination bracket in order: everyone seated once, every match that has
    both its participants ready and the others waiting, every winner's way
    wired to the match of the next round that waits for it. *)
Record playable (b : TournamentBracketId) (rounds : Z) (entrants : list TournamentRegistrationId)
    (db : Db.t) : Prop := {
  playable_matches : Z.of_nat (length (matches_of_bracket b db)) = 2 ^ rounds - 1;
  playable_seats : matches_of_bracket b db ≫= participants_of ≡ₚ entrants;
  playable_status m : m ∈ matches_of_bracket b db →
    TournamentMatch.status m =
      if TournamentMatch.has_both_participants m then TournamentMatchStatus.Ready
      else TournamentMatchStatus.Pending;
  playable_links m : m ∈ matches_of_bracket b db →
    TournamentMatch.loser_progresses_to m = None ∧
    if bool_decide (TournamentMatch.round m = rounds) then TournamentMatch.winner_progresses_to m = None
    else ∃ target slot, target ∈ matches_of_bracket b db ∧
      TournamentMatch.round target = TournamentMatch.round m + 1 ∧
      TournamentMatch.winner_progresses_to m = Some (TournamentMatch.id target) ∧
      wired ProgressionRole.Winner m target slot;
}.

Lemma waits_wired src target :
  fed_by ProgressionRole.Winner src (TournamentMatch.participant1_source target) = true ∨
  fed_by ProgressionRole.Winner src (TournamentMatch.participant2_source target) = true →
  ∃ slot, wired ProgressionRole.Winner src target slot.
Proof.
  intros Hfed. destruct (fed_by ProgressionRole.Winner src (TournamentMatch.participant1_source target)) eqn:H1.
  - by exists ParticipantSlot.One.
  - exists ParticipantSlot.Two. split; [by destruct Hfed|done].
Qed.

Section settled.
Context (id : TournamentId) (sid : TournamentStageId) (b : TournamentBracketId)
  (ps : list SeededParticipant.t) (plan : MatchFormatPlan) (k : nat) (next : Uuid) (now : DateTime)
  (old : gmap N TournamentMatch.t).
Context (Hlen : 2 ^ Z.of_nat k < Z.of_nat (length ps) ≤ 2 ^ Z.of_nat (S k)) (Hk : (k ≤ 29)%nat).
#[local] Abbreviation g := (se_bracket id sid b ps plan k).
#[local] Abbreviation rows := (rows_from next now (GeneratedBracket.matches g)).
#[local] Abbreviation pm := (build_position_map rows).
#[local] Abbreviation settled := (settled_row b now (se_placements id sid b ps plan k)
  (λ m, set_winner_link <$> se_next pm m)).
Context (Hs : stored b rows pm old).

Lemma settled_link m :
  TournamentMatch.winner_progresses_to m = None → TournamentMatch.loser_progresses_to m = None →
  TournamentMatch.winner_progresses_to (settled m) = se_next pm m ∧
  TournamentMatch.loser_progresses_to (settled m) = None.
Proof.
  intros Hw Hl. unfold settled_row, readied.
  assert (∀ A (f : TournamentMatch.t → A) r, f (set_ready now r) = f r →
    f (if bool_decide (TournamentMatch.bracket_id r = b) && is_newly_ready r then set_ready now r else r) = f r)
    as Hr by (intros A f r Hf; by destruct (bool_decide _ && _)).
  rewrite !(Hr _ TournamentMatch.winner_progresses_to), !(Hr _ TournamentMatch.loser_progresses_to) by done.
  destruct (se_next pm m); cbn [fmap option_fmap option_map from_option]; [done|].
  rewrite (seated_row_field TournamentMatch.winner_progresses_to), (seated_row_field TournamentMatch.loser_progresses_to);
    [done|..]; intros [s q] r; unfold seat; by destruct (slot_of _).
Qed.

Lemma settled_status m :
  TournamentMatch.bracket_id m = b → TournamentMatch.status m = TournamentMatchStatus.Pending →
  TournamentMatch.status (settled m) =
    if TournamentMatch.has_both_participants (settled m) then TournamentMatchStatus.Ready
    else TournamentMatchStatus.Pending.
Proof.
  intros Hb Hp. unfold settled_row. set (m' := from_option _ _ _).
  assert (TournamentMatch.bracket_id m' = b ∧ TournamentMatch.status m' = TournamentMatchStatus.Pending) as [Hb' Hp'].
  { rewrite <- Hb, <- Hp. unfold m'. destruct (se_next pm m); cbn [fmap option_fmap option_map from_option];
      (split; [apply (seated_row_field TournamentMatch.bracket_id)|apply (seated_row_field TournamentMatch.status)];
       intros [s q] r; unfold seat; by destruct (slot_of _)). }
  unfold readied, is_newly_ready. rewrite bool_decide_true by done.
  unfold TournamentMatch.is_pending. rewrite Hp'. cbn [andb].
  destruct (TournamentMatch.has_both_participants m') eqn:Hboth; [|by rewrite Hboth, Hp'].
  cbn. by replace (TournamentMatch.has_both_participants _) with true.
Qed.

(** The stored row of a slot of the tree. *)
Lemma elem_of_se_rows m :
  m ∈ rows → ∃ i n r j, (r, j) ∈ elim_slots (S k) ∧
    m = inserted_match i now (slot_match "R" id sid b (seeding (S k)) plan (Z.of_nat (S k)) n (r, j)).
Proof.
  intros (i & c & _ & (n & r & j & Hin & ->)%elem_of_se_matches & ->)%elem_of_rows_from. by exists i, n, r, j.
Qed.

Lemma se_row_at r j :
  (r, j) ∈ elim_slots (S k) → ∃ m i n, m ∈ rows ∧
    m = inserted_match i now (slot_match "R" id sid b (seeding (S k)) plan (Z.of_nat (S k)) n (r, j)).
Proof.
  intros Hin. assert (position "R" r (j + 1) ∈ TournamentMatch.bracket_position <$> rows) as Hpos.
  { rewrite (rows_from_fmap _ CreateTournamentMatch.bracket_position), se_positions by done.
    apply (list_elem_of_fmap_2 (λ slot : Z * Z, position "R" slot.1 (slot.2 + 1)) _ (r, j) Hin). }
  apply list_elem_of_fmap in Hpos as (m & Heq & Hm).
  destruct (elem_of_se_rows m Hm) as (i & n & r' & j' & Hin' & ->). eexists _, i, n. split; [exact Hm|].
  apply elem_of_elim_slots in Hin as [Hr Hj], Hin' as [Hr' Hj'].
  cbn -[position] in Heq. apply position_inj in Heq as [-> Heq]; [|lia..]. by replace j' with j by lia.
Qed.

(** Below the last round the way leads to the match that waits; from it nowhere. *)
Lemma se_row_next m :
  m ∈ rows →
  if bool_decide (TournamentMatch.round m = Z.of_nat (S k)) then se_next pm m = None
  else ∃ t slot, t ∈ rows ∧ se_next pm m = Some (TournamentMatch.id t) ∧
    TournamentMatch.round t = TournamentMatch.round m + 1 ∧ wired ProgressionRole.Winner m t slot.
Proof.
  intros Hm. destruct (elem_of_se_rows m Hm) as (i & n & r & j & Hin & Heq).
  pose proof (se_next_position_slot (S k) r j ltac:(lia) Hin) as Hnext.
  pose proof Hin as [Hr Hj]%elem_of_elim_slots.
  assert (TournamentMatch.round m = r) as -> by by rewrite Heq.
  assert (se_next pm m = pm !! position "R" (r + 1) (j / 2 + 1)) as ->.
  { unfold se_next. rewrite Heq. cbn -[position se_next_position]. by rewrite Hnext. }
  case_bool_decide as Hlast.
  - apply eq_None_not_Some. intros [t Ht]. apply (build_position_map_lookup _ _ _ (stored_positions _ _ _ _ Hs)) in Ht
      as (m' & Hm' & Hpos & _). destruct (elem_of_se_rows m' Hm') as (i' & n' & r' & j' & Hin' & ->).
    apply elem_of_elim_slots in Hin' as [Hr' _]. cbn -[position] in Hpos. apply position_inj in Hpos as [? _]; lia.
  - destruct (se_row_at (r + 1) (j / 2)) as (t & i' & n' & Ht & Heq').
    { apply elim_next_slot; [done|lia]. }
    destruct (waits_wired m t) as [slot Hslot].
    { pose proof (slot_match_waits "R" id sid b (seeding (S k)) plan (Z.of_nat (S k)) n' r j ltac:(lia) ltac:(lia))
        as [Hw|Hw]; [left|right]; rewrite Heq, Heq'; cbn -[position] in Hw |- *; rewrite Hw; cbn -[position];
        by rewrite bool_decide_true. }
    exists t, slot. split; [done|]. split; [|split; [by rewrite Heq'|done]].
    apply (stored_map _ _ _ _ Hs t _ Ht). by rewrite Heq'.
Qed.

Lemma settled_wired role m t slot :
  wired role m t slot → wired role (settled m) (settled t) slot.
Proof.
  destruct fixed_places as (_ & _ & Hp & _ & _ & H1 & H2). unfold wired, fed_by, source_of.
  rewrite !(settled_fixed TournamentMatch.bracket_position), !(settled_fixed TournamentMatch.participant1_source),
    !(settled_fixed TournamentMatch.participant2_source) by done. done.
Qed.

Lemma settled_playable db :
  playable b (Z.of_nat (S k)) (SeededParticipant.registration_id <$> ps)
    (with_matches (table (settled <$> rows) ∪ old) db).
Proof.
  destruct fixed_places as (Hid & Hb & Hp & Hr & _).
  assert (NoDup (TournamentMatch.id <$> (settled <$> rows))) as Hnd.
  { rewrite <- list_fmap_compose, (list_fmap_ext _ TournamentMatch.id); [apply Hs|].
    intros. by apply settled_fixed. }
  destruct (matches_of_table b (settled <$> rows) old db Hnd) as [_ Hms].
  { intros m (r & -> & Hin)%list_elem_of_fmap. rewrite settled_fixed by done. by apply Hs. }
  { apply Hs. } { apply Hs. }
  split.
  - rewrite Hms, length_fmap, rows_from_length. unfold se_bracket. cbn [GeneratedBracket.matches].
    rewrite length_imap. apply elim_slots_length.
  - rewrite Hms. rewrite seated_everyone.
    + by apply se_placements_everyone.
    + apply Hs.
    + intros m (i & n & r & j & _ & ->)%elem_of_se_rows. done.
    + by apply se_placements_slots.
    + intros w Hw. rewrite (rows_from_fmap _ CreateTournamentMatch.bracket_position) by done.
      by apply se_placements_at.
  - intros m. rewrite Hms. intros (r & -> & Hin)%list_elem_of_fmap. apply settled_status; [by apply Hs|].
    by destruct (elem_of_se_rows r Hin) as (i & n & q & j & _ & ->).
  - intros m. rewrite Hms. intros (r & -> & Hin)%list_elem_of_fmap.
    destruct (settled_link r) as [-> ->];
      [by destruct (elem_of_se_rows r Hin) as (i & n & q & j & _ & ->)..|].
    split; [done|]. rewrite (settled_fixed TournamentMatch.round) by done.
    pose proof (se_row_next r Hin) as Hnext. case_bool_decide; [done|].
    destruct Hnext as (t & slot & Ht & Hnext & Hround & Hw). exists (settled t), slot.
    rewrite Hms, (settled_fixed TournamentMatch.round), (settled_fixed TournamentMatch.id) by done.
    split; [by apply (list_elem_of_fmap_2 settled)|]. split; [done|]. split; [done|]. by apply settled_wired.
Qed.
End settled.
End start_props.

Section start_once.
Context `{Platform}.

(** ** The set-up leaves the tournament table alone *)

Definition same_tournaments (db db' : Db.t) : Prop := Db.tournaments db' = Db.tournaments db.

#[global] Instance same_tournaments_preorder : PreOrder same_tournaments.
Proof. split; [done|]. unfold same_tournaments. congruence. Qed.

Lemma only_matches_tournaments {A} (c : M A) :
  preserves only_matches c → preserves same_tournaments c.
Proof. intros Hc db. apply Hc. Qed.

Lemma insert_match_tournaments cmd : preserves same_tournaments (insert_match cmd).
Proof. intros db. unfold insert_match. by destruct (position_taken _ _). Qed.
Lemma bulk_create_tournaments cmds : preserves same_tournaments (bulk_create cmds).
Proof. apply preserves_bulk_create; [apply _|apply insert_match_tournaments]. Qed.
Lemma create_bracket_tournaments cmd : preserves same_tournaments (create_bracket cmd).
Proof. done. Qed.
Lemma update_bracket_tournaments id u : preserves same_tournaments (update_bracket id u).
Proof. intros db. unfold update_bracket. by destruct (_ !! _). Qed.
Lemma create_stage_tournaments cmd : preserves same_tournaments (create_stage cmd).
Proof. intros db. unfold create_stage. by destruct (order_taken _ _). Qed.
Lemma set_stage_status_tournaments id s : preserves same_tournaments (set_stage_status id s).
Proof. intros db. unfold set_stage_status. by destruct (_ !! _). Qed.
Lemma create_standing_tournaments cmd : preserves same_tournaments (create_standing cmd).
Proof. intros db. unfold create_standing. by destruct (standing_taken _ _). Qed.
Lemma record_bye_tournaments b r n : preserves same_tournaments (record_bye b r n).
Proof. intros db. cbn. by destruct (existsb _ _). Qed.
Lemma recompute_bracket_tournaments b : preserves same_tournaments (recompute_bracket b).
Proof. done. Qed.

Lemma insert_standings_tournaments cmds : preserves same_tournaments (insert_standings cmds).
Proof.
  induction cmds as [|cmd cmds IH]; [apply preserves_ret, _|]. cbn [insert_standings].
  apply preserves_bind; [apply _|apply create_standing_tournaments|]. intros s.
  apply preserves_bind; [apply _|done|]. intros ss. apply preserves_ret, _.
Qed.
End start_once.

#[export] Hint Resolve bulk_create_tournaments create_bracket_tournaments
  update_bracket_tournaments create_stage_tournaments set_stage_status_tournaments
  insert_standings_tournaments record_bye_tournaments recompute_bracket_tournaments : frames.
#[export] Hint Extern 3 (preserves same_tournaments (update_match _ _)) =>
  apply only_matches_tournaments, update_match_only : frames.
#[export] Hint Extern 3 (preserves same_tournaments (set_progression_links _ _ _)) =>
  apply only_matches_tournaments, set_progression_links_only : frames.

Section start_once.
Context `{Platform}.

Lemma assign_seeded_tournaments id slot p : preserves same_tournaments (assign_seeded id slot p).
Proof. unfold assign_seeded, assign_participant. frame. Qed.

Lemma mark_ready_tournaments b : preserves same_tournaments (TournamentService.mark_ready_matches b).
Proof. unfold TournamentService.mark_ready_matches, list_matches_by_bracket, update_status. frame. Qed.

#[local] Hint Resolve assign_seeded_tournaments mark_ready_tournaments : frames.

Ltac set_up :=
  unfold TournamentService.new_bracket, TournamentService.set_rounds, TournamentService.store_matches,
    apply_initial_assignments, apply_byes, set_se_progression_links, bulk_create_standings, TournamentService.award_bye.

Lemma build_main_stage_tournaments id t stage ps :
  preserves same_tournaments (TournamentService.build_main_stage id t stage ps).
Proof.
  unfold TournamentService.build_main_stage. destruct (Tournament.format t).
  - unfold TournamentService.start_single_elimination. set_up. frame.
  - unfold TournamentService.start_double_elimination. set_up. frame.
  - unfold TournamentService.start_round_robin. set_up. frame.
  - unfold TournamentService.start_swiss. set_up. frame.
  - apply preserves_lift, _.
Qed.

Lemma start_groups_tournaments id sid gf plan idx groups :
  preserves same_tournaments (TournamentService.start_groups id sid gf plan idx groups).
Proof.
  revert idx. induction groups as [|g gs IH]; intros idx; [apply preserves_ret, _|].
  cbn [TournamentService.start_groups]. apply preserves_bind; [apply _| |intros _; apply IH].
  unfold TournamentService.start_group. set_up. frame.
Qed.

#[local] Hint Resolve build_main_stage_tournaments start_groups_tournaments : frames.

Lemma start_groups_and_playoffs_tournaments id t ps :
  preserves same_tournaments (TournamentService.start_groups_and_playoffs id t ps).
Proof. unfold TournamentService.start_groups_and_playoffs. frame. Qed.

Lemma main_stage_tournaments id t : preserves same_tournaments (TournamentService.main_stage id t).
Proof. unfold TournamentService.main_stage, list_stages_by_tournament. frame. Qed.

(** ** A claimed start stays claimed *)

Definition in_progress (id : TournamentId) (db : Db.t) : Prop :=
  ∃ t, Db.tournaments db !! id = Some t ∧ Tournament.status t = TournamentStatus.InProgress.

Definition keeps_claim (id : TournamentId) (db db' : Db.t) : Prop := in_progress id db → in_progress id db'.

#[local] Instance keeps_claim_preorder id : PreOrder (keeps_claim id).
Proof. split; [intros db Hin; exact Hin|]. intros x y z Hxy Hyz Hx. by apply Hyz, Hxy. Qed.

Lemma same_keeps_claim {A} id (c : M A) : preserves same_tournaments c → preserves (keeps_claim id) c.
Proof. intros Hc db (t & Ht & Hst). exists t. split; [|done]. by rewrite (Hc db). Qed.

Lemma try_update_keeps_claim id where_ set :
  (∀ now t, Tournament.status t = TournamentStatus.InProgress →
     Tournament.status (set now t) = TournamentStatus.InProgress) →
  preserves (keeps_claim id) (TournamentRepository.try_update id where_ set).
Proof.
  intros Hset db (t & Ht & Hst). unfold TournamentRepository.try_update. rewrite Ht.
  destruct (where_ t); [|by exists t]. destruct (TournamentRepository.violated _ _); [by exists t|].
  eexists. cbn. rewrite lookup_insert_eq. split; [done|]. cbn. by apply Hset.
Qed.

Lemma mark_started_keeps_claim id : preserves (keeps_claim id) (TournamentRepository.mark_started id).
Proof.
  unfold TournamentRepository.mark_started, TournamentRepository.update_row.
  apply preserves_bind; [apply _|by apply try_update_keeps_claim|]. intros row. apply preserves_lift, _.
Qed.

Lemma build_brackets_keeps_claim id t regs :
  preserves (keeps_claim id) (TournamentService.build_brackets id t regs).
Proof.
  unfold TournamentService.build_brackets. case_bool_decide.
  - apply preserves_bind; [apply _|apply same_keeps_claim, start_groups_and_playoffs_tournaments|].
    intros _. apply mark_started_keeps_claim.
  - apply preserves_bind; [apply _|apply same_keeps_claim, main_stage_tournaments|]. intros stage.
    apply preserves_bind; [apply _|apply same_keeps_claim, build_main_stage_tournaments|]. intros _.
    apply preserves_bind; [apply _|apply same_keeps_claim, set_stage_status_tournaments|]. intros _.
    apply mark_started_keeps_claim.
Qed.

Lemma claim_lost id t regs db :
  in_progress id db →
  ∃ row, Db.tournaments db !! id = Some row ∧ Tournament.status row = TournamentStatus.InProgress ∧
    TournamentService.claim_and_build id t regs db = (Ok row, db).
Proof.
  intros (row & Hrow & Hst). exists row. split; [done|]. split; [done|].
  unfold TournamentService.claim_and_build, TournamentRepository.try_claim_start, TournamentRepository.try_update, mbind.
  rewrite Hrow. unfold TournamentRepository.may_start at 1. rewrite Hst.
  unfold TournamentService.get_tournament, find_tournament, TournamentRepository.find_by_id, mbind, mread, mlift.
  by rewrite Hrow.
Qed.

(** C6. Brackets are built at most once. However the call that claims a start ends,
  the tournament is in progress from then on; a call that had passed its checks
  before, with whatever participants it read, finds the claim taken, changes
  nothing and answers with the tournament; a later call is refused. *)
Theorem start_once id t regs db claimed :
  (TournamentRepository.try_claim_start id db).1 = Ok (Some claimed) →
  let db1 := (TournamentService.claim_and_build id t regs db).2 in
  ∃ row, Db.tournaments db1 !! id = Some row ∧ Tournament.status row = TournamentStatus.InProgress ∧
    (∀ t' regs', TournamentService.claim_and_build id t' regs' db1 = (Ok row, db1)) ∧
    TournamentService.start_tournament id db1 =
      (throw (DomainError.InvalidState "Cannot start tournament in in_progress status"), db1).
Proof.
  intros Hclaim db1. assert (in_progress id db1) as Hin.
  { subst db1. unfold TournamentService.claim_and_build.
    rewrite (mbind_step _ _ _ _ _ (run_outcome _ _ _ Hclaim)).
    assert (in_progress id (TournamentRepository.try_claim_start id db).2) as Hc.
    { revert Hclaim. unfold TournamentRepository.try_claim_start, TournamentRepository.try_update.
      destruct (Db.tournaments db !! id) as [row|]; [|done]. destruct (TournamentRepository.may_start row); [|done].
      destruct (TournamentRepository.violated _ _); [done|]. intros _. eexists. cbn.
      by rewrite lookup_insert_eq. }
    set (db2 := (TournamentRepository.try_claim_start id db).2) in *.
    unfold list_brackets_by_tournament. change (mbind (mread ?f) ?k db2) with (k (f db2) db2). cbv beta.
    destruct (brackets_of_tournament id db2); [|exact Hc]. by apply build_brackets_keeps_claim. }
  pose proof Hin as (row & Hrow & Hst). exists row. split; [done|]. split; [done|]. split.
  - intros t' regs'. destruct (claim_lost id t' regs' db1 Hin) as (row' & Hrow' & _ & ->). congruence.
  - unfold TournamentService.start_tournament, TournamentService.get_tournament, find_tournament,
      TournamentRepository.find_by_id, mbind, mread, mlift. rewrite Hrow. cbn.
    unfold TournamentRepository.may_start. by rewrite Hst.
Qed.
End start_once.
