(* ===== verification/RegistrationProps.v ===== *)
(** What registrations promise: the tables stay in order whatever the services
    do, and a tournament admits exactly whom its rules admit. *)
From stdpp Require Import base list strings gmap relations.
From S2P Require Import Prelude Errors Wire TournamentTypes CoreEnums FormatPlan Entities.
From S2P Require Import BracketModel Rows TournamentModel Store TournamentStore StoreFacts Samples.
From S2P Require Import Actor RegistrationFacts Registrations Tournaments.
#[local] Open Scope Z_scope.

Section props.
Context `{Platform}.

(** ** Reading all pages *)

Lemma registrations_of_size tid f db :
  (length (TournamentRegistrationRepository.registrations_of tid f db) ≤ size (Db.registrations db))%nat.
Proof.
  unfold TournamentRegistrationRepository.registrations_of, rows_where.
  etransitivity; [apply length_filter|]. by rewrite length_fmap, length_map_to_list.
Qed.

Lemma list_pages_drop tid f db fuel : ∀ all off,
  (length (TournamentRegistrationRepository.listed tid f db) < off + 500 * fuel)%nat →
  TournamentRegistrationRepository.list_pages fuel tid f all (Z.of_nat off) db =
  (Ok (all ++ drop off (TournamentRegistrationRepository.listed tid f db)), db).
Proof.
  unfold TournamentRegistrationRepository.list_pages.
  induction fuel as [|fuel IH]; intros all off Hlen.
  - by rewrite drop_ge, app_nil_r by lia.
  - unfold TournamentRegistrationRepository.list_by_tournament, mbind, mread; cbv beta iota zeta.
    set (rows := TournamentRegistrationRepository.listed tid f db) in *.
    rewrite Nat2Z.id. change (Z.to_nat TournamentRegistrationRepository.PAGE) with 500%nat.
    case_bool_decide as Hshort; unfold TournamentRegistrationRepository.PAGE in Hshort.
    + rewrite length_take, length_drop in Hshort. rewrite take_ge by (rewrite length_drop; lia). done.
    + rewrite length_take, length_drop in Hshort.
      replace (Z.of_nat off + TournamentRegistrationRepository.PAGE) with (Z.of_nat (off + 500))
        by (unfold TournamentRegistrationRepository.PAGE; lia).
      rewrite IH by lia. rewrite <- app_assoc, <- (drop_drop rows 500 off). by rewrite take_drop.
Qed.

Lemma list_all_run tid f db :
  TournamentRegistrationRepository.list_all_by_tournament tid f db =
  (Ok (TournamentRegistrationRepository.listed tid f db), db).
Proof.
  unfold TournamentRegistrationRepository.list_all_by_tournament.
  rewrite (list_pages_drop tid f db _ [] 0); [done|].
  unfold TournamentRegistrationRepository.listed. rewrite stable_sort_length.
  pose proof (registrations_of_size tid f db). lia.
Qed.

Lemma elem_of_listed tid f db r :
  r ∈ TournamentRegistrationRepository.listed tid f db ↔
  (∃ k, Db.registrations db !! k = Some r) ∧ TournamentRegistration.tournament_id r = tid ∧
  (∀ s, f = Some s → TournamentRegistration.status r = s).
Proof.
  unfold TournamentRegistrationRepository.listed. rewrite stable_sort_perm.
  unfold TournamentRegistrationRepository.registrations_of. rewrite elem_of_rows_where, andb_true_iff, bool_decide_eq_true.
  destruct f as [s|]; [rewrite bool_decide_eq_true|]; naive_solver.
Qed.

(** ** What the other statements do to the table of registrations *)

(** Nothing: no registration changes, nor the maximum of a tournament. *)
Definition leaves_registrations (db db' : Db.t) : Prop :=
  Db.registrations db' = Db.registrations db ∧ (Db.next_uuid db ≤ Db.next_uuid db')%N ∧
  ∀ id t', Db.tournaments db' !! id = Some t' → ∃ t, Db.tournaments db !! id = Some t ∧
    Tournament.id t = Tournament.id t' ∧ Tournament.max_participants t = Tournament.max_participants t'.

Lemma leaves_keeps db db' : leaves_registrations db db' → keeps_registrations db db'.
Proof.
  intros (Hr & Hn & Ht) [Hk Hf Ho Hu Hc Htk]. split; rewrite ?Hr; [done| |done|done| |].
  - intros k Hle. apply Hf. lia.
  - intros id t' Ht'. destruct (Ht id t' Ht') as (t & Hl & _ & <-). rewrite slots_taken_eq, Hr. by apply Hc.
  - intros id t' Ht'. destruct (Ht id t' Ht') as (t & Hl & <- & _). by apply Htk.
Qed.

Lemma frozen_keeps {A} (c : M A) : preserves leaves_registrations c → preserves keeps_registrations c.
Proof. intros Hc db. by apply leaves_keeps. Qed.

Lemma try_update_keeps id where_ set :
  (∀ now t, Tournament.id (set now t) = Tournament.id t ∧
            Tournament.max_participants (set now t) = Tournament.max_participants t) →
  preserves keeps_registrations (TournamentRepository.try_update id where_ set).
Proof.
  intros Hset. apply frozen_keeps. intros db. unfold TournamentRepository.try_update.
  assert (leaves_registrations db db) as Hrefl by (split_and!; [done|lia|naive_solver]).
  destruct (Db.tournaments db !! id) as [t|] eqn:Ht; [|done]. destruct (where_ t); [|done].
  cbv zeta. destruct (TournamentRepository.violated _ _); [done|].
  split_and!; cbn; [done|lia|]. intros i t'. rewrite lookup_insert_Some.
  intros [[<- <-]|[_ Ht']]; [|naive_solver]. exists t. by destruct (Hset (Db.now db) t).
Qed.

Lemma mark_accepted_keeps id : preserves keeps_registrations (TournamentInvitationRepository.mark_accepted id).
Proof.
  apply frozen_keeps. intros db. unfold TournamentInvitationRepository.mark_accepted,
    TournamentInvitationRepository.update_row.
  destruct (Db.invitations db !! id); [|split_and!; [done|cbn; lia|naive_solver]].
  cbv zeta. case_match; (split_and!; [done|cbn; lia|naive_solver]).
Qed.

Lemma create_invitation_keeps cmd : preserves keeps_registrations (TournamentInvitationRepository.create cmd).
Proof.
  apply frozen_keeps. intros db. unfold TournamentInvitationRepository.create. cbv zeta.
  case_match; [split_and!; [done|cbn; lia|naive_solver]|].
  case_match; (split_and!; [done|cbn; lia|naive_solver]).
Qed.

Lemma list_all_keeps tid f :
  preserves keeps_registrations (TournamentRegistrationRepository.list_all_by_tournament tid f).
Proof. intros db. by rewrite list_all_run. Qed.

#[local] Hint Resolve update_keeps withdraw_keeps check_in_keeps clear_seeds_keeps create_with_capacity_check_keeps
  update_status_with_capacity_check_keeps mark_accepted_keeps create_invitation_keeps list_all_keeps : frames.

(** ** The calls on registrations *)

Inductive registration_call :=
  | RegisterTeam (tournament_id : TournamentId) (team_season_id : LeagueTeamSeasonId)
      (participant_name : string) (participant_logo_url : option string) (registered_by : UserId)
  | RegisterPlayer (tournament_id : TournamentId) (player_id : PlayerId) (participant_name : string)
      (registered_by : UserId)
  | Withdraw (registration_id : TournamentRegistrationId) (withdrawn_by : UserId)
  | ApproveRegistration (registration_id : TournamentRegistrationId)
  | RejectRegistration (registration_id : TournamentRegistrationId) (reason : option string)
  | Disqualify (registration_id : TournamentRegistrationId) (reason : string)
  | CheckIn (registration_id : TournamentRegistrationId) (checked_in_by : UserId)
  | TournamentCheckIn (registration_id : TournamentRegistrationId) (checked_in_by : UserId)
  | AdminCheckIn (registration_id : TournamentRegistrationId) (admin_user_id : UserId)
  | ProcessNoShows (tournament_id : TournamentId)
  | AutoSeed (shuffle : nat → list nat) (tournament_id : TournamentId) (algorithm : SeedingAlgorithm.t)
  | ManualSeed (tournament_id : TournamentId) (seeds : list (TournamentRegistrationId * Z))
  | ClearSeeding (tournament_id : TournamentId)
  | InviteToTournament (tournament_id : TournamentId) (user_id : option UserId)
      (team_season_id : option LeagueTeamSeasonId) (message : option string) (invited_by : UserId)
  | PublishTournament (tournament_id : TournamentId)
  | ChangeStatus (target : TournamentStatus.t) (tournament_id : TournamentId).

(** The state after the call, whatever it answers. *)
Definition after_call (c : registration_call) (db : Db.t) : Db.t :=
  match c with
  | RegisterTeam t s n l u => (TournamentService.register_team t s n l u db).2
  | RegisterPlayer t p n u => (TournamentService.register_player t p n u db).2
  | Withdraw r u => (RegistrationService.withdraw r u db).2
  | ApproveRegistration r => (RegistrationService.approve_registration r db).2
  | RejectRegistration r reason => (RegistrationService.reject_registration r reason db).2
  | Disqualify r reason => (RegistrationService.disqualify r reason db).2
  | CheckIn r u => (CheckInService.check_in r u db).2
  | TournamentCheckIn r u => (TournamentService.check_in r u db).2
  | AdminCheckIn r u => (CheckInService.admin_check_in r u db).2
  | ProcessNoShows t => (CheckInService.process_no_shows t db).2
  | AutoSeed shuffle t a => (SeedingService.auto_seed shuffle t a db).2
  | ManualSeed t seeds => (SeedingService.manual_seed t seeds db).2
  | ClearSeeding t => (SeedingService.clear_seeding t db).2
  | InviteToTournament t u s m by_ => (TournamentService.invite_to_tournament t u s m by_ db).2
  | PublishTournament t => (TournamentService.publish_tournament t db).2
  | ChangeStatus target t => (TournamentService.change_status target t db).2
  end.

Lemma find_tournament_keeps id : preserves keeps_registrations (find_tournament id).
Proof. unfold find_tournament, TournamentRepository.find_by_id. frame. Qed.

Lemma get_registration_keeps id : preserves keeps_registrations (RegistrationService.get_registration id).
Proof. unfold RegistrationService.get_registration, TournamentRegistrationRepository.find_by_id, find_registration_by_id. frame. Qed.

#[local] Hint Resolve find_tournament_keeps get_registration_keeps : frames.

Lemma require_invitation_keeps t (find : M (option TournamentInvitation.t)) :
  preserves keeps_registrations find → preserves keeps_registrations (TournamentService.require_invitation t find).
Proof. intros Hf. unfold TournamentService.require_invitation. frame. Qed.

Lemma consume_invitation_keeps i : preserves keeps_registrations (TournamentService.consume_invitation i).
Proof. unfold TournamentService.consume_invitation. frame. Qed.

#[local] Hint Resolve require_invitation_keeps consume_invitation_keeps : frames.

Lemma register_team_keeps t s n l u : preserves keeps_registrations (TournamentService.register_team t s n l u).
Proof.
  unfold TournamentService.register_team, TournamentService.get_tournament,
    TournamentService.require_team_invitation, TournamentInvitationRepository.find_for_team_season,
    TournamentRegistrationRepository.find_by_team_season. frame.
Qed.

Lemma register_player_keeps t p n u : preserves keeps_registrations (TournamentService.register_player t p n u).
Proof.
  unfold TournamentService.register_player, TournamentService.get_tournament,
    TournamentService.require_user_invitation, TournamentInvitationRepository.find_for_user,
    TournamentRegistrationRepository.find_by_player. frame.
Qed.

(** A status that gives the place back. *)
Lemma leave_keeps id st :
  st = TournamentRegistrationStatus.Withdrawn ∨ st = TournamentRegistrationStatus.Disqualified →
  preserves keeps_registrations (TournamentRegistrationRepository.update_status id st).
Proof. intros Hst db Hok. apply update_status_ok; naive_solver. Qed.

Lemma registration_service_keeps c db :
  match c with
  | Withdraw _ _ | ApproveRegistration _ | RejectRegistration _ _ | Disqualify _ _ | CheckIn _ _
  | TournamentCheckIn _ _ => keeps_registrations db (after_call c db)
  | _ => True
  end.
Proof.
  destruct c; try exact I; cbn [after_call]; revert db.
  - unfold RegistrationService.withdraw, in_status. frame.
  - unfold RegistrationService.approve_registration, in_status. frame.
  - unfold RegistrationService.reject_registration, in_status. frame; apply leave_keeps; by left.
  - unfold RegistrationService.disqualify, in_status. frame; apply leave_keeps; by right.
  - unfold CheckInService.check_in, CheckInService.already, in_status. frame.
  - unfold TournamentService.check_in, TournamentService.get_tournament, CheckInService.already, in_status. frame.
Qed.

(** A first step that keeps the order in this state, then one that always does. *)
Lemma bind_keeps_at {A B} (c : M A) (k : A → M B) db :
  keeps_registrations db (c db).2 → (∀ a, preserves keeps_registrations (k a)) →
  keeps_registrations db (mbind c k db).2.
Proof.
  intros Hc Hk. unfold mbind. destruct (c db) as [[a|e] db1]; [|exact Hc]. etransitivity; [exact Hc|apply Hk].
Qed.

Lemma admin_check_in_keeps id by_ : preserves keeps_registrations (CheckInService.admin_check_in id by_).
Proof.
  intros db. unfold CheckInService.admin_check_in, RegistrationService.get_registration,
    TournamentRegistrationRepository.find_by_id, find_registration_by_id.
  destruct (Db.registrations db !! id) as [r|] eqn:Hr;
    [|unfold mbind, mread; cbv beta iota; rewrite Hr; reflexivity].
  erewrite mbind_step; [|unfold mbind, mread; cbv beta iota; by rewrite Hr].
  destruct (TournamentRegistration.checked_in r); [reflexivity|].
  destruct (negb _ && negb _); [reflexivity|]. apply bind_keeps_at; [|by eauto with frames].
  case_bool_decide as Hp; [|reflexivity]. apply bind_keeps_at; [|intros ?; apply preserves_ret, _].
  intros Hok. apply update_status_ok; [done|]. intros r' Hr'. left. simplify_eq.
  unfold TournamentRepository.holds_slot. by rewrite Hp.
Qed.

(** Rows in the table that have a place. *)
Definition placed (db : Db.t) (r : TournamentRegistration.t) : Prop :=
  ∃ s, Db.registrations db !! TournamentRegistration.id r = Some s ∧ TournamentRepository.holds_slot s = true.

Lemma mark_no_shows_keeps rs db :
  Forall (placed db) rs → keeps_registrations db (CheckInService.mark_no_shows rs db).2.
Proof.
  revert db. induction rs as [|r rs IH]; intros db Hrs; [reflexivity|]. cbn [CheckInService.mark_no_shows].
  apply Forall_cons in Hrs as [(s & Hs & Hslot) Hrs].
  destruct (TournamentRegistration.checked_in r); [by apply IH|].
  unfold mbind at 1, TournamentRegistrationRepository.update_status, TournamentRegistrationRepository.update_row.
  rewrite Hs. cbv beta iota zeta. set (db1 := db <| Db.registrations := _ |>). intros Hok.
  assert (registrations_ok db1) as Hok1.
  { apply (replaced_ok db (TournamentRegistration.id r) s); [done|done|]. split; [done|]. split; [done|]. by intros _. }
  assert (Forall (placed db1) rs) as Hrs1.
  { eapply Forall_impl; [exact Hrs|]. intros r' (s' & Hs' & Hslot'). unfold placed, db1. cbn.
    destruct (decide (TournamentRegistration.id r' = TournamentRegistration.id r)) as [->|Hne].
    - rewrite lookup_insert_eq. by eexists.
    - rewrite lookup_insert_ne by done. by exists s'. }
  specialize (IH db1 Hrs1 Hok1). unfold mbind.
  by destruct (CheckInService.mark_no_shows rs db1) as [[l|e] db2].
Qed.

Lemma process_no_shows_keeps tid : preserves keeps_registrations (CheckInService.process_no_shows tid).
Proof.
  intros db. unfold CheckInService.process_no_shows, find_tournament, TournamentRepository.find_by_id.
  destruct (Db.tournaments db !! tid) as [t|] eqn:Ht;
    [|unfold mbind, mread; cbv beta iota; rewrite Ht; reflexivity].
  erewrite mbind_step; [|unfold mbind, mread; cbv beta iota; by rewrite Ht].
  case_match; [reflexivity|]. erewrite mbind_step; [|apply list_all_run]. intros Hok.
  apply mark_no_shows_keeps; [|done]. apply Forall_forall. intros r [[k Hk] [_ Hst]]%elem_of_listed.
  exists r. rewrite (regs_keyed db Hok k r Hk). split; [done|].
  unfold TournamentRepository.holds_slot. by rewrite (Hst _ eq_refl).
Qed.

(** ** Seeding *)

Lemma persist_seeds_keeps ps : preserves keeps_registrations (SeedingService.persist_seeds ps).
Proof. unfold SeedingService.persist_seeds. frame. Qed.

Lemma seed_each_keeps tid seeds : preserves keeps_registrations (SeedingService.seed_each tid seeds).
Proof. induction seeds as [|[id n] seeds IH]; cbn [SeedingService.seed_each]; frame. Qed.

#[local] Hint Resolve admin_check_in_keeps process_no_shows_keeps persist_seeds_keeps seed_each_keeps
  register_team_keeps register_player_keeps : frames.

Lemma seeding_keeps c db :
  match c with
  | AutoSeed _ _ _ | ManualSeed _ _ | ClearSeeding _ => keeps_registrations db (after_call c db)
  | _ => True
  end.
Proof.
  destruct c; try exact I; cbn [after_call]; revert db.
  - unfold SeedingService.auto_seed, SeedingService.get_eligible_participants. frame.
  - unfold SeedingService.manual_seed. frame.
  - unfold SeedingService.clear_seeding. frame.
Qed.

Lemma change_status_keeps target id : preserves keeps_registrations (TournamentService.change_status target id).
Proof.
  unfold TournamentService.change_status, TournamentService.get_tournament, TournamentRepository.update_status,
    TournamentRepository.update_row. frame; by apply try_update_keeps.
Qed.

Lemma publish_tournament_keeps id : preserves keeps_registrations (TournamentService.publish_tournament id).
Proof.
  unfold TournamentService.publish_tournament, TournamentService.get_tournament, TournamentRepository.mark_published,
    TournamentRepository.update_row. frame; by apply try_update_keeps.
Qed.

Lemma invite_keeps t u s m by_ : preserves keeps_registrations (TournamentService.invite_to_tournament t u s m by_).
Proof.
  unfold TournamentService.invite_to_tournament, TournamentService.get_tournament, TournamentService.invalid_field.
  frame.
Qed.

Lemma after_call_keeps c db : keeps_registrations db (after_call c db).
Proof.
  pose proof (registration_service_keeps c db). pose proof (seeding_keeps c db).
  destruct c; try done; cbn [after_call].
  - apply register_team_keeps.
  - apply register_player_keeps.
  - apply admin_check_in_keeps.
  - apply process_no_shows_keeps.
  - apply invite_keeps.
  - apply publish_tournament_keeps.
  - apply change_status_keeps.
Qed.

(** One call, or time passes. *)
Inductive registration_step (db : Db.t) : Db.t → Prop :=
  | step_call c : registration_step db (after_call c db)
  | step_clock now : registration_step db (db <| Db.now := now |>).


(** The loop over pages reads every registration of the tournament with the
    asked status exactly once, in the order of the listing, and stops. *)
Theorem list_all_by_tournament_complete tid f db :
  ∃ rows, TournamentRegistrationRepository.list_all_by_tournament tid f db = (Ok rows, db) ∧
    rows ≡ₚ rows_where (λ r, bool_decide (TournamentRegistration.tournament_id r = tid)
              && from_option (λ s, bool_decide (TournamentRegistration.status r = s)) true f) (Db.registrations db) ∧
    ∀ limit offset, TournamentRegistrationRepository.list_by_tournament tid f limit offset db =
      (Ok (take (Z.to_nat limit) (drop (Z.to_nat offset) rows), Z.of_nat (length rows)), db).
Proof.
  exists (TournamentRegistrationRepository.listed tid f db). split; [apply list_all_run|]. split; [|done].
  unfold TournamentRegistrationRepository.listed. rewrite stable_sort_perm. by destruct f.
Qed.
End props.

(** ** A cup of four with one player in it *)

#[local] Existing Instance sample_platform.

Definition empty_cup : Db.t := tournament_db (sample_tournament TournamentFormat.SingleElimination) [].
Definition cup_of_one : Db.t := after_call (RegisterPlayer 7 1 "ada" 1) empty_cup.

Lemma cup_tournament id t :
  Db.tournaments empty_cup !! id = Some t → id = 7%N ∧ t = sample_tournament TournamentFormat.SingleElimination.
Proof.
  change (({[7%N := sample_tournament TournamentFormat.SingleElimination]} : gmap N Tournament.t) !! id = Some t →
    id = 7%N ∧ t = sample_tournament TournamentFormat.SingleElimination).
  by intros [<- <-]%lookup_singleton_Some.
Qed.

Lemma empty_cup_ok : registrations_ok empty_cup.
Proof.
  assert (TournamentRepository.slots_taken 7 empty_cup = 0) as Hnone by reflexivity.
  split; [done|done|done|done| |].
  - intros id t [-> ->]%cup_tournament. by rewrite Hnone.
  - by intros id t [-> ->]%cup_tournament.
Qed.

Lemma cup_of_one_ok : registrations_ok cup_of_one.
Proof. apply after_call_keeps, empty_cup_ok. Qed.

(** Two players enter, the first withdraws. *)
Definition cup_withdrawn : Db.t :=
  after_call (Withdraw 1000 1) (after_call (RegisterPlayer 7 2 "bob" 2) cup_of_one).


(** A team's season, or a player. *)
Inductive entrant := Team (team_season_id : LeagueTeamSeasonId) | Player (player_id : PlayerId).

Section props.
Context `{Platform}.

Definition entered_as (who : entrant) (r : TournamentRegistration.t) : bool :=
  match who with
  | Team s => bool_decide (TournamentRegistration.team_season_id r = Some s)
  | Player p => bool_decide (TournamentRegistration.player_id r = Some p)
  end.

(** A registration of the entrant in the tournament. *)
Definition entry_of (tid : TournamentId) (who : entrant) (r : TournamentRegistration.t) : bool :=
  bool_decide (TournamentRegistration.tournament_id r = tid) && entered_as who r.

(** The two calls, and what each looks up. *)
Definition register (tid : TournamentId) (who : entrant) (name : string) (logo : option string)
    (by_ : UserId) : M TournamentRegistration.t :=
  match who with
  | Team s => TournamentService.register_team tid s name logo by_
  | Player p => TournamentService.register_player tid p name by_
  end.

Definition find_entry (tid : TournamentId) (who : entrant) : M (option TournamentRegistration.t) :=
  match who with
  | Team s => TournamentRegistrationRepository.find_by_team_season tid s
  | Player p => TournamentRegistrationRepository.find_by_player tid p
  end.

Definition command (t : Tournament.t) (tid : TournamentId) (who : entrant) (name : string)
    (logo : option string) (by_ : UserId) : CreateTournamentRegistration.t := {|
  CreateTournamentRegistration.tournament_id := tid;
  CreateTournamentRegistration.team_season_id := match who with Team s => Some s | Player _ => None end;
  CreateTournamentRegistration.player_id := match who with Team _ => None | Player p => Some p end;
  CreateTournamentRegistration.adhoc_team_id := None;
  CreateTournamentRegistration.participant_name := name;
  CreateTournamentRegistration.participant_logo_url := match who with Team _ => logo | Player _ => None end;
  CreateTournamentRegistration.registered_by := by_;
  CreateTournamentRegistration.seed_rating := None;
  CreateTournamentRegistration.status := initial_registration_status (Tournament.registration_type t) |}.

(** ** The rules *)

(** The invitation the call looks for: a team's, or the acting user's. *)
Definition addressed (who : entrant) (by_ : UserId) (i : TournamentInvitation.t) : bool :=
  match who with
  | Team s => bool_decide (TournamentInvitation.team_season_id i = Some s)
  | Player _ => bool_decide (TournamentInvitation.user_id i = Some by_)
  end.

Definition invited (db : Db.t) (tid : TournamentId) (who : entrant) (by_ : UserId) : Prop :=
  ∃ k i, Db.invitations db !! k = Some i ∧ TournamentInvitation.tournament_id i = tid ∧
    addressed who by_ i = true ∧ TournamentInvitation.status i ≠ TournamentInvitationStatus.Revoked.

Definition welcome (db : Db.t) (t : Tournament.t) (tid : TournamentId) (who : entrant) (by_ : UserId) : Prop :=
  RegistrationType.requires_invitation (Tournament.registration_type t) = true → invited db tid who by_.

(** A registration of the entrant that is not over. *)
Definition entered (db : Db.t) (tid : TournamentId) (who : entrant) : Prop :=
  ∃ k r, Db.registrations db !! k = Some r ∧ entry_of tid who r = true ∧
    TournamentRegistrationStatus.is_terminal (TournamentRegistration.status r) = false.

(** The registrations of everybody else. *)
Definition others (db : Db.t) (tid : TournamentId) (who : entrant) : gmap N TournamentRegistration.t :=
  filter (λ kr, entry_of tid who kr.2 = false) (Db.registrations db).

Definition room (db : Db.t) (t : Tournament.t) (tid : TournamentId) (who : entrant) : Prop :=
  Z.of_nat (length (rows_where (takes_slot tid) (others db tid who))) < Tournament.max_participants t.

#[global] Instance room_dec db t tid who : Decision (room db t tid who).
Proof. unfold room. apply _. Defined.

Definition is_open (db : Db.t) (t : Tournament.t) : Prop := Tournament.is_registration_open (Db.now db) t = true.

(** The refusals, each with the rules before it met. *)
Inductive refused (db : Db.t) (tid : TournamentId) (who : entrant) (by_ : UserId) : DomainError.t → Prop :=
  | refused_unknown :
      Db.tournaments db !! tid = None → refused db tid who by_ (DomainError.TournamentNotFound tid)
  | refused_closed t :
      Db.tournaments db !! tid = Some t → ¬ is_open db t → refused db tid who by_ DomainError.TournamentNotOpen
  | refused_uninvited t :
      Db.tournaments db !! tid = Some t → is_open db t → ¬ welcome db t tid who by_ →
      refused db tid who by_ DomainError.TournamentInviteOnly
  | refused_entered t :
      Db.tournaments db !! tid = Some t → is_open db t → welcome db t tid who by_ → entered db tid who →
      refused db tid who by_ DomainError.AlreadyRegisteredForTournament
  | refused_full t :
      Db.tournaments db !! tid = Some t → is_open db t → welcome db t tid who by_ → ¬ entered db tid who →
      ¬ room db t tid who → refused db tid who by_ DomainError.TournamentFull.

(** Every rule met. *)
Definition admitted (db : Db.t) (t : Tournament.t) (tid : TournamentId) (who : entrant) (by_ : UserId) : Prop :=
  is_open db t ∧ welcome db t tid who by_ ∧ ¬ entered db tid who ∧ room db t tid who.

(** ** The look-ups *)

Definition invitation_lookup (t : Tournament.t) (who : entrant) (by_ : UserId)
    : M (option TournamentInvitation.t) :=
  match who with
  | Team s => TournamentService.require_team_invitation t s
  | Player _ => TournamentService.require_user_invitation t by_
  end.

Lemma invitation_lookup_run t who by_ db :
  ∃ i, invitation_lookup t who by_ db =
    (if decide (RegistrationType.requires_invitation (Tournament.registration_type t) = true ∧ i = None)
     then throw DomainError.TournamentInviteOnly else Ok i, db) ∧
    (welcome db t (Tournament.id t) who by_ ↔
     ¬ (RegistrationType.requires_invitation (Tournament.registration_type t) = true ∧ i = None)).
Proof.
  assert (invitation_lookup t who by_ = TournamentService.require_invitation t
    (mread (λ db, head (TournamentInvitationRepository.live_of (Tournament.id t) (addressed who by_) db)))) as ->
    by by destruct who.
  unfold TournamentService.require_invitation, welcome.
  destruct (RegistrationType.requires_invitation _); cbn [negb];
    [|exists None; split; [by rewrite decide_False by naive_solver|naive_solver]].
  assert (invited db (Tournament.id t) who by_ ↔
    TournamentInvitationRepository.live_of (Tournament.id t) (addressed who by_) db ≠ []) as Hinv.
  { unfold TournamentInvitationRepository.live_of. split.
    - intros (k & i & Hi & Ht & Ha & Hs) Hnil. apply (not_elem_of_nil i). rewrite <- Hnil.
      apply elem_of_rows_where. split; [|by eexists]. rewrite Ha, bool_decide_true by done.
      unfold TournamentInvitationRepository.is_live. by rewrite bool_decide_false.
    - intros Hne. destruct (TournamentInvitationRepository.live_of (Tournament.id t) (addressed who by_) db)
        as [|i l] eqn:Hl; [done|].
      assert (i ∈ TournamentInvitationRepository.live_of (Tournament.id t) (addressed who by_) db) as Hin
        by (rewrite Hl; apply list_elem_of_here).
      apply elem_of_rows_where in Hin as [Hi [k Hk]]. rewrite !andb_true_iff in Hi.
      destruct Hi as [[Ht%bool_decide_eq_true Ha] Hs]. exists k, i. split_and!; [done..|].
      unfold TournamentInvitationRepository.is_live in Hs. by case_bool_decide. }
  unfold mbind, mread; cbv beta iota.
  destruct (TournamentInvitationRepository.live_of (Tournament.id t) (addressed who by_) db) as [|i l] eqn:Hl.
  - exists None. split; [by rewrite decide_True|]. naive_solver.
  - exists (Some i). split; [|naive_solver]. rewrite decide_False by naive_solver. cbn [head].
    assert (i ∈ TournamentInvitationRepository.live_of (Tournament.id t) (addressed who by_) db) as Hin
      by (rewrite Hl; apply list_elem_of_here).
    apply elem_of_rows_where in Hin as [Hi _]. rewrite !andb_true_iff in Hi. destruct Hi as [_ Hs].
    unfold TournamentService.permitting, TournamentInvitation.permits_registration.
    unfold TournamentInvitationRepository.is_live in Hs. cbn.
    destruct (TournamentInvitation.status i); cbn; [done..|]. by case_bool_decide.
Qed.

Lemma same_entrant_clash tid who r s :
  entry_of tid who r = true → entry_of tid who s = true → TournamentRegistrationRepository.clashes r s ≠ None.
Proof.
  unfold entry_of, TournamentRegistrationRepository.clashes. rewrite !andb_true_iff, !bool_decide_eq_true.
  intros [-> Hr] [-> Hs]. rewrite bool_decide_true by done. cbn [negb].
  destruct who; cbn in Hr, Hs; apply bool_decide_eq_true in Hr as ->; apply bool_decide_eq_true in Hs as ->;
    cbn; rewrite bool_decide_true by done; by repeat case_match.
Qed.

(** The look-up finds the entrant's only row; everyone else's are the others. *)
Lemma find_entry_run tid who db :
  registrations_ok db →
  ∃ o, find_entry tid who db = (Ok o, db) ∧
    (∀ k r, Db.registrations db !! k = Some r → entry_of tid who r = true → o = Some r) ∧
    (∀ r, o = Some r → Db.registrations db !! TournamentRegistration.id r = Some r ∧ entry_of tid who r = true) ∧
    others db tid who = match o with
                        | Some r => delete (TournamentRegistration.id r) (Db.registrations db)
                        | None => Db.registrations db
                        end.
Proof.
  intros Hok. set (rows := filter (λ r, entered_as who r = true)
    (TournamentRegistrationRepository.registrations_of tid None db)).
  assert (find_entry tid who db = (Ok (head rows), db)) as Hrun.
  { unfold rows. destruct who as [s|p]; cbn [find_entry entered_as];
      unfold TournamentRegistrationRepository.find_by_team_season, TournamentRegistrationRepository.find_by_player,
        mread; do 3 f_equal; apply list_filter_iff; intros r; by rewrite bool_decide_eq_true. }
  assert (∀ r, r ∈ rows ↔ (∃ k, Db.registrations db !! k = Some r) ∧ entry_of tid who r = true) as Hrows.
  { intros r. unfold rows, TournamentRegistrationRepository.registrations_of, entry_of.
    rewrite list_elem_of_filter, elem_of_rows_where, !andb_true_iff. naive_solver. }
  assert (∀ k r k' r', Db.registrations db !! k = Some r → entry_of tid who r = true →
    Db.registrations db !! k' = Some r' → entry_of tid who r' = true → k = k') as Huniq.
  { intros k r k' r' Hk Hr Hk' Hr'. destruct (decide (k = k')) as [|Hne]; [done|].
    destruct (same_entrant_clash tid who r r' Hr Hr'). by apply (regs_unique db Hok k k'). }
  exists (head rows). split; [exact Hrun|].
  assert (∀ r, head rows = Some r →
    Db.registrations db !! TournamentRegistration.id r = Some r ∧ entry_of tid who r = true) as Hhead.
  { intros r Hh%head_Some_elem_of. apply Hrows in Hh as [[k Hk] Hr]. split; [|done].
    by rewrite (regs_keyed db Hok k r Hk). }
  assert (∀ k r, Db.registrations db !! k = Some r → entry_of tid who r = true → head rows = Some r) as Honly.
  { intros k r Hk Hr. destruct (head rows) as [r'|] eqn:Hh.
    - destruct (Hhead r' eq_refl) as [Hk' Hr']. rewrite (Huniq k r _ r' Hk Hr Hk' Hr') in Hk. congruence.
    - apply head_None in Hh. assert (r ∈ rows) as Hin by (apply Hrows; naive_solver).
      rewrite Hh in Hin. by apply not_elem_of_nil in Hin. }
  split_and!; [exact Honly|exact Hhead|]. apply map_eq. intros k. unfold others.
  destruct (Db.registrations db !! k) as [r|] eqn:Hk.
  - destruct (entry_of tid who r) eqn:Hr.
    + rewrite (map_lookup_filter_None_2 _ _ k)
        by (right; intros x Hx; rewrite Hk in Hx; injection Hx as <-; cbn; by rewrite Hr).
      rewrite (Honly k r Hk Hr), (regs_keyed db Hok k r Hk). by rewrite lookup_delete_eq.
    + rewrite (map_lookup_filter_Some_2 _ _ k r) by done.
      destruct (head rows) as [r'|] eqn:Hh; [|done]. destruct (Hhead r' eq_refl) as [Hk' Hr'].
      rewrite lookup_delete_ne; [done|]. intros <-. congruence.
  - rewrite (map_lookup_filter_None_2 _ _ k) by by left.
    destruct (head rows); [|done]. symmetry. rewrite lookup_delete_None. by right.
Qed.

(** ** The transaction *)

Lemma no_violation tid who t name logo by_ db :
  (∀ k s, Db.registrations db !! k = Some s → entry_of tid who s = false) →
  TournamentRegistrationRepository.violated db (TournamentRegistrationRepository.inserted (Db.next_uuid db)
    (Db.now db) (command t tid who name logo by_)) = None.
Proof.
  intros Hfree. unfold TournamentRegistrationRepository.violated.
  replace (TournamentRegistrationRepository.one_participant _) with true by by destruct who.
  cbn [negb]. apply head_None. destruct (omap _ _) as [|n l] eqn:Hl; [done|]. exfalso.
  assert (n ∈ n :: l) as Hin by apply list_elem_of_here. rewrite <- Hl in Hin.
  apply list_elem_of_omap in Hin as (s & Hs & Hc). apply list_elem_of_fmap in Hs as ([k s'] & -> & Hk).
  apply elem_of_map_to_list in Hk. cbn in Hc. specialize (Hfree k s' Hk). unfold entry_of in Hfree.
  unfold TournamentRegistrationRepository.clashes in Hc. cbn in Hc.
  rewrite (bool_decide_ext (tid = _) (TournamentRegistration.tournament_id s' = tid)) in Hc by naive_solver.
  destruct (bool_decide _); [|done]. cbn in Hc, Hfree. unfold TournamentRegistrationRepository.same_key in Hc.
  destruct who as [x|x]; cbn in Hc, Hfree; apply bool_decide_eq_false in Hfree;
    repeat case_match; simplify_eq; repeat case_bool_decide; naive_solver.
Qed.

(** What the call writes. *)
Definition new_entry (t : Tournament.t) (tid : TournamentId) (who : entrant) (name : string)
    (logo : option string) (by_ : UserId) (db : Db.t) : TournamentRegistration.t :=
  TournamentRegistrationRepository.inserted (Db.next_uuid db) (Db.now db) (command t tid who name logo by_).

Definition registered (r : TournamentRegistration.t) (rs : gmap N TournamentRegistration.t) (db : Db.t) : Db.t :=
  with_registrations (<[TournamentRegistration.id r := r]> rs)
    (db <| Db.next_uuid := N.succ (Db.next_uuid db) |>).

Lemma create_run t tid who name logo by_ old db :
  Db.tournaments db !! tid = Some t →
  (∀ k s, others db tid who !! k = Some s → entry_of tid who s = false) →
  others db tid who = match old with
                      | Some id => delete id (Db.registrations db)
                      | None => Db.registrations db
                      end →
  TournamentRegistrationRepository.create_with_capacity_check (command t tid who name logo by_) old db =
  if decide (room db t tid who)
  then (Ok (new_entry t tid who name logo by_ db),
        registered (new_entry t tid who name logo by_ db) (others db tid who) db)
  else (throw DomainError.TournamentFull, db).
Proof.
  intros Ht Hfree Ho. unfold TournamentRegistrationRepository.create_with_capacity_check, transaction,
    TournamentRegistrationRepository.max_participants. unfold mbind at 1, mread at 1.
  change (CreateTournamentRegistration.tournament_id (command t tid who name logo by_)) with tid. rewrite Ht.
  cbn [fmap option_fmap option_map ok_or]. unfold mbind at 1, mlift at 1.
  set (db1 := with_registrations (others db tid who) db).
  assert (∀ k : M TournamentRegistration.t,
    mbind match old with Some old_id => TournamentRegistrationRepository.delete old_id | None => mret tt end
      (λ _, k) db = k db1) as Hstep.
  { intros k. unfold db1. rewrite Ho. destruct old; [done|]. unfold mbind, mret. f_equal. by destruct db. }
  rewrite Hstep. unfold mbind, TournamentRepository.count_registrations, mread.
  rewrite slots_taken_eq. change (Db.registrations db1) with (others db tid who).
  unfold room. destruct (decide _) as [Hr|Hr].
  - rewrite bool_decide_false by lia. unfold TournamentRegistrationRepository.insert.
    rewrite (no_violation tid who t name logo by_ db1) by exact Hfree. done.
  - rewrite bool_decide_true by lia. done.
Qed.

(** ** The calls *)

Lemma mbind_mbind {A B C} (c : M A) (k : A → M B) (k' : B → M C) db :
  mbind (mbind c k) k' db = mbind c (λ a, mbind (k a) k') db.
Proof. unfold mbind. by destruct (c db) as [[a|e] db1]. Qed.

Lemma consume_run i db :
  ∃ db', TournamentService.consume_invitation i db = (Ok tt, db') ∧
    Db.registrations db' = Db.registrations db ∧ Db.tournaments db' = Db.tournaments db.
Proof.
  destruct i as [i|]; [|by exists db]. unfold TournamentService.consume_invitation, mbind, mtry,
    TournamentInvitationRepository.mark_accepted, TournamentInvitationRepository.update_row.
  destruct (Db.invitations db !! _); [|by eexists]. cbv zeta.
  match goal with |- context [if ?b then _ else _] => destruct b end; cbn; eexists; (split; [reflexivity|done]).
Qed.

(** Both calls are this one. *)
Lemma register_unfold tid who name logo by_ :
  register tid who name logo by_ =
  (let* tournament := find_tournament tid in
   let* now := mread Db.now in
   if negb (Tournament.is_registration_open now tournament) then mthrow DomainError.TournamentNotOpen
   else
     let* invitation := invitation_lookup tournament who by_ in
     let* existing := find_entry tid who in
     let* replace_terminal := mlift (TournamentService.replaced existing) in
     let* registration := TournamentRegistrationRepository.create_with_capacity_check
                            (command tournament tid who name logo by_) replace_terminal in
     let* _ := TournamentService.consume_invitation invitation in
     mret registration).
Proof. by destruct who. Qed.

Lemma entered_iff tid who db o :
  (∀ k r, Db.registrations db !! k = Some r → entry_of tid who r = true → o = Some r) →
  (∀ r, o = Some r → Db.registrations db !! TournamentRegistration.id r = Some r ∧ entry_of tid who r = true) →
  entered db tid who ↔ TournamentService.replaced o = throw DomainError.AlreadyRegisteredForTournament.
Proof.
  intros Honly Hhead. split.
  - intros (k & r & Hk & Hr & Hst). rewrite (Honly k r Hk Hr). cbn. by rewrite Hst.
  - intros Ho. destruct o as [r|]; [|done]. destruct (Hhead r eq_refl) as [Hk Hr]. exists (TournamentRegistration.id r), r.
    split_and!; [done|done|]. cbn in Ho. by destruct (TournamentRegistrationStatus.is_terminal _).
Qed.

Lemma replaced_cases o :
  match TournamentService.replaced o with
  | Ok old => old = TournamentRegistration.id <$> o
  | Err e => e = Error DomainError.AlreadyRegisteredForTournament
  end.
Proof. destruct o as [r|]; [|done]. cbn. by destruct (TournamentRegistrationStatus.is_terminal _). Qed.

(** C5. Registration, team's or player's, succeeds exactly when the tournament is
    open, the invitation it may ask for is there, the entrant has no live entry
    and another entrant fits; then one fresh row under the entrant's name stands
    where any old one of theirs stood and the maximum is respected. Every
    refusal names the first rule that failed and writes nothing. *)
Theorem registration_admission tid who name logo by_ db :
  registrations_ok db →
  match register tid who name logo by_ db with
  | (Ok r, db') => ∃ t, Db.tournaments db !! tid = Some t ∧ admitted db t tid who by_ ∧
      entry_of tid who r = true ∧ TournamentRegistration.id r = Db.next_uuid db ∧
      TournamentRegistration.status r = initial_registration_status (Tournament.registration_type t) ∧
      Db.registrations db' = <[TournamentRegistration.id r := r]> (others db tid who) ∧
      Db.tournaments db' = Db.tournaments db ∧
      TournamentRepository.slots_taken tid db' ≤ Tournament.max_participants t
  | (Err (Error e), db') => refused db tid who by_ e ∧ db' = db
  | (Err Panic, _) => False
  end.
Proof.
  intros Hok.
  assert (keeps_registrations db (register tid who name logo by_ db).2) as Hkeeps
    by (destruct who; [apply register_team_keeps|apply register_player_keeps]).
  specialize (Hkeeps Hok). destruct (register tid who name logo by_ db) as [res db'] eqn:Hrun.
  rewrite register_unfold in Hrun. unfold find_tournament, TournamentRepository.find_by_id in Hrun.
  rewrite mbind_mbind in Hrun. unfold mbind at 1, mread at 1 in Hrun. cbv beta iota in Hrun.
  destruct (Db.tournaments db !! tid) as [t|] eqn:Ht; [|injection Hrun as <- <-; split; [by constructor|done]].
  cbn [ok_or] in Hrun. unfold mbind at 1, mlift at 1 in Hrun. unfold mbind at 1, mread at 1 in Hrun.
  cbv beta iota in Hrun.
  assert (Tournament.id t = tid) as Hid by exact (regs_tournaments db Hok tid t Ht).
  destruct (Tournament.is_registration_open (Db.now db) t) eqn:Hopen; cbn [negb] in Hrun;
    [|injection Hrun as <- <-; split; [eapply refused_closed; [exact Ht|unfold is_open; by rewrite Hopen]|done]].
  destruct (invitation_lookup_run t who by_ db) as (i & Hi & Hwel). rewrite Hid in Hwel.
  unfold mbind at 1 in Hrun. rewrite Hi in Hrun. destruct (decide _) as [Hno|Hyes].
  { injection Hrun as <- <-. split; [|done]. eapply refused_uninvited; [exact Ht|exact Hopen|naive_solver]. }
  destruct (find_entry_run tid who db Hok) as (o & Ho & Honly & Hhead & Hothers).
  unfold mbind at 1 in Hrun. rewrite Ho in Hrun. unfold mbind at 1, mlift at 1 in Hrun.
  pose proof (entered_iff tid who db o Honly Hhead) as Hent.
  pose proof (replaced_cases o) as Hcases.
  destruct (TournamentService.replaced o) as [old|e] eqn:Hrep.
  2: { subst e. injection Hrun as <- <-. split; [|done].
       eapply refused_entered; [exact Ht|exact Hopen|by apply Hwel|by apply Hent]. }
  assert (¬ entered db tid who) as Hnot by (rewrite Hent; done).
  assert (others db tid who = match old with Some id => delete id (Db.registrations db)
                              | None => Db.registrations db end) as Hold.
  { rewrite Hothers, Hcases. by destruct o. }
  unfold mbind at 1 in Hrun. rewrite (create_run t tid who name logo by_ old db Ht) in Hrun; [|intros k s|exact Hold].
  2: { unfold others. by intros [_ Hs]%map_lookup_filter_Some. }
  destruct (decide _) as [Hroom|Hfull].
  2: { injection Hrun as <- <-. split; [|done].
       eapply refused_full; [exact Ht|exact Hopen|by apply Hwel|done|done]. }
  destruct (consume_run i (registered (new_entry t tid who name logo by_ db) (others db tid who) db))
    as (db1 & Hcons & Hregs & Hts).
  unfold mbind at 1 in Hrun. rewrite Hcons in Hrun. injection Hrun as <- <-. exists t.
  split; [done|]. split; [by split_and!; [|apply Hwel| |]|].
  split. { unfold entry_of. rewrite bool_decide_true by done. destruct who; cbn; by rewrite bool_decide_true. }
  split; [done|]. split; [done|]. split; [exact Hregs|]. split; [exact Hts|].
  apply (regs_capacity db1 Hkeeps). by rewrite Hts.
Qed.
End props.

#[local] Existing Instance sample_platform.

(** The second player gets in, the first does not get in twice. *)
Example registration_admission_witness :
  registrations_ok cup_of_one ∧
  (∃ r db', register 7 (Player 2) "bob" None 2 cup_of_one = (Ok r, db') ∧
    TournamentRepository.slots_taken 7 db' ≤ 4) ∧
  refused cup_of_one 7 (Player 1) 1 DomainError.AlreadyRegisteredForTournament.
Proof.
  pose proof (registration_admission 7 (Player 2) "bob" None 2 cup_of_one cup_of_one_ok) as H2.
  pose proof (registration_admission 7 (Player 1) "ada" None 1 cup_of_one cup_of_one_ok) as H1.
  assert (is_ok (register 7 (Player 2) "bob" None 2 cup_of_one).1 = true) as Hin by reflexivity.
  assert ((register 7 (Player 1) "ada" None 1 cup_of_one).1 =
    throw DomainError.AlreadyRegisteredForTournament) as Hout by reflexivity.
  split; [apply cup_of_one_ok|]. split.
  - destruct (register 7 (Player 2) "bob" None 2 cup_of_one) as [[r|e] db']; [|discriminate].
    exists r, db'. split; [reflexivity|].
    destruct H2 as (t & Ht & _ & _ & _ & _ & _ & _ & Hmax).
    injection Ht as <-. exact Hmax.
  - destruct (register 7 (Player 1) "ada" None 1 cup_of_one) as [res db']. cbn [fst] in Hout. subst res.
    exact (proj1 H1).
Defined.
