(* ===== verification/SeedingProps.v ===== *)
(** The later rounds of a Swiss tournament, and what the check-in does to them;
    seeding: who is seeded, how, and what of it reaches the table. *)
From stdpp Require Import base list strings gmap relations.
From S2P Require Import Prelude Errors Wire TournamentTypes CoreEnums FormatPlan Entities.
From S2P Require Import BracketModel Rounds Rows TournamentModel Store TournamentStore StoreFacts.
From S2P Require Import Actor RegistrationFacts Registrations Tournaments Samples RegistrationProps.
#[local] Open Scope Z_scope.

Section props.
Context `{Platform}.

(** A standing whose registration is not approved is not paired. *)
Lemma standings_dropped regs matches round ss :
  (∀ s, s ∈ ss → ∀ r, r ∈ regs → TournamentRegistration.id r ≠ TournamentStanding.registration_id s) →
  omap (TournamentService.swiss_standing regs matches round) ss = [].
Proof.
  induction ss as [|s ss IH]; intros Hss; [done|]. cbn.
  rewrite IH by (intros s' Hs'; apply Hss; by apply list_elem_of_further).
  unfold TournamentService.swiss_standing.
  destruct (list_find _ regs) as [[i r]|] eqn:Hf; [|done].
  apply list_find_Some in Hf as (Hi & Hid & _). exfalso.
  apply (Hss s (list_elem_of_here _ _) r); [|done]. by apply list_elem_of_lookup_2 in Hi.
Qed.

Lemma swiss_bracket_of_read tid t : preserves eq (TournamentService.swiss_bracket_of tid t).
Proof. unfold TournamentService.swiss_bracket_of, list_brackets_by_tournament. frame. Qed.

(** A tournament none of whose entrants is merely approved, as one that requires
    check-in has after its start, gets no further round. *)
Lemma checked_in_swiss_stalls tid db :
  (∀ k r, Db.registrations db !! k = Some r → TournamentRegistration.tournament_id r = tid →
     TournamentRegistration.status r ≠ TournamentRegistrationStatus.Approved) →
  ∃ e, TournamentService.generate_next_swiss_round tid db = (Err e, db).
Proof.
  intros Hnone. unfold TournamentService.generate_next_swiss_round.
  apply read_refused; [unfold TournamentService.get_tournament, find_tournament, TournamentRepository.find_by_id; frame|].
  intros t _. apply read_refused; [apply swiss_bracket_of_read|]. intros b _.
  apply read_refused; [unfold list_matches_by_bracket; frame|]. intros ms _. apply read_refused; [frame|]. intros next _.
  apply read_refused; [frame|]. intros ss _. apply read_refused; [intros ?; by rewrite list_all_run|].
  intros regs Hregs. rewrite list_all_run in Hregs. injection Hregs as <-.
  apply read_refused; [unfold find_stage_by_id; frame|]. intros stage _. apply read_refused; [frame|]. intros st _.
  apply read_refused; [frame|]. intros plan _.
  rewrite standings_dropped.
  2: { intros s _ r Hr. apply elem_of_listed in Hr as [[k Hk] [Ht Hst]].
       destruct (Hnone k r Hk Ht). by apply Hst. }
  eexists. unfold mbind at 1, mlift. unfold swiss_next_round. by rewrite bool_decide_true.
Qed.
End props.

Lemma omap_lookup_seq {A} (l : list A) : omap (λ i, l !! i) (seq 0 (length l)) = l.
Proof.
  induction l as [|x l IH]; [done|]. cbn [length seq]. cbn. f_equal.
  rewrite <- fmap_S_seq. etransitivity; [|exact IH]. generalize (seq 0 (length l)) as js.
  induction js as [|i js IHjs]; [done|]. cbn. by rewrite IHjs.
Qed.

Section props.
Context `{Platform}.

(** The entrants to seed: those checked in, or else those approved. *)
Definition eligible (tid : TournamentId) (db : Db.t) : list TournamentRegistration.t :=
  match TournamentRegistrationRepository.listed tid (Some TournamentRegistrationStatus.CheckedIn) db with
  | [] => TournamentRegistrationRepository.listed tid (Some TournamentRegistrationStatus.Approved) db
  | rows => rows
  end.

Lemma get_eligible_run tid db :
  SeedingService.get_eligible_participants tid db = (Ok (eligible tid db), db).
Proof.
  unfold SeedingService.get_eligible_participants, eligible, mbind. rewrite list_all_run.
  destruct (TournamentRegistrationRepository.listed _ _ db); [|done]. apply list_all_run.
Qed.

Lemma elem_of_eligible tid db r :
  registrations_ok db → r ∈ eligible tid db →
  Db.registrations db !! TournamentRegistration.id r = Some r ∧ TournamentRegistration.tournament_id r = tid.
Proof.
  intros Hok Hr. assert (∃ f, r ∈ TournamentRegistrationRepository.listed tid f db) as [f Hf].
  { unfold eligible in Hr. destruct (TournamentRegistrationRepository.listed tid (Some _) db) eqn:E;
      [by eexists|]. rewrite <- E in Hr. by eexists. }
  apply elem_of_listed in Hf as [[k Hk] [Ht _]]. by rewrite (regs_keyed db Hok k r Hk).
Qed.

Lemma listed_NoDup tid f db :
  registrations_ok db → NoDup (TournamentRegistration.id <$> TournamentRegistrationRepository.listed tid f db).
Proof.
  intros Hok. unfold TournamentRegistrationRepository.listed. rewrite stable_sort_perm.
  unfold TournamentRegistrationRepository.registrations_of, rows_where.
  eapply sublist_NoDup; [|apply fmap_sublist, sublist_filter].
  replace (TournamentRegistration.id <$> (map_to_list (Db.registrations db)).*2)
    with ((map_to_list (Db.registrations db)).*1); [apply NoDup_fst_map_to_list|].
  rewrite <- list_fmap_compose. apply list_fmap_ext. intros i [k r] Hi%list_elem_of_lookup_2.
  apply elem_of_map_to_list in Hi. symmetry. by apply (regs_keyed db Hok).
Qed.

Lemma eligible_NoDup tid db :
  registrations_ok db → NoDup (TournamentRegistration.id <$> eligible tid db).
Proof.
  intros Hok. unfold eligible. destruct (TournamentRegistrationRepository.listed tid (Some _) db) eqn:E;
    [by apply listed_NoDup|]. rewrite <- E. by apply listed_NoDup.
Qed.

(** ** Writing the seeds *)

Definition seed_row (now : DateTime) (p : Seeded.t) (r : TournamentRegistration.t) : TournamentRegistration.t :=
  (TournamentRegistrationRepository.apply_update
     (SeedingService.seed_update (Seeded.seed p) (Seeded.seed_rating p)) r)
    <| TournamentRegistration.updated_at := now |>.

Lemma persist_seeds_run ps : ∀ db,
  NoDup (Seeded.registration_id <$> ps) →
  (∀ p, p ∈ ps → is_Some (Db.registrations db !! Seeded.registration_id p)) →
  ∃ rs, SeedingService.persist_seeds ps db = (Ok tt, with_registrations rs db) ∧
    (∀ p r, p ∈ ps → Db.registrations db !! Seeded.registration_id p = Some r →
       rs !! Seeded.registration_id p = Some (seed_row (Db.now db) p r)) ∧
    (∀ k, k ∉ Seeded.registration_id <$> ps → rs !! k = Db.registrations db !! k).
Proof.
  unfold SeedingService.persist_seeds. induction ps as [|p ps IH]; intros db Hnd Hin.
  { exists (Db.registrations db). split_and!; [by destruct db|by intros p r ?%elem_of_nil|done]. }
  apply NoDup_cons in Hnd as [Hp Hnd]. destruct (Hin p) as [r Hr]; [apply list_elem_of_here|].
  set (db1 := with_registrations (<[Seeded.registration_id p := seed_row (Db.now db) p r]> (Db.registrations db)) db).
  destruct (IH db1 Hnd) as (rs & Hrun & Hset & Hkeep).
  { intros q Hq. unfold db1. cbn. apply lookup_insert_is_Some'. right. apply Hin. by apply list_elem_of_further. }
  exists rs. split_and!.
  - cbn [mfor]. erewrite mbind_step; [exact Hrun|].
    unfold mbind, TournamentRegistrationRepository.update, TournamentRegistrationRepository.update_row.
    by rewrite Hr.
  - intros q s [->|Hq]%elem_of_cons Hs.
    + rewrite Hkeep by done. unfold db1. cbn. rewrite lookup_insert_eq. congruence.
    + apply (Hset q s Hq). unfold db1. cbn. rewrite lookup_insert_ne; [done|].
      intros Heq. apply Hp. rewrite Heq. by apply list_elem_of_fmap_2.
  - intros k Hk. apply not_elem_of_cons in Hk as [Hne Hk]. rewrite Hkeep by done.
    unfold db1. cbn. by rewrite lookup_insert_ne.
Qed.

(** ** The algorithms *)

Lemma pick_all (l : list TournamentRegistration.t) shuffled : ∀ acc,
  Forall (λ i, (i < length l)%nat) shuffled →
  try_fold (λ acc reg_idx, let? r := index l (Z.of_nat reg_idx) in Ok (acc ++ [r])) acc shuffled =
  (Ok (acc ++ omap (λ i, l !! i) shuffled) : outcome _).
Proof.
  induction shuffled as [|i js IH]; intros acc Hall; [by rewrite app_nil_r|].
  apply Forall_cons in Hall as [Hi Hall]. destruct (lookup_lt_is_Some_2 l i Hi) as [r Hr].
  cbn [try_fold]. rewrite (index_ok l (Z.of_nat i) r) by (rewrite ?Nat2Z.id; done || lia).
  cbn beta iota. unfold result_bind. rewrite IH by done. cbn. rewrite Hr. by rewrite <- app_assoc.
Qed.

(** The list of the seeded, numbered in the order it was put in. *)
Definition numbered (rating : TournamentRegistration.t → option Z) (rs : list TournamentRegistration.t)
    : list Seeded.t := imap (λ i r, SeedingService.seeded i (rating r) r) rs.

Lemma numbered_ids rating rs : Seeded.registration_id <$> numbered rating rs = TournamentRegistration.id <$> rs.
Proof.
  unfold numbered. rewrite fmap_imap, <- imap_const. by apply imap_ext.
Qed.

Lemma numbered_seeds rating rs :
  Z.of_nat (length rs) ≤ i32_max → Seeded.seed <$> numbered rating rs = seqZ 1 (Z.of_nat (length rs)).
Proof.
  intros Hlen. unfold numbered. rewrite fmap_imap.
  trans (imap (λ i _, as_i32 (Z.of_nat i + 1)) rs); [by apply imap_ext|]. rewrite imap_seq_0.
  unfold seqZ. rewrite Nat2Z.id. apply list_fmap_ext. intros k i Hi. apply lookup_seq in Hi as [-> Hk].
  rewrite as_i32_id; [lia|]. unfold in_i32, i32_min, i32_max in *. lia.
Qed.

Lemma numbered_ratings rating rs : Seeded.seed_rating <$> numbered rating rs = rating <$> rs.
Proof.
  unfold numbered. rewrite fmap_imap. trans (imap (const rating) rs); [by apply imap_ext|]. apply imap_const.
Qed.

(** What either algorithm gives: the eligible in some order, numbered. *)
Definition seeding (alg : SeedingAlgorithm.t) (rs : list TournamentRegistration.t) (ps : list Seeded.t) : Prop :=
  match alg with
  | SeedingAlgorithm.Random => ∃ rs', rs' ≡ₚ rs ∧ ps = numbered (λ _, None) rs'
  | SeedingAlgorithm.Rating =>
      ∃ rs', rs' ≡ₚ rs ∧ ps = numbered (Some ∘ SeedingService.rating_of) rs' ∧
        StronglySorted (λ a b, SeedingService.rating_of b ≤ SeedingService.rating_of a) rs' ∧
        ∀ x, filter (λ r, SeedingService.rating_of r = x) rs' = filter (λ r, SeedingService.rating_of r = x) rs
  | _ => False
  end.

Lemma seed_random_run shuffled rs :
  shuffled ≡ₚ seq 0 (length rs) →
  ∃ ps, SeedingService.seed_random shuffled rs = Ok ps ∧ seeding SeedingAlgorithm.Random rs ps.
Proof.
  intros Hperm. eexists. split.
  - unfold SeedingService.seed_random. rewrite pick_all; [reflexivity|].
    apply Forall_forall. intros i. rewrite Hperm, elem_of_seq. lia.
  - exists (omap (λ i, rs !! i) shuffled). split; [|done]. rewrite Hperm. by rewrite omap_lookup_seq.
Qed.

Lemma seed_by_rating_seeding rs : seeding SeedingAlgorithm.Rating rs (SeedingService.seed_by_rating rs).
Proof.
  exists (stable_sort SeedingService.rated_no_lower rs). split_and!.
  - apply stable_sort_perm.
  - done.
  - apply (StronglySorted_mono (λ a b, SeedingService.rated_no_lower a b = true));
      [unfold SeedingService.rated_no_lower; intros a b; by rewrite bool_decide_eq_true|].
    apply stable_sort_sorted; unfold SeedingService.rated_no_lower; intros *; rewrite !bool_decide_eq_true; lia.
  - intros x. apply stable_sort_stable.
    unfold SeedingService.rated_no_lower. intros a b -> ->. by rewrite bool_decide_true.
Qed.

Lemma seeding_numbered alg rs ps :
  seeding alg rs ps → ∃ rating rs', rs' ≡ₚ rs ∧ ps = numbered rating rs'.
Proof. destruct alg; cbn; [naive_solver..|done|done]. Qed.

(** Seeding a tournament by rating or at random numbers everyone who checked
    in, or else everyone approved, from one up without gap or repeat; by rating
    no one stands behind a lower rated entrant and equals keep the order of the
    listing; the table then holds just those seeds, and no other row changed. *)
Theorem auto_seed_numbers_everyone shuffle tid alg t db :
  registrations_ok db → Db.tournaments db !! tid = Some t → eligible tid db ≠ [] →
  Z.of_nat (length (eligible tid db)) ≤ i32_max →
  shuffle (length (eligible tid db)) ≡ₚ seq 0 (length (eligible tid db)) →
  alg = SeedingAlgorithm.Rating ∨ alg = SeedingAlgorithm.Random →
  ∃ ps rs, SeedingService.auto_seed shuffle tid alg db = (Ok ps, with_registrations rs db) ∧
    seeding alg (eligible tid db) ps ∧
    Seeded.registration_id <$> ps ≡ₚ TournamentRegistration.id <$> eligible tid db ∧
    Seeded.seed <$> ps = seqZ 1 (Z.of_nat (length (eligible tid db))) ∧
    (∀ p, p ∈ ps → ∃ r, rs !! Seeded.registration_id p = Some r ∧
       TournamentRegistration.seed r = Some (Seeded.seed p) ∧ TournamentRegistration.tournament_id r = tid) ∧
    (∀ k, k ∉ Seeded.registration_id <$> ps → rs !! k = Db.registrations db !! k).
Proof.
  intros Hok Ht Hne Hlen Hshuf Halg.
  assert (∃ ps, match alg with
      | SeedingAlgorithm.Random => SeedingService.seed_random (shuffle (length (eligible tid db))) (eligible tid db)
      | _ => Ok (SeedingService.seed_by_rating (eligible tid db))
      end = Ok ps ∧ seeding alg (eligible tid db) ps) as (ps & Hps & Hseed).
  { destruct Halg as [-> | ->]; [|by apply seed_random_run].
    eexists. split; [done|]. apply seed_by_rating_seeding. }
  destruct (seeding_numbered alg _ ps Hseed) as (rating & rs' & Hperm & Hnum).
  assert (Seeded.registration_id <$> ps ≡ₚ TournamentRegistration.id <$> eligible tid db) as Hids
    by by rewrite Hnum, numbered_ids, Hperm.
  assert (∀ p, p ∈ ps → ∃ r, Db.registrations db !! Seeded.registration_id p = Some r ∧
    TournamentRegistration.tournament_id r = tid) as Hrow.
  { intros p Hp. apply (list_elem_of_fmap_2 Seeded.registration_id) in Hp. rewrite Hids in Hp.
    apply list_elem_of_fmap in Hp as (r & -> & Hr). apply elem_of_eligible in Hr as [Hr Htid]; [|done]. by exists r. }
  destruct (persist_seeds_run ps db) as (rs & Hrun & Hset & Hkeep).
  { rewrite Hids. by apply eligible_NoDup. }
  { intros p Hp. destruct (Hrow p Hp) as (r & -> & _). by eexists. }
  exists ps, rs. split_and!; [|done|done| | |done].
  - unfold SeedingService.auto_seed, find_tournament, TournamentRepository.find_by_id.
    erewrite mbind_step; [|unfold mbind, mread; cbv beta iota; by rewrite Ht].
    erewrite mbind_step; [|apply get_eligible_run].
    destruct (eligible tid db) as [|r0 rest] eqn:He; [done|]. rewrite <- He in *.
    assert (∀ k : list Seeded.t → M (list Seeded.t), mbind (mlift (Ok ps)) k db = k ps db) as Hlift by done.
    destruct Halg as [-> | ->]; rewrite Hps; rewrite Hlift; by erewrite mbind_step by exact Hrun.
  - rewrite Hnum, numbered_seeds; by rewrite Hperm.
  - intros p Hp. destruct (Hrow p Hp) as (r & Hr & Htid). eexists. split; [by apply (Hset p r)|]. done.
Qed.
End props.

#[local] Existing Instance sample_platform.

Definition cup_of_two : Db.t := after_call (RegisterPlayer 7 2 "bob" 2) cup_of_one.

(** Both approved players are seeded one and two. *)
Example auto_seed_numbers_everyone_witness :
  registrations_ok cup_of_two ∧ length (eligible 7 cup_of_two) = 2%nat ∧
  ∃ ps rs, SeedingService.auto_seed (seq 0) 7 SeedingAlgorithm.Rating cup_of_two =
      (Ok ps, with_registrations rs cup_of_two) ∧
    Seeded.seed <$> ps = [1; 2].
Proof.
  assert (registrations_ok cup_of_two) as Hok by apply after_call_keeps, cup_of_one_ok.
  assert (length (eligible 7 cup_of_two) = 2%nat) as Hlen by reflexivity.
  split; [exact Hok|]. split; [exact Hlen|].
  destruct (auto_seed_numbers_everyone (seq 0) 7 SeedingAlgorithm.Rating
    (sample_tournament TournamentFormat.SingleElimination) cup_of_two) as (ps & rs & Hrun & _ & _ & Hseeds & _).
  - exact Hok.
  - reflexivity.
  - intros He. rewrite He in Hlen. discriminate.
  - rewrite Hlen. unfold i32_max. lia.
  - reflexivity.
  - by left.
  - exists ps, rs. split; [exact Hrun|]. rewrite Hseeds, Hlen. reflexivity.
Defined.

(** ** What manual seeding lets through *)

(** The numbers need not start from one. *)
Lemma manual_seed_need_not_start_at_one :
  is_ok (SeedingService.manual_seed 7 [(1000%N, 5)] cup_of_two).1 = true.
Proof. reflexivity. Qed.

(** A list refused at its second entry has already written its first. *)
Lemma manual_seed_half_written :
  let run := SeedingService.manual_seed 7 [(1000%N, 1); (999%N, 2)] cup_of_two in
  run.1 = throw (DomainError.TournamentRegistrationNotFound 999) ∧
  (TournamentRegistration.seed <$> Db.registrations cup_of_two !! 1000%N) = Some None ∧
  (TournamentRegistration.seed <$> Db.registrations run.2 !! 1000%N) = Some (Some 1).
Proof. split_and!; reflexivity. Qed.

(** ** What an update of the tournament lets through *)

Definition shrink : UpdateTournamentCommand.t :=
  UpdateTournamentCommand.mk _ None None None None None None None (Some 2) None None None None None None None
    None None None None None None None.

(** The maximum may fall below the places already taken: three players, then
    room for two. *)
Lemma update_may_strand_registrations :
  let run := TournamentService.update_tournament 7 shrink
    (after_call (RegisterPlayer 7 3 "cid" 3) cup_of_two) in
  is_ok run.1 = true ∧ TournamentRepository.slots_taken 7 run.2 = 3 ∧
  (Tournament.max_participants <$> Db.tournaments run.2 !! 7%N) = Some 2.
Proof. split_and!; reflexivity. Qed.
