(* ===== verification/StartElim.v ===== *)
(** [start_tournament] of a single elimination, from the claim to the running
    tournament. *)
From stdpp Require Import base list strings gmap.
From S2P Require Import Prelude Errors Wire TournamentTypes CoreEnums Entities BracketModel FormatPlan.
From S2P Require Import Elimination SingleEliminationProps Rows Store StoreFacts Samples.
From S2P Require Import TournamentModel TournamentStore Standings Helpers Progression ProgressionProps CompletionProps.
From S2P Require Import Registrations Tournaments StartFacts StartProps.
#[local] Open Scope Z_scope.

Section start_elim.
Context `{Platform}.

(** ** Constraints of the tournament's row *)

(** The columns the constraints read. *)
Definition constrained (t : Tournament.t) :=
  (Tournament.id t, Tournament.slug t, Tournament.registration_start t, Tournament.registration_end t,
   Tournament.starts_at t, Tournament.min_participants t, Tournament.max_participants t).

Lemma slug_free db t :
  existsb (λ t', bool_decide (Tournament.id t' ≠ Tournament.id t))
    (TournamentRepository.with_slug (Tournament.slug t) db) = false ↔
  ∀ i t', Db.tournaments db !! i = Some t' → Tournament.slug t' = Tournament.slug t →
    Tournament.id t' = Tournament.id t.
Proof.
  rewrite <- not_true_iff_false, existsb_exists. unfold TournamentRepository.with_slug, rows_where. split.
  - intros Hn i t' Ht' Hslug. destruct (decide (Tournament.id t' = Tournament.id t)) as [|Hne]; [done|].
    destruct Hn. exists t'. rewrite <- list_elem_of_In. split; [|by apply bool_decide_eq_true].
    apply list_elem_of_filter. split; [by apply bool_decide_eq_true|].
    apply (list_elem_of_fmap_2 snd _ (i, t')). by apply elem_of_map_to_list.
  - intros Hall (t' & Hin & Hne%bool_decide_eq_true). apply Hne.
    apply list_elem_of_In, list_elem_of_filter in Hin as
      [Hslug%bool_decide_eq_true ([i r] & -> & Hi%elem_of_map_to_list)%list_elem_of_fmap].
    by apply (Hall i).
Qed.

(** A row that passed passes again once written, as long as those columns stay. *)
Lemma violated_again db db' t t' :
  TournamentRepository.violated db t = None → constrained t' = constrained t →
  (∀ i r, Db.tournaments db' !! i = Some r →
     Tournament.id r = Tournament.id t ∨ Db.tournaments db !! i = Some r) →
  TournamentRepository.violated db' t' = None.
Proof.
  unfold constrained. intros Hv [= Hid Hslug Hrs Hre Hsa Hmin Hmax] Hdb'. revert Hv.
  unfold TournamentRepository.violated. rewrite Hid, Hslug, Hrs, Hre, Hsa, Hmin, Hmax.
  destruct (negb (_ && _)); [done|]. destruct (negb (bool_decide _)); [done|].
  destruct (existsb _ (TournamentRepository.with_slug _ db)) eqn:Hfree; [done|]. intros _.
  assert (existsb (λ r, bool_decide (Tournament.id r ≠ Tournament.id t))
    (TournamentRepository.with_slug (Tournament.slug t) db') = false) as ->; [|done].
  apply slug_free. intros i r Hr Hsl. destruct (Hdb' i r Hr) as [|Hold]; [done|].
  by apply (proj1 (slug_free db t) Hfree i).
Qed.

(** The row as the claim leaves it, and with the start stamped again. *)
Definition claimed (now : DateTime) (t : Tournament.t) : Tournament.t :=
  (TournamentRepository.set_started now t) <| Tournament.updated_at := now |>.

Lemma claimed_constrained now now' t : constrained (claimed now' (claimed now t)) = constrained (claimed now t).
Proof. unfold constrained, claimed, TournamentRepository.set_started. cbn. by destruct (Tournament.starts_at t). Qed.

(** ** What a start needs *)

Record startable (id : TournamentId) (t : Tournament.t) (regs : list TournamentRegistration.t)
    (db : Db.t) : Prop := {
  startable_tables : sound_tables db;
  startable_stages : stages_keyed db;
  startable_row : Db.tournaments db !! id = Some t;
  startable_id : Tournament.id t = id;
  startable_status : TournamentRepository.may_start t = true;
  startable_constraints : TournamentRepository.violated db (claimed (Db.now db) t) = None;
  startable_entrants : TournamentService.confirmed_participants id t db = (Ok regs, db);
  startable_enough : as_usize (Tournament.min_participants t) ≤ Z.of_nat (length regs);
  startable_none : brackets_of_tournament id db = [];
}.

(** ** The steps *)

Lemma try_claim_start_run id t db :
  Db.tournaments db !! id = Some t → TournamentRepository.may_start t = true →
  TournamentRepository.violated db (claimed (Db.now db) t) = None →
  TournamentRepository.try_claim_start id db =
  (Ok (Some (claimed (Db.now db) t)),
   db <| Db.tournaments := <[id := claimed (Db.now db) t]> (Db.tournaments db) |>).
Proof.
  intros Ht Hm Hv. unfold TournamentRepository.try_claim_start, TournamentRepository.try_update.
  rewrite Ht, Hm. fold (claimed (Db.now db) t). by rewrite Hv.
Qed.

Lemma mark_started_run id t db :
  Db.tournaments db !! id = Some t →
  TournamentRepository.violated db (claimed (Db.now db) t) = None →
  TournamentRepository.mark_started id db =
  (Ok (claimed (Db.now db) t), db <| Db.tournaments := <[id := claimed (Db.now db) t]> (Db.tournaments db) |>).
Proof.
  intros Ht Hv. unfold TournamentRepository.mark_started, TournamentRepository.update_row,
    TournamentRepository.try_update, mbind. rewrite Ht. fold (claimed (Db.now db) t). by rewrite Hv.
Qed.

(** Only the tables of stages differ, and identifiers have been used. *)
Definition restaged (next : Uuid) (stages : gmap N TournamentStage.t) (db : Db.t) : Db.t :=
  db <| Db.next_uuid := next |> <| Db.stages := stages |>.

Lemma main_stage_run id t sf db :
  TournamentService.main_stage_format (Tournament.format t) = Ok sf → stages_keyed db →
  ∃ stage next stages,
    TournamentService.main_stage id t db = (Ok stage, restaged next stages db) ∧
    stages !! TournamentStage.id stage = Some stage ∧ (Db.next_uuid db ≤ next)%N.
Proof.
  intros Hsf Hk. unfold TournamentService.main_stage. rewrite Hsf.
  change (mbind (mlift (Ok sf)) ?c db) with (c sf db). cbv beta. unfold list_stages_by_tournament.
  change (mbind (mread ?f) ?c db) with (c (f db) db). cbv beta.
  destruct (stages_of_tournament id db) as [|stage l] eqn:Hl.
  - unfold create_stage. assert (order_taken (TournamentService.main_stage_command id t sf) db = false) as ->.
    { apply not_true_iff_false. unfold order_taken. rewrite existsb_exists.
      intros (s & Hin & [Ht _]%bool_decide_eq_true).
      apply list_elem_of_In, list_elem_of_fmap in Hin as ([i r] & -> & Hr%elem_of_map_to_list).
      assert (r ∈ stages_of_tournament id db) as Hr'
        by (apply elem_of_stages_of_tournament; split; [done|by exists i]).
      rewrite Hl in Hr'. by apply elem_of_nil in Hr'. }
    eexists _, _, _. split; [reflexivity|]. split; [apply lookup_insert_eq|cbn; lia].
  - exists stage, (Db.next_uuid db), (Db.stages db). split; [by destruct db|]. split; [|lia].
    assert (stage ∈ stages_of_tournament id db) as (_ & i & Hi)%elem_of_stages_of_tournament
      by (rewrite Hl; apply elem_of_cons; by left).
    by rewrite (Hk _ _ Hi).
Qed.

(** The stage is the same before and after the claim. *)
Lemma main_stage_claimed id t ts db :
  (TournamentService.main_stage id t (db <| Db.tournaments := ts |>)).1 = (TournamentService.main_stage id t db).1.
Proof.
  unfold TournamentService.main_stage. destruct (TournamentService.main_stage_format _) as [sf|e]; [|done].
  unfold list_stages_by_tournament, mbind, mlift, mread.
  change (stages_of_tournament id (db <| Db.tournaments := ts |>)) with (stages_of_tournament id db).
  destruct (stages_of_tournament id db); [|done]. unfold create_stage.
  change (order_taken ?c (db <| Db.tournaments := ts |>)) with (order_taken c db).
  by destruct (order_taken _ _).
Qed.

Lemma set_stage_status_run sid st stage db :
  Db.stages db !! sid = Some stage →
  ∃ stage', set_stage_status sid st db = (Ok stage', db <| Db.stages := <[sid := stage']> (Db.stages db) |>) ∧
    TournamentStage.status stage' = st.
Proof. intros Hs. unfold set_stage_status. rewrite Hs. by eexists. Qed.

(** Reading the tables a bracket is judged by. *)
Lemma playable_same b rounds entrants db db' :
  Db.matches db' = Db.matches db → playable b rounds entrants db → playable b rounds entrants db'.
Proof.
  intros Heq Hp. assert (matches_of_bracket b db' = matches_of_bracket b db) as Hm
    by (unfold matches_of_bracket; by rewrite Heq).
  destruct Hp. split; rewrite ?Hm; try done.
Qed.

Lemma brackets_of_inserted id bk db :
  brackets_of_tournament id db = [] → Db.brackets db !! TournamentBracket.id bk = None →
  TournamentBracket.tournament_id bk = id →
  brackets_of_tournament id (opened bk db) = [bk].
Proof.
  unfold brackets_of_tournament. intros Hnone Hfree Hid. cbn [opened].
  set (P := λ b, TournamentBracket.tournament_id b = id) in *.
  assert (filter P (map_to_list (Db.brackets db)).*2 = []) as Hold.
  { apply Permutation_nil. rewrite <- (stable_sort_perm bracket_leb (filter _ _)). by rewrite Hnone. }
  apply Permutation_singleton_r. rewrite stable_sort_perm.
  change (Db.brackets _) with (<[TournamentBracket.id bk := bk]> (Db.brackets db)).
  rewrite map_to_list_insert, fmap_cons, filter_cons_True by done. by rewrite Hold.
Qed.

(** C3. The start of a single elimination of [n] confirmed entrants, [2 <= n <=
  2^30], with a readable format: the tournament is in progress, its stage active,
  and the tournament's one bracket is in order, [ceil(log2 n)] rounds with every
  entrant seated once, the full matches ready and the winners' ways wired. Older
  matches and the registrations are as before. *)
Theorem single_elimination_started id t regs stage plan db :
  startable id t regs db →
  Tournament.format t = TournamentFormat.SingleElimination →
  (TournamentService.main_stage id t db).1 = Ok stage →
  TournamentService.stage_format_plan t stage = Ok plan →
  2 ≤ Z.of_nat (length regs) ≤ 2 ^ 30 →
  let rounds := Z.log2_up (Z.of_nat (length regs)) in
  ∃ t' bk stage' db', TournamentService.start_tournament id db = (Ok t', db') ∧
    Db.tournaments db' !! id = Some t' ∧ Tournament.status t' = TournamentStatus.InProgress ∧
    Tournament.started_at t' = Some (Db.now db) ∧
    Db.stages db' !! TournamentBracket.stage_id bk = Some stage' ∧
    TournamentStage.status stage' = StageStatus.Active ∧
    brackets_of_tournament id db' = [bk] ∧ TournamentBracket.total_rounds bk = rounds ∧
    playable (TournamentBracket.id bk) rounds (TournamentRegistration.id <$> regs) db' ∧
    (∀ i m, Db.matches db !! i = Some m → Db.matches db' !! i = Some m) ∧
    Db.registrations db' = Db.registrations db.
Proof.
  intros [Hsound Hstages Hrow Hid Hst Hv Hregs Henough Hnone] Hformat Hstage Hplan Hn rounds.
  set (dbc := db <| Db.tournaments := <[id := claimed (Db.now db) t]> (Db.tournaments db) |>).
  set (ps := prepare_participants regs).
  assert (Z.of_nat (length ps) = Z.of_nat (length regs)) as Hlen.
  { unfold ps, prepare_participants, renumber_seeds. by rewrite length_imap, stable_sort_length, length_imap. }
  assert (∃ k, (k ≤ 29)%nat ∧ 2 ^ Z.of_nat k < Z.of_nat (length ps) ≤ 2 ^ Z.of_nat (S k)) as (k & Hk & Hb).
  { destruct (single_elimination_ok id 0%N 0%N ps plan) as (k & Hk & Hb & _); [lia|]. by exists k. }
  assert (rounds = Z.of_nat (S k)) as Hrounds.
  { unfold rounds. rewrite <- Hlen. apply Z.log2_up_unique; [lia|].
    rewrite Nat2Z.inj_succ, Z.pred_succ in *. lia. }
  destruct (main_stage_run id t StageFormat.SingleElimination dbc) as (stage1 & next & stages & Hms & Hst1 & Hnext).
  { by rewrite Hformat. } { exact Hstages. }
  assert (stage1 = stage) as ->.
  { pose proof (main_stage_claimed id t (<[id := claimed (Db.now db) t]> (Db.tournaments db)) db) as Heq.
    fold dbc in Heq. rewrite Hms, Hstage in Heq. by injection Heq. }
  set (db2 := restaged next stages dbc) in *.
  assert (sound_tables db2) as Hsound2.
  { destruct Hsound as [Hwk Hfresh Hrefs]. change (Db.next_uuid db ≤ next)%N in Hnext. split.
    - exact Hwk.
    - intros i Hi. apply Hfresh. change (next ≤ i)%N in Hi. lia.
    - intros i m Hm. specialize (Hrefs i m Hm). change (TournamentMatch.bracket_id m < next)%N. lia. }
  destruct (start_single_elimination_run id t stage ps plan k db2 Hsound2 Hplan Hb ltac:(lia)) as [Hstored Hrun].
  set (bk := opened_bracket next (TournamentStage.id stage) id "Main Bracket" BracketType.SingleElim None
    (Z.of_nat (S k)) (Db.now db)) in *.
  set (g := se_bracket id (TournamentStage.id stage) (Db.next_uuid db2) ps plan k) in *.
  set (rows := rows_from (N.succ (Db.next_uuid db2)) (Db.now db2) (GeneratedBracket.matches g)) in *.
  match type of Hrun with _ = (Ok tt, ?d) => set (db3 := d) in * end.
  destruct (set_stage_status_run (TournamentStage.id stage) StageStatus.Active stage db3) as (stage' & Hact & Hst'); [done|].
  set (db4 := db3 <| Db.stages := <[TournamentStage.id stage := stage']> (Db.stages db3) |>) in *.
  assert (Db.tournaments db4 !! id = Some (claimed (Db.now db) t)) as Hrow4 by apply lookup_insert_eq.
  assert (TournamentRepository.violated db4 (claimed (Db.now db4) (claimed (Db.now db) t)) = None) as Hv4.
  { eapply violated_again; [exact Hv|apply claimed_constrained|]. intros i r Hr.
    change (Db.tournaments db4) with (<[id := claimed (Db.now db) t]> (Db.tournaments db)) in Hr.
    apply lookup_insert_Some in Hr as [[<- <-]|[_ Hr]]; [by left|by right]. }
  exists (claimed (Db.now db4) (claimed (Db.now db) t)), bk, stage',
    (db4 <| Db.tournaments := <[id := claimed (Db.now db4) (claimed (Db.now db) t)]> (Db.tournaments db4) |>).
  split.
  { unfold TournamentService.start_tournament.
    assert (TournamentService.get_tournament id db = (Ok t, db)) as Hget.
    { unfold TournamentService.get_tournament, find_tournament, TournamentRepository.find_by_id, mbind, mread, mlift.
      by rewrite Hrow. }
    mrun Hget. rewrite Hst. cbn [negb]. mrun Hregs. rewrite bool_decide_false by lia.
    unfold TournamentService.claim_and_build. mrun (try_claim_start_run id t db); [done..|]. fold dbc.
    unfold list_brackets_by_tournament. change (mbind (mread ?f) ?c dbc) with (c (f dbc) dbc). cbv beta.
    change (brackets_of_tournament id dbc) with (brackets_of_tournament id db). rewrite Hnone.
    unfold TournamentService.build_brackets. fold ps. rewrite Hformat, bool_decide_false by done.
    mrun Hms. unfold TournamentService.build_main_stage. rewrite Hformat. mrun Hrun. mrun Hact.
    by apply mark_started_run. }
  split; [apply lookup_insert_eq|]. split; [done|]. split; [done|].
  split; [apply lookup_insert_eq|]. split; [done|].
  assert (Db.brackets db2 !! next = None) as Hfree by (apply (sound_fresh _ Hsound2); change (next ≤ next)%N; lia).
  split; [|split; [done|split; [|split; [|done]]]].
  - apply (brackets_of_inserted id bk db2); [exact Hnone|exact Hfree|done].
  - assert (playable next (Z.of_nat (S k)) (SeededParticipant.registration_id <$> ps) db3) as Hp.
    { by apply (settled_playable id (TournamentStage.id stage) next ps plan k (N.succ next) (Db.now db) (Db.matches db)). }
    rewrite Hrounds. destruct Hp as [Hp1 Hp2 Hp3 Hp4]. apply (playable_same _ _ _ db3); [done|].
    split; [exact Hp1| |exact Hp3|exact Hp4]. etransitivity; [exact Hp2|]. apply prepare_participants_spec. unfold i32_max. lia.
  - intros i m Hm. change (Db.matches _) with (table (settled_row next (Db.now db)
      (se_placements id (TournamentStage.id stage) next ps plan k)
      (λ m, set_winner_link <$> se_next (build_position_map rows) m) <$> rows) ∪ Db.matches db).
    rewrite lookup_union_r; [done|]. apply table_lookup_none.
    intros m' (r & -> & (i' & c & Hi' & _ & ->)%elem_of_rows_from)%list_elem_of_fmap Heq.
    destruct fixed_places as (Hfid & _). rewrite settled_fixed in Heq by done. cbn in Heq. subst i'.
    change (Db.next_uuid db ≤ next)%N in Hnext.
    destruct (sound_fresh _ Hsound i) as [Hnil _]; [change (Db.next_uuid db2) with next in Hi'; lia|congruence].
Qed.
End start_elim.

(** ** Witnesses: three entrants *)

#[local] Existing Instance sample_platform.

Definition sample_entries : list TournamentRegistration.t :=
  sample_entry TournamentRegistrationStatus.Approved <$> [1; 2; 3]%N.
Definition cup_of_three : Db.t := tournament_db (sample_tournament TournamentFormat.SingleElimination) sample_entries.
Definition cup_stage : TournamentStage.t :=
  inserted_stage 1000 100 (TournamentService.main_stage_command 7
    (sample_tournament TournamentFormat.SingleElimination) StageFormat.SingleElimination).

Lemma cup_startable :
  startable 7 (sample_tournament TournamentFormat.SingleElimination) sample_entries cup_of_three.
Proof.
  split.
  - split; [intros id m|intros id|intros id m]; change (Db.matches cup_of_three) with (∅ : gmap N TournamentMatch.t);
      rewrite ?lookup_empty; [done|by intros _|done].
  - exact sample_groups_keyed.
  - reflexivity.
  - reflexivity.
  - reflexivity.
  - reflexivity.
  - reflexivity.
  - apply Z.leb_le. reflexivity.
  - reflexivity.
Qed.

Example single_elimination_started_witness :
  startable 7 (sample_tournament TournamentFormat.SingleElimination) sample_entries cup_of_three ∧
  ∃ t' bk db', TournamentService.start_tournament 7 cup_of_three = (Ok t', db') ∧
    TournamentBracket.total_rounds bk = 2 ∧ playable (TournamentBracket.id bk) 2 [21; 22; 23]%N db'.
Proof.
  split; [exact cup_startable|].
  destruct (single_elimination_started 7 (sample_tournament TournamentFormat.SingleElimination) sample_entries
    cup_stage (uniform MatchFormat.Bo3) cup_of_three cup_startable) as (t' & bk & st & db' & Hrun & _ & _ & _ & _ & _ & _ & Hr & Hp & _).
  - reflexivity.
  - reflexivity.
  - reflexivity.
  - split; vm_compute; discriminate.
  - exists t', bk, db'. split; [exact Hrun|]. split; [exact Hr|exact Hp].
Defined.

Example start_once_witness :
  (TournamentRepository.try_claim_start 7 cup_of_three).1 =
    Ok (Some (claimed 100 (sample_tournament TournamentFormat.SingleElimination))) ∧
  ∃ row, (TournamentService.claim_and_build 7 (sample_tournament TournamentFormat.Swiss) []
    (TournamentService.claim_and_build 7 (sample_tournament TournamentFormat.SingleElimination)
       sample_entries cup_of_three).2).1 = Ok row.
Proof.
  assert ((TournamentRepository.try_claim_start 7 cup_of_three).1 =
    Ok (Some (claimed 100 (sample_tournament TournamentFormat.SingleElimination)))) as Hc.
  { destruct cup_startable as [_ _ Hrow _ Hst Hv _ _ _]. by rewrite (try_claim_start_run 7 _ _ Hrow Hst Hv). }
  split; [exact Hc|].
  destruct (start_once 7 (sample_tournament TournamentFormat.SingleElimination) sample_entries cup_of_three _ Hc)
    as (row & _ & _ & Hagain & _).
  exists row. by rewrite Hagain.
Defined.

(** ** What a bye leaves behind *)

(** Both matches that can be played, played and progressed. *)
Definition play (id : TournamentMatchId) (winner loser : TournamentRegistrationId) : M unit :=
  let* _ := submit_result id 2 0 winner loser in
  let* _ := process_match_completion id winner loser in
  mret tt.

Definition cup_played : Db.t :=
  ((let* _ := TournamentService.start_tournament 7 in
    let* _ := play 1003 22 23 in
    play 1004 21 22) cup_of_three).2.

(** The first-round match of a bye is stored with nobody in it and stays
  pending: once everything that can be played is over, final included, the
  bracket still does not count as complete. *)
Theorem bye_match_blocks_completion :
  (λ m, (TournamentMatch.bracket_position m, participants_of m, TournamentMatch.status m)) <$>
    matches_of_bracket 1001 cup_played =
  [("R1M1", [], TournamentMatchStatus.Pending);
   ("R1M2", [22%N; 23%N], TournamentMatchStatus.Completed);
   ("R2M1", [21%N; 22%N], TournamentMatchStatus.Completed)] ∧
  (check_bracket_completion 1001 cup_played).1 = Ok false.
Proof. split; vm_compute; reflexivity. Qed.
