(* ===== verification/Results.v ===== *)
(** [ResultService] (crates/portal-domain/src/services/tournament/result.rs):
    claims about a match's score, their validation, confirmation by the opponent
    or by the clock, and the audited correction of a recorded score. *)
From stdpp Require Import base list strings gmap.
From S2P Require Import Prelude Errors Wire TournamentTypes Entities CoreEnums DomainEnums FormatPlan VetoModel Rows.
From S2P Require Import ResultModel Store VetoStore ClaimStore Helpers Progression Lifecycle Actor.
#[local] Open Scope Z_scope.

Definition MATCH_RESULT_OVERRIDE_ENTITY : string := "tournament_match".
Definition MATCH_RESULT_OVERRIDE_FIELD : string := "result_override".

Module MapSource.
Inductive t := Veto | Pool.
End MapSource.

(** [Arc<dyn MapPoolProvider>]: reads the map pools, in the API layer. *)
Module MapPoolProvider.
Record t `{Platform} := mk {
  valid_map_ids : TournamentId → option TournamentStageId → Db.t → outcome (list string);
}.
End MapPoolProvider.

(** [Arc<dyn MatchStatusTransitioner>]. *)
Module MatchStatusTransitioner.
Record t `{Platform} := mk {
  transition_status : TournamentMatchId → TournamentMatchStatus.t → TransitionTrigger.t →
    option string → M TournamentMatch.t;
}.
(** [MatchLifecycleService]'s implementation. *)
Definition lifecycle `{Platform} : t := mk _ transition.
End MatchStatusTransitioner.

Definition invalid_result (e : ResultValidationError.t) : DomainError.t :=
  DomainError.InvalidMatchResult (ResultValidationError.fmt e).

(** The first map that is not in the set is the error. *)
Fixpoint check_map_ids (valid_maps : list string) (game_results : list GameResultInput.t)
    (source : MapSource.t) : outcome unit :=
  match game_results with
  | [] => Ok tt
  | game :: game_results =>
      if bool_decide (GameResultInput.map_id game ∈ valid_maps) then
        check_map_ids valid_maps game_results source
      else throw (invalid_result
        (match source with
         | MapSource.Veto => ResultValidationError.MapNotInVeto (GameResultInput.map_id game)
         | MapSource.Pool => ResultValidationError.UnknownMap (GameResultInput.map_id game)
         end))
  end.

(** ** Validation of a claimed score *)

(** [for (i, game) in game_results.iter().enumerate()]. *)
Fixpoint check_games (i : Z) (game_results : list GameResultInput.t) : outcome unit :=
  match game_results with
  | [] => Ok tt
  | game :: game_results =>
      if negb (bool_decide (GameResultInput.game_number game = as_i32 (i + 1))) then
        throw (invalid_result
          (ResultValidationError.NonSequentialGameNumber (GameResultInput.game_number game)))
      else if bool_decide (GameResultInput.participant1_score game =
                           GameResultInput.participant2_score game) then
        throw (invalid_result ResultValidationError.TiedGame)
      else check_games (i + 1) game_results
  end.

(** [.filter(|g| g.participant1_score > g.participant2_score).count() as i32]. *)
Definition p1_games (game_results : list GameResultInput.t) : Z :=
  as_i32 (Z.of_nat (length (filter (λ g,
    GameResultInput.participant1_score g > GameResultInput.participant2_score g) game_results))).

(** [validate_claim] up to its look-up of the maps. *)
Definition validate_scores (match_ : TournamentMatch.t)
    (claimed_winner : TournamentRegistrationId) (participant1_score participant2_score : Z)
    (game_results : list GameResultInput.t) : outcome unit :=
  if bool_decide (participant1_score < 0) || bool_decide (participant2_score < 0) then
    throw (invalid_result ResultValidationError.NegativeScore)
  else
    let p1_wins :=
      bool_decide (TournamentMatch.participant1_registration_id match_ = Some claimed_winner) in
    let is_participant := p1_wins ||
      bool_decide (TournamentMatch.participant2_registration_id match_ = Some claimed_winner) in
    if negb is_participant then throw (invalid_result ResultValidationError.InvalidWinner)
    else if p1_wins && bool_decide (participant1_score ≤ participant2_score) then
      throw (invalid_result ResultValidationError.ScoreWinnerMismatch)
    else if negb p1_wins && bool_decide (participant2_score ≤ participant1_score) then
      throw (invalid_result ResultValidationError.ScoreWinnerMismatch)
    else
      let wins_required := MatchFormat.wins_required (TournamentMatch.match_format match_) in
      let expected_games := i32_add participant1_score participant2_score in
      let min_games := wins_required in
      let max_games := i32_sub (i32_mul wins_required 2) 1 in
      if bool_decide (expected_games < min_games) || bool_decide (expected_games > max_games) then
        throw (invalid_result
          (ResultValidationError.InsufficientGames (as_u32 wins_required) (as_u32 expected_games)))
      else if bool_decide (game_results = []) then Ok tt
      else if negb (bool_decide (Z.of_nat (length game_results) = expected_games `mod` 2 ^ 64)) then
        throw (invalid_result ResultValidationError.GameScoresMismatch)
      else
        let? _ := check_games 0 game_results in
        let p1_game_wins := p1_games game_results in
        let p2_game_wins := i32_sub (as_i32 (Z.of_nat (length game_results))) p1_game_wins in
        if negb (bool_decide (p1_game_wins = participant1_score)) ||
           negb (bool_decide (p2_game_wins = participant2_score)) then
          throw (invalid_result ResultValidationError.GameScoresMismatch)
        else Ok tt.

Definition convert_game_result (match_ : TournamentMatch.t) (input : GameResultInput.t)
    : outcome GameResult.t :=
  let p1_won := bool_decide (GameResultInput.participant1_score input >
                             GameResultInput.participant2_score input) in
  let? game_winner := ok_or
    (if p1_won then TournamentMatch.participant1_registration_id match_
     else TournamentMatch.participant2_registration_id match_)
    (Error (DomainError.InvalidState "Participant not found")) in
  Ok {| GameResult.game_number := GameResultInput.game_number input;
        GameResult.map_id := GameResultInput.map_id input;
        GameResult.participant1_score := GameResultInput.participant1_score input;
        GameResult.participant2_score := GameResultInput.participant2_score input;
        GameResult.winner_registration_id := game_winner;
        GameResult.started_at := None;
        GameResult.completed_at := None;
        GameResult.duration_seconds := GameResultInput.duration_seconds input;
        GameResult.evidence_ids := GameResultInput.evidence_ids input;
        GameResult.demo_link_id := GameResultInput.demo_link_id input |}.

Definition convert_game_results (match_ : TournamentMatch.t) (inputs : list GameResultInput.t)
    : outcome (list GameResult.t) :=
  try_fold (λ games input, let? g := convert_game_result match_ input in Ok (games ++ [g])) [] inputs.

(** The loser recorded with [winner]: the other slot's registration. *)
Definition loser_of (match_ : TournamentMatch.t) (winner : TournamentRegistrationId)
    : option TournamentRegistrationId :=
  if bool_decide (TournamentMatch.participant1_registration_id match_ = Some winner)
  then TournamentMatch.participant2_registration_id match_
  else TournamentMatch.participant1_registration_id match_.

Module ResultService.
(** The optional collaborators and the setting; the repositories are the store's. *)
Record t `{Platform} := mk {
  adhoc_repo : option AdhocTeamRepository.t;
  map_pool_provider : option MapPoolProvider.t;
  match_transitioner : option MatchStatusTransitioner.t;
  auto_confirm_timeout_seconds : Z;
}.
#[global] Instance eta_t `{Platform} : Eta t := λ r,
  mk _ (r.(adhoc_repo)) (r.(map_pool_provider)) (r.(match_transitioner))
    (r.(auto_confirm_timeout_seconds)).

Section service.
Context `{Platform}.

Definition new : t := mk _ None None None (24 * 60 * 60).
Definition with_adhoc_repo (self : t) (repo : AdhocTeamRepository.t) : t :=
  self <| adhoc_repo := Some repo |>.
Definition with_timeout (self : t) (timeout_seconds : Z) : t :=
  self <| auto_confirm_timeout_seconds := timeout_seconds |>.
Definition with_map_pool_provider (self : t) (provider : MapPoolProvider.t) : t :=
  self <| map_pool_provider := Some provider |>.
Definition with_match_transitioner (self : t) (transitioner : MatchStatusTransitioner.t) : t :=
  self <| match_transitioner := Some transitioner |>.

Definition get_claim (id : ResultClaimId) : M ResultClaim.t :=
  let* c := ResultClaimRepository.find_by_id id in
  mlift (ok_or c (Error (DomainError.ResultClaimNotFound id))).

Definition claim_refused {A} (what : string) (claim : ResultClaim.t) : M A :=
  mthrow (DomainError.InvalidState
    ("Cannot " +:+ what +:+ " claim in " +:+ ClaimStatus.fmt (ResultClaim.status claim) +:+ " status")).

Definition validate_map_ids (self : t) (match_ : TournamentMatch.t)
    (game_results : list GameResultInput.t) : M unit :=
  if bool_decide (game_results = []) then mret tt
  else
    let* session := find_veto_session_by_match (TournamentMatch.id match_) in
    let picked :=
      match session with
      | Some session =>
          if bool_decide (VetoSession.status session = VetoStatus.Completed) then
            VetoSession.selected_maps session
          else []
      | None => []
      end in
    if negb (bool_decide (picked = [])) then
      mlift (check_map_ids picked game_results MapSource.Veto)
    else
      match map_pool_provider self with
      | None => mthrow (DomainError.Internal "No map pool provider configured for result validation")
      | Some provider =>
          let* valid_maps := mquery (MapPoolProvider.valid_map_ids provider
            (TournamentMatch.tournament_id match_) (Some (TournamentMatch.stage_id match_))) in
          if bool_decide (valid_maps = []) then
            mthrow (DomainError.InvalidMatchResult
              "No map pool is configured for this tournament, so submitted maps cannot be validated")
          else mlift (check_map_ids valid_maps game_results MapSource.Pool)
      end.

Definition validate_claim (self : t) (match_ : TournamentMatch.t)
    (claimed_winner : TournamentRegistrationId) (participant1_score participant2_score : Z)
    (game_results : list GameResultInput.t) : M unit :=
  let* _ := mlift (validate_scores match_ claimed_winner participant1_score participant2_score
    game_results) in
  if bool_decide (game_results = []) then mret tt else validate_map_ids self match_ game_results.

(** [demo_link_repo.find_by_ids]. *)
Definition demo_links_by_ids (ids : list DemoMatchLinkId) (db : Db.t) : list DemoMatchLink.t :=
  filter (λ l, DemoMatchLink.id l ∈ ids) (map_to_list (Db.demo_match_links db)).*2.

Definition check_demo_links (match_id : TournamentMatchId) (demo_link_ids : list DemoMatchLinkId)
    : M unit :=
  if bool_decide (demo_link_ids = []) then mret tt
  else
    let* links := mread (demo_links_by_ids demo_link_ids) in
    let found_ids := DemoMatchLink.id <$> links in
    let* _ := mfor demo_link_ids (λ id,
      if bool_decide (id ∈ found_ids) then mret tt
      else mthrow (DomainError.DemoMatchLinkNotFound id)) in
    mfor links (λ link,
      if bool_decide (DemoMatchLink.match_id link = match_id) then mret tt
      else mthrow (DomainError.DemoNotLinkedToMatch (uuid_string (DemoMatchLink.id link))
             (uuid_string match_id))).

Definition submit_refused {A} (match_ : TournamentMatch.t) : M A :=
  mthrow (DomainError.InvalidState ("Cannot submit result for match in " +:+
    TournamentMatchStatus.fmt (TournamentMatch.status match_) +:+ " status")).

Definition submit_claim (self : t) (match_id : TournamentMatchId)
    (claimed_winner : TournamentRegistrationId) (participant1_score participant2_score : Z)
    (game_results : list GameResultInput.t) (evidence_ids : list EvidenceId)
    (demo_link_ids : list DemoMatchLinkId) (notes : option string)
    (submitted_by : RegistrationActor.t) : M ResultClaim.t :=
  let* match_ := get_match match_id in
  if negb (TournamentMatch.can_submit_result match_) then submit_refused match_
  else
    let* submitter_registration := find_actor_registration (adhoc_repo self) match_ submitted_by in
    let* _ := validate_claim self match_ claimed_winner participant1_score participant2_score
      game_results in
    let* _ := check_demo_links match_id demo_link_ids in
    let* game_results := mlift (convert_game_results match_ game_results) in
    let* now := mread Db.now in
    let auto_confirm_at := now + seconds (auto_confirm_timeout_seconds self) in
    let* claim := ResultClaimRepository.create_and_supersede_pending {|
      CreateResultClaim.match_id := match_id;
      CreateResultClaim.submitted_by_registration_id := Some submitter_registration;
      CreateResultClaim.submitted_by_user_id := Some (RegistrationActor.user_id submitted_by);
      CreateResultClaim.source := "participant";
      CreateResultClaim.claimed_winner_registration_id := claimed_winner;
      CreateResultClaim.participant1_score := participant1_score;
      CreateResultClaim.participant2_score := participant2_score;
      CreateResultClaim.game_results := game_results;
      CreateResultClaim.auto_confirm_at := auto_confirm_at;
      CreateResultClaim.evidence_ids := evidence_ids;
      CreateResultClaim.demo_link_ids := demo_link_ids;
      CreateResultClaim.notes := notes |} in
    match TournamentMatch.status match_, match_transitioner self with
    | TournamentMatchStatus.InProgress, Some transitioner =>
        let* _ := MatchStatusTransitioner.transition_status transitioner match_id
          TournamentMatchStatus.AwaitingResult (TransitionTrigger.System "result_submitted")
          (Some "Result claim submitted; awaiting opponent confirmation") in
        mret claim
    | _, _ => mret claim
    end.

Definition submit_server_claim (self : t) (match_id : TournamentMatchId)
    (claimed_winner : TournamentRegistrationId) (participant1_score participant2_score : Z)
    (game_results : list GameResultInput.t) (auto_confirm_at : DateTime) : M ResultClaim.t :=
  let* match_ := get_match match_id in
  if negb (TournamentMatch.can_submit_result match_) then submit_refused match_
  else
    let* existing := ResultClaimRepository.find_current_by_match match_id in
    let* _ :=
      (match existing with
       | Some existing =>
           if ResultClaim.is_pending existing then
             mthrow (DomainError.Conflict ("a result claim (" +:+
               uuid_string (ResultClaim.id existing) +:+ ") is already pending for this match"))
           else mret tt
       | None => mret tt
       end) in
    let* _ := validate_claim self match_ claimed_winner participant1_score participant2_score
      game_results in
    let* game_results := mlift (convert_game_results match_ game_results) in
    ResultClaimRepository.create_and_supersede_pending {|
      CreateResultClaim.match_id := match_id;
      CreateResultClaim.submitted_by_registration_id := None;
      CreateResultClaim.submitted_by_user_id := None;
      CreateResultClaim.source := "server";
      CreateResultClaim.claimed_winner_registration_id := claimed_winner;
      CreateResultClaim.participant1_score := participant1_score;
      CreateResultClaim.participant2_score := participant2_score;
      CreateResultClaim.game_results := game_results;
      CreateResultClaim.auto_confirm_at := auto_confirm_at;
      CreateResultClaim.evidence_ids := [];
      CreateResultClaim.demo_link_ids := [];
      CreateResultClaim.notes := Some "Automatically reported by the game server" |}.

Definition confirm_claim (self : t) (claim_id : ResultClaimId) (confirmed_by : RegistrationActor.t)
    : M ResultClaim.t :=
  let* claim := get_claim claim_id in
  if negb (ResultClaim.is_pending claim) then claim_refused "confirm" claim
  else
    let* match_ := get_match (ResultClaim.match_id claim) in
    let* confirmer_registration := find_actor_registration (adhoc_repo self) match_ confirmed_by in
    if bool_decide (Some confirmer_registration = ResultClaim.submitted_by_registration_id claim) then
      mthrow (DomainError.NotAuthorized "Cannot confirm your own result claim")
    else
      let* loser := mlift (ok_or
        (loser_of match_ (ResultClaim.claimed_winner_registration_id claim))
        (Error (DomainError.InvalidState "Loser participant not found"))) in
      ResultClaimRepository.confirm_and_apply_to_match claim_id confirmer_registration
        (Some (RegistrationActor.user_id confirmed_by)) false (TournamentMatch.id match_)
        (ResultClaim.claimed_winner_registration_id claim) loser
        (ResultClaim.claimed_participant1_score claim) (ResultClaim.claimed_participant2_score claim).

(** The audit row's JSON objects. *)
Definition result_snapshot (match_ : TournamentMatch.t) : Json := json_of_object
  [("participant1_score", json_of_int (TournamentMatch.participant1_score match_));
   ("participant2_score", json_of_int (TournamentMatch.participant2_score match_));
   ("winner_registration_id",
    match TournamentMatch.winner_registration_id match_ with
    | Some id => json_of_string (uuid_string id)
    | None => json_null_value
    end)].

Definition corrected_snapshot (participant1_score participant2_score : Z)
    (winner_id : TournamentRegistrationId) (reason : string) : Json := json_of_object
  [("participant1_score", json_of_int participant1_score);
   ("participant2_score", json_of_int participant2_score);
   ("winner_registration_id", json_of_string (uuid_string winner_id));
   ("reason", json_of_string reason)].

Definition override_result (match_id : TournamentMatchId)
    (participant1_score participant2_score : Z) (reason : string) (changed_by : PlayerId)
    (request_id : option string) : M TournamentMatch.t :=
  let* match_ := get_match match_id in
  if bool_decide (TournamentMatch.winner_registration_id match_ = None) then
    mthrow (DomainError.InvalidState "Match has no recorded result to correct")
  else
    let* (winner_id, loser_id) :=
      mlift (derive_result_outcome match_ participant1_score participant2_score) in
    override_result_audited match_id participant1_score participant2_score winner_id loser_id
      {| CreateEntityChange.entity_type := MATCH_RESULT_OVERRIDE_ENTITY;
         CreateEntityChange.entity_id := match_id;
         CreateEntityChange.change_type := ChangeType.Update;
         CreateEntityChange.field_name := Some MATCH_RESULT_OVERRIDE_FIELD;
         CreateEntityChange.old_value := Some (result_snapshot match_);
         CreateEntityChange.new_value :=
           Some (corrected_snapshot participant1_score participant2_score winner_id reason);
         CreateEntityChange.changed_by := changed_by;
         CreateEntityChange.request_id := request_id;
         CreateEntityChange.ip_address := None;
         CreateEntityChange.user_agent := None |}.

Definition authorize_claim_dispute (self : t) (claim_id : ResultClaimId)
    (disputed_by : RegistrationActor.t) : M (ResultClaim.t * TournamentRegistrationId) :=
  let* claim := get_claim claim_id in
  if negb (ResultClaim.is_pending claim) then claim_refused "dispute" claim
  else
    let* match_ := get_match (ResultClaim.match_id claim) in
    let* disputer_registration := find_actor_registration (adhoc_repo self) match_ disputed_by in
    if bool_decide (Some disputer_registration = ResultClaim.submitted_by_registration_id claim) then
      mthrow (DomainError.NotAuthorized "Cannot dispute your own result claim")
    else mret (claim, disputer_registration).

Definition cancel_claim (claim_id : ResultClaimId) (cancelled_by_user : UserId) : M ResultClaim.t :=
  let* claim := get_claim claim_id in
  if negb (ResultClaim.is_pending claim) then claim_refused "cancel" claim
  else if negb (bool_decide (ResultClaim.submitted_by_user_id claim = Some cancelled_by_user)) then
    mthrow (DomainError.NotAuthorized "Only the submitter can cancel their own claim")
  else ResultClaimRepository.update_status claim_id ClaimStatus.Cancelled.

Definition auto_confirm_claim (claim : ResultClaim.t) : M ResultClaim.t :=
  let* match_ := get_match (ResultClaim.match_id claim) in
  let reference := default (ResultClaim.claimed_winner_registration_id claim)
    (ResultClaim.submitted_by_registration_id claim) in
  let* opponent := mlift (ok_or (loser_of match_ reference)
    (Error (DomainError.InvalidState "Opponent not found"))) in
  let* loser := mlift (ok_or (loser_of match_ (ResultClaim.claimed_winner_registration_id claim))
    (Error (DomainError.InvalidState "Loser participant not found"))) in
  ResultClaimRepository.confirm_and_apply_to_match (ResultClaim.id claim) opponent
    (ResultClaim.submitted_by_user_id claim) true (TournamentMatch.id match_)
    (ResultClaim.claimed_winner_registration_id claim) loser
    (ResultClaim.claimed_participant1_score claim) (ResultClaim.claimed_participant2_score claim).

(** A claim that fails is skipped. *)
Fixpoint auto_confirm_all (claims : list ResultClaim.t) : M (list ResultClaim.t) :=
  match claims with
  | [] => mret []
  | claim :: claims =>
      let* r := mtry (auto_confirm_claim claim) in
      let* confirmed := auto_confirm_all claims in
      mret (match r with Ok c => c :: confirmed | Err _ => confirmed end)
  end.

Definition process_auto_confirmations : M (list ResultClaim.t) :=
  let* claims := ResultClaimRepository.find_ready_for_auto_confirm in
  auto_confirm_all claims.

Definition get_current_claim (match_id : TournamentMatchId) : M (option ResultClaim.t) :=
  ResultClaimRepository.find_current_by_match match_id.
Definition get_claim_by_id (claim_id : ResultClaimId) : M ResultClaim.t := get_claim claim_id.
Definition get_claim_history (match_id : TournamentMatchId) : M (list ResultClaim.t) :=
  ResultClaimRepository.list_by_match match_id.
End service.
End ResultService.
