(* ===== verification/Scheduling.v ===== *)
(** [SchedulingService]
    (crates/portal-domain/src/services/tournament/scheduling.rs): the sides of a
    match agree on its time by proposals, or an administrator sets it; over the
    statements of crates/portal-db/src/adapters/tournament/schedule_proposal.rs
    (constraints: migrations/0032_schedule_proposals.sql). *)
From stdpp Require Import base list strings gmap.
From S2P Require Import Prelude Errors Wire TournamentTypes Entities FormatPlan Rows.
From S2P Require Import ScheduleModel Store TournamentStore Lifecycle Actor Results.
#[local] Open Scope Z_scope.

(** The derived [Debug]. *)
Definition match_status_debug (s : TournamentMatchStatus.t) : string :=
  match s with
  | TournamentMatchStatus.Pending => "Pending"
  | TournamentMatchStatus.Ready => "Ready"
  | TournamentMatchStatus.Scheduled => "Scheduled"
  | TournamentMatchStatus.CheckingIn => "CheckingIn"
  | TournamentMatchStatus.PickBan => "PickBan"
  | TournamentMatchStatus.InProgress => "InProgress"
  | TournamentMatchStatus.AwaitingResult => "AwaitingResult"
  | TournamentMatchStatus.Completed => "Completed"
  | TournamentMatchStatus.Cancelled => "Cancelled"
  | TournamentMatchStatus.Forfeit => "Forfeit"
  | TournamentMatchStatus.Disputed => "Disputed"
  end.

Definition proposal_status_debug (s : ProposalStatus.t) : string :=
  match s with
  | ProposalStatus.Pending => "Pending"
  | ProposalStatus.Accepted => "Accepted"
  | ProposalStatus.Rejected => "Rejected"
  | ProposalStatus.CounterProposed => "CounterProposed"
  | ProposalStatus.Expired => "Expired"
  | ProposalStatus.Cancelled => "Cancelled"
  end.

Definition bool_fmt (b : bool) : string := if b then "true" else "false".

(** ** Proposals *)

Module ScheduleProposalRepository.
Section repository.
Context `{Platform}.

Definition db_error {A} (message : string) : M A :=
  mthrow (DomainError.Internal ("Schedule proposal database error: " +:+ message)).

Definition inserted (id : ScheduleProposalId) (now : DateTime) (command : CreateScheduleProposalCommand.t)
    : ScheduleProposal.t := {|
  ScheduleProposal.id := id;
  ScheduleProposal.match_id := CreateScheduleProposalCommand.match_id command;
  ScheduleProposal.proposed_by_registration_id :=
    CreateScheduleProposalCommand.proposed_by_registration_id command;
  ScheduleProposal.proposed_by_user_id := CreateScheduleProposalCommand.proposed_by_user_id command;
  ScheduleProposal.proposed_times := CreateScheduleProposalCommand.proposed_times command;
  ScheduleProposal.selected_time := None;
  ScheduleProposal.responded_at := None;
  ScheduleProposal.responded_by_user_id := None;
  ScheduleProposal.counter_proposal_id := None;
  ScheduleProposal.status := ProposalStatus.Pending;
  ScheduleProposal.expires_at := CreateScheduleProposalCommand.expires_at command;
  ScheduleProposal.notes := CreateScheduleProposalCommand.notes command;
  ScheduleProposal.rejection_reason := None;
  ScheduleProposal.created_at := now;
  ScheduleProposal.updated_at := now |}.

(** [schedule_proposals_check_times]; of an empty array [array_length] is null,
    and a check that is null passes. *)
Definition times_allowed (times : list DateTime) : bool :=
  bool_decide (length times ≤ 5)%nat.

Definition create (command : CreateScheduleProposalCommand.t) : M ScheduleProposal.t := λ db,
  if negb (times_allowed (CreateScheduleProposalCommand.proposed_times command))
  then db_error (constraint_violation "schedule_proposals_check_times") db
  else
    let p := inserted (Db.next_uuid db) (Db.now db) command in
    (Ok p, db <| Db.next_uuid := N.succ (Db.next_uuid db) |>
              <| Db.schedule_proposals := <[ScheduleProposal.id p := p]> (Db.schedule_proposals db) |>).

Definition find_by_id (id : ScheduleProposalId) : M (option ScheduleProposal.t) :=
  mread (λ db, Db.schedule_proposals db !! id).

(** [ORDER BY created_at DESC]. *)
Definition newer (a b : ScheduleProposal.t) : bool :=
  bool_decide (ScheduleProposal.created_at b ≤ ScheduleProposal.created_at a).

Definition proposals_of (match_id : TournamentMatchId) (db : Db.t) : list ScheduleProposal.t :=
  stable_sort newer (rows_where (λ p, bool_decide (ScheduleProposal.match_id p = match_id))
    (Db.schedule_proposals db)).

Definition find_by_match_id (match_id : TournamentMatchId) : M (list ScheduleProposal.t) :=
  mread (proposals_of match_id).

Definition is_pending (p : ScheduleProposal.t) : bool :=
  bool_decide (ScheduleProposal.status p = ProposalStatus.Pending).

Definition find_pending_by_match_id (match_id : TournamentMatchId) : M (option ScheduleProposal.t) :=
  mread (λ db, head (filter (λ p, is_pending p = true) (proposals_of match_id db))).

(** [UPDATE .. RETURNING *], [fetch_one]; a trigger stamps [updated_at]. *)
Definition update_row (id : ScheduleProposalId) (where_ : ScheduleProposal.t → bool)
    (set : ScheduleProposal.t → ScheduleProposal.t) : M ScheduleProposal.t := λ db,
  match Db.schedule_proposals db !! id with
  | Some p =>
      if where_ p then
        let p := (set p) <| ScheduleProposal.updated_at := Db.now db |> in
        (Ok p, db <| Db.schedule_proposals := <[id := p]> (Db.schedule_proposals db) |>)
      else db_error row_not_found db
  | None => db_error row_not_found db
  end.

(** The columns the statement writes; the others stay. *)
Definition set_answer (proposal p : ScheduleProposal.t) : ScheduleProposal.t :=
  p <| ScheduleProposal.selected_time := ScheduleProposal.selected_time proposal |>
    <| ScheduleProposal.responded_at := ScheduleProposal.responded_at proposal |>
    <| ScheduleProposal.responded_by_user_id := ScheduleProposal.responded_by_user_id proposal |>
    <| ScheduleProposal.counter_proposal_id := ScheduleProposal.counter_proposal_id proposal |>
    <| ScheduleProposal.status := ScheduleProposal.status proposal |>
    <| ScheduleProposal.notes := ScheduleProposal.notes proposal |>
    <| ScheduleProposal.rejection_reason := ScheduleProposal.rejection_reason proposal |>.

Definition update (proposal : ScheduleProposal.t) : M ScheduleProposal.t :=
  update_row (ScheduleProposal.id proposal) (λ _, true) (set_answer proposal).

(** [ORDER BY expires_at ASC]. *)
Definition sooner (a b : ScheduleProposal.t) : bool :=
  bool_decide (ScheduleProposal.expires_at a ≤ ScheduleProposal.expires_at b).

Definition find_expired (before : DateTime) : M (list ScheduleProposal.t) :=
  mread (λ db, stable_sort sooner (rows_where
    (λ p, is_pending p && bool_decide (ScheduleProposal.expires_at p < before)) (Db.schedule_proposals db))).

Definition mark_expired (id : ScheduleProposalId) : M ScheduleProposal.t :=
  update_row id is_pending (λ p, p <| ScheduleProposal.status := ProposalStatus.Expired |>).
End repository.
End ScheduleProposalRepository.

(** [UpdateTournamentMatch { scheduled_at: Some(..), ..Default::default() }] through
    [UPDATE tournament_matches SET scheduled_at = COALESCE($2, scheduled_at), ..]. *)
Definition update_scheduled_at `{Platform} (id : TournamentMatchId) (scheduled_at : DateTime)
    : M TournamentMatch.t :=
  update_match id (λ now m,
    m <| TournamentMatch.scheduled_at := Some scheduled_at |> <| TournamentMatch.updated_at := now |>).

Module SchedulingService.
Section service.
Context `{Platform}.

Record t := mk {
  proposal_ttl : Z;
  match_transitioner : option MatchStatusTransitioner.t;
  adhoc_repo : option AdhocTeamRepository.t;
}.
Definition DEFAULT_PROPOSAL_TTL_HOURS : Z := 48.
Definition new : t := mk (minutes (60 * DEFAULT_PROPOSAL_TTL_HOURS)) None None.
Definition with_adhoc_repo (repo : AdhocTeamRepository.t) (self : t) : t :=
  mk (proposal_ttl self) (match_transitioner self) (Some repo).
Definition with_proposal_ttl (ttl : Z) (self : t) : t :=
  mk ttl (match_transitioner self) (adhoc_repo self).
Definition with_match_transitioner (transitioner : MatchStatusTransitioner.t) (self : t) : t :=
  mk (proposal_ttl self) (Some transitioner) (adhoc_repo self).

Definition find_match (match_id : TournamentMatchId) : M TournamentMatch.t :=
  let* m := find_match_by_id match_id in
  mlift (ok_or m (Error (DomainError.TournamentMatchNotFound match_id))).

Definition find_proposal (id : ScheduleProposalId) : M ScheduleProposal.t :=
  let* p := ScheduleProposalRepository.find_by_id id in
  mlift (ok_or p (Error (DomainError.LookupFailed "ScheduleProposal" (uuid_string id)))).

Definition require_schedulable (match_id : TournamentMatchId) (m : TournamentMatch.t) : outcome unit :=
  if TournamentMatchStatus.can_schedule (TournamentMatch.status m) then Ok tt
  else throw (DomainError.InvalidState ("Match " +:+ uuid_string match_id
         +:+ " cannot be scheduled in status " +:+ match_status_debug (TournamentMatch.status m))).

(** One to five times, all of them to come. *)
Definition check_times (now : DateTime) (proposed_times : list DateTime) : outcome unit :=
  if bool_decide (proposed_times = []) || bool_decide (5 < length proposed_times)%nat
  then throw (DomainError.InvalidState "Must propose 1-5 time slots")
  else if existsb (λ time, bool_decide (time ≤ now)) proposed_times
  then throw (DomainError.InvalidState "Proposed times must be in the future")
  else Ok tt.

Definition validate_responder_is_opponent (self : t) (responder : RegistrationActor.t)
    (proposal : ScheduleProposal.t) (tournament_match : TournamentMatch.t) : M unit :=
  if bool_decide (RegistrationActor.user_id responder = ScheduleProposal.proposed_by_user_id proposal)
  then mthrow (DomainError.NotAuthorized "Cannot respond to your own proposal")
  else
    let* responder_registration := find_actor_registration (adhoc_repo self) tournament_match responder in
    if bool_decide (responder_registration = ScheduleProposal.proposed_by_registration_id proposal)
    then mthrow (DomainError.NotAuthorized "Cannot respond to your own team's proposal")
    else mret tt.

Definition propose_schedule (self : t) (match_id : TournamentMatchId) (proposed_times : list DateTime)
    (proposed_by : RegistrationActor.t) (notes : option string) : M ScheduleProposal.t :=
  let* tournament_match := find_match match_id in
  let* _ := mlift (require_schedulable match_id tournament_match) in
  let* now := mread Db.now in
  let* _ := mlift (check_times now proposed_times) in
  let* pending := ScheduleProposalRepository.find_pending_by_match_id match_id in
  match pending with
  | Some existing =>
      mthrow (DomainError.Conflict ("Match " +:+ uuid_string match_id
        +:+ " already has a pending proposal: " +:+ uuid_string (ScheduleProposal.id existing)))
  | None =>
      let* registration_id := find_actor_registration (adhoc_repo self) tournament_match proposed_by in
      ScheduleProposalRepository.create {|
        CreateScheduleProposalCommand.match_id := match_id;
        CreateScheduleProposalCommand.proposed_by_registration_id := registration_id;
        CreateScheduleProposalCommand.proposed_by_user_id := RegistrationActor.user_id proposed_by;
        CreateScheduleProposalCommand.proposed_times := proposed_times;
        CreateScheduleProposalCommand.expires_at := now + proposal_ttl self;
        CreateScheduleProposalCommand.notes := notes |}
  end.

(** The answer of a side: who and when. *)
Definition answered (status : ProposalStatus.t) (user_id : UserId) (now : DateTime)
    (p : ScheduleProposal.t) : ScheduleProposal.t :=
  p <| ScheduleProposal.status := status |>
    <| ScheduleProposal.responded_at := Some now |>
    <| ScheduleProposal.responded_by_user_id := Some user_id |>.

Definition accept_proposal (self : t) (proposal_id : ScheduleProposalId) (selected_time : DateTime)
    (accepted_by : RegistrationActor.t) : M (ScheduleProposal.t * TournamentMatch.t) :=
  let* proposal := find_proposal proposal_id in
  let* now := mread Db.now in
  if negb (ScheduleProposal.can_respond now proposal) then
    mthrow (DomainError.InvalidState ("Proposal " +:+ uuid_string (ScheduleProposal.id proposal)
      +:+ " cannot be responded to (status: " +:+ proposal_status_debug (ScheduleProposal.status proposal)
      +:+ ", expired: " +:+ bool_fmt (ScheduleProposal.is_expired now proposal) +:+ ")"))
  else if negb (ScheduleProposal.contains_time proposal selected_time) then
    mthrow (DomainError.InvalidState ("Selected time " +:+ datetime_debug selected_time
      +:+ " is not one of the proposed times"))
  else
    let* tournament_match := find_match (ScheduleProposal.match_id proposal) in
    let* _ := validate_responder_is_opponent self accepted_by proposal tournament_match in
    let* updated_proposal := ScheduleProposalRepository.update
      ((answered ProposalStatus.Accepted (RegistrationActor.user_id accepted_by) now proposal)
         <| ScheduleProposal.selected_time := Some selected_time |>) in
    let* _ := update_scheduled_at (ScheduleProposal.match_id proposal) selected_time in
    let* updated_match := update_status (ScheduleProposal.match_id proposal) TournamentMatchStatus.Scheduled in
    mret (updated_proposal, updated_match).

Definition reject_proposal (self : t) (proposal_id : ScheduleProposalId) (rejected_by : RegistrationActor.t)
    (reason : option string) : M ScheduleProposal.t :=
  let* proposal := find_proposal proposal_id in
  let* now := mread Db.now in
  if negb (ScheduleProposal.can_respond now proposal) then
    mthrow (DomainError.InvalidState ("Proposal " +:+ uuid_string (ScheduleProposal.id proposal)
      +:+ " cannot be rejected"))
  else
    let* tournament_match := find_match (ScheduleProposal.match_id proposal) in
    let* _ := validate_responder_is_opponent self rejected_by proposal tournament_match in
    ScheduleProposalRepository.update
      ((answered ProposalStatus.Rejected (RegistrationActor.user_id rejected_by) now proposal)
         <| ScheduleProposal.rejection_reason := reason |>).

Definition cancel_proposal (command : CancelProposalCommand.t) : M ScheduleProposal.t :=
  let* proposal := find_proposal (CancelProposalCommand.proposal_id command) in
  if negb (bool_decide (ScheduleProposal.match_id proposal = CancelProposalCommand.match_id command))
  then mthrow (DomainError.TournamentMatchNotFound (CancelProposalCommand.match_id command))
  else if negb (bool_decide (ScheduleProposal.proposed_by_user_id proposal =
                             CancelProposalCommand.cancelled_by_user_id command))
  then mthrow (DomainError.NotAuthorized "Only the proposer can withdraw this proposal")
  else if negb (bool_decide (ScheduleProposal.status proposal = ProposalStatus.Pending))
  then mthrow (DomainError.InvalidState ("Proposal " +:+ uuid_string (ScheduleProposal.id proposal)
         +:+ " cannot be withdrawn (status: " +:+ proposal_status_debug (ScheduleProposal.status proposal)
         +:+ ")"))
  else
    let* now := mread Db.now in
    ScheduleProposalRepository.update
      (answered ProposalStatus.Cancelled (CancelProposalCommand.cancelled_by_user_id command) now proposal).

(** [CounterProposeCommand]: the side and the expiry are the caller's. *)
Definition counter_propose (self : t) (original_proposal_id : ScheduleProposalId)
    (match_id : TournamentMatchId) (proposed_by_registration_id : TournamentRegistrationId)
    (proposed_by : RegistrationActor.t) (proposed_times : list DateTime) (expires_at : DateTime)
    (notes : option string) : M ScheduleProposal.t :=
  let* original_proposal := find_proposal original_proposal_id in
  let* now := mread Db.now in
  if negb (ScheduleProposal.can_respond now original_proposal) then
    mthrow (DomainError.InvalidState ("Proposal " +:+ uuid_string (ScheduleProposal.id original_proposal)
      +:+ " cannot be counter-proposed"))
  else
    let* _ := mlift (check_times now proposed_times) in
    let* tournament_match := find_match match_id in
    let* _ := validate_responder_is_opponent self proposed_by original_proposal tournament_match in
    let* new_proposal := ScheduleProposalRepository.create
      (CreateScheduleProposalCommand.mk match_id proposed_by_registration_id
         (RegistrationActor.user_id proposed_by) proposed_times expires_at notes) in
    let* _ := ScheduleProposalRepository.update
      ((answered ProposalStatus.CounterProposed (RegistrationActor.user_id proposed_by) now original_proposal)
         <| ScheduleProposal.counter_proposal_id := Some (ScheduleProposal.id new_proposal) |>) in
    mret new_proposal.

Definition admin_schedule (self : t) (match_id : TournamentMatchId) (scheduled_at : DateTime)
    (admin_id : UserId) (notes : option string) : M TournamentMatch.t :=
  let* tournament_match := find_match match_id in
  let* _ := mlift (require_schedulable match_id tournament_match) in
  let* pending := ScheduleProposalRepository.find_pending_by_match_id match_id in
  let* _ := match pending with
    | Some pending =>
        let* _ := ScheduleProposalRepository.update
                    (pending <| ScheduleProposal.status := ProposalStatus.Cancelled |>) in mret tt
    | None => mret tt
    end in
  let* _ := update_scheduled_at match_id scheduled_at in
  match match_transitioner self with
  | Some transitioner =>
      MatchStatusTransitioner.transition_status transitioner match_id TournamentMatchStatus.Scheduled
        (TransitionTrigger.Admin admin_id (default "Admin set the match time directly" notes)) notes
  | None => update_status match_id TournamentMatchStatus.Scheduled
  end.

(** The loop over the proposals that ran out. *)
Fixpoint expire_all (expired : list ScheduleProposal.t) : M (list ScheduleProposal.t) :=
  match expired with
  | [] => mret []
  | proposal :: expired =>
      let* updated := ScheduleProposalRepository.mark_expired (ScheduleProposal.id proposal) in
      let* results := expire_all expired in
      mret (updated :: results)
  end.

Definition expire_proposals : M (list ScheduleProposal.t) :=
  let* now := mread Db.now in
  let* expired := ScheduleProposalRepository.find_expired now in
  expire_all expired.

Definition get_active_proposal (match_id : TournamentMatchId) : M (option ScheduleProposal.t) :=
  ScheduleProposalRepository.find_pending_by_match_id match_id.
Definition get_proposal_history (match_id : TournamentMatchId) : M (list ScheduleProposal.t) :=
  ScheduleProposalRepository.find_by_match_id match_id.
Definition get_match (match_id : TournamentMatchId) : M (option TournamentMatch.t) :=
  find_match_by_id match_id.
End service.
End SchedulingService.
