(* ===== verification/Availability.v ===== *)
(** [AvailabilityService]
    (crates/portal-domain/src/services/tournament/availability.rs): weekly windows
    and one-time overrides, the free slots of a date, and the times both sides of
    a match could play; over the statements of
    crates/portal-db/src/adapters/availability.rs (constraints:
    migrations/0033_availability.sql). *)
From stdpp Require Import base list strings gmap.
From S2P Require Import Prelude Errors Wire TournamentTypes Entities FormatPlan Rows.
From S2P Require Import ScheduleModel Store TournamentStore Scheduling.
#[local] Open Scope Z_scope.

(** ** The tables *)

Section tables.
Context `{Platform}.

Definition availability_error {A} (message : string) : M A :=
  mthrow (DomainError.Internal ("Database error: " +:+ message)).

(** [DELETE .. WHERE P]: how many rows went. *)
Definition delete_rows {A} (table : Db.t → gmap N A) (put : gmap N A → Db.t → Db.t)
    (P : A → bool) : M Z := λ db,
  (Ok (Z.of_nat (length (rows_where P (table db)))), put (filter (λ kr, P kr.2 = false) (table db)) db).
End tables.

Module AvailabilityWindowRepository.
Section repository.
Context `{Platform}.

Definition put (rows : gmap N AvailabilityWindow.t) (db : Db.t) : Db.t :=
  db <| Db.availability_windows := rows |>.

Definition find_by_id (id : AvailabilityWindowId) : M (option AvailabilityWindow.t) :=
  mread (λ db, Db.availability_windows db !! id).

(** [ORDER BY start_time], [ORDER BY day_of_week, start_time]. *)
Definition earlier (a b : AvailabilityWindow.t) : bool :=
  bool_decide (AvailabilityWindow.start_time a ≤ AvailabilityWindow.start_time b).
Definition earlier_in_week (a b : AvailabilityWindow.t) : bool :=
  bool_decide (AvailabilityWindow.day_of_week a < AvailabilityWindow.day_of_week b ∨
    (AvailabilityWindow.day_of_week a = AvailabilityWindow.day_of_week b ∧
     AvailabilityWindow.start_time a ≤ AvailabilityWindow.start_time b)).

Definition of_player (player_id : PlayerId) (w : AvailabilityWindow.t) : bool :=
  bool_decide (AvailabilityWindow.player_id w = Some player_id).
Definition of_registration (registration_id : TournamentRegistrationId) (w : AvailabilityWindow.t) : bool :=
  bool_decide (AvailabilityWindow.registration_id w = Some registration_id).

Definition find_by_player_id (player_id : PlayerId) : M (list AvailabilityWindow.t) :=
  mread (λ db, stable_sort earlier_in_week (rows_where (of_player player_id) (Db.availability_windows db))).
Definition find_by_registration_id (registration_id : TournamentRegistrationId)
    : M (list AvailabilityWindow.t) :=
  mread (λ db, stable_sort earlier_in_week
    (rows_where (of_registration registration_id) (Db.availability_windows db))).

Definition on_day (owner : AvailabilityWindow.t → bool) (day_of_week : Z) (db : Db.t)
    : list AvailabilityWindow.t :=
  stable_sort earlier (rows_where
    (λ w, owner w && bool_decide (AvailabilityWindow.day_of_week w = day_of_week))
    (Db.availability_windows db)).
Definition find_by_player_and_day (player_id : PlayerId) (day_of_week : Z) : M (list AvailabilityWindow.t) :=
  mread (on_day (of_player player_id) day_of_week).
Definition find_by_registration_and_day (registration_id : TournamentRegistrationId) (day_of_week : Z)
    : M (list AvailabilityWindow.t) :=
  mread (on_day (of_registration registration_id) day_of_week).

Definition inserted (id : AvailabilityWindowId) (now : DateTime) (command : CreateAvailabilityWindow.t)
    : AvailabilityWindow.t := {|
  AvailabilityWindow.id := id;
  AvailabilityWindow.player_id := CreateAvailabilityWindow.player_id command;
  AvailabilityWindow.registration_id := CreateAvailabilityWindow.registration_id command;
  AvailabilityWindow.day_of_week := CreateAvailabilityWindow.day_of_week command;
  AvailabilityWindow.start_time := CreateAvailabilityWindow.start_time command;
  AvailabilityWindow.end_time := CreateAvailabilityWindow.end_time command;
  AvailabilityWindow.timezone := CreateAvailabilityWindow.timezone command;
  AvailabilityWindow.is_preferred := CreateAvailabilityWindow.is_preferred command;
  AvailabilityWindow.notes := CreateAvailabilityWindow.notes command;
  AvailabilityWindow.created_at := now;
  AvailabilityWindow.updated_at := now |}.

(** The unique indexes: a null never equals another. *)
Definition same_slot (a b : AvailabilityWindow.t) : bool :=
  bool_decide (AvailabilityWindow.day_of_week a = AvailabilityWindow.day_of_week b)
  && bool_decide (AvailabilityWindow.start_time a = AvailabilityWindow.start_time b)
  && bool_decide (AvailabilityWindow.end_time a = AvailabilityWindow.end_time b).
Definition duplicate_of (w w' : AvailabilityWindow.t) : option string :=
  if bool_decide (AvailabilityWindow.id w = AvailabilityWindow.id w') || negb (same_slot w w') then None
  else if TournamentRegistrationRepository.same_key (AvailabilityWindow.player_id w)
            (AvailabilityWindow.player_id w')
  then Some "idx_availability_unique_slot_player"
  else if TournamentRegistrationRepository.same_key (AvailabilityWindow.registration_id w)
            (AvailabilityWindow.registration_id w')
  then Some "idx_availability_unique_slot_registration"
  else None.

(** Checks in the order of their names, then the indexes. *)
Definition violated (db : Db.t) (w : AvailabilityWindow.t) : option string :=
  if bool_decide (AvailabilityWindow.player_id w = None) && bool_decide (AvailabilityWindow.registration_id w = None)
  then Some "availability_has_owner"
  else if negb (bool_decide (0 ≤ AvailabilityWindow.day_of_week w ≤ 6))
  then Some "availability_windows_day_of_week_check"
  else if negb (bool_decide (AvailabilityWindow.start_time w < AvailabilityWindow.end_time w))
  then Some "valid_time_range"
  else head (omap (duplicate_of w) (map_to_list (Db.availability_windows db)).*2).

Definition create (command : CreateAvailabilityWindow.t) : M AvailabilityWindow.t := λ db,
  let w := inserted (Db.next_uuid db) (Db.now db) command in
  match violated db w with
  | Some name => availability_error (constraint_violation name) db
  | None => (Ok w, put (<[AvailabilityWindow.id w := w]> (Db.availability_windows db))
                     (db <| Db.next_uuid := N.succ (Db.next_uuid db) |>))
  end.

(** [COALESCE($n, column)]; [flatten] makes an explicit null an absent one. *)
Definition apply_update (u : UpdateAvailabilityWindow.t) (w : AvailabilityWindow.t) : AvailabilityWindow.t :=
  w <| AvailabilityWindow.day_of_week :=
         default (AvailabilityWindow.day_of_week w) (UpdateAvailabilityWindow.day_of_week u) |>
    <| AvailabilityWindow.start_time :=
         default (AvailabilityWindow.start_time w) (UpdateAvailabilityWindow.start_time u) |>
    <| AvailabilityWindow.end_time :=
         default (AvailabilityWindow.end_time w) (UpdateAvailabilityWindow.end_time u) |>
    <| AvailabilityWindow.timezone := TournamentRepository.or_keep
         (mjoin (UpdateAvailabilityWindow.timezone u)) (AvailabilityWindow.timezone w) |>
    <| AvailabilityWindow.is_preferred :=
         default (AvailabilityWindow.is_preferred w) (UpdateAvailabilityWindow.is_preferred u) |>
    <| AvailabilityWindow.notes := TournamentRepository.or_keep
         (mjoin (UpdateAvailabilityWindow.notes u)) (AvailabilityWindow.notes w) |>.

Definition update (id : AvailabilityWindowId) (u : UpdateAvailabilityWindow.t) : M AvailabilityWindow.t := λ db,
  match Db.availability_windows db !! id with
  | None => availability_error row_not_found db
  | Some w =>
      let w := (apply_update u w) <| AvailabilityWindow.updated_at := Db.now db |> in
      match violated db w with
      | Some name => availability_error (constraint_violation name) db
      | None => (Ok w, put (<[id := w]> (Db.availability_windows db)) db)
      end
  end.

Definition delete (id : AvailabilityWindowId) : M bool := λ db,
  (Ok (bool_decide (is_Some (Db.availability_windows db !! id))),
   put (base.delete id (Db.availability_windows db)) db).
Definition delete_by_player_id (player_id : PlayerId) : M Z :=
  delete_rows Db.availability_windows put (of_player player_id).
Definition delete_by_registration_id (registration_id : TournamentRegistrationId) : M Z :=
  delete_rows Db.availability_windows put (of_registration registration_id).

(** [player_id = $1] is not true of a null. *)
Definition exists_ (player_id : option PlayerId) (registration_id : option TournamentRegistrationId)
    (day_of_week : Z) (start_time end_time : NaiveTime) : M bool :=
  mread (λ db, existsb (λ w,
    (TournamentRegistrationRepository.same_key (AvailabilityWindow.player_id w) player_id
     || TournamentRegistrationRepository.same_key (AvailabilityWindow.registration_id w) registration_id)
    && bool_decide (AvailabilityWindow.day_of_week w = day_of_week)
    && bool_decide (AvailabilityWindow.start_time w = start_time)
    && bool_decide (AvailabilityWindow.end_time w = end_time))
    (map_to_list (Db.availability_windows db)).*2).
End repository.
End AvailabilityWindowRepository.

Module AvailabilityOverrideRepository.
Section repository.
Context `{Platform}.

Definition put (rows : gmap N AvailabilityOverride.t) (db : Db.t) : Db.t :=
  db <| Db.availability_overrides := rows |>.

Definition find_by_id (id : AvailabilityExceptionId) : M (option AvailabilityOverride.t) :=
  mread (λ db, Db.availability_overrides db !! id).

(** [ORDER BY override_date]. *)
Definition earlier (a b : AvailabilityOverride.t) : bool :=
  bool_decide (AvailabilityOverride.override_date a ≤ AvailabilityOverride.override_date b).

Definition of_player (player_id : PlayerId) (o : AvailabilityOverride.t) : bool :=
  bool_decide (AvailabilityOverride.player_id o = Some player_id).
Definition of_registration (registration_id : TournamentRegistrationId) (o : AvailabilityOverride.t) : bool :=
  bool_decide (AvailabilityOverride.registration_id o = Some registration_id).

Definition overrides_of (P : AvailabilityOverride.t → bool) (db : Db.t) : list AvailabilityOverride.t :=
  stable_sort earlier (rows_where P (Db.availability_overrides db)).

Definition find_by_player_id (player_id : PlayerId) : M (list AvailabilityOverride.t) :=
  mread (overrides_of (of_player player_id)).
Definition find_by_registration_id (registration_id : TournamentRegistrationId)
    : M (list AvailabilityOverride.t) := mread (overrides_of (of_registration registration_id)).

(** [override_date BETWEEN $2 AND $3]. *)
Definition between (start_date end_date : NaiveDate) (o : AvailabilityOverride.t) : bool :=
  bool_decide (start_date ≤ AvailabilityOverride.override_date o)
  && bool_decide (AvailabilityOverride.override_date o ≤ end_date).
Definition find_by_player_id_and_date_range (player_id : PlayerId) (start_date end_date : NaiveDate)
    : M (list AvailabilityOverride.t) :=
  mread (overrides_of (λ o, of_player player_id o && between start_date end_date o)).
Definition find_by_registration_id_and_date_range (registration_id : TournamentRegistrationId)
    (start_date end_date : NaiveDate) : M (list AvailabilityOverride.t) :=
  mread (overrides_of (λ o, of_registration registration_id o && between start_date end_date o)).

Definition inserted (id : AvailabilityExceptionId) (now : DateTime) (command : CreateAvailabilityOverride.t)
    : AvailabilityOverride.t := {|
  AvailabilityOverride.id := id;
  AvailabilityOverride.player_id := CreateAvailabilityOverride.player_id command;
  AvailabilityOverride.registration_id := CreateAvailabilityOverride.registration_id command;
  AvailabilityOverride.override_date := CreateAvailabilityOverride.override_date command;
  AvailabilityOverride.start_time := CreateAvailabilityOverride.start_time command;
  AvailabilityOverride.end_time := CreateAvailabilityOverride.end_time command;
  AvailabilityOverride.override_type := CreateAvailabilityOverride.override_type command;
  AvailabilityOverride.reason := CreateAvailabilityOverride.reason command;
  AvailabilityOverride.created_at := now;
  AvailabilityOverride.updated_at := now |}.

(** Both times or neither, in order. *)
Definition valid_range (o : AvailabilityOverride.t) : bool :=
  match AvailabilityOverride.start_time o, AvailabilityOverride.end_time o with
  | None, None => true
  | Some s, Some e => bool_decide (s < e)
  | _, _ => false
  end.
Definition violated (o : AvailabilityOverride.t) : option string :=
  if bool_decide (AvailabilityOverride.player_id o = None)
     && bool_decide (AvailabilityOverride.registration_id o = None)
  then Some "override_has_owner"
  else if negb (valid_range o) then Some "valid_override_time_range"
  else None.

Definition create (command : CreateAvailabilityOverride.t) : M AvailabilityOverride.t := λ db,
  let o := inserted (Db.next_uuid db) (Db.now db) command in
  match violated o with
  | Some name => availability_error (constraint_violation name) db
  | None => (Ok o, put (<[AvailabilityOverride.id o := o]> (Db.availability_overrides db))
                     (db <| Db.next_uuid := N.succ (Db.next_uuid db) |>))
  end.

Definition delete (id : AvailabilityExceptionId) : M bool := λ db,
  (Ok (bool_decide (is_Some (Db.availability_overrides db !! id))),
   put (base.delete id (Db.availability_overrides db)) db).
Definition delete_by_player_id (player_id : PlayerId) : M Z :=
  delete_rows Db.availability_overrides put (of_player player_id).
Definition delete_by_registration_id (registration_id : TournamentRegistrationId) : M Z :=
  delete_rows Db.availability_overrides put (of_registration registration_id).
Definition delete_expired (before_date : NaiveDate) : M Z :=
  delete_rows Db.availability_overrides put
    (λ o, bool_decide (AvailabilityOverride.override_date o < before_date)).
End repository.
End AvailabilityOverrideRepository.

Module SuggestedTimeRepository.
Section repository.
Context `{Platform}.

Definition put (rows : gmap N SuggestedTime.t) (db : Db.t) : Db.t := db <| Db.suggested_times := rows |>.

Definition find_by_id (id : SuggestedTimeId) : M (option SuggestedTime.t) :=
  mread (λ db, Db.suggested_times db !! id).

(** [ORDER BY confidence_score DESC]. *)
Definition more_confident (a b : SuggestedTime.t) : bool :=
  bool_decide (SuggestedTime.confidence_score b ≤ SuggestedTime.confidence_score a).
Definition of_match (match_id : TournamentMatchId) (s : SuggestedTime.t) : bool :=
  bool_decide (SuggestedTime.match_id s = match_id).
Definition is_suggested (s : SuggestedTime.t) : bool :=
  bool_decide (SuggestedTime.status s = SuggestionStatus.Suggested).

Definition suggestions_of (P : SuggestedTime.t → bool) (db : Db.t) : list SuggestedTime.t :=
  stable_sort more_confident (rows_where P (Db.suggested_times db)).
Definition find_by_match_id (match_id : TournamentMatchId) : M (list SuggestedTime.t) :=
  mread (suggestions_of (of_match match_id)).
Definition find_active_by_match_id (match_id : TournamentMatchId) : M (list SuggestedTime.t) :=
  mread (suggestions_of (λ s, of_match match_id s && is_suggested s)).

Definition inserted (id : SuggestedTimeId) (now : DateTime) (command : CreateSuggestedTime.t)
    : SuggestedTime.t := {|
  SuggestedTime.id := id;
  SuggestedTime.match_id := CreateSuggestedTime.match_id command;
  SuggestedTime.suggested_start := CreateSuggestedTime.suggested_start command;
  SuggestedTime.suggested_end := CreateSuggestedTime.suggested_end command;
  SuggestedTime.confidence_score := CreateSuggestedTime.confidence_score command;
  SuggestedTime.is_mutual_overlap := CreateSuggestedTime.is_mutual_overlap command;
  SuggestedTime.is_auto_generated := CreateSuggestedTime.is_auto_generated command;
  SuggestedTime.status := SuggestionStatus.Suggested;
  SuggestedTime.created_at := now;
  SuggestedTime.updated_at := now |}.

Definition violated (s : SuggestedTime.t) : option string :=
  if negb (bool_decide (0 ≤ SuggestedTime.confidence_score s ≤ 100))
  then Some "suggested_times_confidence_score_check"
  else if negb (bool_decide (SuggestedTime.suggested_start s < SuggestedTime.suggested_end s))
  then Some "valid_suggestion_range"
  else None.

Definition create (command : CreateSuggestedTime.t) : M SuggestedTime.t := λ db,
  let s := inserted (Db.next_uuid db) (Db.now db) command in
  match violated s with
  | Some name => availability_error (constraint_violation name) db
  | None => (Ok s, put (<[SuggestedTime.id s := s]> (Db.suggested_times db))
                     (db <| Db.next_uuid := N.succ (Db.next_uuid db) |>))
  end.

(** [UPDATE suggested_times SET status = .. WHERE id = $1 RETURNING *]. *)
Definition set_status (status : SuggestionStatus.t) (now : DateTime) (s : SuggestedTime.t) : SuggestedTime.t :=
  s <| SuggestedTime.status := status |> <| SuggestedTime.updated_at := now |>.
Definition update_status (status : SuggestionStatus.t) (id : SuggestedTimeId) : M SuggestedTime.t := λ db,
  match Db.suggested_times db !! id with
  | None => availability_error row_not_found db
  | Some s => let s := set_status status (Db.now db) s in
              (Ok s, put (<[id := s]> (Db.suggested_times db)) db)
  end.
Definition accept : SuggestedTimeId → M SuggestedTime.t := update_status SuggestionStatus.Accepted.
Definition reject : SuggestedTimeId → M SuggestedTime.t := update_status SuggestionStatus.Rejected.
Definition expire : SuggestedTimeId → M SuggestedTime.t := update_status SuggestionStatus.Expired.

Definition delete_by_match_id (match_id : TournamentMatchId) : M Z :=
  delete_rows Db.suggested_times put (of_match match_id).
Definition delete_auto_generated_pending (match_id : TournamentMatchId) : M Z :=
  delete_rows Db.suggested_times put
    (λ s, of_match match_id s && SuggestedTime.is_auto_generated s && is_suggested s).

Definition reject_all_pending (match_id : TournamentMatchId) : M Z := λ db,
  let pending s := of_match match_id s && is_suggested s in
  (Ok (Z.of_nat (length (rows_where pending (Db.suggested_times db)))),
   put ((λ s, if pending s then set_status SuggestionStatus.Rejected (Db.now db) s else s)
          <$> Db.suggested_times db) db).
End repository.
End SuggestedTimeRepository.

(** ** Slots *)

(** Remove a time range from a slot, potentially splitting it. *)
Definition remove_time_from_slot (slot : TimeSlot.t) (block_start block_end : NaiveTime) : list TimeSlot.t :=
  if bool_decide (block_end ≤ TimeSlot.start slot) || bool_decide (TimeSlot.end_ slot ≤ block_start) then [slot]
  else if bool_decide (block_start ≤ TimeSlot.start slot) && bool_decide (TimeSlot.end_ slot ≤ block_end) then []
  else
    (if bool_decide (TimeSlot.start slot < block_start)
     then [TimeSlot.mk (TimeSlot.start slot) block_start (TimeSlot.is_preferred slot)] else [])
    ++ (if bool_decide (block_end < TimeSlot.end_ slot)
        then [TimeSlot.mk block_end (TimeSlot.end_ slot) (TimeSlot.is_preferred slot)] else []).

Definition starts_no_later (a b : TimeSlot.t) : bool := bool_decide (TimeSlot.start a ≤ TimeSlot.start b).

(** The loop over the sorted slots: what is merged, and the [current] slot. *)
Definition merge_step (st : list TimeSlot.t * TimeSlot.t) (slot : TimeSlot.t) : list TimeSlot.t * TimeSlot.t :=
  let '(merged, current) := st in
  if bool_decide (TimeSlot.start slot ≤ TimeSlot.end_ current)
  then (merged, TimeSlot.mk (TimeSlot.start current) (TimeSlot.end_ current `max` TimeSlot.end_ slot)
                  (TimeSlot.is_preferred current && TimeSlot.is_preferred slot))
  else (merged ++ [current], slot).

Definition merge_time_slots (slots : list TimeSlot.t) : list TimeSlot.t :=
  match stable_sort starts_no_later slots with
  | [] => []
  | current :: slots =>
      let '(merged, current) := fold_left merge_step slots ([], current) in merged ++ [current]
  end.

(** [i64] arithmetic and the cast to [i32] at the end. *)
Definition as_i64 (n : Z) : Z := (n + 2 ^ 63) `mod` 2 ^ 64 - 2 ^ 63.
Definition calculate_confidence_score (is_preferred : bool) (duration_mins min_duration_mins : Z) : Z :=
  let score := if is_preferred then 50 + 20 else 50 in
  let extra_mins := as_i64 (duration_mins - min_duration_mins) in
  let score := if bool_decide (0 < extra_mins) then score + (Z.quot extra_mins 10 `min` 30) else score in
  score `min` 100.

Module AvailabilityService.
Section service.
Context `{Platform}.

Definition no_owner {A} (what : string) : M A :=
  mthrow (DomainError.InvalidState ("Availability " +:+ what +:+ " must belong to a player or registration")).
Definition bad_range {A} : M A := mthrow (DomainError.InvalidState "Start time must be before end time").

(** ** Windows *)

Definition create_window (command : CreateAvailabilityWindow.t) : M AvailabilityWindow.t :=
  if bool_decide (CreateAvailabilityWindow.player_id command = None)
     && bool_decide (CreateAvailabilityWindow.registration_id command = None)
  then no_owner "window"
  else if bool_decide (6 < CreateAvailabilityWindow.day_of_week command)
  then mthrow (DomainError.InvalidState "Day of week must be 0-6 (Sunday-Saturday)")
  else if bool_decide (CreateAvailabilityWindow.end_time command ≤ CreateAvailabilityWindow.start_time command)
  then bad_range
  else
    let* duplicate := AvailabilityWindowRepository.exists_ (CreateAvailabilityWindow.player_id command)
      (CreateAvailabilityWindow.registration_id command) (CreateAvailabilityWindow.day_of_week command)
      (CreateAvailabilityWindow.start_time command) (CreateAvailabilityWindow.end_time command) in
    if duplicate : bool
    then mthrow (DomainError.Conflict "Availability window already exists for this time slot")
    else AvailabilityWindowRepository.create command.

Definition get_window (id : AvailabilityWindowId) : M (option AvailabilityWindow.t) :=
  AvailabilityWindowRepository.find_by_id id.
Definition get_player_windows (player_id : PlayerId) : M (list AvailabilityWindow.t) :=
  AvailabilityWindowRepository.find_by_player_id player_id.
Definition get_registration_windows (registration_id : TournamentRegistrationId)
    : M (list AvailabilityWindow.t) :=
  AvailabilityWindowRepository.find_by_registration_id registration_id.

(** The range is checked when both of its ends are given. *)
Definition reversed (start_time end_time : option NaiveTime) : bool :=
  match start_time, end_time with
  | Some s, Some e => bool_decide (e ≤ s)
  | _, _ => false
  end.

Definition update_window (id : AvailabilityWindowId) (command : UpdateAvailabilityWindow.t)
    : M AvailabilityWindow.t :=
  if reversed (UpdateAvailabilityWindow.start_time command) (UpdateAvailabilityWindow.end_time command)
  then bad_range
  else AvailabilityWindowRepository.update id command.

Definition delete_window (id : AvailabilityWindowId) : M bool := AvailabilityWindowRepository.delete id.
Definition clear_player_windows (player_id : PlayerId) : M Z :=
  AvailabilityWindowRepository.delete_by_player_id player_id.
Definition clear_registration_windows (registration_id : TournamentRegistrationId) : M Z :=
  AvailabilityWindowRepository.delete_by_registration_id registration_id.

(** ** Overrides *)

Definition create_override (command : CreateAvailabilityOverride.t) : M AvailabilityOverride.t :=
  if bool_decide (CreateAvailabilityOverride.player_id command = None)
     && bool_decide (CreateAvailabilityOverride.registration_id command = None)
  then no_owner "override"
  else if reversed (CreateAvailabilityOverride.start_time command) (CreateAvailabilityOverride.end_time command)
  then bad_range
  else AvailabilityOverrideRepository.create command.

Definition get_override (id : AvailabilityExceptionId) : M (option AvailabilityOverride.t) :=
  AvailabilityOverrideRepository.find_by_id id.
Definition get_player_overrides (player_id : PlayerId) : M (list AvailabilityOverride.t) :=
  AvailabilityOverrideRepository.find_by_player_id player_id.
Definition get_registration_overrides (registration_id : TournamentRegistrationId)
    : M (list AvailabilityOverride.t) :=
  AvailabilityOverrideRepository.find_by_registration_id registration_id.
Definition get_player_overrides_in_range (player_id : PlayerId) (start_date end_date : NaiveDate)
    : M (list AvailabilityOverride.t) :=
  AvailabilityOverrideRepository.find_by_player_id_and_date_range player_id start_date end_date.
Definition delete_override (id : AvailabilityExceptionId) : M bool := AvailabilityOverrideRepository.delete id.
Definition cleanup_expired_overrides : M Z :=
  let* now := mread Db.now in
  AvailabilityOverrideRepository.delete_expired (date_naive now).

(** ** The free slots of a date *)

Definition blocks_all_day (o : AvailabilityOverride.t) : bool :=
  bool_decide (AvailabilityOverride.override_type o = OverrideType.Blocked)
  && bool_decide (AvailabilityOverride.start_time o = None)
  && bool_decide (AvailabilityOverride.end_time o = None).

Definition slot_of_window (w : AvailabilityWindow.t) : TimeSlot.t :=
  TimeSlot.mk (AvailabilityWindow.start_time w) (AvailabilityWindow.end_time w) (AvailabilityWindow.is_preferred w).

(** One override, in the loop over them. *)
Definition apply_override (slots : list TimeSlot.t) (o : AvailabilityOverride.t) : list TimeSlot.t :=
  match AvailabilityOverride.start_time o, AvailabilityOverride.end_time o with
  | Some start, Some end_ =>
      match AvailabilityOverride.override_type o with
      | OverrideType.Blocked => slots ≫= λ slot, remove_time_from_slot slot start end_
      | OverrideType.Available => slots ++ [TimeSlot.mk start end_ true]
      end
  | _, _ => slots
  end.

(** What the windows of the day and the overrides of the date leave. *)
Definition date_availability (date : NaiveDate) (windows : list AvailabilityWindow.t)
    (overrides : list AvailabilityOverride.t) : DateAvailability.t :=
  let notes := omap AvailabilityOverride.reason overrides in
  if existsb blocks_all_day overrides then DateAvailability.mk date [] true notes
  else DateAvailability.mk date
         (merge_time_slots (fold_left apply_override overrides (slot_of_window <$> windows))) false notes.

Definition get_availability_for_date (player_id : option PlayerId)
    (registration_id : option TournamentRegistrationId) (date : NaiveDate) : M DateAvailability.t :=
  let day_of_week := num_days_from_sunday date in
  match player_id, registration_id with
  | Some pid, _ =>
      let* windows := AvailabilityWindowRepository.find_by_player_and_day pid day_of_week in
      let* overrides := AvailabilityOverrideRepository.find_by_player_id_and_date_range pid date date in
      mret (date_availability date windows overrides)
  | None, Some rid =>
      let* windows := AvailabilityWindowRepository.find_by_registration_and_day rid day_of_week in
      let* overrides := AvailabilityOverrideRepository.find_by_registration_id_and_date_range rid date date in
      mret (date_availability date windows overrides)
  | None, None => mthrow (DomainError.InvalidState "Must provide player_id or registration_id")
  end.

(** ** Suggestions *)

Definition match_not_found {A} (match_id : TournamentMatchId) : M A :=
  mthrow (DomainError.TournamentMatchNotFound match_id).

Definition plays_for (user_id : UserId) (player_id : PlayerId) (reg : TournamentRegistration.t) : bool :=
  bool_decide (TournamentRegistration.registered_by reg = user_id)
  || bool_decide (TournamentRegistration.player_id reg = Some player_id).

(** The loop over the filled sides. *)
Fixpoint any_side_plays_for (user_id : UserId) (player_id : PlayerId)
    (sides : list TournamentRegistrationId) : M bool :=
  match sides with
  | [] => mret false
  | reg_id :: sides =>
      let* reg := find_registration_by_id reg_id in
      if from_option (plays_for user_id player_id) false reg then mret true
      else any_side_plays_for user_id player_id sides
  end.

Definition verify_match_participant (tournament_id : TournamentId) (match_id : TournamentMatchId)
    (user_id : UserId) (player_id : PlayerId) : M unit :=
  let* m := find_match_by_id match_id in
  match m with
  | None => match_not_found match_id
  | Some m =>
      if negb (bool_decide (TournamentMatch.tournament_id m = tournament_id)) then match_not_found match_id
      else
        let* plays := any_side_plays_for user_id player_id
          (option_list (TournamentMatch.participant1_registration_id m)
           ++ option_list (TournamentMatch.participant2_registration_id m)) in
        if plays : bool then mret tt
        else mthrow (DomainError.NotAuthorized ("User " +:+ uuid_string user_id
               +:+ " is not a participant in match " +:+ uuid_string match_id))
  end.

(** What one pair of slots suggests. *)
Definition suggestion_for (match_id : TournamentMatchId) (date : NaiveDate) (min_duration_minutes : Z)
    (slot1 slot2 : TimeSlot.t) : option CreateSuggestedTime.t :=
  overlap ← TimeSlot.intersect slot1 slot2;
  let duration_mins := num_minutes (TimeSlot.end_ overlap - TimeSlot.start overlap) in
  if bool_decide (min_duration_minutes ≤ duration_mins) then
    Some {|
      CreateSuggestedTime.match_id := match_id;
      CreateSuggestedTime.suggested_start := and_time_utc date (TimeSlot.start overlap);
      CreateSuggestedTime.suggested_end := and_time_utc date (TimeSlot.end_ overlap);
      CreateSuggestedTime.confidence_score :=
        calculate_confidence_score (TimeSlot.is_preferred overlap) duration_mins min_duration_minutes;
      CreateSuggestedTime.is_mutual_overlap := true;
      CreateSuggestedTime.is_auto_generated := true |}
  else None.

(** The two loops over the slots of a date. *)
Definition suggestions_for_date (match_id : TournamentMatchId) (date : NaiveDate) (min_duration_minutes : Z)
    (slots1 slots2 : list TimeSlot.t) : list CreateSuggestedTime.t :=
  slots1 ≫= λ slot1, omap (suggestion_for match_id date min_duration_minutes slot1) slots2.

Fixpoint create_all (commands : list CreateSuggestedTime.t) : M (list SuggestedTime.t) :=
  match commands with
  | [] => mret []
  | command :: commands =>
      let* suggestion := SuggestedTimeRepository.create command in
      let* suggestions := create_all commands in
      mret (suggestion :: suggestions)
  end.

(** [while current_date <= end_date]; as many turns as there are dates. *)
Fixpoint suggest_dates (fuel : nat) (match_id : TournamentMatchId) (reg1_id reg2_id : TournamentRegistrationId)
    (end_date : NaiveDate) (min_duration_minutes : Z) (current_date : NaiveDate)
    : M (list SuggestedTime.t) :=
  match fuel with
  | O => mret []
  | S fuel =>
      if bool_decide (end_date < current_date) then mret []
      else
        let* avail1 := get_availability_for_date None (Some reg1_id) current_date in
        let* avail2 := get_availability_for_date None (Some reg2_id) current_date in
        let* suggestions := create_all (suggestions_for_date match_id current_date min_duration_minutes
          (DateAvailability.available_slots avail1) (DateAvailability.available_slots avail2)) in
        let* next := mlift (next_date current_date) in
        let* rest := suggest_dates fuel match_id reg1_id reg2_id end_date min_duration_minutes next in
        mret (suggestions ++ rest)
  end.

Definition generate_suggestions (match_id : TournamentMatchId) (start_date end_date : NaiveDate)
    (min_duration_minutes : Z) : M (list SuggestedTime.t) :=
  let* m := find_match_by_id match_id in
  let* m := mlift (ok_or m (Error (DomainError.TournamentMatchNotFound match_id))) in
  let* reg1_id := mlift (ok_or (TournamentMatch.participant1_registration_id m)
    (Error (DomainError.InvalidState "Match participant 1 not assigned"))) in
  let* reg2_id := mlift (ok_or (TournamentMatch.participant2_registration_id m)
    (Error (DomainError.InvalidState "Match participant 2 not assigned"))) in
  let* _ := SuggestedTimeRepository.delete_auto_generated_pending match_id in
  let* suggestions := suggest_dates (Z.to_nat (end_date - start_date + 1)) match_id reg1_id reg2_id
    end_date min_duration_minutes start_date in
  mret (stable_sort SuggestedTimeRepository.more_confident suggestions).

Definition get_suggestions (match_id : TournamentMatchId) : M (list SuggestedTime.t) :=
  SuggestedTimeRepository.find_by_match_id match_id.
Definition get_active_suggestions (match_id : TournamentMatchId) : M (list SuggestedTime.t) :=
  SuggestedTimeRepository.find_active_by_match_id match_id.
Definition accept_suggestion (suggestion_id : SuggestedTimeId) : M SuggestedTime.t :=
  SuggestedTimeRepository.accept suggestion_id.
Definition reject_suggestion (suggestion_id : SuggestedTimeId) : M SuggestedTime.t :=
  SuggestedTimeRepository.reject suggestion_id.
Definition reject_all_pending_suggestions (match_id : TournamentMatchId) : M Z :=
  SuggestedTimeRepository.reject_all_pending match_id.
End service.
End AvailabilityService.
