(* ===== verification/Disputes.v ===== *)
(** [DisputeService] (crates/portal-domain/src/services/tournament/dispute.rs):
    disputes of a recorded or claimed result, their threads, and the
    resolutions an administrator can give them. *)
From stdpp Require Import base list strings gmap pretty.
From Stdlib Require Import Ascii.
From S2P Require Import Prelude Errors Wire TournamentTypes Entities CoreEnums DomainEnums Rows.
From S2P Require Import ResultModel Store ClaimStore DisputeStore Helpers Progression Results.
#[local] Open Scope Z_scope.

Module ProgressionChanges.
Record t := mk {
  reverted_matches : list TournamentMatchId;
  updated_matches : list TournamentMatchId;
  new_winner_path : list TournamentMatchId;
}.
End ProgressionChanges.

Module DisputeResolutionResult.
Record t := mk {
  dispute : Dispute.t;
  progression_changes : option ProgressionChanges.t;
}.
End DisputeResolutionResult.

Module DisputeWithThread.
Record t := mk { dispute : Dispute.t; messages : list DisputeMessage.t }.
End DisputeWithThread.

(** A byte that continues a UTF-8 sequence. *)
Definition is_continuation (c : ascii) : bool :=
  bool_decide (128 ≤ Z.of_nat (nat_of_ascii c) < 192).

(** [s.chars().take(n).collect::<String>()] on the UTF-8 bytes of [s]. *)
Fixpoint take_chars (n : nat) (s : string) : string :=
  match s with
  | "" => ""
  | String c s =>
      if is_continuation c then String c (take_chars n s)
      else match n with
           | O => ""
           | S n => String c (take_chars n s)
           end
  end.

Definition priority_of_reason (reason : DisputeReason.t) : DisputePriority.t :=
  match reason with
  | DisputeReason.Cheating => DisputePriority.Urgent
  | DisputeReason.RuleViolation | DisputeReason.PlayerMisconduct => DisputePriority.High
  | _ => DisputePriority.Normal
  end.

Module DisputeService.
Section service.
Context `{Platform}.

Definition get_dispute (dispute_id : DisputeId) : M Dispute.t :=
  let* d := DisputeRepository.find_by_id dispute_id in
  mlift (ok_or d (Error (DomainError.DisputeNotFound dispute_id))).

Definition validate_can_dispute (match_ : TournamentMatch.t)
    (disputed_by_registration_id : TournamentRegistrationId) (targets_result_claim : bool)
    : outcome unit :=
  let live_claim_dispute :=
    targets_result_claim && TournamentMatchStatus.can_submit_result (TournamentMatch.status match_) in
  let settled :=
    match TournamentMatch.status match_ with
    | TournamentMatchStatus.Completed | TournamentMatchStatus.Disputed => true
    | _ => false
    end in
  if negb live_claim_dispute && negb settled then
    throw (DomainError.InvalidState ("Match in " +:+
      TournamentMatchStatus.fmt (TournamentMatch.status match_) +:+ " status cannot be disputed"))
  else
    let is_participant :=
      bool_decide (TournamentMatch.participant1_registration_id match_ =
                     Some disputed_by_registration_id) ||
      bool_decide (TournamentMatch.participant2_registration_id match_ =
                     Some disputed_by_registration_id) in
    if negb is_participant then
      throw (DomainError.NotAuthorized "Only match participants can raise a dispute")
    else Ok tt.

(** What the dispute records as the original winner and scores. *)
Definition original_result (match_ : TournamentMatch.t) (disputed_claim : option ResultClaim.t)
    : option TournamentRegistrationId * Z * Z :=
  match disputed_claim with
  | Some claim =>
      (Some (ResultClaim.claimed_winner_registration_id claim),
       ResultClaim.claimed_participant1_score claim, ResultClaim.claimed_participant2_score claim)
  | None =>
      (TournamentMatch.winner_registration_id match_, TournamentMatch.participant1_score match_,
       TournamentMatch.participant2_score match_)
  end.

Definition raise_dispute (match_id : TournamentMatchId) (result_claim_id : option ResultClaimId)
    (reason : DisputeReason.t) (description : string) (evidence_ids : list EvidenceId)
    (disputed_by_registration_id : TournamentRegistrationId) (disputed_by_user_id : UserId)
    : M Dispute.t :=
  let* match_ := get_match match_id in
  let* _ := mlift (validate_can_dispute match_ disputed_by_registration_id
    (bool_decide (is_Some result_claim_id))) in
  let* pending := DisputeRepository.exists_pending_for_match match_id in
  if (pending : bool) then
    mthrow (DomainError.InvalidState
      ("Match " +:+ uuid_string match_id +:+ " already has a pending dispute"))
  else
    let* disputed_claim :=
      (match result_claim_id with
       | Some claim_id => ResultClaimRepository.find_by_id claim_id
       | None => mret None
       end) in
    let own :=
      match disputed_claim with
      | Some claim => bool_decide (ResultClaim.submitted_by_registration_id claim =
                                     Some disputed_by_registration_id)
      | None => false
      end in
    if own then mthrow (DomainError.InvalidState "Cannot dispute your own result claim")
    else
      let '(original_winner, original_p1_score, original_p2_score) :=
        original_result match_ disputed_claim in
      let priority := priority_of_reason reason in
      let summary_snippet := take_chars 100 description in
      DisputeRepository.raise_atomic
        {| CreateDispute.match_id := match_id;
           CreateDispute.result_claim_id := result_claim_id;
           CreateDispute.disputed_by_registration_id := disputed_by_registration_id;
           CreateDispute.disputed_by_user_id := disputed_by_user_id;
           CreateDispute.reason := reason;
           CreateDispute.description := description;
           CreateDispute.evidence_ids := evidence_ids;
           CreateDispute.original_winner_registration_id := original_winner;
           CreateDispute.original_participant1_score := Some original_p1_score;
           CreateDispute.original_participant2_score := Some original_p2_score;
           CreateDispute.priority := priority |}
        {| CreateDisputeMessage.dispute_id := 0%N;
           CreateDisputeMessage.author_user_id := disputed_by_user_id;
           CreateDisputeMessage.author_type := AuthorType.System;
           CreateDisputeMessage.message :=
             "Dispute raised: " +:+ DisputeReason.fmt reason +:+ " - " +:+ summary_snippet;
           CreateDisputeMessage.evidence_ids := [];
           CreateDisputeMessage.is_internal := false |}.

Definition already_closed {A} (dispute : Dispute.t) (dispute_id : DisputeId) : M A :=
  mthrow (DomainError.InvalidState ("Dispute " +:+ uuid_string dispute_id +:+ " is already " +:+
    DisputeStatus.fmt (Dispute.status dispute))).

Definition add_message (dispute_id : DisputeId) (message : string)
    (evidence_ids : list EvidenceId) (author_user_id : UserId) (author_type : AuthorType.t)
    (is_internal : bool) : M DisputeMessage.t :=
  let* dispute := get_dispute dispute_id in
  if Dispute.is_terminal dispute then already_closed dispute dispute_id
  else
    DisputeMessageRepository.create
      {| CreateDisputeMessage.dispute_id := dispute_id;
         CreateDisputeMessage.author_user_id := author_user_id;
         CreateDisputeMessage.author_type := author_type;
         CreateDisputeMessage.message := message;
         CreateDisputeMessage.evidence_ids := evidence_ids;
         CreateDisputeMessage.is_internal := is_internal |}.

Definition assign_for_review (dispute_id : DisputeId) (assigned_by : UserId) : M Dispute.t :=
  let* dispute := get_dispute dispute_id in
  if negb (Dispute.can_assign dispute) then
    mthrow (DomainError.InvalidState ("Dispute " +:+ uuid_string dispute_id +:+
      " cannot be assigned (status: " +:+ DisputeStatus.fmt (Dispute.status dispute) +:+ ")"))
  else
    let* updated := DisputeRepository.update dispute_id
      (UpdateDispute.mk (Some DisputeStatus.UnderReview) None None None (Some assigned_by)) in
    let* _ := DisputeMessageRepository.create
      {| CreateDisputeMessage.dispute_id := dispute_id;
         CreateDisputeMessage.author_user_id := assigned_by;
         CreateDisputeMessage.author_type := AuthorType.System;
         CreateDisputeMessage.message := "Dispute assigned for review";
         CreateDisputeMessage.evidence_ids := [];
         CreateDisputeMessage.is_internal := true |} in
    mret updated.

Definition validate_can_resolve (dispute : Dispute.t) : outcome unit :=
  if negb (Dispute.can_resolve dispute) then
    throw (DomainError.InvalidState ("Dispute " +:+ uuid_string (Dispute.id dispute) +:+
      " cannot be resolved (status: " +:+ DisputeStatus.fmt (Dispute.status dispute) +:+ ")"))
  else Ok tt.

(** The administrator's message a resolution appends to the thread. *)
Definition resolution_message (dispute_id : DisputeId) (resolved_by : UserId) (message : string)
    : CreateDisputeMessage.t :=
  {| CreateDisputeMessage.dispute_id := dispute_id;
     CreateDisputeMessage.author_user_id := resolved_by;
     CreateDisputeMessage.author_type := AuthorType.Admin;
     CreateDisputeMessage.message := message;
     CreateDisputeMessage.evidence_ids := [];
     CreateDisputeMessage.is_internal := false |}.

Definition cannot_determine_loser : fault DomainError.t :=
  Error (DomainError.InvalidState "Cannot determine loser").

Definition resolve_uphold (dispute_id : DisputeId) (notes : string) (resolved_by : UserId)
    : M DisputeResolutionResult.t :=
  let* dispute := get_dispute dispute_id in
  let* _ := mlift (validate_can_resolve dispute) in
  let* match_ := get_match (Dispute.match_id dispute) in
  let resolution := DisputeResolution.mk ResolutionType.Upheld notes None None None in
  let message := resolution_message dispute_id resolved_by ("Dispute upheld: " +:+ notes) in
  let* resolved :=
    (match Dispute.original_winner_registration_id dispute with
     | Some winner_id =>
         let* loser_id := mlift (ok_or (loser_of match_ winner_id) cannot_determine_loser) in
         DisputeRepository.resolve_with_overturn dispute_id resolved_by resolution
           (Dispute.match_id dispute) winner_id loser_id
           (default 0 (Dispute.original_participant1_score dispute))
           (default 0 (Dispute.original_participant2_score dispute)) message
     | None =>
         DisputeRepository.resolve_with_status_change dispute_id resolved_by resolution
           (Dispute.match_id dispute) TournamentMatchStatus.Completed false message
     end) in
  mret (DisputeResolutionResult.mk resolved None).

Definition resolve_overturn (dispute_id : DisputeId)
    (new_winner_registration_id : TournamentRegistrationId)
    (new_participant1_score new_participant2_score : Z) (notes : string) (resolved_by : UserId)
    : M DisputeResolutionResult.t :=
  let* dispute := get_dispute dispute_id in
  let* _ := mlift (validate_can_resolve dispute) in
  let* match_ := get_match (Dispute.match_id dispute) in
  let* loser_id :=
    mlift (ok_or (loser_of match_ new_winner_registration_id) cannot_determine_loser) in
  let* resolved := DisputeRepository.resolve_with_overturn dispute_id resolved_by
    (DisputeResolution.mk ResolutionType.Overturned notes (Some new_winner_registration_id)
       (Some new_participant1_score) (Some new_participant2_score))
    (Dispute.match_id dispute) new_winner_registration_id loser_id new_participant1_score
    new_participant2_score
    (resolution_message dispute_id resolved_by
       ("Dispute overturned. New scores: " +:+ pretty new_participant1_score +:+ "-" +:+
        pretty new_participant2_score +:+ ". " +:+ notes)) in
  mret (DisputeResolutionResult.mk resolved
    (Some (ProgressionChanges.mk [] [Dispute.match_id dispute] []))).

Definition resolve_rematch (dispute_id : DisputeId) (notes : string) (resolved_by : UserId)
    : M DisputeResolutionResult.t :=
  let* dispute := get_dispute dispute_id in
  let* _ := mlift (validate_can_resolve dispute) in
  let* resolved := DisputeRepository.resolve_with_status_change dispute_id resolved_by
    (DisputeResolution.mk ResolutionType.Rematch notes None None None)
    (Dispute.match_id dispute) TournamentMatchStatus.Ready true
    (resolution_message dispute_id resolved_by ("Rematch ordered: " +:+ notes)) in
  mret (DisputeResolutionResult.mk resolved None).

Definition resolve_adjusted (dispute_id : DisputeId)
    (new_participant1_score new_participant2_score : Z) (notes : string) (resolved_by : UserId)
    : M DisputeResolutionResult.t :=
  let* dispute := get_dispute dispute_id in
  let* _ := mlift (validate_can_resolve dispute) in
  let* match_ := get_match (Dispute.match_id dispute) in
  let* (new_winner_id, loser_id) :=
    mlift (derive_result_outcome match_ new_participant1_score new_participant2_score) in
  let* resolved := DisputeRepository.resolve_with_overturn dispute_id resolved_by
    (DisputeResolution.mk ResolutionType.Adjusted notes (Some new_winner_id)
       (Some new_participant1_score) (Some new_participant2_score))
    (Dispute.match_id dispute) new_winner_id loser_id new_participant1_score new_participant2_score
    (resolution_message dispute_id resolved_by
       ("Scores adjusted to " +:+ pretty new_participant1_score +:+ "-" +:+
        pretty new_participant2_score +:+ ". " +:+ notes)) in
  mret (DisputeResolutionResult.mk resolved None).

Definition resolve_double_dq (dispute_id : DisputeId) (notes : string) (resolved_by : UserId)
    : M DisputeResolutionResult.t :=
  let* dispute := get_dispute dispute_id in
  let* _ := mlift (validate_can_resolve dispute) in
  let* resolved := DisputeRepository.resolve_with_status_change dispute_id resolved_by
    (DisputeResolution.mk ResolutionType.DoubleDq notes None None None)
    (Dispute.match_id dispute) TournamentMatchStatus.Cancelled true
    (resolution_message dispute_id resolved_by ("Both teams disqualified: " +:+ notes)) in
  mret (DisputeResolutionResult.mk resolved None).

Definition get_match_dispute (match_id : TournamentMatchId) : M (option Dispute.t) :=
  DisputeRepository.find_pending_by_match match_id.

Definition get_pending_disputes (tournament_id : option TournamentId)
    (priority : option DisputePriority.t) (limit offset : Z) : M (list Dispute.t * Z) :=
  DisputeRepository.find_pending tournament_id priority limit offset.

Definition list_disputes (statuses : option (list DisputeStatus.t))
    (tournament_id : option TournamentId) (match_id : option TournamentMatchId)
    (priority : option DisputePriority.t) (limit offset : Z) : M (list Dispute.t * Z) :=
  DisputeRepository.list_filtered statuses tournament_id match_id priority limit offset.

Definition get_dispute_with_thread (dispute_id : DisputeId) (include_internal : bool)
    : M DisputeWithThread.t :=
  let* dispute := get_dispute dispute_id in
  let* messages := DisputeMessageRepository.find_by_dispute dispute_id include_internal in
  mret (DisputeWithThread.mk dispute messages).

Definition cancel_dispute (dispute_id : DisputeId) (cancelled_by : UserId) : M Dispute.t :=
  let* dispute := get_dispute dispute_id in
  if Dispute.is_terminal dispute then already_closed dispute dispute_id
  else
    DisputeRepository.cancel_with_match_restore dispute_id (Dispute.match_id dispute)
      {| CreateDisputeMessage.dispute_id := dispute_id;
         CreateDisputeMessage.author_user_id := cancelled_by;
         CreateDisputeMessage.author_type := AuthorType.System;
         CreateDisputeMessage.message := "Dispute cancelled";
         CreateDisputeMessage.evidence_ids := [];
         CreateDisputeMessage.is_internal := false |}.
End service.
End DisputeService.
