(* ===== verification/Redrive.v ===== *)
(** Who runs completions: the background pass over overdue claims and stuck
    executions (crates/portal-api/src/background/mod.rs), and the resumption
    after a review (crates/portal-api/src/handlers/result_reviews.rs); and what
    the pass makes of executions that failed or got stuck. *)
From stdpp Require Import base list strings gmap.
From S2P Require Import Prelude Errors Wire TournamentTypes DomainEnums FormatPlan Entities.
From S2P Require Import BracketModel Rows ResultModel SagaModel Store StoreFacts Samples Reviews.
From S2P Require Import SagaStore Standings Helpers Progression Completion SagaFacts ProgressionProps.
From S2P Require Import SagaRun SagaWrites SagaConverge SagaProps Lifecycle Actor Results.
#[local] Open Scope Z_scope.

Module LifecycleConfig.
Record t := mk {
  tick_interval : Z;
  check_in_lead : Z;
  check_in_grace : Z;
  evidence_stale_max_age : Z;
  evidence_sweep_every : Z;
  saga_stuck_after : Z;
  batch_limit : Z;
  veto_coin_flip_grace : Z;
}.
(** [env] reads a variable as a [u64]; values past [i64] fall back. *)
Definition from_env (env : string → option Z) : t :=
  let i64 key dflt :=
    let v := default dflt (env key) in if bool_decide (v < 2 ^ 63) then v else dflt in {|
    tick_interval := seconds (default 30 (env "PORTAL_LIFECYCLE_INTERVAL_SECS"));
    check_in_lead := minutes (i64 "PORTAL_CHECKIN_LEAD_MINUTES" 15);
    check_in_grace := minutes (i64 "PORTAL_CHECKIN_GRACE_MINUTES" 10);
    veto_coin_flip_grace := seconds (i64 "PORTAL_VETO_COIN_FLIP_GRACE_SECS" 15);
    evidence_stale_max_age := minutes (60 * i64 "PORTAL_EVIDENCE_STALE_HOURS" 24);
    evidence_sweep_every := 20;
    saga_stuck_after := minutes (i64 "PORTAL_SAGA_STUCK_MINUTES" 10);
    batch_limit := 100 |}.
End LifecycleConfig.

Module LifecyclePassSummary.
Record t := mk {
  check_in_windows_opened : Z;
  veto_sessions_created : Z;
  no_shows_forfeited : Z;
  veto_timeouts_processed : Z;
  veto_sessions_started : Z;
  veto_coin_flips_auto : Z;
  double_forfeits : Z;
  check_in_deadlines_repaired : Z;
  claims_auto_confirmed : Z;
  proposals_expired : Z;
  sagas_redriven : Z;
  evidence_expired : Z;
  evidence_stale_cleaned : Z;
  game_servers_marked_offline : Z;
  reservations_allocated : Z;
  reservations_reconciled : Z;
  errors : Z;
}.
#[global] Instance eta_t : Eta t := λ r,
  mk (r.(check_in_windows_opened)) (r.(veto_sessions_created)) (r.(no_shows_forfeited))
    (r.(veto_timeouts_processed)) (r.(veto_sessions_started)) (r.(veto_coin_flips_auto))
    (r.(double_forfeits)) (r.(check_in_deadlines_repaired)) (r.(claims_auto_confirmed))
    (r.(proposals_expired)) (r.(sagas_redriven)) (r.(evidence_expired))
    (r.(evidence_stale_cleaned)) (r.(game_servers_marked_offline)) (r.(reservations_allocated))
    (r.(reservations_reconciled)) (r.(errors)).
Definition default : t := mk 0 0 0 0 0 0 0 0 0 0 0 0 0 0 0 0 0.
(** [summary.errors += 1;] and its kind. *)
Definition error (s : t) : t := s <| errors := as_u32 (errors s + 1) |>.
Definition redriven (s : t) : t := s <| sagas_redriven := as_u32 (sagas_redriven s + 1) |>.
Definition auto_confirmed (s : t) : t :=
  s <| claims_auto_confirmed := as_u32 (claims_auto_confirmed s + 1) |>.
End LifecyclePassSummary.

Module Background.
Section background.
Context `{CompletionSerde} (saga : MatchCompletionSaga.t).

Definition MATCH_COMPLETION_SAGA : string := "match_completion".
Definition STANDINGS_STEP : string := "update_standings".

(** [Value::get]. *)
Definition json_get (v : Json) (key : string) : option Json :=
  json_object v ≫= λ obj, obj_get obj key.

(** The step that recorded [standings_updated: true]. *)
Definition applied_standings (s : StepRecord.t) : bool :=
  bool_decide (StepRecord.name s = STANDINGS_STEP)
  && bool_decide (StepRecord.status s = StepStatus.Completed)
  && bool_decide ((StepRecord.output s ≫= λ o, json_get o "standings_updated" ≫= json_bool) = Some true).

(** Errors are logged. *)
Definition raise_progression_stall (input : MatchCompletionInput.t) (saga_id : SagaId) : M unit :=
  match MatchCompletionInput.result_claim_id input with
  | None => mret tt
  | Some claim_id =>
      let* _ := mtry (ResultReviewService.create_for_progression_stall claim_id
        (MatchCompletionInput.match_id input) (MatchCompletionInput.winner_registration_id input)
        (MatchCompletionInput.loser_registration_id input)) in
      mret tt
  end.

(** [if let Err(e) = coordinator.record_retry(&mut execution, exhaust).await]:
    the execution as it is then, and whether its row was written. *)
Definition try_record_retry (execution : SagaExecution.t) (exhaust : bool)
    : M (SagaExecution.t * bool) :=
  with_execution execution (SagaCoordinator.record_retry exhaust) (λ result execution,
    mret (execution, is_ok result)).

(** Take the row out of the pool, and count a failure to do so. *)
Definition retire (execution : SagaExecution.t) (summary : LifecyclePassSummary.t)
    : M LifecyclePassSummary.t :=
  let* (_, written) := try_record_retry execution true in
  mret (if written : bool then summary else LifecyclePassSummary.error summary).

(** One candidate of the pass. *)
Definition redrive_one (execution : SagaExecution.t) (summary : LifecyclePassSummary.t)
    : M LifecyclePassSummary.t :=
  let saga_id := SagaExecution.id execution in
  match input_from_value (SagaExecution.input_data execution) with
  | Err _ =>
      let* _ := try_record_retry execution true in
      mret (LifecyclePassSummary.error summary)
  | Ok input =>
      let input := input <| MatchCompletionInput.saga_id := None |> in
      if existsb applied_standings (SagaExecution.step_history execution) then
        let* _ := raise_progression_stall input saga_id in
        retire execution summary
      else
        let* saga_result := mtry (MatchCompletionSaga.execute_completion saga input) in
        match saga_result with
        | Ok result =>
            if SagaResult.is_paused result then retire execution summary
            else retire execution (LifecyclePassSummary.redriven summary)
        | Err _ =>
            let* (execution, _) := try_record_retry execution false in
            let* _ :=
              (if bool_decide (SagaExecution.max_retries execution ≤ SagaExecution.retry_count execution)
               then raise_progression_stall input saga_id else mret tt) in
            mret (LifecyclePassSummary.error summary)
        end
  end.

Fixpoint redrive_all (candidates : list SagaExecution.t) (summary : LifecyclePassSummary.t)
    : M LifecyclePassSummary.t :=
  match candidates with
  | [] => mret summary
  | execution :: candidates =>
      let* summary := redrive_one execution summary in
      redrive_all candidates summary
  end.

Definition redrive_stuck_completion_sagas (cfg : LifecycleConfig.t) (now : DateTime)
    (summary : LifecyclePassSummary.t) : M LifecyclePassSummary.t :=
  let* candidates := mtry (SagaCoordinator.find_retryable MATCH_COMPLETION_SAGA
    (now - LifecycleConfig.saga_stuck_after cfg) (LifecycleConfig.batch_limit cfg)) in
  match candidates with
  | Err _ => mret (LifecyclePassSummary.error summary)
  | Ok candidates => redrive_all candidates summary
  end.

(** Winner's score first. *)
Definition scores_of_claim (match_ : TournamentMatch.t) (claim : ResultClaim.t) : Z * Z :=
  if bool_decide (TournamentMatch.participant1_registration_id match_ =
                  Some (ResultClaim.claimed_winner_registration_id claim))
  then (ResultClaim.claimed_participant1_score claim, ResultClaim.claimed_participant2_score claim)
  else (ResultClaim.claimed_participant2_score claim, ResultClaim.claimed_participant1_score claim).

Definition input_of_claim (claim : ResultClaim.t) (match_ : TournamentMatch.t)
    (loser : TournamentRegistrationId) : MatchCompletionInput.t :=
  let '(winner_score, loser_score) := scores_of_claim match_ claim in {|
    MatchCompletionInput.match_id := ResultClaim.match_id claim;
    MatchCompletionInput.winner_registration_id := ResultClaim.claimed_winner_registration_id claim;
    MatchCompletionInput.loser_registration_id := loser;
    MatchCompletionInput.winner_score := winner_score;
    MatchCompletionInput.loser_score := loser_score;
    MatchCompletionInput.is_forfeit := false;
    MatchCompletionInput.saga_id := None;
    MatchCompletionInput.result_claim_id := Some (ResultClaim.id claim) |}.

Definition run_completion_saga_for_claim (claim : ResultClaim.t) : M unit :=
  let* match_ := get_match (ResultClaim.match_id claim) in
  let* loser := mlift (ok_or (loser_of match_ (ResultClaim.claimed_winner_registration_id claim))
    (Error (DomainError.InvalidState "Loser participant not found on match"))) in
  let* _ := MatchCompletionSaga.execute_completion saga (input_of_claim claim match_ loser) in
  mret tt.

Fixpoint complete_claims (claims : list ResultClaim.t) (summary : LifecyclePassSummary.t)
    : M LifecyclePassSummary.t :=
  match claims with
  | [] => mret summary
  | claim :: claims =>
      let* result := mtry (run_completion_saga_for_claim claim) in
      let summary := LifecyclePassSummary.auto_confirmed summary in
      complete_claims claims
        (if is_ok result then summary else LifecyclePassSummary.error summary)
  end.

Definition process_overdue_result_claims (summary : LifecyclePassSummary.t) : M LifecyclePassSummary.t :=
  let* confirmed := mtry ResultService.process_auto_confirmations in
  match confirmed with
  | Err _ => mret (LifecyclePassSummary.error summary)
  | Ok confirmed => complete_claims confirmed summary
  end.

(** [resume_saga_after_review] of the review handlers. *)
Definition resume_saga_after_review (match_id : TournamentMatchId) : M unit :=
  let* match_ := get_match match_id in
  let* winner := mlift (ok_or (TournamentMatch.winner_registration_id match_)
    (Error (DomainError.InvalidState "Match has no winner set"))) in
  let* loser := mlift (ok_or (loser_of match_ winner)
    (Error (DomainError.InvalidState "Match has no loser participant"))) in
  let '(winner_score, loser_score) :=
    if bool_decide (TournamentMatch.participant1_registration_id match_ = Some winner)
    then (TournamentMatch.participant1_score match_, TournamentMatch.participant2_score match_)
    else (TournamentMatch.participant2_score match_, TournamentMatch.participant1_score match_) in
  let* _ := MatchCompletionSaga.continue_after_review saga match_id {|
    MatchCompletionInput.match_id := match_id;
    MatchCompletionInput.winner_registration_id := winner;
    MatchCompletionInput.loser_registration_id := loser;
    MatchCompletionInput.winner_score := winner_score;
    MatchCompletionInput.loser_score := loser_score;
    MatchCompletionInput.is_forfeit := false;
    MatchCompletionInput.saga_id := None;
    MatchCompletionInput.result_claim_id := None |} in
  mret tt.
End background.
End Background.

Section redrive.
Context `{CompletionSerdeLaws}.

(** An execution that no pass will pick up, whenever it looks. *)
Definition out_of_the_pool (e : SagaExecution.t) : Prop :=
  ∀ saga_type since, SagaExecutionRepository.is_retryable saga_type since e = false.

Lemma exhausted_out e :
  SagaExecution.max_retries e ≤ SagaExecution.retry_count e → out_of_the_pool e.
Proof.
  intros Hx ty since. unfold SagaExecutionRepository.is_retryable, SagaExecution.can_retry.
  rewrite (bool_decide_false (SagaExecution.retry_count e < SagaExecution.max_retries e)) by lia.
  by rewrite andb_false_r.
Qed.

Lemma completed_out e : SagaExecution.status e = SagaStatus.Completed → out_of_the_pool e.
Proof.
  intros Hs ty since. unfold SagaExecutionRepository.is_retryable, SagaExecution.is_failed,
    SagaExecutionRepository.is_stuck, SagaExecution.is_running, SagaExecution.is_pending.
  rewrite Hs. by rewrite andb_false_r.
Qed.

Lemma exhausted_dead now e :
  SagaExecution.status (SagaCoordinator.retried now true e) ≠ SagaStatus.Pending ∧
  SagaExecution.status (SagaCoordinator.retried now true e) ≠ SagaStatus.Running.
Proof.
  unfold SagaCoordinator.retried.
  destruct (SagaExecution.is_terminal (e <| SagaExecution.retry_count := SagaExecution.max_retries e |>)) eqn:Ht;
    [|by split].
  unfold SagaExecution.is_terminal in Ht. cbn in *. by destruct (SagaExecution.status e).
Qed.

(** Retiring an execution takes its row out of the pool and nothing else. *)
Lemma retire_runs e r summary db :
  saga_rows db !! SagaExecution.id e = Some r → SagaExecution.max_retries r = SagaExecution.max_retries e →
  ∃ r', Background.retire e summary db =
      (Ok summary, db <| Db.saga_executions := <[SagaExecution.id e := r']> (saga_rows db) |>) ∧
    out_of_the_pool r' ∧ SagaExecutionRepository.is_live r' = false.
Proof.
  intros Hr Hmax. set (e' := SagaCoordinator.retried (Db.now db) true e).
  assert (SagaExecution.id e' = SagaExecution.id e ∧
    SagaExecution.retry_count e' = SagaExecution.max_retries e) as [Hid Hcount].
  { unfold e', SagaCoordinator.retried. by destruct (SagaExecution.is_terminal _). }
  pose proof (exhausted_dead (Db.now db) e) as [Hnp Hnr]. fold e' in Hnp, Hnr.
  set (r' := (SagaExecutionRepository.set_progress e' r) <| SagaExecution.updated_at := Db.now db |>).
  assert (SagaExecution.status r' = SagaExecution.status e' ∧
    SagaExecution.retry_count r' = SagaExecution.retry_count e' ∧
    SagaExecution.max_retries r' = SagaExecution.max_retries r) as (Gs & Gc & Gx) by done.
  exists r'. split; [|split].
  - unfold Background.retire, Background.try_record_retry, SagaCoordinator.record_retry, with_execution,
      SagaCoordinator.save, mbind. cbv beta zeta. fold e'. unfold SagaExecutionRepository.update, SagaExecutionRepository.update_row.
    rewrite Hid, Hr. fold r'.
    assert (SagaExecutionRepository.is_live r' = false) as ->; [|done].
    unfold SagaExecutionRepository.is_live, SagaExecution.is_pending, SagaExecution.is_running. rewrite Gs.
    by destruct (SagaExecution.status e').
  - apply exhausted_out. lia.
  - unfold SagaExecutionRepository.is_live, SagaExecution.is_pending, SagaExecution.is_running. rewrite Gs.
    by destruct (SagaExecution.status e').
Qed.

End redrive.

(** ** Witnesses *)

#[local] Existing Instance sample_platform.
#[local] Existing Instance sample_serde.

(** An execution of the semi-final's completion that failed. *)
Definition failed_execution : SagaExecution.t := {|
  SagaExecution.id := 50%N;
  SagaExecution.saga_type := "match_completion";
  SagaExecution.saga_version := 2;
  SagaExecution.tournament_id := Some 1%N;
  SagaExecution.match_id := Some 10%N;
  SagaExecution.correlation_id := None;
  SagaExecution.input_data := match input_to_value semi_input with Ok v => v | Err _ => json_null_value end;
  SagaExecution.current_step := 4;
  SagaExecution.status := SagaStatus.Failed;
  SagaExecution.step_history := [];
  SagaExecution.last_error := Some "connection closed";
  SagaExecution.retry_count := 0;
  SagaExecution.max_retries := 3;
  SagaExecution.started_at := Some 100;
  SagaExecution.completed_at := Some 100;
  SagaExecution.created_at := 100;
  SagaExecution.updated_at := 100 |}.

Definition with_failed (db : Db.t) : Db.t :=
  db <| Db.saga_executions := {[50%N := failed_execution]} |>.

Lemma with_failed_agree db : agree db (with_failed db).
Proof. by split. Qed.


(** ** Re-drives that fail *)

(** The same cup with its bracket row gone: no completion can succeed. *)
Definition doomed_cup : Db.t := with_failed (awaiting_cup <| Db.brackets := ∅ |>).

Definition default_config : LifecycleConfig.t := LifecycleConfig.from_env (λ _, None).

(** The pass, every ten minutes. *)
Fixpoint passes (n : nat) (db : Db.t) : Db.t :=
  match n with
  | O => db
  | S n =>
      let db := later (Db.now db + minutes 10) db in
      passes n (Background.redrive_stuck_completion_sagas sample_saga default_config (Db.now db)
                  LifecyclePassSummary.default db).2
  end.

Definition candidates (db : Db.t) : nat :=
  length (filter (λ e, SagaExecutionRepository.is_retryable "match_completion" 0 e = true)
            (SagaExecutionRepository.executions db)).

(** [retry_count] does not bound the attempts at [max_retries]: a failed
  attempt leaves a failed execution of its own, with all its retries, so the
  attempts multiply from pass to pass and never end. *)
Theorem failed_redrives_multiply : (λ n, candidates (passes n doomed_cup)) <$> [0; 1; 2; 3; 4; 5]%nat =
  [1; 2; 4; 7; 13; 24]%nat.
Proof. vm_compute. reflexivity. Qed.

(** ** Inputs out of date *)

(** The semi-final was given to 1, then, on appeal, to 4, who was seated. *)
Definition overruled_cup : Db.t :=
  with_failed (sample_db
    [with_result 4 1 0 2 awaiting_semi;
     half_final <| TournamentMatch.participant1_registration_id := Some 4%N |>] [cup_bracket] []).

(** A completion does not compare its input with the result the match has: an
  old execution, re-driven after its result was overruled, succeeds and seats
  the player who lost. *)
Theorem redrive_seats_overruled_winner :
  let db := (Background.redrive_one sample_saga failed_execution LifecyclePassSummary.default overruled_cup).2 in
  TournamentMatch.winner_registration_id <$> Db.matches db !! 10%N = Some (Some 4%N) ∧
  participants_of <$> Db.matches db !! 12%N = Some [1; 2]%N ∧
  LifecyclePassSummary.sagas_redriven <$> match
    (Background.redrive_one sample_saga failed_execution LifecyclePassSummary.default overruled_cup).1
    with Ok s => Some s | Err _ => None end = Some 1.
Proof. vm_compute. by split. Qed.
