(* ===== verification/ClaimFacts.v ===== *)
(** What the claim statements and the result service do to the tables: the
    scores [validate_claim] accepts, and each operation read off as either an
    error that wrote nothing or the rows it wrote. *)
From stdpp Require Import base list strings gmap.
From S2P Require Import Prelude Errors Wire TournamentTypes Entities CoreEnums DomainEnums FormatPlan Rows.
From S2P Require Import ResultModel Store StoreFacts VetoStore ClaimStore Helpers Progression.
From S2P Require Import ProgressionProps Lifecycle Actor Results.
#[local] Open Scope Z_scope.

(** ** Which scores are accepted *)

(** The claimed winner plays, and has the higher of two non-negative scores whose
    sum is a number of games the format can take. *)
Definition legal_score (match_ : TournamentMatch.t) (winner : TournamentRegistrationId)
    (score1 score2 : Z) : Prop :=
  0 ≤ score1 ∧ 0 ≤ score2 ∧
  ((TournamentMatch.participant1_registration_id match_ = Some winner ∧ score2 < score1) ∨
   (TournamentMatch.participant1_registration_id match_ ≠ Some winner ∧
    TournamentMatch.participant2_registration_id match_ = Some winner ∧ score1 < score2)) ∧
  MatchFormat.wins_required (TournamentMatch.match_format match_) ≤ score1 + score2
    ≤ 2 * MatchFormat.wins_required (TournamentMatch.match_format match_) - 1.

(** One game per point of the series, numbered from 1, none tied, won as often by
    each side as the series score says. *)
Definition legal_games (score1 score2 : Z) (games : list GameResultInput.t) : Prop :=
  Z.of_nat (length games) = score1 + score2 ∧
  (∀ i g, games !! i = Some g →
     GameResultInput.game_number g = Z.of_nat i + 1 ∧
     GameResultInput.participant1_score g ≠ GameResultInput.participant2_score g) ∧
  Z.of_nat (length (filter (λ g,
    GameResultInput.participant1_score g > GameResultInput.participant2_score g) games)) = score1.

Lemma check_games_ok i games :
  0 ≤ i → i + Z.of_nat (length games) ≤ i32_max →
  check_games i games = Ok tt ↔
  ∀ j g, games !! j = Some g →
    GameResultInput.game_number g = i + Z.of_nat j + 1 ∧
    GameResultInput.participant1_score g ≠ GameResultInput.participant2_score g.
Proof.
  revert i. induction games as [|g games IH]; intros i Hi Hl; simpl; [by split|].
  simpl in Hl. rewrite as_i32_id by (unfold in_i32, i32_min, i32_max in *; lia).
  case_bool_decide as Hn; simpl.
  2:{ split; [done|]. intros Hg. destruct (Hg 0%nat g eq_refl) as [? _]. lia. }
  case_bool_decide as Ht.
  { split; [done|]. intros Hg. by destruct (Hg 0%nat g eq_refl) as [_ ?]. }
  rewrite IH by lia. split.
  - intros Hg [|j] x; simpl; [by intros [= <-]; split; [lia|]|].
    intros Hx%Hg. split; [lia|tauto].
  - intros Hg j x Hx. specialize (Hg (S j) x Hx). split; [lia|tauto].
Qed.

Lemma wins_required_bounds f : 1 ≤ MatchFormat.wins_required f ≤ 4.
Proof. destruct f; vm_compute; split; congruence. Qed.

(** The sum of two non-negative scores either fits or wraps to a negative. *)
Lemma i32_add_scores a b : 0 ≤ a → 0 ≤ b → in_i32 a → in_i32 b →
  (a + b ≤ i32_max ∧ i32_add a b = a + b) ∨ (i32_max < a + b ∧ i32_add a b < 0).
Proof.
  unfold in_i32, i32_add, as_i32, i32_min, i32_max. intros Ha Hb Ha' Hb'.
  destruct (decide (a + b ≤ 2 ^ 31 - 1)).
  - left. split; [done|]. rewrite Z.mod_small; lia.
  - right. split; [lia|].
    rewrite <- (Z.mod_unique (a + b + 2 ^ 31) (2 ^ 32) 1 (a + b - 2 ^ 31)); lia.
Qed.

(** The game list against the series score, once the score itself is legal. *)
Lemma validate_games_iff score1 score2 games :
  0 ≤ score1 → 0 ≤ score2 → score1 + score2 ≤ 7 → games ≠ [] →
  (if negb (bool_decide (Z.of_nat (length games) = (score1 + score2) `mod` 2 ^ 64)) then
     throw (invalid_result ResultValidationError.GameScoresMismatch)
   else
     let? _ := check_games 0 games in
     let p1_game_wins := p1_games games in
     let p2_game_wins := i32_sub (as_i32 (Z.of_nat (length games))) p1_game_wins in
     if negb (bool_decide (p1_game_wins = score1)) || negb (bool_decide (p2_game_wins = score2)) then
       throw (invalid_result ResultValidationError.GameScoresMismatch)
     else Ok tt) = Ok tt ↔ legal_games score1 score2 games.
Proof.
  intros H1 H2 H7 _. unfold legal_games. rewrite Z.mod_small by lia.
  case_bool_decide as Hl; cbn [negb]; [|split; [done|by intros [? _]]].
  pose proof (check_games_ok 0 games ltac:(lia) ltac:(unfold i32_max; lia)) as Hc.
  pose proof (length_filter (λ g, GameResultInput.participant1_score g >
                                   GameResultInput.participant2_score g) games) as Hf.
  unfold p1_games. rewrite !as_i32_id by (unfold in_i32, i32_min, i32_max; lia).
  unfold i32_sub. rewrite as_i32_id by (unfold in_i32, i32_min, i32_max; lia).
  destruct (check_games 0 games) as [[]|e]; cbn [result_bind].
  - destruct Hc as [Hc _]. specialize (Hc eq_refl).
    case_bool_decide as Hp; cbn [negb orb].
    + rewrite bool_decide_true by lia. cbn. split; [|done]. intros _. split; [done|]. split; [|done].
      intros j g Hg. destruct (Hc j g Hg). split; [lia|done].
    + split; [done|]. intros (_ & _ & Hp'). congruence.
  - split; [done|]. intros (_ & Hg & _).
    assert (Err e = Ok tt :> outcome unit); [|done]. apply Hc. intros j g Hj.
    destruct (Hg j g Hj). split; [lia|done].
Qed.

Lemma validate_scores_iff match_ winner score1 score2 games :
  in_i32 score1 → in_i32 score2 →
  validate_scores match_ winner score1 score2 games = Ok tt ↔
  legal_score match_ winner score1 score2 ∧ (games = [] ∨ legal_games score1 score2 games).
Proof.
  intros H1 H2. unfold validate_scores, legal_score.
  pose proof (wins_required_bounds (TournamentMatch.match_format match_)) as Hw.
  set (w := MatchFormat.wins_required _) in *.
  destruct (bool_decide_reflect (score1 < 0)) as [?|Hn1]; cbn [orb]; [split; [done|lia]|].
  destruct (bool_decide_reflect (score2 < 0)) as [?|Hn2]; [split; [done|lia]|].
  assert (Hm : i32_sub (i32_mul w 2) 1 = 2 * w - 1).
  { unfold i32_sub, i32_mul. rewrite (as_i32_id (w * 2)), as_i32_id;
      unfold in_i32, i32_min, i32_max; lia. }
  rewrite Hm. clear Hm.
  assert (Hrest :
    (if bool_decide (i32_add score1 score2 < w) || bool_decide (i32_add score1 score2 > 2 * w - 1) then
       throw (invalid_result
         (ResultValidationError.InsufficientGames (as_u32 w) (as_u32 (i32_add score1 score2))))
     else if bool_decide (games = []) then Ok tt
     else if negb (bool_decide (Z.of_nat (length games) = i32_add score1 score2 `mod` 2 ^ 64)) then
       throw (invalid_result ResultValidationError.GameScoresMismatch)
     else
       let? _ := check_games 0 games in
       let p1_game_wins := p1_games games in
       let p2_game_wins := i32_sub (as_i32 (Z.of_nat (length games))) p1_game_wins in
       if negb (bool_decide (p1_game_wins = score1)) || negb (bool_decide (p2_game_wins = score2)) then
         throw (invalid_result ResultValidationError.GameScoresMismatch)
       else Ok tt) = Ok tt ↔
    w ≤ score1 + score2 ≤ 2 * w - 1 ∧ (games = [] ∨ legal_games score1 score2 games)).
  { destruct (i32_add_scores score1 score2) as [[Hfit ->]|[Hwrap Hneg]]; [lia|lia|done|done| |].
    - destruct (bool_decide_reflect (score1 + score2 < w)); cbn [orb]; [split; [done|lia]|].
      destruct (bool_decide_reflect (score1 + score2 > 2 * w - 1)); [split; [done|lia]|].
      destruct (bool_decide_reflect (games = [])) as [->|Hg]; [split; [|done]; intros _; split; [lia|by left]|].
      rewrite validate_games_iff by (done || lia). split; [intros ?; split; [lia|by right]|].
      by intros [_ [?|?]].
    - rewrite (bool_decide_true (_ < w)) by lia. cbn [orb].
      split; [done|]. unfold i32_max in *. lia. }
  destruct (bool_decide_reflect (TournamentMatch.participant1_registration_id match_ = Some winner))
    as [Hp1|Hp1]; cbn [orb andb negb].
  - destruct (bool_decide_reflect (score1 ≤ score2)); [split; [done|]|].
    + intros [(_ & _ & [[_ ?]|[? _]] & _) _]; [lia|done].
    + rewrite Hrest. split; [|tauto]. intros [? ?]. split; [|done]. split_and!; [lia|lia|left|lia|lia].
      split; [done|lia].
  - destruct (bool_decide_reflect (TournamentMatch.participant2_registration_id match_ = Some winner))
      as [Hp2|Hp2]; cbn [orb andb negb].
    + destruct (bool_decide_reflect (score2 ≤ score1)); [split; [done|]|].
      * intros [(_ & _ & [[? _]|[_ [_ ?]]] & _) _]; [done|lia].
      * rewrite Hrest. split; [|tauto]. intros [? ?]. split; [|done]. split_and!; [lia|lia|right|lia|lia].
        split_and!; [done|done|lia].
    + split; [done|]. intros [(_ & _ & [[? _]|[_ [? _]]] & _) _]; done.
Qed.

(** ** The operations *)

(** Take one [let*] of [H : (let* x := c in k) db = (r, db')] apart. *)
Ltac mstep H :=
  let a := fresh "a" in let db1 := fresh "db" in let H1 := fresh "Hrun" in let e := fresh "e" in
  apply mbind_inv in H as [(a & db1 & H1 & H)|(e & H1 & ->)].

(** The tables after a confirmation. *)
Section claims.
Context `{Platform}.

Definition write_claim (id : ResultClaimId) (c : ResultClaim.t) (db : Db.t) : Db.t :=
  db <| Db.result_claims := <[id := c]> (Db.result_claims db) |>.
Definition write_match (id : TournamentMatchId) (m : TournamentMatch.t) (db : Db.t) : Db.t :=
  db <| Db.matches := <[id := m]> (Db.matches db) |>.

(** A match's own row, given that rows are stored under their identifier. *)
Definition matches_keyed (db : Db.t) : Prop :=
  ∀ id m, Db.matches db !! id = Some m → TournamentMatch.id m = id.

Lemma ok_or_run {A} (o : option A) e db r db' :
  mlift (ok_or o e) db = (r, db') → db' = db ∧ ok_or o e = r.
Proof. by intros [= <- <-]. Qed.

Lemma get_match_inv id db r db' :
  get_match id db = (r, db') →
  db' = db ∧
  ((∃ m, Db.matches db !! id = Some m ∧ r = Ok m) ∨
   (Db.matches db !! id = None ∧ r = throw (DomainError.TournamentMatchNotFound id))).
Proof.
  destruct (Db.matches db !! id) as [m|] eqn:Hm.
  - rewrite (get_match_found _ _ _ Hm). intros [= <- <-]. eauto.
  - rewrite (get_match_missing _ _ Hm). intros [= <- <-]. eauto.
Qed.

Lemma get_claim_inv id db r db' :
  ResultService.get_claim id db = (r, db') →
  db' = db ∧
  ((∃ c, Db.result_claims db !! id = Some c ∧ r = Ok c) ∨
   (Db.result_claims db !! id = None ∧ r = throw (DomainError.ResultClaimNotFound id))).
Proof.
  unfold ResultService.get_claim, ResultClaimRepository.find_by_id, mbind, mread, mlift.
  destruct (Db.result_claims db !! id) as [c|]; simpl; intros [= <- <-]; eauto.
Qed.

Lemma exec_match_run id set db m :
  Db.matches db !! id = Some m →
  exec_match id set db = (Ok tt, write_match id (set (Db.now db) m) db).
Proof.
  intros Hm. unfold exec_match, mwrite, write_match. do 2 f_equal. cbn [setter].
  destruct db; cbn in *. f_equal. apply map_eq. intros i.
  destruct (decide (i = id)) as [->|Hne].
  - by rewrite lookup_alter_eq, Hm, lookup_insert_eq.
  - by rewrite lookup_alter_ne, lookup_insert_ne.
Qed.

Lemma exec_match_write_claim id set cid c db m :
  Db.matches db !! id = Some m →
  exec_match id set (write_claim cid c db) =
  (Ok tt, write_match id (set (Db.now db) m) (write_claim cid c db)).
Proof. intros Hm. exact (exec_match_run id set (write_claim cid c db) m Hm). Qed.

Lemma update_pending_inv id set db r db' :
  ResultClaimRepository.update_pending id set db = (r, db') →
  (∃ c, Db.result_claims db !! id = Some c ∧ ResultClaim.is_pending c = true ∧
        r = Ok (set (Db.now db) c) ∧ db' = write_claim id (set (Db.now db) c) db) ∨
  (r = throw ResultClaimRepository.already_resolved ∧ db' = db).
Proof.
  unfold ResultClaimRepository.update_pending.
  destruct (Db.result_claims db !! id) as [c|] eqn:Hc; [|by intros [= <- <-]; right].
  destruct (ResultClaim.is_pending c) eqn:Hp; intros [= <- <-]; [|by right].
  left. exists c. done.
Qed.

Lemma update_pending_run id set db c :
  Db.result_claims db !! id = Some c → ResultClaim.is_pending c = true →
  ResultClaimRepository.update_pending id set db =
  (Ok (set (Db.now db) c), write_claim id (set (Db.now db) c) db).
Proof. intros Hc Hp. unfold ResultClaimRepository.update_pending. by rewrite Hc, Hp. Qed.

Lemma update_pending_stale id set db :
  (∀ c, Db.result_claims db !! id = Some c → ResultClaim.is_pending c = false) →
  ResultClaimRepository.update_pending id set db =
  (throw ResultClaimRepository.already_resolved, db).
Proof.
  intros Hc. unfold ResultClaimRepository.update_pending.
  destruct (Db.result_claims db !! id) as [c|] eqn:Hid; [|done]. by rewrite (Hc c).
Qed.

Lemma confirm_and_apply_run id reg user auto mid winner loser s1 s2 db c m :
  Db.result_claims db !! id = Some c → ResultClaim.is_pending c = true →
  Db.matches db !! mid = Some m →
  ResultClaimRepository.confirm_and_apply_to_match id reg user auto mid winner loser s1 s2 db =
  (Ok (set_confirmed reg user auto (Db.now db) c),
   write_match mid (set_result s1 s2 winner loser (Db.now db) m)
     (write_claim id (set_confirmed reg user auto (Db.now db) c) db)).
Proof.
  intros Hc Hp Hm. unfold ResultClaimRepository.confirm_and_apply_to_match.
  apply transaction_step. rewrite (mbind_step _ _ _ _ _ (update_pending_run _ _ _ _ Hc Hp)).
  by rewrite (mbind_step _ _ _ _ _ (exec_match_write_claim _ _ _ _ _ _ Hm)).
Qed.

(** The second of two racing confirmations: a conflict that writes nothing. *)
Lemma confirm_and_apply_stale id reg user auto mid winner loser s1 s2 db :
  (∀ c, Db.result_claims db !! id = Some c → ResultClaim.is_pending c = false) →
  ResultClaimRepository.confirm_and_apply_to_match id reg user auto mid winner loser s1 s2 db =
  (throw ResultClaimRepository.already_resolved, db).
Proof.
  intros Hc. unfold ResultClaimRepository.confirm_and_apply_to_match.
  eapply transaction_abort, mbind_stop, update_pending_stale, Hc.
Qed.

(** What a confirmation needs and what it leaves. *)
Definition confirmed_db (id : ResultClaimId) (c : ResultClaim.t) (m : TournamentMatch.t)
    (reg : TournamentRegistrationId) (user : option UserId) (auto : bool)
    (loser : TournamentRegistrationId) (db : Db.t) : Db.t :=
  write_match (ResultClaim.match_id c)
    (set_result (ResultClaim.claimed_participant1_score c) (ResultClaim.claimed_participant2_score c)
       (ResultClaim.claimed_winner_registration_id c) loser (Db.now db) m)
    (write_claim id (set_confirmed reg user auto (Db.now db) c) db).

Lemma confirm_claim_inv self id actor db r db' :
  matches_keyed db →
  ResultService.confirm_claim self id actor db = (r, db') →
  (∃ c m reg loser,
     Db.result_claims db !! id = Some c ∧ ResultClaim.is_pending c = true ∧
     Db.matches db !! ResultClaim.match_id c = Some m ∧
     find_actor_registration (ResultService.adhoc_repo self) m actor db = (Ok reg, db) ∧
     ResultClaim.submitted_by_registration_id c ≠ Some reg ∧
     loser_of m (ResultClaim.claimed_winner_registration_id c) = Some loser ∧
     r = Ok (set_confirmed reg (Some (RegistrationActor.user_id actor)) false (Db.now db) c) ∧
     db' = confirmed_db id c m reg (Some (RegistrationActor.user_id actor)) false loser db) ∨
  (∃ e, r = Err e ∧ db' = db).
Proof.
  intros Hkey Hrun. unfold ResultService.confirm_claim in Hrun.
  mstep Hrun; apply get_claim_inv in Hrun0 as [-> Hc]; [|by right; eauto].
  destruct Hc as [(c & Hc & [= ->])|[_ [=]]].
  destruct (ResultClaim.is_pending c) eqn:Hp; cbn [negb] in Hrun; [|injection Hrun as <- <-; eauto].
  mstep Hrun; apply get_match_inv in Hrun0 as [-> Hm]; [|by right; eauto].
  destruct Hm as [(m & Hm & [= ->])|[_ [=]]].
  mstep Hrun; pose proof (find_actor_registration_reads _ _ _ _ _ _ Hrun0) as [-> _]; [|by right; eauto].
  rename Hrun0 into Hactor.
  case_bool_decide as Hown; [injection Hrun as <- <-; eauto|].
  mstep Hrun; apply ok_or_run in Hrun0 as [-> Hl]; [|by right; eauto].
  rewrite (Hkey _ _ Hm), (confirm_and_apply_run _ _ _ _ _ _ _ _ _ _ _ _ Hc Hp Hm) in Hrun.
  injection Hrun as <- <-. left. exists c, m, a, a0. split_and!; try done.
  by apply ok_or_ok in Hl.
Qed.

(** ** Reads *)

Lemma preserves_eq_inv {A} (c : M A) db r db' : preserves eq c → c db = (r, db') → db' = db.
Proof. intros Hc Hrun. specialize (Hc db). rewrite Hrun in Hc. done. Qed.

Lemma validate_claim_reads self m w s1 s2 games :
  preserves eq (ResultService.validate_claim self m w s1 s2 games).
Proof.
  unfold ResultService.validate_claim, ResultService.validate_map_ids, find_veto_session_by_match. frame.
Qed.

Lemma check_demo_links_reads mid ids : preserves eq (ResultService.check_demo_links mid ids).
Proof. unfold ResultService.check_demo_links. frame. Qed.

Lemma find_actor_registration_eq repo m actor : preserves eq (find_actor_registration repo m actor).
Proof.
  intros db. destruct (find_actor_registration repo m actor db) as [r db'] eqn:Hr.
  by apply find_actor_registration_reads in Hr as [-> _].
Qed.

Lemma authorize_claim_dispute_reads self id actor :
  preserves eq (ResultService.authorize_claim_dispute self id actor).
Proof.
  unfold ResultService.authorize_claim_dispute, ResultService.get_claim, get_match,
    ResultClaimRepository.find_by_id, find_match_by_id, ResultService.claim_refused.
  pose proof find_actor_registration_eq. frame.
Qed.

(** ** Submitting *)

(** The claim table after [create_and_supersede_pending]. *)
Definition supersede (mid : TournamentMatchId) (db : Db.t) : gmap ResultClaimId ResultClaim.t :=
  (λ c, if bool_decide (ResultClaim.match_id c = mid) && ResultClaim.is_pending c
        then set_claim_status ClaimStatus.Superseded (Db.now db) c else c) <$> Db.result_claims db.

Definition submitted_claim (cmd : CreateResultClaim.t) (db : Db.t) : ResultClaim.t :=
  ResultClaimRepository.inserted (Db.next_uuid db) (Db.now db) cmd.

Definition submitted_db (cmd : CreateResultClaim.t) (db : Db.t) : Db.t :=
  db <| Db.next_uuid := N.succ (Db.next_uuid db) |>
     <| Db.result_claims := <[Db.next_uuid db := submitted_claim cmd db]>
          (supersede (CreateResultClaim.match_id cmd) db) |>.

Lemma create_and_supersede_run cmd db :
  ResultClaimRepository.create_and_supersede_pending cmd db =
  (Ok (submitted_claim cmd db), submitted_db cmd db).
Proof. reflexivity. Qed.

(** The match's move to [awaiting_result], with its log row. *)
Definition submit_log (mid : TournamentMatchId) (m : TournamentMatch.t) (db : Db.t) : MatchStatusLog.t :=
  MatchStatusLog.mk _ (Db.next_uuid db) mid (TournamentMatch.status m)
    TournamentMatchStatus.AwaitingResult
    (Some "Result claim submitted; awaiting opponent confirmation") None true
    (json_of_object [("job_name", json_of_string "result_submitted")]) (Db.now db).

Definition awaiting_db (mid : TournamentMatchId) (m : TournamentMatch.t) (db : Db.t) : Db.t :=
  write_match mid
    (m <| TournamentMatch.status := TournamentMatchStatus.AwaitingResult |>
       <| TournamentMatch.updated_at := Db.now db |>) db
    <| Db.next_uuid := N.succ (Db.next_uuid db) |>
    <| Db.status_log := Db.status_log db ++ [submit_log mid m db] |>.

Lemma transition_awaiting mid m db :
  Db.matches db !! mid = Some m → TournamentMatch.status m = TournamentMatchStatus.InProgress →
  ∃ m', transition mid TournamentMatchStatus.AwaitingResult
          (TransitionTrigger.System "result_submitted")
          (Some "Result claim submitted; awaiting opponent confirmation") db =
        (Ok m', awaiting_db mid m db).
Proof.
  intros Hm Hs. unfold transition. rewrite (mbind_step _ _ _ _ _ (get_match_found _ _ _ Hm)).
  assert (TournamentMatchStatus.can_transition_to (TournamentMatch.status m)
            TournamentMatchStatus.AwaitingResult = true) as -> by by rewrite Hs.
  cbn [negb]. unfold update_status. rewrite (mbind_step _ _ _ _ _ (update_match_found _ _ _ _ Hm)).
  unfold awaiting_db, submit_log. rewrite Hs. eexists. reflexivity.
Qed.

(** The row a participant's submission inserts. *)
Definition participant_claim (self : ResultService.t) (mid : TournamentMatchId)
    (winner : TournamentRegistrationId) (s1 s2 : Z) (games : list GameResult.t)
    (evidence_ids : list EvidenceId) (demo_link_ids : list DemoMatchLinkId) (notes : option string)
    (reg : TournamentRegistrationId) (actor : RegistrationActor.t) (db : Db.t)
    : CreateResultClaim.t :=
  CreateResultClaim.mk mid (Some reg) (Some (RegistrationActor.user_id actor)) "participant" winner
    s1 s2 games (Db.now db + seconds (ResultService.auto_confirm_timeout_seconds self)) evidence_ids
    demo_link_ids notes.

(** The transition follows only a submission for a match in progress. *)
Definition after_submission (self : ResultService.t) (mid : TournamentMatchId)
    (m : TournamentMatch.t) (db : Db.t) : Db.t :=
  match TournamentMatch.status m, ResultService.match_transitioner self with
  | TournamentMatchStatus.InProgress, Some _ => awaiting_db mid m db
  | _, _ => db
  end.

(** The transitioner, if there is one, is the lifecycle service. *)
Definition lifecycle_wired (self : ResultService.t) : Prop :=
  ∀ t, ResultService.match_transitioner self = Some t → t = MatchStatusTransitioner.lifecycle.

Lemma submit_claim_inv self mid winner s1 s2 games ev demos notes actor db r db' :
  lifecycle_wired self →
  ResultService.submit_claim self mid winner s1 s2 games ev demos notes actor db = (r, db') →
  (∃ m reg rs,
     let cmd := participant_claim self mid winner s1 s2 rs ev demos notes reg actor db in
     Db.matches db !! mid = Some m ∧ TournamentMatch.can_submit_result m = true ∧
     find_actor_registration (ResultService.adhoc_repo self) m actor db = (Ok reg, db) ∧
     ResultService.validate_claim self m winner s1 s2 games db = (Ok tt, db) ∧
     ResultService.check_demo_links mid demos db = (Ok tt, db) ∧
     convert_game_results m games = Ok rs ∧
     r = Ok (submitted_claim cmd db) ∧
     db' = after_submission self mid m (submitted_db cmd db)) ∨
  (∃ e, r = Err e ∧ db' = db).
Proof.
  intros Hwired Hrun. unfold ResultService.submit_claim in Hrun.
  mstep Hrun; apply get_match_inv in Hrun0 as [-> Hm]; [|by right; eauto].
  destruct Hm as [(m & Hm & [= ->])|[_ [=]]].
  destruct (TournamentMatch.can_submit_result m) eqn:Hsub; cbn [negb] in Hrun;
    [|injection Hrun as <- <-; eauto].
  mstep Hrun; pose proof (find_actor_registration_reads _ _ _ _ _ _ Hrun0) as [-> _]; [|by right; eauto].
  rename Hrun0 into Hactor.
  mstep Hrun; pose proof (preserves_eq_inv _ _ _ _ (validate_claim_reads _ _ _ _ _ _) Hrun0) as ->;
    [|by right; eauto].
  rename Hrun0 into Hvalid. destruct a0.
  mstep Hrun; pose proof (preserves_eq_inv _ _ _ _ (check_demo_links_reads _ _) Hrun0) as ->;
    [|by right; eauto].
  rename Hrun0 into Hdemos. destruct a0.
  mstep Hrun; injection Hrun0 as Hconv <-; [|by right; eauto].
  rename a0 into rs.
  unfold mbind at 1, mread in Hrun. rewrite (mbind_step _ _ _ _ _ (create_and_supersede_run _ _)) in Hrun.
  left. exists m, a, rs. cbv zeta. split_and!; try done.
  all: unfold after_submission, participant_claim; revert Hrun.
  all: destruct (TournamentMatch.status m) eqn:Hs; try (by intros [= <- <-]).
  all: destruct (ResultService.match_transitioner self) as [t|] eqn:Ht; try (by intros [= <- <-]).
  all: rewrite (Hwired _ Ht); cbn [MatchStatusTransitioner.transition_status
         MatchStatusTransitioner.lifecycle].
  all: match goal with |- mbind (transition _ _ _ _) _ ?d = _ → _ =>
         destruct (transition_awaiting mid m d Hm Hs) as [m' Htr] end.
  all: rewrite (mbind_step _ _ _ _ _ Htr); by intros [= <- <-].
Qed.

Definition server_claim (mid : TournamentMatchId) (winner : TournamentRegistrationId) (s1 s2 : Z)
    (games : list GameResult.t) (auto_confirm_at : DateTime) : CreateResultClaim.t :=
  CreateResultClaim.mk mid None None "server" winner s1 s2 games auto_confirm_at [] []
    (Some "Automatically reported by the game server").

Lemma submit_server_claim_inv self mid winner s1 s2 games at_ db r db' :
  ResultService.submit_server_claim self mid winner s1 s2 games at_ db = (r, db') →
  (∃ m rs,
     let cmd := server_claim mid winner s1 s2 rs at_ in
     Db.matches db !! mid = Some m ∧ TournamentMatch.can_submit_result m = true ∧
     (∀ c, ResultClaimRepository.current_claim mid db = Some c → ResultClaim.is_pending c = false) ∧
     ResultService.validate_claim self m winner s1 s2 games db = (Ok tt, db) ∧
     convert_game_results m games = Ok rs ∧
     r = Ok (submitted_claim cmd db) ∧ db' = submitted_db cmd db) ∨
  (∃ e, r = Err e ∧ db' = db).
Proof.
  intros Hrun. unfold ResultService.submit_server_claim in Hrun.
  mstep Hrun; apply get_match_inv in Hrun0 as [-> Hm]; [|by right; eauto].
  destruct Hm as [(m & Hm & [= ->])|[_ [=]]].
  destruct (TournamentMatch.can_submit_result m) eqn:Hsub; cbn [negb] in Hrun;
    [|injection Hrun as <- <-; eauto].
  unfold mbind at 1, ResultClaimRepository.find_current_by_match, mread in Hrun.
  assert (∀ k : unit → M ResultClaim.t,
    mbind (match ResultClaimRepository.current_claim mid db with
           | Some existing =>
               if ResultClaim.is_pending existing then
                 mthrow (DomainError.Conflict ("a result claim (" +:+
                   uuid_string (ResultClaim.id existing) +:+ ") is already pending for this match"))
               else mret tt
           | None => mret tt end) k db = (r, db') →
    ((∀ c, ResultClaimRepository.current_claim mid db = Some c → ResultClaim.is_pending c = false) ∧
     k tt db = (r, db')) ∨ (∃ e, r = Err e ∧ db' = db)) as Hguard.
  { intros k. destruct (ResultClaimRepository.current_claim mid db) as [c|]; [|by left].
    destruct (ResultClaim.is_pending c) eqn:Hc; [intros [= <- <-]; eauto|].
    intros Hk. left. split; [by intros ? [= <-]|done]. }
  apply Hguard in Hrun as [[Hcur Hrun]|?]; [|by right]. clear Hguard.
  mstep Hrun; pose proof (preserves_eq_inv _ _ _ _ (validate_claim_reads _ _ _ _ _ _) Hrun0) as ->;
    [|by right; eauto].
  rename Hrun0 into Hvalid. destruct a.
  mstep Hrun; injection Hrun0 as Hconv <-; [|by right; eauto].
  rewrite create_and_supersede_run in Hrun. injection Hrun as <- <-.
  left. by exists m, a.
Qed.

(** ** Cancelling and correcting *)

Lemma cancel_claim_inv id user db r db' :
  ResultService.cancel_claim id user db = (r, db') →
  (∃ c, Db.result_claims db !! id = Some c ∧ ResultClaim.is_pending c = true ∧
        ResultClaim.submitted_by_user_id c = Some user ∧
        r = Ok (set_claim_status ClaimStatus.Cancelled (Db.now db) c) ∧
        db' = write_claim id (set_claim_status ClaimStatus.Cancelled (Db.now db) c) db) ∨
  (∃ e, r = Err e ∧ db' = db).
Proof.
  intros Hrun. unfold ResultService.cancel_claim in Hrun.
  mstep Hrun; apply get_claim_inv in Hrun0 as [-> Hc]; [|by right; eauto].
  destruct Hc as [(c & Hc & [= ->])|[_ [=]]].
  destruct (ResultClaim.is_pending c) eqn:Hp; cbn [negb] in Hrun; [|injection Hrun as <- <-; eauto].
  case_bool_decide as Hu; cbn [negb] in Hrun; [|injection Hrun as <- <-; eauto].
  unfold ResultClaimRepository.update_status in Hrun.
  rewrite (update_pending_run _ _ _ _ Hc Hp) in Hrun. injection Hrun as <- <-. left. by exists c.
Qed.

(** The audit row of a correction. *)
Definition override_audit (mid : TournamentMatchId) (m : TournamentMatch.t) (s1 s2 : Z)
    (winner : TournamentRegistrationId) (reason : string) (changed_by : PlayerId)
    (request_id : option string) : CreateEntityChange.t :=
  CreateEntityChange.mk _ MATCH_RESULT_OVERRIDE_ENTITY mid ChangeType.Update
    (Some MATCH_RESULT_OVERRIDE_FIELD) (Some (ResultService.result_snapshot m))
    (Some (ResultService.corrected_snapshot s1 s2 winner reason)) changed_by request_id None None.

Lemma override_result_inv mid s1 s2 reason by_ request db r db' :
  ResultService.override_result mid s1 s2 reason by_ request db = (r, db') →
  (∃ m winner loser,
     let m' := set_result s1 s2 winner loser (Db.now db) m in
     Db.matches db !! mid = Some m ∧ is_Some (TournamentMatch.winner_registration_id m) ∧
     derive_result_outcome m s1 s2 = Ok (winner, loser) ∧ r = Ok m' ∧
     db' = write_match mid m' db
             <| Db.next_uuid := N.succ (Db.next_uuid db) |>
             <| Db.entity_changes := Db.entity_changes db ++
                  [inserted_change (Db.next_uuid db) (Db.now db)
                     (override_audit mid m s1 s2 winner reason by_ request)] |>) ∨
  (∃ e, r = Err e ∧ db' = db).
Proof.
  intros Hrun. unfold ResultService.override_result in Hrun.
  mstep Hrun; apply get_match_inv in Hrun0 as [-> Hm]; [|by right; eauto].
  destruct Hm as [(m & Hm & [= ->])|[_ [=]]].
  case_bool_decide as Hw; [injection Hrun as <- <-; eauto|].
  mstep Hrun; apply pair_eq in Hrun0 as [Hout <-]; [|by right; eauto].
  destruct a as [winner loser]. left. exists m, winner, loser. cbv zeta.
  unfold override_result_audited, transaction, submit_result_in_tx in Hrun.
  rewrite (mbind_step _ _ _ _ _ (update_match_found _ _ _ _ Hm)) in Hrun. injection Hrun as <- <-.
  split_and!; try done. by apply not_eq_None_Some.
Qed.

(** ** The invariant *)

(** Nobody has confirmed a claim of their own side. *)
Definition confirmed_by_other (c : ResultClaim.t) : Prop :=
  ResultClaim.is_confirmed c = true →
  ∃ reg, ResultClaim.confirmed_by_registration_id c = Some reg ∧
         ResultClaim.submitted_by_registration_id c ≠ Some reg.

Record claims_wf (db : Db.t) : Prop := {
  cw_matches : matches_keyed db;
  cw_sides : ∀ mid m w, Db.matches db !! mid = Some m →
    TournamentMatch.participant1_registration_id m = Some w →
    TournamentMatch.participant2_registration_id m ≠ Some w;
  cw_ids : ∀ id c, Db.result_claims db !! id = Some c → ResultClaim.id c = id;
  cw_fresh : ∀ id c, Db.result_claims db !! id = Some c → (id < Db.next_uuid db)%N;
  cw_one_pending : ∀ id1 id2 c1 c2,
    Db.result_claims db !! id1 = Some c1 → Db.result_claims db !! id2 = Some c2 →
    ResultClaim.is_pending c1 = true → ResultClaim.is_pending c2 = true →
    ResultClaim.match_id c1 = ResultClaim.match_id c2 → id1 = id2;
  cw_confirmed : ∀ id c, Db.result_claims db !! id = Some c → confirmed_by_other c;
}.

(** The other side of a match is another registration. *)
Lemma loser_of_ne db mid m w l :
  claims_wf db → Db.matches db !! mid = Some m → loser_of m w = Some l → l ≠ w.
Proof.
  intros Hwf Hm. unfold loser_of. case_bool_decide as Hw; intros Hl ->; [|done].
  exact (cw_sides _ Hwf _ _ _ Hm Hw Hl).
Qed.

Lemma elem_of_claims_where P db c :
  c ∈ ResultClaimRepository.claims_where P db ↔
  P c = true ∧ ∃ id, Db.result_claims db !! id = Some c.
Proof.
  unfold ResultClaimRepository.claims_where. rewrite list_elem_of_filter, list_elem_of_fmap.
  split; intros [HP (x & Hx)]; (split; [done|]).
  - destruct x as [id c'], Hx as [-> Hx]. exists id. by apply elem_of_map_to_list.
  - exists (x, c). split; [done|]. by apply elem_of_map_to_list.
Qed.

(** ** Confirmation by the clock *)

(** The match, the side recorded as confirming and the loser, when both sides are known. *)
Definition auto_outcome (db : Db.t) (c : ResultClaim.t)
    : option (TournamentMatch.t * TournamentRegistrationId * TournamentRegistrationId) :=
  m ← Db.matches db !! ResultClaim.match_id c;
  opponent ← loser_of m (default (ResultClaim.claimed_winner_registration_id c)
                           (ResultClaim.submitted_by_registration_id c));
  loser ← loser_of m (ResultClaim.claimed_winner_registration_id c);
  Some (m, opponent, loser).

Definition auto_confirmed (now : DateTime) (c : ResultClaim.t) (opponent : TournamentRegistrationId)
    : ResultClaim.t :=
  set_confirmed opponent (ResultClaim.submitted_by_user_id c) true now c.

Definition auto_db (c : ResultClaim.t) (db : Db.t) : Db.t :=
  match auto_outcome db c with
  | Some (m, opponent, loser) =>
      confirmed_db (ResultClaim.id c) c m opponent (ResultClaim.submitted_by_user_id c) true loser db
  | None => db
  end.

Lemma auto_confirm_claim_run c db :
  matches_keyed db → Db.result_claims db !! ResultClaim.id c = Some c →
  ResultClaim.is_pending c = true →
  match auto_outcome db c with
  | Some (m, opponent, _) =>
      ResultService.auto_confirm_claim c db =
      (Ok (auto_confirmed (Db.now db) c opponent), auto_db c db)
  | None => ∃ e, ResultService.auto_confirm_claim c db = (throw e, db)
  end.
Proof.
  intros Hkey Hc Hp. unfold auto_db, ResultService.auto_confirm_claim.
  destruct (auto_outcome db c) as [[[m opp] loser]|] eqn:Hout; unfold auto_outcome in Hout.
  - destruct (Db.matches db !! ResultClaim.match_id c) as [m'|] eqn:Hm; [|done]. cbn in Hout.
    rewrite (mbind_step _ _ _ _ _ (get_match_found _ _ _ Hm)).
    destruct (loser_of m' (default _ _)) as [opp'|] eqn:Ho; [|done]. cbn in Hout.
    destruct (loser_of m' (ResultClaim.claimed_winner_registration_id c)) as [l|] eqn:Hl; [|done].
    injection Hout as <- <- <-.
    assert (∀ A B (a : A) (k : A → M B), mbind (mlift (Ok a)) k db = k a db) as Hlift by done.
    cbn [ok_or]. rewrite !Hlift, (Hkey _ _ Hm).
    by rewrite (confirm_and_apply_run _ _ _ _ _ _ _ _ _ _ _ _ Hc Hp Hm).
  - destruct (Db.matches db !! ResultClaim.match_id c) as [m'|] eqn:Hm; cbn in Hout.
    + rewrite (mbind_step _ _ _ _ _ (get_match_found _ _ _ Hm)).
      destruct (loser_of m' (default _ _)) as [opp'|]; cbn in Hout; [|by eexists].
      destruct (loser_of m' (ResultClaim.claimed_winner_registration_id c)) as [l|]; [done|].
      by eexists.
    + eexists. apply mbind_stop. apply get_match_missing. done.
Qed.

Lemma auto_db_now c db : Db.now (auto_db c db) = Db.now db.
Proof. unfold auto_db. by destruct (auto_outcome db c) as [[[m o] l]|]. Qed.

Lemma auto_db_claims c db :
  Db.result_claims (auto_db c db) =
  match auto_outcome db c with
  | Some (_, opponent, _) =>
      <[ResultClaim.id c := auto_confirmed (Db.now db) c opponent]> (Db.result_claims db)
  | None => Db.result_claims db
  end.
Proof. unfold auto_db. by destruct (auto_outcome db c) as [[[m o] l]|]. Qed.

Lemma auto_db_matches c db :
  Db.matches (auto_db c db) =
  match auto_outcome db c with
  | Some (m, _, loser) =>
      <[ResultClaim.match_id c :=
          set_result (ResultClaim.claimed_participant1_score c)
            (ResultClaim.claimed_participant2_score c)
            (ResultClaim.claimed_winner_registration_id c) loser (Db.now db) m]> (Db.matches db)
  | None => Db.matches db
  end.
Proof. unfold auto_db. by destruct (auto_outcome db c) as [[[m o] l]|]. Qed.

Lemma auto_outcome_match db c m o l :
  auto_outcome db c = Some (m, o, l) → Db.matches db !! ResultClaim.match_id c = Some m.
Proof.
  unfold auto_outcome. destruct (Db.matches db !! _) as [m'|]; [|done]. cbn.
  destruct (loser_of m' (default _ _)); [|done]. cbn.
  destruct (loser_of m' (ResultClaim.claimed_winner_registration_id c)); [|done].
  intros Heq. injection Heq as <- _ _. done.
Qed.

Lemma auto_db_keyed c db : matches_keyed db → matches_keyed (auto_db c db).
Proof.
  intros Hkey mid m. rewrite auto_db_matches.
  destruct (auto_outcome db c) as [[[m' o] l]|] eqn:Ho; [|apply Hkey].
  intros [[<- <-]|[_ Hm]]%lookup_insert_Some; [|by apply Hkey].
  cbn. by eapply Hkey, auto_outcome_match.
Qed.

(** Claims on different matches do not interfere. *)
Lemma auto_outcome_other c c' db :
  ResultClaim.match_id c ≠ ResultClaim.match_id c' →
  auto_outcome (auto_db c db) c' = auto_outcome db c'.
Proof.
  intros Hne. unfold auto_outcome at 1. rewrite auto_db_matches.
  destruct (auto_outcome db c) as [[[m' o] l]|]; [|done]. by rewrite lookup_insert_ne.
Qed.

(** The whole sweep, over claims of distinct matches. *)
Lemma auto_confirm_all_run cs db :
  matches_keyed db → NoDup (ResultClaim.match_id <$> cs) → NoDup (ResultClaim.id <$> cs) →
  Forall (λ c, Db.result_claims db !! ResultClaim.id c = Some c ∧ ResultClaim.is_pending c = true) cs →
  ResultService.auto_confirm_all cs db =
  (Ok (omap (λ c, '(_, opponent, _) ← auto_outcome db c; Some (auto_confirmed (Db.now db) c opponent)) cs),
   fold_left (λ db c, auto_db c db) cs db).
Proof.
  revert db. induction cs as [|c cs IH]; intros db Hkey Hm Hid Hcs; [done|].
  rewrite fmap_cons in Hm, Hid. apply NoDup_cons in Hm as [Hm Hms], Hid as [Hid Hids].
  apply Forall_cons in Hcs as [[Hc Hp] Hcs]. cbn [ResultService.auto_confirm_all fold_left].
  pose proof (auto_confirm_claim_run c db Hkey Hc Hp) as Hrun.
  assert (∃ res, mtry (ResultService.auto_confirm_claim c) db = (Ok res, auto_db c db) ∧
            match res with Ok x => Some x | Err _ => None end =
            '(_, opponent, _) ← auto_outcome db c; Some (auto_confirmed (Db.now db) c opponent))
    as (res & Hstep & Hres).
  { unfold mtry. destruct (auto_outcome db c) as [[[m o] l]|] eqn:Ho.
    - rewrite Hrun. eexists. split; reflexivity.
    - destruct Hrun as [e ->]. unfold auto_db. rewrite Ho. eexists. split; reflexivity. }
  assert (Forall (λ x, Db.result_claims (auto_db c db) !! ResultClaim.id x = Some x ∧
                       ResultClaim.is_pending x = true) cs) as Hcs'.
  { rewrite Forall_forall in Hcs |- *. intros x Hx. destruct (Hcs x Hx) as [Hlook ?]. split; [|done].
    rewrite auto_db_claims. destruct (auto_outcome db c) as [[[m o] l]|]; [|done].
    rewrite lookup_insert_ne; [done|]. intros Heq. apply Hid. rewrite Heq. by apply list_elem_of_fmap_2. }
  specialize (IH (auto_db c db) (auto_db_keyed _ _ Hkey) Hms Hids Hcs').
  rewrite (mbind_step _ _ _ _ _ Hstep), (mbind_step _ _ _ _ _ IH).
  unfold mret. do 2 f_equal. cbn [omap list_omap]. rewrite <- Hres, auto_db_now.
  replace (omap (λ c0, '(_, opponent, _) ← auto_outcome (auto_db c db) c0;
             Some (auto_confirmed (Db.now db) c0 opponent)) cs)
    with (omap (λ c0, '(_, opponent, _) ← auto_outcome db c0;
             Some (auto_confirmed (Db.now db) c0 opponent)) cs); [by destruct res|].
  apply list_omap_ext, Forall2_same_length_lookup. split; [done|]. intros i x y Hx Hy.
  simplify_eq. rewrite auto_outcome_other; [done|]. intros Heq. apply Hm. rewrite Heq.
  apply list_elem_of_fmap_2. by eapply list_elem_of_lookup_2.
Qed.

(** ** The tables after the sweep *)

Definition sweep_db (cs : list ResultClaim.t) (db : Db.t) : Db.t :=
  fold_left (λ db c, auto_db c db) cs db.

Lemma sweep_now cs db : Db.now (sweep_db cs db) = Db.now db.
Proof.
  unfold sweep_db. revert db. induction cs as [|c cs IH]; intros db; [done|].
  cbn [fold_left]. by rewrite IH, auto_db_now.
Qed.

Lemma sweep_other_claim cs db id :
  id ∉ ResultClaim.id <$> cs →
  Db.result_claims (sweep_db cs db) !! id = Db.result_claims db !! id.
Proof.
  unfold sweep_db. revert db. induction cs as [|c cs IH]; intros db; [done|].
  rewrite fmap_cons, not_elem_of_cons. intros [Hc Hcs]. cbn [fold_left]. rewrite IH by done.
  rewrite auto_db_claims. destruct (auto_outcome db c) as [[[m o] l]|]; [|done].
  by rewrite lookup_insert_ne.
Qed.

Lemma sweep_other_match cs db mid :
  mid ∉ ResultClaim.match_id <$> cs →
  Db.matches (sweep_db cs db) !! mid = Db.matches db !! mid.
Proof.
  unfold sweep_db. revert db. induction cs as [|c cs IH]; intros db; [done|].
  rewrite fmap_cons, not_elem_of_cons. intros [Hc Hcs]. cbn [fold_left]. rewrite IH by done.
  rewrite auto_db_matches. destruct (auto_outcome db c) as [[[m o] l]|]; [|done].
  by rewrite lookup_insert_ne.
Qed.

Lemma sweep_outcome cs db c :
  ResultClaim.match_id c ∉ ResultClaim.match_id <$> cs →
  auto_outcome (sweep_db cs db) c = auto_outcome db c.
Proof. intros Hc. unfold auto_outcome. by rewrite sweep_other_match. Qed.

(** Each claim of the sweep, with its match. *)
Lemma sweep_claim cs db c :
  NoDup (ResultClaim.match_id <$> cs) → NoDup (ResultClaim.id <$> cs) → c ∈ cs →
  Db.result_claims db !! ResultClaim.id c = Some c →
  Db.result_claims (sweep_db cs db) !! ResultClaim.id c =
    Some (match auto_outcome db c with
          | Some (_, opponent, _) => auto_confirmed (Db.now db) c opponent
          | None => c
          end) ∧
  Db.matches (sweep_db cs db) !! ResultClaim.match_id c =
    match auto_outcome db c with
    | Some (m, _, loser) =>
        Some (set_result (ResultClaim.claimed_participant1_score c)
                (ResultClaim.claimed_participant2_score c)
                (ResultClaim.claimed_winner_registration_id c) loser (Db.now db) m)
    | None => Db.matches db !! ResultClaim.match_id c
    end.
Proof.
  revert db. induction cs as [|x cs IH]; intros db Hm Hid Hin Hc; [by apply elem_of_nil in Hin|].
  rewrite fmap_cons in Hm, Hid. apply NoDup_cons in Hm as [Hm Hms], Hid as [Hid Hids].
  apply elem_of_cons in Hin as [->|Hin].
  - change (sweep_db (x :: cs) db) with (sweep_db cs (auto_db x db)).
    rewrite sweep_other_claim, sweep_other_match, auto_db_claims, auto_db_matches by done.
    destruct (auto_outcome db x) as [[[m o] l]|]; [|done]. by rewrite !lookup_insert_eq.
  - assert (ResultClaim.match_id x ≠ ResultClaim.match_id c) as Hne.
    { intros Heq. apply Hm. rewrite Heq. by apply list_elem_of_fmap_2. }
    assert (ResultClaim.id x ≠ ResultClaim.id c) as Hidne.
    { intros Heq. apply Hid. rewrite Heq. by apply list_elem_of_fmap_2. }
    change (sweep_db (x :: cs) db) with (sweep_db cs (auto_db x db)).
    destruct (IH (auto_db x db) Hms Hids Hin) as [-> ->].
    { rewrite auto_db_claims. destruct (auto_outcome db x) as [[[m o] l]|]; [|done].
      by rewrite lookup_insert_ne. }
    rewrite auto_outcome_other, auto_db_now, auto_db_matches by done. split; [done|].
    destruct (auto_outcome db c) as [[[m o] l]|]; [done|].
    destruct (auto_outcome db x) as [[[m o] l]|]; [|done]. by rewrite lookup_insert_ne.
Qed.

(** The claims the sweep finds are pending, due, and on distinct matches. *)
Lemma ready_spec db c :
  c ∈ ResultClaimRepository.ready_for_auto_confirm db ↔
  ResultClaim.is_auto_confirm_due (Db.now db) c = true ∧ ∃ id, Db.result_claims db !! id = Some c.
Proof.
  unfold ResultClaimRepository.ready_for_auto_confirm. rewrite stable_sort_perm.
  apply elem_of_claims_where.
Qed.

Lemma due_pending now c : ResultClaim.is_auto_confirm_due now c = true → ResultClaim.is_pending c = true.
Proof. unfold ResultClaim.is_auto_confirm_due. by intros [? _]%andb_true_iff. Qed.

Lemma ready_rows db c :
  claims_wf db → c ∈ ResultClaimRepository.ready_for_auto_confirm db →
  Db.result_claims db !! ResultClaim.id c = Some c ∧ ResultClaim.is_pending c = true.
Proof.
  intros Hwf [Hdue [id Hid]]%ready_spec. pose proof (cw_ids _ Hwf _ _ Hid) as Heq.
  split; [by rewrite Heq|by eapply due_pending].
Qed.

Lemma ready_ids db :
  claims_wf db → NoDup (ResultClaim.id <$> ResultClaimRepository.ready_for_auto_confirm db).
Proof.
  intros Hwf. apply NoDup_fmap_2_strong.
  { intros c1 c2 [R1 _]%ready_rows [R2 _]%ready_rows Heq; [|done..]. rewrite Heq in R1. congruence. }
  unfold ResultClaimRepository.ready_for_auto_confirm, ResultClaimRepository.claims_where.
  rewrite stable_sort_perm. apply NoDup_filter, (NoDup_fmap_1 ResultClaim.id).
  rewrite <- list_fmap_compose.
  rewrite (list_fmap_ext _ fst) by
    (intros i [id c] Hic; cbn; eapply cw_ids; [done|];
     apply elem_of_map_to_list; by eapply list_elem_of_lookup_2).
  apply NoDup_fst_map_to_list.
Qed.

Lemma ready_matches db :
  claims_wf db → NoDup (ResultClaim.match_id <$> ResultClaimRepository.ready_for_auto_confirm db).
Proof.
  intros Hwf. pose proof (ready_ids _ Hwf) as Hids. apply NoDup_fmap_2_strong; [|by eapply NoDup_fmap_1].
  intros c1 c2 H1 H2 Hm. destruct (ready_rows _ _ Hwf H1) as [R1 P1], (ready_rows _ _ Hwf H2) as [R2 P2].
  pose proof (cw_one_pending _ Hwf _ _ _ _ R1 R2 P1 P2 Hm) as Heq. congruence.
Qed.

Lemma process_auto_confirmations_run db :
  claims_wf db →
  let cs := ResultClaimRepository.ready_for_auto_confirm db in
  ResultService.process_auto_confirmations db =
  (Ok (omap (λ c, '(_, opponent, _) ← auto_outcome db c; Some (auto_confirmed (Db.now db) c opponent)) cs),
   sweep_db cs db).
Proof.
  intros Hwf cs. unfold ResultService.process_auto_confirmations,
    ResultClaimRepository.find_ready_for_auto_confirm, mbind, mread.
  apply auto_confirm_all_run; [apply (cw_matches _ Hwf)|by apply ready_matches|by apply ready_ids|].
  apply Forall_forall. intros c Hc. by apply ready_rows.
Qed.
End claims.
