(* ===== verification/DisputeFacts.v ===== *)
(** What the dispute statements and the dispute service do to the tables, each
    operation read off as an error that wrote nothing or the rows it wrote. *)
From stdpp Require Import base list strings gmap pretty.
From S2P Require Import Prelude Errors Wire TournamentTypes Entities CoreEnums DomainEnums Rows.
From S2P Require Import ResultModel Store StoreFacts ClaimStore DisputeStore Helpers Progression.
From S2P Require Import ProgressionProps Actor Results ClaimFacts Disputes.
#[local] Open Scope Z_scope.

(** ** Resolutions as data *)
Module Resolution.
Inductive t :=
| Uphold
| Overturn (winner : TournamentRegistrationId) (score1 score2 : Z)
| Rematch
| Adjusted (score1 score2 : Z)
| DoubleDq.
End Resolution.

Section disputes.
Context `{Platform}.

Definition resolve (res : Resolution.t) (id : DisputeId) (notes : string) (by_ : UserId)
    : M DisputeResolutionResult.t :=
  match res with
  | Resolution.Uphold => DisputeService.resolve_uphold id notes by_
  | Resolution.Overturn w s1 s2 => DisputeService.resolve_overturn id w s1 s2 notes by_
  | Resolution.Rematch => DisputeService.resolve_rematch id notes by_
  | Resolution.Adjusted s1 s2 => DisputeService.resolve_adjusted id s1 s2 notes by_
  | Resolution.DoubleDq => DisputeService.resolve_double_dq id notes by_
  end.

(** The match once [d] is resolved by [res]; [None] when no loser can be named. *)
Definition resolved_match (res : Resolution.t) (d : Dispute.t) (now : DateTime)
    (m : TournamentMatch.t) : option TournamentMatch.t :=
  match res with
  | Resolution.Uphold =>
      match Dispute.original_winner_registration_id d with
      | Some w =>
          l ← loser_of m w;
          Some (set_result (default 0 (Dispute.original_participant1_score d))
                  (default 0 (Dispute.original_participant2_score d)) w l now m)
      | None => Some (set_match_status TournamentMatchStatus.Completed now m)
      end
  | Resolution.Overturn w s1 s2 => l ← loser_of m w; Some (set_result s1 s2 w l now m)
  | Resolution.Rematch => Some (set_match_cleared TournamentMatchStatus.Ready now m)
  | Resolution.Adjusted s1 s2 =>
      match derive_result_outcome m s1 s2 with
      | Ok (w, l) => Some (set_result s1 s2 w l now m)
      | Err _ => None
      end
  | Resolution.DoubleDq => Some (set_match_cleared TournamentMatchStatus.Cancelled now m)
  end.

(** What the dispute's row and its thread record of it. *)
Definition resolution_row (res : Resolution.t) (notes : string) (m : TournamentMatch.t)
    : DisputeResolution.t :=
  match res with
  | Resolution.Uphold => DisputeResolution.mk ResolutionType.Upheld notes None None None
  | Resolution.Overturn w s1 s2 =>
      DisputeResolution.mk ResolutionType.Overturned notes (Some w) (Some s1) (Some s2)
  | Resolution.Rematch => DisputeResolution.mk ResolutionType.Rematch notes None None None
  | Resolution.Adjusted s1 s2 =>
      DisputeResolution.mk ResolutionType.Adjusted notes
        (match derive_result_outcome m s1 s2 with Ok (w, _) => Some w | Err _ => None end)
        (Some s1) (Some s2)
  | Resolution.DoubleDq => DisputeResolution.mk ResolutionType.DoubleDq notes None None None
  end.

Definition resolution_text (res : Resolution.t) (notes : string) : string :=
  match res with
  | Resolution.Uphold => "Dispute upheld: " +:+ notes
  | Resolution.Overturn _ s1 s2 =>
      "Dispute overturned. New scores: " +:+ pretty s1 +:+ "-" +:+ pretty s2 +:+ ". " +:+ notes
  | Resolution.Rematch => "Rematch ordered: " +:+ notes
  | Resolution.Adjusted s1 s2 =>
      "Scores adjusted to " +:+ pretty s1 +:+ "-" +:+ pretty s2 +:+ ". " +:+ notes
  | Resolution.DoubleDq => "Both teams disqualified: " +:+ notes
  end.

(** The message a dispute's thread gains. *)
Definition posted (id : DisputeId) (author : UserId) (type : AuthorType.t) (text : string)
    (internal : bool) (db : Db.t) : DisputeMessage.t :=
  DisputeMessage.mk (Db.next_uuid db) id author type text [] internal (Db.now db).

Definition write_dispute (id : DisputeId) (d : Dispute.t) (db : Db.t) : Db.t :=
  db <| Db.disputes := <[id := d]> (Db.disputes db) |>.

(** The tables after an operation wrote the dispute [id], its match and a message. *)
Definition settled_db (id : DisputeId) (d : Dispute.t) (m : TournamentMatch.t)
    (message : DisputeMessage.t) (db : Db.t) : Db.t :=
  write_match (Dispute.match_id d) m (write_dispute id d db)
    <| Db.next_uuid := N.succ (Db.next_uuid db) |>
    <| Db.dispute_messages := Db.dispute_messages db ++ [message] |>.

Lemma get_dispute_inv id db r db' :
  DisputeService.get_dispute id db = (r, db') →
  db' = db ∧
  ((∃ d, Db.disputes db !! id = Some d ∧ r = Ok d) ∨
   (Db.disputes db !! id = None ∧ r = throw (DomainError.DisputeNotFound id))).
Proof.
  unfold DisputeService.get_dispute, DisputeRepository.find_by_id, mbind, mread, mlift.
  destruct (Db.disputes db !! id) as [d|]; simpl; intros [= <- <-]; eauto.
Qed.

Lemma get_dispute_found id db d :
  Db.disputes db !! id = Some d → DisputeService.get_dispute id db = (Ok d, db).
Proof.
  intros Hd. unfold DisputeService.get_dispute, DisputeRepository.find_by_id, mbind, mread, mlift.
  by rewrite Hd.
Qed.

Lemma update_row_run id set db d :
  Db.disputes db !! id = Some d →
  DisputeRepository.update_row id set db =
  (Ok (set (Db.now db) d), write_dispute id (set (Db.now db) d) db).
Proof. intros Hd. unfold DisputeRepository.update_row. by rewrite Hd. Qed.

Lemma exec_match_after_dispute mid set id d db m :
  Db.matches db !! mid = Some m →
  exec_match mid set (write_dispute id d db) =
  (Ok tt, write_match mid (set (Db.now db) m) (write_dispute id d db)).
Proof. intros Hm. exact (exec_match_run mid set (write_dispute id d db) m Hm). Qed.

Lemma resolve_status_run id by_ row d m status clear text db :
  Db.disputes db !! id = Some d → Db.matches db !! Dispute.match_id d = Some m →
  DisputeRepository.resolve_with_status_change id by_ row (Dispute.match_id d) status clear
    (DisputeService.resolution_message id by_ text) db =
  (Ok (set_resolved by_ row (Db.now db) d),
   settled_db id (set_resolved by_ row (Db.now db) d)
     ((if clear : bool then set_match_cleared status else set_match_status status) (Db.now db) m)
     (posted id by_ AuthorType.Admin text false db) db).
Proof.
  intros Hd Hm. unfold DisputeRepository.resolve_with_status_change.
  apply transaction_step. rewrite (mbind_step _ _ _ _ _ (update_row_run _ _ _ _ Hd)).
  rewrite (mbind_step _ _ _ _ _ (exec_match_after_dispute _ _ _ _ _ _ Hm)). reflexivity.
Qed.

Lemma resolve_overturn_run id by_ row d m w l s1 s2 text db :
  Db.disputes db !! id = Some d → Db.matches db !! Dispute.match_id d = Some m →
  DisputeRepository.resolve_with_overturn id by_ row (Dispute.match_id d) w l s1 s2
    (DisputeService.resolution_message id by_ text) db =
  (Ok (set_resolved by_ row (Db.now db) d),
   settled_db id (set_resolved by_ row (Db.now db) d) (set_result s1 s2 w l (Db.now db) m)
     (posted id by_ AuthorType.Admin text false db) db).
Proof.
  intros Hd Hm. unfold DisputeRepository.resolve_with_overturn.
  apply transaction_step. rewrite (mbind_step _ _ _ _ _ (update_row_run _ _ _ _ Hd)).
  unfold submit_result_in_tx.
  erewrite mbind_step by (apply update_match_found; exact Hm). reflexivity.
Qed.

Lemma cancel_restore_run id who d m db :
  Db.disputes db !! id = Some d → Db.matches db !! Dispute.match_id d = Some m →
  DisputeRepository.cancel_with_match_restore id (Dispute.match_id d)
    (CreateDisputeMessage.mk id who AuthorType.System "Dispute cancelled" [] false) db =
  (Ok (set_cancelled (Db.now db) d),
   settled_db id (set_cancelled (Db.now db) d)
     (set_match_status TournamentMatchStatus.Completed (Db.now db) m)
     (posted id who AuthorType.System "Dispute cancelled" false db) db).
Proof.
  intros Hd Hm. unfold DisputeRepository.cancel_with_match_restore.
  apply transaction_step. rewrite (mbind_step _ _ _ _ _ (update_row_run _ _ _ _ Hd)).
  rewrite (mbind_step _ _ _ _ _ (exec_match_after_dispute _ _ _ _ _ _ Hm)). reflexivity.
Qed.

(** A resolution of an open dispute. *)
Lemma resolve_run res id notes by_ d m db :
  Db.disputes db !! id = Some d → Dispute.can_resolve d = true →
  Db.matches db !! Dispute.match_id d = Some m →
  match resolved_match res d (Db.now db) m with
  | Some m' =>
      let d' := set_resolved by_ (resolution_row res notes m) (Db.now db) d in
      ∃ changes,
        resolve res id notes by_ db =
        (Ok (DisputeResolutionResult.mk d' changes),
         settled_db id d' m'
           (posted id by_ AuthorType.Admin (resolution_text res notes) false db) db)
  | None => ∃ e, resolve res id notes by_ db = (throw e, db)
  end.
Proof.
  intros Hd Hcan Hm.
  assert (∀ A (k : unit → M A), mbind (mlift (DisputeService.validate_can_resolve d)) k db = k tt db)
    as Hval by (intros; unfold DisputeService.validate_can_resolve; by rewrite Hcan).
  assert (∀ A B (a : A) (k : A → M B), mbind (mlift (Ok a)) k db = k a db) as Hlift by done.
  pose proof (get_match_found _ _ _ Hm) as Hget.
  destruct res as [|w s1 s2| |s1 s2|]; cbn [resolve resolved_match];
    [unfold DisputeService.resolve_uphold|unfold DisputeService.resolve_overturn
    |unfold DisputeService.resolve_rematch|unfold DisputeService.resolve_adjusted
    |unfold DisputeService.resolve_double_dq];
    rewrite (mbind_step _ _ _ _ _ (get_dispute_found _ _ _ Hd)), Hval;
    try rewrite (mbind_step _ _ _ _ _ Hget).
  - destruct (Dispute.original_winner_registration_id d) as [w|].
    + destruct (loser_of m w) as [l|] eqn:Hl; cbn [mbind option_bind ok_or].
      * eexists. erewrite mbind_step; [reflexivity|].
        rewrite Hlift. by apply resolve_overturn_run.
      * by eexists.
    + eexists. erewrite mbind_step; [reflexivity|]. by apply resolve_status_run.
  - destruct (loser_of m w) as [l|] eqn:Hl; cbn [mbind option_bind ok_or].
    + rewrite Hlift. eexists. erewrite mbind_step; [reflexivity|]. by apply resolve_overturn_run.
    + by eexists.
  - eexists. erewrite mbind_step; [reflexivity|]. by apply resolve_status_run.
  - destruct (derive_result_outcome m s1 s2) as [[w l]|e] eqn:Ho.
    + rewrite Hlift. eexists. erewrite mbind_step; [reflexivity|].
      cbn [resolution_row]. rewrite Ho. by apply resolve_overturn_run.
    + unfold derive_result_outcome in Ho.
      destruct (TournamentMatch.participant1_registration_id m); [|injection Ho as <-; by eexists].
      destruct (TournamentMatch.participant2_registration_id m); [|injection Ho as <-; by eexists].
      destruct (s1 ?= s2); try discriminate; injection Ho as <-; by eexists.
  - eexists. erewrite mbind_step; [reflexivity|]. by apply resolve_status_run.
Qed.

(** The foreign key of [disputes.match_id]. *)
Definition dispute_matches (db : Db.t) : Prop :=
  ∀ id d, Db.disputes db !! id = Some d → is_Some (Db.matches db !! Dispute.match_id d).

(** A dispute that is not open, or not there, is left alone. *)
Lemma resolve_closed res id notes by_ db :
  (∀ d, Db.disputes db !! id = Some d → Dispute.can_resolve d = false) →
  ∃ e, resolve res id notes by_ db = (throw e, db).
Proof.
  intros Hd.
  assert (∀ A (k : Dispute.t → unit → M A), ∃ e,
    (let* d := DisputeService.get_dispute id in
     let* u := mlift (DisputeService.validate_can_resolve d) in k d u) db = (throw e, db)) as Hstop.
  { intros A k. unfold DisputeService.get_dispute, DisputeRepository.find_by_id, mbind, mread, mlift.
    destruct (Db.disputes db !! id) as [d|]; simpl; [|by eexists].
    unfold DisputeService.validate_can_resolve. rewrite (Hd d) by done. by eexists. }
  destruct res; apply Hstop.
Qed.

Lemma resolve_inv res id notes by_ db r db' :
  dispute_matches db →
  resolve res id notes by_ db = (r, db') →
  (∃ d m m' changes,
     let d' := set_resolved by_ (resolution_row res notes m) (Db.now db) d in
     Db.disputes db !! id = Some d ∧ Dispute.can_resolve d = true ∧
     Db.matches db !! Dispute.match_id d = Some m ∧
     resolved_match res d (Db.now db) m = Some m' ∧
     r = Ok (DisputeResolutionResult.mk d' changes) ∧
     db' = settled_db id d' m'
             (posted id by_ AuthorType.Admin (resolution_text res notes) false db) db) ∨
  (∃ e, r = Err e ∧ db' = db).
Proof.
  intros Hfk Hrun.
  assert ((∀ d, Db.disputes db !! id = Some d → Dispute.can_resolve d = false) ∨
          ∃ d, Db.disputes db !! id = Some d ∧ Dispute.can_resolve d = true) as [Hc|(d & Hd & Hcan)].
  { destruct (Db.disputes db !! id) as [d|] eqn:Hd; [|by left].
    destruct (Dispute.can_resolve d) eqn:?; [right; eauto|left; by intros ? [= <-]]. }
  - destruct (resolve_closed res id notes by_ db Hc) as [e He]. right. exists (Error e).
    rewrite He in Hrun. by injection Hrun as <- <-.
  - destruct (Hfk _ _ Hd) as [m Hm]. pose proof (resolve_run res id notes by_ d m db Hd Hcan Hm) as Hr.
    destruct (resolved_match res d (Db.now db) m) as [m'|] eqn:Hm'.
    + destruct Hr as [changes Hr]. rewrite Hr in Hrun. injection Hrun as <- <-. left.
      exists d, m, m', changes. done.
    + destruct Hr as [e Hr]. rewrite Hr in Hrun. injection Hrun as <- <-. right. by eexists.
Qed.

Lemma cancel_dispute_inv id who db r db' :
  dispute_matches db →
  DisputeService.cancel_dispute id who db = (r, db') →
  (∃ d m,
     Db.disputes db !! id = Some d ∧ Dispute.is_terminal d = false ∧
     Db.matches db !! Dispute.match_id d = Some m ∧ r = Ok (set_cancelled (Db.now db) d) ∧
     db' = settled_db id (set_cancelled (Db.now db) d)
             (set_match_status TournamentMatchStatus.Completed (Db.now db) m)
             (posted id who AuthorType.System "Dispute cancelled" false db) db) ∨
  (∃ e, r = Err e ∧ db' = db).
Proof.
  intros Hfk Hrun. unfold DisputeService.cancel_dispute in Hrun.
  mstep Hrun; apply get_dispute_inv in Hrun0 as [-> Hd]; [|by right; eauto].
  destruct Hd as [(d & Hd & [= ->])|[_ [=]]].
  destruct (Dispute.is_terminal d) eqn:Ht; [injection Hrun as <- <-; eauto|].
  destruct (Hfk _ _ Hd) as [m Hm]. rewrite (cancel_restore_run _ _ _ _ _ Hd Hm) in Hrun.
  injection Hrun as <- <-. left. by exists d, m.
Qed.

(** ** Assignment and messages *)

Definition assigned (who : UserId) (now : DateTime) (d : Dispute.t) : Dispute.t :=
  d <| Dispute.status := DisputeStatus.UnderReview |>
    <| Dispute.assigned_to_user_id := Some who |>
    <| Dispute.updated_at := now |>.

Definition append_db (message : DisputeMessage.t) (db : Db.t) : Db.t :=
  db <| Db.next_uuid := N.succ (Db.next_uuid db) |>
     <| Db.dispute_messages := Db.dispute_messages db ++ [message] |>.

Lemma assign_inv id who db r db' :
  DisputeService.assign_for_review id who db = (r, db') →
  (∃ d, Db.disputes db !! id = Some d ∧ Dispute.can_assign d = true ∧
        r = Ok (assigned who (Db.now db) d) ∧
        db' = append_db (posted id who AuthorType.System "Dispute assigned for review" true db)
                (write_dispute id (assigned who (Db.now db) d) db)) ∨
  (∃ e, r = Err e ∧ db' = db).
Proof.
  intros Hrun. unfold DisputeService.assign_for_review in Hrun.
  mstep Hrun; apply get_dispute_inv in Hrun0 as [-> Hd]; [|by right; eauto].
  destruct Hd as [(d & Hd & [= ->])|[_ [=]]].
  destruct (Dispute.can_assign d) eqn:Hc; cbn [negb] in Hrun; [|injection Hrun as <- <-; eauto].
  left. exists d. split; [done|]. split; [done|].
  unfold mbind at 1, DisputeRepository.update in Hrun. rewrite Hd in Hrun.
  assert (DisputeRepository.apply_update
            (UpdateDispute.mk (Some DisputeStatus.UnderReview) None None None (Some who)) (Db.now db) d =
          assigned who (Db.now db) d) as Heq by (by destruct d).
  rewrite Heq in Hrun. by injection Hrun as <- <-.
Qed.

Lemma add_message_inv id text ev who type internal db r db' :
  DisputeService.add_message id text ev who type internal db = (r, db') →
  (∃ d m, Db.disputes db !! id = Some d ∧ Dispute.is_terminal d = false ∧ r = Ok m ∧
          m = DisputeMessage.mk (Db.next_uuid db) id who type text ev internal (Db.now db) ∧
          db' = append_db m db) ∨
  (∃ e, r = Err e ∧ db' = db).
Proof.
  intros Hrun. unfold DisputeService.add_message in Hrun.
  mstep Hrun; apply get_dispute_inv in Hrun0 as [-> Hd]; [|by right; eauto].
  destruct Hd as [(d & Hd & [= ->])|[_ [=]]].
  destruct (Dispute.is_terminal d) eqn:Hc; injection Hrun as <- <-; [right; eauto|].
  left. eexists d, _. done.
Qed.

(** ** Raising *)

(** The dispute's row. *)
Definition raised (mid : TournamentMatchId) (rcid : option ResultClaimId) (reason : DisputeReason.t)
    (description : string) (ev : list EvidenceId) (reg : TournamentRegistrationId) (user : UserId)
    (m : TournamentMatch.t) (claim : option ResultClaim.t) (db : Db.t) : Dispute.t :=
  let '(w, s1, s2) := DisputeService.original_result m claim in
  Dispute.mk (Db.next_uuid db) mid rcid reg user reason description ev w (Some s1) (Some s2)
    DisputeStatus.Pending (priority_of_reason reason) None None None None (Db.now db) (Db.now db).

(** The claims once the one in dispute has been retired. *)
Definition retired_claims (rcid : option ResultClaimId) (db : Db.t)
    : gmap ResultClaimId ResultClaim.t :=
  match rcid with
  | Some cid =>
      alter (λ c, if ResultClaim.is_pending c
                  then set_claim_status ClaimStatus.Disputed (Db.now db) c else c)
        cid (Db.result_claims db)
  | None => Db.result_claims db
  end.

Definition raised_text (reason : DisputeReason.t) (description : string) : string :=
  "Dispute raised: " +:+ DisputeReason.fmt reason +:+ " - " +:+ take_chars 100 description.

Definition raised_db (rcid : option ResultClaimId) (d : Dispute.t) (m : TournamentMatch.t) (db : Db.t)
    : Db.t :=
  write_match (Dispute.match_id d) (set_disputed (Dispute.description d) (Db.now db) m)
    (write_dispute (Dispute.id d) d db)
    <| Db.next_uuid := N.succ (N.succ (Db.next_uuid db)) |>
    <| Db.result_claims := retired_claims rcid db |>
    <| Db.dispute_messages := Db.dispute_messages db ++
         [DisputeMessage.mk (N.succ (Db.next_uuid db)) (Dispute.id d) (Dispute.disputed_by_user_id d)
            AuthorType.System (raised_text (Dispute.reason d) (Dispute.description d)) [] false
            (Db.now db)] |>.

Definition claim_of (rcid : option ResultClaimId) (db : Db.t) : option ResultClaim.t :=
  cid ← rcid; Db.result_claims db !! cid.

Definition own_claim (claim : option ResultClaim.t) (reg : TournamentRegistrationId) : Prop :=
  ∃ c, claim = Some c ∧ ResultClaim.submitted_by_registration_id c = Some reg.

Definition has_open_dispute (mid : TournamentMatchId) (db : Db.t) : Prop :=
  ∃ id d, Db.disputes db !! id = Some d ∧ Dispute.match_id d = mid ∧ Dispute.can_resolve d = true.

Lemma exists_pending_run mid db :
  ∃ b, DisputeRepository.exists_pending_for_match mid db = (Ok b, db) ∧
       (b = true ↔ has_open_dispute mid db).
Proof.
  unfold DisputeRepository.exists_pending_for_match, mread. eexists. split; [reflexivity|].
  rewrite negb_true_iff, bool_decide_eq_false. unfold DisputeRepository.disputes_where.
  set (l := filter _ _). assert (∀ d, d ∈ l ↔ Dispute.match_id d = mid ∧ Dispute.can_resolve d = true ∧
    ∃ id, Db.disputes db !! id = Some d) as Hl.
  { intros d. unfold l. rewrite list_elem_of_filter, list_elem_of_fmap.
    unfold DisputeRepository.open_dispute. rewrite andb_true_iff, bool_decide_eq_true.
    setoid_rewrite <- elem_of_map_to_list. split.
    - intros [[? ?] ([id d'] & -> & ?)]. eauto.
    - intros (? & ? & id & ?). split; [done|]. by exists (id, d). }
  unfold has_open_dispute. split.
  - destruct l as [|d l']; [done|]. intros _. destruct (Hl d) as [Hd _].
    destruct Hd as (? & ? & id & ?); [left|]. by exists id, d.
  - intros (id & d & Hd & Hm & Hc) Hnil. rewrite Hnil in Hl. destruct (Hl d) as [_ Hd'].
    enough (d ∈ ([] : list Dispute.t)) as Hn by by apply elem_of_nil in Hn. eauto.
Qed.

Lemma raise_atomic_run mid rcid reason description ev reg user m claim db :
  Db.matches db !! mid = Some m → (∀ cid, rcid = Some cid → is_Some (Db.result_claims db !! cid)) →
  let d := raised mid rcid reason description ev reg user m claim db in
  let '(w, s1, s2) := DisputeService.original_result m claim in
  DisputeRepository.raise_atomic
    (CreateDispute.mk mid rcid reg user reason description ev w (Some s1) (Some s2)
       (priority_of_reason reason))
    (CreateDisputeMessage.mk 0 user AuthorType.System (raised_text reason description) [] false) db =
  (Ok d, raised_db rcid d m db).
Proof.
  intros Hm Hfk. cbv zeta. unfold raised.
  destruct (DisputeService.original_result m claim) as [[w s1] s2].
  unfold DisputeRepository.raise_atomic. apply transaction_step.
  set (data := CreateDispute.mk _ _ _ _ _ _ _ _ _ _ _).
  set (d := Dispute.mk _ _ _ _ _ _ _ _ _ _ _ _ _ _ _ _ _ _ _).
  assert (DisputeRepository.create data db =
          (Ok d, write_dispute (Db.next_uuid db) d db <| Db.next_uuid := N.succ (Db.next_uuid db) |>))
    as Hcreate.
  { unfold DisputeRepository.create. cbn [CreateDispute.result_claim_id data].
    assert ((match rcid with
             | Some claim_id => bool_decide (Db.result_claims db !! claim_id = None)
             | None => false end) = false) as ->; [|reflexivity].
    destruct rcid as [cid|]; [|done]. apply bool_decide_eq_false. destruct (Hfk cid eq_refl) as [c ->]. done. }
  rewrite (mbind_step _ _ _ _ _ Hcreate).
  erewrite mbind_step by (apply exec_match_run; exact Hm).
  destruct rcid; reflexivity.
Qed.

Lemma raise_dispute_inv mid rcid reason description ev reg user db r db' :
  DisputeService.raise_dispute mid rcid reason description ev reg user db = (r, db') →
  (∃ m,
     let claim := claim_of rcid db in
     let d := raised mid rcid reason description ev reg user m claim db in
     Db.matches db !! mid = Some m ∧
     DisputeService.validate_can_dispute m reg (bool_decide (is_Some rcid)) = Ok tt ∧
     ¬ has_open_dispute mid db ∧ ¬ own_claim claim reg ∧ (is_Some rcid → is_Some claim) ∧
     r = Ok d ∧ db' = raised_db rcid d m db) ∨
  (∃ e, r = Err e ∧ db' = db).
Proof.
  intros Hrun. unfold DisputeService.raise_dispute in Hrun.
  mstep Hrun; apply get_match_inv in Hrun0 as [-> Hm]; [|by right; eauto].
  destruct Hm as [(m & Hm & [= ->])|[_ [=]]].
  mstep Hrun; injection Hrun0 as Hval <-; [|by right; eauto]. destruct a.
  destruct (exists_pending_run mid db) as (b & Hpend & Hb).
  rewrite (mbind_step _ _ _ _ _ Hpend) in Hrun.
  destruct b; [injection Hrun as <- <-; eauto|].
  assert ((match rcid with
           | Some claim_id => ResultClaimRepository.find_by_id claim_id
           | None => mret None
           end) db = (Ok (claim_of rcid db), db)) as Hfind by (by destruct rcid).
  rewrite (mbind_step _ _ _ _ _ Hfind) in Hrun. clear Hfind.
  destruct (match claim_of rcid db with
            | Some claim => bool_decide (ResultClaim.submitted_by_registration_id claim = Some reg)
            | None => false end) eqn:Hown; [injection Hrun as <- <-; eauto|].
  assert (¬ own_claim (claim_of rcid db) reg) as Hnot.
  { intros (c & Hc & Hs). rewrite Hc in Hown. by rewrite bool_decide_true in Hown. }
  assert ((∀ cid, rcid = Some cid → is_Some (Db.result_claims db !! cid)) ∨
          ∃ cid, rcid = Some cid ∧ Db.result_claims db !! cid = None) as [Hfk|(cid & -> & Hc)].
  { destruct rcid as [cid|]; [|by left]. destruct (Db.result_claims db !! cid) as [c|] eqn:Hc; [left|by right; eauto].
    intros ? [= <-]. by eexists. }
  - pose proof (raise_atomic_run mid rcid reason description ev reg user m (claim_of rcid db) db Hm Hfk)
      as Hraise. cbv zeta in Hraise. unfold raised_text in Hraise. left. exists m. cbv zeta.
    destruct (DisputeService.original_result m (claim_of rcid db)) as [[w s1] s2].
    rewrite Hraise in Hrun. injection Hrun as <- <-. split_and!; try done.
    + rewrite <- Hb. done.
    + intros [cid ->]. by apply Hfk.
  - right. destruct (DisputeService.original_result m _) as [[w s1] s2].
    revert Hrun. unfold DisputeRepository.raise_atomic, transaction, mbind, DisputeRepository.create.
    cbn [CreateDispute.result_claim_id]. rewrite bool_decide_true by done.
    intros [= <- <-]. by eexists.
Qed.
End disputes.
