(* ===== verification/ResultSystem.v ===== *)
(** Claims and disputes as one transition system: every call of the two
    services, the clock, and whatever else the program does to the matches; its
    invariant, and the history its steps leave. *)
From stdpp Require Import base list strings gmap relations.
From S2P Require Import Prelude Errors Wire TournamentTypes Entities CoreEnums DomainEnums Rows.
From S2P Require Import ResultModel Store StoreFacts ClaimStore DisputeStore Helpers Actor Results.
From S2P Require Import ClaimFacts Disputes DisputeFacts.
#[local] Open Scope Z_scope.

(** ** What a claim and a dispute keep *)

(** The columns a claim is submitted with. *)
Definition same_claim (c c' : ResultClaim.t) : Prop :=
  ResultClaim.id c' = ResultClaim.id c ∧
  ResultClaim.match_id c' = ResultClaim.match_id c ∧
  ResultClaim.submitted_by_registration_id c' = ResultClaim.submitted_by_registration_id c ∧
  ResultClaim.submitted_by_user_id c' = ResultClaim.submitted_by_user_id c ∧
  ResultClaim.claimed_winner_registration_id c' = ResultClaim.claimed_winner_registration_id c ∧
  ResultClaim.scores c' = ResultClaim.scores c ∧
  ResultClaim.game_results c' = ResultClaim.game_results c.

(** A pending claim may be settled; a settled one stays as it is. *)
Definition claim_evolves (c c' : ResultClaim.t) : Prop :=
  c' = c ∨ (ResultClaim.is_pending c = true ∧ ResultClaim.is_pending c' = false ∧ same_claim c c').

Definition same_dispute (d d' : Dispute.t) : Prop :=
  Dispute.id d' = Dispute.id d ∧
  Dispute.match_id d' = Dispute.match_id d ∧
  Dispute.result_claim_id d' = Dispute.result_claim_id d ∧
  Dispute.disputed_by_registration_id d' = Dispute.disputed_by_registration_id d ∧
  Dispute.reason d' = Dispute.reason d ∧
  Dispute.original_winner_registration_id d' = Dispute.original_winner_registration_id d ∧
  Dispute.original_participant1_score d' = Dispute.original_participant1_score d ∧
  Dispute.original_participant2_score d' = Dispute.original_participant2_score d.

(** An open dispute may be taken or closed; a closed one stays as it is. *)
Definition dispute_evolves (d d' : Dispute.t) : Prop :=
  d' = d ∨ (Dispute.is_terminal d = false ∧ Dispute.is_pending d' = false ∧ same_dispute d d').

Record history `{Platform} (db db' : Db.t) : Prop := {
  h_claims : ∀ id c, Db.result_claims db !! id = Some c →
    ∃ c', Db.result_claims db' !! id = Some c' ∧ claim_evolves c c';
  h_disputes : ∀ id d, Db.disputes db !! id = Some d →
    ∃ d', Db.disputes db' !! id = Some d' ∧ dispute_evolves d d';
  h_messages : Db.dispute_messages db `prefix_of` Db.dispute_messages db';
}.

#[global] Instance same_claim_preorder : PreOrder same_claim.
Proof. unfold same_claim. split; [done|]. intros x y z. intuition congruence. Qed.
#[global] Instance same_dispute_preorder : PreOrder same_dispute.
Proof. unfold same_dispute. split; [done|]. intros x y z. intuition congruence. Qed.

#[global] Instance claim_evolves_preorder : PreOrder claim_evolves.
Proof.
  split; [by left|]. intros x y z [->|(Hx & Hy & Hxy)] [->|(Hy' & Hz & Hyz)].
  - by left.
  - right. done.
  - right. done.
  - congruence.
Qed.

#[global] Instance dispute_evolves_preorder : PreOrder dispute_evolves.
Proof.
  split; [by left|]. intros x y z [->|(Hx & Hy & Hxy)] [->|(Hy' & Hz & Hyz)].
  - by left.
  - right. done.
  - right. done.
  - right. split_and!; [done..|]. by etransitivity.
Qed.

#[global] Instance history_preorder `{Platform} : PreOrder history.
Proof.
  split.
  - intros db. split; [| |done]; intros id x Hx; exists x; (split; [done|reflexivity]).
  - intros x y z [C1 D1 M1] [C2 D2 M2]. split.
    + intros id c (c1 & H1 & E1)%C1. apply C2 in H1 as (c2 & H2 & E2). exists c2.
      split; [done|]. by etransitivity.
    + intros id d (d1 & H1 & E1)%D1. apply D2 in H1 as (d2 & H2 & E2). exists d2.
      split; [done|]. by etransitivity.
    + by etransitivity.
Qed.

Section system.
Context `{Platform}.

(** ** The invariant *)

Record disputes_wf (db : Db.t) : Prop := {
  dw_ids : ∀ id d, Db.disputes db !! id = Some d → Dispute.id d = id;
  dw_fresh : ∀ id d, Db.disputes db !! id = Some d → (id < Db.next_uuid db)%N;
  dw_matches : dispute_matches db;
  dw_one_open : ∀ id1 id2 d1 d2,
    Db.disputes db !! id1 = Some d1 → Db.disputes db !! id2 = Some d2 →
    Dispute.can_resolve d1 = true → Dispute.can_resolve d2 = true →
    Dispute.match_id d1 = Dispute.match_id d2 → id1 = id2;
  dw_resolved : ∀ id d, Db.disputes db !! id = Some d →
    (Dispute.is_resolved d = true ↔ is_Some (Dispute.resolution d));
}.

Definition results_wf (db : Db.t) : Prop := claims_wf db ∧ disputes_wf db.

(** [results_wf] survives, and the history only grows. *)
Definition sound (db db' : Db.t) : Prop :=
  results_wf db → results_wf db' ∧ history db db'.

#[global] Instance sound_preorder : PreOrder sound.
Proof.
  split.
  - intros db Hwf. split; [done|reflexivity].
  - intros x y z Hxy Hyz Hx. destruct (Hxy Hx) as [Hy H1]. destruct (Hyz Hy) as [Hz H2].
    split; [done|]. by etransitivity.
Qed.

Lemma can_resolve_terminal d : Dispute.can_resolve d = negb (Dispute.is_terminal d).
Proof. unfold Dispute.can_resolve, Dispute.is_terminal. by destruct (Dispute.status d). Qed.

(** The parts of the state the invariant speaks of. *)
Definition same_sides (m m' : TournamentMatch.t) : Prop :=
  TournamentMatch.id m' = TournamentMatch.id m ∧
  TournamentMatch.participant1_registration_id m' = TournamentMatch.participant1_registration_id m ∧
  TournamentMatch.participant2_registration_id m' = TournamentMatch.participant2_registration_id m.

(** ** Writes *)

(** Compute the tables a write leaves. *)
Ltac opened :=
  unfold write_match, write_claim, write_dispute;
  cbn [setter Db.matches Db.result_claims Db.disputes Db.next_uuid Db.dispute_messages].

(** A write that leaves claims, disputes and match rows where they are. *)
Lemma quiet_sound db db' :
  Db.matches db' = Db.matches db → Db.result_claims db' = Db.result_claims db →
  Db.disputes db' = Db.disputes db → (Db.next_uuid db ≤ Db.next_uuid db')%N →
  Db.dispute_messages db `prefix_of` Db.dispute_messages db' → sound db db'.
Proof.
  intros Hm Hc Hd Hn Hmsg [[] []]. unfold matches_keyed, dispute_matches in *. split; [split; split|split].
  all: unfold matches_keyed, dispute_matches; rewrite ?Hm, ?Hc, ?Hd; try done.
  - intros id c Hid. eapply N.lt_le_trans; eauto.
  - intros id d Hid. eapply N.lt_le_trans; eauto.
  - intros id c Hid. exists c. split; [done|reflexivity].
  - intros id d Hid. exists d. split; [done|reflexivity].
Qed.

Lemma write_match_sound mid m m' db :
  Db.matches db !! mid = Some m → same_sides m m' → sound db (write_match mid m' db).
Proof.
  intros Hm (Hid & H1 & H2) [Hc Hd]. split; [split|].
  - destruct Hc as [Hkey Hsides ???]. split; try done; unfold matches_keyed; opened.
    + intros id x [[<- <-]|[_ Hx]]%lookup_insert_Some; [rewrite Hid; by eapply Hkey|by eapply Hkey].
    + intros id x w [[<- <-]|[_ Hx]]%lookup_insert_Some; [rewrite H1, H2; by eapply Hsides|by eapply Hsides].
  - destruct Hd. split; try done. intros id d Hlook. cbn.
    destruct (decide (Dispute.match_id d = mid)) as [->|Hne].
    + rewrite lookup_insert_eq. by eexists.
    + rewrite lookup_insert_ne by done. by eapply dw_matches0.
  - split; [| |done]; intros id x Hx; exists x; (split; [done|reflexivity]).
Qed.

(** Claims that each evolve, none new. *)
Lemma claims_map_sound cm db :
  (∀ id, match Db.result_claims db !! id, cm !! id with
         | Some c, Some c' => claim_evolves c c' ∧ (confirmed_by_other c → confirmed_by_other c')
         | None, None => True
         | _, _ => False
         end) →
  sound db (db <| Db.result_claims := cm |>).
Proof.
  intros Hcm [Hc Hd].
  assert (∀ id c', cm !! id = Some c' → ∃ c, Db.result_claims db !! id = Some c ∧ claim_evolves c c' ∧
            ResultClaim.id c' = ResultClaim.id c ∧ ResultClaim.match_id c' = ResultClaim.match_id c ∧
            (ResultClaim.is_pending c' = true → ResultClaim.is_pending c = true) ∧
            (confirmed_by_other c → confirmed_by_other c')) as Hold.
  { intros id c' Hid. specialize (Hcm id). rewrite Hid in Hcm.
    destruct (Db.result_claims db !! id) as [c|]; [|done]. destruct Hcm as [Hev Hcc]. exists c.
    split; [done|]. split; [done|].
    destruct Hev as [->|(Hp & Hp' & Hs)]; [done|]. unfold same_claim in Hs. rewrite Hp'. naive_solver. }
  split; [split|].
  - destruct Hc as [Hkey Hsides Hids Hfresh Hone Hcc]. split; try done; opened.
    + intros id c' (c & Hid & _ & -> & _)%Hold. eauto.
    + intros id c' (c & Hid & _)%Hold. eauto.
    + intros i1 i2 x1 x2 (c1 & H1 & _ & _ & M1 & P1 & _)%Hold (c2 & H2 & _ & _ & M2 & P2 & _)%Hold Q1 Q2 Hm.
      eapply (Hone i1 i2 c1 c2); eauto. congruence.
    + intros id c' (c & Hid & _ & _ & _ & _ & Hcc')%Hold. eauto.
  - destruct Hd. by split.
  - split; [| |done].
    + intros id c Hid. specialize (Hcm id). rewrite Hid in Hcm. cbn.
      destruct (cm !! id) as [c'|]; [|done]. exists c'. by destruct Hcm.
    + intros i x Hx. exists x. split; [done|reflexivity].
Qed.

Lemma write_claim_sound id c c' db :
  Db.result_claims db !! id = Some c → claim_evolves c c' → confirmed_by_other c' →
  sound db (write_claim id c' db).
Proof.
  intros Hid Hev Hconf. apply claims_map_sound. intros i. destruct (decide (i = id)) as [->|Hne].
  - by rewrite Hid, lookup_insert_eq.
  - rewrite lookup_insert_ne by done. destruct (Db.result_claims db !! i); [|done].
    split; [reflexivity|done].
Qed.

Lemma write_dispute_sound id d d' db :
  Db.disputes db !! id = Some d → dispute_evolves d d' →
  (Dispute.is_resolved d' = true ↔ is_Some (Dispute.resolution d')) →
  sound db (write_dispute id d' db).
Proof.
  intros Hid Hev Hres [Hc Hd]. split; [split|].
  - destruct Hc. by split.
  - assert (Dispute.id d' = Dispute.id d ∧ Dispute.match_id d' = Dispute.match_id d ∧
            (Dispute.can_resolve d' = true → Dispute.can_resolve d = true)) as (Hid' & Hm' & Hp').
    { destruct Hev as [->|(Hp & Hp' & Hs)]; [done|]. unfold same_dispute in Hs.
      rewrite (can_resolve_terminal d), Hp. naive_solver. }
    destruct Hd as [Hids Hfresh Hms Hone Hr]. split; try done; unfold dispute_matches; opened.
    + intros i x [[<- <-]|[_ Hx]]%lookup_insert_Some; [rewrite Hid'; eauto|eauto].
    + intros i x [[<- <-]|[_ Hx]]%lookup_insert_Some; cbn; eauto.
    + intros i x [[<- <-]|[_ Hx]]%lookup_insert_Some; cbn; [rewrite Hm'; by eapply Hms|by eapply Hms].
    + intros i1 i2 x1 x2 [[<- <-]|[_ Hx1]]%lookup_insert_Some [[<- <-]|[_ Hx2]]%lookup_insert_Some P1 P2 Hm;
        eauto.
      * eapply (Hone _ _ d x2); eauto. congruence.
      * eapply (Hone _ _ x1 d); eauto. congruence.
    + intros i x [[<- <-]|[_ Hx]]%lookup_insert_Some; eauto.
  - split; [| |done].
    + intros i x Hx. exists x. split; [done|reflexivity].
    + intros i x Hx. cbn. destruct (decide (i = id)) as [->|Hne].
      * rewrite lookup_insert_eq. simplify_eq. eauto.
      * rewrite lookup_insert_ne by done. exists x. split; [done|reflexivity].
Qed.

(** ** Statements *)

Lemma set_claim_status_evolves status now c :
  ResultClaim.is_pending c = true → status ≠ ClaimStatus.Pending →
  claim_evolves c (set_claim_status status now c).
Proof. intros Hp Hs. right. split; [done|]. split; [by destruct status|done]. Qed.

Lemma set_claim_status_confirmed status now c :
  status ≠ ClaimStatus.Confirmed → confirmed_by_other (set_claim_status status now c).
Proof. intros Hs. unfold confirmed_by_other. by destruct status. Qed.

Lemma set_confirmed_evolves reg user auto now c :
  ResultClaim.is_pending c = true → claim_evolves c (set_confirmed reg user auto now c).
Proof. intros Hp. right. done. Qed.

Lemma set_confirmed_by_other reg user auto now c :
  ResultClaim.submitted_by_registration_id c ≠ Some reg →
  confirmed_by_other (set_confirmed reg user auto now c).
Proof. intros Hs _. exists reg. done. Qed.

Lemma set_result_sides s1 s2 w l now m : same_sides m (set_result s1 s2 w l now m).
Proof. done. Qed.
Lemma set_status_sides status now m : same_sides m (set_match_status status now m).
Proof. done. Qed.
Lemma set_cleared_sides status now m : same_sides m (set_match_cleared status now m).
Proof. done. Qed.
Lemma set_disputed_sides reason now m : same_sides m (set_disputed reason now m).
Proof. done. Qed.

Lemma confirmed_db_sound id c m reg user auto loser db :
  Db.result_claims db !! id = Some c → ResultClaim.is_pending c = true →
  Db.matches db !! ResultClaim.match_id c = Some m →
  ResultClaim.submitted_by_registration_id c ≠ Some reg →
  sound db (confirmed_db id c m reg user auto loser db).
Proof.
  intros Hc Hp Hm Hs. unfold confirmed_db.
  etransitivity; [eapply write_claim_sound; [exact Hc| |]|].
  - by apply set_confirmed_evolves.
  - by apply set_confirmed_by_other.
  - eapply write_match_sound; [exact Hm|apply set_result_sides].
Qed.

Lemma supersede_sound mid db : sound db (db <| Db.result_claims := supersede mid db |>).
Proof.
  apply claims_map_sound. intros id. unfold supersede. rewrite lookup_fmap.
  destruct (Db.result_claims db !! id) as [c|]; [|done]. cbn.
  destruct (bool_decide _); cbn [andb]; [|split; [reflexivity|done]].
  destruct (ResultClaim.is_pending c) eqn:Hp; [|split; [reflexivity|done]].
  split; [by apply set_claim_status_evolves|]. intros _. by apply set_claim_status_confirmed.
Qed.

Lemma supersede_none_pending mid db id c :
  supersede mid db !! id = Some c → ResultClaim.match_id c = mid → ResultClaim.is_pending c = false.
Proof.
  unfold supersede. rewrite lookup_fmap, fmap_Some. intros (c0 & _ & ->).
  case_bool_decide as Hm; cbn [andb]; [|by intros ?].
  by destruct (ResultClaim.is_pending c0) eqn:Hp.
Qed.

(** A fresh pending claim for a match that has none. *)
Lemma insert_claim_sound c db :
  ResultClaim.id c = Db.next_uuid db → ResultClaim.is_confirmed c = false →
  (∀ id x, Db.result_claims db !! id = Some x → ResultClaim.match_id x = ResultClaim.match_id c →
     ResultClaim.is_pending x = false) →
  sound db (db <| Db.next_uuid := N.succ (Db.next_uuid db) |>
               <| Db.result_claims := <[Db.next_uuid db := c]> (Db.result_claims db) |>).
Proof.
  intros Hid Hconf Hnone [Hc Hd].
  assert (Db.result_claims db !! Db.next_uuid db = None) as Hfree.
  { destruct (Db.result_claims db !! Db.next_uuid db) eqn:Hx; [|done].
    apply (cw_fresh _ Hc) in Hx. lia. }
  split; [split|].
  - destruct Hc as [Hkey Hsides Hids Hfresh Hone Hcc]. split; try done; opened.
    + intros i x [[<- <-]|[_ Hx]]%lookup_insert_Some; eauto.
    + intros i x [[<- <-]|[_ Hx]]%lookup_insert_Some; [lia|]. apply Hfresh in Hx. lia.
    + intros i1 i2 x1 x2 [[<- <-]|[_ Hx1]]%lookup_insert_Some [[<- <-]|[_ Hx2]]%lookup_insert_Some P1 P2 Hm;
        [done| | |eauto].
      * rewrite (Hnone i2 x2) in P2; done.
      * rewrite (Hnone i1 x1) in P1; done.
    + intros i x [[<- <-]|[_ Hx]]%lookup_insert_Some; [|eauto]. intros Hx. congruence.
  - destruct Hd as [Hids Hfresh Hms Hone Hr]. split; try done; opened.
    intros i x Hx. apply Hfresh in Hx. lia.
  - split; [| |done].
    + intros i x Hx. cbn. exists x. rewrite lookup_insert_ne by congruence. split; [done|reflexivity].
    + intros i x Hx. exists x. split; [done|reflexivity].
Qed.

Lemma submitted_db_sound cmd db : sound db (submitted_db cmd db).
Proof.
  etransitivity; [apply (supersede_sound (CreateResultClaim.match_id cmd))|].
  set (db1 := db <| Db.result_claims := _ |>).
  refine (insert_claim_sound (submitted_claim cmd db) db1 _ _ _); [done..|].
  intros id x. apply supersede_none_pending.
Qed.

Lemma after_submission_sound self mid m db :
  Db.matches db !! mid = Some m → sound db (after_submission self mid m db).
Proof.
  intros Hm. unfold after_submission.
  destruct (TournamentMatch.status m), (ResultService.match_transitioner self); try reflexivity.
  unfold awaiting_db. etransitivity; [eapply write_match_sound; [exact Hm|]|].
  2:{ apply quiet_sound; [done..| |done]. cbn. lia. }
  done.
Qed.

Lemma settled_db_sound id d d' m m' message db :
  Db.disputes db !! id = Some d → dispute_evolves d d' → Dispute.match_id d' = Dispute.match_id d →
  (Dispute.is_resolved d' = true ↔ is_Some (Dispute.resolution d')) →
  Db.matches db !! Dispute.match_id d = Some m → same_sides m m' →
  sound db (settled_db id d' m' message db).
Proof.
  intros Hd Hev Hmid Hres Hm Hs. unfold settled_db. rewrite Hmid.
  etransitivity; [eapply write_dispute_sound; done|].
  etransitivity; [eapply (write_match_sound _ m m' (write_dispute id d' db)); done|].
  apply quiet_sound; [done..| |]; cbn; [lia|by eexists].
Qed.

Lemma append_db_sound message db : sound db (append_db message db).
Proof. apply quiet_sound; [done..| |]; cbn; [lia|by eexists]. Qed.

(** A fresh open dispute of a match that has none. *)
Lemma insert_dispute_sound d db :
  Dispute.id d = Db.next_uuid db → Dispute.is_resolved d = false → Dispute.resolution d = None →
  is_Some (Db.matches db !! Dispute.match_id d) → ¬ has_open_dispute (Dispute.match_id d) db →
  sound db (db <| Db.next_uuid := N.succ (Db.next_uuid db) |>
               <| Db.disputes := <[Db.next_uuid db := d]> (Db.disputes db) |>).
Proof.
  intros Hid Hnr Hres Hmatch Hnone [Hc Hd].
  assert (Db.disputes db !! Db.next_uuid db = None) as Hfree.
  { destruct (Db.disputes db !! Db.next_uuid db) eqn:Hx; [|done]. apply (dw_fresh _ Hd) in Hx. lia. }
  split; [split|].
  - destruct Hc as [Hkey Hsides Hids Hfresh Hone Hcc]. split; try done; opened.
    intros i x Hx. apply Hfresh in Hx. lia.
  - destruct Hd as [Hids Hfresh Hms Hone Hr]. split; try done; unfold dispute_matches; opened.
    + intros i x [[<- <-]|[_ Hx]]%lookup_insert_Some; eauto.
    + intros i x [[<- <-]|[_ Hx]]%lookup_insert_Some; [lia|]. apply Hfresh in Hx. lia.
    + intros i x [[<- <-]|[_ Hx]]%lookup_insert_Some; [done|]. by eapply Hms.
    + intros i1 i2 x1 x2 [[<- <-]|[_ Hx1]]%lookup_insert_Some [[<- <-]|[_ Hx2]]%lookup_insert_Some P1 P2 Hm;
        [done| | |eauto].
      * destruct Hnone. exists i2, x2. by rewrite Hm.
      * destruct Hnone. exists i1, x1. by rewrite <- Hm.
    + intros i x [[<- <-]|[_ Hx]]%lookup_insert_Some; [|eauto]. rewrite Hnr, Hres.
      split; [done|by intros [? [=]]].
  - split; [| |done].
    + intros i x Hx. exists x. split; [done|reflexivity].
    + intros i x Hx. cbn. exists x. rewrite lookup_insert_ne by congruence. split; [done|reflexivity].
Qed.

Lemma retire_sound rcid db : sound db (db <| Db.result_claims := retired_claims rcid db |>).
Proof.
  apply claims_map_sound. intros id. unfold retired_claims. destruct rcid as [cid|].
  - destruct (decide (id = cid)) as [->|Hne].
    + rewrite lookup_alter_eq. destruct (Db.result_claims db !! cid) as [c|]; [|done]. cbn.
      destruct (ResultClaim.is_pending c) eqn:Hp; [|split; [reflexivity|done]].
      split; [by apply set_claim_status_evolves|]. intros _. by apply set_claim_status_confirmed.
    + rewrite lookup_alter_ne by done. destruct (Db.result_claims db !! id); [|done].
      split; [reflexivity|done].
  - destruct (Db.result_claims db !! id); [|done]. split; [reflexivity|done].
Qed.

Lemma raised_db_sound rcid d m db :
  Dispute.id d = Db.next_uuid db → Dispute.status d = DisputeStatus.Pending →
  Dispute.resolution d = None → Db.matches db !! Dispute.match_id d = Some m →
  ¬ has_open_dispute (Dispute.match_id d) db → sound db (raised_db rcid d m db).
Proof.
  intros Hid Hst Hres Hm Hnone. unfold raised_db. rewrite Hid.
  assert (Dispute.is_resolved d = false) as Hnr by (unfold Dispute.is_resolved; by rewrite Hst).
  assert (is_Some (Db.matches db !! Dispute.match_id d)) as Hsome by by eexists.
  etransitivity; [exact (insert_dispute_sound d db Hid Hnr Hres Hsome Hnone)|].
  set (db1 := _ <| Db.disputes := _ |>).
  etransitivity; [apply (write_match_sound (Dispute.match_id d) m
    (set_disputed (Dispute.description d) (Db.now db) m) db1); done|].
  set (db2 := write_match _ _ db1).
  etransitivity; [apply (retire_sound rcid db2)|].
  apply quiet_sound; [done| |done| |]; cbn; [by destruct rcid|lia|by eexists].
Qed.

(** ** The calls *)

Inductive result_call :=
| SubmitClaim (mid : TournamentMatchId) (winner : TournamentRegistrationId) (s1 s2 : Z)
    (games : list GameResultInput.t) (evidence_ids : list EvidenceId)
    (demo_link_ids : list DemoMatchLinkId) (notes : option string) (actor : RegistrationActor.t)
| SubmitServerClaim (mid : TournamentMatchId) (winner : TournamentRegistrationId) (s1 s2 : Z)
    (games : list GameResultInput.t) (auto_confirm_at : DateTime)
| ConfirmClaim (id : ResultClaimId) (actor : RegistrationActor.t)
| OverrideResult (mid : TournamentMatchId) (s1 s2 : Z) (reason : string) (changed_by : PlayerId)
    (request_id : option string)
| CancelClaim (id : ResultClaimId) (user : UserId)
| AutoConfirm
| RaiseDispute (mid : TournamentMatchId) (rcid : option ResultClaimId) (reason : DisputeReason.t)
    (description : string) (evidence_ids : list EvidenceId) (reg : TournamentRegistrationId)
    (user : UserId)
| AddMessage (id : DisputeId) (text : string) (evidence_ids : list EvidenceId) (author : UserId)
    (type : AuthorType.t) (internal : bool)
| AssignDispute (id : DisputeId) (who : UserId)
| ResolveDispute (res : Resolution.t) (id : DisputeId) (notes : string) (who : UserId)
| CancelDispute (id : DisputeId) (who : UserId).

Definition run_result_call (self : ResultService.t) (call : result_call) (db : Db.t) : Db.t :=
  match call with
  | SubmitClaim mid w s1 s2 games ev demos notes actor =>
      (ResultService.submit_claim self mid w s1 s2 games ev demos notes actor db).2
  | SubmitServerClaim mid w s1 s2 games at_ =>
      (ResultService.submit_server_claim self mid w s1 s2 games at_ db).2
  | ConfirmClaim id actor => (ResultService.confirm_claim self id actor db).2
  | OverrideResult mid s1 s2 reason by_ req =>
      (ResultService.override_result mid s1 s2 reason by_ req db).2
  | CancelClaim id user => (ResultService.cancel_claim id user db).2
  | AutoConfirm => (ResultService.process_auto_confirmations db).2
  | RaiseDispute mid rcid reason desc ev reg user =>
      (DisputeService.raise_dispute mid rcid reason desc ev reg user db).2
  | AddMessage id text ev author type internal =>
      (DisputeService.add_message id text ev author type internal db).2
  | AssignDispute id who => (DisputeService.assign_for_review id who db).2
  | ResolveDispute res id notes who => (resolve res id notes who db).2
  | CancelDispute id who => (DisputeService.cancel_dispute id who db).2
  end.

(** What the rest of the program may do: time passes, other tables change, and
    matches change but are not removed, moved, or played by one side twice. *)
Record elsewhere (db db' : Db.t) : Prop := {
  el_claims : Db.result_claims db' = Db.result_claims db;
  el_disputes : Db.disputes db' = Db.disputes db;
  el_messages : Db.dispute_messages db' = Db.dispute_messages db;
  el_next : (Db.next_uuid db ≤ Db.next_uuid db')%N;
  el_matches : ∀ mid, is_Some (Db.matches db !! mid) → is_Some (Db.matches db' !! mid);
  el_keyed : matches_keyed db';
  el_sides : ∀ mid m w, Db.matches db' !! mid = Some m →
    TournamentMatch.participant1_registration_id m = Some w →
    TournamentMatch.participant2_registration_id m ≠ Some w;
}.

Inductive result_step (self : ResultService.t) (db : Db.t) : Db.t → Prop :=
| ResultStep_call call : result_step self db (run_result_call self call db)
| ResultStep_elsewhere db' : elsewhere db db' → result_step self db db'.

Lemma elsewhere_sound db db' : elsewhere db db' → sound db db'.
Proof.
  intros [Hcl Hdi Hmsg Hnext Hms Hkey Hsides] [Hc Hd]. split; [split|split].
  - destruct Hc as [_ _ Hids Hfresh Hone Hcc]. split; rewrite ?Hcl; try done.
    intros id c Hid. eapply N.lt_le_trans; eauto.
  - destruct Hd as [Hids Hfresh Hfk Hone Hr]. split; unfold dispute_matches; rewrite ?Hdi; try done.
    + intros id d Hid. eapply N.lt_le_trans; eauto.
    + intros id d Hid. eapply Hms, Hfk, Hid.
  - intros id c Hid. rewrite Hcl. exists c. split; [done|reflexivity].
  - intros id d Hid. rewrite Hdi. exists d. split; [done|reflexivity].
  - by rewrite Hmsg.
Qed.

(** Every claim of the sweep is confirmed by another side than its submitter's. *)
Lemma auto_opponent db c m opponent loser :
  claims_wf db → auto_outcome db c = Some (m, opponent, loser) →
  ResultClaim.submitted_by_registration_id c ≠ Some opponent.
Proof.
  intros Hwf Hout. pose proof (auto_outcome_match _ _ _ _ _ Hout) as Hm.
  unfold auto_outcome in Hout. rewrite Hm in Hout. cbn in Hout.
  destruct (loser_of m (default _ _)) as [o|] eqn:Ho; [|done]. cbn in Hout.
  destruct (loser_of m (ResultClaim.claimed_winner_registration_id c)); [|done].
  injection Hout as <- _.
  pose proof (loser_of_ne _ _ _ _ _ Hwf Hm Ho) as Hne. intros Hs. rewrite Hs in Hne. done.
Qed.

Lemma auto_db_sound c db :
  Db.result_claims db !! ResultClaim.id c = Some c → ResultClaim.is_pending c = true →
  sound db (auto_db c db).
Proof.
  intros Hc Hp Hwf. unfold auto_db.
  destruct (auto_outcome db c) as [[[m o] l]|] eqn:Hout; [|by apply (reflexivity (R := sound))].
  refine (confirmed_db_sound _ _ _ _ _ _ _ _ Hc Hp _ _ Hwf).
  - by eapply auto_outcome_match.
  - eapply auto_opponent; [apply Hwf|done].
Qed.

Lemma sweep_sound cs db :
  NoDup (ResultClaim.id <$> cs) →
  Forall (λ c, Db.result_claims db !! ResultClaim.id c = Some c ∧ ResultClaim.is_pending c = true) cs →
  sound db (sweep_db cs db).
Proof.
  unfold sweep_db. revert db. induction cs as [|c cs IH]; intros db Hid Hcs; [reflexivity|].
  rewrite fmap_cons in Hid. apply NoDup_cons in Hid as [Hid Hids].
  apply Forall_cons in Hcs as [[Hc Hp] Hcs]. cbn [fold_left].
  transitivity (auto_db c db); [by apply auto_db_sound|]. refine (IH _ Hids _).
  rewrite Forall_forall in Hcs |- *. intros x Hx. destruct (Hcs x Hx) as [Hlook ?]. split; [|done].
  rewrite auto_db_claims. destruct (auto_outcome db c) as [[[m o] l]|]; [|done].
  rewrite lookup_insert_ne; [done|]. intros Heq. apply Hid. rewrite Heq. by apply list_elem_of_fmap_2.
Qed.

Lemma set_resolved_evolves by_ row now d :
  Dispute.can_resolve d = true → dispute_evolves d (set_resolved by_ row now d).
Proof. intros Hc. right. rewrite can_resolve_terminal, negb_true_iff in Hc. done. Qed.

Lemma resolved_match_sides res d now m m' : resolved_match res d now m = Some m' → same_sides m m'.
Proof.
  destruct res; cbn [resolved_match].
  - destruct (Dispute.original_winner_registration_id d) as [w|]; [|by intros [= <-]].
    destruct (loser_of m w); [|done]. by intros [= <-].
  - destruct (loser_of m winner); [|done]. by intros [= <-].
  - by intros [= <-].
  - destruct (derive_result_outcome m score1 score2) as [[w l]|]; [|done]. by intros [= <-].
  - by intros [= <-].
Qed.

Lemma open_unresolved db id d :
  disputes_wf db → Db.disputes db !! id = Some d → Dispute.is_terminal d = false →
  Dispute.resolution d = None.
Proof.
  intros Hwf Hd Ht. destruct (Dispute.resolution d) eqn:Hr; [|done].
  assert (Dispute.is_resolved d = true) as Hres
    by (apply (dw_resolved _ Hwf _ _ Hd); rewrite Hr; by eexists).
  revert Hres Ht. unfold Dispute.is_resolved, Dispute.is_terminal. by destruct (Dispute.status d).
Qed.

Lemma run_result_call_sound self call db :
  lifecycle_wired self → sound db (run_result_call self call db).
Proof.
  intros Hwired Hwf. assert (claims_wf db) as Hcwf by apply Hwf.
  assert (dispute_matches db) as Hfk by apply Hwf.
  assert (sound db db) as Hrefl by reflexivity.
  destruct call; cbn [run_result_call].
  - destruct (ResultService.submit_claim _ _ _ _ _ _ _ _ _ _ db) as [r db'] eqn:Hrun; cbn [snd].
    apply submit_claim_inv in Hrun as [(m & reg & rs & Hm & _ & _ & _ & _ & _ & _ & ->)|(e & _ & ->)];
      [|by apply Hrefl|done].
    revert Hwf. change (sound db (after_submission self mid m
      (submitted_db (participant_claim self mid winner s1 s2 rs evidence_ids demo_link_ids notes reg actor db) db))).
    etransitivity; [apply submitted_db_sound|by apply after_submission_sound].
  - destruct (ResultService.submit_server_claim _ _ _ _ _ _ _ db) as [r db'] eqn:Hrun; cbn [snd].
    apply submit_server_claim_inv in Hrun as [(m & rs & _ & _ & _ & _ & _ & _ & ->)|(e & _ & ->)];
      [by apply submitted_db_sound|by apply Hrefl].
  - destruct (ResultService.confirm_claim _ _ _ db) as [r db'] eqn:Hrun; cbn [snd].
    apply confirm_claim_inv in Hrun as
      [(c & m & reg & loser & Hc & Hp & Hm & _ & Hs & _ & _ & ->)|(e & _ & ->)];
      [by eapply confirmed_db_sound|by apply Hrefl|apply Hcwf].
  - destruct (ResultService.override_result _ _ _ _ _ _ db) as [r db'] eqn:Hrun; cbn [snd].
    apply override_result_inv in Hrun as [(m & w & l & Hm & _ & _ & _ & ->)|(e & _ & ->)];
      [|by apply Hrefl].
    revert Hwf. change (sound db (write_match mid (set_result s1 s2 w l (Db.now db) m) db
      <| Db.next_uuid := N.succ (Db.next_uuid db) |>
      <| Db.entity_changes := Db.entity_changes db ++
           [inserted_change (Db.next_uuid db) (Db.now db)
              (override_audit mid m s1 s2 w reason changed_by request_id)] |>)).
    etransitivity; [eapply write_match_sound; [exact Hm|apply set_result_sides]|].
    apply quiet_sound; [done..| |done]. cbn. lia.
  - destruct (ResultService.cancel_claim _ _ db) as [r db'] eqn:Hrun; cbn [snd].
    apply cancel_claim_inv in Hrun as [(c & Hc & Hp & _ & _ & ->)|(e & _ & ->)]; [|by apply Hrefl].
    eapply write_claim_sound; [done|by apply set_claim_status_evolves| |done].
    by apply set_claim_status_confirmed.
  - rewrite (process_auto_confirmations_run _ Hcwf). cbn [snd].
    refine (sweep_sound _ _ (ready_ids _ Hcwf) _ Hwf). apply Forall_forall.
    intros c Hc. by apply ready_rows.
  - destruct (DisputeService.raise_dispute _ _ _ _ _ _ _ db) as [r db'] eqn:Hrun; cbn [snd].
    apply raise_dispute_inv in Hrun as [(m & Hm & _ & Hno & _ & _ & _ & ->)|(e & _ & ->)];
      [|by apply Hrefl].
    unfold raised. destruct (DisputeService.original_result m (claim_of rcid db)) as [[w s1] s2].
    by apply raised_db_sound.
  - destruct (DisputeService.add_message _ _ _ _ _ _ db) as [r db'] eqn:Hrun; cbn [snd].
    apply add_message_inv in Hrun as [(d & msg & _ & _ & _ & _ & ->)|(e & _ & ->)];
      [by apply append_db_sound|by apply Hrefl].
  - destruct (DisputeService.assign_for_review _ _ db) as [r db'] eqn:Hrun; cbn [snd].
    apply assign_inv in Hrun as [(d & Hd & Hc & _ & ->)|(e & _ & ->)]; [|by apply Hrefl].
    assert (Dispute.is_terminal d = false) as Hopen.
    { revert Hc. unfold Dispute.can_assign, Dispute.is_terminal. by destruct (Dispute.status d). }
    pose proof (open_unresolved _ _ _ (proj2 Hwf) Hd Hopen) as Hnone.
    revert Hwf. change (sound db (append_db (posted id who AuthorType.System
      "Dispute assigned for review" true db) (write_dispute id (assigned who (Db.now db) d) db))).
    etransitivity; [eapply write_dispute_sound; [done| |]|apply append_db_sound].
    + right. split_and!; done.
    + unfold assigned, Dispute.is_resolved. cbn. rewrite Hnone. split; [done|by intros [? [=]]].
  - destruct (resolve _ _ _ _ db) as [r db'] eqn:Hrun; cbn [snd].
    apply resolve_inv in Hrun as [(d & m & m' & ch & Hd & Hcan & Hm & Hm' & _ & ->)|(e & _ & ->)];
      [|by apply Hrefl|done].
    refine (settled_db_sound _ d _ m _ _ _ Hd _ _ _ Hm _ Hwf).
    + by apply set_resolved_evolves.
    + done.
    + split; [by eexists|done].
    + by eapply resolved_match_sides.
  - destruct (DisputeService.cancel_dispute _ _ db) as [r db'] eqn:Hrun; cbn [snd].
    apply cancel_dispute_inv in Hrun as [(d & m & Hd & Ht & Hm & _ & ->)|(e & _ & ->)];
      [|by apply Hrefl|done].
    pose proof (open_unresolved _ _ _ (proj2 Hwf) Hd Ht) as Hnone.
    refine (settled_db_sound _ d _ m _ _ _ Hd _ _ _ Hm (set_status_sides _ _ _) Hwf).
    + by right.
    + done.
    + unfold set_cancelled, Dispute.is_resolved. cbn. rewrite Hnone. split; [done|by intros [? [=]]].
Qed.

Lemma result_step_sound self db db' : lifecycle_wired self → result_step self db db' → sound db db'.
Proof. intros Hw []; [by apply run_result_call_sound|by apply elsewhere_sound]. Qed.

Lemma result_steps_sound self db db' :
  lifecycle_wired self → rtc (result_step self) db db' → sound db db'.
Proof.
  intros Hw. induction 1 as [|x y z Hxy _ IH]; [reflexivity|].
  etransitivity; [by eapply result_step_sound|done].
Qed.
End system.
