(* ===== verification/ResultProps.v ===== *)
(** What results and disputes promise: who may confirm or contest, what each
    decision makes of the match and its claim, and the order of the queue. *)
From stdpp Require Import base list strings gmap relations sorting.
From S2P Require Import Prelude Errors Wire TournamentTypes CoreEnums DomainEnums FormatPlan Entities.
From S2P Require Import Rows ResultModel Store StoreFacts Samples ClaimStore DisputeStore Helpers.
From S2P Require Import ProgressionProps Actor Results Disputes ClaimFacts DisputeFacts ResultSystem.
#[local] Open Scope Z_scope.

Section props.
Context `{Platform}.

(** No claim and no dispute yet; matches stored under their identifier, between
    two different sides. *)
Definition blank (db : Db.t) : Prop :=
  Db.result_claims db = ∅ ∧ Db.disputes db = ∅ ∧ matches_keyed db ∧
  ∀ mid m w, Db.matches db !! mid = Some m →
    TournamentMatch.participant1_registration_id m = Some w →
    TournamentMatch.participant2_registration_id m ≠ Some w.

Lemma blank_wf db : blank db → results_wf db.
Proof.
  intros (Hc & Hd & Hkey & Hsides).
  split; split; unfold dispute_matches; rewrite ?Hc, ?Hd; try done; intros *; rewrite lookup_empty; done.
Qed.



(** ** Confirmation *)

(** A pending claim of a known match, an actor who speaks for the other side, and
    a loser to record. *)
Definition confirmable (self : ResultService.t) (id : ResultClaimId) (actor : RegistrationActor.t)
    (db : Db.t) (c : ResultClaim.t) (m : TournamentMatch.t) (reg loser : TournamentRegistrationId)
    : Prop :=
  Db.result_claims db !! id = Some c ∧ ResultClaim.is_pending c = true ∧
  Db.matches db !! ResultClaim.match_id c = Some m ∧
  find_actor_registration (ResultService.adhoc_repo self) m actor db = (Ok reg, db) ∧
  ResultClaim.submitted_by_registration_id c ≠ Some reg ∧
  loser_of m (ResultClaim.claimed_winner_registration_id c) = Some loser.

Lemma confirm_claim_run self id actor db c m reg loser :
  matches_keyed db → confirmable self id actor db c m reg loser →
  ResultService.confirm_claim self id actor db =
  (Ok (set_confirmed reg (Some (RegistrationActor.user_id actor)) false (Db.now db) c),
   confirmed_db id c m reg (Some (RegistrationActor.user_id actor)) false loser db).
Proof.
  intros Hkey (Hc & Hp & Hm & Hactor & Hs & Hl).
  destruct (ResultService.confirm_claim self id actor db) as [r db'] eqn:Hrun.
  destruct (confirm_claim_inv _ _ _ _ _ _ Hkey Hrun) as
    [(c' & m' & reg' & loser' & Hc' & Hp' & Hm' & Hactor' & Hs' & Hl' & -> & ->)|(e & -> & ->)].
  { rewrite Hc in Hc'. injection Hc' as <-. rewrite Hm in Hm'. injection Hm' as <-.
    rewrite Hactor in Hactor'. injection Hactor' as <-. rewrite Hl in Hl'. by injection Hl' as <-. }
  exfalso. revert Hrun. unfold ResultService.confirm_claim.
  assert (ResultService.get_claim id db = (Ok c, db)) as Hget.
  { unfold ResultService.get_claim, ResultClaimRepository.find_by_id, mbind, mread, mlift. by rewrite Hc. }
  rewrite (mbind_step _ _ _ _ _ Hget), Hp. cbn [negb].
  rewrite (mbind_step _ _ _ _ _ (get_match_found _ _ _ Hm)), (mbind_step _ _ _ _ _ Hactor).
  rewrite bool_decide_false by congruence. rewrite Hl, (Hkey _ _ Hm).
  rewrite (mbind_step _ _ _ loser db) by done.
  by rewrite (confirm_and_apply_run _ _ _ _ _ _ _ _ _ _ _ _ Hc Hp Hm).
Qed.

(** C31. Confirming a claim: exactly when it is pending, its match is known and
  the caller speaks for the side that did not submit it does the call succeed,
  and then claim and match are written together, the match completed with the
  claimed scores; a refused call writes nothing; and of two confirmations that
  both read the claim as pending, the one that comes second is refused by the
  statement itself and writes nothing. *)
Theorem confirm_claim_spec self id actor db :
  matches_keyed db →
  (∀ c m reg loser, confirmable self id actor db c m reg loser →
     let '(r, db') := ResultService.confirm_claim self id actor db in
     let user := Some (RegistrationActor.user_id actor) in
     let c' := set_confirmed reg user false (Db.now db) c in
     let m' := set_result (ResultClaim.claimed_participant1_score c)
                 (ResultClaim.claimed_participant2_score c)
                 (ResultClaim.claimed_winner_registration_id c) loser (Db.now db) m in
     r = Ok c' ∧
     Db.result_claims db' = <[id := c']> (Db.result_claims db) ∧
     Db.matches db' = <[ResultClaim.match_id c := m']> (Db.matches db) ∧
     ∀ reg2 user2 auto w l s1 s2 mid,
       ResultClaimRepository.confirm_and_apply_to_match id reg2 user2 auto mid w l s1 s2 db' =
       (throw ResultClaimRepository.already_resolved, db')) ∧
  ((∀ c m reg loser, ¬ confirmable self id actor db c m reg loser) →
   ∃ e, ResultService.confirm_claim self id actor db = (Err e, db)).
Proof.
  intros Hkey. split.
  - intros c m reg loser Hconf. rewrite (confirm_claim_run _ _ _ _ _ _ _ _ Hkey Hconf). cbv zeta.
    split_and!; [done..|]. intros reg2 user2 auto w l s1 s2 mid. apply confirm_and_apply_stale.
    intros x. cbn. rewrite lookup_insert_eq. by intros [= <-].
  - intros Hno. destruct (ResultService.confirm_claim self id actor db) as [r db'] eqn:Hrun.
    destruct (confirm_claim_inv _ _ _ _ _ _ Hkey Hrun) as
      [(c & m & reg & loser & Hc & Hp & Hm & Ha & Hs & Hl & _)|(e & -> & ->)]; [|by eexists].
    destruct (Hno c m reg loser). done.
Qed.

(** ** Which scores *)

(** C40. The validation of a claimed score decides exactly: the claimed winner is
  a participant with the strictly higher of two non-negative scores, the scores
  add up, without wrapping, to between the wins the format needs and its number of
  games, and the games, when listed, are one per point, numbered from 1, untied
  and won as the score says. *)
Theorem accepted_scores match_ winner score1 score2 games :
  in_i32 score1 → in_i32 score2 →
  is_ok (validate_scores match_ winner score1 score2 games) = true ↔
  legal_score match_ winner score1 score2 ∧ (games = [] ∨ legal_games score1 score2 games).
Proof.
  intros H1 H2. rewrite <- validate_scores_iff by done.
  destruct (validate_scores _ _ _ _ _) as [[]|e]; by split.
Qed.

(** ** Submission *)

(** Submitting is all or nothing although it is several statements, and a
  claim that goes in is the match's only pending one: it names the side the caller
  speaks for, is due [auto_confirm_timeout_seconds] from now, retires whatever was
  pending for the match, and, when the match was in progress, moves it to awaiting
  the result with one row in the status log. *)
Theorem submit_claim_spec self mid winner s1 s2 games ev demos notes actor db :
  lifecycle_wired self →
  let '(r, db') := ResultService.submit_claim self mid winner s1 s2 games ev demos notes actor db in
  match r with
  | Err _ => db' = db
  | Ok c =>
      ∃ m reg,
        Db.matches db !! mid = Some m ∧ TournamentMatch.can_submit_result m = true ∧
        find_actor_registration (ResultService.adhoc_repo self) m actor db = (Ok reg, db) ∧
        is_ok (validate_scores m winner s1 s2 games) = true ∧
        ResultClaim.submitted_by_registration_id c = Some reg ∧
        ResultClaim.scores c = (s1, s2) ∧
        ResultClaim.auto_confirm_at c =
          Some (Db.now db + seconds (ResultService.auto_confirm_timeout_seconds self)) ∧
        Db.result_claims db' = <[ResultClaim.id c := c]> (supersede mid db) ∧
        (∀ id c', Db.result_claims db' !! id = Some c' → ResultClaim.match_id c' = mid →
           (ResultClaim.is_pending c' = true ↔ id = ResultClaim.id c)) ∧
        (TournamentMatch.status m = TournamentMatchStatus.InProgress →
         is_Some (ResultService.match_transitioner self) →
         (TournamentMatch.status <$> Db.matches db' !! mid) = Some TournamentMatchStatus.AwaitingResult ∧
         ∃ l, Db.status_log db' = Db.status_log db ++ [l] ∧ MatchStatusLog.match_id l = mid ∧
              MatchStatusLog.from_status l = TournamentMatchStatus.InProgress ∧
              MatchStatusLog.to_status l = TournamentMatchStatus.AwaitingResult) ∧
        (TournamentMatch.status m ≠ TournamentMatchStatus.InProgress →
         Db.matches db' = Db.matches db ∧ Db.status_log db' = Db.status_log db)
  end.
Proof.
  intros Hwired.
  destruct (ResultService.submit_claim self mid winner s1 s2 games ev demos notes actor db) as [r db'] eqn:Hrun.
  destruct (submit_claim_inv _ _ _ _ _ _ _ _ _ _ _ _ _ Hwired Hrun) as
    [(m & reg & rs & Hm & Hsub & Hactor & Hval & _ & _ & -> & ->)|(e & -> & ->)]; [|done].
  set (cmd := participant_claim self mid winner s1 s2 rs ev demos notes reg actor db).
  assert (Db.result_claims (after_submission self mid m (submitted_db cmd db)) =
          <[ResultClaim.id (submitted_claim cmd db) := submitted_claim cmd db]> (supersede mid db)) as Hcl.
  { unfold after_submission. destruct (TournamentMatch.status m), (ResultService.match_transitioner self); done. }
  exists m, reg. split_and!; try done.
  - unfold ResultService.validate_claim in Hval. revert Hval. unfold mbind, mlift.
    by destruct (validate_scores m winner s1 s2 games).
  - rewrite Hcl. intros id c'. destruct (decide (id = ResultClaim.id (submitted_claim cmd db))) as [->|Hne].
    + rewrite lookup_insert_eq. intros [= <-] _. done.
    + rewrite lookup_insert_ne by done. intros Hc' Hmid.
      rewrite (supersede_none_pending _ _ _ _ Hc' Hmid). done.
  - intros Hs [t Ht]. unfold after_submission. rewrite Hs, Ht. unfold awaiting_db. cbn.
    rewrite lookup_insert_eq. cbn. split; [done|]. eexists. split; [reflexivity|]. done.
  - intros Hs. unfold after_submission. by destruct (TournamentMatch.status m).
Qed.

(** ** The clock *)

(** The sweep for overdue claims never fails and leaves none behind: every
  claim that is due is confirmed in the name of the submitter's opponent (of the
  loser, for a claim of the server) and its match completed with its result, unless
  a side of the match is missing; nothing else changes; and the claims it reports
  are the ones it confirmed. *)
Theorem auto_confirm_sweep db :
  claims_wf db →
  let '(r, db') := ResultService.process_auto_confirmations db in
  (∃ cs, r = Ok cs ∧
     ∀ c', c' ∈ cs ↔ ∃ id c m opponent loser,
       Db.result_claims db !! id = Some c ∧ ResultClaim.is_auto_confirm_due (Db.now db) c = true ∧
       auto_outcome db c = Some (m, opponent, loser) ∧ c' = auto_confirmed (Db.now db) c opponent) ∧
  (∀ id c, Db.result_claims db !! id = Some c →
     Db.result_claims db' !! id = Some
       (if ResultClaim.is_auto_confirm_due (Db.now db) c then
          match auto_outcome db c with
          | Some (_, opponent, _) => auto_confirmed (Db.now db) c opponent
          | None => c
          end
        else c)) ∧
  (∀ id c m opponent loser,
     Db.result_claims db !! id = Some c → ResultClaim.is_auto_confirm_due (Db.now db) c = true →
     auto_outcome db c = Some (m, opponent, loser) →
     Db.matches db' !! ResultClaim.match_id c =
       Some (set_result (ResultClaim.claimed_participant1_score c)
               (ResultClaim.claimed_participant2_score c)
               (ResultClaim.claimed_winner_registration_id c) loser (Db.now db) m)) ∧
  (∀ mid, (∀ id c, Db.result_claims db !! id = Some c → ResultClaim.match_id c = mid →
             ResultClaim.is_auto_confirm_due (Db.now db) c = false) →
     Db.matches db' !! mid = Db.matches db !! mid).
Proof.
  intros Hwf. rewrite (process_auto_confirmations_run db Hwf). cbv zeta.
  set (cs := ResultClaimRepository.ready_for_auto_confirm db).
  assert (∀ id c, Db.result_claims db !! id = Some c →
            ResultClaim.is_auto_confirm_due (Db.now db) c = true →
            c ∈ cs ∧ ResultClaim.id c = id) as Hready.
  { intros id c Hid Hdue. split; [apply ready_spec; eauto|by eapply cw_ids]. }
  split_and!.
  - eexists. split; [reflexivity|]. intros c'. rewrite list_elem_of_omap. split.
    + intros (c & [Hdue [id Hid]]%ready_spec & Hc').
      destruct (auto_outcome db c) as [[[m o] l]|] eqn:Hout; [|done]. injection Hc' as <-.
      by exists id, c, m, o, l.
    + intros (id & c & m & o & l & Hid & Hdue & Hout & ->). exists c. rewrite Hout.
      split; [by eapply Hready|done].
  - intros id c Hid. destruct (ResultClaim.is_auto_confirm_due (Db.now db) c) eqn:Hdue.
    + destruct (Hready _ _ Hid Hdue) as [Hin <-].
      by destruct (sweep_claim cs db c (ready_matches _ Hwf) (ready_ids _ Hwf) Hin Hid) as [-> _].
    + rewrite sweep_other_claim; [done|]. intros (c' & Hc' & Hin)%list_elem_of_fmap.
      destruct (ready_rows _ _ Hwf Hin) as [Hrow _]. rewrite <- Hc', Hid in Hrow. injection Hrow as <-.
      apply ready_spec in Hin as [? _]. congruence.
  - intros id c m o l Hid Hdue Hout. destruct (Hready _ _ Hid Hdue) as [Hin <-].
    destruct (sweep_claim cs db c (ready_matches _ Hwf) (ready_ids _ Hwf) Hin Hid) as [_ ->].
    by rewrite Hout.
  - intros mid Hno. apply sweep_other_match. intros (c & -> & [Hdue [id Hid]]%ready_spec)%list_elem_of_fmap.
    rewrite (Hno id c Hid eq_refl) in Hdue. done.
Qed.

(** ** Correction by an administrator *)

(** A score is never corrected without a trace: the call succeeds only on a
  match that has a recorded winner and for scores that have one, and then the
  match row and exactly one change row are written, the change naming who, the
  values before and the values after; otherwise nothing is written. *)
Theorem override_audited mid s1 s2 reason by_ request db :
  let '(r, db') := ResultService.override_result mid s1 s2 reason by_ request db in
  match r with
  | Err _ => db' = db
  | Ok m' =>
      ∃ m winner loser change,
        Db.matches db !! mid = Some m ∧ is_Some (TournamentMatch.winner_registration_id m) ∧
        derive_result_outcome m s1 s2 = Ok (winner, loser) ∧
        m' = set_result s1 s2 winner loser (Db.now db) m ∧
        Db.matches db' = <[mid := m']> (Db.matches db) ∧
        Db.entity_changes db' = Db.entity_changes db ++ [change] ∧
        EntityChange.entity_id change = mid ∧ EntityChange.changed_by change = by_ ∧
        EntityChange.old_value change = Some (ResultService.result_snapshot m) ∧
        EntityChange.new_value change = Some (ResultService.corrected_snapshot s1 s2 winner reason)
  end.
Proof.
  destruct (ResultService.override_result mid s1 s2 reason by_ request db) as [r db'] eqn:Hrun.
  destruct (override_result_inv _ _ _ _ _ _ _ _ _ Hrun) as
    [(m & w & l & Hm & Hw & Hout & -> & ->)|(e & -> & ->)]; [|done].
  exists m, w, l. eexists. split_and!; try done.
Qed.
End props.

(** ** Findings *)

(** A series of three is accepted at 3-0, a series of five at 2-1. *)
Lemma wrong_series_scores_accepted m :
  TournamentMatch.participant1_registration_id m = Some 1%N →
  (TournamentMatch.match_format m = MatchFormat.Bo3 → validate_scores m 1 3 0 [] = Ok tt) ∧
  (TournamentMatch.match_format m = MatchFormat.Bo5 → validate_scores m 1 2 1 [] = Ok tt).
Proof.
  intros Hp.
  assert (TournamentMatch.participant1_registration_id m ≠ None) as Hne by by rewrite Hp.
  split; intros Hf; apply validate_scores_iff; try (unfold in_i32, i32_min, i32_max; lia);
    (split; [|by left]); unfold legal_score; rewrite Hf; (split; [lia|]); (split; [lia|]);
    (split; [left; split; [done|lia]|]); vm_compute; by split.
Qed.

(** ** A played match *)
Section sample.
#[local] Existing Instance sample_platform.

Definition sample_side (id user : N) : TournamentRegistration.t :=
  (BracketModel.sample_registration id (Some (Z.of_N id)))
    <| TournamentRegistration.registered_by := user |>.

(** Sides 1 and 2, registered by the users 101 and 102, playing a series of three. *)
Definition live_match : TournamentMatch.t :=
  (sample_row 10 5 1 1 "R1M1" (None, None) (Some 1%N, Some 2%N))
    <| TournamentMatch.match_format := MatchFormat.Bo3 |>
    <| TournamentMatch.status := TournamentMatchStatus.InProgress |>.

Definition live_db : Db.t :=
  (sample_db [live_match] [] []) <| Db.registrations := {[1%N := sample_side 1 101; 2%N := sample_side 2 102]} |>.

(** The service as the application wires it, with a pool of one map. *)
Definition portal : ResultService.t :=
  ResultService.with_match_transitioner
    (ResultService.with_map_pool_provider (ResultService.with_adhoc_repo ResultService.new pg_adhoc_repo)
       (MapPoolProvider.mk _ (λ _ _ _, Ok ["dust2"])))
    MatchStatusTransitioner.lifecycle.

Definition captain1 : RegistrationActor.t := RegistrationActor.new 101 201.
Definition captain2 : RegistrationActor.t := RegistrationActor.new 102 202.

Definition run_results (calls : list result_call) (db : Db.t) : Db.t :=
  fold_left (λ db call, run_result_call portal call db) calls db.

Lemma run_results_steps calls db : rtc (result_step portal) db (run_results calls db).
Proof.
  unfold run_results. revert db. induction calls as [|call calls IH]; intros db; [apply rtc_refl|].
  cbn [fold_left]. eapply rtc_l; [apply ResultStep_call|apply IH].
Qed.

Lemma portal_wired : lifecycle_wired portal.
Proof. by intros t [= <-]. Qed.

Lemma live_blank : blank live_db.
Proof.
  split; [done|]. split; [done|].
  assert (∀ id m, Db.matches live_db !! id = Some m → id = 10%N ∧ m = live_match) as Hm.
  { assert (Db.matches live_db = list_to_map ((λ m, (TournamentMatch.id m, m)) <$> [live_match])) as ->
      by reflexivity.
    intros id m [= -> ->]%elem_of_list_to_map_2%list_elem_of_singleton. done. }
  split.
  - intros id m [-> ->]%Hm. done.
  - intros id m w [-> ->]%Hm. cbn. by intros [= <-].
Qed.

Lemma run_results_wf calls : results_wf (run_results calls live_db).
Proof.
  by destruct (result_steps_sound portal _ _ portal_wired (run_results_steps calls live_db)
    (blank_wf _ live_blank)).
Qed.

(** Side 1 claims 2-1; side 2 disputes it; an administrator upholds it. *)
Definition claim_call : result_call := SubmitClaim 10 1 2 1 [] [] [] None captain1.
Definition contested : list result_call :=
  [claim_call; RaiseDispute 10 (Some 1000%N) DisputeReason.WrongScore "It was 1-2" [] 2 102;
   ResolveDispute Resolution.Uphold 1002 "Demo checked" 7].

(** The state with the claim of side 1 pending. *)
Definition claimed_db : Db.t := run_results [claim_call] live_db.

Definition pending_claim : ResultClaim.t :=
  submitted_claim (participant_claim portal 10 1 2 1 [] [] [] None 1 captain1 live_db) live_db.
Definition awaiting_match : TournamentMatch.t :=
  live_match <| TournamentMatch.status := TournamentMatchStatus.AwaitingResult |>
             <| TournamentMatch.updated_at := 100 |>.


(** The claim cancelled by its submitter, before another is submitted. *)
Definition withdrawn_db : Db.t := run_results [claim_call; CancelClaim 1000 101] live_db.
Definition withdrawn_claim : ResultClaim.t := set_claim_status ClaimStatus.Cancelled 100 pending_claim.

Lemma withdrawn_row : Db.result_claims withdrawn_db !! 1000%N = Some withdrawn_claim.
Proof. vm_compute. reflexivity. Qed.


Lemma captain2_can_confirm :
  confirmable portal 1000 captain2 claimed_db pending_claim awaiting_match 2 2.
Proof.
  do 3 (split; [vm_compute; reflexivity|]). split; [|split; [vm_compute; discriminate|vm_compute; reflexivity]].
  change (ResultService.adhoc_repo portal) with (Some pg_adhoc_repo).
  rewrite find_actor_registration_run. f_equal.
Qed.

Example confirm_claim_spec_witness :
  Db.matches (ResultService.confirm_claim portal 1000 captain2 claimed_db).2 !! 10%N =
  Some (set_result 2 1 1 2 100 awaiting_match).
Proof.
  destruct (confirm_claim_spec portal 1000 captain2 claimed_db
    (cw_matches _ (proj1 (run_results_wf [claim_call])))) as [Hok _].
  specialize (Hok pending_claim awaiting_match 2%N 2%N captain2_can_confirm).
  destruct (ResultService.confirm_claim portal 1000 captain2 claimed_db) as [r db'].
  destruct Hok as (_ & _ & Hm & _). cbn [snd]. rewrite Hm. apply lookup_insert_eq.
Defined.

Example accepted_scores_witness :
  is_ok (validate_scores live_match 1 2 1
    [GameResultInput.mk 1 "dust2" 13 5 None [] None; GameResultInput.mk 2 "mirage" 3 13 None [] None;
     GameResultInput.mk 3 "nuke" 16 14 None [] None]) = true.
Proof.
  apply accepted_scores; [unfold in_i32, i32_min, i32_max; lia..|].
  split; [|right].
  - split; [lia|]. split; [lia|]. split; [left; split; [reflexivity|lia]|]. vm_compute. by split.
  - split; [reflexivity|]. split; [|reflexivity].
    intros [|[|[|i]]] g; cbn; try (intros [= <-]; split; [reflexivity|discriminate]). done.
Defined.

Example submit_claim_spec_witness :
  ∃ c, (ResultService.submit_claim portal 10 1 2 1 [] [] [] None captain1 live_db).1 = Ok c ∧
       ResultClaim.scores c = (2, 1) ∧
       Db.result_claims (ResultService.submit_claim portal 10 1 2 1 [] [] [] None captain1 live_db).2 =
         <[ResultClaim.id c := c]> (supersede 10 live_db).
Proof.
  pose proof (submit_claim_spec portal 10 1 2 1 [] [] [] None captain1 live_db portal_wired) as Hspec.
  destruct (ResultService.submit_claim portal 10 1 2 1 [] [] [] None captain1 live_db) as [r db'] eqn:Hrun.
  destruct r as [c|e].
  - destruct Hspec as (m & reg & _ & _ & _ & _ & _ & Hs & _ & Hc & _). by exists c.
  - exfalso. apply (f_equal (λ p, is_ok p.1)) in Hrun. vm_compute in Hrun. discriminate.
Defined.

Lemma claims_wf_now db t : claims_wf db → claims_wf (db <| Db.now := t |>).
Proof. intros []. by split. Qed.

(** A day later. *)
Definition overdue_db : Db.t := claimed_db <| Db.now := 100 + seconds 86400 |>.

Lemma overdue_wf : claims_wf overdue_db.
Proof. apply claims_wf_now. exact (proj1 (run_results_wf [claim_call])). Qed.

Lemma overdue_row : Db.result_claims overdue_db !! 1000%N = Some pending_claim.
Proof. vm_compute. reflexivity. Qed.

Lemma overdue_due : ResultClaim.is_auto_confirm_due (Db.now overdue_db) pending_claim = true.
Proof. vm_compute. reflexivity. Qed.

Lemma overdue_outcome : auto_outcome overdue_db pending_claim = Some (awaiting_match, 2%N, 2%N).
Proof. vm_compute. reflexivity. Qed.

Example auto_confirm_sweep_witness :
  Db.result_claims (ResultService.process_auto_confirmations overdue_db).2 !! 1000%N =
    Some (auto_confirmed (100 + seconds 86400) pending_claim 2) ∧
  Db.matches (ResultService.process_auto_confirmations overdue_db).2 !! 10%N =
    Some (set_result 2 1 1 2 (100 + seconds 86400) awaiting_match).
Proof.
  pose proof (auto_confirm_sweep overdue_db overdue_wf) as Hspec.
  destruct (ResultService.process_auto_confirmations overdue_db) as [r db']. cbn [snd].
  destruct Hspec as (_ & Hrow & Hmatch & _). split.
  - rewrite (Hrow _ _ overdue_row), overdue_due, overdue_outcome. reflexivity.
  - apply (Hmatch _ _ _ _ _ overdue_row overdue_due overdue_outcome).
Defined.
End sample.

Section props.
Context `{Platform}.

(** ** Raising *)

(** A dispute goes in exactly when the match is settled, or still live and the
    dispute is about a claim, the caller's side plays it, no dispute of it is open,
    and the claim exists and is not the caller's own. *)
Definition disputable (mid : TournamentMatchId) (rcid : option ResultClaimId)
    (reg : TournamentRegistrationId) (db : Db.t) (m : TournamentMatch.t) : Prop :=
  Db.matches db !! mid = Some m ∧
  (TournamentMatch.status m = TournamentMatchStatus.Completed ∨
   TournamentMatch.status m = TournamentMatchStatus.Disputed ∨
   (is_Some rcid ∧ TournamentMatchStatus.can_submit_result (TournamentMatch.status m) = true)) ∧
  reg ∈ match_sides m ∧ ¬ has_open_dispute mid db ∧
  (is_Some rcid → is_Some (claim_of rcid db)) ∧ ¬ own_claim (claim_of rcid db) reg.

Lemma validate_can_dispute_ok m reg targets :
  DisputeService.validate_can_dispute m reg targets = Ok tt ↔
  (TournamentMatch.status m = TournamentMatchStatus.Completed ∨
   TournamentMatch.status m = TournamentMatchStatus.Disputed ∨
   (targets = true ∧ TournamentMatchStatus.can_submit_result (TournamentMatch.status m) = true)) ∧
  reg ∈ match_sides m.
Proof.
  unfold DisputeService.validate_can_dispute. rewrite elem_of_match_sides.
  destruct (bool_decide_reflect (TournamentMatch.participant1_registration_id m = Some reg)),
    (bool_decide_reflect (TournamentMatch.participant2_registration_id m = Some reg));
    destruct (TournamentMatch.status m), targets; cbn; naive_solver.
Qed.

Lemma raise_dispute_run mid rcid reason description ev reg user db m :
  disputable mid rcid reg db m →
  let d := raised mid rcid reason description ev reg user m (claim_of rcid db) db in
  DisputeService.raise_dispute mid rcid reason description ev reg user db = (Ok d, raised_db rcid d m db).
Proof.
  intros (Hm & Hst & Hside & Hno & Hclaim & Hown). cbv zeta.
  unfold DisputeService.raise_dispute. rewrite (mbind_step _ _ _ _ _ (get_match_found _ _ _ Hm)).
  assert (DisputeService.validate_can_dispute m reg (bool_decide (is_Some rcid)) = Ok tt) as Hval.
  { apply validate_can_dispute_ok. rewrite bool_decide_eq_true. done. }
  rewrite (mbind_step _ _ _ tt db) by (unfold mlift; by rewrite Hval).
  destruct (exists_pending_run mid db) as (b & Hpend & Hb).
  rewrite (mbind_step _ _ _ _ _ Hpend). destruct b; [by destruct Hno; apply Hb|].
  rewrite (mbind_step _ _ _ (claim_of rcid db) db) by (by destruct rcid).
  assert ((match claim_of rcid db with
           | Some claim => bool_decide (ResultClaim.submitted_by_registration_id claim = Some reg)
           | None => false end) = false) as ->.
  { destruct (claim_of rcid db) as [c|]; [|done]. apply bool_decide_eq_false. intros Hs.
    destruct Hown. by exists c. }
  assert (∀ cid, rcid = Some cid → is_Some (Db.result_claims db !! cid)) as Hfk.
  { intros cid ->. by apply Hclaim. }
  pose proof (raise_atomic_run mid rcid reason description ev reg user m (claim_of rcid db) db Hm Hfk)
    as Hraise. cbv zeta in Hraise. unfold raised_text in Hraise.
  destruct (DisputeService.original_result m (claim_of rcid db)) as [[w s1] s2]. exact Hraise.
Qed.

(** Raising a dispute is all or nothing and goes through exactly for a
  disputable match: the dispute is open, records as original result the disputed
  claim's (the match's own when no claim is named) and takes its priority from
  the reason; the match becomes disputed; the claim, if still pending, is retired;
  one public message opens the thread; no other match and no other claim changes. *)
Theorem raise_dispute_spec mid rcid reason description ev reg user db :
  let '(r, db') := DisputeService.raise_dispute mid rcid reason description ev reg user db in
  (is_ok r = true ↔ ∃ m, disputable mid rcid reg db m) ∧
  match r with
  | Err _ => db' = db
  | Ok d =>
      ∃ m text,
        Db.matches db !! mid = Some m ∧
        Db.disputes db' = <[Dispute.id d := d]> (Db.disputes db) ∧
        Dispute.can_resolve d = true ∧ Dispute.match_id d = mid ∧
        (Dispute.original_winner_registration_id d, Dispute.original_participant1_score d,
         Dispute.original_participant2_score d) =
        (let '(w, s1, s2) := DisputeService.original_result m (claim_of rcid db) in (w, Some s1, Some s2)) ∧
        Dispute.priority d = priority_of_reason reason ∧
        Db.matches db' = <[mid := set_disputed description (Db.now db) m]> (Db.matches db) ∧
        Db.result_claims db' = retired_claims rcid db ∧
        DisputeMessageRepository.thread (Dispute.id d) false db' =
          DisputeMessageRepository.thread (Dispute.id d) false db ++ [text]
  end.
Proof.
  destruct (DisputeService.raise_dispute mid rcid reason description ev reg user db) as [r db'] eqn:Hrun.
  destruct (raise_dispute_inv _ _ _ _ _ _ _ _ _ _ Hrun) as
    [(m & Hm & Hval & Hno & Hown & Hclaim & -> & ->)|(e & -> & ->)].
  - apply validate_can_dispute_ok in Hval as [Hst Hside]. rewrite bool_decide_eq_true in Hst.
    split; [split; [intros _; by exists m|done]|].
    exists m. unfold raised. destruct (DisputeService.original_result m (claim_of rcid db)) as [[w s1] s2].
    eexists. split_and!; try done. unfold DisputeMessageRepository.thread, raised_db. cbn.
    rewrite filter_app. f_equal. rewrite filter_cons_True by done. by rewrite filter_nil.
  - split; [|done]. split; [done|]. intros [m Hm]. rewrite (raise_dispute_run _ _ _ _ _ _ _ _ _ Hm) in Hrun.
    discriminate.
Qed.

(** ** Resolving *)

(** C33. A resolution closes an open dispute and writes its match and its thread
  with it, or, when the dispute is not open or no loser can be named, does nothing:
  upholding records the original result, overturning and adjusting record the new
  one, a rematch puts the match back to ready and a double disqualification
  cancels it, both without winner, loser or score; claims are never touched. *)
Theorem resolve_dispute_spec res id notes who db d m :
  Db.disputes db !! id = Some d → Db.matches db !! Dispute.match_id d = Some m →
  let '(r, db') := resolve res id notes who db in
  match resolved_match res d (Db.now db) m with
  | Some m' =>
      if Dispute.can_resolve d then
        is_ok r = true ∧
        Db.matches db' = <[Dispute.match_id d := m']> (Db.matches db) ∧
        Db.disputes db' =
          <[id := set_resolved who (resolution_row res notes m) (Db.now db) d]> (Db.disputes db) ∧
        Db.result_claims db' = Db.result_claims db ∧
        (∃ text, Db.dispute_messages db' = Db.dispute_messages db ++ [text]) ∧
        match res with
        | Resolution.Rematch | Resolution.DoubleDq =>
            TournamentMatch.winner_registration_id m' = None ∧
            TournamentMatch.loser_registration_id m' = None ∧
            TournamentMatch.participant1_score m' = 0 ∧ TournamentMatch.participant2_score m' = 0
        | Resolution.Adjusted s1 s2 =>
            ∃ w l, derive_result_outcome m s1 s2 = Ok (w, l) ∧
              TournamentMatch.winner_registration_id m' = Some w ∧
              TournamentMatch.loser_registration_id m' = Some l ∧
              w ∈ match_sides m ∧ l ∈ match_sides m
        | _ => TournamentMatch.status m' = TournamentMatchStatus.Completed
        end
      else is_ok r = false ∧ db' = db
  | None => is_ok r = false ∧ db' = db
  end.
Proof.
  intros Hd Hm. destruct (Dispute.can_resolve d) eqn:Hcan.
  2:{ destruct (resolve_closed res id notes who db) as [e ->]; [by intros ? [= <-]%(eq_trans (eq_sym Hd))|].
      by destruct (resolved_match _ _ _ _). }
  pose proof (resolve_run res id notes who d m db Hd Hcan Hm) as Hrun.
  destruct (resolved_match res d (Db.now db) m) as [m'|] eqn:Hm'; [|by destruct Hrun as [e ->]].
  destruct Hrun as [changes ->]. split_and!; try done; [by eexists|].
  destruct res as [|w s1 s2| |s1 s2|]; cbn [resolved_match] in Hm'.
  - destruct (Dispute.original_winner_registration_id d) as [w|]; [|by injection Hm' as <-].
    destruct (loser_of m w); [|done]. by injection Hm' as <-.
  - destruct (loser_of m w); [|done]. by injection Hm' as <-.
  - by injection Hm' as <-.
  - destruct (derive_result_outcome m s1 s2) as [[w l]|] eqn:Hout; [|done]. injection Hm' as <-.
    exists w, l. split_and!; try done; rewrite elem_of_match_sides; revert Hout;
      unfold derive_result_outcome;
      destruct (TournamentMatch.participant1_registration_id m) as [p1|]; try done;
      destruct (TournamentMatch.participant2_registration_id m) as [p2|]; try done;
      destruct (s1 ?= s2); try done; intros [= <- <-]; auto.
  - by injection Hm' as <-.
Qed.

Lemma set_result_disputed s1 s2 w l now reason m :
  set_result s1 s2 w l now (set_disputed reason now m) =
  (set_result s1 s2 w l now m) <| TournamentMatch.disputed := true |>
    <| TournamentMatch.dispute_reason := Some reason |>.
Proof. destruct m. unfold set_result, set_disputed. cbn. reflexivity. Qed.

(** The rows of a dispute just raised. *)
Lemma raised_db_rows rcid d m db :
  Db.disputes (raised_db rcid d m db) !! Dispute.id d = Some d ∧
  Db.matches (raised_db rcid d m db) =
    <[Dispute.match_id d := set_disputed (Dispute.description d) (Db.now db) m]> (Db.matches db) ∧
  Db.now (raised_db rcid d m db) = Db.now db.
Proof. split; [apply lookup_insert_eq|done]. Qed.

(** Upholding writes the original result. *)
Lemma uphold_original d m w l s1 s2 notes admin db :
  Db.disputes db !! Dispute.id d = Some d → Dispute.can_resolve d = true →
  Db.matches db !! Dispute.match_id d = Some m →
  Dispute.original_winner_registration_id d = Some w →
  Dispute.original_participant1_score d = Some s1 → Dispute.original_participant2_score d = Some s2 →
  loser_of m w = Some l →
  is_ok (resolve Resolution.Uphold (Dispute.id d) notes admin db).1 = true ∧
  Db.matches (resolve Resolution.Uphold (Dispute.id d) notes admin db).2 =
    <[Dispute.match_id d := set_result s1 s2 w l (Db.now db) m]> (Db.matches db).
Proof.
  intros Hd Hcan Hm Hw H1 H2 Hl.
  pose proof (resolve_run Resolution.Uphold (Dispute.id d) notes admin d m db Hd Hcan Hm) as Hrun.
  cbn [resolved_match] in Hrun. rewrite Hw, H1, H2, Hl in Hrun. cbn [mbind option_bind] in Hrun.
  by destruct Hrun as [changes ->].
Qed.

Lemma loser_of_disputed reason now m w : loser_of (set_disputed reason now m) w = loser_of m w.
Proof. reflexivity. Qed.

(** The two ways of accepting a claim agree: a claim its opponent could have
  confirmed, disputed instead and then upheld, leaves the match exactly as the
  confirmation would have, except that the match remains marked as disputed. *)
Theorem upheld_as_confirmed self cid actor reason description ev user notes admin db c m reg loser :
  matches_keyed db → confirmable self cid actor db c m reg loser →
  TournamentMatch.can_submit_result m = true → ¬ has_open_dispute (ResultClaim.match_id c) db →
  ∃ d db1,
    DisputeService.raise_dispute (ResultClaim.match_id c) (Some cid) reason description ev reg user db =
      (Ok d, db1) ∧
    is_ok (resolve Resolution.Uphold (Dispute.id d) notes admin db1).1 = true ∧
    Db.matches (resolve Resolution.Uphold (Dispute.id d) notes admin db1).2 =
      alter (λ m, m <| TournamentMatch.disputed := true |>
                    <| TournamentMatch.dispute_reason := Some description |>)
        (ResultClaim.match_id c) (Db.matches (ResultService.confirm_claim self cid actor db).2).
Proof.
  intros Hkey Hconf Hsub Hno. pose proof Hconf as (Hc & Hp & Hm & Hactor & Hs & Hl).
  assert (claim_of (Some cid) db = Some c) as Hclaim by (cbn; by rewrite Hc).
  assert (disputable (ResultClaim.match_id c) (Some cid) reg db m) as Hdisp.
  { split; [done|]. split; [right; right; split; [by eexists|done]|]. split.
    { destruct (find_actor_registration_reads _ _ _ _ _ _ Hactor) as [_ Hin]. by apply Hin. }
    rewrite Hclaim. split_and!; [done|by eexists|]. intros (x & [= <-] & Hx). done. }
  pose proof (raise_dispute_run _ _ reason description ev _ user _ _ Hdisp) as Hraise.
  cbv zeta in Hraise. rewrite Hclaim in Hraise. eexists _, _. split; [exact Hraise|]. clear Hraise.
  assert (∃ d, raised (ResultClaim.match_id c) (Some cid) reason description ev reg user m (Some c) db = d ∧
    Dispute.match_id d = ResultClaim.match_id c ∧ Dispute.description d = description ∧
    Dispute.can_resolve d = true ∧
    Dispute.original_winner_registration_id d = Some (ResultClaim.claimed_winner_registration_id c) ∧
    Dispute.original_participant1_score d = Some (ResultClaim.claimed_participant1_score c) ∧
    Dispute.original_participant2_score d = Some (ResultClaim.claimed_participant2_score c))
    as (d & -> & Hmid & Hdesc & Hopen & Hw & H1 & H2) by by eexists.
  destruct (raised_db_rows (Some cid) d m db) as (Hd1 & Hms1 & Hnow1).
  rewrite Hmid, Hdesc in Hms1. set (db1 := raised_db _ _ _ _) in *. clearbody db1.
  destruct (uphold_original d (set_disputed description (Db.now db) m)
    (ResultClaim.claimed_winner_registration_id c) loser (ResultClaim.claimed_participant1_score c)
    (ResultClaim.claimed_participant2_score c) notes admin db1 Hd1 Hopen) as [Hok Hms2]; [|exact Hw|exact H1|exact H2|by rewrite loser_of_disputed|].
  { rewrite Hmid, Hms1. apply lookup_insert_eq. }
  split; [exact Hok|]. rewrite Hms2, Hms1, Hnow1, Hmid, insert_insert_eq, set_result_disputed.
  rewrite (confirm_claim_run _ _ _ _ _ _ _ _ Hkey Hconf). cbn [snd].
  assert (∀ id x y r u a l z, Db.matches (confirmed_db id x y r u a l z) =
    <[ResultClaim.match_id x := set_result (ResultClaim.claimed_participant1_score x)
        (ResultClaim.claimed_participant2_score x) (ResultClaim.claimed_winner_registration_id x) l
        (Db.now z) y]> (Db.matches z)) as -> by done.
  by rewrite alter_insert_eq.
Qed.

(** ** The queue *)

(** Where a priority stands in the queue. *)
Definition queue_rank (p : DisputePriority.t) : Z :=
  match p with
  | DisputePriority.Urgent => 0
  | DisputePriority.Normal => 1
  | DisputePriority.Low => 2
  | DisputePriority.High => 3
  end.

Definition queued_before (d1 d2 : Dispute.t) : Prop :=
  queue_rank (Dispute.priority d1) < queue_rank (Dispute.priority d2) ∨
  (queue_rank (Dispute.priority d1) = queue_rank (Dispute.priority d2) ∧
   Dispute.created_at d1 ≤ Dispute.created_at d2).

Lemma queue_order_rank d1 d2 : DisputeRepository.queue_order d1 d2 = true ↔ queued_before d1 d2.
Proof.
  unfold DisputeRepository.queue_order, DisputeRepository.priority_after, queued_before.
  destruct (bool_decide_reflect (Dispute.created_at d1 ≤ Dispute.created_at d2));
    destruct (Dispute.priority d1), (Dispute.priority d2); cbn -[Z.lt Z.le]; split; intros; try done; lia.
Qed.

(** The administrators' queue holds exactly the open disputes that pass the
  filters, each once, and is ordered by the text of the priority and then by age:
  urgent before normal before low before high, so that a dispute of high priority
  comes after every one of low priority. *)
Theorem dispute_queue_order tournament_id priority db :
  StronglySorted queued_before (DisputeRepository.pending_queue tournament_id priority db) ∧
  ∀ d, d ∈ DisputeRepository.pending_queue tournament_id priority db ↔
    (∃ id, Db.disputes db !! id = Some d) ∧ Dispute.can_resolve d = true ∧
    (∃ m, Db.matches db !! Dispute.match_id d = Some m ∧
       (∀ t, tournament_id = Some t → TournamentMatch.tournament_id m = t)) ∧
    (∀ p, priority = Some p → Dispute.priority d = p).
Proof.
  unfold DisputeRepository.pending_queue. split.
  - eapply StronglySorted_mono; [intros d1 d2; apply queue_order_rank|apply stable_sort_sorted].
    + intros d1 d2. rewrite !queue_order_rank. unfold queued_before. lia.
    + intros d1 d2 d3. rewrite !queue_order_rank. unfold queued_before. lia.
  - intros d. rewrite stable_sort_perm. unfold DisputeRepository.disputes_where.
    rewrite list_elem_of_filter, list_elem_of_fmap, !andb_true_iff.
    unfold DisputeRepository.joined, DisputeRepository.given, DisputeRepository.of_tournament.
    rewrite bool_decide_eq_true. split.
    + intros ([[[Hcan [m Hm]] Ht] Hp] & ([id d'] & -> & Hid)). cbn in *.
      split; [exists id; by apply elem_of_map_to_list|]. split; [done|]. rewrite Hm in Ht. split.
      * exists m. split; [done|]. intros t ->. by apply bool_decide_eq_true in Ht.
      * intros p ->. by apply bool_decide_eq_true in Hp.
    + intros ([id Hid] & Hcan & (m & Hm & Ht) & Hp). split.
      * rewrite Hm. split_and!; [done|by eexists| |].
        -- destruct tournament_id as [t|]; [|done]. by apply bool_decide_eq_true, Ht.
        -- destruct priority as [p|]; [|done]. by apply bool_decide_eq_true, Hp.
      * exists (id, d). split; [done|]. by apply elem_of_map_to_list.
Qed.

(** ** Findings *)

(** A confirmation does not look at the match's status. *)
Lemma late_confirmation self id actor db c m reg loser :
  matches_keyed db → confirmable self id actor db c m reg loser →
  TournamentMatch.status m = TournamentMatchStatus.Forfeit →
  (TournamentMatch.status <$> Db.matches (ResultService.confirm_claim self id actor db).2
     !! ResultClaim.match_id c) = Some TournamentMatchStatus.Completed.
Proof.
  intros Hkey Hconf _. rewrite (confirm_claim_run _ _ _ _ _ _ _ _ Hkey Hconf). cbn.
  by rewrite lookup_insert_eq.
Qed.

(** An overturn accepts any registration as the new winner. *)
Lemma overturn_to_outsider d now m w l :
  TournamentMatch.participant1_registration_id m = Some l → w ∉ match_sides m →
  resolved_match (Resolution.Overturn w 1 0) d now m = Some (set_result 1 0 w l now m).
Proof.
  intros Hl Hw. cbn [resolved_match]. unfold loser_of. rewrite bool_decide_false; [by rewrite Hl|].
  intros Hp. apply Hw, elem_of_match_sides. by left.
Qed.

(** The claim a dispute names need not be of the match: it is retired and its
    winner recorded as the original one all the same. *)
Lemma foreign_claim_disputed mid cid reg db m c :
  disputable mid (Some cid) reg db m → Db.result_claims db !! cid = Some c →
  ResultClaim.is_pending c = true → ResultClaim.match_id c ≠ mid →
  ∃ d db', DisputeService.raise_dispute mid (Some cid) DisputeReason.Other "" [] reg 0 db = (Ok d, db') ∧
    Dispute.original_winner_registration_id d = Some (ResultClaim.claimed_winner_registration_id c) ∧
    (ResultClaim.status <$> Db.result_claims db' !! cid) = Some ClaimStatus.Disputed.
Proof.
  intros Hdisp Hc Hp _.
  pose proof (raise_dispute_run mid (Some cid) DisputeReason.Other "" [] reg 0 db m Hdisp) as Hrun.
  cbv zeta in Hrun. eexists _, _. split; [exact Hrun|].
  assert (claim_of (Some cid) db = Some c) as -> by (cbn; by rewrite Hc). split; [done|].
  cbn. rewrite lookup_alter_eq, Hc. cbn. by rewrite Hp.
Qed.
End props.

(** ** Witnesses *)
Section sample.
#[local] Existing Instance sample_platform.

(** The claim of side 1 disputed by side 2. *)
Definition disputed_db : Db.t := run_results (take 2 contested) live_db.
Definition open_sample : Dispute.t :=
  raised 10 (Some 1000%N) DisputeReason.WrongScore "It was 1-2" [] 2 102 awaiting_match
    (Some pending_claim) claimed_db.
Definition disputed_match : TournamentMatch.t := set_disputed "It was 1-2" 100 awaiting_match.

Lemma open_sample_row : Db.disputes disputed_db !! 1002%N = Some open_sample.
Proof. vm_compute. reflexivity. Qed.
Lemma disputed_match_row : Db.matches disputed_db !! Dispute.match_id open_sample = Some disputed_match.
Proof. vm_compute. reflexivity. Qed.

Example resolve_dispute_spec_witness :
  Db.matches (resolve Resolution.Rematch 1002 "replay" 7 disputed_db).2 =
  <[Dispute.match_id open_sample :=
      set_match_cleared TournamentMatchStatus.Ready (Db.now disputed_db) disputed_match]>
    (Db.matches disputed_db).
Proof.
  pose proof (resolve_dispute_spec Resolution.Rematch 1002 "replay" 7 disputed_db open_sample
    disputed_match open_sample_row disputed_match_row) as Hspec.
  destruct (resolve Resolution.Rematch 1002 "replay" 7 disputed_db) as [r db'].
  cbn [resolved_match] in Hspec.
  replace (Dispute.can_resolve open_sample) with true in Hspec by (vm_compute; reflexivity).
  by destruct Hspec as (_ & Hm & _).
Defined.

Lemma no_dispute_yet : ¬ has_open_dispute (ResultClaim.match_id pending_claim) claimed_db.
Proof.
  intros (id & d & Hd & _). assert (Db.disputes claimed_db = ∅) as Hnone by (vm_compute; reflexivity).
  rewrite Hnone, lookup_empty in Hd. done.
Qed.

Example upheld_as_confirmed_witness :
  ∃ d db1,
    DisputeService.raise_dispute (ResultClaim.match_id pending_claim) (Some 1000%N) DisputeReason.WrongScore
      "It was 1-2" [] 2 102 claimed_db = (Ok d, db1) ∧
    is_ok (resolve Resolution.Uphold (Dispute.id d) "Demo checked" 7 db1).1 = true.
Proof.
  destruct (upheld_as_confirmed portal 1000 captain2 DisputeReason.WrongScore "It was 1-2" [] 102
    "Demo checked" 7 claimed_db pending_claim awaiting_match 2 2
    (cw_matches _ (proj1 (run_results_wf [claim_call]))) captain2_can_confirm
    ltac:(vm_compute; reflexivity) no_dispute_yet) as (d & db1 & Hr & Hok & _).
  by exists d, db1.
Defined.

(** A disputed claim whose dispute is cancelled: completed, and nobody won. *)
Lemma cancelled_dispute_no_winner :
  let db := (DisputeService.cancel_dispute 1002 7 disputed_db).2 in
  (TournamentMatch.status <$> Db.matches db !! 10%N) = Some TournamentMatchStatus.Completed ∧
  (TournamentMatch.winner_registration_id <$> Db.matches db !! 10%N) = Some None.
Proof. split; vm_compute; reflexivity. Qed.
End sample.
