(* ===== verification/AvailabilityProps.v ===== *)
(** Availability: the free slots of a date are exactly the free times, and the
    suggestions are exactly where both sides of a match are free. *)
From stdpp Require Import base list strings gmap.
From S2P Require Import Prelude Errors Wire TournamentTypes Entities FormatPlan Rows.
From S2P Require Import ScheduleModel Store TournamentStore StoreFacts RegistrationFacts Scheduling Availability Samples.
#[local] Open Scope Z_scope.

Create HintDb covers.

(** ** Slots as sets of times *)

Definition in_slot (t : NaiveTime) (s : TimeSlot.t) : Prop := TimeSlot.start s ≤ t < TimeSlot.end_ s.
Definition covers (slots : list TimeSlot.t) (t : NaiveTime) : Prop := Exists (in_slot t) slots.
Definition proper (s : TimeSlot.t) : Prop := TimeSlot.start s < TimeSlot.end_ s.
Definition apart : list TimeSlot.t → Prop := StronglySorted (λ a b, TimeSlot.end_ a < TimeSlot.start b).

Lemma covers_app l k t : covers (l ++ k) t ↔ covers l t ∨ covers k t.
Proof. apply Exists_app. Qed.
Lemma covers_nil t : covers [] t ↔ False.
Proof. apply Exists_nil. Qed.
Lemma covers_cons s l t : covers (s :: l) t ↔ in_slot t s ∨ covers l t.
Proof. apply Exists_cons. Qed.
Lemma covers_perm l k t : l ≡ₚ k → covers l t ↔ covers k t.
Proof. unfold covers. rewrite !Exists_exists. intros Hp. by setoid_rewrite Hp. Qed.
#[local] Hint Rewrite covers_app covers_cons covers_nil : covers.

Lemma remove_time_covers s a b t :
  covers (remove_time_from_slot s a b) t ↔ in_slot t s ∧ ¬ (a ≤ t < b).
Proof.
  unfold remove_time_from_slot, in_slot.
  repeat (case_bool_decide; cbn [orb andb app]); autorewrite with covers; unfold in_slot; cbn; lia.
Qed.

Lemma remove_time_proper s a b : proper s → Forall proper (remove_time_from_slot s a b).
Proof.
  intros Hs. unfold remove_time_from_slot, proper in *.
  repeat (case_bool_decide; cbn [orb andb app]); repeat constructor; cbn; lia.
Qed.

Lemma merge_fold slots merged current :
  StronglySorted (λ a b, TimeSlot.start a ≤ TimeSlot.start b) slots →
  Forall (λ s, TimeSlot.start current ≤ TimeSlot.start s) slots →
  Forall proper (merged ++ [current]) → Forall proper slots → apart (merged ++ [current]) →
  let r := fold_left merge_step slots (merged, current) in
  Forall proper (r.1 ++ [r.2]) ∧ apart (r.1 ++ [r.2]) ∧
  ∀ t, covers (r.1 ++ [r.2]) t ↔ covers (merged ++ [current]) t ∨ covers slots t.
Proof.
  intros Hs. revert merged current. induction Hs as [|s slots Hs IH Hle]; intros merged current Hge Hp Hps Ha; cbn.
  { split; [done|]. split; [done|]. intros t. autorewrite with covers. tauto. }
  apply Forall_cons in Hge as [Hge Hges], Hps as [Hps Hpss].
  apply Forall_app in Hp as [Hpm Hpc]. rewrite Forall_singleton in Hpc. unfold proper in Hps, Hpc.
  case_bool_decide as Hin.
  - destruct (IH merged (TimeSlot.mk (TimeSlot.start current) (TimeSlot.end_ current `max` TimeSlot.end_ s)
      (TimeSlot.is_preferred current && TimeSlot.is_preferred s))) as (Hp' & Ha' & Hc).
    + exact Hges.
    + apply Forall_app. split; [done|]. apply Forall_singleton. unfold proper. cbn. lia.
    + done.
    + apply StronglySorted_app in Ha as (H1 & H2 & H3). apply StronglySorted_app.
      split; [|split; [done|by repeat constructor]].
      intros a b Ha ->%list_elem_of_singleton. cbn. apply (H1 a current Ha). by apply list_elem_of_singleton.
    + split; [done|]. split; [done|]. intros t. rewrite Hc. autorewrite with covers. unfold in_slot. cbn.
      assert (TimeSlot.start current ≤ t < TimeSlot.end_ current `max` TimeSlot.end_ s ↔
        TimeSlot.start current ≤ t < TimeSlot.end_ current ∨ TimeSlot.start s ≤ t < TimeSlot.end_ s) by lia. tauto.
  - destruct (IH (merged ++ [current]) s) as (Hp' & Ha' & Hc).
    + exact Hle.
    + rewrite !Forall_app, !Forall_singleton. exact (conj (conj Hpm Hpc) Hps).
    + done.
    + apply StronglySorted_app. split; [|split; [done|by repeat constructor]].
      intros a b Hab ->%list_elem_of_singleton. apply elem_of_app in Hab as [Hab| ->%list_elem_of_singleton]; [|lia].
      apply StronglySorted_app in Ha as (H1 & _). specialize (H1 a current Hab).
      rewrite list_elem_of_singleton in H1. specialize (H1 eq_refl). cbn in H1. lia.
    + split; [done|]. split; [done|]. intros t. rewrite Hc. autorewrite with covers. tauto.
Qed.

Lemma starts_no_later_total a b : starts_no_later a b = true ∨ starts_no_later b a = true.
Proof. unfold starts_no_later. rewrite !bool_decide_eq_true. lia. Qed.
Lemma starts_no_later_trans a b c :
  starts_no_later a b = true → starts_no_later b c = true → starts_no_later a c = true.
Proof. unfold starts_no_later. rewrite !bool_decide_eq_true. lia. Qed.

Lemma merge_time_slots_ok slots :
  Forall proper slots →
  Forall proper (merge_time_slots slots) ∧ apart (merge_time_slots slots) ∧
  ∀ t, covers (merge_time_slots slots) t ↔ covers slots t.
Proof.
  intros Hp. unfold merge_time_slots. pose proof (stable_sort_perm starts_no_later slots) as Hperm.
  pose proof (stable_sort_sorted _ starts_no_later_total starts_no_later_trans slots) as Hsort.
  destruct (stable_sort starts_no_later slots) as [|c l] eqn:Hl.
  { apply symmetry, Permutation_nil_r in Hperm as ->. split; [done|]. split; [constructor|]. done. }
  assert (Forall proper (c :: l)) as [Hc Hpl]%Forall_cons by (by rewrite Hperm).
  apply StronglySorted_inv in Hsort as [Hsl Hcl].
  pose proof (merge_fold l [] c) as Hm. destruct (fold_left merge_step l ([], c)) as [m c'].
  destruct Hm as (H1 & H2 & H3); try done.
  - eapply StronglySorted_mono; [|exact Hsl]. intros a b Hab%bool_decide_eq_true. done.
  - eapply Forall_impl; [exact Hcl|]. intros s Hs%bool_decide_eq_true. done.
  - by apply Forall_singleton.
  - repeat constructor.
  - split; [done|]. split; [done|]. intros t. cbn in H3. rewrite H3. rewrite <- (covers_perm _ _ t Hperm).
    autorewrite with covers. tauto.
Qed.

Lemma StronglySorted_pick {A} (R : A → A → Prop) l x y :
  StronglySorted R l → x ∈ l → y ∈ l → x = y ∨ R x y ∨ R y x.
Proof.
  induction 1 as [|z l Hl IH Hz]; [by intros ?%elem_of_nil|]. rewrite Forall_forall in Hz.
  rewrite !elem_of_cons. intros [->|Hx] [->|Hy]; auto.
Qed.

(** A stretch of free times lies in one slot. *)
Lemma covers_stretch slots a b :
  apart slots → a < b → (∀ t, a ≤ t < b → covers slots t) →
  ∃ s, s ∈ slots ∧ TimeSlot.start s ≤ a ∧ b ≤ TimeSlot.end_ s.
Proof.
  intros Hap Hab Hcov. assert (covers slots a) as (s & Hs & Ha)%Exists_exists by (apply Hcov; lia).
  exists s. unfold in_slot in Ha. split; [done|]. split; [lia|].
  destruct (decide (b ≤ TimeSlot.end_ s)) as [|Hb]; [done|].
  assert (covers slots (TimeSlot.end_ s)) as (s' & Hs' & He)%Exists_exists by (apply Hcov; lia).
  unfold in_slot in He. destruct (StronglySorted_pick _ _ s s' Hap Hs Hs') as [->|[H'|H']]; lia.
Qed.

(** ** The free times of a date *)

Section free.
Context `{Platform}.

(** The rows that speak for the asker, in the order they are read. *)
Definition owner_windows (player_id : option PlayerId) (registration_id : option TournamentRegistrationId)
    (date : NaiveDate) (db : Db.t) : list AvailabilityWindow.t :=
  match player_id, registration_id with
  | Some p, _ => AvailabilityWindowRepository.on_day (AvailabilityWindowRepository.of_player p)
                   (num_days_from_sunday date) db
  | None, Some r => AvailabilityWindowRepository.on_day (AvailabilityWindowRepository.of_registration r)
                      (num_days_from_sunday date) db
  | None, None => []
  end.

Definition owner_overrides (player_id : option PlayerId) (registration_id : option TournamentRegistrationId)
    (date : NaiveDate) (db : Db.t) : list AvailabilityOverride.t :=
  match player_id, registration_id with
  | Some p, _ => AvailabilityOverrideRepository.overrides_of (λ o,
      AvailabilityOverrideRepository.of_player p o && AvailabilityOverrideRepository.between date date o) db
  | None, Some r => AvailabilityOverrideRepository.overrides_of (λ o,
      AvailabilityOverrideRepository.of_registration r o && AvailabilityOverrideRepository.between date date o) db
  | None, None => []
  end.

Definition window_at (t : NaiveTime) (w : AvailabilityWindow.t) : bool :=
  bool_decide (AvailabilityWindow.start_time w ≤ t < AvailabilityWindow.end_time w).

Definition override_at (t : NaiveTime) (o : AvailabilityOverride.t) : bool :=
  match AvailabilityOverride.start_time o, AvailabilityOverride.end_time o with
  | Some s, Some e => bool_decide (s ≤ t < e)
  | _, _ => false
  end.

(** The reference: the last override that speaks of the time decides; when none
    does, a window must cover it. A whole-day block rules out everything. *)
Definition free_at (windows : list AvailabilityWindow.t) (overrides : list AvailabilityOverride.t)
    (t : NaiveTime) : bool :=
  negb (existsb AvailabilityService.blocks_all_day overrides) &&
  match last (filter (λ o, override_at t o = true) overrides) with
  | Some o => bool_decide (AvailabilityOverride.override_type o = OverrideType.Available)
  | None => existsb (window_at t) windows
  end.

(** What the constraints of the tables keep true of their rows. *)
Definition window_ok (w : AvailabilityWindow.t) : Prop :=
  AvailabilityWindow.start_time w < AvailabilityWindow.end_time w.
Definition override_ok (o : AvailabilityOverride.t) : Prop :=
  AvailabilityOverrideRepository.valid_range o = true.
Definition hours_ok (db : Db.t) : Prop :=
  (∀ k w, Db.availability_windows db !! k = Some w → window_ok w) ∧
  (∀ k o, Db.availability_overrides db !! k = Some o → override_ok o).

Lemma get_availability_run p r date db :
  is_Some p ∨ is_Some r →
  AvailabilityService.get_availability_for_date p r date db =
    (Ok (AvailabilityService.date_availability date (owner_windows p r date db) (owner_overrides p r date db)), db).
Proof.
  unfold AvailabilityService.get_availability_for_date, owner_windows, owner_overrides.
  destruct p as [p|]; [done|]. destruct r as [r|]; [done|]. intros [[? ?]|[? ?]]; discriminate.
Qed.

Lemma elem_of_owner_windows p r date db w :
  w ∈ owner_windows p r date db → ∃ k, Db.availability_windows db !! k = Some w.
Proof.
  unfold owner_windows, AvailabilityWindowRepository.on_day.
  destruct p as [p|]; [|destruct r as [r|]; [|by intros ?%elem_of_nil]];
    rewrite stable_sort_perm; intros [_ Hk]%elem_of_rows_where; exact Hk.
Qed.

Lemma elem_of_owner_overrides p r date db o :
  o ∈ owner_overrides p r date db → ∃ k, Db.availability_overrides db !! k = Some o.
Proof.
  unfold owner_overrides, AvailabilityOverrideRepository.overrides_of.
  destruct p as [p|]; [|destruct r as [r|]; [|by intros ?%elem_of_nil]];
    rewrite stable_sort_perm; intros [_ Hk]%elem_of_rows_where; exact Hk.
Qed.

Lemma covers_bind_remove slots a b t :
  covers (slots ≫= λ s, remove_time_from_slot s a b) t ↔ covers slots t ∧ ¬ (a ≤ t < b).
Proof.
  induction slots as [|s slots IH]; csimpl; autorewrite with covers; [tauto|].
  rewrite IH, remove_time_covers. tauto.
Qed.

Lemma apply_override_covers slots o t :
  covers (AvailabilityService.apply_override slots o) t ↔
  if override_at t o then AvailabilityOverride.override_type o = OverrideType.Available else covers slots t.
Proof.
  unfold AvailabilityService.apply_override, override_at.
  destruct (AvailabilityOverride.start_time o) as [s|], (AvailabilityOverride.end_time o) as [e|]; try done.
  destruct (AvailabilityOverride.override_type o).
  all: case_bool_decide as Ht; rewrite ?covers_bind_remove; autorewrite with covers; unfold in_slot; cbn.
  all: split; intros Hc; try done; try tauto; try (by right; left); try by left.
Qed.

Lemma apply_override_proper slots o :
  override_ok o → Forall proper slots → Forall proper (AvailabilityService.apply_override slots o).
Proof.
  unfold override_ok, AvailabilityOverrideRepository.valid_range, AvailabilityService.apply_override.
  destruct (AvailabilityOverride.start_time o) as [s|], (AvailabilityOverride.end_time o) as [e|]; try done.
  intros Hse%bool_decide_eq_true Hs. destruct (AvailabilityOverride.override_type o).
  - apply Forall_bind. eapply Forall_impl; [exact Hs|]. intros x Hx. by apply remove_time_proper.
  - apply Forall_app. split; [done|]. by apply Forall_singleton.
Qed.

Lemma fold_overrides_covers windows overrides t :
  covers (fold_left AvailabilityService.apply_override overrides
            (AvailabilityService.slot_of_window <$> windows)) t ↔
  match last (filter (λ o, override_at t o = true) overrides) with
  | Some o => AvailabilityOverride.override_type o = OverrideType.Available
  | None => existsb (window_at t) windows = true
  end.
Proof.
  induction overrides as [|o overrides IH] using rev_ind.
  - cbn. induction windows as [|w windows IHw]; csimpl; autorewrite with covers; [done|].
    rewrite orb_true_iff, IHw. unfold in_slot, window_at. cbn. by rewrite bool_decide_eq_true.
  - rewrite fold_left_app, filter_app. cbn [fold_left]. rewrite apply_override_covers, filter_cons, filter_nil.
    destruct (override_at t o) eqn:Ho.
    + rewrite decide_True, last_snoc by done. done.
    + rewrite decide_False, app_nil_r by done. exact IH.
Qed.

Lemma fold_overrides_proper overrides slots :
  Forall override_ok overrides → Forall proper slots →
  Forall proper (fold_left AvailabilityService.apply_override overrides slots).
Proof.
  intros Ho. revert slots. induction Ho as [|o overrides Hok _ IH]; intros slots Hs; [done|].
  cbn. apply IH. by apply apply_override_proper.
Qed.

(** The free slots of one reading of the rows. *)
Lemma date_availability_ok date windows overrides :
  Forall window_ok windows → Forall override_ok overrides →
  let a := AvailabilityService.date_availability date windows overrides in
  Forall proper (DateAvailability.available_slots a) ∧ apart (DateAvailability.available_slots a) ∧
  ∀ t, covers (DateAvailability.available_slots a) t ↔ free_at windows overrides t = true.
Proof.
  intros Hw Ho a. subst a. unfold AvailabilityService.date_availability, free_at.
  destruct (existsb AvailabilityService.blocks_all_day overrides).
  { split; [constructor|]. split; [constructor|]. intros t. cbn. by rewrite covers_nil. }
  cbn [DateAvailability.available_slots negb andb]. edestruct merge_time_slots_ok as (H1 & H2 & H3); [|split; [exact H1|split; [exact H2|]]].
  - apply fold_overrides_proper; [done|]. apply Forall_fmap. exact Hw.
  - intros t. rewrite H3, fold_overrides_covers.
    destruct (last _) as [o|]; [|done]. by rewrite bool_decide_eq_true.
Qed.

Lemma owner_rows_ok p r date db :
  hours_ok db → Forall window_ok (owner_windows p r date db) ∧ Forall override_ok (owner_overrides p r date db).
Proof.
  intros [Hw Ho]. split; apply Forall_forall.
  - intros w [k Hk]%elem_of_owner_windows. by eapply Hw.
  - intros o [k Hk]%elem_of_owner_overrides. by eapply Ho.
Qed.

End free.

(** ** Suggestions *)

Lemma confidence_bounds preferred duration minimum :
  50 ≤ calculate_confidence_score preferred duration minimum ≤ 100.
Proof.
  unfold calculate_confidence_score. set (x := as_i64 _). clearbody x.
  assert (0 < x → 0 ≤ Z.quot x 10) by (intros ?; apply Z.quot_pos; lia).
  destruct preferred; case_bool_decide; lia.
Qed.

Section suggestions.
Context `{Platform}.

(** Both sides are free at that time of that date. *)
Definition side_free (registration_id : TournamentRegistrationId) (date : NaiveDate) (db : Db.t)
    (t : NaiveTime) : bool :=
  free_at (owner_windows None (Some registration_id) date db)
    (owner_overrides None (Some registration_id) date db) t.

Definition slots_on (registration_id : TournamentRegistrationId) (date : NaiveDate) (db : Db.t)
    : list TimeSlot.t :=
  DateAvailability.available_slots (AvailabilityService.date_availability date
    (owner_windows None (Some registration_id) date db) (owner_overrides None (Some registration_id) date db)).

Lemma slots_on_ok reg date db :
  hours_ok db → Forall proper (slots_on reg date db) ∧ apart (slots_on reg date db) ∧
  ∀ t, covers (slots_on reg date db) t ↔ side_free reg date db t = true.
Proof. intros Hok. destruct (owner_rows_ok None (Some reg) date db Hok). by apply date_availability_ok. Qed.

Definition commands_on (match_id : TournamentMatchId) (reg1 reg2 : TournamentRegistrationId)
    (min_duration : Z) (db : Db.t) (date : NaiveDate) : list CreateSuggestedTime.t :=
  AvailabilityService.suggestions_for_date match_id date min_duration
    (slots_on reg1 date db) (slots_on reg2 date db).

(** The commands of a date are the common stretches long enough. *)
Lemma elem_of_commands_on match_id reg1 reg2 min date db c :
  c ∈ commands_on match_id reg1 reg2 min db date ↔
  ∃ s1 s2, s1 ∈ slots_on reg1 date db ∧ s2 ∈ slots_on reg2 date db ∧
    AvailabilityService.suggestion_for match_id date min s1 s2 = Some c.
Proof.
  unfold commands_on, AvailabilityService.suggestions_for_date. rewrite list_elem_of_bind. split.
  - intros (s1 & (s2 & Hs2 & Hc)%list_elem_of_omap & Hs1). eauto.
  - intros (s1 & s2 & Hs1 & Hs2 & Hc). exists s1. split; [|done]. apply list_elem_of_omap. eauto.
Qed.

(** What a command says of its match and of the hours it names. *)
Record command_at (match_id : TournamentMatchId) (min : Z) (free : NaiveTime → Prop) (date : NaiveDate)
    (c : CreateSuggestedTime.t) (a b : NaiveTime) : Prop := {
  ca_match : CreateSuggestedTime.match_id c = match_id;
  ca_start : CreateSuggestedTime.suggested_start c = and_time_utc date a;
  ca_end : CreateSuggestedTime.suggested_end c = and_time_utc date b;
  ca_order : a < b;
  ca_length : min ≤ num_minutes (b - a);
  ca_score : 50 ≤ CreateSuggestedTime.confidence_score c ≤ 100;
  ca_mutual : CreateSuggestedTime.is_mutual_overlap c = true;
  ca_auto : CreateSuggestedTime.is_auto_generated c = true;
  ca_free : ∀ t, a ≤ t < b → free t;
}.

Lemma suggestion_for_inv match_id date min s1 s2 c :
  proper s1 → proper s2 →
  AvailabilityService.suggestion_for match_id date min s1 s2 = Some c →
  command_at match_id min (λ t, in_slot t s1 ∧ in_slot t s2) date c
    (TimeSlot.start s1 `max` TimeSlot.start s2) (TimeSlot.end_ s1 `min` TimeSlot.end_ s2).
Proof.
  unfold proper. intros Hp1 Hp2.
  unfold AvailabilityService.suggestion_for, TimeSlot.intersect, TimeSlot.overlaps.
  case_bool_decide as H1; [|done]. case_bool_decide as H2; [|done]. cbn -[num_minutes calculate_confidence_score].
  case_bool_decide as H3; [|done]. intros [= <-]. split; cbn -[num_minutes calculate_confidence_score]; try done.
  - lia.
  - apply confidence_bounds.
  - unfold in_slot. lia.
Qed.

Lemma suggestion_for_exists match_id date min s1 s2 a b :
  a < b → min ≤ num_minutes (b - a) →
  TimeSlot.start s1 ≤ a → b ≤ TimeSlot.end_ s1 → TimeSlot.start s2 ≤ a → b ≤ TimeSlot.end_ s2 →
  is_Some (AvailabilityService.suggestion_for match_id date min s1 s2).
Proof.
  intros Hab Hmin H1 H2 H3 H4. unfold AvailabilityService.suggestion_for, TimeSlot.intersect, TimeSlot.overlaps.
  rewrite !bool_decide_true by lia. cbn -[num_minutes]. rewrite bool_decide_true; [done|].
  etransitivity; [exact Hmin|]. unfold num_minutes. apply Z.quot_le_mono; [done|lia].
Qed.

(** Each date: what is suggested is common, and what is common is suggested. *)
Lemma commands_on_sound match_id reg1 reg2 min date db c :
  hours_ok db → c ∈ commands_on match_id reg1 reg2 min db date →
  ∃ a b, command_at match_id min (λ t, side_free reg1 date db t = true ∧ side_free reg2 date db t = true)
           date c a b.
Proof.
  intros Hok (s1 & s2 & Hs1 & Hs2 & Hc)%elem_of_commands_on.
  destruct (slots_on_ok reg1 date db Hok) as (Hp1 & _ & Hc1), (slots_on_ok reg2 date db Hok) as (Hp2 & _ & Hc2).
  rewrite Forall_forall in Hp1, Hp2.
  destruct (suggestion_for_inv _ _ _ _ _ _ (Hp1 _ Hs1) (Hp2 _ Hs2) Hc) as [H1 H2 H3 H4 H5 H6 H7 H8 H9].
  eexists _, _. split; [exact H1|exact H2|exact H3|exact H4|exact H5|exact H6|exact H7|exact H8|].
  intros t [Ht1 Ht2]%H9. rewrite <- Hc1, <- Hc2.
  split; apply Exists_exists; [by exists s1|by exists s2].
Qed.

Lemma commands_on_complete match_id reg1 reg2 min date db a b :
  hours_ok db → a < b → min ≤ num_minutes (b - a) →
  (∀ t, a ≤ t < b → side_free reg1 date db t = true ∧ side_free reg2 date db t = true) →
  ∃ c, c ∈ commands_on match_id reg1 reg2 min db date ∧
    CreateSuggestedTime.suggested_start c ≤ and_time_utc date a ∧
    and_time_utc date b ≤ CreateSuggestedTime.suggested_end c.
Proof.
  intros Hok Hab Hmin Hfree.
  destruct (slots_on_ok reg1 date db Hok) as (Hp1 & Ha1 & Hc1), (slots_on_ok reg2 date db Hok) as (Hp2 & Ha2 & Hc2).
  rewrite Forall_forall in Hp1, Hp2.
  destruct (covers_stretch _ a b Ha1 Hab) as (s1 & Hs1 & ? & ?); [intros t Ht; apply Hc1; by apply Hfree|].
  destruct (covers_stretch _ a b Ha2 Hab) as (s2 & Hs2 & ? & ?); [intros t Ht; apply Hc2; by apply Hfree|].
  destruct (suggestion_for_exists match_id date min s1 s2 a b) as [c Hc]; [done..|].
  exists c. split; [apply elem_of_commands_on; eauto|].
  destruct (suggestion_for_inv _ _ _ _ _ _ (Hp1 _ Hs1) (Hp2 _ Hs2) Hc) as [_ -> -> _ _ _ _ _ _].
  unfold and_time_utc. lia.
Qed.

(** *** Storing them *)

Fixpoint created_rows (n : N) (now : DateTime) (cs : list CreateSuggestedTime.t) : list SuggestedTime.t :=
  match cs with
  | [] => []
  | c :: cs => SuggestedTimeRepository.inserted n now c :: created_rows (N.succ n) now cs
  end.

Definition put_all (rows : list SuggestedTime.t) (table : gmap N SuggestedTime.t) : gmap N SuggestedTime.t :=
  foldl (λ table s, <[SuggestedTime.id s := s]> table) table rows.

Definition with_suggestions (rows : list SuggestedTime.t) (db : Db.t) : Db.t :=
  SuggestedTimeRepository.put (put_all rows (Db.suggested_times db))
    (db <| Db.next_uuid := (Db.next_uuid db + N.of_nat (length rows))%N |>).

(** Commands the table's checks accept. *)
Definition storable (c : CreateSuggestedTime.t) : Prop :=
  0 ≤ CreateSuggestedTime.confidence_score c ≤ 100 ∧
  CreateSuggestedTime.suggested_start c < CreateSuggestedTime.suggested_end c.

Lemma created_rows_length n now cs : length (created_rows n now cs) = length cs.
Proof. revert n. induction cs as [|c cs IH]; intros n; cbn; [done|]. by rewrite IH. Qed.

Lemma with_suggestions_app l k db : with_suggestions (l ++ k) db = with_suggestions k (with_suggestions l db).
Proof.
  unfold with_suggestions, put_all. cbn. by rewrite foldl_app, length_app, Nat2N.inj_add, N.add_assoc.
Qed.
Lemma create_all_run cs db :
  Forall storable cs →
  AvailabilityService.create_all cs db =
    (Ok (created_rows (Db.next_uuid db) (Db.now db) cs),
     with_suggestions (created_rows (Db.next_uuid db) (Db.now db) cs) db).
Proof.
  intros Hcs. revert db. induction Hcs as [|c cs [Hs Ho] _ IH]; intros db.
  { cbn. unfold with_suggestions. cbn. rewrite N.add_0_r. by destruct db. }
  cbn [AvailabilityService.create_all created_rows].
  rewrite (mbind_step _ _ _ (SuggestedTimeRepository.inserted (Db.next_uuid db) (Db.now db) c)
    (with_suggestions [SuggestedTimeRepository.inserted (Db.next_uuid db) (Db.now db) c] db)).
  - rewrite (mbind_step _ _ _ _ _ (IH _)).
    change (Db.next_uuid (with_suggestions _ db)) with (Db.next_uuid db + 1)%N. rewrite N.add_1_r.
    by rewrite <- (with_suggestions_app [_]).
  - unfold SuggestedTimeRepository.create, SuggestedTimeRepository.violated. cbn.
    rewrite !bool_decide_true by done. cbn. unfold with_suggestions. cbn. by rewrite N.add_1_r.
Qed.

Lemma created_rows_app n now cs cs' :
  created_rows n now (cs ++ cs') =
  created_rows n now cs ++ created_rows (n + N.of_nat (length cs)) now cs'.
Proof.
  revert n. induction cs as [|c cs IH]; intros n; cbn; [by rewrite N.add_0_r|]. rewrite IH. do 3 f_equal. lia.
Qed.


Lemma elem_of_created_rows n now cs s :
  s ∈ created_rows n now cs → ∃ c, c ∈ cs ∧ s = SuggestedTimeRepository.inserted (SuggestedTime.id s) now c.
Proof.
  revert n. induction cs as [|c cs IH]; intros n; cbn; [by intros ?%elem_of_nil|].
  intros [->|(c' & Hc' & Hs)%IH]%elem_of_cons; [exists c|exists c'].
  - split; [apply list_elem_of_here|done].
  - split; [by apply list_elem_of_further|done].
Qed.

Lemma created_row_of n now cs c :
  c ∈ cs → ∃ k, SuggestedTimeRepository.inserted k now c ∈ created_rows n now cs.
Proof.
  revert n. induction cs as [|c' cs IH]; intros n; [by intros ?%elem_of_nil|].
  intros [->|[k Hk]%(IH (N.succ n))]%elem_of_cons; [exists n; apply list_elem_of_here|].
  exists k. by apply list_elem_of_further.
Qed.

Lemma put_created_lookup n now cs table k s :
  (∀ k r, table !! k = Some r → (k < n)%N) →
  put_all (created_rows n now cs) table !! k = Some s ↔
  s ∈ created_rows n now cs ∧ SuggestedTime.id s = k ∨ table !! k = Some s.
Proof.
  revert n table. induction cs as [|c cs IH]; intros n table Hfresh; cbn [created_rows].
  { cbn. rewrite elem_of_nil. naive_solver. }
  unfold put_all. cbn [foldl]. fold (put_all (created_rows (N.succ n) now cs)).
  change (SuggestedTime.id (SuggestedTimeRepository.inserted n now c)) with n. unfold put_all in IH. rewrite IH.
  - rewrite elem_of_cons, lookup_insert_Some. split.
    + intros [[Hs <-]|[[<- <-]|[_ Hs]]]; auto.
    + intros [[[->|Hs] <-]|Hs]; auto. specialize (Hfresh k s Hs). right. right. split; [lia|done].
  - intros k' r [[<- _]|[_ Hr]]%lookup_insert_Some; [lia|]. specialize (Hfresh k' r Hr). lia.
Qed.

(** *** All the dates *)

Lemma commands_storable match_id reg1 reg2 min db date :
  hours_ok db → Forall storable (commands_on match_id reg1 reg2 min db date).
Proof.
  intros Hok. apply Forall_forall. intros c Hc.
  apply commands_on_sound in Hc as (a & b & [H1 H2 H3 H4 H5 H6 H7 H8 H9]); [|done].
  split; [lia|]. rewrite H2, H3. unfold and_time_utc. lia.
Qed.

Definition all_commands (match_id : TournamentMatchId) (reg1 reg2 : TournamentRegistrationId)
    (start_date end_date : NaiveDate) (min : Z) (db : Db.t) : list CreateSuggestedTime.t :=
  seqZ start_date (end_date - start_date + 1) ≫= commands_on match_id reg1 reg2 min db.

Lemma suggest_dates_run fuel match_id reg1 reg2 start_date end_date min db :
  hours_ok db → end_date < date_max → (Z.to_nat (end_date - start_date + 1) ≤ fuel)%nat →
  AvailabilityService.suggest_dates fuel match_id reg1 reg2 end_date min start_date db =
  let rows := created_rows (Db.next_uuid db) (Db.now db)
                (all_commands match_id reg1 reg2 start_date end_date min db) in
  (Ok rows, with_suggestions rows db).
Proof.
  intros Hok Hmax. revert start_date db Hok. induction fuel as [|fuel IH]; intros start_date db Hok Hfuel.
  { unfold all_commands. rewrite seqZ_nil by lia. cbn. apply (create_all_run [] db). constructor. }
  cbn [AvailabilityService.suggest_dates]. case_bool_decide as Hend.
  { unfold all_commands. rewrite seqZ_nil by lia. apply (create_all_run [] db). constructor. }
  rewrite (mbind_step _ _ _ _ _ (get_availability_run None (Some reg1) start_date db (or_intror (mk_is_Some _ _ eq_refl)))).
  rewrite (mbind_step _ _ _ _ _ (get_availability_run None (Some reg2) start_date db (or_intror (mk_is_Some _ _ eq_refl)))).
  fold (slots_on reg1 start_date db) (slots_on reg2 start_date db).
  fold (commands_on match_id reg1 reg2 min db start_date).
  rewrite (mbind_step _ _ _ _ _ (create_all_run _ _ (commands_storable match_id reg1 reg2 min db start_date Hok))).
  set (cs := commands_on match_id reg1 reg2 min db start_date).
  set (rows := created_rows _ _ cs).
  rewrite (mbind_step _ _ _ (start_date + 1) (with_suggestions rows db))
    by (unfold mlift, next_date; rewrite bool_decide_true by lia; done).
  rewrite (mbind_step _ _ _ _ _ (IH (start_date + 1) (with_suggestions rows db) Hok ltac:(lia))).
  change (all_commands match_id reg1 reg2 (start_date + 1) end_date min (with_suggestions rows db))
    with (all_commands match_id reg1 reg2 (start_date + 1) end_date min db).
  change (Db.next_uuid (with_suggestions rows db)) with (Db.next_uuid db + N.of_nat (length rows))%N.
  change (Db.now (with_suggestions rows db)) with (Db.now db).
  assert (all_commands match_id reg1 reg2 start_date end_date min db =
    cs ++ all_commands match_id reg1 reg2 (start_date + 1) end_date min db) as ->.
  { unfold all_commands at 1. rewrite seqZ_cons by lia. cbn. unfold all_commands.
    replace (Z.pred (end_date - start_date + 1)) with (end_date - (start_date + 1) + 1) by lia. done. }
  rewrite created_rows_app. fold rows. subst rows. rewrite created_rows_length.
  cbv zeta. rewrite with_suggestions_app. done.
Qed.

(** The suggestions a new generation replaces. *)
Definition replaced (match_id : TournamentMatchId) (s : SuggestedTime.t) : bool :=
  SuggestedTimeRepository.of_match match_id s && SuggestedTime.is_auto_generated s
  && SuggestedTimeRepository.is_suggested s.

Definition suggestions_fresh (db : Db.t) : Prop :=
  ∀ k r, Db.suggested_times db !! k = Some r → (k < Db.next_uuid db)%N.

(** The hours in which the sides of a match could play on a date. *)
Definition both_free (reg1 reg2 : TournamentRegistrationId) (db : Db.t) (date : NaiveDate)
    (a b : NaiveTime) : Prop :=
  ∀ t, a ≤ t < b → side_free reg1 date db t = true ∧ side_free reg2 date db t = true.

Lemma generate_suggestions_run match_id start_date end_date min m reg1 reg2 db :
  Db.matches db !! match_id = Some m →
  TournamentMatch.participant1_registration_id m = Some reg1 →
  TournamentMatch.participant2_registration_id m = Some reg2 →
  hours_ok db → end_date < date_max →
  AvailabilityService.generate_suggestions match_id start_date end_date min db =
  let kept := filter (λ kr, replaced match_id kr.2 = false) (Db.suggested_times db) in
  let rows := created_rows (Db.next_uuid db) (Db.now db)
                (all_commands match_id reg1 reg2 start_date end_date min db) in
  (Ok (stable_sort SuggestedTimeRepository.more_confident rows),
   SuggestedTimeRepository.put (put_all rows kept)
     (db <| Db.next_uuid := (Db.next_uuid db + N.of_nat (length rows))%N |>)).
Proof.
  intros Hm H1 H2 Hok Hmax. unfold AvailabilityService.generate_suggestions.
  rewrite (mbind_step _ _ db (Some m) db) by (unfold find_match_by_id, mread; by rewrite Hm).
  rewrite (mbind_step _ _ db m db) by done.
  rewrite (mbind_step _ _ db reg1 db) by (unfold mlift, ok_or; by rewrite H1).
  rewrite (mbind_step _ _ db reg2 db) by (unfold mlift, ok_or; by rewrite H2).
  erewrite mbind_step by reflexivity.
  erewrite mbind_step by (apply suggest_dates_run; [exact Hok|exact Hmax|lia]).
  reflexivity.
Qed.

End suggestions.

(** ** The tables stay in order *)

Section order.
Context `{Platform}.

(** Every row has an owner and a range, every window a weekday; rows are kept
    under their identifiers; no owner has one window twice. *)
Record hours_in_order (db : Db.t) : Prop := {
  ho_windows k w : Db.availability_windows db !! k = Some w →
    AvailabilityWindow.id w = k ∧ window_ok w ∧ 0 ≤ AvailabilityWindow.day_of_week w ≤ 6 ∧
    (is_Some (AvailabilityWindow.player_id w) ∨ is_Some (AvailabilityWindow.registration_id w));
  ho_unique k k' w w' : Db.availability_windows db !! k = Some w → Db.availability_windows db !! k' = Some w' →
    k ≠ k' → AvailabilityWindowRepository.duplicate_of w w' = None;
  ho_overrides k o : Db.availability_overrides db !! k = Some o →
    override_ok o ∧ (is_Some (AvailabilityOverride.player_id o) ∨ is_Some (AvailabilityOverride.registration_id o));
}.

Lemma hours_in_order_ok db : hours_in_order db → hours_ok db.
Proof. intros [Hw _ Ho]. split; intros k r Hr; [by apply (Hw k)|by apply (Ho k)]. Qed.

(** The calls of the service that write. *)
Inductive hours_call :=
| CreateWindow (command : CreateAvailabilityWindow.t)
| UpdateWindow (id : AvailabilityWindowId) (command : UpdateAvailabilityWindow.t)
| DeleteWindow (id : AvailabilityWindowId)
| ClearPlayerWindows (player_id : PlayerId)
| ClearRegistrationWindows (registration_id : TournamentRegistrationId)
| CreateOverride (command : CreateAvailabilityOverride.t)
| DeleteOverride (id : AvailabilityExceptionId)
| CleanupOverrides
| GenerateSuggestions (match_id : TournamentMatchId) (start_date end_date : NaiveDate) (min : Z).

Definition run_hours_call (call : hours_call) (db : Db.t) : Db.t :=
  match call with
  | CreateWindow command => (AvailabilityService.create_window command db).2
  | UpdateWindow id command => (AvailabilityService.update_window id command db).2
  | DeleteWindow id => (AvailabilityService.delete_window id db).2
  | ClearPlayerWindows player => (AvailabilityService.clear_player_windows player db).2
  | ClearRegistrationWindows reg => (AvailabilityService.clear_registration_windows reg db).2
  | CreateOverride command => (AvailabilityService.create_override command db).2
  | DeleteOverride id => (AvailabilityService.delete_override id db).2
  | CleanupOverrides => (AvailabilityService.cleanup_expired_overrides db).2
  | GenerateSuggestions m s e min => (AvailabilityService.generate_suggestions m s e min db).2
  end.

Definition same_hours (db db' : Db.t) : Prop :=
  Db.availability_windows db' = Db.availability_windows db ∧
  Db.availability_overrides db' = Db.availability_overrides db.
#[global] Instance same_hours_preorder : PreOrder same_hours.
Proof. split; [done|]. intros a b c [] []. split; congruence. Qed.

Lemma same_hours_in_order db db' : same_hours db db' → hours_in_order db → hours_in_order db'.
Proof. intros [Hw Ho] [H1 H2 H3]. split; rewrite ?Hw, ?Ho; done. Qed.

(** Rows leave, in whatever way. *)
Lemma fewer_in_order db db' :
  Db.availability_windows db' ⊆ Db.availability_windows db →
  Db.availability_overrides db' ⊆ Db.availability_overrides db →
  hours_in_order db → hours_in_order db'.
Proof.
  intros Hw Ho [H1 H2 H3]. split.
  - intros k w Hk. apply (H1 k). by eapply lookup_weaken.
  - intros k k' w w' Hk Hk' Hne. apply (H2 k k'); [by eapply lookup_weaken..|done].
  - intros k o Hk. apply (H3 k). by eapply lookup_weaken.
Qed.

Lemma duplicate_of_sym w w' :
  AvailabilityWindowRepository.duplicate_of w w' = None → AvailabilityWindowRepository.duplicate_of w' w = None.
Proof.
  unfold AvailabilityWindowRepository.duplicate_of, AvailabilityWindowRepository.same_slot.
  rewrite (same_key_sym (AvailabilityWindow.player_id w)), (same_key_sym (AvailabilityWindow.registration_id w)).
  rewrite (bool_decide_ext (AvailabilityWindow.id w' = _) (AvailabilityWindow.id w = AvailabilityWindow.id w')) by done.
  rewrite (bool_decide_ext (AvailabilityWindow.day_of_week w' = _)
    (AvailabilityWindow.day_of_week w = AvailabilityWindow.day_of_week w')) by done.
  rewrite (bool_decide_ext (AvailabilityWindow.start_time w' = _)
    (AvailabilityWindow.start_time w = AvailabilityWindow.start_time w')) by done.
  rewrite (bool_decide_ext (AvailabilityWindow.end_time w' = _)
    (AvailabilityWindow.end_time w = AvailabilityWindow.end_time w')) by done.
  done.
Qed.

Lemma omap_head_none {A B} (f : A → option B) l : head (omap f l) = None → ∀ x, x ∈ l → f x = None.
Proof.
  induction l as [|y l IH]; [by intros _ x ?%elem_of_nil|]. csimpl. destruct (f y) eqn:Hy; [done|].
  intros Hl x [->|Hx]%elem_of_cons; [done|by apply IH].
Qed.

Lemma window_violated_none db w :
  AvailabilityWindowRepository.violated db w = None →
  window_ok w ∧ 0 ≤ AvailabilityWindow.day_of_week w ≤ 6 ∧
  (is_Some (AvailabilityWindow.player_id w) ∨ is_Some (AvailabilityWindow.registration_id w)) ∧
  ∀ k w', Db.availability_windows db !! k = Some w' → AvailabilityWindowRepository.duplicate_of w w' = None.
Proof.
  unfold AvailabilityWindowRepository.violated. intros Hv.
  destruct (bool_decide _ && bool_decide _) eqn:Hown; [done|].
  case_bool_decide as Hday; [|done]. case_bool_decide as Hrange; [|done]. cbn in Hv.
  split; [done|]. split; [done|]. split.
  - apply andb_false_iff in Hown as [Ho|Ho]; apply bool_decide_eq_false in Ho;
      [left|right]; by apply not_eq_None_Some.
  - intros k w' Hk. eapply omap_head_none; [exact Hv|]. apply list_elem_of_fmap. exists (k, w').
    split; [done|]. by apply elem_of_map_to_list.
Qed.

(** A window that passes the checks is written under its identifier. *)
Lemma write_window_in_order db w db' :
  AvailabilityWindowRepository.violated db w = None →
  Db.availability_windows db' = <[AvailabilityWindow.id w := w]> (Db.availability_windows db) →
  Db.availability_overrides db' = Db.availability_overrides db →
  hours_in_order db → hours_in_order db'.
Proof.
  intros (Hr & Hd & Hown & Hdup)%window_violated_none Hw Ho [H1 H2 H3]. split; rewrite ?Hw, ?Ho.
  - intros k w' [[<- <-]|[_ Hk]]%lookup_insert_Some; [done|by apply H1].
  - intros k k' x x' [[<- <-]|[Hne Hk]]%lookup_insert_Some [[<- <-]|[Hne' Hk']]%lookup_insert_Some Hkk; try done.
    + by eapply Hdup.
    + apply duplicate_of_sym. by eapply Hdup.
    + by eapply H2.
  - exact H3.
Qed.

Lemma window_create_in_order command db :
  hours_in_order db → hours_in_order (AvailabilityWindowRepository.create command db).2.
Proof.
  intros Hok. unfold AvailabilityWindowRepository.create.
  destruct (AvailabilityWindowRepository.violated db _) eqn:Hv; [exact Hok|].
  by eapply write_window_in_order; [exact Hv|reflexivity|reflexivity|].
Qed.

Lemma window_update_in_order id u db :
  hours_in_order db → hours_in_order (AvailabilityWindowRepository.update id u db).2.
Proof.
  intros Hok. unfold AvailabilityWindowRepository.update.
  destruct (Db.availability_windows db !! id) as [w|] eqn:Hw; [|exact Hok].
  destruct (AvailabilityWindowRepository.violated db _) eqn:Hv; [exact Hok|].
  assert (AvailabilityWindow.id w = id) as Hid by by apply (ho_windows db Hok).
  eapply write_window_in_order; [exact Hv| |reflexivity|exact Hok]. cbn. by rewrite Hid.
Qed.

Lemma override_create_in_order command db :
  hours_in_order db → hours_in_order (AvailabilityOverrideRepository.create command db).2.
Proof.
  intros Hok. unfold AvailabilityOverrideRepository.create, AvailabilityOverrideRepository.violated.
  set (o := AvailabilityOverrideRepository.inserted _ _ command). clearbody o.
  destruct (bool_decide _ && bool_decide _) eqn:Hown; [exact Hok|].
  destruct (AvailabilityOverrideRepository.valid_range o) eqn:Hr; [|exact Hok].
  destruct Hok as [H1 H2 H3]. split; cbn; [exact H1|exact H2|].
  intros k o' [[<- <-]|[_ Hk]]%lookup_insert_Some; [|by apply (H3 k)]. split; [exact Hr|].
  apply andb_false_iff in Hown as [Ho|Ho]; apply bool_decide_eq_false in Ho;
    [left|right]; by apply not_eq_None_Some.
Qed.

Lemma generate_same_hours match_id s e min db :
  same_hours db (AvailabilityService.generate_suggestions match_id s e min db).2.
Proof.
  assert (∀ cs, preserves same_hours (AvailabilityService.create_all cs)) as Hcreate.
  { induction cs as [|c cs IH]; cbn [AvailabilityService.create_all]; [by frame|].
    apply preserves_bind; [apply _| |intros ?; apply preserves_bind; [apply _|exact IH|intros ?; frame]].
    intros db0. unfold SuggestedTimeRepository.create.
    by destruct (SuggestedTimeRepository.violated _). }
  assert (∀ fuel r1 r2 d, preserves same_hours (AvailabilityService.suggest_dates fuel match_id r1 r2 e min d)) as Hdates.
  { induction fuel as [|fuel IH]; intros r1 r2 d; cbn [AvailabilityService.suggest_dates]; [by frame|]. case_bool_decide; [by frame|].
    apply preserves_bind; [apply _|intros ?; by rewrite get_availability_run by (right; eauto)|intros a1].
    apply preserves_bind; [apply _|intros ?; by rewrite get_availability_run by (right; eauto)|intros a2].
    apply preserves_bind; [apply _|apply Hcreate|intros ss].
    apply preserves_bind; [apply _|by frame|intros next].
    apply preserves_bind; [apply _|apply IH|intros rest; by frame]. }
  revert db. change (preserves same_hours (AvailabilityService.generate_suggestions match_id s e min)).
  unfold AvailabilityService.generate_suggestions.
  apply preserves_bind; [apply _|unfold find_match_by_id; by frame|intros m].
  apply preserves_bind; [apply _|by frame|intros m'].
  apply preserves_bind; [apply _|by frame|intros r1]. apply preserves_bind; [apply _|by frame|intros r2].
  apply preserves_bind; [apply _|by intros ?|intros n].
  apply preserves_bind; [apply _|apply Hdates|intros ss; by frame].
Qed.

Lemma hours_call_in_order call db : hours_in_order db → hours_in_order (run_hours_call call db).
Proof.
  intros Hok. destruct call as [command|id command|id|player|reg|command|id| |m s e min]; cbn [run_hours_call].
  - unfold AvailabilityService.create_window. repeat (case_match; [exact Hok|]).
    unfold mbind, AvailabilityWindowRepository.exists_, mread. case_match; [exact Hok|by apply window_create_in_order].
  - unfold AvailabilityService.update_window. case_match; [exact Hok|by apply window_update_in_order].
  - apply (fewer_in_order db); [apply delete_subseteq|reflexivity|exact Hok].
  - apply (fewer_in_order db); [apply map_filter_subseteq|reflexivity|exact Hok].
  - apply (fewer_in_order db); [apply map_filter_subseteq|reflexivity|exact Hok].
  - unfold AvailabilityService.create_override. repeat (case_match; [exact Hok|]). by apply override_create_in_order.
  - apply (fewer_in_order db); [reflexivity|cbn; apply delete_subseteq|exact Hok].
  - apply (fewer_in_order db); [reflexivity|cbn; apply map_filter_subseteq|exact Hok].
  - eapply same_hours_in_order; [apply generate_same_hours|exact Hok].
Qed.

Definition run_hours_calls (calls : list hours_call) (db : Db.t) : Db.t :=
  fold_left (λ db call, run_hours_call call db) calls db.

Lemma hours_calls_in_order calls db : hours_in_order db → hours_in_order (run_hours_calls calls db).
Proof.
  revert db. induction calls as [|call calls IH]; intros db Hok; [exact Hok|]. by apply IH, hours_call_in_order.
Qed.

(** Whatever calls the service answers, in whatever order, the windows and
  overrides stay in order: each has an owner and a range that is not empty, a
  window is on a day of the week and under its own identifier, and no owner has
  the same window twice. *)
Theorem hours_stay_in_order calls db :
  hours_in_order db → hours_in_order (run_hours_calls calls db).
Proof. apply hours_calls_in_order. Qed.
End order.

(** ** Witnesses *)

#[local] Existing Instance sample_platform.

(** Two entries with a window on the same evening, one blocked for half an hour. *)
Definition evening (registration_id : TournamentRegistrationId) (start_ end_ : Z) : hours_call :=
  CreateWindow (CreateAvailabilityWindow.mk None (Some registration_id) 5 (minutes (60 * start_))
    (minutes (60 * end_)) None true None).

Definition hours_calls : list hours_call :=
  [evening 1 18 22; evening 2 17 20;
   CreateOverride (CreateAvailabilityOverride.mk None (Some 2%N) 20000 (Some (minutes 1110))
     (Some (minutes 1140)) OverrideType.Blocked None)].

Definition hours_match : TournamentMatch.t :=
  sample_row 1 1 1 1 "R1M1" (None, None) (Some 1%N, Some 2%N).
Definition hours_db : Db.t := run_hours_calls hours_calls (sample_db [hours_match] [] []).

Lemma no_hours_in_order : hours_in_order (sample_db [hours_match] [] []).
Proof.
  split; cbn.
  - intros k w. by rewrite lookup_empty.
  - intros k k' w w'. by rewrite lookup_empty.
  - intros k o. by rewrite lookup_empty.
Qed.

Lemma hours_db_ok : hours_ok hours_db.
Proof. apply hours_in_order_ok. unfold hours_db. apply hours_calls_in_order, no_hours_in_order. Qed.

Example hours_stay_in_order_witness :
  hours_in_order hours_db ∧ size (Db.availability_windows hours_db) = 2%nat.
Proof.
  split; [|reflexivity].
  apply (hours_stay_in_order hours_calls (sample_db [hours_match] [] [])). exact no_hours_in_order.
Defined.


Lemma hours_suggestions_fresh : suggestions_fresh hours_db.
Proof. intros k r Hk. change ((∅ : gmap N SuggestedTime.t) !! k = Some r) in Hk.
  by rewrite lookup_empty in Hk. Qed.

