(* ===== verification/SchedulingProps.v ===== *)
(** Scheduling: proposals stay in order and are settled for good; what accepting
    one does, and what the service leaves unchecked. *)
From stdpp Require Import base list strings gmap relations.
From S2P Require Import Prelude Errors Wire TournamentTypes CoreEnums Entities FormatPlan BracketModel Rows.
From S2P Require Import ScheduleModel Store TournamentStore StoreFacts Progression Lifecycle Actor Results Scheduling ClaimFacts RegistrationFacts Samples.
#[local] Open Scope Z_scope.

Section proposals.
Context `{Platform}.
Import ScheduleProposalRepository.

(** What was offered, by whom and until when: fixed when it is made. *)
Definition offer (p : ScheduleProposal.t) :=
  (ScheduleProposal.id p, ScheduleProposal.match_id p, ScheduleProposal.proposed_by_registration_id p,
   ScheduleProposal.proposed_by_user_id p, ScheduleProposal.proposed_times p, ScheduleProposal.expires_at p,
   ScheduleProposal.created_at p).

Record proposal_ok (p : ScheduleProposal.t) : Prop := {
  po_times : (1 ≤ length (ScheduleProposal.proposed_times p) ≤ 5)%nat;
  po_future t : t ∈ ScheduleProposal.proposed_times p → ScheduleProposal.created_at p < t;
  po_selected : is_Some (ScheduleProposal.selected_time p) ↔
    ScheduleProposal.status p = ProposalStatus.Accepted;
  po_offered t : ScheduleProposal.selected_time p = Some t → t ∈ ScheduleProposal.proposed_times p;
  po_opponent : ScheduleProposal.status p ∈ [ProposalStatus.Accepted; ProposalStatus.Rejected; ProposalStatus.CounterProposed] →
    ∃ u, ScheduleProposal.responded_by_user_id p = Some u ∧ u ≠ ScheduleProposal.proposed_by_user_id p;
}.

Record proposals_in_order (db : Db.t) : Prop := {
  pi_key k p : Db.schedule_proposals db !! k = Some p → ScheduleProposal.id p = k ∧ (k < Db.next_uuid db)%N;
  pi_ok k p : Db.schedule_proposals db !! k = Some p → proposal_ok p;
  pi_one k k' p p' : Db.schedule_proposals db !! k = Some p → Db.schedule_proposals db !! k' = Some p' →
    is_pending p = true → is_pending p' = true → ScheduleProposal.match_id p = ScheduleProposal.match_id p' → k = k';
}.

(** A row stays, or goes from pending to settled with its offer as it was. *)
Definition settles (p p' : ScheduleProposal.t) : Prop :=
  p' = p ∨ is_pending p = true ∧ is_pending p' = false ∧ offer p' = offer p.

Definition proposals_evolve (db db' : Db.t) : Prop := ∀ k p,
  Db.schedule_proposals db !! k = Some p → ∃ p', Db.schedule_proposals db' !! k = Some p' ∧ settles p p'.

Definition sound (db db' : Db.t) : Prop :=
  proposals_in_order db → proposals_in_order db' ∧ proposals_evolve db db'.

Lemma settles_trans p q r : settles p q → settles q r → settles p r.
Proof.
  intros [->|(Hp & Hq & Ho)] [->|(Hq' & Hr & Ho')]; [by left|by right|by right|congruence].
Qed.

#[global] Instance sound_preorder : PreOrder sound.
Proof.
  split.
  - intros db Hok. split; [done|]. intros k p Hk. exists p. split; [done|by left].
  - intros a b c Hab Hbc Ha. destruct (Hab Ha) as [Hb Eab], (Hbc (proj1 (Hab Ha))) as [Hc Ebc].
    split; [exact Hc|]. intros k p Hk. destruct (Eab k p Hk) as (q & Hq & Hpq).
    destruct (Ebc k q Hq) as (r & Hr & Hqr). exists r. split; [done|]. by eapply settles_trans.
Qed.

(** Everything else may happen in between. *)
Definition elsewhere (db db' : Db.t) : Prop :=
  Db.schedule_proposals db' = Db.schedule_proposals db ∧ (Db.next_uuid db ≤ Db.next_uuid db')%N.
#[global] Instance elsewhere_preorder : PreOrder elsewhere.
Proof. split; [done|]. intros a b c [] []. split; [congruence|lia]. Qed.

Lemma schedule_elsewhere_sound db db' : elsewhere db db' → sound db db'.
Proof.
  intros [Hp Hn] [H1 H2 H3]. split; [split|]; rewrite ?Hp.
  - intros k p Hk. destruct (H1 k p Hk). split; [done|lia].
  - done.
  - done.
  - intros k p Hk. rewrite Hp. exists p. split; [done|by left].
Qed.

Lemma only_matches_elsewhere db db' : only_matches db db' → elsewhere db db'.
Proof. intros Hm. split; [by apply om_schedule_proposals|by rewrite (om_next _ _ Hm)]. Qed.

(** A pending row is settled. *)
Lemma settle_sound id p p' db db' :
  Db.schedule_proposals db !! id = Some p → is_pending p = true → is_pending p' = false →
  offer p' = offer p → proposal_ok p' →
  Db.schedule_proposals db' = <[id := p']> (Db.schedule_proposals db) →
  (Db.next_uuid db ≤ Db.next_uuid db')%N → sound db db'.
Proof.
  intros Hp Hpend Hset Hoff Hok Ht Hn [H1 H2 H3]. split; [split|]; rewrite ?Ht.
  - intros k q [[<- <-]|[_ Hk]]%lookup_insert_Some.
    + destruct (H1 id p Hp) as [Hid ?]. injection Hoff as -> _ _ _ _ _ _. split; [done|lia].
    + destruct (H1 k q Hk). split; [done|lia].
  - intros k q [[<- <-]|[_ Hk]]%lookup_insert_Some; [done|by eapply H2].
  - intros k k' q q' [[<- <-]|[_ Hk]]%lookup_insert_Some [[<- <-]|[_ Hk']]%lookup_insert_Some; try congruence.
    by eapply H3.
  - intros k q Hk. rewrite Ht. destruct (decide (k = id)) as [->|Hne].
    + exists p'. rewrite lookup_insert_eq. split; [done|]. rewrite Hp in Hk. injection Hk as <-. by right.
    + exists q. rewrite lookup_insert_ne by done. split; [done|by left].
Qed.

(** A new pending row, for a match that has none. *)
Lemma proposal_inserted_sound p db db' :
  ScheduleProposal.id p = Db.next_uuid db → proposal_ok p →
  (∀ k q, Db.schedule_proposals db !! k = Some q → is_pending q = true →
     ScheduleProposal.match_id q ≠ ScheduleProposal.match_id p) →
  Db.schedule_proposals db' = <[ScheduleProposal.id p := p]> (Db.schedule_proposals db) →
  Db.next_uuid db' = N.succ (Db.next_uuid db) → sound db db'.
Proof.
  intros Hid Hok Hnone Ht Hn [H1 H2 H3]. split; [split|]; rewrite ?Ht.
  - intros k q [[<- <-]|[_ Hk]]%lookup_insert_Some; [split; [done|lia]|].
    destruct (H1 k q Hk). split; [done|lia].
  - intros k q [[<- <-]|[_ Hk]]%lookup_insert_Some; [done|by eapply H2].
  - intros k k' q q' [[<- <-]|[_ Hk]]%lookup_insert_Some [[<- <-]|[_ Hk']]%lookup_insert_Some Hq Hq' Hm.
    + done.
    + by destruct (Hnone k' q').
    + by destruct (Hnone k q).
    + by eapply H3.
  - intros k q Hk. rewrite Ht. exists q. split; [|by left]. rewrite lookup_insert_ne; [done|].
    destruct (H1 k q Hk). lia.
Qed.

(** ** Reading before writing *)

Lemma sound_read {A B} (c : M A) (k : A → M B) db :
  preserves eq c → (∀ a, c db = (Ok a, db) → sound db (k a db).2) → sound db (mbind c k db).2.
Proof. apply frame_read_at, _. Qed.

Lemma sound_then {A B} (c : M A) (k : A → M B) db :
  sound db (c db).2 → (∀ a, preserves sound (k a)) → sound db (mbind c k db).2.
Proof. apply frame_then_at, _. Qed.

Lemma find_match_reads id : preserves eq (SchedulingService.find_match id).
Proof. unfold SchedulingService.find_match, find_match_by_id. frame. Qed.
Lemma find_proposal_reads id : preserves eq (SchedulingService.find_proposal id).
Proof. unfold SchedulingService.find_proposal, find_by_id. frame. Qed.
Lemma responder_reads self who p m : preserves eq (SchedulingService.validate_responder_is_opponent self who p m).
Proof.
  unfold SchedulingService.validate_responder_is_opponent. case_bool_decide; [frame|].
  apply preserves_bind; [apply _|apply find_actor_registration_eq|intros r]. frame.
Qed.

Lemma find_proposal_ok id p db :
  SchedulingService.find_proposal id db = (Ok p, db) → Db.schedule_proposals db !! id = Some p.
Proof.
  unfold SchedulingService.find_proposal, find_by_id, mbind, mread, mlift.
  destruct (Db.schedule_proposals db !! id) as [q|]; [|done]. by intros [= ->].
Qed.

Lemma responder_ok self who p m db :
  SchedulingService.validate_responder_is_opponent self who p m db = (Ok tt, db) →
  RegistrationActor.user_id who ≠ ScheduleProposal.proposed_by_user_id p.
Proof. unfold SchedulingService.validate_responder_is_opponent. by case_bool_decide. Qed.

Lemma check_times_ok now ts :
  SchedulingService.check_times now ts = Ok tt →
  (1 ≤ length ts ≤ 5)%nat ∧ ∀ t, t ∈ ts → now < t.
Proof.
  unfold SchedulingService.check_times. case_bool_decide as Hnil; [done|]. case_bool_decide as Hlen; [done|]. cbn.
  destruct (existsb _ ts) eqn:Hex; [done|]. intros _. split.
  - destruct ts; [done|]. cbn in *. lia.
  - intros t Ht. destruct (decide (t ≤ now)) as [Hle|]; [|lia]. exfalso.
    assert (existsb (λ time, bool_decide (time ≤ now)) ts = true); [|congruence].
    apply existsb_exists. exists t. split; [by apply list_elem_of_In|by apply bool_decide_eq_true].
Qed.

Lemma no_pending_ok id db :
  find_pending_by_match_id id db = (Ok None, db) →
  ∀ k q, Db.schedule_proposals db !! k = Some q → is_pending q = true → ScheduleProposal.match_id q ≠ id.
Proof.
  unfold find_pending_by_match_id, mread. intros [= Hnone] k q Hk Hq Hm.
  assert (q ∈ filter (λ p, is_pending p = true) (proposals_of id db)) as Hin.
  { apply list_elem_of_filter. split; [done|]. unfold proposals_of. rewrite stable_sort_perm.
    apply elem_of_rows_where. split; [by apply bool_decide_eq_true|by exists k]. }
  destruct (filter _ (proposals_of id db)); [by apply elem_of_nil in Hin|done].
Qed.

Lemma pending_ok id p db :
  find_pending_by_match_id id db = (Ok (Some p), db) →
  is_pending p = true ∧ ∃ k, Db.schedule_proposals db !! k = Some p.
Proof.
  unfold find_pending_by_match_id, mread. intros [= Hsome].
  assert (p ∈ filter (λ p, is_pending p = true) (proposals_of id db)) as Hin.
  { destruct (filter _ (proposals_of id db)) as [|q l]; [done|]. injection Hsome as ->. apply list_elem_of_here. }
  apply list_elem_of_filter in Hin as [Hp Hin]. split; [done|]. unfold proposals_of in Hin.
  rewrite stable_sort_perm in Hin. by apply elem_of_rows_where in Hin as [_ Hin].
Qed.

(** ** The operations *)

Lemma proposal_ok_same p q :
  offer q = offer p → ScheduleProposal.selected_time q = ScheduleProposal.selected_time p →
  ScheduleProposal.responded_by_user_id q = ScheduleProposal.responded_by_user_id p →
  ScheduleProposal.status q = ScheduleProposal.status p → proposal_ok p → proposal_ok q.
Proof.
  intros Hoff Hsel Hresp Hst [H1 H2 H3 H4 H5]. injection Hoff as _ _ _ Hu Ht _ Hc.
  split; rewrite ?Hsel, ?Hresp, ?Hst, ?Hu, ?Ht, ?Hc; done.
Qed.

Lemma sound_given db db' : (proposals_in_order db → sound db db') → sound db db'.
Proof. intros Hs Ho. exact (Hs Ho Ho). Qed.

Lemma answer_sound id p p1 db :
  Db.schedule_proposals db !! id = Some p → is_pending p = true → is_pending p1 = false →
  offer p1 = offer p → (proposal_ok p → proposal_ok p1) → sound db (update p1 db).2.
Proof.
  intros Hp Hpend Hset Hoff Hok. apply sound_given. intros Hord. destruct (pi_key _ Hord id p Hp) as [Hid _].
  assert (ScheduleProposal.id p1 = id) as Hid1 by (injection Hoff; congruence).
  unfold update, update_row. rewrite Hid1, Hp.
  apply (settle_sound id p ((set_answer p1 p) <| ScheduleProposal.updated_at := Db.now db |>)); try done.
  apply (proposal_ok_same p1); [by rewrite Hoff|done..|]. apply Hok. by eapply pi_ok.
Qed.

(** Withdrawn or run out: nothing was selected. *)
Lemma dropped_ok p q :
  is_pending p = true → offer q = offer p → ScheduleProposal.selected_time q = ScheduleProposal.selected_time p →
  ScheduleProposal.status q = ProposalStatus.Cancelled ∨ ScheduleProposal.status q = ProposalStatus.Expired →
  proposal_ok p → proposal_ok q.
Proof.
  intros Hpend%bool_decide_eq_true Hoff Hsel Hst [H1 H2 H3 H4 H5]. injection Hoff as _ _ _ Hu Ht _ Hc.
  split; rewrite ?Hsel, ?Hu, ?Ht, ?Hc; try done.
  - rewrite H3, Hpend. destruct Hst as [-> | ->]; by split.
  - rewrite !elem_of_cons, elem_of_nil. destruct Hst as [-> | ->]; intros [?|[?|[?|[]]]]; done.
Qed.

Lemma mark_expired_sound id : preserves sound (mark_expired id).
Proof.
  intros db. unfold mark_expired, update_row.
  destruct (Db.schedule_proposals db !! id) as [p|] eqn:Hp; [|reflexivity].
  destruct (is_pending p) eqn:Hpend; [|reflexivity]. apply sound_given. intros Hord.
  apply (settle_sound id p ((p <| ScheduleProposal.status := ProposalStatus.Expired |>)
    <| ScheduleProposal.updated_at := Db.now db |>)); try done.
  apply (dropped_ok p); [done..|by right|]. by eapply pi_ok.
Qed.

Lemma can_respond_pending now p : ScheduleProposal.can_respond now p = true → is_pending p = true.
Proof. unfold ScheduleProposal.can_respond, is_pending. by intros [? _]%andb_true_iff. Qed.

Lemma contains_time_elem p t : ScheduleProposal.contains_time p t = true → t ∈ ScheduleProposal.proposed_times p.
Proof.
  unfold ScheduleProposal.contains_time. intros (t' & Ht & <-%bool_decide_eq_true)%existsb_exists.
  by apply list_elem_of_In.
Qed.

(** The answer of an opponent keeps a row in order. *)
Lemma answered_ok status u now p :
  status ≠ ProposalStatus.Accepted → status ≠ ProposalStatus.Pending →
  u ≠ ScheduleProposal.proposed_by_user_id p → is_pending p = true → proposal_ok p →
  proposal_ok (SchedulingService.answered status u now p).
Proof.
  intros Hacc Hnp Hu Hpend%bool_decide_eq_true [H1 H2 H3 H4 H5]. split; cbn; try done.
  - rewrite H3, Hpend. by split; intros; simplify_eq.
  - intros _. by exists u.
Qed.

Lemma update_scheduled_at_elsewhere id t : preserves sound (update_scheduled_at id t).
Proof. intros db. apply schedule_elsewhere_sound, only_matches_elsewhere, update_match_only. Qed.
Lemma update_status_elsewhere id st : preserves sound (update_status id st).
Proof. intros db. apply schedule_elsewhere_sound, only_matches_elsewhere, update_match_only. Qed.

Lemma accept_sound self id t who : preserves sound (SchedulingService.accept_proposal self id t who).
Proof.
  intros db. unfold SchedulingService.accept_proposal.
  apply sound_read; [apply find_proposal_reads|]. intros p Hp%find_proposal_ok.
  apply sound_read; [frame|]. intros now [= <-].
  destruct (ScheduleProposal.can_respond _ p) eqn:Hcan; [|reflexivity]. cbn [negb].
  destruct (ScheduleProposal.contains_time p t) eqn:Ht; [|reflexivity]. cbn [negb].
  apply sound_read; [apply find_match_reads|]. intros m _.
  apply sound_read; [apply responder_reads|]. intros [] Hwho%responder_ok.
  apply can_respond_pending in Hcan. apply sound_then.
  - eapply answer_sound; try done. intros [H1 H2 H3 H4 H5]. split; cbn; try done.
    + by intros t' [= <-]; apply contains_time_elem.
    + intros _. by eexists.
  - intros p1. apply preserves_bind; [apply _|apply update_scheduled_at_elsewhere|intros _].
    apply preserves_bind; [apply _|apply update_status_elsewhere|intros m']. by apply preserves_ret, _.
Qed.

Lemma reject_sound self id who reason : preserves sound (SchedulingService.reject_proposal self id who reason).
Proof.
  intros db. unfold SchedulingService.reject_proposal.
  apply sound_read; [apply find_proposal_reads|]. intros p Hp%find_proposal_ok.
  apply sound_read; [frame|]. intros now [= <-].
  destruct (ScheduleProposal.can_respond _ p) eqn:Hcan; [|reflexivity]. cbn [negb].
  apply sound_read; [apply find_match_reads|]. intros m _.
  apply sound_read; [apply responder_reads|]. intros [] Hwho%responder_ok.
  apply can_respond_pending in Hcan. eapply answer_sound; try done.
  intros Hok. eapply proposal_ok_same; [..|apply (answered_ok ProposalStatus.Rejected (RegistrationActor.user_id who) (Db.now db) p)]; done.
Qed.

Lemma cancel_sound command : preserves sound (SchedulingService.cancel_proposal command).
Proof.
  intros db. unfold SchedulingService.cancel_proposal.
  apply sound_read; [apply find_proposal_reads|]. intros p Hp%find_proposal_ok.
  case_bool_decide; [|reflexivity]. cbn [negb]. case_bool_decide; [|reflexivity]. cbn [negb].
  case_bool_decide as Hpend; [|reflexivity]. cbn [negb]. apply sound_read; [frame|]. intros now [= <-].
  eapply answer_sound; try done; [by apply bool_decide_eq_true|].
  apply dropped_ok; [by apply bool_decide_eq_true|done..|by left].
Qed.

Lemma expire_sound : preserves sound SchedulingService.expire_proposals.
Proof.
  unfold SchedulingService.expire_proposals. apply preserves_bind; [apply _|frame|intros now].
  apply preserves_bind; [apply _|unfold find_expired; frame|intros ps].
  induction ps as [|p ps IH]; cbn [SchedulingService.expire_all]; [frame|].
  apply preserves_bind; [apply _|apply mark_expired_sound|intros p'].
  apply preserves_bind; [apply _|apply IH|intros rest]. frame.
Qed.

(** *** Proposing *)

Definition created (command : CreateScheduleProposalCommand.t) (db : Db.t) : Db.t :=
  db <| Db.next_uuid := N.succ (Db.next_uuid db) |>
     <| Db.schedule_proposals :=
          <[Db.next_uuid db := inserted (Db.next_uuid db) (Db.now db) command]> (Db.schedule_proposals db) |>.

Lemma proposal_create_run command db :
  (length (CreateScheduleProposalCommand.proposed_times command) ≤ 5)%nat →
  create command db = (Ok (inserted (Db.next_uuid db) (Db.now db) command), created command db).
Proof. intros Hl. unfold create, times_allowed. by rewrite bool_decide_true. Qed.

Lemma proposal_inserted_ok id now command :
  (1 ≤ length (CreateScheduleProposalCommand.proposed_times command) ≤ 5)%nat →
  (∀ t, t ∈ CreateScheduleProposalCommand.proposed_times command → now < t) →
  proposal_ok (inserted id now command).
Proof.
  intros Hl Ht. split; cbn; try done.
  rewrite !elem_of_cons, elem_of_nil. intros [?|[?|[?|[]]]]; done.
Qed.

Lemma created_sound command db :
  (1 ≤ length (CreateScheduleProposalCommand.proposed_times command) ≤ 5)%nat →
  (∀ t, t ∈ CreateScheduleProposalCommand.proposed_times command → Db.now db < t) →
  (∀ k q, Db.schedule_proposals db !! k = Some q → is_pending q = true →
     ScheduleProposal.match_id q ≠ CreateScheduleProposalCommand.match_id command) →
  sound db (created command db).
Proof.
  intros Hl Ht Hnone. apply (proposal_inserted_sound (inserted (Db.next_uuid db) (Db.now db) command)); try done.
  by apply proposal_inserted_ok.
Qed.

Lemma propose_sound self mid ts who notes : preserves sound (SchedulingService.propose_schedule self mid ts who notes).
Proof.
  intros db. unfold SchedulingService.propose_schedule.
  apply sound_read; [apply find_match_reads|]. intros m _. apply sound_read; [frame|]. intros [] _.
  apply sound_read; [frame|]. intros now [= <-]. apply sound_read; [frame|]. intros [] Hts.
  assert (SchedulingService.check_times (Db.now db) ts = Ok tt) as [Hlen Hfut]%check_times_ok by by injection Hts.
  apply sound_read; [unfold find_pending_by_match_id; frame|]. intros [p|] Hnone; [reflexivity|].
  apply sound_read; [apply find_actor_registration_eq|]. intros reg _. rewrite proposal_create_run by (cbn; lia).
  apply created_sound; [done|done|]. by apply no_pending_ok.
Qed.

Lemma counter_sound self id mid reg who ts expires notes db :
  (∀ p, Db.schedule_proposals db !! id = Some p → ScheduleProposal.match_id p = mid) →
  sound db (SchedulingService.counter_propose self id mid reg who ts expires notes db).2.
Proof.
  intros Hmid. apply sound_given. intros Hord. unfold SchedulingService.counter_propose.
  apply sound_read; [apply find_proposal_reads|]. intros p Hp%find_proposal_ok.
  apply sound_read; [frame|]. intros now [= <-].
  destruct (ScheduleProposal.can_respond _ p) eqn:Hcan; [|reflexivity]. cbn [negb].
  apply sound_read; [frame|]. intros [] Hts.
  assert (SchedulingService.check_times (Db.now db) ts = Ok tt) as [Hlen Hfut]%check_times_ok by by injection Hts.
  apply sound_read; [apply find_match_reads|]. intros m _.
  apply sound_read; [apply responder_reads|]. intros [] Hwho%responder_ok.
  rewrite (mbind_step _ _ _ _ _ (proposal_create_run (CreateScheduleProposalCommand.mk mid reg (RegistrationActor.user_id who)
    ts expires notes) db (proj2 Hlen))).
  set (q := inserted _ _ _). set (db1 := created _ _).
  destruct (pi_key _ Hord id p Hp) as [Hid Hlt]. apply can_respond_pending in Hcan.
  set (p1 := SchedulingService.answered ProposalStatus.CounterProposed (RegistrationActor.user_id who) (Db.now db) p
    <| ScheduleProposal.counter_proposal_id := Some (ScheduleProposal.id q) |>).
  set (p2 := (set_answer p1 p) <| ScheduleProposal.updated_at := Db.now db |>).
  assert (update p1 db1 = (Ok p2, db1 <| Db.schedule_proposals := <[id := p2]> (Db.schedule_proposals db1) |>)) as Hup.
  { unfold update, update_row. change (ScheduleProposal.id p1) with (ScheduleProposal.id p). rewrite Hid.
    change (Db.schedule_proposals db1) with (<[Db.next_uuid db := q]> (Db.schedule_proposals db)).
    rewrite lookup_insert_ne by lia. by rewrite Hp. }
  rewrite (mbind_step _ _ _ _ _ Hup). cbn [snd].
  transitivity (db <| Db.schedule_proposals := <[id := p2]> (Db.schedule_proposals db) |>).
  - apply (settle_sound id p p2); try done.
    eapply proposal_ok_same; [..|apply (answered_ok ProposalStatus.CounterProposed (RegistrationActor.user_id who)
      (Db.now db) p); try done; by eapply pi_ok]; done.
  - apply (proposal_inserted_sound q); [done|by apply proposal_inserted_ok| | |done].
    + cbn. intros k r [[<- <-]|[Hne Hk]]%lookup_insert_Some Hr; [done|]. rewrite <- (Hmid p Hp). intros Hm.
      destruct Hne. symmetry. by eapply pi_one.
    + cbn. rewrite insert_insert_ne by lia. done.
Qed.

(** *** The administrator *)

Definition wired (self : SchedulingService.t) : Prop :=
  ∀ t, SchedulingService.match_transitioner self = Some t → t = MatchStatusTransitioner.lifecycle.

Lemma transition_elsewhere id to who why : preserves elsewhere (transition id to who why).
Proof.
  assert (∀ d1 d2, eq d1 d2 → elsewhere d1 d2) as Heq by by intros ? ? ->.
  unfold transition. apply preserves_bind; [apply _|unfold get_match, find_match_by_id; frame|intros m].
  case_match; [apply preserves_throw, _|]. apply preserves_bind; [apply _| |intros u].
  - intros db. apply only_matches_elsewhere, update_match_only.
  - apply preserves_bind; [apply _| |intros l; by apply preserves_ret, _]. intros db. unfold log_transition.
    destruct (TransitionTrigger.to_db_fields who) as [[? ?] ?]. split; cbn; [done|lia].
Qed.

Lemma admin_sound self mid t admin notes :
  wired self → preserves sound (SchedulingService.admin_schedule self mid t admin notes).
Proof.
  intros Hself db. unfold SchedulingService.admin_schedule.
  apply sound_read; [apply find_match_reads|]. intros m _. apply sound_read; [frame|]. intros [] _.
  apply sound_read; [unfold find_pending_by_match_id; frame|]. intros pending Hpend. apply sound_then.
  - destruct pending as [p|]; [|reflexivity]. apply pending_ok in Hpend as [Hp [k Hk]].
    apply sound_then; [|intros ?; by apply preserves_ret, _]. eapply answer_sound; try done.
    apply dropped_ok; [done..|by left].
  - intros []. apply preserves_bind; [apply _|apply update_scheduled_at_elsewhere|intros m'].
    destruct (SchedulingService.match_transitioner self) as [tr|] eqn:Htr; [|apply update_status_elsewhere].
    rewrite (Hself _ Htr). intros db'. apply schedule_elsewhere_sound, transition_elsewhere.
Qed.

(** ** Any sequence of calls *)

Inductive schedule_step (self : SchedulingService.t) : Db.t → Db.t → Prop :=
| Propose mid ts who notes db :
    schedule_step self db (SchedulingService.propose_schedule self mid ts who notes db).2
| Accept id t who db : schedule_step self db (SchedulingService.accept_proposal self id t who db).2
| Reject id who reason db : schedule_step self db (SchedulingService.reject_proposal self id who reason db).2
| Cancel command db : schedule_step self db (SchedulingService.cancel_proposal command db).2
| Counter id mid reg who ts expires notes db :
    (** the caller names the match of the proposal it answers *)
    (∀ p, Db.schedule_proposals db !! id = Some p → ScheduleProposal.match_id p = mid) →
    schedule_step self db (SchedulingService.counter_propose self id mid reg who ts expires notes db).2
| AdminSchedule mid t admin notes db :
    schedule_step self db (SchedulingService.admin_schedule self mid t admin notes db).2
| Expire db : schedule_step self db (SchedulingService.expire_proposals db).2
| Elsewhere db db' : elsewhere db db' → schedule_step self db db'.

Lemma schedule_step_sound self db db' : wired self → schedule_step self db db' → sound db db'.
Proof.
  intros Hself Hstep. destruct Hstep.
  - apply propose_sound.
  - apply accept_sound.
  - apply reject_sound.
  - apply cancel_sound.
  - by apply counter_sound.
  - by apply admin_sound.
  - apply expire_sound.
  - by apply schedule_elsewhere_sound.
Qed.

Lemma schedule_steps_sound self db db' : wired self → rtc (schedule_step self) db db' → sound db db'.
Proof.
  intros Hself. induction 1 as [db|db db1 db' Hs _ IH]; [reflexivity|].
  etransitivity; [by eapply schedule_step_sound|exact IH].
Qed.


(** ** Accepting *)

Definition acceptable (self : SchedulingService.t) (id : ScheduleProposalId) (t : DateTime)
    (who : RegistrationActor.t) (db : Db.t) (p : ScheduleProposal.t) (m : TournamentMatch.t)
    (reg : TournamentRegistrationId) : Prop :=
  Db.schedule_proposals db !! id = Some p ∧ ScheduleProposal.can_respond (Db.now db) p = true ∧
  t ∈ ScheduleProposal.proposed_times p ∧ Db.matches db !! ScheduleProposal.match_id p = Some m ∧
  RegistrationActor.user_id who ≠ ScheduleProposal.proposed_by_user_id p ∧
  find_actor_registration (SchedulingService.adhoc_repo self) m who db = (Ok reg, db) ∧
  reg ≠ ScheduleProposal.proposed_by_registration_id p.

(** The rows an acceptance leaves. *)
Definition accepted_row (t : DateTime) (user : UserId) (now : DateTime) (p : ScheduleProposal.t) : ScheduleProposal.t :=
  p <| ScheduleProposal.selected_time := Some t |> <| ScheduleProposal.responded_at := Some now |>
    <| ScheduleProposal.responded_by_user_id := Some user |>
    <| ScheduleProposal.status := ProposalStatus.Accepted |> <| ScheduleProposal.updated_at := now |>.
Definition scheduled_row (t now : DateTime) (m : TournamentMatch.t) : TournamentMatch.t :=
  m <| TournamentMatch.scheduled_at := Some t |> <| TournamentMatch.status := TournamentMatchStatus.Scheduled |>
    <| TournamentMatch.updated_at := now |>.

Lemma contains_time_iff p t : ScheduleProposal.contains_time p t = true ↔ t ∈ ScheduleProposal.proposed_times p.
Proof.
  split; [apply contains_time_elem|]. intros Ht. apply existsb_exists. exists t.
  split; [by apply list_elem_of_In|by apply bool_decide_eq_true].
Qed.

Lemma accept_run self id t who db p m reg :
  ScheduleProposal.id p = id → acceptable self id t who db p m reg →
  SchedulingService.accept_proposal self id t who db =
    (Ok (accepted_row t (RegistrationActor.user_id who) (Db.now db) p, scheduled_row t (Db.now db) m),
     db <| Db.schedule_proposals := <[id := accepted_row t (RegistrationActor.user_id who) (Db.now db) p]>
             (Db.schedule_proposals db) |>
        <| Db.matches := <[ScheduleProposal.match_id p := scheduled_row t (Db.now db) m]> (Db.matches db) |>).
Proof.
  intros Hid (Hp & Hcan & Ht%contains_time_iff & Hm & Hu & Hreg & Hne). unfold SchedulingService.accept_proposal.
  rewrite (mbind_step _ _ db p db) by (unfold SchedulingService.find_proposal, find_by_id, mbind, mread, mlift; by rewrite Hp).
  rewrite (mbind_step _ _ db (Db.now db) db) by done. rewrite Hcan, Ht. cbn [negb].
  rewrite (mbind_step _ _ db m db)
    by (unfold SchedulingService.find_match, find_match_by_id, mbind, mread, mlift; by rewrite Hm).
  rewrite (mbind_step _ _ db tt db).
  2: { unfold SchedulingService.validate_responder_is_opponent. rewrite bool_decide_false by done.
       rewrite (mbind_step _ _ _ _ _ Hreg). by rewrite bool_decide_false. }
  set (p1 := SchedulingService.answered ProposalStatus.Accepted (RegistrationActor.user_id who) (Db.now db) p
    <| ScheduleProposal.selected_time := Some t |>).
  assert (update p1 db = (Ok (accepted_row t (RegistrationActor.user_id who) (Db.now db) p),
    db <| Db.schedule_proposals := <[id := accepted_row t (RegistrationActor.user_id who) (Db.now db) p]>
             (Db.schedule_proposals db) |>)) as Hup.
  { unfold update, update_row. change (ScheduleProposal.id p1) with (ScheduleProposal.id p). by rewrite Hid, Hp. }
  rewrite (mbind_step _ _ _ _ _ Hup). unfold update_scheduled_at, update_status.
  erewrite mbind_step by (apply update_match_found; exact Hm).
  erewrite mbind_step by (apply update_match_found; apply lookup_insert_eq).
  cbn. by rewrite insert_insert_eq.
Qed.

Lemma accept_refused self id t who db :
  (∀ p m reg, ¬ acceptable self id t who db p m reg) →
  ∃ e, SchedulingService.accept_proposal self id t who db = (Err e, db).
Proof.
  intros Hno. unfold SchedulingService.accept_proposal.
  apply read_refused; [apply find_proposal_reads|]. intros p Hp%find_proposal_ok.
  apply read_refused; [frame|]. intros now [= <-].
  destruct (ScheduleProposal.can_respond _ p) eqn:Hcan; [|by eexists].
  destruct (ScheduleProposal.contains_time p t) eqn:Ht; [|by eexists]. apply contains_time_iff in Ht. cbn [negb].
  apply read_refused; [apply find_match_reads|]. intros m Hm.
  assert (Db.matches db !! ScheduleProposal.match_id p = Some m) as Hm'.
  { revert Hm. unfold SchedulingService.find_match, find_match_by_id, mbind, mread, mlift.
    destruct (Db.matches db !! _); [|done]. by intros [= ->]. }
  unfold SchedulingService.validate_responder_is_opponent. case_bool_decide as Hu; [by eexists|].
  apply read_refused.
  { apply preserves_bind; [apply _|apply find_actor_registration_eq|intros r; frame]. }
  intros [] Hr. exfalso. unfold mbind in Hr.
  destruct (find_actor_registration _ m who db) as [[reg|e] db1] eqn:Hreg; [|done].
  pose proof (preserves_eq_inv _ _ _ _ (find_actor_registration_eq _ _ _) Hreg) as ->.
  case_bool_decide as Hne; [done|]. by apply (Hno p m reg).
Qed.

(** A proposal is accepted exactly when it is pending and has not run out, the
  time is one of those offered, its match is there, and the caller is not its
  author and speaks for the other side; proposal and match are then written, with
  the time and the caller, and nothing else; a refusal writes nothing. *)
Theorem accept_proposal_spec self id t who db :
  (∀ k p, Db.schedule_proposals db !! k = Some p → ScheduleProposal.id p = k) →
  (∀ p m reg, acceptable self id t who db p m reg →
     let p' := accepted_row t (RegistrationActor.user_id who) (Db.now db) p in
     let m' := scheduled_row t (Db.now db) m in
     SchedulingService.accept_proposal self id t who db =
       (Ok (p', m'), db <| Db.schedule_proposals := <[id := p']> (Db.schedule_proposals db) |>
                        <| Db.matches := <[ScheduleProposal.match_id p := m']> (Db.matches db) |>)) ∧
  ((∀ p m reg, ¬ acceptable self id t who db p m reg) →
     ∃ e, SchedulingService.accept_proposal self id t who db = (Err e, db)).
Proof.
  intros Hkey. split; [|apply accept_refused]. intros p m reg Hacc. cbv zeta. eapply accept_run; [|exact Hacc].
  eapply Hkey, Hacc.
Qed.
End proposals.

(** ** Witnesses, and what is left unchecked *)

#[local] Existing Instance sample_platform.

Definition registered (id : TournamentRegistrationId) (user : UserId) : TournamentRegistration.t :=
  (sample_registration id None) <| TournamentRegistration.registered_by := user |>.

(** Two matches: entries 1 and 2 meet in the first, 3 and 4 in the second. *)
Definition first_match : TournamentMatch.t :=
  (sample_row 1 1 1 1 "R1M1" (None, None) (Some 1%N, Some 2%N))
    <| TournamentMatch.status := TournamentMatchStatus.Ready |>.
Definition second_match : TournamentMatch.t :=
  (sample_row 2 1 1 2 "R1M2" (None, None) (Some 3%N, Some 4%N))
    <| TournamentMatch.status := TournamentMatchStatus.Ready |>.
Definition matches_db : Db.t :=
  (sample_db [first_match; second_match] [] []) <| Db.registrations :=
    list_to_map ((λ r, (TournamentRegistration.id r, r)) <$>
      [registered 1 101; registered 2 102; registered 3 103; registered 4 104]) |>.

Definition scheduling : SchedulingService.t :=
  SchedulingService.with_match_transitioner MatchStatusTransitioner.lifecycle
    (SchedulingService.with_adhoc_repo pg_adhoc_repo SchedulingService.new).
Definition captain (n : N) : RegistrationActor.t := RegistrationActor.new (100 + n) (200 + n).

(** The captain of entry 1 proposes two times. *)
Definition proposed_db : Db.t :=
  (SchedulingService.propose_schedule scheduling 1 [500; 600] (captain 1) None matches_db).2.

Lemma no_proposals_in_order : proposals_in_order matches_db.
Proof.
  split; cbn.
  - intros k p. by rewrite lookup_empty.
  - intros k p. by rewrite lookup_empty.
  - intros k k' p p'. by rewrite lookup_empty.
Qed.

Lemma scheduling_wired : wired scheduling.
Proof. by intros t [= <-]. Qed.


Definition the_proposal : ScheduleProposal.t :=
  ScheduleProposalRepository.inserted 1000 100 (CreateScheduleProposalCommand.mk 1 1 101 [500; 600]
    (100 + SchedulingService.proposal_ttl scheduling) None).

Lemma proposal_row : Db.schedule_proposals proposed_db !! 1000%N = Some the_proposal.
Proof. reflexivity. Qed.

Example accept_proposal_spec_witness :
  (SchedulingService.accept_proposal scheduling 1000 600 (captain 2) proposed_db).1 =
    Ok (accepted_row 600 102 100 the_proposal, scheduled_row 600 100 first_match).
Proof.
  destruct (accept_proposal_spec scheduling 1000 600 (captain 2) proposed_db) as [Hacc _].
  - intros k p Hk. apply (schedule_steps_sound scheduling matches_db proposed_db scheduling_wired
      (rtc_once _ _ (Propose scheduling 1 [500; 600] (captain 1) None matches_db))) in Hk; [|exact no_proposals_in_order].
    apply Hk.
  - rewrite (Hacc the_proposal first_match 2%N).
    + reflexivity.
    + split; [exact proposal_row|]. split; [reflexivity|]. split; [right; left|]. split; [reflexivity|].
      split; [discriminate|]. split; [reflexivity|discriminate].
Defined.

(** A match in play goes back to scheduled when a proposal still pending is
    accepted: only [propose_schedule] looks at its status. *)
Lemma accepted_while_in_progress :
  let db := (update_status 1 TournamentMatchStatus.InProgress proposed_db).2 in
  match (SchedulingService.accept_proposal scheduling 1000 600 (captain 2) db).1 with
  | Ok (_, m) => TournamentMatch.status m = TournamentMatchStatus.Scheduled
  | Err _ => False
  end.
Proof. reflexivity. Qed.

(** A captain of the second match answers the proposal of the first: it is settled
    by someone who does not play in its match, and the second match has two
    proposals pending. *)
Lemma answered_from_another_match :
  let db := (SchedulingService.propose_schedule scheduling 2 [500] (captain 4) None proposed_db).2 in
  let db' := (SchedulingService.counter_propose scheduling 1000 2 3 (captain 3) [700] 900 None db).2 in
  (ScheduleProposal.status <$> Db.schedule_proposals db' !! 1000%N) = Some ProposalStatus.CounterProposed ∧
  length (filter (λ p, ScheduleProposalRepository.is_pending p = true)
    (ScheduleProposalRepository.proposals_of 2 db')) = 2%nat.
Proof. split; reflexivity. Qed.
