(* ===== verification/Pug.v ===== *)
(** [PugService] (crates/portal-domain/src/services/pug.rs): the lobby of a pick-up
    game, from its creation to its lock, and the wheel that draws its map; over
    [PgPugRepository] (crates/portal-db/src/adapters/pug.rs; constraints:
    migrations/0091_pugs.sql). *)
From stdpp Require Import base list strings gmap pretty.
From S2P Require Import Prelude Errors Wire TournamentTypes CoreEnums FormatPlan Entities BracketModel Rows.
From S2P Require Import PugModel Store TournamentStore.
#[local] Open Scope Z_scope.

(** ** The tables *)

Module PugRepository.
Section repository.
Context `{Platform}.

Definition pug_error {A} (message : string) : M A := mthrow (DomainError.Internal message).

(** The players of a lobby, with their keys. *)
Definition members (pug_id : PugId) (db : Db.t) : list (PlayerId * PugMember.t) :=
  omap (λ '((pug, player), m), if bool_decide (pug = pug_id) then Some (player, m) else None)
    (map_to_list (Db.pug_players db)).

Definition put_members (rows : gmap (PugId * PlayerId) PugMember.t) (db : Db.t) : Db.t :=
  db <| Db.pug_players := rows |>.

Definition inserted (id : PugId) (now : DateTime) (cmd : CreatePug.t) : Pug.t := {|
  Pug.id := id;
  Pug.game_id := CreatePug.game_id cmd;
  Pug.created_by_user_id := CreatePug.created_by_user_id cmd;
  Pug.join_code := CreatePug.join_code cmd;
  Pug.status := PugStatus.Gathering;
  Pug.match_format := CreatePug.match_format cmd;
  Pug.map_selection_mode := CreatePug.map_selection_mode cmd;
  Pug.side_selection_mode := CreatePug.side_selection_mode cmd;
  Pug.team_size := CreatePug.team_size cmd;
  Pug.region := CreatePug.region cmd;
  Pug.map_pool := CreatePug.map_pool cmd;
  Pug.listed := CreatePug.listed cmd;
  Pug.tournament_id := None;
  Pug.match_id := None;
  Pug.winner_team := None;
  Pug.team1_score := None;
  Pug.team2_score := None;
  Pug.completed_at := None;
  Pug.expires_at := CreatePug.expires_at cmd;
  Pug.created_at := now;
  Pug.updated_at := now |}.

(** [uq_pugs_join_code]. *)
Definition code_taken (db : Db.t) (id : PugId) (join_code : string) : bool :=
  existsb (λ '(k, p), negb (bool_decide (k = id)) && bool_decide (Pug.join_code p = join_code))
    (map_to_list (Db.pugs db)).

(** Checks in the order of their names, then the index. *)
Definition violated (db : Db.t) (p : Pug.t) : option string :=
  if bool_decide (Pug.match_format p = MatchFormat.Bo7) then Some "pugs_check_format"
  else if negb (bool_decide (1 ≤ Pug.team_size p ≤ 16)) then Some "pugs_check_team_size"
  else if code_taken db (Pug.id p) (Pug.join_code p) then Some "uq_pugs_join_code"
  else None.

(** [player_id UUID NOT NULL REFERENCES players(id)]. *)
Definition known_player (player_id : PlayerId) (db : Db.t) : bool :=
  bool_decide (is_Some (Db.players db !! player_id)).

(** One transaction: the lobby, and its creator seated on team 1 as captain. *)
Definition create (cmd : CreatePug.t) : M Pug.t := transaction (λ db,
  let p := inserted (Db.next_uuid db) (Db.now db) cmd in
  match violated db p with
  | Some name => pug_error (constraint_violation name) db
  | None =>
      if negb (known_player (CreatePug.creator_player_id cmd) db)
      then pug_error (constraint_violation "pug_players_player_id_fkey") db
      else
      (Ok p, put_members (<[(Pug.id p, CreatePug.creator_player_id cmd) :=
                             PugMember.mk (Some 1) true (Db.now db)]> (Db.pug_players db))
               (db <| Db.next_uuid := N.succ (Db.next_uuid db) |>
                   <| Db.pugs := <[Pug.id p := p]> (Db.pugs db) |>))
  end).

Definition find_by_id (id : PugId) : M (option Pug.t) := mread (λ db, Db.pugs db !! id).

Definition find_by_join_code (join_code : string) : M (option Pug.t) :=
  mread (λ db, head (rows_where (λ p, bool_decide (Pug.join_code p = join_code)) (Db.pugs db))).
Definition find_by_match (match_id : TournamentMatchId) : M (option Pug.t) :=
  mread (λ db, head (rows_where (λ p, bool_decide (Pug.match_id p = Some match_id)) (Db.pugs db))).

(** [ORDER BY created_at DESC], [ORDER BY expires_at], [ORDER BY updated_at]. *)
Definition newest (a b : Pug.t) : bool := bool_decide (Pug.created_at b ≤ Pug.created_at a).
Definition expires_first (a b : Pug.t) : bool := bool_decide (Pug.expires_at a ≤ Pug.expires_at b).
Definition idle_longest (a b : Pug.t) : bool := bool_decide (Pug.updated_at a ≤ Pug.updated_at b).
(** [ORDER BY completed_at DESC NULLS LAST]. *)
Definition completed_last (a b : Pug.t) : bool :=
  match Pug.completed_at a, Pug.completed_at b with
  | Some x, Some y => bool_decide (y ≤ x)
  | None, Some _ => false
  | _, None => true
  end.

(** [ORDER BY .. LIMIT ..]. *)
Definition page (leb : Pug.t → Pug.t → bool) (limit : Z) (P : Pug.t → bool) (db : Db.t) : list Pug.t :=
  take (Z.to_nat limit) (stable_sort leb (rows_where P (Db.pugs db))).

Definition plays_in (player_id : PlayerId) (db : Db.t) (p : Pug.t) : bool :=
  bool_decide (is_Some (Db.pug_players db !! (Pug.id p, player_id))).
Definition list_by_participant (player_id : PlayerId) (limit : Z) : M (list Pug.t) :=
  mread (λ db, page newest limit (plays_in player_id db) db).

Definition count_active_created_by (user_id : UserId) : M Z :=
  mread (λ db, Z.of_nat (length (rows_where (λ p, bool_decide (Pug.created_by_user_id p = user_id)
    && negb (PugStatus.is_terminal (Pug.status p))) (Db.pugs db)))).

Definition list_open_listed (game_id : option GameId) (limit : Z) : M (list Pug.t) :=
  mread (page newest limit (λ p, bool_decide (Pug.status p = PugStatus.Gathering) && Pug.listed p
    && from_option (λ g, bool_decide (Pug.game_id p = g)) true game_id)).
Definition list_recent_completed (limit : Z) : M (list Pug.t) :=
  mread (page completed_last limit (λ p, bool_decide (Pug.status p = PugStatus.Completed))).

(** [UPDATE pugs SET .. WHERE id = $1 AND ..]: the row, when one was updated; a
    trigger stamps [updated_at]. *)
Definition update_pug (id : PugId) (where_ : Pug.t → bool) (set : DateTime → Pug.t → Pug.t)
    : M (option Pug.t) := λ db,
  match Db.pugs db !! id with
  | Some p =>
      if where_ p then
        let p := (set (Db.now db) p) <| Pug.updated_at := Db.now db |> in
        (Ok (Some p), db <| Db.pugs := <[id := p]> (Db.pugs db) |>)
      else (Ok None, db)
  | None => (Ok None, db)
  end.

Definition transition_status (id : PugId) (expected next : PugStatus.t) : M (option Pug.t) :=
  update_pug id (λ p, bool_decide (Pug.status p = expected)) (λ _ p, p <| Pug.status := next |>).

Definition set_status (id : PugId) (status : PugStatus.t) : M unit :=
  let* _ := update_pug id (λ _, true) (λ _ p, p <| Pug.status := status |>) in mret tt.

Definition set_join_code (id : PugId) (join_code : string) : M unit := λ db,
  if bool_decide (is_Some (Db.pugs db !! id)) && code_taken db id join_code
  then pug_error (constraint_violation "uq_pugs_join_code") db
  else (let* _ := update_pug id (λ _, true) (λ _ p, p <| Pug.join_code := join_code |>) in mret tt) db.

Definition set_materialized (id : PugId) (tournament_id : TournamentId) (match_id : TournamentMatchId)
    : M bool :=
  let* updated := update_pug id
    (λ p, bool_decide (Pug.status p = PugStatus.MapSelection) && negb (Pug.is_materialized p))
    (λ _ p, p <| Pug.tournament_id := Some tournament_id |> <| Pug.match_id := Some match_id |>) in
  mret (bool_decide (is_Some updated)).

(** A late result does not bring a cancelled or expired lobby back. *)
Definition set_result (id : PugId) (winner_team team1_score team2_score : Z) : M unit :=
  let* _ := update_pug id
    (λ p, negb (bool_decide (Pug.status p = PugStatus.Cancelled)) && negb (bool_decide (Pug.status p = PugStatus.Expired)))
    (λ now p, p <| Pug.winner_team := Some winner_team |> <| Pug.team1_score := Some team1_score |>
                <| Pug.team2_score := Some team2_score |> <| Pug.completed_at := Some now |>
                <| Pug.status := PugStatus.Completed |>) in
  mret tt.

Definition list_expired_gathering (now : DateTime) (limit : Z) : M (list Pug.t) :=
  mread (page expires_first limit (λ p, bool_decide (Pug.status p = PugStatus.Gathering)
    && bool_decide (Pug.expires_at p < now))).
Definition list_stalled_materialized (cutoff : DateTime) (limit : Z) : M (list Pug.t) :=
  mread (page idle_longest limit (λ p, bool_decide (Pug.status p ∈ [PugStatus.MapSelection; PugStatus.AwaitingServer])
    && bool_decide (Pug.updated_at p < cutoff))).

(** [tm.status IN ('completed', 'cancelled', 'forfeit')]. *)
Definition match_over (db : Db.t) (p : Pug.t) : bool :=
  match Pug.match_id p ≫= λ id, Db.matches db !! id with
  | Some m => bool_decide (TournamentMatch.status m ∈
      [TournamentMatchStatus.Completed; TournamentMatchStatus.Cancelled; TournamentMatchStatus.Forfeit])
  | None => false
  end.
Definition list_desynced_with_match (limit : Z) : M (list Pug.t) :=
  mread (λ db, page idle_longest limit (λ p,
    bool_decide (Pug.status p ∈ [PugStatus.MapSelection; PugStatus.AwaitingServer; PugStatus.Live])
    && match_over db p) db).

(** *** Players *)

Definition is_participant (pug_id : PugId) (player_id : PlayerId) : M bool :=
  mread (λ db, bool_decide (is_Some (Db.pug_players db !! (pug_id, player_id)))).

Definition count_players (pug_id : PugId) : M Z := mread (λ db, Z.of_nat (length (members pug_id db))).

(** [INSERT .. SELECT .. WHERE (SELECT COUNT( * ) ..) < $3 ON CONFLICT DO NOTHING]. *)
Definition add_player (pug_id : PugId) (player_id : PlayerId) (max_players : Z) : M bool := λ db,
  if bool_decide (Z.of_nat (length (members pug_id db)) < max_players)
     && bool_decide (Db.pug_players db !! (pug_id, player_id) = None)
  then
    if known_player player_id db
    then (Ok true, put_members (<[(pug_id, player_id) := PugMember.mk None false (Db.now db)]>
                      (Db.pug_players db)) db)
    else pug_error (constraint_violation "pug_players_player_id_fkey") db
  else is_participant pug_id player_id db.

Definition remove_player (pug_id : PugId) (player_id : PlayerId) : M unit := transaction (
  let* _ := mwrite (λ db, put_members (delete (pug_id, player_id) (Db.pug_players db)) db) in
  mwrite (λ db, db <| Db.pug_wheel_entries := delete (pug_id, player_id) (Db.pug_wheel_entries db) |>)).

(** [COALESCE(p.steam_id ~ '^[0-9]+$', FALSE)]. *)
Definition has_steam_id (c : PlayerColumns.t) : bool :=
  match PlayerColumns.steam_id c with
  | Some s => negb (String.eqb s "") && str_forall is_digit s
  | None => false
  end.

Definition player_row (pug_id : PugId) (player_id : PlayerId) (m : PugMember.t) (c : PlayerColumns.t)
    : PugPlayer.t := {|
  PugPlayer.pug_id := pug_id;
  PugPlayer.player_id := player_id;
  PugPlayer.user_id := PlayerColumns.user_id c;
  PugPlayer.display_name := PlayerColumns.display_name c;
  PugPlayer.avatar_url := PlayerColumns.avatar_url c;
  PugPlayer.has_steam_id := has_steam_id c;
  PugPlayer.team := PugMember.team m;
  PugPlayer.is_captain := PugMember.is_captain m;
  PugPlayer.joined_at := PugMember.joined_at m |}.

(** [ORDER BY pp.joined_at]. *)
Definition joined_first (a b : PugPlayer.t) : bool :=
  bool_decide (PugPlayer.joined_at a ≤ PugPlayer.joined_at b).

(** [pug_players pp JOIN players p ON p.id = pp.player_id]. *)
Definition roster (pug_id : PugId) (db : Db.t) : list PugPlayer.t :=
  stable_sort joined_first
    (omap (λ '(player, m), player_row pug_id player m <$> Db.players db !! player) (members pug_id db)).
Definition list_players (pug_id : PugId) : M (list PugPlayer.t) := mread (roster pug_id).

Definition filter_participating (player_id : PlayerId) (pug_ids : list PugId) : M (list PugId) :=
  mread (λ db, omap (λ '((pug, player), _),
    if bool_decide (player = player_id) && bool_decide (pug ∈ pug_ids) then Some pug else None)
    (map_to_list (Db.pug_players db))).

Definition on_team (team : Z) (row : PlayerId * PugMember.t) : bool :=
  bool_decide (PugMember.team row.2 = Some team).

(** The others on the team. *)
Definition taken (pug_id : PugId) (player_id : PlayerId) (team : Z) (db : Db.t) : Z :=
  Z.of_nat (length (filter (λ row, on_team team row && negb (bool_decide (row.1 = player_id)) = true)
    (members pug_id db))).

Definition set_player_team (pug_id : PugId) (player_id : PlayerId) (team : option Z) (team_capacity : Z)
    : M bool := λ db,
  match Db.pug_players db !! (pug_id, player_id) with
  | Some m =>
      if from_option (λ t, bool_decide (taken pug_id player_id t db < team_capacity)) true team
      then (Ok true, put_members (<[(pug_id, player_id) := m <| PugMember.team := team |>]> (Db.pug_players db)) db)
      else (Ok false, db)
  | None => (Ok false, db)
  end.

Definition alter_member (pug_id : PugId) (player_id : PlayerId) (set : PugMember.t → PugMember.t) : M unit :=
  mwrite (λ db, put_members (alter set (pug_id, player_id) (Db.pug_players db)) db).
Definition set_player_captain (pug_id : PugId) (player_id : PlayerId) (is_captain : bool) : M unit :=
  alter_member pug_id player_id (λ m, m <| PugMember.is_captain := is_captain |>).

Definition assign_teams (pug_id : PugId) (assignments : list (PlayerId * option Z)) : M unit :=
  transaction (mfor assignments (λ '(player_id, team),
    alter_member pug_id player_id (λ m, m <| PugMember.team := team |>))).

(** [SET team = 3 - team]. *)
Definition mirrored (m : PugMember.t) : PugMember.t :=
  m <| PugMember.team := (λ t, 3 - t) <$> PugMember.team m |>.
Definition swap_teams (pug_id : PugId) : M unit :=
  mwrite (λ db, put_members (map_imap (λ '(pug, _) m,
    Some (if bool_decide (pug = pug_id) then mirrored m else m)) (Db.pug_players db)) db).

(** *** The wheel *)

Definition upsert_wheel_entry (pug_id : PugId) (player_id : PlayerId) (map_id : string) : M unit :=
  mwrite (λ db, db <| Db.pug_wheel_entries :=
    <[(pug_id, player_id) := PugNomination.mk map_id (Db.now db)]> (Db.pug_wheel_entries db) |>).

(** [ORDER BY we.created_at]. *)
Definition nominated_first (a b : PugWheelEntry.t) : bool :=
  bool_decide (PugWheelEntry.created_at a ≤ PugWheelEntry.created_at b).
Definition wheel_entries_of (pug_id : PugId) (db : Db.t) : list PugWheelEntry.t :=
  stable_sort nominated_first (omap (λ '((pug, player), e),
    if bool_decide (pug = pug_id) then
      (λ c, PugWheelEntry.mk pug player (PlayerColumns.display_name c) (PugNomination.map_id e)
              (PugNomination.created_at e)) <$> Db.players db !! player
    else None) (map_to_list (Db.pug_wheel_entries db))).
Definition list_wheel_entries (pug_id : PugId) : M (list PugWheelEntry.t) := mread (wheel_entries_of pug_id).

Definition spin_of (cmd : CreateWheelSpin.t) (s : PugWheelSpin.t) : bool :=
  bool_decide (PugWheelSpin.pug_id s = CreateWheelSpin.pug_id cmd)
  && bool_decide (PugWheelSpin.game_number s = CreateWheelSpin.game_number cmd).

(** [ON CONFLICT (pug_id, game_number) DO UPDATE SET game_number = EXCLUDED.game_number
    RETURNING *]: the spin already recorded, when there is one. *)
Definition record_spin (cmd : CreateWheelSpin.t) : M PugWheelSpin.t := λ db,
  match head (filter (λ s, spin_of cmd s = true) (Db.pug_wheel_spins db)) with
  | Some s => (Ok s, db)
  | None =>
      let s := PugWheelSpin.mk _ (Db.next_uuid db) (CreateWheelSpin.pug_id cmd) (CreateWheelSpin.game_number cmd)
        (CreateWheelSpin.entries cmd) (CreateWheelSpin.winner_map_id cmd) (CreateWheelSpin.spin_seed cmd)
        (CreateWheelSpin.spun_by_player_id cmd) (Db.now db) in
      (Ok s, db <| Db.next_uuid := N.succ (Db.next_uuid db) |>
                <| Db.pug_wheel_spins := Db.pug_wheel_spins db ++ [s] |>)
  end.

(** [ORDER BY game_number]. *)
Definition earlier_game (a b : PugWheelSpin.t) : bool :=
  bool_decide (PugWheelSpin.game_number a ≤ PugWheelSpin.game_number b).
Definition list_spins (pug_id : PugId) : M (list PugWheelSpin.t) :=
  mread (λ db, stable_sort earlier_game
    (filter (λ s, PugWheelSpin.pug_id s = pug_id) (Db.pug_wheel_spins db))).
End repository.
End PugRepository.

(** ** The service *)

Module WheelSegment.
Record t := mk { map_id : string; weight : Z; nominated_by : list string }.
#[global] Instance eta_t : Eta t := λ r, mk (r.(map_id)) (r.(weight)) (r.(nominated_by)).
End WheelSegment.

Module WheelDraw.
Record t := mk { segments : list WheelSegment.t; winner_map_id : string; spin_seed : Z }.
End WheelDraw.

Module LockPlan.
Record t := mk {
  pug : Pug.t;
  team1 : list PugPlayer.t;
  team2 : list PugPlayer.t;
  map_pool_hint : list string;
  veto_format_id : string;
}.
End LockPlan.

(** [util::random_code]: the draw of the [i]-th character is an index below the
    size of the alphabet. *)
Definition random_code (draw : nat → nat → nat) (alphabet : string) (len : nat) : string :=
  String.string_of_list_ascii
    (omap (λ i, String.list_ascii_of_string alphabet !! draw i (String.length alphabet)) (seq 0 len)).

(** [usize::try_from(n).unwrap_or(usize::MAX)]. *)
Definition usize_or_max (n : Z) : Z := if bool_decide (0 ≤ n) then n else 2 ^ 64 - 1.

Module PugService.
Section service.
Context `{Platform}.
Import PugRepository.

Definition GATHERING_TTL_HOURS : Z := 2.
Definition MAX_ACTIVE_CREATED : Z := 2.
Definition BENCH_SLOTS : Z := 4.
Definition CODE_ALPHABET : string := "ABCDEFGHJKMNPQRSTVWXYZ23456789".
Definition CODE_LENGTH : nat := 10.
Definition generate_join_code (draw : nat → nat → nat) : string := random_code draw CODE_ALPHABET CODE_LENGTH.

Definition invalid {A} (message : string) : M A := mthrow (DomainError.InvalidState message).

(** *** Creation and reading *)

Definition create (draw : nat → nat → nat) (game_id : GameId) (creator_user : UserId) (creator_player : PlayerId)
    (match_format : MatchFormat.t) (map_selection_mode : PugMapSelectionMode.t)
    (side_selection_mode : SideSelectionMode.t) (team_size : Z) (region : option string)
    (map_pool : option (list string)) (listed : bool) : M Pug.t :=
  let needed := MatchFormat.game_count match_format `max` 2 in
  if negb (bool_decide (1 ≤ team_size ≤ 16)) then invalid "Team size must be between 1 and 16"
  else if bool_decide (map_selection_mode = PugMapSelectionMode.Wheel)
          && bool_decide (side_selection_mode = SideSelectionMode.PickerChoice)
  then invalid "Wheel mode supports knife or coin-flip side selection only"
  else if from_option (λ pool, bool_decide (Z.of_nat (length pool) < needed)) false map_pool
  then invalid ("Custom map pool needs at least " +:+ pretty needed +:+ " maps for " +:+ MatchFormat.fmt match_format)
  else
    let* active := count_active_created_by creator_user in
    if bool_decide (MAX_ACTIVE_CREATED ≤ active)
    then mthrow (DomainError.Conflict ("You already have " +:+ pretty active
           +:+ " active PUGs — finish or cancel one first"))
    else
      let* now := mread Db.now in
      PugRepository.create {|
        CreatePug.game_id := game_id;
        CreatePug.created_by_user_id := creator_user;
        CreatePug.creator_player_id := creator_player;
        CreatePug.join_code := generate_join_code draw;
        CreatePug.match_format := match_format;
        CreatePug.map_selection_mode := map_selection_mode;
        CreatePug.side_selection_mode := side_selection_mode;
        CreatePug.team_size := team_size;
        CreatePug.region := region;
        CreatePug.map_pool := map_pool;
        CreatePug.listed := listed;
        CreatePug.expires_at := now + minutes (60 * GATHERING_TTL_HOURS) |}.

Definition get (id : PugId) : M Pug.t :=
  let* p := find_by_id id in
  mlift (ok_or p (Error (DomainError.LookupFailed "pug" ("id " +:+ uuid_string id)))).
Definition get_by_code (code : string) : M Pug.t :=
  let* p := find_by_join_code code in
  mlift (ok_or p (Error (DomainError.LookupFailed "pug" "join code"))).
Definition players (id : PugId) : M (list PugPlayer.t) := list_players id.
Definition wheel_entries (id : PugId) : M (list PugWheelEntry.t) := list_wheel_entries id.

Definition require_creator (pug : Pug.t) (user : UserId) : M unit :=
  if bool_decide (Pug.created_by_user_id pug = user) then mret tt
  else mthrow (DomainError.NotAuthorized "Only the PUG creator can do that").

(** Only while the lobby gathers. *)
Definition require_open (pug : Pug.t) (message : string) : M unit :=
  if Pug.is_open pug then mret tt else invalid message.

Definition authorize_view (pug : Pug.t) (viewer_player : option PlayerId) (provided_code : option string) : M unit :=
  let* inside := match viewer_player with
    | Some player => is_participant (Pug.id pug) player
    | None => mret false
    end in
  if inside : bool then mret tt
  else if bool_decide (provided_code = Some (Pug.join_code pug)) then mret tt
  else if Pug.listed pug || PugStatus.is_terminal (Pug.status pug) then mret tt
  else mthrow (DomainError.NotAuthorized "This PUG lobby is private — use the invite link").

(** *** Membership *)

Definition join_by_code (code : string) (player : PlayerId) : M Pug.t :=
  let* pug := get_by_code code in
  let* inside := is_participant (Pug.id pug) player in
  if inside : bool then mret pug
  else
    let* _ := require_open pug "This PUG is no longer accepting players" in
    let* added := add_player (Pug.id pug) player (Pug.team_size pug * 2 + BENCH_SLOTS) in
    if added : bool then mret pug else mthrow (DomainError.Conflict "This PUG lobby is full").

Definition leave (pug_id : PugId) (player : PlayerId) (user : UserId) : M unit :=
  let* pug := get pug_id in
  let* _ := require_open pug "Cannot leave after the lobby has locked" in
  if bool_decide (Pug.created_by_user_id pug = user)
  then invalid "The creator cannot leave — cancel the PUG instead"
  else remove_player pug_id player.

Definition kick (pug_id : PugId) (actor_user : UserId) (target : PlayerId) (creator_player : option PlayerId)
    : M unit :=
  let* pug := get pug_id in
  let* _ := require_creator pug actor_user in
  let* _ := require_open pug "Cannot kick after the lobby has locked" in
  if bool_decide (creator_player = Some target) then invalid "The creator cannot kick themself"
  else remove_player pug_id target.

(** *** Teams *)

Definition set_team (pug_id : PugId) (actor_user : UserId) (actor_player target : PlayerId) (team : option Z)
    : M unit :=
  let* pug := get pug_id in
  let* _ := require_open pug "Teams are locked once the lobby locks" in
  let* _ := if bool_decide (target = actor_player) then mret tt else require_creator pug actor_user in
  let* _ := match team with
    | Some t =>
        if negb (bool_decide (t = 1 ∨ t = 2)) then invalid "Team must be 1 or 2"
        else
          let* inside := is_participant pug_id target in
          if inside : bool then mret tt
          else mthrow (DomainError.NotAuthorized "Player is not in this lobby")
    | None => mret tt
    end in
  let* moved := set_player_team pug_id target team (Pug.team_size pug) in
  if moved : bool then mret tt
  else mthrow (DomainError.Conflict "That team is full (or the player left)").

Definition set_captain (pug_id : PugId) (actor_user : UserId) (target : PlayerId) (is_captain : bool) : M unit :=
  let* pug := get pug_id in
  let* _ := require_creator pug actor_user in
  let* _ := require_open pug "Captains are fixed once the lobby locks" in
  set_player_captain pug_id target is_captain.

(** Dealt alternately; those beyond two full teams go to the bench. *)
Definition deal (team_size : Z) (ids : list PlayerId) : list (PlayerId * option Z) :=
  imap (λ i id, (id, if bool_decide (Z.of_nat i `div` 2 < team_size) then Some (Z.of_nat i `mod` 2 + 1) else None)) ids.

(** [shuffled] is what [SliceRandom::shuffle] makes of a list. *)
Definition shuffle (shuffled : list PlayerId → list PlayerId) (pug_id : PugId) (actor_user : UserId) : M unit :=
  let* pug := get pug_id in
  let* _ := require_creator pug actor_user in
  let* _ := require_open pug "Teams are locked once the lobby locks" in
  let* players := list_players pug_id in
  assign_teams pug_id (deal (usize_or_max (Pug.team_size pug)) (shuffled (PugPlayer.player_id <$> players))).

Definition swap_teams (pug_id : PugId) (actor_user : UserId) : M unit :=
  let* pug := get pug_id in
  let* _ := require_creator pug actor_user in
  let* _ := require_open pug "Teams are locked once the lobby locks" in
  PugRepository.swap_teams pug_id.

Definition team_count (players : list PugPlayer.t) (team : Z) : Z :=
  Z.of_nat (length (filter (λ p, PugPlayer.team p = Some team) players)).

(** Whose pick it is: the team with fewer players, team 1 on a tie. *)
Definition picking_team (players : list PugPlayer.t) (team_size : Z) : option Z :=
  let cap := usize_or_max team_size in
  let team1 := team_count players 1 in
  let team2 := team_count players 2 in
  if bool_decide (cap ≤ team1) && bool_decide (cap ≤ team2) then None
  else if bool_decide (team2 < team1) && bool_decide (team2 < cap) then Some 2
  else if bool_decide (team1 ≤ team2) && bool_decide (team1 < cap) then Some 1
  else Some 2.

Definition draft_pick (pug_id : PugId) (actor_user : UserId) (actor_player target : PlayerId) : M Z :=
  let* pug := get pug_id in
  let* _ := require_open pug "Drafting ends when the lobby locks" in
  let* players := list_players pug_id in
  match head (filter (λ p, PugPlayer.player_id p = target) players) with
  | None => mthrow (DomainError.NotAuthorized "Player is not in this lobby")
  | Some on_bench =>
      if bool_decide (is_Some (PugPlayer.team on_bench)) then invalid "That player is already on a team"
      else
        match picking_team players (Pug.team_size pug) with
        | None => mthrow (DomainError.Conflict "Both teams are full")
        | Some picking =>
            let is_picking_captain := existsb (λ p, bool_decide (PugPlayer.player_id p = actor_player)
              && PugPlayer.is_captain p && bool_decide (PugPlayer.team p = Some picking)) players in
            if negb (bool_decide (Pug.created_by_user_id pug = actor_user)) && negb is_picking_captain
            then mthrow (DomainError.NotAuthorized ("It is team " +:+ pretty picking
                   +:+ "'s pick — only their captain (or the creator) can draft"))
            else
              let* moved := set_player_team pug_id target (Some picking) (Pug.team_size pug) in
              if moved : bool then mret picking
              else mthrow (DomainError.Conflict ("Team " +:+ pretty picking
                     +:+ " filled up before the pick landed"))
        end
  end.

(** *** The invitation *)

Definition rotate_code (draw : nat → nat → nat) (pug_id : PugId) (actor_user : UserId) : M string :=
  let* pug := get pug_id in
  let* _ := require_creator pug actor_user in
  let* _ := require_open pug "The invite code is dead once the lobby locks" in
  let code := generate_join_code draw in
  let* _ := set_join_code pug_id code in
  mret code.

(** *** The wheel *)

Definition nominate_map (pug_id : PugId) (player : PlayerId) (map_id : string) : M unit :=
  let* pug := get pug_id in
  if negb (bool_decide (Pug.map_selection_mode pug = PugMapSelectionMode.Wheel))
  then invalid "This PUG uses map veto, not the wheel"
  else
    let* _ := require_open pug "Nominations close when the lobby locks" in
    let* inside := is_participant pug_id player in
    if negb inside then mthrow (DomainError.NotAuthorized "Only lobby players can nominate maps")
    else if bool_decide (map_id = "") || bool_decide (64 < String.length map_id)%nat
    then invalid "Invalid map id"
    else upsert_wheel_entry pug_id player map_id.

(** One nomination, in the loop over them. *)
Definition count_nomination (allowed : list string) (by_map : gmap string WheelSegment.t) (entry : PugWheelEntry.t)
    : gmap string WheelSegment.t :=
  let m := PugWheelEntry.map_id entry in
  if negb (bool_decide (m ∈ allowed)) then by_map
  else
    let s := match by_map !! m with
      | Some s => s <| WheelSegment.weight := as_u32 (WheelSegment.weight s + 1) |>
                    <| WheelSegment.nominated_by := WheelSegment.nominated_by s ++ [PugWheelEntry.player_name entry] |>
      | None => WheelSegment.mk m 1 [PugWheelEntry.player_name entry]
      end in
    <[m := s]> by_map.

(** A map of the pool nobody nominated. *)
Definition pad (by_map : gmap string WheelSegment.t) (map_id : string) : gmap string WheelSegment.t :=
  match by_map !! map_id with
  | Some _ => by_map
  | None => <[map_id := WheelSegment.mk map_id 1 []]> by_map
  end.

Definition by_map_id (a b : WheelSegment.t) : bool :=
  String.leb (WheelSegment.map_id a) (WheelSegment.map_id b).

Definition build_segments (entries : list PugWheelEntry.t) (allowed : list string) : list WheelSegment.t :=
  stable_sort by_map_id
    (map_to_list (fold_left pad allowed (fold_left (count_nomination allowed) entries ∅))).*2.

Definition total_weight (segments : list WheelSegment.t) : Z :=
  fold_left (λ total s, as_u32 (total + WheelSegment.weight s)) segments 0.

(** The loop of the draw: the segment the roll falls in, or [winner]. *)
Fixpoint spin (segments : list WheelSegment.t) (roll : Z) (winner : string) : string :=
  match segments with
  | [] => winner
  | segment :: segments =>
      if bool_decide (roll < WheelSegment.weight segment) then WheelSegment.map_id segment
      else spin segments (roll - WheelSegment.weight segment) winner
  end.

(** [range total] is the roll [random_range(0..total)], [seed] the animation's. *)
Definition draw (range : Z → Z) (seed : Z) (segments : list WheelSegment.t) : outcome WheelDraw.t :=
  let total := total_weight segments in
  if bool_decide (total = 0) then throw (DomainError.InvalidState "No maps available to spin for")
  else
    let roll := range total in
    match last segments with
    | None => throw (DomainError.InvalidState "No maps available to spin for")
    | Some s => Ok (WheelDraw.mk segments (spin segments roll (WheelSegment.map_id s)) seed)
    end.

(** *** The lock *)

(** [contains] before [push]. *)
Definition push_unique (unique : list string) (map_id : string) : list string :=
  if bool_decide (map_id ∈ unique) then unique else unique ++ [map_id].

Definition lock_maps (pug_id : PugId) (pug : Pug.t) : M (list string * string) :=
  match Pug.map_selection_mode pug with
  | PugMapSelectionMode.Veto =>
      mret (default [] (Pug.map_pool pug), MatchFormat.fmt (Pug.match_format pug) +:+ "_standard")
  | PugMapSelectionMode.Wheel =>
      let* entries := list_wheel_entries pug_id in
      mret (stable_sort String.leb (fold_left push_unique (PugWheelEntry.map_id <$> entries) []),
            "wheel_bo" +:+ pretty (MatchFormat.game_count (Pug.match_format pug)))
  end.

Definition team_of (players : list PugPlayer.t) (team : Z) : list PugPlayer.t :=
  filter (λ p, PugPlayer.team p = Some team) players.

Definition lockable (pug : Pug.t) (frozen : bool) : bool :=
  if frozen then bool_decide (Pug.status pug = PugStatus.MapSelection) && negb (Pug.is_materialized pug)
  else Pug.is_open pug.

Definition prepare_lock (pug_id : PugId) (actor_user : UserId) (actor_player : PlayerId) (force frozen : bool)
    : M LockPlan.t :=
  let* pug := get pug_id in
  if negb (lockable pug frozen) then mthrow (DomainError.Conflict "This PUG is already locked")
  else
    let* players := list_players pug_id in
    let is_captain := existsb (λ p, bool_decide (PugPlayer.player_id p = actor_player) && PugPlayer.is_captain p)
      players in
    if negb (bool_decide (Pug.created_by_user_id pug = actor_user)) && negb is_captain
    then mthrow (DomainError.NotAuthorized "Only the creator or a captain can lock the lobby")
    else
      let team1 := team_of players 1 in
      let team2 := team_of players 2 in
      let full := usize_or_max (Pug.team_size pug) in
      let size l := Z.of_nat (length (l : list PugPlayer.t)) in
      if bool_decide (team1 = []) || bool_decide (team2 = [])
      then invalid "Both teams need at least one player"
      else if negb force && (negb (bool_decide (size team1 = full)) || negb (bool_decide (size team2 = full)))
      then invalid ("Teams are not full (" +:+ pretty (size team1) +:+ "v" +:+ pretty (size team2) +:+ ", need "
             +:+ pretty full +:+ "v" +:+ pretty full +:+ ") — use force to start anyway")
      else
        let missing := PugPlayer.display_name <$>
          filter (λ p, PugPlayer.has_steam_id p = false) (team1 ++ team2) in
        if negb (bool_decide (missing = []))
        then invalid ("These players have no linked Steam account: " +:+ String.concat ", " missing)
        else
          let* maps := lock_maps pug_id pug in
          mret (LockPlan.mk pug team1 team2 maps.1 maps.2).
End service.
End PugService.
