(* ===== verification/PugProps.v ===== *)
(** Pick-up games: lobbies stay within their size, a locked one does not change, the
    draft and the shuffle balance the teams, and the wheel is fair. *)
From stdpp Require Import base list strings gmap pretty.
From S2P Require Import Prelude Errors Wire TournamentTypes CoreEnums FormatPlan Entities BracketModel VetoModel Rows.
From S2P Require Import PugModel Store TournamentStore StoreFacts RegistrationFacts ClaimFacts Pug Samples.
#[local] Open Scope Z_scope.

(** ** Strings in order *)

Lemma string_leb_trans (a b c : string) :
  String.leb a b = true → String.leb b c = true → String.leb a c = true.
Proof.
  unfold String.leb. revert b c. induction a as [|x a IH]; intros [|y b] [|z c]; cbn; try done.
  unfold Ascii.compare. intros Hab Hbc.
  destruct (N.compare_spec (Ascii.N_of_ascii x) (Ascii.N_of_ascii y)) as [Exy|Exy|Exy]; [|  |done];
  destruct (N.compare_spec (Ascii.N_of_ascii y) (Ascii.N_of_ascii z)) as [Eyz|Eyz|Eyz]; try done;
  destruct (N.compare_spec (Ascii.N_of_ascii x) (Ascii.N_of_ascii z)) as [Exz|Exz|Exz]; try done; try lia.
  by eapply IH.
Qed.

(** ** The wheel *)

(** A roll lands on a map for as many rolls as its segment weighs. *)
Section wheel.
Context `{Platform}.

Fixpoint weights (segments : list WheelSegment.t) : Z :=
  match segments with
  | [] => 0
  | s :: segments => WheelSegment.weight s + weights segments
  end.
Definition weighted (s : WheelSegment.t) : Prop := 0 < WheelSegment.weight s.

Lemma weights_nonneg segments : Forall weighted segments → 0 ≤ weights segments.
Proof. induction 1 as [|s segments Hs _ IH]; cbn; [lia|]. unfold weighted in Hs. lia. Qed.

Lemma total_weight_from segments acc :
  Forall weighted segments → 0 ≤ acc → acc + weights segments < 2 ^ 32 →
  fold_left (λ n s, as_u32 (n + WheelSegment.weight s)) segments acc = acc + weights segments.
Proof.
  intros Hw. revert acc. induction Hw as [|s segments Hs Hw IH]; intros acc H0 Hsmall; cbn in *; [lia|].
  pose proof (weights_nonneg _ Hw). unfold weighted in Hs. unfold as_u32. rewrite Z.mod_small by lia.
  rewrite IH; lia.
Qed.

Lemma spin_range segments w r :
  Forall weighted segments → 0 ≤ r < weights segments →
  PugService.spin segments r w ∈ WheelSegment.map_id <$> segments.
Proof.
  intros Hw. revert r. induction Hw as [|s segments Hs Hw IH]; intros r Hr; cbn in *; [lia|].
  case_bool_decide; [by left|]. right. apply IH. lia.
Qed.

(** Past the first segment, the rest decides. *)
Lemma spin_past s segments w m rs :
  (∀ r, r ∈ rs → 0 ≤ r) →
  length (filter (λ r, PugService.spin (s :: segments) r w = m) (Z.add (WheelSegment.weight s) <$> rs)) =
  length (filter (λ r, PugService.spin segments r w = m) rs).
Proof.
  induction rs as [|r rs IH]; intros Hrs; [done|]. rewrite fmap_cons, !filter_cons.
  assert (0 ≤ r) by (apply Hrs; apply list_elem_of_here).
  assert (PugService.spin (s :: segments) (WheelSegment.weight s + r) w = PugService.spin segments r w) as ->.
  { cbn. rewrite bool_decide_false by lia. f_equal. lia. }
  destruct (decide (PugService.spin segments r w = m)); cbn [length]; rewrite IH; try done;
    intros r' Hr'; apply Hrs; by apply list_elem_of_further.
Qed.

Lemma spin_counts segments w m :
  Forall weighted segments → NoDup (WheelSegment.map_id <$> segments) →
  Z.of_nat (length (filter (λ r, PugService.spin segments r w = m) (seqZ 0 (weights segments)))) =
  default 0 (WheelSegment.weight <$> head (filter (λ s, WheelSegment.map_id s = m) segments)).
Proof.
  induction 1 as [|s segments Hs Hw IH]; intros Hnd; [done|]. cbn [weights].
  rewrite fmap_cons in Hnd. apply NoDup_cons in Hnd as [Hnew Hnd]. pose proof (weights_nonneg _ Hw).
  unfold weighted in Hs. rewrite seqZ_app, filter_app, length_app, Nat2Z.inj_add by lia.
  assert (filter (λ r, PugService.spin (s :: segments) r w = m) (seqZ 0 (WheelSegment.weight s)) =
    if decide (WheelSegment.map_id s = m) then seqZ 0 (WheelSegment.weight s) else []) as ->.
  { destruct (decide (WheelSegment.map_id s = m)) as [Heq|Hne]; [apply filter_all|apply filter_none];
      intros r Hr%elem_of_seqZ; cbn; rewrite bool_decide_true by lia; done. }
  replace (0 + WheelSegment.weight s) with (WheelSegment.weight s + 0) by lia.
  rewrite <- fmap_add_seqZ, spin_past by (intros r [? _]%elem_of_seqZ; lia). rewrite IH, filter_cons by done.
  destruct (decide (WheelSegment.map_id s = m)) as [<-|Hne]; cbn; [|lia].
  rewrite length_seqZ, filter_none.
  - cbn. lia.
  - intros s' Hs' Heq. apply Hnew. apply list_elem_of_fmap. by exists s'.
Qed.

(** *** The segments *)

Definition nominations (entries : list PugWheelEntry.t) (m : string) : list PugWheelEntry.t :=
  filter (λ e, PugWheelEntry.map_id e = m) entries.
Definition votes (entries : list PugWheelEntry.t) (m : string) : Z := Z.of_nat (length (nominations entries m)).

(** The reference: a map weighs its nominations, at least one. *)
Definition segment_of (entries : list PugWheelEntry.t) (m : string) : WheelSegment.t :=
  WheelSegment.mk m (1 `max` votes entries m) (PugWheelEntry.player_name <$> nominations entries m).

Lemma count_nominations allowed entries m :
  Z.of_nat (length entries) < 2 ^ 32 →
  fold_left (PugService.count_nomination allowed) entries ∅ !! m =
  if decide (m ∈ allowed ∧ nominations entries m ≠ []) then Some (segment_of entries m) else None.
Proof.
  induction entries as [|e entries IH] using rev_ind; intros Hlen.
  { rewrite decide_False by (intros [_ []]; done). apply lookup_empty. }
  rewrite length_app in Hlen. cbn in Hlen. specialize (IH ltac:(lia)).
  rewrite fold_left_app. cbn [fold_left]. unfold PugService.count_nomination at 1.
  set (by_map := fold_left _ entries ∅) in *. set (m' := PugWheelEntry.map_id e).
  assert (nominations (entries ++ [e]) m = nominations entries m ++ (if decide (m' = m) then [e] else [])) as Hnom
    by (unfold nominations; rewrite filter_app, filter_cons, filter_nil; done).
  destruct (decide (m' ∈ allowed)) as [Hall|Hall].
  2: { rewrite bool_decide_false by done. cbn [negb]. rewrite IH. destruct (decide (m' = m)) as [<-|Hne].
       - rewrite !decide_False by tauto. done.
       - unfold segment_of, votes. by rewrite Hnom, app_nil_r. }
  rewrite bool_decide_true by done. cbn [negb]. destruct (decide (m' = m)) as [<-|Hne].
  - rewrite lookup_insert_eq, decide_True by (rewrite Hnom; split; [done|by destruct (nominations entries m')]).
    f_equal. rewrite IH. unfold segment_of, votes. rewrite Hnom, length_app, fmap_app. cbn [length fmap list_fmap].
    assert (length (nominations entries m') ≤ length entries)%nat by apply length_filter.
    destruct (nominations entries m') as [|e0 es] eqn:Hn.
    + rewrite decide_False by (intros [_ []]; done). done.
    + rewrite decide_True by done. cbn -[as_u32 Z.max Z.of_nat] in *. unfold as_u32. f_equal.
      rewrite Z.mod_small by lia. lia.
  - rewrite lookup_insert_ne, IH by done. unfold segment_of, votes. by rewrite Hnom, app_nil_r.
Qed.

Lemma pad_lookup allowed by_map m :
  fold_left PugService.pad allowed by_map !! m =
  match by_map !! m with
  | Some s => Some s
  | None => if decide (m ∈ allowed) then Some (WheelSegment.mk m 1 []) else None
  end.
Proof.
  revert by_map. induction allowed as [|m' allowed IH]; intros by_map; cbn [fold_left].
  { destruct (by_map !! m); [done|]. by rewrite decide_False by apply not_elem_of_nil. }
  rewrite IH. unfold PugService.pad. destruct (by_map !! m') as [s'|] eqn:Hm'.
  - destruct (by_map !! m) eqn:Hm; [done|]. apply decide_ext. rewrite elem_of_cons.
    split; [by right|]. intros [->|]; [congruence|done].
  - destruct (decide (m' = m)) as [->|Hne].
    + rewrite lookup_insert_eq, Hm', decide_True by apply list_elem_of_here. done.
    + rewrite lookup_insert_ne by done. destruct (by_map !! m); [done|]. apply decide_ext.
      rewrite elem_of_cons. split; [by right|]. by intros [->|].
Qed.

Lemma segments_lookup entries allowed m :
  Z.of_nat (length entries) < 2 ^ 32 →
  fold_left PugService.pad allowed (fold_left (PugService.count_nomination allowed) entries ∅) !! m =
  if decide (m ∈ allowed) then Some (segment_of entries m) else None.
Proof.
  intros Hlen. rewrite pad_lookup, count_nominations by done. destruct (decide (m ∈ allowed)) as [Hall|Hall].
  - unfold segment_of, votes. destruct (nominations entries m) as [|e es] eqn:Hn.
    + rewrite decide_False by (intros [_ []]; done). done.
    + by rewrite decide_True.
  - rewrite decide_False by tauto. done.
Qed.

Lemma elem_of_segments entries allowed s :
  Z.of_nat (length entries) < 2 ^ 32 →
  s ∈ PugService.build_segments entries allowed ↔ ∃ m, m ∈ allowed ∧ s = segment_of entries m.
Proof.
  intros Hlen. unfold PugService.build_segments. rewrite stable_sort_perm, list_elem_of_fmap. split.
  - intros ([m s'] & -> & Hin%elem_of_map_to_list). rewrite segments_lookup in Hin by done.
    destruct (decide (m ∈ allowed)); [|done]. injection Hin as <-. by exists m.
  - intros (m & Hm & ->). exists (m, segment_of entries m). split; [done|]. apply elem_of_map_to_list.
    by rewrite segments_lookup, decide_True.
Qed.

Lemma segments_ids entries allowed :
  Z.of_nat (length entries) < 2 ^ 32 →
  NoDup (WheelSegment.map_id <$> PugService.build_segments entries allowed).
Proof.
  intros Hlen. unfold PugService.build_segments. rewrite stable_sort_perm.
  replace (WheelSegment.map_id <$> (map_to_list _).*2) with
    (map_to_list (fold_left PugService.pad allowed (fold_left (PugService.count_nomination allowed) entries ∅))).*1.
  - apply NoDup_fst_map_to_list.
  - rewrite <- list_fmap_compose. apply list_fmap_ext. intros i [m s] Hi%list_elem_of_lookup_2.
    apply elem_of_map_to_list in Hi. rewrite segments_lookup in Hi by done.
    destruct (decide (m ∈ allowed)); [|done]. by injection Hi as <-.
Qed.

Lemma segments_weighted entries allowed :
  Z.of_nat (length entries) < 2 ^ 32 → Forall weighted (PugService.build_segments entries allowed).
Proof.
  intros Hlen. apply Forall_forall. intros s (m & _ & ->)%elem_of_segments; [|done].
  unfold weighted, segment_of. cbn. lia.
Qed.

Lemma votes_total entries ms :
  NoDup ms → weights (segment_of entries <$> ms) ≤ Z.of_nat (length ms) + Z.of_nat (length entries).
Proof.
  intros Hnd. revert entries. induction Hnd as [|m ms Hm Hnd IH]; intros entries; [cbn; lia|].
  rewrite fmap_cons. cbn [weights]. specialize (IH (filter (λ e, PugWheelEntry.map_id e ≠ m) entries)).
  assert (segment_of (filter (λ e, PugWheelEntry.map_id e ≠ m) entries) <$> ms = segment_of entries <$> ms) as Heq.
  { apply list_fmap_ext. intros i m' Hi%list_elem_of_lookup_2.
    assert (m' ≠ m) as Hne by congruence.
    assert (nominations (filter (λ e, PugWheelEntry.map_id e ≠ m) entries) m' = nominations entries m') as Hn.
    { unfold nominations. rewrite list_filter_filter. apply list_filter_iff. intros e. split; [tauto|]. by intros <-. }
    unfold segment_of, votes. by rewrite Hn. }
  rewrite Heq in IH. unfold segment_of at 1, votes. cbn [WheelSegment.weight length].
  assert (length (nominations entries m) + length (filter (λ e, PugWheelEntry.map_id e ≠ m) entries) = length entries)%nat.
  { unfold nominations. clear. induction entries as [|e es IHe]; [done|]. rewrite !filter_cons.
    destruct (decide (PugWheelEntry.map_id e = m)) as [He|He].
    - rewrite decide_False by tauto. cbn. lia.
    - rewrite decide_True by done. cbn. lia. }
  lia.
Qed.

Lemma segments_total entries allowed :
  Z.of_nat (length entries) < 2 ^ 32 →
  weights (PugService.build_segments entries allowed) ≤ Z.of_nat (length allowed) + Z.of_nat (length entries).
Proof.
  intros Hlen. set (segs := PugService.build_segments entries allowed).
  assert (segs = segment_of entries <$> (WheelSegment.map_id <$> segs)) as ->.
  { rewrite <- list_fmap_compose. symmetry. rewrite <- (list_fmap_id segs) at 2. apply list_fmap_ext.
    intros i s Hi%list_elem_of_lookup_2. apply elem_of_segments in Hi as (m & _ & ->); done. }
  pose proof (segments_ids entries allowed Hlen) as Hnd. etransitivity; [by apply votes_total|].
  assert (length (WheelSegment.map_id <$> segs) ≤ length allowed)%nat; [|lia].
  apply submseteq_length, NoDup_submseteq; [exact Hnd|].
  intros m (s & -> & (m' & Hm' & ->)%elem_of_segments)%list_elem_of_fmap; done.
Qed.

Lemma total_pos segs s : last segs = Some s → Forall weighted segs → 0 < weights segs.
Proof.
  destruct segs as [|s' segs]; [done|]. intros _ [Hs Hw]%Forall_cons. pose proof (weights_nonneg _ Hw).
  unfold weighted in Hs. cbn. lia.
Qed.

(** The map of a draw. *)
Definition drawn (o : outcome WheelDraw.t) : option string :=
  match o with Ok d => Some (WheelDraw.winner_map_id d) | Err _ => None end.

(** C25. The wheel is fair. Its segments are the maps still allowed, each once and
  in the order of their names, and weigh their nominations, at least one; a draw
  succeeds with one of them, and of the rolls there are, as many land on a map as
  it weighs. *)
Theorem wheel_fair entries allowed seed :
  allowed ≠ [] → Z.of_nat (length allowed) + Z.of_nat (length entries) < 2 ^ 32 →
  let segments := PugService.build_segments entries allowed in
  let n := PugService.total_weight segments in
  StronglySorted (λ s s', PugService.by_map_id s s' = true) segments ∧
  NoDup (WheelSegment.map_id <$> segments) ∧
  (∀ s, s ∈ segments ↔ ∃ m, m ∈ allowed ∧ s = segment_of entries m) ∧
  (∀ range, 0 ≤ range n < n →
     ∃ m, m ∈ allowed ∧ PugService.draw range seed segments = Ok (WheelDraw.mk segments m seed)) ∧
  ∀ m, m ∈ allowed →
    Z.of_nat (length (filter (λ r, drawn (PugService.draw (λ _, r) seed segments) = Some m)
      (seqZ 0 n))) = 1 `max` votes entries m.
Proof.
  intros Hne Hlen segments n. assert (Z.of_nat (length entries) < 2 ^ 32) as He by lia.
  pose proof (segments_weighted entries allowed He) as Hw. pose proof (segments_total entries allowed He) as Htot.
  assert (n = weights segments) as Hn.
  { subst n. unfold PugService.total_weight. rewrite total_weight_from; [done|done|lia|]. fold segments in Htot. lia. }
  assert (∃ s, last segments = Some s) as [s0 Hlast].
  { apply last_is_Some. intros Hnil. destruct allowed as [|m ms]; [done|].
    assert (segment_of entries m ∈ segments) as Hin by (apply elem_of_segments; [done|]; exists m; split; [left|done]).
    rewrite Hnil in Hin. by apply elem_of_nil in Hin. }
  pose proof (total_pos _ _ Hlast Hw) as Hpos.
  assert (∀ range, PugService.draw range seed segments =
    Ok (WheelDraw.mk segments (PugService.spin segments (range n) (WheelSegment.map_id s0)) seed)) as Hdraw.
  { intros range. unfold PugService.draw. fold n. rewrite bool_decide_false by lia. by rewrite Hlast. }
  split; [|split; [by apply segments_ids|split; [by intros s; apply elem_of_segments|split]]].
  - apply stable_sort_sorted; unfold PugService.by_map_id.
    + intros s s'. apply String.leb_total.
    + intros s s' s''. apply string_leb_trans.
  - intros range Hr. rewrite Hdraw. eexists. split; [|reflexivity].
    assert (PugService.spin segments (range n) (WheelSegment.map_id s0) ∈ WheelSegment.map_id <$> segments) as Hin
      by (apply spin_range; [done|lia]).
    apply list_elem_of_fmap in Hin as (s & -> & (m & Hm & ->)%elem_of_segments); done.
  - intros m Hm. rewrite Hn.
    rewrite (list_filter_iff _ (λ r, PugService.spin segments r (WheelSegment.map_id s0) = m)).
    + rewrite spin_counts by (try done; by apply segments_ids).
      assert (segment_of entries m ∈ filter (λ s, WheelSegment.map_id s = m) segments) as Hin.
      { apply list_elem_of_filter. split; [done|]. apply elem_of_segments; [done|]. by exists m. }
      destruct (filter _ segments) as [|s segs] eqn:Hf; [by apply elem_of_nil in Hin|]. cbn.
      assert (s ∈ filter (λ s, WheelSegment.map_id s = m) segments) as Hs by (rewrite Hf; left).
      apply list_elem_of_filter in Hs as [Hid (m' & Hm' & ->)%elem_of_segments]; [|done]. by cbn in Hid; subst m'.
    + intros r. rewrite Hdraw. split; [by intros [= ->]|by intros ->].
Qed.
End wheel.

(** ** The players of a lobby *)

Section lobby.
Context `{Platform}.
Import PugRepository.

Definition members_in (pug : PugId) (table : gmap (PugId * PlayerId) PugMember.t) : list (PlayerId * PugMember.t) :=
  omap (λ '((g, player), m), if bool_decide (g = pug) then Some (player, m) else None) (map_to_list table).

Lemma elem_of_members pug table p m : (p, m) ∈ members_in pug table ↔ table !! (pug, p) = Some m.
Proof.
  unfold members_in. rewrite list_elem_of_omap. split.
  - intros ([[g q] m'] & Hin & Heq). apply elem_of_map_to_list in Hin. case_bool_decide as Hg; [|done].
    injection Heq as -> ->. by rewrite <- Hg.
  - intros Hl. exists ((pug, p), m). split; [by apply elem_of_map_to_list|]. by rewrite bool_decide_true.
Qed.

Lemma members_NoDup pug table : NoDup (members_in pug table).*1.
Proof.
  unfold members_in. pose proof (NoDup_fst_map_to_list table) as Hnd.
  induction (map_to_list table) as [|[[g p] m] l IH]; [constructor|]. csimpl in Hnd.
  apply NoDup_cons in Hnd as [Hnew Hnd]. cbn. case_bool_decide as Hg; [|by apply IH]. subst g. csimpl.
  apply NoDup_cons. split; [|by apply IH].
  intros ([q m'] & -> & ([[g q'] m''] & Hin & Heq)%list_elem_of_omap)%list_elem_of_fmap.
  case_bool_decide as Hg; [|done]. injection Heq as -> ->. subst g. apply Hnew.
  apply list_elem_of_fmap. by exists ((pug, q), m').
Qed.

(** Two tables with the same rows for a lobby list the same players. *)
Lemma members_same pug table table' :
  (∀ p, table' !! (pug, p) = table !! (pug, p)) → members_in pug table' ≡ₚ members_in pug table.
Proof.
  intros Heq. apply NoDup_Permutation; [eapply NoDup_fmap_1, members_NoDup..|]. intros [p m].
  by rewrite !elem_of_members, Heq.
Qed.

(** A row that is put in, or out. *)
Lemma members_insert pug table p m :
  table !! (pug, p) = None → members_in pug (<[(pug, p) := m]> table) ≡ₚ (p, m) :: members_in pug table.
Proof.
  intros Hnew. apply NoDup_Permutation; [eapply NoDup_fmap_1, members_NoDup| |].
  - apply NoDup_cons. split; [by rewrite elem_of_members, Hnew|eapply NoDup_fmap_1, members_NoDup].
  - intros [q m']. rewrite elem_of_cons, !elem_of_members. split.
    + intros [[[= <-] <-]|[_ Hq]]%lookup_insert_Some; [by left|by right].
    + intros [[= -> ->]|Hq]; [by rewrite lookup_insert_eq|]. rewrite lookup_insert_ne; [done|]. congruence.
Qed.

Lemma members_split pug table p m :
  table !! (pug, p) = Some m → members_in pug table ≡ₚ (p, m) :: members_in pug (delete (pug, p) table).
Proof.
  intros Hp. rewrite <- (insert_delete_id table (pug, p) m) at 1 by done. apply members_insert, lookup_delete_eq.
Qed.

Lemma members_replace pug table p m m' :
  table !! (pug, p) = Some m →
  members_in pug (<[(pug, p) := m']> table) ≡ₚ (p, m') :: members_in pug (delete (pug, p) table).
Proof. intros Hp. rewrite <- insert_delete_eq. apply members_insert, lookup_delete_eq. Qed.

(** *** Sizes *)

Definition on (team : Z) (row : PlayerId * PugMember.t) : Prop := PugMember.team row.2 = Some team.
#[global] Instance on_dec team row : Decision (on team row).
Proof. unfold on. apply _. Defined.

Definition seats (team : Z) (rows : list (PlayerId * PugMember.t)) : Z := Z.of_nat (length (filter (on team) rows)).

Lemma seats_cons team row rows : seats team (row :: rows) = (if decide (on team row) then 1 else 0) + seats team rows.
Proof. unfold seats. rewrite filter_cons. destruct (decide (on team row)); cbn [length]; lia. Qed.
Lemma seats_perm team rows rows' : rows ≡ₚ rows' → seats team rows = seats team rows'.
Proof. intros Hp. unfold seats. by rewrite Hp. Qed.
Lemma seats_nonneg team rows : 0 ≤ seats team rows.
Proof. unfold seats. lia. Qed.

(** What a lobby of [size] players a side may hold. *)
Record lobby_fits (size : Z) (rows : list (PlayerId * PugMember.t)) : Prop := {
  lf_all : Z.of_nat (length rows) ≤ 2 * size + PugService.BENCH_SLOTS;
  lf_seats team : seats team rows ≤ size;
  lf_teams p m t : (p, m) ∈ rows → PugMember.team m = Some t → t = 1 ∨ t = 2;
}.

Lemma lobby_fits_perm size rows rows' : rows ≡ₚ rows' → lobby_fits size rows → lobby_fits size rows'.
Proof.
  intros Hp [H1 H2 H3]. split.
  - by rewrite <- Hp.
  - intros team. by rewrite <- (seats_perm team _ _ Hp).
  - intros p m t. rewrite <- Hp. apply H3.
Qed.

Lemma lobby_fits_cons size p m rows :
  lobby_fits size ((p, m) :: rows) → lobby_fits size rows.
Proof.
  intros [H1 H2 H3]. split.
  - cbn in H1. lia.
  - intros team. specialize (H2 team). rewrite seats_cons in H2. destruct (decide _); lia.
  - intros q m' t Hin. apply (H3 q). by apply list_elem_of_further.
Qed.

(** A player who comes in on the bench, or changes seats. *)
Lemma lobby_fits_add size p m rows :
  lobby_fits size rows → Z.of_nat (length rows) < 2 * size + PugService.BENCH_SLOTS →
  (∀ t, PugMember.team m = Some t → (t = 1 ∨ t = 2) ∧ seats t rows < size) → lobby_fits size ((p, m) :: rows).
Proof.
  intros [H1 H2 H3] Hroom Hteam. split.
  - cbn [length]. lia.
  - intros team. rewrite seats_cons. specialize (H2 team). destruct (decide (on team (p, m))) as [Ht|]; [|lia].
    destruct (Hteam team Ht). lia.
  - intros q m' t [[= -> ->]|Hin]%elem_of_cons Ht; [by apply Hteam|by eapply H3].
Qed.

(** ** Lobbies in order *)

Record pugs_in_order (db : Db.t) : Prop := {
  po_key id p : Db.pugs db !! id = Some p → Pug.id p = id ∧ (id < Db.next_uuid db)%N;
  po_code i j p q : Db.pugs db !! i = Some p → Db.pugs db !! j = Some q → Pug.join_code p = Pug.join_code q → i = j;
  po_fits id p : Db.pugs db !! id = Some p →
    1 ≤ Pug.team_size p ≤ 16 ∧ lobby_fits (Pug.team_size p) (members_in id (Db.pug_players db));
  po_home id q : is_Some (Db.pug_players db !! (id, q)) → is_Some (Db.pugs db !! id) ∧ is_Some (Db.players db !! q);
  po_votes id q : is_Some (Db.pug_wheel_entries db !! (id, q)) → is_Some (Db.pug_players db !! (id, q));
}.

(** A lobby that has locked keeps its row, its players and their nominations. *)
Definition locked_kept (db db' : Db.t) : Prop := ∀ id p, Db.pugs db !! id = Some p → Pug.is_open p = false →
  Db.pugs db' !! id = Some p ∧ (∀ q, Db.pug_players db' !! (id, q) = Db.pug_players db !! (id, q)) ∧
  ∀ q, Db.pug_wheel_entries db' !! (id, q) = Db.pug_wheel_entries db !! (id, q).

Definition lobby_sound (db db' : Db.t) : Prop := pugs_in_order db → pugs_in_order db' ∧ locked_kept db db'.

#[global] Instance lobby_sound_preorder : PreOrder lobby_sound.
Proof.
  split.
  - intros db Hok. split; [done|]. intros id p Hp _. done.
  - intros a b c Hab Hbc Ha. destruct (Hab Ha) as [Hb Kab], (Hbc (proj1 (Hab Ha))) as [Hc Kbc].
    split; [exact Hc|]. intros id p Hp Hlock. destruct (Kab id p Hp Hlock) as (Hp' & Hm & Hv).
    destruct (Kbc id p Hp' Hlock) as (Hp'' & Hm' & Hv'). split; [done|].
    split; intros q; [by rewrite Hm'|by rewrite Hv'].
Qed.

Lemma lobby_sound_given db db' : (pugs_in_order db → lobby_sound db db') → lobby_sound db db'.
Proof. intros Hs Ho. exact (Hs Ho Ho). Qed.

(** The players of one open lobby change; those who nominated stay. *)
Lemma members_sound id p db table :
  Db.pugs db !! id = Some p → Pug.is_open p = true →
  (∀ g q, g ≠ id → table !! (g, q) = Db.pug_players db !! (g, q)) →
  (lobby_fits (Pug.team_size p) (members_in id (Db.pug_players db)) →
   lobby_fits (Pug.team_size p) (members_in id table)) →
  (∀ q, is_Some (table !! (id, q)) → is_Some (Db.pug_players db !! (id, q)) ∨ is_Some (Db.players db !! q)) →
  (∀ q, is_Some (Db.pug_players db !! (id, q)) → is_Some (table !! (id, q))) →
  lobby_sound db (put_members table db).
Proof.
  intros Hp Hopen Hother Hfits Hnew Hstay [H1 H2 H3 H4 H5]. split; [split|].
  - exact H1.
  - exact H2.
  - intros g p' Hg. cbn in Hg. destruct (H3 g p' Hg) as [Hs Hf]. split; [exact Hs|]. cbn.
    destruct (decide (g = id)) as [->|Hne].
    + rewrite Hp in Hg. injection Hg as <-. by apply Hfits.
    + eapply lobby_fits_perm; [|exact Hf]. symmetry. apply members_same. intros q. by apply Hother.
  - intros g q Hq. cbn in *. destruct (decide (g = id)) as [->|Hne].
    + destruct (Hnew q Hq) as [Hold|Hpl]; [by apply H4|by split; [rewrite Hp|]].
    + rewrite Hother in Hq by done. by apply H4.
  - intros g q Hq%H5. cbn. destruct (decide (g = id)) as [->|Hne]; [by apply Hstay|by rewrite Hother].
  - intros g p' Hg Hlock. cbn. split; [done|]. split; [|done]. intros q. apply Hother. congruence.
Qed.

Lemma get_ok id p db : PugService.get id db = (Ok p, db) → Db.pugs db !! id = Some p.
Proof.
  unfold PugService.get, find_by_id, mbind, mread, mlift. destruct (Db.pugs db !! id) as [q|]; [|done].
  by intros [= ->].
Qed.
Lemma get_reads id : preserves eq (PugService.get id).
Proof. unfold PugService.get, find_by_id. frame. Qed.
Lemma creator_reads p user : preserves eq (PugService.require_creator p user).
Proof. unfold PugService.require_creator. frame. Qed.
Lemma open_reads p msg : preserves eq (PugService.require_open p msg).
Proof. unfold PugService.require_open, PugService.invalid. frame. Qed.
Lemma open_ok p msg db : PugService.require_open p msg db = (Ok tt, db) → Pug.is_open p = true.
Proof. unfold PugService.require_open. by destruct (Pug.is_open p). Qed.

(** *** The statements on an open lobby *)

Lemma add_player_sound id p q db :
  Db.pugs db !! id = Some p → Pug.is_open p = true →
  lobby_sound db (add_player id q (Pug.team_size p * 2 + PugService.BENCH_SLOTS) db).2.
Proof.
  intros Hp Hopen. unfold add_player. case_bool_decide as Hroom; [|reflexivity].
  case_bool_decide as Hnew; [|reflexivity]. cbn [andb]. unfold known_player.
  case_bool_decide as Hknown; [|reflexivity]. apply (members_sound id p); try done.
  - intros g q' Hne. rewrite lookup_insert_ne; [done|congruence].
  - intros Hfits. eapply lobby_fits_perm; [symmetry; by apply members_insert|].
    apply lobby_fits_add; [done| |done]. unfold members in Hroom. fold (members_in id (Db.pug_players db)) in Hroom. lia.
  - intros q' Hq'. destruct (decide (q' = q)) as [->|Hne]; [by right|left].
    rewrite lookup_insert_ne in Hq'; [done|congruence].
  - intros q' Hq'. destruct (decide (q' = q)) as [->|Hne]; [by rewrite lookup_insert_eq|].
    rewrite lookup_insert_ne; [done|congruence].
Qed.

(** A row of the lobby is replaced by one that fits. *)
Lemma replace_sound id p q m m' db :
  Db.pugs db !! id = Some p → Pug.is_open p = true → Db.pug_players db !! (id, q) = Some m →
  (∀ t, PugMember.team m' = Some t → PugMember.team m = Some t ∨ (t = 1 ∨ t = 2) ∧
     seats t (members_in id (delete (id, q) (Db.pug_players db))) < Pug.team_size p) →
  lobby_sound db (put_members (<[(id, q) := m']> (Db.pug_players db)) db).
Proof.
  intros Hp Hopen Hq Hteam. apply (members_sound id p); try done.
  - intros g q' Hne. rewrite lookup_insert_ne; [done|congruence].
  - intros Hfits. eapply lobby_fits_perm; [symmetry; by eapply members_replace|].
    pose proof (lobby_fits_perm _ _ _ (members_split _ _ _ _ Hq) Hfits) as Hfits'.
    apply lobby_fits_add; [by eapply lobby_fits_cons| |].
    + destruct Hfits' as [Hall _ _]. cbn [length] in Hall. lia.
    + intros t Ht. destruct (Hteam t Ht) as [Hold|Hnew]; [|exact Hnew]. destruct Hfits' as [_ Hseats Hteams].
      split; [by eapply Hteams; [left|]|]. specialize (Hseats t). rewrite seats_cons in Hseats.
      rewrite decide_True in Hseats by done. lia.
  - intros q' Hq'. left. destruct (decide (q' = q)) as [->|Hne]; [by rewrite Hq|].
    rewrite lookup_insert_ne in Hq'; [done|congruence].
  - intros q' Hq'. destruct (decide (q' = q)) as [->|Hne]; [by rewrite lookup_insert_eq|].
    rewrite lookup_insert_ne; [done|congruence].
Qed.

Lemma filter_ext_in {A} (P Q : A → Prop) `{!∀ x, Decision (P x), !∀ x, Decision (Q x)} (l : list A) :
  (∀ x, x ∈ l → P x ↔ Q x) → filter P l = filter Q l.
Proof.
  induction l as [|x l IH]; intros Heq; [done|]. rewrite !filter_cons.
  rewrite IH by (intros y Hy; apply Heq; by apply list_elem_of_further).
  apply decide_ext. apply Heq, list_elem_of_here.
Qed.

Lemma taken_seats id q m t db :
  Db.pug_players db !! (id, q) = Some m →
  taken id q t db = seats t (members_in id (delete (id, q) (Db.pug_players db))).
Proof.
  intros Hq. unfold taken, members. fold (members_in id (Db.pug_players db)).
  rewrite (members_split id _ q m Hq), filter_cons, decide_False.
  2: { cbn. rewrite bool_decide_true by done. by rewrite andb_false_r. }
  unfold seats. f_equal. f_equal. apply filter_ext_in. intros [q' m'] Hin%elem_of_members.
  unfold on_team, on. cbn. rewrite andb_true_iff, bool_decide_eq_true, negb_true_iff, bool_decide_eq_false.
  split; [tauto|]. intros Ht. split; [done|]. intros ->. by rewrite lookup_delete_eq in Hin.
Qed.

Lemma set_player_team_sound id p q team db :
  Db.pugs db !! id = Some p → Pug.is_open p = true → (∀ t, team = Some t → t = 1 ∨ t = 2) →
  lobby_sound db (set_player_team id q team (Pug.team_size p) db).2.
Proof.
  intros Hp Hopen Hteam. unfold set_player_team.
  destruct (Db.pug_players db !! (id, q)) as [m|] eqn:Hq; [|reflexivity].
  destruct (from_option _ true team) eqn:Hroom; [|reflexivity]. eapply replace_sound; try done.
  cbn. intros t ->. cbn in Hroom. apply bool_decide_eq_true in Hroom. rewrite (taken_seats _ _ _ _ _ Hq) in Hroom.
  right. split; [by apply Hteam|done].
Qed.

Lemma alter_insert (table : gmap (PugId * PlayerId) PugMember.t) k set :
  alter set k table = match table !! k with Some m => <[k := set m]> table | None => table end.
Proof.
  apply map_eq. intros j. destruct (decide (k = j)) as [<-|Hne].
  - rewrite lookup_alter_eq. destruct (table !! k) eqn:E; cbn; [by rewrite lookup_insert_eq|by rewrite E].
  - rewrite lookup_alter_ne by done. destruct (table !! k); [by rewrite lookup_insert_ne|done].
Qed.

Lemma set_captain_sound id p q c db :
  Db.pugs db !! id = Some p → Pug.is_open p = true → lobby_sound db (set_player_captain id q c db).2.
Proof.
  intros Hp Hopen. unfold set_player_captain, alter_member, mwrite. cbn [snd]. rewrite alter_insert.
  destruct (Db.pug_players db !! (id, q)) as [m|] eqn:Hq.
  - eapply replace_sound; try done. intros t Ht. by left.
  - apply (members_sound id p); try done. intros q' Hq'. by left.
Qed.

(** Leaving takes the nomination along. *)
Lemma remove_player_sound id p q db :
  Db.pugs db !! id = Some p → Pug.is_open p = true → lobby_sound db (remove_player id q db).2.
Proof.
  intros Hp Hopen [H1 H2 H3 H4 H5]. cbn. split; [split|]; cbn.
  - exact H1.
  - exact H2.
  - intros g p' Hg. destruct (H3 g p' Hg) as [Hs Hf]. split; [exact Hs|].
    destruct (Db.pug_players db !! (id, q)) as [m|] eqn:Hq.
    + destruct (decide (g = id)) as [->|Hne].
      * eapply lobby_fits_cons, lobby_fits_perm; [|exact Hf]. by apply members_split.
      * eapply lobby_fits_perm; [|exact Hf]. symmetry. apply members_same. intros q'.
        rewrite lookup_delete_ne; [done|congruence].
    + by rewrite delete_id.
  - intros g q' [m Hm]. apply lookup_delete_Some in Hm as [_ Hm]. apply H4. by exists m.
  - intros g q' [e He]. apply lookup_delete_Some in He as [Hne He].
    rewrite lookup_delete_ne by done. apply H5. by exists e.
  - intros g p' Hg Hlock. assert (g ≠ id) by congruence. split; [done|].
    split; intros q'; cbn; rewrite lookup_delete_ne; congruence.
Qed.

Lemma nominate_sound id p q map_id db :
  Db.pugs db !! id = Some p → Pug.is_open p = true → is_Some (Db.pug_players db !! (id, q)) →
  lobby_sound db (upsert_wheel_entry id q map_id db).2.
Proof.
  intros Hp Hopen Hq [H1 H2 H3 H4 H5]. cbn. split; [split|]; cbn; try done.
  - intros g q' [e [[[= <- <-] _]|[_ He]]%lookup_insert_Some]; [done|]. apply H5. by exists e.
  - intros g p' Hg Hlock. assert (g ≠ id) by congruence. split; [done|]. split; [done|].
    intros q'. cbn. rewrite lookup_insert_ne; congruence.
Qed.

(** *** Whole sides *)

Lemma swap_lookup (id g : PugId) (q : PlayerId) (table : gmap (PugId * PlayerId) PugMember.t) :
  map_imap (λ '(pug, _) m, Some (if bool_decide (pug = id) then mirrored m else m)) table !! (g, q) =
  if bool_decide (g = id) then mirrored <$> (table !! (g, q)) else table !! (g, q).
Proof.
  rewrite map_lookup_imap. destruct (table !! (g, q)) as [m|]; cbn; by case_bool_decide.
Qed.

Lemma members_map id table table' (f : PugMember.t → PugMember.t) :
  (∀ q, table' !! (id, q) = f <$> table !! (id, q)) →
  members_in id table' ≡ₚ (λ row, (row.1, f row.2)) <$> members_in id table.
Proof.
  intros Hf. apply NoDup_Permutation.
  - eapply NoDup_fmap_1, members_NoDup.
  - apply (NoDup_fmap_1 fst). rewrite <- list_fmap_compose. apply members_NoDup.
  - intros [q m]. rewrite elem_of_members, Hf, list_elem_of_fmap. split.
    + intros (m0 & Hm0 & ->)%fmap_Some. exists (q, m0). split; [done|]. by apply elem_of_members.
    + intros ([q' m0] & [= -> ->] & Hin%elem_of_members). by rewrite Hin.
Qed.

Lemma seats_mirrored t (rows : list (PlayerId * PugMember.t)) :
  seats t ((λ row, (row.1, mirrored row.2)) <$> rows) = seats (3 - t) rows.
Proof.
  induction rows as [|[q m] rows IH]; [done|]. rewrite fmap_cons, !seats_cons, IH. f_equal.
  apply decide_ext. unfold on. cbn. destruct (PugMember.team m) as [t'|]; cbn; [|done].
  split; intros [= Ht]; f_equal; lia.
Qed.

Lemma swap_sound id p db :
  Db.pugs db !! id = Some p → Pug.is_open p = true → lobby_sound db (swap_teams id db).2.
Proof.
  intros Hp Hopen. unfold swap_teams, mwrite. cbn [snd]. apply (members_sound id p); try done.
  - intros g q Hne. rewrite swap_lookup. by rewrite bool_decide_false.
  - intros [H1 H2 H3]. eapply lobby_fits_perm.
    { symmetry. apply (members_map id (Db.pug_players db) _ mirrored). intros q. rewrite swap_lookup.
      by rewrite bool_decide_true. }
    split.
    + by rewrite length_fmap.
    + intros t. rewrite seats_mirrored. apply H2.
    + intros q m t ([q' m0] & [= -> ->] & Hin)%list_elem_of_fmap. cbn.
      destruct (PugMember.team m0) as [t0|] eqn:Ht0; [|done]. cbn. intros [= <-].
      destruct (H3 q' m0 t0 Hin Ht0) as [-> | ->]; auto.
  - intros q. rewrite swap_lookup, bool_decide_true by done. left.
    destruct (Db.pug_players db !! (id, q)); [done|]. by destruct H0.
  - intros q [m Hm]. rewrite swap_lookup, bool_decide_true by done. by rewrite Hm.
Qed.

(** *** The roster *)

(** What [list_players] lists are the rows of the lobby, whatever is read of them. *)
Lemma roster_of {A} (g : PugPlayer.t → A) (h : PlayerId * PugMember.t → A) id db :
  pugs_in_order db → (∀ q m c, Db.players db !! q = Some c → g (player_row id q m c) = h (q, m)) →
  g <$> roster id db ≡ₚ h <$> members_in id (Db.pug_players db).
Proof.
  intros Ho Hgh. unfold roster. rewrite stable_sort_perm. unfold members.
  fold (members_in id (Db.pug_players db)).
  assert (∀ row, row ∈ members_in id (Db.pug_players db) → is_Some (Db.players db !! row.1)) as Hknown.
  { intros [q m] Hq%elem_of_members. apply (po_home db Ho id q). by rewrite Hq. }
  induction (members_in id (Db.pug_players db)) as [|[q m] rows IH]; [done|]. cbn [omap list_omap].
  destruct (Hknown (q, m) (list_elem_of_here _ _)) as [c Hc]. cbn in Hc. rewrite Hc. csimpl.
  rewrite (Hgh q m c Hc), IH; [done|]. intros row Hrow. apply Hknown. by apply list_elem_of_further.
Qed.

Lemma roster_ids id db :
  pugs_in_order db → PugPlayer.player_id <$> roster id db ≡ₚ (members_in id (Db.pug_players db)).*1.
Proof. intros Ho. by apply roster_of. Qed.

Lemma elem_of_roster id p db :
  p ∈ roster id db ↔ ∃ q m c, Db.pug_players db !! (id, q) = Some m ∧ Db.players db !! q = Some c ∧
    p = player_row id q m c.
Proof.
  unfold roster. rewrite stable_sort_perm, list_elem_of_omap. unfold members.
  fold (members_in id (Db.pug_players db)). split.
  - intros ([q m] & Hq%elem_of_members & (c & Hc & ->)%fmap_Some). by exists q, m, c.
  - intros (q & m & c & Hq & Hc & ->). exists (q, m). rewrite elem_of_members, Hc. done.
Qed.

Lemma filter_fmap_length {A B} (f : A → B) (P : B → Prop) (Q : A → Prop)
    `{!∀ x, Decision (P x), !∀ x, Decision (Q x)} (l : list A) :
  (∀ x, Q x ↔ P (f x)) → length (filter Q l) = length (filter P (f <$> l)).
Proof.
  intros Heq. induction l as [|x l IH]; [done|]. rewrite fmap_cons, !filter_cons.
  rewrite (decide_ext (Q x) (P (f x))) by done. destruct (decide (P (f x))); cbn [length]; by rewrite IH.
Qed.

Lemma team_count_seats id t db :
  pugs_in_order db →
  PugService.team_count (roster id db) t = seats t (members_in id (Db.pug_players db)).
Proof.
  intros Ho. unfold PugService.team_count, seats. f_equal.
  rewrite (filter_fmap_length PugPlayer.team (λ o, o = Some t) (λ p, PugPlayer.team p = Some t)) by done.
  rewrite (roster_of _ (λ row, PugMember.team row.2)) by done.
  by rewrite <- (filter_fmap_length (λ row, PugMember.team row.2) (λ o, o = Some t) (on t)).
Qed.

(** *** Dealing the teams *)

(** The columns [assign_teams] leaves. *)
Definition dealt (id : PugId) (l : list (PlayerId * option Z)) (table : gmap (PugId * PlayerId) PugMember.t) :=
  fold_left (λ table '(q, t), alter (λ m, m <| PugMember.team := t |>) (id, q) table) l table.

Lemma dealt_cons id q t l table :
  dealt id ((q, t) :: l) table = dealt id l (alter (λ m, m <| PugMember.team := t |>) (id, q) table).
Proof. done. Qed.

Lemma assign_run id l db : assign_teams id l db = (Ok tt, put_members (dealt id l (Db.pug_players db)) db).
Proof.
  unfold assign_teams. apply transaction_step. revert db. induction l as [|[q t] l IH]; intros db.
  - cbn. unfold put_members. by destruct db.
  - cbn [mfor]. unfold mbind, alter_member, mwrite. rewrite IH. done.
Qed.

Lemma dealt_other id l table g q : g ≠ id ∨ q ∉ l.*1 → dealt id l table !! (g, q) = table !! (g, q).
Proof.
  revert table. induction l as [|[q' t] l IH]; intros table Hne; [done|]. rewrite dealt_cons.
  csimpl in Hne. rewrite not_elem_of_cons in Hne.
  rewrite IH by tauto. rewrite lookup_alter_ne; [done|]. intros [= -> ->]. tauto.
Qed.

Lemma dealt_lookup id l table q t :
  NoDup l.*1 → (q, t) ∈ l → dealt id l table !! (id, q) = (λ m, m <| PugMember.team := t |>) <$> table !! (id, q).
Proof.
  revert table. induction l as [|[q' t'] l IH]; intros table Hnd Hin; [by apply elem_of_nil in Hin|].
  csimpl in Hnd. apply NoDup_cons in Hnd as [Hnew Hnd]. rewrite dealt_cons.
  apply elem_of_cons in Hin as [[= -> ->]|Hin].
  - rewrite dealt_other by auto. apply lookup_alter_eq.
  - rewrite IH by done. rewrite lookup_alter_ne; [done|]. intros [= ->]. apply Hnew.
    apply list_elem_of_fmap. by exists (q, t).
Qed.

(** When everyone is dealt once, the teams are those of the deal. *)
Lemma dealt_members id l table :
  l.*1 ≡ₚ (members_in id table).*1 →
  (λ row, (row.1, PugMember.team row.2)) <$> members_in id (dealt id l table) ≡ₚ l.
Proof.
  intros Hids. assert (NoDup l.*1) as Hnd by (rewrite Hids; apply members_NoDup).
  assert (∀ q, q ∈ l.*1 ↔ is_Some (table !! (id, q))) as Hin.
  { intros q. rewrite Hids, list_elem_of_fmap. split.
    - intros ([q' m] & -> & Hm%elem_of_members). by exists m.
    - intros [m Hm]. exists (q, m). by rewrite elem_of_members. }
  apply NoDup_Permutation.
  - apply (NoDup_fmap_1 fst). rewrite <- list_fmap_compose. apply members_NoDup.
  - by eapply NoDup_fmap_1.
  - intros [q t]. rewrite list_elem_of_fmap. split.
    + intros ([q' m] & [= -> ->] & Hm%elem_of_members). destruct (decide (q' ∈ l.*1)) as [Hq|Hq].
      * apply list_elem_of_fmap in Hq as ([q t] & -> & Hq). cbn in *.
        rewrite (dealt_lookup _ _ _ _ _ Hnd Hq) in Hm. by apply fmap_Some in Hm as (m0 & _ & ->).
      * rewrite dealt_other in Hm by auto. destruct Hq. apply Hin. by rewrite Hm.
    + intros Hq. assert (is_Some (table !! (id, q))) as [m Hm]
        by (apply Hin, list_elem_of_fmap; by exists (q, t)).
      exists (q, m <| PugMember.team := t |>). split; [done|]. apply elem_of_members.
      by rewrite (dealt_lookup _ _ _ _ _ Hnd Hq), Hm.
Qed.

Definition dealt_to (t : Z) (l : list (PlayerId * option Z)) : Z :=
  Z.of_nat (length (filter (λ row, row.2 = Some t) l)).

Lemma dealt_seats id l table t :
  l.*1 ≡ₚ (members_in id table).*1 → seats t (members_in id (dealt id l table)) = dealt_to t l.
Proof.
  intros Hids. unfold seats, dealt_to. f_equal.
  transitivity (length (filter (λ row : PlayerId * option Z, row.2 = Some t)
    ((λ row : PlayerId * PugMember.t, (row.1, PugMember.team row.2)) <$> members_in id (dealt id l table)))).
  - by apply (filter_fmap_length _ _ (on t)).
  - by rewrite dealt_members.
Qed.

Lemma deal_ids size ids : (PugService.deal size ids).*1 = ids.
Proof.
  unfold PugService.deal. rewrite fmap_imap. apply list_eq. intros i. rewrite list_lookup_imap.
  by destruct (ids !! i).
Qed.

Lemma deal_teams size ids q t : (q, Some t) ∈ PugService.deal size ids → t = 1 ∨ t = 2.
Proof.
  unfold PugService.deal. rewrite elem_of_lookup_imap. intros (i & q' & Heq & _).
  case_bool_decide; [|done]. injection Heq as -> ->. pose proof (Z.mod_pos_bound (Z.of_nat i) 2). lia.
Qed.

(** Team 1 gets the even places, team 2 the odd ones, up to their size. *)
Lemma deal_counts size ids :
  0 ≤ size →
  dealt_to 1 (PugService.deal size ids) = size `min` ((Z.of_nat (length ids) + 1) `div` 2) ∧
  dealt_to 2 (PugService.deal size ids) = size `min` (Z.of_nat (length ids) `div` 2).
Proof.
  intros Hsize. induction ids as [|q ids [IH1 IH2]] using rev_ind; [split; change (0 = size `min` 0); lia|].
  unfold PugService.deal in *. rewrite imap_app. unfold dealt_to in *.
  rewrite !filter_app, !length_app, !Nat2Z.inj_add, IH1, IH2. cbn [imap length].
  rewrite Nat.add_0_r. set (n := Z.of_nat (length ids)). assert (0 ≤ n) by lia. clearbody n. clear IH1 IH2.
  rewrite !filter_cons, !filter_nil. cbn [snd]. pose proof (Z.div_mod n 2). pose proof (Z.mod_pos_bound n 2).
  assert (n mod 2 = 0 ∨ n mod 2 = 1) as [He|He] by lia; rewrite He; case_bool_decide as Hroom.
  - rewrite decide_True, decide_False by done. cbn [length]. Z.to_euclidean_division_equations. lia.
  - rewrite !decide_False by done. cbn [length]. Z.to_euclidean_division_equations. lia.
  - rewrite decide_False, decide_True by done. cbn [length]. Z.to_euclidean_division_equations. lia.
  - rewrite !decide_False by done. cbn [length]. Z.to_euclidean_division_equations. lia.
Qed.

Lemma usize_small n : 0 ≤ n → usize_or_max n = n.
Proof. intros Hn. unfold usize_or_max. by rewrite bool_decide_true. Qed.

Lemma roster_dealt shuffled id db :
  pugs_in_order db → shuffled (PugPlayer.player_id <$> roster id db) ≡ₚ PugPlayer.player_id <$> roster id db →
  ∀ size, (PugService.deal size (shuffled (PugPlayer.player_id <$> roster id db))).*1 ≡ₚ
    (members_in id (Db.pug_players db)).*1.
Proof. intros Ho Hsh size. rewrite deal_ids, Hsh. by apply roster_ids. Qed.

Lemma dealt_sound id p l db :
  Db.pugs db !! id = Some p → Pug.is_open p = true → l.*1 ≡ₚ (members_in id (Db.pug_players db)).*1 →
  (∀ t, dealt_to t l ≤ Pug.team_size p) → (∀ q t, (q, Some t) ∈ l → t = 1 ∨ t = 2) →
  lobby_sound db (assign_teams id l db).2.
Proof.
  intros Hp Hopen Hids Hseats Hteams. rewrite assign_run. cbn [snd]. pose proof (dealt_members id l _ Hids) as Hdealt.
  assert (NoDup l.*1) as Hnd by (rewrite Hids; apply members_NoDup).
  assert (∀ q, is_Some (dealt id l (Db.pug_players db) !! (id, q)) ↔ is_Some (Db.pug_players db !! (id, q))) as Hsame.
  { intros q. destruct (decide (q ∈ l.*1)) as [Hq|Hq]; [|by rewrite dealt_other by auto].
    apply list_elem_of_fmap in Hq as ([q' t] & -> & Hq). by rewrite (dealt_lookup _ _ _ _ _ Hnd Hq), fmap_is_Some. }
  apply (members_sound id p); try done.
  - intros g q Hne. apply dealt_other. by left.
  - intros [H1 _ _]. split.
    + rewrite <- (length_fmap (λ row, (row.1, PugMember.team row.2))), Hdealt, <- (length_fmap fst), Hids.
      by rewrite length_fmap.
    + intros t. by rewrite dealt_seats.
    + intros q m t Hq Ht. apply (Hteams q). rewrite <- Hdealt, list_elem_of_fmap. exists (q, m). by rewrite <- Ht.
  - intros q Hq. left. by apply Hsame.
  - intros q Hq. by apply Hsame.
Qed.

Lemma dealt_to_other t l : (∀ q t', (q, Some t') ∈ l → t' = 1 ∨ t' = 2) → t ≠ 1 → t ≠ 2 → dealt_to t l = 0.
Proof.
  intros Hteams H1 H2. unfold dealt_to. rewrite filter_none; [done|]. intros [q o] Hq Ho. cbn in Ho. subst o.
  by destruct (Hteams q t Hq).
Qed.

Lemma deal_fits size ids t : 0 ≤ size → dealt_to t (PugService.deal size ids) ≤ size.
Proof.
  intros Hsize. destruct (deal_counts size ids Hsize) as [H1 H2].
  destruct (decide (t = 1)) as [->|N1]; [lia|]. destruct (decide (t = 2)) as [->|N2]; [lia|].
  rewrite dealt_to_other; [done| |done..]. apply deal_teams.
Qed.

(** *** Every call *)

Ltac lread lem := apply frame_read_at; [apply _|apply lem|].
Tactic Notation "lread_by" tactic(tac) := apply frame_read_at; [apply _|tac|].

Lemma participant_reads id q : preserves eq (is_participant id q).
Proof. unfold is_participant. frame. Qed.

Lemma join_sound code q : preserves lobby_sound (PugService.join_by_code code q).
Proof.
  intros db. unfold PugService.join_by_code, PugService.get_by_code, find_by_join_code.
  lread_by (frame). intros p Hget. lread participant_reads. intros [] _; [reflexivity|].
  lread open_reads. intros [] Hopen%open_ok. apply frame_then_at; [apply _| |].
  - apply lobby_sound_given. intros Ho. apply (add_player_sound _ p); [|done].
    unfold mbind, mread, mlift in Hget. destruct (head _) as [p'|] eqn:Hp; [|done]. cbn in Hget. injection Hget as ->.
    apply head_Some_elem_of, elem_of_rows_where in Hp as [_ [k Hk]]. by destruct (po_key db Ho k p Hk) as [<- _].
  - intros []; frame.
Qed.

Lemma leave_sound id q user : preserves lobby_sound (PugService.leave id q user).
Proof.
  intros db. unfold PugService.leave. lread get_reads. intros p Hp%get_ok. lread open_reads.
  intros [] Hopen%open_ok. destruct (bool_decide _); [reflexivity|]. by apply (remove_player_sound id p).
Qed.

Lemma kick_sound id actor q creator : preserves lobby_sound (PugService.kick id actor q creator).
Proof.
  intros db. unfold PugService.kick. lread get_reads. intros p Hp%get_ok. lread creator_reads. intros [] _.
  lread open_reads. intros [] Hopen%open_ok. destruct (bool_decide _); [reflexivity|].
  by apply (remove_player_sound id p).
Qed.

Lemma set_team_sound id actor a q team : preserves lobby_sound (PugService.set_team id actor a q team).
Proof.
  intros db. unfold PugService.set_team. lread get_reads. intros p Hp%get_ok. lread open_reads.
  intros [] Hopen%open_ok. lread_by (unfold PugService.require_creator; frame). intros [] _.
  lread_by (unfold PugService.invalid, is_participant; frame). intros [] Hteam.
  apply frame_then_at; [apply _| |intros []; frame]. apply (set_player_team_sound id p); try done.
  intros t ->. destruct (bool_decide (t = 1 ∨ t = 2)) eqn:Ht; [by apply bool_decide_eq_true in Ht|done].
Qed.

Lemma captain_sound id actor q c : preserves lobby_sound (PugService.set_captain id actor q c).
Proof.
  intros db. unfold PugService.set_captain. lread get_reads. intros p Hp%get_ok. lread creator_reads. intros [] _.
  lread open_reads. intros [] Hopen%open_ok. by apply (set_captain_sound id p).
Qed.

Lemma shuffle_sound shuffled id actor :
  (∀ l, shuffled l ≡ₚ l) → preserves lobby_sound (PugService.shuffle shuffled id actor).
Proof.
  intros Hsh db. unfold PugService.shuffle. lread get_reads. intros p Hp%get_ok. lread creator_reads. intros [] _.
  lread open_reads. intros [] Hopen%open_ok. lread_by (unfold list_players; frame). intros ps [= <-].
  apply lobby_sound_given. intros Ho. destruct (po_fits db Ho id p Hp) as [Hsize _].
  apply (dealt_sound id p); try done.
  - by apply roster_dealt.
  - intros t. rewrite usize_small by lia. apply deal_fits. lia.
  - intros q t. apply deal_teams.
Qed.

Lemma swap_call_sound id actor : preserves lobby_sound (PugService.swap_teams id actor).
Proof.
  intros db. unfold PugService.swap_teams. lread get_reads. intros p Hp%get_ok. lread creator_reads. intros [] _.
  lread open_reads. intros [] Hopen%open_ok. by apply (swap_sound id p).
Qed.

Lemma picking_is_team ps size t : PugService.picking_team ps size = Some t → t = 1 ∨ t = 2.
Proof.
  unfold PugService.picking_team. destruct (_ && _); [done|]. destruct (_ && _); [intros [= <-]; by right|].
  destruct (_ && _); intros [= <-]; [by left|by right].
Qed.

Lemma draft_sound id actor a q : preserves lobby_sound (PugService.draft_pick id actor a q).
Proof.
  intros db. unfold PugService.draft_pick. lread get_reads. intros p Hp%get_ok. lread open_reads.
  intros [] Hopen%open_ok. lread_by (unfold list_players; frame). intros ps _.
  destruct (head _) as [row|]; [|reflexivity]. destruct (bool_decide _); [reflexivity|].
  destruct (PugService.picking_team ps (Pug.team_size p)) as [t|] eqn:Ht; [|reflexivity].
  destruct (_ && _); [reflexivity|]. apply frame_then_at; [apply _| |intros []; frame].
  apply (set_player_team_sound id p); [done..|]. intros t' [= <-]. by eapply picking_is_team.
Qed.

Lemma nominate_call_sound id q map_id : preserves lobby_sound (PugService.nominate_map id q map_id).
Proof.
  intros db. unfold PugService.nominate_map. lread get_reads. intros p Hp%get_ok.
  destruct (negb _); [reflexivity|]. lread open_reads. intros [] Hopen%open_ok. lread participant_reads.
  intros [] Hq; [|reflexivity]. cbn [negb]. destruct (_ || _); [reflexivity|]. apply (nominate_sound id p); try done.
  injection Hq as Hq. by apply bool_decide_eq_true in Hq.
Qed.

(** *** Rows that come and change *)

Lemma code_free db id code k p :
  code_taken db id code = false → Db.pugs db !! k = Some p → Pug.join_code p = code → k = id.
Proof.
  unfold code_taken. intros Hfree Hk Hcode. destruct (decide (k = id)) as [|Hne]; [done|exfalso].
  assert (existsb (λ '(k, p), negb (bool_decide (k = id)) && bool_decide (Pug.join_code p = code))
    (map_to_list (Db.pugs db)) = true) as Htaken; [|by rewrite Htaken in Hfree].
  apply existsb_exists. exists (k, p). split; [by apply list_elem_of_In, elem_of_map_to_list|].
  by rewrite bool_decide_false, bool_decide_true.
Qed.

(** A row is written that keeps the order: a lobby of its own size and code. *)
Lemma put_sound id p p' db :
  Db.pugs db !! id = Some p → Pug.is_open p = true → Pug.id p' = Pug.id p →
  Pug.team_size p' = Pug.team_size p → code_taken db id (Pug.join_code p') = false →
  lobby_sound db (db <| Db.pugs := <[id := p']> (Db.pugs db) |>).
Proof.
  intros Hp Hopen Hid Hsize Hfree [H1 H2 H3 H4 H5]. split; [split|]; cbn; [| | | |exact H5|].
  - intros g r [[<- <-]|[_ Hr]]%lookup_insert_Some; [rewrite Hid|]; by apply H1.
  - intros i j r s [[<- <-]|[Hi Hr]]%lookup_insert_Some [[<- <-]|[Hj Hs]]%lookup_insert_Some Hcode; [done| | |].
    + symmetry. by eapply code_free.
    + by eapply code_free.
    + by eapply H2.
  - intros g r [[<- <-]|[_ Hr]]%lookup_insert_Some; [rewrite Hsize|]; by apply H3.
  - intros g q Hq. destruct (H4 g q Hq) as [Hg Hpl]. split; [|done].
    destruct (decide (g = id)) as [->|Hne]; [by rewrite lookup_insert_eq|by rewrite lookup_insert_ne].
  - intros g r Hr Hlock. split; [|done]. cbn. rewrite lookup_insert_ne; [done|]. intros ->. congruence.
Qed.

Lemma own_code id p db : pugs_in_order db → Db.pugs db !! id = Some p → code_taken db id (Pug.join_code p) = false.
Proof.
  intros Ho Hp. destruct (code_taken db id (Pug.join_code p)) eqn:Ht; [exfalso|done].
  apply existsb_exists in Ht as ([k r] & Hr%list_elem_of_In%elem_of_map_to_list & [Hne Hc]%andb_true_iff).
  apply bool_decide_eq_true in Hc. apply negb_true_iff, bool_decide_eq_false in Hne.
  by destruct Hne; eapply (po_code db Ho).
Qed.

Lemma rotate_sound draw id actor : preserves lobby_sound (PugService.rotate_code draw id actor).
Proof.
  intros db. unfold PugService.rotate_code. lread get_reads. intros p Hp%get_ok. lread creator_reads. intros [] _.
  lread open_reads. intros [] Hopen%open_ok. apply frame_then_at; [apply _| |intros ?; by apply preserves_ret, _].
  unfold set_join_code. rewrite Hp, bool_decide_true by done. cbn [andb].
  destruct (code_taken db id _) eqn:Hfree; [reflexivity|]. unfold update_pug, mbind. rewrite Hp. cbn.
  by apply (put_sound id p).
Qed.

(** The lock: whoever flips the status first wins it. *)
Lemma lock_sound id : preserves lobby_sound (transition_status id PugStatus.Gathering PugStatus.MapSelection).
Proof.
  intros db. unfold transition_status, update_pug. destruct (Db.pugs db !! id) as [p|] eqn:Hp; [|reflexivity].
  case_bool_decide as Hst; [|reflexivity]. cbn. apply lobby_sound_given. intros Ho. apply (put_sound id p); try done.
  - unfold Pug.is_open. by rewrite Hst.
  - exact (own_code id p db Ho Hp).
Qed.

Lemma lobby_inserted_sound p q db :
  Pug.id p = Db.next_uuid db → 1 ≤ Pug.team_size p ≤ 16 → code_taken db (Pug.id p) (Pug.join_code p) = false →
  is_Some (Db.players db !! q) →
  lobby_sound db (put_members (<[(Pug.id p, q) := PugMember.mk (Some 1) true (Db.now db)]> (Db.pug_players db))
    (db <| Db.next_uuid := N.succ (Db.next_uuid db) |> <| Db.pugs := <[Pug.id p := p]> (Db.pugs db) |>)).
Proof.
  intros Hid Hsize Hfree Hq [H1 H2 H3 H4 H5].
  assert (Db.pugs db !! Pug.id p = None) as Hnew.
  { destruct (Db.pugs db !! Pug.id p) as [r|] eqn:Hr; [|done]. destruct (H1 _ _ Hr). lia. }
  assert (∀ r, Db.pug_players db !! (Pug.id p, r) = None) as Hempty.
  { intros r. destruct (Db.pug_players db !! (Pug.id p, r)) as [m|] eqn:Hm; [|done].
    destruct (H4 (Pug.id p) r) as [[s Hs] _]; [by rewrite Hm|congruence]. }
  split; [split|]; cbn.
  - intros g r [[<- <-]|[_ Hr]]%lookup_insert_Some; [split; [done|lia]|]. destruct (H1 g r Hr). split; [done|lia].
  - intros i j r s [[<- <-]|[Hi Hr]]%lookup_insert_Some [[<- <-]|[Hj Hs]]%lookup_insert_Some Hcode; [done| | |].
    + symmetry. by eapply code_free.
    + by eapply code_free.
    + by eapply H2.
  - intros g r [[<- <-]|[Hne Hr]]%lookup_insert_Some.
    + split; [exact Hsize|]. eapply lobby_fits_perm; [symmetry; by apply members_insert|].
      assert (members_in (Pug.id p) (Db.pug_players db) = []) as ->.
      { apply elem_of_nil_inv. intros [r m] Hm%elem_of_members. by rewrite Hempty in Hm. }
      split; [cbn; unfold PugService.BENCH_SLOTS; lia| |].
      * intros t. rewrite seats_cons. unfold seats. cbn. destruct (decide _); lia.
      * intros r m t [[= _ ->]|[]%elem_of_nil]%elem_of_cons. intros [= <-]. by left.
    + destruct (H3 g r Hr) as [Hs Hf]. split; [exact Hs|]. eapply lobby_fits_perm; [|exact Hf]. symmetry.
      apply members_same. intros r'. rewrite lookup_insert_ne; [done|congruence].
  - intros g r [m [[[= <- <-] _]|[_ Hm]]%lookup_insert_Some]; [by rewrite lookup_insert_eq|].
    destruct (H4 g r) as [Hg Hr]; [by rewrite Hm|]. split; [|exact Hr]. rewrite lookup_insert_ne; [done|].
    intros <-. by destruct Hg as [s Hs]; rewrite Hnew in Hs.
  - intros g r Hr. destruct (H5 g r Hr) as [m Hm]. rewrite lookup_insert_ne; [by rewrite Hm|].
    intros [= <- <-]. by rewrite Hempty in Hm.
  - intros g r Hr Hlock. assert (g ≠ Pug.id p) by congruence. split; [by cbn; rewrite lookup_insert_ne|].
    split; [|done]. intros r'. cbn. rewrite lookup_insert_ne; [done|congruence].
Qed.

Lemma create_sound draw game user player format mode side size region pool listed :
  preserves lobby_sound (PugService.create draw game user player format mode side size region pool listed).
Proof.
  intros db. unfold PugService.create. destruct (negb _); [reflexivity|]. destruct (_ && _); [reflexivity|].
  destruct (from_option _ _ _); [reflexivity|]. lread_by (unfold count_active_created_by; frame). intros n _.
  destruct (bool_decide _); [reflexivity|]. lread_by (frame). intros now _.
  unfold create, transaction. set (p := inserted _ _ _). destruct (violated db p) eqn:Hv; [reflexivity|].
  destruct (known_player _ db) eqn:Hk; [|reflexivity]. cbn [negb snd]. unfold violated in Hv.
  destruct (bool_decide (Pug.match_format p = MatchFormat.Bo7)); [done|].
  case_bool_decide as Hsize; [|done]. cbn [negb] in Hv. destruct (code_taken db _ _) eqn:Hfree; [done|].
  apply lobby_inserted_sound; try done. by apply bool_decide_eq_true in Hk.
Qed.

(** ** Any sequence of calls *)

(** What goes on elsewhere makes players, and never touches the lobbies. *)
Record elsewhere (db db' : Db.t) : Prop := {
  ew_pugs : Db.pugs db' = Db.pugs db;
  ew_members : Db.pug_players db' = Db.pug_players db;
  ew_votes : Db.pug_wheel_entries db' = Db.pug_wheel_entries db;
  ew_players q : is_Some (Db.players db !! q) → is_Some (Db.players db' !! q);
  ew_next : (Db.next_uuid db ≤ Db.next_uuid db')%N;
}.

Lemma lobbies_elsewhere_sound db db' : elsewhere db db' → lobby_sound db db'.
Proof.
  intros [E1 E2 E3 E4 E5] [H1 H2 H3 H4 H5]. split; [split|]; rewrite ?E1, ?E2, ?E3; try done.
  - intros g p Hp. destruct (H1 g p Hp). split; [done|lia].
  - intros g q Hq. destruct (H4 g q Hq). auto.
  - intros g p Hp _. by rewrite E1, E2, E3.
Qed.

Inductive lobby_step : Db.t → Db.t → Prop :=
| Create draw game user player format mode side size region pool listed db :
    lobby_step db (PugService.create draw game user player format mode side size region pool listed db).2
| Join code q db : lobby_step db (PugService.join_by_code code q db).2
| Leave id q user db : lobby_step db (PugService.leave id q user db).2
| Kick id actor q creator db : lobby_step db (PugService.kick id actor q creator db).2
| SetTeam id actor a q team db : lobby_step db (PugService.set_team id actor a q team db).2
| SetCaptain id actor q c db : lobby_step db (PugService.set_captain id actor q c db).2
| Shuffle shuffled id actor db : (∀ l, shuffled l ≡ₚ l) → lobby_step db (PugService.shuffle shuffled id actor db).2
| Swap id actor db : lobby_step db (PugService.swap_teams id actor db).2
| Draft id actor a q db : lobby_step db (PugService.draft_pick id actor a q db).2
| Nominate id q map_id db : lobby_step db (PugService.nominate_map id q map_id db).2
| Rotate draw id actor db : lobby_step db (PugService.rotate_code draw id actor db).2
| Lock id db : lobby_step db (transition_status id PugStatus.Gathering PugStatus.MapSelection db).2
| Elsewhere db db' : elsewhere db db' → lobby_step db db'.

Lemma lobby_step_sound db db' : lobby_step db db' → lobby_sound db db'.
Proof.
  destruct 1.
  - apply create_sound.
  - apply join_sound.
  - apply leave_sound.
  - apply kick_sound.
  - apply set_team_sound.
  - apply captain_sound.
  - by apply shuffle_sound.
  - apply swap_call_sound.
  - apply draft_sound.
  - apply nominate_call_sound.
  - apply rotate_sound.
  - apply lock_sound.
  - by apply lobbies_elsewhere_sound.
Qed.

Lemma lobby_steps_sound db db' : rtc lobby_step db db' → lobby_sound db db'.
Proof.
  induction 1 as [db|db db1 db' Hs _ IH]; [reflexivity|]. etransitivity; [by apply lobby_step_sound|exact IH].
Qed.


(** ** The draft, the shuffle and the lock *)

Lemma roster_find id q m db :
  pugs_in_order db → Db.pug_players db !! (id, q) = Some m →
  ∃ c, head (filter (λ p, PugPlayer.player_id p = q) (roster id db)) = Some (player_row id q m c).
Proof.
  intros Ho Hq. destruct (po_home db Ho id q) as [_ [c Hc]]; [by rewrite Hq|]. exists c.
  assert (player_row id q m c ∈ filter (λ p, PugPlayer.player_id p = q) (roster id db)) as Hin.
  { apply list_elem_of_filter. split; [done|]. apply elem_of_roster. by exists q, m, c. }
  destruct (filter _ _) as [|r rs] eqn:Hf; [by apply elem_of_nil in Hin|]. cbn. f_equal.
  assert (r ∈ filter (λ p, PugPlayer.player_id p = q) (roster id db)) as Hr by (rewrite Hf; left).
  apply list_elem_of_filter in Hr as [Hid (q' & m' & c' & Hq' & Hc' & ->)%elem_of_roster].
  cbn in Hid. subst q'. congruence.
Qed.

(** A captain, of the given team when there is one. *)
Definition captain_of (id : PugId) (a : PlayerId) (team : option Z) (db : Db.t) : bool :=
  match Db.pug_players db !! (id, a) with
  | Some m => PugMember.is_captain m && from_option (λ t, bool_decide (PugMember.team m = Some t)) true team
  | None => false
  end.

Lemma captain_in_roster id a team db :
  pugs_in_order db →
  existsb (λ p, bool_decide (PugPlayer.player_id p = a) && PugPlayer.is_captain p
    && from_option (λ t, bool_decide (PugPlayer.team p = Some t)) true team) (roster id db) =
  captain_of id a team db.
Proof.
  intros Ho. apply eq_true_iff_eq. rewrite existsb_exists. unfold captain_of. split.
  - intros (r & (q & m & c & Hq & Hc & ->)%list_elem_of_In%elem_of_roster & Hr). cbn in Hr.
    apply andb_true_iff in Hr as [[<-%bool_decide_eq_true Hcap]%andb_true_iff Ht]. by rewrite Hq, Hcap, Ht.
  - destruct (Db.pug_players db !! (id, a)) as [m|] eqn:Ha; [|done]. intros [Hcap Ht]%andb_true_iff.
    destruct (po_home db Ho id a) as [_ [c Hc]]; [by rewrite Ha|]. exists (player_row id a m c).
    rewrite <- list_elem_of_In, elem_of_roster. split; [by exists a, m, c|].
    cbn [player_row PugPlayer.player_id PugPlayer.is_captain PugPlayer.team]. by rewrite bool_decide_true, Hcap, Ht.
Qed.

Lemma get_run id p db : Db.pugs db !! id = Some p → PugService.get id db = (Ok p, db).
Proof. intros Hp. unfold PugService.get, find_by_id, mbind, mread, mlift. by rewrite Hp. Qed.
Lemma open_run p msg db : Pug.is_open p = true → PugService.require_open p msg db = (Ok tt, db).
Proof. intros Hopen. unfold PugService.require_open. by rewrite Hopen. Qed.

Lemma picking_smaller id p db :
  pugs_in_order db → Db.pugs db !! id = Some p →
  let s t := seats t (members_in id (Db.pug_players db)) in
  PugService.picking_team (roster id db) (Pug.team_size p) =
  if bool_decide (Pug.team_size p ≤ s 1) && bool_decide (Pug.team_size p ≤ s 2) then None
  else Some (if bool_decide (s 2 < s 1) then 2 else 1).
Proof.
  intros Ho Hp s. destruct (po_fits db Ho id p Hp) as [Hsize [_ Hfits _]].
  pose proof (Hfits 1). pose proof (Hfits 2). fold (s 1) (s 2) in *.
  unfold PugService.picking_team. rewrite !team_count_seats, usize_small by (try done; lia). fold (s 1) (s 2).
  repeat (case_bool_decide; try lia; cbn [andb]); done.
Qed.

(** The draft: a player on the bench is picked for the team with fewer players,
  team 1 on a tie, when either has room; the creator may pick, and the captain of
  the team whose turn it is; anyone else is refused, and then nothing is written. *)
Theorem draft_pick_spec id p actor a q m db :
  pugs_in_order db → Db.pugs db !! id = Some p → Pug.is_open p = true →
  Db.pug_players db !! (id, q) = Some m → PugMember.team m = None →
  let s t := seats t (members_in id (Db.pug_players db)) in
  let t := if bool_decide (s 2 < s 1) then 2 else 1 in
  let seated := <[(id, q) := m <| PugMember.team := Some t |>]> (Db.pug_players db) in
  if decide (Pug.team_size p ≤ s 1 ∧ Pug.team_size p ≤ s 2)
  then PugService.draft_pick id actor a q db = (Err (Error (DomainError.Conflict "Both teams are full")), db)
  else if bool_decide (Pug.created_by_user_id p = actor) || captain_of id a (Some t) db
  then PugService.draft_pick id actor a q db = (Ok t, put_members seated db) ∧
       seats t (members_in id seated) = s t + 1 ∧ s t < Pug.team_size p
  else ∃ e, PugService.draft_pick id actor a q db = (Err e, db).
Proof.
  intros Ho Hp Hopen Hq Hbench s t seated.
  assert (PugService.picking_team (roster id db) (Pug.team_size p) =
    if bool_decide (Pug.team_size p ≤ s 1) && bool_decide (Pug.team_size p ≤ s 2) then None else Some t) as Hpick
    by exact (picking_smaller id p db Ho Hp).
  destruct (roster_find id q m db Ho Hq) as [c Hfind].
  assert (PugService.draft_pick id actor a q db =
    match PugService.picking_team (roster id db) (Pug.team_size p) with
    | None => (Err (Error (DomainError.Conflict "Both teams are full")), db)
    | Some picking =>
        if negb (bool_decide (Pug.created_by_user_id p = actor)) && negb (captain_of id a (Some picking) db)
        then mthrow (DomainError.NotAuthorized ("It is team " +:+ pretty picking
               +:+ "'s pick — only their captain (or the creator) can draft")) db
        else (let* moved := set_player_team id q (Some picking) (Pug.team_size p) in
              if moved : bool then mret picking
              else mthrow (DomainError.Conflict ("Team " +:+ pretty picking
                     +:+ " filled up before the pick landed"))) db
    end) as ->.
  { unfold PugService.draft_pick. rewrite (mbind_step _ _ _ _ _ (get_run _ _ _ Hp)).
    rewrite (mbind_step _ _ _ _ _ (open_run _ _ _ Hopen)). unfold mbind at 1, list_players, mread. rewrite Hfind.
    cbn [player_row PugPlayer.team]. rewrite Hbench. destruct (PugService.picking_team _ _) as [picking|]; [|done].
    rewrite <- (captain_in_roster id a (Some picking)) by done. cbn [from_option]. by destruct (negb _ && negb _). }
  destruct (po_fits db Ho id p Hp) as [Hsize [_ Hfits _]]. pose proof (Hfits 1) as F1. pose proof (Hfits 2) as F2.
  change (s 1 ≤ Pug.team_size p) in F1. change (s 2 ≤ Pug.team_size p) in F2. rewrite Hpick.
  destruct (decide _) as [[H1 H2]|Hroom].
  { by rewrite (bool_decide_true _ H1), (bool_decide_true _ H2). }
  assert (bool_decide (Pug.team_size p ≤ s 1) && bool_decide (Pug.team_size p ≤ s 2) = false) as ->
    by (apply andb_false_iff; rewrite !bool_decide_eq_false; lia).
  rewrite <- negb_orb. destruct (_ || _); cbn [negb]; [|by eexists].
  assert (s t < Pug.team_size p) as Hst by (clear Hpick; subst t; case_bool_decide; unfold s in *; lia).
  assert (taken id q t db = s t) as Htaken.
  { rewrite (taken_seats id q m) by done. unfold s.
    rewrite (seats_perm t _ _ (members_split id (Db.pug_players db) q m Hq)), seats_cons.
    rewrite decide_False; [done|]. unfold on. cbn. by rewrite Hbench. }
  split.
  - unfold mbind, set_player_team. rewrite Hq. cbn [from_option]. by rewrite Htaken, bool_decide_true.
  - split; [|done]. unfold seated. rewrite (seats_perm t _ _ (members_replace id _ q m _ Hq)), seats_cons.
    rewrite decide_True by done. rewrite <- (taken_seats id q m) by done. lia.
Qed.

(** Shuffling deals everyone: team 1 gets half of the lobby, rounded up, team 2
  half, rounded down, both up to their size, and the rest sit on the bench; who
  captains and since when they are there stays, and so do the other lobbies. *)
Theorem shuffle_deals shuffled id p db :
  pugs_in_order db → Db.pugs db !! id = Some p → Pug.is_open p = true → (∀ l, shuffled l ≡ₚ l) →
  let n := Z.of_nat (length (members_in id (Db.pug_players db))) in
  ∃ table, PugService.shuffle shuffled id (Pug.created_by_user_id p) db = (Ok tt, put_members table db) ∧
    seats 1 (members_in id table) = Pug.team_size p `min` ((n + 1) `div` 2) ∧
    seats 2 (members_in id table) = Pug.team_size p `min` (n `div` 2) ∧
    (∀ g q, g ≠ id → table !! (g, q) = Db.pug_players db !! (g, q)) ∧
    ∀ q, (λ m, (PugMember.is_captain m, PugMember.joined_at m)) <$> table !! (id, q) =
         (λ m, (PugMember.is_captain m, PugMember.joined_at m)) <$> Db.pug_players db !! (id, q).
Proof.
  intros Ho Hp Hopen Hsh n. destruct (po_fits db Ho id p Hp) as [Hsize _].
  pose proof (roster_dealt shuffled id db Ho (Hsh _)) as Hids.
  set (size := usize_or_max (Pug.team_size p)). assert (size = Pug.team_size p) as Esize by (apply usize_small; lia).
  set (l := PugService.deal size (shuffled (PugPlayer.player_id <$> roster id db))). specialize (Hids size). fold l in Hids.
  exists (dealt id l (Db.pug_players db)). split.
  { unfold PugService.shuffle. rewrite (mbind_step _ _ _ _ _ (get_run _ _ _ Hp)).
    unfold PugService.require_creator. rewrite bool_decide_true by done.
    rewrite (mbind_step (mret tt) _ db tt db eq_refl), (mbind_step _ _ _ _ _ (open_run _ _ _ Hopen)).
    unfold mbind, list_players, mread. apply assign_run. }
  assert (Z.of_nat (length (shuffled (PugPlayer.player_id <$> roster id db))) = n) as Hn.
  { subst n. rewrite Hsh, roster_ids by done. by rewrite length_fmap. }
  destruct (deal_counts size (shuffled (PugPlayer.player_id <$> roster id db)) ltac:(lia)) as [H1 H2].
  rewrite !dealt_seats by done. fold l in H1, H2. rewrite H1, H2, Hn, Esize.
  split; [done|]. split; [done|]. split; [intros g q Hne; apply dealt_other; by left|].
  intros q. destruct (decide (q ∈ l.*1)) as [Hq|Hq]; [|by rewrite dealt_other by auto].
  apply list_elem_of_fmap in Hq as ([q' t] & -> & Hq).
  rewrite (dealt_lookup id l _ q' t), <- option_fmap_compose; [done| |done]. rewrite Hids. apply members_NoDup.
Qed.

Lemma unique_maps ms acc :
  NoDup acc → NoDup (fold_left PugService.push_unique ms acc) ∧
  ∀ m, m ∈ fold_left PugService.push_unique ms acc ↔ m ∈ acc ∨ m ∈ ms.
Proof.
  revert acc. induction ms as [|m ms IH]; intros acc Hnd; cbn [fold_left].
  { split; [done|]. intros m. split; [auto|]. by intros [?|?%elem_of_nil]. }
  unfold PugService.push_unique at 2 4. case_bool_decide as Hm.
  - destruct (IH acc Hnd) as [H1 H2]. split; [done|]. intros m'. rewrite H2, elem_of_cons. naive_solver.
  - destruct (IH (acc ++ [m])) as [H1 H2].
    + apply NoDup_app. split; [done|]. split; [|apply NoDup_singleton]. by intros x Hx ->%list_elem_of_singleton.
    + split; [done|]. intros m'. rewrite H2, elem_of_app, list_elem_of_singleton, elem_of_cons. tauto.
Qed.

(** The teams a lobby locks with. *)
Record lockable_teams (id : PugId) (p : Pug.t) (force : bool) (db : Db.t) : Prop := {
  lt_present t : t = 1 ∨ t = 2 → 0 < seats t (members_in id (Db.pug_players db));
  lt_full t : t = 1 ∨ t = 2 → force = true ∨ seats t (members_in id (Db.pug_players db)) = Pug.team_size p;
  lt_steam q m t c : Db.pug_players db !! (id, q) = Some m → PugMember.team m = Some t → t = 1 ∨ t = 2 →
    Db.players db !! q = Some c → has_steam_id c = true;
}.

(** Who locks which lobby. *)
Definition may_lock (id : PugId) (p : Pug.t) (actor : UserId) (a : PlayerId) (force frozen : bool) (db : Db.t) : Prop :=
  PugService.lockable p frozen = true ∧ (Pug.created_by_user_id p = actor ∨ captain_of id a None db = true) ∧
  lockable_teams id p force db.

(** The rows of a team, with the columns of its players. *)
Definition lists_team (id : PugId) (t : Z) (db : Db.t) (l : list PugPlayer.t) : Prop :=
  ∀ r, r ∈ l ↔ ∃ q m c, Db.pug_players db !! (id, q) = Some m ∧ PugMember.team m = Some t ∧
    Db.players db !! q = Some c ∧ r = player_row id q m c.

Lemma team_of_seats id t db :
  pugs_in_order db →
  Z.of_nat (length (PugService.team_of (roster id db) t)) = seats t (members_in id (Db.pug_players db)).
Proof. intros Ho. by rewrite <- team_count_seats. Qed.

Lemma elem_of_team_of id t db : lists_team id t db (PugService.team_of (roster id db) t).
Proof.
  intros r. unfold PugService.team_of. rewrite list_elem_of_filter, elem_of_roster. split.
  - intros (Ht & q & m & c & Hq & Hc & ->). by exists q, m, c.
  - intros (q & m & c & Hq & Ht & Hc & ->). split; [exact Ht|]. by exists q, m, c.
Qed.

(** The players of either team no server would let in. *)
Definition without_steam (id : PugId) (db : Db.t) : list PugPlayer.t :=
  filter (λ r, PugPlayer.has_steam_id r = false)
    (PugService.team_of (roster id db) 1 ++ PugService.team_of (roster id db) 2).

Lemma all_with_steam id db :
  without_steam id db = [] ↔ ∀ q m t c, Db.pug_players db !! (id, q) = Some m → PugMember.team m = Some t →
    t = 1 ∨ t = 2 → Db.players db !! q = Some c → has_steam_id c = true.
Proof.
  unfold without_steam. split.
  - intros Hnil q m t c Hq Hm Ht Hc. apply not_false_iff_true. intros Hno.
    assert (player_row id q m c ∈ filter (λ r, PugPlayer.has_steam_id r = false)
      (PugService.team_of (roster id db) 1 ++ PugService.team_of (roster id db) 2)) as Hin;
      [|by rewrite Hnil in Hin; apply elem_of_nil in Hin].
    apply list_elem_of_filter. split; [exact Hno|]. rewrite elem_of_app, (elem_of_team_of id 1 db _), (elem_of_team_of id 2 db _).
    destruct Ht as [-> | ->]; [left|right]; by exists q, m, c.
  - intros Hall. apply filter_none. intros r Hr.
    rewrite elem_of_app, (elem_of_team_of id 1 db _), (elem_of_team_of id 2 db _) in Hr.
    destruct Hr as [(q & m & c & Hq & Ht & Hc & ->)|(q & m & c & Hq & Ht & Hc & ->)]; cbn;
      rewrite (Hall q m _ c Hq Ht) by auto; done.
Qed.

Lemma lock_maps_run id p db :
  ∃ hint format, PugService.lock_maps id p db = (Ok (hint, format), db) ∧
    (Pug.map_selection_mode p = PugMapSelectionMode.Veto → hint = default [] (Pug.map_pool p)) ∧
    (Pug.map_selection_mode p = PugMapSelectionMode.Wheel →
       StronglySorted (λ a b, String.leb a b = true) hint ∧ NoDup hint ∧
       ∀ m, m ∈ hint ↔ m ∈ PugWheelEntry.map_id <$> wheel_entries_of id db).
Proof.
  unfold PugService.lock_maps. destruct (Pug.map_selection_mode p).
  - eexists _, _. split; [reflexivity|]. by split.
  - eexists _, _. split; [reflexivity|]. split; [done|]. intros _. cbn.
    destruct (unique_maps (PugWheelEntry.map_id <$> wheel_entries_of id db) [] ltac:(constructor)) as [H1 H2].
    split; [|split].
    + apply stable_sort_sorted; [intros a b; apply String.leb_total|intros a b c; apply string_leb_trans].
    + by rewrite stable_sort_perm.
    + intros m. rewrite stable_sort_perm, H2. split; [intros [[]%elem_of_nil|Hm]; exact Hm|auto].
Qed.

(** C32. A lobby locks exactly when it still gathers (or, once frozen, has no match
  yet), the caller created it or captains a team, both teams have players, as many
  as the size asks unless forced, and each of them has a linked Steam account; the
  plan then carries exactly the players of the two teams, and as maps the lobby's
  own pool or, with the wheel, every nominated map once, in order; nothing is
  written. *)
Theorem prepare_lock_spec id p actor a force frozen db :
  pugs_in_order db → Db.pugs db !! id = Some p →
  (may_lock id p actor a force frozen db →
   ∃ plan, PugService.prepare_lock id actor a force frozen db = (Ok plan, db) ∧ LockPlan.pug plan = p ∧
     lists_team id 1 db (LockPlan.team1 plan) ∧ lists_team id 2 db (LockPlan.team2 plan) ∧
     (Pug.map_selection_mode p = PugMapSelectionMode.Veto → LockPlan.map_pool_hint plan = default [] (Pug.map_pool p)) ∧
     (Pug.map_selection_mode p = PugMapSelectionMode.Wheel →
        StronglySorted (λ a b, String.leb a b = true) (LockPlan.map_pool_hint plan) ∧
        NoDup (LockPlan.map_pool_hint plan) ∧
        ∀ m, m ∈ LockPlan.map_pool_hint plan ↔ m ∈ PugWheelEntry.map_id <$> wheel_entries_of id db)) ∧
  (¬ may_lock id p actor a force frozen db → ∃ e, PugService.prepare_lock id actor a force frozen db = (Err e, db)).
Proof.
  intros Ho Hp. destruct (po_fits db Ho id p Hp) as [Hsize _].
  pose proof (team_of_seats id 1 db Ho) as H1. pose proof (team_of_seats id 2 db Ho) as H2.
  unfold may_lock, PugService.prepare_lock. rewrite (mbind_step _ _ _ _ _ (get_run _ _ _ Hp)).
  destruct (PugService.lockable p frozen); cbn [negb].
  2: { split; [by intros [? _]|]. intros _. by eexists. }
  unfold mbind at 1 3, list_players, mread. rewrite <- (captain_in_roster id a None) by done.
  assert (existsb (λ p, bool_decide (PugPlayer.player_id p = a) && PugPlayer.is_captain p) (roster id db) =
    existsb (λ p, bool_decide (PugPlayer.player_id p = a) && PugPlayer.is_captain p
      && from_option (λ t, bool_decide (PugPlayer.team p = Some t)) true None) (roster id db)) as ->.
  { apply eq_true_iff_eq. rewrite !existsb_exists. by setoid_rewrite andb_true_r. }
  rewrite captain_in_roster by done. fold (without_steam id db).
  set (team1 := PugService.team_of (roster id db) 1) in *. set (team2 := PugService.team_of (roster id db) 2) in *.
  destruct (negb _ && negb _) eqn:Hauth.
  { split; [|intros _; by eexists]. intros (_ & [Hc|Hc] & _).
    - by rewrite bool_decide_true in Hauth.
    - by rewrite Hc, andb_false_r in Hauth. }
  destruct (bool_decide (team1 = []) || bool_decide (team2 = [])) eqn:Hnone.
  { split; [|intros _; by eexists]. intros (_ & _ & [Hpos _ _]). pose proof (Hpos 1). pose proof (Hpos 2).
    apply orb_true_iff in Hnone as [E%bool_decide_eq_true|E%bool_decide_eq_true]; rewrite E in *; cbn in *; lia. }
  rewrite H1, H2, usize_small by lia. destruct (negb force && _) eqn:Hfull.
  { split; [|intros _; by eexists]. intros (_ & _ & [_ Hf _]). exfalso.
    destruct (Hf 1) as [-> |E1]; [by left|done|]. destruct (Hf 2) as [-> |E2]; [by right|done|].
    rewrite E1, E2, !bool_decide_true, andb_false_r in Hfull; done. }
  destruct (bool_decide (_ <$> without_steam id db = [])) eqn:Hsteam; cbn [negb];
    [apply bool_decide_eq_true in Hsteam|apply bool_decide_eq_false in Hsteam].
  2: { split; [|intros _; by eexists]. intros (_ & _ & [_ _ Hst]). destruct Hsteam.
       rewrite (proj2 (all_with_steam id db) Hst). done. }
  destruct (lock_maps_run id p db) as (hint & format & Hmaps & Hveto & Hwheel).
  split.
  - intros _. eexists. unfold mbind. rewrite Hmaps. split; [reflexivity|]. cbn [LockPlan.pug LockPlan.team1
      LockPlan.team2 LockPlan.map_pool_hint fst].
    split; [done|]. split; [apply elem_of_team_of|]. split; [apply elem_of_team_of|]. by split.
  - intros Hnot. destruct Hnot. split; [done|]. split; [|split].
    + apply andb_false_iff in Hauth as [E%negb_false_iff|E%negb_false_iff]; [left|by right].
      by apply bool_decide_eq_true in E.
    + apply orb_false_iff in Hnone as [E1%bool_decide_eq_false E2%bool_decide_eq_false].
      destruct team1; [done|]. destruct team2; [done|]. cbn in H1, H2. intros i [-> | ->]; lia.
    + intros i Hi. destruct force; [by left|right]. cbn in Hfull.
      apply orb_false_iff in Hfull as [E1%negb_false_iff%bool_decide_eq_true E2%negb_false_iff%bool_decide_eq_true].
      by destruct Hi as [-> | ->].
    + apply all_with_steam. by apply fmap_nil_inv in Hsteam.
Qed.
End lobby.

(** ** Witnesses *)

#[local] Existing Instance sample_platform.

Definition people : gmap PlayerId PlayerColumns.t := list_to_map
  ((λ n : N, (n, PlayerColumns.mk (Some (100 + n)%N) ("player " +:+ pretty n) None (Some "76561"))) <$> [1; 2; 3]%N).
Definition players_db : Db.t := (sample_db [] [] []) <| Db.players := people |>.
Lemma people_with_steam q c : people !! q = Some c → PugRepository.has_steam_id c = true.
Proof. intros Hc%elem_of_list_to_map_2. apply list_elem_of_fmap in Hc as (n & [= _ ->] & _). reflexivity. Qed.
Definition first_code (_ _ : nat) : nat := 0.

(** Player 1 opens a lobby for two a side, with the wheel; 2 and 3 join. *)
Definition open_lobby (db : Db.t) : outcome Pug.t * Db.t :=
  PugService.create first_code 1 101 1 MatchFormat.Bo1 PugMapSelectionMode.Wheel SideSelectionMode.Knife 2
    None None true db.
Definition opened_db : Db.t := (open_lobby players_db).2.
Definition joined_db : Db.t :=
  (PugService.join_by_code "AAAAAAAAAA" 3 (PugService.join_by_code "AAAAAAAAAA" 2 opened_db).2).2.
Definition nominated_db : Db.t :=
  (PugService.nominate_map 1000 3 "de_nuke" (PugService.nominate_map 1000 2 "de_inferno" joined_db).2).2.
Definition full_db : Db.t := (PugService.set_team 1000 102 2 2 (Some 2) nominated_db).2.
Definition locked_db : Db.t :=
  (PugRepository.transition_status 1000 PugStatus.Gathering PugStatus.MapSelection full_db).2.

Lemma players_in_order : pugs_in_order players_db.
Proof.
  split.
  - intros id p Hp. cbn in Hp. by rewrite lookup_empty in Hp.
  - intros i j p q Hp. cbn in Hp. by rewrite lookup_empty in Hp.
  - intros id p Hp. cbn in Hp. by rewrite lookup_empty in Hp.
  - intros id q [m Hm]. cbn in Hm. by rewrite lookup_empty in Hm.
  - intros id q [m Hm]. cbn in Hm. by rewrite lookup_empty in Hm.
Qed.

Lemma to_joined : rtc lobby_step players_db joined_db.
Proof.
  unfold joined_db, opened_db, open_lobby.
  eapply rtc_l; [apply Create|]. eapply rtc_l; [apply Join|]. eapply rtc_l; [apply Join|]. reflexivity.
Qed.
Lemma to_full : rtc lobby_step players_db full_db.
Proof.
  etransitivity; [apply to_joined|]. unfold full_db, nominated_db.
  eapply rtc_l; [apply Nominate|]. eapply rtc_l; [apply Nominate|].
  eapply rtc_l; [apply SetTeam|]. reflexivity.
Qed.
Lemma joined_in_order : pugs_in_order joined_db.
Proof. apply (lobby_steps_sound _ _ to_joined players_in_order). Qed.
Lemma full_in_order : pugs_in_order full_db.
Proof. apply (lobby_steps_sound _ _ to_full players_in_order). Qed.

Definition lobby : Pug.t :=
  PugRepository.inserted 1000 100 {|
    CreatePug.game_id := 1; CreatePug.created_by_user_id := 101; CreatePug.creator_player_id := 1;
    CreatePug.join_code := "AAAAAAAAAA"; CreatePug.match_format := MatchFormat.Bo1;
    CreatePug.map_selection_mode := PugMapSelectionMode.Wheel; CreatePug.side_selection_mode := SideSelectionMode.Knife;
    CreatePug.team_size := 2; CreatePug.region := None; CreatePug.map_pool := None; CreatePug.listed := true;
    CreatePug.expires_at := 100 + minutes 120 |}.

Lemma joined_lobby : Db.pugs joined_db !! 1000%N = Some lobby.
Proof. reflexivity. Qed.
Lemma full_lobby : Db.pugs full_db !! 1000%N = Some lobby.
Proof. reflexivity. Qed.


(** Player 2 is on the bench, and it is team 2's turn. *)
Example draft_pick_spec_witness :
  PugService.draft_pick 1000 101 1 2 joined_db =
    (Ok 2, PugRepository.put_members
      (<[(1000%N, 2%N) := PugMember.mk (Some 2) false 100]> (Db.pug_players joined_db)) joined_db) ∧
  seats 2 (members_in 1000 (<[(1000%N, 2%N) := PugMember.mk (Some 2) false 100]> (Db.pug_players joined_db))) = 1 ∧
  0 < 2.
Proof.
  exact (draft_pick_spec 1000 lobby 101 1 2 (PugMember.mk None false 100) joined_db joined_in_order
    joined_lobby eq_refl eq_refl eq_refl).
Defined.

(** Three players: two on team 1, one on team 2. *)
Example shuffle_deals_witness :
  ∃ table, PugService.shuffle (@reverse _) 1000 101 joined_db = (Ok tt, PugRepository.put_members table joined_db) ∧
    seats 1 (members_in 1000 table) = 2 ∧ seats 2 (members_in 1000 table) = 1.
Proof.
  destruct (shuffle_deals (@reverse _) 1000 lobby joined_db joined_in_order joined_lobby eq_refl
    (λ l, reverse_Permutation l)) as (table & Hrun & H1 & H2 & _).
  exists table. split; [exact Hrun|]. split; [exact H1|exact H2].
Defined.

Definition maps_of (o : outcome LockPlan.t) : option (list string) :=
  match o with Ok plan => Some (LockPlan.map_pool_hint plan) | Err _ => None end.

(** Player 1, who created the lobby, starts it one short. *)
Example prepare_lock_spec_witness :
  ∃ plan, PugService.prepare_lock 1000 101 1 true false full_db = (Ok plan, full_db) ∧
    LockPlan.pug plan = lobby ∧ LockPlan.map_pool_hint plan = ["de_inferno"; "de_nuke"].
Proof.
  destruct (prepare_lock_spec 1000 lobby 101 1 true false full_db full_in_order full_lobby) as [Hlock _].
  destruct Hlock as (plan & Hrun & Hpug & _).
  - split; [done|]. split; [by left|]. split.
    + intros t [-> | ->]; reflexivity.
    + intros t _. by left.
    + intros q m t c _ _ _ Hc. by apply (people_with_steam q).
  - exists plan. split; [exact Hrun|]. split; [exact Hpug|].
    assert (maps_of (PugService.prepare_lock 1000 101 1 true false full_db).1 = Some ["de_inferno"; "de_nuke"]) as Hm
      by reflexivity.
    rewrite Hrun in Hm. cbn in Hm. by injection Hm.
Defined.

Example wheel_fair_witness :
  let entries := PugRepository.wheel_entries_of 1000 nominated_db in
  let segments := PugService.build_segments entries ["de_nuke"; "de_inferno"; "de_dust2"] in
  PugService.total_weight segments = 3 ∧
  ∃ m, m ∈ ["de_nuke"; "de_inferno"; "de_dust2"] ∧
    PugService.draw (λ _, 2) 7 segments = Ok (WheelDraw.mk segments m 7).
Proof.
  intros entries segments. split; [reflexivity|].
  destruct (wheel_fair entries ["de_nuke"; "de_inferno"; "de_dust2"] 7) as (_ & _ & _ & Hdraw & _); [done|reflexivity|].
  apply Hdraw. split; [done|reflexivity].
Defined.

(** ** What the freeze does not hold *)

(** A join that found the lobby open is written although it has locked meanwhile, and
    so is a change of teams: the statements do not look at the status, and the plan
    that was made of the roster does not have them. *)
Example late_join_lands :
  PugService.require_open lobby "This PUG is no longer accepting players" full_db = (Ok tt, full_db) ∧
  (PugRepository.add_player 1000 3 8 (PugRepository.remove_player 1000 3 locked_db).2).1 = Ok true ∧
  (PugRepository.set_player_team 1000 3 (Some 1) 2 locked_db).1 = Ok true ∧
  PugMember.team <$> Db.pug_players (PugRepository.set_player_team 1000 3 (Some 1) 2 locked_db).2 !! (1000%N, 3%N) =
    Some (Some 1).
Proof. repeat split; reflexivity. Qed.
