(* ===== verification/Eligibility.v ===== *)
(** Who may enter: the restrictions of leagues and tournaments
    (crates/portal-domain/src/entities/eligibility.rs), their evaluation
    (services/eligibility.rs) and the service that fetches what they look at
    (services/eligibility_service.rs); that the evaluation is exact, that a
    tournament only tightens the rules of its league, and what the check of
    contradictory rules finds. *)
From Stdlib Require Import Floats.SpecFloat.
From stdpp Require Import base list strings gmap pretty.
From S2P Require Import Prelude Errors Wire TournamentTypes CoreEnums FormatPlan Entities Rows Store StoreFacts Samples.
#[local] Open Scope Z_scope.

(** ** Restrictions *)

Module EligibilityRestrictions.
Record t := mk {
  max_rating_per_player : option Z;
  min_rating_per_player : option Z;
  max_peak_rating_per_player : option Z;
  max_avg_rating_per_player : option Z;
  max_team_total_rating : option Z;
  min_team_total_rating : option Z;
  max_team_average_rating : option Z;
  min_team_average_rating : option Z;
  allowed_rank_tiers : list string;
  min_matches_played : option Z;
}.
#[global] Instance eta_t : Eta t := λ r,
  mk (r.(max_rating_per_player)) (r.(min_rating_per_player)) (r.(max_peak_rating_per_player))
    (r.(max_avg_rating_per_player)) (r.(max_team_total_rating)) (r.(min_team_total_rating))
    (r.(max_team_average_rating)) (r.(min_team_average_rating)) (r.(allowed_rank_tiers)) (r.(min_matches_played)).
Definition default : t := mk None None None None None None None None [] None.

Definition is_set (o : option Z) : bool := bool_decide (is_Some o).
Definition has_player_restrictions (self : t) : bool :=
  is_set (max_rating_per_player self) || is_set (min_rating_per_player self)
  || is_set (max_peak_rating_per_player self) || is_set (max_avg_rating_per_player self)
  || negb (bool_decide (allowed_rank_tiers self = [])) || is_set (min_matches_played self).
Definition has_team_restrictions (self : t) : bool :=
  is_set (max_team_total_rating self) || is_set (min_team_total_rating self)
  || is_set (max_team_average_rating self) || is_set (min_team_average_rating self).
Definition has_restrictions (self : t) : bool := has_player_restrictions self || has_team_restrictions self.

(** [from_value] is the deserializer serde derives, [None] on a malformed value. *)
Definition from_settings {V} `{JsonValue V} (from_value : V → option t) (settings : V) : t :=
  option.default default (json_object settings ≫= λ obj, obj_get obj "eligibility" ≫= from_value).

(** One entry of the table of [unsatisfiable_reason]. *)
Definition contradiction (bounds : option Z * option Z * string) : option string :=
  match bounds with
  | (Some min, Some max, label) =>
      if bool_decide (max < min)
      then Some (label +:+ " minimum (" +:+ pretty min +:+ ") exceeds maximum (" +:+ pretty max +:+ ")")
      else None
  | _ => None
  end.

Definition unsatisfiable_reason (self : t) : option string :=
  head (omap contradiction
    [(min_rating_per_player self, max_rating_per_player self, "player rating");
     (min_team_total_rating self, max_team_total_rating self, "team total rating");
     (min_team_average_rating self, max_team_average_rating self, "team average rating")]).

Definition without_team_minimums (self : t) : t :=
  self <| min_team_total_rating := None |> <| min_team_average_rating := None |>.
Definition team_total_cap_only (self : t) : t :=
  default <| max_team_total_rating := max_team_total_rating self |>.

Definition tighter_max (a b : option Z) : option Z :=
  match a, b with Some a, Some b => Some (a `min` b) | x, None | None, x => x end.
Definition tighter_min (a b : option Z) : option Z :=
  match a, b with Some a, Some b => Some (a `max` b) | x, None | None, x => x end.

(** Two disjoint lists leave one tier no player has, not the empty list that allows
    every tier. *)
Definition no_tier : string := "(no tier satisfies both restrictions)".
Definition common_tiers (a b : list string) : list string :=
  match a, b with
  | [], _ => b
  | _, [] => a
  | _, _ => match filter (λ t, t ∈ b) a with [] => [no_tier] | common => common end
  end.

Definition intersect (self other : t) : t := {|
  max_rating_per_player := tighter_max (max_rating_per_player self) (max_rating_per_player other);
  min_rating_per_player := tighter_min (min_rating_per_player self) (min_rating_per_player other);
  max_peak_rating_per_player := tighter_max (max_peak_rating_per_player self) (max_peak_rating_per_player other);
  max_avg_rating_per_player := tighter_max (max_avg_rating_per_player self) (max_avg_rating_per_player other);
  max_team_total_rating := tighter_max (max_team_total_rating self) (max_team_total_rating other);
  min_team_total_rating := tighter_min (min_team_total_rating self) (min_team_total_rating other);
  max_team_average_rating := tighter_max (max_team_average_rating self) (max_team_average_rating other);
  min_team_average_rating := tighter_min (min_team_average_rating self) (min_team_average_rating other);
  allowed_rank_tiers := common_tiers (allowed_rank_tiers self) (allowed_rank_tiers other);
  min_matches_played := tighter_min (min_matches_played self) (min_matches_played other) |}.
End EligibilityRestrictions.

Module EligibilityViolation.
Record t := mk { player_id : PlayerId; restriction : string; message : string }.
End EligibilityViolation.

(** ** What the rules look at *)

Abbreviation PlayerGameProfileId := N (only parsing).

Module PlayerGameProfile.
Record t `{Platform} := mk {
  id : PlayerGameProfileId;
  player_id : PlayerId;
  game_id : GameId;
  rating : Z;
  rating_deviation : Z;
  volatility : spec_float;
  peak_rating : Z;
  peak_rating_at : option DateTime;
  rank_tier : option string;
  rank_division : option Z;
  rank_points : option Z;
  matches_played : Z;
  wins : Z;
  losses : Z;
  draws : Z;
  win_streak : Z;
  best_win_streak : Z;
  total_playtime_minutes : Z;
  game_specific_stats : Json;
  first_match_at : option DateTime;
  last_match_at : option DateTime;
  created_at : DateTime;
  updated_at : DateTime;
}.
End PlayerGameProfile.

Module RatingStats.
Record t := mk {
  current_rating : Z;
  peak_rating : Z;
  average_rating : spec_float;
  median_rating : spec_float;
  data_points : Z;
}.
End RatingStats.

(** [as i32] of an [f64]: towards zero, saturating, and zero for NaN. *)
Definition f64_as_i32 (x : spec_float) : Z :=
  let clamp z := i32_min `max` (z `min` i32_max) in
  match x with
  | S754_zero _ | S754_nan => 0
  | S754_infinity s => if s then i32_min else i32_max
  | S754_finite s m e =>
      let n := if bool_decide (0 ≤ e) then Z.pos m * 2 ^ e else Z.pos m `div` 2 ^ (- e) in
      clamp (if s then - n else n)
  end.

(** [Debug] of a list of strings, quotes and backslashes escaped. *)
Definition quote : Ascii.ascii := Ascii.ascii_of_nat 34.
Definition backslash : Ascii.ascii := Ascii.ascii_of_nat 92.
Fixpoint escaped (s : string) : string :=
  match s with
  | EmptyString => EmptyString
  | String c s =>
      if bool_decide (c = quote ∨ c = backslash) then String backslash (String c (escaped s)) else String c (escaped s)
  end.
Definition debug_list (l : list string) : string :=
  "[" +:+ String.concat ", " ((λ s, String quote (escaped s +:+ String quote EmptyString)) <$> l) +:+ "]".

(** ** The evaluation *)

Section evaluation.
Context `{Platform}.
Import EligibilityRestrictions.

Definition DEFAULT_RATING : Z := 1500.
Definition DEFAULT_PEAK : Z := 1500.

(** A player with what is known of them. *)
Abbreviation PlayerData := (PlayerId * option PlayerGameProfile.t * option RatingStats.t)%type (only parsing).

Definition rating_of (d : PlayerData) : Z := from_option PlayerGameProfile.rating DEFAULT_RATING d.1.2.
Definition peak_of (d : PlayerData) : Z := from_option PlayerGameProfile.peak_rating DEFAULT_PEAK d.1.2.
Definition matches_of (d : PlayerData) : Z := from_option PlayerGameProfile.matches_played 0 d.1.2.
Definition tier_of (d : PlayerData) : string := option.default "unranked" (d.1.2 ≫= PlayerGameProfile.rank_tier).
Definition average_of (d : PlayerData) : option Z := f64_as_i32 ∘ RatingStats.average_rating <$> d.2.

(** [if let Some(bound) = .. && wrong]: one violation. *)
Definition breach (player_id : PlayerId) (restriction : string) (bound : option Z) (wrong : Z → bool)
    (message : Z → string) : list EligibilityViolation.t :=
  match bound with
  | Some b => if wrong b then [EligibilityViolation.mk player_id restriction (message b)] else []
  | None => []
  end.

(** One turn of the loop over the players. *)
Definition check_player (r : t) (d : PlayerData) : list EligibilityViolation.t :=
  let player_id := d.1.1 in
  breach player_id "max_rating_per_player" (max_rating_per_player r) (λ max, bool_decide (max < rating_of d))
    (λ max, "Player rating (" +:+ pretty (rating_of d) +:+ ") exceeds maximum allowed (" +:+ pretty max +:+ ")") ++
  breach player_id "min_rating_per_player" (min_rating_per_player r) (λ min, bool_decide (rating_of d < min))
    (λ min, "Player rating (" +:+ pretty (rating_of d) +:+ ") is below minimum required (" +:+ pretty min +:+ ")") ++
  breach player_id "max_peak_rating_per_player" (max_peak_rating_per_player r) (λ max, bool_decide (max < peak_of d))
    (λ max, "Player peak rating (" +:+ pretty (peak_of d) +:+ ") exceeds maximum allowed (" +:+ pretty max +:+ ")") ++
  match average_of d with
  | Some avg =>
      breach player_id "max_avg_rating_per_player" (max_avg_rating_per_player r) (λ max, bool_decide (max < avg))
        (λ max, "Player average rating (" +:+ pretty avg +:+ ") exceeds maximum allowed (" +:+ pretty max +:+ ")")
  | None => []
  end ++
  breach player_id "min_matches_played" (min_matches_played r) (λ min, bool_decide (matches_of d < min))
    (λ min, "Player has played " +:+ pretty (matches_of d) +:+ " matches, minimum required is " +:+ pretty min) ++
  if bool_decide (allowed_rank_tiers r = []) || bool_decide (tier_of d ∈ allowed_rank_tiers r) then []
  else [EligibilityViolation.mk player_id "allowed_rank_tiers"
    ("Player rank tier '" +:+ tier_of d +:+ "' is not in the allowed tiers: " +:+ debug_list (allowed_rank_tiers r))].

Definition check_player_eligibility (r : t) (player_data : list PlayerData) : list EligibilityViolation.t :=
  if has_player_restrictions r then player_data ≫= check_player r else [].

(** The team violations carry [Uuid::nil()]. *)
Definition team_total (player_data : list PlayerData) : Z := fold_left i32_add (rating_of <$> player_data) 0.

Definition check_team (r : t) (player_data : list PlayerData) : list EligibilityViolation.t :=
  let total := team_total player_data in
  let count := as_i32 (Z.of_nat (length player_data)) in
  let avg := Z.quot total count in
  breach 0 "max_team_total_rating" (max_team_total_rating r) (λ max, bool_decide (max < total))
    (λ max, "Team total rating (" +:+ pretty total +:+ ") exceeds maximum allowed (" +:+ pretty max +:+ ")") ++
  breach 0 "min_team_total_rating" (min_team_total_rating r) (λ min, bool_decide (total < min))
    (λ min, "Team total rating (" +:+ pretty total +:+ ") is below minimum required (" +:+ pretty min +:+ ")") ++
  breach 0 "max_team_average_rating" (max_team_average_rating r) (λ max, bool_decide (max * count < total))
    (λ max, "Team average rating (" +:+ pretty avg +:+ ") exceeds maximum allowed (" +:+ pretty max +:+ ")") ++
  breach 0 "min_team_average_rating" (min_team_average_rating r) (λ min, bool_decide (total < min * count))
    (λ min, "Team average rating (" +:+ pretty avg +:+ ") is below minimum required (" +:+ pretty min +:+ ")").

Definition check_team_eligibility (r : t) (player_data : list PlayerData) : list EligibilityViolation.t :=
  check_player_eligibility r player_data ++
  if negb (has_team_restrictions r) || bool_decide (length player_data = 0%nat) then [] else check_team r player_data.

(** [EligibilityService], over the repositories it is generic in. *)
Class PlayerRecords := {
  get_profile : PlayerId → GameId → M (option PlayerGameProfile.t);
  get_rating_stats : PlayerId → GameId → M (option RatingStats.t);
}.

Context `{PlayerRecords}.

Fixpoint fetch_player_data (game_id : GameId) (player_ids : list PlayerId) : M (list PlayerData) :=
  match player_ids with
  | [] => mret []
  | pid :: player_ids =>
      let* profile := get_profile pid game_id in
      let* stats := get_rating_stats pid game_id in
      let* player_data := fetch_player_data game_id player_ids in
      mret ((pid, profile, stats) :: player_data)
  end.

Definition check_players (r : t) (game_id : GameId) (player_ids : list PlayerId) : M (list EligibilityViolation.t) :=
  if negb (has_player_restrictions r) then mret []
  else let* player_data := fetch_player_data game_id player_ids in mret (check_player_eligibility r player_data).

Definition check_roster (r : t) (game_id : GameId) (player_ids : list PlayerId) : M (list EligibilityViolation.t) :=
  if negb (has_restrictions r) then mret []
  else let* player_data := fetch_player_data game_id player_ids in mret (check_team_eligibility r player_data).

(** [from_value] as in [from_settings]. *)
Definition check_players_from_settings (from_value : Json → option t) (settings : Json) (game_id : GameId)
    (player_ids : list PlayerId) : M (list EligibilityViolation.t) :=
  check_players (from_settings from_value settings) game_id player_ids.
Definition check_team_from_settings (from_value : Json → option t) (settings : Json) (game_id : GameId)
    (player_ids : list PlayerId) : M (list EligibilityViolation.t) :=
  check_roster (from_settings from_value settings) game_id player_ids.
End evaluation.

(** ** What the evaluation decides *)

Section admission.
Context `{Platform}.
Import EligibilityRestrictions.

(** [x] is within a bound, where there is one. *)
Definition at_most (bound : option Z) (x : Z) : Prop := ∀ b, bound = Some b → x ≤ b.
Definition at_least (bound : option Z) (x : Z) : Prop := ∀ b, bound = Some b → b ≤ x.
Definition tier_allowed (tiers : list string) (tier : string) : Prop := tiers = [] ∨ tier ∈ tiers.

(** The rules on one player. *)
Record qualifies (r : t) (d : PlayerId * option PlayerGameProfile.t * option RatingStats.t) : Prop := {
  qu_max : at_most (max_rating_per_player r) (rating_of d);
  qu_min : at_least (min_rating_per_player r) (rating_of d);
  qu_peak : at_most (max_peak_rating_per_player r) (peak_of d);
  qu_avg avg : average_of d = Some avg → at_most (max_avg_rating_per_player r) avg;
  qu_matches : at_least (min_matches_played r) (matches_of d);
  qu_tier : tier_allowed (allowed_rank_tiers r) (tier_of d);
}.

(** The rules on a team of [n] that is rated [total] together; averages are compared
    as the ratios they are. *)
Record team_qualifies (r : t) (n total : Z) : Prop := {
  tq_max : at_most (max_team_total_rating r) total;
  tq_min : at_least (min_team_total_rating r) total;
  tq_max_avg b : max_team_average_rating r = Some b → total ≤ b * n;
  tq_min_avg b : min_team_average_rating r = Some b → b * n ≤ total;
}.

Lemma breach_nil p key bound wrong msg : breach p key bound wrong msg = [] ↔ ∀ b, bound = Some b → wrong b = false.
Proof.
  unfold breach. destruct bound as [b|]; [|by split]. destruct (wrong b) eqn:Hb.
  - split; [done|]. intros Hall. by rewrite (Hall b eq_refl) in Hb.
  - split; [|done]. by intros _ b' [= <-].
Qed.

Lemma app_nil_iff {A} (l k : list A) : l ++ k = [] ↔ l = [] ∧ k = [].
Proof. split; [apply app_nil|]. by intros [-> ->]. Qed.

Lemma at_most_breach p key bound x msg :
  breach p key bound (λ max, bool_decide (max < x)) msg = [] ↔ at_most bound x.
Proof.
  rewrite breach_nil. unfold at_most. split; intros Hall b Hb; specialize (Hall b Hb);
    [apply bool_decide_eq_false in Hall|apply bool_decide_eq_false]; lia.
Qed.
Lemma at_least_breach p key bound x msg :
  breach p key bound (λ min, bool_decide (x < min)) msg = [] ↔ at_least bound x.
Proof.
  rewrite breach_nil. unfold at_least. split; intros Hall b Hb; specialize (Hall b Hb);
    [apply bool_decide_eq_false in Hall|apply bool_decide_eq_false]; lia.
Qed.

Lemma check_player_nil r d : check_player r d = [] ↔ qualifies r d.
Proof.
  unfold check_player. rewrite !app_nil_iff, !at_most_breach, !at_least_breach.
  assert ((if bool_decide (allowed_rank_tiers r = []) || bool_decide (tier_of d ∈ allowed_rank_tiers r) then []
    else [EligibilityViolation.mk d.1.1 "allowed_rank_tiers" ("Player rank tier '" +:+ tier_of d +:+
      "' is not in the allowed tiers: " +:+ debug_list (allowed_rank_tiers r))]) = [] ↔
    tier_allowed (allowed_rank_tiers r) (tier_of d)) as ->.
  { unfold tier_allowed. destruct (_ || _) eqn:Ht.
    - split; [|done]. intros _. apply orb_true_iff in Ht as [Ht%bool_decide_eq_true|Ht%bool_decide_eq_true]; auto.
    - apply orb_false_iff in Ht as [H1%bool_decide_eq_false H2%bool_decide_eq_false]. naive_solver. }
  assert (match average_of d with
    | Some avg => breach d.1.1 "max_avg_rating_per_player" (max_avg_rating_per_player r) (λ max, bool_decide (max < avg))
        (λ max, "Player average rating (" +:+ pretty avg +:+ ") exceeds maximum allowed (" +:+ pretty max +:+ ")")
    | None => []
    end = [] ↔ ∀ avg, average_of d = Some avg → at_most (max_avg_rating_per_player r) avg) as ->.
  { destruct (average_of d) as [avg|]; [|by split]. rewrite at_most_breach. split; [|by auto]. by intros Ha ? [= <-]. }
  split; [by intros (? & ? & ? & ? & ? & ?)|]. by intros [].
Qed.

Lemma unrestricted_qualifies r d : has_player_restrictions r = false → qualifies r d.
Proof.
  unfold has_player_restrictions, is_set. rewrite !orb_false_iff, negb_false_iff, !bool_decide_eq_false, bool_decide_eq_true.
  intros (((((H1 & H2) & H3) & H4) & H5) & H6). unfold at_most, at_least, tier_allowed.
  split; unfold at_most, at_least, tier_allowed; try (intros ? Hb; exfalso; naive_solver).
  - intros ? _ ? Hb. exfalso. naive_solver.
  - by left.
Qed.

Lemma check_players_nil r data : check_player_eligibility r data = [] ↔ ∀ d, d ∈ data → qualifies r d.
Proof.
  unfold check_player_eligibility. destruct (has_player_restrictions r) eqn:Hr.
  - induction data as [|d data IH]; csimpl; [split; [by intros _ d Hd%elem_of_nil|done]|].
    rewrite app_nil_iff, check_player_nil, IH. setoid_rewrite elem_of_cons. naive_solver.
  - split; [|done]. intros _ d _. by apply unrestricted_qualifies.
Qed.

Lemma check_team_nil r data :
  check_team r data = [] ↔ team_qualifies r (as_i32 (Z.of_nat (length data))) (team_total data).
Proof.
  unfold check_team. rewrite !app_nil_iff, at_most_breach, at_least_breach, !breach_nil.
  split.
  - intros (H1 & H2 & H3 & H4). split; [done|done| |].
    + intros b Hb. specialize (H3 b Hb). apply bool_decide_eq_false in H3. lia.
    + intros b Hb. specialize (H4 b Hb). apply bool_decide_eq_false in H4. lia.
  - intros [H1 H2 H3 H4]. split; [done|]. split; [done|]. split; intros b Hb; apply bool_decide_eq_false.
    + specialize (H3 b Hb). lia.
    + specialize (H4 b Hb). lia.
Qed.

Lemma unrestricted_team r n total : has_team_restrictions r = false → team_qualifies r n total.
Proof.
  unfold has_team_restrictions, is_set. rewrite !orb_false_iff, !bool_decide_eq_false.
  intros (((H1 & H2) & H3) & H4). split; unfold at_most, at_least; intros ? Hb; exfalso; naive_solver.
Qed.

Lemma eligible_nil r data :
  check_team_eligibility r data = [] ↔ (∀ d, d ∈ data → qualifies r d) ∧
    (data = [] ∨ team_qualifies r (as_i32 (Z.of_nat (length data))) (team_total data)).
Proof.
  unfold check_team_eligibility. rewrite app_nil_iff, check_players_nil.
  destruct (has_team_restrictions r) eqn:Hr; cbn [negb orb].
  - case_bool_decide as Hlen.
    + apply nil_length_inv in Hlen as ->. naive_solver.
    + rewrite check_team_nil. destruct data; [done|]. naive_solver.
  - pose proof (unrestricted_team r (as_i32 (Z.of_nat (length data))) (team_total data) Hr). naive_solver.
Qed.

(** *** Sums that fit *)

Definition ratings (data : list (PlayerId * option PlayerGameProfile.t * option RatingStats.t)) : Z :=
  foldr Z.add 0 (rating_of <$> data).

(** No partial sum leaves the machine integer, and the roster can be counted. *)
Definition summable (data : list (PlayerId * option PlayerGameProfile.t * option RatingStats.t)) : Prop :=
  Z.of_nat (length data) < 2 ^ 31 ∧ ∀ k, in_i32 (ratings (take k data)).

Lemma ratings_app l k : ratings (l ++ k) = ratings l + ratings k.
Proof. unfold ratings. rewrite fmap_app. induction (rating_of <$> l) as [|x xs IH]; cbn; lia. Qed.

Lemma team_total_sum data : (∀ k, in_i32 (ratings (take k data))) → team_total data = ratings data.
Proof.
  unfold team_total. induction data as [|d data IH] using rev_ind; intros Hfit; [done|].
  rewrite fmap_app, fold_left_app, ratings_app. cbn. rewrite IH.
  - specialize (Hfit (length data + 1)%nat). rewrite firstn_all2, ratings_app in Hfit
      by (rewrite length_app; cbn; lia).
    change (ratings [d]) with (rating_of d + 0) in *. rewrite Z.add_0_r in *. by apply i32_add_id.
  - intros k. destruct (decide (k ≤ length data)%nat) as [Hk|Hk].
    + specialize (Hfit k). by rewrite take_app_le in Hfit.
    + rewrite take_ge by lia. specialize (Hfit (length data)). by rewrite take_app_length in Hfit.
Qed.

Lemma count_fits {A} (l : list A) : Z.of_nat (length l) < 2 ^ 31 → as_i32 (Z.of_nat (length l)) = Z.of_nat (length l).
Proof. intros Hl. apply as_i32_id. unfold in_i32, i32_min, i32_max. lia. Qed.


(** ** Composition *)

Lemma tighter_max_iff a b x : at_most (tighter_max a b) x ↔ at_most a x ∧ at_most b x.
Proof.
  unfold at_most, tighter_max. destruct a as [m|], b as [n|]; split.
  - intros Hm. specialize (Hm _ eq_refl). split; intros ? [= <-]; lia.
  - intros [Hm Hn] ? [= <-]. specialize (Hm _ eq_refl). specialize (Hn _ eq_refl). lia.
  - naive_solver.
  - naive_solver.
  - naive_solver.
  - naive_solver.
  - naive_solver.
  - naive_solver.
Qed.
Lemma tighter_min_iff a b x : at_least (tighter_min a b) x ↔ at_least a x ∧ at_least b x.
Proof.
  unfold at_least, tighter_min. destruct a as [m|], b as [n|]; split; try naive_solver.
  - intros Hm. specialize (Hm _ eq_refl). split; intros ? [= <-]; lia.
  - intros [Hm Hn] ? [= <-]. specialize (Hm _ eq_refl). specialize (Hn _ eq_refl). lia.
Qed.

(** With a factor that is not negative, the tighter bound is still the tighter one. *)
Lemma tighter_max_scaled a b n x :
  0 ≤ n → (∀ m, tighter_max a b = Some m → x ≤ m * n) ↔
  (∀ m, a = Some m → x ≤ m * n) ∧ (∀ m, b = Some m → x ≤ m * n).
Proof.
  intros Hn. unfold tighter_max. destruct a as [m|], b as [m'|]; split; try naive_solver.
  - intros Hm. specialize (Hm _ eq_refl). split; intros ? [= <-]; nia.
  - intros [Hm Hm'] ? [= <-]. specialize (Hm _ eq_refl). specialize (Hm' _ eq_refl). nia.
Qed.
Lemma tighter_min_scaled a b n x :
  0 ≤ n → (∀ m, tighter_min a b = Some m → m * n ≤ x) ↔
  (∀ m, a = Some m → m * n ≤ x) ∧ (∀ m, b = Some m → m * n ≤ x).
Proof.
  intros Hn. unfold tighter_min. destruct a as [m|], b as [m'|]; split; try naive_solver.
  - intros Hm. specialize (Hm _ eq_refl). split; intros ? [= <-]; nia.
  - intros [Hm Hm'] ? [= <-]. specialize (Hm _ eq_refl). specialize (Hm' _ eq_refl). nia.
Qed.

Lemma common_tiers_iff a b tier :
  tier ≠ no_tier → tier_allowed (common_tiers a b) tier ↔ tier_allowed a tier ∧ tier_allowed b tier.
Proof.
  intros Hreal. unfold tier_allowed, common_tiers. destruct a as [|x a]; [naive_solver|].
  destruct b as [|y b]; [naive_solver|].
  assert (tier ∈ filter (λ t, t ∈ y :: b) (x :: a) ↔ tier ∈ x :: a ∧ tier ∈ y :: b) as Hin
    by (rewrite list_elem_of_filter; tauto).
  destruct (filter _ _) as [|z common].
  - rewrite list_elem_of_singleton. split; [by intros [?|?]|]. intros [[?|Ha] [?|Hb]]; try done.
    by destruct (proj1 (elem_of_nil _) (proj2 Hin (conj Ha Hb))).
  - split; [intros [?|Ht]; [done|]|intros [[?|Ha] [?|Hb]]; try done]; naive_solver.
Qed.

Lemma intersect_qualifies a b d :
  tier_of d ≠ no_tier → qualifies (intersect a b) d ↔ qualifies a d ∧ qualifies b d.
Proof.
  intros Hreal. split.
  - intros [H1 H2 H3 H4 H5 H6]. cbn in *. apply tighter_max_iff in H1 as [? ?], H3 as [? ?].
    apply tighter_min_iff in H2 as [? ?], H5 as [? ?]. apply common_tiers_iff in H6 as [? ?]; [|done].
    split; split; try done; intros avg Ha; specialize (H4 avg Ha); by apply tighter_max_iff in H4 as [? ?].
  - intros [[A1 A2 A3 A4 A5 A6] [B1 B2 B3 B4 B5 B6]]. split; cbn.
    + by apply tighter_max_iff.
    + by apply tighter_min_iff.
    + by apply tighter_max_iff.
    + intros avg Ha. apply tighter_max_iff. auto.
    + by apply tighter_min_iff.
    + by apply common_tiers_iff.
Qed.

Lemma intersect_team a b n total :
  0 ≤ n → team_qualifies (intersect a b) n total ↔ team_qualifies a n total ∧ team_qualifies b n total.
Proof.
  intros Hn. split.
  - intros [H1 H2 H3 H4]. cbn in *. apply tighter_max_iff in H1 as [? ?]. apply tighter_min_iff in H2 as [? ?].
    apply tighter_max_scaled in H3 as [? ?]; [|done]. apply tighter_min_scaled in H4 as [? ?]; [|done]. by split; split.
  - intros [[A1 A2 A3 A4] [B1 B2 B3 B4]]. split; cbn.
    + by apply tighter_max_iff.
    + by apply tighter_min_iff.
    + by apply tighter_max_scaled.
    + by apply tighter_min_scaled.
Qed.

(** C29. A tournament may tighten the rules of its league and never loosen them: the
  composition admits a roster exactly when both rule sets do, whatever the
  ratings, and whether or not the lists of tiers have one in common. *)
Theorem intersect_admits_both a b data :
  Z.of_nat (length data) < 2 ^ 31 → (∀ d, d ∈ data → tier_of d ≠ no_tier) →
  check_team_eligibility (intersect a b) data = [] ↔
  check_team_eligibility a data = [] ∧ check_team_eligibility b data = [].
Proof.
  intros Hlen Hreal. rewrite !eligible_nil, count_fits by done.
  pose proof (intersect_team a b (Z.of_nat (length data)) (team_total data) ltac:(lia)) as Hteam.
  assert ((∀ d, d ∈ data → qualifies (intersect a b) d) ↔
    (∀ d, d ∈ data → qualifies a d) ∧ (∀ d, d ∈ data → qualifies b d)) as ->.
  { split.
    - intros Hall. split; intros d Hd; by apply (intersect_qualifies a b d (Hreal d Hd)), Hall.
    - intros [Ha Hb] d Hd. apply intersect_qualifies; auto. }
  tauto.
Qed.

(** ** Rules nobody can meet *)

Lemma contradiction_some min max label reason :
  contradiction (min, max, label) = Some reason → ∃ m n, min = Some m ∧ max = Some n ∧ n < m.
Proof.
  unfold contradiction. destruct min as [m|]; [|done]. destruct max as [n|]; [|done].
  case_bool_decide; [|done]. intros _. by exists m, n.
Qed.

Lemma reason_bounds r reason :
  unsatisfiable_reason r = Some reason → ∃ m n, n < m ∧
    (min_rating_per_player r = Some m ∧ max_rating_per_player r = Some n ∨
     min_team_total_rating r = Some m ∧ max_team_total_rating r = Some n ∨
     min_team_average_rating r = Some m ∧ max_team_average_rating r = Some n).
Proof.
  unfold unsatisfiable_reason. intros Hr%head_Some_elem_of%list_elem_of_omap.
  destruct Hr as (bounds & Hin & Hc). rewrite !elem_of_cons in Hin.
  destruct Hin as [-> |[-> |[-> |Hin]]]; [| | |by apply elem_of_nil in Hin];
    apply contradiction_some in Hc as (m & n & Hm & Hn & Hlt); exists m, n; tauto.
Qed.

(** Rules that are called unsatisfiable refuse every roster with a player in it. *)
Theorem unsatisfiable_refuses r reason data :
  unsatisfiable_reason r = Some reason → data ≠ [] → Z.of_nat (length data) < 2 ^ 31 →
  check_team_eligibility r data ≠ [].
Proof.
  intros (m & n & Hlt & Hbounds)%reason_bounds Hne Hlen Hok. apply eligible_nil in Hok as [Hall [?|Hteam]]; [done|].
  rewrite count_fits in Hteam by done. destruct data as [|d data]; [done|].
  assert (0 < Z.of_nat (length (d :: data))) by (cbn; lia).
  destruct Hteam as [T1 T2 T3 T4]. destruct Hbounds as [[Hm Hn]|[[Hm Hn]|[Hm Hn]]].
  - destruct (Hall d (list_elem_of_here _ _)) as [Q1 Q2 _ _ _ _]. specialize (Q1 n Hn). specialize (Q2 m Hm). lia.
  - specialize (T1 n Hn). specialize (T2 m Hm). lia.
  - specialize (T3 n Hn). specialize (T4 m Hm). nia.
Qed.

(** ** Rosters that grow *)

(** Once a roster is over the cap on its total, no addition repairs it: the cap
  alone refuses the roster however it grows, and so do the full rules. *)
Theorem over_cap_for_good r data more :
  summable data → summable (data ++ more) → (∀ d, d ∈ more → 0 ≤ rating_of d) →
  check_team_eligibility (team_total_cap_only r) data ≠ [] →
  check_team_eligibility (team_total_cap_only r) (data ++ more) ≠ [] ∧ check_team_eligibility r (data ++ more) ≠ [].
Proof.
  intros Hs Hs' Hmore Hover. assert (ratings data ≤ ratings (data ++ more)) as Hgrow.
  { rewrite ratings_app. assert (0 ≤ ratings more); [|lia]. unfold ratings. clear -Hmore.
    induction more as [|d more IH]; csimpl; [lia|].
    specialize (IH (λ d' Hd', Hmore d' (list_elem_of_further _ _ _ Hd'))). specialize (Hmore d (list_elem_of_here _ _)).
    lia. }
  assert (∃ cap, max_team_total_rating r = Some cap ∧ cap < ratings data ∧ data ≠ []) as (cap & Hcap & Hlt & Hne).
  { destruct (max_team_total_rating r) as [cap|] eqn:Hcap.
    - exists cap. split; [done|]. destruct (decide (data = [])) as [-> |Hne].
      { exfalso. apply Hover, eligible_nil. split; [intros d _; by apply unrestricted_qualifies|by left]. }
      split; [|done].
      destruct (decide (ratings data ≤ cap)); [exfalso|lia]. apply Hover. apply eligible_nil. split.
      + intros d _. by apply unrestricted_qualifies.
      + right. destruct Hs as [_ Hfit]. rewrite team_total_sum by done.
        split; cbn; unfold at_most, at_least; try done. rewrite Hcap. by intros ? [= <-].
    - destruct Hover. apply eligible_nil. split; [intros d _; by apply unrestricted_qualifies|]. right.
      split; cbn; unfold at_most, at_least; try done. by rewrite Hcap. }
  destruct Hs' as [_ Hfit]. split; intros [_ [Hnil|[Hmax _ _ _]]]%eligible_nil.
  1, 3: by apply app_nil in Hnil as [? _].
  all: rewrite team_total_sum in Hmax by done; specialize (Hmax cap Hcap); lia.
Qed.
End admission.

(** ** Witnesses, and what the rules miss *)

#[local] Existing Instance sample_platform.

Definition rated (n : N) (rating : Z) (tier : option string) (average : option spec_float) :
    PlayerId * option PlayerGameProfile.t * option RatingStats.t :=
  (n, Some {|
     PlayerGameProfile.id := n; PlayerGameProfile.player_id := n; PlayerGameProfile.game_id := 1;
     PlayerGameProfile.rating := rating; PlayerGameProfile.rating_deviation := 350;
     PlayerGameProfile.volatility := S754_zero false; PlayerGameProfile.peak_rating := rating;
     PlayerGameProfile.peak_rating_at := None; PlayerGameProfile.rank_tier := tier;
     PlayerGameProfile.rank_division := None; PlayerGameProfile.rank_points := None;
     PlayerGameProfile.matches_played := 100; PlayerGameProfile.wins := 0; PlayerGameProfile.losses := 0;
     PlayerGameProfile.draws := 0; PlayerGameProfile.win_streak := 0; PlayerGameProfile.best_win_streak := 0;
     PlayerGameProfile.total_playtime_minutes := 0; PlayerGameProfile.game_specific_stats := json_null_value;
     PlayerGameProfile.first_match_at := None; PlayerGameProfile.last_match_at := None;
     PlayerGameProfile.created_at := 0; PlayerGameProfile.updated_at := 0 |},
   (λ a, RatingStats.mk rating rating a a 10) <$> average).

(** Two players who sum to 2001: an average of 1000.5. *)
Definition pair_of_players := [rated 1 1000 (Some "gold") None; rated 2 1001 (Some "gold") None].
Definition average_cap (n : Z) : EligibilityRestrictions.t :=
  EligibilityRestrictions.default <| EligibilityRestrictions.max_team_average_rating := Some n |>.

Lemma pair_summable : summable pair_of_players.
Proof.
  split; [done|]. intros k. unfold in_i32, i32_min, i32_max. do 3 (destruct k as [|k]; [cbn; lia|]). cbn. lia.
Qed.


Example intersect_admits_both_witness :
  check_team_eligibility (EligibilityRestrictions.intersect (average_cap 1200) (average_cap 1100)) pair_of_players = [].
Proof.
  apply (intersect_admits_both (average_cap 1200) (average_cap 1100) pair_of_players).
  - done.
  - intros d Hd. unfold pair_of_players in Hd. rewrite !elem_of_cons in Hd.
    destruct Hd as [-> |[-> |Hd]]; [done..|by apply elem_of_nil in Hd].
  - split; reflexivity.
Defined.

Example unsatisfiable_refuses_witness :
  check_team_eligibility (EligibilityRestrictions.default <| EligibilityRestrictions.min_team_total_rating := Some 10000 |>
    <| EligibilityRestrictions.max_team_total_rating := Some 9000 |>) pair_of_players ≠ [].
Proof. by eapply unsatisfiable_refuses. Defined.

Example over_cap_for_good_witness :
  check_team_eligibility (EligibilityRestrictions.default <| EligibilityRestrictions.max_team_total_rating := Some 900 |>)
    pair_of_players ≠ [].
Proof.
  apply (over_cap_for_good (EligibilityRestrictions.default <| EligibilityRestrictions.max_team_total_rating := Some 900 |>)
    [rated 1 1000 (Some "gold") None] [rated 2 1001 (Some "gold") None]).
  - split; [done|]. intros k. unfold in_i32, i32_min, i32_max. do 2 (destruct k as [|k]; [cbn; lia|]). cbn. lia.
  - exact pair_summable.
  - by intros d ->%list_elem_of_singleton.
  - done.
Defined.

(** Players rated at most 1000 with a team average of at least 1500: nobody can ever
    enter, and no reason is given. *)
Lemma contradiction_not_reported :
  let r := EligibilityRestrictions.default <| EligibilityRestrictions.max_rating_per_player := Some 1000 |>
    <| EligibilityRestrictions.min_team_average_rating := Some 1500 |> in
  EligibilityRestrictions.unsatisfiable_reason r = None ∧
  ∀ data, data ≠ [] → summable data → check_team_eligibility r data ≠ [].
Proof.
  intros r. split; [reflexivity|]. intros data Hne Hs Hok. apply eligible_nil in Hok as [Hall [?|[_ _ _ Hmin]]]; [done|].
  destruct Hs as [Hlen Hfit]. rewrite team_total_sum, count_fits in Hmin by done. specialize (Hmin 1500 eq_refl).
  assert (ratings data ≤ 1000 * Z.of_nat (length data)) as Hsum.
  { clear -Hall. unfold ratings. induction data as [|d data IH]; csimpl; [lia|].
    destruct (Hall d (list_elem_of_here _ _)) as [Hmax _ _ _ _ _]. specialize (Hmax 1000 eq_refl).
    specialize (IH (λ d' Hd', Hall d' (list_elem_of_further _ _ _ Hd'))). lia. }
  destruct data; [done|]. cbn [length] in *. lia.
Qed.

(** An average over the history of 1000.5 passes a cap of 1000: it is cut before it is
    compared. *)
Lemma player_average_cut :
  let r := EligibilityRestrictions.default <| EligibilityRestrictions.max_avg_rating_per_player := Some 1000 |> in
  check_player_eligibility r [rated 1 1000 None (Some (S754_finite false 2001 (-1)))] = [].
Proof. reflexivity. Qed.

(** Three players who average 1000 are admitted; two of them play, and their line-up is
    over the cap on the average. *)
Lemma compliant_line_up_flagged :
  let roster := [rated 1 1400 None None; rated 2 1400 None None; rated 3 200 None None] in
  check_team_eligibility (average_cap 1000) roster = [] ∧
  check_team_eligibility (EligibilityRestrictions.without_team_minimums (average_cap 1000)) (take 2 roster) ≠ [].
Proof. split; [reflexivity|done]. Qed.
