(* ===== verification/LeagueStore.v ===== *)
(** The tables of leagues and the statements on them
    (crates/portal-db/src/adapters/league_team/*.rs, and the membership query of
    adapters/league.rs). Constraints, indexes and triggers are those of
    migrations/0025, 0026 and 0096; texts are taken to fit their columns. *)
From Stdlib Require Import Ascii.
From stdpp Require Import base list strings gmap.
From S2P Require Import Prelude Errors Wire TournamentTypes CoreEnums DomainEnums FormatPlan Entities VetoModel Rows.
From S2P Require Import ResultModel SagaModel TournamentModel ScheduleModel LeagueModel PugModel Store TournamentStore.
#[local] Open Scope Z_scope.

(** What Rust and the database make of text: [str::to_lowercase] and [str::trim]
    of names, SQL's [lower], and the collation of [ORDER BY]. *)
Class TextRules := {
  str_to_lowercase : string → string;
  str_trim : string → string;
  sql_lower : string → string;
  collate_leb : string → string → bool;
}.

Section rows.
Context `{Platform}.

(** [UPDATE .. SET .. WHERE id = $1 RETURNING *]: the new row must satisfy the
    constraints of its table; [missing] is the error when there is no row. *)
Definition update_where_id {A} (table : Db.t → gmap N A) (put : gmap N A → Db.t → Db.t)
    (violated : Db.t → A → option string) (missing : DomainError.t) (id : N) (set : DateTime → A → A)
    : M A := λ db,
  match table db !! id with
  | None => mthrow missing db
  | Some row =>
      let row := set (Db.now db) row in
      match violated db row with
      | Some name => violates name db
      | None => (Ok row, put (<[id := row]> (table db)) db)
      end
  end.

(** [INSERT .. RETURNING *] of a row under a fresh identifier. *)
Definition insert_row {A} (table : Db.t → gmap N A) (put : gmap N A → Db.t → Db.t)
    (violated : Db.t → A → option string) (row : N → DateTime → A) : M A := λ db,
  let id := Db.next_uuid db in
  let row := row id (Db.now db) in
  match violated db row with
  | Some name => violates name db
  | None => (Ok row, put (<[id := row]> (table db)) (db <| Db.next_uuid := N.succ id |>))
  end.

(** [SELECT COUNT( * )]. *)
Definition count {A} (l : list A) : Z := Z.of_nat (length l).

(** A foreign key: the row it names is there. *)
Definition refers {A} (table : gmap N A) (id : N) : bool := bool_decide (is_Some (table !! id)).
End rows.

(** ** Seasons (season.rs) *)

Module LeagueSeasonRepository.
Section repository.
Context `{Platform}.

Definition put (rows : gmap LeagueSeasonId LeagueSeason.t) (db : Db.t) : Db.t := db <| Db.league_seasons := rows |>.

(** [a < b], or one of them null. *)
Definition before (a b : option DateTime) : bool :=
  match a, b with Some a, Some b => bool_decide (a < b) | _, _ => true end.
Definition not_after (a b : option DateTime) : bool :=
  match a, b with Some a, Some b => bool_decide (a ≤ b) | _, _ => true end.

Definition slug_rows (league_id : LeagueId) (slug : string) (db : Db.t) : list LeagueSeason.t :=
  rows_where (λ s, bool_decide (LeagueSeason.league_id s = league_id ∧ LeagueSeason.slug s = slug))
    (Db.league_seasons db).

(** Checks in the order of their names, then the index, then the reference. *)
Definition violated (db : Db.t) (s : LeagueSeason.t) : option string :=
  let open := from_option (λ n, bool_decide (0 < n)) true (LeagueSeason.team_size_min s) in
  let sized := match LeagueSeason.team_size_min s, LeagueSeason.team_size_max s with
    | Some lo, Some hi => bool_decide (lo ≤ hi)
    | _, _ => true
    end in
  let subs := from_option (λ n, bool_decide (0 ≤ n)) true (LeagueSeason.max_substitutes s) in
  if negb (before (LeagueSeason.registration_start s) (LeagueSeason.registration_end s)
           && not_after (LeagueSeason.registration_end s) (LeagueSeason.season_start s)
           && before (LeagueSeason.season_start s) (LeagueSeason.season_end s))
  then Some "league_seasons_check_dates"
  else if negb (open && sized && subs) then Some "league_seasons_check_team_size"
  else if existsb (λ s', bool_decide (LeagueSeason.id s' ≠ LeagueSeason.id s))
            (slug_rows (LeagueSeason.league_id s) (LeagueSeason.slug s) db)
  then Some "league_seasons_slug_unique"
  else if negb (refers (Db.leagues db) (LeagueSeason.league_id s)) then Some "league_seasons_league_id_fkey"
  else None.

Definition find_by_id (id : LeagueSeasonId) : M (option LeagueSeason.t) :=
  mread (λ db, Db.league_seasons db !! id).

Definition find_by_slug (league_id : LeagueId) (slug : string) : M (option LeagueSeason.t) :=
  mread (λ db, head (slug_rows league_id slug db)).

Definition slug_exists (league_id : LeagueId) (slug : string) : M bool :=
  mread (λ db, bool_decide (0 < count (slug_rows league_id slug db))).

(** The columns the [INSERT] does not name take their defaults. *)
Definition inserted (cmd : CreateLeagueSeason.t) (id : LeagueSeasonId) (now : DateTime) : LeagueSeason.t := {|
  LeagueSeason.id := id;
  LeagueSeason.league_id := CreateLeagueSeason.league_id cmd;
  LeagueSeason.name := CreateLeagueSeason.name cmd;
  LeagueSeason.slug := CreateLeagueSeason.slug cmd;
  LeagueSeason.description := CreateLeagueSeason.description cmd;
  LeagueSeason.registration_start := CreateLeagueSeason.registration_start cmd;
  LeagueSeason.registration_end := CreateLeagueSeason.registration_end cmd;
  LeagueSeason.season_start := CreateLeagueSeason.season_start cmd;
  LeagueSeason.season_end := CreateLeagueSeason.season_end cmd;
  LeagueSeason.team_size_min := Some (default 1 (CreateLeagueSeason.team_size_min cmd));
  LeagueSeason.team_size_max := Some (default 5 (CreateLeagueSeason.team_size_max cmd));
  LeagueSeason.max_substitutes := Some (default 2 (CreateLeagueSeason.max_substitutes cmd));
  LeagueSeason.max_teams := CreateLeagueSeason.max_teams cmd;
  LeagueSeason.roster_lock_status := RosterLockStatus.Open;
  LeagueSeason.roster_locked_at := None;
  LeagueSeason.roster_locked_by := None;
  LeagueSeason.status := SeasonStatus.Draft;
  LeagueSeason.archived_at := None;
  LeagueSeason.archived_by := None;
  LeagueSeason.settings := json_of_object [];
  LeagueSeason.created_by := CreateLeagueSeason.created_by cmd;
  LeagueSeason.created_at := now;
  LeagueSeason.updated_at := now |}.

Definition create (cmd : CreateLeagueSeason.t) : M LeagueSeason.t :=
  insert_row Db.league_seasons put violated (inserted cmd).

Definition update_row (id : LeagueSeasonId) (set : DateTime → LeagueSeason.t → LeagueSeason.t)
    : M LeagueSeason.t :=
  update_where_id Db.league_seasons put violated (DomainError.Internal row_not_found) id
    (λ now s, (set now s) <| LeagueSeason.updated_at := now |>).

(** The stamps of a lock: the instant of a hard one, and who set it. *)
Definition locked (lock : RosterLockStatus.t) (by_ : option UserId) (now : DateTime) (s : LeagueSeason.t)
    : LeagueSeason.t :=
  s <| LeagueSeason.roster_lock_status := lock |>
    <| LeagueSeason.roster_locked_at :=
         (if bool_decide (lock = RosterLockStatus.HardLock) then Some now else None) |>
    <| LeagueSeason.roster_locked_by := by_ |>.

Definition apply_update (u : UpdateLeagueSeason.t) (now : DateTime) (s : LeagueSeason.t) : LeagueSeason.t :=
  let keep {A} (new old : option A) := TournamentRepository.or_keep new old in
  let s := s
    <| LeagueSeason.name := default (LeagueSeason.name s) (UpdateLeagueSeason.name u) |>
    <| LeagueSeason.slug := default (LeagueSeason.slug s) (UpdateLeagueSeason.slug u) |>
    <| LeagueSeason.description := keep (UpdateLeagueSeason.description u) (LeagueSeason.description s) |>
    <| LeagueSeason.registration_start :=
         keep (UpdateLeagueSeason.registration_start u) (LeagueSeason.registration_start s) |>
    <| LeagueSeason.registration_end :=
         keep (UpdateLeagueSeason.registration_end u) (LeagueSeason.registration_end s) |>
    <| LeagueSeason.season_start := keep (UpdateLeagueSeason.season_start u) (LeagueSeason.season_start s) |>
    <| LeagueSeason.season_end := keep (UpdateLeagueSeason.season_end u) (LeagueSeason.season_end s) |>
    <| LeagueSeason.team_size_min := keep (UpdateLeagueSeason.team_size_min u) (LeagueSeason.team_size_min s) |>
    <| LeagueSeason.team_size_max := keep (UpdateLeagueSeason.team_size_max u) (LeagueSeason.team_size_max s) |>
    <| LeagueSeason.max_substitutes :=
         keep (UpdateLeagueSeason.max_substitutes u) (LeagueSeason.max_substitutes s) |>
    <| LeagueSeason.max_teams := keep (UpdateLeagueSeason.max_teams u) (LeagueSeason.max_teams s) |>
    <| LeagueSeason.status := default (LeagueSeason.status s) (UpdateLeagueSeason.status u) |>
    <| LeagueSeason.settings := default (LeagueSeason.settings s) (UpdateLeagueSeason.settings u) |> in
  match UpdateLeagueSeason.roster_lock_status u with
  | None => s
  | Some lock => locked lock (UpdateLeagueSeason.roster_locked_by u) now s
  end.

Definition update (id : LeagueSeasonId) (u : UpdateLeagueSeason.t) : M LeagueSeason.t :=
  update_row id (apply_update u).

Definition update_roster_lock (id : LeagueSeasonId) (status : RosterLockStatus.t) (locked_by : option UserId)
    : M LeagueSeason.t := update_row id (locked status locked_by).

Definition update_status (id : LeagueSeasonId) (status : SeasonStatus.t) : M LeagueSeason.t :=
  update_row id (λ _ s, s <| LeagueSeason.status := status |>).

Definition set_archived (id : LeagueSeasonId) (archived_by : option UserId) : M LeagueSeason.t :=
  update_where_id Db.league_seasons put violated (DomainError.LeagueSeasonNotFound id) id (λ now s,
    s <| LeagueSeason.archived_at := (match archived_by with None => None | Some _ => Some now end) |>
      <| LeagueSeason.archived_by := archived_by |>
      <| LeagueSeason.updated_at := now |>).

(** [ORDER BY created_at DESC]. *)
Definition newest (a b : LeagueSeason.t) : bool :=
  bool_decide (LeagueSeason.created_at b ≤ LeagueSeason.created_at a).

Definition list_by_league (league_id : LeagueId) (include_archived : bool) : M (list LeagueSeason.t) :=
  mread (λ db, stable_sort newest (rows_where (λ s, bool_decide (LeagueSeason.league_id s = league_id)
    && (include_archived || bool_decide (LeagueSeason.archived_at s = None))) (Db.league_seasons db))).

Definition list_active_by_league (league_id : LeagueId) : M (list LeagueSeason.t) :=
  mread (λ db, stable_sort newest (rows_where (λ s, bool_decide (LeagueSeason.league_id s = league_id)
    && negb (SeasonStatus.is_terminal (LeagueSeason.status s))
    && bool_decide (LeagueSeason.archived_at s = None)) (Db.league_seasons db))).

Definition find_current_by_league (league_id : LeagueId) : M (option LeagueSeason.t) :=
  mread (λ db,
    league ← Db.leagues db !! league_id; id ← LeagueColumns.current_season_id league;
    Db.league_seasons db !! id).

(** [status NOT IN ('withdrawn', 'disqualified')] of a team neither archived nor
    disbanded. *)
Definition holds_slot (db : Db.t) (r : LeagueTeamSeason.t) : bool :=
  match LeagueTeamSeason.status r with
  | LeagueTeamSeasonStatus.Withdrawn | LeagueTeamSeasonStatus.Disqualified => false
  | _ => from_option (λ t, bool_decide (LeagueTeam.archived_at t = None)
                           && negb (LeagueTeam.is_disbanded t)) false
           (Db.league_teams db !! LeagueTeamSeason.team_id r)
  end.

Definition slots (season_id : LeagueSeasonId) (db : Db.t) : list LeagueTeamSeason.t :=
  rows_where (λ r, bool_decide (LeagueTeamSeason.season_id r = season_id) && holds_slot db r)
    (Db.league_team_seasons db).

Definition count_teams (season_id : LeagueSeasonId) : M Z := mread (λ db, count (slots season_id db)).

(** The season's own archive, or its league's. *)
Definition archived (season_id : LeagueSeasonId) (db : Db.t) : option bool :=
  s ← Db.league_seasons db !! season_id; l ← Db.leagues db !! LeagueSeason.league_id s;
  Some (bool_decide (is_Some (LeagueSeason.archived_at s)) || bool_decide (is_Some (LeagueColumns.archived_at l))).

Definition is_archived (season_id : LeagueSeasonId) : M bool :=
  mquery (λ db, ok_or (archived season_id db) (Error (DomainError.LeagueSeasonNotFound season_id))).

Definition count_participants (season_id : LeagueSeasonId) : M Z :=
  mread (λ db, count (rows_where (λ p, bool_decide (LeagueSeasonParticipant.season_id p = season_id)
    && match LeagueSeasonParticipant.status p with
       | LeagueSeasonParticipantStatus.Withdrawn | LeagueSeasonParticipantStatus.Disqualified => false
       | _ => true
       end) (Db.league_season_participants db))).
End repository.
End LeagueSeasonRepository.

(** ** Rosters (member.rs) *)

Module LeagueTeamMemberRepository.
Section repository.
Context `{Platform}.
Import LeagueTeamMember.

Definition at_seat (ts : LeagueTeamSeasonId) (player : PlayerId) (m : t) : bool :=
  bool_decide (team_season_id m = ts ∧ player_id m = player).
(** [left_at IS NULL]. *)
Definition is_open (m : t) : bool := bool_decide (left_at m = None).
(** The rows of [idx_one_primary_team_per_season]. *)
Definition holds_primary (m : t) : bool :=
  LeagueTeamRole.is_primary (role m) && LeagueTeamMemberStatus.is_active (status m).

(** The keys of [league_team_members_unique] and of that index. *)
Definition seat_keys (rows : list t) : list (LeagueTeamSeasonId * PlayerId) :=
  (λ m, (team_season_id m, player_id m)) <$> rows.
Definition primary_keys (rows : list t) : list (PlayerId * LeagueSeasonId) :=
  (λ m, (player_id m, season_id m)) <$> filter (λ m, holds_primary m = true) rows.

(** The first constraint that refuses the table with the row in it, or changed. *)
Definition refused (db : Db.t) (rows : list t) (m : t) : option string :=
  if from_option (λ n, negb (bool_decide (0 ≤ n ≤ 99))) false (jersey_number m)
  then Some "league_team_members_check_jersey"
  else if negb (bool_decide (NoDup (seat_keys rows))) then Some "league_team_members_unique"
  else if negb (bool_decide (NoDup (primary_keys rows))) then Some "idx_one_primary_team_per_season"
  else if negb (refers (Db.players db) (player_id m)) then Some "league_team_members_player_id_fkey"
  else None.

(** [set_league_team_member_season_id], before every [INSERT]. *)
Definition season_of (ts : LeagueTeamSeasonId) : M LeagueSeasonId := λ db,
  match Db.league_team_seasons db !! ts with
  | Some r => (Ok (LeagueTeamSeason.season_id r), db)
  | None => violates "trg_league_team_members_set_season_id" db
  end.

Definition new_seat (cmd : AddLeagueTeamMember.t) (id : LeagueTeamMemberId) (season : LeagueSeasonId)
    (now : DateTime) : t := {|
  LeagueTeamMember.id := id;
  team_season_id := AddLeagueTeamMember.team_season_id cmd;
  player_id := AddLeagueTeamMember.player_id cmd;
  season_id := season;
  role := AddLeagueTeamMember.role cmd;
  position := AddLeagueTeamMember.position cmd;
  jersey_number := AddLeagueTeamMember.jersey_number cmd;
  status := LeagueTeamMemberStatus.Active;
  joined_at := now;
  left_at := None;
  added_by := AddLeagueTeamMember.added_by cmd |}.

(** [INSERT] of a seat. *)
Definition insert_seat (cmd : AddLeagueTeamMember.t) : M t :=
  let* season := season_of (AddLeagueTeamMember.team_season_id cmd) in
  λ db,
    let m := new_seat cmd (Db.next_uuid db) season (Db.now db) in
    let rows := Db.league_team_members db ++ [m] in
    match refused db rows m with
    | Some name => violates name db
    | None => (Ok m, db <| Db.next_uuid := N.succ (Db.next_uuid db) |> <| Db.league_team_members := rows |>)
    end.

(** [DO UPDATE SET ..]. *)
Definition reopened (cmd : AddLeagueTeamMember.t) (now : DateTime) (m : t) : t :=
  m <| role := AddLeagueTeamMember.role cmd |>
    <| position := AddLeagueTeamMember.position cmd |>
    <| jersey_number := AddLeagueTeamMember.jersey_number cmd |>
    <| added_by := AddLeagueTeamMember.added_by cmd |>
    <| joined_at := now |>
    <| status := LeagueTeamMemberStatus.Active |>
    <| left_at := None |>.

(** The errors of the statement: the index is a conflict, the rest internal. *)
Definition seat_error (name : string) : DomainError.t :=
  if bool_decide (name = "idx_one_primary_team_per_season")
  then DomainError.Conflict "player is already a primary member of another team in this season"
  else DomainError.Internal (constraint_violation name).

(** [INSERT .. ON CONFLICT (team_season_id, player_id) DO UPDATE .. WHERE left_at IS
    NOT NULL RETURNING *]: a seat that is still open returns no row. *)
Definition seat_member (cmd : AddLeagueTeamMember.t) : M t :=
  let* season := season_of (AddLeagueTeamMember.team_season_id cmd) in
  λ db,
    match list_find (λ m, at_seat (AddLeagueTeamMember.team_season_id cmd)
                                  (AddLeagueTeamMember.player_id cmd) m = true) (Db.league_team_members db) with
    | Some (i, old) =>
        if is_open old then mthrow DomainError.AlreadyTeamMember db
        else
          let m := reopened cmd (Db.now db) old in
          let rows := <[i := m]> (Db.league_team_members db) in
          match refused db rows m with
          | Some name => mthrow (seat_error name) db
          | None => (Ok m, db <| Db.league_team_members := rows |>)
          end
    | None =>
        let m := new_seat cmd (Db.next_uuid db) season (Db.now db) in
        let rows := Db.league_team_members db ++ [m] in
        match refused db rows m with
        | Some name => mthrow (seat_error name) db
        | None => (Ok m, db <| Db.next_uuid := N.succ (Db.next_uuid db) |> <| Db.league_team_members := rows |>)
        end
    end.

Definition add_member (cmd : AddLeagueTeamMember.t) : M t := seat_member cmd.

Definition members_where (P : t → bool) (db : Db.t) : list t :=
  filter (λ m, P m = true) (Db.league_team_members db).

(** The open seats of a roster. *)
Definition roster (ts : LeagueTeamSeasonId) (db : Db.t) : list t :=
  members_where (λ m, bool_decide (team_season_id m = ts) && is_open m) db.

Definition find_by_id (id : LeagueTeamMemberId) : M (option t) :=
  mread (λ db, head (members_where (λ m, bool_decide (LeagueTeamMember.id m = id)) db)).

Definition member_of (ts : LeagueTeamSeasonId) (player : PlayerId) (db : Db.t) : option t :=
  head (members_where (λ m, at_seat ts player m && is_open m) db).

Definition find_member (ts : LeagueTeamSeasonId) (player : PlayerId) : M (option t) := mread (member_of ts player).

(** [UPDATE .. WHERE team_season_id = $1 AND player_id = $2 AND left_at IS NULL
    RETURNING *] with [fetch_one]. *)
Definition update_seat (ts : LeagueTeamSeasonId) (player : PlayerId) (set : t → t) : M t := λ db,
  match list_find (λ m, at_seat ts player m && is_open m = true) (Db.league_team_members db) with
  | None => mthrow (DomainError.Internal row_not_found) db
  | Some (i, old) =>
      let rows := <[i := set old]> (Db.league_team_members db) in
      match refused db rows (set old) with
      | Some name => violates name db
      | None => (Ok (set old), db <| Db.league_team_members := rows |>)
      end
  end.

Definition update_role (ts : LeagueTeamSeasonId) (player : PlayerId) (new_role : LeagueTeamRole.t) : M t :=
  update_seat ts player (λ m, m <| role := new_role |>).
Definition update_status (ts : LeagueTeamSeasonId) (player : PlayerId) (new : LeagueTeamMemberStatus.t) : M t :=
  update_seat ts player (λ m, m <| status := new |>).

(** An [UPDATE] with [execute] that takes seats out of the indexes. *)
Definition close_where (P : t → bool) (new : LeagueTeamMemberStatus.t) (at_ : DateTime) : M unit :=
  mwrite (λ db, db <| Db.league_team_members :=
    (λ m, if P m && is_open m then m <| status := new |> <| left_at := Some at_ |> else m)
      <$> Db.league_team_members db |>).

Definition remove_member (ts : LeagueTeamSeasonId) (player : PlayerId) : M unit := λ db,
  close_where (at_seat ts player) LeagueTeamMemberStatus.Left (Db.now db) db.

(** [ORDER BY joined_at ASC]. *)
Definition joined_first (a b : t) : bool := bool_decide (joined_at a ≤ joined_at b).
Definition list_members (ts : LeagueTeamSeasonId) : M (list t) :=
  mread (λ db, stable_sort joined_first (roster ts db)).

Definition count_where (ts : LeagueTeamSeasonId) (P : t → bool) : M Z :=
  mread (λ db, count (filter (λ m, P m = true) (roster ts db))).
Definition count_by_role (ts : LeagueTeamSeasonId) (r : LeagueTeamRole.t) : M Z :=
  count_where ts (λ m, bool_decide (role m = r)).
Definition count_captains (ts : LeagueTeamSeasonId) : M Z := count_where ts is_captain.
Definition count_active_members (ts : LeagueTeamSeasonId) : M Z :=
  count_where ts (λ m, LeagueTeamMemberStatus.is_active (status m)).
Definition count_primary_members (ts : LeagueTeamSeasonId) : M Z := count_where ts is_primary.
Definition count_substitutes (ts : LeagueTeamSeasonId) : M Z := count_where ts is_substitute.

Definition is_member (ts : LeagueTeamSeasonId) (player : PlayerId) : M bool :=
  mread (λ db, bool_decide (0 < count (members_where (λ m, at_seat ts player m && is_open m) db))).
Definition captain_of (ts : LeagueTeamSeasonId) (player : PlayerId) : M bool :=
  mread (λ db, bool_decide (0 < count (members_where (λ m, at_seat ts player m && is_captain m && is_open m) db))).

(** [LIMIT 1]: the index leaves one. *)
Definition find_primary_team_in_season (season : LeagueSeasonId) (player : PlayerId)
    : M (option LeagueTeamSeasonId) :=
  mread (λ db, team_season_id <$> head (members_where (λ m,
    bool_decide (season_id m = season ∧ player_id m = player) && holds_primary m && is_open m) db)).
End repository.
End LeagueTeamMemberRepository.

(** [is_member_by_player] (adapters/league.rs): through the player's user. *)
Definition is_member_by_player `{Platform} (league_id : LeagueId) (player_id : PlayerId) : M bool :=
  mread (λ db, match Db.players db !! player_id with
    | Some p => from_option (λ u, bool_decide ((league_id, u) ∈ Db.league_members db)) false
                  (PlayerColumns.user_id p)
    | None => false
    end).

(** ** Leaving a season (roster_release.rs) *)

Module RosterRelease.
Section release.
Context `{Platform} `{TextRules}.

(** [lts.status NOT IN (..) AND s.status NOT IN (..)], joined with the season. *)
Definition takes_part (db : Db.t) (r : LeagueTeamSeason.t) : bool :=
  negb (LeagueTeamSeason.is_terminal r)
  && from_option (λ s, negb (LeagueSeason.is_terminal s)) false
       (Db.league_seasons db !! LeagueTeamSeason.season_id r).

Definition live_ids (team_id : LeagueTeamId) (db : Db.t) : list LeagueTeamSeasonId :=
  LeagueTeamSeason.id <$> rows_where (λ r, bool_decide (LeagueTeamSeason.team_id r = team_id) && takes_part db r)
    (Db.league_team_seasons db).
Definition live_team_season_ids (team_id : LeagueTeamId) : M (list LeagueTeamSeasonId) := mread (live_ids team_id).

(** [tr.status IN ('pending', 'approved', 'checked_in', 'active')]. *)
Definition is_entry (r : TournamentRegistration.t) : bool :=
  match TournamentRegistration.status r with
  | TournamentRegistrationStatus.Pending | TournamentRegistrationStatus.Approved
  | TournamentRegistrationStatus.CheckedIn | TournamentRegistrationStatus.Active => true
  | _ => false
  end.
(** [t.status NOT IN ('draft', 'published', 'registration', 'cancelled')]. *)
Definition has_bracket (t : Tournament.t) : bool :=
  match Tournament.status t with
  | TournamentStatus.Draft | TournamentStatus.Published | TournamentStatus.Registration
  | TournamentStatus.Cancelled => false
  | _ => true
  end.

Definition entry_of (ids : list LeagueTeamSeasonId) (r : TournamentRegistration.t) : bool :=
  from_option (λ ts, bool_decide (ts ∈ ids)) false (TournamentRegistration.team_season_id r) && is_entry r.

(** The tournaments of the entries, [ORDER BY t.name]. *)
Definition entered (ids : list LeagueTeamSeasonId) (db : Db.t) : list Tournament.t :=
  stable_sort (λ a b, collate_leb (Tournament.name a) (Tournament.name b))
    (omap (λ r, Db.tournaments db !! TournamentRegistration.tournament_id r)
       (rows_where (entry_of ids) (Db.registrations db))).

Definition withdrawn (now : DateTime) (r : TournamentRegistration.t) : TournamentRegistration.t :=
  r <| TournamentRegistration.status := TournamentRegistrationStatus.Withdrawn |>
    <| TournamentRegistration.withdrawn_at := Some now |>
    <| TournamentRegistration.updated_at := now |>.

Definition bracketed (name : string) : DomainError.t :=
  DomainError.InvalidState ("team is entered in '" +:+ name +:+
    "', which has a bracket; withdraw it from that cup (or let the cup finish) first").

Definition withdraw_open_cup_entries (ids : list LeagueTeamSeasonId) : M unit := λ db,
  if bool_decide (ids = []) then (Ok tt, db)
  else match head (filter (λ t, has_bracket t = true) (entered ids db)) with
       | Some t => mthrow (bracketed (Tournament.name t)) db
       | None =>
           (Ok tt, db <| Db.registrations :=
              (λ r, if entry_of ids r then withdrawn (Db.now db) r else r) <$> Db.registrations db |>)
       end.

Definition release_seats (ids : list LeagueTeamSeasonId) (status : LeagueTeamMemberStatus.t) (at_ : DateTime)
    : M unit :=
  LeagueTeamMemberRepository.close_where (λ m, bool_decide (LeagueTeamMember.team_season_id m ∈ ids)) status at_.
End release.
End RosterRelease.

(** ** Teams in a season (team_season.rs) *)

Module LeagueTeamSeasonRepository.
Section repository.
Context `{Platform} `{TextRules}.

Definition put (rows : gmap LeagueTeamSeasonId LeagueTeamSeason.t) (db : Db.t) : Db.t :=
  db <| Db.league_team_seasons := rows |>.

Definition of_team_in (team_id : LeagueTeamId) (season_id : LeagueSeasonId) (db : Db.t) : list LeagueTeamSeason.t :=
  rows_where (λ r, bool_decide (LeagueTeamSeason.team_id r = team_id ∧ LeagueTeamSeason.season_id r = season_id))
    (Db.league_team_seasons db).

(** [league_team_seasons_unique] and the references. *)
Definition violated (db : Db.t) (r : LeagueTeamSeason.t) : option string :=
  if existsb (λ r', bool_decide (LeagueTeamSeason.id r' ≠ LeagueTeamSeason.id r))
       (of_team_in (LeagueTeamSeason.team_id r) (LeagueTeamSeason.season_id r) db)
  then Some "league_team_seasons_unique"
  else if negb (refers (Db.league_teams db) (LeagueTeamSeason.team_id r)) then Some "league_team_seasons_team_id_fkey"
  else if negb (refers (Db.league_seasons db) (LeagueTeamSeason.season_id r))
  then Some "league_team_seasons_season_id_fkey"
  else None.

Definition find_by_id (id : LeagueTeamSeasonId) : M (option LeagueTeamSeason.t) :=
  mread (λ db, Db.league_team_seasons db !! id).
Definition find_by_team_and_season (team_id : LeagueTeamId) (season_id : LeagueSeasonId)
    : M (option LeagueTeamSeason.t) := mread (λ db, head (of_team_in team_id season_id db)).
Definition is_registered (team_id : LeagueTeamId) (season_id : LeagueSeasonId) : M bool :=
  mread (λ db, negb (bool_decide (of_team_in team_id season_id db = []))).

(** The columns no [INSERT] names take their defaults. *)
Definition inserted (team_id : LeagueTeamId) (season_id : LeagueSeasonId) (status : LeagueTeamSeasonStatus.t)
    (registered_at : option DateTime) (id : LeagueTeamSeasonId) (now : DateTime) : LeagueTeamSeason.t := {|
  LeagueTeamSeason.id := id;
  LeagueTeamSeason.team_id := team_id;
  LeagueTeamSeason.season_id := season_id;
  LeagueTeamSeason.status := status;
  LeagueTeamSeason.registered_at := registered_at;
  LeagueTeamSeason.registration_notes := None;
  LeagueTeamSeason.matches_played := 0;
  LeagueTeamSeason.matches_won := 0;
  LeagueTeamSeason.matches_lost := 0;
  LeagueTeamSeason.matches_drawn := 0;
  LeagueTeamSeason.seed := None;
  LeagueTeamSeason.rating := None;
  LeagueTeamSeason.created_at := now;
  LeagueTeamSeason.updated_at := now |}.

Definition insert (team_id : LeagueTeamId) (season_id : LeagueSeasonId) (status : LeagueTeamSeasonStatus.t)
    (registered_at : option DateTime) : M LeagueTeamSeason.t :=
  insert_row Db.league_team_seasons put violated (inserted team_id season_id status registered_at).

Definition create (cmd : CreateLeagueTeamSeason.t) : M LeagueTeamSeason.t :=
  insert (CreateLeagueTeamSeason.team_id cmd) (CreateLeagueTeamSeason.season_id cmd)
    LeagueTeamSeasonStatus.Forming None.

(** The founding captain's seat. *)
Definition captain_seat (ts : LeagueTeamSeasonId) (player : PlayerId) : AddLeagueTeamMember.t := {|
  AddLeagueTeamMember.team_season_id := ts;
  AddLeagueTeamMember.player_id := player;
  AddLeagueTeamMember.role := LeagueTeamRole.Captain;
  AddLeagueTeamMember.position := None;
  AddLeagueTeamMember.jersey_number := None;
  AddLeagueTeamMember.added_by := None |}.

Definition create_with_captain (team_id : LeagueTeamId) (season_id : LeagueSeasonId) (captain : PlayerId)
    : M LeagueTeamSeason.t :=
  transaction (
    let* r := insert team_id season_id LeagueTeamSeasonStatus.Forming None in
    let* _ := LeagueTeamMemberRepository.insert_seat (captain_seat (LeagueTeamSeason.id r) captain) in
    mret r).

(** [ORDER BY created_at DESC]. *)
Definition newest (a b : LeagueTeamSeason.t) : bool :=
  bool_decide (LeagueTeamSeason.created_at b ≤ LeagueTeamSeason.created_at a).
Definition of_team (team_id : LeagueTeamId) (db : Db.t) : list LeagueTeamSeason.t :=
  stable_sort newest (rows_where (λ r, bool_decide (LeagueTeamSeason.team_id r = team_id)) (Db.league_team_seasons db)).
Definition list_by_team (team_id : LeagueTeamId) : M (list LeagueTeamSeason.t) := mread (of_team team_id).

Definition update_row (id : LeagueTeamSeasonId) (set : DateTime → LeagueTeamSeason.t → LeagueTeamSeason.t)
    : M LeagueTeamSeason.t :=
  update_where_id Db.league_team_seasons put violated (DomainError.Internal row_not_found) id
    (λ now r, (set now r) <| LeagueTeamSeason.updated_at := now |>).

(** A team that withdraws releases its seats, and its entries in cups to come. *)
Definition update_status (id : LeagueTeamSeasonId) (status : LeagueTeamSeasonStatus.t) : M LeagueTeamSeason.t :=
  transaction (
    let* now := mread Db.now in
    let* _ :=
      (if bool_decide (status = LeagueTeamSeasonStatus.Withdrawn) then
        let* _ := RosterRelease.withdraw_open_cup_entries [id] in
        RosterRelease.release_seats [id] LeagueTeamMemberStatus.Left now
      else mret tt) in
    update_row id (λ now r,
      r <| LeagueTeamSeason.status := status |>
        <| LeagueTeamSeason.registered_at :=
             (if bool_decide (status = LeagueTeamSeasonStatus.Registered) then Some now
              else LeagueTeamSeason.registered_at r) |>)).

Definition update (id : LeagueTeamSeasonId) (u : UpdateLeagueTeamSeason.t) : M LeagueTeamSeason.t :=
  update_row id (λ _ r,
    r <| LeagueTeamSeason.status := default (LeagueTeamSeason.status r) (UpdateLeagueTeamSeason.status u) |>
      <| LeagueTeamSeason.registration_notes :=
           TournamentRepository.or_keep (UpdateLeagueTeamSeason.registration_notes u)
             (LeagueTeamSeason.registration_notes r) |>
      <| LeagueTeamSeason.seed :=
           TournamentRepository.or_keep (UpdateLeagueTeamSeason.seed u) (LeagueTeamSeason.seed r) |>
      <| LeagueTeamSeason.rating :=
           TournamentRepository.or_keep (UpdateLeagueTeamSeason.rating u) (LeagueTeamSeason.rating r) |>).
End repository.
End LeagueTeamSeasonRepository.

(** ** What goes with a team's registration for a season *)

Section cascade.
Context `{Platform}.

(** The references to registrations for a cup that refuse their deletion. *)
Definition claims_refer (r : TournamentRegistrationId) (db : Db.t) : bool :=
  existsb (λ '(_, c), bool_decide (ResultClaim.submitted_by_registration_id c = Some r ∨
      ResultClaim.claimed_winner_registration_id c = r ∨
      ResultClaim.confirmed_by_registration_id c = Some r)) (map_to_list (Db.result_claims db)).
Definition disputes_refer (r : TournamentRegistrationId) (db : Db.t) : bool :=
  existsb (λ '(_, d), bool_decide (Dispute.disputed_by_registration_id d = r ∨
      Dispute.original_winner_registration_id d = Some r ∨
      (Dispute.resolution d ≫= DisputeResolution.new_winner_registration_id) = Some r)) (map_to_list (Db.disputes db)).
Definition vetoes_refer (r : TournamentRegistrationId) (db : Db.t) : bool :=
  existsb (λ '(_, s), bool_decide (VetoSession.first_action_registration_id s = Some r ∨
      VetoSession.coin_flip_winner_registration_id s = Some r ∨ VetoSession.current_team_turn s = Some r))
    (map_to_list (Db.veto_sessions db)) ||
  existsb (λ a, bool_decide (VetoAction.performed_by_registration_id a = Some r ∨
      VetoAction.side_selected_by_registration_id a = Some r)) (Db.veto_actions db).
Definition referring (db : Db.t) (r : TournamentRegistrationId) : option string :=
  if existsb (λ '(_, p), bool_decide (ScheduleProposal.proposed_by_registration_id p = r))
       (map_to_list (Db.schedule_proposals db))
  then Some "schedule_proposals_proposed_by_registration_id_fkey"
  else if vetoes_refer r db then Some "veto_sessions_registration_id_fkey"
  else if claims_refer r db then Some "result_claims_registration_id_fkey"
  else if existsb (λ p, bool_decide (ProgressionLog.registration_id p = r)) (Db.progression_log db)
  then Some "progression_log_registration_id_fkey"
  else if existsb (λ f, bool_decide (ForfeitRecord.forfeiting_registration_id f = r)) (Db.forfeit_records db)
  then Some "forfeit_records_forfeiting_registration_id_fkey"
  else if disputes_refer r db then Some "disputes_registration_id_fkey"
  else if existsb (λ '(_, v), bool_decide (ResultReview.captain1_registration_id v = r ∨
            ResultReview.captain2_registration_id v = r)) (map_to_list (Db.result_reviews db))
  then Some "result_reviews_captain_registration_id_fkey"
  else None.

(** [ON DELETE SET NULL]: matches forget the registration. *)
Definition forget (gone : list TournamentRegistrationId) (o : option TournamentRegistrationId)
    : option TournamentRegistrationId :=
  match o with Some r => if bool_decide (r ∈ gone) then None else o | None => None end.
Definition forget_in_match (gone : list TournamentRegistrationId) (m : TournamentMatch.t) : TournamentMatch.t :=
  m <| TournamentMatch.participant1_registration_id := forget gone (TournamentMatch.participant1_registration_id m) |>
    <| TournamentMatch.participant2_registration_id := forget gone (TournamentMatch.participant2_registration_id m) |>
    <| TournamentMatch.winner_registration_id := forget gone (TournamentMatch.winner_registration_id m) |>
    <| TournamentMatch.loser_registration_id := forget gone (TournamentMatch.loser_registration_id m) |>.

(** [ON DELETE CASCADE] of a registration: its standings, byes and hours. *)
Definition delete_registrations (gone : list TournamentRegistrationId) : M unit := λ db,
  let kept (o : option TournamentRegistrationId) := bool_decide (forget gone o = o) in
  match head (omap (referring db) gone) with
  | Some name => violates name db
  | None => (Ok tt,
      db <| Db.registrations := filter (λ kv, kv.1 ∉ gone) (Db.registrations db) |>
         <| Db.matches := forget_in_match gone <$> Db.matches db |>
         <| Db.standings := filter (λ s, TournamentStanding.registration_id s ∉ gone) (Db.standings db) |>
         <| Db.byes := filter (λ b, BracketBye.registration_id b ∉ gone) (Db.byes db) |>
         <| Db.availability_windows :=
              filter (λ kv, kept (AvailabilityWindow.registration_id kv.2) = true) (Db.availability_windows db) |>
         <| Db.availability_overrides :=
              filter (λ kv, kept (AvailabilityOverride.registration_id kv.2) = true) (Db.availability_overrides db) |>)
  end.

(** [ON DELETE CASCADE] of a team's season: its seats, its invitations, and those
    and its registrations for cups. *)
Definition delete_team_seasons (gone : list LeagueTeamSeasonId) : M unit :=
  let named (o : option LeagueTeamSeasonId) := from_option (λ ts, bool_decide (ts ∈ gone)) false o in
  let* registrations := mread (λ db, TournamentRegistration.id <$>
    rows_where (λ r, named (TournamentRegistration.team_season_id r)) (Db.registrations db)) in
  let* _ := delete_registrations registrations in
  mwrite (λ db,
    db <| Db.league_team_seasons := filter (λ kv, kv.1 ∉ gone) (Db.league_team_seasons db) |>
       <| Db.league_team_members :=
            filter (λ m, LeagueTeamMember.team_season_id m ∉ gone) (Db.league_team_members db) |>
       <| Db.league_team_invitations :=
            filter (λ kv, LeagueTeamInvitation.team_season_id kv.2 ∉ gone) (Db.league_team_invitations db) |>
       <| Db.invitations :=
            filter (λ kv, named (TournamentInvitation.team_season_id kv.2) = false) (Db.invitations db) |>).
End cascade.

(** ** Teams (team.rs) *)

Module LeagueTeamRepository.
Section repository.
Context `{Platform} `{TextRules}.

Definition put (rows : gmap LeagueTeamId LeagueTeam.t) (db : Db.t) : Db.t := db <| Db.league_teams := rows |>.

Definition normalize_name (name : string) : string := str_trim (str_to_lowercase name).

(** [name_normalized = $2], and [tag_normalized = $2]: generated by [lower]. *)
Definition named (league_id : LeagueId) (name : string) (db : Db.t) : list LeagueTeam.t :=
  rows_where (λ t, bool_decide (LeagueTeam.league_id t = league_id ∧ sql_lower (LeagueTeam.name t) = name))
    (Db.league_teams db).
Definition tagged (league_id : LeagueId) (tag : string) (db : Db.t) : list LeagueTeam.t :=
  rows_where (λ t, bool_decide (LeagueTeam.league_id t = league_id ∧ sql_lower (LeagueTeam.tag t) = tag))
    (Db.league_teams db).

(** ['^[a-zA-Z0-9]{2,5}$'] and ['^#[0-9A-Fa-f]{6}$']. *)
Definition within (lo hi c : ascii) : bool :=
  bool_decide (N_of_ascii lo ≤ N_of_ascii c)%N && bool_decide (N_of_ascii c ≤ N_of_ascii hi)%N.
Definition is_digit (c : ascii) : bool := within "0" "9" c.
Definition is_alnum (c : ascii) : bool := within "a" "z" c || within "A" "Z" c || is_digit c.
Definition is_hex (c : ascii) : bool := is_digit c || within "A" "F" c || within "a" "f" c.
Definition tag_format (tag : string) : bool :=
  let cs := String.list_ascii_of_string tag in bool_decide (2 ≤ length cs ≤ 5)%nat && forallb is_alnum cs.
Definition color_format (color : string) : bool :=
  match String.list_ascii_of_string color with
  | "#"%char :: cs => bool_decide (length cs = 6%nat) && forallb is_hex cs
  | _ => false
  end.

Definition others (id : LeagueTeamId) (l : list LeagueTeam.t) : bool :=
  existsb (λ t, bool_decide (LeagueTeam.id t ≠ id)) l.

(** Checks in the order of their names, then the indexes, then the references. *)
Definition violated (db : Db.t) (t : LeagueTeam.t) : option string :=
  if negb (from_option color_format true (LeagueTeam.primary_color t)
           && from_option color_format true (LeagueTeam.secondary_color t))
  then Some "league_teams_check_colors"
  else if negb (tag_format (LeagueTeam.tag t)) then Some "league_teams_tag_format"
  else if others (LeagueTeam.id t) (named (LeagueTeam.league_id t) (sql_lower (LeagueTeam.name t)) db)
  then Some "league_teams_name_unique"
  else if others (LeagueTeam.id t) (tagged (LeagueTeam.league_id t) (sql_lower (LeagueTeam.tag t)) db)
  then Some "league_teams_tag_unique"
  else if negb (refers (Db.leagues db) (LeagueTeam.league_id t)) then Some "league_teams_league_id_fkey"
  else if negb (refers (Db.players db) (LeagueTeam.owner_player_id t)) then Some "league_teams_owner_player_id_fkey"
  else None.

Definition find_by_id (id : LeagueTeamId) : M (option LeagueTeam.t) := mread (λ db, Db.league_teams db !! id).
Definition find_by_name (league_id : LeagueId) (name : string) : M (option LeagueTeam.t) :=
  mread (λ db, head (named league_id (normalize_name name) db)).
Definition find_by_tag (league_id : LeagueId) (tag : string) : M (option LeagueTeam.t) :=
  mread (λ db, head (tagged league_id (normalize_name tag) db)).
Definition name_exists (league_id : LeagueId) (name : string) : M bool :=
  mread (λ db, bool_decide (0 < count (named league_id (normalize_name name) db))).
Definition tag_exists (league_id : LeagueId) (tag : string) : M bool :=
  mread (λ db, bool_decide (0 < count (tagged league_id (normalize_name tag) db))).

Definition inserted (cmd : CreateLeagueTeam.t) (id : LeagueTeamId) (now : DateTime) : LeagueTeam.t := {|
  LeagueTeam.id := id;
  LeagueTeam.league_id := CreateLeagueTeam.league_id cmd;
  LeagueTeam.name := CreateLeagueTeam.name cmd;
  LeagueTeam.tag := CreateLeagueTeam.tag cmd;
  LeagueTeam.description := CreateLeagueTeam.description cmd;
  LeagueTeam.logo_url := CreateLeagueTeam.logo_url cmd;
  LeagueTeam.banner_url := None;
  LeagueTeam.primary_color := CreateLeagueTeam.primary_color cmd;
  LeagueTeam.secondary_color := CreateLeagueTeam.secondary_color cmd;
  LeagueTeam.owner_player_id := CreateLeagueTeam.owner_player_id cmd;
  LeagueTeam.status := LeagueTeamStatus.Active;
  LeagueTeam.archived_at := None;
  LeagueTeam.archived_by := None;
  LeagueTeam.created_at := now;
  LeagueTeam.updated_at := now;
  LeagueTeam.disbanded_at := None |}.

Definition create (cmd : CreateLeagueTeam.t) : M LeagueTeam.t :=
  insert_row Db.league_teams put violated (inserted cmd).

(** The live grants of a team are unique per user. *)
Definition live_grant (team_id : LeagueTeamId) (user : UserId) (g : CaptainGrant.t) : bool :=
  bool_decide (CaptainGrant.user_id g = user ∧ CaptainGrant.team_id g = team_id ∧ CaptainGrant.revoked_at g = None).
Definition user_of (player : PlayerId) (db : Db.t) : option UserId :=
  Db.players db !! player ≫= PlayerColumns.user_id.

(** [INSERT INTO user_roles .. SELECT .. ON CONFLICT DO NOTHING]. *)
Definition grant_captain (team_id : LeagueTeamId) (player : PlayerId) : M unit :=
  mwrite (λ db, match user_of player db with
    | Some u =>
        if existsb (live_grant team_id u) (Db.captain_grants db) then db
        else db <| Db.captain_grants := Db.captain_grants db ++ [CaptainGrant.mk u team_id (Db.now db) None] |>
    | None => db
    end).

(** [UPDATE user_roles .. SET revoked_at = ..]. *)
Definition revoke_captain (team_id : LeagueTeamId) (player : PlayerId) : M unit :=
  mwrite (λ db, match user_of player db with
    | Some u => db <| Db.captain_grants :=
        (λ g, if live_grant team_id u g then g <| CaptainGrant.revoked_at := Some (Db.now db) |> else g)
          <$> Db.captain_grants db |>
    | None => db
    end).

Definition create_team_with_season_and_captain (cmd : CreateLeagueTeam.t) (season_id : LeagueSeasonId)
    (captain : PlayerId) : M (LeagueTeam.t * LeagueTeamSeason.t) :=
  transaction (
    let* team := create cmd in
    let* r := LeagueTeamSeasonRepository.insert (LeagueTeam.id team) season_id LeagueTeamSeasonStatus.Forming None in
    let* _ := LeagueTeamMemberRepository.insert_seat
                (LeagueTeamSeasonRepository.captain_seat (LeagueTeamSeason.id r) captain) in
    let* _ := grant_captain (LeagueTeam.id team) captain in
    mret (team, r)).

Definition update_row (id : LeagueTeamId) (missing : DomainError.t) (set : DateTime → LeagueTeam.t → LeagueTeam.t)
    : M LeagueTeam.t :=
  update_where_id Db.league_teams put violated missing id (λ now t, (set now t) <| LeagueTeam.updated_at := now |>).
Definition no_row : DomainError.t := DomainError.Internal row_not_found.

Definition clear_image (id : LeagueTeamId) (image : TeamImage.t) : M LeagueTeam.t :=
  update_row id (DomainError.LeagueTeamNotFound id) (λ _ t,
    match image with
    | TeamImage.Logo => t <| LeagueTeam.logo_url := None |>
    | TeamImage.Banner => t <| LeagueTeam.banner_url := None |>
    end).

Definition update (id : LeagueTeamId) (u : UpdateLeagueTeam.t) : M LeagueTeam.t :=
  let keep {A} (new old : option A) := TournamentRepository.or_keep new old in
  update_row id no_row (λ _ t,
    t <| LeagueTeam.name := default (LeagueTeam.name t) (UpdateLeagueTeam.name u) |>
      <| LeagueTeam.tag := default (LeagueTeam.tag t) (UpdateLeagueTeam.tag u) |>
      <| LeagueTeam.description := keep (UpdateLeagueTeam.description u) (LeagueTeam.description t) |>
      <| LeagueTeam.logo_url := keep (UpdateLeagueTeam.logo_url u) (LeagueTeam.logo_url t) |>
      <| LeagueTeam.banner_url := keep (UpdateLeagueTeam.banner_url u) (LeagueTeam.banner_url t) |>
      <| LeagueTeam.primary_color := keep (UpdateLeagueTeam.primary_color u) (LeagueTeam.primary_color t) |>
      <| LeagueTeam.secondary_color := keep (UpdateLeagueTeam.secondary_color u) (LeagueTeam.secondary_color t) |>).

(** The seasons that [restore_capacity_check] finds full, without this team. *)
Definition full_without (team_id : LeagueTeamId) (db : Db.t) (ts : LeagueTeamSeasonId) : option LeagueSeason.t :=
  r ← Db.league_team_seasons db !! ts; s ← Db.league_seasons db !! LeagueTeamSeason.season_id r;
  max ← LeagueSeason.max_teams s;
  let taken := filter (λ r', LeagueTeamSeason.team_id r' ≠ team_id)
                 (LeagueSeasonRepository.slots (LeagueTeamSeason.season_id r) db) in
  if bool_decide (max ≤ count taken) then Some s else None.

Definition restore_capacity_check (team_id : LeagueTeamId) (live : list LeagueTeamSeasonId) : M unit := λ db,
  match head (omap (full_without team_id db) live) with
  | Some s => mthrow (DomainError.Conflict ("'" +:+ LeagueSeason.name s +:+
                "' has filled its team slots since this team was archived")) db
  | None => (Ok tt, db)
  end.

(** A seat that archiving released, and whose player is free again. *)
Definition comes_back (live : list LeagueTeamSeasonId) (archived_at : DateTime) (rows : list LeagueTeamMember.t)
    (m : LeagueTeamMember.t) : bool :=
  bool_decide (LeagueTeamMember.team_season_id m ∈ live ∧
               LeagueTeamMember.status m = LeagueTeamMemberStatus.Inactive ∧
               LeagueTeamMember.left_at m = Some archived_at)
  && negb (LeagueTeamMember.is_primary m
           && bool_decide ((LeagueTeamMember.player_id m, LeagueTeamMember.season_id m)
                             ∈ LeagueTeamMemberRepository.primary_keys rows)).

Definition restored (m : LeagueTeamMember.t) : LeagueTeamMember.t :=
  m <| LeagueTeamMember.status := LeagueTeamMemberStatus.Active |> <| LeagueTeamMember.left_at := None |>.

Definition restore_seats (live : list LeagueTeamSeasonId) (archived_at : DateTime) : M unit := λ db,
  let rows := Db.league_team_members db in
  let rows' := (λ m, if comes_back live archived_at rows m then restored m else m) <$> rows in
  if bool_decide (NoDup (LeagueTeamMemberRepository.primary_keys rows'))
  then (Ok tt, db <| Db.league_team_members := rows' |>)
  else violates "idx_one_primary_team_per_season" db.

Definition set_archived (id : LeagueTeamId) (archived_by : option UserId) : M LeagueTeam.t :=
  transaction (
    let* current := find_by_id id in
    let* current := mlift (ok_or current (Error (DomainError.LeagueTeamNotFound id))) in
    let* live := RosterRelease.live_team_season_ids id in
    let* now := mread Db.now in
    let* _ :=
      (match archived_by, LeagueTeam.archived_at current with
       | Some _, None =>
           let* _ := RosterRelease.withdraw_open_cup_entries live in
           RosterRelease.release_seats live LeagueTeamMemberStatus.Inactive now
       | None, Some archived_at =>
           let* _ := restore_capacity_check id live in
           restore_seats live archived_at
       | _, _ => mret tt
       end) in
    update_row id no_row (λ now t,
      t <| LeagueTeam.archived_at :=
             (match archived_by with
              | None => None
              | Some _ => TournamentRepository.or_keep (LeagueTeam.archived_at t) (Some now)
              end) |>
        <| LeagueTeam.archived_by := archived_by |>)).
(** *** Between leagues *)

(** [SELECT t.id, t.name, t.status .. ORDER BY t.name]: the cups the team is in. *)
Definition live_entries (id : LeagueTeamId) (db : Db.t) : list Tournament.t :=
  RosterRelease.entered (LeagueTeamSeason.id <$> LeagueTeamSeasonRepository.of_team id db) db.

Definition bracket_state (s : TournamentStatus.t) : string :=
  match s with
  | TournamentStatus.Scheduled => "a bracket"
  | TournamentStatus.InProgress => "started"
  | _ => "finished"
  end.
Definition hole_in_bracket (t : Tournament.t) : DomainError.t :=
  DomainError.InvalidState ("team is entered in '" +:+ Tournament.name t +:+ "', which has " +:+
    bracket_state (Tournament.status t) +:+ "; move refused rather than leaving a hole in its bracket").

Definition carried (ts : LeagueTeamSeasonId) (m : LeagueTeamMember.t) : AddLeagueTeamMember.t := {|
  AddLeagueTeamMember.team_season_id := ts;
  AddLeagueTeamMember.player_id := LeagueTeamMember.player_id m;
  AddLeagueTeamMember.role := LeagueTeamMember.role m;
  AddLeagueTeamMember.position := LeagueTeamMember.position m;
  AddLeagueTeamMember.jersey_number := LeagueTeamMember.jersey_number m;
  AddLeagueTeamMember.added_by := LeagueTeamMember.added_by m |}.

(** [ON CONFLICT (team_season_id, player_id) DO NOTHING]; a seat keeps the instant
    it was taken at. *)
Definition carry_seat (ts : LeagueTeamSeasonId) (m : LeagueTeamMember.t) : M unit :=
  let* season := LeagueTeamMemberRepository.season_of ts in
  λ db,
    if existsb (LeagueTeamMemberRepository.at_seat ts (LeagueTeamMember.player_id m)) (Db.league_team_members db)
    then (Ok tt, db)
    else
      let m := LeagueTeamMemberRepository.new_seat (carried ts m) (Db.next_uuid db) season
                 (LeagueTeamMember.joined_at m) in
      let rows := Db.league_team_members db ++ [m] in
      match LeagueTeamMemberRepository.refused db rows m with
      | Some name => violates name db
      | None => (Ok tt, db <| Db.next_uuid := N.succ (Db.next_uuid db) |> <| Db.league_team_members := rows |>)
      end.

(** The current seats of a roster, [status = 'active']. *)
Definition current_seats (source : LeagueTeamSeasonId) (db : Db.t) : list LeagueTeamMember.t :=
  filter (λ m, LeagueTeamMember.team_season_id m = source ∧
               LeagueTeamMember.status m = LeagueTeamMemberStatus.Active) (Db.league_team_members db).
Definition carry_roster (source ts : LeagueTeamSeasonId) : M unit :=
  let* seats := mread (current_seats source) in mfor seats (carry_seat ts).

(** [INSERT .. ON CONFLICT (team_id, season_id) DO UPDATE SET updated_at = NOW()]. *)
Definition enter_season (id : LeagueTeamId) (season_id : LeagueSeasonId) : M LeagueTeamSeason.t :=
  let* now := mread Db.now in
  let* there := LeagueTeamSeasonRepository.find_by_team_and_season id season_id in
  match there with
  | Some r => LeagueTeamSeasonRepository.update_row (LeagueTeamSeason.id r) (λ _ r, r)
  | None => LeagueTeamSeasonRepository.insert id season_id LeagueTeamSeasonStatus.Registered (Some now)
  end.

Definition move_to_league (id : LeagueTeamId) (league_id : LeagueId) (season_id : LeagueSeasonId) : M MovedTeam.t :=
  transaction (
    let* entries := mread (live_entries id) in
    match head (filter (λ t, RosterRelease.has_bracket t = true) entries) with
    | Some t => mthrow (hole_in_bracket t)
    | None =>
        let withdrawn_from :=
          (λ t, WithdrawnEntry.mk (Tournament.id t) (Tournament.name t))
            <$> filter (λ t, Tournament.status t ≠ TournamentStatus.Cancelled) entries in
        let* team := update_row id (DomainError.LeagueTeamNotFound id) (λ _ t,
                       t <| LeagueTeam.league_id := league_id |>) in
        let* source := mread (λ db, LeagueTeamSeason.id <$> head (LeagueTeamSeasonRepository.of_team id db)) in
        let* r := enter_season id season_id in
        let* _ :=
          (match source with
           | Some source =>
               if bool_decide (source ≠ LeagueTeamSeason.id r) then carry_roster source (LeagueTeamSeason.id r)
               else mret tt
           | None => mret tt
           end) in
        let* gone := mread (λ db, filter (λ ts, ts ≠ LeagueTeamSeason.id r)
                       (LeagueTeamSeason.id <$> LeagueTeamSeasonRepository.of_team id db)) in
        let* _ := delete_team_seasons gone in
        mret (MovedTeam.mk team r withdrawn_from)
    end).

(** [ORDER BY name ASC]. *)
Definition list_by_owner (league_id : LeagueId) (owner : PlayerId) : M (list LeagueTeam.t) :=
  mread (λ db, stable_sort (λ a b, collate_leb (LeagueTeam.name a) (LeagueTeam.name b))
    (rows_where (λ t, bool_decide (LeagueTeam.league_id t = league_id ∧ LeagueTeam.owner_player_id t = owner)
                      && negb (LeagueTeam.is_disbanded t)) (Db.league_teams db))).

(** [UPDATE league_team_seasons SET status = 'withdrawn' .. WHERE id = ANY($1)]. *)
Definition withdraw_all (ids : list LeagueTeamSeasonId) : M unit :=
  mwrite (λ db, db <| Db.league_team_seasons :=
    (λ r, if bool_decide (LeagueTeamSeason.id r ∈ ids)
          then r <| LeagueTeamSeason.status := LeagueTeamSeasonStatus.Withdrawn |>
                 <| LeagueTeamSeason.updated_at := Db.now db |>
          else r) <$> Db.league_team_seasons db |>).

(** A team that disbands withdraws from every season it is still in. *)
Definition update_status (id : LeagueTeamId) (status : LeagueTeamStatus.t) : M LeagueTeam.t :=
  transaction (
    let* now := mread Db.now in
    let* _ :=
      (if bool_decide (status = LeagueTeamStatus.Disbanded) then
        let* live := RosterRelease.live_team_season_ids id in
        let* _ := RosterRelease.withdraw_open_cup_entries live in
        let* _ := RosterRelease.release_seats live LeagueTeamMemberStatus.Left now in
        withdraw_all live
      else mret tt) in
    update_row id no_row (λ now t,
      t <| LeagueTeam.status := status |>
        <| LeagueTeam.disbanded_at :=
             (if bool_decide (status = LeagueTeamStatus.Disbanded) then Some now else LeagueTeam.disbanded_at t) |>)).

(** The owner's column and the owner's grant, in one transaction. *)
Definition transfer_ownership (id : LeagueTeamId) (new_owner : PlayerId) : M LeagueTeam.t :=
  transaction (
    let* previous := find_by_id id in
    let* previous := mlift (ok_or previous (Error (DomainError.LeagueTeamNotFound id))) in
    let* team := update_row id no_row (λ _ t, t <| LeagueTeam.owner_player_id := new_owner |>) in
    let* _ := revoke_captain id (LeagueTeam.owner_player_id previous) in
    let* _ := grant_captain id new_owner in
    mret team).
End repository.
End LeagueTeamRepository.


(** ** Invitations (invitation.rs) *)

Module LeagueTeamInvitationRepository.
Section repository.
Context `{Platform}.
Import LeagueTeamInvitation.

Definition put (rows : gmap LeagueTeamInvitationId t) (db : Db.t) : Db.t := db <| Db.league_team_invitations := rows |>.

Definition default_expiration (now : DateTime) : DateTime := now + minutes (7 * 24 * 60).

Definition violated (db : Db.t) (i : t) : option string :=
  if negb (refers (Db.league_team_seasons db) (team_season_id i))
  then Some "league_team_invitations_team_season_id_fkey"
  else if negb (refers (Db.players db) (player_id i)) then Some "league_team_invitations_player_id_fkey"
  else None.

Definition inserted (cmd : CreateLeagueTeamInvitation.t) (id : LeagueTeamInvitationId) (now : DateTime) : t := {|
  LeagueTeamInvitation.id := id;
  team_season_id := CreateLeagueTeamInvitation.team_season_id cmd;
  player_id := CreateLeagueTeamInvitation.player_id cmd;
  invitation_type := CreateLeagueTeamInvitation.invitation_type cmd;
  role := CreateLeagueTeamInvitation.role cmd;
  message := CreateLeagueTeamInvitation.message cmd;
  invited_by := CreateLeagueTeamInvitation.invited_by cmd;
  status := LeagueTeamInvitationStatus.Pending;
  responded_at := None;
  response_message := None;
  expires_at := default_expiration now;
  created_at := now |}.

Definition create (cmd : CreateLeagueTeamInvitation.t) : M t :=
  insert_row Db.league_team_invitations put violated (inserted cmd).

Definition find_by_id (id : LeagueTeamInvitationId) : M (option t) :=
  mread (λ db, Db.league_team_invitations db !! id).

(** [status = 'pending' AND expires_at > NOW()]. *)
Definition is_waiting (now : DateTime) (i : t) : bool :=
  bool_decide (status i = LeagueTeamInvitationStatus.Pending) && bool_decide (now < expires_at i).

(** [ORDER BY created_at DESC]. *)
Definition newest (a b : t) : bool := bool_decide (created_at b ≤ created_at a).

Definition find_pending_by_team_season (ts : LeagueTeamSeasonId) : M (list t) :=
  mread (λ db, stable_sort newest (rows_where (λ i, bool_decide (team_season_id i = ts) && is_waiting (Db.now db) i)
    (Db.league_team_invitations db))).

Definition existing_pending (ts : LeagueTeamSeasonId) (player : PlayerId) (db : Db.t) : list t :=
  rows_where (λ i, bool_decide (team_season_id i = ts ∧ player_id i = player) && is_waiting (Db.now db) i)
    (Db.league_team_invitations db).
Definition find_existing_pending (ts : LeagueTeamSeasonId) (player : PlayerId) : M (option t) :=
  mread (λ db, head (existing_pending ts player db)).

Definition answered (new : LeagueTeamInvitationStatus.t) (response : option string) (now : DateTime) (i : t) : t :=
  i <| status := new |> <| responded_at := Some now |> <| response_message := response |>.

Definition update_status (id : LeagueTeamInvitationId) (new : LeagueTeamInvitationStatus.t)
    (response : option string) : M t :=
  update_where_id Db.league_team_invitations put (λ _ _, None) (DomainError.Internal row_not_found) id
    (answered new response).

(** The answer and the seat, in one transaction. *)
Definition accept_and_add_member (id : LeagueTeamInvitationId) (member : AddLeagueTeamMember.t)
    : M LeagueTeamMember.t :=
  transaction (
    let* _ := mwrite (λ db, put (alter (answered LeagueTeamInvitationStatus.Accepted None (Db.now db)) id
                                   (Db.league_team_invitations db)) db) in
    LeagueTeamMemberRepository.seat_member member).

Definition cancel_pending_for_player (ts : LeagueTeamSeasonId) (player : PlayerId) : M unit :=
  mwrite (λ db, put ((λ i,
    if bool_decide (team_season_id i = ts ∧ player_id i = player ∧ status i = LeagueTeamInvitationStatus.Pending)
    then i <| status := LeagueTeamInvitationStatus.Cancelled |> <| responded_at := Some (Db.now db) |>
    else i) <$> Db.league_team_invitations db) db).

(** The roster of a waiting invitation can still seat someone. *)
Definition seatable (db : Db.t) (i : t) : bool :=
  default false (
    r ← Db.league_team_seasons db !! team_season_id i;
    team ← Db.league_teams db !! LeagueTeamSeason.team_id r;
    s ← Db.league_seasons db !! LeagueTeamSeason.season_id r;
    l ← Db.leagues db !! LeagueSeason.league_id s;
    Some (negb (LeagueTeamSeason.is_terminal r)
          && negb (LeagueTeam.is_disbanded team) && bool_decide (LeagueTeam.archived_at team = None)
          && negb (LeagueSeason.is_terminal s) && bool_decide (LeagueSeason.archived_at s = None)
          && bool_decide (LeagueColumns.archived_at l = None))).
Definition count_pending_for_player (player : PlayerId) : M Z :=
  mread (λ db, count (rows_where (λ i, bool_decide (player_id i = player) && is_waiting (Db.now db) i
                                       && seatable db i) (Db.league_team_invitations db))).

Definition overdue (now : DateTime) (i : t) : bool :=
  bool_decide (status i = LeagueTeamInvitationStatus.Pending ∧ expires_at i ≤ now).
Definition expire_old_invitations : M Z := λ db,
  (Ok (count (rows_where (overdue (Db.now db)) (Db.league_team_invitations db))),
   put ((λ i, if overdue (Db.now db) i then i <| status := LeagueTeamInvitationStatus.Expired |> else i)
          <$> Db.league_team_invitations db) db).
End repository.
End LeagueTeamInvitationRepository.

(** ** Single players (participant.rs) *)

Module LeagueSeasonParticipantRepository.
Section repository.
Context `{Platform}.
Import LeagueSeasonParticipant.

Definition put (rows : gmap Uuid t) (db : Db.t) : Db.t := db <| Db.league_season_participants := rows |>.

Definition entries (season : LeagueSeasonId) (player : PlayerId) (db : Db.t) : list t :=
  rows_where (λ p, bool_decide (season_id p = season ∧ player_id p = player)) (Db.league_season_participants db).

Definition violated (db : Db.t) (p : t) : option string :=
  if existsb (λ p', bool_decide (id p' ≠ id p)) (entries (season_id p) (player_id p) db)
  then Some "league_season_participants_unique"
  else if negb (refers (Db.league_seasons db) (season_id p)) then Some "league_season_participants_season_id_fkey"
  else if negb (refers (Db.players db) (player_id p)) then Some "league_season_participants_player_id_fkey"
  else None.

Definition inserted (cmd : RegisterLeagueSeasonParticipant.t) (id : Uuid) (now : DateTime) : t := {|
  LeagueSeasonParticipant.id := id;
  season_id := RegisterLeagueSeasonParticipant.season_id cmd;
  player_id := RegisterLeagueSeasonParticipant.player_id cmd;
  status := LeagueSeasonParticipantStatus.Registered;
  seed := None;
  rating := None;
  matches_played := 0;
  matches_won := 0;
  matches_lost := 0;
  matches_drawn := 0;
  registered_at := now;
  withdrawn_at := None |}.

Definition register (cmd : RegisterLeagueSeasonParticipant.t) : M t :=
  insert_row Db.league_season_participants put violated (inserted cmd).

Definition find_by_id (id : Uuid) : M (option t) := mread (λ db, Db.league_season_participants db !! id).
Definition find_by_season_and_player (season : LeagueSeasonId) (player : PlayerId) : M (option t) :=
  mread (λ db, head (entries season player db)).

Definition update_row (id : Uuid) (set : DateTime → t → t) : M t :=
  update_where_id Db.league_season_participants put violated (DomainError.Internal row_not_found) id set.
Definition update_status (id : Uuid) (new : LeagueSeasonParticipantStatus.t) : M t :=
  update_row id (λ now p, p <| status := new |> <| withdrawn_at :=
    (if bool_decide (new = LeagueSeasonParticipantStatus.Withdrawn) then Some now else withdrawn_at p) |>).
Definition withdraw (id : Uuid) : M t :=
  update_row id (λ now p, p <| status := LeagueSeasonParticipantStatus.Withdrawn |>
                            <| withdrawn_at := Some now |>).

Definition takes_part (p : t) : bool :=
  match status p with
  | LeagueSeasonParticipantStatus.Withdrawn | LeagueSeasonParticipantStatus.Disqualified => false
  | _ => true
  end.
Definition is_registered (season : LeagueSeasonId) (player : PlayerId) : M bool :=
  mread (λ db, bool_decide (0 < count (filter (λ p, takes_part p = true) (entries season player db)))).
End repository.
End LeagueSeasonParticipantRepository.
