(* ===== verification/LeagueTeams.v ===== *)
(** The services of leagues (crates/portal-domain/src/services/league_team): the
    roster lock and its audited override (roster_lock.rs), who may still take a
    seat (mod.rs), seasons (season.rs), teams and their rosters (team.rs),
    invitations and join requests (invitation.rs), and single players
    (participant.rs). *)
From stdpp Require Import base list strings gmap.
From S2P Require Import Prelude Errors Wire TournamentTypes CoreEnums DomainEnums FormatPlan Entities Rows.
From S2P Require Import ResultModel TournamentModel LeagueModel Store ClaimStore TournamentStore LeagueStore.
#[local] Open Scope Z_scope.

Section gates.
Context `{Platform}.

Definition invalid_state {A} (message : string) : M A := mthrow (DomainError.InvalidState message).
Definition conflict {A} (message : string) : M A := mthrow (DomainError.Conflict message).
Definition not_authorized {A} (message : string) : M A := mthrow (DomainError.NotAuthorized message).

(** [repo.find(..).await?.ok_or(error)?]. *)
Definition require {A} (c : M (option A)) (missing : DomainError.t) : M A :=
  let* row := c in mlift (ok_or row (Error missing)).

(** ** The roster lock *)

(** Why a change is refused, if it is. *)
Definition refusal_reason (season : LeagueSeason.t) (change : RosterChange.t) : option string :=
  if SeasonStatus.is_terminal (LeagueSeason.status season) then
    Some ("season status '" +:+ SeasonStatus.fmt (LeagueSeason.status season) +:+
          "' is final; its roster is now history and cannot be changed")
  else
    match change with
    | RosterChange.Founding => None
    | RosterChange.Membership role =>
        let allowed :=
          if LeagueTeamRole.is_primary role then LeagueSeason.allows_primary_roster_changes season
          else LeagueSeason.allows_substitute_changes season in
        if allowed then None
        else Some ("roster is locked for " +:+
                   (if LeagueTeamRole.is_primary role then "primary member" else "substitute") +:+ " changes")
    | RosterChange.Role =>
        if RosterLockStatus.allows_any_changes (LeagueSeason.roster_lock_status season) then None
        else Some "roster is locked: captaincy changes are not permitted under a hard lock"
    end.

Definition ensure_roster_may_be_founded (season : LeagueSeason.t) : M unit :=
  match refusal_reason season RosterChange.Founding with
  | Some refusal => invalid_state refusal
  | None => mret tt
  end.

(** The row of an override. *)
Definition override_entry (season : LeagueSeason.t) (team_season_id : LeagueTeamSeasonId) (change : RosterChange.t)
    (refusal : string) (over : RosterLockOverride.t) : CreateEntityChange.t := {|
  CreateEntityChange.entity_type := "league_team_season";
  CreateEntityChange.entity_id := team_season_id;
  CreateEntityChange.change_type := ChangeType.Update;
  CreateEntityChange.field_name := Some "roster_lock_override";
  CreateEntityChange.old_value := Some (json_of_object [
    ("season_id", json_of_string (uuid_string (LeagueSeason.id season)));
    ("season_status", json_of_string (SeasonStatus.fmt (LeagueSeason.status season)));
    ("roster_lock_status", json_of_string (RosterLockStatus.fmt (LeagueSeason.roster_lock_status season)));
    ("refused_because", json_of_string refusal)]);
  CreateEntityChange.new_value := Some (json_of_object [
    ("change", json_of_string (RosterChange.label change));
    ("reason", json_of_string (RosterLockOverride.reason over))]);
  CreateEntityChange.changed_by := RosterLockOverride.overridden_by over;
  CreateEntityChange.request_id := RosterLockOverride.request_id over;
  CreateEntityChange.ip_address := None;
  CreateEntityChange.user_agent := None |}.

(** An override is recorded before the change it allows. *)
Definition enforce_roster_lock (season : LeagueSeason.t) (team_season_id : LeagueTeamSeasonId)
    (change : RosterChange.t) (override : option RosterLockOverride.t) : M unit :=
  match refusal_reason season change with
  | None => mret tt
  | Some refusal =>
      match override with
      | None => invalid_state refusal
      | Some over => insert_change (override_entry season team_season_id change refusal over)
      end
  end.

(** ** Who may take part, and where *)

Definition ensure_league_member (league_id : LeagueId) (player_id : PlayerId) : M unit :=
  let* member := is_member_by_player league_id player_id in
  if member then mret tt else mthrow DomainError.NotLeagueMember.

Definition ensure_season_live (season : LeagueSeason.t) : M unit :=
  let* archived :=
    (if bool_decide (is_Some (LeagueSeason.archived_at season)) then mret true
     else LeagueSeasonRepository.is_archived (LeagueSeason.id season)) in
  if archived then invalid_state "this season has been archived" else mret tt.

Definition ensure_roster_live (team : LeagueTeam.t) (team_season : LeagueTeamSeason.t) (season : LeagueSeason.t)
    : M unit :=
  if LeagueTeamStatus.is_terminal (LeagueTeam.status team) then invalid_state "this team has been disbanded"
  else if bool_decide (is_Some (LeagueTeam.archived_at team)) then invalid_state "this team has been archived"
  else if LeagueTeamSeason.is_terminal team_season
  then invalid_state "this team is no longer taking part in the season"
  else ensure_season_live season.

(** The checks before a seat: one primary team a season, room on the roster. *)
Definition already_primary (existing : LeagueTeamSeasonId) : string :=
  "player is already a primary member of team " +:+ uuid_string existing +:+ " in this season".

Definition require_no_primary (season_id : LeagueSeasonId) (player_id : PlayerId) : M unit :=
  let* existing := LeagueTeamMemberRepository.find_primary_team_in_season season_id player_id in
  match existing with
  | Some existing => conflict (already_primary existing)
  | None => mret tt
  end.

Definition has_room (n : Z) (max : option Z) : bool := from_option (λ max, bool_decide (n < max)) true max.

Definition require_room (season : LeagueSeason.t) (team_season_id : LeagueTeamSeasonId) (role : LeagueTeamRole.t)
    : M unit :=
  if LeagueTeamRole.is_primary role then
    let* n := LeagueTeamMemberRepository.count_primary_members team_season_id in
    if has_room n (LeagueSeason.team_size_max season) then mret tt else mthrow DomainError.TeamFull
  else
    let* n := LeagueTeamMemberRepository.count_substitutes team_season_id in
    if has_room n (LeagueSeason.max_substitutes season) then mret tt
    else conflict "maximum number of substitutes reached".

Definition when (b : bool) (c : M unit) : M unit := if b then c else mret tt.

Definition season_by_id (id : LeagueSeasonId) : M LeagueSeason.t :=
  require (LeagueSeasonRepository.find_by_id id) (DomainError.LeagueSeasonNotFound id).
End gates.

(** ** Seasons *)

Module LeagueSeasonService.
Section service.
Context `{Platform}.

Definition get_season (id : LeagueSeasonId) : M LeagueSeason.t := season_by_id id.

Definition get_season_by_slug (league_id : LeagueId) (slug : string) : M LeagueSeason.t :=
  require (LeagueSeasonRepository.find_by_slug league_id slug) (DomainError.LookupFailed "league season" slug).

Definition get_current_season (league_id : LeagueId) : M (option LeagueSeason.t) :=
  LeagueSeasonRepository.find_current_by_league league_id.

Definition slug_taken {A} (slug : string) : M A :=
  conflict ("season slug '" +:+ slug +:+ "' is already taken in this league").

Definition create_season (creator_id : UserId) (cmd : CreateLeagueSeasonCommand.t) : M LeagueSeason.t :=
  let league_id := CreateLeagueSeasonCommand.league_id cmd in
  let* _ := require (mread (λ db, Db.leagues db !! league_id)) (DomainError.LeagueNotFound league_id) in
  let* taken := LeagueSeasonRepository.slug_exists league_id (CreateLeagueSeasonCommand.slug cmd) in
  if taken then slug_taken (CreateLeagueSeasonCommand.slug cmd)
  else LeagueSeasonRepository.create {|
    CreateLeagueSeason.league_id := league_id;
    CreateLeagueSeason.name := CreateLeagueSeasonCommand.name cmd;
    CreateLeagueSeason.slug := CreateLeagueSeasonCommand.slug cmd;
    CreateLeagueSeason.description := CreateLeagueSeasonCommand.description cmd;
    CreateLeagueSeason.registration_start := CreateLeagueSeasonCommand.registration_start cmd;
    CreateLeagueSeason.registration_end := CreateLeagueSeasonCommand.registration_end cmd;
    CreateLeagueSeason.season_start := CreateLeagueSeasonCommand.season_start cmd;
    CreateLeagueSeason.season_end := CreateLeagueSeasonCommand.season_end cmd;
    CreateLeagueSeason.team_size_min := CreateLeagueSeasonCommand.team_size_min cmd;
    CreateLeagueSeason.team_size_max := CreateLeagueSeasonCommand.team_size_max cmd;
    CreateLeagueSeason.max_substitutes := CreateLeagueSeasonCommand.max_substitutes cmd;
    CreateLeagueSeason.max_teams := CreateLeagueSeasonCommand.max_teams cmd;
    CreateLeagueSeason.created_by := creator_id |}.

Definition ensure_lock_change_allowed (season_status : SeasonStatus.t) (lock : RosterLockStatus.t) : M unit :=
  if SeasonStatus.is_terminal season_status && negb (bool_decide (lock = RosterLockStatus.Open))
  then invalid_state "cannot modify roster lock in current season state"
  else mret tt.

Definition ensure_status_transition_allowed (from to : SeasonStatus.t) : M unit :=
  if bool_decide (to ∈ SeasonStatus.allowed_transitions from) then mret tt
  else invalid_state ("cannot transition season from " +:+ SeasonStatus.fmt from +:+ " to " +:+ SeasonStatus.fmt to).

Definition update_command (cmd : UpdateLeagueSeasonCommand.t) (actor : UserId) : UpdateLeagueSeason.t := {|
  UpdateLeagueSeason.name := UpdateLeagueSeasonCommand.name cmd;
  UpdateLeagueSeason.slug := UpdateLeagueSeasonCommand.slug cmd;
  UpdateLeagueSeason.description := UpdateLeagueSeasonCommand.description cmd;
  UpdateLeagueSeason.registration_start := UpdateLeagueSeasonCommand.registration_start cmd;
  UpdateLeagueSeason.registration_end := UpdateLeagueSeasonCommand.registration_end cmd;
  UpdateLeagueSeason.season_start := UpdateLeagueSeasonCommand.season_start cmd;
  UpdateLeagueSeason.season_end := UpdateLeagueSeasonCommand.season_end cmd;
  UpdateLeagueSeason.team_size_min := UpdateLeagueSeasonCommand.team_size_min cmd;
  UpdateLeagueSeason.team_size_max := UpdateLeagueSeasonCommand.team_size_max cmd;
  UpdateLeagueSeason.max_substitutes := UpdateLeagueSeasonCommand.max_substitutes cmd;
  UpdateLeagueSeason.max_teams := UpdateLeagueSeasonCommand.max_teams cmd;
  UpdateLeagueSeason.status := UpdateLeagueSeasonCommand.status cmd;
  UpdateLeagueSeason.settings := UpdateLeagueSeasonCommand.settings cmd;
  UpdateLeagueSeason.roster_lock_status := UpdateLeagueSeasonCommand.roster_lock_status cmd;
  UpdateLeagueSeason.roster_locked_by :=
    (λ _, actor) <$> UpdateLeagueSeasonCommand.roster_lock_status cmd |}.

Definition update_season (id : LeagueSeasonId) (cmd : UpdateLeagueSeasonCommand.t) (actor : UserId)
    : M LeagueSeason.t :=
  let* season := get_season id in
  let* taken :=
    match UpdateLeagueSeasonCommand.slug cmd with
    | Some slug =>
        if bool_decide (slug = LeagueSeason.slug season) then mret false
        else LeagueSeasonRepository.slug_exists (LeagueSeason.league_id season) slug
    | None => mret false
    end in
  if taken then slug_taken (default "" (UpdateLeagueSeasonCommand.slug cmd))
  else
    let* _ :=
      match UpdateLeagueSeasonCommand.status cmd with
      | Some new =>
          when (negb (bool_decide (new = LeagueSeason.status season)))
            (ensure_status_transition_allowed (LeagueSeason.status season) new)
      | None => mret tt
      end in
    let* _ :=
      match UpdateLeagueSeasonCommand.roster_lock_status cmd with
      | Some lock => ensure_lock_change_allowed
          (default (LeagueSeason.status season) (UpdateLeagueSeasonCommand.status cmd)) lock
      | None => mret tt
      end in
    LeagueSeasonRepository.update id (update_command cmd actor).

Definition list_seasons (league_id : LeagueId) (include_archived : bool) : M (list LeagueSeason.t) :=
  LeagueSeasonRepository.list_by_league league_id include_archived.
Definition archive_season (id : LeagueSeasonId) (archived_by : UserId) : M LeagueSeason.t :=
  LeagueSeasonRepository.set_archived id (Some archived_by).
Definition restore_season (id : LeagueSeasonId) : M LeagueSeason.t := LeagueSeasonRepository.set_archived id None.
Definition list_active_seasons (league_id : LeagueId) : M (list LeagueSeason.t) :=
  LeagueSeasonRepository.list_active_by_league league_id.

Definition update_roster_lock (id : LeagueSeasonId) (status : RosterLockStatus.t) (locked_by : UserId)
    : M LeagueSeason.t :=
  let* season := get_season id in
  let* _ := ensure_lock_change_allowed (LeagueSeason.status season) status in
  LeagueSeasonRepository.update_roster_lock id status (Some locked_by).

Definition update_status (id : LeagueSeasonId) (status : SeasonStatus.t) : M LeagueSeason.t :=
  let* season := get_season id in
  let* _ := ensure_status_transition_allowed (LeagueSeason.status season) status in
  LeagueSeasonRepository.update_status id status.

Definition count_teams (id : LeagueSeasonId) : M Z := LeagueSeasonRepository.count_teams id.
Definition count_participants (id : LeagueSeasonId) : M Z := LeagueSeasonRepository.count_participants id.
End service.
End LeagueSeasonService.

(** ** Teams and rosters *)

Module LeagueTeamService.
Section service.
Context `{Platform} `{TextRules}.
Import LeagueTeamMemberRepository.

Definition get_team (id : LeagueTeamId) : M LeagueTeam.t :=
  require (LeagueTeamRepository.find_by_id id) (DomainError.LeagueTeamNotFound id).
Definition clear_image (id : LeagueTeamId) (image : TeamImage.t) : M LeagueTeam.t :=
  LeagueTeamRepository.clear_image id image.
Definition get_team_season (id : LeagueTeamSeasonId) : M LeagueTeamSeason.t :=
  require (LeagueTeamSeasonRepository.find_by_id id)
    (DomainError.LookupFailed "league team season" (uuid_string id)).
Definition get_team_season_by_ids (team_id : LeagueTeamId) (season_id : LeagueSeasonId)
    : M (option LeagueTeamSeason.t) := LeagueTeamSeasonRepository.find_by_team_and_season team_id season_id.

Definition season_for_team_season (id : LeagueTeamSeasonId) : M LeagueSeason.t :=
  let* team_season := get_team_season id in season_by_id (LeagueTeamSeason.season_id team_season).

(** The checks before a team enters a season. *)
Definition require_slot (season : LeagueSeason.t) (season_id : LeagueSeasonId) : M unit :=
  match LeagueSeason.max_teams season with
  | None => mret tt
  | Some max_teams =>
      let* team_count := LeagueSeasonRepository.count_teams season_id in
      if bool_decide (max_teams ≤ team_count)
      then conflict "maximum number of teams reached for this season" else mret tt
  end.

Definition require_open (season : LeagueSeason.t) : M unit :=
  let* now := mread Db.now in
  if LeagueSeason.can_register_team now season then ensure_season_live season
  else mthrow DomainError.LeagueSeasonNotOpen.

Definition name_taken {A} (what name : string) : M A :=
  conflict ("team " +:+ what +:+ " '" +:+ name +:+ "' is already taken in this league").

Definition create_team (creator : PlayerId) (cmd : CreateLeagueTeamCommand.t)
    : M (LeagueTeam.t * LeagueTeamSeason.t) :=
  let season_id := CreateLeagueTeamCommand.season_id cmd in
  let* season := season_by_id season_id in
  let* _ := require_open season in
  let* _ := ensure_roster_may_be_founded season in
  let* _ := ensure_league_member (LeagueSeason.league_id season) creator in
  let* _ := require_slot season season_id in
  let* _ := require_no_primary season_id creator in
  let* name_used := LeagueTeamRepository.name_exists (LeagueSeason.league_id season) (CreateLeagueTeamCommand.name cmd) in
  if name_used then name_taken "name" (CreateLeagueTeamCommand.name cmd) else
  let* tag_used := LeagueTeamRepository.tag_exists (LeagueSeason.league_id season) (CreateLeagueTeamCommand.tag cmd) in
  if tag_used then name_taken "tag" (CreateLeagueTeamCommand.tag cmd) else
  LeagueTeamRepository.create_team_with_season_and_captain {|
    CreateLeagueTeam.league_id := LeagueSeason.league_id season;
    CreateLeagueTeam.name := CreateLeagueTeamCommand.name cmd;
    CreateLeagueTeam.tag := CreateLeagueTeamCommand.tag cmd;
    CreateLeagueTeam.description := CreateLeagueTeamCommand.description cmd;
    CreateLeagueTeam.logo_url := CreateLeagueTeamCommand.logo_url cmd;
    CreateLeagueTeam.primary_color := CreateLeagueTeamCommand.primary_color cmd;
    CreateLeagueTeam.secondary_color := CreateLeagueTeamCommand.secondary_color cmd;
    CreateLeagueTeam.owner_player_id := creator |} season_id creator.

Definition register_for_season (team_id : LeagueTeamId) (season_id : LeagueSeasonId) (registering : PlayerId)
    : M LeagueTeamSeason.t :=
  let* team := get_team team_id in
  let* season := season_by_id season_id in
  if negb (bool_decide (LeagueTeam.league_id team = LeagueSeason.league_id season))
  then not_authorized "team does not belong to this league"
  else if negb (bool_decide (LeagueTeam.owner_player_id team = registering))
  then not_authorized "only the team owner can register for new seasons"
  else if LeagueTeamStatus.is_terminal (LeagueTeam.status team)
  then invalid_state "team is disbanded and can no longer be modified"
  else if bool_decide (is_Some (LeagueTeam.archived_at team))
  then invalid_state "team is archived; restore it first"
  else
    let* _ := require_open season in
    let* _ := ensure_league_member (LeagueSeason.league_id season) registering in
    let* _ := ensure_roster_may_be_founded season in
    let* existing := LeagueTeamSeasonRepository.find_by_team_and_season team_id season_id in
    if bool_decide (is_Some existing) then conflict "team is already registered for this season"
    else
      let* _ := require_no_primary season_id registering in
      let* _ := require_slot season season_id in
      LeagueTeamSeasonRepository.create_with_captain team_id season_id registering.

(** A new name, or tag, that differs from the old one in more than its case. *)
Definition renamed (new : option string) (old : string) : option string :=
  match new with
  | Some n => if bool_decide (str_to_lowercase n = str_to_lowercase old) then None else Some n
  | None => None
  end.

Definition update_team_authorized (team_id : LeagueTeamId) (cmd : UpdateLeagueTeamCommand.t) : M LeagueTeam.t :=
  let* team := get_team team_id in
  if LeagueTeamStatus.is_terminal (LeagueTeam.status team)
  then invalid_state "team is disbanded and can no longer be modified"
  else
    let* _ := match renamed (UpdateLeagueTeamCommand.name cmd) (LeagueTeam.name team) with
      | Some name =>
          let* used := LeagueTeamRepository.name_exists (LeagueTeam.league_id team) name in
          if used then name_taken "name" name else mret tt
      | None => mret tt
      end in
    let* _ := match renamed (UpdateLeagueTeamCommand.tag cmd) (LeagueTeam.tag team) with
      | Some tag =>
          let* used := LeagueTeamRepository.tag_exists (LeagueTeam.league_id team) tag in
          if used then name_taken "tag" tag else mret tt
      | None => mret tt
      end in
    LeagueTeamRepository.update team_id {|
      UpdateLeagueTeam.name := UpdateLeagueTeamCommand.name cmd;
      UpdateLeagueTeam.tag := UpdateLeagueTeamCommand.tag cmd;
      UpdateLeagueTeam.description := UpdateLeagueTeamCommand.description cmd;
      UpdateLeagueTeam.logo_url := UpdateLeagueTeamCommand.logo_url cmd;
      UpdateLeagueTeam.banner_url := UpdateLeagueTeamCommand.banner_url cmd;
      UpdateLeagueTeam.primary_color := UpdateLeagueTeamCommand.primary_color cmd;
      UpdateLeagueTeam.secondary_color := UpdateLeagueTeamCommand.secondary_color cmd |}.

Definition archive_team (team_id : LeagueTeamId) (archived_by : UserId) : M LeagueTeam.t :=
  LeagueTeamRepository.set_archived team_id (Some archived_by).
Definition restore_team (team_id : LeagueTeamId) : M LeagueTeam.t := LeagueTeamRepository.set_archived team_id None.
Definition list_seasons_for_team (team_id : LeagueTeamId) : M (list LeagueTeamSeason.t) :=
  LeagueTeamSeasonRepository.list_by_team team_id.

(** The seat of a call that seats [player_id] in [role]. *)
Definition seat (team_season_id : LeagueTeamSeasonId) (player_id : PlayerId) (role : LeagueTeamRole.t)
    (added_by : option UserId) : AddLeagueTeamMember.t := {|
  AddLeagueTeamMember.team_season_id := team_season_id;
  AddLeagueTeamMember.player_id := player_id;
  AddLeagueTeamMember.role := role;
  AddLeagueTeamMember.position := None;
  AddLeagueTeamMember.jersey_number := None;
  AddLeagueTeamMember.added_by := added_by |}.

Definition add_member_authorized (team_season_id : LeagueTeamSeasonId) (player_id : PlayerId)
    (role : LeagueTeamRole.t) (added_by : UserId) (lock_override : option RosterLockOverride.t)
    : M LeagueTeamMember.t :=
  let* team_season := get_team_season team_season_id in
  let* season := season_by_id (LeagueTeamSeason.season_id team_season) in
  let* _ := enforce_roster_lock season team_season_id (RosterChange.Membership role) lock_override in
  let* team := get_team (LeagueTeamSeason.team_id team_season) in
  let* _ := ensure_roster_live team team_season season in
  let* _ := ensure_league_member (LeagueSeason.league_id season) player_id in
  let* member := is_member team_season_id player_id in
  if member then mthrow DomainError.AlreadyTeamMember
  else
    let* _ := when (LeagueTeamRole.is_primary role)
                (require_no_primary (LeagueTeamSeason.season_id team_season) player_id) in
    let* _ := require_room season team_season_id role in
    add_member (seat team_season_id player_id role (Some added_by)).

(** The last captain stays. *)
Definition require_other_captain (team_season_id : LeagueTeamSeasonId) (message : string) : M unit :=
  let* n := count_captains team_season_id in
  if bool_decide (n ≤ 1) then conflict message else mret tt.

Definition remove_member_authorized (team_season_id : LeagueTeamSeasonId) (player_id : PlayerId)
    (lock_override : option RosterLockOverride.t) : M unit :=
  let* team_season := get_team_season team_season_id in
  let* season := season_by_id (LeagueTeamSeason.season_id team_season) in
  let* member := require (find_member team_season_id player_id) DomainError.NotTeamMember in
  let* _ := enforce_roster_lock season team_season_id (RosterChange.Membership (LeagueTeamMember.role member))
              lock_override in
  let* _ := when (LeagueTeamMember.is_captain member) (require_other_captain team_season_id
              "cannot remove last captain; promote another member first") in
  remove_member team_season_id player_id.

Definition promote_to_captain (team_season_id : LeagueTeamSeasonId) (player_id : PlayerId)
    (lock_override : option RosterLockOverride.t) : M LeagueTeamMember.t :=
  let* member := require (find_member team_season_id player_id) DomainError.NotTeamMember in
  let* season := season_for_team_season team_season_id in
  let* _ := enforce_roster_lock season team_season_id RosterChange.Role lock_override in
  if LeagueTeamMember.is_captain member then conflict "member is already a captain"
  else if negb (LeagueTeamMember.is_active member)
  then invalid_state "cannot promote inactive member to captain"
  else update_role team_season_id player_id LeagueTeamRole.Captain.

Definition demote_from_captain (team_season_id : LeagueTeamSeasonId) (player_id : PlayerId)
    (lock_override : option RosterLockOverride.t) : M LeagueTeamMember.t :=
  let* member := require (find_member team_season_id player_id) DomainError.NotTeamMember in
  let* season := season_for_team_season team_season_id in
  let* _ := enforce_roster_lock season team_season_id RosterChange.Role lock_override in
  if negb (LeagueTeamMember.is_captain member) then conflict "member is not a captain"
  else
    let* _ := require_other_captain team_season_id "cannot demote last captain; promote another member first" in
    update_role team_season_id player_id LeagueTeamRole.Player.

Definition transfer_ownership (team_id : LeagueTeamId) (current_owner new_owner : PlayerId) : M LeagueTeam.t :=
  let* team := get_team team_id in
  if negb (bool_decide (LeagueTeam.owner_player_id team = current_owner))
  then not_authorized "only the team owner can transfer ownership"
  else LeagueTeamRepository.transfer_ownership team_id new_owner.

Definition leave_team (team_season_id : LeagueTeamSeasonId) (player_id : PlayerId) : M unit :=
  let* team_season := get_team_season team_season_id in
  let* member := require (find_member team_season_id player_id) DomainError.NotTeamMember in
  let* _ := when (LeagueTeamMember.is_captain member) (require_other_captain team_season_id
              "captain cannot leave; promote another member to captain first") in
  let* season := season_by_id (LeagueTeamSeason.season_id team_season) in
  let* _ := enforce_roster_lock season team_season_id (RosterChange.Membership (LeagueTeamMember.role member)) None in
  remove_member team_season_id player_id.

Definition withdraw_from_season (team_season_id : LeagueTeamSeasonId) : M LeagueTeamSeason.t :=
  let* team_season := get_team_season team_season_id in
  if LeagueTeamSeason.is_terminal team_season
  then invalid_state "team season is already in a terminal state"
  else LeagueTeamSeasonRepository.update_status team_season_id LeagueTeamSeasonStatus.Withdrawn.

Definition disband_team (team_id : LeagueTeamId) : M unit :=
  let* team := get_team team_id in
  if LeagueTeamStatus.is_terminal (LeagueTeam.status team)
  then invalid_state "team is already in a terminal state"
  else
    let* _ := LeagueTeamRepository.update_status team_id LeagueTeamStatus.Disbanded in mret tt.

(** [existing.id != team_id]. *)
Definition another (team_id : LeagueTeamId) (existing : option LeagueTeam.t) : bool :=
  from_option (λ t, negb (bool_decide (LeagueTeam.id t = team_id))) false existing.

Definition move_team_to_league (team_id : LeagueTeamId) (league_id : LeagueId) (season_id : LeagueSeasonId)
    : M MovedTeam.t :=
  let* team := get_team team_id in
  if bool_decide (LeagueTeam.league_id team = league_id) then invalid_state "team is already in that league" else
  let* season := season_by_id season_id in
  if negb (bool_decide (LeagueSeason.league_id season = league_id))
  then invalid_state "target season belongs to a different league" else
  let* registrations := LeagueTeamSeasonRepository.list_by_team team_id in
  if existsb (λ r, bool_decide (LeagueTeamSeason.matches_played r > 0)) registrations
  then invalid_state ("team has played matches in its current league; move refused rather than " +:+
                      "orphaning its results") else
  let* namesake := LeagueTeamRepository.find_by_name league_id (LeagueTeam.name team) in
  if another team_id namesake
  then conflict ("a team named '" +:+ LeagueTeam.name team +:+ "' already exists in the target league") else
  let* same_tag := LeagueTeamRepository.find_by_tag league_id (LeagueTeam.tag team) in
  if another team_id same_tag
  then conflict ("the tag '" +:+ LeagueTeam.tag team +:+ "' is already taken in the target league")
  else LeagueTeamRepository.move_to_league team_id league_id season_id.

Definition is_member (team_season_id : LeagueTeamSeasonId) (player_id : PlayerId) : M bool :=
  LeagueTeamMemberRepository.is_member team_season_id player_id.
Definition is_captain (team_season_id : LeagueTeamSeasonId) (player_id : PlayerId) : M bool :=
  captain_of team_season_id player_id.

Definition live_entry (team_season_id : LeagueTeamSeasonId) : M (LeagueTeam.t * LeagueTeamSeason.t * LeagueSeason.t) :=
  let* team_season := get_team_season team_season_id in
  let* season := season_for_team_season team_season_id in
  let* team := get_team (LeagueTeamSeason.team_id team_season) in
  let* _ := ensure_roster_live team team_season season in
  mret (team, team_season, season).

Definition is_owner (team_id : LeagueTeamId) (player_id : PlayerId) : M bool :=
  let* team := get_team team_id in mret (LeagueTeam.is_owner team player_id).
End service.
End LeagueTeamService.

(** ** Invitations and join requests *)

Module LeagueTeamInvitationService.
Section service.
Context `{Platform}.
Import LeagueTeamMemberRepository.

Definition team_season_by_id (id : LeagueTeamSeasonId) : M LeagueTeamSeason.t :=
  require (LeagueTeamSeasonRepository.find_by_id id)
    (DomainError.LookupFailed "league team season" (uuid_string id)).

Definition roster_live (team_season : LeagueTeamSeason.t) (season : LeagueSeason.t) : M unit :=
  let team_id := LeagueTeamSeason.team_id team_season in
  let* team := require (LeagueTeamRepository.find_by_id team_id) (DomainError.LeagueTeamNotFound team_id) in
  ensure_roster_live team team_season season.

(** Neither on the roster, nor on another one that season, nor waiting. *)
Definition require_newcomer (team_season : LeagueTeamSeason.t) (team_season_id : LeagueTeamSeasonId)
    (player_id : PlayerId) (role : LeagueTeamRole.t) : M unit :=
  let* member := is_member team_season_id player_id in
  if member then mthrow DomainError.AlreadyTeamMember
  else
    let* _ := when (LeagueTeamRole.is_primary role)
                (require_no_primary (LeagueTeamSeason.season_id team_season) player_id) in
    let* pending := LeagueTeamInvitationRepository.find_existing_pending team_season_id player_id in
    if bool_decide (is_Some pending) then mthrow DomainError.InvitationAlreadyExists else mret tt.

Definition create_invitation (team_season_id : LeagueTeamSeasonId) (player_id : PlayerId)
    (role : LeagueTeamRole.t) (message : option string) (invited_by : UserId) : M LeagueTeamInvitation.t :=
  let* team_season := team_season_by_id team_season_id in
  let* season := season_by_id (LeagueTeamSeason.season_id team_season) in
  let* _ := roster_live team_season season in
  let* _ := enforce_roster_lock season team_season_id (RosterChange.Membership role) None in
  let* _ := require_newcomer team_season team_season_id player_id role in
  LeagueTeamInvitationRepository.create {|
    CreateLeagueTeamInvitation.team_season_id := team_season_id;
    CreateLeagueTeamInvitation.player_id := player_id;
    CreateLeagueTeamInvitation.invitation_type := LeagueTeamInvitationType.Invite;
    CreateLeagueTeamInvitation.role := role;
    CreateLeagueTeamInvitation.message := message;
    CreateLeagueTeamInvitation.invited_by := Some invited_by |}.

Definition create_join_request (team_season_id : LeagueTeamSeasonId) (player_id : PlayerId)
    (role : LeagueTeamRole.t) (message : option string) : M LeagueTeamInvitation.t :=
  let* team_season := team_season_by_id team_season_id in
  let* season := season_by_id (LeagueTeamSeason.season_id team_season) in
  let* _ := roster_live team_season season in
  let* _ := enforce_roster_lock season team_season_id (RosterChange.Membership role) None in
  let* _ := ensure_league_member (LeagueSeason.league_id season) player_id in
  let* _ := require_newcomer team_season team_season_id player_id role in
  LeagueTeamInvitationRepository.create {|
    CreateLeagueTeamInvitation.team_season_id := team_season_id;
    CreateLeagueTeamInvitation.player_id := player_id;
    CreateLeagueTeamInvitation.invitation_type := LeagueTeamInvitationType.Request;
    CreateLeagueTeamInvitation.role := role;
    CreateLeagueTeamInvitation.message := message;
    CreateLeagueTeamInvitation.invited_by := None |}.

Definition get_invitation (id : LeagueTeamInvitationId) : M LeagueTeamInvitation.t :=
  require (LeagueTeamInvitationRepository.find_by_id id) (DomainError.LeagueTeamInvitationNotFound id).

(** An invite is answered by whom it invites, a request by a captain. *)
Definition require_party (invitation : LeagueTeamInvitation.t) (player_id : PlayerId) (verb : string) : M unit :=
  match LeagueTeamInvitation.invitation_type invitation with
  | LeagueTeamInvitationType.Invite =>
      if bool_decide (LeagueTeamInvitation.player_id invitation = player_id) then mret tt
      else not_authorized ("only the invited player can " +:+ verb +:+ " this invitation")
  | LeagueTeamInvitationType.Request =>
      let* captain := captain_of (LeagueTeamInvitation.team_season_id invitation) player_id in
      if captain then mret tt else not_authorized ("only a team captain can " +:+ verb +:+ " join requests")
  end.

Definition accept_invitation (id : LeagueTeamInvitationId) (accepted_by : PlayerId) : M LeagueTeamMember.t :=
  let* invitation := get_invitation id in
  let* now := mread Db.now in
  if negb (LeagueTeamInvitation.is_actionable now invitation) then
    mthrow (if LeagueTeamInvitation.is_expired now invitation then DomainError.InvitationExpired
            else DomainError.InvitationInvalid)
  else
    let team_season_id := LeagueTeamInvitation.team_season_id invitation in
    let player_id := LeagueTeamInvitation.player_id invitation in
    let role := LeagueTeamInvitation.role invitation in
    let* team_season := team_season_by_id team_season_id in
    let* _ := require_party invitation accepted_by "accept" in
    let* season := season_by_id (LeagueTeamSeason.season_id team_season) in
    let* _ := roster_live team_season season in
    let* _ := ensure_league_member (LeagueSeason.league_id season) player_id in
    let* _ := enforce_roster_lock season team_season_id (RosterChange.Membership role) None in
    let* _ := when (LeagueTeamRole.is_primary role)
                (require_no_primary (LeagueTeamSeason.season_id team_season) player_id) in
    let* _ := require_room season team_season_id role in
    LeagueTeamInvitationRepository.accept_and_add_member id
      (LeagueTeamService.seat team_season_id player_id role (LeagueTeamInvitation.invited_by invitation)).

Definition decline_invitation (id : LeagueTeamInvitationId) (declined_by : PlayerId) (response : option string)
    : M LeagueTeamInvitation.t :=
  let* invitation := get_invitation id in
  let* now := mread Db.now in
  if negb (LeagueTeamInvitation.is_actionable now invitation) then mthrow DomainError.InvitationInvalid
  else
    let* _ := require_party invitation declined_by "decline" in
    LeagueTeamInvitationRepository.update_status id LeagueTeamInvitationStatus.Declined response.

(** An invite is taken back by a captain, a request by whoever made it. *)
Definition may_cancel (invitation : LeagueTeamInvitation.t) (player_id : PlayerId) : M bool :=
  match LeagueTeamInvitation.invitation_type invitation with
  | LeagueTeamInvitationType.Invite => captain_of (LeagueTeamInvitation.team_season_id invitation) player_id
  | LeagueTeamInvitationType.Request => mret (bool_decide (LeagueTeamInvitation.player_id invitation = player_id))
  end.

Definition cancel_invitation (id : LeagueTeamInvitationId) (cancelled_by : PlayerId) : M LeagueTeamInvitation.t :=
  let* invitation := get_invitation id in
  if negb (LeagueTeamInvitation.is_pending invitation) then mthrow DomainError.InvitationInvalid
  else
    let* may := may_cancel invitation cancelled_by in
    if negb may then
      not_authorized (match LeagueTeamInvitation.invitation_type invitation with
        | LeagueTeamInvitationType.Invite => "only a team captain can cancel an invitation"
        | LeagueTeamInvitationType.Request => "only the applicant can withdraw their join request"
        end)
    else LeagueTeamInvitationRepository.update_status id LeagueTeamInvitationStatus.Cancelled None.

Definition get_team_invitations (team_season_id : LeagueTeamSeasonId) : M (list LeagueTeamInvitation.t) :=
  LeagueTeamInvitationRepository.find_pending_by_team_season team_season_id.
Definition count_player_invitations (player_id : PlayerId) : M Z :=
  LeagueTeamInvitationRepository.count_pending_for_player player_id.
End service.
End LeagueTeamInvitationService.

(** ** Single players *)

Module LeagueSeasonParticipantService.
Section service.
Context `{Platform}.

Definition register (season_id : LeagueSeasonId) (player_id : PlayerId) : M LeagueSeasonParticipant.t :=
  let* season := season_by_id season_id in
  let* now := mread Db.now in
  if negb (LeagueSeason.is_registration_open now season) then mthrow DomainError.LeagueSeasonNotOpen
  else
    let* registered := LeagueSeasonParticipantRepository.is_registered season_id player_id in
    if registered then conflict "player is already registered for this season"
    else LeagueSeasonParticipantRepository.register (RegisterLeagueSeasonParticipant.mk season_id player_id).

Definition withdraw (participant_id : Uuid) (player_id : PlayerId) : M unit :=
  let* participant := require (LeagueSeasonParticipantRepository.find_by_id participant_id)
    (DomainError.LookupFailed "participant" (uuid_string participant_id)) in
  if negb (bool_decide (LeagueSeasonParticipant.player_id participant = player_id))
  then not_authorized "only the participant can withdraw"
  else if bool_decide (LeagueSeasonParticipant.status participant = LeagueSeasonParticipantStatus.Withdrawn)
  then invalid_state "already withdrawn from this season"
  else let* _ := LeagueSeasonParticipantRepository.withdraw participant_id in mret tt.

Definition is_registered (season_id : LeagueSeasonId) (player_id : PlayerId) : M bool :=
  LeagueSeasonParticipantRepository.is_registered season_id player_id.
End service.
End LeagueSeasonParticipantService.
