(* ===== verification/RosterProps.v ===== *)
(** Rosters: whatever the services do, the tables of leagues stay in order; a
    locked roster changes only for an audited override; an accepted invitation
    seats once; archiving and restoring a team undo each other; and captains stay. *)
From Stdlib Require Import Ascii.
From stdpp Require Import base list strings gmap relations.
From S2P Require Import Prelude Errors Wire TournamentTypes CoreEnums DomainEnums FormatPlan Entities BracketModel Rows.
From S2P Require Import ResultModel TournamentModel LeagueModel PugModel Store ClaimStore TournamentStore StoreFacts.
From S2P Require Import RegistrationFacts Samples LeagueStore LeagueTeams.
#[local] Open Scope Z_scope.

Create HintDb rosters.
#[local] Hint Unfold require season_by_id invalid_state conflict not_authorized when
  ensure_roster_may_be_founded enforce_roster_lock ensure_league_member ensure_season_live ensure_roster_live
  require_no_primary require_room is_member_by_player
  LeagueSeasonRepository.find_by_id LeagueSeasonRepository.slug_exists LeagueSeasonRepository.is_archived
  LeagueSeasonRepository.count_teams LeagueSeasonRepository.update_roster_lock LeagueSeasonRepository.update_status
  LeagueTeamMemberRepository.find_member LeagueTeamMemberRepository.count_where
  LeagueTeamMemberRepository.count_captains LeagueTeamMemberRepository.count_primary_members
  LeagueTeamMemberRepository.count_substitutes LeagueTeamMemberRepository.is_member
  LeagueTeamMemberRepository.captain_of LeagueTeamMemberRepository.find_primary_team_in_season
  LeagueTeamMemberRepository.add_member
  LeagueTeamSeasonRepository.find_by_id LeagueTeamSeasonRepository.find_by_team_and_season
  LeagueTeamSeasonRepository.create_with_captain LeagueTeamSeasonRepository.list_by_team
  LeagueTeamSeasonRepository.update_status
  RosterRelease.live_team_season_ids
  LeagueTeamRepository.find_by_id LeagueTeamRepository.find_by_name LeagueTeamRepository.find_by_tag
  LeagueTeamRepository.name_exists LeagueTeamRepository.tag_exists LeagueTeamRepository.update
  LeagueTeamRepository.create_team_with_season_and_captain LeagueTeamRepository.update_status
  LeagueTeamRepository.transfer_ownership
  LeagueTeamInvitationRepository.find_by_id LeagueTeamInvitationRepository.find_existing_pending
  LeagueSeasonParticipantRepository.find_by_id LeagueSeasonParticipantRepository.is_registered
  LeagueSeasonParticipantRepository.withdraw
  LeagueSeasonService.create_season LeagueSeasonService.update_season LeagueSeasonService.archive_season
  LeagueSeasonService.restore_season LeagueSeasonService.update_roster_lock LeagueSeasonService.update_status
  LeagueSeasonService.get_season LeagueSeasonService.slug_taken LeagueSeasonService.ensure_lock_change_allowed
  LeagueSeasonService.ensure_status_transition_allowed
  LeagueTeamService.get_team LeagueTeamService.get_team_season LeagueTeamService.season_for_team_season
  LeagueTeamService.require_slot LeagueTeamService.require_open LeagueTeamService.name_taken
  LeagueTeamService.require_other_captain LeagueTeamService.create_team LeagueTeamService.register_for_season
  LeagueTeamService.update_team_authorized LeagueTeamService.clear_image LeagueTeamService.archive_team
  LeagueTeamService.restore_team LeagueTeamService.transfer_ownership LeagueTeamService.withdraw_from_season
  LeagueTeamService.disband_team LeagueTeamService.move_team_to_league LeagueTeamService.add_member_authorized
  LeagueTeamService.remove_member_authorized LeagueTeamService.promote_to_captain
  LeagueTeamService.demote_from_captain LeagueTeamService.leave_team
  LeagueTeamInvitationService.team_season_by_id LeagueTeamInvitationService.roster_live
  LeagueTeamInvitationService.require_newcomer LeagueTeamInvitationService.get_invitation
  LeagueTeamInvitationService.require_party LeagueTeamInvitationService.may_cancel
  LeagueTeamInvitationService.create_invitation LeagueTeamInvitationService.create_join_request
  LeagueTeamInvitationService.accept_invitation LeagueTeamInvitationService.decline_invitation
  LeagueTeamInvitationService.cancel_invitation
  LeagueSeasonParticipantService.register LeagueSeasonParticipantService.withdraw : rosters.

(** Follow a program through its cases and transactions. *)
Ltac league := repeat first [frame_step | apply preserves_transaction; [apply _|] | progress cbn zeta].

(** ** Keys under updates *)

Section keys.
Context `{Platform}.
Import LeagueTeamMember LeagueTeamMemberRepository.

(** The key of a seat the index covers. *)
Definition primary_key (m : t) : option (PlayerId * LeagueSeasonId) :=
  if holds_primary m then Some (player_id m, season_id m) else None.

Lemma primary_keys_omap rows : primary_keys rows = omap primary_key rows.
Proof.
  unfold primary_keys. induction rows as [|m rows IH]; [done|]. rewrite filter_cons. cbn.
  unfold primary_key at 1. destruct (holds_primary m); [|done]. rewrite decide_True by done.
  by rewrite fmap_cons, IH.
Qed.

Lemma seat_keys_fmap (f : t → t) rows :
  (∀ m, m ∈ rows → team_season_id (f m) = team_season_id m ∧ player_id (f m) = player_id m) →
  seat_keys (f <$> rows) = seat_keys rows.
Proof.
  intros Hf. unfold seat_keys. rewrite <- list_fmap_compose. apply list_fmap_ext.
  intros i m Hm%list_elem_of_lookup_2. cbn. by destruct (Hf m Hm) as [-> ->].
Qed.

Lemma fmap_sublist {A B} (f : A → B) l l' : l `sublist_of` l' → f <$> l `sublist_of` f <$> l'.
Proof. induction 1; csimpl; by constructor. Qed.
Lemma omap_sublist {A B} (f : A → option B) l l' : l `sublist_of` l' → omap f l `sublist_of` omap f l'.
Proof. induction 1 as [|x l l' _ IH|x l l' _ IH]; cbn; [constructor|..]; destruct (f x); by try constructor. Qed.

(** Seats leave the index: what is left has no key twice. *)
Lemma primary_keys_shrink (f : t → t) rows :
  (∀ m, primary_key (f m) = primary_key m ∨ primary_key (f m) = None) →
  NoDup (primary_keys rows) → NoDup (primary_keys (f <$> rows)).
Proof.
  intros Hf Hnd. rewrite primary_keys_omap in *. eapply sublist_NoDup; [exact Hnd|].
  clear Hnd. induction rows as [|m rows IH]; [done|]. cbn.
  destruct (Hf m) as [-> | ->]; destruct (primary_key m); by try constructor.
Qed.

Lemma seat_keys_filter (P : t → Prop) `{!∀ m, Decision (P m)} rows :
  NoDup (seat_keys rows) → NoDup (seat_keys (filter P rows)).
Proof. intros Hnd. eapply sublist_NoDup; [exact Hnd|]. apply fmap_sublist, sublist_filter. Qed.
Lemma primary_keys_filter (P : t → Prop) `{!∀ m, Decision (P m)} rows :
  NoDup (primary_keys rows) → NoDup (primary_keys (filter P rows)).
Proof.
  rewrite !primary_keys_omap. intros Hnd. eapply sublist_NoDup; [exact Hnd|]. apply omap_sublist, sublist_filter.
Qed.

(** One seat per roster and player. *)
Lemma seat_unique rows m m' :
  NoDup (seat_keys rows) → m ∈ rows → m' ∈ rows →
  team_season_id m = team_season_id m' → player_id m = player_id m' → m = m'.
Proof.
  intros Hnd [i Hi]%list_elem_of_lookup [j Hj]%list_elem_of_lookup Hts Hp.
  assert (i = j) as ->; [|congruence].
  apply (NoDup_lookup (seat_keys rows) i j (team_season_id m, player_id m)); [done|..];
    unfold seat_keys; rewrite list_lookup_fmap; [by rewrite Hi|rewrite Hj; cbn; by rewrite Hts, Hp].
Qed.
End keys.

(** ** The tables of leagues in order *)

Section order.
Context `{Platform} `{TextRules}.
Import LeagueTeamMemberRepository.

(** A seat is open while it is active, and names the season of its roster. *)
Definition seat_in_order (db : Db.t) (m : LeagueTeamMember.t) : Prop :=
  (LeagueTeamMember.status m = LeagueTeamMemberStatus.Active ↔ LeagueTeamMember.left_at m = None) ∧
  ∃ r, Db.league_team_seasons db !! LeagueTeamMember.team_season_id m = Some r ∧
       LeagueTeamSeason.season_id r = LeagueTeamMember.season_id m.

Record leagues_in_order (db : Db.t) : Prop := {
  lo_season id s : Db.league_seasons db !! id = Some s → LeagueSeason.id s = id ∧ (id < Db.next_uuid db)%N;
  lo_team id t : Db.league_teams db !! id = Some t → LeagueTeam.id t = id ∧ (id < Db.next_uuid db)%N;
  lo_entry id r : Db.league_team_seasons db !! id = Some r →
    LeagueTeamSeason.id r = id ∧ (id < Db.next_uuid db)%N ∧
    is_Some (Db.league_teams db !! LeagueTeamSeason.team_id r) ∧
    is_Some (Db.league_seasons db !! LeagueTeamSeason.season_id r);
  lo_once i j r r' : Db.league_team_seasons db !! i = Some r → Db.league_team_seasons db !! j = Some r' →
    LeagueTeamSeason.team_id r = LeagueTeamSeason.team_id r' →
    LeagueTeamSeason.season_id r = LeagueTeamSeason.season_id r' → i = j;
  lo_slug i j s s' : Db.league_seasons db !! i = Some s → Db.league_seasons db !! j = Some s' →
    LeagueSeason.league_id s = LeagueSeason.league_id s' → LeagueSeason.slug s = LeagueSeason.slug s' → i = j;
  lo_name i j t t' : Db.league_teams db !! i = Some t → Db.league_teams db !! j = Some t' →
    LeagueTeam.league_id t = LeagueTeam.league_id t' →
    sql_lower (LeagueTeam.name t) = sql_lower (LeagueTeam.name t') ∨
    sql_lower (LeagueTeam.tag t) = sql_lower (LeagueTeam.tag t') → i = j;
  lo_seats : NoDup (seat_keys (Db.league_team_members db));
  lo_primary : NoDup (primary_keys (Db.league_team_members db));
  lo_seat m : m ∈ Db.league_team_members db → seat_in_order db m;
  lo_invitation id i : Db.league_team_invitations db !! id = Some i →
    is_Some (Db.league_team_seasons db !! LeagueTeamInvitation.team_season_id i);
}.

Definition leagues_sound (db db' : Db.t) : Prop := leagues_in_order db → leagues_in_order db'.
#[global] Instance leagues_sound_preorder : PreOrder leagues_sound.
Proof. split; [by intros db Ho|]. intros a b c Hab Hbc Ha. by apply Hbc, Hab. Qed.

(** The statements on other tables. *)
Record leagues_same (db db' : Db.t) : Prop := {
  ls_next : (Db.next_uuid db ≤ Db.next_uuid db')%N;
  ls_seasons : Db.league_seasons db' = Db.league_seasons db;
  ls_teams : Db.league_teams db' = Db.league_teams db;
  ls_entries : Db.league_team_seasons db' = Db.league_team_seasons db;
  ls_members : Db.league_team_members db' = Db.league_team_members db;
  ls_invitations : Db.league_team_invitations db' = Db.league_team_invitations db;
}.

Lemma leagues_same_sound db db' : leagues_same db db' → leagues_sound db db'.
Proof.
  intros [Hn Hs Ht Hr Hm Hi] [H1 H2 H3 H4 H5 H6 H7 H8 H9 H10].
  split; rewrite ?Hs, ?Ht, ?Hr, ?Hm, ?Hi; try assumption.
  - intros id s Hid. destruct (H1 id s Hid). split; [done|lia].
  - intros id t Hid. destruct (H2 id t Hid). split; [done|lia].
  - intros id r Hid. destruct (H3 id r Hid) as (? & ? & ? & ?). split; [done|]. split; [lia|done].
  - intros m Hin. unfold seat_in_order. rewrite Hr. by apply H9.
Qed.

(** *** Seats *)

(** The table of seats changes, and keeps its keys unique. *)
Lemma seat_table_sound rows db :
  (leagues_in_order db → NoDup (seat_keys rows) ∧ NoDup (primary_keys rows) ∧
     ∀ m, m ∈ rows → seat_in_order db m) →
  leagues_sound db (db <| Db.league_team_members := rows |>).
Proof.
  intros Hrows Ho. destruct (Hrows Ho) as (H7 & H8 & H9). destruct Ho. by split.
Qed.

Lemma refused_none db rows m : refused db rows m = None → NoDup (seat_keys rows) ∧ NoDup (primary_keys rows).
Proof.
  unfold refused. destruct (from_option _ _ _); [done|].
  destruct (bool_decide (NoDup (seat_keys rows))) eqn:E1; [|done].
  destruct (bool_decide (NoDup (primary_keys rows))) eqn:E2; [|done].
  by apply bool_decide_eq_true in E1, E2.
Qed.

Lemma season_of_inv ts db r db' :
  season_of ts db = (r, db') → db' = db ∧
  match r with
  | Ok s => ∃ e, Db.league_team_seasons db !! ts = Some e ∧ LeagueTeamSeason.season_id e = s
  | Err _ => True
  end.
Proof.
  unfold season_of. destruct (_ !! _) as [e|] eqn:E; [intros [= <- <-]; by eauto|].
  unfold violates, mthrow. by intros [= <- <-].
Qed.

Lemma fresh_uuid_same db : leagues_same db (db <| Db.next_uuid := N.succ (Db.next_uuid db) |>).
Proof. split; try done. cbn. lia. Qed.

(** A seat is added, or one replaced, that the constraints accept. *)
Lemma seat_added_sound db m :
  refused db (Db.league_team_members db ++ [m]) m = None → seat_in_order db m →
  leagues_sound db (db <| Db.next_uuid := N.succ (Db.next_uuid db) |>
                       <| Db.league_team_members := Db.league_team_members db ++ [m] |>).
Proof.
  intros [Hk Hp]%refused_none Hm. etransitivity; [apply leagues_same_sound, fresh_uuid_same|].
  apply seat_table_sound. intros Ho. split; [done|]. split; [done|].
  intros m' [Hin| ->%list_elem_of_singleton]%elem_of_app; [|exact Hm]. by apply (lo_seat _ Ho).
Qed.

Lemma seat_replaced_sound db i m m' :
  Db.league_team_members db !! i = Some m →
  refused db (<[i := m']> (Db.league_team_members db)) m' = None →
  (seat_in_order db m → seat_in_order db m') →
  leagues_sound db (db <| Db.league_team_members := <[i := m']> (Db.league_team_members db) |>).
Proof.
  intros Hi [Hk Hp]%refused_none Hm. apply seat_table_sound. intros Ho. split; [done|]. split; [done|].
  intros x [j Hj]%list_elem_of_lookup. destruct (decide (i = j)) as [<-|Hne].
  - rewrite list_lookup_insert_eq in Hj by (by eapply lookup_lt_Some). injection Hj as <-.
    apply Hm, (lo_seat _ Ho). by eapply list_elem_of_lookup_2.
  - rewrite list_lookup_insert_ne in Hj by done. apply (lo_seat _ Ho). by eapply list_elem_of_lookup_2.
Qed.

Lemma insert_seat_sound cmd : preserves leagues_sound (insert_seat cmd).
Proof.
  intros db. unfold insert_seat, mbind. destruct (season_of _ db) as [[s|e] db1] eqn:Hs;
    apply season_of_inv in Hs as [-> Hs]; [|reflexivity]. cbn zeta.
  destruct (refused _ _ _) eqn:Hr; [reflexivity|]. apply seat_added_sound; [exact Hr|]. by split.
Qed.

Lemma seat_member_sound cmd : preserves leagues_sound (seat_member cmd).
Proof.
  intros db. unfold seat_member, mbind. destruct (season_of _ db) as [[s|e] db1] eqn:Hs;
    apply season_of_inv in Hs as [-> Hs]; [|reflexivity].
  destruct (list_find _ _) as [[i old]|] eqn:Hf; cbn zeta.
  - destruct (is_open old); [reflexivity|]. destruct (refused _ _ _) eqn:Hr; [reflexivity|].
    apply list_find_Some in Hf as (Hi & _ & _). eapply seat_replaced_sound; [exact Hi|exact Hr|].
    intros [_ Hm]. by split.
  - destruct (refused _ _ _) eqn:Hr; [reflexivity|]. apply seat_added_sound; [exact Hr|]. by split.
Qed.

Lemma update_role_sound ts player new : preserves leagues_sound (update_role ts player new).
Proof.
  intros db. unfold update_role, update_seat. destruct (list_find _ _) as [[i old]|] eqn:Hf; [|reflexivity].
  cbn zeta. destruct (refused _ _ _) eqn:Hr; [reflexivity|]. apply list_find_Some in Hf as (Hi & _ & _).
  by eapply seat_replaced_sound.
Qed.

(** Seats close; nobody else is seated. *)
Lemma seats_mapped_sound (f : LeagueTeamMember.t → LeagueTeamMember.t) db :
  (∀ m, LeagueTeamMember.team_season_id (f m) = LeagueTeamMember.team_season_id m ∧
        LeagueTeamMember.player_id (f m) = LeagueTeamMember.player_id m) →
  (leagues_in_order db → NoDup (primary_keys (f <$> Db.league_team_members db))) →
  (∀ m, seat_in_order db m → seat_in_order db (f m)) →
  leagues_sound db (db <| Db.league_team_members := f <$> Db.league_team_members db |>).
Proof.
  intros Hkey Hprim Hseat. apply seat_table_sound. intros Ho. split; [|split; [by apply Hprim|]].
  - rewrite seat_keys_fmap by (intros m _; apply Hkey). by apply lo_seats.
  - intros m' (m & -> & Hm)%list_elem_of_fmap. by apply Hseat, lo_seat.
Qed.

Lemma close_where_sound P new at_ :
  new ≠ LeagueTeamMemberStatus.Active → preserves leagues_sound (close_where P new at_).
Proof.
  intros Hnew db. apply seats_mapped_sound.
  - intros m. by destruct (P m && is_open m).
  - intros Ho. apply primary_keys_shrink; [|by apply lo_primary]. intros m. destruct (P m && is_open m); [right|by left].
    unfold primary_key, holds_primary. cbn. destruct new; [done|by rewrite andb_false_r..].
  - intros m Hm. destruct (P m && is_open m); [|exact Hm]. destruct Hm as [_ Hm]. split; [|exact Hm]. by split.
Qed.
Lemma remove_member_sound ts player : preserves leagues_sound (remove_member ts player).
Proof. intros db. by apply close_where_sound. Qed.
Lemma release_seats_sound ids new at_ :
  new ≠ LeagueTeamMemberStatus.Active → preserves leagues_sound (RosterRelease.release_seats ids new at_).
Proof. apply close_where_sound. Qed.

Lemma restore_seats_sound live at_ : preserves leagues_sound (LeagueTeamRepository.restore_seats live at_).
Proof.
  intros db. unfold LeagueTeamRepository.restore_seats. case_bool_decide as Hnd; [|reflexivity].
  apply seats_mapped_sound; [|done|].
  - intros m. by destruct (LeagueTeamRepository.comes_back _ _ _ _).
  - intros m Hm. destruct (LeagueTeamRepository.comes_back _ _ _ _); [|done]. destruct Hm as [_ Hm]. by split.
Qed.

(** *** Rows with keys *)

Lemma update_where_sound {A} (table : Db.t → gmap N A) put violated missing id set :
  (∀ db row, table db !! id = Some row → violated db (set (Db.now db) row) = None →
     leagues_sound db (put (<[id := set (Db.now db) row]> (table db)) db)) →
  preserves leagues_sound (update_where_id table put violated missing id set).
Proof.
  intros Hput db. unfold update_where_id. destruct (table db !! id) as [row|] eqn:E; [|reflexivity]. cbn zeta.
  destruct (violated _ _) eqn:Hv; [reflexivity|]. by apply Hput.
Qed.

Lemma insert_row_sound {A} (table : Db.t → gmap N A) put violated row :
  (∀ db, violated db (row (Db.next_uuid db) (Db.now db)) = None →
     leagues_sound db (put (<[Db.next_uuid db := row (Db.next_uuid db) (Db.now db)]> (table db))
       (db <| Db.next_uuid := N.succ (Db.next_uuid db) |>))) →
  preserves leagues_sound (insert_row table put violated row).
Proof.
  intros Hput db. unfold insert_row. cbn zeta. destruct (violated _ _) eqn:Hv; [reflexivity|]. by apply Hput.
Qed.

(** What a unique index says of the rows there. *)
Lemma no_others {A} (key : A → N) (P : A → bool) (table : gmap N A) k j x :
  existsb (λ x, bool_decide (key x ≠ k)) (rows_where P table) = false →
  table !! j = Some x → P x = true → key x = k.
Proof.
  intros Hno Hj HP. destruct (decide (key x = k)) as [|Hne]; [done|]. exfalso.
  assert (existsb (λ x, bool_decide (key x ≠ k)) (rows_where P table) = true); [|congruence].
  apply existsb_exists. exists x. split; [|by apply bool_decide_eq_true].
  apply list_elem_of_In, elem_of_rows_where. eauto.
Qed.

(** A relation that holds of two rows only if they are one. *)
Lemma unique_insert {A} (same : A → A → Prop) (table : gmap N A) k x :
  (∀ a b, same a b → same b a) →
  (∀ i j a b, table !! i = Some a → table !! j = Some b → same a b → i = j) →
  (∀ j b, table !! j = Some b → same x b → j = k) →
  ∀ i j a b, <[k := x]> table !! i = Some a → <[k := x]> table !! j = Some b → same a b → i = j.
Proof.
  intros Hsym Hold Hnew i j a b [[<- <-]|[Hi Ha]]%lookup_insert_Some [[<- <-]|[Hj Hb]]%lookup_insert_Some Hs;
    [done|symmetry; by eapply Hnew|eapply Hnew; [done|by apply Hsym]|by eapply Hold].
Qed.

Lemma insert_is_Some {A} (table : gmap N A) k x i : is_Some (table !! i) → is_Some (<[k := x]> table !! i).
Proof. intros Hi. rewrite lookup_insert_is_Some'. by right. Qed.

Definition same_slug (s s' : LeagueSeason.t) : Prop :=
  LeagueSeason.league_id s = LeagueSeason.league_id s' ∧ LeagueSeason.slug s = LeagueSeason.slug s'.

Lemma season_written_sound db rows id s :
  rows = Db.league_seasons db → LeagueSeason.id s = id → LeagueSeasonRepository.violated db s = None → (id < Db.next_uuid db)%N →
  leagues_sound db (LeagueSeasonRepository.put (<[id := s]> rows) db).
Proof.
  intros -> <-. unfold LeagueSeasonRepository.violated. cbn zeta. destruct (negb _); [done|]. destruct (negb _); [done|].
  destruct (existsb _ _) eqn:Hno; [done|]. intros _ Hid Ho. destruct Ho as [H1 H2 H3 H4 H5 H6 H7 H8 H9 H10].
  split; cbn; try assumption.
  - intros id s' [[<- <-]|[_ Hs]]%lookup_insert_Some; [done|by apply H1].
  - intros id r Hr. destruct (H3 id r Hr) as (? & ? & ? & ?). eauto using insert_is_Some.
  - intros i j a b Ha Hb Hl Hs.
    eapply (unique_insert same_slug (Db.league_seasons db)); [|..|exact Ha|exact Hb|by split].
    + intros ? ? []. by split.
    + intros ? ? ? ? ? ? []. by eapply H5.
    + intros k b' Hb' [Hl' Hs']. rewrite <- (proj1 (H1 _ _ Hb')). eapply no_others; [exact Hno|exact Hb'|].
      by apply bool_decide_eq_true_2.
Qed.

Definition namesakes (t t' : LeagueTeam.t) : Prop :=
  LeagueTeam.league_id t = LeagueTeam.league_id t' ∧
  (sql_lower (LeagueTeam.name t) = sql_lower (LeagueTeam.name t') ∨
   sql_lower (LeagueTeam.tag t) = sql_lower (LeagueTeam.tag t')).

Lemma team_written_sound db rows id t :
  rows = Db.league_teams db → LeagueTeam.id t = id → LeagueTeamRepository.violated db t = None → (id < Db.next_uuid db)%N →
  leagues_sound db (LeagueTeamRepository.put (<[id := t]> rows) db).
Proof.
  intros -> <-. unfold LeagueTeamRepository.violated. destruct (negb _); [done|]. destruct (negb _); [done|].
  destruct (LeagueTeamRepository.others _ _) eqn:Hname; [done|].
  destruct (LeagueTeamRepository.others _ (LeagueTeamRepository.tagged _ _ _)) eqn:Htag; [done|].
  intros _ Hid Ho. destruct Ho as [H1 H2 H3 H4 H5 H6 H7 H8 H9 H10]. split; cbn; try assumption.
  - intros id t' [[<- <-]|[_ Ht]]%lookup_insert_Some; [done|by apply H2].
  - intros id r Hr. destruct (H3 id r Hr) as (? & ? & ? & ?). eauto using insert_is_Some.
  - intros i j a b Ha Hb Hl Hs.
    eapply (unique_insert namesakes (Db.league_teams db)); [|..|exact Ha|exact Hb|by split].
    + intros ? ? [? []]; split; auto.
    + intros ? ? ? ? ? ? []. by eapply H6.
    + intros k b' Hb' [Hl' [Hs'|Hs']]; rewrite <- (proj1 (H2 _ _ Hb')).
      * eapply no_others; [exact Hname|exact Hb'|by apply bool_decide_eq_true_2].
      * eapply no_others; [exact Htag|exact Hb'|by apply bool_decide_eq_true_2].
Qed.

(** The registrations for a season change, under the same keys. *)
Lemma entry_written_sound db rows id r :
  rows = Db.league_team_seasons db → LeagueTeamSeason.id r = id → LeagueTeamSeasonRepository.violated db r = None → (id < Db.next_uuid db)%N →
  (∀ old, Db.league_team_seasons db !! id = Some old →
     LeagueTeamSeason.season_id r = LeagueTeamSeason.season_id old) →
  leagues_sound db (LeagueTeamSeasonRepository.put (<[id := r]> rows) db).
Proof.
  intros -> <-. unfold LeagueTeamSeasonRepository.violated. destruct (existsb _ _) eqn:Hno; [done|].
  destruct (refers (Db.league_teams db) _) eqn:Ht; [|done]. destruct (refers (Db.league_seasons db) _) eqn:Hs; [|done].
  apply bool_decide_eq_true in Ht, Hs. intros _ Hid Hsame Ho. destruct Ho as [H1 H2 H3 H4 H5 H6 H7 H8 H9 H10].
  split; cbn; try assumption.
  - intros id r' [[<- <-]|[_ Hr]]%lookup_insert_Some; [done|by apply H3].
  - intros i j a b Ha Hb Hl Hss.
    eapply (unique_insert (λ r r', LeagueTeamSeason.team_id r = LeagueTeamSeason.team_id r' ∧
      LeagueTeamSeason.season_id r = LeagueTeamSeason.season_id r') (Db.league_team_seasons db));
      [|..|exact Ha|exact Hb|by split].
    + intros ? ? []. by split.
    + intros ? ? ? ? ? ? []. by eapply H4.
    + intros k b' Hb' [Hl' Hs']. rewrite <- (proj1 (H3 _ _ Hb')). eapply no_others; [exact Hno|exact Hb'|].
      by apply bool_decide_eq_true_2.
  - intros m Hm. destruct (H9 m Hm) as [Hst (e & He & Hes)]. split; [exact Hst|]. cbn.
    destruct (decide (LeagueTeamSeason.id r = LeagueTeamMember.team_season_id m)) as [Heq|Hne].
    + rewrite <- Heq in *. rewrite lookup_insert_eq. exists r. split; [done|]. by rewrite (Hsame e He).
    + rewrite lookup_insert_ne by done. by exists e.
  - intros id i Hi. eauto using insert_is_Some.
Qed.

Lemma entries_mapped_sound (f : LeagueTeamSeason.t → LeagueTeamSeason.t) db :
  (∀ r, LeagueTeamSeason.id (f r) = LeagueTeamSeason.id r ∧ LeagueTeamSeason.team_id (f r) = LeagueTeamSeason.team_id r ∧
        LeagueTeamSeason.season_id (f r) = LeagueTeamSeason.season_id r) →
  leagues_sound db (db <| Db.league_team_seasons := f <$> Db.league_team_seasons db |>).
Proof.
  intros Hf Ho. destruct Ho as [H1 H2 H3 H4 H5 H6 H7 H8 H9 H10].
  split; cbn; try assumption.
  - intros id r' (r & <- & Hr)%lookup_fmap_Some. destruct (Hf r) as (-> & -> & ->). by apply H3.
  - intros i j a' b' (a & <- & Ha)%lookup_fmap_Some (b & <- & Hb)%lookup_fmap_Some.
    destruct (Hf a) as (_ & -> & ->), (Hf b) as (_ & -> & ->). by apply (H4 i j a b).
  - intros m Hm. destruct (H9 m Hm) as [Hst (e & He & Hes)]. split; [exact Hst|]. cbn.
    exists (f e). rewrite lookup_fmap, He. split; [done|]. by destruct (Hf e) as (_ & _ & ->).
  - intros id i Hi. rewrite lookup_fmap, fmap_is_Some. by eapply H10.
Qed.

Lemma invitations_sound rows db :
  (leagues_in_order db → ∀ id i, rows !! id = Some i →
     is_Some (Db.league_team_seasons db !! LeagueTeamInvitation.team_season_id i)) →
  leagues_sound db (LeagueTeamInvitationRepository.put rows db).
Proof. intros Hrows Ho. specialize (Hrows Ho). destruct Ho. by split. Qed.

(** Seats and invitations go with the registrations. *)
Lemma entries_deleted_sound (gone : list LeagueTeamSeasonId) invitations db :
  leagues_sound db (db
    <| Db.league_team_seasons := filter (λ kv, kv.1 ∉ gone) (Db.league_team_seasons db) |>
    <| Db.league_team_members :=
         filter (λ m, LeagueTeamMember.team_season_id m ∉ gone) (Db.league_team_members db) |>
    <| Db.league_team_invitations :=
         filter (λ kv, LeagueTeamInvitation.team_season_id kv.2 ∉ gone) (Db.league_team_invitations db) |>
    <| Db.invitations := invitations |>).
Proof.
  intros Ho. destruct Ho as [H1 H2 H3 H4 H5 H6 H7 H8 H9 H10]. split; cbn; try assumption.
  - intros id r [Hr _]%map_lookup_filter_Some. by apply H3.
  - intros i j a b [Ha _]%map_lookup_filter_Some [Hb _]%map_lookup_filter_Some. by apply H4.
  - by apply seat_keys_filter.
  - by apply primary_keys_filter.
  - intros m [Hgone Hm]%list_elem_of_filter. destruct (H9 m Hm) as [Hst (e & He & Hes)]. split; [exact Hst|].
    exists e. split; [|done]. by apply map_lookup_filter_Some.
  - intros id i [Hi Hgone]%map_lookup_filter_Some. destruct (H10 id i Hi) as [e He]. exists e.
    by apply map_lookup_filter_Some.
Qed.

(** *** The statements *)

Lemma same_sound {A} (c : M A) : preserves leagues_same c → preserves leagues_sound c.
Proof. intros Hc db. apply leagues_same_sound, Hc. Qed.

Lemma season_update_sound id set :
  (∀ now s, LeagueSeason.id (set now s) = LeagueSeason.id s) →
  preserves leagues_sound (LeagueSeasonRepository.update_row id set).
Proof.
  intros Hset. apply update_where_sound. intros db s Hs Hv Ho. destruct (lo_season _ Ho id s Hs) as [Hid Hlt].
  apply season_written_sound; [done| |done..]. cbn. by rewrite Hset.
Qed.
Lemma season_archived_sound id by_ : preserves leagues_sound (LeagueSeasonRepository.set_archived id by_).
Proof.
  apply update_where_sound. intros db s Hs Hv Ho. destruct (lo_season _ Ho id s Hs) as [Hid Hlt].
  by apply season_written_sound.
Qed.
Lemma season_create_sound cmd : preserves leagues_sound (LeagueSeasonRepository.create cmd).
Proof.
  apply insert_row_sound. intros db Hv. etransitivity; [apply leagues_same_sound, fresh_uuid_same|].
  apply (season_written_sound (db <| Db.next_uuid := N.succ (Db.next_uuid db) |>)); [done|done|done|cbn; lia].
Qed.

Lemma team_update_sound id missing set :
  (∀ now t, LeagueTeam.id (set now t) = LeagueTeam.id t) →
  preserves leagues_sound (LeagueTeamRepository.update_row id missing set).
Proof.
  intros Hset. apply update_where_sound. intros db t Ht Hv Ho. destruct (lo_team _ Ho id t Ht) as [Hid Hlt].
  apply team_written_sound; [done| |done..]. cbn. by rewrite Hset.
Qed.
Lemma team_create_sound cmd : preserves leagues_sound (LeagueTeamRepository.create cmd).
Proof.
  apply insert_row_sound. intros db Hv. etransitivity; [apply leagues_same_sound, fresh_uuid_same|].
  apply (team_written_sound (db <| Db.next_uuid := N.succ (Db.next_uuid db) |>)); [done|done|done|cbn; lia].
Qed.

Lemma entry_update_sound id set :
  (∀ now r, LeagueTeamSeason.id (set now r) = LeagueTeamSeason.id r ∧
            LeagueTeamSeason.season_id (set now r) = LeagueTeamSeason.season_id r) →
  preserves leagues_sound (LeagueTeamSeasonRepository.update_row id set).
Proof.
  intros Hset. apply update_where_sound. intros db r Hr Hv Ho. destruct (lo_entry _ Ho id r Hr) as (Hid & Hlt & _).
  destruct (Hset (Db.now db) r) as [Hsid Hss]. apply entry_written_sound; [done| |done|done| |done].
  - cbn. by rewrite Hsid.
  - intros old Hold. rewrite Hr in Hold. injection Hold as <-. exact Hss.
Qed.
Lemma entry_insert_sound team season status at_ :
  preserves leagues_sound (LeagueTeamSeasonRepository.insert team season status at_).
Proof.
  apply insert_row_sound. intros db Hv Ho.
  apply (entry_written_sound (db <| Db.next_uuid := N.succ (Db.next_uuid db) |>)); [done|done|done|cbn; lia| |].
  - cbn. intros old Hold. destruct (lo_entry _ Ho _ _ Hold) as (_ & Hlt & _). lia.
  - by apply (leagues_same_sound _ _ (fresh_uuid_same db)).
Qed.

Lemma invitation_update_sound id new response :
  preserves leagues_sound (LeagueTeamInvitationRepository.update_status id new response).
Proof.
  apply update_where_sound. intros db i Hi _. apply invitations_sound. intros Ho j i' [[<- <-]|[_ Hj]]%lookup_insert_Some.
  - by apply (lo_invitation _ Ho _ _ Hi).
  - by apply (lo_invitation _ Ho _ _ Hj).
Qed.
Lemma invitation_create_sound cmd : preserves leagues_sound (LeagueTeamInvitationRepository.create cmd).
Proof.
  apply insert_row_sound. intros db. unfold LeagueTeamInvitationRepository.violated.
  destruct (refers _ _) eqn:Hr; [|done]. apply bool_decide_eq_true in Hr. intros _.
  etransitivity; [apply leagues_same_sound, fresh_uuid_same|]. apply invitations_sound.
  intros Ho j i [[<- <-]|[_ Hj]]%lookup_insert_Some; [exact Hr|by apply (lo_invitation _ Ho _ _ Hj)].
Qed.
Lemma invitation_accept_sound id member :
  preserves leagues_sound (LeagueTeamInvitationRepository.accept_and_add_member id member).
Proof.
  apply preserves_transaction; [apply _|]. apply preserves_bind; [apply _| |intros _; apply seat_member_sound].
  intros db. apply invitations_sound. intros Ho j i Hj. destruct (decide (id = j)) as [<-|Hne].
  - rewrite lookup_alter_eq in Hj. apply fmap_Some in Hj as (i' & Hi' & ->). by apply (lo_invitation _ Ho _ _ Hi').
  - rewrite lookup_alter_ne in Hj by done. by apply (lo_invitation _ Ho _ _ Hj).
Qed.

Lemma insert_change_sound audit : preserves leagues_sound (insert_change audit).
Proof. apply same_sound. intros db. split; try done. cbn. lia. Qed.
Lemma withdraw_entries_sound ids : preserves leagues_sound (RosterRelease.withdraw_open_cup_entries ids).
Proof.
  apply same_sound. intros db. unfold RosterRelease.withdraw_open_cup_entries. case_bool_decide; [by split|].
  destruct (head _); by split.
Qed.
Lemma grant_captain_sound id player : preserves leagues_sound (LeagueTeamRepository.grant_captain id player).
Proof.
  apply same_sound. intros db. cbn. destruct (LeagueTeamRepository.user_of player db); [|by split].
  destruct (existsb _ _); by split.
Qed.
Lemma revoke_captain_sound id player : preserves leagues_sound (LeagueTeamRepository.revoke_captain id player).
Proof. apply same_sound. intros db. cbn. destruct (LeagueTeamRepository.user_of player db); by split. Qed.
Lemma delete_registrations_sound gone : preserves leagues_sound (delete_registrations gone).
Proof. apply same_sound. intros db. unfold delete_registrations. cbn zeta. destruct (head _); by split. Qed.
Lemma delete_team_seasons_sound gone : preserves leagues_sound (delete_team_seasons gone).
Proof.
  unfold delete_team_seasons. cbn zeta. apply preserves_bind; [apply _|apply preserves_read; apply _|]. intros rs.
  apply preserves_bind; [apply _|apply delete_registrations_sound|]. intros _ db. apply entries_deleted_sound.
Qed.
Lemma withdraw_all_sound ids : preserves leagues_sound (LeagueTeamRepository.withdraw_all ids).
Proof. intros db. apply entries_mapped_sound. intros r. by case_bool_decide. Qed.

#[local] Hint Resolve season_archived_sound season_create_sound team_create_sound entry_insert_sound insert_seat_sound
  seat_member_sound update_role_sound remove_member_sound restore_seats_sound invitation_update_sound
  invitation_create_sound invitation_accept_sound insert_change_sound withdraw_entries_sound grant_captain_sound
  revoke_captain_sound delete_team_seasons_sound withdraw_all_sound : frames.
#[local] Hint Extern 1 (preserves leagues_sound (RosterRelease.release_seats _ _ _)) =>
  by apply release_seats_sound : frames.
#[local] Hint Extern 1 (preserves leagues_sound (LeagueSeasonRepository.update_row _ _)) =>
  apply season_update_sound; intros; done : frames.
#[local] Hint Extern 1 (preserves leagues_sound (LeagueTeamRepository.update_row _ _ _)) =>
  apply team_update_sound; intros; done : frames.
#[local] Hint Extern 1 (preserves leagues_sound (LeagueTeamSeasonRepository.update_row _ _)) =>
  apply entry_update_sound; intros; done : frames.

Lemma season_applied_id u now s : LeagueSeason.id (LeagueSeasonRepository.apply_update u now s) = LeagueSeason.id s.
Proof. unfold LeagueSeasonRepository.apply_update. cbn zeta. by destruct (UpdateLeagueSeason.roster_lock_status u). Qed.
Lemma season_changed_sound id u : preserves leagues_sound (LeagueSeasonRepository.update id u).
Proof. apply season_update_sound. intros. apply season_applied_id. Qed.

Lemma team_cleared_sound id image : preserves leagues_sound (LeagueTeamRepository.clear_image id image).
Proof. apply team_update_sound. intros now t. by destruct image. Qed.

Lemma carry_seat_sound ts m : preserves leagues_sound (LeagueTeamRepository.carry_seat ts m).
Proof.
  intros db. unfold LeagueTeamRepository.carry_seat, mbind. destruct (season_of _ db) as [[s|e] db1] eqn:Hs;
    apply season_of_inv in Hs as [-> Hs]; [|reflexivity].
  destruct (existsb _ _); [reflexivity|]. cbn zeta. destruct (refused _ _ _) eqn:Hr; [reflexivity|].
  apply seat_added_sound; [exact Hr|]. by split.
Qed.

Lemma team_moved_sound id league season : preserves leagues_sound (LeagueTeamRepository.move_to_league id league season).
Proof.
  pose proof carry_seat_sound. unfold LeagueTeamRepository.move_to_league, LeagueTeamRepository.enter_season,
    LeagueTeamRepository.carry_roster, LeagueTeamSeasonRepository.find_by_team_and_season. league.
Qed.

Lemma team_archived_sound id by_ : preserves leagues_sound (LeagueTeamRepository.set_archived id by_).
Proof.
  unfold LeagueTeamRepository.set_archived, LeagueTeamRepository.find_by_id, RosterRelease.live_team_season_ids.
  assert (∀ live, preserves leagues_sound (LeagueTeamRepository.restore_capacity_check id live)).
  { intros live db. unfold LeagueTeamRepository.restore_capacity_check. destruct (head _); reflexivity. }
  league.
Qed.

(** *** The services *)

(** One call of a service, or a step on other tables. *)
Inductive league_step (db : Db.t) : Db.t → Prop :=
| CreateSeason user cmd : league_step db (LeagueSeasonService.create_season user cmd db).2
| UpdateSeason id cmd user : league_step db (LeagueSeasonService.update_season id cmd user db).2
| ArchiveSeason id user : league_step db (LeagueSeasonService.archive_season id user db).2
| RestoreSeason id : league_step db (LeagueSeasonService.restore_season id db).2
| SeasonLock id lock user : league_step db (LeagueSeasonService.update_roster_lock id lock user db).2
| SeasonStep id status : league_step db (LeagueSeasonService.update_status id status db).2
| CreateTeam player cmd : league_step db (LeagueTeamService.create_team player cmd db).2
| RegisterTeam id season player : league_step db (LeagueTeamService.register_for_season id season player db).2
| UpdateTeam id cmd : league_step db (LeagueTeamService.update_team_authorized id cmd db).2
| ClearImage id image : league_step db (LeagueTeamService.clear_image id image db).2
| ArchiveTeam id user : league_step db (LeagueTeamService.archive_team id user db).2
| RestoreTeam id : league_step db (LeagueTeamService.restore_team id db).2
| TransferTeam id owner new : league_step db (LeagueTeamService.transfer_ownership id owner new db).2
| WithdrawTeam ts : league_step db (LeagueTeamService.withdraw_from_season ts db).2
| DisbandTeam id : league_step db (LeagueTeamService.disband_team id db).2
| MoveTeam id league season : league_step db (LeagueTeamService.move_team_to_league id league season db).2
| AddMember ts player role user over :
    league_step db (LeagueTeamService.add_member_authorized ts player role user over db).2
| RemoveMember ts player over : league_step db (LeagueTeamService.remove_member_authorized ts player over db).2
| Promote ts player over : league_step db (LeagueTeamService.promote_to_captain ts player over db).2
| Demote ts player over : league_step db (LeagueTeamService.demote_from_captain ts player over db).2
| Leave ts player : league_step db (LeagueTeamService.leave_team ts player db).2
| Invite ts player role message user :
    league_step db (LeagueTeamInvitationService.create_invitation ts player role message user db).2
| Request ts player role message :
    league_step db (LeagueTeamInvitationService.create_join_request ts player role message db).2
| Accept id player : league_step db (LeagueTeamInvitationService.accept_invitation id player db).2
| Decline id player response : league_step db (LeagueTeamInvitationService.decline_invitation id player response db).2
| Cancel id player : league_step db (LeagueTeamInvitationService.cancel_invitation id player db).2
| RegisterPlayer season player : league_step db (LeagueSeasonParticipantService.register season player db).2
| WithdrawPlayer id player : league_step db (LeagueSeasonParticipantService.withdraw id player db).2
| Elsewhere db' : leagues_same db db' → league_step db db'.

Lemma participant_register_sound cmd : preserves leagues_sound (LeagueSeasonParticipantRepository.register cmd).
Proof.
  apply insert_row_sound. intros db _. apply leagues_same_sound. split; try done. cbn. lia.
Qed.
Lemma participant_update_sound id set : preserves leagues_sound (LeagueSeasonParticipantRepository.update_row id set).
Proof. apply update_where_sound. intros db p _ _. by apply leagues_same_sound. Qed.

#[local] Hint Resolve season_changed_sound team_cleared_sound team_moved_sound team_archived_sound
  participant_register_sound participant_update_sound : frames.

Lemma league_step_sound db db' : league_step db db' → leagues_sound db db'.
Proof.
  intros []; [..|by apply leagues_same_sound];
    match goal with |- leagues_sound ?db (?c ?db).2 => revert db; change (preserves leagues_sound c) end;
    autounfold with rosters; league.
Qed.

Lemma league_steps_sound db db' : rtc league_step db db' → leagues_sound db db'.
Proof. induction 1 as [|a b c Hstep _ IH]; [done|]. etransitivity; [by apply league_step_sound|exact IH]. Qed.

End order.

(** ** What a lock holds *)

(** The calls that seat, lift off or rank the members of a roster. *)
Inductive roster_call :=
| AddSeat (ts : LeagueTeamSeasonId) (player : PlayerId) (role : LeagueTeamRole.t) (user : UserId)
    (over : option RosterLockOverride.t)
| RemoveSeat (ts : LeagueTeamSeasonId) (player : PlayerId) (over : option RosterLockOverride.t)
| MakeCaptain (ts : LeagueTeamSeasonId) (player : PlayerId) (over : option RosterLockOverride.t)
| UnmakeCaptain (ts : LeagueTeamSeasonId) (player : PlayerId) (over : option RosterLockOverride.t)
| LeaveSeat (ts : LeagueTeamSeasonId) (player : PlayerId)
| TakeSeat (invitation : LeagueTeamInvitationId) (player : PlayerId).

Section lock.
Context `{Platform} `{TextRules}.
Import LeagueTeamMemberRepository.

Definition run (call : roster_call) : M unit :=
  match call with
  | AddSeat ts player role user over =>
      let* _ := LeagueTeamService.add_member_authorized ts player role user over in mret tt
  | RemoveSeat ts player over => LeagueTeamService.remove_member_authorized ts player over
  | MakeCaptain ts player over => let* _ := LeagueTeamService.promote_to_captain ts player over in mret tt
  | UnmakeCaptain ts player over => let* _ := LeagueTeamService.demote_from_captain ts player over in mret tt
  | LeaveSeat ts player => LeagueTeamService.leave_team ts player
  | TakeSeat id player => let* _ := LeagueTeamInvitationService.accept_invitation id player in mret tt
  end.

(** The roster a call is about, and the change it asks for. *)
Definition asks (db : Db.t) (call : roster_call) : option (LeagueTeamSeasonId * RosterChange.t) :=
  match call with
  | AddSeat ts _ role _ _ => Some (ts, RosterChange.Membership role)
  | RemoveSeat ts player _ | LeaveSeat ts player =>
      m ← member_of ts player db; Some (ts, RosterChange.Membership (LeagueTeamMember.role m))
  | MakeCaptain ts player _ | UnmakeCaptain ts player _ =>
      _ ← member_of ts player db; Some (ts, RosterChange.Role)
  | TakeSeat id _ =>
      i ← Db.league_team_invitations db !! id;
      Some (LeagueTeamInvitation.team_season_id i, RosterChange.Membership (LeagueTeamInvitation.role i))
  end.

Definition override_of (call : roster_call) : option RosterLockOverride.t :=
  match call with
  | AddSeat _ _ _ _ over | RemoveSeat _ _ over | MakeCaptain _ _ over | UnmakeCaptain _ _ over => over
  | LeaveSeat _ _ | TakeSeat _ _ => None
  end.

(** The rules of a lock: a season that is over is frozen; an open one allows every
    change, a soft lock substitutes and captaincy, a hard one only new rosters. *)
Definition lock_permits (s : LeagueSeason.t) (change : RosterChange.t) : Prop :=
  LeagueSeason.status s ≠ SeasonStatus.Completed ∧ LeagueSeason.status s ≠ SeasonStatus.Cancelled ∧
  match change with
  | RosterChange.Founding => True
  | RosterChange.Membership LeagueTeamRole.Substitute | RosterChange.Role =>
      LeagueSeason.roster_lock_status s ≠ RosterLockStatus.HardLock
  | RosterChange.Membership _ => LeagueSeason.roster_lock_status s = RosterLockStatus.Open
  end.

Lemma refusal_permits s change : refusal_reason s change = None ↔ lock_permits s change.
Proof.
  unfold refusal_reason, lock_permits, LeagueSeason.allows_primary_roster_changes,
    LeagueSeason.allows_substitute_changes.
  destruct (LeagueSeason.status s), change as [[| |]| |], (LeagueSeason.roster_lock_status s); cbn; split;
    try done; by intros (? & ? & ?).
Qed.

Definition same_audit (db db' : Db.t) : Prop := Db.entity_changes db' = Db.entity_changes db.
#[local] Instance same_audit_preorder : PreOrder same_audit.
Proof. unfold same_audit. split; [done|]. intros a b c. congruence. Qed.

(** What the lock of [s] makes of a call. *)
Definition gated {A} (s : LeagueSeason.t) (ts : LeagueTeamSeasonId) (change : RosterChange.t)
    (over : option RosterLockOverride.t) (db : Db.t) (out : outcome A * Db.t) : Prop :=
  (lock_permits s change → Db.entity_changes out.2 = Db.entity_changes db) ∧
  (¬ lock_permits s change →
   match over with
   | None => ∃ e, out = (Err e, db)
   | Some over => ∃ refusal, refusal_reason s change = Some refusal ∧
       Db.entity_changes out.2 = Db.entity_changes db ++
         [inserted_change (Db.next_uuid db) (Db.now db) (override_entry s ts change refusal over)]
   end).

Lemma gated_drop {A} s ts change over db (c : M A) :
  gated s ts change over db (c db) → gated s ts change over db ((let* _ := c in mret tt) db).
Proof.
  unfold gated, mbind. destruct (c db) as [[a|e] db1] eqn:Hc; cbn; intros [H1 H2]; (split; [exact H1|]);
    intros Hno; specialize (H2 Hno); destruct over; try done.
  - by destruct H2 as [? [=]].
  - destruct H2 as [? [= <- <-]]. by eexists.
Qed.

Lemma enforce_gated {A} s ts change over (k : unit → M A) db :
  preserves same_audit (k tt) → gated s ts change over db (mbind (enforce_roster_lock s ts change over) k db).
Proof.
  intros Hk. unfold gated. rewrite <- refusal_permits. unfold enforce_roster_lock.
  destruct (refusal_reason s change) as [refusal|] eqn:Hr.
  - split; [done|]. intros _. destruct over as [over|]; [|by eexists]. exists refusal. split; [done|].
    unfold mbind. cbn. unfold preserves, same_audit in Hk. by rewrite Hk.
  - split; [|done]. intros _. unfold mbind. cbn. apply Hk.
Qed.

Lemma read_gated {A B} s ts change db (c : M A) (k : A → M B) :
  preserves eq c → (∀ a, c db = (Ok a, db) → gated s ts change None db (k a db)) →
  gated s ts change None db (mbind c k db).
Proof.
  intros Hc Hk. unfold mbind. specialize (Hc db). destruct (c db) as [[a|e] db1]; cbn in Hc; subst db1; [by apply Hk|].
  split; [done|]. intros _. by eexists.
Qed.

Lemma read_seat_audit ts player set : preserves same_audit (update_seat ts player set).
Proof.
  intros db. unfold update_seat. destruct (list_find _ _) as [[i old]|]; [|done]. cbn zeta.
  by destruct (refused _ _ _).
Qed.
Lemma seat_audit cmd : preserves same_audit (seat_member cmd).
Proof.
  intros db. unfold seat_member, mbind. destruct (season_of _ db) as [[s|e] db1] eqn:Hs;
    apply season_of_inv in Hs as [-> Hs]; [|done].
  destruct (list_find _ _) as [[i old]|]; cbn zeta; [destruct (is_open old); [done|]|]; by destruct (refused _ _ _).
Qed.
Lemma remove_audit ts player : preserves same_audit (remove_member ts player).
Proof. by intros db. Qed.
Lemma accept_audit id member :
  preserves same_audit (LeagueTeamInvitationRepository.accept_and_add_member id member).
Proof.
  apply preserves_transaction; [apply _|]. apply preserves_bind; [apply _|by intros db|]. intros _. apply seat_audit.
Qed.
#[local] Hint Resolve read_seat_audit seat_audit remove_audit accept_audit : frames.
#[local] Hint Unfold update_role : rosters.

(** Nothing is read of a row but the row. *)
Lemma team_season_run ts r db :
  Db.league_team_seasons db !! ts = Some r → LeagueTeamService.get_team_season ts db = (Ok r, db).
Proof.
  intros Hr. unfold LeagueTeamService.get_team_season, require, LeagueTeamSeasonRepository.find_by_id, mbind, mread.
  by rewrite Hr.
Qed.
Lemma season_run id s db : Db.league_seasons db !! id = Some s → season_by_id id db = (Ok s, db).
Proof.
  intros Hs. unfold season_by_id, require, LeagueSeasonRepository.find_by_id, mbind, mread. by rewrite Hs.
Qed.
Lemma season_of_roster_run ts r s db :
  Db.league_team_seasons db !! ts = Some r → Db.league_seasons db !! LeagueTeamSeason.season_id r = Some s →
  LeagueTeamService.season_for_team_season ts db = (Ok s, db).
Proof.
  intros Hr Hs. unfold LeagueTeamService.season_for_team_season. rewrite (mbind_step _ _ _ _ _ (team_season_run _ _ _ Hr)).
  by apply season_run.
Qed.
Lemma member_run ts player m e db : member_of ts player db = Some m → require (find_member ts player) e db = (Ok m, db).
Proof. intros Hm. unfold require, find_member, mbind, mread. by rewrite Hm. Qed.

End lock.

(** ** Captains *)

Section captains.
Context `{Platform} `{TextRules}.
Import LeagueTeamMember LeagueTeamMemberRepository.

(** An open seat of the roster. *)
Definition seated (ts : LeagueTeamSeasonId) (db : Db.t) (m : t) : Prop :=
  m ∈ Db.league_team_members db ∧ team_season_id m = ts ∧ left_at m = None.
Definition has_captain (ts : LeagueTeamSeasonId) (db : Db.t) : Prop := ∃ m, seated ts db m ∧ is_captain m = true.

Definition captains_kept (db db' : Db.t) : Prop := ∀ ts, has_captain ts db → has_captain ts db'.
#[local] Instance captains_kept_preorder : PreOrder captains_kept.
Proof. split; [by intros db ts|]. intros a b c Hab Hbc ts Ha. by apply Hbc, Hab. Qed.

Lemma elem_of_open_seats ts db m : m ∈ roster ts db ↔ seated ts db m.
Proof.
  unfold roster, members_where, seated, is_open. rewrite list_elem_of_filter, andb_true_iff, !bool_decide_eq_true. tauto.
Qed.

Lemma member_of_seated ts player db m :
  member_of ts player db = Some m → seated ts db m ∧ player_id m = player.
Proof.
  unfold member_of. intros Hm. apply head_Some_elem_of, list_elem_of_filter in Hm as [Hm Hin].
  unfold at_seat, is_open in Hm. apply andb_true_iff in Hm as [[Hts Hp]%bool_decide_eq_true Hl%bool_decide_eq_true].
  by repeat split.
Qed.

Lemma seated_of_member ts player db m :
  NoDup (seat_keys (Db.league_team_members db)) → seated ts db m → player_id m = player →
  member_of ts player db = Some m.
Proof.
  intros Hnd (Hin & Hts & Hl) Hp. destruct (member_of ts player db) as [m'|] eqn:Hm'.
  - apply member_of_seated in Hm' as [(Hin' & Hts' & _) Hp']. f_equal. by eapply seat_unique; [exact Hnd|..]; congruence.
  - unfold member_of in Hm'. apply head_None in Hm'. exfalso.
    assert (m ∈ members_where (λ m, at_seat ts player m && is_open m) db) as Hm; [|rewrite Hm' in Hm; by apply elem_of_nil in Hm].
    apply list_elem_of_filter. split; [|done]. unfold at_seat, is_open. by rewrite !bool_decide_eq_true_2.
Qed.

(** One captain beside another. *)
Lemma another_captain ts db m :
  NoDup (seat_keys (Db.league_team_members db)) → seated ts db m → is_captain m = true →
  1 < count (filter (λ m, is_captain m = true) (roster ts db)) →
  ∃ m', seated ts db m' ∧ is_captain m' = true ∧ m' ≠ m.
Proof.
  intros Hnd Hm Hc Hn. set (l := filter (λ m, is_captain m = true) (roster ts db)) in *.
  assert (NoDup l) as Hl.
  { do 2 apply NoDup_filter. by eapply NoDup_fmap_1. }
  assert (∀ x, x ∈ l → seated ts db x ∧ is_captain x = true) as Hin.
  { intros x Hx. apply list_elem_of_filter in Hx as [? ?%elem_of_open_seats]. done. }
  unfold count in Hn. destruct l as [|a [|b l]]; cbn in Hn; [lia..|].
  apply NoDup_cons in Hl as [Hab _]. destruct (decide (player_id a = player_id m)) as [Hp|Hne].
  - assert (a = m) as ->.
    { destruct (Hin a) as [(Ha & Hts & _) _], Hm as (Hm & Hts' & _); [by left|].
      eapply seat_unique; [exact Hnd|..]; congruence. }
    destruct (Hin b) as [Hb Hcb]; [by right; left|]. exists b. split; [done|]. split; [done|].
    intros ->. apply Hab. by left.
  - destruct (Hin a) as [Ha Hca]; [by left|]. exists a. split; [done|]. split; [done|]. by intros ->.
Qed.

(** *** What the statements do to captains *)

Lemma same_members_kept db db' : Db.league_team_members db' = Db.league_team_members db → captains_kept db db'.
Proof. intros Heq ts (m & Hm & Hc). exists m. unfold seated in *. by rewrite Heq. Qed.

(** Whoever is seated as a captain stays seated when another seat is written. *)
Lemma captain_stays_insert db rows i old new ts :
  Db.league_team_members db !! i = Some old → rows = <[i := new]> (Db.league_team_members db) →
  (∀ m, seated ts db m → is_captain m = true → m = old → team_season_id new = ts ∧ left_at new = None ∧ is_captain new = true) →
  has_captain ts db → has_captain ts (db <| Db.league_team_members := rows |>).
Proof.
  intros Hi -> Hold (m & Hm & Hc). destruct Hm as (Hin & Hts & Hl).
  apply list_elem_of_lookup in Hin as [j Hj]. destruct (decide (i = j)) as [<-|Hne].
  - rewrite Hi in Hj. injection Hj as ->. destruct (Hold m) as (H1 & H2 & H3); [|done|done|].
    { repeat split; [by eapply list_elem_of_lookup_2|done|done]. }
    exists new. split; [|done]. repeat split; [|done|done].
    apply (list_elem_of_lookup_2 _ i). by apply list_lookup_insert_eq; eapply lookup_lt_Some.
  - exists m. split; [|done]. repeat split; [|done|done].
    apply (list_elem_of_lookup_2 _ j). cbn. by rewrite list_lookup_insert_ne.
Qed.

Lemma seat_member_captains cmd : preserves captains_kept (seat_member cmd).
Proof.
  intros db ts. unfold seat_member, mbind. destruct (season_of _ db) as [[s|e] db1] eqn:Hs;
    apply season_of_inv in Hs as [-> Hs]; [|done].
  destruct (list_find _ _) as [[i old]|] eqn:Hf; cbn zeta.
  - destruct (is_open old) eqn:Hold; [done|]. destruct (refused _ _ _); [done|].
    apply list_find_Some in Hf as (Hi & _ & _). eapply captain_stays_insert; [exact Hi|done|].
    intros m (_ & _ & Hl) _ ->. unfold is_open in Hold. by rewrite bool_decide_true in Hold.
  - destruct (refused _ _ _); [done|]. intros (m & (Hin & Hm) & Hc). exists m. split; [|done].
    split; [|done]. apply elem_of_app. by left.
Qed.

Lemma promoted_captains ts player : preserves captains_kept (update_role ts player LeagueTeamRole.Captain).
Proof.
  intros db ts'. unfold update_role, update_seat. destruct (list_find _ _) as [[i old]|] eqn:Hf; [|done].
  cbn zeta. destruct (refused _ _ _); [done|]. apply list_find_Some in Hf as (Hi & _ & _).
  eapply captain_stays_insert; [exact Hi|done|]. by intros m (_ & Hts & Hl) _ ->.
Qed.

(** A captain leaves the rank, or the roster, beside another. *)
Definition may_step_down (ts : LeagueTeamSeasonId) (player : PlayerId) (db : Db.t) : Prop :=
  ∀ m, seated ts db m → player_id m = player → is_captain m = true →
  ∃ m', seated ts db m' ∧ is_captain m' = true ∧ m' ≠ m.

Lemma remaining_captain ts player db ts' :
  NoDup (seat_keys (Db.league_team_members db)) → may_step_down ts player db → has_captain ts' db →
  ∃ m, seated ts' db m ∧ is_captain m = true ∧ at_seat ts player m = false.
Proof.
  intros Hnd Hmay (m & Hm & Hc). destruct (at_seat ts player m) eqn:Hat; [|by exists m].
  apply bool_decide_eq_true in Hat as [<- Hp]. pose proof Hm as (Hin & <- & Hl).
  destruct (Hmay m Hm Hp Hc) as (m' & Hm' & Hc' & Hne). exists m'. split; [done|]. split; [done|].
  apply bool_decide_eq_false. intros [Hts' Hp']. apply Hne. destruct Hm' as (Hin' & _ & _).
  by eapply seat_unique; [exact Hnd|..]; congruence.
Qed.

Lemma remove_captains ts player db :
  NoDup (seat_keys (Db.league_team_members db)) → may_step_down ts player db →
  captains_kept db (remove_member ts player db).2.
Proof.
  intros Hnd Hmay ts' Hhas. destruct (remaining_captain _ _ _ _ Hnd Hmay Hhas) as (m & (Hin & Hm) & Hc & Hat).
  exists m. split; [|done]. split; [|done]. cbn. apply list_elem_of_fmap. exists m. by rewrite Hat.
Qed.

Lemma demote_captains ts player new db :
  NoDup (seat_keys (Db.league_team_members db)) → may_step_down ts player db →
  captains_kept db (update_role ts player new db).2.
Proof.
  intros Hnd Hmay ts' Hhas. destruct (remaining_captain _ _ _ _ Hnd Hmay Hhas) as (m & (Hin & Hm) & Hc & Hat).
  unfold update_role, update_seat. destruct (list_find _ _) as [[i old]|] eqn:Hf; [|done].
  cbn zeta. destruct (refused _ _ _); [done|]. apply list_find_Some in Hf as (Hi & Hold & _).
  apply list_elem_of_lookup in Hin as [j Hj]. assert (i ≠ j) as Hne.
  { intros ->. rewrite Hi in Hj. injection Hj as ->. by rewrite Hat in Hold. }
  exists m. split; [|done]. split; [|done]. apply (list_elem_of_lookup_2 _ j). cbn. by rewrite list_lookup_insert_ne.
Qed.

(** The guard: with one captain, a captain may not. *)
Lemma other_captain_guard {A} ts player m msg (k : unit → M A) db :
  NoDup (seat_keys (Db.league_team_members db)) → member_of ts player db = Some m →
  (may_step_down ts player db → captains_kept db (k tt db).2) →
  captains_kept db (mbind (when (is_captain m) (LeagueTeamService.require_other_captain ts msg)) k db).2.
Proof.
  intros Hnd Hm Hk. unfold when. destruct (is_captain m) eqn:Hc.
  2: { apply Hk. intros m' Hs Hp Hc'. apply (seated_of_member _ player) in Hs; [|done|done].
       rewrite Hm in Hs. injection Hs as ->. congruence. }
  unfold LeagueTeamService.require_other_captain, count_captains, count_where, mbind, mread.
  case_bool_decide as Hn; [by intros ?|]. apply Hk. intros m' Hs Hp Hc'.
  eapply another_captain; [done|done|done|lia].
Qed.

Lemma accept_captains id member :
  preserves captains_kept (LeagueTeamInvitationRepository.accept_and_add_member id member).
Proof.
  apply preserves_transaction; [apply _|]. apply preserves_bind; [apply _|intros db; by apply same_members_kept|].
  intros _. apply seat_member_captains.
Qed.
Lemma change_captains audit : preserves captains_kept (insert_change audit).
Proof. intros db. by apply same_members_kept. Qed.
#[local] Hint Resolve seat_member_captains promoted_captains accept_captains change_captains : frames.

Lemma enforce_then {A} s ts change over (k : unit → M A) db :
  (∀ db1, Db.league_team_members db1 = Db.league_team_members db → captains_kept db1 (k tt db1).2) →
  captains_kept db (mbind (enforce_roster_lock s ts change over) k db).2.
Proof.
  intros Hk. unfold enforce_roster_lock. destruct (refusal_reason s change); [|by apply Hk].
  destruct over as [over|]; [|by intros ?]. unfold mbind, insert_change, mwrite.
  etransitivity; [|by apply Hk]. by apply same_members_kept.
Qed.

Lemma member_ok ts player e db m : require (find_member ts player) e db = (Ok m, db) → member_of ts player db = Some m.
Proof. unfold require, find_member, mbind, mread. destruct (member_of ts player db); [by intros [= ->]|done]. Qed.
Lemma member_of_same ts player db db1 :
  Db.league_team_members db1 = Db.league_team_members db → member_of ts player db1 = member_of ts player db.
Proof. unfold member_of, members_where. by intros ->. Qed.

Lemma remove_call_captains ts player over db :
  NoDup (seat_keys (Db.league_team_members db)) →
  captains_kept db (LeagueTeamService.remove_member_authorized ts player over db).2.
Proof.
  intros Hnd. unfold LeagueTeamService.remove_member_authorized.
  do 2 (apply frame_read_at; [apply _|autounfold with rosters; league|]; intros ? _).
  apply frame_read_at; [apply _|autounfold with rosters; league|]. intros m Hm%member_ok.
  apply enforce_then. intros db1 Heq. rewrite <- Heq in Hnd. rewrite <- (member_of_same _ _ _ _ Heq) in Hm.
  eapply other_captain_guard; [done|exact Hm|]. by apply remove_captains.
Qed.

Lemma leave_call_captains ts player db :
  NoDup (seat_keys (Db.league_team_members db)) → captains_kept db (LeagueTeamService.leave_team ts player db).2.
Proof.
  intros Hnd. unfold LeagueTeamService.leave_team.
  apply frame_read_at; [apply _|autounfold with rosters; league|]. intros r _.
  apply frame_read_at; [apply _|autounfold with rosters; league|]. intros m Hm%member_ok.
  eapply other_captain_guard; [done|exact Hm|]. intros Hmay.
  apply frame_read_at; [apply _|autounfold with rosters; league|]. intros s _.
  unfold enforce_roster_lock. destruct (refusal_reason _ _); [by intros ?|]. by apply remove_captains.
Qed.

Lemma demote_call_captains ts player over db :
  NoDup (seat_keys (Db.league_team_members db)) →
  captains_kept db (LeagueTeamService.demote_from_captain ts player over db).2.
Proof.
  intros Hnd. unfold LeagueTeamService.demote_from_captain.
  apply frame_read_at; [apply _|autounfold with rosters; league|]. intros m Hm%member_ok.
  apply frame_read_at; [apply _|autounfold with rosters; league|]. intros s _.
  apply enforce_then. intros db1 Heq. rewrite <- Heq in Hnd. rewrite <- (member_of_same _ _ _ _ Heq) in Hm.
  destruct (is_captain m) eqn:Hc; [|by intros ?]. cbn [negb].
  pose proof (other_captain_guard ts player m "cannot demote last captain; promote another member first"
    (λ _, update_role ts player LeagueTeamRole.Player) db1 Hnd Hm) as Hguard.
  rewrite Hc in Hguard. apply Hguard. by apply demote_captains.
Qed.

(** A roster that has a captain keeps one, through every call that seats, lifts off
  or ranks its members, whoever calls it and whatever lock is overridden. *)
Theorem last_captain_stays call ts db :
  leagues_in_order db → has_captain ts db → has_captain ts (run call db).2.
Proof.
  intros Ho%lo_seats. revert ts. change (captains_kept db (run call db).2).
  destruct call as [ts' player role user over|ts' player over|ts' player over|ts' player over|ts' player|id player];
    cbn [run].
  - clear Ho. revert db. change (preserves captains_kept
      (let* _ := LeagueTeamService.add_member_authorized ts' player role user over in mret tt)).
    autounfold with rosters; league.
  - by apply remove_call_captains.
  - clear Ho. revert db. change (preserves captains_kept
      (let* _ := LeagueTeamService.promote_to_captain ts' player over in mret tt)).
    autounfold with rosters; league.
  - apply frame_then_at; [apply _|by apply demote_call_captains|]. intros _. frame.
  - by apply leave_call_captains.
  - clear Ho. revert db. change (preserves captains_kept
      (let* _ := LeagueTeamInvitationService.accept_invitation id player in mret tt)).
    autounfold with rosters; league.
Qed.
End captains.

(** ** Invitations *)

Section invitation.
Context `{Platform} `{TextRules}.
Import LeagueTeamMember LeagueTeamMemberRepository.

(** The check succeeds exactly when [P] holds, and writes nothing. *)
Definition decides (c : M unit) (P : Prop) (db : Db.t) : Prop :=
  (c db = (Ok tt, db) ∧ P) ∨ (∃ e, c db = (Err e, db) ∧ ¬ P).

(** [S] under [Q], and otherwise an error and nothing written. *)
Definition settled {A} (Q : Prop) (S : outcome A * Db.t → Prop) (db : Db.t) (out : outcome A * Db.t) : Prop :=
  (Q → S out) ∧ (¬ Q → ∃ e, out = (Err e, db)).

Lemma settled_step {A} c P Q (S : outcome A * Db.t → Prop) (k : unit → M A) db :
  decides c P db → (Q → P) → (P → settled Q S db (k tt db)) → settled Q S db (mbind c k db).
Proof.
  intros [[Hc HP]|(e & Hc & HP)] HQ Hk; unfold mbind; rewrite Hc; [by apply Hk|].
  split; [by intros Hq; destruct HP; apply HQ|by eexists].
Qed.

Lemma decides_when b c P db : (b = true → decides c P db) → decides (when b c) (b = true → P) db.
Proof.
  intros Hc. destruct b; cbn; [|by left]. destruct (Hc eq_refl) as [[? ?]|(e & ? & Hn)]; [by left|right].
  exists e. split; [done|]. intros HP. by apply Hn, HP.
Qed.

Lemma decides_if (b : bool) (P : Prop) e db : (b = true ↔ P) → decides (if b then mret tt else mthrow e) P db.
Proof.
  intros Hb. destruct b; [left; split; [done|by apply Hb]|right]. eexists. split; [reflexivity|]. by intros HP%Hb.
Qed.

(** *** The checks *)

(** A captain of the roster. *)
Definition captains (ts : LeagueTeamSeasonId) (player : PlayerId) (db : Db.t) : Prop :=
  ∃ m, seated ts db m ∧ player_id m = player ∧ is_captain m = true.

Lemma some_members P db : bool_decide (0 < count (members_where P db)) = true ↔
  ∃ m, m ∈ Db.league_team_members db ∧ P m = true.
Proof.
  rewrite bool_decide_eq_true. unfold count, members_where. split.
  - intros Hn. destruct (filter _ _) as [|m l] eqn:E; [cbn in Hn; lia|]. exists m.
    assert (m ∈ filter (λ m, P m = true) (Db.league_team_members db)) as Hm by (rewrite E; left).
    by apply list_elem_of_filter in Hm as [? ?].
  - intros (m & Hm & HP). assert (m ∈ filter (λ m, P m = true) (Db.league_team_members db)) as Hin
      by (by apply list_elem_of_filter). destruct (filter _ _); [by apply elem_of_nil in Hin|cbn; lia].
Qed.

Lemma captain_of_iff ts player db :
  bool_decide (0 < count (members_where (λ m, at_seat ts player m && is_captain m && is_open m) db)) = true ↔
  captains ts player db.
Proof.
  rewrite some_members. unfold captains, seated, at_seat, is_open. split.
  - intros (m & Hm & E). apply andb_true_iff in E as [[E1 E2]%andb_true_iff E3].
    apply bool_decide_eq_true in E1 as [E1 E1'], E3. by exists m.
  - intros (m & (Hm & Hts & Hl) & Hp & Hc). exists m. split; [done|].
    by rewrite bool_decide_eq_true_2, Hc, bool_decide_eq_true_2.
Qed.

Definition answers (i : LeagueTeamInvitation.t) (player : PlayerId) (db : Db.t) : Prop :=
  match LeagueTeamInvitation.invitation_type i with
  | LeagueTeamInvitationType.Invite => LeagueTeamInvitation.player_id i = player
  | LeagueTeamInvitationType.Request => captains (LeagueTeamInvitation.team_season_id i) player db
  end.

Lemma party_decides i player verb db :
  decides (LeagueTeamInvitationService.require_party i player verb) (answers i player db) db.
Proof.
  unfold LeagueTeamInvitationService.require_party, answers.
  destruct (LeagueTeamInvitation.invitation_type i).
  - apply decides_if, bool_decide_eq_true.
  - unfold captain_of, mread. unfold decides, mbind. apply (decides_if _ _ _ db), captain_of_iff.
Qed.

(** The team, its registration and the season are live. *)
Record live (t : LeagueTeam.t) (r : LeagueTeamSeason.t) (s : LeagueSeason.t) (db : Db.t) : Prop := {
  lv_team : LeagueTeamStatus.is_terminal (LeagueTeam.status t) = false;
  lv_team_kept : LeagueTeam.archived_at t = None;
  lv_entry : LeagueTeamSeason.is_terminal r = false;
  lv_season : LeagueSeason.archived_at s = None;
  lv_league : ∃ l, Db.leagues db !! LeagueSeason.league_id s = Some l ∧ LeagueColumns.archived_at l = None;
}.

Lemma live_decides t r s db :
  Db.league_seasons db !! LeagueSeason.id s = Some s → decides (ensure_roster_live t r s) (live t r s db) db.
Proof.
  intros Hs. unfold ensure_roster_live.
  destruct (LeagueTeamStatus.is_terminal _) eqn:E1; [right; eexists; split; [done|]; intros []; congruence|].
  destruct (LeagueTeam.archived_at t) eqn:E2; [right; eexists; split; [done|]; intros []; congruence|]. cbn.
  destruct (LeagueTeamSeason.is_terminal r) eqn:E3; [right; eexists; split; [done|]; intros []; congruence|].
  unfold ensure_season_live.
  destruct (LeagueSeason.archived_at s) eqn:E4; [right; eexists; split; [done|]; intros []; congruence|]. cbn.
  unfold decides, mbind, LeagueSeasonRepository.is_archived, mquery, LeagueSeasonRepository.archived. rewrite Hs. cbn.
  destruct (Db.leagues db !! LeagueSeason.league_id s) as [l|] eqn:E5; cbn.
  2: { right. eexists. split; [done|]. intros [_ _ _ _ (l & Hl & _)]. congruence. }
  rewrite E4. destruct (LeagueColumns.archived_at l) eqn:E6; cbn.
  - right. eexists. split; [done|]. intros [_ _ _ _ (l' & Hl & Ha)]. congruence.
  - left. split; [done|]. split; eauto.
Qed.

Definition league_member (league : LeagueId) (player : PlayerId) (db : Db.t) : Prop :=
  ∃ p u, Db.players db !! player = Some p ∧ PlayerColumns.user_id p = Some u ∧ (league, u) ∈ Db.league_members db.

Lemma member_decides league player db : decides (ensure_league_member league player) (league_member league player db) db.
Proof.
  unfold ensure_league_member, is_member_by_player, mread, decides, mbind. apply (decides_if _ _ _ db). unfold league_member.
  destruct (Db.players db !! player) as [p|]; [|split; [done|by intros (? & ? & ? & _)]].
  destruct (PlayerColumns.user_id p) as [u|] eqn:Hu; cbn; [|split; [done|intros (? & ? & [= <-] & ? & _); congruence]].
  rewrite bool_decide_eq_true. split; [by exists p, u|]. intros (? & ? & [= <-] & Hu' & Hin). congruence.
Qed.

Lemma lock_decides s ts change db : decides (enforce_roster_lock s ts change None) (lock_permits s change) db.
Proof.
  pose proof (refusal_permits s change) as Hp. unfold enforce_roster_lock, decides.
  destruct (refusal_reason s change); [right|left; split; [done|by apply Hp]].
  eexists. split; [reflexivity|]. by intros Hl%Hp.
Qed.

(** No primary seat of the season is the player's. *)
Definition unengaged (season : LeagueSeasonId) (player : PlayerId) (db : Db.t) : Prop :=
  (player, season) ∉ primary_keys (Db.league_team_members db).

Lemma unengaged_decides season player db :
  leagues_in_order db → decides (require_no_primary season player) (unengaged season player db) db.
Proof.
  intros Ho. unfold require_no_primary, find_primary_team_in_season, mread, decides, mbind. cbn.
  destruct (head (members_where _ db)) as [m|] eqn:Hm; cbn.
  - right. eexists. split; [done|]. intros Hno. apply Hno.
    apply head_Some_elem_of, list_elem_of_filter in Hm as [Hm Hin]. apply andb_true_iff in Hm as [[Hk Hp]%andb_true_iff _].
    apply bool_decide_eq_true in Hk as [<- <-]. apply list_elem_of_fmap. exists m. split; [done|].
    by apply list_elem_of_filter.
  - left. split; [done|]. intros (m & [= -> ->] & [Hp Hin]%list_elem_of_filter)%list_elem_of_fmap.
    apply head_None in Hm. apply (not_elem_of_nil m). rewrite <- Hm. apply list_elem_of_filter. split; [|done].
    rewrite bool_decide_eq_true_2, Hp by done. cbn. unfold is_open. apply bool_decide_eq_true.
    apply (lo_seat _ Ho m Hin). unfold holds_primary in Hp. apply andb_true_iff in Hp as [_ Hp].
    by destruct (status m).
Qed.

(** The seats of a kind on a roster. *)
Definition seats_of (primary : bool) (ts : LeagueTeamSeasonId) (db : Db.t) : Z :=
  count (filter (λ m, (if primary then is_primary m else is_substitute m) = true) (roster ts db)).
Definition room (s : LeagueSeason.t) (ts : LeagueTeamSeasonId) (role : LeagueTeamRole.t) (db : Db.t) : Prop :=
  let primary := LeagueTeamRole.is_primary role in
  ∀ max, (if primary then LeagueSeason.team_size_max s else LeagueSeason.max_substitutes s) = Some max →
  seats_of primary ts db < max.

Lemma has_room_iff n max : has_room n max = true ↔ ∀ k, max = Some k → n < k.
Proof.
  destruct max as [max|]; cbn; [|by split]. rewrite bool_decide_eq_true. split; [by intros Hn k [= <-]|by auto].
Qed.
Lemma room_decides s ts role db : decides (require_room s ts role) (room s ts role db) db.
Proof.
  unfold require_room, room, seats_of. destruct (LeagueTeamRole.is_primary role);
    unfold count_primary_members, count_substitutes, count_where, mread, decides, mbind; apply (decides_if _ _ _ db);
    apply has_room_iff.
Qed.

(** *** The seat *)

(** Nobody may be seated twice on a roster. *)
Definition unseated (ts : LeagueTeamSeasonId) (player : PlayerId) (db : Db.t) : Prop :=
  ∀ m, seated ts db m → player_id m ≠ player.

Record may_accept (i : LeagueTeamInvitation.t) (by_ : PlayerId) (r : LeagueTeamSeason.t) (s : LeagueSeason.t)
    (t : LeagueTeam.t) (db : Db.t) : Prop := {
  ma_pending : LeagueTeamInvitation.status i = LeagueTeamInvitationStatus.Pending;
  ma_timely : Db.now db ≤ LeagueTeamInvitation.expires_at i;
  ma_party : answers i by_ db;
  ma_live : live t r s db;
  ma_member : league_member (LeagueSeason.league_id s) (LeagueTeamInvitation.player_id i) db;
  ma_lock : lock_permits s (RosterChange.Membership (LeagueTeamInvitation.role i));
  ma_free : LeagueTeamRole.is_primary (LeagueTeamInvitation.role i) = true →
    unengaged (LeagueTeamSeason.season_id r) (LeagueTeamInvitation.player_id i) db;
  ma_room : room s (LeagueTeamInvitation.team_season_id i) (LeagueTeamInvitation.role i) db;
  ma_unseated : unseated (LeagueTeamInvitation.team_season_id i) (LeagueTeamInvitation.player_id i) db;
}.

(** The seat [m] that a call took, in [rows'], and the others as they were. *)
Record takes_seat (cmd : AddLeagueTeamMember.t) (season : LeagueSeasonId) (now : DateTime) (m : t)
    (rows rows' : list t) : Prop := {
  tk_key : team_season_id m = AddLeagueTeamMember.team_season_id cmd ∧ player_id m = AddLeagueTeamMember.player_id cmd;
  tk_season : season_id m = season;
  tk_role : role m = AddLeagueTeamMember.role cmd;
  tk_active : status m = LeagueTeamMemberStatus.Active ∧ left_at m = None ∧ joined_at m = now;
  tk_added : added_by m = AddLeagueTeamMember.added_by cmd;
  tk_rows x : x ∈ rows' ↔ x = m ∨ x ∈ rows ∧
    (team_season_id x, player_id x) ≠ (AddLeagueTeamMember.team_season_id cmd, AddLeagueTeamMember.player_id cmd);
}.

(** A seat that opens adds at most its own key to the index. *)
Lemma primary_keys_perm rows rows' : rows ≡ₚ rows' → primary_keys rows ≡ₚ primary_keys rows'.
Proof. intros Hp. unfold primary_keys. by rewrite Hp. Qed.
Lemma seat_keys_perm rows rows' : rows ≡ₚ rows' → seat_keys rows ≡ₚ seat_keys rows'.
Proof. intros Hp. unfold seat_keys. by rewrite Hp. Qed.

Lemma primary_keys_cons m rows :
  NoDup (primary_keys rows) → (is_primary m = true → (player_id m, season_id m) ∉ primary_keys rows) →
  NoDup (primary_keys (m :: rows)).
Proof.
  intros Hnd Hnew. unfold primary_keys. rewrite filter_cons. case_decide as Hm; [|done]. rewrite fmap_cons.
  apply NoDup_cons. split; [|done]. apply Hnew. unfold holds_primary in Hm. by apply andb_true_iff in Hm as [? _].
Qed.
Lemma primary_keys_tail m rows k : k ∈ primary_keys rows → k ∈ primary_keys (m :: rows).
Proof.
  unfold primary_keys. rewrite filter_cons. case_decide; [|done]. rewrite fmap_cons, elem_of_cons. by right.
Qed.

Lemma refused_accepts db rows rest m :
  rows ≡ₚ m :: rest → jersey_number m = None → NoDup (seat_keys (m :: rest)) → NoDup (primary_keys rest) →
  (is_primary m = true → (player_id m, season_id m) ∉ primary_keys rest) → is_Some (Db.players db !! player_id m) →
  refused db rows m = None.
Proof.
  intros Hperm Hj Hk Hp Hnew Hpl. unfold refused, refers. rewrite Hj. cbn [from_option].
  rewrite !bool_decide_eq_true_2; [done|done|..].
  - rewrite (primary_keys_perm _ _ Hperm). by apply primary_keys_cons.
  - by rewrite (seat_keys_perm _ _ Hperm).
Qed.

Definition key (m : t) : LeagueTeamSeasonId * PlayerId := (team_season_id m, player_id m).

(** The rows before are [olds] of the seat's key and [rest] of others; after, the seat
    and [rest]. *)
Lemma seat_fits db m olds rest rows' :
  leagues_in_order db → Db.league_team_members db ≡ₚ olds ++ rest → rows' ≡ₚ m :: rest →
  (∀ x, x ∈ olds → key x = key m) → (∀ x, x ∈ rest → key x ≠ key m) →
  jersey_number m = None → is_Some (Db.players db !! player_id m) →
  (is_primary m = true → unengaged (season_id m) (player_id m) db) →
  refused db rows' m = None ∧
  ∀ x, x ∈ rows' ↔ x = m ∨ x ∈ Db.league_team_members db ∧ key x ≠ key m.
Proof.
  intros Ho Hold Hnew Holds Hrest Hj Hpl Hfree.
  pose proof (lo_seats _ Ho) as Hk. pose proof (lo_primary _ Ho) as Hp. split.
  - rewrite (seat_keys_perm _ _ Hold) in Hk. rewrite (primary_keys_perm _ _ Hold) in Hp.
    eapply refused_accepts; [exact Hnew|done|..|done].
    + unfold seat_keys in *. rewrite fmap_cons. apply NoDup_cons. split.
      * intros (x & Heq & Hx)%list_elem_of_fmap. by apply (Hrest x Hx).
      * rewrite fmap_app in Hk. by apply NoDup_app in Hk as (_ & _ & ?).
    + unfold primary_keys in *. rewrite filter_app, fmap_app in Hp. by apply NoDup_app in Hp as (_ & _ & ?).
    + intros Hprim Hin. apply (Hfree Hprim). rewrite (primary_keys_perm _ _ Hold).
      unfold primary_keys in *. rewrite filter_app, fmap_app. apply elem_of_app. by right.
  - intros x. rewrite Hnew, Hold, elem_of_cons, elem_of_app. split; [naive_solver|].
    intros [->|[[Hx|Hx] Hne]]; [by left| |by right]. by destruct Hne; apply Holds.
Qed.

Lemma at_seat_key ts player m : at_seat ts player m = true ↔ key m = (ts, player).
Proof. unfold at_seat, key. rewrite bool_decide_eq_true. split; [by intros [-> ->]|by intros [= -> ->]]. Qed.

Lemma seat_run cmd r db :
  leagues_in_order db → Db.league_team_seasons db !! AddLeagueTeamMember.team_season_id cmd = Some r →
  AddLeagueTeamMember.jersey_number cmd = None → is_Some (Db.players db !! AddLeagueTeamMember.player_id cmd) →
  (LeagueTeamRole.is_primary (AddLeagueTeamMember.role cmd) = true →
     unengaged (LeagueTeamSeason.season_id r) (AddLeagueTeamMember.player_id cmd) db) →
  unseated (AddLeagueTeamMember.team_season_id cmd) (AddLeagueTeamMember.player_id cmd) db →
  ∃ m n rows', seat_member cmd db = (Ok m, db <| Db.next_uuid := n |> <| Db.league_team_members := rows' |>) ∧
    takes_seat cmd (LeagueTeamSeason.season_id r) (Db.now db) m (Db.league_team_members db) rows'.
Proof.
  intros Ho Hr Hj Hpl Hfree Huns. unfold seat_member. unfold mbind, season_of. rewrite Hr.
  destruct (list_find _ _) as [[i old]|] eqn:Hf; cbn zeta.
  - apply list_find_Some in Hf as (Hi & Hat & _). pose proof (list_elem_of_lookup_2 _ _ _ Hi) as Hin.
    pose proof Hat as [Hts Hp]%bool_decide_eq_true.
    destruct (is_open old) eqn:Hop; [apply bool_decide_eq_true in Hop; by destruct (Huns old)|].
    set (m := reopened cmd (Db.now db) old). destruct (lo_seat _ Ho old Hin) as [_ (r' & Hr' & Hs)].
    assert (r' = r) as -> by congruence.
    destruct (list_elem_of_split_length _ _ _ Hi) as (l1 & l2 & Hl & Hlen).
    destruct (seat_fits db m [old] (l1 ++ l2) (<[i:=m]> (Db.league_team_members db))) as [Hok Hrows]; try done.
    + rewrite Hl. cbn. by rewrite Permutation_middle.
    + rewrite Hl, Hlen, insert_app_r_alt, Nat.sub_diag by done. cbn. by rewrite Permutation_middle.
    + by intros x ->%list_elem_of_singleton.
    + pose proof (lo_seats _ Ho) as Hk. rewrite Hl, (seat_keys_perm _ (old :: l1 ++ l2)) in Hk
        by (by rewrite Permutation_middle).
      apply NoDup_cons in Hk as [Hk _]. intros x Hx Heq. apply Hk. apply list_elem_of_fmap. by exists x.
    + cbn. by rewrite Hp.
    + cbn. rewrite Hp, <- Hs. exact Hfree.
    + rewrite Hok. exists m, (Db.next_uuid db), (<[i:=m]> (Db.league_team_members db)). split; [done|].
      split; try done. intros x. rewrite Hrows. unfold key. cbn. by rewrite Hts, Hp.
  - set (m := new_seat cmd _ _ _). apply list_find_None in Hf. rewrite Forall_forall in Hf.
    destruct (seat_fits db m [] (Db.league_team_members db) (Db.league_team_members db ++ [m])) as [Hok Hrows]; try done.
    + by rewrite <- Permutation_cons_append.
    + by intros x ?%elem_of_nil.
    + intros x Hx Heq. apply (Hf x Hx). by apply at_seat_key.
    + rewrite Hok. eexists m, _, _. split; [reflexivity|]. by split.
Qed.

(** A seat that is still open is not taken again. *)
Lemma seat_taken cmd r db m :
  leagues_in_order db → Db.league_team_seasons db !! AddLeagueTeamMember.team_season_id cmd = Some r →
  seated (AddLeagueTeamMember.team_season_id cmd) db m → player_id m = AddLeagueTeamMember.player_id cmd →
  ∃ e, seat_member cmd db = (Err e, db).
Proof.
  intros Ho Hr (Hin & Hts & Hl) Hp. unfold seat_member, mbind, season_of. rewrite Hr.
  destruct (list_find _ _) as [[i old]|] eqn:Hf; cbn zeta.
  - apply list_find_Some in Hf as (Hi & [Hts' Hp']%bool_decide_eq_true & _).
    assert (old = m) as ->.
    { eapply seat_unique; [by apply lo_seats|by eapply list_elem_of_lookup_2|done|congruence..]. }
    unfold is_open. rewrite bool_decide_true by done. by eexists.
  - apply list_find_None in Hf. rewrite Forall_forall in Hf. destruct (Hf m Hin). by apply bool_decide_eq_true.
Qed.

(** The invitation once accepted. *)
Definition accepted (i : LeagueTeamInvitation.t) (now : DateTime) : LeagueTeamInvitation.t :=
  i <| LeagueTeamInvitation.status := LeagueTeamInvitationStatus.Accepted |>
    <| LeagueTeamInvitation.responded_at := Some now |> <| LeagueTeamInvitation.response_message := None |>.

(** The state after: a seat taken, the invitation answered, and nothing else. *)
Definition accepts (i : LeagueTeamInvitation.t) (r : LeagueTeamSeason.t) (id : LeagueTeamInvitationId) (db : Db.t)
    (out : outcome t * Db.t) : Prop :=
  ∃ m n rows invitations,
    out = (Ok m, db <| Db.league_team_invitations := invitations |> <| Db.next_uuid := n |>
                    <| Db.league_team_members := rows |>) ∧
    takes_seat (LeagueTeamService.seat (LeagueTeamInvitation.team_season_id i) (LeagueTeamInvitation.player_id i)
                  (LeagueTeamInvitation.role i) (LeagueTeamInvitation.invited_by i))
      (LeagueTeamSeason.season_id r) (Db.now db) m (Db.league_team_members db) rows ∧
    invitations !! id = Some (accepted i (Db.now db)) ∧
    ∀ j, j ≠ id → invitations !! j = Db.league_team_invitations db !! j.

Definition answer (id : LeagueTeamInvitationId) (db : Db.t) : gmap LeagueTeamInvitationId LeagueTeamInvitation.t :=
  alter (LeagueTeamInvitationRepository.answered LeagueTeamInvitationStatus.Accepted None (Db.now db)) id
    (Db.league_team_invitations db).
Lemma answered_sound id db : leagues_sound db (LeagueTeamInvitationRepository.put (answer id db) db).
Proof.
  apply invitations_sound. unfold answer. intros Ho j i' Hj. destruct (decide (id = j)) as [<-|Hne].
  - rewrite lookup_alter_eq in Hj. apply fmap_Some in Hj as (i'' & Hi'' & ->). by apply (lo_invitation _ Ho _ _ Hi'').
  - rewrite lookup_alter_ne in Hj by done. by apply (lo_invitation _ Ho _ _ Hj).
Qed.

Lemma accept_seats i r s t id by_ db :
  leagues_in_order db → Db.league_team_invitations db !! id = Some i →
  Db.league_team_seasons db !! LeagueTeamInvitation.team_season_id i = Some r →
  may_accept i by_ r s t db →
  accepts i r id db (LeagueTeamInvitationRepository.accept_and_add_member id
    (LeagueTeamService.seat (LeagueTeamInvitation.team_season_id i) (LeagueTeamInvitation.player_id i)
       (LeagueTeamInvitation.role i) (LeagueTeamInvitation.invited_by i)) db).
Proof.
  intros Ho Hi Hr Hmay. set (cmd := LeagueTeamService.seat _ _ _ _).
  set (invs := answer id db). pose proof (answered_sound id db Ho) as Ho'. fold invs in Ho'.
  destruct (ma_member _ _ _ _ _ _ Hmay) as (p & u & Hp & _).
  destruct (seat_run cmd r (LeagueTeamInvitationRepository.put invs db)) as (m & n & rows & Hrun & Htake);
    [exact Ho'|exact Hr|done|by exists p|exact (ma_free _ _ _ _ _ _ Hmay)|exact (ma_unseated _ _ _ _ _ _ Hmay)|].
  exists m, n, rows, invs. split; [|split; [exact Htake|split]].
  - apply transaction_step. unfold mbind, mwrite. fold invs. exact Hrun.
  - unfold invs, answer. by rewrite lookup_alter_eq, Hi.
  - intros j Hne. unfold invs, answer. by rewrite lookup_alter_ne.
Qed.

(** C20. An invitation, or a request to join, is accepted exactly when it is pending and
  not past its date, the right party answers (the player invited, or a captain of the
  roster), team, registration and season are live, the player is a member of the
  league, the lock permits the seat, the player holds no other primary seat that
  season, there is room, and no seat on the roster is the player's; then the player is
  seated, once, in the role offered, the invitation is accepted, and nothing else
  changes. Otherwise the call fails and writes nothing. *)
Theorem accept_invitation_spec id i r s t by_ db :
  leagues_in_order db → Db.league_team_invitations db !! id = Some i →
  Db.league_team_seasons db !! LeagueTeamInvitation.team_season_id i = Some r →
  Db.league_seasons db !! LeagueTeamSeason.season_id r = Some s →
  Db.league_teams db !! LeagueTeamSeason.team_id r = Some t →
  let out := LeagueTeamInvitationService.accept_invitation id by_ db in
  (may_accept i by_ r s t db → accepts i r id db out) ∧
  (¬ may_accept i by_ r s t db → ∃ e, out = (Err e, db)).
Proof.
  intros Ho Hi Hr Hs Ht. cbn zeta. change (settled (may_accept i by_ r s t db) (accepts i r id db) db
    (LeagueTeamInvitationService.accept_invitation id by_ db)).
  unfold LeagueTeamInvitationService.accept_invitation, LeagueTeamInvitationService.get_invitation, require,
    LeagueTeamInvitationRepository.find_by_id. unfold mbind at 1 2, mread at 1. rewrite Hi. cbn [ok_or mlift].
  rewrite (mbind_step _ _ _ _ _ (eq_refl : mread Db.now db = (Ok (Db.now db), db))).
  destruct (LeagueTeamInvitation.is_actionable _ _) eqn:Hact; cbn [negb].
  2: { split; [|by eexists]. intros [Hp Hn _ _ _ _ _ _ _]. unfold LeagueTeamInvitation.is_actionable,
         LeagueTeamInvitation.is_pending, LeagueTeamInvitation.is_expired in Hact.
       rewrite Hp, bool_decide_false in Hact by lia. done. }
  apply andb_true_iff in Hact as [Hpend Htime%negb_true_iff%bool_decide_eq_false].
  change (LeagueTeamInvitationService.team_season_by_id) with (LeagueTeamService.get_team_season).
  rewrite (mbind_step _ _ _ _ _ (team_season_run _ _ _ Hr)).
  eapply settled_step; [apply party_decides|by intros []|]. intros Hparty.
  rewrite (mbind_step _ _ _ _ _ (season_run _ _ _ Hs)).
  assert (decides (LeagueTeamInvitationService.roster_live r s) (live t r s db) db) as Hrl.
  { unfold LeagueTeamInvitationService.roster_live, require, LeagueTeamRepository.find_by_id.
    unfold decides. unfold mbind, mread. rewrite Ht. cbn [ok_or mlift]. apply live_decides.
    by rewrite (proj1 (lo_season _ Ho _ _ Hs)). }
  eapply settled_step; [exact Hrl|by intros []|].
  intros Hlive. eapply settled_step; [apply member_decides|by intros []|]. intros Hmember.
  eapply settled_step; [apply lock_decides|by intros []|]. intros Hlock.
  eapply settled_step; [apply decides_when; intros _; by apply unengaged_decides|by intros []|]. intros Hfree.
  eapply settled_step; [apply room_decides|by intros []|]. intros Hroom.
  split; [by eapply accept_seats|]. intros Hno.
  destruct (member_of (LeagueTeamInvitation.team_season_id i) (LeagueTeamInvitation.player_id i) db) as [m|] eqn:Hm.
  - apply member_of_seated in Hm as [Hm Hp].
    set (cmd := LeagueTeamService.seat _ _ _ _).
    destruct (seat_taken cmd r (LeagueTeamInvitationRepository.put (answer id db) db) m) as [e He];
      [by apply answered_sound|done..|].
    exists e. eapply transaction_abort. unfold mbind, mwrite. exact He.
  - destruct Hno. split; try done.
    + unfold LeagueTeamInvitation.is_pending in Hpend. by destruct (LeagueTeamInvitation.status i).
    + lia.
    + intros m Hm' Hp. apply (seated_of_member _ _ _ _ (lo_seats _ Ho) Hm') in Hp. congruence.
Qed.
End invitation.

(** ** Archiving and restoring *)

Section archive.
Context `{Platform} `{TextRules}.
Import LeagueTeamMember LeagueTeamMemberRepository LeagueTeamRepository.

(** A seat of a roster of [live], released at [at_]. *)
Definition released (live : list LeagueTeamSeasonId) (at_ : DateTime) (m : t) : t :=
  if bool_decide (team_season_id m ∈ live) && is_open m
  then m <| status := LeagueTeamMemberStatus.Inactive |> <| left_at := Some at_ |> else m.

Lemma released_key live at_ m : player_id (released live at_ m) = player_id m ∧ season_id (released live at_ m) = season_id m ∧
  role (released live at_ m) = role m ∧ team_season_id (released live at_ m) = team_season_id m.
Proof. unfold released. by destruct (_ && _). Qed.

(** Whoever holds the index after a release held it before, and was not released. *)
Lemma released_primary live at_ m : holds_primary (released live at_ m) = true → released live at_ m = m ∧ holds_primary m = true.
Proof.
  unfold released. destruct (_ && _); [|done]. unfold holds_primary. cbn. by rewrite andb_false_r.
Qed.

Lemma primary_unique rows i j m m' :
  NoDup (primary_keys rows) → rows !! i = Some m → rows !! j = Some m' → holds_primary m = true → holds_primary m' = true →
  player_id m = player_id m' → season_id m = season_id m' → i = j.
Proof.
  rewrite primary_keys_omap. revert i j. induction rows as [|x rows IH]; intros i j Hnd Hi Hj Hm Hm' Hp Hs; [done|].
  assert (∀ k y, rows !! k = Some y → holds_primary y = true → (player_id y, season_id y) ∈ omap primary_key rows) as Hin.
  { intros k y Hk%list_elem_of_lookup_2 Hy. apply list_elem_of_omap. exists y. split; [done|].
    unfold primary_key. by rewrite Hy. }
  destruct i as [|i], j as [|j]; cbn in Hi, Hj; [done|..].
  - injection Hi as ->. cbn in Hnd. unfold primary_key at 1 in Hnd. rewrite Hm in Hnd.
    apply NoDup_cons in Hnd as [Hno _]. destruct Hno. rewrite Hp, Hs. by eapply Hin.
  - injection Hj as ->. cbn in Hnd. unfold primary_key at 1 in Hnd. rewrite Hm' in Hnd.
    apply NoDup_cons in Hnd as [Hno _]. destruct Hno. rewrite <- Hp, <- Hs. by eapply Hin.
  - f_equal. apply IH; try done. cbn in Hnd. destruct (primary_key x); [by apply NoDup_cons in Hnd as [_ ?]|done].
Qed.

(** Restoring takes back what archiving released, seat by seat. *)
Lemma restore_released db live at_ :
  leagues_in_order db →
  (∀ m, m ∈ Db.league_team_members db → team_season_id m ∈ live →
     ¬ (status m = LeagueTeamMemberStatus.Inactive ∧ left_at m = Some at_)) →
  let rows := released live at_ <$> Db.league_team_members db in
  (λ m, if comes_back live at_ rows m then restored m else m) <$> rows = Db.league_team_members db.
Proof.
  intros Ho Hfresh rows. unfold rows at 2. rewrite <- list_fmap_compose. rewrite <- (list_fmap_id (Db.league_team_members db)) at 2.
  apply list_fmap_ext. intros i m Hi. cbn. pose proof (list_elem_of_lookup_2 _ _ _ Hi) as Hin.
  destruct (bool_decide (team_season_id m ∈ live) && is_open m) eqn:Hrel.
  - pose proof Hrel as [Hlive%bool_decide_eq_true Hopen%bool_decide_eq_true]%andb_true_iff.
    destruct (lo_seat _ Ho m Hin) as [Hst _]. apply Hst in Hopen as Hact.
    assert (comes_back live at_ rows (released live at_ m) = true) as ->.
    { unfold comes_back. destruct (released_key live at_ m) as (-> & -> & _ & ->). unfold released. rewrite Hrel. cbn.
      rewrite bool_decide_true by done. cbn. apply negb_true_iff, andb_false_iff.
      destruct (is_primary _) eqn:Hprim; [right|by left]. apply bool_decide_eq_false.
      intros (x' & [= Hp Hs] & [Hx' Hin']%list_elem_of_filter)%list_elem_of_fmap.
      apply list_elem_of_lookup in Hin' as [j Hj]. unfold rows in Hj. rewrite list_lookup_fmap in Hj.
      destruct (Db.league_team_members db !! j) as [x|] eqn:Hx; [|done]. cbn in Hj. injection Hj as <-.
      destruct (released_primary live at_ x Hx') as [Hsame Hxp]. destruct (released_key live at_ x) as (Ep & Es & _).
      rewrite Ep in Hp. rewrite Es in Hs.
      assert (holds_primary m = true) as Hmp by (unfold holds_primary; rewrite Hact; by apply andb_true_iff).
      pose proof (primary_unique _ _ _ _ _ (lo_primary _ Ho) Hi Hx Hmp Hxp Hp Hs) as <-.
      rewrite Hi in Hx. injection Hx as <-. unfold released in Hsame. rewrite Hrel in Hsame.
      apply (f_equal left_at) in Hsame. cbn in Hsame. congruence. }
    unfold released. rewrite Hrel. unfold restored. destruct m. cbn in *. by subst.
  - assert (released live at_ m = m) as -> by (unfold released; by rewrite Hrel).
    destruct (comes_back live at_ rows m) eqn:Hc; [|done]. unfold comes_back in Hc.
    apply andb_true_iff in Hc as [(Hlive & Hs & Hl)%bool_decide_eq_true _]. by destruct (Hfresh m Hin Hlive).
Qed.

(** *** The row of the team *)

(** The columns archiving writes. *)
Definition stamped (at_ : option DateTime) (by_ : option UserId) (now : DateTime) (t : LeagueTeam.t) : LeagueTeam.t :=
  t <| LeagueTeam.archived_at := at_ |> <| LeagueTeam.archived_by := by_ |> <| LeagueTeam.updated_at := now |>.

Lemma others_stamped id t t' (P : LeagueTeam.t → bool) table :
  table !! id = Some t → LeagueTeam.id t' = id →
  others id (rows_where P table) = false → others id (rows_where P (<[id := t']> table)) = false.
Proof.
  intros Ht Hid Hno. apply not_true_iff_false. intros Hyes. apply existsb_exists in Hyes as (x & Hx & Hne).
  apply list_elem_of_In, elem_of_rows_where in Hx as [HP [k Hk]]. apply bool_decide_eq_true in Hne.
  apply lookup_insert_Some in Hk as [[<- <-]|[_ Hk]]; [done|]. apply Hne. by eapply no_others.
Qed.

(** The constraints do not look at the columns written, nor at other tables. *)
Lemma violated_stamped db db' id t t' at_ by_ now at_' by_' now' :
  violated db t = None → Db.league_teams db !! id = Some t → LeagueTeam.id t = id →
  t' = stamped at_' by_' now' t →
  Db.league_teams db' = <[id := t']> (Db.league_teams db) ∨ Db.league_teams db' = Db.league_teams db →
  Db.leagues db' = Db.leagues db → Db.players db' = Db.players db → violated db' (stamped at_ by_ now t) = None.
Proof.
  intros Hv Ht Hid -> Hteams Hl Hp. unfold violated in *. cbn -[others named tagged]. rewrite Hl, Hp.
  destruct (negb (_ && _)); [done|]. destruct (negb (tag_format _)); [done|].
  destruct (others _ (named _ _ _)) eqn:Hname; [done|]. destruct (others _ (tagged _ _ _)) eqn:Htag; [done|].
  assert (∀ P, others (LeagueTeam.id t) (rows_where P (Db.league_teams db)) = false →
    others (LeagueTeam.id t) (rows_where P (Db.league_teams db')) = false) as Hsame.
  { intros P HP. destruct Hteams as [-> | ->]; [|done]. rewrite Hid in *. by apply (others_stamped id t). }
  unfold named, tagged in *. by rewrite !Hsame.
Qed.

(** *** The slots of other teams *)

Lemma slots_of_others db db' id season t' :
  leagues_in_order db → Db.league_team_seasons db' = Db.league_team_seasons db →
  Db.league_teams db' = <[id := t']> (Db.league_teams db) →
  filter (λ r, LeagueTeamSeason.team_id r ≠ id) (LeagueSeasonRepository.slots season db') =
  filter (λ r, LeagueTeamSeason.team_id r ≠ id) (LeagueSeasonRepository.slots season db).
Proof.
  intros Ho Hr Ht. unfold LeagueSeasonRepository.slots, rows_where. rewrite Hr, !list_filter_filter.
  apply list_filter_iff. intros r. unfold LeagueSeasonRepository.holds_slot. rewrite Ht. split; intros [Hne Hs]; (split; [done|]);
    by rewrite lookup_insert_ne in * by done.
Qed.

Lemma full_without_same db db' id t' ts :
  leagues_in_order db → Db.league_team_seasons db' = Db.league_team_seasons db →
  Db.league_seasons db' = Db.league_seasons db → Db.league_teams db' = <[id := t']> (Db.league_teams db) →
  full_without id db' ts = full_without id db ts.
Proof.
  intros Ho Hr Hs Ht. unfold full_without. rewrite Hr, Hs. destruct (Db.league_team_seasons db !! ts) as [r|]; [|done]. cbn.
  destruct (Db.league_seasons db !! _) as [s|]; [|done]. cbn. destruct (LeagueSeason.max_teams s); [|done]. cbn.
  by rewrite (slots_of_others db db' id _ t').
Qed.

(** *** The round trip *)

Definition withdrawn_entries (live : list LeagueTeamSeasonId) (db : Db.t) (regs : gmap TournamentRegistrationId TournamentRegistration.t)
    : Prop :=
  ∀ id, regs !! id = (λ r, if RosterRelease.entry_of live r then RosterRelease.withdrawn (Db.now db) r else r)
                       <$> Db.registrations db !! id.

Lemma withdraw_entries_run live db :
  (∀ t, t ∈ RosterRelease.entered live db → RosterRelease.has_bracket t = false) →
  ∃ regs, RosterRelease.withdraw_open_cup_entries live db = (Ok tt, db <| Db.registrations := regs |>) ∧
    withdrawn_entries live db regs.
Proof.
  intros Hno. unfold RosterRelease.withdraw_open_cup_entries. case_bool_decide as Hl.
  - exists (Db.registrations db). split; [by destruct db|]. intros id. subst live.
    destruct (Db.registrations db !! id) as [r|]; [|done]. cbn. unfold RosterRelease.entry_of.
    destruct (TournamentRegistration.team_season_id r); cbn; [|done]. by rewrite bool_decide_false by apply not_elem_of_nil.
  - rewrite filter_none by (intros t Ht; by rewrite Hno). eexists. split; [reflexivity|]. intros id. by rewrite lookup_fmap.
Qed.

Lemma team_update_run db id t at_ by_ (c : DateTime → LeagueTeam.t → LeagueTeam.t) :
  Db.league_teams db !! id = Some t →
  (c (Db.now db) t) <| LeagueTeam.updated_at := Db.now db |> = stamped at_ by_ (Db.now db) t →
  violated db (stamped at_ by_ (Db.now db) t) = None →
  update_row id no_row c db =
    (Ok (stamped at_ by_ (Db.now db) t), put (<[id := stamped at_ by_ (Db.now db) t]> (Db.league_teams db)) db).
Proof. intros Ht Hc Hv. unfold update_row, update_where_id. rewrite Ht. cbn zeta. by rewrite Hc, Hv. Qed.

(** The state archiving leaves. *)
Definition archived_state (id : LeagueTeamId) (t : LeagueTeam.t) (user : UserId) (regs : gmap TournamentRegistrationId TournamentRegistration.t)
    (db : Db.t) : Db.t :=
  db <| Db.registrations := regs |>
     <| Db.league_team_members := released (RosterRelease.live_ids id db) (Db.now db) <$> Db.league_team_members db |>
     <| Db.league_teams := <[id := stamped (Some (Db.now db)) (Some user) (Db.now db) t]> (Db.league_teams db) |>.

Lemma archive_run id t user regs db :
  leagues_in_order db → Db.league_teams db !! id = Some t → LeagueTeam.archived_at t = None → violated db t = None →
  RosterRelease.withdraw_open_cup_entries (RosterRelease.live_ids id db) db = (Ok tt, db <| Db.registrations := regs |>) →
  LeagueTeamService.archive_team id user db =
    (Ok (stamped (Some (Db.now db)) (Some user) (Db.now db) t), archived_state id t user regs db).
Proof.
  intros Ho Ht Hat Hv Hw. apply transaction_step. set (live := RosterRelease.live_ids id db) in *.
  set (db2 := db <| Db.registrations := regs |>
                 <| Db.league_team_members := released live (Db.now db) <$> Db.league_team_members db |>).
  rewrite (mbind_step _ _ db (Some t) db) by (unfold find_by_id, mread; by rewrite Ht).
  rewrite (mbind_step _ _ db t db) by done. rewrite (mbind_step _ _ db live db) by done.
  rewrite (mbind_step _ _ db (Db.now db) db) by done. rewrite Hat.
  rewrite (mbind_step _ _ db tt db2) by (unfold mbind; by rewrite Hw).
  apply (team_update_run db2); [done| |].
  - unfold stamped. cbn. by rewrite Hat.
  - apply (violated_stamped db db2 id t (stamped None None 0 t) _ _ _ None None 0); try done; [by apply (lo_team _ Ho)|by right].
Qed.

Lemma restore_run id t user regs later db :
  leagues_in_order db → Db.league_teams db !! id = Some t → LeagueTeam.archived_at t = None → violated db t = None →
  (∀ ts, ts ∈ RosterRelease.live_ids id db → full_without id db ts = None) →
  (∀ m, m ∈ Db.league_team_members db → team_season_id m ∈ RosterRelease.live_ids id db →
     ¬ (status m = LeagueTeamMemberStatus.Inactive ∧ left_at m = Some (Db.now db))) →
  let db1 := (archived_state id t user regs db) <| Db.now := later |> in
  LeagueTeamService.restore_team id db1 =
    (Ok (stamped None None later t),
     put (<[id := stamped None None later t]> (Db.league_teams db1))
       (db1 <| Db.league_team_members := Db.league_team_members db |>)).
Proof.
  intros Ho Ht Hat Hv Hroom Hfresh db1. apply transaction_step.
  set (t1 := stamped (Some (Db.now db)) (Some user) (Db.now db) t).
  assert (Db.league_teams db1 !! id = Some t1) as Ht1 by apply lookup_insert_eq.
  set (live := RosterRelease.live_ids id db) in *. assert (RosterRelease.live_ids id db1 = live) as Hlive by done.
  set (db2 := db1 <| Db.league_team_members := Db.league_team_members db |>).
  rewrite (mbind_step _ _ db1 (Some t1) db1) by (unfold find_by_id, mread; by rewrite Ht1).
  rewrite (mbind_step _ _ db1 t1 db1) by done. rewrite (mbind_step _ _ db1 live db1) by done.
  rewrite (mbind_step _ _ db1 later db1) by done. change (LeagueTeam.archived_at t1) with (Some (Db.now db)).
  rewrite (mbind_step _ _ db1 tt db2).
  - apply (team_update_run db2 id t1 None None); [exact Ht1|done|].
    eapply (violated_stamped db db2 id t t1); try done; [by apply (lo_team _ Ho)|by left].
  - rewrite (mbind_step _ _ db1 tt db1).
    + unfold restore_seats. pose proof (restore_released db live (Db.now db) Ho Hfresh) as Hback. cbn zeta in Hback.
      change (Db.league_team_members db1) with (released live (Db.now db) <$> Db.league_team_members db).
      rewrite Hback, bool_decide_true by (by apply lo_primary). done.
    + unfold restore_capacity_check. replace (omap (full_without id db1) live) with (@nil LeagueSeason.t); [done|].
      symmetry. assert (∀ ts, full_without id db1 ts = full_without id db ts) as Hsame
        by (intros ts; by eapply (full_without_same db)).
      clear -Hroom Hsame. induction live as [|ts live IH]; [done|]. cbn. rewrite Hsame, Hroom by (by left).
      apply IH. intros ts' Hts'. apply Hroom. by right.
Qed.

End archive.

(** ** Witnesses *)

#[local] Existing Instance sample_platform.

(** Lower case of ASCII, spaces trimmed, and the order of the bytes. *)
Fixpoint drop_spaces (cs : list Ascii.ascii) : list Ascii.ascii :=
  match cs with " "%char :: cs => drop_spaces cs | _ => cs end.
Definition sample_text : TextRules := {|
  str_to_lowercase := to_lowercase;
  str_trim s := String.string_of_list_ascii (reverse (drop_spaces (reverse (drop_spaces (String.list_ascii_of_string s)))));
  sql_lower := to_lowercase;
  collate_leb := String.leb |}.
#[local] Existing Instance sample_text.

(** Three players, members of league 1. *)
Definition leagues_db : Db.t := (sample_db [] [] [])
  <| Db.players := list_to_map ((λ n : N, (n, PlayerColumns.mk (Some (100 + n)%N) "player" None None)) <$> [1; 2; 3]%N) |>
  <| Db.leagues := {[ 1%N := LeagueColumns.mk None None; 2%N := LeagueColumns.mk None None ]} |>
  <| Db.league_members := {[ (1%N, 101%N); (1%N, 102%N); (1%N, 103%N) ]} |>.

Definition season_cmd (league : LeagueId) : CreateLeagueSeasonCommand.t := {|
  CreateLeagueSeasonCommand.league_id := league; CreateLeagueSeasonCommand.name := "Spring";
  CreateLeagueSeasonCommand.slug := "spring"; CreateLeagueSeasonCommand.description := None;
  CreateLeagueSeasonCommand.registration_start := None; CreateLeagueSeasonCommand.registration_end := None;
  CreateLeagueSeasonCommand.season_start := None; CreateLeagueSeasonCommand.season_end := None;
  CreateLeagueSeasonCommand.team_size_min := None; CreateLeagueSeasonCommand.team_size_max := None;
  CreateLeagueSeasonCommand.max_substitutes := None; CreateLeagueSeasonCommand.max_teams := None |}.
Definition team_cmd (season : LeagueSeasonId) (name tag : string) : CreateLeagueTeamCommand.t := {|
  CreateLeagueTeamCommand.league_id := 1; CreateLeagueTeamCommand.season_id := season;
  CreateLeagueTeamCommand.name := name; CreateLeagueTeamCommand.tag := tag;
  CreateLeagueTeamCommand.description := None; CreateLeagueTeamCommand.logo_url := None;
  CreateLeagueTeamCommand.primary_color := None; CreateLeagueTeamCommand.secondary_color := None |}.

(** A season opens (1000), player 1 founds the Foxes (1001, in it 1002), and invites
    player 2 (1004). *)
Definition season_db : Db.t :=
  (LeagueSeasonService.update_status 1000 SeasonStatus.Registration
     (LeagueSeasonService.create_season 101 (season_cmd 1) leagues_db).2).2.
Definition founded_db : Db.t := (LeagueTeamService.create_team 1 (team_cmd 1000 "Foxes" "FOX") season_db).2.
Definition invited_db : Db.t :=
  (LeagueTeamInvitationService.create_invitation 1002 2 LeagueTeamRole.Player None 101 founded_db).2.
Definition joined_team_db : Db.t := (LeagueTeamInvitationService.accept_invitation 1004 2 invited_db).2.
Definition locked_team_db : Db.t :=
  (LeagueSeasonService.update_roster_lock 1000 RosterLockStatus.HardLock 101 joined_team_db).2.
Definition admin : RosterLockOverride.t := RosterLockOverride.mk 1 "stand-in" None.

(** The rows of the season, the team, its registration and the invitation. *)
Definition spring : LeagueSeason.t :=
  (LeagueSeasonRepository.inserted {|
    CreateLeagueSeason.league_id := 1; CreateLeagueSeason.name := "Spring"; CreateLeagueSeason.slug := "spring";
    CreateLeagueSeason.description := None; CreateLeagueSeason.registration_start := None;
    CreateLeagueSeason.registration_end := None; CreateLeagueSeason.season_start := None;
    CreateLeagueSeason.season_end := None; CreateLeagueSeason.team_size_min := None;
    CreateLeagueSeason.team_size_max := None; CreateLeagueSeason.max_substitutes := None;
    CreateLeagueSeason.max_teams := None; CreateLeagueSeason.created_by := 101 |} 1000 100)
  <| LeagueSeason.status := SeasonStatus.Registration |>.
Definition locked_spring : LeagueSeason.t :=
  LeagueSeasonRepository.locked RosterLockStatus.HardLock (Some 101%N) 100 spring.
Definition foxes : LeagueTeam.t :=
  LeagueTeamRepository.inserted {|
    CreateLeagueTeam.league_id := 1; CreateLeagueTeam.name := "Foxes"; CreateLeagueTeam.tag := "FOX";
    CreateLeagueTeam.description := None; CreateLeagueTeam.logo_url := None; CreateLeagueTeam.primary_color := None;
    CreateLeagueTeam.secondary_color := None; CreateLeagueTeam.owner_player_id := 1 |} 1001 100.
Definition foxes_entry : LeagueTeamSeason.t :=
  LeagueTeamSeasonRepository.inserted 1001 1000 LeagueTeamSeasonStatus.Forming None 1002 100.
Definition offer : LeagueTeamInvitation.t :=
  LeagueTeamInvitationRepository.inserted {|
    CreateLeagueTeamInvitation.team_season_id := 1002; CreateLeagueTeamInvitation.player_id := 2;
    CreateLeagueTeamInvitation.invitation_type := LeagueTeamInvitationType.Invite;
    CreateLeagueTeamInvitation.role := LeagueTeamRole.Player; CreateLeagueTeamInvitation.message := None;
    CreateLeagueTeamInvitation.invited_by := Some 101%N |} 1004 100.

Lemma leagues_db_in_order : leagues_in_order leagues_db.
Proof.
  split; cbn; try (by intros; simplify_map_eq); [by apply NoDup_nil_2..|by intros m Hm%elem_of_nil].
Qed.

Lemma to_invited : rtc league_step leagues_db invited_db.
Proof.
  unfold invited_db, founded_db, season_db.
  eapply rtc_l; [apply CreateSeason|]. eapply rtc_l; [apply SeasonStep|]. eapply rtc_l; [apply CreateTeam|].
  eapply rtc_l; [apply Invite|]. reflexivity.
Qed.
Lemma invited_in_order : leagues_in_order invited_db.
Proof. apply (league_steps_sound _ _ to_invited leagues_db_in_order). Qed.
Lemma joined_team_in_order : leagues_in_order joined_team_db.
Proof. apply (league_step_sound invited_db); [apply Accept|apply invited_in_order]. Qed.



Lemma offer_stands : may_accept offer 2 foxes_entry spring foxes invited_db.
Proof.
  split; try done.
  - split; try done. by exists (LeagueColumns.mk None None).
  - exists (PlayerColumns.mk (Some 102%N) "player" None None), 102%N. split; [reflexivity|]. split; [reflexivity|].
    refine (bool_decide_eq_true_1 _ _). reflexivity.
  - intros _. unfold unengaged. refine (bool_decide_eq_true_1 _ _). reflexivity.
  - intros max [= <-]. reflexivity.
  - assert (LeagueTeamMember.player_id <$> Db.league_team_members invited_db = [1%N]) as Hone by reflexivity.
    intros m (Hin & _) Hp. assert (LeagueTeamMember.player_id m ∈ [1%N]) as Hm.
    { rewrite <- Hone. apply list_elem_of_fmap. by exists m. }
    apply list_elem_of_singleton in Hm. rewrite Hm in Hp. by vm_compute in Hp.
Qed.

Example accept_invitation_spec_witness :
  accepts offer foxes_entry 1004 invited_db (LeagueTeamInvitationService.accept_invitation 1004 2 invited_db).
Proof.
  apply (accept_invitation_spec 1004 offer foxes_entry spring foxes 2 invited_db invited_in_order);
    [reflexivity..|]. exact offer_stands.
Defined.

(** The only captain is not lifted off. *)
Example last_captain_stays_witness :
  has_captain 1002 (run (RemoveSeat 1002 1 None) joined_team_db).2.
Proof.
  apply last_captain_stays; [exact joined_team_in_order|].
  exists (LeagueTeamMemberRepository.new_seat (LeagueTeamSeasonRepository.captain_seat 1002 1) 1003 1000 100).
  split; [|reflexivity]. split; [|by split].
  assert (head (Db.league_team_members joined_team_db) = Some (LeagueTeamMemberRepository.new_seat
    (LeagueTeamSeasonRepository.captain_seat 1002 1) 1003 1000 100)) as Hhead by reflexivity.
  by apply head_Some_elem_of.
Defined.

Lemma nobody_inactive : forallb (λ m, bool_decide (LeagueTeamMember.status m = LeagueTeamMemberStatus.Active))
  (Db.league_team_members joined_team_db) = true.
Proof. reflexivity. Qed.


(** ** What the rules let through *)

Definition outcome_ok {A} (o : outcome A) : bool := match o with Ok _ => true | Err _ => false end.

(** An override passes the freeze of a season that is over, and changes its roster. *)
Definition over_db : Db.t :=
  (LeagueSeasonService.update_status 1000 SeasonStatus.Completed
     (LeagueSeasonService.update_status 1000 SeasonStatus.Active joined_team_db).2).2.
Example override_passes_final_season :
  (LeagueSeason.status <$> Db.league_seasons over_db !! 1000%N) = Some SeasonStatus.Completed ∧
  outcome_ok (run (RemoveSeat 1002 2 None) over_db).1 = false ∧
  outcome_ok (run (RemoveSeat 1002 2 (Some admin)) over_db).1 = true ∧
  (LeagueTeamMember.left_at <$> Db.league_team_members (run (RemoveSeat 1002 2 (Some admin)) over_db).2)
    = [None; Some 100].
Proof. repeat split; reflexivity. Qed.

(** A substitute made captain joins the primary roster, under a soft lock and past its
    size. *)
Definition small_cmd : UpdateLeagueSeasonCommand.t := {|
  UpdateLeagueSeasonCommand.name := None; UpdateLeagueSeasonCommand.slug := None;
  UpdateLeagueSeasonCommand.description := None; UpdateLeagueSeasonCommand.registration_start := None;
  UpdateLeagueSeasonCommand.registration_end := None; UpdateLeagueSeasonCommand.season_start := None;
  UpdateLeagueSeasonCommand.season_end := None; UpdateLeagueSeasonCommand.team_size_min := None;
  UpdateLeagueSeasonCommand.team_size_max := Some 2; UpdateLeagueSeasonCommand.max_substitutes := None;
  UpdateLeagueSeasonCommand.max_teams := None; UpdateLeagueSeasonCommand.status := None;
  UpdateLeagueSeasonCommand.roster_lock_status := Some RosterLockStatus.SoftLock;
  UpdateLeagueSeasonCommand.settings := None |}.
Definition soft_db : Db.t :=
  (run (AddSeat 1002 3 LeagueTeamRole.Substitute 101 None)
     (LeagueSeasonService.update_season 1000 small_cmd 101 joined_team_db).2).2.
Example substitute_promoted_under_soft_lock :
  outcome_ok (run (AddSeat 1002 3 LeagueTeamRole.Player 101 None)
    (LeagueSeasonService.update_season 1000 small_cmd 101 joined_team_db).2).1 = false ∧
  outcome_ok (run (MakeCaptain 1002 3 None) soft_db).1 = true ∧
  seats_of true 1002 soft_db = 2 ∧ seats_of true 1002 (run (MakeCaptain 1002 3 None) soft_db).2 = 3.
Proof. repeat split; reflexivity. Qed.

(** An override is on record although the change it was for was refused. *)
Example override_recorded_without_change :
  outcome_ok (run (RemoveSeat 1002 1 (Some admin)) locked_team_db).1 = false ∧
  length (Db.entity_changes (run (RemoveSeat 1002 1 (Some admin)) locked_team_db).2) = 1%nat.
Proof. split; reflexivity. Qed.

(** A player who withdrew from a season is not registered, and cannot be again. *)
Definition back_out_db : Db.t :=
  (LeagueSeasonParticipantService.withdraw 1001 3 (LeagueSeasonParticipantService.register 1000 3 season_db).2).2.
Example withdrawn_player_cannot_return :
  (LeagueSeasonParticipantService.is_registered 1000 3 back_out_db).1 = Ok false ∧
  (LeagueSeasonParticipantService.register 1000 3 back_out_db).1 =
    Err (Error (DomainError.Internal (constraint_violation "league_season_participants_unique"))).
Proof. split; reflexivity. Qed.

(** A name with a space after it escapes the check of names, not the index. *)
Example spaced_name_is_internal :
  (LeagueTeamService.create_team 3 (team_cmd 1000 "Foxes " "FX")
     (LeagueTeamService.create_team 1 (team_cmd 1000 "Foxes " "FOX") season_db).2).1 =
  Err (Error (DomainError.Internal (constraint_violation "league_teams_name_unique"))).
Proof. reflexivity. Qed.
